(* ===== verification/_CoqProject ===== *)
-Q . S2P
Prelude.v
Bytes.v
Ranges.v
Text.v
Crypto.v
Boot.v
Aael.v
EventLog.v
Replay.v
CommandLine.v
Runtime.v
Verity.v
Uki.v
UkiSelection.v
UkiExecution.v
UkiVerify.v
Closure.v
Spdm.v
Opaque.v
Relay.v
Eat.v
Pki.v
Crl.v
Pem.v
TdxQuote.v
SnpQuote.v
NitroQuote.v
SnpCollateral.v
TdxCollateral.v
QuoteVerify.v
NitroTpm.v
DesktopTpm.v
Azure.v
BootSafe.v
GpuCert.v
GpuIdentity.v
Revocation.v
Rim.v
CorimCbor.v
Corim.v
Effects.v
Host.v
Tsm.v
Cms.v
Nsm.v
Tee.v
Verdict.v
Tools.v
AzureCollect.v
GpuVerify.v
Google.v
Attestation.v
Chain.v
GpuAppraisal.v
Collector.v
Registry.v
Vsock.v
Ct.v
ValueX.v
Mobile.v
RelayAdmit.v
Tiers.v
AttestedTls.v
