(* ===== verification/Prelude.v ===== *)
(** * Verification of the unified-quote attestation verifier

    The program ([src/v2/src]) collects and verifies hardware attestation: a CPU quote
    (Intel TDX, AMD SEV-SNP, AWS Nitro), boot and runtime event logs, unified kernel
    images and file closures that explain the measured registers, GPU measurement
    reports, tokens (EAT) that bind all of it to a key and a nonce, chains of tokens of
    earlier build stages, and relay credentials issued on top.  This library models its
    verifiers, which are functions of untrusted bytes, and proves what acceptance means.
    The model is the build with the features tdx, sev-snp, nitro and gpu.

    ** How code is modelled

    A fallible function is a function into [res E A]: [Ok], [Err] with the error type of
    the module, [Panic] for an out-of-range index, a failed [unwrap] or an overflow of
    checked arithmetic, and [NoFuel] when the fuel of a loop is exhausted.  [safe c Q]
    says that [c] neither panics nor exhausts its fuel and that its value satisfies [Q];
    [decides c P Q] adds that it returns a value exactly when [P] holds.  Bytes are
    [list byte], machine integers are [N] with the width written out where it matters,
    [HashMap] and [BTreeMap] are [gmap] (with the order of iteration where an error
    depends on it), [HashSet] is [gset].  [Vec] indexing is [index]/[index_range], which
    panic out of range as the source does.  A [for] loop is [for_each]; a [while] loop
    has fuel, and the [safe] theorems show that the fuel chosen (the length of the input,
    or the bound that the code itself enforces) is enough.

    Code outside the repository is a class whose operations are arguments: hashes
    ([Crypto.Sha2], with their lengths as laws), Ed25519 ([Crypto]), ECDSA and RSA
    ([Pki.CpuCrypto]), X.509 decoding ([Pki.X509]), DER ([SnpCollateral.DerPrims]), JSON
    and DER of Intel's documents ([TdxCollateral.IntelDocs]), CBOR ([Eat.CborCodec],
    [NitroQuote.CborValues], [NitroTpm.Ciborium]), Azure's JSON and RSA
    ([Azure.AzureLibs]), AMD's key service ([SnpQuote.Kds]), the helper process
    ([Google.GoogleHelper]), formats of the top-level verifier
    ([Attestation.TokenFormats]), DER, OCSP, XML and P-384 keys of the GPU verifier
    ([GpuCert.GpuX509], [GpuIdentity.DiceDer], [Revocation.OcspFormats], [Rim.Xml],
    [Rim.P384Keys]), its CBOR and the missing module gpu::google
    ([GpuAppraisal.NvidiaFormats]), the registry's formats and directories
    ([Registry.RegistryFormats], [Registry.RegistryFs]), CoRIM's tags and certificates
    ([CorimCbor.CorimFormats]), base64 ([Vsock.Base64]), the re-encoding of certificates
    ([Ct.CtFormats], [Mobile.CertEncoder]), TPM and KMS keys ([DesktopTpm.TpmRsa], [Nsm.NsmKeys],
    [Cms.KmsCrypto]), devices ([Tsm.SnpDevice], [Nsm.NsmDriver], [Collector.GpuDevices]), and
    the operating system: files and ioctls in [CommandLine], [Verity] and [Closure], and for
    the collectors [Host.Host] and [Tools.Machine], oracles that may answer each call as
    they like after the trace of the calls before it.  Statements about binding
    are of the form: equal, or a collision between two named messages, or among two lists
    of messages computed from the subjects ([Crypto.collision_among]).  Concrete instances
    of every class evaluate the definitions in the witnesses.

    ** Files

    - [Prelude], [Bytes], [Ranges], [Text], [Crypto]: the outcome monad with its proof
      rules and tactics, bytes and little/big-endian integers, disjoint ranges, UTF-8 and
      UTF-16, hash and signature classes.
    - [Boot], [EventLog], [Replay], [CommandLine] ([boot.rs]): the log cursor, the parser,
      replay into registers, comparison with authenticated registers, command lines and
      the dm-verity commitment.  The parser accepts exactly the encodings of well-formed
      logs; replay refines the extension semantics; verification accepts exactly the logs
      whose replay gives the registers, so two accepted logs agree on what was measured.
    - [Aael], [Runtime] ([boot/runtime.rs]): runtime events on RTMR3.
    - [Verity] ([boot/verity.rs]): observation of the mounted root device.
    - [Uki], [UkiSelection], [UkiExecution], [UkiVerify] ([boot/uki.rs], [uki/*.rs]): the
      PE parser, section selection, and the explanation of the register by the image, the
      command line and addons, every event accounted for.
    - [Closure] ([boot/closure.rs]): Merkle manifest of a set of files.
    - [Spdm], [Opaque] ([gpu/spdm.rs], [gpu/opaque.rs]): GPU reports; both parsers accept
      exactly the encodings of their formats.
    - [Eat] ([eat.rs]): tokens; equal report data means equal claims.
    - [Relay] ([relay.rs]): challenges, credentials and replay stores as a step relation;
      a challenge is consumed at most once in every execution.
    - [Pki], [Crl], [Pem] ([quote/pki.rs]): certificate paths, revocation lists, PEM.
    - [TdxQuote], [SnpQuote], [NitroQuote] ([quote/verify.rs], [quote/roots.rs],
      [tee/kds.rs] in part): the quote verifiers; what they declare valid is authentic to
      the pinned vendor root and carries the binding.
    - [SnpCollateral], [TdxCollateral] ([quote/snp_collateral.rs],
      [quote/tdx_collateral.rs]): appraisal of the platform's security version against
      vendor-signed collateral and the verifier's policy.
    - [QuoteVerify] ([quote/verify.rs]): verification and admission, the composition of the
      verifiers and the appraisals; the two readers of a TDX quote agree, so what is
      appraised is what was authenticated.
    - [NitroTpm] ([tee/nitrotpm_verify.rs]) and [Azure] ([tee/azure_composite.rs]): signed
      NitroTPM documents, and the composite of an SNP report, a paravisor's runtime claims
      and a TPM quote; the reader of TPM quotes accepts exactly their encodings.
    - [BootSafe]: the boot verifiers return on every input.
    - [Verdict], [Google] ([google_backend.rs]): the error type of the top level and its
      monad, in which the state survives an error; the external verifier process.
    - [Attestation] ([attestation.rs], [tee/composite.rs]): builder and verifier of tokens.
      [verify_inner] is the composition of one definition per section of the source; each
      has a lemma that gives its effect on the verdict, and [appraised] collects them.
    - [GpuCert] ([gpu/cert.rs]), [GpuIdentity] ([gpu/identity.rs]), [Revocation]
      ([gpu/revocation.rs]), [Rim] ([gpu/rim.rs]): certificate paths of devices and
      manifests, the identity in a device's certificate, OCSP and revocation lists for
      every certificate of a path, and signed reference measurements.  [Revocation]
      reuses the list checks of [Crl], which take the signature check as an argument.
    - [GpuVerify] ([gpu/verify.rs], [gpu/mod.rs]): policies, appraisal of measurements and
      security versions, the fabric, and bundles; an accepted bundle is about exactly the
      enrolled devices.
    - [GpuAppraisal]: [GpuVerify] as the instance of the interface
      [Attestation.GpuAppraiser], against which [Attestation] and [Chain] are proved, and
      the statement about GPUs that the composition gives.
    - [Chain] ([attestation_chain.rs]): policies and receipts of earlier stages, and the
      recursion between them and the verifier.  The theorems here are end to end: every
      token gets a verdict, a valid verdict means an appraised token, and every
      requirement that was configured shows in it.

    - [DesktopTpm] ([tee/desktop/tpm.rs]): the verifier of TPM quotes of desktops, with the
      endorsement path, the activation token and the IMA log.
    - [Effects], [Host]: computations whose state survives errors, and the operating
      system as an oracle with a trace; a trace is [tidy] when the removal of what was
      created is requested and every child is waited for.
    - [Tsm], [Nsm], [Cms], [Tee], [Tools], [AzureCollect] ([tee/]): the collectors of
      evidence: configfs reports, the Nitro device and the answers of the key service,
      detection of the platform, the NitroTPM tool, the Azure composite.
    - [Collector] ([attestation.rs]): the builder of tokens; what it returns carries the
      claims that were asked for and a quote over their binding.
    - [Registry] ([registry.rs]): the registry of Value X entries, sidecars and snapshots.
    - [CorimCbor], [Corim] ([gpu/corim.rs]): the preflight of CBOR documents, and the reader
      of signed reference manifests.
    - [Vsock] ([net/vsock.rs]): the public listener: which requests are admitted, what it
      answers.
    - [Ct] ([net/ct.rs]): timestamps of transparency logs.
    - [AttestedTls] ([net/attested_tls.rs]): the reader of evidence in a certificate.
    - [ValueX] ([value_x.rs]): the hash of a source tree: what it identifies, and which
      different trees it does not tell apart.
    - [Mobile] ([tee/mobile/], [tee/desktop/app_attest.rs], [tee/desktop/host_guest.rs]):
      application attestations; what is accepted, and that no acceptance depends on a key of
      the vendor.
    - [RelayAdmit] ([relay.rs]): the admission of enclaves and devices by a relay, and what a
      credential issued from them stands for.
    - [Tiers] ([tiers.rs]): the names of what a platform label stands for.

    ** Not modelled

    Network retrieval and caching in [tee/kds.rs] and the client of [gpu/revocation.rs]
    (services are parameters); the acquisition of GPU collateral ([gpu/collateral.rs]); the
    vendor library bindings under [gpu/] (nscq, nvml); TLS, ACME, the writer of attested
    certificates and the sockets of [net/vsock.rs]; the command line tools (I/O around the
    modelled functions); the first Azure client ([tee/azure.rs]), which the composite
    replaces; the earlier crate under [src/src], which this one replaces. *)
From Stdlib Require Export Init.Byte Strings.Byte NArith Lia.
From stdpp Require Export base numbers gmap sorting strings countable list.


#[global] Open Scope N_scope.

(** ** Outcomes of Rust code

    [Ok] and [Err] are [Result]'s constructors.  [Panic] is an unwinding panic
    (an out-of-range index, a failed [unwrap], an arithmetic overflow in a
    build with overflow checks).  [NoFuel] marks the exhaustion of the fuel
    that a modelled loop carries; it is not a behaviour of the program, and the
    [safe] theorems prove that neither of the two is ever reached. *)
Inductive res (E A : Type) : Type :=
| Ok (a : A)
| Err (e : E)
| Panic
| NoFuel.
Arguments Ok {E A} a.
Arguments Err {E A} e.
Arguments Panic {E A}.
Arguments NoFuel {E A}.

#[global] Instance res_ret E : MRet (res E) := fun A a => Ok a.
#[global] Instance res_bind E : MBind (res E) := fun A B f c =>
  match c with
  | Ok a => f a
  | Err e => Err e
  | Panic => Panic
  | NoFuel => NoFuel
  end.
#[global] Instance res_fmap E : FMap (res E) := fun A B f c =>
  match c with
  | Ok a => Ok (f a)
  | Err e => Err e
  | Panic => Panic
  | NoFuel => NoFuel
  end.

(** [if c { return Err(e) }] *)
Definition reject_if {E} (c : bool) (e : E) : res E unit :=
  if c then Err e else Ok tt.

(** [anyhow::ensure!(c, e)] *)
Definition ensure {E} (c : bool) (e : E) : res E unit :=
  if c then Ok tt else Err e.

(** [o.ok_or(e)?] *)
Definition ok_or {E A} (o : option A) (e : E) : res E A :=
  match o with Some a => Ok a | None => Err e end.

(** [o.unwrap()] *)
Definition unwrap {E A} (o : option A) : res E A :=
  match o with Some a => Ok a | None => Panic end.

(** [r.map_err(f)] *)
Definition map_err {E F A} (f : E -> F) (r : res E A) : res F A :=
  match r with
  | Ok a => Ok a
  | Err e => Err (f e)
  | Panic => Panic
  | NoFuel => NoFuel
  end.

(** [for x in l { acc = f(acc, x)?; }] *)
Fixpoint for_each {E A B} (f : A -> B -> res E A) (acc : A) (l : list B) : res E A :=
  match l with
  | [] => Ok acc
  | x :: l => acc ← f acc x; for_each f acc l
  end.

Definition is_ok {E A} (r : res E A) : bool :=
  match r with Ok _ => true | _ => false end.

(** [r.unwrap_or(d)] *)
Definition unwrap_or {E A} (r : res E A) (d : A) : A := if r is Ok a then a else d.

(** ** Partial correctness and panic freedom in one predicate

    [safe c Q]: [c] neither panics nor runs out of fuel, and its value, when it
    returns one, satisfies [Q].  Errors are allowed. *)
Definition safe {E A} (c : res E A) (Q : A -> Prop) : Prop :=
  match c with
  | Ok a => Q a
  | Err _ => True
  | Panic => False
  | NoFuel => False
  end.

Lemma safe_bind {E A B} (c : res E A) (f : A -> res E B) Q :
  safe c (fun a => safe (f a) Q) -> safe (c ≫= f) Q.
Proof. by destruct c. Qed.

Lemma safe_bind_inv {E A B} (c : res E A) (f : A -> res E B) Q :
  safe (c ≫= f) Q -> safe c (fun a => safe (f a) Q).
Proof. by destruct c. Qed.

Lemma safe_mono {E A} (c : res E A) (P Q : A -> Prop) :
  safe c P -> (forall a, c = Ok a -> P a -> Q a) -> safe c Q.
Proof. destruct c; simpl; auto. Qed.

Lemma safe_seq {E A B} (c : res E A) (f : A -> res E B) P Q :
  safe c P -> (forall a, c = Ok a -> P a -> safe (f a) Q) -> safe (c ≫= f) Q.
Proof. destruct c; simpl; auto. Qed.

Lemma safe_Ok {E A} (c : res E A) Q a : safe c Q -> c = Ok a -> Q a.
Proof. by intros H ->. Qed.

Lemma safe_reject_if {E} (c : bool) (e : E) (Q : unit -> Prop) :
  (c = false -> Q tt) -> safe (reject_if c e) Q.
Proof. destruct c; simpl; auto. Qed.

Lemma safe_ensure {E} (c : bool) (e : E) (Q : unit -> Prop) :
  (c = true -> Q tt) -> safe (ensure c e) Q.
Proof. destruct c; simpl; auto. Qed.

Lemma safe_ok_or {E A} (o : option A) (e : E) (Q : A -> Prop) :
  (forall a, o = Some a -> Q a) -> safe (ok_or o e) Q.
Proof. destruct o; simpl; auto. Qed.

Lemma safe_unwrap {E A} (o : option A) (Q : A -> Prop) :
  (exists a, o = Some a /\ Q a) -> safe (E:=E) (unwrap o) Q.
Proof. by intros (a & -> & HQ). Qed.

Lemma safe_map_err {E F A} (f : E -> F) (r : res E A) Q :
  safe r Q -> safe (map_err f r) Q.
Proof. by destruct r. Qed.

(** A loop keeps an invariant that holds initially and that the body keeps. *)
Lemma safe_for_each {E A B} (f : A -> B -> res E A) (I : A -> Prop) l acc :
  I acc ->
  (forall a x, x ∈ l -> I a -> safe (f a x) I) ->
  safe (for_each f acc l) I.
Proof.
  revert acc; induction l as [|x l IH]; intros acc Hacc Hstep; simpl; [done|].
  apply safe_bind, (safe_mono _ I); [apply Hstep; [left|done]|].
  intros a _ Ha. apply IH; [done|]. intros a' x' Hx; apply Hstep; by right.
Qed.

Lemma for_each_app {E A B} (f : A -> B -> res E A) acc l1 l2 :
  for_each f acc (l1 ++ l2) = (a ← for_each f acc l1; for_each f a l2).
Proof.
  revert acc; induction l1 as [|x l1 IH]; intros acc; simpl; [done|].
  destruct (f acc x); simpl; auto.
Qed.

Lemma for_each_cons {E A B} (f : A -> B -> res E A) acc x l :
  for_each f acc (x :: l) = (a ← f acc x; for_each f a l).
Proof. done. Qed.
Lemma for_each_snoc {E A B} (f : A -> B -> res E A) acc l x :
  for_each f acc (l ++ [x]) = (a ← for_each f acc l; f a x).
Proof. rewrite for_each_app. destruct (for_each f acc l) as [a| | |]; simpl; [by destruct (f a x)|done..]. Qed.

Lemma bind_assoc_res {E A B C} (c : res E A) (f : A -> res E B) (g : B -> res E C) : (c ≫= f) ≫= g = c ≫= (fun a => f a ≫= g).
Proof. by destruct c. Qed.
(** A loop whose steps are independent of each other has passed each of them. *)
Lemma safe_for_all {E A} (f : unit -> A -> res E unit) l :
  (forall x, x ∈ l -> safe (f tt x) (fun _ => True)) -> safe (for_each f tt l) (fun _ => forall x, x ∈ l -> f tt x = Ok tt).
Proof.
  induction l as [|x l IH]; intros Hf; [by intros x Hx%not_elem_of_nil|]. rewrite for_each_cons.
  eapply safe_seq; [apply Hf; left|]. intros [] Hx _. eapply safe_mono; [apply IH; intros y Hy; apply Hf; by right|].
  intros [] _ Hl y [->|Hy]%elem_of_cons; [done|by apply Hl].
Qed.

(** A loop keeps an invariant of what it has processed. *)
Lemma safe_prefix {E A B} (f : A -> B -> res E A) (I : list B -> A -> Prop) l acc :
  I [] acc -> (forall pre x post a, l = pre ++ x :: post -> I pre a -> safe (f a x) (I (pre ++ [x]))) -> safe (for_each f acc l) (I l).
Proof.
  intros H0 Hstep. enough (forall post pre a, l = pre ++ post -> I pre a -> safe (for_each f a post) (I l)) as Hg by exact (Hg l [] acc eq_refl H0).
  clear acc H0. induction post as [|x post IH]; intros pre a -> Ha; [by rewrite app_nil_r|]. rewrite for_each_cons.
  eapply safe_seq; [by apply (Hstep pre x post)|]. intros a' _ Ha'. apply (IH (pre ++ [x])); [by rewrite <- app_assoc|done].
Qed.

(** [decides c P Q]: [c] neither panics nor runs out of fuel, it returns a value
    exactly when [P] holds, and the value satisfies [Q]. *)
Definition decides {E A} (c : res E A) (P : Prop) (Q : A -> Prop) : Prop :=
  match c with
  | Ok a => P /\ Q a
  | Err _ => ~ P
  | Panic => False
  | NoFuel => False
  end.

Lemma decides_safe {E A} (c : res E A) P Q : decides c P Q -> safe c (fun a => P /\ Q a).
Proof. by destruct c. Qed.

Lemma decides_iff {E A} (c : res E A) P P' (Q Q' : A -> Prop) :
  decides c P Q -> (P <-> P') -> (forall a, c = Ok a -> P -> Q a -> Q' a) -> decides c P' Q'.
Proof. destruct c; simpl; naive_solver. Qed.

#[global] Instance decides_proper {E A} :
  Proper (eq ==> iff ==> pointwise_relation A iff ==> iff) (@decides E A).
Proof.
  intros c _ <- P P' HP Q Q' HQ. destruct c as [a| | |]; simpl; [|by rewrite HP|done..].
  by rewrite HP, (HQ a).
Qed.

Lemma decides_reject_if {E} (c : bool) (e : E) (P : Prop) (Q : unit -> Prop) :
  (c = false <-> P) -> (P -> Q tt) -> decides (reject_if c e) P Q.
Proof. destruct c; simpl; intros [H1 H2] HQ; [intros HP%H2; done|auto]. Qed.

Lemma decides_ok_or {E A} (o : option A) (e : E) (P : Prop) (Q : A -> Prop) :
  (is_Some o <-> P) -> (forall a, o = Some a -> Q a) -> decides (ok_or o e) P Q.
Proof.
  destruct o; simpl; intros [H1 H2] HQ; [eauto|]. intros HP. by destruct (H2 HP).
Qed.

(** Sequencing: the first part decides [P1], the rest decides [P2] for its value. *)
Lemma decides_bind {E A B} (c : res E A) (f : A -> res E B) (P1 P2 : Prop)
    (Q1 : A -> Prop) (Q : B -> Prop) :
  decides c P1 Q1 -> (forall a, c = Ok a -> P1 -> Q1 a -> decides (f a) P2 Q) ->
  decides (c ≫= f) (P1 /\ P2) Q.
Proof.
  destruct c as [a|e| |]; simpl; try naive_solver.
  intros [HP HQ1] Hf. specialize (Hf a eq_refl HP HQ1).
  by destruct (f a); simpl in *; naive_solver.
Qed.

(** The rest of the computation cannot fail. *)
Lemma decides_then {E A B} (c : res E A) (f : A -> res E B) (P : Prop)
    (Q1 : A -> Prop) (Q : B -> Prop) :
  decides c P Q1 -> (forall a, c = Ok a -> P -> Q1 a -> exists b, f a = Ok b /\ Q b) ->
  decides (c ≫= f) P Q.
Proof.
  destruct c as [a|e| |]; simpl; auto.
  intros [HP HQ1] Hf. by destruct (Hf a eq_refl HP HQ1) as (b & -> & ?).
Qed.

(** A loop over [l] succeeds exactly when every step is admissible in the state
    that the steps before it reach. *)
Lemma decides_for_each {E A B} (f : A -> B -> res E A) (I : list B -> A -> Prop)
    (P : list B -> B -> Prop) l acc :
  I [] acc ->
  (forall pre x post a, l = pre ++ x :: post -> I pre a ->
     decides (f a x) (P pre x) (I (pre ++ [x]))) ->
  decides (for_each f acc l) (forall pre x post, l = pre ++ x :: post -> P pre x) (I l).
Proof.
  intros H0 Hstep.
  enough (forall suf pre acc, l = pre ++ suf -> I pre acc ->
    decides (for_each f acc suf)
      (forall pre' x post, suf = pre' ++ x :: post -> P (pre ++ pre') x) (I l)) as He.
  { apply (decides_iff _ _ _ _ _ (He l [] acc eq_refl H0)); [done|auto]. }
  clear acc H0. intros suf. induction suf as [|x suf IH]; intros pre acc Hl HI; cbn [for_each].
  - rewrite app_nil_r in Hl. subst. split; [|done]. intros [|] ? ? ?; discriminate.
  - eapply decides_iff.
    + eapply (decides_bind _ _ (P pre x)
        (forall pre' x' post, suf = pre' ++ x' :: post -> P ((pre ++ [x]) ++ pre') x') (I (pre ++ [x]))).
      * by eapply Hstep.
      * intros a _ _ Ha. apply IH; [|done]. by rewrite <- app_assoc.
    + split.
      * intros [HP HPs] [|y pre'] x' post Heq; injection Heq as <- Heq.
        { by rewrite app_nil_r. }
        specialize (HPs _ _ _ Heq). by rewrite <- app_assoc in HPs.
      * intros HP. split; [rewrite <- (app_nil_r pre); by eapply (HP [])|].
        intros pre' x' post ->. rewrite <- app_assoc. by eapply (HP (x :: pre')).
    + auto.
Qed.

Lemma forall_split {B} (P : B -> Prop) (l : list B) :
  (forall pre x post, l = pre ++ x :: post -> P x) <-> (forall x, x ∈ l -> P x).
Proof.
  split.
  - intros HP x (pre & post & ->)%list_elem_of_split. by eapply HP.
  - intros HP pre x post ->. apply HP. set_solver.
Qed.

(** A loop whose steps are independent of each other. *)
Lemma decides_for_all {E B} (f : unit -> B -> res E unit) (P : B -> Prop) l :
  (forall x, x ∈ l -> decides (f tt x) (P x) (fun _ => True)) ->
  decides (for_each f tt l) (forall x, x ∈ l -> P x) (fun _ => True).
Proof.
  intros Hf. eapply decides_iff.
  - apply (decides_for_each f (fun _ _ => True) (fun _ => P)); [done|].
    intros pre x post [] -> _. apply Hf. set_solver.
  - apply forall_split.
  - done.
Qed.

Lemma decides_unit {E} (c : res E unit) :
  safe c (fun _ => True) -> decides c (c = Ok tt) (fun _ => True).
Proof. by destruct c as [[]| | |]. Qed.

Lemma decides_ensure {E} (c : bool) (e : E) (P : Prop) (Q : unit -> Prop) :
  (c = true <-> P) -> (P -> Q tt) -> decides (ensure c e) P Q.
Proof. destruct c; simpl; intros [H1 H2] HQ; [auto|intros HP%H2; done]. Qed.

Lemma nodup_by_prefix {B K} (key : B -> K) l :
  (forall pre x post, l = pre ++ x :: post -> key x ∉ key <$> pre) -> NoDup (key <$> l).
Proof.
  induction l as [|x l IH] using rev_ind; intros HP; [constructor|].
  rewrite fmap_app. apply NoDup_app. split_and!.
  - apply IH. intros pre y post ->. eapply (HP _ _ (post ++ [x])). by rewrite <- app_assoc.
  - intros k Hk ->%list_elem_of_singleton. by eapply (HP l x []).
  - apply NoDup_singleton.
Qed.

(** A set that records what a loop has seen finds exactly the repetitions. *)
Lemma for_each_seen {E B K} `{Countable K} (key : B -> K) (P : B -> Prop)
    (f : gset K -> B -> res E (gset K)) l :
  (forall s x, x ∈ l -> decides (f s x) (key x ∉ s /\ P x) (fun s' => s' = {[key x]} ∪ s)) ->
  decides (for_each f ∅ l) (NoDup (key <$> l) /\ (forall x, x ∈ l -> P x))
    (fun s => s = list_to_set (key <$> l)).
Proof.
  intros Hf. eapply decides_iff.
  - apply (decides_for_each f (fun pre s => s = list_to_set (key <$> pre))
      (fun pre x => key x ∉ key <$> pre /\ P x)); [done|].
    intros pre x post s -> ->. eapply decides_iff.
    + apply Hf. set_solver.
    + by rewrite elem_of_list_to_set.
    + intros s' _ _ ->. rewrite fmap_app, list_to_set_app_L. set_solver.
  - split.
    + intros HP. split; [|by apply forall_split; intros; eapply HP].
      apply nodup_by_prefix. intros pre x post Hl. by apply (HP pre x post Hl).
    + intros [Hn HP] pre x post ->. split; [|apply HP; set_solver].
      rewrite fmap_app in Hn. apply NoDup_app in Hn as (_ & Hn & _). set_solver.
  - auto.
Qed.

(** ** Running a computation *)
Lemma res_bind_Ok {E A B} (a : A) (f : A -> res E B) : Ok a ≫= f = f a.
Proof. done. Qed.
Lemma reject_if_false {E} (c : bool) (e : E) : c = false -> reject_if c e = Ok tt.
Proof. by intros ->. Qed.
Lemma ensure_true {E} (c : bool) (e : E) : c = true -> ensure c e = Ok tt.
Proof. by intros ->. Qed.

(** [pass tac] steps over the guard at the head of the goal; [tac] proves that it
    lets the computation continue. *)
Ltac pass tac :=
  lazymatch goal with
  | |- reject_if ?b ?e ≫= _ = _ => rewrite (reject_if_false b e), res_bind_Ok by tac
  | |- ensure ?b ?e ≫= _ = _ => rewrite (ensure_true b e), res_bind_Ok by tac
  end.

(** Step over a bind whose first part has been evaluated. *)
Ltac ok_step := rewrite res_bind_Ok; cbv beta iota.

(** ** Inversion of a successful computation *)
Lemma bind_Ok {E A B} (c : res E A) (f : A -> res E B) v :
  c ≫= f = Ok v -> exists w, c = Ok w /\ f w = Ok v.
Proof. destruct c; simpl; try discriminate; eauto. Qed.

Lemma reject_if_Ok {E} (c : bool) (e : E) u : reject_if c e = Ok u -> c = false.
Proof. by destruct c. Qed.

Lemma ensure_Ok {E} (c : bool) (e : E) u : ensure c e = Ok u -> c = true.
Proof. by destruct c. Qed.

Lemma ok_or_Ok {E A} (o : option A) (e : E) a : ok_or o e = Ok a -> o = Some a.
Proof. destruct o; simpl; congruence. Qed.

Lemma unwrap_Ok {E A} (o : option A) a : unwrap (E:=E) o = Ok a -> o = Some a.
Proof. destruct o; simpl; congruence. Qed.

Lemma map_err_Ok {E F A} (f : E -> F) (r : res E A) a :
  map_err f r = Ok a -> r = Ok a.
Proof. destruct r; simpl; congruence. Qed.

(** [inv_res] turns every hypothesis [c = Ok v] on a monadic [c] into the
    equations of its parts; a later file extends it through [inv_res_hook]. *)
Ltac inv_res_hook := fail.
Ltac inv_res_step :=
  match goal with
  | H : _ ≫= _ = Ok _ |- _ => apply bind_Ok in H as (? & ? & H)
  | H : reject_if _ _ = Ok _ |- _ => apply reject_if_Ok in H
  | H : ensure _ _ = Ok _ |- _ => apply ensure_Ok in H
  | H : ok_or _ _ = Ok _ |- _ => apply ok_or_Ok in H
  | H : unwrap _ = Ok _ |- _ => apply unwrap_Ok in H
  | H : map_err _ _ = Ok _ |- _ => apply map_err_Ok in H
  | H : mret _ = Ok _ |- _ => injection H as H
  | H : Ok _ = Ok _ |- _ => injection H as H
  | H : Err _ = Ok _ |- _ => discriminate H
  | H : Panic = Ok _ |- _ => discriminate H
  | H : NoFuel = Ok _ |- _ => discriminate H
  | u : unit |- _ => destruct u
  | _ => inv_res_hook
  end.
Ltac inv_res := repeat inv_res_step; simplify_eq.

(** [bools] turns boolean tests of the code into propositions. *)
Create Rewrite HintDb bools_db.
#[export] Hint Rewrite orb_false_iff orb_true_iff andb_true_iff andb_false_iff
  negb_true_iff negb_false_iff N.eqb_eq N.eqb_neq N.ltb_lt N.ltb_ge N.leb_le
  N.leb_gt bool_decide_eq_true bool_decide_eq_false : bools_db.
Ltac bools := autorewrite with bools_db in *; destruct_and?.

(** [wp] runs the [safe] rules over a straight-line monadic program. *)
Create HintDb safe_db.
#[export] Hint Resolve safe_reject_if safe_ensure safe_ok_or : safe_db.
Ltac wp_step :=
  match goal with
  | |- safe (_ ≫= _) _ => apply safe_bind
  | |- safe (reject_if _ _) _ => apply safe_reject_if; intros ?
  | |- safe (ensure _ _) _ => apply safe_ensure; intros ?
  | |- safe (ok_or _ _) _ => apply safe_ok_or; intros ? ?
  | |- safe (Ok _) _ => simpl
  | |- safe (Err _) _ => exact I
  | |- safe (mret _) _ => simpl
  end.
Ltac wp := repeat wp_step.

(** ** Unsigned machine integers, as [N] with explicit width *)
Definition u8_max : N := 0xff.
Definition u16_max : N := 0xffff.
Definition u32_max : N := 0xffffffff.
Definition u64_max : N := 0xffffffffffffffff.
(** [usize] of the 64-bit targets the crate supports. *)
Definition usize_max : N := u64_max.

Definition checked_add (max a b : N) : option N :=
  if a + b <=? max then Some (a + b) else None.
Definition checked_sub (a b : N) : option N :=
  if b <=? a then Some (a - b) else None.
Definition checked_mul (max a b : N) : option N :=
  if a * b <=? max then Some (a * b) else None.
Definition saturating_add (max a b : N) : N := N.min max (a + b).
(** [a + b] in a build with overflow checks. *)
Definition plain_add {E} (max a b : N) : res E N := unwrap (checked_add max a b).

Lemma checked_add_Some max a b c :
  checked_add max a b = Some c <-> c = a + b /\ a + b <= max.
Proof.
  unfold checked_add. destruct (N.leb_spec (a + b) max); split; intros ?;
    destruct_and?; simplify_eq; auto; lia.
Qed.

Lemma checked_add_None max a b : checked_add max a b = None <-> max < a + b.
Proof.
  unfold checked_add. destruct (N.leb_spec (a + b) max); split; intros ?;
    try done; lia.
Qed.

Lemma checked_mul_Some max a b c :
  checked_mul max a b = Some c <-> c = a * b /\ a * b <= max.
Proof.
  unfold checked_mul. destruct (N.leb_spec (a * b) max); split; intros ?;
    destruct_and?; simplify_eq; auto; lia.
Qed.

Lemma checked_sub_Some a b c : checked_sub a b = Some c <-> c = a - b /\ b <= a.
Proof.
  unfold checked_sub. destruct (N.leb_spec b a); split; intros ?;
    destruct_and?; simplify_eq; auto; lia.
Qed.

(** [x.is_power_of_two()] *)
Definition is_power_of_two (x : N) : bool :=
  negb (x =? 0) && (N.land x (x - 1) =? 0).

(** ** Maps *)
Lemma map_size_1 {A} (m : gmap N A) k x :
  size m = 1%nat -> m !! k = Some x -> m = {[k := x]}.
Proof.
  intros Hs Hk. rewrite <- (insert_delete_id m k x Hk) in Hs |- *.
  rewrite map_size_insert_None in Hs by apply lookup_delete_eq.
  assert (delete k m = ∅) as ->; [apply map_size_empty_inv; lia|done].
Qed.

Lemma elem_of_take {A} (x : A) n l : x ∈ take n l -> x ∈ l.
Proof. intros Hx. rewrite <- (take_drop n l). apply elem_of_app. by left. Qed.
Lemma elem_of_drop {A} (x : A) n l : x ∈ drop n l -> x ∈ l.
Proof. intros Hx. rewrite <- (take_drop n l). apply elem_of_app. by right. Qed.

(** ** Ordered maps

    [BTreeMap] is a [gmap]; where the order of iteration shows (which of several
    errors is returned), [btree_iter] lists the entries by increasing key. *)
Section BTree.
Context {K A : Type} `{Countable K} (le : relation K) `{!RelDecision le}.

Definition key_le (x y : K * A) : Prop := le x.1 y.1.
#[global] Instance key_le_dec : RelDecision key_le.
Proof. intros x y. unfold key_le. apply _. Defined.

Definition btree_iter (m : gmap K A) : list (K * A) := merge_sort key_le (map_to_list m).
Definition btree_keys (m : gmap K A) : list K := (btree_iter m).*1.

Lemma elem_of_btree_iter m k x : (k, x) ∈ btree_iter m <-> m !! k = Some x.
Proof. unfold btree_iter. rewrite merge_sort_Permutation. apply elem_of_map_to_list. Qed.

Lemma elem_of_btree_keys m k : k ∈ btree_keys m <-> is_Some (m !! k).
Proof.
  unfold btree_keys. rewrite list_elem_of_fmap. split.
  - intros ([k' x] & -> & Hx%elem_of_btree_iter). by exists x.
  - intros [x Hx]. exists (k, x). split; [done|]. by apply elem_of_btree_iter.
Qed.

Lemma NoDup_btree_keys m : NoDup (btree_keys m).
Proof.
  unfold btree_keys, btree_iter. rewrite merge_sort_Permutation. apply NoDup_fst_map_to_list.
Qed.
End BTree.

(** Lexicographic order of pairs of integers. *)
Definition pair_le (x y : N * N) : Prop := x.1 < y.1 \/ (x.1 = y.1 /\ x.2 <= y.2).
#[global] Instance pair_le_dec : RelDecision pair_le.
Proof. intros x y. unfold pair_le. apply _. Defined.
