(* ===== verification/Bytes.v ===== *)
(** * Bytes: octets, slices, fixed-width integers and hexadecimal text

    The parts of Rust's [core] and of the [hex] crate's documented encoding that
    every component uses: slice indexing with and without a bounds panic,
    [from_le_bytes]/[to_le_bytes] and their big-endian versions, and lower-case
    hexadecimal encoding with a decoder that accepts either case. *)
From S2P Require Import Prelude.


Abbreviation byte := Byte.byte.
Abbreviation bytes := (list Byte.byte).

#[global] Instance byte_eq_dec : EqDecision byte := Byte.byte_eq_dec.
#[global] Program Instance byte_countable : Countable byte :=
  inj_countable Byte.to_N Byte.of_N _.
Next Obligation. exact Byte.of_to_N. Qed.

(** Byte-string literals, [b"..."]. *)
Definition lit (s : string) : bytes := Stdlib.Strings.String.list_byte_of_string s.

(** [n as u8]: the low eight bits. *)
Definition byte_of (n : N) : byte := default x00 (Byte.of_N (n mod 256)).
Abbreviation byte_N := Byte.to_N.

(** ** Slices *)
Definition blen {A} (b : list A) : N := N.of_nat (length b).

(** [b.get(i)] *)
Definition get {A} (b : list A) (i : N) : option A :=
  if i <? blen b then b !! N.to_nat i else None.
(** [b[i]] *)
Definition index {E A} (b : list A) (i : N) : res E A := unwrap (get b i).
(** [b.get(i..j)] *)
Definition get_range {A} (b : list A) (i j : N) : option (list A) :=
  if (i <=? j) && (j <=? blen b)
  then Some (take (N.to_nat (j - i)) (drop (N.to_nat i) b)) else None.
(** [b[i..j]] *)
Definition index_range {E A} (b : list A) (i j : N) : res E (list A) :=
  unwrap (get_range b i j).
(** [b.get(i..)] *)
Definition get_from {A} (b : list A) (i : N) : option (list A) :=
  if i <=? blen b then Some (drop (N.to_nat i) b) else None.
(** [b[i..]] *)
Definition index_from {E A} (b : list A) (i : N) : res E (list A) :=
  unwrap (get_from b i).
(** [<[T; n]>::try_from(b).unwrap()] *)
Definition expect_len {E A} (n : N) (b : list A) : res E (list A) :=
  if blen b =? n then Ok b else Panic.
(** [b.iter().position(p)] *)
Fixpoint position {A} (p : A -> bool) (b : list A) : option N :=
  match b with
  | [] => None
  | x :: b => if p x then Some 0 else N.succ <$> position p b
  end.
(** [b.strip_prefix(p)] *)
Fixpoint strip_prefix (p b : bytes) : option bytes :=
  match p, b with
  | [], _ => Some b
  | x :: p, y :: b => if Byte.eqb x y then strip_prefix p b else None
  | _ :: _, [] => None
  end.
Definition starts_with (p b : bytes) : bool := if strip_prefix p b is Some _ then true else false.
(** [b.strip_suffix(&[c])] *)
Definition strip_suffix_byte (c : byte) (b : bytes) : option bytes :=
  match last b with
  | Some d => if Byte.eqb c d then Some (take (length b - 1) b) else None
  | None => None
  end.
Definition contains_byte (c : byte) (b : bytes) : bool := existsb (Byte.eqb c) b.
Definition bytes_eqb (a b : bytes) : bool := bool_decide (a = b).
Definition all_zero (b : bytes) : bool := forallb (Byte.eqb x00) b.
Definition any_nonzero (b : bytes) : bool := negb (all_zero b).
(** [b.chunks_exact(n)]: the remainder is dropped. *)
Fixpoint chunks_exact_fuel {A} (fuel n : nat) (b : list A) : list (list A) :=
  match fuel with
  | O => []
  | S fuel =>
    if (n <=? length b)%nat
    then take n b :: chunks_exact_fuel fuel n (drop n b) else []
  end.
Definition chunks_exact {A} (n : nat) (b : list A) : list (list A) :=
  chunks_exact_fuel (length b) n b.

(** ** Fixed-width integers *)
Fixpoint le_to_N (b : bytes) : N :=
  match b with [] => 0 | x :: b => byte_N x + 256 * le_to_N b end.
Definition be_to_N (b : bytes) : N := le_to_N (rev b).
Fixpoint N_to_le (w : nat) (n : N) : bytes :=
  match w with O => [] | S w => byte_of n :: N_to_le w (n / 256) end.
Definition N_to_be (w : nat) (n : N) : bytes := rev (N_to_le w n).

(** ** Hexadecimal text *)
Definition hex_digit (n : N) : byte :=
  if n <? 10 then byte_of (48 + n) else byte_of (87 + n).
Definition hex_value (c : byte) : option N :=
  let n := byte_N c in
  if (48 <=? n) && (n <=? 57) then Some (n - 48)
  else if (97 <=? n) && (n <=? 102) then Some (n - 87)
  else if (65 <=? n) && (n <=? 70) then Some (n - 55)
  else None.
Fixpoint hex_encode (b : bytes) : bytes :=
  match b with
  | [] => []
  | x :: b => hex_digit (byte_N x / 16) :: hex_digit (byte_N x mod 16) :: hex_encode b
  end.
Fixpoint hex_decode (t : bytes) : option bytes :=
  match t with
  | [] => Some []
  | [_] => None
  | c :: d :: t =>
    h ← hex_value c; l ← hex_value d; r ← hex_decode t; Some (byte_of (16 * h + l) :: r)
  end.
Definition is_ascii_hexdigit (c : byte) : bool :=
  if hex_value c is Some _ then true else false.
Definition all_hex (t : bytes) : bool := forallb is_ascii_hexdigit t.
Definition ascii_lower (c : byte) : byte :=
  let n := byte_N c in if (65 <=? n) && (n <=? 90) then byte_of (n + 32) else c.
Definition ascii_upper (c : byte) : byte :=
  let n := byte_N c in if (97 <=? n) && (n <=? 122) then byte_of (n - 32) else c.
Definition to_ascii_lowercase (t : bytes) : bytes := ascii_lower <$> t.
Definition to_ascii_uppercase (t : bytes) : bytes := ascii_upper <$> t.

(** [Ord] of byte strings and of [str]: lexicographic. *)
Fixpoint bytes_leb (a b : bytes) : bool :=
  match a, b with
  | [], _ => true
  | _ :: _, [] => false
  | x :: a, y :: b =>
    if byte_N x <? byte_N y then true
    else if byte_N x =? byte_N y then bytes_leb a b else false
  end.
Definition bytes_le (a b : bytes) : Prop := bytes_leb a b = true.

(** * Lemmas *)

(** ** Octets *)
Lemma byte_N_lt b : byte_N b < 256.
Proof. pose proof (Byte.to_N_bounded b). lia. Qed.
#[export] Hint Resolve byte_N_lt : core.

Lemma byte_of_N b : byte_of (byte_N b) = b.
Proof.
  unfold byte_of. rewrite N.mod_small by apply byte_N_lt. by rewrite Byte.of_to_N.
Qed.

Lemma byte_N_of n : byte_N (byte_of n) = n mod 256.
Proof.
  unfold byte_of. pose proof (N.mod_lt n 256 ltac:(lia)) as Hlt.
  destruct (Byte.of_N (n mod 256)) as [b|] eqn:Hb; simpl.
  - by apply Byte.to_of_N.
  - apply Byte.of_N_None_iff in Hb. lia.
Qed.

Lemma byte_N_inj a b : byte_N a = byte_N b -> a = b.
Proof. intros H. by rewrite <- (byte_of_N a), H, byte_of_N. Qed.

Lemma byte_eqb_eq a b : Byte.eqb a b = true <-> a = b.
Proof. split; [apply Byte.byte_dec_bl|apply Byte.byte_dec_lb]. Qed.
Lemma byte_eqb_neq a b : Byte.eqb a b = false <-> a <> b.
Proof. rewrite <- (byte_eqb_eq a b). by destruct (Byte.eqb a b). Qed.
Lemma bytes_eqb_eq a b : bytes_eqb a b = true <-> a = b.
Proof. apply bool_decide_eq_true. Qed.
Lemma bytes_eqb_neq a b : bytes_eqb a b = false <-> a <> b.
Proof. apply bool_decide_eq_false. Qed.
#[export] Hint Rewrite byte_eqb_eq byte_eqb_neq bytes_eqb_eq bytes_eqb_neq : bools_db.

(** ** Slices *)
Lemma blen_app {A} (a b : list A) : blen (a ++ b) = blen a + blen b.
Proof. unfold blen. rewrite length_app. lia. Qed.
Lemma blen_cons {A} (x : A) b : blen (x :: b) = 1 + blen b.
Proof. unfold blen. simpl. lia. Qed.
Lemma blen_nil {A} : blen (@nil A) = 0.
Proof. done. Qed.
Lemma blen_fmap {A A'} (f : A -> A') l : blen (f <$> l) = blen l.
Proof. unfold blen. by rewrite length_fmap. Qed.
Lemma blen_0 {A} (b : list A) : blen b = 0 <-> b = [].
Proof. destruct b; rewrite ?blen_cons, ?blen_nil; split; try done; lia. Qed.
Lemma length_blen {A} (b : list A) n : blen b = N.of_nat n <-> length b = n.
Proof. unfold blen. lia. Qed.

Lemma get_range_Some {A} (b : list A) i j s :
  get_range b i j = Some s <->
  i <= j <= blen b /\ s = take (N.to_nat (j - i)) (drop (N.to_nat i) b).
Proof.
  unfold get_range. destruct (N.leb_spec i j), (N.leb_spec j (blen b)); simpl;
    split; intros ?; destruct_and?; simplify_eq; auto; lia.
Qed.

Lemma get_range_None {A} (b : list A) i j :
  get_range b i j = None <-> j < i \/ blen b < j.
Proof.
  unfold get_range. destruct (N.leb_spec i j), (N.leb_spec j (blen b)); simpl;
    split; intros ?; try done; try lia; auto.
Qed.

Lemma get_range_blen {A} (b : list A) i j s :
  get_range b i j = Some s -> blen s = j - i.
Proof.
  rewrite get_range_Some. intros [? ->]. unfold blen in *.
  rewrite length_take, length_drop. lia.
Qed.

Lemma get_range_total {A} (b : list A) i j :
  i <= j -> j <= blen b -> exists s, get_range b i j = Some s /\ blen s = j - i.
Proof.
  intros H1 H2. destruct (get_range b i j) as [s|] eqn:E.
  - eauto using get_range_blen.
  - apply get_range_None in E. lia.
Qed.

(** A range splits the slice it was taken from. *)
Lemma get_range_split {A} (b : list A) i j s :
  get_range b i j = Some s ->
  b = take (N.to_nat i) b ++ s ++ drop (N.to_nat j) b.
Proof.
  rewrite get_range_Some. intros [Hij ->].
  rewrite <- (take_drop (N.to_nat i) b) at 1. f_equal.
  rewrite <- (take_drop (N.to_nat (j - i)) (drop (N.to_nat i) b)) at 1. f_equal.
  rewrite drop_drop. f_equal. lia.
Qed.

Lemma get_range_app {A} (p s q : list A) :
  get_range (p ++ s ++ q) (blen p) (blen p + blen s) = Some s.
Proof.
  rewrite get_range_Some, !blen_app. split; [lia|].
  unfold blen. rewrite Nat2N.id, drop_app_length.
  replace (N.to_nat _) with (length s) by lia. by rewrite take_app_length.
Qed.

(** Indexing a concatenation at the boundaries of its parts. *)
Lemma index_range_app {E A} (p s q : list A) i j :
  i = blen p -> j = blen p + blen s -> index_range (E:=E) (p ++ s ++ q) i j = Ok s.
Proof. intros -> ->. unfold index_range. by rewrite get_range_app. Qed.
Lemma index_range_app_0 {E A} (s q : list A) j :
  j = blen s -> index_range (E:=E) (s ++ q) 0 j = Ok s.
Proof. intros ->. by apply (index_range_app [] s q). Qed.
Lemma index_from_app {E A} (p q : list A) i :
  i = blen p -> index_from (E:=E) (p ++ q) i = Ok q.
Proof.
  intros ->. unfold index_from, get_from. rewrite blen_app.
  destruct (N.leb_spec (blen p) (blen p + blen q)); [|lia].
  unfold blen. by rewrite Nat2N.id, drop_app_length.
Qed.
Lemma expect_len_eq {E A} n (b : list A) : blen b = n -> expect_len (E:=E) n b = Ok b.
Proof. intros <-. unfold expect_len. by rewrite N.eqb_refl. Qed.

(** Consecutive ranges: a prefix, and the range that follows a position. *)
Lemma get_range_next {A} (b : list A) i j s :
  get_range b i j = Some s -> drop (N.to_nat i) b = s ++ drop (N.to_nat j) b.
Proof.
  rewrite get_range_Some. intros [Hij ->].
  rewrite <- (take_drop (N.to_nat (j - i)) (drop (N.to_nat i) b)) at 1. f_equal.
  rewrite drop_drop. f_equal. lia.
Qed.

Lemma get_Some {A} (b : list A) i x :
  get b i = Some x <-> i < blen b /\ b !! N.to_nat i = Some x.
Proof.
  unfold get. destruct (N.ltb_spec i (blen b)); split; intros ?;
    destruct_and?; try done; lia.
Qed.

Lemma get_split {A} (b : list A) i x :
  get b i = Some x -> exists pre post, b = pre ++ x :: post /\ blen pre = i.
Proof.
  intros [Hi Hx]%get_Some. exists (take (N.to_nat i) b), (drop (S (N.to_nat i)) b).
  split; [symmetry; by apply take_drop_middle|]. unfold blen in *. rewrite length_take. lia.
Qed.
Lemma get_app_blen {A} (p q : list A) x : get (p ++ x :: q) (blen p) = Some x.
Proof.
  apply get_Some. split; [rewrite blen_app, blen_cons; lia|].
  unfold blen. by rewrite Nat2N.id, list_lookup_middle.
Qed.

Lemma get_total {A} (b : list A) i : i < blen b -> exists x, get b i = Some x.
Proof.
  intros Hi. destruct (lookup_lt_is_Some_2 b (N.to_nat i)) as [x Hx].
  { unfold blen in Hi. lia. }
  exists x. by apply get_Some.
Qed.

Lemma get_from_total {A} (b : list A) i :
  i <= blen b -> get_from b i = Some (drop (N.to_nat i) b).
Proof. intros ?. unfold get_from. destruct (N.leb_spec i (blen b)); [done|lia]. Qed.

Lemma safe_index {E A} (b : list A) i (Q : A -> Prop) :
  i < blen b -> (forall x, get b i = Some x -> Q x) -> safe (E:=E) (index b i) Q.
Proof. intros Hi HQ. destruct (get_total b i Hi) as [x Hx]. unfold index. rewrite Hx. simpl. auto. Qed.

Lemma safe_index_range {E A} (b : list A) i j (Q : list A -> Prop) :
  i <= j -> j <= blen b ->
  (forall s, get_range b i j = Some s -> blen s = j - i -> Q s) ->
  safe (E:=E) (index_range b i j) Q.
Proof.
  intros H1 H2 HQ. destruct (get_range_total b i j H1 H2) as (s & Hs & Hl).
  unfold index_range. rewrite Hs. simpl. auto.
Qed.

Lemma safe_index_from {E A} (b : list A) i (Q : list A -> Prop) :
  i <= blen b -> Q (drop (N.to_nat i) b) -> safe (E:=E) (index_from b i) Q.
Proof. intros Hi HQ. unfold index_from. by rewrite get_from_total. Qed.

Lemma safe_expect_len {E A} n (b : list A) (Q : list A -> Prop) :
  blen b = n -> Q b -> safe (E:=E) (expect_len n b) Q.
Proof. intros <- HQ. unfold expect_len. by rewrite N.eqb_refl. Qed.

Lemma index_Some {E A} (b : list A) i x : get b i = Some x -> index (E:=E) b i = Ok x.
Proof. unfold index. by intros ->. Qed.
Lemma index_Ok {E A} (b : list A) i x : index (E:=E) b i = Ok x -> get b i = Some x.
Proof. apply unwrap_Ok. Qed.
Lemma index_range_Ok {E A} (b : list A) i j s :
  index_range (E:=E) b i j = Ok s -> get_range b i j = Some s.
Proof. apply unwrap_Ok. Qed.
Lemma index_from_Ok {E A} (b : list A) i s :
  index_from (E:=E) b i = Ok s -> s = drop (N.to_nat i) b /\ i <= blen b.
Proof.
  intros H%unwrap_Ok. unfold get_from in H. destruct (N.leb_spec i (blen b)); naive_solver.
Qed.
Lemma expect_len_Ok {E A} n (b b' : list A) :
  expect_len (E:=E) n b = Ok b' -> b' = b /\ blen b = n.
Proof. unfold expect_len. destruct (N.eqb_spec (blen b) n); naive_solver. Qed.
Ltac inv_res_hook ::=
  match goal with
  | H : index _ _ = Ok _ |- _ => apply index_Ok in H
  | H : index_range _ _ _ = Ok _ |- _ => apply index_range_Ok in H
  | H : index_from _ _ = Ok _ |- _ => apply index_from_Ok in H as [-> ?]
  | H : expect_len _ _ = Ok _ |- _ => apply expect_len_Ok in H as [-> ?]
  end.

Lemma position_Some {A} (p : A -> bool) b n :
  position p b = Some n ->
  n < blen b /\ (exists x, b !! N.to_nat n = Some x /\ p x = true) /\
  forallb (fun x => negb (p x)) (take (N.to_nat n) b) = true.
Proof.
  revert n; induction b as [|x b IH]; intros n; simpl; [done|].
  rewrite blen_cons. destruct (p x) eqn:Hp.
  - intros [= <-]. simpl. split; [lia|]. eauto.
  - intros (m & Hm & ->)%fmap_Some. destruct (IH m Hm) as (Hlt & Hx & Hall).
    rewrite N2Nat.inj_succ. simpl. rewrite Hp. simpl. split; [lia|]. auto.
Qed.

Lemma position_None {A} (p : A -> bool) b :
  position p b = None <-> forallb (fun x => negb (p x)) b = true.
Proof.
  induction b as [|x b IH]; simpl; [done|]. destruct (p x); simpl; [done|].
  rewrite <- IH. by destruct (position p b).
Qed.

Lemma strip_prefix_Some p b r : strip_prefix p b = Some r <-> b = p ++ r.
Proof.
  revert b; induction p as [|x p IH]; intros b; simpl; [naive_solver|].
  destruct b as [|y b]; [naive_solver|]. destruct (Byte.eqb x y) eqn:Hxy; bools.
  - rewrite IH. naive_solver.
  - split; naive_solver.
Qed.

Lemma strip_suffix_byte_Some c b r :
  strip_suffix_byte c b = Some r <-> b = r ++ [c].
Proof.
  unfold strip_suffix_byte. split.
  - destruct (last b) as [d|] eqn:Hl; [|done].
    apply last_Some in Hl as [l ->]. destruct (Byte.eqb c d) eqn:Hcd; [|done].
    bools; subst. rewrite length_app, Nat.add_sub, take_app_length. naive_solver.
  - intros ->. rewrite last_snoc, (proj2 (byte_eqb_eq c c) eq_refl).
    by rewrite length_app, Nat.add_sub, take_app_length.
Qed.

Lemma contains_byte_spec c b : contains_byte c b = true <-> c ∈ b.
Proof.
  unfold contains_byte. rewrite existsb_exists. setoid_rewrite byte_eqb_eq.
  rewrite list_elem_of_In. naive_solver.
Qed.

Lemma all_zero_spec b : all_zero b = true <-> b = replicate (length b) x00.
Proof.
  unfold all_zero. induction b as [|x b IH]; simpl; [done|].
  rewrite andb_true_iff, IH, byte_eqb_eq. split; [naive_solver congruence|].
  intros [= Hx Hb]. split; [done|]. exact Hb.
Qed.

(** ** Fixed-width integers *)
Lemma le_to_N_bound b : le_to_N b < 256 ^ blen b.
Proof.
  induction b as [|x b IH]; [reflexivity|].
  rewrite blen_cons, N.add_1_l, N.pow_succ_r'. simpl.
  pose proof (byte_N_lt x). nia.
Qed.

Lemma length_N_to_le w n : length (N_to_le w n) = w.
Proof. revert n; induction w; intros n; cbn; congruence. Qed.
Lemma length_N_to_be w n : length (N_to_be w n) = w.
Proof. unfold N_to_be. by rewrite length_rev, length_N_to_le. Qed.

Lemma blen_N_to_le w n : blen (N_to_le w n) = N.of_nat w.
Proof. unfold blen. by rewrite length_N_to_le. Qed.

Lemma le_to_N_to_le w n : n < 256 ^ N.of_nat w -> le_to_N (N_to_le w n) = n.
Proof.
  revert n; induction w as [|w IH]; intros n Hn.
  - change (256 ^ N.of_nat 0) with 1 in Hn. simpl. lia.
  - cbn. rewrite Nat2N.inj_succ, N.pow_succ_r' in Hn.
    rewrite IH, byte_N_of by (apply N.Div0.div_lt_upper_bound; lia).
    pose proof (N.div_mod' n 256). lia.
Qed.

Lemma N_to_le_to_N b : N_to_le (length b) (le_to_N b) = b.
Proof.
  induction b as [|x b IH]; [done|]. cbn. pose proof (byte_N_lt x). f_equal.
  - apply byte_N_inj. rewrite byte_N_of.
    replace (256 * le_to_N b) with (le_to_N b * 256) by lia.
    rewrite N.Div0.mod_add. by apply N.mod_small.
  - replace ((byte_N x + 256 * le_to_N b) / 256) with (le_to_N b); [done|].
    rewrite (N.mul_comm 256), N.div_add by lia. rewrite N.div_small by done. lia.
Qed.

Lemma le_to_N_eq b w n : blen b = N.of_nat w -> le_to_N b = n -> b = N_to_le w n.
Proof. intros <-%length_blen <-. by rewrite N_to_le_to_N. Qed.

Lemma le_to_N_inj a b : length a = length b -> le_to_N a = le_to_N b -> a = b.
Proof.
  intros Hl H. by rewrite <- (N_to_le_to_N a), Hl, H, N_to_le_to_N.
Qed.

#[global] Arguments N_to_le : simpl never.
#[global] Arguments N_to_be : simpl never.

Lemma N_to_be_to_N b : N_to_be (length b) (be_to_N b) = b.
Proof. unfold N_to_be, be_to_N. rewrite <- (length_rev b), N_to_le_to_N. apply rev_involutive. Qed.

Lemma be_to_N_to_be w n : n < 256 ^ N.of_nat w -> be_to_N (N_to_be w n) = n.
Proof.
  intros Hn. unfold be_to_N, N_to_be. rewrite rev_involutive. by apply le_to_N_to_le.
Qed.

Lemma N_to_be_inj w n m :
  n < 256 ^ N.of_nat w -> m < 256 ^ N.of_nat w -> N_to_be w n = N_to_be w m -> n = m.
Proof.
  intros Hn Hm H. by rewrite <- (be_to_N_to_be w n), H, be_to_N_to_be.
Qed.

Lemma be_to_N_bound b : be_to_N b < 256 ^ blen b.
Proof.
  unfold be_to_N. pose proof (le_to_N_bound (rev b)) as H.
  unfold blen in *. by rewrite length_rev in H.
Qed.
(** One more byte of a big-endian number, with shifts. *)
Lemma lor_shift_8 x y : y < 256 -> N.lor (N.shiftl x 8) y = y + 256 * x.
Proof.
  intros Hy. assert (N.land (N.shiftl x 8) y = 0) as Hl.
  { apply N.bits_inj. intros k. rewrite N.land_spec, N.bits_0. destruct (N.ltb_spec k 8) as [Hk|Hk].
    - by rewrite N.shiftl_spec_low.
    - rewrite <- (N.mod_small y (2 ^ 8)) by done. by rewrite N.mod_pow2_bits_high, andb_false_r. }
  rewrite <- N.lxor_lor, <- N.add_nocarry_lxor by done. rewrite N.shiftl_mul_pow2. change (2 ^ 8) with 256. lia.
Qed.
Lemma be_to_N_snoc ds d : be_to_N (ds ++ [d]) = byte_N d + 256 * be_to_N ds.
Proof. unfold be_to_N. by rewrite rev_app_distr. Qed.

(** Cancelling a fixed-width field at the front. *)
Lemma app_inj_blen (a a' b b' : bytes) :
  length a = length a' -> a ++ b = a' ++ b' -> a = a' /\ b = b'.
Proof. intros Hl Heq. by apply app_inj_1 in Heq. Qed.

Lemma N_to_be_app_inj w n n' (b b' : bytes) :
  n < 256 ^ N.of_nat w -> n' < 256 ^ N.of_nat w ->
  N_to_be w n ++ b = N_to_be w n' ++ b' -> n = n' /\ b = b'.
Proof.
  intros Hn Hn' Heq. apply app_inj_blen in Heq as [Heq ->]; [|by rewrite !length_N_to_be].
  split; [|done]. by apply (N_to_be_inj w).
Qed.

(** ** Hexadecimal text *)
Lemma hex_value_digit n : n < 16 -> hex_value (hex_digit n) = Some n.
Proof.
  intros Hn. assert (exists k : nat, (k < 16)%nat /\ n = N.of_nat k) as (k & Hk & ->).
  { exists (N.to_nat n). lia. }
  do 16 (destruct k as [|k]; [reflexivity|]). lia.
Qed.

Lemma hex_value_lt c n : hex_value c = Some n -> n < 16.
Proof.
  unfold hex_value. repeat case_match; intros; simplify_eq; bools; lia.
Qed.

Lemma hex_decode_encode b : hex_decode (hex_encode b) = Some b.
Proof.
  induction b as [|x b IH]; [done|]. simpl. pose proof (byte_N_lt x).
  rewrite !hex_value_digit
    by (apply N.mod_lt || apply N.Div0.div_lt_upper_bound; lia).
  simpl. rewrite IH. simpl. f_equal. f_equal.
  rewrite <- N.div_mod'. apply byte_of_N.
Qed.

#[global] Instance hex_encode_inj : Inj (=) (=) hex_encode.
Proof.
  intros a b H. apply (f_equal hex_decode) in H.
  rewrite !hex_decode_encode in H. by simplify_eq.
Qed.

Lemma length_hex_encode b : length (hex_encode b) = (2 * length b)%nat.
Proof. induction b as [|x b IH]; [done|]. simpl. lia. Qed.

(** Induction two characters at a time. *)
Lemma bytes_pair_ind (P : bytes -> Prop) :
  P [] -> (forall c, P [c]) -> (forall c d t, P t -> P (c :: d :: t)) -> forall t, P t.
Proof.
  intros H0 H1 H2 t.
  assert (P t /\ forall c, P (c :: t)) as [? _]; [|done].
  induction t as [|c t [IH IHc]]; auto.
Qed.

Lemma hex_decode_Some t b :
  hex_decode t = Some b -> blen t = 2 * blen b /\ all_hex t = true.
Proof.
  revert b; induction t as [|c|c d t IH] using bytes_pair_ind; intros b; simpl.
  - by intros [= <-].
  - done.
  - intros H. unfold all_hex, is_ascii_hexdigit in *. simpl.
    destruct (hex_value c) as [h|]; [|done]. destruct (hex_value d) as [l|]; [|done].
    simpl in H. destruct (hex_decode t) as [r|]; [|done]. simplify_eq/=.
    destruct (IH r eq_refl) as [Hlen Hall]. rewrite !blen_cons, Hall. split; [lia|done].
Qed.

Lemma hex_decode_total t :
  all_hex t = true -> blen t mod 2 = 0 -> exists b, hex_decode t = Some b.
Proof.
  induction t as [|c|c d t IH] using bytes_pair_ind; [eauto|done|].
  unfold all_hex, is_ascii_hexdigit in *. simpl.
  destruct (hex_value c) as [h|]; [|done]. destruct (hex_value d) as [l|]; [|done].
  simpl. intros Ht Hm. destruct IH as [r ->]; [done| |eauto].
  rewrite !blen_cons in Hm. replace (1 + (1 + blen t)) with (blen t + 1 * 2) in Hm by lia.
  by rewrite N.Div0.mod_add in Hm.
Qed.

(** A check over all bytes is a proof for every byte. *)
Lemma forall_byte (p : byte -> bool) :
  forallb p (byte_of <$> (N.of_nat <$> seq 0 256)) = true -> forall c, p c = true.
Proof.
  rewrite forallb_forall. intros Hall c. apply Hall. rewrite <- (byte_of_N c).
  apply list_elem_of_In, list_elem_of_fmap_2. rewrite <- (N2Nat.id (byte_N c)).
  apply list_elem_of_fmap_2, elem_of_seq. pose proof (byte_N_lt c). lia.
Qed.

Lemma hex_digit_value c n : hex_value c = Some n -> hex_digit n = ascii_lower c.
Proof.
  intros Hc. apply byte_eqb_eq.
  pose proof (forall_byte (fun c => match hex_value c with
    | Some n => Byte.eqb (hex_digit n) (ascii_lower c) | None => true end)) as Hall.
  specialize (Hall ltac:(vm_compute; reflexivity) c). cbv beta in Hall. by rewrite Hc in Hall.
Qed.

(** Encoding what was decoded gives the lower-case text. *)
Lemma hex_encode_decode t b : hex_decode t = Some b -> hex_encode b = to_ascii_lowercase t.
Proof.
  revert b; induction t as [|c|c d t IH] using bytes_pair_ind; intros b; simpl.
  - by intros [= <-].
  - done.
  - destruct (hex_value c) as [h|] eqn:Hh; [|done]. destruct (hex_value d) as [l|] eqn:Hl; [|done].
    simpl. destruct (hex_decode t) as [r|]; [|done]. intros [= <-]. simpl.
    pose proof (hex_value_lt _ _ Hh). pose proof (hex_value_lt _ _ Hl).
    rewrite (IH r eq_refl), !byte_N_of, (N.mod_small _ 256) by lia.
    replace ((16 * h + l) / 16) with h by (rewrite N.mul_comm, N.div_add_l, N.div_small; lia).
    replace ((16 * h + l) mod 16) with l
      by (rewrite N.mul_comm, N.add_comm, N.Div0.mod_add, N.mod_small; lia).
    by rewrite (hex_digit_value _ _ Hh), (hex_digit_value _ _ Hl).
Qed.

Lemma hex_value_lower c : hex_value (ascii_lower c) = hex_value c.
Proof.
  apply (bool_decide_eq_true_1 (hex_value (ascii_lower c) = hex_value c)).
  revert c. apply forall_byte. vm_compute. reflexivity.
Qed.

Lemma hex_decode_lower t : hex_decode (to_ascii_lowercase t) = hex_decode t.
Proof.
  induction t as [|c|c d t IH] using bytes_pair_ind; [done|done|]. cbn.
  rewrite !hex_value_lower. unfold to_ascii_lowercase in IH. by rewrite IH.
Qed.

(** ** Chunks *)
Lemma chunks_exact_length {A} n (b : list A) :
  Forall (fun c => length c = n) (chunks_exact n b).
Proof.
  unfold chunks_exact. generalize (length b) at 1. intros fuel. revert b.
  induction fuel as [|fuel IH]; intros b; cbn; [constructor|].
  destruct (Nat.leb_spec n (length b)); constructor; auto. rewrite length_take. lia.
Qed.

(** ** Lexicographic order *)
#[global] Instance bytes_le_dec : RelDecision bytes_le.
Proof. intros a b. unfold bytes_le. apply _. Defined.

#[global] Instance bytes_le_total : Total bytes_le.
Proof.
  unfold bytes_le. intros a; induction a as [|x a IH]; intros [|y b]; simpl; auto.
  destruct (N.ltb_spec (byte_N x) (byte_N y)), (N.ltb_spec (byte_N y) (byte_N x)),
    (N.eqb_spec (byte_N x) (byte_N y)), (N.eqb_spec (byte_N y) (byte_N x));
    auto; lia.
Qed.

#[global] Instance bytes_le_trans : Transitive bytes_le.
Proof.
  unfold bytes_le. intros a; induction a as [|x a IH]; intros [|y b] [|z c]; simpl;
    try done.
  destruct (N.ltb_spec (byte_N x) (byte_N y)), (N.ltb_spec (byte_N y) (byte_N z)),
    (N.ltb_spec (byte_N x) (byte_N z)), (N.eqb_spec (byte_N x) (byte_N y)),
    (N.eqb_spec (byte_N y) (byte_N z)), (N.eqb_spec (byte_N x) (byte_N z));
    try done; try lia; eauto.
Qed.

#[global] Instance bytes_le_antisymm : AntiSymm (=) bytes_le.
Proof.
  unfold bytes_le. intros a; induction a as [|x a IH]; intros [|y b]; simpl; try done.
  destruct (N.ltb_spec (byte_N x) (byte_N y)), (N.ltb_spec (byte_N y) (byte_N x)),
    (N.eqb_spec (byte_N x) (byte_N y)) as [Hxy|], (N.eqb_spec (byte_N y) (byte_N x));
    try done; try lia.
  intros H1 H2. f_equal; auto using byte_N_inj.
Qed.

(** ** Fixed-offset fields: ranges of slices of known length *)
Definition slice {A} (b : list A) (i j : N) : list A := take (N.to_nat (j - i)) (drop (N.to_nat i) b).

Lemma slice_all {A} (b : list A) i j : i = 0 -> j = blen b -> slice b i j = b.
Proof.
  intros -> ->. unfold slice. rewrite N.sub_0_r, drop_0. apply take_ge. unfold blen. lia.
Qed.
Lemma blen_slice {A} (b : list A) i j : i <= j -> j <= blen b -> blen (slice b i j) = j - i.
Proof. intros. unfold slice, blen in *. rewrite length_take, length_drop. lia. Qed.
Lemma slice_slice {A} (b : list A) i j k l :
  l <= j - i -> slice (slice b i j) k l = slice b (i + k) (i + l).
Proof.
  intros. unfold slice. rewrite skipn_firstn_comm, drop_drop, take_take. f_equal; [lia|]. f_equal. lia.
Qed.
Lemma index_range_slice {E A} (b : list A) i j :
  i <= j -> j <= blen b -> index_range (E:=E) b i j = Ok (slice b i j).
Proof.
  intros Hij Hj. unfold index_range, get_range.
  by rewrite (proj2 (N.leb_le i j) Hij), (proj2 (N.leb_le j (blen b)) Hj).
Qed.
Lemma slice_left {A} (p q : list A) i j : i <= j -> j <= blen p -> slice (p ++ q) i j = slice p i j.
Proof.
  intros ??. unfold slice, blen in *. rewrite drop_app_le by lia. rewrite take_app_le; [done|].
  rewrite length_drop. lia.
Qed.
Lemma slice_right {A} (p q : list A) i j :
  blen p <= i -> slice (p ++ q) i j = slice q (i - blen p) (j - blen p).
Proof.
  intros ?. unfold slice, blen in *. rewrite drop_app_ge by lia. f_equal; [lia|]. f_equal. lia.
Qed.
Lemma index_range_left {E A} (p q : list A) i j :
  i <= j -> j <= blen p -> index_range (E:=E) (p ++ q) i j = Ok (slice p i j).
Proof. intros. rewrite index_range_slice by (rewrite ?blen_app; lia). by rewrite slice_left. Qed.
Lemma index_range_right {E A} (p q : list A) i j :
  blen p <= i -> i <= j -> index_range (E:=E) (p ++ q) i j = index_range q (i - blen p) (j - blen p).
Proof.
  intros Hi Hij. unfold index_range. f_equal. unfold get_range. rewrite blen_app.
  destruct (N.leb_spec (i - blen p) (j - blen p)); [|lia].
  destruct (N.leb_spec i j); [|lia]. cbn [andb].
  destruct (N.leb_spec j (blen p + blen q)), (N.leb_spec (j - blen p) (blen q)); try lia; [|done].
  f_equal. by apply slice_right.
Qed.
Lemma split_at {A} (b : list A) n : n <= blen b -> exists p q, b = p ++ q /\ blen p = n.
Proof.
  intros. exists (take (N.to_nat n) b), (drop (N.to_nat n) b).
  split; [by rewrite take_drop|]. unfold blen in *. rewrite length_take. lia.
Qed.

(** [slices] evaluates ranges of concatenations whose parts have known length. *)
Ltac slices :=
  repeat first
    [ rewrite index_range_left by lia
    | rewrite index_range_right by lia
    | rewrite index_range_slice by lia
    | rewrite slice_all by lia ].
