(* ===== verification/Ranges.v ===== *)
(** * Ranges: lists of half-open ranges of offsets

    Two parsers of the repository reject overlapping ranges the same way: sort the
    ranges, then require each to start where the one before ended, or later.
    [decides_check_disjoint]: on nonempty ranges that is pairwise disjointness. *)
From S2P Require Import Prelude Bytes.

(** One step of the scan, from the end of the range before; [e] is the error. *)
Definition check_range {E} (e : E) (end_ : N) (r : N * N) : res E N :=
  let '(start, stop) := r in
  reject_if (start <? end_) e;;
  Ok stop.
Definition check_disjoint {E} (e : E) (ranges : list (N * N)) (floor : N) : res E unit :=
  for_each (check_range e) floor (merge_sort pair_le ranges);; Ok tt.

Definition apart (a b : N * N) : Prop := a.2 <= b.1 \/ b.2 <= a.1.
(** No two ranges of the list overlap. *)
Definition pairwise_apart (l : list (N * N)) : Prop := ForallOrdPairs apart l.
Definition nonempty_range (r : N * N) : Prop := r.1 < r.2.

#[global] Instance apart_sym : Symmetric apart.
Proof. intros a b. unfold apart. tauto. Qed.

Lemma pairwise_apart_perm l l' : l ≡ₚ l' -> pairwise_apart l -> pairwise_apart l'.
Proof.
  unfold pairwise_apart. induction 1 as [|x l l' Hp IH|x y l|l l' l'' _ IH1 _ IH2]; auto.
  - intros Hl. inversion_clear Hl as [|? ? Hx Ht]. constructor; [by rewrite <- Hp|auto].
  - intros Hl. inversion_clear Hl as [|? ? Hx Ht]. inversion_clear Ht as [|? ? Hy Ht'].
    inversion_clear Hx as [|? ? Hxy Hx']. constructor; [by constructor|by constructor].
Qed.

#[global] Instance pairwise_apart_proper : Proper ((≡ₚ) ==> iff) pairwise_apart.
Proof. intros l l' Hp. split; by apply pairwise_apart_perm. Qed.

Lemma decides_check_ranges {E} (e : E) l floor :
  Sorted pair_le l -> Forall nonempty_range l ->
  decides (for_each (check_range e) floor l)
    (Forall (fun r => floor <= r.1) l /\ pairwise_apart l) (fun _ => True).
Proof.
  intros Hs Hn. revert floor. assert (StronglySorted pair_le l) as Hss.
  { apply Sorted_StronglySorted; [|done]. intros [a1 a2] [b1 b2] [c1 c2]. unfold pair_le. cbn. lia. }
  clear Hs. induction Hss as [|[a b] l Hss IH Hle]; intros floor; cbn [for_each].
  { cbn. split; [|done]. split; constructor. }
  inversion_clear Hn as [|? ? Hab Hn']. specialize (IH Hn'). unfold nonempty_range in Hab. cbn in Hab.
  assert (check_range e floor (a, b) = if a <? floor then Err e else Ok b) as ->
    by (unfold check_range, reject_if; by destruct (a <? floor)).
  destruct (N.ltb_spec a floor) as [Hlt|Hge]; cbn.
  { intros [Hf _]. inversion_clear Hf. cbn in *. lia. }
  eapply decides_iff; [apply IH| |done]. rewrite Forall_cons. cbn. split.
  - intros [Hf Hp]. split; [split; [done|]|].
    + eapply Forall_impl; [exact Hf|]. cbn. intros. lia.
    + constructor; [|done]. eapply Forall_impl; [exact Hf|]. intros r Hr. by left.
  - intros [[_ Hf] Hp]. inversion_clear Hp as [|? ? Hx Hp']. split; [|done].
    rewrite Forall_forall in *. intros r Hr. specialize (Hle r Hr). specialize (Hx r Hr).
    specialize (Hn' r Hr). unfold pair_le, apart, nonempty_range in *. cbn in *. lia.
Qed.

Lemma decides_check_disjoint {E} (e : E) ranges floor :
  Forall nonempty_range ranges ->
  decides (check_disjoint e ranges floor)
    (Forall (fun r => floor <= r.1) ranges /\ pairwise_apart ranges) (fun _ => True).
Proof.
  intros Hn. unfold check_disjoint. pose proof (merge_sort_Permutation pair_le ranges) as Hp.
  eapply (decides_iff _ _ _ (fun _ => True)); [eapply decides_then; [apply decides_check_ranges|]| |].
  - apply Sorted_merge_sort. intros [a1 a2] [b1 b2]. unfold pair_le. cbn. lia.
  - by rewrite Hp.
  - intros _ _ _ _. exists tt. by split.
  - by rewrite Hp.
  - done.
Qed.
