(* ===== verification/Text.v ===== *)
(** * Text: UTF-8, UTF-16 and the string operations of Rust's [str]

    A Rust [str] is modelled by its UTF-8 bytes.  [utf8_decode] is
    [core::str::from_utf8] with the decoded scalar values as its result, so a
    byte string is a [str] exactly when it decodes.  Operations whose pattern is
    an ASCII character work on the bytes, as the standard library's do. *)
From S2P Require Import Prelude Bytes.

(** ** Scalar values *)
Definition is_scalar (c : N) : bool :=
  (c <? 0xD800) || ((0xE000 <=? c) && (c <=? 0x10FFFF)).

(** [char::is_control]: general category Cc. *)
Definition char_is_control (c : N) : bool :=
  (c <=? 0x1f) || ((0x7f <=? c) && (c <=? 0x9f)).

(** [char::is_whitespace]: the White_Space property. *)
Definition char_is_whitespace (c : N) : bool :=
  ((9 <=? c) && (c <=? 13)) || (c =? 0x20) || (c =? 0x85) || (c =? 0xA0)
  || (c =? 0x1680) || ((0x2000 <=? c) && (c <=? 0x200A)) || (c =? 0x2028)
  || (c =? 0x2029) || (c =? 0x202F) || (c =? 0x205F) || (c =? 0x3000).

(** ** UTF-8 *)
Definition utf8_encode_char (c : N) : bytes :=
  if c <? 0x80 then [byte_of c]
  else if c <? 0x800 then [byte_of (0xC0 + c / 64); byte_of (0x80 + c mod 64)]
  else if c <? 0x10000 then
    [byte_of (0xE0 + c / 4096); byte_of (0x80 + (c / 64) mod 64);
     byte_of (0x80 + c mod 64)]
  else
    [byte_of (0xF0 + c / 262144); byte_of (0x80 + (c / 4096) mod 64);
     byte_of (0x80 + (c / 64) mod 64); byte_of (0x80 + c mod 64)].

Definition utf8_encode (cs : list N) : bytes := cs ≫= utf8_encode_char.

Definition in_range (lo hi : N) (b : byte) : bool := (lo <=? byte_N b) && (byte_N b <=? hi).
Definition cont : byte -> bool := in_range 0x80 0xBF.

(** The second byte's range excludes overlong forms, surrogates and values
    beyond U+10FFFF. *)
Definition second3 (x : N) (b : byte) : bool :=
  in_range (if x =? 0xE0 then 0xA0 else 0x80) (if x =? 0xED then 0x9F else 0xBF) b.
Definition second4 (x : N) (b : byte) : bool :=
  in_range (if x =? 0xF0 then 0x90 else 0x80) (if x =? 0xF4 then 0x8F else 0xBF) b.

Fixpoint utf8_decode (b : bytes) : option (list N) :=
  match b with
  | [] => Some []
  | b0 :: r =>
    let x := byte_N b0 in
    if x <? 0x80 then cons x <$> utf8_decode r
    else if (0xC2 <=? x) && (x <? 0xE0) then
      match r with
      | b1 :: r =>
        if cont b1
        then cons ((x - 0xC0) * 64 + (byte_N b1 - 0x80)) <$> utf8_decode r else None
      | _ => None
      end
    else if (0xE0 <=? x) && (x <? 0xF0) then
      match r with
      | b1 :: b2 :: r =>
        if second3 x b1 && cont b2
        then cons ((x - 0xE0) * 4096 + (byte_N b1 - 0x80) * 64 + (byte_N b2 - 0x80))
               <$> utf8_decode r
        else None
      | _ => None
      end
    else if (0xF0 <=? x) && (x <? 0xF5) then
      match r with
      | b1 :: b2 :: b3 :: r =>
        if second4 x b1 && cont b2 && cont b3
        then cons ((x - 0xF0) * 262144 + (byte_N b1 - 0x80) * 4096
                   + (byte_N b2 - 0x80) * 64 + (byte_N b3 - 0x80)) <$> utf8_decode r
        else None
      | _ => None
      end
    else None
  end.

(** [std::str::from_utf8]: the same bytes, when they are UTF-8. *)
Definition from_utf8 (b : bytes) : option bytes :=
  if utf8_decode b is Some _ then Some b else None.

(** [s.chars()] *)
Definition chars (s : bytes) : list N := default [] (utf8_decode s).

(** ** UTF-16 *)
Definition encode_utf16_char (c : N) : list N :=
  if c <? 0x10000 then [c]
  else [0xD800 + (c - 0x10000) / 1024; 0xDC00 + (c - 0x10000) mod 1024].
(** [s.encode_utf16()] *)
Definition encode_utf16 (s : bytes) : list N := chars s ≫= encode_utf16_char.
Definition u16s_to_le (ws : list N) : bytes := ws ≫= N_to_le 2.

Fixpoint utf16_decode (ws : list N) : option (list N) :=
  match ws with
  | [] => Some []
  | w :: ws =>
    if (w <? 0xD800) || (0xE000 <=? w) then cons w <$> utf16_decode ws
    else if w <? 0xDC00 then
      match ws with
      | w2 :: ws =>
        if (0xDC00 <=? w2) && (w2 <? 0xE000)
        then cons (0x10000 + (w - 0xD800) * 1024 + (w2 - 0xDC00)) <$> utf16_decode ws
        else None
      | [] => None
      end
    else None
  end.
(** [String::from_utf16] *)
Definition from_utf16 (ws : list N) : option bytes := utf8_encode <$> utf16_decode ws.

(** ** Splitting *)

(** [s.split(c)] *)
Fixpoint split_byte (c : byte) (s : bytes) : list bytes :=
  match s with
  | [] => [[]]
  | x :: s =>
    if Byte.eqb x c then [] :: split_byte c s
    else match split_byte c s with
         | p :: ps => (x :: p) :: ps
         | [] => [[x]]
         end
  end.

(** [s.split_once(c)] *)
Fixpoint split_once (c : byte) (s : bytes) : option (bytes * bytes) :=
  match s with
  | [] => None
  | x :: s =>
    if Byte.eqb x c then Some ([], s)
    else '(a, b) ← split_once c s; Some (x :: a, b)
  end.

(** [s.splitn(n, c)] for [n >= 1] *)
Fixpoint splitn (n : nat) (c : byte) (s : bytes) : list bytes :=
  match n with
  | O => []
  | S O => [s]
  | S n => match split_once c s with
           | Some (a, b) => a :: splitn n c b
           | None => [s]
           end
  end.

(** [u8::is_ascii_whitespace]: space, tab, LF, FF, CR. *)
Definition is_ascii_whitespace (c : byte) : bool :=
  let n := byte_N c in (n =? 32) || (n =? 9) || (n =? 10) || (n =? 12) || (n =? 13).

(** [s.split_ascii_whitespace()] *)
Fixpoint split_ws_aux (cur : bytes) (s : bytes) : list bytes :=
  match s with
  | [] => if cur is [] then [] else [rev cur]
  | x :: s =>
    if is_ascii_whitespace x
    then (if cur is [] then split_ws_aux [] s else rev cur :: split_ws_aux [] s)
    else split_ws_aux (x :: cur) s
  end.
Definition split_ascii_whitespace (s : bytes) : list bytes := split_ws_aux [] s.

(** [s.trim_matches(p)] for a predicate on ASCII characters *)
Fixpoint trim_start_matches (p : byte -> bool) (s : bytes) : bytes :=
  match s with
  | [] => []
  | x :: s' => if p x then trim_start_matches p s' else s
  end.
Definition trim_end_matches (p : byte -> bool) (s : bytes) : bytes :=
  rev (trim_start_matches p (rev s)).
Definition trim_matches (p : byte -> bool) (s : bytes) : bytes :=
  trim_end_matches p (trim_start_matches p s).
(** [s.trim()], by characters *)
Fixpoint skip_while {A} (p : A -> bool) (l : list A) : list A :=
  match l with [] => [] | x :: l' => if p x then skip_while p l' else l end.
Definition str_trim (s : bytes) : bytes :=
  utf8_encode (rev (skip_while char_is_whitespace (rev (skip_while char_is_whitespace (chars s))))).

(** [to_string] of an unsigned integer *)
Fixpoint decimal_digits (fuel : nat) (n : N) (acc : bytes) : bytes :=
  match fuel with
  | O => acc
  | S fuel =>
    let acc := byte_of (48 + n mod 10) :: acc in
    if n <? 10 then acc else decimal_digits fuel (n / 10) acc
  end.
Definition to_decimal (n : N) : bytes := decimal_digits (S (N.to_nat (N.log2 n))) n [].

Definition is_digit (c : byte) : bool := (48 <=? byte_N c) && (byte_N c <=? 57).
Definition is_ascii_alphanumeric (c : byte) : bool :=
  is_digit c || ((65 <=? byte_N c) && (byte_N c <=? 90)) || ((97 <=? byte_N c) && (byte_N c <=? 122)).
(** [a.eq_ignore_ascii_case(b)] *)
Definition eq_ignore_ascii_case (a b : bytes) : bool := bytes_eqb (to_ascii_lowercase a) (to_ascii_lowercase b).
(** [s.parse::<u32>()]: digits, after an optional plus sign *)
Definition parse_unsigned (max : N) (s : bytes) : option N :=
  let s := match s with x2b :: s' => s' | _ => s end in
  if (blen s =? 0) || negb (forallb is_digit s) then None
  else
    let n := foldl (fun n c => 10 * n + (byte_N c - 48)) 0 s in
    if n <=? max then Some n else None.

(** * Lemmas *)

(** ** UTF-8 is a bijection between scalar sequences and [str] *)
#[local] Ltac Zify.zify_post_hook ::= Z.to_euclidean_division_equations.

(** Resolve the first conditional of the goal by arithmetic. *)
#[local] Ltac if_true :=
  match goal with |- context [if ?b then _ else _] =>
    replace b with true by (symmetry; bools; lia) end.
#[local] Ltac if_false :=
  match goal with |- context [if ?b then _ else _] =>
    replace b with false by (symmetry; bools; lia) end.

Lemma utf8_encode_cons c cs : utf8_encode (c :: cs) = utf8_encode_char c ++ utf8_encode cs.
Proof. done. Qed.

Lemma in_range_true lo hi n : lo <= n mod 256 <= hi -> in_range lo hi (byte_of n) = true.
Proof. unfold in_range. rewrite byte_N_of. intros. bools. lia. Qed.

Lemma second3_encode c :
  0x800 <= c -> c < 0x10000 -> is_scalar c = true ->
  second3 (0xE0 + c / 4096) (byte_of (0x80 + (c / 64) mod 64)) = true.
Proof.
  unfold second3, is_scalar. intros. apply in_range_true.
  destruct (N.eqb_spec (0xE0 + c / 4096) 0xE0), (N.eqb_spec (0xE0 + c / 4096) 0xED);
    bools; lia.
Qed.

Lemma second4_encode c :
  0x10000 <= c -> is_scalar c = true ->
  second4 (0xF0 + c / 262144) (byte_of (0x80 + (c / 4096) mod 64)) = true.
Proof.
  unfold second4, is_scalar. intros. apply in_range_true.
  destruct (N.eqb_spec (0xF0 + c / 262144) 0xF0), (N.eqb_spec (0xF0 + c / 262144) 0xF4);
    bools; lia.
Qed.

Lemma cont_encode n : n < 64 -> cont (byte_of (0x80 + n)) = true.
Proof. intros. apply in_range_true. lia. Qed.

Lemma byte_N_of_small n : n < 256 -> byte_N (byte_of n) = n.
Proof. intros. rewrite byte_N_of. by apply N.mod_small. Qed.

Lemma utf8_decode_encode_char c r :
  is_scalar c = true -> utf8_decode (utf8_encode_char c ++ r) = cons c <$> utf8_decode r.
Proof.
  intros Hc. assert (c <= 0x10FFFF) by (unfold is_scalar in Hc; bools; lia).
  unfold utf8_encode_char.
  destruct (N.ltb_spec c 0x80); [|destruct (N.ltb_spec c 0x800);
    [|destruct (N.ltb_spec c 0x10000)]]; cbn [app utf8_decode];
    rewrite !byte_N_of_small by lia.
  - by if_true.
  - if_false. if_true. rewrite cont_encode by lia. do 2 f_equal. lia.
  - do 2 if_false. if_true. rewrite second3_encode, cont_encode by (done || lia).
    simpl. do 2 f_equal. lia.
  - do 3 if_false. if_true. rewrite second4_encode, !cont_encode by (done || lia).
    simpl. do 2 f_equal. lia.
Qed.

Lemma utf8_decode_encode cs :
  forallb is_scalar cs = true -> utf8_decode (utf8_encode cs) = Some cs.
Proof.
  induction cs as [|c cs IH]; [done|]. cbn [forallb]. intros [Hc Hcs]%andb_true_iff.
  by rewrite utf8_encode_cons, utf8_decode_encode_char, IH.
Qed.

(** What a successfully decoded character looks like, by the length of its
    encoding. *)
Lemma utf8_char1 b0 :
  byte_N b0 < 0x80 ->
  utf8_encode_char (byte_N b0) = [b0] /\ is_scalar (byte_N b0) = true.
Proof.
  intros. unfold utf8_encode_char, is_scalar. if_true. rewrite byte_of_N.
  split; [done|]. bools. lia.
Qed.

#[local] Ltac same_bytes :=
  repeat (apply f_equal2; [apply byte_N_inj; rewrite byte_N_of; lia|]); done.

Lemma utf8_char2 b0 b1 :
  0xC2 <= byte_N b0 -> byte_N b0 < 0xE0 -> cont b1 = true ->
  let c := (byte_N b0 - 0xC0) * 64 + (byte_N b1 - 0x80) in
  utf8_encode_char c = [b0; b1] /\ is_scalar c = true.
Proof.
  intros H1 H2 Hc c. unfold cont, in_range in Hc. bools.
  unfold utf8_encode_char, is_scalar, c. if_false. if_true. split; [same_bytes|].
  bools. lia.
Qed.

Lemma utf8_char3 b0 b1 b2 :
  0xE0 <= byte_N b0 -> byte_N b0 < 0xF0 -> second3 (byte_N b0) b1 = true -> cont b2 = true ->
  let c := (byte_N b0 - 0xE0) * 4096 + (byte_N b1 - 0x80) * 64 + (byte_N b2 - 0x80) in
  utf8_encode_char c = [b0; b1; b2] /\ is_scalar c = true.
Proof.
  intros H1 H2 Hs Hc c. unfold second3, cont, in_range in *.
  assert (0x800 <= c /\ c < 0x10000 /\ (c < 0xD800 \/ 0xE000 <= c) /\
          0x80 <= byte_N b1 <= 0xBF /\ 0x80 <= byte_N b2 <= 0xBF) as (? & ? & ? & ? & ?).
  { unfold c. destruct (N.eqb_spec (byte_N b0) 0xE0), (N.eqb_spec (byte_N b0) 0xED);
      bools; lia. }
  unfold utf8_encode_char, is_scalar. do 2 if_false. if_true.
  split; [unfold c; same_bytes|]. bools. lia.
Qed.

Lemma utf8_char4 b0 b1 b2 b3 :
  0xF0 <= byte_N b0 -> byte_N b0 < 0xF5 -> second4 (byte_N b0) b1 = true ->
  cont b2 = true -> cont b3 = true ->
  let c := (byte_N b0 - 0xF0) * 262144 + (byte_N b1 - 0x80) * 4096
           + (byte_N b2 - 0x80) * 64 + (byte_N b3 - 0x80) in
  utf8_encode_char c = [b0; b1; b2; b3] /\ is_scalar c = true.
Proof.
  intros H1 H2 Hs Hc2 Hc3 c. unfold second4, cont, in_range in *.
  assert (0x10000 <= c /\ c <= 0x10FFFF /\ 0x80 <= byte_N b1 <= 0xBF /\
          0x80 <= byte_N b2 <= 0xBF /\ 0x80 <= byte_N b3 <= 0xBF) as (? & ? & ? & ? & ?).
  { unfold c. destruct (N.eqb_spec (byte_N b0) 0xF0), (N.eqb_spec (byte_N b0) 0xF4);
      bools; lia. }
  unfold utf8_encode_char, is_scalar. do 3 if_false.
  split; [unfold c; same_bytes|]. bools. lia.
Qed.

Lemma utf8_decode_inv b cs :
  utf8_decode b = Some cs -> utf8_encode cs = b /\ forallb is_scalar cs = true.
Proof.
  revert cs. induction b as [b IH] using (induction_ltof1 _ (@length _)); unfold ltof in IH.
  assert (forall pre r c cs, b = pre ++ r -> pre <> [] ->
    utf8_encode_char c = pre /\ is_scalar c = true ->
    cons c <$> utf8_decode r = Some cs ->
    utf8_encode cs = b /\ forallb is_scalar cs = true) as Hstep.
  { intros pre r c cs -> Hpre [Henc Hsc] (cs' & [IH1 IH2]%IH & ->)%fmap_Some.
    - rewrite utf8_encode_cons, Henc, IH1. cbn [forallb]. by rewrite Hsc, IH2.
    - rewrite length_app. destruct pre; simpl; [done|lia]. }
  intros cs. destruct b as [|b0 r]; [by intros [= <-]|]. cbn [utf8_decode].
  destruct (N.ltb_spec (byte_N b0) 0x80).
  { by apply (Hstep [b0] r), utf8_char1. }
  destruct (_ && _) eqn:H2 at 1.
  { destruct r as [|b1 r]; [done|]. destruct (cont b1) eqn:?; [|done]. bools.
    by apply (Hstep [b0; b1] r), utf8_char2. }
  clear H2. destruct (_ && _) eqn:H3 at 1.
  { destruct r as [|b1 [|b2 r]]; try done. destruct (_ && _) eqn:Hb at 1; [|done]. bools.
    by apply (Hstep [b0; b1; b2] r), utf8_char3. }
  clear H3. destruct (_ && _) eqn:H4 at 1; [|done].
  destruct r as [|b1 [|b2 [|b3 r]]]; try done.
  destruct (_ && _) eqn:Hb at 1; [|done]. bools.
  by apply (Hstep [b0; b1; b2; b3] r), utf8_char4.
Qed.

Lemma from_utf8_Some b t : from_utf8 b = Some t -> t = b /\ exists cs, utf8_decode b = Some cs.
Proof. unfold from_utf8. case_match; naive_solver. Qed.

(** ASCII bytes of a [str] are exactly its ASCII characters. *)
Lemma utf8_encode_char_ascii c x :
  is_scalar x = true -> byte_N c < 0x80 -> c ∈ utf8_encode_char x -> x = byte_N c.
Proof.
  intros Hx Hc. assert (x <= 0x10FFFF) by (unfold is_scalar in Hx; bools; lia).
  unfold utf8_encode_char. repeat case_match; bools;
    rewrite ?elem_of_cons, elem_of_nil; intros Hin;
    repeat destruct Hin as [->|Hin]; try done; rewrite byte_N_of in *; lia.
Qed.

Lemma utf8_ascii_elem s cs c :
  utf8_decode s = Some cs -> byte_N c < 0x80 -> c ∈ s -> byte_N c ∈ cs.
Proof.
  intros [<- Hcs]%utf8_decode_inv Hc. revert Hcs.
  induction cs as [|x cs IH]; [intros _ []%elem_of_nil|]. cbn [forallb].
  intros [Hx Hcs]%andb_true_iff. rewrite utf8_encode_cons, elem_of_app, elem_of_cons.
  intros [Hin|Hin]; [left|right; auto]. symmetry. by apply utf8_encode_char_ascii.
Qed.

(** ** Splitting *)
Fixpoint join_byte (c : byte) (ps : list bytes) : bytes :=
  match ps with
  | [] => []
  | [p] => p
  | p :: ps => p ++ c :: join_byte c ps
  end.

Lemma split_byte_nonempty c s : split_byte c s <> [].
Proof. destruct s as [|x s]; simpl; [done|]. repeat case_match; done. Qed.

(** Splitting loses nothing, and no part contains the separator. *)
Lemma join_split_byte c s : join_byte c (split_byte c s) = s.
Proof.
  induction s as [|x s IH]; [done|]. simpl.
  pose proof (split_byte_nonempty c s) as Hne.
  destruct (Byte.eqb x c) eqn:Hx; bools.
  - subst. rewrite <- IH at 2. by destruct (split_byte c s).
  - destruct (split_byte c s) as [|p [|q ps]]; [done| |]; simpl in *; congruence.
Qed.

Lemma split_byte_parts c s : Forall (fun p => c ∉ p) (split_byte c s).
Proof.
  induction s as [|x s IH]; simpl.
  - constructor; [apply not_elem_of_nil|done].
  - destruct (Byte.eqb x c) eqn:Hx; bools.
    + constructor; [apply not_elem_of_nil|done].
    + destruct (split_byte c s) as [|p ps]; inversion IH; subst; constructor; try done;
        rewrite not_elem_of_cons; split; auto; apply not_elem_of_nil.
Qed.

Lemma split_once_Some c s a b :
  split_once c s = Some (a, b) <-> s = a ++ c :: b /\ c ∉ a.
Proof.
  revert a b; induction s as [|x s IH]; intros a b; simpl.
  - split; [done|]. intros [H _]. by destruct a.
  - destruct (Byte.eqb x c) eqn:Hx; bools.
    + subst. split.
      * intros [= <- <-]. split; [done|apply not_elem_of_nil].
      * intros [H Hn]. destruct a as [|y a]; simplify_eq/=; [done|].
        rewrite not_elem_of_cons in Hn. by destruct Hn.
    + split.
      * intros H. destruct (split_once c s) as [[a' b']|] eqn:E; [|done]. simplify_eq/=.
        destruct (proj1 (IH a' b) eq_refl) as [-> Hn]. split; [done|].
        rewrite not_elem_of_cons. auto.
      * intros [H Hn]. destruct a as [|y a]; simplify_eq/=.
        rewrite not_elem_of_cons in Hn. rewrite (proj2 (IH a b)); [done|]. naive_solver.
Qed.

Lemma split_once_None c s : split_once c s = None <-> c ∉ s.
Proof.
  destruct (split_once c s) as [[a b]|] eqn:E.
  - apply split_once_Some in E as [-> _]. split; [done|]. set_solver.
  - split; [|done]. intros _ Hin. apply list_elem_of_split_l in Hin as (a & b & -> & Hn).
    by rewrite (proj2 (split_once_Some c _ a b)) in E.
Qed.

(** ** UTF-16 *)
Lemma utf16_decode_inv ws cs :
  Forall (fun w => w < 2 ^ 16) ws -> utf16_decode ws = Some cs ->
  cs ≫= encode_utf16_char = ws /\ forallb is_scalar cs = true.
Proof.
  revert cs. induction ws as [ws IH] using (induction_ltof1 _ (@length _)); unfold ltof in IH.
  intros cs Hall. destruct ws as [|w ws]; cbn.
  { by intros [= <-]. }
  inversion_clear Hall as [|? ? Hw Hall'].
  destruct ((w <? 0xD800) || (0xE000 <=? w)) eqn:E1.
  - intros (cs' & Hd & ->)%fmap_Some. destruct (IH ws ltac:(cbn; lia) cs' Hall' Hd) as [He Hs].
    cbn. rewrite He, Hs. unfold encode_utf16_char. rewrite (proj2 (N.ltb_lt w _)) by lia.
    split; [done|]. unfold is_scalar. bools. split; [|done].
    destruct E1; [left; lia|right]. lia.
  - destruct (w <? 0xDC00) eqn:E2; [|done]. destruct ws as [|w2 ws]; [done|].
    inversion_clear Hall' as [|? ? Hw2 Hall''].
    destruct ((0xDC00 <=? w2) && (w2 <? 0xE000)) eqn:E3; [|done].
    intros (cs' & Hd & ->)%fmap_Some.
    destruct (IH ws ltac:(cbn; lia) cs' Hall'' Hd) as [He Hs]. cbn [forallb mbind list_bind].
    rewrite He, Hs. bools. unfold encode_utf16_char.
    rewrite (proj2 (N.ltb_ge _ 0x10000)) by lia. split.
    + cbn. f_equal; [lia|]. f_equal. lia.
    + unfold is_scalar. bools. split; [right; lia|done].
Qed.

Lemma from_utf16_Some ws s :
  Forall (fun w => w < 2 ^ 16) ws -> from_utf16 ws = Some s ->
  encode_utf16 s = ws /\ is_Some (utf8_decode s).
Proof.
  intros Hall (cs & Hd & ->)%fmap_Some. apply utf16_decode_inv in Hd as [He Hs]; [|done].
  unfold encode_utf16, chars. rewrite utf8_decode_encode by done. done.
Qed.

(** The 16-bit words of a byte string re-assemble it. *)
Definition le_words (b : bytes) : list N := le_to_N <$> chunks_exact 2 b.
Lemma chunks2_fuel fuel (b : bytes) :
  (length b <= fuel)%nat -> Nat.even (length b) = true ->
  u16s_to_le (le_to_N <$> chunks_exact_fuel fuel 2 b) = b /\
  Forall (fun w => w < 2 ^ 16) (le_to_N <$> chunks_exact_fuel fuel 2 b).
Proof.
  revert b. induction fuel as [|fuel IH]; intros [|x [|y b]] Hf He; cbn in Hf, He; try done; try lia.
  cbn [chunks_exact_fuel length Nat.leb take drop fmap list_fmap].
  destruct (IH b ltac:(lia) He) as [H1 H2]. split.
  - change (N_to_le (length [x; y]) (le_to_N [x; y])
      ++ u16s_to_le (le_to_N <$> chunks_exact_fuel fuel 2 b) = x :: y :: b).
    by rewrite N_to_le_to_N, H1.
  - constructor; [|done]. exact (le_to_N_bound [x; y]).
Qed.

Lemma le_words_bytes b :
  blen b mod 2 = 0 -> u16s_to_le (le_words b) = b /\ Forall (fun w => w < 2 ^ 16) (le_words b).
Proof.
  intros He. apply chunks2_fuel; [done|]. apply Nat.even_spec. exists (N.to_nat (blen b / 2)).
  unfold blen in *. lia.
Qed.

Lemma utf16_decode_encode cs :
  forallb is_scalar cs = true ->
  utf16_decode (cs ≫= encode_utf16_char) = Some cs /\
  Forall (fun w => w < 2 ^ 16) (cs ≫= encode_utf16_char).
Proof.
  induction cs as [|c cs IH]; cbn [forallb]; [done|].
  intros [Hc [IH1 IH2]%IH]%andb_true_iff. rewrite bind_cons.
  unfold is_scalar in Hc. unfold encode_utf16_char at 1 3.
  destruct (N.ltb_spec c 0x10000) as [Hlt|Hge]; cbn [app utf16_decode].
  - assert ((c <? 0xD800) || (0xE000 <=? c) = true) as -> by (bools; lia).
    rewrite IH1. split; [done|]. constructor; [lia|done].
  - bools. assert ((0xD800 + (c - 0x10000) / 1024 <? 0xD800)
      || (0xE000 <=? 0xD800 + (c - 0x10000) / 1024) = false) as -> by (bools; lia).
    rewrite (proj2 (N.ltb_lt _ 0xDC00)) by lia.
    assert ((0xDC00 <=? 0xDC00 + (c - 0x10000) mod 1024)
      && (0xDC00 + (c - 0x10000) mod 1024 <? 0xE000) = true) as -> by (bools; lia).
    rewrite IH1. split; [cbn; do 2 f_equal; lia|]. constructor; [lia|]. constructor; [lia|done].
Qed.

Lemma encode_utf16_bound s :
  is_Some (utf8_decode s) -> Forall (fun w => w < 2 ^ 16) (encode_utf16 s).
Proof.
  intros [cs Hs]. unfold encode_utf16, chars. rewrite Hs. cbn.
  apply utf8_decode_inv in Hs as [_ Hs]. by apply utf16_decode_encode.
Qed.

Lemma encode_utf16_inj a b :
  is_Some (utf8_decode a) -> is_Some (utf8_decode b) -> encode_utf16 a = encode_utf16 b -> a = b.
Proof.
  intros [ca Ha] [cb Hb]. unfold encode_utf16, chars. rewrite Ha, Hb. cbn. intros Heq.
  apply utf8_decode_inv in Ha as [<- Ha], Hb as [<- Hb].
  destruct (utf16_decode_encode ca Ha) as [Ea _], (utf16_decode_encode cb Hb) as [Eb _].
  rewrite Heq in Ea. congruence.
Qed.

Lemma u16s_to_le_inj ws ws' :
  Forall (fun w => w < 2 ^ 16) ws -> Forall (fun w => w < 2 ^ 16) ws' ->
  u16s_to_le ws = u16s_to_le ws' -> ws = ws'.
Proof.
  intros Hw. revert ws'. induction Hw as [|w ws Hw _ IH]; intros ws' Hw'; unfold u16s_to_le in *.
  - destruct Hw' as [|w' ws' _ _]; [done|]. rewrite bind_cons. intros Heq%(f_equal length).
    rewrite length_app, length_N_to_le in Heq. done.
  - destruct Hw' as [|w' ws' Hw' Hws']; rewrite ?bind_cons; intros Heq.
    + apply (f_equal length) in Heq. rewrite length_app, length_N_to_le in Heq. done.
    + apply app_inj_1 in Heq as [Hh Ht]; [|by rewrite !length_N_to_le].
      apply (f_equal le_to_N) in Hh. rewrite !le_to_N_to_le in Hh by done. subst. f_equal. auto.
Qed.

(** ASCII text is UTF-8. *)
Lemma ascii_utf8 s : forallb (fun c => byte_N c <? 0x80) s = true -> is_Some (utf8_decode s).
Proof.
  induction s as [|c s IH]; cbn; [by eexists|]. intros [Hc Hs]%andb_true_iff.
  rewrite Hc. destruct (IH Hs) as [cs ->]. by eexists.
Qed.

(** ** Trimming *)
Lemma skip_while_suffix {A} (p : A -> bool) l : exists pre, l = pre ++ skip_while p l /\ Forall (fun x => p x = true) pre.
Proof.
  induction l as [|x l (pre & Hl & Hp)]; cbn; [by exists []|].
  destruct (p x) eqn:Ex; [|by exists []]. exists (x :: pre). cbn. rewrite <- Hl. auto.
Qed.

Lemma length_utf8_encode_app a b :
  length (utf8_encode (a ++ b)) = (length (utf8_encode a) + length (utf8_encode b))%nat.
Proof. unfold utf8_encode. by rewrite bind_app, length_app. Qed.

Lemma str_trim_length s : (length (str_trim s) <= length s)%nat.
Proof.
  unfold str_trim, chars.
  destruct (utf8_decode s) as [cs|] eqn:Ec; cbn [default from_option id]; [|cbn; lia].
  apply utf8_decode_inv in Ec as [Ec _]. rewrite <- Ec. clear Ec.
  destruct (skip_while_suffix char_is_whitespace cs) as (pre & Hcs & _).
  set (t := skip_while char_is_whitespace cs) in *.
  destruct (skip_while_suffix char_is_whitespace (rev t)) as (post & Ht & _).
  apply (f_equal (@rev N)) in Ht. rewrite rev_involutive, rev_app_distr in Ht.
  apply (f_equal utf8_encode), (f_equal length) in Hcs, Ht.
  rewrite length_utf8_encode_app in Hcs, Ht. lia.
Qed.

Lemma utf8_decode_ascii s :
  forallb (fun c => byte_N c <? 0x80) s = true -> utf8_decode s = Some (byte_N <$> s).
Proof.
  induction s as [|c s IH]; cbn; [done|]. intros [Hc Hs]%andb_true_iff.
  rewrite Hc. by rewrite (IH Hs).
Qed.

(** ASCII text between two runs of whitespace. *)
Definition ascii (s : bytes) : bool := forallb (fun c => byte_N c <? 0x80) s.
Definition blank (s : bytes) : bool := forallb is_ascii_whitespace s.

Lemma ascii_app a b : ascii (a ++ b) = ascii a && ascii b.
Proof. apply forallb_app. Qed.

Lemma blank_spec s : blank s = true <->
  forall c, c ∈ s -> byte_N c = 32 \/ byte_N c = 9 \/ byte_N c = 10 \/ byte_N c = 12 \/ byte_N c = 13.
Proof.
  unfold blank. rewrite forallb_forall. setoid_rewrite <- list_elem_of_In.
  unfold is_ascii_whitespace. split; intros Hs c Hc; specialize (Hs c Hc); bools; tauto.
Qed.

Lemma blank_ascii s : blank s = true -> ascii s = true.
Proof.
  intros Hs. unfold ascii. rewrite forallb_forall. setoid_rewrite <- list_elem_of_In.
  intros c Hc. apply (proj1 (blank_spec s) Hs) in Hc. bools. lia.
Qed.

Lemma skip_while_app {A} (p : A -> bool) a b :
  Forall (fun x => p x = true) a -> (forall x, head b = Some x -> p x = false) ->
  skip_while p (a ++ b) = b.
Proof.
  induction 1 as [|x a Hx _ IH]; intros Hb; cbn.
  - destruct b as [|y b]; [done|]. cbn. by rewrite (Hb y).
  - rewrite Hx. auto.
Qed.

Lemma blank_whitespace s : blank s = true -> Forall (fun c => char_is_whitespace c = true) (byte_N <$> s).
Proof.
  intros Hs. apply Forall_fmap, Forall_forall. intros c Hc. apply (proj1 (blank_spec s) Hs) in Hc.
  unfold compose. destruct_or! Hc; by rewrite Hc.
Qed.

Lemma utf8_encode_ascii s : ascii s = true -> utf8_encode (byte_N <$> s) = s.
Proof. intros Hs. by apply utf8_decode_inv, utf8_decode_ascii. Qed.

Lemma str_trim_ascii w1 t w2 :
  blank w1 = true -> blank w2 = true -> ascii t = true ->
  (forall c, head t = Some c \/ last t = Some c -> char_is_whitespace (byte_N c) = false) ->
  str_trim (w1 ++ t ++ w2) = t.
Proof.
  intros H1 H2 Ht Hends. unfold str_trim, chars. rewrite utf8_decode_ascii.
  2: { change (ascii (w1 ++ t ++ w2) = true). rewrite !ascii_app, Ht.
       by rewrite (blank_ascii w1 H1), (blank_ascii w2 H2). }
  cbn [default from_option id]. rewrite !fmap_app.
  destruct t as [|c t] using rev_ind.
  - cbn [fmap list_fmap app]. rewrite <- fmap_app.
    rewrite <- (app_nil_r (byte_N <$> w1 ++ w2)), skip_while_app; [done| |done].
    apply blank_whitespace. unfold blank in *. by rewrite forallb_app, H1, H2.
  - rewrite skip_while_app; [|by apply blank_whitespace|].
    + rewrite rev_app_distr, skip_while_app.
      * by rewrite rev_involutive, utf8_encode_ascii.
      * apply Forall_rev. by apply blank_whitespace.
      * intros x. rewrite fmap_app, rev_app_distr. cbn. intros [= <-]. apply Hends. right. by rewrite last_snoc.
    + intros x Hx. destruct t as [|d t]; simplify_eq/=; apply Hends; auto.
Qed.
