(* ===== verification/Crypto.v ===== *)
(** * Crypto: the interfaces of the cryptographic crates

    SHA-2 ([sha2]) and Ed25519 ([ed25519-dalek]) are not part of the repository:
    they are parameters.  A component receives them through the classes below;
    the laws a theorem relies on are the [Prop] classes next to them, which state
    documented behaviour (digest widths; a signature made with a key verifies
    under its public key).  Collision resistance is never assumed.  Digests of a
    fixed width do collide somewhere, so that some pair of messages collides says
    nothing; a theorem that needs the hash to be injective concludes, as its
    alternative, with a [collision] between two messages that it names, or among
    two lists of messages that are computed from its subjects ([collision_among]):
    whoever holds the subjects holds the colliding pair.

    The [toy] instances show that the laws can hold, and serve the concrete
    evaluations of the witnesses. *)
From S2P Require Import Prelude Bytes.

Class Sha2 := {
  sha256 : bytes -> bytes;
  sha384 : bytes -> bytes;
  sha512 : bytes -> bytes;
}.

Class Sha2Laws (H : Sha2) : Prop := {
  sha256_length b : length (sha256 b) = 32%nat;
  sha384_length b : length (sha384 b) = 48%nat;
  sha512_length b : length (sha512 b) = 64%nat;
}.

(** These two messages are different and have one digest. *)
Definition collision (h : bytes -> bytes) (x y : bytes) : Prop := x <> y /\ h x = h y.
(** A message of the first list collides with one of the second. *)
Definition collision_among (h : bytes -> bytes) (l l' : list bytes) : Prop :=
  exists x y, x ∈ l /\ y ∈ l' /\ collision h x y.
(** One of these messages hashes to the given value. *)
Definition preimage_among (h : bytes -> bytes) (l : list bytes) (v : bytes) : Prop :=
  exists x, x ∈ l /\ h x = v.

(** Ed25519: keys and signatures are byte strings of the documented widths. *)
Class Ed25519 := {
  SigningKey : Type;
  verifying_key : SigningKey -> bytes;
  ed_sign : SigningKey -> bytes -> bytes;
  ed_verify : bytes -> bytes -> bytes -> bool;
  (** [VerifyingKey::from_bytes] accepts this encoding. *)
  vk_valid : bytes -> bool;
}.

Class Ed25519Laws (S : Ed25519) : Prop := {
  verifying_key_length k : length (verifying_key k) = 32%nat;
  ed_sign_length k m : length (ed_sign k m) = 64%nat;
  vk_valid_key k : vk_valid (verifying_key k) = true;
  ed_verify_sign k m : ed_verify (verifying_key k) m (ed_sign k m) = true;
}.

(** ** Instances for concrete evaluation *)
Fixpoint toy_digest (w : nat) (acc : N) (b : bytes) : bytes :=
  match b with
  | [] => N_to_le w acc
  | x :: b => toy_digest w ((acc * 257 + byte_N x + 1) mod 65521) b
  end.
Definition toy_sha2 : Sha2 := {|
  sha256 := toy_digest 32 7;
  sha384 := toy_digest 48 7;
  sha512 := toy_digest 64 7;
|}.

Definition toy_ed25519 : Ed25519 := {|
  SigningKey := N;
  verifying_key k := N_to_le 32 k;
  ed_sign k m := toy_digest 64 11 (N_to_le 32 k ++ m);
  ed_verify vk m s := bytes_eqb s (toy_digest 64 11 (vk ++ m));
  vk_valid vk := blen vk =? 32;
|}.

(** * Lemmas *)
Lemma length_toy_digest w acc b : length (toy_digest w acc b) = w.
Proof. revert acc; induction b as [|x b IH]; intros acc; simpl; [apply length_N_to_le|apply IH]. Qed.

Lemma toy_sha2_laws : Sha2Laws toy_sha2.
Proof. split; intros b; apply length_toy_digest. Qed.

Lemma toy_ed25519_laws : Ed25519Laws toy_ed25519.
Proof.
  split.
  - intros k. exact (length_N_to_le 32 k).
  - intros k m. exact (length_toy_digest 64 11 _).
  - intros k. apply N.eqb_eq. exact (f_equal N.of_nat (length_N_to_le 32 k)).
  - intros k m. by apply bytes_eqb_eq.
Qed.

(** Equal digests of different messages are a collision of these messages. *)
Lemma eq_or_collision (h : bytes -> bytes) x y : h x = h y -> x = y \/ collision h x y.
Proof. intros H. destruct (decide (x = y)) as [->|Hne]; [by left|by right]. Qed.
Lemma eq_or_among (h : bytes -> bytes) x y l l' :
  x ∈ l -> y ∈ l' -> h x = h y -> x = y \/ collision_among h l l'.
Proof. intros Hx Hy [|Hc]%eq_or_collision; [by left|right]. by exists x, y. Qed.
Lemma collision_here h x y l l' : collision h x y -> collision_among h (x :: l) (y :: l').
Proof. intros Hc. exists x, y. split_and!; [apply list_elem_of_here..|done]. Qed.
Lemma collision_among_mono h l1 l2 m1 m2 :
  l1 ⊆ m1 -> l2 ⊆ m2 -> collision_among h l1 l2 -> collision_among h m1 m2.
Proof. intros H1 H2 (x & y & Hx & Hy & Hc). exists x, y. auto. Qed.
Lemma preimage_among_mono h l m v : l ⊆ m -> preimage_among h l v -> preimage_among h m v.
Proof. intros Hs (x & Hx & Hv). exists x. auto. Qed.
Lemma list_elem_of_last {A} (x : A) l : x ∈ l ++ [x].
Proof. apply elem_of_app. right. by apply list_elem_of_singleton. Qed.
