(* ===== verification/Boot.v ===== *)
(** * Boot: data, errors and the byte cursor of [src/v2/src/boot.rs]

    The vocabulary shared by the boot components: the error type, the parse
    limits, the event and log records, the bounded cursor, and the digest banks. *)
From S2P Require Import Prelude Bytes Crypto.

Definition TPM_ALG_SHA256 : N := 0x000b.
Definition TPM_ALG_SHA384 : N := 0x000c.
Definition TPM_ALG_SHA512 : N := 0x000d.
Definition EV_NO_ACTION : N := 3.
Definition EV_IPL : N := 13.

Inductive BootError : Type :=
| Io
| Malformed (offset : N) (reason : string)
| Limit (what : string)
| UnsupportedAlgorithm (algorithm : N)
| Unsupported (what : string)
| PlatformMismatch
| InvalidRegisters (what : string)
| RegisterMismatch (algorithm index : N)
| UnauthenticatedEvent (event : N)
| ContentMismatch (event : N)
| CommandLine (what : string)
| VerityRootMismatch
| Uki (what : string)
| Runtime (what : string)
| VerityState (what : string).

Record ParseLimits : Type := {
  max_log_bytes : N;
  max_events : N;
  max_event_bytes : N;
  max_algorithms : N;
}.

Definition default_limits : ParseLimits := {|
  max_log_bytes := 32 * 1024 * 1024;
  max_events := 65536;
  max_event_bytes := 4 * 1024 * 1024;
  max_algorithms := 16;
|}.

Inductive LogKind : Type := Tpm2 | TdxCcel.
#[global] Instance LogKind_eq_dec : EqDecision LogKind.
Proof. solve_decision. Defined.
Definition is_tpm (k : LogKind) : bool := if k is Tpm2 then true else false.
Definition is_tdx (k : LogKind) : bool := if k is TdxCcel then true else false.

Record Event : Type := {
  offset : N;
  register_index : N;
  reported_event_type : N;
  digests : gmap N bytes;
  untrusted_event_data : bytes;
}.

Record EventLog : Type := {
  kind : LogKind;
  algorithms : gmap N N;
  events : list Event;
  consumed_bytes : N;
}.

(** ** Cursor *)
Record Cursor : Type := { cur_bytes : bytes; cur_offset : N }.

Definition cursor_take (c : Cursor) (size : N) : res BootError (bytes * Cursor) :=
  end_ ← ok_or (checked_add usize_max (cur_offset c) size) (Limit "offset");
  value ← ok_or (get_range (cur_bytes c) (cur_offset c) end_)
            (Malformed (cur_offset c) "truncated field");
  Ok (value, {| cur_bytes := cur_bytes c; cur_offset := end_ |}).
Definition cursor_u8 (c : Cursor) : res BootError (N * Cursor) :=
  '(v, c) ← cursor_take c 1; b ← index v 0; Ok (byte_N b, c).
Definition cursor_u16 (c : Cursor) : res BootError (N * Cursor) :=
  '(v, c) ← cursor_take c 2; v ← expect_len 2 v; Ok (le_to_N v, c).
Definition cursor_u32 (c : Cursor) : res BootError (N * Cursor) :=
  '(v, c) ← cursor_take c 4; v ← expect_len 4 v; Ok (le_to_N v, c).
Definition cursor_invalid (c : Cursor) (reason : string) : BootError :=
  Malformed (cur_offset c) reason.

Definition known_digest_size (algorithm : N) : option N :=
  if algorithm =? 0x0004 then Some 20
  else if algorithm =? 0x000b then Some 32
  else if algorithm =? 0x000c then Some 48
  else if algorithm =? 0x000d then Some 64
  else if algorithm =? 0x0012 then Some 32
  else if algorithm =? 0x0027 then Some 32
  else if algorithm =? 0x0028 then Some 48
  else if algorithm =? 0x0029 then Some 64
  else None.

Definition hash `{Sha2} (algorithm : N) (b : bytes) : res BootError bytes :=
  if algorithm =? TPM_ALG_SHA256 then Ok (sha256 b)
  else if algorithm =? TPM_ALG_SHA384 then Ok (sha384 b)
  else if algorithm =? TPM_ALG_SHA512 then Ok (sha512 b)
  else Err (UnsupportedAlgorithm algorithm).

(** The digest function of a bank, when [hash] supports it. *)
Definition bank `{Sha2} (algorithm : N) : bytes -> bytes :=
  if algorithm =? TPM_ALG_SHA256 then sha256
  else if algorithm =? TPM_ALG_SHA384 then sha384 else sha512.
Definition bank_size (algorithm : N) : nat :=
  if algorithm =? TPM_ALG_SHA256 then 32%nat
  else if algorithm =? TPM_ALG_SHA384 then 48%nat else 64%nat.
Definition bank_supported (algorithm : N) : Prop :=
  algorithm = TPM_ALG_SHA256 \/ algorithm = TPM_ALG_SHA384 \/ algorithm = TPM_ALG_SHA512.

(** * Lemmas *)

(** ** Cursor *)
Definition remaining (c : Cursor) : bytes := drop (N.to_nat (cur_offset c)) (cur_bytes c).
Definition advance (c : Cursor) (n : N) : Cursor :=
  {| cur_bytes := cur_bytes c; cur_offset := cur_offset c + n |}.
Definition cursor_ok (c : Cursor) : Prop := cur_offset c <= blen (cur_bytes c).

(** What a successful [take] yields: exactly the next [n] bytes. *)
Definition took (c : Cursor) (n : N) (v : bytes) (c' : Cursor) : Prop :=
  c' = advance c n /\ remaining c = v ++ remaining c' /\ blen v = n /\ cursor_ok c'.

Lemma cursor_take_Ok c n v c' : cursor_take c n = Ok (v, c') -> took c n v c'.
Proof.
  unfold cursor_take.
  intros (e & He & (w & Hw & Heq)%bind_Ok)%bind_Ok. inv_res.
  apply checked_add_Some in He as [-> Hmax].
  pose proof (get_range_blen _ _ _ _ Hw) as Hlen.
  apply get_range_Some in Hw as [Hle ->].
  unfold took, remaining, cursor_ok, advance. simpl. split; [done|]. split; [|split; lia].
  replace (cur_offset c + n - cur_offset c) with n by lia.
  rewrite N2Nat.inj_add, <- drop_drop. by rewrite take_drop.
Qed.

(** A [take] that fits the remaining input succeeds. *)
Lemma cursor_take_app c v rest :
  cursor_ok c -> blen (cur_bytes c) <= usize_max -> remaining c = v ++ rest ->
  cursor_take c (blen v) = Ok (v, advance c (blen v)) /\
  remaining (advance c (blen v)) = rest /\ cursor_ok (advance c (blen v)).
Proof.
  unfold cursor_ok, remaining, advance. simpl. intros Hok Hmax Hr.
  assert (cur_offset c + blen v <= blen (cur_bytes c)) as Hle.
  { apply (f_equal length) in Hr. rewrite length_drop, length_app in Hr.
    unfold blen in *. lia. }
  assert (get_range (cur_bytes c) (cur_offset c) (cur_offset c + blen v) = Some v) as Hg.
  { apply get_range_Some. split; [lia|]. rewrite Hr.
    replace (N.to_nat _) with (length v) by (unfold blen; lia). by rewrite take_app_length. }
  split; [|split; [|done]].
  - unfold cursor_take. rewrite (proj2 (checked_add_Some _ _ _ _)) by (split; [done|lia]).
    simpl. by rewrite Hg.
  - rewrite N2Nat.inj_add, <- drop_drop, Hr. unfold blen. by rewrite Nat2N.id, drop_app_length.
Qed.

Lemma safe_take c n (Q : bytes * Cursor -> Prop) :
  (forall v c', took c n v c' -> Q (v, c')) -> safe (cursor_take c n) Q.
Proof.
  intros HQ. apply (safe_mono _ (fun _ => True)).
  - unfold cursor_take. by wp.
  - intros [v c'] E _. by apply HQ, cursor_take_Ok.
Qed.

Lemma safe_u8 c (Q : N * Cursor -> Prop) :
  (forall b c', took c 1 [b] c' -> Q (byte_N b, c')) -> safe (cursor_u8 c) Q.
Proof.
  intros HQ. unfold cursor_u8. apply safe_bind, safe_take. intros v c' Ht.
  destruct v as [|b [|b2 v]]; destruct Ht as (? & ? & Hl & ?);
    rewrite ?blen_cons, ?blen_nil in Hl; try lia.
  simpl. apply HQ. by repeat split.
Qed.

Lemma safe_u16 c (Q : N * Cursor -> Prop) :
  (forall v c', took c 2 v c' -> le_to_N v < 2 ^ 16 -> Q (le_to_N v, c')) ->
  safe (cursor_u16 c) Q.
Proof.
  intros HQ. unfold cursor_u16. apply safe_bind, safe_take. intros v c' Ht.
  assert (blen v = 2) as Hl by apply Ht. unfold expect_len. rewrite Hl. simpl.
  apply HQ; [done|]. pose proof (le_to_N_bound v) as Hb. by rewrite Hl in Hb.
Qed.

Lemma safe_u32 c (Q : N * Cursor -> Prop) :
  (forall v c', took c 4 v c' -> le_to_N v < 2 ^ 32 -> Q (le_to_N v, c')) ->
  safe (cursor_u32 c) Q.
Proof.
  intros HQ. unfold cursor_u32. apply safe_bind, safe_take. intros v c' Ht.
  assert (blen v = 4) as Hl by apply Ht. unfold expect_len. rewrite Hl. simpl.
  apply HQ; [done|]. pose proof (le_to_N_bound v) as Hb. by rewrite Hl in Hb.
Qed.

(** A cursor that can read to its end without offset overflow. *)
Definition cursor_fit (c : Cursor) : Prop :=
  cursor_ok c /\ blen (cur_bytes c) <= usize_max.

Lemma took_fit c n v c' : took c n v c' -> cursor_fit c -> cursor_fit c'.
Proof. by intros (-> & _ & _ & ?) [_ ?]. Qed.
Lemma took_ok c n v c' : took c n v c' -> cursor_ok c'.
Proof. by intros (_ & _ & _ & ?). Qed.
Lemma took_blen c n v c' : took c n v c' -> blen v = n.
Proof. by intros (_ & _ & ? & _). Qed.
Lemma took_self c n v c' : took c n v c' -> took c (blen v) v c'.
Proof. intros H. by rewrite (took_blen _ _ _ _ H). Qed.
Lemma took_remaining c n v c' : took c n v c' -> remaining c = v ++ remaining c'.
Proof. by intros (_ & ? & _). Qed.
Lemma took_bytes c n v c' : took c n v c' -> cur_bytes c' = cur_bytes c.
Proof. by intros (-> & _). Qed.
Lemma took_offset c n v c' : took c n v c' -> cur_offset c' = cur_offset c + blen v.
Proof. by intros (-> & _ & -> & _). Qed.
Lemma took_refl c : cursor_ok c -> took c 0 [] c.
Proof.
  destruct c as [b o]. intros. unfold took, advance, remaining. simpl.
  by rewrite N.add_0_r.
Qed.
Lemma took_trans c n v c1 m w c2 :
  took c n v c1 -> took c1 m w c2 -> took c (n + m) (v ++ w) c2.
Proof.
  intros (-> & H1 & <- & _) (-> & H2 & <- & ?). unfold took. split_and!.
  - unfold advance. simpl. f_equal. lia.
  - by rewrite H1, H2, app_assoc.
  - by rewrite blen_app.
  - done.
Qed.
Lemma took_app c v rest :
  cursor_fit c -> remaining c = v ++ rest ->
  took c (blen v) v (advance c (blen v)) /\ remaining (advance c (blen v)) = rest.
Proof.
  intros [Hok Hmax] Hr. destruct (cursor_take_app c v rest Hok Hmax Hr) as (H1 & H2 & H3).
  split; [|done]. by apply cursor_take_Ok.
Qed.
(** A split of the remaining input is a [took] to the cursor behind it. *)
Lemma took_intro c n v c' :
  took c n v c' <-> cursor_ok c' /\ c' = advance c n /\ blen v = n /\
    remaining c = v ++ remaining c'.
Proof. unfold took. naive_solver. Qed.

Lemma cursor_take_took c n v c' : cursor_fit c -> took c n v c' -> cursor_take c n = Ok (v, c').
Proof.
  intros [Hok Hmax] (-> & Hr & <- & _).
  by destruct (cursor_take_app c v _ Hok Hmax Hr) as (-> & _).
Qed.

Lemma cursor_u8_Ok c n c' :
  cursor_u8 c = Ok (n, c') -> exists b, n = byte_N b /\ took c 1 [b] c'.
Proof.
  intros E. pose proof (safe_u8 c (fun '(n, c') => exists b, n = byte_N b /\ took c 1 [b] c')) as H.
  rewrite E in H. apply H. eauto.
Qed.
Lemma cursor_u16_Ok c n c' :
  cursor_u16 c = Ok (n, c') -> n < 2 ^ 16 /\ took c 2 (N_to_le 2 n) c'.
Proof.
  intros E. pose proof (safe_u16 c (fun '(n, c') => n < 2 ^ 16 /\ took c 2 (N_to_le 2 n) c')) as H.
  rewrite E in H. apply H. intros v c2 Ht Hb. split; [done|].
  rewrite <- (le_to_N_eq v 2 (le_to_N v)); [done| |done]. by destruct Ht as (_ & _ & ? & _).
Qed.
Lemma cursor_u32_Ok c n c' :
  cursor_u32 c = Ok (n, c') -> n < 2 ^ 32 /\ took c 4 (N_to_le 4 n) c'.
Proof.
  intros E. pose proof (safe_u32 c (fun '(n, c') => n < 2 ^ 32 /\ took c 4 (N_to_le 4 n) c')) as H.
  rewrite E in H. apply H. intros v c2 Ht Hb. split; [done|].
  rewrite <- (le_to_N_eq v 4 (le_to_N v)); [done| |done]. by destruct Ht as (_ & _ & ? & _).
Qed.

Lemma cursor_u8_took c b c' :
  cursor_fit c -> took c 1 [b] c' -> cursor_u8 c = Ok (byte_N b, c').
Proof. intros Hf Ht. unfold cursor_u8. by rewrite (cursor_take_took _ _ _ _ Hf Ht). Qed.
Lemma cursor_u16_took c n c' :
  cursor_fit c -> n < 2 ^ 16 -> took c 2 (N_to_le 2 n) c' -> cursor_u16 c = Ok (n, c').
Proof.
  intros Hf Hn Ht. unfold cursor_u16. rewrite (cursor_take_took _ _ _ _ Hf Ht), res_bind_Ok.
  rewrite expect_len_eq, res_bind_Ok by apply blen_N_to_le. by rewrite le_to_N_to_le.
Qed.
Lemma cursor_u32_took c n c' :
  cursor_fit c -> n < 2 ^ 32 -> took c 4 (N_to_le 4 n) c' -> cursor_u32 c = Ok (n, c').
Proof.
  intros Hf Hn Ht. unfold cursor_u32. rewrite (cursor_take_took _ _ _ _ Hf Ht), res_bind_Ok.
  rewrite expect_len_eq, res_bind_Ok by apply blen_N_to_le. by rewrite le_to_N_to_le.
Qed.

Ltac inv_res_hook ::=
  match goal with
  | H : index _ _ = Ok _ |- _ => apply index_Ok in H
  | H : index_range _ _ _ = Ok _ |- _ => apply index_range_Ok in H
  | H : index_from _ _ = Ok _ |- _ => apply index_from_Ok in H as [-> ?]
  | H : expect_len _ _ = Ok _ |- _ => apply expect_len_Ok in H as [-> ?]
  | p : _ * Cursor |- _ => destruct p
  | p : Cursor * _ |- _ => destruct p
  | H : cursor_take _ _ = Ok (_, _) |- _ => apply cursor_take_Ok in H
  | H : cursor_u8 _ = Ok (_, _) |- _ => apply cursor_u8_Ok in H as (? & -> & H)
  | H : cursor_u16 _ = Ok (_, _) |- _ => apply cursor_u16_Ok in H as [? H]
  | H : cursor_u32 _ = Ok (_, _) |- _ => apply cursor_u32_Ok in H as [? H]
  end.

(** ** Digest banks *)
Section Banks.
Context {H : Sha2} {HL : Sha2Laws H}.

Lemma hash_Ok algorithm b d :
  hash algorithm b = Ok d -> bank_supported algorithm /\ d = bank algorithm b.
Proof.
  unfold hash, bank, bank_supported.
  repeat case_match; intros; simplify_eq; bools; subst; auto.
Qed.

Lemma hash_supported algorithm b :
  bank_supported algorithm -> hash algorithm b = Ok (bank algorithm b).
Proof. unfold hash, bank. by intros [->|[->| ->]]. Qed.

Lemma length_bank algorithm b : length (bank algorithm b) = bank_size algorithm.
Proof.
  unfold bank, bank_size. repeat case_match;
    auto using sha256_length, sha384_length, sha512_length.
Qed.

Lemma safe_hash algorithm b (Q : bytes -> Prop) :
  (bank_supported algorithm -> Q (bank algorithm b)) -> safe (hash algorithm b) Q.
Proof.
  intros HQ. apply (safe_mono _ (fun _ => True)).
  - unfold hash. by repeat case_match.
  - intros d E _. apply hash_Ok in E as [Hs ->]. auto.
Qed.
End Banks.
