(* ===== verification/Aael.v ===== *)
(** * Aael: CoCo AAEL application events of [src/v2/src/boot/runtime.rs]

    One tagged record measured into RTMR3: its validation, its decoder, and the
    inverse encoder used as the specification of the format. *)
From S2P Require Import Prelude Bytes Text Crypto Boot.

Definition MAX_RUNTIME_EVENT_BYTES : N := 64 * 1024.
Definition AAEL_TAG : N := 0x4141454c.
Definition EV_EVENT_TAG : N := 6.

Inductive RuntimeProfile : Type := CocoAaelTcg2.

Record RuntimeEvent : Type := {
  domain : bytes;
  operation : bytes;
  content : bytes;
}.
#[global] Instance RuntimeEvent_eq_dec : EqDecision RuntimeEvent.
Proof. solve_decision. Defined.

Definition runtime_event_bytes (e : RuntimeEvent) : N :=
  saturating_add usize_max
    (saturating_add usize_max
      (saturating_add usize_max (blen (domain e)) (blen (operation e)))
      (blen (content e))) 10.

Definition ws_or_control (c : N) : bool := char_is_whitespace c || char_is_control c.

Definition RuntimeEvent_validate (e : RuntimeEvent) : res BootError unit :=
  reject_if
    ((blen (domain e) =? 0)
     || (blen (operation e) =? 0)
     || (blen (content e) =? 0)
     || existsb ws_or_control (chars (domain e))
     || existsb ws_or_control (chars (operation e))
     || existsb char_is_control (chars (content e))
     || (MAX_RUNTIME_EVENT_BYTES <? runtime_event_bytes e))
    (Runtime "invalid or oversized AAEL fields").

Definition aael_fields (text : bytes) : RuntimeEvent :=
  let parts := splitn 3 x20 text in
  {| domain := default [] (parts !! 0%nat);
     operation := default [] (parts !! 1%nat);
     content := default [] (parts !! 2%nat) |}.

Definition parse_aael (event : Event) : res BootError RuntimeEvent :=
  let data := untrusted_event_data event in
  reject_if
    (negb (register_index event =? 4)
     || negb (reported_event_type event =? EV_EVENT_TAG)
     || negb (N.of_nat (size (digests event)) =? 1)
     || match digests event !! TPM_ALG_SHA384 with
        | Some d => negb (blen d =? 48)
        | None => true
        end
     || (blen data <? 8)
     || (MAX_RUNTIME_EVENT_BYTES <? blen data))
    (Runtime "expected bounded SHA384 AAEL EV_EVENT_TAG in MRIndex4");;
  tag ← index_range data 0 4; tag ← expect_len 4 tag;
  len ← index_range data 4 8; len ← expect_len 4 len;
  reject_if
    (negb (le_to_N tag =? AAEL_TAG) || negb (le_to_N len =? blen data - 8))
    (Runtime "AAEL tag or length mismatch");;
  rest ← index_from data 8;
  text ← ok_or (from_utf8 rest) (Runtime "AAEL is not UTF8");
  let record := aael_fields text in
  RuntimeEvent_validate record;;
  Ok record.

(** The wire form of an AAEL record: tag, length, then the three fields
    separated by single spaces. *)
Definition aael_text (e : RuntimeEvent) : bytes :=
  domain e ++ x20 :: operation e ++ x20 :: content e.
Definition encode_aael (e : RuntimeEvent) : bytes :=
  N_to_le 4 AAEL_TAG ++ N_to_le 4 (blen (aael_text e)) ++ aael_text e.

(** * Lemmas *)
Lemma safe_RuntimeEvent_validate e (Q : unit -> Prop) :
  (RuntimeEvent_validate e = Ok tt -> Q tt) -> safe (RuntimeEvent_validate e) Q.
Proof.
  intros HQ. unfold RuntimeEvent_validate in *. apply safe_reject_if. intros E.
  apply HQ. by rewrite E.
Qed.

(** The three fields of a text with a nonempty third one re-assemble it. *)
Lemma aael_fields_text t :
  content (aael_fields t) <> [] ->
  t = aael_text (aael_fields t) /\
  x20 ∉ domain (aael_fields t) /\ x20 ∉ operation (aael_fields t).
Proof.
  unfold aael_text, aael_fields, splitn. simpl.
  destruct (split_once x20 t) as [[a b]|] eqn:E1; [|done].
  destruct (split_once x20 b) as [[a' b']|] eqn:E2; [|done]. simpl.
  by apply split_once_Some in E1 as [-> ?], E2 as [-> ?].
Qed.

Lemma aael_text_fields e :
  x20 ∉ domain e -> x20 ∉ operation e -> aael_fields (aael_text e) = e.
Proof.
  intros Hd Ho. unfold aael_fields, aael_text, splitn.
  rewrite (proj2 (split_once_Some x20 _ (domain e) (operation e ++ x20 :: content e))) by done.
  rewrite (proj2 (split_once_Some x20 _ (operation e) (content e))) by done. by destruct e.
Qed.

Lemma RuntimeEvent_validate_nonempty e :
  RuntimeEvent_validate e = Ok tt ->
  domain e <> [] /\ operation e <> [] /\ content e <> [].
Proof.
  unfold RuntimeEvent_validate. intros H. inv_res. bools. rewrite <- !blen_0. auto.
Qed.

(** A decoded record is well formed and its bytes are exactly its encoding. *)
Lemma parse_aael_Ok e r :
  parse_aael e = Ok r ->
  untrusted_event_data e = encode_aael r /\
  RuntimeEvent_validate r = Ok tt /\
  register_index e = 4 /\ reported_event_type e = EV_EVENT_TAG /\
  (exists d, digests e = {[TPM_ALG_SHA384 := d]} /\ blen d = 48).
Proof.
  unfold parse_aael. intros H. inv_res.
  repeat match goal with
  | H : from_utf8 _ = Some _ |- _ => apply from_utf8_Some in H as [-> _]
  | u : () |- _ => destruct u
  | H : get_range _ 0 _ = Some _ |- _ => apply get_range_next in H; rename H into Htag
  | H : get_range _ _ _ = Some _ |- _ => apply get_range_next in H; rename H into Hlen
  | H : RuntimeEvent_validate _ = Ok _ |- _ => rename H into Hv
  end.
  bools. split; [|split_and!; try done].
  - apply RuntimeEvent_validate_nonempty in Hv as (_ & _ & Hc).
    destruct (aael_fields_text _ Hc) as [Ht _].
    change (N.to_nat 0) with 0%nat in Htag. rewrite drop_0 in Htag.
    unfold encode_aael. rewrite <- Ht. rewrite Htag at 1. rewrite Hlen at 1.
    f_equal; [by apply le_to_N_eq|]. f_equal. apply le_to_N_eq; [done|].
    unfold blen in *. rewrite length_drop. lia.
  - destruct (digests e !! TPM_ALG_SHA384) as [d|] eqn:Hd; [|done]. bools.
    exists d. split; [|done]. apply map_size_1; [lia|done].
Qed.

(** A field without white space has no space byte. *)
Lemma no_space_byte s cs :
  utf8_decode s = Some cs -> existsb ws_or_control (chars s) = false -> x20 ∉ s.
Proof.
  unfold chars. intros Hs. rewrite Hs. simpl. intros Hw Hin.
  apply (utf8_ascii_elem s cs x20 Hs eq_refl), list_elem_of_In in Hin.
  assert (existsb ws_or_control cs = true) as Hw' by (apply existsb_exists; eauto).
  congruence.
Qed.

Definition event_is_str (e : RuntimeEvent) : Prop :=
  is_Some (utf8_decode (domain e)) /\ is_Some (utf8_decode (operation e)) /\
  is_Some (utf8_decode (content e)).

Lemma aael_text_str e : event_is_str e -> is_Some (utf8_decode (aael_text e)).
Proof.
  intros ([cd Hd] & [co Ho] & [cc Hc]).
  apply utf8_decode_inv in Hd as [Hd ?], Ho as [Ho ?], Hc as [Hc ?].
  exists (cd ++ [0x20] ++ co ++ [0x20] ++ cc).
  unfold aael_text. rewrite <- Hd, <- Ho, <- Hc.
  rewrite <- (utf8_decode_encode (cd ++ [0x20] ++ co ++ [0x20] ++ cc)).
  - f_equal. unfold utf8_encode. by rewrite !bind_app.
  - rewrite !forallb_app. by bools.
Qed.

(** Every valid record is accepted and decoded to itself. *)
Lemma parse_aael_encode e r d :
  event_is_str r -> RuntimeEvent_validate r = Ok tt ->
  register_index e = 4 -> reported_event_type e = EV_EVENT_TAG ->
  digests e = {[TPM_ALG_SHA384 := d]} -> blen d = 48 ->
  untrusted_event_data e = encode_aael r ->
  parse_aael e = Ok r.
Proof.
  intros Hs Hv H4 H6 Hd Hl Hdata.
  assert (x20 ∉ domain r /\ x20 ∉ operation r) as [Hsd Hso].
  { destruct Hs as ([? ?] & [? ?] & _). unfold RuntimeEvent_validate in Hv. inv_res. bools.
    eauto using no_space_byte. }
  assert (blen (aael_text r) + 8 <= MAX_RUNTIME_EVENT_BYTES) as Hmax.
  { unfold RuntimeEvent_validate, runtime_event_bytes, saturating_add in Hv. inv_res. bools.
    unfold aael_text, MAX_RUNTIME_EVENT_BYTES, usize_max, u64_max in *.
    rewrite blen_app, blen_cons, blen_app, blen_cons. lia. }
  assert (blen (untrusted_event_data e) = 8 + blen (aael_text r)) as Hlen.
  { rewrite Hdata. unfold encode_aael. rewrite !blen_app, !blen_N_to_le. lia. }
  unfold parse_aael. rewrite H4, H6, Hd, map_size_singleton, lookup_singleton_eq, Hl, Hlen.
  rewrite (proj2 (N.ltb_ge _ 8)), (proj2 (N.ltb_ge _ (8 + _))) by lia. simpl.
  rewrite Hdata. unfold encode_aael.
  rewrite index_range_app_0, res_bind_Ok, expect_len_eq, res_bind_Ok,
    index_range_app, res_bind_Ok, expect_len_eq, res_bind_Ok
    by (by rewrite ?blen_N_to_le).
  assert (blen (aael_text r) < 256 ^ N.of_nat 4) by (unfold MAX_RUNTIME_EVENT_BYTES in *; lia).
  rewrite !le_to_N_to_le by done.
  rewrite reject_if_false, res_bind_Ok by (bools; split; [done|lia]).
  rewrite app_assoc, index_from_app, res_bind_Ok by (by rewrite blen_app, !blen_N_to_le).
  unfold from_utf8. destruct (aael_text_str r Hs) as [cs ->]. simpl.
  by rewrite aael_text_fields, Hv.
Qed.

Lemma safe_parse_aael e : safe (parse_aael e) (fun r => parse_aael e = Ok r).
Proof.
  enough (safe (parse_aael e) (fun _ => True)) as Hs by (by destruct (parse_aael e)).
  unfold parse_aael. apply safe_bind, safe_reject_if. intros Hc. bools.
  apply safe_bind, safe_index_range; [lia..|]. intros tag _ Ht.
  apply safe_bind, safe_expect_len; [done|].
  apply safe_bind, safe_index_range; [lia..|]. intros len _ Hl.
  apply safe_bind, safe_expect_len; [done|]. apply safe_bind, safe_reject_if. intros _.
  apply safe_bind, safe_index_from; [lia|]. wp. by apply safe_RuntimeEvent_validate.
Qed.
