(* ===== verification/EventLog.v ===== *)
(** * EventLog: the bounded TCG2/CCEL parser of [src/v2/src/boot.rs]

    [EventLog::parse] and its three entry points, split at the boundaries the
    source function has: the SpecID header, one event record, the record loop.
    The record loop carries fuel; one unit per byte of input is enough, since
    every record takes at least one byte ([parse_safe]). *)
From S2P Require Import Prelude Bytes Text Crypto Boot Aael.

Definition spec_signature : bytes := lit "Spec ID Event03" ++ [x00].

(** ** SpecID header *)
Definition parse_algorithm (c : Cursor) (st : Cursor * gmap N N) (_ : unit) :
    res BootError (Cursor * gmap N N) :=
  let '(s, algs) := st in
  '(algorithm, s) ← cursor_u16 s;
  '(size, s) ← cursor_u16 s;
  reject_if
    ((size =? 0) || (128 <? size)
     || match known_digest_size algorithm with
        | Some n => negb (n =? size)
        | None => false
        end)
    (cursor_invalid c "invalid algorithm digest size");;
  reject_if (bool_decide (is_Some (algs !! algorithm)))
    (cursor_invalid c "duplicate SpecID algorithm");;
  Ok (s, <[algorithm := size]> algs).

(** The body of the SpecID event; [c] only supplies error positions. *)
Definition parse_spec (c : Cursor) (k : LogKind) (limits : ParseLimits) (spec : bytes) :
    res BootError (gmap N N) :=
  let s := {| cur_bytes := spec; cur_offset := 0 |} in
  '(signature, s) ← cursor_take s 16;
  reject_if (negb (bytes_eqb signature spec_signature))
    (cursor_invalid c "unsupported SpecID signature");;
  '(_platform_class, s) ← cursor_u32 s;
  '(minor, s) ← cursor_u8 s;
  '(major, s) ← cursor_u8 s;
  '(_errata, s) ← cursor_u8 s;
  '(uintn, s) ← cursor_u8 s;
  reject_if (negb (major =? 2) || negb (minor =? 0) || negb ((uintn =? 1) || (uintn =? 2)))
    (cursor_invalid c "unsupported SpecID version or UINTN size");;
  '(count, s) ← cursor_u32 s;
  reject_if ((count =? 0) || (max_algorithms limits <? count)) (Limit "algorithm count");;
  '(s, algs) ← for_each (parse_algorithm c) (s, ∅) (replicate (N.to_nat count) tt);
  '(vendor_len, s) ← cursor_u8 s;
  '(_, s) ← cursor_take s vendor_len;
  reject_if (negb (cur_offset s =? blen spec)) (cursor_invalid c "trailing SpecID data");;
  reject_if (is_tdx k && negb (bool_decide (algs !! TPM_ALG_SHA384 = Some 48)))
    (cursor_invalid c "TDX CCEL lacks SHA-384 bank");;
  Ok algs.

(** The legacy-format first record: SpecID register, zero digest, SpecID body. *)
Definition parse_header (c : Cursor) (k : LogKind) (limits : ParseLimits) :
    res BootError (gmap N N * Cursor) :=
  '(initial_index, c) ← cursor_u32 c;
  reject_if ((is_tpm k && negb (initial_index =? 0)) || (is_tdx k && (1 <? initial_index)))
    (cursor_invalid c "invalid SpecID register");;
  '(event_type, c) ← cursor_u32 c;
  c ← (if negb (event_type =? EV_NO_ACTION)
       then Err (cursor_invalid c "missing legacy-format SpecID header")
       else '(digest, c) ← cursor_take c 20;
            reject_if (any_nonzero digest)
              (cursor_invalid c "missing legacy-format SpecID header");;
            Ok c);
  '(spec_len, c) ← cursor_u32 c;
  reject_if (max_event_bytes limits <? spec_len) (Limit "SpecID bytes");;
  '(spec, c) ← cursor_take c spec_len;
  algs ← parse_spec c k limits spec;
  Ok (algs, c).

(** ** Event records *)
Definition parse_digest (algs : gmap N N) (st : Cursor * gmap N bytes) (_ : unit) :
    res BootError (Cursor * gmap N bytes) :=
  let '(c, ds) := st in
  '(algorithm, c) ← cursor_u16 c;
  size ← ok_or (algs !! algorithm) (cursor_invalid c "algorithm absent from SpecID");
  '(digest, c) ← cursor_take c size;
  reject_if (bool_decide (is_Some (ds !! algorithm)))
    (cursor_invalid c "duplicate event digest");;
  Ok (c, <[algorithm := digest]> ds).

Definition register_outside (k : LogKind) (aael : bool) (register : N) : bool :=
  (is_tpm k && (23 <? register)) || (is_tdx k && ((if aael then 4 else 3) <? register)).

Definition parse_event (c : Cursor) (k : LogKind) (aael : bool) (limits : ParseLimits)
    (algs : gmap N N) : res BootError (Event * Cursor) :=
  let start := cur_offset c in
  '(register, c) ← cursor_u32 c;
  reject_if (register_outside k aael register)
    (cursor_invalid c "register outside supported platform profile");;
  '(event_type, c) ← cursor_u32 c;
  '(count, c) ← cursor_u32 c;
  reject_if ((count =? 0) || (N.of_nat (size algs) <? count))
    (cursor_invalid c "invalid event digest count");;
  '(c, ds) ← for_each (parse_digest algs) (c, ∅) (replicate (N.to_nat count) tt);
  '(size, c) ← cursor_u32 c;
  reject_if (max_event_bytes limits <? size) (Limit "event bytes");;
  '(data, c) ← cursor_take c size;
  reject_if (is_tdx k && negb (bool_decide (is_Some (ds !! TPM_ALG_SHA384))))
    (cursor_invalid c "TDX event lacks SHA-384 digest");;
  Ok ({| offset := start; register_index := register; reported_event_type := event_type;
         digests := ds; untrusted_event_data := data |}, c).

Definition erased (b : bytes) : bool := forallb (Byte.eqb xff) b.

Fixpoint parse_events (fuel : nat) (c : Cursor) (k : LogKind) (aael : bool)
    (limits : ParseLimits) (algs : gmap N N) (evs : list Event) :
    res BootError (list Event * Cursor) :=
  if negb (cur_offset c <? blen (cur_bytes c)) then Ok (evs, c)
  else
    rest ← index_from (cur_bytes c) (cur_offset c);
    if is_tdx k && erased rest then Ok (evs, c)
    else
      match fuel with
      | O => NoFuel
      | S fuel =>
        reject_if (max_events limits <=? blen evs) (Limit "event count");;
        '(event, c) ← parse_event c k aael limits algs;
        (if is_tdx k && (register_index event =? 4)
         then (parse_aael event;; Ok tt) else Ok tt);;
        parse_events fuel c k aael limits algs (evs ++ [event])
      end.

(** ** Entry points *)
Definition parse (b : bytes) (k : LogKind) (limits : ParseLimits) (aael : bool) :
    res BootError EventLog :=
  reject_if (max_log_bytes limits <? blen b) (Limit "log bytes");;
  let c := {| cur_bytes := b; cur_offset := 0 |} in
  '(algs, c) ← parse_header c k limits;
  '(evs, c) ← parse_events (length b) c k aael limits algs [];
  reject_if (blen evs =? 0) (cursor_invalid c "empty measured event log");;
  Ok {| kind := k; algorithms := algs; events := evs; consumed_bytes := cur_offset c |}.

Definition parse_tcg2 (b : bytes) (limits : ParseLimits) : res BootError EventLog :=
  parse b Tpm2 limits false.
Definition parse_tdx_ccel (b : bytes) (limits : ParseLimits) : res BootError EventLog :=
  parse b TdxCcel limits false.
Definition parse_tdx_ccel_with_aael (b : bytes) (limits : ParseLimits) :
    res BootError EventLog :=
  parse b TdxCcel limits true.

(** ** Specification: the grammar of a log

    [is_log b k limits aael log]: [b] is a SpecID header, then one record per
    event, then, for a TDX log, erased [0xff] bytes.  Fields that [EventLog] does
    not keep (platform class, errata, vendor data, the order of the digests of a
    record) are existentially quantified; everything else is determined. *)
Definition encode_digest (ad : N * bytes) : bytes := N_to_le 2 ad.1 ++ ad.2.
Definition encode_event (e : Event) (ds : list (N * bytes)) : bytes :=
  N_to_le 4 (register_index e) ++ N_to_le 4 (reported_event_type e)
  ++ N_to_le 4 (blen ds) ++ (ds ≫= encode_digest)
  ++ N_to_le 4 (blen (untrusted_event_data e)) ++ untrusted_event_data e.

#[global] Arguments encode_event : simpl never.

(** [ds] lists the digests of a record in wire order. *)
Definition digest_list (algs : gmap N N) (ds : list (N * bytes)) : Prop :=
  NoDup ds.*1 /\ Forall (fun ad => ad.1 < 2 ^ 16 /\ algs !! ad.1 = Some (blen ad.2)) ds.

Record event_ok (k : LogKind) (aael : bool) (limits : ParseLimits) (algs : gmap N N)
    (e : Event) (ds : list (N * bytes)) : Prop := {
  ev_digests : digest_list algs ds;
  ev_map : digests e = list_to_map ds;
  ev_count : 0 < blen ds <= N.of_nat (size algs) /\ blen ds < 2 ^ 32;
  ev_register : register_outside k aael (register_index e) = false;
  ev_register_u32 : register_index e < 2 ^ 32;
  ev_type_u32 : reported_event_type e < 2 ^ 32;
  ev_data : blen (untrusted_event_data e) <= max_event_bytes limits;
  ev_data_u32 : blen (untrusted_event_data e) < 2 ^ 32;
  ev_tdx_bank : is_tdx k = true -> is_Some (digests e !! TPM_ALG_SHA384);
  ev_aael : is_tdx k = true -> register_index e = 4 -> is_ok (parse_aael e) = true;
}.

(** Records follow each other without gaps from position [off]. *)
Inductive records (P : Event -> list (N * bytes) -> Prop) : N -> list Event -> bytes -> Prop :=
| records_nil off : records P off [] []
| records_cons off e ds es b :
    offset e = off -> P e ds ->
    records P (off + blen (encode_event e ds)) es b ->
    records P off (e :: es) (encode_event e ds ++ b).

Definition encode_algorithm (az : N * N) : bytes := N_to_le 2 az.1 ++ N_to_le 2 az.2.
Definition algorithm_ok (az : N * N) : Prop :=
  az.1 < 2 ^ 16 /\ 0 < az.2 <= 128 /\
  match known_digest_size az.1 with Some n => n = az.2 | None => True end.

Record spec_ok (k : LogKind) (limits : ParseLimits) (algs : gmap N N) (spec : bytes) : Prop := {
  spec_shape : exists class errata uintn vendor l,
    class < 2 ^ 32 /\ (byte_N uintn = 1 \/ byte_N uintn = 2) /\ blen vendor < 256 /\
    spec = spec_signature ++ N_to_le 4 class ++ [x00; x02; errata; uintn]
           ++ N_to_le 4 (blen l) ++ (l ≫= encode_algorithm)
           ++ byte_of (blen vendor) :: vendor /\
    NoDup l.*1 /\ Forall algorithm_ok l /\ algs = list_to_map l /\
    0 < blen l <= max_algorithms limits /\ blen l < 2 ^ 32;
  spec_bank : is_tdx k = true -> algs !! TPM_ALG_SHA384 = Some 48;
}.

Definition header_ok (k : LogKind) (limits : ParseLimits) (algs : gmap N N) (hdr : bytes) : Prop :=
  exists idx spec,
    hdr = N_to_le 4 idx ++ N_to_le 4 EV_NO_ACTION ++ replicate 20 x00
          ++ N_to_le 4 (blen spec) ++ spec /\
    (if is_tpm k then idx = 0 else idx <= 1) /\
    blen spec <= max_event_bytes limits /\ blen spec < 2 ^ 32 /\
    spec_ok k limits algs spec.

Record is_log (b : bytes) (k : LogKind) (limits : ParseLimits) (aael : bool)
    (log : EventLog) : Prop := {
  log_shape : exists hdr body tail,
    b = hdr ++ body ++ tail /\
    header_ok k limits (algorithms log) hdr /\
    records (event_ok k aael limits (algorithms log)) (blen hdr) (events log) body /\
    erased tail = true /\ (is_tpm k = true -> tail = []) /\
    consumed_bytes log = blen hdr + blen body;
  log_kind : kind log = k;
  log_nonempty : events log <> [];
  log_events : blen (events log) <= max_events limits;
  log_bytes : blen b <= max_log_bytes limits;
}.

(** * Lemmas *)

(** ** The parser accepts only what the grammar describes *)
Lemma bool_decide_is_Some_false {A} (o : option A) :
  bool_decide (is_Some o) = false <-> o = None.
Proof. rewrite bool_decide_eq_false. symmetry. apply eq_None_not_Some. Qed.

Lemma parse_digest_Ok algs c ds0 c' ds :
  parse_digest algs (c, ds0) tt = Ok (c', ds) ->
  exists ad, ad.1 < 2 ^ 16 /\ algs !! ad.1 = Some (blen ad.2) /\ ds0 !! ad.1 = None /\
    ds = <[ad.1 := ad.2]> ds0 /\ took c (blen (encode_digest ad)) (encode_digest ad) c'.
Proof.
  unfold parse_digest. intros H. inv_res.
  match goal with
  | H1 : took c 2 (N_to_le 2 ?a) ?c1, H2 : took ?c1 ?m ?d c' |- _ =>
    exists (a, d); pose proof (took_trans _ _ _ _ _ _ _ H1 H2) as Ht;
    assert (blen d = m) as <- by apply H2
  end.
  split; [done|]. split; [done|]. split; [by apply bool_decide_is_Some_false|].
  split; [done|]. unfold encode_digest. by rewrite blen_app, blen_N_to_le.
Qed.

Lemma list_to_map_union_insert {A} (l : list (N * A)) (m : gmap N A) (ax : N * A) :
  Forall (fun by_ => <[ax.1 := ax.2]> m !! by_.1 = None) l ->
  list_to_map l ∪ <[ax.1 := ax.2]> m = list_to_map (ax :: l) ∪ m /\
  ax.1 ∉ l.*1 /\ Forall (fun by_ => m !! by_.1 = None) l.
Proof.
  intros Hl. assert (ax.1 ∉ l.*1) as Hnin.
  { intros (y & Hy & Hin)%list_elem_of_fmap. rewrite Forall_forall in Hl.
    specialize (Hl y Hin). by rewrite <- Hy, lookup_insert_eq in Hl. }
  split; [|split; [done|]].
  - destruct ax as [a x]. cbn in *. rewrite <- insert_union_l, insert_union_r; [done|].
    by apply not_elem_of_list_to_map_1.
  - eapply Forall_impl; [exact Hl|]. intros y Hy. by apply lookup_insert_None in Hy as [? _].
Qed.

Lemma parse_digests_Ok algs n c ds0 c' ds :
  for_each (parse_digest algs) (c, ds0) (replicate n tt) = Ok (c', ds) ->
  cursor_ok c ->
  exists l, length l = n /\ digest_list algs l /\ Forall (fun ad => ds0 !! ad.1 = None) l /\
    ds = list_to_map l ∪ ds0 /\ took c (blen (l ≫= encode_digest)) (l ≫= encode_digest) c'.
Proof.
  revert c ds0; induction n as [|n IH]; intros c ds0; cbn [replicate for_each].
  - intros [= <- <-] Hok. exists []. split; [done|]. split; [by split; constructor|].
    split; [constructor|]. split; [cbn; by rewrite (left_id_L ∅ (∪))|by apply took_refl].
  - intros ([c1 ds1] & (ad & H1 & H2 & H3 & -> & Ht)%parse_digest_Ok & H)%bind_Ok Hok.
    apply IH in H as (l & <- & [Hnd Hall] & Hf & -> & Ht2); [|apply Ht].
    destruct (list_to_map_union_insert _ _ _ Hf) as (-> & Hnin & Hf0).
    exists (ad :: l). split; [done|]. split; [split; by constructor|].
    split; [by constructor|]. split; [done|]. cbn. rewrite blen_app.
    by apply (took_trans _ _ _ _ _ _ _ Ht).
Qed.

(** Fuse the reads that start at cursor [c] into one. *)
#[local] Ltac took_chain c :=
  repeat match goal with
  | H1 : took c _ _ ?c1, H2 : took ?c1 _ _ ?c2 |- _ =>
    apply (took_trans _ _ _ _ _ _ _ H1) in H2; clear H1
  end.

Lemma parse_event_Ok c k aael limits algs e c' :
  parse_event c k aael limits algs = Ok (e, c') ->
  cursor_ok c ->
  (is_tdx k = true -> register_index e = 4 -> is_ok (parse_aael e) = true) ->
  exists ds, offset e = cur_offset c /\ event_ok k aael limits algs e ds /\
    took c (blen (encode_event e ds)) (encode_event e ds) c'.
Proof.
  unfold parse_event. intros H Hok Haael. inv_res. simpl in *.
  match goal with
  | H : for_each _ _ _ = Ok _ |- _ =>
    apply parse_digests_Ok in H as (ds & Hlen & Hds & _ & -> & Ht); [|by eauto using took_ok]
  end.
  rewrite (right_id_L ∅ (∪)) in *. exists ds.
  match goal with H : took _ ?m ?d c' |- _ => assert (blen d = m) as <- by apply H end.
  match goal with H : length ds = N.to_nat ?m |- _ => assert (m = blen ds) as -> by (unfold blen; lia) end.
  took_chain c. bools. split; [done|]. split.
  - split; simpl; auto; try lia.
    intros Ht. rewrite Ht in *. destruct_or?; [done|]. bools. done.
  - eapply took_self. unfold encode_event. simpl. rewrite <- !app_assoc in *. eassumption.
Qed.

Lemma remaining_end c : cursor_ok c -> remaining c = [] <-> cur_offset c = blen (cur_bytes c).
Proof.
  unfold cursor_ok, remaining. intros Hok. rewrite <- blen_0. unfold blen in *.
  rewrite length_drop. lia.
Qed.

Lemma parse_events_Ok fuel c k aael limits algs evs es c' :
  parse_events fuel c k aael limits algs evs = Ok (es, c') ->
  cursor_ok c ->
  exists new body, es = evs ++ new /\
    records (event_ok k aael limits algs) (cur_offset c) new body /\
    took c (blen body) body c' /\
    (blen evs <= max_events limits -> blen es <= max_events limits) /\
    erased (remaining c') = true /\ (is_tpm k = true -> remaining c' = []).
Proof.
  revert c evs; induction fuel as [|fuel IH]; intros c evs; cbn [parse_events];
    destruct (N.ltb_spec (cur_offset c) (blen (cur_bytes c))) as [Hlt|Hge]; cbn [negb];
    intros H Hok.
  2, 4: inv_res; exists [], []; rewrite app_nil_r;
    assert (remaining c' = []) as -> by (apply remaining_end; [done|unfold cursor_ok in *; lia]);
    split_and!; auto using took_refl; constructor.
  all: apply bind_Ok in H as (rest & Hrest & H); inv_res.
  all: destruct (is_tdx k && erased _) eqn:He.
  1, 3: inv_res; bools; exists [], []; rewrite app_nil_r; split_and!;
    auto using took_refl; [constructor|by destruct k].
  1: done.
  inv_res.
  match goal with
  | H : parse_event _ _ _ _ _ = Ok _ |- _ =>
    apply parse_event_Ok in H as (ds & Ho & Hev & Ht); [|done|]
  end.
  2: { intros Htdx H4. rewrite Htdx, H4 in *. simpl in *. inv_res.
       match goal with H : parse_aael _ = Ok _ |- _ => by rewrite H end. }
  match goal with
  | H : parse_events _ _ _ _ _ _ _ = Ok _ |- _ =>
    apply IH in H as (new & body & -> & Hrec & Ht2 & Hmax & Her & Htpm); [|by eapply took_ok]
  end.
  eexists (_ :: new), (encode_event _ ds ++ body). rewrite <- app_assoc. split; [done|].
  rewrite (took_offset _ _ _ _ Ht) in Hrec. split_and!; auto.
  - by constructor.
  - rewrite blen_app. by eapply took_trans.
  - intros _. bools. rewrite <- app_assoc in Hmax. apply Hmax. rewrite blen_app, blen_cons, blen_nil. lia.
Qed.

Lemma parse_algorithm_Ok c s algs0 s' algs :
  parse_algorithm c (s, algs0) tt = Ok (s', algs) ->
  exists az, algorithm_ok az /\ algs0 !! az.1 = None /\ algs = <[az.1 := az.2]> algs0 /\
    took s (blen (encode_algorithm az)) (encode_algorithm az) s'.
Proof.
  unfold parse_algorithm. intros H. inv_res.
  match goal with
  | H1 : took s 2 (N_to_le 2 ?a) ?c1, H2 : took ?c1 2 (N_to_le 2 ?z) s' |- _ =>
    exists (a, z); pose proof (took_trans _ _ _ _ _ _ _ H1 H2) as Ht
  end.
  bools. split; [|split; [by apply eq_None_not_Some|]].
  - split; [done|]. simpl. split; [lia|]. case_match; bools; done.
  - split; [done|]. unfold encode_algorithm. by rewrite blen_app, !blen_N_to_le.
Qed.

Lemma parse_algorithms_Ok c n s algs0 s' algs :
  for_each (parse_algorithm c) (s, algs0) (replicate n tt) = Ok (s', algs) ->
  cursor_ok s ->
  exists l, length l = n /\ NoDup l.*1 /\ Forall algorithm_ok l /\
    Forall (fun az => algs0 !! az.1 = None) l /\ algs = list_to_map l ∪ algs0 /\
    took s (blen (l ≫= encode_algorithm)) (l ≫= encode_algorithm) s'.
Proof.
  revert s algs0; induction n as [|n IH]; intros s algs0; cbn [replicate for_each].
  - intros [= <- <-] Hok. exists []. split_and!; try done; try by constructor.
    + cbn. by rewrite (left_id_L ∅ (∪)).
    + by apply took_refl.
  - intros ([s1 algs1] & (az & H1 & H2 & -> & Ht)%parse_algorithm_Ok & H)%bind_Ok Hok.
    apply IH in H as (l & <- & Hnd & Hall & Hf & -> & Ht2); [|apply Ht].
    destruct (list_to_map_union_insert _ _ _ Hf) as (-> & Hnin & Hf0).
    exists (az :: l). split_and!; try done; try by constructor.
    cbn. rewrite blen_app. by apply (took_trans _ _ _ _ _ _ _ Ht).
Qed.

Lemma parse_spec_Ok c k limits spec algs :
  parse_spec c k limits spec = Ok algs -> spec_ok k limits algs spec.
Proof.
  unfold parse_spec. intros H.
  set (s0 := {| cur_bytes := spec; cur_offset := 0 |}) in *.
  assert (remaining s0 = spec) as Hs0 by apply drop_0.
  inv_res.
  match goal with
  | H : for_each _ _ _ = Ok _ |- _ =>
    apply parse_algorithms_Ok in H as (al & Hlen & Hnd & Hall & _ & -> & Ht);
      [|by eauto using took_ok]
  end.
  rewrite (right_id_L ∅ (∪)) in *.
  match goal with H : length al = N.to_nat ?m |- _ =>
    assert (m = blen al) as -> by (unfold blen; lia) end.
  match goal with H : took _ (byte_N ?b) ?v _ |- _ =>
    pose proof (byte_N_lt b); rename v into vendor; rename b into vlen;
    pose proof (took_blen _ _ _ _ H) as Hv; assert (vlen = byte_of (blen vendor)) as Hvl by
      (by rewrite Hv, byte_of_N) end.
  match goal with H : took _ (byte_N vlen) vendor ?c |- _ => rename c into cend end.
  assert (remaining cend = []) as Hend.
  { apply remaining_end; [by eapply took_ok|]. bools.
    repeat match goal with H : took _ _ _ _ |- _ => apply took_bytes in H end.
    assert (cur_bytes cend = cur_bytes s0) as -> by congruence. done. }
  took_chain s0. bools. subst vlen.
  match goal with H : ?l = spec_signature |- _ => subst l end.
  match goal with H : took s0 _ _ cend |- _ => apply took_remaining in H; rename H into Hs end.
  rewrite Hend, app_nil_r, Hs0 in Hs.
  match goal with H : byte_N ?x = 2, H' : byte_N ?y = 0 |- _ =>
    assert (x = x02) as -> by (by apply byte_N_inj); assert (y = x00) as -> by (by apply byte_N_inj) end.
  split.
  - do 3 eexists. exists vendor, al. rewrite <- !app_assoc in Hs.
    split; [|split; [|split; [|split; [exact Hs|]]]]; [done|done|lia|].
    split_and!; try done; lia.
  - intros Ht. rewrite Ht in *. by destruct_or?.
Qed.

Lemma any_nonzero_false b n : any_nonzero b = false -> blen b = N.of_nat n -> b = replicate n x00.
Proof.
  unfold any_nonzero. rewrite negb_false_iff, all_zero_spec.
  intros Hb <-%length_blen. exact Hb.
Qed.

Lemma parse_header_Ok b k limits algs c' :
  parse_header {| cur_bytes := b; cur_offset := 0 |} k limits = Ok (algs, c') ->
  exists hdr, header_ok k limits algs hdr /\
    took {| cur_bytes := b; cur_offset := 0 |} (blen hdr) hdr c'.
Proof.
  set (c := {| cur_bytes := b; cur_offset := 0 |}). unfold parse_header. intros H. inv_res.
  destruct (negb (_ =? EV_NO_ACTION)) eqn:Hev; inv_res. bools.
  match goal with H : parse_spec _ _ _ _ = Ok _ |- _ => apply parse_spec_Ok in H as Hspec end.
  match goal with H : took _ 20 ?d _ |- _ =>
    assert (d = replicate 20 x00) as -> by (apply any_nonzero_false; [done|apply H]) end.
  match goal with H : took _ ?m ?d c' |- _ => assert (blen d = m) as <- by apply H end.
  took_chain c. subst.
  match goal with H : took c _ _ c' |- _ => apply took_self in H; rename H into Ht end.
  eexists. split; [|exact Ht]. eexists _, _. rewrite <- !app_assoc.
  split; [reflexivity|]. split_and!; try done. by destruct k; simpl in *; destruct_or?.
Qed.

Lemma parse_sound b k limits aael log :
  parse b k limits aael = Ok log -> is_log b k limits aael log.
Proof.
  unfold parse. intros H. inv_res.
  match goal with H : parse_header _ _ _ = Ok _ |- _ =>
    apply parse_header_Ok in H as (hdr & Hh & Ht) end.
  match goal with H : parse_events _ _ _ _ _ _ _ = Ok _ |- _ =>
    apply parse_events_Ok in H as (new & body & -> & Hrec & Ht2 & Hmax & He & Htpm);
      [|by eapply took_ok] end.
  bools. rewrite app_nil_l in *.
  pose proof (took_remaining _ _ _ _ Ht) as Hr1. pose proof (took_remaining _ _ _ _ Ht2) as Hr2.
  rewrite (took_offset _ _ _ _ Ht) in Hrec. unfold remaining in Hr1 at 1. simpl in *.
  rewrite drop_0 in Hr1. split; simpl; try done.
  - exists hdr, body. eexists. rewrite <- Hr2. split; [exact Hr1|]. split_and!; try done.
    rewrite (took_offset _ _ _ _ Ht2), (took_offset _ _ _ _ Ht). simpl. lia.
  - intros ->. by rewrite blen_nil in *.
  - apply Hmax. rewrite blen_nil. lia.
Qed.

(** ** The parser accepts everything the grammar describes *)
Lemma next_take c v rest :
  cursor_fit c -> remaining c = v ++ rest ->
  exists c', cursor_take c (blen v) = Ok (v, c') /\ took c (blen v) v c' /\
    remaining c' = rest /\ cursor_fit c'.
Proof.
  intros Hf Hr. destruct (took_app c v rest Hf Hr) as [Ht Hr']. eexists.
  split; [by apply cursor_take_took|]. split; [done|]. split; [done|].
  by eapply took_fit.
Qed.
Lemma next_u8 c b rest :
  cursor_fit c -> remaining c = b :: rest ->
  exists c', cursor_u8 c = Ok (byte_N b, c') /\ took c 1 [b] c' /\
    remaining c' = rest /\ cursor_fit c'.
Proof.
  intros Hf Hr. destruct (next_take c [b] rest Hf Hr) as (c' & _ & Ht & Hr' & Hf').
  exists c'. split_and!; auto using cursor_u8_took; apply Hf'.
Qed.
Lemma next_u16 c n rest :
  cursor_fit c -> n < 2 ^ 16 -> remaining c = N_to_le 2 n ++ rest ->
  exists c', cursor_u16 c = Ok (n, c') /\ took c 2 (N_to_le 2 n) c' /\
    remaining c' = rest /\ cursor_fit c'.
Proof.
  intros Hf Hn Hr. destruct (next_take c _ rest Hf Hr) as (c' & _ & Ht & Hr' & Hf').
  rewrite blen_N_to_le in Ht. exists c'. split; [by apply cursor_u16_took|]. auto.
Qed.
Lemma next_u32 c n rest :
  cursor_fit c -> n < 2 ^ 32 -> remaining c = N_to_le 4 n ++ rest ->
  exists c', cursor_u32 c = Ok (n, c') /\ took c 4 (N_to_le 4 n) c' /\
    remaining c' = rest /\ cursor_fit c'.
Proof.
  intros Hf Hn Hr. destruct (next_take c _ rest Hf Hr) as (c' & _ & Ht & Hr' & Hf').
  rewrite blen_N_to_le in Ht. exists c'. split; [by apply cursor_u32_took|]. auto.
Qed.

(** Read the next field of the input with the lemma for its type. *)
#[local] Ltac next_with H c :=
  let c' := fresh "c" in let E := fresh "E" in let T := fresh "T" in
  let R := fresh "R" in let F := fresh "F" in
  destruct H as (c' & E & T & R & F); rewrite E, res_bind_Ok; clear E.
#[local] Ltac next :=
  lazymatch goal with
  | F : cursor_fit ?c, R : remaining ?c = N_to_le 4 ?n ++ ?r |- cursor_u32 ?c ≫= _ = _ =>
    next_with (next_u32 c n r F ltac:(first [eassumption|lia]) R) c
  | F : cursor_fit ?c, R : remaining ?c = N_to_le 2 ?n ++ ?r |- cursor_u16 ?c ≫= _ = _ =>
    next_with (next_u16 c n r F ltac:(first [eassumption|lia]) R) c
  | F : cursor_fit ?c, R : remaining ?c = _ |- cursor_u8 ?c ≫= _ = _ =>
    next_with (next_u8 c _ _ F R) c
  | F : cursor_fit ?c, R : remaining ?c = ?v ++ _ |- cursor_take ?c ?n ≫= _ = _ =>
    replace n with (blen v) by (auto; done); next_with (next_take c v _ F R) c
  | |- reject_if ?b ?e ≫= _ = _ => rewrite (reject_if_false b e), res_bind_Ok
  end.

(** Close the run: the final cursor is behind everything that was read. *)
Lemma took_advance c n v c' : took c n v c' -> c' = advance c (blen v).
Proof. by intros (-> & _ & -> & _). Qed.
#[local] Ltac arrived c :=
  took_chain c; rewrite <- ?app_assoc in *;
  match goal with T : took c _ _ ?c' |- context [?c'] => rewrite (took_advance _ _ _ _ T) end.

Lemma parse_digest_run algs c ds0 ad rest :
  cursor_fit c -> remaining c = encode_digest ad ++ rest ->
  ad.1 < 2 ^ 16 -> algs !! ad.1 = Some (blen ad.2) -> ds0 !! ad.1 = None ->
  parse_digest algs (c, ds0) tt
  = Ok (advance c (blen (encode_digest ad)), <[ad.1 := ad.2]> ds0).
Proof.
  intros Hf Hr Ha Halg Hds. unfold encode_digest in *. rewrite <- app_assoc in Hr.
  unfold parse_digest. next. rewrite Halg. simpl. next. next.
  - by arrived c.
  - by apply bool_decide_is_Some_false.
Qed.

Lemma parse_digests_run algs l c ds0 rest :
  cursor_fit c -> remaining c = (l ≫= encode_digest) ++ rest ->
  digest_list algs l -> Forall (fun ad => ds0 !! ad.1 = None) l ->
  for_each (parse_digest algs) (c, ds0) (replicate (length l) tt)
  = Ok (advance c (blen (l ≫= encode_digest)), list_to_map l ∪ ds0).
Proof.
  revert c ds0; induction l as [|ad l IH]; intros c ds0 Hf Hr [Hnd Hall] Hds.
  - cbn. rewrite (left_id_L ∅ (∪)). destruct c. unfold advance. simpl. by rewrite N.add_0_r.
  - cbn [length replicate for_each]. rewrite bind_cons, <- app_assoc in Hr.
    inversion_clear Hall as [|? ? [Ha Halg] Hall']. inversion_clear Hds as [|? ? Hd0 Hds'].
    cbn in Hnd. inversion_clear Hnd as [|? ? Hnin Hnd'].
    rewrite (parse_digest_run _ _ _ _ _ Hf Hr) by done. rewrite res_bind_Ok.
    destruct (took_app _ _ _ Hf Hr) as [Ht Hr'].
    rewrite IH; [|by eapply took_fit|done|by split|].
    + rewrite bind_cons, blen_app. f_equal. f_equal.
      * unfold advance. simpl. f_equal. lia.
      * destruct ad as [a d]. cbn in *. rewrite <- insert_union_l, insert_union_r; [done|].
        by apply not_elem_of_list_to_map_1.
    + apply Forall_forall. intros y Hy. rewrite lookup_insert_ne.
      * rewrite Forall_forall in Hds'. auto.
      * intros Heq. apply Hnin. rewrite Heq. by apply list_elem_of_fmap_2.
Qed.

Lemma parse_event_run c k aael limits algs e ds rest :
  cursor_fit c -> remaining c = encode_event e ds ++ rest ->
  offset e = cur_offset c -> event_ok k aael limits algs e ds ->
  parse_event c k aael limits algs = Ok (e, advance c (blen (encode_event e ds))).
Proof.
  intros Hf Hr Ho [Hds Hmap [Hcnt Hcnt32] Hreg Hreg32 Hty32 Hdata Hdata32 Htdx _].
  unfold encode_event in *. rewrite <- !app_assoc in Hr. unfold parse_event.
  next. next; [|done]. next. next. next; [|bools; lia].
  match goal with R : remaining ?c = _, F : cursor_fit ?c |- for_each _ (?c, _) _ ≫= _ = _ =>
    destruct (took_app _ _ _ F R) as [T' R'];
    replace (N.to_nat (blen ds)) with (length ds) by (unfold blen; lia);
    rewrite (parse_digests_run _ _ _ _ _ F R Hds), res_bind_Ok;
      [|apply Forall_forall; intros; apply lookup_empty];
    pose proof (took_fit _ _ _ _ T' F) as F'
  end.
  rewrite (right_id_L ∅ (∪)), <- Hmap. next. next; [|bools; lia]. next. next.
  - arrived c. destruct e; simpl in *. by subst.
  - destruct (is_tdx k); [|done]. simpl. bools. auto.
Qed.

(** A record starts with a register number, so it is never erased flash. *)
Lemma encode_event_not_erased k aael limits algs e ds b :
  event_ok k aael limits algs e ds -> is_tdx k = true ->
  erased (encode_event e ds ++ b) = false.
Proof.
  intros Hev Hk. pose proof (ev_register _ _ _ _ _ _ Hev) as Hr.
  unfold register_outside in Hr. rewrite Hk in Hr. destruct k; [done|]. simpl in Hr.
  assert (register_index e <= 4) as Hle by (destruct aael; bools; lia).
  unfold encode_event. change 4%nat with (S 3). cbn [N_to_le app erased forallb].
  apply andb_false_iff. left. apply byte_eqb_neq. intros Hx.
  apply (f_equal byte_N) in Hx. rewrite byte_N_of_small in Hx by lia. change (byte_N xff) with 255 in Hx. lia.
Qed.

Lemma blen_encode_event e ds : 0 < blen (encode_event e ds).
Proof. unfold encode_event. rewrite blen_app, blen_N_to_le. lia. Qed.

(** A run over well-formed records reaches the cursor behind them. *)
Lemma parse_events_prefix fuel c k aael limits algs evs es body tail :
  records (event_ok k aael limits algs) (cur_offset c) es body ->
  cursor_fit c -> remaining c = body ++ tail -> blen evs + blen es <= max_events limits ->
  parse_events (length es + fuel) c k aael limits algs evs
  = parse_events fuel (advance c (blen body)) k aael limits algs (evs ++ es).
Proof.
  intros Hrec. remember (cur_offset c) as off eqn:Hoff. revert c evs Hoff.
  induction Hrec as [off|off e ds es body Ho Hev Hrec IH]; intros c evs -> Hf Hr Hmax.
  { assert (advance c (blen (@nil byte)) = c) as ->; [|by rewrite app_nil_r].
    destruct c. unfold advance. simpl. by rewrite N.add_0_r. }
  rewrite <- app_assoc in Hr. rewrite blen_cons in Hmax.
  cbn [length Nat.add]. cbn [parse_events].
  destruct (N.ltb_spec (cur_offset c) (blen (cur_bytes c))) as [Hlt|Hge].
  2: { destruct (remaining_end c) as [_ Hend]; [apply Hf|].
       rewrite Hend in Hr by (destruct Hf; unfold cursor_ok in *; lia).
       apply (f_equal blen) in Hr. rewrite blen_nil, blen_app in Hr.
       pose proof (blen_encode_event e ds). lia. }
  cbn [negb]. unfold index_from. rewrite get_from_total by lia. cbn [unwrap].
  rewrite res_bind_Ok. change (drop _ _) with (remaining c). rewrite Hr.
  replace (is_tdx k && erased _) with false.
  2: { destruct (is_tdx k) eqn:Hk; [|done]. symmetry. by eapply encode_event_not_erased. }
  rewrite reject_if_false, res_bind_Ok by (bools; lia).
  rewrite (parse_event_run c k aael limits algs e ds (body ++ tail)), res_bind_Ok by done.
  assert ((if is_tdx k && (register_index e =? 4)
           then (parse_aael e;; Ok (E:=BootError) tt) else Ok tt) = Ok tt) as ->.
  { destruct (is_tdx k) eqn:Hk; [|done]. simpl.
    destruct (N.eqb_spec (register_index e) 4) as [H4|]; [|done].
    pose proof (ev_aael _ _ _ _ _ _ Hev Hk H4). by destruct (parse_aael e). }
  rewrite res_bind_Ok. destruct (took_app _ _ _ Hf Hr) as [Ht Hr'].
  rewrite (IH (advance c (blen (encode_event e ds))) (evs ++ [e])); auto.
  - rewrite <- app_assoc, blen_app. f_equal. unfold advance. cbn. f_equal. lia.
  - by eapply took_fit.
  - rewrite blen_app, blen_cons, blen_nil. lia.
Qed.

(** At erased flash, or at the end, the loop stops. *)
Lemma parse_events_stop fuel c k aael limits algs evs :
  cursor_ok c -> erased (remaining c) = true -> (is_tpm k = true -> remaining c = []) ->
  parse_events fuel c k aael limits algs evs = Ok (evs, c).
Proof.
  intros Hok Her Htpm.
  assert (forall X : res BootError (list Event * Cursor),
    (if negb (cur_offset c <? blen (cur_bytes c)) then Ok (evs, c)
     else rest ← index_from (cur_bytes c) (cur_offset c);
          if is_tdx k && erased rest then Ok (evs, c) else X) = Ok (evs, c)) as Hstop.
  { intros X. destruct (N.ltb_spec (cur_offset c) (blen (cur_bytes c))) as [Hlt|]; [|done].
    simpl. unfold index_from. rewrite get_from_total by lia. simpl.
    change (drop _ _) with (remaining c). rewrite Her.
    destruct k; [|done]. specialize (Htpm eq_refl). apply remaining_end in Htpm; [lia|done]. }
  destruct fuel; apply Hstop.
Qed.

Lemma parse_events_run fuel c k aael limits algs evs es body tail :
  records (event_ok k aael limits algs) (cur_offset c) es body ->
  cursor_fit c -> remaining c = body ++ tail ->
  erased tail = true -> (is_tpm k = true -> tail = []) ->
  (length es <= fuel)%nat -> blen evs + blen es <= max_events limits ->
  parse_events fuel c k aael limits algs evs = Ok (evs ++ es, advance c (blen body)).
Proof.
  intros Hrec Hf Hr Her Htpm Hfuel Hmax.
  replace fuel with (length es + (fuel - length es))%nat by lia.
  rewrite (parse_events_prefix _ _ _ _ _ _ _ es body tail) by done.
  destruct (took_app _ _ _ Hf Hr) as [Ht Hr'].
  apply parse_events_stop; [by eapply took_ok|by rewrite Hr'..].
Qed.

Lemma parse_algorithm_run c s algs0 az rest :
  cursor_fit s -> remaining s = encode_algorithm az ++ rest ->
  algorithm_ok az -> algs0 !! az.1 = None ->
  parse_algorithm c (s, algs0) tt
  = Ok (advance s (blen (encode_algorithm az)), <[az.1 := az.2]> algs0).
Proof.
  intros Hf Hr (Ha & Hz & Hk) Hn. unfold encode_algorithm in *. rewrite <- app_assoc in Hr.
  unfold parse_algorithm. next. next. next; 
    [|destruct (known_digest_size az.1); rewrite !orb_false_iff; bools; repeat split; lia].
  next; [by arrived s|by apply bool_decide_is_Some_false].
Qed.

Lemma parse_algorithms_run c l s algs0 rest :
  cursor_fit s -> remaining s = (l ≫= encode_algorithm) ++ rest ->
  NoDup l.*1 -> Forall algorithm_ok l -> Forall (fun az => algs0 !! az.1 = None) l ->
  for_each (parse_algorithm c) (s, algs0) (replicate (length l) tt)
  = Ok (advance s (blen (l ≫= encode_algorithm)), list_to_map l ∪ algs0).
Proof.
  revert s algs0; induction l as [|az l IH]; intros s algs0 Hf Hr Hnd Hall Hds.
  - cbn. rewrite (left_id_L ∅ (∪)). destruct s. unfold advance. simpl. by rewrite N.add_0_r.
  - cbn [length replicate for_each]. rewrite bind_cons, <- app_assoc in Hr.
    inversion_clear Hall as [|? ? Ha Hall']. inversion_clear Hds as [|? ? Hd0 Hds'].
    cbn in Hnd. inversion_clear Hnd as [|? ? Hnin Hnd'].
    rewrite (parse_algorithm_run _ _ _ _ _ Hf Hr) by done. rewrite res_bind_Ok.
    destruct (took_app _ _ _ Hf Hr) as [Ht Hr'].
    rewrite IH; [|by eapply took_fit|done|done|done|].
    + rewrite bind_cons, blen_app. f_equal. f_equal.
      * unfold advance. simpl. f_equal. lia.
      * destruct az as [a z]. cbn in *. rewrite <- insert_union_l, insert_union_r; [done|].
        by apply not_elem_of_list_to_map_1.
    + apply Forall_forall. intros y Hy. rewrite lookup_insert_ne.
      * rewrite Forall_forall in Hds'. auto.
      * intros Heq. apply Hnin. rewrite Heq. by apply list_elem_of_fmap_2.
Qed.

Lemma parse_spec_run c k limits algs spec :
  spec_ok k limits algs spec -> blen spec <= usize_max ->
  parse_spec c k limits spec = Ok algs.
Proof.
  intros [(class & errata & uintn & vendor & l & Hc & Hu & Hv & Hs & Hnd & Hall & -> & Hl & Hl32) Hbank] Hmax.
  unfold parse_spec. set (s0 := {| cur_bytes := spec; cur_offset := 0 |}).
  assert (cursor_fit s0) as F0 by (split; [unfold cursor_ok; simpl; lia|done]).
  assert (remaining s0 = spec) as R0 by apply drop_0. rewrite Hs in R0.
  assert (byte_N (byte_of (blen vendor)) = blen vendor) as Hvl by (by apply byte_N_of_small).
  change 16 with (blen spec_signature). next. next; [|bools; by apply bytes_eqb_eq]. next.
  cbn [app] in *. next. next. next. next. next.
  2: { bools. destruct Hu as [-> | ->]; auto. }
  next. next; [|bools; lia].
  match goal with R : remaining ?c = _, F : cursor_fit ?c |- for_each _ (?c, _) _ ≫= _ = _ =>
    destruct (took_app _ _ _ F R) as [T' R'];
    replace (N.to_nat (blen l)) with (length l) by (unfold blen; lia);
    rewrite (parse_algorithms_run _ _ _ _ _ F R Hnd Hall), res_bind_Ok;
      [|apply Forall_forall; intros; apply lookup_empty];
    pose proof (took_fit _ _ _ _ T' F) as F'
  end.
  next. rewrite Hvl.
  match goal with R : remaining ?c = vendor |- _ => rewrite <- (app_nil_r vendor) in R end.
  next. rewrite (right_id_L ∅ (∪)). took_chain s0.
  match goal with T : took s0 _ _ ?c, R : remaining ?c = [], F : cursor_fit ?c |- _ =>
    apply remaining_end in R; [|apply F]; rewrite (took_bytes _ _ _ _ T) in R end.
  next; [next; [done|]|by bools].
  destruct (is_tdx k); [|done]. cbn. bools. auto.
Qed.

Lemma take_zero_digest c rest :
  cursor_fit c -> remaining c = replicate 20 x00 ++ rest ->
  exists c', took c 20 (replicate 20 x00) c' /\ remaining c' = rest /\ cursor_fit c' /\
    (cursor_take c 20 ≫= fun '(digest, c) =>
       reject_if (any_nonzero digest) (cursor_invalid c "missing legacy-format SpecID header");;
       Ok c) = Ok c'.
Proof.
  intros F R. destruct (next_take c _ _ F R) as (c' & E & T & R' & F').
  change (blen (replicate 20 x00)) with 20 in *. exists c'. rewrite E. by split_and!.
Qed.

Lemma parse_header_run b k limits algs hdr rest :
  header_ok k limits algs hdr -> blen b <= usize_max -> b = hdr ++ rest ->
  parse_header {| cur_bytes := b; cur_offset := 0 |} k limits
  = Ok (algs, advance {| cur_bytes := b; cur_offset := 0 |} (blen hdr)).
Proof.
  intros (idx & spec & Hh & Hidx & Hmax & H32 & Hspec) Hb Hsplit.
  set (c0 := {| cur_bytes := b; cur_offset := 0 |}).
  assert (cursor_fit c0) as F0 by (split; [unfold cursor_ok; simpl; lia|done]).
  assert (remaining c0 = b) as R0 by apply drop_0.
  assert (blen spec <= usize_max) as Hsp by (change usize_max with (2 ^ 64 - 1); lia).
  rewrite Hsplit, Hh, <- !app_assoc in R0. unfold parse_header.
  assert (idx < 2 ^ 32) as Hi by (destruct (is_tpm k); lia).
  assert (EV_NO_ACTION < 2 ^ 32) as Hev by done.
  next. next; [|destruct k; simpl in *; bools; lia]. next.
  cbn [negb]. rewrite N.eqb_refl. cbn [negb].
  match goal with F : cursor_fit ?c, R : remaining ?c = replicate 20 x00 ++ _ |- _ =>
    destruct (take_zero_digest c _ F R) as (c' & T' & R' & F' & ->) end.
  rewrite res_bind_Ok. next. next; [|by bools]. next.
  rewrite (parse_spec_run _ _ _ _ _ Hspec Hsp), res_bind_Ok.
  arrived c0. do 3 f_equal. rewrite Hh, !blen_app. lia.
Qed.

Lemma records_length P off es body : records P off es body -> (length es <= length body)%nat.
Proof.
  induction 1 as [|off e ds es b ? ? ? IH]; [done|].
  rewrite length_cons, length_app. pose proof (blen_encode_event e ds). unfold blen in *. lia.
Qed.

Lemma parse_run b k limits aael log :
  is_log b k limits aael log -> blen b <= usize_max ->
  parse b k limits aael = Ok log.
Proof.
  intros [(hdr & body & tail & Hb & Hh & Hrec & Her & Htpm & Hc) Hk Hne Hmax Hlen] Hu.
  unfold parse. rewrite reject_if_false, res_bind_Ok by (bools; lia). cbv zeta.
  rewrite (parse_header_run b k limits (algorithms log) hdr (body ++ tail)) by done.
  rewrite res_bind_Ok. set (c0 := {| cur_bytes := b; cur_offset := 0 |}).
  assert (cursor_fit c0) as F0 by (split; [unfold cursor_ok; simpl; lia|done]).
  assert (remaining c0 = hdr ++ body ++ tail) as R0 by (rewrite <- Hb; apply drop_0).
  destruct (took_app _ _ _ F0 R0) as [T1 R1].
  rewrite (parse_events_run _ _ _ _ _ _ _ (events log) body tail); auto.
  - rewrite res_bind_Ok. cbn [app]. rewrite reject_if_false, res_bind_Ok.
    + destruct log as [lk la le lc]; simpl in *. subst. done.
    + bools. by intros ?%blen_0.
  - by eapply took_fit.
  - apply records_length in Hrec. rewrite Hb, !length_app. lia.
Qed.

(** ** The parser neither panics nor runs out of fuel *)
#[local] Ltac wpc :=
  repeat (wp; first [apply safe_take | apply safe_u32 | apply safe_u16 | apply safe_u8]; intros); wp.

Lemma safe_parse_spec c k limits spec : safe (parse_spec c k limits spec) (fun _ => True).
Proof.
  unfold parse_spec. wpc. eapply safe_mono.
  { apply (safe_for_each _ (fun _ => True)); [done|]. intros [s algs] [] _ _.
    unfold parse_algorithm. by wpc. }
  intros [s' algs] _ _. by wpc.
Qed.

(** Progress of a cursor over the same input. *)
Definition moved (c c' : Cursor) : Prop :=
  cursor_ok c' /\ cur_bytes c' = cur_bytes c /\ cur_offset c <= cur_offset c'.
Lemma took_moved c n v c' : took c n v c' -> moved c c'.
Proof. intros (-> & _ & _ & ?). split; [done|]. split; [done|]. simpl. lia. Qed.
Lemma moved_trans c c1 c2 : moved c c1 -> moved c1 c2 -> moved c c2.
Proof. intros (? & ? & ?) (? & ? & ?). split_and!; [done|congruence|lia]. Qed.
Lemma moved_refl c : cursor_ok c -> moved c c.
Proof. intros. by split_and!. Qed.

Lemma safe_parse_header b k limits :
  safe (parse_header {| cur_bytes := b; cur_offset := 0 |} k limits)
    (fun '(_, c) => moved {| cur_bytes := b; cur_offset := 0 |} c).
Proof.
  unfold parse_header. wpc. case_match; [done|]. wpc.
  eapply safe_mono; [apply safe_parse_spec|]. intros algs _ _. simpl.
  eauto 10 using moved_trans, took_moved.
Qed.

Lemma safe_parse_event c k aael limits algs :
  cursor_ok c ->
  safe (parse_event c k aael limits algs)
    (fun '(_, c') => moved c c' /\ cur_offset c < cur_offset c').
Proof.
  intros Hok. unfold parse_event. apply safe_bind, safe_u32. intros v c1 T1 _. wpc.
  match goal with |- safe (for_each _ (?c2, _) _) _ =>
    eapply safe_mono; [apply (safe_for_each _ (fun st => moved c2 st.1))|]
  end.
  - by eapply moved_refl, took_ok.
  - intros [c4 ds] [] _ Hm. simpl in *. unfold parse_digest. wpc. simpl.
    eauto using moved_trans, took_moved.
  - intros [c4 ds] _ Hm. simpl in Hm. wpc. simpl.
    pose proof (took_offset _ _ _ _ T1). pose proof (took_blen _ _ _ _ T1).
    match goal with |- moved c ?c' /\ _ => assert (moved c1 c') as H' by
      eauto 10 using moved_trans, took_moved end.
    split; [eauto using moved_trans, took_moved|]. destruct H' as (_ & _ & ?). lia.
Qed.

Lemma safe_parse_events fuel c k aael limits algs evs :
  cursor_ok c -> blen (cur_bytes c) - cur_offset c <= N.of_nat fuel ->
  safe (parse_events fuel c k aael limits algs evs) (fun _ => True).
Proof.
  revert c evs; induction fuel as [|fuel IH]; intros c evs Hok Hf; cbn [parse_events].
  - replace (cur_offset c <? blen (cur_bytes c)) with false; [done|].
    symmetry. bools. unfold cursor_ok in Hok. lia.
  - case_match; [done|]. apply safe_bind. unfold index_from.
    rewrite get_from_total by done. cbn [unwrap safe]. case_match; [done|]. wp.
    eapply safe_mono; [by apply safe_parse_event|]. intros [e c'] _ [(Hok' & Hb & _) Hlt].
    apply safe_bind. apply (safe_mono _ (fun _ => True)).
    + case_match; [|done]. apply safe_bind. eapply safe_mono; [apply safe_parse_aael|done].
    + intros _ _ _. apply IH; [done|]. rewrite Hb. lia.
Qed.

Lemma safe_parse b k limits aael : safe (parse b k limits aael) (fun _ => True).
Proof.
  unfold parse. wp. eapply safe_mono; [apply safe_parse_header|].
  intros [algs c] _ (Hok & Hb & _). wp. eapply safe_mono; [apply safe_parse_events; [done|]|].
  - rewrite Hb. cbn [cur_bytes]. unfold blen. lia.
  - intros [evs c'] _ _. by wp.
Qed.

(** * Properties *)

(** C4: the parser is exactly the grammar.  For every input and every limit that
    fits [usize], [EventLog::parse] returns [log] if and only if the bytes are a
    SpecID header, gapless well-formed records and (TDX only) erased flash, and
    [log] is their content: nothing else is accepted, nothing of it is refused. *)
Theorem parse_exact b k limits aael log :
  max_log_bytes limits <= usize_max ->
  parse b k limits aael = Ok log <-> is_log b k limits aael log.
Proof.
  intros Hmax. split; [apply parse_sound|]. intros Hlog. apply parse_run; [done|].
  pose proof (log_bytes _ _ _ _ _ Hlog). lia.
Qed.

(** Parsing any byte string, under any limits, neither panics (index, slice,
    [try_into().unwrap()]) nor needs more record iterations than input bytes. *)
Theorem parse_never_panics b k limits aael :
  exists r, parse b k limits aael = r /\ r <> Panic /\ r <> NoFuel.
Proof.
  pose proof (safe_parse b k limits aael) as Hs. eexists. split; [done|].
  by destruct (parse b k limits aael).
Qed.

(** ** Witnesses *)
Definition sample_header (alg size : N) : bytes :=
  let spec := spec_signature ++ N_to_le 4 0 ++ [x00; x02; x00; x02]
              ++ N_to_le 4 1 ++ encode_algorithm (alg, size) ++ [x00] in
  N_to_le 4 0 ++ N_to_le 4 EV_NO_ACTION ++ replicate 20 x00 ++ N_to_le 4 (blen spec) ++ spec.
Definition sample_event (off reg ty alg : N) (d data : bytes) : Event :=
  {| offset := off; register_index := reg; reported_event_type := ty;
     digests := {[alg := d]}; untrusted_event_data := data |}.
Definition sample_tpm_log : bytes :=
  sample_header TPM_ALG_SHA256 32
  ++ encode_event (sample_event 0 8 EV_IPL TPM_ALG_SHA256 (replicate 32 x01) (lit "kernel_cmdline: quiet"))
       [(TPM_ALG_SHA256, replicate 32 x01)].

Lemma parse_exact_witness :
  exists log, parse sample_tpm_log Tpm2 default_limits false = Ok log /\
    is_log sample_tpm_log Tpm2 default_limits false log.
Proof.
  eexists. split; [vm_compute; reflexivity|].
  apply (parse_exact sample_tpm_log Tpm2 default_limits false); [done|].
  vm_compute. reflexivity.
Defined.
