(* ===== verification/Replay.v ===== *)
(** * Replay: register replay and log authentication of [src/v2/src/boot.rs]

    [EventLog::replay], the [AuthenticatedRegisters] that a verified quote
    supplies, [EventLog::verify] and the queries of [VerifiedBootLog].  The
    specification side is [measured], the sequence of digests a log attributes to
    a register, and [foldl (extend alg)] over it. *)
From S2P Require Import Prelude Bytes Crypto Boot Aael EventLog.

Section Replay.
Context {H : Sha2}.

(** ** Replay *)
Record Replaying : Type := {
  values : gmap N bytes;
  pcr0_extended : bool;
  locality_seen : bool;
}.

Definition startup_locality_tag : bytes := lit "StartupLocality" ++ [x00].
Definition late_locality : BootError := Unsupported "invalid or late TPM StartupLocality event".

Definition replay_locality (sz : N) (st : Replaying) (event : Event) :
    res BootError Replaying :=
  reject_if (negb (register_index event =? 0) || pcr0_extended st || locality_seen st
             || negb (blen (untrusted_event_data event) =? 17)) late_locality;;
  loc ← index (untrusted_event_data event) 16;
  reject_if (negb ((byte_N loc =? 0) || (byte_N loc =? 3))
             || existsb (fun ad => any_nonzero ad.2) (map_to_list (digests event)))
    late_locality;;
  v ← unwrap (values st !! 0);
  index v (sz - 1);;
  Ok {| values := <[0 := <[N.to_nat (sz - 1) := loc]> v]> (values st);
        pcr0_extended := pcr0_extended st; locality_seen := true |}.

(** The register an event extends; [None] for a TPM event outside PCR 0..15. *)
Definition replay_index (k : LogKind) (event : Event) : res BootError (option N) :=
  if is_tdx k then
    reject_if (register_index event =? 0)
      (Unsupported "MRTD cannot be reconstructed by RTMR extension");;
    Ok (Some (register_index event - 1))
  else if 15 <? register_index event then Ok None
  else Ok (Some (register_index event)).

Definition replay_event (k : LogKind) (algorithm sz : N) (st : Replaying) (event : Event) :
    res BootError Replaying :=
  if reported_event_type event =? EV_NO_ACTION then
    if is_tpm k && starts_with startup_locality_tag (untrusted_event_data event)
    then replay_locality sz st event
    else Ok st
  else
    idx ← replay_index k event;
    match idx with
    | None => Ok st
    | Some idx =>
      let extended := pcr0_extended st || (is_tpm k && (register_index event =? 0)) in
      digest ← ok_or (digests event !! algorithm) (Unsupported "event missing replay bank");
      value ← unwrap (values st !! idx);
      value ← hash algorithm (value ++ digest);
      Ok {| values := <[idx := value]> (values st);
            pcr0_extended := extended; locality_seen := locality_seen st |}
    end.

Record UnverifiedReplay : Type := {
  replay_kind : LogKind;
  replay_algorithm : N;
  registers : gmap N bytes;
}.

Definition register_count (k : LogKind) : nat := if is_tpm k then 16%nat else 4%nat.
Definition initial_values (k : LogKind) (sz : nat) : gmap N bytes :=
  list_to_map ((fun i => (N.of_nat i, replicate sz x00)) <$> seq 0 (register_count k)).

Definition replay (log : EventLog) (algorithm : N) : res BootError UnverifiedReplay :=
  empty ← hash algorithm [];
  let sz := blen empty in
  reject_if (negb (bool_decide (algorithms log !! algorithm = Some sz)))
    (UnsupportedAlgorithm algorithm);;
  reject_if (is_tdx (kind log) && negb (algorithm =? TPM_ALG_SHA384))
    (Unsupported "TDX requires SHA-384");;
  st ← for_each (replay_event (kind log) algorithm sz)
         {| values := initial_values (kind log) (length empty);
            pcr0_extended := false; locality_seen := false |}
         (events log);
  Ok {| replay_kind := kind log; replay_algorithm := algorithm; registers := values st |}.

(** ** Authenticated registers *)
Record AuthenticatedRegisters : Type := {
  auth_kind : LogKind;
  auth_values : gmap (N * N) bytes;
}.

(** [tdx]: the four RTMRs of a verified quote. *)
Definition AuthenticatedRegisters_tdx (r0 r1 r2 r3 : bytes) : AuthenticatedRegisters := {|
  auth_kind := TdxCcel;
  auth_values := list_to_map [((TPM_ALG_SHA384, 0), r0); ((TPM_ALG_SHA384, 1), r1);
                              ((TPM_ALG_SHA384, 2), r2); ((TPM_ALG_SHA384, 3), r3)];
|}.

Definition AuthenticatedRegisters_tpm (vals : gmap (N * N) bytes) :
    res BootError AuthenticatedRegisters :=
  reject_if (bool_decide (vals = ∅) || existsb (fun key => 15 <? key.2) (btree_keys pair_le vals))
    (InvalidRegisters "only static PCRs 0..15 are supported");;
  for_each (fun _ '((algorithm, _), digest) =>
      empty ← hash algorithm [];
      reject_if (negb (blen empty =? blen digest)) (InvalidRegisters "digest length"))
    tt (btree_iter pair_le vals);;
  Ok {| auth_kind := Tpm2; auth_values := vals |}.

(** ** Verification *)
Record VerifiedBootLog : Type := {
  vlog : EventLog;
  covered : gset (N * N);
}.

Definition replay_bank (log : EventLog) (replayed : gmap N UnverifiedReplay) (key : N * N) :
    res BootError (gmap N UnverifiedReplay) :=
  if replayed !! key.1 is Some _ then Ok replayed
  else r ← replay log key.1; Ok (<[key.1 := r]> replayed).

Definition check_register (replayed : gmap N UnverifiedReplay) (_ : unit)
    (kv : (N * N) * bytes) : res BootError unit :=
  let '((algorithm, idx), wanted) := kv in
  rp ← unwrap (replayed !! algorithm);
  actual ← ok_or (registers rp !! idx) (InvalidRegisters "unsupported register index");
  reject_if (negb (blen wanted =? blen actual)) (InvalidRegisters "digest length");;
  reject_if (negb (bytes_eqb actual wanted)) (RegisterMismatch algorithm idx).

Definition verify (log : EventLog) (expected : AuthenticatedRegisters) :
    res BootError VerifiedBootLog :=
  reject_if (negb (bool_decide (kind log = auth_kind expected))) PlatformMismatch;;
  reject_if (bool_decide (auth_values expected = ∅)) (InvalidRegisters "empty selection");;
  replayed ← for_each (replay_bank log) ∅ (btree_keys pair_le (auth_values expected));
  for_each (check_register replayed) tt (btree_iter pair_le (auth_values expected));;
  Ok {| vlog := log; covered := dom (auth_values expected) |}.

(** ** Queries of a verified log *)
Definition event_register (k : LogKind) (e : Event) : option N :=
  if is_tdx k then checked_sub (register_index e) 1 else Some (register_index e).

Definition authenticated_digest (v : VerifiedBootLog) (event algorithm : N) :
    res BootError bytes :=
  e ← ok_or (get (events (vlog v)) event) (UnauthenticatedEvent event);
  reject_if (reported_event_type e =? EV_NO_ACTION) (UnauthenticatedEvent event);;
  idx ← ok_or (event_register (kind (vlog v)) e) (UnauthenticatedEvent event);
  reject_if (negb (bool_decide ((algorithm, idx) ∈ covered v))) (UnauthenticatedEvent event);;
  ok_or (digests e !! algorithm) (UnauthenticatedEvent event).

Definition verify_measured_bytes (v : VerifiedBootLog) (event algorithm : N) (b : bytes) :
    res BootError unit :=
  d ← authenticated_digest v event algorithm;
  h ← hash algorithm b;
  reject_if (negb (bytes_eqb d h)) (ContentMismatch event).

Definition verify_expected_digest (v : VerifiedBootLog) (event algorithm : N) (digest : bytes) :
    res BootError unit :=
  d ← authenticated_digest v event algorithm;
  reject_if (negb (bytes_eqb d digest)) (ContentMismatch event).

(** * Specification *)

(** One extend operation of the hardware register. *)
Definition extend (algorithm : N) (value digest : bytes) : bytes :=
  bank algorithm (value ++ digest).

(** The digest an event contributes to register [r] of a bank. *)
Definition contribution (k : LogKind) (algorithm r : N) (e : Event) : option bytes :=
  if reported_event_type e =? EV_NO_ACTION then None
  else if bool_decide (event_register k e = Some r) then digests e !! algorithm else None.

(** What a log claims was extended into register [r], oldest first. *)
Definition measured (k : LogKind) (algorithm r : N) (evs : list Event) : list bytes :=
  omap (contribution k algorithm r) evs.

Definition is_locality (k : LogKind) (e : Event) : bool :=
  (reported_event_type e =? EV_NO_ACTION) && is_tpm k
  && starts_with startup_locality_tag (untrusted_event_data e).

(** The startup locality a TPM log declares. *)
Definition locality (k : LogKind) (evs : list Event) : byte :=
  match filter (fun e => is_locality k e = true) evs with
  | e :: _ => default x00 (get (untrusted_event_data e) 16)
  | [] => x00
  end.

Definition reset_value (sz : nat) (loc : byte) : bytes := replicate (sz - 1) x00 ++ [loc].

(** The value register [r] has after the boot that the log describes. *)
Definition replayed_value (k : LogKind) (algorithm r : N) (evs : list Event) : bytes :=
  foldl (extend algorithm)
    (reset_value (bank_size algorithm) (if r =? 0 then locality k evs else x00))
    (measured k algorithm r evs).

(** An event that the replay accepts after the events [pre]: a startup locality
    comes once, first, well formed and unmeasured; a measuring event has the bank
    and a register that extension reconstructs. *)
Definition event_replayable (k : LogKind) (algorithm : N) (pre : list Event) (e : Event) : Prop :=
  if is_locality k e then
    register_index e = 0 /\ measured k algorithm 0 pre = [] /\
    filter (fun e => is_locality k e = true) pre = [] /\
    blen (untrusted_event_data e) = 17 /\
    (get (untrusted_event_data e) 16 = Some x00 \/ get (untrusted_event_data e) 16 = Some x03) /\
    (forall a d, digests e !! a = Some d -> all_zero d = true)
  else
    reported_event_type e <> EV_NO_ACTION ->
    (is_tdx k = true -> register_index e <> 0) /\
    (is_tpm k = true /\ 15 < register_index e \/ is_Some (digests e !! algorithm)).

(** The registers that a log of this kind can name. *)
Definition register_ok (k : LogKind) (e : Event) : Prop :=
  register_outside k true (register_index e) = false.

(** * Lemmas *)

(** ** The replay loop computes [replayed_value] *)
Record replay_inv (k : LogKind) (algorithm : N) (pre : list Event) (st : Replaying) : Prop := {
  inv_values r : values st !! r =
    if r <? N.of_nat (register_count k) then Some (replayed_value k algorithm r pre) else None;
  inv_extended : is_tpm k = true ->
    pcr0_extended st = false <-> measured k algorithm 0 pre = [];
  inv_locality : locality_seen st = false <->
    filter (fun e => is_locality k e = true) pre = [];
}.

Lemma measured_snoc k alg r pre e :
  measured k alg r (pre ++ [e]) =
  measured k alg r pre ++ match contribution k alg r e with Some d => [d] | None => [] end.
Proof. unfold measured. rewrite omap_app. cbn. by destruct (contribution k alg r e). Qed.

Lemma locality_snoc k pre e :
  locality k (pre ++ [e]) =
  match filter (fun e => is_locality k e = true) pre with
  | [] => if is_locality k e then default x00 (get (untrusted_event_data e) 16) else x00
  | _ => locality k pre
  end.
Proof.
  unfold locality. rewrite filter_app.
  destruct (filter _ pre) as [|e0 l] eqn:Hf; [|done]. cbn.
  by destruct (is_locality k e).
Qed.

Lemma replayed_value_inert k alg r pre e :
  contribution k alg r e = None -> is_locality k e = false ->
  replayed_value k alg r (pre ++ [e]) = replayed_value k alg r pre.
Proof.
  intros Hc Hl. unfold replayed_value. rewrite measured_snoc, Hc, app_nil_r, locality_snoc, Hl.
  unfold locality. by destruct (filter _ pre).
Qed.

Lemma replayed_value_extend k alg r pre e d :
  contribution k alg r e = Some d -> is_locality k e = false ->
  replayed_value k alg r (pre ++ [e]) = extend alg (replayed_value k alg r pre) d.
Proof.
  intros Hc Hl. unfold replayed_value. rewrite measured_snoc, Hc, locality_snoc, Hl.
  rewrite foldl_app. unfold locality. by destruct (filter _ pre).
Qed.

Lemma filter_snoc_false k pre e :
  is_locality k e = false ->
  filter (fun e => is_locality k e = true) (pre ++ [e])
  = filter (fun e => is_locality k e = true) pre.
Proof.
  intros Hl. rewrite filter_app, (filter_cons_False _ e); [by rewrite app_nil_r|]. congruence.
Qed.

(** An event that neither extends a register nor sets a locality. *)
Lemma replay_inv_inert k alg pre st e :
  replay_inv k alg pre st -> is_locality k e = false ->
  (forall r, r < N.of_nat (register_count k) -> contribution k alg r e = None) ->
  replay_inv k alg (pre ++ [e]) st.
Proof.
  intros [Hv He Hs] Hl Hc. split.
  - intros r. rewrite Hv. case_match eqn:Hr; [|done]. bools. by rewrite replayed_value_inert by auto.
  - intros Hk. rewrite He, measured_snoc, Hc, app_nil_r; [done| |done]. by destruct k.
  - by rewrite filter_snoc_false.
Qed.

Lemma contribution_register k alg r e d :
  contribution k alg r e = Some d ->
  reported_event_type e <> EV_NO_ACTION /\ event_register k e = Some r /\ digests e !! alg = Some d.
Proof. unfold contribution. intros. repeat case_match; simplify_eq; bools. done. Qed.

Lemma contribution_None k alg r e :
  reported_event_type e = EV_NO_ACTION \/ event_register k e <> Some r ->
  contribution k alg r e = None.
Proof.
  unfold contribution. intros [->|Hr]; [done|]. case_match; [done|].
  by rewrite bool_decide_eq_false_2.
Qed.

Lemma contribution_Some k alg r e d :
  reported_event_type e <> EV_NO_ACTION -> event_register k e = Some r ->
  digests e !! alg = Some d -> contribution k alg r e = Some d.
Proof.
  intros Ht Hr Hd. unfold contribution. rewrite (proj2 (N.eqb_neq _ _) Ht).
  by rewrite bool_decide_eq_true_2.
Qed.

Lemma replay_inv_extend k alg pre st e r d ext :
  replay_inv k alg pre st ->
  reported_event_type e <> EV_NO_ACTION -> event_register k e = Some r ->
  digests e !! alg = Some d -> r < N.of_nat (register_count k) ->
  ext = pcr0_extended st || (is_tpm k && (register_index e =? 0)) ->
  replay_inv k alg (pre ++ [e])
    {| values := <[r := extend alg (replayed_value k alg r pre) d]> (values st);
       pcr0_extended := ext; locality_seen := locality_seen st |}.
Proof.
  intros [Hv He Hs] Ht Hr Hd Hlt ->.
  assert (is_locality k e = false) as Hl.
  { unfold is_locality. by rewrite (proj2 (N.eqb_neq _ _) Ht). }
  split; cbn.
  - intros r'. destruct (decide (r = r')) as [<-|Hne].
    + rewrite lookup_insert_eq, (proj2 (N.ltb_lt _ _) Hlt). f_equal. symmetry.
      apply replayed_value_extend; [|done]. by apply contribution_Some.
    + rewrite lookup_insert_ne, Hv by done. case_match; [|done].
      rewrite replayed_value_inert; [done| |done]. apply contribution_None. right. congruence.
  - intros Hk. rewrite measured_snoc. specialize (He Hk).
    destruct k; [|done]. cbn in *. injection Hr as Hr. rewrite orb_false_iff, He.
    destruct (N.eqb_spec (register_index e) 0) as [H0|H0].
    + erewrite contribution_Some; [|done|cbn; by rewrite H0|done].
      split; [by intros []|by intros []%app_nil].
    + rewrite contribution_None, app_nil_r; [naive_solver|]. right. cbn. congruence.
  - by rewrite filter_snoc_false.
Qed.

Lemma reset_value_insert sz loc loc' :
  (0 < sz)%nat -> <[N.to_nat (N.of_nat sz - 1) := loc']> (reset_value sz loc) = reset_value sz loc'.
Proof.
  intros Hs. unfold reset_value. rewrite insert_app_r_alt by (rewrite length_replicate; lia).
  rewrite length_replicate. by replace (N.to_nat _ - (sz - 1))%nat with 0%nat by lia.
Qed.

Lemma bank_size_pos alg : (0 < bank_size alg)%nat.
Proof. unfold bank_size. repeat case_match; lia. Qed.

Lemma length_reset_value sz loc : (0 < sz)%nat -> length (reset_value sz loc) = sz.
Proof. intros. unfold reset_value. rewrite length_app, length_replicate. cbn. lia. Qed.

Lemma existsb_digests_zero e :
  existsb (fun ad : N * bytes => any_nonzero ad.2) (map_to_list (digests e)) = false <->
  forall a d, digests e !! a = Some d -> all_zero d = true.
Proof.
  rewrite <- not_true_iff_false, existsb_exists. split.
  - intros Hn a d Hd. destruct (all_zero d) eqn:E; [done|]. destruct Hn. exists (a, d).
    split; [|cbn; unfold any_nonzero; by rewrite E].
    apply list_elem_of_In. by apply elem_of_map_to_list.
  - intros Hz ([a d] & Hin & Hnz). apply list_elem_of_In, elem_of_map_to_list in Hin.
    cbn in Hnz. unfold any_nonzero in Hnz. by rewrite (Hz _ _ Hin) in Hnz.
Qed.

Lemma replay_inv_locality k alg pre st e loc :
  replay_inv k alg pre st -> is_locality k e = true ->
  measured k alg 0 pre = [] -> filter (fun e => is_locality k e = true) pre = [] ->
  get (untrusted_event_data e) 16 = Some loc ->
  values st !! 0 = Some (reset_value (bank_size alg) x00) /\
  replay_inv k alg (pre ++ [e])
    {| values := <[0 := reset_value (bank_size alg) loc]> (values st);
       pcr0_extended := pcr0_extended st; locality_seen := true |}.
Proof.
  intros [Hv He Hs] Hl Hm Hf Hloc.
  assert (is_tpm k = true) as Hk by (unfold is_locality in Hl; bools; done).
  assert (forall r, contribution k alg r e = None) as Hc.
  { intros r. apply contribution_None. left. unfold is_locality in Hl. by bools. }
  split; [|split; cbn].
  - rewrite Hv. destruct k; [|done]. cbn. unfold replayed_value. rewrite Hm. cbn.
    unfold locality. by rewrite Hf.
  - intros r. destruct (decide (r = 0)) as [->|Hne].
    + rewrite lookup_insert_eq. destruct k; [|done]. cbn. unfold replayed_value.
      rewrite measured_snoc, Hm, Hc. cbn. by rewrite locality_snoc, Hf, Hl, Hloc.
    + rewrite lookup_insert_ne, Hv by done. case_match; [|done]. unfold replayed_value.
      by rewrite measured_snoc, Hc, app_nil_r, (proj2 (N.eqb_neq _ _) Hne).
  - intros _. by rewrite measured_snoc, Hc, app_nil_r, He.
  - rewrite filter_app, (filter_cons_True _ e) by done. split; [done|by intros []%app_nil].
Qed.

Lemma starting_locality k e :
  reported_event_type e = EV_NO_ACTION ->
  is_tpm k && starts_with startup_locality_tag (untrusted_event_data e) = is_locality k e.
Proof. intros He. unfold is_locality. by rewrite He. Qed.

Lemma decides_locality k alg pre st e :
  replay_inv k alg pre st -> is_locality k e = true ->
  decides (replay_locality (N.of_nat (bank_size alg)) st e) (event_replayable k alg pre e)
    (replay_inv k alg (pre ++ [e])).
Proof.
  intros HI Hl. unfold replay_locality, event_replayable. rewrite Hl.
  assert (is_tpm k = true) as Hk by (unfold is_locality in Hl; bools; done).
  pose proof (inv_extended _ _ _ _ HI Hk) as He. pose proof (inv_locality _ _ _ _ HI) as Hs.
  destruct (negb _ || _ || _ || _) eqn:Hc.
  { cbn. intros (H0 & Hm%He & Hf%Hs & Hlen & _). rewrite H0, Hm, Hf, Hlen in Hc. done. }
  bools. cbn [reject_if mbind res_bind]. 
  assert (exists loc, get (untrusted_event_data e) 16 = Some loc) as [loc Hloc]
    by (apply get_total; lia).
  rewrite (index_Some _ _ _ Hloc), res_bind_Ok.
  destruct (negb _ || existsb _ _) eqn:Hc2.
  { cbn. intros (_ & _ & _ & _ & Hb & Hz%existsb_digests_zero). rewrite Hz, orb_false_r in Hc2.
    rewrite Hloc in Hb. by destruct Hb as [[= ->]|[= ->]]. }
  rewrite orb_false_iff, existsb_digests_zero in Hc2. destruct Hc2 as [Hb Hz].
  cbn [reject_if mbind res_bind]. rewrite He, Hs in *.
  destruct (replay_inv_locality k alg pre st e loc) as [Hv HI']; try done. rewrite Hv.
  cbn [unwrap mbind res_bind]. pose proof (bank_size_pos alg) as Hp.
  destruct (get_total (reset_value (bank_size alg) x00) (N.of_nat (bank_size alg) - 1)) as [x Hx].
  { unfold blen. rewrite length_reset_value by done. lia. }
  rewrite (index_Some _ _ _ Hx). cbn [mbind res_bind decides].
  rewrite reset_value_insert by done. split; [|done]. split_and!; try done.
  bools. destruct Hb as [Hb|Hb]; [left|right]; rewrite Hloc; f_equal; by apply byte_N_inj.
Qed.

Lemma decides_replay_event k alg pre st e :
  bank_supported alg -> replay_inv k alg pre st -> register_ok k e ->
  decides (replay_event k alg (N.of_nat (bank_size alg)) st e) (event_replayable k alg pre e)
    (replay_inv k alg (pre ++ [e])).
Proof.
  intros Hsup HI Hreg. unfold replay_event.
  destruct (N.eqb_spec (reported_event_type e) EV_NO_ACTION) as [Ht|Ht].
  { rewrite starting_locality by done. destruct (is_locality k e) eqn:Hl; [by apply decides_locality|].
    cbn. split; [by unfold event_replayable; rewrite Hl|].
    apply replay_inv_inert; [done|done|]. intros r _. apply contribution_None. by left. }
  assert (is_locality k e = false) as Hl.
  { unfold is_locality. by rewrite (proj2 (N.eqb_neq _ _) Ht). }
  unfold event_replayable, replay_index. rewrite Hl.
  unfold register_ok, register_outside in Hreg.
  assert (forall r, event_register k e = Some r -> r < N.of_nat (register_count k) ->
    decides
      (digest ← ok_or (digests e !! alg) (Unsupported "event missing replay bank");
       value ← unwrap (values st !! r); value ← hash alg (value ++ digest);
       Ok {| values := <[r := value]> (values st);
             pcr0_extended := pcr0_extended st || (is_tpm k && (register_index e =? 0));
             locality_seen := locality_seen st |})
      (is_Some (digests e !! alg)) (replay_inv k alg (pre ++ [e]))) as Hext.
  { intros r Hr Hlt. destruct (digests e !! alg) as [d|] eqn:Hd; [|by intros []].
    cbn [ok_or mbind res_bind]. rewrite (inv_values _ _ _ _ HI r), (proj2 (N.ltb_lt _ _) Hlt).
    cbn [unwrap mbind res_bind]. rewrite hash_supported by done. cbn. split; [done|].
    by eapply replay_inv_extend. }
  destruct k; cbn in *.
  - destruct (N.ltb_spec 15 (register_index e)) as [Hgt|Hle]; cbn.
    + split; [naive_solver|]. apply replay_inv_inert; [done|done|]. intros r Hr.
      cbn in Hr. apply contribution_None. right. cbn. intros [= ?]. lia.
    + eapply decides_iff; [apply Hext; [done|lia]| |auto].
      split; [intros; split; [done|by right]|]. intros [_ [[_ ?]|?]]%(fun f => f Ht); [lia|done].
  - destruct (N.eqb_spec (register_index e) 0) as [H0|H0]; cbn.
    + intros [Hn _]%(fun f => f Ht). by apply Hn.
    + bools. eapply decides_iff; [apply Hext; [|lia]| |auto].
      * apply checked_sub_Some. split; [done|lia].
      * split; [intros; split; [done|by right]|]. by intros [_ [[? _]|?]]%(fun f => f Ht).
Qed.

Context {HL : Sha2Laws H}.

Definition replayable (log : EventLog) (algorithm : N) : Prop :=
  bank_supported algorithm /\
  algorithms log !! algorithm = Some (N.of_nat (bank_size algorithm)) /\
  (is_tdx (kind log) = true -> algorithm = TPM_ALG_SHA384) /\
  forall pre e post, events log = pre ++ e :: post ->
    event_replayable (kind log) algorithm pre e.

Definition registers_of (log : EventLog) (algorithm r : N) : option bytes :=
  if r <? N.of_nat (register_count (kind log))
  then Some (replayed_value (kind log) algorithm r (events log)) else None.

Lemma reset_value_zero sz : (0 < sz)%nat -> reset_value sz x00 = replicate sz x00.
Proof.
  intros Hs. unfold reset_value. change [x00] with (replicate 1 x00).
  rewrite <- replicate_add. f_equal. lia.
Qed.

Lemma initial_values_lookup k sz r :
  initial_values k sz !! r =
  if r <? N.of_nat (register_count k) then Some (replicate sz x00) else None.
Proof.
  unfold initial_values. destruct (N.ltb_spec r (N.of_nat (register_count k))) as [Hr|Hr].
  - apply elem_of_list_to_map_1.
    + rewrite <- list_fmap_compose. apply NoDup_fmap; [intros ? ?; cbn; lia|apply NoDup_seq].
    + apply list_elem_of_fmap. exists (N.to_nat r). rewrite N2Nat.id. split; [done|].
      apply elem_of_seq. lia.
  - apply not_elem_of_list_to_map_1. rewrite <- list_fmap_compose.
    intros (i & -> & Hi%elem_of_seq)%list_elem_of_fmap. cbn in Hr. lia.
Qed.

Lemma replay_inv_init k alg :
  replay_inv k alg [] {| values := initial_values k (bank_size alg);
    pcr0_extended := false; locality_seen := false |}.
Proof.
  split; [|done|done]. intros r. cbn [values]. rewrite initial_values_lookup.
  case_match; [|done]. unfold replayed_value. cbn. rewrite <- reset_value_zero by apply bank_size_pos.
  by destruct (r =? 0).
Qed.

#[local] Instance bank_supported_dec alg : Decision (bank_supported alg).
Proof. unfold bank_supported. apply _. Defined.

Lemma hash_unsupported alg b : ~ bank_supported alg -> exists e, hash alg b = Err e.
Proof. unfold hash, bank_supported. intros Hn. repeat case_match; bools; naive_solver. Qed.

Lemma decides_replay log alg :
  Forall (register_ok (kind log)) (events log) ->
  decides (replay log alg) (replayable log alg)
    (fun rp => forall r, registers rp !! r = registers_of log alg r).
Proof.
  intros Hreg. unfold replay, replayable.
  destruct (decide (bank_supported alg)) as [Hs|Hs].
  2: { destruct (hash_unsupported alg [] Hs) as [e ->]. cbn. naive_solver. }
  rewrite hash_supported, res_bind_Ok by done. cbv zeta. unfold blen. rewrite length_bank.
  eapply decides_iff.
  - eapply (decides_bind _ _ _ (_ /\ _)).
    { eapply (decides_reject_if _ _ (algorithms log !! alg = Some (N.of_nat (bank_size alg)))
        (fun _ => True)); [by bools|done]. }
    intros _ _ _ _. eapply (decides_bind _ _ _ _).
    { eapply (decides_reject_if _ _ (is_tdx (kind log) = true -> alg = TPM_ALG_SHA384)
        (fun _ => True)); [|done]. destruct (is_tdx _); bools; naive_solver. }
    intros _ _ _ _.
    eapply (decides_then _ _ _ _ (fun rp => forall r, registers rp !! r = registers_of log alg r)).
    + eapply (decides_for_each _ (replay_inv (kind log) alg) (event_replayable (kind log) alg)).
      * apply replay_inv_init.
      * intros pre e post a Hl HI. apply decides_replay_event; [done|done|].
        rewrite Hl, Forall_app, Forall_cons in Hreg. apply Hreg.
    + intros st _ _ HI. eexists. split; [done|]. exact (inv_values _ _ _ _ HI).
  - naive_solver.
  - auto.
Qed.

(** ** Verification *)
Definition replays_in (log : EventLog) (keys : list (N * N)) (m : gmap N UnverifiedReplay) : Prop :=
  (forall a i, (a, i) ∈ keys -> is_Some (m !! a)) /\
  (forall a rp, m !! a = Some rp ->
     replayable log a /\ forall r, registers rp !! r = registers_of log a r).

Lemma decides_replay_banks log keys :
  Forall (register_ok (kind log)) (events log) ->
  decides (for_each (replay_bank log) ∅ keys)
    (forall key, key ∈ keys -> replayable log key.1) (replays_in log keys).
Proof.
  intros Hreg. eapply decides_iff.
  - apply (decides_for_each _ (replays_in log) (fun _ key => replayable log key.1)).
    + split; [set_solver|done].
    + intros pre [a i] post m Hl [Hin Hm]. cbn. unfold replay_bank. cbn [fst].
      destruct (m !! a) as [rp|] eqn:Ha.
      { split; [by apply (Hm a rp)|]. split; [|done].
        intros a' i' [?|[= -> ->]%list_elem_of_singleton]%elem_of_app; eauto. }
      eapply decides_then; [by apply decides_replay|].
      intros rp _ Hrp Hregs. eexists. split; [done|]. split.
      * intros a' i' [Hp|[= -> ->]%list_elem_of_singleton]%elem_of_app.
        { destruct (decide (a = a')) as [<-|]; [rewrite lookup_insert_eq; eauto|].
          rewrite lookup_insert_ne by done. eauto. }
        rewrite lookup_insert_eq. eauto.
      * intros a' rp' [[<- <-]|[_ ?]]%lookup_insert_Some; auto.
  - apply (forall_split (fun key => replayable log key.1)).
  - auto.
Qed.

(** The value the quote reports for a register is the value the log replays to. *)
Definition register_matches (log : EventLog) (key : N * N) (wanted : bytes) : Prop :=
  replayable log key.1 /\ registers_of log key.1 key.2 = Some wanted.

Lemma decides_check_register log keys replayed a i w :
  replays_in log keys replayed -> (a, i) ∈ keys ->
  decides (check_register replayed tt ((a, i), w)) (register_matches log (a, i) w) (fun _ => True).
Proof.
  intros [Hin Hm] Hk. destruct (Hin _ _ Hk) as [rp Hrp]. destruct (Hm _ _ Hrp) as [Hr Hregs].
  unfold check_register, register_matches. rewrite Hrp. cbn [unwrap mbind res_bind fst snd].
  rewrite Hregs. destruct (registers_of log a i) as [actual|]; cbn; [|naive_solver].
  destruct (N.eqb_spec (blen w) (blen actual)) as [Hl|Hl]; cbn.
  - destruct (bytes_eqb actual w) eqn:Heq; cbn.
    + apply bytes_eqb_eq in Heq. by subst.
    + apply bytes_eqb_neq in Heq. naive_solver.
  - intros [_ [= ->]]. done.
Qed.

Definition log_matches (log : EventLog) (expected : AuthenticatedRegisters) : Prop :=
  kind log = auth_kind expected /\ auth_values expected <> ∅ /\
  forall key w, auth_values expected !! key = Some w -> register_matches log key w.

Lemma decides_verify log expected :
  Forall (register_ok (kind log)) (events log) ->
  decides (verify log expected) (log_matches log expected)
    (fun v => vlog v = log /\ covered v = dom (auth_values expected)).
Proof.
  intros Hreg. unfold verify. destruct (bool_decide (kind log = _)) eqn:Hk; bools; cbn;
    [|by intros [? _]].
  destruct (bool_decide (auth_values expected = ∅)) eqn:He; bools; cbn; [by intros (_ & ? & _)|].
  pose proof (decides_replay_banks log (btree_keys pair_le (auth_values expected)) Hreg) as Hb.
  destruct (for_each (replay_bank log) _ _) as [m|e| |]; cbn in *; try done.
  2: { intros (_ & _ & Hall). apply Hb. intros key (w & Hw)%elem_of_btree_keys.
       by apply (Hall key w). }
  destruct Hb as [Hrep Hin].
  pose proof (decides_for_all (check_register m)
    (fun kw => register_matches log kw.1 kw.2) (btree_iter pair_le (auth_values expected))) as Hc.
  assert (forall key w, (key, w) ∈ btree_iter pair_le (auth_values expected) <->
    auth_values expected !! key = Some w) as Hiter by (intros; apply elem_of_btree_iter).
  eapply (decides_iff _ _ _
    (fun v => vlog v = log /\ covered v = dom (auth_values expected)));
    [eapply decides_then; [apply Hc|]| |].
  - intros [[a i] w] Hx. apply (decides_check_register _ _ _ _ _ _ Hin).
    apply elem_of_btree_keys. exists w. by apply Hiter.
  - intros _ _ _ _. eexists. split; [done|]. exact (conj eq_refl eq_refl).
  - split.
    + intros Hall. split_and!; [done|done|]. intros key w Hw%Hiter. apply (Hall _ Hw).
    + intros (_ & _ & Hall) [key w] Hw%Hiter. by apply Hall.
  - auto.
Qed.

(** ** What a parsed log guarantees *)
Definition log_wf (log : EventLog) : Prop :=
  Forall (fun e => register_ok (kind log) e /\
    forall a d, digests e !! a = Some d -> algorithms log !! a = Some (blen d)) (events log).

Lemma register_outside_aael k aael r :
  register_outside k aael r = false -> register_outside k true r = false.
Proof. unfold register_outside. destruct k, aael; cbn; intros; bools; lia. Qed.

Lemma records_Forall P Q off es b :
  records P off es b -> (forall e ds, P e ds -> Q e) -> Forall Q es.
Proof. induction 1; constructor; eauto. Qed.

Lemma is_log_wf b k limits aael log : is_log b k limits aael log -> log_wf log.
Proof.
  intros [(hdr & body & tail & _ & _ & Hrec & _) Hk _ _ _]. unfold log_wf. rewrite Hk.
  eapply records_Forall; [exact Hrec|]. intros e ds Hev. split.
  - by eapply register_outside_aael, ev_register.
  - intros a d Hd. rewrite (ev_map _ _ _ _ _ _ Hev) in Hd.
    apply elem_of_list_to_map_2 in Hd. destruct (ev_digests _ _ _ _ _ _ Hev) as [_ Hall].
    rewrite Forall_forall in Hall. by apply (Hall (a, d) Hd).
Qed.

Lemma parse_wf b k limits aael log : parse b k limits aael = Ok log -> log_wf log.
Proof. intros Hp%parse_sound. by eapply is_log_wf. Qed.

Lemma log_wf_registers log : log_wf log -> Forall (register_ok (kind log)) (events log).
Proof. intros Hwf. eapply Forall_impl; [exact Hwf|]. cbn. tauto. Qed.

Lemma measured_sizes log alg r sz :
  log_wf log -> algorithms log !! alg = Some (N.of_nat sz) ->
  Forall (fun d => length d = sz) (measured (kind log) alg r (events log)).
Proof.
  intros Hwf Halg. apply Forall_forall. intros d (e & He & Hc)%list_elem_of_omap.
  apply contribution_register in Hc as (_ & _ & Hd). unfold log_wf in Hwf.
  rewrite Forall_forall in Hwf. destruct (Hwf e He) as [_ Hs]. apply Hs in Hd.
  rewrite Halg in Hd. injection Hd as Hd. unfold blen in Hd. lia.
Qed.

Lemma tpm_registers_safe vals : safe (AuthenticatedRegisters_tpm vals) (fun r => auth_kind r = Tpm2 /\ auth_values r = vals).
Proof.
  unfold AuthenticatedRegisters_tpm. apply safe_bind, safe_reject_if. intros _.
  eapply safe_seq; [apply (safe_for_each _ (fun _ => True)); [done|]|done].
  intros u [[alg i] d] _ _. unfold hash. wp. repeat case_match; wp; done.
Qed.

(** ** An extended register determines what was extended into it *)
Lemma length_foldl_extend alg i l :
  length i = bank_size alg -> length (foldl (extend alg) i l) = bank_size alg.
Proof.
  intros Hi. induction l as [|d l _] using rev_ind; [done|]. rewrite foldl_app. apply length_bank.
Qed.

(** The messages that extending a register of value [i] with the digests [l] hashes. *)
Fixpoint extend_messages (alg : N) (i : bytes) (l : list bytes) : list bytes :=
  match l with [] => [] | d :: l => (i ++ d) :: extend_messages alg (extend alg i d) l end.
Lemma extend_messages_app alg i l1 l2 :
  extend_messages alg i (l1 ++ l2) = extend_messages alg i l1 ++ extend_messages alg (foldl (extend alg) i l1) l2.
Proof. revert i. induction l1 as [|d l1 IH]; intros i; [done|]. cbn. by rewrite IH. Qed.

Lemma foldl_extend_binding alg i1 i2 l1 l2 :
  length i1 = bank_size alg -> length i2 = bank_size alg ->
  foldl (extend alg) i1 l1 = foldl (extend alg) i2 l2 ->
  (i1 = i2 /\ l1 = l2) \/
  collision_among (bank alg) (extend_messages alg i1 l1) (extend_messages alg i2 l2) \/
  preimage_among (bank alg) (extend_messages alg i2 l2) i1 \/
  preimage_among (bank alg) (extend_messages alg i1 l1) i2.
Proof.
  intros H1 H2. revert l2. induction l1 as [|d1 l1 IH] using rev_ind; intros l2.
  - destruct l2 as [|d2 l2 _] using rev_ind; [auto|].
    rewrite foldl_app, extend_messages_app. cbn. intros ->. right. right. left. eexists. split; [apply list_elem_of_last|done].
  - destruct l2 as [|d2 l2 _] using rev_ind; rewrite !foldl_app, !extend_messages_app; cbn.
    + intros <-. right. right. right. eexists. split; [apply list_elem_of_last|done].
    + intros [Heq|?]%(eq_or_collision (bank alg)); [|right; left; eexists _, _; split_and!; [apply list_elem_of_last..|done]].
      apply app_inj_1 in Heq as [Heq ->]; [|by rewrite !length_foldl_extend].
      apply IH in Heq as [[-> ->]|[Hc|[Hp|Hp]]]; [by left|right..].
      * left. eapply collision_among_mono, Hc; set_solver.
      * right. left. eapply preimage_among_mono, Hp; set_solver.
      * right. right. eapply preimage_among_mono, Hp; set_solver.
Qed.

(** The messages that replaying a log hashes for a register. *)
Definition register_messages (k : LogKind) (alg r : N) (evs : list Event) : list bytes :=
  extend_messages alg (reset_value (bank_size alg) (if r =? 0 then locality k evs else x00))
    (measured k alg r evs).
(** Two logs that a replay of register [r] does not separate: two of the messages
    hashed collide, or one of them hashes to a reset value. *)
Definition replay_broken (log1 log2 : EventLog) (alg r : N) : Prop :=
  let ms log := register_messages (kind log) alg r (events log) in
  collision_among (bank alg) (ms log1) (ms log2) \/
  exists loc, preimage_among (bank alg) (ms log1 ++ ms log2) (reset_value (bank_size alg) loc).

Lemma register_value_binding log1 log2 alg r w :
  log_wf log1 -> log_wf log2 -> kind log1 = kind log2 ->
  register_matches log1 (alg, r) w -> register_matches log2 (alg, r) w ->
  measured (kind log1) alg r (events log1) = measured (kind log2) alg r (events log2) \/
  replay_broken log1 log2 alg r.
Proof.
  unfold register_matches, registers_of, replay_broken, register_messages. cbn. intros Hw1 Hw2 Hk [Hr1 Hv1] [Hr2 Hv2].
  rewrite Hk in *. case_match; [|done].
  injection Hv1 as <-. injection Hv2 as Hv2. symmetry in Hv2. unfold replayed_value in Hv2.
  apply foldl_extend_binding in Hv2; [|apply length_reset_value, bank_size_pos..].
  destruct Hv2 as [[_ ?]|[Hc|[Hp|Hp]]]; [by left|right..].
  - by left.
  - right. eexists. eapply preimage_among_mono, Hp. set_solver.
  - right. eexists. eapply preimage_among_mono, Hp. set_solver.
Qed.

(** ** Metadata *)

(** Events that differ only in what no register measures. *)
Definition same_measurement (k : LogKind) (e1 e2 : Event) : Prop :=
  register_index e1 = register_index e2 /\ digests e1 = digests e2 /\
  (reported_event_type e1 = EV_NO_ACTION <-> reported_event_type e2 = EV_NO_ACTION) /\
  (is_tpm k = true -> reported_event_type e1 = EV_NO_ACTION ->
   untrusted_event_data e1 = untrusted_event_data e2).

Lemma replay_event_same k alg sz st e1 e2 :
  same_measurement k e1 e2 -> replay_event k alg sz st e1 = replay_event k alg sz st e2.
Proof.
  intros (Hr & Hd & Ht & Hdata). unfold replay_event, replay_index, replay_locality.
  rewrite Hr, Hd.
  destruct (N.eqb_spec (reported_event_type e1) EV_NO_ACTION) as [He|He],
    (N.eqb_spec (reported_event_type e2) EV_NO_ACTION) as [He'|He']; try tauto.
  destruct (is_tpm k); [|done]. by rewrite Hdata.
Qed.

Lemma replay_same log1 log2 alg :
  kind log1 = kind log2 -> algorithms log1 = algorithms log2 ->
  Forall2 (same_measurement (kind log1)) (events log1) (events log2) ->
  replay log1 alg = replay log2 alg.
Proof.
  intros Hk Ha Hev. unfold replay. rewrite <- Hk, <- Ha.
  assert (forall sz st, for_each (replay_event (kind log1) alg sz) st (events log1)
    = for_each (replay_event (kind log1) alg sz) st (events log2)) as Hf.
  2: { destruct (hash alg []); [|done..]. cbn. by rewrite Hf. }
  intros sz. induction Hev as [|e1 e2 l1 l2 He Hl IH]; intros st; [done|]. cbn.
  rewrite (replay_event_same _ _ _ _ _ _ He). destruct (replay_event _ _ _ _ _); cbn; auto.
Qed.

Lemma verify_Ok log expected v :
  log_wf log -> verify log expected = Ok v ->
  log_matches log expected /\ vlog v = log /\ covered v = dom (auth_values expected).
Proof.
  intros Hwf Hv. pose proof (decides_verify log expected (log_wf_registers _ Hwf)) as Hd.
  by rewrite Hv in Hd.
Qed.

Lemma authenticated_digest_Ok v i alg d :
  authenticated_digest v i alg = Ok d ->
  exists pre e post r, events (vlog v) = pre ++ e :: post /\ blen pre = i /\
    contribution (kind (vlog v)) alg r e = Some d /\ (alg, r) ∈ covered v.
Proof.
  unfold authenticated_digest. intros Ha. inv_res. bools.
  match goal with Hg : get _ _ = Some ?e |- _ =>
    apply get_split in Hg as (pre & post & Hev & <-) end.
  do 4 eexists. split; [exact Hev|]. split; [done|]. split; [by apply contribution_Some|done].
Qed.

Lemma authenticated_digest_get v i alg d e :
  authenticated_digest v i alg = Ok d -> get (events (vlog v)) i = Some e ->
  digests e !! alg = Some d.
Proof. unfold authenticated_digest. intros Ha Hg. rewrite Hg in Ha. by inv_res. Qed.

Lemma measured_split k alg r pre e post d :
  contribution k alg r e = Some d ->
  measured k alg r (pre ++ e :: post) = measured k alg r pre ++ d :: measured k alg r post.
Proof. intros Hc. unfold measured. rewrite omap_app. cbn. by rewrite Hc. Qed.

(** A firmware-only TDX log names no register above RTMR2. *)
Lemma firmware_log_rtmr3 b limits log alg :
  parse b TdxCcel limits false = Ok log -> measured TdxCcel alg 3 (events log) = [].
Proof.
  intros Hp%parse_sound. destruct Hp as [(hdr & body & tail & _ & _ & Hrec & _) _ _ _ _].
  assert (Forall (fun e => register_index e <= 3) (events log)) as Hall.
  { eapply records_Forall; [exact Hrec|]. intros e ds Hev.
    pose proof (ev_register _ _ _ _ _ _ Hev) as Hr. cbn in Hr. by bools. }
  clear Hrec. unfold measured. induction Hall as [|e es He _ IH]; [done|]. cbn.
  rewrite contribution_None; [exact IH|]. right. cbn. intros [? ?]%checked_sub_Some. lia.
Qed.

(** * Properties *)

(** C6: replaying a parsed log neither panics nor fails except on a log that
    extension cannot reconstruct ([replayable]: an unsupported bank, a measured
    MRTD event, a missing bank, an invalid or late startup locality), and then
    every PCR/RTMR holds the fold of the extend operation over exactly the digests
    the log attributes to it, starting at the locality-dependent reset value. *)
Theorem replay_refines b k limits aael log alg :
  parse b k limits aael = Ok log ->
  decides (replay log alg) (replayable log alg)
    (fun rp => forall r, registers rp !! r = registers_of log alg r).
Proof. intros Hp%parse_wf. by apply decides_replay, log_wf_registers. Qed.

(** C5: [EventLog::verify] accepts a parsed log exactly when it is of the quoted
    platform, the quote selects at least one register, and every selected register
    has the value the log replays to; it never panics, and the verified log covers
    exactly the selected registers. *)
Theorem verify_exact b k limits aael log expected :
  parse b k limits aael = Ok log ->
  decides (verify log expected) (log_matches log expected)
    (fun v => vlog v = log /\ covered v = dom (auth_values expected)).
Proof. intros Hp%parse_wf. by apply decides_verify, log_wf_registers. Qed.

(** Tamper evidence.  Two logs that verify against the same authenticated
    registers claim the same digest sequence for every covered register (nothing
    dropped, added, changed or reordered), unless among the messages that the two
    replays of this register hash there is a collision, or a preimage of a reset value. *)
Theorem boot_log_binding b1 b2 k1 k2 limits1 limits2 aael1 aael2 log1 log2 expected v1 v2 alg r :
  parse b1 k1 limits1 aael1 = Ok log1 -> parse b2 k2 limits2 aael2 = Ok log2 ->
  verify log1 expected = Ok v1 -> verify log2 expected = Ok v2 ->
  (alg, r) ∈ covered v1 ->
  measured k1 alg r (events log1) = measured k2 alg r (events log2) \/ replay_broken log1 log2 alg r.
Proof.
  intros Hp1 Hp2 Hv1 Hv2 Hc. pose proof (log_kind _ _ _ _ _ (parse_sound _ _ _ _ _ Hp1)) as <-.
  pose proof (log_kind _ _ _ _ _ (parse_sound _ _ _ _ _ Hp2)) as <-.
  apply parse_wf in Hp1, Hp2.
  apply verify_Ok in Hv1 as ((Hk1 & _ & Hm1) & _ & Hcov); [|done].
  apply verify_Ok in Hv2 as ((Hk2 & _ & Hm2) & _ & _); [|done].
  rewrite Hcov, elem_of_dom in Hc. destruct Hc as [w Hw].
  apply (register_value_binding log1 log2 alg r w); auto. congruence.
Qed.

(** A digest handed out by [authenticated_digest] is bound by the quote: it is
    the digest of the event at that position, a link of the extend chain of a
    covered register whose final value is the one the quote reports. *)
Theorem authenticated_digest_bound b k limits aael log expected v i alg d :
  parse b k limits aael = Ok log -> verify log expected = Ok v ->
  authenticated_digest v i alg = Ok d ->
  exists pre e post r,
    events log = pre ++ e :: post /\ blen pre = i /\
    measured k alg r (events log) = measured k alg r pre ++ d :: measured k alg r post /\
    auth_values expected !! (alg, r) = Some (replayed_value k alg r (events log)).
Proof.
  intros Hp Hv Ha. pose proof (log_kind _ _ _ _ _ (parse_sound _ _ _ _ _ Hp)) as Hk.
  apply parse_wf in Hp. apply verify_Ok in Hv as ((_ & _ & Hm) & Hlog & Hcov); [|done].
  apply authenticated_digest_Ok in Ha as (pre & e & post & r & Hev & Hi & Hc & Hin).
  rewrite Hlog, Hk in *. exists pre, e, post, r. split; [done|]. split; [done|].
  rewrite Hcov, elem_of_dom in Hin. destruct Hin as [w Hw]. split.
  - rewrite Hev. by apply measured_split.
  - destruct (Hm _ _ Hw) as [_ Hreg]. unfold registers_of in Hreg. cbn in Hreg.
    rewrite Hk in Hreg. case_match; [|done]. rewrite Hw. congruence.
Qed.

(** A firmware-only CCEL ([parse_tdx_ccel], no AAEL extension) verifies only
    against a quote whose RTMR3 was never extended: its value is all zero. *)
Theorem firmware_log_needs_zero_rtmr3 b limits log expected v w :
  parse_tdx_ccel b limits = Ok log -> verify log expected = Ok v ->
  auth_values expected !! (TPM_ALG_SHA384, 3) = Some w -> w = replicate 48 x00.
Proof.
  intros Hp Hv Hw. pose proof (log_kind _ _ _ _ _ (parse_sound _ _ _ _ _ Hp)) as Hk.
  pose proof (firmware_log_rtmr3 _ _ _ TPM_ALG_SHA384 Hp) as Hm.
  apply parse_wf in Hp. apply verify_Ok in Hv as ((_ & _ & Hall) & _ & _); [|done].
  destruct (Hall _ _ Hw) as [_ Hreg]. unfold registers_of in Hreg. rewrite Hk in Hreg.
  injection Hreg as <-. unfold replayed_value. by rewrite Hm.
Qed.

(** Metadata is malleable: changing the reported type or the data of measuring
    events, and the data of any no-action event of a TDX log, changes no replayed
    register, so the replay authenticates digests and nothing else. *)
Theorem replay_ignores_metadata log1 log2 alg :
  kind log1 = kind log2 -> algorithms log1 = algorithms log2 ->
  Forall2 (same_measurement (kind log1)) (events log1) (events log2) ->
  replay log1 alg = replay log2 alg.
Proof. apply replay_same. Qed.

(** Content authentication is binding: two byte strings accepted by
    [verify_measured_bytes] for one event and bank are equal, or collide with each other. *)
Theorem measured_bytes_binding v i alg x y :
  verify_measured_bytes v i alg x = Ok tt -> verify_measured_bytes v i alg y = Ok tt ->
  x = y \/ collision (bank alg) x y.
Proof.
  unfold verify_measured_bytes. intros Hx Hy. inv_res.
  repeat match goal with E : hash _ _ = Ok _ |- _ => apply hash_Ok in E as [_ ->] end.
  bools. rewrite ?bytes_eqb_eq in *. apply eq_or_collision. congruence.
Qed.
End Replay.

(** * Witnesses *)
#[local] Existing Instance toy_sha2_laws.
Definition sample_registers : AuthenticatedRegisters := {|
  auth_kind := Tpm2;
  auth_values := {[ (TPM_ALG_SHA256, 8) :=
    extend (H:=toy_sha2) TPM_ALG_SHA256 (replicate 32 x00) (replicate 32 x01) ]} |}.
Definition sample_parsed : EventLog := {|
  kind := Tpm2; algorithms := {[TPM_ALG_SHA256 := 32]};
  events := [sample_event 65 8 EV_IPL TPM_ALG_SHA256 (replicate 32 x01) (lit "kernel_cmdline: quiet")];
  consumed_bytes := 136 |}.

Lemma sample_parse : parse sample_tpm_log Tpm2 default_limits false = Ok sample_parsed.
Proof. vm_compute. reflexivity. Qed.
Definition sample_verified : VerifiedBootLog :=
  {| vlog := sample_parsed; covered := {[(TPM_ALG_SHA256, 8)]} |}.
Lemma sample_verify : verify (H:=toy_sha2) sample_parsed sample_registers = Ok sample_verified.
Proof. vm_compute. reflexivity. Qed.

Lemma replay_refines_witness :
  decides (replay (H:=toy_sha2) sample_parsed TPM_ALG_SHA256)
    (replayable sample_parsed TPM_ALG_SHA256)
    (fun rp => forall r, registers rp !! r
       = registers_of (H:=toy_sha2) sample_parsed TPM_ALG_SHA256 r) /\
  is_ok (replay (H:=toy_sha2) sample_parsed TPM_ALG_SHA256) = true.
Proof.
  split; [|vm_compute; reflexivity].
  exact (replay_refines _ _ _ _ _ TPM_ALG_SHA256 sample_parse).
Defined.

Lemma verify_exact_witness :
  log_matches (H:=toy_sha2) sample_parsed sample_registers.
Proof.
  pose proof (verify_exact (H:=toy_sha2) _ _ _ _ _ sample_registers sample_parse) as Hd.
  rewrite sample_verify in Hd. exact (proj1 Hd).
Defined.

Lemma boot_log_binding_witness :
  let m := measured Tpm2 TPM_ALG_SHA256 8 (events sample_parsed) in
  m = m \/ replay_broken (H:=toy_sha2) sample_parsed sample_parsed TPM_ALG_SHA256 8.
Proof.
  apply (boot_log_binding (H:=toy_sha2) _ _ _ _ _ _ _ _ _ _ _ _ _ TPM_ALG_SHA256 8
    sample_parse sample_parse sample_verify sample_verify).
  reflexivity.
Defined.

Lemma authenticated_digest_bound_witness :
  exists pre e post r,
    events sample_parsed = pre ++ e :: post /\ blen pre = 0 /\
    measured Tpm2 TPM_ALG_SHA256 r (events sample_parsed)
    = measured Tpm2 TPM_ALG_SHA256 r pre ++ replicate 32 x01 :: measured Tpm2 TPM_ALG_SHA256 r post /\
    auth_values sample_registers !! (TPM_ALG_SHA256, r)
    = Some (replayed_value (H:=toy_sha2) Tpm2 TPM_ALG_SHA256 r (events sample_parsed)).
Proof.
  apply (authenticated_digest_bound (H:=toy_sha2) _ _ _ _ _ _ _ 0 TPM_ALG_SHA256 (replicate 32 x01)
    sample_parse sample_verify).
  vm_compute. reflexivity.
Defined.

Definition sample_ccel_log : bytes :=
  sample_header TPM_ALG_SHA384 48
  ++ encode_event (sample_event 0 3 EV_IPL TPM_ALG_SHA384 (replicate 48 x01) (lit "x"))
       [(TPM_ALG_SHA384, replicate 48 x01)]
  ++ replicate 5 xff.
Definition sample_ccel_parsed : EventLog := {|
  kind := TdxCcel; algorithms := {[TPM_ALG_SHA384 := 48]};
  events := [sample_event 65 3 EV_IPL TPM_ALG_SHA384 (replicate 48 x01) (lit "x")];
  consumed_bytes := 132 |}.
Definition sample_rtmrs : AuthenticatedRegisters :=
  AuthenticatedRegisters_tdx (replicate 48 x00) (replicate 48 x00)
    (extend (H:=toy_sha2) TPM_ALG_SHA384 (replicate 48 x00) (replicate 48 x01))
    (replicate 48 x00).

Lemma firmware_log_needs_zero_rtmr3_witness :
  exists v, verify (H:=toy_sha2) sample_ccel_parsed sample_rtmrs = Ok v /\
    replicate 48 x00 = replicate 48 x00.
Proof.
  eexists. split; [vm_compute; reflexivity|].
  eapply (firmware_log_needs_zero_rtmr3 (H:=toy_sha2) sample_ccel_log default_limits
    sample_ccel_parsed sample_rtmrs).
  - vm_compute. reflexivity.
  - vm_compute. reflexivity.
  - vm_compute. reflexivity.
Defined.

Definition sample_relabelled : EventLog := {|
  kind := Tpm2; algorithms := {[TPM_ALG_SHA256 := 32]};
  events := [sample_event 65 8 0x80000001 TPM_ALG_SHA256 (replicate 32 x01) (lit "anything")];
  consumed_bytes := 136 |}.
Lemma replay_ignores_metadata_witness :
  replay (H:=toy_sha2) sample_parsed TPM_ALG_SHA256
  = replay (H:=toy_sha2) sample_relabelled TPM_ALG_SHA256.
Proof.
  apply (replay_ignores_metadata (H:=toy_sha2)); [reflexivity|reflexivity|].
  constructor; [|constructor]. split; [done|]. split; [done|]. by split.
Defined.

Definition sample_content : EventLog := {|
  kind := Tpm2; algorithms := {[TPM_ALG_SHA256 := 32]};
  events := [sample_event 65 8 EV_IPL TPM_ALG_SHA256 (sha256 (Sha2:=toy_sha2) (lit "quiet")) []];
  consumed_bytes := 0 |}.
Lemma measured_bytes_binding_witness :
  lit "quiet" = lit "quiet" \/ collision (bank (H:=toy_sha2) TPM_ALG_SHA256) (lit "quiet") (lit "quiet").
Proof.
  apply (measured_bytes_binding (H:=toy_sha2)
    {| vlog := sample_content; covered := {[(TPM_ALG_SHA256, 8)]} |} 0 TPM_ALG_SHA256);
    vm_compute; reflexivity.
Defined.
