(* ===== verification/CommandLine.v ===== *)
(** * CommandLine: measured kernel command lines and the CCEL table
    ([src/v2/src/boot.rs])

    [VerifiedBootLog::authenticated_command_line],
    [MeasuredCommandLine::verify_dm_verity], [CcelTable::parse] and the bounded
    readers in front of the log parser. *)
From S2P Require Import Prelude Bytes Text Crypto Boot Aael EventLog Replay.

Inductive CommandLineProfile : Type := Grub | SystemdLoadOptions | SystemdUkiEmbedded.

Record MeasuredCommandLine : Type := {
  mcl_event_index : N;
  mcl_algorithm : N;
  mcl_profile : CommandLineProfile;
  command_line : bytes;
}.

Record DmVerityCommitment : Type := {
  dm_event_index : N;
  measurement_algorithm : N;
  root_digest_hex : bytes;
  dm_command_line : bytes;
}.

(** ** dm-verity commitment *)
Definition unsupported_syntax (c : N) : bool :=
  (c =? 0x27) || (c =? 0x22) || (c =? 0x5c)
  || (char_is_control c && negb ((c =? 0x20) || (c =? 0x09))).

Definition verity_disabled (token : bytes) : bool :=
  existsb (bytes_eqb token)
    [lit "systemd.verity=0"; lit "systemd.verity=no"; lit "systemd.verity=false";
     lit "systemd.verity=off"; lit "rd.systemd.verity=0"; lit "rd.systemd.verity=no";
     lit "rd.systemd.verity=false"; lit "rd.systemd.verity=off"].

(** The loop over the tokens, which stops at [--]. *)
Fixpoint scan_roothash (tokens : list bytes) (root : option bytes) :
    res BootError (option bytes) :=
  match tokens with
  | [] => Ok root
  | token :: tokens =>
    if bytes_eqb token (lit "--") then Ok root
    else if verity_disabled token then Err (CommandLine "dm-verity explicitly disabled")
    else match strip_prefix (lit "roothash=") token with
         | Some encoded =>
           reject_if (if root is Some _ then true else false)
             (CommandLine "duplicate roothash argument");;
           digest ← ok_or (hex_decode encoded) (CommandLine "invalid roothash hex");
           scan_roothash tokens (Some digest)
         | None => scan_roothash tokens root
         end
  end.

Definition verify_dm_verity (m : MeasuredCommandLine) (expected_root_digest : bytes) :
    res BootError DmVerityCommitment :=
  let len := blen expected_root_digest in
  reject_if (negb ((len =? 32) || (len =? 48) || (len =? 64)))
    (CommandLine "unsupported expected root digest length");;
  reject_if (existsb unsupported_syntax (chars (command_line m)))
    (CommandLine "quoted, escaped, or control-character syntax is unsupported");;
  root ← scan_roothash (split_ascii_whitespace (command_line m)) None;
  root ← ok_or root (CommandLine "missing measured roothash");
  reject_if (negb (bytes_eqb root expected_root_digest)) VerityRootMismatch;;
  Ok {| dm_event_index := mcl_event_index m; measurement_algorithm := mcl_algorithm m;
        root_digest_hex := hex_encode root; dm_command_line := command_line m |}.

(** ** Command line of an approved loader *)
Section CommandLine.
Context {H : Sha2}.

Definition grub_command_line (v : VerifiedBootLog) (event algorithm : N) (e : Event) :
    res BootError bytes :=
  text ← ok_or (strip_suffix_byte x00 (untrusted_event_data e))
           (CommandLine "missing GRUB terminator");
  measured ← ok_or (strip_prefix (lit "kernel_cmdline: ") text)
               (CommandLine "missing GRUB kernel command line description");
  verify_measured_bytes v event algorithm measured;;
  ok_or (from_utf8 measured) (CommandLine "invalid UTF-8").

Definition load_options_command_line (v : VerifiedBootLog) (event algorithm : N) (e : Event) :
    res BootError bytes :=
  let data := untrusted_event_data e in
  verify_measured_bytes v event algorithm data;;
  reject_if ((blen data <? 2) || negb (blen data mod 2 =? 0)) (CommandLine "invalid UTF-16 length");;
  let words := le_words data in
  reject_if (negb (bool_decide (last words = Some 0)) || existsb (N.eqb 0) (removelast words))
    (CommandLine "invalid UTF-16 termination");;
  ok_or (from_utf16 (removelast words)) (CommandLine "invalid UTF-16").

Definition authenticated_command_line (v : VerifiedBootLog) (event algorithm : N)
    (profile : CommandLineProfile) : res BootError MeasuredCommandLine :=
  (if profile is SystemdUkiEmbedded
   then Err (Unsupported "UKI command line requires verified section-name/data pairs")
   else Ok tt);;
  e ← ok_or (get (events (vlog v)) event) (UnauthenticatedEvent event);
  expected_register ←
    match kind (vlog v), profile with
    | Tpm2, Grub => Ok 8
    | Tpm2, SystemdLoadOptions => Ok 12
    | Tpm2, SystemdUkiEmbedded => Panic
    | TdxCcel, _ => Ok 3
    end;
  reject_if (negb (register_index e =? expected_register) || negb (reported_event_type e =? EV_IPL))
    (CommandLine "event is outside selected loader profile");;
  text ←
    match profile with
    | Grub => grub_command_line v event algorithm e
    | SystemdLoadOptions => load_options_command_line v event algorithm e
    | SystemdUkiEmbedded => Panic
    end;
  reject_if (existsb (N.eqb 0) (chars text)) (CommandLine "embedded NUL");;
  Ok {| mcl_event_index := event; mcl_algorithm := algorithm; mcl_profile := profile;
        command_line := text |}.

Definition verified_dm_verity (v : VerifiedBootLog) (event algorithm : N)
    (profile : CommandLineProfile) (expected_root_digest : bytes) :
    res BootError DmVerityCommitment :=
  m ← authenticated_command_line v event algorithm profile;
  verify_dm_verity m expected_root_digest.
End CommandLine.

(** ** The ACPI CCEL table *)
Record CcelTable : Type := {
  log_area_minimum_length : N;
  log_area_start_address : N;
}.

Definition byte_sum (b : bytes) : N := foldl (fun sum x => (sum + byte_N x) mod 256) 0 b.

Definition CcelTable_parse (b : bytes) (limits : ParseLimits) : res BootError CcelTable :=
  reject_if (negb (blen b =? 56) || negb (bool_decide (get_range b 0 4 = Some (lit "CCEL"))))
    (Malformed 0 "invalid CCEL ACPI signature or size");;
  len ← index_range b 4 8; len ← expect_len 4 len;
  revision ← index b 8;
  ty ← index_range b 36 40;
  reject_if (negb (le_to_N len =? 56) || negb (byte_N revision =? 1)
             || negb (byte_sum b =? 0) || negb (bytes_eqb ty [x02; x00; x00; x00]))
    (Malformed 4 "invalid CCEL ACPI length, revision, checksum or TDX type");;
  min_len ← index_range b 40 48; min_len ← expect_len 8 min_len;
  start ← index_range b 48 56; start ← expect_len 8 start;
  let min_len := le_to_N min_len in
  let start := le_to_N start in
  reject_if ((min_len =? 0) || (max_log_bytes limits <? min_len)) (Limit "CCEL log area");;
  ok_or (checked_add u64_max start min_len) (Limit "CCEL physical address");;
  Ok {| log_area_minimum_length := min_len; log_area_start_address := start |}.

(** ** Bounded files

    A file is its content, [None] when it cannot be opened or read. *)
Definition read_bounded (file : option bytes) (max : N) : res BootError bytes :=
  limit ← ok_or (checked_add usize_max max 1) (Limit "file bytes");
  content ← ok_or file Io;
  let b := take (N.to_nat (N.min limit (blen content))) content in
  reject_if (max <? blen b) (Limit "file bytes");;
  Ok b.

Definition read_tpm_event_log (file : option bytes) (limits : ParseLimits) :
    res BootError EventLog :=
  b ← read_bounded file (max_log_bytes limits); parse_tcg2 b limits.

Definition read_tdx_ccel (table_file data_file : option bytes) (limits : ParseLimits) :
    res BootError EventLog :=
  t ← read_bounded table_file 56;
  table ← CcelTable_parse t limits;
  data ← read_bounded data_file (max_log_bytes limits);
  reject_if (blen data <? log_area_minimum_length table)
    (Malformed (blen data) "CCEL data shorter than ACPI log area");;
  parse_tdx_ccel data limits.

(** * Specification *)
Fixpoint before_separator (tokens : list bytes) : list bytes :=
  match tokens with
  | [] => []
  | t :: ts => if bytes_eqb t (lit "--") then [] else t :: before_separator ts
  end.

(** The values of the [roothash=] arguments. *)
Definition roothashes (tokens : list bytes) : list bytes :=
  omap (strip_prefix (lit "roothash=")) tokens.

(** A command line that commits to exactly one dm-verity root. *)
Definition commits_root (line root : bytes) : Prop :=
  existsb unsupported_syntax (chars line) = false /\
  let args := before_separator (split_ascii_whitespace line) in
  Forall (fun t => verity_disabled t = false) args /\
  exists enc, roothashes args = [enc] /\ hex_decode enc = Some root.

(** The bytes a loader of the profile measures for a command line. *)
Definition measured_form (profile : CommandLineProfile) (line : bytes) : bytes :=
  match profile with
  | SystemdLoadOptions => u16s_to_le (encode_utf16 line ++ [0])
  | _ => line
  end.

(** * Lemmas *)
Lemma roothashes_cons t ts :
  roothashes (t :: ts) = match strip_prefix (lit "roothash=") t with
                         | Some enc => enc :: roothashes ts
                         | None => roothashes ts
                         end.
Proof. done. Qed.

Lemma scan_roothash_Ok tokens root r :
  scan_roothash tokens root = Ok r <->
  Forall (fun t => verity_disabled t = false) (before_separator tokens) /\
  match root, r with
  | None, None => roothashes (before_separator tokens) = []
  | None, Some d => exists enc, roothashes (before_separator tokens) = [enc]
                      /\ hex_decode enc = Some d
  | Some d, _ => roothashes (before_separator tokens) = [] /\ r = Some d
  end.
Proof.
  revert root. induction tokens as [|t ts IH]; intros root; cbn [scan_roothash before_separator].
  { cbn. destruct root, r; naive_solver. }
  destruct (bytes_eqb t (lit "--")) eqn:Hsep.
  { cbn. destruct root, r; naive_solver. }
  destruct (verity_disabled t) eqn:Hd.
  { split; [done|]. intros [Hf _]. inversion Hf. congruence. }
  rewrite Forall_cons, roothashes_cons.
  destruct (strip_prefix (lit "roothash=") t) as [enc|] eqn:Hp; [|rewrite IH; naive_solver].
  destruct root as [d0|]; cbn; [naive_solver|].
  destruct (hex_decode enc) as [d|] eqn:Hx; cbn.
  - rewrite IH. destruct r as [d'|]; split.
    + intros (Hf & Hr & [= ->]). rewrite Hr. split; [done|]. by exists enc.
    + intros ([_ Hf] & enc' & [= <- Hr] & Hx'). rewrite Hx in Hx'. by injection Hx' as ->.
    + by intros (_ & _ & ?).
    + by intros (_ & ?).
  - split; [done|]. destruct r as [d'|]; [|by intros (_ & ?)].
    intros (_ & enc' & [= <- _] & Hx'). congruence.
Qed.

Lemma verify_dm_verity_Ok m root c :
  verify_dm_verity m root = Ok c <->
  (blen root = 32 \/ blen root = 48 \/ blen root = 64) /\
  commits_root (command_line m) root /\
  c = {| dm_event_index := mcl_event_index m; measurement_algorithm := mcl_algorithm m;
         root_digest_hex := hex_encode root; dm_command_line := command_line m |}.
Proof.
  unfold verify_dm_verity, commits_root. split.
  - intros Hok. inv_res. bools. subst.
    match goal with E : scan_roothash _ _ = Ok _ |- _ => apply scan_roothash_Ok in E as [? ?] end.
    split; [tauto|]. split; [|done]. split; [done|]. by split.
  - intros (Hlen & (Hu & Hf & enc & Hr & Hx) & ->).
    cbv zeta. pass ltac:(bools; tauto). pass done.
    rewrite (proj2 (scan_roothash_Ok _ None (Some root))) by eauto.
    rewrite res_bind_Ok. cbn [ok_or]. rewrite res_bind_Ok.
    by pass ltac:(apply negb_false_iff; by apply bytes_eqb_eq).
Qed.

Lemma scan_roothash_safe tokens root : safe (scan_roothash tokens root) (fun _ => True).
Proof.
  revert root. induction tokens as [|t ts IH]; intros root; cbn [scan_roothash]; [done|].
  destruct (bytes_eqb t _); [done|]. destruct (verity_disabled t); [done|].
  destruct (strip_prefix _ t); [wp; apply IH|apply IH].
Qed.

Section CommandLineLemmas.
Context {H : Sha2}.

Lemma last_removelast (ws : list N) w : last ws = Some w -> ws = removelast ws ++ [w].
Proof.
  intros Hl. assert (ws <> []) as Hne by (by intros ->).
  destruct (exists_last Hne) as (l & x & ->). rewrite removelast_last, last_snoc in *. congruence.
Qed.

Lemma load_options_Ok v event alg e text :
  load_options_command_line v event alg e = Ok text ->
  verify_measured_bytes v event alg (untrusted_event_data e) = Ok tt /\
  untrusted_event_data e = measured_form SystemdLoadOptions text /\
  is_Some (utf8_decode text).
Proof.
  unfold load_options_command_line. intros Hok. inv_res. bools.
  match goal with E : last _ = Some 0 |- _ => apply last_removelast in E; rename E into Hl end.
  destruct (le_words_bytes (untrusted_event_data e)) as [Hb Hall]; [done|].
  rewrite Hl, Forall_app in Hall. destruct Hall as [Hall _].
  match goal with E : from_utf16 _ = Some _ |- _ => apply from_utf16_Some in E as [He Hs]; [|done] end.
  split; [done|]. split; [|done]. cbn [measured_form]. by rewrite He, <- Hl, Hb.
Qed.

Lemma grub_Ok v event alg e text :
  grub_command_line v event alg e = Ok text ->
  verify_measured_bytes v event alg text = Ok tt /\ is_Some (utf8_decode text) /\
  untrusted_event_data e = lit "kernel_cmdline: " ++ text ++ [x00].
Proof.
  unfold grub_command_line. intros Hok. inv_res.
  match goal with E : from_utf8 _ = Some _ |- _ => apply from_utf8_Some in E as [-> [cs Hcs]] end.
  split; [done|]. split; [by eexists|].
  match goal with E : strip_prefix _ _ = Some _ |- _ => apply strip_prefix_Some in E; subst end.
  match goal with E : strip_suffix_byte _ _ = Some _ |- _ => apply strip_suffix_byte_Some in E end.
  by rewrite app_assoc.
Qed.

Lemma verify_measured_bytes_Ok v event alg b :
  verify_measured_bytes v event alg b = Ok tt ->
  authenticated_digest v event alg = Ok (bank alg b).
Proof.
  unfold verify_measured_bytes. intros Hok. inv_res. bools. rewrite ?bytes_eqb_eq in *.
  match goal with E : hash _ _ = Ok _ |- _ => apply hash_Ok in E as [_ ->] end. congruence.
Qed.

Lemma authenticated_command_line_Ok v event alg profile m :
  authenticated_command_line v event alg profile = Ok m ->
  authenticated_digest v event alg = Ok (bank alg (measured_form profile (command_line m))) /\
  existsb (N.eqb 0) (chars (command_line m)) = false /\
  is_Some (utf8_decode (command_line m)) /\
  m = {| mcl_event_index := event; mcl_algorithm := alg; mcl_profile := profile;
         command_line := command_line m |}.
Proof.
  unfold authenticated_command_line. intros Hok. inv_res.
  destruct profile; inv_res; cbn.
  - match goal with E : grub_command_line _ _ _ _ = Ok _ |- _ => apply grub_Ok in E as (Hv & Hs & _) end.
    apply verify_measured_bytes_Ok in Hv. done.
  - match goal with E : load_options_command_line _ _ _ _ = Ok _ |- _ =>
      apply load_options_Ok in E as (Hv & Hd & Hs) end.
    apply verify_measured_bytes_Ok in Hv. rewrite Hd in Hv. done.
Qed.

(** What was read back from the log determines the text, given the digest. *)
Lemma measured_form_inj profile a b :
  is_Some (utf8_decode a) -> is_Some (utf8_decode b) ->
  measured_form profile a = measured_form profile b -> a = b.
Proof.
  intros Ha Hb. destruct profile; cbn; [done| |done]. intros Heq.
  apply u16s_to_le_inj in Heq.
  - apply app_inj_2 in Heq as [Heq _]; [|done]. by apply encode_utf16_inj.
  - apply Forall_app. split; [by apply encode_utf16_bound|by constructor].
  - apply Forall_app. split; [by apply encode_utf16_bound|by constructor].
Qed.
End CommandLineLemmas.

(** ** CCEL table and files *)
#[local] Opaque N_to_le.
Lemma CcelTable_parse_safe b limits :
  safe (CcelTable_parse b limits) (fun t =>
    blen b = 56 /\ byte_sum b = 0 /\
    0 < log_area_minimum_length t <= max_log_bytes limits /\
    log_area_start_address t + log_area_minimum_length t <= u64_max /\
    get_range b 0 4 = Some (lit "CCEL") /\
    get_range b 40 56 = Some (N_to_le 8 (log_area_minimum_length t)
                              ++ N_to_le 8 (log_area_start_address t))).
Proof.
  unfold CcelTable_parse. wp. bools.
  apply safe_index_range; [lia..|]. intros len _ Hlen. wp. apply safe_expect_len; [done|]. wp.
  apply safe_index; [lia|]. intros rev _. wp.
  apply safe_index_range; [lia..|]. intros ty _ _. wp.
  apply safe_index_range; [lia..|]. intros ml Hml Hmll. wp. apply safe_expect_len; [done|]. wp.
  apply safe_index_range; [lia..|]. intros st Hst Hstl. wp. apply safe_expect_len; [done|]. wp.
  bools. match goal with E : checked_add _ _ _ = Some _ |- _ => apply checked_add_Some in E as [-> ?] end.
  cbn [log_area_minimum_length log_area_start_address safe]. split_and!; try done; try lia.
  rewrite <- (le_to_N_eq ml 8 (le_to_N ml)), <- (le_to_N_eq st 8 (le_to_N st)) by done.
  apply get_range_Some in Hml as [_ ->], Hst as [_ ->]. apply get_range_Some. split; [lia|].
  change (N.to_nat (48 - 40)) with 8%nat. change (N.to_nat (56 - 48)) with 8%nat.
  change (N.to_nat (56 - 40)) with (8 + 8)%nat. change (N.to_nat 48) with (40 + 8)%nat.
  change (N.to_nat 40) with 40%nat. rewrite <- drop_drop. by rewrite take_take_drop.
Qed.

Lemma read_bounded_decides file max :
  max < usize_max ->
  decides (read_bounded file max) (exists b, file = Some b /\ blen b <= max)
    (fun b => file = Some b).
Proof.
  intros Hmax. unfold read_bounded, checked_add.
  rewrite (proj2 (N.leb_le _ _)) by lia. cbn [ok_or mbind res_bind].
  destruct file as [content|]; cbn [ok_or mbind res_bind]; [|by intros (b & ? & _)].
  destruct (N.ltb_spec max (blen (take (N.to_nat (N.min (max + 1) (blen content))) content)))
    as [Hlt|Hle]; cbn.
  - intros (b & [= <-] & Hb). unfold blen in *. rewrite length_take in Hlt. lia.
  - assert (blen content <= max) by (unfold blen in *; rewrite length_take in Hle; lia).
    rewrite take_ge by (unfold blen in *; lia). split; [by exists content|done].
Qed.

(** * Properties *)
Section CommandLineProperties.
Context {H : Sha2}.

(** A command line that [authenticated_command_line] returns is the text whose
    loader-specific encoding (GRUB: the bytes; systemd-stub load options: UTF-16LE
    with a terminator) has the authenticated digest of the event, and it has no NUL. *)
Theorem command_line_authentic v event alg profile m :
  authenticated_command_line v event alg profile = Ok m ->
  authenticated_digest v event alg = Ok (bank alg (measured_form profile (command_line m))) /\
  existsb (N.eqb 0) (chars (command_line m)) = false.
Proof. intros Hm%authenticated_command_line_Ok. tauto. Qed.

(** The quote fixes the command line: two verified logs whose events have the
    same authenticated digest yield the same text under one loader profile, or
    their measured forms collide, whatever event data an attacker wrote into the logs. *)
Theorem command_line_binding v1 v2 i1 i2 alg profile m1 m2 :
  authenticated_command_line v1 i1 alg profile = Ok m1 ->
  authenticated_command_line v2 i2 alg profile = Ok m2 ->
  authenticated_digest v1 i1 alg = authenticated_digest v2 i2 alg ->
  command_line m1 = command_line m2 \/
  collision (bank alg) (measured_form profile (command_line m1)) (measured_form profile (command_line m2)).
Proof.
  intros (H1 & _ & Hs1 & _)%authenticated_command_line_Ok
    (H2 & _ & Hs2 & _)%authenticated_command_line_Ok Heq.
  rewrite H1, H2 in Heq. injection Heq as Heq.
  apply eq_or_collision in Heq as [Heq|?]; [left|by right]. by eapply measured_form_inj.
Qed.

(** [verified_dm_verity] succeeds only on a measured command line with exactly
    one [roothash=] before [--], equal to the expected digest, no verity-disabling
    argument and no quoting, and it records that digest in lower-case hex. *)
Theorem verified_dm_verity_sound v event alg profile root c :
  verified_dm_verity v event alg profile root = Ok c ->
  authenticated_digest v event alg = Ok (bank alg (measured_form profile (dm_command_line c))) /\
  commits_root (dm_command_line c) root /\
  hex_decode (root_digest_hex c) = Some root /\
  dm_event_index c = event /\ measurement_algorithm c = alg.
Proof.
  unfold verified_dm_verity. intros (m & Hm & Hc)%bind_Ok.
  apply authenticated_command_line_Ok in Hm as (Hd & _ & _ & Hm).
  apply verify_dm_verity_Ok in Hc as (_ & Hc & ->). cbn. rewrite hex_decode_encode.
  split_and!; auto; by rewrite Hm.
Qed.
End CommandLineProperties.

(** [verify_dm_verity] decides [commits_root] exactly: every command line that
    commits to the expected 32, 48 or 64 byte root is accepted, no other is. *)
Theorem verify_dm_verity_exact m root c :
  verify_dm_verity m root = Ok c <->
  (blen root = 32 \/ blen root = 48 \/ blen root = 64) /\
  commits_root (command_line m) root /\
  c = {| dm_event_index := mcl_event_index m; measurement_algorithm := mcl_algorithm m;
         root_digest_hex := hex_encode root; dm_command_line := command_line m |}.
Proof. apply verify_dm_verity_Ok. Qed.

(** Reading a CCEL never panics on any pair of files, and a log it returns is a
    grammatical firmware log that spans the whole data file, which is at least as
    long as the log area that the checksummed 56-byte ACPI table announces. *)
Theorem read_tdx_ccel_safe table_file data_file limits :
  max_log_bytes limits < usize_max ->
  safe (read_tdx_ccel table_file data_file limits) (fun log =>
    exists t data table, table_file = Some t /\ data_file = Some data /\
      CcelTable_parse t limits = Ok table /\ byte_sum t = 0 /\
      log_area_minimum_length table <= blen data /\
      is_log data TdxCcel limits false log).
Proof.
  intros Hmax. unfold read_tdx_ccel. apply safe_bind.
  eapply safe_mono; [apply decides_safe, read_bounded_decides; done|]. intros t _ [_ Ht].
  eapply safe_seq; [apply CcelTable_parse_safe|]. intros table Htab (_ & Hsum & _).
  eapply safe_seq; [by apply decides_safe, read_bounded_decides|]. intros data _ [_ Hdata].
  apply safe_bind, safe_reject_if. intros Hlen. bools.
  eapply safe_mono; [apply safe_parse|]. intros log Hp%parse_sound _. eauto 10.
Qed.

(** * Witnesses *)
Definition sample_line : bytes := lit "quiet roothash=" ++ hex_encode (replicate 32 x07) ++ lit " -- roothash=zz".
Definition sample_grub : VerifiedBootLog := {|
  vlog := {| kind := Tpm2; algorithms := {[TPM_ALG_SHA256 := 32]};
    events := [sample_event 65 8 EV_IPL TPM_ALG_SHA256
      (sha256 (Sha2:=toy_sha2) sample_line) (lit "kernel_cmdline: " ++ sample_line ++ [x00])];
    consumed_bytes := 0 |};
  covered := {[(TPM_ALG_SHA256, 8)]} |}.
Definition sample_mcl : MeasuredCommandLine :=
  {| mcl_event_index := 0; mcl_algorithm := TPM_ALG_SHA256; mcl_profile := Grub;
     command_line := sample_line |}.

Lemma sample_grub_line :
  authenticated_command_line (H:=toy_sha2) sample_grub 0 TPM_ALG_SHA256 Grub = Ok sample_mcl.
Proof. vm_compute. reflexivity. Qed.

Lemma command_line_authentic_witness :
  authenticated_digest sample_grub 0 TPM_ALG_SHA256
    = Ok (bank (H:=toy_sha2) TPM_ALG_SHA256 (measured_form Grub sample_line)) /\
  existsb (N.eqb 0) (chars sample_line) = false.
Proof. exact (command_line_authentic (H:=toy_sha2) _ _ _ _ _ sample_grub_line). Defined.

Lemma command_line_binding_witness :
  sample_line = sample_line \/
  collision (bank (H:=toy_sha2) TPM_ALG_SHA256) (measured_form Grub sample_line) (measured_form Grub sample_line).
Proof.
  exact (command_line_binding (H:=toy_sha2) _ _ _ _ _ _ _ _
    sample_grub_line sample_grub_line eq_refl).
Defined.

Lemma verified_dm_verity_sound_witness :
  commits_root sample_line (replicate 32 x07).
Proof.
  refine (proj1 (proj2 (verified_dm_verity_sound (H:=toy_sha2) sample_grub 0 TPM_ALG_SHA256 Grub
    (replicate 32 x07) {| dm_event_index := 0; measurement_algorithm := TPM_ALG_SHA256;
      root_digest_hex := hex_encode (replicate 32 x07); dm_command_line := sample_line |} _))).
  vm_compute. reflexivity.
Defined.

Definition sample_table : bytes :=
  lit "CCEL" ++ N_to_le 4 56 ++ [x01] ++ replicate 27 x00 ++ [x02; x00; x00; x00]
  ++ N_to_le 8 100 ++ [byte_of 74; x00; x00; x00; x00; x00; x00; x00].

Lemma read_tdx_ccel_safe_witness :
  safe (read_tdx_ccel (Some sample_table) (Some sample_ccel_log) default_limits) (fun log =>
    exists t data table, Some sample_table = Some t /\ Some sample_ccel_log = Some data /\
      CcelTable_parse t default_limits = Ok table /\ byte_sum t = 0 /\
      log_area_minimum_length table <= blen data /\
      is_log data TdxCcel default_limits false log).
Proof. apply read_tdx_ccel_safe. reflexivity. Defined.
Example sample_table_sum :
  (byte_sum sample_table, is_ok (read_tdx_ccel (Some sample_table) (Some sample_ccel_log) default_limits))
  = (0, true).
Proof. vm_compute. reflexivity. Qed.
