(* ===== verification/Runtime.v ===== *)
(** * Runtime: CoCo AAEL events in RTMR3 ([src/v2/src/boot/runtime.rs])

    The policy of exact, ordered runtime events, [EventLog::verify_tdx_runtime]
    and the collector's [append_coco_aael].  The AAEL record format itself is in
    [Aael]. *)
From S2P Require Import Prelude Bytes Text Crypto Boot Aael EventLog Replay.

Record RuntimePolicy : Type := {
  profile : RuntimeProfile;
  expected_events : list RuntimeEvent;
}.

Definition RuntimePolicy_validate (p : RuntimePolicy) : res BootError unit :=
  reject_if (max_events default_limits <? blen (expected_events p))
    (Limit "runtime policy event count");;
  total ← for_each (fun total event =>
      RuntimeEvent_validate event;;
      Ok (saturating_add usize_max
            (saturating_add usize_max
               (saturating_add usize_max
                  (saturating_add usize_max total (blen (domain event)))
                  (blen (operation event)))
               (blen (content event))) 10))
    0 (expected_events p);
  reject_if (max_log_bytes default_limits <? total) (Limit "runtime policy bytes").

Record VerifiedRuntimeLog : Type := {
  rt_profile : RuntimeProfile;
  rt_events : list RuntimeEvent;
  event_indices : list N;
  rtmr3_hex : bytes;
}.

Section Runtime.
Context {H : Sha2}.

(** One iteration of the loop over [self.events().iter().enumerate()]. *)
Definition runtime_step (verified : VerifiedBootLog) (st : list RuntimeEvent * list N)
    (ie : N * Event) : res BootError (list RuntimeEvent * list N) :=
  let '(records, indices) := st in
  let '(i, event) := ie in
  if negb (register_index event =? 4) then Ok (records, indices)
  else
    record ← parse_aael event;
    d ← authenticated_digest verified i TPM_ALG_SHA384;
    h ← hash TPM_ALG_SHA384 (untrusted_event_data event);
    reject_if (negb (bytes_eqb d h)) (ContentMismatch i);;
    Ok (records ++ [record], indices ++ [i]).

Definition enumerate {A} (l : list A) : list (N * A) :=
  imap (fun i x => (N.of_nat i, x)) l.

Definition four_rtmrs (expected : AuthenticatedRegisters) : bool :=
  (size (auth_values expected) =? 4)%nat
  && forallb (fun i => if auth_values expected !! (TPM_ALG_SHA384, i) is Some d
                       then blen d =? 48 else false) [0; 1; 2; 3].

Definition verify_tdx_runtime (log : EventLog) (expected : AuthenticatedRegisters)
    (policy : RuntimePolicy) : res BootError (VerifiedBootLog * VerifiedRuntimeLog) :=
  RuntimePolicy_validate policy;;
  reject_if (negb (is_tdx (kind log)) || negb (is_tdx (auth_kind expected))) PlatformMismatch;;
  reject_if (negb (four_rtmrs expected))
    (InvalidRegisters "runtime appraisal requires all four authenticated RTMRs");;
  verified ← verify log expected;
  '(records, indices) ← for_each (runtime_step verified) ([], []) (enumerate (events log));
  reject_if (negb (bool_decide (records = expected_events policy)))
    (Runtime "runtime events differ from exact ordered policy");;
  rtmr3 ← unwrap (auth_values expected !! (TPM_ALG_SHA384, 3));
  Ok (verified, {| rt_profile := profile policy; rt_events := records;
                   event_indices := indices; rtmr3_hex := hex_encode rtmr3 |}).
End Runtime.

Definition append_coco_aael (ccel aael : bytes) (limits : ParseLimits) : res BootError bytes :=
  firmware ← parse_tdx_ccel ccel limits;
  len ← ok_or (checked_add usize_max (consumed_bytes firmware) (blen aael))
          (Limit "combined log bytes");
  reject_if (max_log_bytes limits <? len) (Limit "combined log bytes");;
  prefix ← index_range ccel 0 (consumed_bytes firmware);
  let combined := prefix ++ aael in
  parsed ← parse_tdx_ccel_with_aael combined limits;
  let bad := Runtime "standalone AAEL must contain only complete MRIndex4 records" in
  reject_if (negb (consumed_bytes parsed =? blen combined)) bad;;
  appended ← index_from (events parsed) (blen (events firmware));
  reject_if (existsb (fun e => negb (register_index e =? 4)) appended) bad;;
  Ok combined.

(** * Lemmas *)

(** ** Records are determined by the bytes they were decoded from *)
Lemma parse_aael_fields e r :
  parse_aael e = Ok r -> r = aael_fields (drop 8 (untrusted_event_data e)).
Proof.
  unfold parse_aael. intros Hp. inv_res.
  match goal with E : from_utf8 _ = Some _ |- _ => by apply from_utf8_Some in E as [-> _] end.
Qed.

Lemma encode_aael_inj e1 e2 r1 r2 :
  parse_aael e1 = Ok r1 -> parse_aael e2 = Ok r2 -> encode_aael r1 = encode_aael r2 -> r1 = r2.
Proof.
  intros H1 H2 He. pose proof (proj1 (parse_aael_Ok _ _ H1)) as D1.
  pose proof (proj1 (parse_aael_Ok _ _ H2)) as D2.
  rewrite (parse_aael_fields _ _ H1), (parse_aael_fields _ _ H2). congruence.
Qed.

Lemma enumerate_snd {A} (l : list A) : (enumerate l).*2 = l.
Proof.
  apply list_eq. intros i. unfold enumerate. rewrite list_lookup_fmap, list_lookup_imap.
  by destruct (l !! i).
Qed.

Lemma enumerate_get {A} (l : list A) : Forall (fun ie => get l ie.1 = Some ie.2) (enumerate l).
Proof.
  apply Forall_forall. intros [i x] (j & Hj)%list_elem_of_lookup. unfold enumerate in Hj.
  rewrite list_lookup_imap in Hj. destruct (l !! j) as [y|] eqn:Hy; [|done].
  injection Hj as <- <-. cbn. apply get_Some. rewrite Nat2N.id. split; [|done].
  apply lookup_lt_Some in Hy. unfold blen. lia.
Qed.

Section RuntimeLemmas.
Context {H : Sha2} {HL : Sha2Laws H}.

(** What an agent that measures the AAEL event [r] extends into RTMR3. *)
Definition runtime_digest (r : RuntimeEvent) : bytes := sha384 (encode_aael r).

Lemma runtime_steps_Ok v l rs ix rs' ix' :
  Forall (fun ie => get (events (vlog v)) ie.1 = Some ie.2) l ->
  for_each (runtime_step v) (rs, ix) l = Ok (rs', ix') ->
  exists new, rs' = rs ++ new /\
    measured TdxCcel TPM_ALG_SHA384 3 l.*2 = runtime_digest <$> new /\
    Forall (fun r => exists e, parse_aael e = Ok r) new.
Proof.
  intros Hall. revert rs ix. induction Hall as [|[i e] l Hg _ IH]; intros rs ix; cbn [for_each].
  { intros [= <- <-]. exists []. by rewrite app_nil_r. }
  intros ([rs1 ix1] & Hs & (new & -> & Hm & Hf)%IH)%bind_Ok. cbn in Hg. unfold runtime_step in Hs.
  destruct (N.eqb_spec (register_index e) 4) as [H4|H4]; cbn [negb] in Hs.
  - inv_res. bools. rewrite ?bytes_eqb_eq in *.
    match goal with E : hash _ _ = Ok _ |- _ => apply hash_Ok in E as [_ ->] end.
    match goal with E : parse_aael _ = Ok ?r |- _ => rename E into Hp; rename r into r0 end.
    match goal with E : authenticated_digest _ _ _ = Ok _ |- _ =>
      apply (authenticated_digest_get _ _ _ _ _ E) in Hg; rename E into Ha end.
    destruct (parse_aael_Ok _ _ Hp) as (Hdata & _ & _ & Ht & _).
    exists (r0 :: new). rewrite <- app_assoc. split; [done|]. split; [|constructor; eauto].
    cbn [fmap list_fmap snd]. unfold measured in *. cbn [omap list_omap].
    erewrite contribution_Some; [|by rewrite Ht| |exact Hg].
    + cbn. unfold runtime_digest at 1. rewrite <- Hdata. f_equal; [|exact Hm].
      match goal with E : _ = bank _ _ |- _ => rewrite E end. done.
    + cbn. by rewrite H4.
  - injection Hs as <- <-. exists new. split; [done|]. split; [|done].
    cbn [fmap list_fmap snd]. unfold measured in *. cbn [omap list_omap].
    rewrite contribution_None; [exact Hm|]. right. cbn. intros [? ?]%checked_sub_Some. lia.
Qed.

Lemma verify_tdx_runtime_Ok log expected policy v rt :
  log_wf log -> verify_tdx_runtime log expected policy = Ok (v, rt) ->
  verify log expected = Ok v /\
  rt_events rt = expected_events policy /\
  Forall (fun r => exists e, parse_aael e = Ok r) (expected_events policy) /\
  measured TdxCcel TPM_ALG_SHA384 3 (events log) = runtime_digest <$> expected_events policy /\
  auth_values expected !! (TPM_ALG_SHA384, 3)
  = Some (foldl (extend TPM_ALG_SHA384) (replicate 48 x00)
            (runtime_digest <$> expected_events policy)) /\
  rtmr3_hex rt = hex_encode (foldl (extend TPM_ALG_SHA384) (replicate 48 x00)
            (runtime_digest <$> expected_events policy)).
Proof.
  intros Hwf. unfold verify_tdx_runtime. intros Hr. inv_res.
  match goal with p : list RuntimeEvent * list N |- _ => destruct p as [rs ix] end. inv_res. bools.
  match goal with E : verify _ _ = Ok _ |- _ => rename E into Hv end.
  destruct (verify_Ok _ _ _ Hwf Hv) as ((_ & _ & Hm) & Hlog & _).
  match goal with E : for_each _ _ _ = Ok _ |- _ =>
    apply runtime_steps_Ok in E as (new & Hnew & Hmeas & Hf) end.
  2: { rewrite Hlog. apply enumerate_get. }
  rewrite enumerate_snd in Hmeas. rewrite app_nil_l in Hnew. subst new.
  match goal with E : auth_values expected !! _ = Some ?w |- _ => rename E into Hw end.
  destruct (Hm _ _ Hw) as [_ Hreg]. unfold registers_of in Hreg. cbn [fst snd] in Hreg.
  assert (kind log = TdxCcel) as Hk by (by destruct (kind log)).
  rewrite Hk in Hreg. cbn in Hreg. unfold replayed_value in Hreg. rewrite Hmeas in Hreg.
  injection Hreg as Hreg. change (reset_value _ x00) with (replicate 48 x00) in Hreg.
  cbn [rt_events rtmr3_hex]. subst rs. by rewrite Hw, <- Hreg.
Qed.

(** The digests determine the events. *)
Lemma runtime_digest_inj l1 l2 :
  Forall (fun r => exists e, parse_aael e = Ok r) l1 ->
  Forall (fun r => exists e, parse_aael e = Ok r) l2 ->
  runtime_digest <$> l1 = runtime_digest <$> l2 ->
  l1 = l2 \/ collision_among sha384 (encode_aael <$> l1) (encode_aael <$> l2).
Proof.
  intros H1. revert l2. induction H1 as [|r1 l1 [e1 He1] _ IH]; intros l2 H2.
  - destruct l2; [by left|done].
  - destruct H2 as [|r2 l2 [e2 He2] H2]; [done|]. cbn. intros [= Hd Hds].
    apply IH in Hds as [->|Hc]; [|right; eapply collision_among_mono, Hc; set_solver|done].
    apply eq_or_collision in Hd as [Hd|Hc]; [left|right; by apply collision_here].
    f_equal. by eapply encode_aael_inj.
Qed.
(** The messages that the events of a policy hash into RTMR3. *)
Definition policy_messages (p : RuntimePolicy) : list bytes :=
  extend_messages TPM_ALG_SHA384 (replicate 48 x00) (runtime_digest <$> expected_events p) ++
  (encode_aael <$> expected_events p).
End RuntimeLemmas.

(** ** Appending AAEL records keeps the firmware events *)
Lemma event_ok_aael k limits algs e ds :
  event_ok k false limits algs e ds -> event_ok k true limits algs e ds.
Proof. intros [? ? ? Hr ? ? ? ? ? ?]. split; auto. by eapply register_outside_aael. Qed.

Lemma records_mono (P Q : Event -> list (N * bytes) -> Prop) off es b :
  (forall e ds, P e ds -> Q e ds) -> records P off es b -> records Q off es b.
Proof. intros HPQ. induction 1; constructor; auto. Qed.

Lemma parse_appended hdr body aael limits algs es log :
  header_ok TdxCcel limits algs hdr ->
  records (event_ok TdxCcel false limits algs) (blen hdr) es body ->
  blen es <= max_events limits -> blen (hdr ++ body ++ aael) <= usize_max ->
  parse (hdr ++ body ++ aael) TdxCcel limits true = Ok log ->
  exists new, events log = es ++ new /\ algorithms log = algs.
Proof.
  intros Hh Hrec Hmax Hlen. unfold parse. intros (? & _ & Hp)%bind_Ok. cbv zeta in Hp.
  rewrite (parse_header_run _ _ _ algs hdr (body ++ aael)), res_bind_Ok in Hp by done.
  set (c0 := {| cur_bytes := _; cur_offset := 0 |}) in *.
  assert (cursor_fit c0) as F0 by (split; [unfold cursor_ok; simpl; lia|done]).
  assert (remaining c0 = hdr ++ body ++ aael) as R0 by apply drop_0.
  destruct (took_app _ _ _ F0 R0) as [T1 R1].
  pose proof (records_length _ _ _ _ Hrec) as Hl.
  apply (records_mono _ (event_ok TdxCcel true limits algs)) in Hrec; [|by apply event_ok_aael].
  assert (length (hdr ++ body ++ aael)
    = (length es + (length (hdr ++ body ++ aael) - length es))%nat) as Hfuel
    by (rewrite !length_app; lia).
  rewrite Hfuel, (parse_events_prefix _ _ _ _ _ _ _ es body aael) in Hp;
    [|done|by eapply took_fit|done|by rewrite blen_nil].
  destruct (took_app _ _ _ (took_fit _ _ _ _ T1 F0) R1) as [T2 _].
  inv_res.
  match goal with E : parse_events _ _ _ _ _ _ _ = Ok _ |- _ =>
    apply parse_events_Ok in E as (new & ? & -> & _); [|by eapply took_ok] end.
  by exists new.
Qed.

Lemma get_from_app {A} (a b : list A) : get_from (a ++ b) (blen a) = Some b.
Proof.
  rewrite get_from_total by (rewrite blen_app; lia). f_equal. unfold blen.
  by rewrite Nat2N.id, drop_app_length.
Qed.

Lemma safe_append_coco_aael ccel aael limits :
  safe (append_coco_aael ccel aael limits) (fun combined =>
    exists fw log new, parse_tdx_ccel ccel limits = Ok fw /\
      combined = take (N.to_nat (consumed_bytes fw)) ccel ++ aael /\
      parse_tdx_ccel_with_aael combined limits = Ok log /\
      events log = events fw ++ new /\
      Forall (fun e => register_index e = 4) new /\
      consumed_bytes log = blen combined /\ blen combined <= max_log_bytes limits).
Proof.
  unfold append_coco_aael. eapply safe_seq; [apply safe_parse|]. intros fw Hfw _.
  destruct (parse_sound _ _ _ _ _ Hfw) as
    [(hdr & body & tail & Hc & Hh & Hrec & _ & _ & Hcons) Hk _ Hmax _].
  wp. match goal with E : checked_add _ _ _ = Some _ |- _ =>
    apply checked_add_Some in E as [-> Hu] end. bools.
  assert (get_range ccel 0 (consumed_bytes fw) = Some (hdr ++ body)) as Hg.
  { apply get_range_Some. rewrite Hcons, Hc, !blen_app. split; [lia|].
    rewrite drop_0, app_assoc. replace (N.to_nat _) with (length (hdr ++ body)).
    - by rewrite take_app_length.
    - rewrite length_app. unfold blen. lia. }
  unfold index_range. rewrite Hg. cbn [unwrap safe].
  assert (take (N.to_nat (consumed_bytes fw)) ccel = hdr ++ body) as Htake.
  { apply get_range_Some in Hg as [_ ->]. by rewrite N.sub_0_r, drop_0. }
  assert (blen ((hdr ++ body) ++ aael) <= max_log_bytes limits) as Hcl
    by (rewrite !blen_app; lia).
  eapply safe_seq; [apply safe_parse|]. intros log Hlog _.
  destruct (parse_appended hdr body aael limits (algorithms fw) (events fw) log) as (new & Hev & _);
    [done|done|done|rewrite !blen_app in *; lia|by rewrite app_assoc|].
  wp. unfold index_from. rewrite Hev, get_from_app. cbn [unwrap safe]. wp. bools.
  exists fw, log, new. rewrite Htake. split_and!; try done.
  apply Forall_forall. intros e He. destruct (N.eqb_spec (register_index e) 4) as [|Hne]; [done|].
  exfalso. apply list_elem_of_In in He.
  assert (existsb (fun e => negb (register_index e =? 4)) new = true) as Ht; [|congruence].
  apply existsb_exists. exists e. split; [done|]. by rewrite (proj2 (N.eqb_neq _ _) Hne).
Qed.

(** * Properties *)
Section RuntimeProperties.
Context {H : Sha2} {HL : Sha2Laws H}.

(** C8: when runtime appraisal accepts a log, the quoted RTMR3 is exactly the
    extend chain, from the reset value, of the SHA-384 digests of the policy's AAEL
    records in policy order: no other application event was measured. *)
Theorem runtime_policy_fixes_rtmr3 b limits aael log expected policy v rt :
  parse b TdxCcel limits aael = Ok log ->
  verify_tdx_runtime log expected policy = Ok (v, rt) ->
  rt_events rt = expected_events policy /\
  auth_values expected !! (TPM_ALG_SHA384, 3)
  = Some (foldl (extend TPM_ALG_SHA384) (replicate 48 x00)
            (runtime_digest <$> expected_events policy)) /\
  verify log expected = Ok v.
Proof. intros Hp%parse_wf Hr%verify_tdx_runtime_Ok; [|done]. tauto. Qed.

(** One quote admits one sequence of runtime events: two policies that accept
    logs against the same registers are equal, event for event, unless two
    of the messages that the two sequences hash collide under SHA-384 or one of them
    hashes to the all-zero reset value. *)
Theorem runtime_events_binding b1 b2 limits1 limits2 aael1 aael2 log1 log2 expected p1 p2 r1 r2 :
  parse b1 TdxCcel limits1 aael1 = Ok log1 -> parse b2 TdxCcel limits2 aael2 = Ok log2 ->
  verify_tdx_runtime log1 expected p1 = Ok r1 -> verify_tdx_runtime log2 expected p2 = Ok r2 ->
  expected_events p1 = expected_events p2 \/
  collision_among sha384 (policy_messages p1) (policy_messages p2) \/
  preimage_among sha384 (policy_messages p1 ++ policy_messages p2) (replicate 48 x00).
Proof.
  intros Hp1%parse_wf Hp2%parse_wf H1 H2. destruct r1 as [v1 rt1], r2 as [v2 rt2].
  apply verify_tdx_runtime_Ok in H1 as (_ & _ & Hf1 & _ & Hv1 & _); [|done].
  apply verify_tdx_runtime_Ok in H2 as (_ & _ & Hf2 & _ & Hv2 & _); [|done].
  rewrite Hv1 in Hv2. injection Hv2 as Hv2.
  unfold policy_messages.
  apply foldl_extend_binding in Hv2 as [[_ Hd]|[Hc|[Hpre|Hpre]]]; [|right..|done|done].
  - apply runtime_digest_inj in Hd as [?|Hc]; [by left|right; left|done|done].
    eapply collision_among_mono, Hc; set_solver.
  - left. eapply collision_among_mono, Hc; set_solver.
  - right. eapply preimage_among_mono, Hpre; set_solver.
  - right. eapply preimage_among_mono, Hpre; set_solver.
Qed.
End RuntimeProperties.

(** [append_coco_aael] never panics (its two slices are always in range), and
    what it returns is the firmware log without its erased tail followed by the AAEL
    bytes, which parses to the firmware events plus MRIndex-4 records only. *)
Theorem append_coco_aael_correct ccel aael limits :
  safe (append_coco_aael ccel aael limits) (fun combined =>
    exists fw log new, parse_tdx_ccel ccel limits = Ok fw /\
      combined = take (N.to_nat (consumed_bytes fw)) ccel ++ aael /\
      parse_tdx_ccel_with_aael combined limits = Ok log /\
      events log = events fw ++ new /\
      Forall (fun e => register_index e = 4) new /\
      consumed_bytes log = blen combined /\ blen combined <= max_log_bytes limits).
Proof. apply safe_append_coco_aael. Qed.

(** * Witnesses *)
Definition sample_runtime_event : RuntimeEvent :=
  {| domain := lit "github.com/confidential-containers"; operation := lit "PullImage";
     content := lit "alpine sha256:00" |}.
Definition sample_runtime_digest : bytes := runtime_digest (H:=toy_sha2) sample_runtime_event.
Definition sample_runtime_log : bytes :=
  take 132 sample_ccel_log
  ++ encode_event (sample_event 0 4 EV_EVENT_TAG TPM_ALG_SHA384 sample_runtime_digest
                     (encode_aael sample_runtime_event))
       [(TPM_ALG_SHA384, sample_runtime_digest)].
Definition sample_runtime_rtmrs : AuthenticatedRegisters :=
  AuthenticatedRegisters_tdx (replicate 48 x00) (replicate 48 x00)
    (extend (H:=toy_sha2) TPM_ALG_SHA384 (replicate 48 x00) (replicate 48 x01))
    (extend (H:=toy_sha2) TPM_ALG_SHA384 (replicate 48 x00) sample_runtime_digest).
Definition sample_policy : RuntimePolicy :=
  {| profile := CocoAaelTcg2; expected_events := [sample_runtime_event] |}.

Definition sample_runtime_parsed : EventLog :=
  Eval vm_compute in unwrap_or (parse sample_runtime_log TdxCcel default_limits true) sample_ccel_parsed.
Lemma sample_runtime_parse :
  parse sample_runtime_log TdxCcel default_limits true = Ok sample_runtime_parsed.
Proof. vm_compute. reflexivity. Qed.
Lemma sample_runtime_verify :
  exists r, verify_tdx_runtime (H:=toy_sha2) sample_runtime_parsed sample_runtime_rtmrs sample_policy
    = Ok r.
Proof. eexists. vm_compute. reflexivity. Qed.

Lemma runtime_policy_fixes_rtmr3_witness :
  auth_values sample_runtime_rtmrs !! (TPM_ALG_SHA384, 3)
  = Some (foldl (extend (H:=toy_sha2) TPM_ALG_SHA384) (replicate 48 x00)
            (runtime_digest (H:=toy_sha2) <$> expected_events sample_policy)).
Proof.
  destruct sample_runtime_verify as [[v rt] Hv].
  exact (proj1 (proj2 (runtime_policy_fixes_rtmr3 (HL:=toy_sha2_laws) _ _ _ _ _ _ _ _
    sample_runtime_parse Hv))).
Defined.

Lemma runtime_events_binding_witness :
  expected_events sample_policy = expected_events sample_policy \/
  collision_among (sha384 (Sha2:=toy_sha2)) (policy_messages (H:=toy_sha2) sample_policy) (policy_messages (H:=toy_sha2) sample_policy) \/
  preimage_among (sha384 (Sha2:=toy_sha2)) (policy_messages (H:=toy_sha2) sample_policy ++ policy_messages (H:=toy_sha2) sample_policy) (replicate 48 x00).
Proof.
  destruct sample_runtime_verify as [r Hv].
  exact (runtime_events_binding (HL:=toy_sha2_laws) _ _ _ _ _ _ _ _ _ _ _ _ _
    sample_runtime_parse sample_runtime_parse Hv Hv).
Defined.
Example sample_append :
  append_coco_aael sample_ccel_log (drop 132 sample_runtime_log) default_limits
  = Ok sample_runtime_log.
Proof. vm_compute. reflexivity. Qed.
