(* ===== verification/Verity.v ===== *)
(** * Verity: active dm-verity observation ([src/v2/src/boot/verity.rs])

    The parsers of [/proc/self/mountinfo] and of the device-mapper replies, the
    policy check, and the collector.  The kernel is the environment: what a read
    of mountinfo and an ioctl return is an argument, one answer per call, so that
    a state that changes between the calls is covered. *)
From S2P Require Import Prelude Bytes Text Boot CommandLine.

Definition MAX_MOUNTINFO : N := 4 * 1024 * 1024.
Definition MAX_DM_BYTES : N := 1024 * 1024.
Definition DM_HEADER : N := 312.

Record UnverifiedRootMount : Type := {
  mount_id : N;
  major : N;
  minor : N;
  filesystem : bytes;
  read_only : bool;
}.

Record UnverifiedVerityTable : Type := {
  format_version : N;
  data_device : bytes;
  hash_device : bytes;
  data_block_size : N;
  hash_block_size : N;
  data_blocks : N;
  hash_start_block : N;
  hash_algorithm : bytes;
  root_digest_hex : bytes;
  salt_hex : bytes;
  optional_parameters : list bytes;
}.

Record UnverifiedMountedVerity : Type := {
  root : UnverifiedRootMount;
  table : UnverifiedVerityTable;
  mapper_name : bytes;
  mapper_uuid : bytes;
  mapper_event_number : N;
  mapper_read_only : bool;
  corruption_detected : bool;
  fec_corrected_blocks : option N;
  sectors : N;
}.

Record MountedVerityPolicy : Type := {
  expected_root_digest_hex : bytes;
  expected_hash_algorithm : bytes;
  expected_salt_hex : bytes;
  expected_data_blocks : N;
  expected_data_block_size : N;
  expected_hash_block_size : N;
  expected_hash_start_block : N;
  expected_format_version : N;
  expected_filesystem : bytes;
  expected_optional_parameters : list bytes;
}.

Definition tolerates_corruption (p : bytes) : bool :=
  bytes_eqb p (lit "ignore_corruption") || bytes_eqb p (lit "check_at_most_once").

Definition check_observed_policy (m : UnverifiedMountedVerity) (policy : MountedVerityPolicy) :
    res BootError unit :=
  let t := table m in
  reject_if
    (negb (read_only (root m))
     || negb (mapper_read_only m)
     || corruption_detected m
     || negb (bytes_eqb (root_digest_hex t) (to_ascii_lowercase (expected_root_digest_hex policy)))
     || negb (bytes_eqb (hash_algorithm t) (expected_hash_algorithm policy))
     || negb (bytes_eqb (salt_hex t) (to_ascii_lowercase (expected_salt_hex policy)))
     || negb (data_blocks t =? expected_data_blocks policy)
     || negb (data_block_size t =? expected_data_block_size policy)
     || negb (hash_block_size t =? expected_hash_block_size policy)
     || negb (hash_start_block t =? expected_hash_start_block policy)
     || negb (format_version t =? expected_format_version policy)
     || negb (bytes_eqb (filesystem (root m)) (expected_filesystem policy))
     || negb (bool_decide (optional_parameters t = expected_optional_parameters policy))
     || existsb tolerates_corruption (optional_parameters t))
    (VerityState "observed mount/table differs from strict policy").

(** ** Decimal fields *)
Definition is_ascii_digit (c : byte) : bool := (48 <=? byte_N c) && (byte_N c <=? 57).
Definition decimal (s : bytes) : N := foldl (fun n c => 10 * n + (byte_N c - 48)) 0 s.

(** [number::<T>] where [max] is the largest value of [T]. *)
Definition number (max : N) (s : bytes) : res BootError N :=
  reject_if ((blen s =? 0) || negb (forallb is_ascii_digit s))
    (VerityState "invalid decimal field");;
  reject_if (max <? decimal s) (VerityState "numeric field overflow");;
  Ok (decimal s).

Definition device (s : bytes) : res BootError (N * N) :=
  '(major, minor) ← ok_or (split_once x3a s) (VerityState "invalid device number");
  major ← number u32_max major;
  minor ← number u32_max minor;
  Ok (major, minor).

(** ** mountinfo *)

(** [str::lines]: terminators are LF and CR LF; no line after a final LF. *)
Definition strip_cr (s : bytes) : bytes := default s (strip_suffix_byte x0d s).
Definition lines (s : bytes) : list bytes :=
  match rev (split_byte x0a s) with
  | [] => []
  | final :: init => (strip_cr <$> rev init) ++ (if final is [] then [] else [final])
  end.

Definition parse_mount_line (st : option UnverifiedRootMount) (line : bytes) :
    res BootError (option UnverifiedRootMount) :=
  let fields := split_byte x20 line in
  separator ← ok_or (position (bytes_eqb (lit "-")) fields)
                (VerityState "mountinfo separator missing");
  reject_if ((separator <? 6) || negb (blen fields =? separator + 4)
             || existsb (bytes_eqb []) fields)
    (VerityState "malformed mountinfo record");;
  mount_point ← index fields 4;
  if negb (bytes_eqb mount_point (lit "/")) then Ok st
  else
    fs_root ← index fields 3;
    reject_if (negb (bytes_eqb fs_root (lit "/")) || (if st is Some _ then true else false))
      (VerityState "ambiguous or subtree root mount");;
    dev ← index fields 2;
    '(major, minor) ← device dev;
    mount_options ← index fields 5;
    fs_options ← index fields (separator + 3);
    let mount := split_byte x2c mount_options in
    let fs := split_byte x2c fs_options in
    let has l (s : string) := existsb (bytes_eqb (lit s)) l in
    reject_if (Bool.eqb (has mount "ro"%string) (has mount "rw"%string)
               || Bool.eqb (has fs "ro"%string) (has fs "rw"%string))
      (VerityState "ambiguous mount read-only flags");;
    id_field ← index fields 0;
    id ← number u64_max id_field;
    fs_type ← index fields (separator + 1);
    Ok (Some {| mount_id := id; major := major; minor := minor; filesystem := fs_type;
                read_only := has mount "ro"%string && has fs "ro"%string |}).

Definition parse_root_mountinfo (b : bytes) : res BootError UnverifiedRootMount :=
  reject_if (MAX_MOUNTINFO <? blen b) (Limit "mountinfo bytes");;
  text ← ok_or (from_utf8 b) (VerityState "invalid mountinfo UTF8");
  root ← for_each parse_mount_line None (lines text);
  ok_or root (VerityState "root mount absent").

(** ** Verity table *)
Definition option_flag (key : bytes) : bool :=
  existsb (bytes_eqb key)
    [lit "ignore_corruption"; lit "restart_on_corruption"; lit "panic_on_corruption";
     lit "restart_on_error"; lit "panic_on_error"; lit "ignore_zero_blocks";
     lit "check_at_most_once"; lit "try_verify_in_tasklet"].
Definition option_with_value (key : bytes) : bool :=
  existsb (bytes_eqb key)
    [lit "use_fec_from_device"; lit "fec_roots"; lit "fec_blocks"; lit "fec_start";
     lit "root_hash_sig_key_desc"].

Definition check_option_value (key value : bytes) : res BootError unit :=
  if bytes_eqb key (lit "use_fec_from_device") then device value;; Ok tt
  else if bytes_eqb key (lit "fec_roots") then
    n ← number u64_max value;
    reject_if (negb ((2 <=? n) && (n <=? 24))) (VerityState "invalid FEC roots")
  else if bytes_eqb key (lit "fec_blocks") || bytes_eqb key (lit "fec_start") then
    number u64_max value;; Ok tt
  else Ok tt.

Fixpoint scan_options (options : list bytes) (seen : list bytes) : res BootError (list bytes) :=
  match options with
  | [] => Ok seen
  | key :: options =>
    reject_if (existsb (bytes_eqb key) seen) (VerityState "duplicate verity option");;
    let seen := key :: seen in
    if option_flag key then scan_options options seen
    else if option_with_value key then
      match options with
      | [] => Err (VerityState "missing verity option value")
      | value :: options => check_option_value key value;; scan_options options seen
      end
    else Err (VerityState "unknown verity option")
  end.

Definition count_in (seen keys : list bytes) : N :=
  blen (List.filter (fun k => existsb (bytes_eqb k) seen) keys).

Definition validate_options (options : list bytes) (data_block hash_block : N) :
    res BootError unit :=
  seen ← scan_options options [];
  let fec := count_in seen [lit "use_fec_from_device"; lit "fec_roots"; lit "fec_blocks";
                            lit "fec_start"] in
  let has (s : string) := existsb (bytes_eqb (lit s)) seen in
  reject_if
    (((0 <? fec) && (negb (fec =? 4) || negb (data_block =? hash_block)))
     || (1 <? count_in seen [lit "ignore_corruption"; lit "restart_on_corruption";
                             lit "panic_on_corruption"])
     || (has "restart_on_error"%string && has "panic_on_error"%string))
    (VerityState "inconsistent verity options").

Definition verity_digest_size (name : bytes) : option N :=
  if bytes_eqb name (lit "sha256") then Some 32
  else if bytes_eqb name (lit "sha384") then Some 48
  else if bytes_eqb name (lit "sha512") then Some 64
  else None.

Definition block_size_ok (n : N) : bool := is_power_of_two n && (512 <=? n) && (n <=? 65536).

Definition parse_verity_parameters (text : bytes) : res BootError UnverifiedVerityTable :=
  reject_if ((64 * 1024 <? blen text) || existsb (fun c => 128 <=? byte_N c) text
             || existsb (fun c => (byte_N c <? 0x20) || (byte_N c =? 0x7f)) text)
    (VerityState "invalid verity table parameter bytes");;
  let fields := split_ascii_whitespace text in
  reject_if (blen fields <? 10) (VerityState "incomplete verity table");;
  f0 ← index fields 0;
  version ← number u32_max f0;
  reject_if (1 <? version) (VerityState "unsupported verity format");;
  f1 ← index fields 1; device f1;;
  f2 ← index fields 2; device f2;;
  f3 ← index fields 3; data_block ← number u64_max f3;
  f4 ← index fields 4; hash_block ← number u64_max f4;
  reject_if (negb (is_power_of_two data_block) || negb (is_power_of_two hash_block)
             || negb ((512 <=? data_block) && (data_block <=? 65536))
             || negb ((512 <=? hash_block) && (hash_block <=? 65536)))
    (VerityState "invalid verity block geometry");;
  f5 ← index fields 5; blocks ← number u64_max f5;
  f6 ← index fields 6; start ← number u64_max f6;
  reject_if ((blocks =? 0)
             || negb (bool_decide (is_Some (checked_mul u64_max blocks data_block)))
             || negb (bool_decide (is_Some (checked_mul u64_max start hash_block))))
    (VerityState "invalid verity block extent");;
  f7 ← index fields 7;
  size ← ok_or (verity_digest_size f7) (VerityState "unsupported verity hash algorithm");
  f8 ← index fields 8;
  reject_if (negb (blen f8 =? size * 2) || negb (all_hex f8))
    (VerityState "invalid verity root digest");;
  f9 ← index fields 9;
  let salt := if bytes_eqb f9 (lit "-") then [] else f9 in
  reject_if ((512 <? blen salt) || negb (blen salt mod 2 =? 0) || negb (all_hex salt))
    (VerityState "invalid verity salt");;
  optional ←
    (if blen fields =? 10 then index_from fields 10
     else
       f10 ← index fields 10;
       n ← number usize_max f10;
       reject_if (negb (n =? blen fields - 11)) (VerityState "verity option count mismatch");;
       index_from fields 11);
  validate_options optional data_block hash_block;;
  Ok {| format_version := version; data_device := f1; hash_device := f2;
        data_block_size := data_block; hash_block_size := hash_block;
        data_blocks := blocks; hash_start_block := start; hash_algorithm := f7;
        root_digest_hex := to_ascii_lowercase f8; salt_hex := to_ascii_lowercase salt;
        optional_parameters := optional |}.

Definition parse_verity_status (text : bytes) : res BootError (bool * option N) :=
  let parts := split_byte x20 text in
  failed ←
    match head parts with
    | Some p => if bytes_eqb p (lit "V") then Ok false
                else if bytes_eqb p (lit "C") then Ok true
                else Err (VerityState "unknown verity runtime status")
    | None => Err (VerityState "unknown verity runtime status")
    end;
  corrected ←
    match parts with
    | [_] => Ok None
    | [_; value] => if bytes_eqb value (lit "-") then Ok None
                    else n ← number u64_max value; Ok (Some n)
    | _ => Err (VerityState "malformed verity runtime status")
    end;
  Ok (failed, corrected).

(** ** Device-mapper replies

    Integers are in native order, little-endian on the two architectures the
    collector supports. *)
Definition u32_field (b : bytes) (at_ : N) : res BootError N :=
  f ← ok_or (get_range b at_ (at_ + 4)) (VerityState "truncated ioctl field");
  f ← expect_len 4 f; Ok (le_to_N f).
Definition u64_field (b : bytes) (at_ : N) : res BootError N :=
  f ← ok_or (get_range b at_ (at_ + 8)) (VerityState "truncated ioctl field");
  f ← expect_len 8 f; Ok (le_to_N f).
Definition cstr (b : bytes) : res BootError bytes :=
  n ← ok_or (position (Byte.eqb x00) b) (VerityState "unterminated ioctl string");
  s ← index_range b 0 n;
  ok_or (from_utf8 s) (VerityState "invalid ioctl string").

Record DmResponse : Type := {
  dm_name : bytes;
  dm_uuid : bytes;
  dm_event : N;
  dm_read_only : bool;
  dm_sectors : N;
  dm_parameters : bytes;
}.

(** DM_SUSPEND_FLAG, DM_BUFFER_FULL_FLAG, DM_QUERY_INACTIVE_TABLE_FLAG,
    DM_DEFERRED_REMOVE, DM_INTERNAL_SUSPEND_FLAG *)
Definition bad_flags : N := N.lor (N.shiftl 1 1) (N.lor (N.shiftl 1 8) (N.lor (N.shiftl 1 12)
  (N.lor (N.shiftl 1 17) (N.shiftl 1 18)))).

Definition parse_dm_response (b : bytes) (encoded_device : N) : res BootError DmResponse :=
  let bounds := VerityState "invalid DM ioctl version/bounds" in
  reject_if ((blen b <? DM_HEADER) || (MAX_DM_BYTES <? blen b)) bounds;;
  version ← u32_field b 0;
  reject_if (negb (version =? 4)) bounds;;
  size ← u32_field b 12;
  start ← u32_field b 16;
  flags ← u32_field b 28;
  let inactive := VerityState "invalid, suspended, incomplete, inactive, or multi-target DM table" in
  reject_if ((blen b <? size) || (start <? DM_HEADER) || negb (start mod 8 =? 0)
             || (size <? start)) inactive;;
  targets ← u32_field b 20;
  reject_if (negb (targets =? 1)) inactive;;
  dev ← u64_field b 40;
  reject_if (negb (dev =? encoded_device) || (N.land flags (N.shiftl 1 5) =? 0)
             || negb (N.land flags bad_flags =? 0)) inactive;;
  target ← ok_or (get_range b start size) (VerityState "DM target outside output");
  let wrong := VerityState "root device is not one successful verity target" in
  reject_if (blen target <? 41) wrong;;
  first ← u64_field target 0;
  reject_if (negb (first =? 0)) wrong;;
  status ← u32_field target 16;
  reject_if (negb (status =? 0)) wrong;;
  kind_field ← index_range target 24 40;
  kind ← cstr kind_field;
  reject_if (negb (bytes_eqb kind (lit "verity"))) wrong;;
  next ← u32_field target 20;
  reject_if (negb (next =? N.ldiff (blen target + 7) 7))
    (VerityState "invalid final DM target offset");;
  nsectors ← u64_field target 8;
  reject_if (nsectors =? 0) (VerityState "empty verity device");;
  name_field ← index_range b 48 176; name ← cstr name_field;
  uuid_field ← index_range b 176 305; uuid ← cstr uuid_field;
  event ← u32_field b 32;
  parameters_field ← index_from target 40; parameters ← cstr parameters_field;
  Ok {| dm_name := name; dm_uuid := uuid; dm_event := event;
        dm_read_only := negb (N.land flags 1 =? 0); dm_sectors := nsectors;
        dm_parameters := parameters |}.

(** ** Collector *)

(** The request block: version, length, data start, flags, device. *)
Definition dm_request (len : N) (dev : N) (want_table : bool) : bytes :=
  N_to_le 4 4 ++ replicate 8 x00 ++ N_to_le 4 len ++ N_to_le 4 DM_HEADER ++ replicate 8 x00
  ++ N_to_le 4 (if want_table then N.shiftl 1 4 else 0) ++ replicate 8 x00 ++ N_to_le 8 dev
  ++ replicate (N.to_nat len - 48) x00.

(** [ioctl] is the kernel's answer to a request of a given length: the buffer after
    the call, or a failure.  The buffer doubles while the reply did not fit. *)
Fixpoint query (fuel : nat) (ioctl : bytes -> option bytes) (dev : N) (want_table : bool)
    (len : N) : res BootError DmResponse :=
  match fuel with
  | O => NoFuel
  | S fuel =>
    data ← ok_or (ioctl (dm_request len dev want_table)) Io;
    flags ← u32_field data 28;
    if negb (N.land flags (N.shiftl 1 8) =? 0) then
      reject_if (len =? MAX_DM_BYTES) (Limit "DM ioctl output");;
      query fuel ioctl dev want_table (N.min (len * 2) MAX_DM_BYTES)
    else parse_dm_response data dev
  end.

Record Kernel : Type := {
  mountinfo_before : option bytes;
  mountinfo_after : option bytes;
  control_open : bool;
  ioctl_table : bytes -> option bytes;
  ioctl_status : bytes -> option bytes;
  ioctl_again : bytes -> option bytes;
}.

Definition encode_device (r : UnverifiedRootMount) : N :=
  N.lor (N.land (minor r) 0xff)
    (N.lor (N.shiftl (major r) 8) (N.shiftl (N.ldiff (minor r) 0xff) 12)).

Definition same_target (a b : DmResponse) : bool :=
  bytes_eqb (dm_name a) (dm_name b) && bytes_eqb (dm_uuid a) (dm_uuid b)
  && (dm_event a =? dm_event b) && (dm_sectors a =? dm_sectors b)
  && Bool.eqb (dm_read_only a) (dm_read_only b).

Definition query_lengths : nat := 5.
Definition collect_mounted_verity (k : Kernel) : res BootError UnverifiedMountedVerity :=
  before ← read_bounded (mountinfo_before k) MAX_MOUNTINFO;
  r ← parse_root_mountinfo before;
  reject_if ((0xfff <? major r) || (0xfffff <? minor r))
    (VerityState "device number outside Linux encoding");;
  let encoded := encode_device r in
  (if control_open k then Ok tt else Err Io);;
  tbl ← query query_lengths (ioctl_table k) encoded true 65536;
  status ← query query_lengths (ioctl_status k) encoded false 65536;
  again ← query query_lengths (ioctl_again k) encoded true 65536;
  let changed := VerityState "mount/table changed during collection" in
  reject_if (negb (same_target tbl again && bytes_eqb (dm_parameters tbl) (dm_parameters again)
                   && same_target tbl status)) changed;;
  after ← read_bounded (mountinfo_after k) MAX_MOUNTINFO;
  reject_if (negb (bytes_eqb after before)) changed;;
  '(corrupted, corrected) ← parse_verity_status (dm_parameters status);
  parameters ← parse_verity_parameters (dm_parameters tbl);
  extent ← unwrap (checked_mul u64_max (data_blocks parameters) (data_block_size parameters));
  reject_if (negb (extent / 512 =? dm_sectors tbl))
    (VerityState "verity target extent differs from data geometry");;
  Ok {| root := r; table := parameters; mapper_name := dm_name tbl; mapper_uuid := dm_uuid tbl;
        mapper_event_number := dm_event tbl; mapper_read_only := dm_read_only tbl;
        corruption_detected := corrupted; fec_corrected_blocks := corrected;
        sectors := dm_sectors tbl |}.

(** * Lemmas *)

(** ** The readers do not panic *)
Lemma safe_number max s (Q : N -> Prop) :
  (decimal s <= max -> forallb is_ascii_digit s = true -> Q (decimal s)) -> safe (number max s) Q.
Proof. intros HQ. unfold number. wp. bools. auto. Qed.

Lemma safe_device s (Q : N * N -> Prop) :
  (forall a b, a <= u32_max -> b <= u32_max -> Q (a, b)) -> safe (device s) Q.
Proof.
  intros HQ. unfold device. wp. case_match. subst. apply safe_bind, safe_number. intros ? _.
  apply safe_bind, safe_number. intros ? _. simpl. auto.
Qed.

Lemma safe_u32_field b i (Q : N -> Prop) :
  (forall n, n <= u32_max -> Q n) -> safe (u32_field b i) Q.
Proof.
  intros HQ. unfold u32_field. wp.
  match goal with E : get_range _ _ _ = Some ?f |- _ => apply get_range_blen in E as Hl;
    assert (blen f = 4) as Hf by lia end.
  apply safe_expect_len; [done|]. simpl. apply HQ.
  match goal with |- le_to_N ?f <= _ => pose proof (le_to_N_bound f) as Hb; rewrite Hf in Hb end.
  change u32_max with (256 ^ 4 - 1). lia.
Qed.

Lemma safe_u64_field b i (Q : N -> Prop) :
  (forall n, n <= u64_max -> Q n) -> safe (u64_field b i) Q.
Proof.
  intros HQ. unfold u64_field. wp.
  match goal with E : get_range _ _ _ = Some ?f |- _ => apply get_range_blen in E as Hl;
    assert (blen f = 8) as Hf by lia end.
  apply safe_expect_len; [done|]. simpl. apply HQ.
  match goal with |- le_to_N ?f <= _ => pose proof (le_to_N_bound f) as Hb; rewrite Hf in Hb end.
  change u64_max with (256 ^ 8 - 1). lia.
Qed.

Lemma safe_cstr b (Q : bytes -> Prop) : (forall s, Q s) -> safe (cstr b) Q.
Proof.
  intros HQ. unfold cstr. wp.
  match goal with E : position _ _ = Some _ |- _ => apply position_Some in E as (Hn & _) end.
  apply safe_index_range; [lia..|]. intros s _ _. wp. simpl. auto.
Qed.

(** Run a reader: a panicking index needs the bound that precedes it. *)
Ltac wpv := repeat (wp; first
  [ apply safe_number; intros ? ? | apply safe_device; intros ? ? ? ?
  | apply safe_u32_field; intros ? ? | apply safe_u64_field; intros ? ?
  | apply safe_cstr; intros ?
  | apply safe_index; [lia|]; intros ? ?
  | apply safe_index_range; [lia..|]; intros ? ? ?
  | apply safe_index_from; [lia|] ]); wp.

Lemma safe_parse_mount_line st line :
  safe (parse_mount_line st line) (fun _ => True).
Proof.
  unfold parse_mount_line. wp. bools. cbv zeta in *.
  match goal with E : blen ?l = _ + 4 |- _ => revert E; generalize l; intros fields Hlen end.
  wpv. case_match; [done|]. by wpv.
Qed.

Lemma safe_parse_root_mountinfo b : safe (parse_root_mountinfo b) (fun _ => True).
Proof.
  unfold parse_root_mountinfo. wp. eapply safe_mono.
  - apply (safe_for_each _ (fun _ => True)); [done|]. intros st line _ _.
    apply safe_parse_mount_line.
  - intros st _ _. by wp.
Qed.

Lemma safe_scan_options options seen : safe (scan_options options seen) (fun _ => True).
Proof.
  assert (forall key value, safe (check_option_value key value) (fun _ => True)) as Hcheck.
  { intros. unfold check_option_value. repeat (case_match; [by wpv|]). done. }
  revert seen. induction options as [options IH] using (induction_ltof1 _ (@length _)).
  unfold ltof in IH. intros seen. destruct options as [|key options]; [done|].
  cbn [scan_options]. wp. destruct (option_flag key); [apply IH; simpl; lia|].
  destruct (option_with_value key); [|done]. destruct options as [|value options]; [done|].
  eapply safe_seq; [apply Hcheck|]. intros [] _ _. apply IH. simpl. lia.
Qed.

Lemma safe_validate_options options d h : safe (validate_options options d h) (fun _ => True).
Proof.
  unfold validate_options. eapply safe_seq; [apply safe_scan_options|]. intros seen _ _. by wp.
Qed.

(** What a parsed table guarantees. *)
Record table_ok (t : UnverifiedVerityTable) : Prop := {
  tbl_version : format_version t <= 1;
  tbl_data_block : block_size_ok (data_block_size t) = true;
  tbl_hash_block : block_size_ok (hash_block_size t) = true;
  tbl_extent : 0 < data_blocks t /\ data_blocks t * data_block_size t <= u64_max;
  tbl_hash_extent : hash_start_block t * hash_block_size t <= u64_max;
  tbl_root : exists n d, verity_digest_size (hash_algorithm t) = Some n /\ blen d = n /\
    root_digest_hex t = hex_encode d;
  tbl_salt : exists d, blen d <= 256 /\ salt_hex t = hex_encode d;
  tbl_options : validate_options (optional_parameters t) (data_block_size t) (hash_block_size t)
    = Ok tt;
}.

Lemma hex_field f n :
  all_hex f = true -> blen f = 2 * n ->
  exists d, blen d = n /\ to_ascii_lowercase f = hex_encode d.
Proof.
  intros Hh Hl. destruct (hex_decode_total f Hh) as [d Hd].
  { rewrite Hl, N.mul_comm. apply N.Div0.mod_mul. }
  exists d. apply hex_decode_Some in Hd as Hd'. split; [lia|]. symmetry. by apply hex_encode_decode.
Qed.

Lemma is_Some_checked_mul a b :
  is_Some (checked_mul u64_max a b) <-> a * b <= u64_max.
Proof.
  split; [intros [x [_ ?]%checked_mul_Some]; done|]. intros. eexists. by apply checked_mul_Some.
Qed.

Lemma safe_parse_verity_parameters text : safe (parse_verity_parameters text) table_ok.
Proof.
  unfold parse_verity_parameters. apply safe_bind, safe_reject_if. intros _. cbv zeta.
  generalize (split_ascii_whitespace text). intros fields. wp. bools. wpv. bools.
  apply (safe_mono _ (fun _ => True)).
  { destruct (N.eqb_spec (blen fields) 10); by wpv. }
  intros optional _ _. eapply safe_seq; [apply safe_validate_options|]. intros [] Hopt _.
  rewrite is_Some_checked_mul in *. cbn.
  split; cbn [format_version data_block_size hash_block_size data_blocks hash_start_block
    hash_algorithm root_digest_hex salt_hex optional_parameters]; auto; unfold block_size_ok; bools.
  - by split_and!.
  - by split_and!.
  - split; [lia|done].
  - match goal with E : verity_digest_size ?f = Some ?n, Hh : all_hex ?r = true, Hl : blen ?r = _ * 2 |- _ =>
      destruct (hex_field r n Hh ltac:(lia)) as (d & Hd & He) end. eauto.
  - match goal with Hh : all_hex ?salt = true, Hm : blen ?salt mod 2 = 0, Hl : blen ?salt <= 512 |- _ =>
      destruct (hex_field salt (blen salt / 2) Hh) as (d & Hd & He);
      [pose proof (N.Div0.div_mod (blen salt) 2); lia|];
      exists d; split; [|exact He]; rewrite Hd; apply N.Div0.div_le_upper_bound; lia
    end.
Qed.

(** ** Device-mapper replies *)
Lemma safe_parse_dm_response b dev : safe (parse_dm_response b dev) (fun r => 0 < dm_sectors r).
Proof.
  unfold parse_dm_response, DM_HEADER. wp. bools. wpv. bools. wpv.
  match goal with E : get_range b _ _ = Some ?t |- _ => rename E into Ht end.
  bools. wpv. bools. cbn. lia.
Qed.

(** The buffer doubles at most four times, so five requests are enough. *)
Lemma safe_query fuel ioctl dev want_table len j :
  len * 2 ^ N.of_nat j = MAX_DM_BYTES -> (j < fuel)%nat ->
  safe (query fuel ioctl dev want_table len) (fun r => 0 < dm_sectors r).
Proof.
  revert len j. induction fuel as [|fuel IH]; intros len j Hl Hj; [lia|]. cbn [query].
  wpv. case_match; [|apply safe_parse_dm_response]. wp. bools.
  destruct j as [|j]; [cbn in Hl; lia|]. apply (IH _ j); [|lia].
  rewrite Nat2N.inj_succ, N.pow_succ_r' in Hl.
  rewrite N.min_l; [lia|]. rewrite <- Hl.
  assert (2 ^ N.of_nat j <> 0) by (apply N.pow_nonzero; lia). nia.
Qed.

(** A power of two that is at least 512 is a whole number of sectors: otherwise
    [n] and [n - 1] share the leading bit of [n / 512]. *)
Lemma block_size_sectors n : block_size_ok n = true -> n mod 512 = 0.
Proof.
  unfold block_size_ok, is_power_of_two. intros Hn. bools.
  destruct (N.eq_decidable (n mod 512) 0) as [|Hr]; [done|exfalso].
  pose proof (N.div_mod n 512 ltac:(lia)) as Hdm. pose proof (N.mod_upper_bound n 512 ltac:(lia)) as Hlt.
  assert (n / 512 <> 0) as Hq by (intros Hz; rewrite Hz in Hdm; lia).
  assert ((n - 1) / 512 = n / 512) as Hsame.
  { symmetry. revert Hr Hdm Hlt. generalize (n mod 512) (n / 512). intros r q Hr Hdm Hlt.
    apply (N.div_unique _ _ _ (r - 1)); lia. }
  match goal with E : N.land n (n - 1) = 0 |- _ =>
    apply (f_equal (fun x => N.testbit x (N.log2 (n / 512) + 9))) in E;
    rewrite N.land_spec, N.bits_0, <- !N.div_pow2_bits in E; change (2 ^ 9) with 512 in E;
    rewrite Hsame, N.bit_log2 in E by done end.
  done.
Qed.

Lemma safe_parse_verity_status text : safe (parse_verity_status text) (fun _ => True).
Proof.
  unfold parse_verity_status. apply safe_bind, (safe_mono _ (fun _ => True)).
  { repeat case_match; done. }
  intros failed _ _. apply safe_bind, (safe_mono _ (fun _ => True)).
  { repeat (case_match; try done). by wpv. }
  by wp.
Qed.

Definition observation_ok (k : Kernel) (m : UnverifiedMountedVerity) : Prop :=
  table_ok (table m) /\ sectors m * 512 = data_blocks (table m) * data_block_size (table m) /\
  (exists b, mountinfo_before k = Some b /\ mountinfo_after k = Some b /\
     parse_root_mountinfo b = Ok (root m)).

Lemma safe_collect k : safe (collect_mounted_verity k) (observation_ok k).
Proof.
  unfold collect_mounted_verity.
  eapply safe_seq; [by apply decides_safe, read_bounded_decides|]. intros before _ [_ Hb].
  eapply safe_seq; [apply safe_parse_root_mountinfo|]. intros r Hr _. wp.
  apply (safe_mono _ (fun _ => True)); [by case_match|]. intros _ _ _.
  eapply safe_seq; [by apply (safe_query _ _ _ _ _ 4); [reflexivity|unfold query_lengths; lia]|].
  intros tbl _ Htbl.
  eapply safe_seq; [by apply (safe_query _ _ _ _ _ 4); [reflexivity|unfold query_lengths; lia]|].
  intros status _ _.
  eapply safe_seq; [by apply (safe_query _ _ _ _ _ 4); [reflexivity|unfold query_lengths; lia]|].
  intros again _ _. wp.
  eapply safe_mono; [by apply decides_safe, read_bounded_decides|]. intros after _ [_ Ha]. wp.
  eapply safe_mono; [apply safe_parse_verity_status|]. intros [corrupted corrected] _ _.
  eapply safe_seq; [apply safe_parse_verity_parameters|]. intros t _ Ht.
  destruct (tbl_extent _ Ht) as [_ Hext].
  apply safe_bind, safe_unwrap. eexists. split; [by apply checked_mul_Some|]. wp. bools.
  split; [done|]. cbn [sectors table root]. split.
  - match goal with E : _ / 512 = dm_sectors tbl |- _ => rewrite <- E end.
    pose proof (block_size_sectors _ (tbl_data_block _ Ht)) as Hm.
    apply N.Div0.mod_divides in Hm as [q ->].
    rewrite (N.mul_comm 512), N.mul_assoc, N.div_mul; lia.
  - exists before. split; [done|]. rewrite ?bytes_eqb_eq in *. by subst.
Qed.

(** ** The root mount is unique *)
Definition line_fields (line : bytes) : list bytes := split_byte x20 line.
Definition is_root_line (line : bytes) : Prop := line_fields line !! 4%nat = Some (lit "/").
#[global] Instance is_root_line_dec line : Decision (is_root_line line).
Proof. unfold is_root_line. apply _. Defined.

Definition has_option (options : bytes) (s : string) : bool :=
  existsb (bytes_eqb (lit s)) (split_byte x2c options).

(** [r] is what the line says about the mount. *)
Definition describes (line : bytes) (r : UnverifiedRootMount) : Prop :=
  line_fields line !! 3%nat = Some (lit "/") /\
  exists dev mount_options fs_options sep,
    line_fields line !! 2%nat = Some dev /\ device dev = Ok (major r, minor r) /\
    line_fields line !! 5%nat = Some mount_options /\
    line_fields line !! sep = Some (lit "-") /\
    line_fields line !! (sep + 1)%nat = Some (filesystem r) /\
    line_fields line !! (sep + 3)%nat = Some fs_options /\
    read_only r = has_option mount_options "ro" && has_option fs_options "ro" /\
    (read_only r = true ->
     has_option mount_options "rw" = false /\ has_option fs_options "rw" = false).

Lemma get_lookup {A} (l : list A) i x : get l i = Some x -> l !! N.to_nat i = Some x.
Proof. by intros [_ ?]%get_Some. Qed.

Lemma parse_mount_line_Ok st line st' :
  parse_mount_line st line = Ok st' ->
  if decide (is_root_line line)
  then st = None /\ exists r, st' = Some r /\ describes line r
  else st' = st.
Proof.
  unfold parse_mount_line. intros Hp. inv_res.
  match goal with E : get _ 4 = Some ?m |- _ => apply get_lookup in E; rename E into H4; rename m into mp end.
  fold (line_fields line) in *.
  assert (bytes_eqb mp (lit "/") = bool_decide (is_root_line line)) as Hroot.
  { unfold bytes_eqb. apply bool_decide_ext. unfold is_root_line.
    change (N.to_nat 4) with 4%nat in H4. rewrite H4. naive_solver. }
  rewrite Hroot in Hp. destruct (decide (is_root_line line)) as [Hl|Hl].
  - rewrite bool_decide_eq_true_2 in Hp by done. cbn [negb] in Hp. inv_res.
    match goal with p : N * N |- _ => destruct p as [ma mi] end. inv_res.
    match goal with E : position _ _ = Some ?n |- _ =>
      apply position_Some in E as (_ & (sx & Hsep & Hsx) & _) end.
    apply bytes_eqb_eq in Hsx. subst sx.
    repeat match goal with E : get _ _ = Some _ |- _ => apply get_lookup in E end.
    rewrite !N2Nat.inj_add in *.
    change (N.to_nat 1) with 1%nat in *. change (N.to_nat 2) with 2%nat in *.
    change (N.to_nat 3) with 3%nat in *. change (N.to_nat 5) with 5%nat in *.
    bools. rewrite ?bytes_eqb_eq in *.
    destruct st; [done|]. split; [done|]. eexists. split; [done|]. split; [congruence|].
    do 4 eexists. split; [eassumption|]. split; [eassumption|]. split; [eassumption|].
    split; [exact Hsep|]. cbn [filesystem read_only].
    split; [eassumption|]. split; [eassumption|].
    split; [done|]. unfold has_option. rewrite andb_true_iff. intros [Hm Hf]. rewrite Hm, Hf in *.
    split; apply not_true_iff_false; intros Hrw; by rewrite Hrw in *.
  - rewrite bool_decide_eq_false_2 in Hp by done. by injection Hp as <-.
Qed.

Lemma parse_mount_lines_Ok l st r :
  for_each parse_mount_line st l = Ok (Some r) ->
  match st with
  | None => exists line, filter is_root_line l = [line] /\ describes line r
  | Some r0 => filter is_root_line l = [] /\ r = r0
  end.
Proof.
  revert st. induction l as [|line l IH]; intros st; cbn [for_each].
  { intros [= ->]. done. }
  intros (st' & Hl%parse_mount_line_Ok & Hr%IH)%bind_Ok. rewrite filter_cons.
  destruct (decide (is_root_line line)).
  - destruct Hl as [-> (r1 & -> & Hd)]. destruct Hr as [-> ->]. eauto.
  - by subst.
Qed.

Lemma collect_table_ok k m : collect_mounted_verity k = Ok m -> observation_ok k m.
Proof. intros Hc. pose proof (safe_collect k) as Hs. by rewrite Hc in Hs. Qed.

(** * Properties *)

(** An accepted mountinfo has exactly one line whose mount point is [/]; it is
    not a subtree mount, and the result reports its device, its type, and read-only
    exactly when both the mount and the file system options say [ro] (and not [rw]). *)
Theorem root_mount_unique b r :
  parse_root_mountinfo b = Ok r ->
  exists line, filter is_root_line (lines b) = [line] /\ describes line r.
Proof.
  unfold parse_root_mountinfo. intros Hp. inv_res.
  match goal with E : from_utf8 _ = Some _ |- _ => apply from_utf8_Some in E as [-> _] end.
  match goal with E : for_each _ _ _ = Ok _ |- _ => by apply parse_mount_lines_Ok in E end.
Qed.

(** Whatever the kernel returns, the collector neither panics (slices, the
    unchecked extent product) nor needs more than five buffer sizes, and an
    observation it returns has a well-formed table whose data extent is exactly the
    mapped sectors, with the same mountinfo before and after. *)
Theorem collect_mounted_verity_safe k :
  safe (collect_mounted_verity k) (observation_ok k).
Proof. apply safe_collect. Qed.

(** A policy that accepts a collected observation pins the Merkle root: the
    policy's text decodes to the very digest of the active table, both layers are
    read-only, no corruption was seen, and no option tolerates corruption. *)
Theorem observed_policy_pins_root k m policy :
  collect_mounted_verity k = Ok m -> check_observed_policy m policy = Ok tt ->
  exists d, hex_decode (expected_root_digest_hex policy) = Some d /\
    root_digest_hex (table m) = hex_encode d /\
    verity_digest_size (expected_hash_algorithm policy) = Some (blen d) /\
    read_only (root m) = true /\ mapper_read_only m = true /\ corruption_detected m = false /\
    Forall (fun p => tolerates_corruption p = false) (expected_optional_parameters policy).
Proof.
  intros (Ht & _ & _)%collect_table_ok Hp.
  destruct (tbl_root _ Ht) as (n & d & Hn & Hd & Hr).
  unfold check_observed_policy in Hp. inv_res. bools. rewrite ?bytes_eqb_eq in *.
  exists d. split_and!; try done.
  - rewrite <- hex_decode_lower.
    match goal with E : root_digest_hex (table m) = to_ascii_lowercase _ |- _ => rewrite <- E end.
    by rewrite Hr, hex_decode_encode.
  - congruence.
  - match goal with E : optional_parameters (table m) = _ |- _ => rewrite <- E end.
    apply Forall_forall. intros p Hin. apply not_true_iff_false. intros Htol.
    match goal with E : existsb _ _ = false |- _ => rewrite <- not_true_iff_false in E; apply E end.
    apply existsb_exists. exists p. split; [by apply list_elem_of_In|done].
Qed.

(** * Witnesses *)
Definition sample_mountinfo : bytes :=
  lit "22 1 253:0 / / ro,relatime - ext4 /dev/dm-0 ro" ++ [x0a]
  ++ lit "23 22 0:5 / /dev rw shared:2 - devtmpfs udev rw" ++ [x0a].
Definition sample_hex (n : nat) : bytes := hex_encode (replicate n x5a).
Definition sample_table_text : bytes :=
  lit "1 253:1 253:2 4096 4096 8 1 sha256 " ++ sample_hex 32 ++ lit " -".
Definition sample_target (params : bytes) : bytes :=
  N_to_le 8 0 ++ N_to_le 8 64 ++ N_to_le 4 0
  ++ N_to_le 4 (N.ldiff (40 + blen params + 1 + 7) 7) ++ lit "verity" ++ replicate 10 x00
  ++ params ++ [x00].
Definition sample_reply (params : bytes) : bytes :=
  let target := sample_target params in
  N_to_le 4 4 ++ replicate 8 x00 ++ N_to_le 4 (312 + blen target) ++ N_to_le 4 312
  ++ N_to_le 4 1 ++ replicate 4 x00 ++ N_to_le 4 33 ++ N_to_le 4 9 ++ replicate 4 x00
  ++ N_to_le 8 0xfd00 ++ lit "root" ++ replicate 124 x00 ++ lit "CRYPT-VERITY"
  ++ replicate 124 x00 ++ target.
Definition sample_kernel : Kernel := {|
  mountinfo_before := Some sample_mountinfo;
  mountinfo_after := Some sample_mountinfo;
  control_open := true;
  ioctl_table := fun _ => Some (sample_reply sample_table_text);
  ioctl_status := fun _ => Some (sample_reply (lit "V"));
  ioctl_again := fun _ => Some (sample_reply sample_table_text) |}.
Definition sample_verity_policy : MountedVerityPolicy := {|
  expected_root_digest_hex := to_ascii_uppercase (sample_hex 32);
  expected_hash_algorithm := lit "sha256"; expected_salt_hex := [];
  expected_data_blocks := 8; expected_data_block_size := 4096;
  expected_hash_block_size := 4096; expected_hash_start_block := 1;
  expected_format_version := 1; expected_filesystem := lit "ext4";
  expected_optional_parameters := [] |}.

Lemma root_mount_unique_witness :
  exists r line, parse_root_mountinfo sample_mountinfo = Ok r /\
    filter is_root_line (lines sample_mountinfo) = [line] /\ describes line r.
Proof.
  assert (exists r, parse_root_mountinfo sample_mountinfo = Ok r) as [r Hr]
    by (eexists; vm_compute; reflexivity).
  destruct (root_mount_unique _ _ Hr) as (line & Hl & Hd). by exists r, line.
Defined.

Lemma observed_policy_pins_root_witness :
  exists m d, collect_mounted_verity sample_kernel = Ok m /\
    root_digest_hex (table m) = hex_encode d.
Proof.
  assert (exists m, collect_mounted_verity sample_kernel = Ok m /\
    check_observed_policy m sample_verity_policy = Ok tt) as (m & Hm & Hp).
  { eexists. split; vm_compute; reflexivity. }
  destruct (observed_policy_pins_root _ _ _ Hm Hp) as (d & _ & Hd & _). exists m, d. split; [exact Hm|exact Hd].
Defined.
