(* ===== verification/Uki.v ===== *)
(** * Uki: the bounded PE parser of UKI images ([src/v2/src/boot/uki.rs])

    [UnverifiedUki::parse_pe], the section contents and the section digests.  The
    policies and the appraisal against a verified log are in [UkiSelection],
    [UkiExecution] and [UkiVerify]. *)
From S2P Require Import Prelude Bytes Ranges Text Crypto Boot.

Definition MAX_UKI_BYTES : N := 512 * 1024 * 1024.
Definition MAX_SECTIONS : N := 96.
Definition MAX_TEXT_BYTES : N := 64 * 1024.

Definition MEASURED_SECTIONS : list bytes :=
  [lit ".linux"; lit ".osrel"; lit ".cmdline"; lit ".initrd"; lit ".ucode"; lit ".splash";
   lit ".dtb"; lit ".uname"; lit ".sbat"; lit ".pcrpkey"; lit ".profile"; lit ".dtbauto";
   lit ".hwids"; lit ".efifw"].
Definition is_measured_section (name : bytes) : bool := existsb (bytes_eqb name) MEASURED_SECTIONS.

Record UnverifiedPeSection : Type := {
  name : bytes;
  virtual_size : N;
  virtual_address : N;
  raw_offset : N;
  raw_size : N;
}.
#[global] Instance UnverifiedPeSection_eq_dec : EqDecision UnverifiedPeSection.
Proof. solve_decision. Defined.

Record UnverifiedUki : Type := {
  uki_bytes : bytes;
  sections : list UnverifiedPeSection;
}.

(** ** Bounded fields *)
Definition field (b : bytes) (start len : N) : res BootError bytes :=
  end_ ← ok_or (checked_add usize_max start len) (Limit "PE offset");
  ok_or (get_range b start end_) (Uki "truncated PE field").
Definition u16_at (b : bytes) (start : N) : res BootError N :=
  f ← field b start 2; f ← expect_len 2 f; Ok (le_to_N f).
Definition u32_at (b : bytes) (start : N) : res BootError N :=
  f ← field b start 4; f ← expect_len 4 f; Ok (le_to_N f).
Definition range_end (start len : N) : res BootError N :=
  ok_or (checked_add usize_max start len) (Limit "PE range").

(** [disjoint]: sort the ranges; each starts where the one before ended, or later. *)
Definition disjoint (ranges : list (N * N)) (floor : N) : res BootError unit :=
  check_disjoint (Uki "overlapping PE sections or headers") ranges floor.

(** ** PE headers *)
Record PeHeader : Type := {
  pe_count : N;
  pe_optional : bytes;
  pe_directory_offset : N;
  pe_directory_count : N;
  pe_section_alignment : N;
  pe_file_alignment : N;
  pe_image_size : N;
  pe_headers_size : N;
  pe_table : bytes;
}.

Definition printable (c : byte) : bool := (0x21 <=? byte_N c) && (byte_N c <=? 0x7e).

Definition parse_pe_header (b : bytes) : res BootError PeHeader :=
  reject_if (MAX_UKI_BYTES <? blen b) (Limit "UKI file bytes");;
  mz ← field b 0 2;
  reject_if (negb (bytes_eqb mz (lit "MZ"))) (Uki "missing DOS image header");;
  pe ← u32_at b 0x3c;
  reject_if (pe <? 64) (Uki "invalid PE image header");;
  coff ← field b pe 24;
  signature ← index_range coff 0 4;
  reject_if (negb (bytes_eqb signature (lit "PE" ++ [x00; x00]))) (Uki "invalid PE image header");;
  count ← u16_at b (pe + 6);
  reject_if ((count =? 0) || (MAX_SECTIONS <? count)) (Limit "PE section count");;
  characteristics ← u16_at b (pe + 22);
  reject_if ((N.land characteristics 2 =? 0) || negb (N.land characteristics 0x2000 =? 0))
    (Uki "PE image is not a standalone executable");;
  optional_len ← u16_at b (pe + 20);
  optional ← field b (pe + 24) optional_len;
  magic ← u16_at optional 0;
  directory_offset ←
    (if magic =? 0x10b then Ok 96
     else if magic =? 0x20b then Ok 112
     else Err (Uki "unsupported PE optional-header format"));
  subsystem ← u16_at optional 68;
  reject_if (negb (subsystem =? 10)) (Uki "PE subsystem is not an EFI application");;
  directory_count ← u32_at optional (directory_offset - 4);
  reject_if (16 <? directory_count) (Uki "unsupported PE data-directory count");;
  field optional directory_offset (directory_count * 8);;
  section_alignment ← u32_at optional 32;
  file_alignment ← u32_at optional 36;
  reject_if (negb (is_power_of_two section_alignment) || negb (is_power_of_two file_alignment)
             || (section_alignment <? file_alignment)
             || negb ((512 <=? file_alignment) && (file_alignment <=? 65536))
             || ((section_alignment <? 4096) && negb (section_alignment =? file_alignment)))
    (Uki "unsupported PE section/file alignment");;
  image_size ← u32_at optional 56;
  headers_size ← u32_at optional 60;
  reject_if ((image_size =? 0) || (MAX_UKI_BYTES <? image_size)
             || negb (image_size mod section_alignment =? 0)
             || (headers_size =? 0) || (blen b <? headers_size) || (image_size <? headers_size)
             || negb (headers_size mod file_alignment =? 0))
    (Uki "invalid PE image/header size");;
  table_start ← range_end (pe + 24) optional_len;
  table ← field b table_start (count * 40);
  table_end ← range_end table_start (blen table);
  reject_if (headers_size <? table_end) (Uki "PE section table outside image headers");;
  Ok {| pe_count := count; pe_optional := optional; pe_directory_offset := directory_offset;
        pe_directory_count := directory_count; pe_section_alignment := section_alignment;
        pe_file_alignment := file_alignment; pe_image_size := image_size;
        pe_headers_size := headers_size; pe_table := table |}.

(** ** Section table *)
Record PeSections : Type := {
  acc_sections : list UnverifiedPeSection;
  acc_raw : list (N * N);
  acc_memory : list (N * N);
}.

Definition parse_section_name (entry : bytes) : res BootError bytes :=
  first8 ← index_range entry 0 8;
  let name_len := default 8 (position (Byte.eqb x00) first8) in
  head_byte ← index entry 0;
  nm ← index_range entry 0 name_len;
  pad ← index_range entry name_len 8;
  reject_if ((name_len =? 0) || Byte.eqb head_byte x2f || negb (forallb printable nm)
             || any_nonzero pad)
    (Uki "invalid PE section name");;
  unwrap (from_utf8 nm).

Definition parse_section (b : bytes) (h : PeHeader) (acc : PeSections) (entry : bytes) :
    res BootError PeSections :=
  nm ← parse_section_name entry;
  vsize ← u32_at entry 8;
  vaddr ← u32_at entry 12;
  rsize ← u32_at entry 16;
  roff ← u32_at entry 20;
  let loaded_extent := N.max vsize rsize in
  let bad_range := Uki "invalid PE virtual section range" in
  reject_if ((MAX_UKI_BYTES <? vsize) || (pe_image_size h <? loaded_extent)
             || negb (vaddr mod pe_section_alignment h =? 0)) bad_range;;
  vend ← range_end vaddr loaded_extent;
  reject_if (pe_image_size h <? vend) bad_range;;
  let memory := if 0 <? loaded_extent then acc_memory acc ++ [(vaddr, vend)] else acc_memory acc in
  raw ←
    (if 0 <? rsize then
       reject_if (negb (roff mod pe_file_alignment h =? 0)
                  || negb (rsize mod pe_file_alignment h =? 0))
         (Uki "unaligned PE raw section");;
       field b roff rsize;;
       rend ← range_end roff rsize;
       Ok (acc_raw acc ++ [(roff, rend)])
     else
       reject_if (negb (roff =? 0)) (Uki "uninitialized PE section has raw offset");;
       Ok (acc_raw acc));
  reject_if (is_measured_section nm && (vsize =? 0)) (Uki "empty measured UKI section");;
  coff_metadata ← index_range entry 24 36;
  reject_if (any_nonzero coff_metadata) (Uki "COFF object section metadata is unsupported");;
  Ok {| acc_sections := acc_sections acc ++
          [{| name := nm; virtual_size := vsize; virtual_address := vaddr;
              raw_offset := roff; raw_size := rsize |}];
        acc_raw := raw; acc_memory := memory |}.

(** The security directory: its range joins the raw ranges. *)
Definition certificate_range (b : bytes) (h : PeHeader) (raw : list (N * N)) :
    res BootError (list (N * N)) :=
  if 4 <? pe_directory_count h then
    cert_offset ← u32_at (pe_optional h) (pe_directory_offset h + 4 * 8);
    cert_size ← u32_at (pe_optional h) (pe_directory_offset h + 4 * 8 + 4);
    reject_if (negb (Bool.eqb (cert_offset =? 0) (cert_size =? 0)) || negb (cert_offset mod 8 =? 0))
      (Uki "invalid PE certificate directory");;
    if 0 <? cert_size then
      field b cert_offset cert_size;;
      cert_end ← range_end cert_offset cert_size;
      Ok (raw ++ [(cert_offset, cert_end)])
    else Ok raw
  else Ok raw.

Definition has_section (l : list UnverifiedPeSection) (nm : bytes) : bool :=
  existsb (fun s => bytes_eqb (name s) nm) l.

Definition parse_pe (b : bytes) (require_kernel : bool) : res BootError UnverifiedUki :=
  h ← parse_pe_header b;
  acc ← for_each (parse_section b h) {| acc_sections := []; acc_raw := []; acc_memory := [] |}
          (chunks_exact 40 (pe_table h));
  disjoint (acc_memory acc) (pe_headers_size h);;
  raw ← certificate_range b h (acc_raw acc);
  disjoint raw (pe_headers_size h);;
  reject_if (require_kernel && negb (has_section (acc_sections acc) (lit ".linux")))
    (Uki "UKI has no .linux section");;
  Ok {| uki_bytes := b; sections := acc_sections acc |}.

Definition parse (b : bytes) : res BootError UnverifiedUki := parse_pe b true.
Definition parse_addon (b : bytes) : res BootError UnverifiedUki :=
  image ← parse_pe b false;
  reject_if (has_section (sections image) (lit ".linux")) (Uki "addon contains kernel section");;
  Ok image.

(** ** Section contents *)
Definition section (u : UnverifiedUki) (nm : bytes) : option UnverifiedPeSection :=
  List.find (fun s => bytes_eqb (name s) nm) (sections u).

Definition file_content (u : UnverifiedUki) (s : UnverifiedPeSection) : res BootError bytes :=
  end_ ← plain_add usize_max (raw_offset s) (N.min (raw_size s) (virtual_size s));
  index_range (uki_bytes u) (raw_offset s) end_.

(** A streaming hasher is the bytes it was fed; [finalize] hashes them. *)
Fixpoint feed_zeros (fuel : nat) (fed : bytes) (zeros : N) : res BootError bytes :=
  if 0 <? zeros then
    match fuel with
    | O => NoFuel
    | S fuel =>
      let count := N.min zeros 4096 in
      feed_zeros fuel (fed ++ replicate (N.to_nat count) x00) (zeros - count)
    end
  else Ok fed.
Definition hash_loaded (h : bytes -> bytes) (b : bytes) (zeros : N) : res BootError bytes :=
  fed ← feed_zeros (N.to_nat (zeros / 4096 + 1)) b zeros; Ok (h fed).

Section SectionDigest.
Context {H : Sha2}.
Definition section_digest (u : UnverifiedUki) (s : UnverifiedPeSection) (algorithm : N) :
    res BootError bytes :=
  b ← file_content u s;
  zero_count ← unwrap (checked_sub (virtual_size s) (blen b));
  if algorithm =? TPM_ALG_SHA256 then hash_loaded sha256 b zero_count
  else if algorithm =? TPM_ALG_SHA384 then hash_loaded sha384 b zero_count
  else if algorithm =? TPM_ALG_SHA512 then hash_loaded sha512 b zero_count
  else Err (UnsupportedAlgorithm algorithm).
End SectionDigest.

Definition text_control (c : N) : bool :=
  char_is_control c && negb ((c =? 10) || (c =? 13) || (c =? 9)).

Definition section_text (u : UnverifiedUki) (s : UnverifiedPeSection) : res BootError bytes :=
  reject_if (MAX_TEXT_BYTES <? virtual_size s) (Limit "UKI text section bytes");;
  content ← file_content u s;
  let end_ := default (blen content) (position (Byte.eqb x00) content) in
  tail ← index_from content end_;
  reject_if (any_nonzero tail) (Uki "nonzero bytes after UKI text terminator");;
  body ← index_range content 0 end_;
  text ← ok_or (from_utf8 body) (Uki "invalid UTF-8 UKI metadata");
  reject_if (existsb text_control (chars text)) (Uki "unsupported control character in UKI metadata");;
  Ok text.

Definition text (u : UnverifiedUki) (nm : bytes) : res BootError (option bytes) :=
  match section u nm with
  | None => Ok None
  | Some s => t ← section_text u s; Ok (Some t)
  end.

(** * Lemmas *)

(** ** [disjoint] decides disjointness *)
Lemma decides_disjoint ranges floor :
  Forall nonempty_range ranges ->
  decides (disjoint ranges floor)
    (Forall (fun r => floor <= r.1) ranges /\ pairwise_apart ranges) (fun _ => True).
Proof. apply decides_check_disjoint. Qed.

(** ** Bounded fields *)
Lemma safe_field b start len (Q : bytes -> Prop) :
  (forall f, get_range b start (start + len) = Some f -> blen f = len ->
     start + len <= blen b -> Q f) ->
  safe (field b start len) Q.
Proof.
  intros HQ. unfold field. wp.
  match goal with E : checked_add _ _ _ = Some _ |- _ => apply checked_add_Some in E as [-> _] end.
  match goal with E : get_range _ _ _ = Some ?f |- _ =>
    pose proof (get_range_blen _ _ _ _ E); pose proof E as Hf; apply get_range_Some in E as [? _] end.
  apply HQ; [done|lia|lia].
Qed.

Lemma safe_u16_at b i (Q : N -> Prop) : (forall n, n <= u16_max -> Q n) -> safe (u16_at b i) Q.
Proof.
  intros HQ. unfold u16_at. apply safe_bind, safe_field. intros f _ Hf _.
  apply safe_bind, safe_expect_len; [done|]. simpl. apply HQ.
  pose proof (le_to_N_bound f) as Hb. rewrite Hf in Hb. change u16_max with (256 ^ 2 - 1). lia.
Qed.
Lemma safe_u32_at b i (Q : N -> Prop) : (forall n, n <= u32_max -> Q n) -> safe (u32_at b i) Q.
Proof.
  intros HQ. unfold u32_at. apply safe_bind, safe_field. intros f _ Hf _.
  apply safe_bind, safe_expect_len; [done|]. simpl. apply HQ.
  pose proof (le_to_N_bound f) as Hb. rewrite Hf in Hb. change u32_max with (256 ^ 4 - 1). lia.
Qed.
Lemma safe_range_end a l (Q : N -> Prop) :
  (a + l <= usize_max -> Q (a + l)) -> safe (range_end a l) Q.
Proof.
  intros HQ. unfold range_end. wp.
  match goal with E : checked_add _ _ _ = Some _ |- _ => apply checked_add_Some in E as [-> ?] end.
  auto.
Qed.

Ltac wpu := repeat (wp; first
  [ apply safe_u16_at; intros ? ? | apply safe_u32_at; intros ? ?
  | apply safe_range_end; intros ? | apply safe_field; intros ? ? ? ?
  | apply safe_index; [lia|]; intros ? ?
  | apply safe_index_range; [lia..|]; intros ? ? ?
  | apply safe_index_from; [lia|] ]); wp.

Lemma safe_parse_pe_header b :
  safe (parse_pe_header b) (fun h =>
    pe_section_alignment h <> 0 /\ pe_file_alignment h <> 0 /\ blen (pe_table h) = pe_count h * 40
    /\ blen b <= MAX_UKI_BYTES /\ 0 < pe_headers_size h).
Proof.
  unfold parse_pe_header. wpu. apply (safe_mono _ (fun _ => True)); [by repeat case_match|].
  intros dir _ _. wpu. bools. unfold is_power_of_two in *. bools. cbn. split_and!; try done. lia.
Qed.

(** ** What a parsed image guarantees *)
Record section_ok (b : bytes) (s : UnverifiedPeSection) : Prop := {
  sec_name : name s <> [] /\ forallb printable (name s) = true;
  sec_virtual : virtual_size s <= MAX_UKI_BYTES;
  sec_raw : raw_offset s + raw_size s <= blen b;
  sec_measured : is_measured_section (name s) = true -> 0 < virtual_size s;
}.

Definition raw_ranges (l : list UnverifiedPeSection) : list (N * N) :=
  (fun s => (raw_offset s, raw_offset s + raw_size s)) <$> filter (fun s => 0 < raw_size s) l.
Definition loaded_extent (s : UnverifiedPeSection) : N := N.max (virtual_size s) (raw_size s).
Definition memory_ranges (l : list UnverifiedPeSection) : list (N * N) :=
  (fun s => (virtual_address s, virtual_address s + loaded_extent s))
    <$> filter (fun s => 0 < loaded_extent s) l.

Record acc_ok (b : bytes) (acc : PeSections) : Prop := {
  acc_all : Forall (section_ok b) (acc_sections acc);
  acc_raw_ok : acc_raw acc = raw_ranges (acc_sections acc);
  acc_memory_ok : acc_memory acc = memory_ranges (acc_sections acc);
}.

Lemma printable_ascii s : forallb printable s = true -> is_Some (from_utf8 s).
Proof.
  intros Hs. unfold from_utf8. destruct (ascii_utf8 s) as [cs ->]; [|by eexists].
  apply forallb_forall. intros c Hc. rewrite forallb_forall in Hs. specialize (Hs c Hc).
  unfold printable in Hs. bools. lia.
Qed.

Lemma safe_parse_section_name entry :
  blen entry = 40 ->
  safe (parse_section_name entry) (fun nm => nm <> [] /\ forallb printable nm = true).
Proof.
  intros He. unfold parse_section_name. apply safe_bind, safe_index_range; [lia..|].
  intros first8 _ H8. cbv zeta.
  assert (default 8 (position (Byte.eqb x00) first8) <= 8) as Hl.
  { destruct (position _ first8) as [n|] eqn:Hn; [|done]. apply position_Some in Hn. cbn. lia. }
  revert Hl. generalize (default 8 (position (Byte.eqb x00) first8)). intros n Hn.
  wpu. bools.
  match goal with E : forallb printable ?nm = true |- _ =>
    destruct (printable_ascii _ E) as [t Ht]; apply safe_unwrap; exists t; split; [done|];
    apply from_utf8_Some in Ht as [-> _]; split; [|done]; intros -> end.
  match goal with E : blen [] = _ |- _ => rewrite blen_nil in E end. lia.
Qed.

Lemma filter_snoc {A} (P : A -> Prop) `{forall x, Decision (P x)} l x :
  filter P (l ++ [x]) = filter P l ++ if decide (P x) then [x] else [].
Proof. rewrite filter_app. by destruct (decide (P x)) as [Hx|Hx]; cbn; destruct (decide (P x)). Qed.

Lemma safe_parse_section b h acc entry :
  blen entry = 40 -> acc_ok b acc -> safe (parse_section b h acc entry) (acc_ok b).
Proof.
  intros He [Hall Hraw Hmem]. unfold parse_section.
  eapply safe_seq; [by apply safe_parse_section_name|]. intros nm _ Hnm.
  apply safe_bind, safe_u32_at. intros vsize _. apply safe_bind, safe_u32_at. intros vaddr _.
  apply safe_bind, safe_u32_at. intros rsize _. apply safe_bind, safe_u32_at. intros roff _.
  wpu. bools.
  match goal with |- safe _ ?Q => apply (safe_mono _ (fun raw => raw = (acc_raw acc ++
    if decide (0 < rsize) then [(roff, roff + rsize)] else []) /\ roff + rsize <= blen b)) end.
  { destruct (N.ltb_spec 0 rsize) as [Hr|Hr].
    - wpu. cbn. by rewrite decide_True.
    - wpu. bools. rewrite decide_False, app_nil_r by lia. split; [done|]. lia. }
  intros raw _ [-> Hin]. wpu. bools. cbn.
  split; cbn [acc_sections acc_raw acc_memory].
  - apply Forall_app. split; [done|]. constructor; [|constructor]. split; cbn [name virtual_size raw_offset raw_size]; auto.
    intros Hm. rewrite Hm in *. destruct_or?; [done|lia].
  - unfold raw_ranges. rewrite filter_snoc, fmap_app, Hraw. f_equal. cbn.
    by destruct (decide (0 < rsize)).
  - unfold memory_ranges. rewrite filter_snoc, fmap_app.
    change (loaded_extent {| virtual_size := _ |}) with (N.max vsize rsize).
    destruct (N.ltb_spec 0 (N.max vsize rsize)).
    + rewrite decide_True by done. by rewrite Hmem.
    + rewrite decide_False by lia. cbn. by rewrite app_nil_r.
Qed.

Record uki_wf (u : UnverifiedUki) : Prop := {
  uki_sections : Forall (section_ok (uki_bytes u)) (sections u);
  uki_raw : pairwise_apart (raw_ranges (sections u));
  uki_memory : pairwise_apart (memory_ranges (sections u));
  uki_size : blen (uki_bytes u) <= MAX_UKI_BYTES;
}.

Lemma raw_ranges_nonempty l : Forall nonempty_range (raw_ranges l).
Proof.
  apply Forall_forall. intros r (s & -> & [Hs _]%list_elem_of_filter)%list_elem_of_fmap.
  unfold nonempty_range. cbn. lia.
Qed.
Lemma memory_ranges_nonempty l : Forall nonempty_range (memory_ranges l).
Proof.
  apply Forall_forall. intros r (s & -> & [Hs _]%list_elem_of_filter)%list_elem_of_fmap.
  unfold nonempty_range. cbn. lia.
Qed.

Lemma pairwise_apart_app l l' : pairwise_apart (l ++ l') -> pairwise_apart l.
Proof.
  unfold pairwise_apart. induction l as [|x l IH]; cbn; [constructor|].
  intros Hp. inversion_clear Hp as [|? ? Hx Ht]. apply Forall_app in Hx as [Hx _].
  constructor; auto.
Qed.

(** The certificate range only adds to the raw ranges. *)
Lemma safe_certificate_range b h raw :
  Forall nonempty_range raw ->
  safe (certificate_range b h raw) (fun raw' =>
    (exists cert, raw' = raw ++ cert) /\ Forall nonempty_range raw').
Proof.
  intros Hraw. unfold certificate_range. destruct (4 <? pe_directory_count h).
  2: { split; [exists []; by rewrite app_nil_r|done]. }
  apply safe_bind, safe_u32_at. intros off _. apply safe_bind, safe_u32_at. intros size _.
  wp. destruct (N.ltb_spec 0 size) as [Hn|Hn].
  - wpu. cbn. split; [by eexists|]. apply Forall_app. split; [done|].
    constructor; [|constructor]. unfold nonempty_range. cbn. lia.
  - cbn. split; [exists []; by rewrite app_nil_r|done].
Qed.

Lemma safe_parse_pe b require_kernel :
  safe (parse_pe b require_kernel) (fun u =>
    uki_wf u /\ uki_bytes u = b /\
    (require_kernel = true -> has_section (sections u) (lit ".linux") = true)).
Proof.
  unfold parse_pe. eapply safe_seq; [apply safe_parse_pe_header|].
  intros h _ (_ & _ & _ & Hsize & _). eapply safe_seq.
  { apply (safe_for_each _ (acc_ok b)); [by split|]. intros acc entry Hin Hacc.
    apply safe_parse_section; [|done]. pose proof (chunks_exact_length 40 (pe_table h)) as Hc.
    rewrite Forall_forall in Hc. specialize (Hc _ Hin). unfold blen. lia. }
  intros acc _ [Hall Hraw Hmem]. rewrite Hmem.
  eapply safe_seq; [apply decides_safe, decides_disjoint, memory_ranges_nonempty|].
  intros _ _ [[_ Hm] _]. rewrite Hraw.
  eapply safe_seq; [apply safe_certificate_range, raw_ranges_nonempty|].
  intros raw _ [[cert ->] Hne].
  eapply safe_seq; [by apply decides_safe, decides_disjoint|].
  intros _ _ [[_ Hr%pairwise_apart_app] _]. apply safe_bind, safe_reject_if. intros Hk.
  cbn [safe uki_bytes sections]. split; [by split|]. split; [done|].
  intros ->. by destruct (has_section (acc_sections acc) (lit ".linux")).
Qed.

(** ** Contents and digests *)
Lemma safe_file_content u s (Q : bytes -> Prop) :
  uki_wf u -> section_ok (uki_bytes u) s ->
  (forall b, get_range (uki_bytes u) (raw_offset s)
     (raw_offset s + N.min (raw_size s) (virtual_size s)) = Some b ->
     blen b = N.min (raw_size s) (virtual_size s) -> Q b) ->
  safe (file_content u s) Q.
Proof.
  intros Hu Hs HQ. unfold file_content, plain_add.
  pose proof (sec_raw _ _ Hs). pose proof (uki_size _ Hu). unfold MAX_UKI_BYTES in *.
  apply safe_bind, safe_unwrap. eexists. split.
  { apply checked_add_Some. split; [done|]. change usize_max with (2 ^ 64 - 1). lia. }
  apply safe_index_range; [lia..|]. intros b Hb Hl. apply HQ; [done|lia].
Qed.

Lemma feed_zeros_spec fuel fed zeros :
  zeros < N.of_nat fuel * 4096 \/ zeros = 0 ->
  feed_zeros fuel fed zeros = Ok (fed ++ replicate (N.to_nat zeros) x00).
Proof.
  revert fed zeros. induction fuel as [|fuel IH]; intros fed zeros Hz; cbn [feed_zeros];
    destruct (N.ltb_spec 0 zeros) as [Hp|Hp].
  - lia.
  - replace zeros with 0 by lia. by rewrite app_nil_r.
  - rewrite IH by lia. rewrite <- app_assoc, <- replicate_add. do 3 f_equal. lia.
  - replace zeros with 0 by lia. by rewrite app_nil_r.
Qed.

Lemma hash_loaded_spec h b zeros :
  hash_loaded h b zeros = Ok (h (b ++ replicate (N.to_nat zeros) x00)).
Proof.
  unfold hash_loaded. rewrite feed_zeros_spec; [done|]. left. rewrite N2Nat.id.
  pose proof (N.div_mod zeros 4096 ltac:(lia)). pose proof (N.mod_upper_bound zeros 4096 ltac:(lia)).
  lia.
Qed.

(** The section as the loader maps it: file bytes, then zero fill. *)
Definition loaded_section (u : UnverifiedUki) (s : UnverifiedPeSection) : bytes :=
  let n := N.min (raw_size s) (virtual_size s) in
  default [] (get_range (uki_bytes u) (raw_offset s) (raw_offset s + n))
  ++ replicate (N.to_nat (virtual_size s - n)) x00.

Section Digest.
Context {H : Sha2}.
Lemma section_digest_spec u s alg :
  uki_wf u -> section_ok (uki_bytes u) s -> bank_supported alg ->
  section_digest u s alg = Ok (bank alg (loaded_section u s)) /\
  blen (loaded_section u s) = virtual_size s.
Proof.
  intros Hu Hs Hb. unfold section_digest, loaded_section.
  pose proof (safe_file_content u s (fun b => get_range (uki_bytes u) (raw_offset s)
     (raw_offset s + N.min (raw_size s) (virtual_size s)) = Some b /\
     blen b = N.min (raw_size s) (virtual_size s)) Hu Hs (fun b H1 H2 => conj H1 H2)) as Hc.
  destruct (file_content u s) as [b| | |] eqn:Hfc; cbn in Hc; try done.
  2: { exfalso. unfold file_content, plain_add, index_range in Hfc.
       destruct (checked_add _ _ _) as [x|]; cbn in Hfc; [|done].
       by destruct (get_range _ _ _). }
  destruct Hc as [-> Hl]. rewrite res_bind_Ok. cbn [from_option]. unfold checked_sub, id.
  rewrite (proj2 (N.leb_le _ _)) by lia. cbn [unwrap]. rewrite res_bind_Ok, Hl.
  rewrite !hash_loaded_spec. cbv zeta. split.
  - destruct Hb as [->|[->| ->]]; done.
  - rewrite blen_app, Hl. unfold blen. rewrite length_replicate. lia.
Qed.
End Digest.

(** * Properties *)

(** The PE parser never panics on any input, and an accepted image is well
    formed: every section's raw data lies in the file, raw ranges (with the
    certificate) and loaded ranges do not overlap each other or the headers, names
    are printable, measured sections are not empty, a UKI has a kernel. *)
Theorem parse_pe_sound b require_kernel :
  safe (parse_pe b require_kernel) (fun u =>
    uki_wf u /\ uki_bytes u = b /\
    (require_kernel = true -> has_section (sections u) (lit ".linux") = true)).
Proof. apply safe_parse_pe. Qed.

(** [disjoint] accepts a list of nonempty ranges exactly when all of them start
    at or after the floor and no two of them overlap, in whatever order they come. *)
Theorem disjoint_exact ranges floor :
  Forall nonempty_range ranges ->
  disjoint ranges floor = Ok tt <->
  Forall (fun r => floor <= r.1) ranges /\ pairwise_apart ranges.
Proof.
  intros Hn%(decides_disjoint _ floor). split.
  - intros Hd. rewrite Hd in Hn. apply Hn.
  - intros HP. destruct (disjoint ranges floor) as [[]|e| |]; cbn in Hn; tauto.
Qed.

Section UkiProperties.
Context {H : Sha2}.

(** For a section of a parsed image and a supported bank, [section_digest] never
    panics and equals the hash of the section as loaded: the file bytes cut to the
    virtual size, then zero fill up to it, however the hasher is fed. *)
Theorem section_digest_is_loaded_image b require_kernel u s alg :
  parse_pe b require_kernel = Ok u -> s ∈ sections u -> bank_supported alg ->
  section_digest u s alg = Ok (bank alg (loaded_section u s)) /\
  blen (loaded_section u s) = virtual_size s.
Proof.
  intros Hp Hs Hb. pose proof (safe_parse_pe b require_kernel) as Hsafe. rewrite Hp in Hsafe.
  destruct Hsafe as (Hu & _). pose proof (uki_sections _ Hu) as Hall.
  rewrite Forall_forall in Hall. apply section_digest_spec; auto.
Qed.
End UkiProperties.

(** * Witnesses *)
Lemma disjoint_exact_witness : disjoint [(600, 700); (512, 600)] 512 = Ok tt.
Proof.
  apply (disjoint_exact [(600, 700); (512, 600)] 512).
  - constructor; [reflexivity|]. constructor; [reflexivity|constructor].
  - split; [repeat constructor; cbn; lia|]. constructor; [|constructor; constructor].
    constructor; [right; cbn; lia|constructor].
Defined.

(** A minimal PE32+ image with one [.linux] section. *)
Definition sample_pe_section (nm : bytes) (vsize vaddr rsize roff : N) : bytes :=
  nm ++ replicate (8 - length nm) x00 ++ N_to_le 4 vsize ++ N_to_le 4 vaddr ++ N_to_le 4 rsize
  ++ N_to_le 4 roff ++ replicate 16 x00.
Definition sample_optional (image_size : N) : bytes :=
  N_to_le 2 0x20b ++ replicate 30 x00 ++ N_to_le 4 512 ++ N_to_le 4 512 ++ replicate 16 x00
  ++ N_to_le 4 image_size ++ N_to_le 4 512 ++ replicate 4 x00 ++ N_to_le 2 10 ++ replicate 42 x00.
Definition sample_image (table : list bytes) (content : bytes) : bytes :=
  let head := lit "MZ" ++ replicate 58 x00 ++ N_to_le 4 64 ++ lit "PE" ++ [x00; x00]
    ++ replicate 2 x00 ++ N_to_le 2 (blen table) ++ replicate 12 x00 ++ N_to_le 2 112
    ++ N_to_le 2 0x22 ++ sample_optional (512 + blen content) ++ concat table in
  head ++ replicate (512 - length head) x00 ++ content.
Definition sample_kernel_section : UnverifiedPeSection :=
  {| name := lit ".linux"; virtual_size := 5; virtual_address := 512;
     raw_offset := 512; raw_size := 512 |}.
Definition sample_uki : bytes :=
  sample_image [sample_pe_section (lit ".linux") 5 512 512 512] (lit "vmlin" ++ replicate 507 x00).

Lemma section_digest_is_loaded_image_witness :
  exists u, parse_pe sample_uki true = Ok u /\
    section_digest (H:=toy_sha2) u sample_kernel_section TPM_ALG_SHA256
    = Ok (bank (H:=toy_sha2) TPM_ALG_SHA256 (loaded_section u sample_kernel_section)).
Proof.
  exists {| uki_bytes := sample_uki; sections := [sample_kernel_section] |}.
  assert (parse_pe sample_uki true
    = Ok {| uki_bytes := sample_uki; sections := [sample_kernel_section] |}) as Hp
    by (vm_compute; reflexivity).
  split; [exact Hp|].
  refine (proj1 (section_digest_is_loaded_image (H:=toy_sha2) sample_uki true _ _ TPM_ALG_SHA256 Hp _ _)).
  - left.
  - by left.
Defined.
