(* ===== verification/UkiSelection.v ===== *)
(** * UkiSelection: profile overlay and device selection
    ([src/v2/src/boot/uki/selection.rs])

    Which sections of a parsed image systemd-stub measures for a profile: the base
    sections, overlaid by the chosen profile's; device trees and firmware blobs are
    matched by an independently supplied selector, through a bounded FDT parser. *)
From S2P Require Import Prelude Bytes Text Crypto Boot EventLog Replay Uki.

Record UkiSelectionPolicy : Type := {
  profile_index : N;
  profile_event : option N;
  expected_compatible : option bytes;
  expected_firmware_id : option bytes;
}.
Definition default_selection : UkiSelectionPolicy :=
  {| profile_index := 0; profile_event := None;
     expected_compatible := None; expected_firmware_id := None |}.

Definition selector_char (c : byte) : bool := (0x20 <=? byte_N c) && (byte_N c <? 0x7f).
Definition UkiSelectionPolicy_validate (p : UkiSelectionPolicy) : res BootError unit :=
  reject_if ((95 <? profile_index p)
             || ((profile_index p =? 0) && bool_decide (is_Some (profile_event p))))
    (Uki "invalid profile number or profile-zero event");;
  for_each (fun _ s =>
      reject_if ((blen s =? 0) || (4096 <? blen s) || negb (forallb selector_char s))
        (Uki "invalid independent device selector"))
    tt (omap id [expected_compatible p; expected_firmware_id p]).

(** ** Flattened device trees *)
Definition be32 (data : bytes) (offset : N) : res BootError N :=
  f ← field data offset 4; f ← expect_len 4 f; Ok (be_to_N f).

(** [(x) & !3] *)
Definition align4 (x : N) : N := N.ldiff x 3.

(** The property token: [at_] is behind it. *)
Definition fdt_property (structure strings : bytes) (at_ depth : N) (compatible : option bytes) :
    res BootError (N * option bytes) :=
  reject_if (depth =? 0) (Uki "FDT property outside node");;
  len ← be32 structure at_;
  name_offset ← be32 structure (at_ + 4);
  let at_ := at_ + 8 in
  value ← field structure at_ len;
  names ← ok_or (get_from strings name_offset) (Uki "FDT property name outside strings");
  n ← ok_or (position (Byte.eqb x00) names) (Uki "unterminated FDT property name");
  prop ← index_range names 0 n;
  compatible ←
    (if (depth =? 1) && bytes_eqb prop (lit "compatible") then
       reject_if (bool_decide (is_Some compatible) || negb (bool_decide (last value = Some x00)))
         (Uki "duplicate or unterminated compatible property");;
       end_ ← unwrap (position (Byte.eqb x00) value);
       reject_if (end_ =? 0) (Uki "empty FDT compatible");;
       s ← index_range value 0 end_;
       t ← ok_or (from_utf8 s) (Uki "invalid FDT compatible");
       Ok (Some t)
     else Ok compatible);
  padded ← ok_or (checked_add usize_max len 3) (Limit "FDT property");
  at_ ← range_end at_ (align4 padded);
  reject_if (blen structure <? at_) (Uki "FDT property exceeds structure");;
  Ok (at_, compatible).

Fixpoint fdt_walk (fuel : nat) (structure strings : bytes) (at_ depth : N)
    (compatible : option bytes) : res BootError (option bytes) :=
  if negb (at_ <? blen structure) then Err (Uki "missing FDT end token")
  else
    match fuel with
    | O => NoFuel
    | S fuel =>
      token ← be32 structure at_;
      let at_ := at_ + 4 in
      if token =? 1 then
        remaining ← index_from structure at_;
        n ← ok_or (position (Byte.eqb x00) remaining) (Uki "unterminated FDT node");
        reject_if ((depth =? 0) && (negb (n =? 0) || bool_decide (is_Some compatible)))
          (Uki "invalid FDT root");;
        at_ ← range_end at_ (align4 (n + 4));
        reject_if (blen structure <? at_) (Uki "FDT node exceeds block");;
        reject_if (128 <? depth + 1) (Limit "FDT nesting");;
        fdt_walk fuel structure strings at_ (depth + 1) compatible
      else if token =? 2 then
        depth ← ok_or (checked_sub depth 1) (Uki "unbalanced FDT node");
        fdt_walk fuel structure strings at_ depth compatible
      else if token =? 3 then
        '(at_, compatible) ← fdt_property structure strings at_ depth compatible;
        fdt_walk fuel structure strings at_ depth compatible
      else if token =? 4 then fdt_walk fuel structure strings at_ depth compatible
      else if token =? 9 then
        reject_if (negb (depth =? 0)) (Uki "unclosed FDT node");;
        Ok compatible
      else Err (Uki "unknown FDT structure token")
    end.

Definition fdt_first_compatible (data : bytes) : res BootError bytes :=
  let bad := Uki "invalid FDT v17 header" in
  reject_if (blen data <? 40) bad;;
  magic ← be32 data 0;
  reject_if (negb (magic =? 0xd00dfeed)) bad;;
  version ← be32 data 20;
  reject_if (negb (version =? 17)) bad;;
  compat_version ← be32 data 24;
  reject_if (17 <? compat_version) bad;;
  total ← be32 data 4;
  reject_if ((blen data <? total) || (32 * 1024 * 1024 <? total))
    (Uki "FDT total size outside section");;
  data ← index_range data 0 total;
  structure_offset ← be32 data 8;
  strings_offset ← be32 data 12;
  structure_size ← be32 data 36;
  strings_size ← be32 data 32;
  let overlap := Uki "overlapping or misaligned FDT blocks" in
  reject_if ((structure_offset <? 40) || negb (structure_offset mod 4 =? 0)
             || negb (structure_size mod 4 =? 0)) overlap;;
  structure_end ← range_end structure_offset structure_size;
  reject_if (strings_offset <? structure_end) overlap;;
  structure ← field data structure_offset structure_size;
  strings ← field data strings_offset strings_size;
  compatible ← fdt_walk (length structure) structure strings 0 0 None;
  ok_or compatible (Uki "FDT lacks root compatible property").

(** ** EFI firmware blobs *)
Definition efi_firmware_id (data : bytes) : res BootError bytes :=
  reject_if (blen data <? 16) (Uki "invalid EFI firmware blob header");;
  magic ← u32_at data 0;
  reject_if (negb (magic =? 0xfeeddead)) (Uki "invalid EFI firmware blob header");;
  header ← u32_at data 4;
  id_size ← u32_at data 8;
  payload ← u32_at data 12;
  reject_if ((header <? 16) || (id_size =? 0)) (Uki "invalid EFI firmware lengths");;
  id ← field data header id_size;
  payload_start ← range_end header id_size;
  field data payload_start payload;;
  let bad := Uki "invalid EFI firmware identifier terminator" in
  reject_if (negb (bool_decide (last id = Some x00))) bad;;
  len1 ← unwrap (checked_sub (blen id) 1);
  body ← index_range id 0 len1;
  reject_if (contains_byte x00 body) bad;;
  ok_or (from_utf8 body) (Uki "invalid EFI firmware identifier").

(** ** Selection *)
Definition section_matches (u : UnverifiedUki) (policy : UkiSelectionPolicy) (nm : bytes)
    (s : UnverifiedPeSection) : res BootError bool :=
  if bytes_eqb nm (lit ".dtbauto") then
    wanted ← ok_or (expected_compatible policy)
               (Uki ".dtbauto requires independent compatible selector");
    content ← file_content u s;
    found ← fdt_first_compatible content;
    Ok (bytes_eqb found wanted)
  else if bytes_eqb nm (lit ".efifw") then
    wanted ← ok_or (expected_firmware_id policy)
               (Uki ".efifw requires independent firmware selector");
    content ← file_content u s;
    found ← efi_firmware_id content;
    Ok (bytes_eqb found wanted)
  else Ok true.

(** The inner loop: the first matching section of that name. *)
Fixpoint pick (u : UnverifiedUki) (policy : UkiSelectionPolicy) (nm : bytes)
    (range : list UnverifiedPeSection) : res BootError (option UnverifiedPeSection) :=
  match range with
  | [] => Ok None
  | s :: range =>
    if negb (bytes_eqb (name s) nm) then pick u policy nm range
    else
      section_matches u policy nm s ≫= fun matching : bool =>
      if matching then Ok (Some s) else pick u policy nm range
  end.

Definition select_range (u : UnverifiedUki) (range : list UnverifiedPeSection)
    (policy : UkiSelectionPolicy) (chosen : gmap bytes UnverifiedPeSection) :
    res BootError (gmap bytes UnverifiedPeSection) :=
  for_each (fun chosen nm =>
      pick u policy nm range ≫= fun o : option UnverifiedPeSection =>
      Ok (if o is Some s then <[nm := s]> chosen else chosen))
    chosen MEASURED_SECTIONS.

Fixpoint profile_starts_from (i : N) (l : list UnverifiedPeSection) : list N :=
  match l with
  | [] => []
  | s :: l => (if bytes_eqb (name s) (lit ".profile") then [i] else [])
              ++ profile_starts_from (i + 1) l
  end.
Definition profile_starts (u : UnverifiedUki) : list N := profile_starts_from 0 (sections u).

Definition selected (u : UnverifiedUki) (policy : option UkiSelectionPolicy) :
    res BootError (gmap bytes UnverifiedPeSection) :=
  let policy := default default_selection policy in
  UkiSelectionPolicy_validate policy;;
  let starts := profile_starts u in
  let len := blen (sections u) in
  reject_if ((blen starts <=? profile_index policy)
             && negb ((blen starts =? 0) && (profile_index policy =? 0)))
    (Uki "requested UKI profile is absent");;
  base ← index_range (sections u) 0 (default len (get starts 0));
  chosen ← select_range u base policy ∅;
  chosen ←
    match get starts (profile_index policy) with
    | Some start =>
      let end_ := default len (get starts (profile_index policy + 1)) in
      range ← index_range (sections u) start end_;
      select_range u range policy chosen
    | None => Ok chosen
    end;
  reject_if (negb (bool_decide (is_Some (chosen !! lit ".linux"))))
    (Uki "selected profile lacks a kernel");;
  Ok chosen.

Definition selected_text (u : UnverifiedUki) (secs : gmap bytes UnverifiedPeSection) (nm : bytes) :
    res BootError (option bytes) :=
  match secs !! nm with
  | None => Ok None
  | Some s => t ← section_text u s; Ok (Some t)
  end.

(** ** Profile number *)

Section ProfileNumber.
Context {H : Sha2}.
Definition verify_uki_profile_number (v : VerifiedBootLog) (policy : UkiSelectionPolicy)
    (algorithm first_section_event : N) : res BootError (option N) :=
  match profile_event policy with
  | None => Ok None
  | Some i =>
    reject_if (negb (is_tpm (kind (vlog v))))
      (Uki "v258 profile-number tagged events require TPM coverage");;
    event ← ok_or (get (events (vlog v)) i) (UnauthenticatedEvent i);
    reject_if ((first_section_event <=? i) || negb (register_index event =? 12)
               || negb (reported_event_type event =? 6))
      (Uki "profile measurement must precede UKI sections in TPM PCR12");;
    verify_measured_bytes v i algorithm
      (u16s_to_le (encode_utf16 (to_decimal (profile_index policy)) ++ [0]));;
    Ok (Some (profile_index policy))
  end.
End ProfileNumber.

(** * Lemmas *)

(** ** The blob parsers do not panic and terminate *)
Lemma safe_be32 b i (Q : N -> Prop) :
  (forall n, i + 4 <= blen b -> Q n) -> safe (be32 b i) Q.
Proof.
  intros HQ. unfold be32. apply safe_bind, safe_field. intros f _ Hf Hi.
  apply safe_bind, safe_expect_len; [done|]. simpl. auto.
Qed.

Lemma last_position (c : byte) (b : bytes) :
  last b = Some c -> is_Some (position (Byte.eqb c) b).
Proof.
  intros Hl. destruct (position (Byte.eqb c) b) eqn:Hp; [by eexists|].
  apply position_None in Hp. rewrite forallb_forall in Hp.
  assert (In c b) as Hin by (apply list_elem_of_In; by apply last_Some_elem_of).
  specialize (Hp c Hin). by rewrite (proj2 (byte_eqb_eq c c)) in Hp.
Qed.

Lemma safe_fdt_property structure strings at_ depth compatible :
  safe (fdt_property structure strings at_ depth compatible)
    (fun '(at', _) => at_ <= at' /\ at' <= blen structure).
Proof.
  unfold fdt_property. wp. apply safe_be32. intros len _. wp. apply safe_be32. intros off _. wp.
  apply safe_field. intros value _ _ _. wp.
  match goal with E : position _ _ = Some _ |- _ => apply position_Some in E as (Hn & _) end.
  apply safe_index_range; [lia..|]. intros prop _ _.
  apply safe_bind, (safe_mono _ (fun _ => True)).
  - destruct (_ && _); [|done]. wp. bools.
    match goal with E : last value = _ |- _ => destruct (last_position _ _ E) as [end_ He] end.
    apply safe_unwrap. exists end_. split; [done|]. apply position_Some in He as (He & _).
    wp. apply safe_index_range; [lia..|]. intros. by wp.
  - intros compatible' _ _. wp. apply safe_range_end. intros _. wp. bools. cbn. lia.
Qed.

Lemma safe_fdt_walk fuel structure strings at_ depth compatible :
  blen structure - at_ <= N.of_nat fuel ->
  safe (fdt_walk fuel structure strings at_ depth compatible) (fun _ => True).
Proof.
  revert at_ depth compatible. induction fuel as [|fuel IH]; intros at_ depth compatible Hf;
    cbn [fdt_walk]; destruct (N.ltb_spec at_ (blen structure)) as [Hlt|]; try done; [lia|].
  cbn [negb]. apply safe_bind, safe_be32. intros token Hat. cbv zeta.
  repeat (case_match; [|try done]).
  - apply safe_bind, safe_index_from; [lia|]. wp. apply safe_range_end. intros _. wp. apply IH. lia.
  - wp. apply IH. lia.
  - eapply safe_seq; [apply safe_fdt_property|]. intros [at' c'] _ [? ?]. apply IH. lia.
  - apply IH. lia.
  - by wp.
Qed.

Lemma safe_fdt_first_compatible data : safe (fdt_first_compatible data) (fun _ => True).
Proof.
  unfold fdt_first_compatible. repeat (wp; apply safe_be32; intros ? ?). wp. bools.
  apply safe_index_range; [lia..|]. intros data' _ _.
  repeat (wp; apply safe_be32; intros ? ?). wp. apply safe_range_end. intros _. wp.
  apply safe_field. intros structure _ _ _. wp. apply safe_field. intros strings _ _ _. wp.
  eapply safe_mono; [apply safe_fdt_walk; unfold blen; lia|]. intros c _ _. by wp.
Qed.

Lemma safe_efi_firmware_id data : safe (efi_firmware_id data) (fun _ => True).
Proof.
  unfold efi_firmware_id. repeat (wp; apply safe_u32_at; intros ? ?). wp. bools.
  apply safe_field. intros id _ Hid _. wp. apply safe_range_end. intros _. wp.
  apply safe_field. intros _ _ _ _. wp.
  apply safe_unwrap. exists (blen id - 1). split; [apply checked_sub_Some; split; [done|lia]|].
  wp. apply safe_index_range; [lia..|]. intros. by wp.
Qed.

(** ** Profiles *)
Lemma profile_starts_from_bound l i k a :
  profile_starts_from i l !! k = Some a -> i <= a < i + blen l.
Proof.
  revert i k. induction l as [|s l IH]; intros i k; cbn [profile_starts_from]; [done|].
  rewrite blen_cons. destruct (bytes_eqb (name s) _); cbn [app].
  - destruct k as [|k]; cbn; [intros [= <-]; lia|]. intros Hk%IH. lia.
  - intros Hk%IH. lia.
Qed.

Lemma profile_starts_from_mono l i k a b :
  profile_starts_from i l !! k = Some a -> profile_starts_from i l !! S k = Some b -> a < b.
Proof.
  revert i k. induction l as [|s l IH]; intros i k; cbn [profile_starts_from]; [done|].
  destruct (bytes_eqb (name s) _); cbn [app].
  - destruct k as [|k]; [|apply IH]. intros [= <-] Hb%profile_starts_from_bound. lia.
  - apply IH.
Qed.

(** The sections before the first profile, and those of profile [i]. *)
Definition base_range (u : UnverifiedUki) : list UnverifiedPeSection :=
  match get (profile_starts u) 0 with
  | Some st => take (N.to_nat st) (sections u)
  | None => sections u
  end.
Definition profile_range (u : UnverifiedUki) (i : N) : list UnverifiedPeSection :=
  match get (profile_starts u) i with
  | None => []
  | Some st =>
    match get (profile_starts u) (i + 1) with
    | Some en => take (N.to_nat (en - st)) (drop (N.to_nat st) (sections u))
    | None => drop (N.to_nat st) (sections u)
    end
  end.

Lemma get_profile_start u i a :
  get (profile_starts u) i = Some a -> a < blen (sections u) /\
  forall b, get (profile_starts u) (i + 1) = Some b -> a < b.
Proof.
  intros [_ Ha]%get_Some. split; [by apply profile_starts_from_bound in Ha; lia|].
  intros b [_ Hb]%get_Some. rewrite N.add_1_r, N2Nat.inj_succ in Hb.
  by eapply profile_starts_from_mono.
Qed.

Lemma index_base_range {E} u :
  index_range (E:=E) (sections u) 0 (default (blen (sections u)) (get (profile_starts u) 0))
  = Ok (base_range u).
Proof.
  unfold index_range, base_range.
  destruct (get (profile_starts u) 0) as [st|] eqn:Hs; cbn [from_option]; unfold id.
  - apply get_profile_start in Hs as [Hs _].
    rewrite (proj2 (get_range_Some _ _ _ (take (N.to_nat st) (sections u)))); [done|].
    split; [lia|]. by rewrite N.sub_0_r, drop_0.
  - rewrite (proj2 (get_range_Some _ _ _ (sections u))); [done|]. split; [lia|].
    rewrite N.sub_0_r, drop_0, take_ge; [done|]. unfold blen. lia.
Qed.

Lemma index_profile_range {E} u i st :
  get (profile_starts u) i = Some st ->
  index_range (E:=E) (sections u) st
    (default (blen (sections u)) (get (profile_starts u) (i + 1))) = Ok (profile_range u i).
Proof.
  intros Hs. unfold index_range, profile_range. rewrite Hs.
  destruct (get_profile_start _ _ _ Hs) as [Hlt Hmono].
  destruct (get (profile_starts u) (i + 1)) as [en|] eqn:He; cbn [from_option]; unfold id.
  - specialize (Hmono en eq_refl). destruct (get_profile_start _ _ _ He) as [Hen _].
    rewrite (proj2 (get_range_Some _ _ _
      (take (N.to_nat (en - st)) (drop (N.to_nat st) (sections u))))); [done|]. split; [lia|done].
  - rewrite (proj2 (get_range_Some _ _ _ (drop (N.to_nat st) (sections u)))); [done|].
    split; [lia|]. rewrite take_ge; [done|]. rewrite length_drop. unfold blen. lia.
Qed.

(** ** First match, then overlay *)
Lemma MEASURED_SECTIONS_NoDup : NoDup MEASURED_SECTIONS.
Proof. apply (bool_decide_unpack _). vm_compute. exact I. Qed.

(** [o] is the first section of the range with that name that the selector matches. *)
Definition first_match (u : UnverifiedUki) (policy : UkiSelectionPolicy) (nm : bytes)
    (range : list UnverifiedPeSection) (o : option UnverifiedPeSection) : Prop :=
  let skipped x := name x = nm -> section_matches u policy nm x = Ok false in
  match o with
  | Some s => exists pre post, range = pre ++ s :: post /\ name s = nm /\
                section_matches u policy nm s = Ok true /\ Forall skipped pre
  | None => Forall skipped range
  end.

Lemma pick_Ok u policy nm range o :
  pick u policy nm range = Ok o -> first_match u policy nm range o.
Proof.
  induction range as [|s range IH]; cbn [pick]; [intros [= <-]; constructor|].
  destruct (bytes_eqb (name s) nm) eqn:Hn; cbn [negb].
  - apply bytes_eqb_eq in Hn. intros ([] & Hm & Hp)%bind_Ok.
    + injection Hp as <-. exists [], range. by split_and!.
    + apply IH in Hp. unfold first_match in *. destruct o as [s'|]; [|constructor; auto].
      destruct Hp as (pre & post & -> & ? & ? & ?). exists (s :: pre), post. by repeat constructor.
  - apply bytes_eqb_neq in Hn. intros Hp%IH. unfold first_match in *.
    destruct o as [s'|]; [|by constructor].
    destruct Hp as (pre & post & -> & ? & ? & ?). exists (s :: pre), post. by repeat constructor.
Qed.

Lemma select_names_Ok (u : UnverifiedUki) (range : list UnverifiedPeSection)
    (policy : UkiSelectionPolicy) (names : list bytes) (chosen chosen' : gmap bytes UnverifiedPeSection) :
  for_each (fun chosen nm => pick u policy nm range ≫= fun o : option UnverifiedPeSection =>
      Ok (if o is Some s then <[nm := s]> chosen else chosen)) chosen names = Ok chosen' ->
  NoDup names ->
  forall nm, (nm ∈ names -> exists o, first_match u policy nm range o /\
      chosen' !! nm = match o with Some s => Some s | None => chosen !! nm end) /\
    (nm ∉ names -> chosen' !! nm = chosen !! nm).
Proof.
  revert chosen. induction names as [|x names IH]; intros chosen; cbn [for_each].
  { intros [= <-] _ nm. split; [by intros ?%elem_of_nil|done]. }
  intros (chosen1 & (o & Ho%pick_Ok & [= <-])%bind_Ok & Hn)%bind_Ok Hnd nm.
  apply NoDup_cons in Hnd as [Hx Hnd]. destruct (IH _ Hn Hnd nm) as [Hin Hout].
  assert (nm <> x -> (if o is Some s then <[x := s]> chosen else chosen) !! nm = chosen !! nm) as Hne.
  { intros. destruct o; [|done]. by rewrite lookup_insert_ne. }
  rewrite elem_of_cons. split.
  - intros [->|Hnm].
    + exists o. split; [done|]. rewrite (Hout Hx). destruct o; [|done]. by rewrite lookup_insert_eq.
    + destruct (Hin Hnm) as (o' & Ho' & ->). exists o'. split; [done|].
      rewrite Hne; [done|]. by intros ->.
  - intros Hnm. rewrite Hout, Hne by tauto. done.
Qed.

Lemma safe_section_matches u policy nm s :
  uki_wf u -> section_ok (uki_bytes u) s ->
  safe (section_matches u policy nm s) (fun _ => True).
Proof.
  intros Hu Hs. unfold section_matches. destruct (bytes_eqb nm (lit ".dtbauto")).
  - wp. apply (safe_file_content u s); [done|done|]. intros content _ _.
    eapply safe_seq; [apply safe_fdt_first_compatible|done].
  - destruct (bytes_eqb nm (lit ".efifw")); [|done]. wp.
    apply (safe_file_content u s); [done|done|]. intros content _ _.
    eapply safe_seq; [apply safe_efi_firmware_id|done].
Qed.

Lemma safe_pick u policy nm range :
  uki_wf u -> Forall (section_ok (uki_bytes u)) range ->
  safe (pick u policy nm range) (fun _ => True).
Proof.
  intros Hu. induction 1 as [|s range Hs _ IH]; cbn [pick]; [done|].
  destruct (negb _); [done|]. eapply safe_seq; [by apply safe_section_matches|].
  by intros [] _ _.
Qed.

Lemma safe_select_range u range policy chosen :
  uki_wf u -> Forall (section_ok (uki_bytes u)) range ->
  safe (select_range u range policy chosen) (fun _ => True).
Proof.
  intros Hu Hr. unfold select_range. apply (safe_for_each _ (fun _ => True)); [done|].
  intros c nm _ _. eapply safe_seq; [by apply safe_pick|done].
Qed.

Lemma range_sections u i :
  Forall (section_ok (uki_bytes u)) (sections u) ->
  Forall (section_ok (uki_bytes u)) (base_range u) /\
  Forall (section_ok (uki_bytes u)) (profile_range u i).
Proof.
  intros Hall. unfold base_range, profile_range.
  split; repeat case_match; auto using Forall_take, Forall_drop.
Qed.

Lemma safe_UkiSelectionPolicy_validate p :
  safe (UkiSelectionPolicy_validate p) (fun _ => True).
Proof.
  unfold UkiSelectionPolicy_validate. wp. apply (safe_for_each _ (fun _ => True)); [done|].
  intros [] s _ _. by wp.
Qed.

(** [chosen] is the overlay of the profile's first matches on the base's. *)
Definition overlay (u : UnverifiedUki) (policy : UkiSelectionPolicy)
    (chosen : gmap bytes UnverifiedPeSection) : Prop :=
  forall nm,
    if is_measured_section nm
    then exists ob op, first_match u policy nm (base_range u) ob /\
           first_match u policy nm (profile_range u (profile_index policy)) op /\
           chosen !! nm = match op with Some s => Some s | None => ob end
    else chosen !! nm = None.

Lemma is_measured_section_elem nm : is_measured_section nm = true <-> nm ∈ MEASURED_SECTIONS.
Proof.
  unfold is_measured_section. rewrite existsb_exists. split.
  - intros (x & Hin & ->%bytes_eqb_eq). by apply list_elem_of_In.
  - intros Hin. exists nm. split; [by apply list_elem_of_In|]. by apply bytes_eqb_eq.
Qed.

Lemma selected_Ok u policy chosen :
  selected u policy = Ok chosen ->
  overlay u (default default_selection policy) chosen /\ is_Some (chosen !! lit ".linux").
Proof.
  unfold selected. cbv zeta. generalize (default default_selection policy). intros p Hs.
  rewrite index_base_range in Hs. inv_res. bools. split; [|done].
  match goal with E : select_range u (base_range u) p ∅ = Ok _ |- _ =>
    pose proof (select_names_Ok _ _ _ _ _ _ E MEASURED_SECTIONS_NoDup) as Hbase end.
  intros nm. destruct (Hbase nm) as [Hin Hout]. clear Hbase.
  destruct (get (profile_starts u) (profile_index p)) as [st|] eqn:Hst.
  - rewrite (index_profile_range u _ _ Hst), res_bind_Ok in *.
    match goal with E : select_range u (profile_range _ _) p _ = Ok _ |- _ =>
      destruct (select_names_Ok _ _ _ _ _ _ E MEASURED_SECTIONS_NoDup nm) as [Hin' Hout'] end.
    destruct (is_measured_section nm) eqn:Hm.
    + apply is_measured_section_elem in Hm. destruct (Hin Hm) as (ob & Hob & Eb).
      destruct (Hin' Hm) as (op & Hop & Ep). exists ob, op. split_and!; [done|done|].
      rewrite Ep, Eb. destruct op, ob; done.
    + assert (nm ∉ MEASURED_SECTIONS) as Hn by (rewrite <- is_measured_section_elem; congruence).
      by rewrite Hout', Hout.
  - inv_res. destruct (is_measured_section nm) eqn:Hm.
    + apply is_measured_section_elem in Hm. destruct (Hin Hm) as (ob & Hob & Eb).
      exists ob, None. split; [done|]. unfold profile_range. rewrite Hst.
      split; [constructor|]. rewrite Eb. by destruct ob.
    + assert (nm ∉ MEASURED_SECTIONS) as Hn by (rewrite <- is_measured_section_elem; congruence).
      by rewrite Hout.
Qed.

Lemma safe_selected u policy :
  uki_wf u -> safe (selected u policy) (fun _ => True).
Proof.
  intros Hu. unfold selected. cbv zeta. generalize (default default_selection policy). intros p.
  destruct (range_sections u (profile_index p) (uki_sections _ Hu)) as [Hb Hp].
  eapply safe_seq; [apply safe_UkiSelectionPolicy_validate|]. intros _ _ _. wp.
  rewrite index_base_range. cbn [safe].
  eapply safe_seq; [by apply safe_select_range|]. intros chosen _ _.
  apply safe_bind, (safe_mono _ (fun _ => True)).
  - destruct (get (profile_starts u) (profile_index p)) as [st|] eqn:Hst; [|done].
    rewrite (index_profile_range u _ _ Hst), res_bind_Ok. by apply safe_select_range.
  - intros chosen' _ _. by wp.
Qed.

(** * Properties *)

(** Section selection is an overlay of first matches: for every measured name the
    chosen section is the first matching one of the selected profile, else the first
    matching one before any profile; device trees and firmware blobs count only when
    their embedded identifier equals the independent selector; no other name is
    chosen, and the kernel always is. *)
Theorem selection_is_overlay u policy chosen :
  selected u policy = Ok chosen ->
  overlay u (default default_selection policy) chosen /\ is_Some (chosen !! lit ".linux").
Proof. apply selected_Ok. Qed.

(** Selecting sections of a parsed image never panics and always terminates,
    whatever device trees and firmware blobs the image embeds. *)
Theorem selected_never_panics b require_kernel u policy :
  parse_pe b require_kernel = Ok u -> safe (selected u policy) (fun _ => True).
Proof.
  intros Hp. apply safe_selected. pose proof (safe_parse_pe b require_kernel) as Hs.
  rewrite Hp in Hs. apply Hs.
Qed.

(** * Witnesses *)
Definition sample_profile_uki : bytes :=
  sample_image
    [sample_pe_section (lit ".linux") 5 512 512 512;
     sample_pe_section (lit ".cmdline") 4 1024 512 1024;
     sample_pe_section (lit ".profile") 3 1536 512 1536;
     sample_pe_section (lit ".cmdline") 6 2048 512 2048]
    (lit "vmlin" ++ replicate 507 x00 ++ lit "base" ++ replicate 508 x00
     ++ lit "ID=" ++ replicate 509 x00 ++ lit "second" ++ replicate 506 x00).

Definition sample_profile_image : UnverifiedUki := {|
  uki_bytes := sample_profile_uki;
  sections :=
    [{| name := lit ".linux"; virtual_size := 5; virtual_address := 512;
        raw_offset := 512; raw_size := 512 |};
     {| name := lit ".cmdline"; virtual_size := 4; virtual_address := 1024;
        raw_offset := 1024; raw_size := 512 |};
     {| name := lit ".profile"; virtual_size := 3; virtual_address := 1536;
        raw_offset := 1536; raw_size := 512 |};
     {| name := lit ".cmdline"; virtual_size := 6; virtual_address := 2048;
        raw_offset := 2048; raw_size := 512 |}] |}.
Lemma sample_profile_parse : parse_pe sample_profile_uki true = Ok sample_profile_image.
Proof. vm_compute. reflexivity. Qed.
Definition sample_chosen : gmap bytes UnverifiedPeSection :=
  unwrap_or (selected sample_profile_image None) ∅.
Lemma sample_selected : selected sample_profile_image None = Ok sample_chosen.
Proof. vm_cast_no_check (eq_refl (Ok (E:=BootError) sample_chosen)). Qed.

Lemma selection_is_overlay_witness :
  overlay sample_profile_image default_selection sample_chosen /\
  (virtual_size <$> (sample_chosen !! lit ".cmdline")) = Some 6.
Proof.
  split; [|vm_compute; reflexivity].
  exact (proj1 (selection_is_overlay sample_profile_image None sample_chosen sample_selected)).
Defined.

Lemma selected_never_panics_witness :
  safe (selected sample_profile_image None) (fun _ => True).
Proof. exact (selected_never_panics _ _ _ None sample_profile_parse). Defined.

(** A device tree whose root node says [compatible = "x,y"]. *)
Definition sample_fdt : bytes :=
  let structure := N_to_be 4 1 ++ replicate 4 x00 ++ N_to_be 4 3 ++ N_to_be 4 4 ++ N_to_be 4 0
    ++ lit "x,y" ++ [x00] ++ N_to_be 4 2 ++ N_to_be 4 9 in
  let strings := lit "compatible" ++ [x00] in
  N_to_be 4 0xd00dfeed ++ N_to_be 4 (40 + blen structure + blen strings) ++ N_to_be 4 40
  ++ N_to_be 4 (40 + blen structure) ++ N_to_be 4 40 ++ N_to_be 4 17 ++ N_to_be 4 16
  ++ N_to_be 4 0 ++ N_to_be 4 (blen strings) ++ N_to_be 4 (blen structure) ++ structure ++ strings.
Example sample_fdt_compatible : fdt_first_compatible sample_fdt = Ok (lit "x,y").
Proof. vm_compute. reflexivity. Qed.
