(* ===== verification/UkiExecution.v ===== *)
(** * UkiExecution: measured command-line composition
    ([src/v2/src/boot/uki/execution.rs])

    [mangle], the joined addon text, the execution policy and
    [VerifiedBootLog::verify_uki_execution], which accounts for every measurement of
    the configuration register. *)
From S2P Require Import Prelude Bytes Text Crypto Boot EventLog Replay CommandLine Uki UkiSelection.

Inductive UkiCommandLineBase : Type :=
| Embedded
| LoadOptions (event_index : N) (expected_text : bytes).
Record UkiMeasuredAppend : Type := {
  append_event_index : N;
  expected_fragments : list bytes;
}.
Inductive UkiAddonKind : Type := DeviceTree | Microcode | Initrd.
Record UkiAddonMeasurement : Type := {
  addon_kind : UkiAddonKind;
  addon_event_index : N;
  expected_digest_hex : bytes;
}.
Record UkiExecutionPolicy : Type := {
  base : UkiCommandLineBase;
  addons : option UkiMeasuredAppend;
  smbios : option UkiMeasuredAppend;
  binary_addons : list UkiAddonMeasurement;
  expected_effective_command_line : bytes;
  execution_verity_root : option bytes;
  other_config_events : gmap N bytes;
}.

(** ** Command-line text *)

(** [c <= '\u{20}' || c == '\u{7f}']: such characters are single bytes. *)
Definition mangled (c : byte) : bool := (byte_N c <=? 0x20) || (byte_N c =? 0x7f).
Definition mangle (t : bytes) : bytes :=
  (fun c => if mangled c then x20 else c) <$> trim_matches mangled t.

Definition canonical (t : bytes) : res BootError unit :=
  reject_if ((MAX_TEXT_BYTES <? blen t) || contains_byte x00 t || (blen t =? 0)
             || negb (bytes_eqb (mangle t) t))
    (Uki "noncanonical or oversized measured load options").

Definition join_fragment (out : bytes) (fragment : bytes) : res BootError bytes :=
  let out := (if out is [] then out else out ++ [x20]) ++ mangle fragment in
  reject_if (MAX_TEXT_BYTES <? blen out) (Limit "joined addon command line");;
  Ok out.

Definition append_text (p : UkiMeasuredAppend) : res BootError bytes :=
  reject_if ((blen (expected_fragments p) =? 0)
             || existsb (fun s => (MAX_TEXT_BYTES <? blen s) || contains_byte x00 s)
                  (expected_fragments p))
    (Uki "missing or oversized addon command-line fragment");;
  out ← for_each join_fragment [] (expected_fragments p);
  let out := mangle out in
  canonical out;;
  Ok out.

(** ** Policy *)
Definition verity_root_text_ok (s : bytes) : bool :=
  ((blen s =? 64) || (blen s =? 96) || (blen s =? 128)) && all_hex s.

Section Policy.
Context {H : Sha2}.
Definition UkiExecutionPolicy_validate (p : UkiExecutionPolicy) (algorithm : N) :
    res BootError unit :=
  empty ← hash algorithm [];
  let size := blen empty * 2 in
  reject_if ((MAX_TEXT_BYTES <? blen (expected_effective_command_line p))
             || (96 <? blen (binary_addons p))
             || (65536 <? N.of_nat (base.size (other_config_events p))))
    (Limit "UKI execution policy");;
  (if base p is LoadOptions _ expected_text then canonical expected_text else Ok tt);;
  for_each (fun _ append =>
      reject_if (96 <? blen (expected_fragments append)) (Limit "UKI addon fragments");;
      append_text append;; Ok tt)
    tt (omap id [addons p; smbios p]);;
  reject_if (if smbios p is Some a then negb (blen (expected_fragments a) =? 1) else false)
    (Uki "SMBIOS appends exactly one approved string");;
  for_each (fun _ digest =>
      reject_if (negb (blen digest =? size) || negb (all_hex digest))
        (Uki "invalid configuration measurement digest"))
    tt ((expected_digest_hex <$> binary_addons p)
        ++ (btree_iter N.le (other_config_events p)).*2);;
  reject_if (if execution_verity_root p is Some s then negb (verity_root_text_ok s) else false)
    (Uki "invalid execution verity root").
End Policy.

(** ** Verified sections and executions *)
Record VerifiedUkiSection : Type := {
  vs_name : bytes;
  name_event_index : N;
  data_event_index : N;
  measured_size : N;
  digest_hex : bytes;
}.
Record VerifiedAddonMeasurement : Type := {
  va_kind : UkiAddonKind;
  va_event_index : N;
  va_digest_hex : bytes;
}.
Record VerifiedUkiExecution : Type := {
  effective_command_line : bytes;
  configuration_event_indices : list N;
  vx_binary_addons : list VerifiedAddonMeasurement;
  vx_dm_verity : option DmVerityCommitment;
}.
Inductive UkiProfile : Type := SystemdStubV258.
Record VerifiedUki : Type := {
  vu_profile : UkiProfile;
  vu_algorithm : N;
  vu_sections : list VerifiedUkiSection;
  embedded_command_line : option bytes;
  os_release : option bytes;
  kernel_release : option bytes;
  vu_dm_verity : option DmVerityCommitment;
  authenticated_profile_index : option N;
  vu_execution : option VerifiedUkiExecution;
}.

Section Execution.
Context {H : Sha2}.

Definition config_register (k : LogKind) : N := if is_tpm k then 12 else 3.

(** The mutable state that the closures and loops of the function share. *)
Record Accounting : Type := {
  last_index : N;
  accounted : gset N;
}.

(** [covered.insert(index)] answers whether the index was new. *)
Definition is_new (st : Accounting) (i : N) : bool := negb (bool_decide (i ∈ accounted st)).

Definition recheck_section (v : VerifiedBootLog) (algorithm : N) (st : gset N)
    (s : VerifiedUkiSection) : res BootError (gset N) :=
  verify_measured_bytes v (name_event_index s) algorithm (vs_name s ++ [x00]);;
  d ← ok_or (hex_decode (digest_hex s)) (Uki "invalid verified section digest");
  verify_expected_digest v (data_event_index s) algorithm d;;
  Ok (if is_tdx (kind (vlog v))
      then {[data_event_index s]} ∪ ({[name_event_index s]} ∪ st) else st).

Definition record_text (v : VerifiedBootLog) (algorithm : N) (st : Accounting) (i : N) (t : bytes) :
    res BootError Accounting :=
  canonical t;;
  event ← ok_or (get (events (vlog v)) i) (UnauthenticatedEvent i);
  reject_if ((i <=? last_index st)
             || negb (register_index event =? config_register (kind (vlog v)))
             || negb (reported_event_type event =? EV_IPL)
             || negb (is_new st i))
    (Uki "load-option measurements have invalid order, coverage, or register");;
  verify_measured_bytes v i algorithm (u16s_to_le (encode_utf16 t ++ [0]));;
  Ok {| last_index := i; accounted := {[i]} ∪ accounted st |}.

(** [if !line.is_empty() { line.push(' ') } line.push_str(text)] *)
Definition append_line (line t : bytes) : bytes :=
  (if line is [] then line else line ++ [x20]) ++ t.

Definition apply_append (v : VerifiedBootLog) (algorithm : N) (is_smbios : bool)
    (append : option UkiMeasuredAppend) (st : Accounting * bytes) :
    res BootError (Accounting * bytes) :=
  match append with
  | None => Ok st
  | Some append =>
    let '(acc, line) := st in
    reject_if (is_smbios && is_tdx (kind (vlog v)))
      (Uki "v258 ignores SMBIOS command lines in confidential VMs");;
    t ← append_text append;
    acc ← record_text v algorithm acc (append_event_index append) t;
    Ok (acc, append_line line t)
  end.

Definition addon_stage (k : UkiAddonKind) : N :=
  match k with DeviceTree => 0 | Microcode => 1 | Initrd => 2 end.

Definition verify_addon (v : VerifiedBootLog) (algorithm : N)
    (st : Accounting * N * list VerifiedAddonMeasurement) (addon : UkiAddonMeasurement) :
    res BootError (Accounting * N * list VerifiedAddonMeasurement) :=
  let '(acc, stage, out) := st in
  reject_if (negb (is_tpm (kind (vlog v))))
    (Uki "v258 binary addon measurements require TPM coverage");;
  let next_stage := addon_stage (addon_kind addon) in
  let i := addon_event_index addon in
  event ← ok_or (get (events (vlog v)) i) (UnauthenticatedEvent i);
  reject_if ((next_stage <? stage) || (i <=? last_index acc)
             || negb (register_index event =? 12) || negb (reported_event_type event =? 6)
             || negb (is_new acc i))
    (Uki "invalid addon measurement order or register");;
  digest ← ok_or (hex_decode (expected_digest_hex addon)) (Uki "invalid addon digest");
  verify_expected_digest v i algorithm digest;;
  Ok ({| last_index := i; accounted := {[i]} ∪ accounted acc |}, next_stage,
      out ++ [{| va_kind := addon_kind addon; va_event_index := i;
                 va_digest_hex := hex_encode digest |}]).

Definition verify_other (v : VerifiedBootLog) (algorithm : N) (st : gset N) (kv : N * bytes) :
    res BootError (gset N) :=
  let '(i, digest) := kv in
  event ← ok_or (get (events (vlog v)) i) (UnauthenticatedEvent i);
  reject_if (negb (register_index event =? config_register (kind (vlog v)))
             || bool_decide (i ∈ st))
    (Uki "duplicate or wrong-register additional configuration event");;
  d ← ok_or (hex_decode digest) (Uki "invalid configuration digest");
  verify_expected_digest v i algorithm d;;
  Ok ({[i]} ∪ st).

(** The loop over all events of the log: nothing of the register is left over. *)
Fixpoint unaccounted (register : N) (covered : gset N) (i : N) (evs : list Event) : bool :=
  match evs with
  | [] => false
  | e :: evs =>
    ((register_index e =? register) && negb (reported_event_type e =? EV_NO_ACTION)
     && negb (bool_decide (i ∈ covered)))
    || unaccounted register covered (i + 1) evs
  end.

Definition list_max (l : list N) : option N :=
  match l with [] => None | x :: l => Some (foldl N.max x l) end.

Definition verify_uki_execution (v : VerifiedBootLog) (uki : VerifiedUki)
    (policy : UkiExecutionPolicy) : res BootError VerifiedUkiExecution :=
  let algorithm := vu_algorithm uki in
  UkiExecutionPolicy_validate policy algorithm;;
  let register := config_register (kind (vlog v)) in
  last_section ← ok_or (list_max (data_event_index <$> vu_sections uki))
                   (Uki "missing authenticated UKI sections");
  covered ← for_each (recheck_section v algorithm) ∅ (vu_sections uki);
  let acc := {| last_index := last_section; accounted := covered |} in
  '(acc, line) ←
    match base policy with
    | Embedded => Ok (acc, mangle (default [] (embedded_command_line uki)))
    | LoadOptions i t => acc ← record_text v algorithm acc i t; Ok (acc, t)
    end;
  '(acc, line) ← apply_append v algorithm false (addons policy) (acc, line);
  '(acc, line) ← apply_append v algorithm true (smbios policy) (acc, line);
  '(acc, _, out) ← for_each (verify_addon v algorithm) (acc, 0, []) (binary_addons policy);
  covered ← for_each (verify_other v algorithm) (accounted acc)
              (btree_iter N.le (other_config_events policy));
  reject_if (unaccounted register covered 0 (events (vlog v)))
    (Uki "unaccounted configuration-register measurement");;
  reject_if (negb (bytes_eqb line (expected_effective_command_line policy)))
    (Uki "reconstructed effective command line differs from policy");;
  dm ←
    match execution_verity_root policy with
    | None => Ok None
    | Some r =>
      d ← ok_or (hex_decode r) (Uki "invalid expected execution verity root");
      c ← verify_dm_verity {| mcl_event_index := last_section; mcl_algorithm := algorithm;
                              mcl_profile := SystemdUkiEmbedded; command_line := line |} d;
      Ok (Some c)
    end;
  Ok {| effective_command_line := line;
        configuration_event_indices := merge_sort N.le (elements covered);
        vx_binary_addons := out; vx_dm_verity := dm |}.
End Execution.

(** * Lemmas *)

(** ** [mangle] is idempotent *)
Lemma trim_start_head p s :
  match trim_start_matches p s with [] => True | x :: _ => p x = false end.
Proof. induction s as [|x s IH]; cbn; [done|]. by destruct (p x) eqn:Hp. Qed.

Lemma trim_start_id p s :
  match s with [] => True | x :: _ => p x = false end -> trim_start_matches p s = s.
Proof. destruct s as [|x s]; cbn; [done|]. by intros ->. Qed.

Lemma trim_start_suffix p s : exists pre, s = pre ++ trim_start_matches p s.
Proof.
  induction s as [|x s [pre IH]]; cbn; [by exists []|].
  destruct (p x); [|by exists []]. exists (x :: pre). cbn. by f_equal.
Qed.

Lemma head_rev_last (s : bytes) : head (rev s) = last s.
Proof. destruct s as [|x s _] using rev_ind; [done|]. by rewrite rev_unit, last_snoc. Qed.

Definition clean_end (p : byte -> bool) (o : option byte) : Prop :=
  match o with None => True | Some x => p x = false end.

Lemma clean_head p s : clean_end p (head s) <-> match s with [] => True | x :: _ => p x = false end.
Proof. by destruct s. Qed.

Lemma trim_matches_clean p s :
  clean_end p (head (trim_matches p s)) /\ clean_end p (last (trim_matches p s)).
Proof.
  unfold trim_matches, trim_end_matches. pose proof (trim_start_head p s) as Hh.
  generalize dependent (trim_start_matches p s). intros t Ht. split.
  - destruct (trim_start_suffix p (rev t)) as [pre Hp].
    apply (f_equal (@rev byte)) in Hp. rewrite rev_involutive, rev_app_distr in Hp.
    destruct (rev (trim_start_matches p (rev t))) as [|x r]; [done|].
    destruct t as [|y t]; [done|]. cbn in Hp. injection Hp as -> _. done.
  - rewrite <- head_rev_last, rev_involutive, clean_head. apply trim_start_head.
Qed.

Lemma trim_matches_id p s :
  clean_end p (head s) -> clean_end p (last s) -> trim_matches p s = s.
Proof.
  intros Hh Hl. unfold trim_matches, trim_end_matches.
  rewrite (trim_start_id p s) by (by apply clean_head).
  rewrite trim_start_id, rev_involutive; [done|]. apply clean_head. by rewrite head_rev_last.
Qed.

Lemma mangle_idemp t : mangle (mangle t) = mangle t.
Proof.
  unfold mangle at 1. destruct (trim_matches_clean mangled t) as [Hh Hl].
  rewrite trim_matches_id.
  - unfold mangle. rewrite <- list_fmap_compose. apply list_fmap_ext. intros _ c _. cbn.
    destruct (mangled c) eqn:Hc; [done|]. by rewrite Hc.
  - unfold mangle. destruct (trim_matches mangled t) as [|x r]; [done|]. cbn in *. by rewrite Hh.
  - unfold mangle. rewrite fmap_last. destruct (last (trim_matches mangled t)) as [x|]; [|done].
    cbn in *. by rewrite Hl.
Qed.

(** ** Accounting *)
Section ExecutionLemmas.
Context {H : Sha2}.

Lemma verify_expected_digest_Ok v i alg d :
  verify_expected_digest v i alg d = Ok tt -> authenticated_digest v i alg = Ok d.
Proof. unfold verify_expected_digest. intros Hv. inv_res. bools. congruence. Qed.

(** Every index of the set names an authenticated event. *)
Definition all_authenticated (v : VerifiedBootLog) (alg : N) (S : gset N) : Prop :=
  forall i, i ∈ S -> is_ok (authenticated_digest v i alg) = true.

Lemma all_authenticated_insert v alg S i d :
  all_authenticated v alg S -> authenticated_digest v i alg = Ok d ->
  all_authenticated v alg ({[i]} ∪ S).
Proof. intros HS Hd j [->%elem_of_singleton|?]%elem_of_union; [by rewrite Hd|auto]. Qed.

Lemma recheck_section_Ok v alg S s S' :
  recheck_section v alg S s = Ok S' -> all_authenticated v alg S -> all_authenticated v alg S'.
Proof.
  unfold recheck_section. intros Hr HS. inv_res.
  match goal with E : verify_measured_bytes _ _ _ _ = Ok _ |- _ => apply verify_measured_bytes_Ok in E end.
  match goal with E : verify_expected_digest _ _ _ _ = Ok _ |- _ => apply verify_expected_digest_Ok in E end.
  destruct (is_tdx _); [|done]. eauto using all_authenticated_insert.
Qed.

(** The command-line text [t] was measured by event [i]. *)
Definition text_measured (v : VerifiedBootLog) (alg i : N) (t : bytes) : Prop :=
  authenticated_digest v i alg = Ok (bank alg (u16s_to_le (encode_utf16 t ++ [0]))) /\
  mangle t = t /\ t <> [].

Lemma canonical_Ok t : canonical t = Ok tt -> mangle t = t /\ t <> [].
Proof.
  unfold canonical. intros Hc. inv_res. bools. rewrite ?bytes_eqb_eq in *. split; [done|].
  intros ->. by rewrite blen_nil in *.
Qed.

Lemma record_text_Ok v alg st i t st' :
  record_text v alg st i t = Ok st' -> all_authenticated v alg (accounted st) ->
  text_measured v alg i t /\ all_authenticated v alg (accounted st').
Proof.
  unfold record_text. intros Hr HS. inv_res.
  match goal with E : canonical _ = Ok _ |- _ => apply canonical_Ok in E end.
  match goal with E : verify_measured_bytes _ _ _ _ = Ok _ |- _ =>
    apply verify_measured_bytes_Ok in E as Hd end.
  split; [by split|]. cbn. by eapply all_authenticated_insert.
Qed.

Definition append_spec (v : VerifiedBootLog) (alg : N) (append : option UkiMeasuredAppend)
    (line line' : bytes) : Prop :=
  match append with
  | None => line' = line
  | Some a => exists t, append_text a = Ok t /\ text_measured v alg (append_event_index a) t /\
                line' = append_line line t
  end.

Lemma apply_append_Ok v alg is_smbios append acc line acc' line' :
  apply_append v alg is_smbios append (acc, line) = Ok (acc', line') ->
  all_authenticated v alg (accounted acc) ->
  append_spec v alg append line line' /\ all_authenticated v alg (accounted acc').
Proof.
  unfold apply_append, append_spec. destruct append as [a|]; [|by intros [= <- <-]].
  intros Hr HS. inv_res.
  match goal with E : record_text _ _ _ _ _ = Ok _ |- _ => apply record_text_Ok in E as [? ?]; [|done] end.
  eauto 10.
Qed.

Lemma verify_addon_Ok v alg acc stage out addon acc' stage' out' :
  verify_addon v alg (acc, stage, out) addon = Ok (acc', stage', out') ->
  all_authenticated v alg (accounted acc) -> all_authenticated v alg (accounted acc').
Proof.
  unfold verify_addon. intros Hr HS. inv_res.
  match goal with E : verify_expected_digest _ _ _ _ = Ok _ |- _ => apply verify_expected_digest_Ok in E end.
  cbn. by eapply all_authenticated_insert.
Qed.

Lemma verify_other_Ok v alg S kv S' :
  verify_other v alg S kv = Ok S' -> all_authenticated v alg S -> all_authenticated v alg S'.
Proof.
  unfold verify_other. destruct kv as [i digest]. intros Hr HS. inv_res.
  match goal with E : verify_expected_digest _ _ _ _ = Ok _ |- _ => apply verify_expected_digest_Ok in E end.
  by eapply all_authenticated_insert.
Qed.

Lemma unaccounted_false register covered i evs :
  unaccounted register covered i evs = false ->
  forall j e, evs !! j = Some e -> register_index e = register ->
    reported_event_type e <> EV_NO_ACTION -> i + N.of_nat j ∈ covered.
Proof.
  revert i. induction evs as [|e evs IH]; intros i; cbn [unaccounted]; [done|].
  intros [Hh Ht]%orb_false_iff [|j] e'; cbn.
  - intros [= ->] Hr He. rewrite N.add_0_r. apply (proj2 (N.eqb_eq _ _)) in Hr.
    apply (proj2 (N.eqb_neq _ _)) in He. rewrite Hr, He in Hh. cbn in Hh. by bools.
  - intros Hj Hr He. pose proof (IH _ Ht j e' Hj Hr He) as Hc.
    by replace (i + N.of_nat (S j)) with (i + 1 + N.of_nat j) by lia.
Qed.

(** A for loop keeps what each step keeps. *)
Lemma for_each_inv {E A B} (f : A -> B -> res E A) (I : A -> Prop) l a a' :
  (forall a x a', f a x = Ok a' -> I a -> I a') ->
  for_each f a l = Ok a' -> I a -> I a'.
Proof.
  intros Hstep. revert a. induction l as [|x l IH]; intros a; cbn.
  - by intros [= ->].
  - intros (a1 & Ha & Hl)%bind_Ok HI. eauto.
Qed.
End ExecutionLemmas.

(** * Properties *)
Section ExecutionProperties.
Context {H : Sha2}.

(** How the effective command line is put together from measured parts. *)
Definition line_composed (v : VerifiedBootLog) (uki : VerifiedUki) (policy : UkiExecutionPolicy)
    (line : bytes) : Prop :=
  exists base_line addon_line,
    match base policy with
    | Embedded => base_line = mangle (default [] (embedded_command_line uki))
    | LoadOptions i t => text_measured v (vu_algorithm uki) i t /\ base_line = t
    end /\
    append_spec v (vu_algorithm uki) (addons policy) base_line addon_line /\
    append_spec v (vu_algorithm uki) (smbios policy) addon_line line.

Lemma verify_uki_execution_Ok v uki policy x :
  verify_uki_execution v uki policy = Ok x ->
  line_composed v uki policy (effective_command_line x) /\
  effective_command_line x = expected_effective_command_line policy /\
  (forall i, i ∈ configuration_event_indices x ->
     is_ok (authenticated_digest v i (vu_algorithm uki)) = true) /\
  (forall i e, get (events (vlog v)) i = Some e ->
     register_index e = config_register (kind (vlog v)) ->
     reported_event_type e <> EV_NO_ACTION -> i ∈ configuration_event_indices x).
Proof.
  unfold verify_uki_execution. intros Hx. cbv zeta in Hx.
  repeat (inv_res; match goal with p : (_ * _)%type |- _ => destruct p end). inv_res.
  set (alg := vu_algorithm uki) in *.
  match goal with E : for_each (recheck_section _ _) _ _ = Ok ?c |- _ =>
    apply (for_each_inv _ (all_authenticated v alg)) in E; [|by apply recheck_section_Ok|done];
    rename E into Hc0 end.
  match goal with E : match base policy with _ => _ end = Ok (?a, ?l) |- _ =>
    assert (match base policy with
      | Embedded => l = mangle (default [] (embedded_command_line uki))
      | LoadOptions i t => text_measured v alg i t /\ l = t end /\
      all_authenticated v alg (accounted a)) as [Hbase Hc1] end.
  { destruct (base policy) as [|i t]; inv_res; [done|].
    match goal with E : record_text _ _ _ _ _ = Ok _ |- _ => apply record_text_Ok in E as [? ?]; [|done] end.
    done. }
  match goal with E : apply_append _ _ false _ _ = Ok _ |- _ =>
    apply apply_append_Ok in E as [Hadd Hc2]; [|done] end.
  match goal with E : apply_append _ _ true _ _ = Ok _ |- _ =>
    apply apply_append_Ok in E as [Hsmb Hc3]; [|done] end.
  match goal with E : for_each (verify_addon _ _) _ _ = Ok _ |- _ =>
    apply (for_each_inv _ (fun st => all_authenticated v alg (accounted st.1.1))) in E;
    [|intros [[? ?] ?] ? [[? ?] ?]; by apply verify_addon_Ok|done]; rename E into Hc4 end.
  match goal with E : for_each (verify_other _ _) _ _ = Ok _ |- _ =>
    apply (for_each_inv _ (all_authenticated v alg)) in E; [|by apply verify_other_Ok|done];
    rename E into Hc5 end.
  bools. rewrite ?bytes_eqb_eq in *. cbn [effective_command_line configuration_event_indices].
  assert (forall (S : gset N) i, i ∈ merge_sort N.le (elements S) <-> i ∈ S) as Hel.
  { intros S i. by rewrite merge_sort_Permutation, elem_of_elements. }
  split; [by do 2 eexists|]. split; [done|]. split.
  - intros i Hi%Hel. by apply Hc5.
  - intros i e He Hr Ht. apply Hel.
    match goal with E : unaccounted _ _ _ _ = false |- _ =>
      pose proof (unaccounted_false _ _ _ _ E (N.to_nat i) e) as Hu end.
    apply get_Some in He as [_ He]. specialize (Hu He Hr Ht).
    by replace (0 + N.of_nat (N.to_nat i)) with i in Hu by lia.
Qed.
End ExecutionProperties.

(** Execution appraisal leaves nothing of the configuration register out: every
    measuring event of that register (PCR12, or RTMR2 on TDX) is among the accounted
    events, and each accounted event has an authenticated digest; the effective
    command line is the policy's and is composed, in order, of the base line and the
    measured addon and SMBIOS texts. *)
Theorem execution_accounts_for_register {H : Sha2} v uki policy x :
  verify_uki_execution v uki policy = Ok x ->
  line_composed v uki policy (effective_command_line x) /\
  effective_command_line x = expected_effective_command_line policy /\
  (forall i, i ∈ configuration_event_indices x ->
     is_ok (authenticated_digest v i (vu_algorithm uki)) = true) /\
  (forall i e, get (events (vlog v)) i = Some e ->
     register_index e = config_register (kind (vlog v)) ->
     reported_event_type e <> EV_NO_ACTION -> i ∈ configuration_event_indices x).
Proof. apply verify_uki_execution_Ok. Qed.

(** The stub's command-line normalisation is idempotent, so a text that
    [append_text] returns is one that [canonical] accepts when it is measured. *)
Theorem append_text_canonical p t :
  append_text p = Ok t -> mangle t = t /\ canonical t = Ok tt /\ t <> [].
Proof.
  unfold append_text. intros Ha. inv_res. split; [apply mangle_idemp|]. split; [done|].
  match goal with E : canonical _ = Ok _ |- _ => by apply canonical_Ok in E as [_ ?] end.
Qed.

Lemma append_text_canonical_witness :
  exists t, t = lit "a b quiet" /\ mangle t = t /\ canonical t = Ok tt /\ t <> [].
Proof.
  exists (lit "a b quiet"). split; [reflexivity|].
  apply (append_text_canonical {| append_event_index := 0;
    expected_fragments := [x09 :: lit "a" ++ x09 :: lit "b" ++ [x20]; lit "quiet" ++ [x0a]] |}).
  vm_compute. reflexivity.
Defined.
