(* ===== verification/UkiVerify.v ===== *)
(** * UkiVerify: UKI section appraisal ([src/v2/src/boot/uki.rs])

    [UkiPolicy] and [VerifiedBootLog::verify_uki]: the selected sections, in the
    stub's order, against the name/data event pairs of the register, and all of them
    against the verifier's policy. *)
From S2P Require Import Prelude Bytes Text Crypto Boot Aael EventLog Replay CommandLine.
From S2P Require Import Uki UkiSelection UkiExecution.

Record UkiPolicy : Type := {
  selection : option UkiSelectionPolicy;
  execution : option UkiExecutionPolicy;
  up_profile : UkiProfile;
  first_section_event : N;
  up_algorithm : N;
  expected_sections : gmap bytes bytes;
  expected_command_line : option bytes;
  expected_verity_root : option bytes;
}.

Section UkiVerify.
Context {H : Sha2}.

Definition UkiPolicy_validate (p : UkiPolicy) : res BootError unit :=
  (if selection p is Some s then UkiSelectionPolicy_validate s else Ok tt);;
  (if execution p is Some x then UkiExecutionPolicy_validate x (up_algorithm p) else Ok tt);;
  empty ← hash (up_algorithm p) [];
  let digest_size := blen empty in
  reject_if (negb (bool_decide (is_Some (expected_sections p !! lit ".linux")))
             || (blen MEASURED_SECTIONS <? N.of_nat (size (expected_sections p))))
    (Uki "policy must include the measured kernel section");;
  for_each (fun _ '(nm, digest) =>
      reject_if (negb (is_measured_section nm) || negb (blen digest =? digest_size * 2)
                 || negb (all_hex digest))
        (Uki "unsupported section or invalid digest in UKI policy"))
    tt (btree_iter bytes_le (expected_sections p));;
  reject_if ((if expected_command_line p is Some s then MAX_TEXT_BYTES <? blen s else false)
             || ((bool_decide (is_Some (expected_command_line p))
                  || bool_decide (is_Some (expected_verity_root p)))
                 && negb (bool_decide (is_Some (expected_sections p !! lit ".cmdline")))))
    (Uki "command-line policy requires bounded measured .cmdline");;
  reject_if (if expected_verity_root p is Some r then negb (verity_root_text_ok r) else false)
    (Uki "invalid expected verity digest").

Definition uki_register (k : LogKind) : N := if is_tpm k then 11 else 3.

(** The remaining stream: the measuring events of the register, with their indices. *)
Definition uki_stream (v : VerifiedBootLog) (start : N) : list (N * Event) :=
  List.filter (fun ie => (register_index ie.2 =? uki_register (kind (vlog v)))
                    && negb (reported_event_type ie.2 =? EV_NO_ACTION))
    (drop (N.to_nat start) (imap (fun i e => (N.of_nat i, e)) (events (vlog v)))).

Definition verify_section (v : VerifiedBootLog) (u : UnverifiedUki) (policy : UkiPolicy)
    (digest_size : N) (st : list (N * Event) * list VerifiedUkiSection)
    (s : UnverifiedPeSection) :
    res BootError (list (N * Event) * list VerifiedUkiSection) :=
  let '(stream, done) := st in
  '(name_index, name_event, stream) ←
    match stream with
    | (i, e) :: stream => Ok (i, e, stream)
    | [] => Err (Uki "missing UKI name measurement")
    end;
  reject_if ((blen done =? 0) && negb (name_index =? first_section_event policy))
    (Uki "first UKI event is outside the selected register");;
  '(data_index, data_event, stream) ←
    match stream with
    | (i, e) :: stream => Ok (i, e, stream)
    | [] => Err (Uki "missing UKI data measurement")
    end;
  reject_if (negb (reported_event_type name_event =? EV_IPL)
             || negb (reported_event_type data_event =? EV_IPL))
    (Uki "UKI measurements are not EV_IPL pairs");;
  verify_measured_bytes v name_index (up_algorithm policy) (name s ++ [x00]);;
  digest ← section_digest u s (up_algorithm policy);
  verify_expected_digest v data_index (up_algorithm policy) digest;;
  expected_hex ← unwrap (expected_sections policy !! name s);
  expected ← ok_or (hex_decode expected_hex) (Uki "invalid expected UKI section digest");
  reject_if (negb (blen expected =? digest_size) || negb (bytes_eqb expected digest))
    (Uki "UKI section differs from independent policy");;
  Ok (stream, done ++ [{| vs_name := name s; name_event_index := name_index;
                          data_event_index := data_index; measured_size := virtual_size s;
                          digest_hex := hex_encode digest |}]).

(** No recognised section name is measured right behind the candidate's sections. *)
Definition check_following (v : VerifiedBootLog) (algorithm : N) (stream : list (N * Event)) :
    res BootError unit :=
  match stream with
  | [] => Ok tt
  | (i, _) :: _ =>
    next ← authenticated_digest v i algorithm;
    for_each (fun _ nm =>
        h ← hash algorithm (nm ++ [x00]);
        reject_if (bytes_eqb next h) (Uki "unaccounted UKI section measurement follows candidate"))
      tt MEASURED_SECTIONS
  end.

Definition uki_dm_verity (policy : UkiPolicy) (done : list VerifiedUkiSection)
    (line : option bytes) : res BootError (option DmVerityCommitment) :=
  match expected_verity_root policy with
  | None => Ok None
  | Some expected =>
    s ← ok_or (List.find (fun s => bytes_eqb (vs_name s) (lit ".cmdline")) done)
          (Uki "verity policy requires measured .cmdline");
    r ← ok_or (hex_decode expected) (Uki "invalid expected verity digest");
    line ← ok_or line (Uki "missing embedded command line");
    c ← verify_dm_verity {| mcl_event_index := data_event_index s;
                            mcl_algorithm := up_algorithm policy;
                            mcl_profile := SystemdUkiEmbedded; command_line := line |} r;
    Ok (Some c)
  end.

Definition verify_uki (v : VerifiedBootLog) (b : bytes) (policy : UkiPolicy) :
    res BootError VerifiedUki :=
  UkiPolicy_validate policy;;
  u ← Uki.parse b;
  empty ← hash (up_algorithm policy) [];
  let digest_size := blen empty in
  chosen ← selected u (selection policy);
  let measured := omap (fun nm => chosen !! nm) MEASURED_SECTIONS in
  reject_if (negb (N.of_nat (size (expected_sections policy)) =? blen measured)
             || negb (forallb (fun s => bool_decide (is_Some (expected_sections policy !! name s)))
                        measured))
    (Uki "policy must approve exactly every measured UKI section");;
  '(stream, done) ← for_each (verify_section v u policy digest_size)
                      (uki_stream v (first_section_event policy), []) measured;
  check_following v (up_algorithm policy) stream;;
  line ← selected_text u chosen (lit ".cmdline");
  (if expected_command_line policy is Some expected
   then reject_if ((MAX_TEXT_BYTES <? blen expected) || negb (bool_decide (line = Some expected)))
          (Uki "embedded command line differs from independent policy")
   else Ok tt);;
  dm ← uki_dm_verity policy done line;
  profile ← (if selection policy is Some s
             then verify_uki_profile_number v s (up_algorithm policy) (first_section_event policy)
             else Ok None);
  osrel ← selected_text u chosen (lit ".osrel");
  uname ← selected_text u chosen (lit ".uname");
  let result := {| vu_profile := up_profile policy; vu_algorithm := up_algorithm policy;
                   vu_sections := done; embedded_command_line := line; os_release := osrel;
                   kernel_release := uname; vu_dm_verity := dm;
                   authenticated_profile_index := profile; vu_execution := None |} in
  match execution policy with
  | None => Ok result
  | Some x =>
    ex ← verify_uki_execution v result x;
    Ok {| vu_profile := up_profile policy; vu_algorithm := up_algorithm policy;
          vu_sections := done; embedded_command_line := line; os_release := osrel;
          kernel_release := uname; vu_dm_verity := dm;
          authenticated_profile_index := profile; vu_execution := Some ex |}
  end.
End UkiVerify.

(** * Lemmas *)
Section UkiVerifyLemmas.
Context {H : Sha2}.

(** The digest pair that the stub measures for a section. *)
Definition section_pair (alg : N) (u : UnverifiedUki) (s : UnverifiedPeSection) : list bytes :=
  [bank alg (name s ++ [x00]); bank alg (loaded_section u s)].

(** The digests of a stream of events. *)
Definition stream_digests (alg : N) (stream : list (N * Event)) : list (option bytes) :=
  (fun ie => digests ie.2 !! alg) <$> stream.

(** The policy approves this content for the section. *)
Definition approved (policy : UkiPolicy) (u : UnverifiedUki) (s : UnverifiedPeSection) : Prop :=
  exists hx, expected_sections policy !! name s = Some hx /\
    hex_decode hx = Some (bank (up_algorithm policy) (loaded_section u s)).

Lemma verify_section_Ok v u policy ds stream done s stream' done' :
  verify_section v u policy ds (stream, done) s = Ok (stream', done') ->
  uki_wf u -> section_ok (uki_bytes u) s -> bank_supported (up_algorithm policy) ->
  Forall (fun ie => get (events (vlog v)) ie.1 = Some ie.2) stream ->
  stream_digests (up_algorithm policy) stream
    = (Some <$> section_pair (up_algorithm policy) u s)
      ++ stream_digests (up_algorithm policy) stream' /\
  approved policy u s /\
  Forall (fun ie => get (events (vlog v)) ie.1 = Some ie.2) stream' /\
  exists vs, done' = done ++ [vs] /\ vs_name vs = name s /\
    digest_hex vs = hex_encode (bank (up_algorithm policy) (loaded_section u s)).
Proof.
  intros Hv Hu Hs Hb Hst. unfold verify_section in Hv.
  destruct stream as [|[i1 e1] stream]; [by inv_res|]. rewrite res_bind_Ok in Hv. inv_res.
  destruct stream as [|[i2 e2] stream]; [by inv_res|]. inv_res. inv_res.
  inversion_clear Hst as [|? ? Hg1 Hst']. inversion_clear Hst' as [|? ? Hg2 Hst''].
  match goal with E : section_digest _ _ _ = Ok _ |- _ =>
    rewrite (proj1 (section_digest_spec u s _ Hu Hs Hb)) in E; injection E as <- end.
  match goal with E : verify_measured_bytes _ _ _ _ = Ok _ |- _ =>
    apply verify_measured_bytes_Ok in E;
    pose proof (authenticated_digest_get _ _ _ _ _ E Hg1) as Hd1 end.
  match goal with E : verify_expected_digest _ _ _ _ = Ok _ |- _ =>
    apply verify_expected_digest_Ok in E;
    pose proof (authenticated_digest_get _ _ _ _ _ E Hg2) as Hd2 end.
  bools. rewrite ?bytes_eqb_eq in *. subst. split; [|split; [|split; [done|]]].
  - cbn. cbn in Hd1, Hd2. by rewrite Hd1, Hd2.
  - by eexists.
  - by eexists.
Qed.

Lemma verify_sections_Ok v u policy ds l stream done stream' done' :
  for_each (verify_section v u policy ds) (stream, done) l = Ok (stream', done') ->
  uki_wf u -> Forall (section_ok (uki_bytes u)) l -> bank_supported (up_algorithm policy) ->
  Forall (fun ie => get (events (vlog v)) ie.1 = Some ie.2) stream ->
  stream_digests (up_algorithm policy) stream
    = (Some <$> (l ≫= section_pair (up_algorithm policy) u))
      ++ stream_digests (up_algorithm policy) stream' /\
  Forall (approved policy u) l /\
  Forall (fun ie => get (events (vlog v)) ie.1 = Some ie.2) stream' /\
  exists new, done' = done ++ new /\ vs_name <$> new = name <$> l /\
    digest_hex <$> new = (fun s => hex_encode (bank (up_algorithm policy) (loaded_section u s))) <$> l.
Proof.
  intros Hf Hu Hl Hb. revert stream done Hf.
  induction Hl as [|s l Hs _ IH]; intros stream done; cbn [for_each].
  { intros [= <- <-] Hst. split; [done|]. split; [constructor|]. split; [done|].
    exists []. by rewrite app_nil_r. }
  intros ([stream1 done1] & Hv & Hf)%bind_Ok Hst.
  destruct (verify_section_Ok _ _ _ _ _ _ _ _ _ Hv Hu Hs Hb Hst)
    as (Hd & Ha & Hst1 & vs & -> & Hn & Hx).
  destruct (IH _ _ Hf Hst1) as (Hd' & Ha' & Hst' & new & -> & Hn' & Hx').
  split; [|split; [by constructor|split; [done|]]].
  - rewrite Hd, Hd', bind_cons, fmap_app. by rewrite app_assoc.
  - exists (vs :: new). rewrite <- app_assoc. split; [done|]. cbn. by rewrite Hn, Hn', Hx, Hx'.
Qed.

Lemma uki_stream_get v start :
  Forall (fun ie => get (events (vlog v)) ie.1 = Some ie.2) (uki_stream v start).
Proof.
  apply Forall_forall. intros [i e] Hin. unfold uki_stream in Hin.
  apply list_elem_of_In, filter_In in Hin as [Hin _]. apply list_elem_of_In in Hin.
  apply list_elem_of_lookup in Hin as (j & Hj). rewrite lookup_drop, list_lookup_imap in Hj.
  destruct (events (vlog v) !! _) as [e'|] eqn:He; [|done]. injection Hj as <- <-.
  apply get_Some. cbn. rewrite Nat2N.id. split; [|done]. apply lookup_lt_Some in He.
  unfold blen. lia.
Qed.

Lemma overlay_lookup u p chosen nm s :
  overlay u p chosen -> chosen !! nm = Some s -> s ∈ sections u /\ name s = nm.
Proof.
  intros Ho Hs. specialize (Ho nm). destruct (is_measured_section nm); [|congruence].
  destruct Ho as (ob & op & Hb & Hp & Hc). rewrite Hs in Hc.
  assert (forall range, first_match u p nm range (Some s) -> s ∈ range /\ name s = nm) as Hfm.
  { intros range (pre & post & -> & Hn & _). split; [set_solver|done]. }
  destruct op as [s'|]; [injection Hc as <-; apply Hfm in Hp as [Hin Hn]|
    subst ob; apply Hfm in Hb as [Hin Hn]]; (split; [|done]).
  - unfold profile_range in Hin. repeat case_match; [| |by apply elem_of_nil in Hin];
      eauto using elem_of_take, elem_of_drop.
  - unfold base_range in Hin. case_match; eauto using elem_of_take.
Qed.

(** No section name was measured next. *)
Definition no_section_follows (alg : N) (following : list (option bytes)) : Prop :=
  match following with
  | [] => True
  | o :: _ => exists d, o = Some d /\
      forall nm, nm ∈ MEASURED_SECTIONS -> d <> bank alg (nm ++ [x00])
  end.

Lemma check_following_Ok v alg stream :
  check_following v alg stream = Ok tt ->
  Forall (fun ie => get (events (vlog v)) ie.1 = Some ie.2) stream ->
  no_section_follows alg (stream_digests alg stream).
Proof.
  destruct stream as [|[i e] stream]; [done|]. cbn [check_following]. intros Hc Hst.
  apply bind_Ok in Hc as (d & Hd & Hc). inversion_clear Hst as [|? ? Hg _].
  exists d. split; [by apply (authenticated_digest_get _ _ _ _ _ Hd)|].
  assert (forall l, for_each (fun _ nm => hash alg (nm ++ [x00]) ≫= fun h =>
    reject_if (bytes_eqb d h) (Uki "unaccounted UKI section measurement follows candidate")) tt l = Ok tt ->
    forall nm, nm ∈ l -> d <> bank alg (nm ++ [x00])) as Hall; [|by apply Hall].
  clear. induction l as [|x l IH]; cbn [for_each]; [by intros _ nm ?%elem_of_nil|].
  intros ([] & (h & [_ ->]%hash_Ok & Hr%reject_if_Ok)%bind_Ok & Hl)%bind_Ok nm.
  intros [->|Hnm]%elem_of_cons; [by apply bytes_eqb_neq|by apply IH].
Qed.

Definition measured_sections (chosen : gmap bytes UnverifiedPeSection) :
    list UnverifiedPeSection := omap (fun nm => chosen !! nm) MEASURED_SECTIONS.

Lemma verify_uki_Ok v b policy r :
  verify_uki v b policy = Ok r ->
  exists u chosen following,
    Uki.parse b = Ok u /\ selected u (selection policy) = Ok chosen /\
    vs_name <$> vu_sections r = name <$> measured_sections chosen /\
    stream_digests (up_algorithm policy) (uki_stream v (first_section_event policy))
    = (Some <$> (measured_sections chosen ≫= section_pair (up_algorithm policy) u)) ++ following /\
    Forall (approved policy u) (measured_sections chosen) /\
    no_section_follows (up_algorithm policy) following.
Proof.
  unfold verify_uki. intros Hv. cbv zeta in Hv.
  repeat (inv_res; match goal with p : (_ * _)%type |- _ => destruct p end). inv_res.
  match goal with E : Uki.parse b = Ok ?u0 |- _ => rename u0 into u; rename E into Hu end.
  match goal with E : selected u _ = Ok ?c |- _ => rename c into chosen; rename E into Hsel end.
  pose proof (safe_parse_pe b true) as Hsafe. unfold Uki.parse in Hu. rewrite Hu in Hsafe.
  destruct Hsafe as (Hwf & _ & _). destruct (selected_Ok _ _ _ Hsel) as [Hov _].
  assert (Forall (section_ok (uki_bytes u)) (measured_sections chosen)) as Hall.
  { apply Forall_forall. intros s (nm & _ & Hs)%list_elem_of_omap.
    apply (overlay_lookup _ _ _ _ _ Hov) in Hs as [Hin _].
    pose proof (uki_sections _ Hwf) as Hall. rewrite Forall_forall in Hall. auto. }
  match goal with E : hash _ _ = Ok _ |- _ => apply hash_Ok in E as [Hb _] end.
  match goal with E : for_each (verify_section _ _ _ _) _ _ = Ok (?st, ?dn) |- _ =>
    destruct (verify_sections_Ok _ _ _ _ _ _ _ _ _ E Hwf Hall Hb (uki_stream_get _ _))
      as (Hd & Ha & Hst & new & Hnew & Hn & _); rename st into rest end.
  rewrite app_nil_l in Hnew. subst.
  match goal with E : check_following _ _ _ = Ok _ |- _ => apply check_following_Ok in E; [|done] end.
  exists u, chosen, (stream_digests (up_algorithm policy) rest). split_and!; try done.
  destruct (execution policy); inv_res; done.
Qed.
End UkiVerifyLemmas.

(** * Properties *)
Section UkiProperties.
Context {H : Sha2}.

(** C22: an accepted UKI explains its register: from the first section event on, the
    authenticated register holds, in the stub's order, exactly one name digest and one
    loaded-content digest per selected section of the image, every one of them the
    digest the policy approves, and no further section name follows. *)
Theorem uki_explains_register v b policy r :
  verify_uki v b policy = Ok r ->
  exists u chosen following,
    Uki.parse b = Ok u /\ selected u (selection policy) = Ok chosen /\
    vs_name <$> vu_sections r = name <$> measured_sections chosen /\
    stream_digests (up_algorithm policy) (uki_stream v (first_section_event policy))
    = (Some <$> (measured_sections chosen ≫= section_pair (up_algorithm policy) u)) ++ following /\
    Forall (approved policy u) (measured_sections chosen) /\
    no_section_follows (up_algorithm policy) following.
Proof. apply verify_uki_Ok. Qed.

(** A policy pins the section contents: two images that pass under one policy, on
    any logs, have equal loaded contents for every section both measure, unless these
    contents collide under the bank's hash. *)
Theorem uki_content_binding v1 v2 b1 b2 policy r1 r2 :
  verify_uki v1 b1 policy = Ok r1 -> verify_uki v2 b2 policy = Ok r2 ->
  exists u1 u2 chosen1 chosen2,
    Uki.parse b1 = Ok u1 /\ Uki.parse b2 = Ok u2 /\
    selected u1 (selection policy) = Ok chosen1 /\ selected u2 (selection policy) = Ok chosen2 /\
    forall s1 s2, s1 ∈ measured_sections chosen1 -> s2 ∈ measured_sections chosen2 ->
      name s1 = name s2 ->
      loaded_section u1 s1 = loaded_section u2 s2 \/
      collision (bank (up_algorithm policy)) (loaded_section u1 s1) (loaded_section u2 s2).
Proof.
  intros (u1 & c1 & ? & P1 & S1 & _ & _ & A1 & _)%verify_uki_Ok
    (u2 & c2 & ? & P2 & S2 & _ & _ & A2 & _)%verify_uki_Ok.
  exists u1, u2, c1, c2. split_and!; try done. intros s1 s2 I1 I2 Hn.
  rewrite Forall_forall in A1, A2. destruct (A1 _ I1) as (h1 & E1 & D1), (A2 _ I2) as (h2 & E2 & D2).
  apply eq_or_collision. congruence.
Qed.
End UkiProperties.

(** * Witnesses *)
Definition toy256 : bytes -> bytes := sha256 (Sha2:=toy_sha2).
Definition sample_options : bytes := u16s_to_le (encode_utf16 (lit "quiet") ++ [0]).
Definition sample_uki_log : VerifiedBootLog := {|
  vlog := {| kind := Tpm2; algorithms := {[TPM_ALG_SHA256 := 32]};
    events := [sample_event 0 11 EV_IPL TPM_ALG_SHA256 (toy256 (lit ".linux" ++ [x00])) [];
               sample_event 0 4 EV_IPL TPM_ALG_SHA256 (toy256 (lit "other")) [];
               sample_event 0 11 EV_IPL TPM_ALG_SHA256 (toy256 (lit "vmlin")) [];
               sample_event 0 12 EV_IPL TPM_ALG_SHA256 (toy256 sample_options) []];
    consumed_bytes := 0 |};
  covered := {[(TPM_ALG_SHA256, 11)]} ∪ {[(TPM_ALG_SHA256, 12)]} |}.
Definition sample_execution : UkiExecutionPolicy := {|
  base := LoadOptions 3 (lit "quiet"); addons := None; smbios := None; binary_addons := [];
  expected_effective_command_line := lit "quiet"; execution_verity_root := None;
  other_config_events := ∅ |}.
Definition sample_uki_policy : UkiPolicy := {|
  selection := None; execution := Some sample_execution; up_profile := SystemdStubV258;
  first_section_event := 0; up_algorithm := TPM_ALG_SHA256;
  expected_sections := {[lit ".linux" := hex_encode (toy256 (lit "vmlin"))]};
  expected_command_line := None; expected_verity_root := None |}.
Definition sample_verified_uki : VerifiedUki :=
  {| vu_profile := SystemdStubV258; vu_algorithm := TPM_ALG_SHA256;
     vu_sections := [{| vs_name := lit ".linux"; name_event_index := 0; data_event_index := 2;
       measured_size := 5; digest_hex := hex_encode (toy256 (lit "vmlin")) |}];
     embedded_command_line := None; os_release := None; kernel_release := None;
     vu_dm_verity := None; authenticated_profile_index := None;
     vu_execution := Some {| effective_command_line := lit "quiet";
       configuration_event_indices := [3]; vx_binary_addons := []; vx_dm_verity := None |} |}.

Lemma sample_verify_uki :
  verify_uki (H:=toy_sha2) sample_uki_log sample_uki sample_uki_policy = Ok sample_verified_uki.
Proof. vm_compute. reflexivity. Qed.

Lemma uki_explains_register_witness :
  exists u chosen following, Uki.parse sample_uki = Ok u /\
    stream_digests TPM_ALG_SHA256 (uki_stream sample_uki_log 0)
    = (Some <$> (measured_sections chosen ≫= section_pair (H:=toy_sha2) TPM_ALG_SHA256 u)) ++ following.
Proof.
  destruct (uki_explains_register (H:=toy_sha2) _ _ _ _ sample_verify_uki)
    as (u & chosen & following & Hu & _ & _ & Hs & _).
  exists u, chosen, following. split; [exact Hu|exact Hs].
Defined.

Lemma uki_content_binding_witness :
  exists u1 u2, Uki.parse sample_uki = Ok u1 /\ Uki.parse sample_uki = Ok u2.
Proof.
  destruct (uki_content_binding (H:=toy_sha2) _ _ _ _ _ _ _ sample_verify_uki sample_verify_uki)
    as (u1 & u2 & _ & _ & H1 & H2 & _).
  exists u1, u2. split; [exact H1|exact H2].
Defined.

Lemma execution_accounts_for_register_witness :
  exists x, verify_uki_execution (H:=toy_sha2) sample_uki_log sample_verified_uki sample_execution
    = Ok x /\ effective_command_line x = lit "quiet".
Proof.
  assert (verify_uki_execution (H:=toy_sha2) sample_uki_log sample_verified_uki sample_execution
    = Ok {| effective_command_line := lit "quiet"; configuration_event_indices := [3];
            vx_binary_addons := []; vx_dm_verity := None |}) as Hx by (vm_compute; reflexivity).
  eexists. split; [exact Hx|].
  exact (proj1 (proj2 (execution_accounts_for_register (H:=toy_sha2) _ _ _ _ Hx))).
Defined.
