(* ===== verification/Closure.v ===== *)
(** * Closure: the immutable-closure manifest ([src/v2/src/boot/closure.rs])

    Path validation, the measured read of each file and the domain-separated SHA-384
    tree.  The operating system is an argument: what [openat] yields, what metadata a
    handle shows before and after, and what each [read] returns, so that files which
    change while they are measured are covered. *)
From S2P Require Import Prelude Bytes Text Crypto.

Inductive ClosureError : Type :=
| CIo
| InvalidPath (what : bytes)
| CLimit (what : string)
| FileChanged (name : bytes)
| RootMismatch.

Record ClosureLimits : Type := {
  max_files : N;
  max_file_bytes : N;
  max_total_bytes : N;
}.
Definition default_closure_limits : ClosureLimits := {|
  max_files := 100000;
  max_file_bytes := 8 * 1024 * 1024 * 1024;
  max_total_bytes := 64 * 1024 * 1024 * 1024;
|}.

Record ClosureEntry : Type := {
  relative_path : bytes;
  entry_length : N;
  mode : N;
  content_sha384 : bytes;
}.
Record ClosureManifest : Type := {
  format : bytes;
  files : list ClosureEntry;
  root_sha384 : bytes;
}.

Definition verify_expected_root (m : ClosureManifest) (expected : bytes) : res ClosureError unit :=
  reject_if (negb (bytes_eqb (root_sha384 m) (hex_encode expected))) RootMismatch.

(** ** Paths *)
Inductive Component : Type := RootDir | CurDir | ParentDir | Normal (part : bytes).

(** [Path::components] on Unix: repeated separators and inner [.] are skipped. *)
Definition component_of (part : bytes) : option Component :=
  if bytes_eqb part [] || bytes_eqb part (lit ".") then None
  else if bytes_eqb part (lit "..") then Some ParentDir
  else Some (Normal part).
Definition components (path : bytes) : list Component :=
  let parts := split_byte x2f path in
  (if starts_with [x2f] path then [RootDir]
   else if bool_decide (head parts = Some (lit ".")) then [CurDir] else [])
  ++ omap component_of parts.
Definition is_normal (c : Component) : bool := if c is Normal _ then true else false.

Definition check_path (names : gset bytes) (path : bytes) : res ClosureError (gset bytes) :=
  text ← ok_or (from_utf8 path) (InvalidPath (lit "non-UTF-8 path"));
  reject_if ((blen text =? 0) || (4096 <? blen text) || contains_byte x00 text
             || contains_byte x5c text
             || existsb (fun p => bytes_eqb p [] || bytes_eqb p (lit ".") || bytes_eqb p (lit ".."))
                  (split_byte x2f text)
             || existsb (fun c => negb (is_normal c)) (components path))
    (InvalidPath text);;
  reject_if (bool_decide (text ∈ names)) (InvalidPath (lit "duplicate " ++ text));;
  Ok ({[text]} ∪ names).

(** ** Operating system *)
Record Metadata : Type := {
  md_is_file : bool;
  md_dev : N; md_ino : N; md_len : N; md_mode : N;
  md_mtime : N; md_mtime_nsec : N; md_ctime : N; md_ctime_nsec : N;
}.
Definition file_mode (m : Metadata) : N := N.land (md_mode m) 0xfff.
Definition same_metadata (a b : Metadata) : bool :=
  (md_dev a =? md_dev b) && (md_ino a =? md_ino b) && (md_len a =? md_len b)
  && (md_mode a =? md_mode b) && (md_mtime a =? md_mtime b)
  && (md_mtime_nsec a =? md_mtime_nsec b) && (md_ctime a =? md_ctime b)
  && (md_ctime_nsec a =? md_ctime_nsec b).

(** What the system answers: handles, their metadata before and after the reads, and
    the results of successive reads ([None] is an I/O error, the end of the list is
    end of file). *)
Record System : Type := {
  Handle : Type;
  open_base : bool -> option Handle;
  openat : Handle -> bytes -> bool -> option Handle;
  stat_before : Handle -> option Metadata;
  read_results : Handle -> list (option bytes);
  stat_after : Handle -> option Metadata;
}.

Section OpenFiles.
Context (sys : System).

Definition open_child (parent : Handle sys) (name : bytes) (directory : bool) :
    res ClosureError (Handle sys) :=
  reject_if (contains_byte x00 name) (InvalidPath (lit "embedded NUL"));;
  ok_or (openat sys parent name directory) CIo.

Definition open_root (root : bytes) : res ClosureError (Handle sys) :=
  base ← ok_or (open_base sys (starts_with [x2f] root)) CIo;
  for_each (fun current c =>
      match c with
      | RootDir | CurDir => Ok current
      | Normal name => open_child current name true
      | ParentDir => Err (InvalidPath root)
      end)
    base (components root).

Fixpoint open_components (path : bytes) (parent : Handle sys) (cs : list Component) :
    res ClosureError (Handle sys) :=
  match cs with
  | [] => Ok parent
  | Normal name :: cs =>
    h ← open_child parent name (negb (blen cs =? 0));
    open_components path h cs
  | _ :: _ => Err (InvalidPath path)
  end.
Definition open_beneath (root : Handle sys) (path : bytes) : res ClosureError (Handle sys) :=
  open_components path root (components path).
End OpenFiles.

(** ** Measuring one file *)

(** The read loop: [fed] is what the hasher has seen, [read] its length. *)
Fixpoint read_loop (name : bytes) (limit read : N) (fed : bytes) (reads : list (option bytes)) :
    res ClosureError (N * bytes) :=
  match reads with
  | [] => Ok (read, fed)
  | r :: reads =>
    chunk ← ok_or r CIo;
    if blen chunk =? 0 then Ok (read, fed)
    else
      read ← ok_or (checked_add u64_max read (blen chunk)) (CLimit "file bytes");
      reject_if (limit <? read) (FileChanged name);;
      read_loop name limit read (fed ++ chunk) reads
  end.

Section Measure.
Context {H : Sha2} (sys : System).

Definition leaf_prefix : bytes := lit "uq-system-closure-v1" ++ x00 :: lit "leaf" ++ [x00].
Definition branch_prefix : bytes := lit "uq-system-closure-v1" ++ x00 :: lit "branch" ++ [x00].
Definition root_prefix : bytes := lit "uq-system-closure-v1" ++ x00 :: lit "root" ++ [x00].

Definition leaf_input (name : bytes) (md read : N) (content_hash : bytes) : bytes :=
  leaf_prefix ++ N_to_be 4 (blen name mod 2 ^ 32) ++ name ++ N_to_be 4 md ++ N_to_be 8 read
  ++ content_hash.

Record Measuring : Type := {
  total : N;
  entries : list ClosureEntry;
  leaves : list bytes;
}.

Definition measure_file (root : Handle sys) (limits : ClosureLimits) (st : Measuring)
    (name : bytes) : res ClosureError Measuring :=
  file ← open_beneath sys root name;
  before ← ok_or (stat_before sys file) CIo;
  reject_if (negb (md_is_file before)) (InvalidPath (lit "nonregular file " ++ name));;
  reject_if (max_file_bytes limits <? md_len before) (CLimit "file bytes");;
  tot ← ok_or (checked_add u64_max (total st) (md_len before)) (CLimit "total bytes");
  reject_if (max_total_bytes limits <? tot) (CLimit "total bytes");;
  '(read, fed) ← read_loop name (md_len before) 0 [] (read_results sys file);
  after ← ok_or (stat_after sys file) CIo;
  reject_if (negb (read =? md_len before) || negb (same_metadata before after)) (FileChanged name);;
  let content_hash := sha384 fed in
  let md := file_mode before in
  Ok {| total := tot;
        entries := entries st ++
          [{| relative_path := name; entry_length := read; mode := md;
              content_sha384 := hex_encode content_hash |}];
        leaves := leaves st ++ [sha384 (leaf_input name md read content_hash)] |}.

(** ** The tree *)
Definition branch_input (pair : list bytes) : bytes :=
  branch_prefix ++ [byte_of (blen pair)] ++ concat pair.
Definition branch (pair : list bytes) : bytes := sha384 (branch_input pair).
Fixpoint level (ls : list bytes) : list bytes :=
  match ls with
  | a :: b :: ls => branch [a; b] :: level ls
  | [a] => [branch [a]]
  | [] => []
  end.
Fixpoint merkle (fuel : nat) (ls : list bytes) : res ClosureError (list bytes) :=
  if 1 <? blen ls then
    match fuel with O => NoFuel | S fuel => merkle fuel (level ls) end
  else Ok ls.

Definition root_input (count : N) (top : bytes) : bytes := root_prefix ++ N_to_be 8 count ++ top.

Definition measure_closure (root : bytes) (paths : list bytes) (limits : ClosureLimits) :
    res ClosureError ClosureManifest :=
  reject_if ((blen paths =? 0) || (max_files limits <? blen paths)) (CLimit "file count");;
  names ← for_each check_path ∅ paths;
  root ← open_root sys root;
  st ← for_each (measure_file root limits) {| total := 0; entries := []; leaves := [] |}
         (merge_sort bytes_le (elements names));
  tree ← merkle (length (leaves st)) (leaves st);
  top ← index tree 0;
  Ok {| format := lit "uq-system-closure-v1"; files := entries st;
        root_sha384 := hex_encode (sha384 (root_input (blen (entries st)) top)) |}.
End Measure.

(** * Lemmas *)

(** ** Paths *)
Definition path_ok (path : bytes) : Prop :=
  is_Some (utf8_decode path) /\ path <> [] /\ blen path <= 4096 /\
  x00 ∉ path /\ Forall (fun p => p <> [] /\ p <> lit "." /\ p <> lit "..") (split_byte x2f path).

Lemma contains_byte_false c b : contains_byte c b = false <-> c ∉ b.
Proof. rewrite <- contains_byte_spec. by destruct (contains_byte c b). Qed.

Lemma existsb_false {A} (p : A -> bool) l : existsb p l = false <-> Forall (fun x => p x = false) l.
Proof.
  induction l as [|x l IH]; cbn; [split; [constructor|done]|].
  by rewrite orb_false_iff, IH, Forall_cons.
Qed.

Lemma check_path_Ok names path names' :
  check_path names path = Ok names' ->
  path_ok path /\ path ∉ names /\ names' = {[path]} ∪ names.
Proof.
  unfold check_path. intros Hc. inv_res.
  match goal with E : from_utf8 _ = Some _ |- _ => apply from_utf8_Some in E as [-> [cs Hcs]] end.
  bools. split; [|done]. split; [by eexists|]. rewrite !contains_byte_false, !existsb_false in *.
  split; [by intros ->|]. split; [done|]. split; [done|].
  match goal with E : Forall _ (split_byte _ _) |- _ => eapply Forall_impl; [exact E|] end.
  cbn. intros p Hp. bools. rewrite ?bytes_eqb_neq in *. done.
Qed.

Lemma check_paths_Ok paths names names' :
  for_each check_path names paths = Ok names' ->
  Forall path_ok paths /\ NoDup paths /\ (forall p, p ∈ paths -> p ∉ names) /\
  forall p, p ∈ names' <-> p ∈ paths \/ p ∈ names.
Proof.
  revert names. induction paths as [|p paths IH]; intros names; cbn [for_each].
  { intros [= <-]. split_and!; try constructor; set_solver. }
  intros (names1 & (Hp & Hn & ->)%check_path_Ok & (Hall & Hnd & Hout & Hin)%IH)%bind_Ok.
  split; [by constructor|]. split; [|split].
  - constructor; [|done]. intros Hin'. specialize (Hout p Hin'). set_solver.
  - intros q [->|Hq]%elem_of_cons; [done|]. specialize (Hout q Hq). set_solver.
  - intros q. rewrite Hin. set_solver.
Qed.

(** ** Reads *)
Lemma read_loop_Ok name limit reads read fed read' fed' :
  read_loop name limit read fed reads = Ok (read', fed') ->
  read = blen fed -> read <= limit ->
  read' = blen fed' /\ read' <= limit /\ exists chunks, fed' = fed ++ concat chunks /\
    (Some <$> chunks) `prefix_of` reads.
Proof.
  revert read fed. induction reads as [|r reads IH]; intros read fed; cbn [read_loop].
  { intros [= <- <-] -> Hl. split; [done|]. split; [done|]. exists []. rewrite app_nil_r.
    split; [done|apply prefix_nil]. }
  intros (chunk & Hr & Hc)%bind_Ok -> Hl. apply ok_or_Ok in Hr. subst r.
  destruct (blen chunk =? 0).
  { injection Hc as <- <-. split; [done|]. split; [done|]. exists []. rewrite app_nil_r.
    split; [done|apply prefix_nil]. }
  inv_res. bools.
  match goal with E : checked_add _ _ _ = Some _ |- _ => apply checked_add_Some in E as [-> _] end.
  destruct (IH _ _ Hc) as (H1 & H2 & chunks & -> & Hp); [by rewrite blen_app|done|].
  split; [done|]. split; [done|]. exists (chunk :: chunks). cbn.
  rewrite <- app_assoc. split; [done|]. by apply prefix_cons.
Qed.

Section MeasureLemmas.
Context {H : Sha2} {HL : Sha2Laws H} (sys : System).

(** One measured file: path, mode, length, content. *)
Record Measured : Type := {
  m_name : bytes;
  m_mode : N;
  m_content : bytes;
}.
Definition entry_of (m : Measured) : ClosureEntry :=
  {| relative_path := m_name m; entry_length := blen (m_content m); mode := m_mode m;
     content_sha384 := hex_encode (sha384 (m_content m)) |}.
Definition leaf_of (m : Measured) : bytes :=
  sha384 (leaf_input (m_name m) (m_mode m) (blen (m_content m)) (sha384 (m_content m))).

(** A stable regular file whose whole content was read. *)
Definition stable_file (root : Handle sys) (limits : ClosureLimits) (m : Measured) : Prop :=
  exists file before after chunks,
    open_beneath sys root (m_name m) = Ok file /\
    stat_before sys file = Some before /\ stat_after sys file = Some after /\
    md_is_file before = true /\ same_metadata before after = true /\
    m_mode m = file_mode before /\ blen (m_content m) = md_len before /\
    m_content m = concat chunks /\ (Some <$> chunks) `prefix_of` read_results sys file /\
    md_len before <= max_file_bytes limits.

Definition sizes (ms : list Measured) : N := foldr N.add 0 ((fun m => blen (m_content m)) <$> ms).

Record measuring_inv (root : Handle sys) (limits : ClosureLimits) (st : Measuring)
    (ms : list Measured) : Prop := {
  mi_entries : entries st = entry_of <$> ms;
  mi_leaves : leaves st = leaf_of <$> ms;
  mi_stable : Forall (stable_file root limits) ms;
  mi_total : total st = sizes ms /\ total st <= u64_max;
}.

Lemma sizes_snoc ms m : sizes (ms ++ [m]) = sizes ms + blen (m_content m).
Proof.
  unfold sizes. induction ms as [|x ms IH]; cbn; [lia|]. cbn in IH. rewrite IH. lia.
Qed.

Lemma measure_file_Ok root limits st ms name st' :
  measure_file sys root limits st name = Ok st' -> measuring_inv root limits st ms ->
  exists m, m_name m = name /\ measuring_inv root limits st' (ms ++ [m]).
Proof.
  unfold measure_file. intros Hm [He Hl Hs [Ht Htu]]. inv_res.
  match goal with p : (N * bytes)%type |- _ => destruct p as [read fed] end. inv_res. bools.
  match goal with E : read_loop _ _ _ _ _ = Ok _ |- _ =>
    apply read_loop_Ok in E as (-> & _ & chunks & -> & Hp); [|done|lia] end.
  match goal with E : checked_add _ _ _ = Some _ |- _ => apply checked_add_Some in E as [-> ?] end.
  match goal with E : stat_before sys _ = Some ?b |- _ => rename b into before end.
  exists {| m_name := name; m_mode := file_mode before; m_content := concat chunks |}.
  split; [done|]. rewrite app_nil_l in *. split; cbn [entries leaves total].
  - rewrite fmap_app, He. done.
  - rewrite fmap_app, Hl. done.
  - apply Forall_app. split; [done|]. constructor; [|constructor].
    do 4 eexists. split_and!; try eassumption; done.
  - rewrite sizes_snoc, <- Ht. cbn.
    match goal with E : _ = md_len before |- _ => rewrite E end. done.
Qed.

Lemma measure_files_Ok root limits names st ms st' :
  for_each (measure_file sys root limits) st names = Ok st' -> measuring_inv root limits st ms ->
  exists new, m_name <$> new = names /\ measuring_inv root limits st' (ms ++ new).
Proof.
  revert st ms. induction names as [|n names IH]; intros st ms; cbn [for_each].
  { intros [= <-] Hi. exists []. by rewrite app_nil_r. }
  intros (st1 & Hm & Hf)%bind_Ok Hi.
  destruct (measure_file_Ok _ _ _ _ _ _ Hm Hi) as (m & Hn & Hi1).
  destruct (IH _ _ Hf Hi1) as (new & <- & Hi2). exists (m :: new). cbn. rewrite Hn.
  split; [done|]. by rewrite <- app_assoc in Hi2.
Qed.

(** ** The tree terminates and is binding *)
Lemma list_pair_ind {A} (P : list A -> Prop) :
  P [] -> (forall a, P [a]) -> (forall a b l, P l -> P (a :: b :: l)) -> forall l, P l.
Proof.
  intros H0 H1 H2. assert (forall l, P l /\ forall a, P (a :: l)) as Hall.
  { induction l as [|x l [IH1 IH2]]; split; auto. }
  intros l. apply Hall.
Qed.

Lemma level_length (ls : list bytes) :
  (length (level ls) <= length ls)%nat /\ ((1 < length ls)%nat -> (length (level ls) < length ls)%nat) /\
  (ls <> [] -> level ls <> []).
Proof.
  induction ls as [|a|a b ls (IH1 & IH2 & IH3)] using list_pair_ind; cbn; split_and!; try done; lia.
Qed.

Lemma level_widths ls : Forall (fun d => length d = 48%nat) (level ls).
Proof.
  induction ls as [|a|a b ls IH] using list_pair_ind; cbn; repeat constructor; auto;
    apply sha384_length.
Qed.

Lemma merkle_Ok fuel ls :
  (length ls <= fuel)%nat -> ls <> [] -> exists top, merkle fuel ls = Ok [top].
Proof.
  revert ls. induction fuel as [|fuel IH]; intros ls Hf Hne; cbn [merkle];
    destruct (N.ltb_spec 1 (blen ls)) as [Hl|Hl]; unfold blen in Hl.
  - lia.
  - destruct ls as [|a [|b ls]]; [done|by exists a|cbn in Hl; lia].
  - destruct (level_length ls) as (_ & Hlt & Hn). apply IH; [|auto]. specialize (Hlt ltac:(lia)). lia.
  - destruct ls as [|a [|b ls]]; [done|by exists a|cbn in Hl; lia].
Qed.

Lemma branch_inj p q :
  Forall (fun d => length d = 48%nat) p -> Forall (fun d => length d = 48%nat) q ->
  length p = length q -> branch p = branch q -> p = q \/ collision sha384 (branch_input p) (branch_input q).
Proof.
  intros Hp Hq Hl [Heq|?]%(eq_or_collision sha384); [left|by right].
  unfold branch_input in Heq. apply (app_inv_head branch_prefix) in Heq.
  assert (blen p = blen q) as Hb by (unfold blen; lia). rewrite Hb in Heq. injection Heq as Heq.
  clear Hb. revert q Hq Hl Heq. induction Hp as [|x p Hx _ IH]; intros [|y q] Hq Hl; try done.
  inversion_clear Hq as [|? ? Hy Hq']. cbn. intros [-> Ht]%app_inj_1; [|lia].
  f_equal. apply IH; auto.
Qed.

(** The messages that a level of the tree hashes, and those of all levels. *)
Fixpoint level_messages (ls : list bytes) : list bytes :=
  match ls with
  | a :: b :: ls => branch_input [a; b] :: level_messages ls
  | [a] => [branch_input [a]]
  | [] => []
  end.
Fixpoint merkle_messages (fuel : nat) (ls : list bytes) : list bytes :=
  match fuel with
  | O => []
  | S fuel => if 1 <? blen ls then level_messages ls ++ merkle_messages fuel (level ls) else []
  end.

Lemma level_inj l1 l2 :
  length l1 = length l2 ->
  Forall (fun d => length d = 48%nat) l1 -> Forall (fun d => length d = 48%nat) l2 ->
  level l1 = level l2 -> l1 = l2 \/ collision_among sha384 (level_messages l1) (level_messages l2).
Proof.
  revert l2. induction l1 as [|a|a b l1 IH] using list_pair_ind;
    intros [|c [|d l2]] Hl H1 H2 Heq; try done; [by left| |].
  - cbn in Heq. injection Heq as Heq. apply branch_inj in Heq as [|Hc]; [by left| |done..].
    right. by apply collision_here.
  - cbn in Heq. injection Heq as Hh Ht.
    rewrite !Forall_cons in *. destruct_and!.
    apply branch_inj in Hh as [Hh|Hc]; [| |by repeat constructor..|done].
    2: { right. by apply collision_here. }
    apply IH in Ht as [->|Hc]; [|right; eapply collision_among_mono, Hc; set_solver|cbn in Hl; lia|done|done].
    left. by injection Hh as -> ->.
Qed.

Lemma merkle_inj fuel l1 l2 top :
  length l1 = length l2 ->
  Forall (fun d => length d = 48%nat) l1 -> Forall (fun d => length d = 48%nat) l2 ->
  merkle fuel l1 = Ok top -> merkle fuel l2 = Ok top ->
  l1 = l2 \/ collision_among sha384 (merkle_messages fuel l1) (merkle_messages fuel l2).
Proof.
  revert l1 l2. induction fuel as [|fuel IH]; intros l1 l2 Hl H1 H2; cbn [merkle merkle_messages];
    assert (blen l1 = blen l2) as -> by (unfold blen; lia);
    destruct (1 <? blen l2); try done; try (intros [= ->] [= ->]; by left).
  intros E1 E2. assert (length (level l1) = length (level l2)) as Hll.
  { clear -Hl. revert l2 Hl. induction l1 as [|a|a b l1 IH] using list_pair_ind;
      intros [|c [|d l2]] Hl; try done. cbn in *. f_equal. apply IH. lia. }
  destruct (IH _ _ Hll (level_widths _) (level_widths _) E1 E2) as [Heq|Hc];
    [|right; eapply collision_among_mono, Hc; set_solver].
  apply level_inj in Heq as [|Hc]; [by left|right; eapply collision_among_mono, Hc; set_solver|done..].
Qed.

Lemma leaf_input_inj n1 m1 r1 h1 n2 m2 r2 h2 :
  blen n1 < 2 ^ 32 -> blen n2 < 2 ^ 32 -> m1 < 2 ^ 32 -> m2 < 2 ^ 32 ->
  r1 < 2 ^ 64 -> r2 < 2 ^ 64 ->
  leaf_input n1 m1 r1 h1 = leaf_input n2 m2 r2 h2 -> n1 = n2 /\ m1 = m2 /\ r1 = r2 /\ h1 = h2.
Proof.
  intros Hn1 Hn2 Hm1 Hm2 Hr1 Hr2 Heq%(app_inv_head leaf_prefix).
  apply app_inj_1 in Heq as [Hl Heq]; [|by rewrite !length_N_to_be].
  apply N_to_be_inj in Hl; [|by apply N.mod_upper_bound..].
  rewrite !N.mod_small in Hl by done.
  apply app_inj_1 in Heq as [-> Heq]; [|unfold blen in Hl; lia].
  apply app_inj_1 in Heq as [Hm Heq]; [|by rewrite !length_N_to_be].
  apply app_inj_1 in Heq as [Hr ->]; [|by rewrite !length_N_to_be].
  apply N_to_be_inj in Hm; [|done..]. apply N_to_be_inj in Hr; [|done..]. done.
Qed.

Definition measured_ok (m : Measured) : Prop :=
  blen (m_name m) < 2 ^ 32 /\ m_mode m < 2 ^ 32 /\ blen (m_content m) < 2 ^ 64.

(** The messages of the leaves: the contents and the leaf inputs. *)
Definition leaf_input_of (m : Measured) : bytes :=
  leaf_input (m_name m) (m_mode m) (blen (m_content m)) (sha384 (m_content m)).
Definition leaf_messages (ms : list Measured) : list bytes := ms ≫= (fun m => [m_content m; leaf_input_of m]).
Lemma leaf_messages_cons m ms : leaf_messages (m :: ms) = m_content m :: leaf_input_of m :: leaf_messages ms.
Proof. done. Qed.
Lemma leaves_inj ms1 ms2 :
  Forall measured_ok ms1 -> Forall measured_ok ms2 ->
  leaf_of <$> ms1 = leaf_of <$> ms2 -> ms1 = ms2 \/ collision_among sha384 (leaf_messages ms1) (leaf_messages ms2).
Proof.
  intros H1. revert ms2. induction H1 as [|m1 ms1 (A1 & A2 & A3) _ IH]; intros ms2 H2.
  - destruct ms2; [by left|done].
  - destruct H2 as [|m2 ms2 (B1 & B2 & B3) H2]; [done|]. rewrite !fmap_cons, !leaf_messages_cons. intros [= Hh Ht].
    apply IH in Ht as [->|Hc]; [| |done].
    2: { right. eapply collision_among_mono, Hc; intros x Hx; by do 2 right. }
    apply eq_or_collision in Hh as [Hh|Hc].
    2: { right. eapply collision_among_mono, (collision_here _ _ _ [] [] Hc); intros x ->%list_elem_of_singleton;
      right; apply list_elem_of_here. }
    apply leaf_input_inj in Hh as (Hn & Hm & _ & Hc); try done.
    apply eq_or_collision in Hc as [Hc|Hc]; [left|right; by apply collision_here].
    f_equal. destruct m1, m2. cbn in *. by subst.
Qed.

Lemma sizes_elem ms m : m ∈ ms -> blen (m_content m) <= sizes ms.
Proof.
  unfold sizes. induction ms as [|x ms IH]; [by intros ?%elem_of_nil|].
  intros [->|Hm]%elem_of_cons; cbn; [lia|]. specialize (IH Hm). cbn in IH. lia.
Qed.

Lemma file_mode_bound md : file_mode md < 2 ^ 32.
Proof.
  unfold file_mode. change 0xfff with (N.ones 12). rewrite N.land_ones.
  pose proof (N.mod_upper_bound (md_mode md) (2 ^ 12) ltac:(done)). lia.
Qed.

(** What a manifest is: the sorted distinct paths, each a stable file fully read. *)
Definition manifest_of (root : bytes) (paths : list bytes) (limits : ClosureLimits)
    (m : ClosureManifest) (ms : list Measured) : Prop :=
  (exists h, open_root sys root = Ok h /\ Forall (stable_file h limits) ms) /\
  m_name <$> ms ≡ₚ paths /\ Sorted bytes_le (m_name <$> ms) /\ NoDup paths /\
  Forall path_ok paths /\ Forall measured_ok ms /\ ms <> [] /\ files m = entry_of <$> ms /\
  exists top, merkle (length ms) (leaf_of <$> ms) = Ok [top] /\
    root_sha384 m = hex_encode (sha384 (root_input (blen ms) top)).

(** The messages that the root digest of a measurement hashes. *)
Definition root_messages (ms : list Measured) : list bytes :=
  match merkle (length ms) (leaf_of <$> ms) with Ok [top] => [root_input (blen ms) top] | _ => [] end ++
  merkle_messages (length ms) (leaf_of <$> ms) ++ leaf_messages ms.

Lemma measure_closure_Ok root paths limits m :
  measure_closure sys root paths limits = Ok m -> exists ms, manifest_of root paths limits m ms.
Proof.
  unfold measure_closure. intros Hm. inv_res. bools.
  match goal with E : for_each check_path _ _ = Ok ?n |- _ =>
    apply check_paths_Ok in E as (Hok & Hnd & _ & Hin); rename n into names end.
  match goal with E : open_root sys root = Ok ?h0 |- _ => rename h0 into h; rename E into Hroot end.
  match goal with E : for_each _ _ _ = Ok ?s |- _ =>
    apply (measure_files_Ok _ _ _ _ []) in E as (ms & Hn & [He Hl Hs [Ht Htu]]); [|by split] end.
  rewrite app_nil_l in *.
  assert (m_name <$> ms ≡ₚ paths) as Hperm.
  { rewrite Hn, merge_sort_Permutation. apply NoDup_Permutation; [apply NoDup_elements|done|].
    intros p. rewrite elem_of_elements, Hin. set_solver. }
  assert (length ms = length paths) as Hlen
    by (rewrite <- (length_fmap m_name ms); by apply Permutation_length).
  assert (ms <> []) as Hne.
  { intros ->. destruct paths; [by rewrite blen_nil in *|done]. }
  rewrite Hl, length_fmap in *.
  destruct (merkle_Ok (length ms) (leaf_of <$> ms)) as [top Htop];
    [by rewrite length_fmap|by destruct ms|].
  match goal with E : merkle _ _ = Ok _ |- _ => rewrite Htop in E; injection E as <- end.
  match goal with E : get [top] 0 = Some _ |- _ => injection E as <- end.
  exists ms. split; [by exists h|]. split; [done|]. split.
  { rewrite Hn. apply (Sorted_merge_sort bytes_le). }
  split; [done|]. split; [done|]. split; [|split; [done|split; [done|]]].
  - apply Forall_forall. intros x Hx. split; [|split].
    + assert (m_name x ∈ paths) as Hp by (rewrite <- Hperm; by apply list_elem_of_fmap_2).
      rewrite Forall_forall in Hok. destruct (Hok _ Hp) as (_ & _ & ? & _). lia.
    + rewrite Forall_forall in Hs. destruct (Hs _ Hx) as (? & ? & ? & ? & _ & _ & _ & _ & _ & -> & _).
      apply file_mode_bound.
    + pose proof (sizes_elem _ _ Hx). change u64_max with (2 ^ 64 - 1) in Htu. lia.
  - exists top. split; [done|]. cbn [root_sha384]. rewrite He. unfold blen. by rewrite length_fmap.
Qed.
End MeasureLemmas.

(** ** Nothing panics *)
Lemma safe_read_loop name limit reads read fed :
  safe (read_loop name limit read fed reads) (fun _ => True).
Proof.
  revert read fed. induction reads as [|r reads IH]; intros read fed; cbn [read_loop]; [done|].
  wp. case_match; [done|]. wp. apply IH.
Qed.

Lemma safe_open_components sys path parent cs :
  safe (open_components sys path parent cs) (fun _ => True).
Proof.
  revert parent. induction cs as [|c cs IH]; intros parent; cbn [open_components]; [done|].
  destruct c; try done. unfold open_child. wp. apply IH.
Qed.

Lemma safe_measure_closure {H : Sha2} sys root paths limits :
  safe (measure_closure sys root paths limits) (fun _ => True).
Proof.
  unfold measure_closure. wp. bools. apply (safe_mono _ (fun _ => True)).
  { apply (safe_for_each _ (fun _ => True)); [done|]. intros names p _ _. unfold check_path. by wp. }
  intros names Hnames _. apply safe_bind, (safe_mono _ (fun _ => True)).
  { unfold open_root. wp. apply (safe_for_each _ (fun _ => True)); [done|].
    intros h c _ _. destruct c; try done. unfold open_child. by wp. }
  intros h _ _. apply safe_bind.
  apply (safe_mono _ (fun st => length (leaves st) = length (merge_sort bytes_le (elements names)))).
  { match goal with |- safe (for_each ?f ?a ?l) _ => 
      enough (forall l' a', safe (for_each f a' l') (fun st =>
        length (leaves st) = (length (leaves a') + length l')%nat)) as Hlen by apply (Hlen l a) end.
    intros l'. induction l' as [|n l' IH]; intros a'; cbn [for_each]; [cbn; lia|].
    apply safe_bind, (safe_mono _ (fun st => length (leaves st) = S (length (leaves a')))).
    - unfold measure_file. unfold open_beneath.
      eapply safe_seq; [apply safe_open_components|]. intros file _ _. wp.
      eapply safe_mono; [apply safe_read_loop|]. intros [rd fed] _ _. wp. cbn.
      rewrite length_app. cbn. lia.
    - intros st _ Hst. eapply safe_mono; [apply IH|]. cbn. intros st' _ ->. rewrite Hst. lia. }
  intros st _ Hst. apply check_paths_Ok in Hnames as (_ & _ & _ & Hin).
  assert (leaves st <> []) as Hne.
  { intros Hnil. rewrite Hnil, merge_sort_Permutation in Hst. destruct paths as [|p paths].
    - by rewrite blen_nil in *.
    - assert (p ∈ elements names) as Hp by (apply elem_of_elements, Hin; left; left).
      destruct (elements names); [by apply elem_of_nil in Hp|done]. }
  destruct (merkle_Ok (length (leaves st)) (leaves st)) as [top ->]; [done|done|]. by wp.
Qed.

(** * Properties *)
Section ClosureProperties.
Context {H : Sha2} {HL : Sha2Laws H}.

(** The closure root binds the whole manifest: two measurements, on any systems,
    with the same root list the same files, in the same order, with the same modes,
    lengths and contents, unless two of the messages that the two measurements hash
    (contents, leaves, branches, roots) collide under SHA-384. *)
Theorem closure_root_binding sys1 sys2 root1 root2 paths1 paths2 limits1 limits2 m1 m2 :
  measure_closure sys1 root1 paths1 limits1 = Ok m1 ->
  measure_closure sys2 root2 paths2 limits2 = Ok m2 ->
  root_sha384 m1 = root_sha384 m2 -> blen paths1 < 2 ^ 64 -> blen paths2 < 2 ^ 64 ->
  exists ms1 ms2, manifest_of sys1 root1 paths1 limits1 m1 ms1 /\
    manifest_of sys2 root2 paths2 limits2 m2 ms2 /\
    (ms1 = ms2 \/ collision_among sha384 (root_messages ms1) (root_messages ms2)).
Proof.
  intros [ms1 M1]%measure_closure_Ok [ms2 M2]%measure_closure_Ok Hroot Hp1 Hp2.
  pose proof M1 as (_ & P1 & _ & _ & _ & O1 & _ & _ & top1 & T1 & R1).
  pose proof M2 as (_ & P2 & _ & _ & _ & O2 & _ & _ & top2 & T2 & R2).
  apply Permutation_length in P1, P2. rewrite length_fmap in P1, P2.
  rewrite R1, R2 in Hroot. apply (f_equal hex_decode) in Hroot. rewrite !hex_decode_encode in Hroot.
  injection Hroot as Hroot.
  exists ms1, ms2. split_and!; [done..|]. unfold root_messages. rewrite T1, T2.
  apply (eq_or_collision sha384) in Hroot as [Hr%(app_inv_head root_prefix)|Hc].
  2: { right. by apply collision_here. }
  apply app_inj_1 in Hr as [Hc ->]; [|by rewrite !length_N_to_be].
  apply N_to_be_inj in Hc; [|change (256 ^ N.of_nat 8) with (2 ^ 64); unfold blen in *; lia..].
  assert (length ms1 = length ms2) as Hl by (unfold blen in Hc; lia).
  assert (forall ms, Forall (fun d => length d = 48%nat) (leaf_of <$> ms)) as Hw.
  { intros ms. apply Forall_fmap, Forall_forall. intros x _. apply sha384_length. }
  rewrite Hl in T1 |- *. destruct (merkle_inj (length ms2) (leaf_of <$> ms1) (leaf_of <$> ms2) [top2]) as [Hleaf|Hm];
    [by rewrite !length_fmap|apply Hw|apply Hw|done|done| |].
  2: { right. eapply collision_among_mono, Hm; set_solver. }
  apply leaves_inj in Hleaf as [->|Hm]; [by left| |done|done]. right. eapply collision_among_mono, Hm; set_solver.
Qed.

(** Measuring never panics and the tree loop terminates; a manifest lists exactly
    the given distinct valid paths in byte order, each one a regular file whose
    metadata was the same before and after and whose recorded length and digest are
    those of all the bytes that were read. *)
Theorem closure_manifest_faithful sys root paths limits :
  safe (measure_closure sys root paths limits) (fun m =>
    exists ms, manifest_of sys root paths limits m ms).
Proof.
  eapply safe_mono; [apply safe_measure_closure|]. intros m Hm _. by apply measure_closure_Ok.
Qed.
End ClosureProperties.

(** * Witnesses *)
Definition sample_metadata : Metadata :=
  {| md_is_file := true; md_dev := 1; md_ino := 2; md_len := 5; md_mode := 0x81ed;
     md_mtime := 3; md_mtime_nsec := 4; md_ctime := 5; md_ctime_nsec := 6 |}.
Definition sample_system : System := {|
  Handle := bytes;
  open_base := fun _ => Some [];
  openat := fun parent nm _ => Some (parent ++ x2f :: nm);
  stat_before := fun _ => Some sample_metadata;
  read_results := fun _ => [Some (lit "abc"); Some (lit "de"); Some []];
  stat_after := fun _ => Some sample_metadata |}.
Definition sample_paths : list bytes := [lit "usr/bin/b"; lit "etc/a"; lit "usr/lib"].
Definition sample_manifest : ClosureManifest :=
  unwrap_or (measure_closure (H:=toy_sha2) sample_system (lit "/sysroot") sample_paths
    default_closure_limits) {| format := []; files := []; root_sha384 := [] |}.
Lemma sample_measure :
  measure_closure (H:=toy_sha2) sample_system (lit "/sysroot") sample_paths default_closure_limits
  = Ok sample_manifest.
Proof. vm_compute. reflexivity. Qed.

Lemma closure_root_binding_witness :
  exists ms, manifest_of (H:=toy_sha2) sample_system (lit "/sysroot") sample_paths
     default_closure_limits sample_manifest ms.
Proof.
  destruct (closure_root_binding (HL:=toy_sha2_laws) _ _ _ _ _ _ _ _ _ _
    sample_measure sample_measure eq_refl) as (ms & ms' & Hm & _).
  - reflexivity.
  - reflexivity.
  - exact (ex_intro _ ms Hm).
Defined.

Lemma closure_manifest_faithful_witness :
  safe (measure_closure (H:=toy_sha2) sample_system (lit "/sysroot") sample_paths default_closure_limits)
    (fun m => exists ms, manifest_of (H:=toy_sha2) sample_system (lit "/sysroot") sample_paths
       default_closure_limits m ms).
Proof. exact (closure_manifest_faithful (HL:=toy_sha2_laws) _ _ _ _). Defined.
