(* ===== verification/Spdm.v ===== *)
(** * Spdm: the signed GPU measurement report of [src/v2/src/gpu/spdm.rs]

    The SPDM 1.1 profile that NVML returns: one 37-byte GET_MEASUREMENTS request,
    one MEASUREMENTS response, one P-384 signature over everything before it.
    The file models the borrowing cursor, [SpdmReport::parse] (one measurement
    block and the frame around the blocks), [check_nonce] and [verify_signature].

    [encode_transcript] is the specification: the byte layout of the profile as
    a printer.  The theorems show that the parser accepts exactly the printed
    well-formed reports ([spdm_parse_exact]) and that two reports with one signed
    transcript make the same claims ([spdm_signature_covers_claims]). *)
From S2P Require Import Prelude Bytes Crypto.

Definition MAX_REPORT_SIZE : N := 0x2000.
Definition REQUEST_SIZE : N := 37.
Definition SIGNATURE_SIZE : N := 96.

Inductive SpdmError : Type :=
| Oversized
| Truncated (field : string)
| Invalid (what : string)
| NonceMismatch
| BadSignature.

Record Measurement : Type := {
  index_ : N;
  value_type : N;
  raw_bit_stream : bool;
  value : bytes;
}.

Record SpdmReport : Type := {
  signed_transcript : bytes;
  signature : bytes;
  request_nonce : bytes;
  responder_nonce : bytes;
  measurements : list Measurement;
  opaque_data : bytes;
}.

(** ** The cursor: the rest of the input *)
Definition cur_take (c : bytes) (n : N) (field : string) : res SpdmError (bytes * bytes) :=
  v ← ok_or (get_range c 0 n) (Truncated field);
  rest ← index_from c n;
  Ok (v, rest).
Definition cur_byte (c : bytes) (field : string) : res SpdmError (N * bytes) :=
  '(v, c) ← cur_take c 1 field; b ← index v 0; Ok (byte_N b, c).
Definition cur_le16 (c : bytes) (field : string) : res SpdmError (N * bytes) :=
  '(v, c) ← cur_take c 2 field;
  b0 ← index v 0; b1 ← index v 1; Ok (le_to_N [b0; b1], c).

(** ** One measurement block *)
Definition parse_value (block : bytes) : res SpdmError (N * bytes) :=
  '(vt, m) ← cur_byte block "DMTF value type";
  '(value_size, m) ← cur_le16 m "DMTF value size";
  '(v, m) ← cur_take m value_size "DMTF value";
  reject_if (negb (blen m =? 0) || (blen v =? 0)) (Invalid "DMTF value length");;
  Ok (vt, v).

Definition parse_block (st : bytes * list bool * list Measurement) (_ : unit) :
    res SpdmError (bytes * list bool * list Measurement) :=
  let '(record, seen, ms) := st in
  '(i, record) ← cur_byte record "measurement index";
  (if (i =? 0) || (i =? 255) then Err (Invalid "reserved or duplicate measurement index")
   else s ← index seen i;
        reject_if s (Invalid "reserved or duplicate measurement index"));;
  let seen := <[N.to_nat i := true]> seen in
  '(spec, record) ← cur_byte record "measurement specification";
  reject_if (negb (spec =? 1)) (Invalid "non-DMTF measurement specification");;
  '(size, record) ← cur_le16 record "measurement size";
  '(block, record) ← cur_take record size "measurement";
  '(vt, v) ← parse_value block;
  let raw := negb (N.land vt 0x80 =? 0) in
  reject_if ((4 <? N.land vt 0x7f) || (negb raw && negb (blen v =? 48)))
    (Invalid "DMTF value type or SHA-384 digest size");;
  Ok (record, seen,
      ms ++ [{| index_ := i; value_type := N.land vt 0x7f; raw_bit_stream := raw; value := v |}]).

(** ** The report *)
(** The request, with the certificate slot it names; the response header must
    repeat the slot. *)
Definition parse_request (b : bytes) : res SpdmError (bytes * bytes) :=
  '(request, c) ← cur_take b REQUEST_SIZE "GET_MEASUREMENTS request";
  head ← index_range request 0 4;
  slot ← (if negb (bytes_eqb head [x11; xe0; x01; xff])
          then Err (Invalid "GET_MEASUREMENTS request header")
          else slot ← index request 36;
               reject_if (7 <? byte_N slot) (Invalid "GET_MEASUREMENTS request header");;
               Ok slot);
  '(header, c) ← cur_take c 4 "MEASUREMENTS header";
  reject_if (negb (bytes_eqb header [x11; x60; x00; slot]))
    (Invalid "MEASUREMENTS response header/slot");;
  Ok (request, c).

(** The block count, the record length and the blocks, which fill the record. *)
Definition parse_record (c : bytes) : res SpdmError (list Measurement * bytes) :=
  '(block_count, c) ← cur_byte c "measurement block count";
  reject_if (block_count =? 0) (Invalid "empty measurement record");;
  '(len, c) ← cur_take c 3 "measurement record length";
  l0 ← index len 0; l1 ← index len 1; l2 ← index len 2;
  '(record, c) ← cur_take c (le_to_N [l0; l1; l2; x00]) "measurement record";
  '(record, _, ms) ← for_each parse_block (record, replicate 256 false, [])
                       (replicate (N.to_nat block_count) tt);
  reject_if (negb (blen record =? 0)) (Invalid "measurement count/record length");;
  Ok (ms, c).

Definition parse_report (b : bytes) : res SpdmError SpdmReport :=
  reject_if (MAX_REPORT_SIZE <? blen b) Oversized;;
  '(request, c) ← parse_request b;
  '(ms, c) ← parse_record c;
  '(responder, c) ← cur_take c 32 "responder nonce";
  '(opaque_length, c) ← cur_le16 c "opaque length";
  '(opaque, c) ← cur_take c opaque_length "opaque data";
  signed_length ← unwrap (checked_sub (blen b) (blen c));
  '(sig, c) ← cur_take c SIGNATURE_SIZE "P-384 signature";
  reject_if (negb (blen c =? 0)) (Invalid "trailing bytes");;
  transcript ← index_range b 0 signed_length;
  nonce ← index_range request 4 36;
  Ok {| signed_transcript := transcript; signature := sig; request_nonce := nonce;
        responder_nonce := responder; measurements := ms; opaque_data := opaque |}.

Definition check_nonce (r : SpdmReport) (expected_nonce : bytes) : res SpdmError unit :=
  reject_if (negb (bytes_eqb (request_nonce r) expected_nonce)) NonceMismatch.

(** ECDSA over P-384 ([p384]): a fixed-width signature either decodes to a pair of
    scalars or is refused, and a key accepts or rejects a message. *)
Class P384 := {
  P384Key : Type;
  P384Signature : Type;
  signature_from_slice : bytes -> option P384Signature;
  p384_verify : P384Key -> bytes -> P384Signature -> bool;
}.

Definition verify_signature `{P384} (r : SpdmReport) (expected_nonce : bytes) (key : P384Key) :
    res SpdmError unit :=
  check_nonce r expected_nonce;;
  sig ← ok_or (signature_from_slice (signature r)) BadSignature;
  reject_if (negb (p384_verify key (signed_transcript r) sig)) BadSignature.

(** ** Specification: the layout as a printer *)
Definition type_byte (m : Measurement) : byte :=
  byte_of (value_type m + if raw_bit_stream m then 128 else 0).
Definition encode_measurement (m : Measurement) : bytes :=
  byte_of (index_ m) :: x01 :: N_to_le 2 (3 + blen (value m)) ++
  type_byte m :: N_to_le 2 (blen (value m)) ++ value m.
Definition encode_record (ms : list Measurement) : bytes := ms ≫= encode_measurement.
Definition encode_request (slot : byte) (nonce : bytes) : bytes :=
  ([x11; xe0; x01; xff] ++ nonce ++ [slot]) ++ [x11; x60; x00; slot].
Definition encode_blocks (ms : list Measurement) : bytes :=
  byte_of (blen ms) :: N_to_le 3 (blen (encode_record ms)) ++ encode_record ms.
Definition encode_transcript (slot : byte) (r : SpdmReport) : bytes :=
  encode_request slot (request_nonce r) ++ encode_blocks (measurements r) ++
  responder_nonce r ++ N_to_le 2 (blen (opaque_data r)) ++ opaque_data r.

Definition measurement_wf (m : Measurement) : Prop :=
  1 <= index_ m <= 254 /\ value_type m <= 4 /\ 1 <= blen (value m) <= 65532 /\
  (raw_bit_stream m = false -> blen (value m) = 48).
Definition report_wf (r : SpdmReport) : Prop :=
  blen (request_nonce r) = 32 /\ blen (responder_nonce r) = 32 /\
  blen (signature r) = SIGNATURE_SIZE /\
  blen (opaque_data r) < 65536 /\ measurements r <> [] /\ Forall measurement_wf (measurements r) /\
  NoDup (index_ <$> measurements r).

(** * Lemmas *)

(** ** The cursor *)
Lemma cur_take_Ok c n f v rest :
  cur_take c n f = Ok (v, rest) <-> c = v ++ rest /\ blen v = n.
Proof.
  unfold cur_take. split.
  - intros Hr. inv_res.
    match goal with H : get_range _ _ _ = Some _ |- _ =>
      pose proof (get_range_blen _ _ _ _ H); apply get_range_next in H end.
    split; [done|lia].
  - intros [-> <-]. assert (get_range (v ++ rest) 0 (blen v) = Some v) as -> by exact (get_range_app [] v rest).
    cbn. by rewrite index_from_app.
Qed.

Lemma cur_byte_Ok c f v rest :
  cur_byte c f = Ok (v, rest) <-> v < 256 /\ c = byte_of v :: rest.
Proof.
  unfold cur_byte. split.
  - intros ([w c'] & (-> & Hw)%cur_take_Ok & Hr)%bind_Ok. inv_res.
    destruct w as [|a0 [|]]; rewrite ?blen_cons, ?blen_nil in Hw; try lia.
    match goal with H : get _ _ = Some _ |- _ => cbn in H; injection H as -> end.
    rewrite byte_of_N. split; [apply byte_N_lt|done].
  - intros [Hv ->]. rewrite (proj2 (cur_take_Ok _ _ _ [byte_of v] rest)) by done. ok_step.
    rewrite (index_Some _ 0 (byte_of v)) by done. ok_step. by rewrite byte_N_of, N.mod_small.
Qed.

Lemma list_blen_2 (v : bytes) : blen v = 2 -> exists a b, v = [a; b].
Proof. destruct v as [|a [|b [|]]]; rewrite ?blen_cons, ?blen_nil; try lia; eauto. Qed.
Lemma list_blen_3 (v : bytes) : blen v = 3 -> exists a b c, v = [a; b; c].
Proof. destruct v as [|a [|b [|c [|]]]]; rewrite ?blen_cons, ?blen_nil; try lia; eauto. Qed.

Lemma cur_le16_Ok c f v rest :
  cur_le16 c f = Ok (v, rest) <-> v < 65536 /\ c = N_to_le 2 v ++ rest.
Proof.
  unfold cur_le16. split.
  - intros ([w c'] & (-> & Hw)%cur_take_Ok & Hr)%bind_Ok.
    apply list_blen_2 in Hw as (a & b & ->). cbv beta iota in Hr. inv_res.
    repeat match goal with H : get _ _ = Some _ |- _ => cbn in H; injection H as H; subst end.
    split; [apply (le_to_N_bound [_; _])|]. f_equal. by apply (le_to_N_eq [_; _] 2).
  - intros [Hv ->]. rewrite (proj2 (cur_take_Ok _ _ _ (N_to_le 2 v) rest)) by done.
    ok_step. pose proof (blen_N_to_le 2 v) as (a & b & Hab)%list_blen_2.
    rewrite Hab, (index_Some _ 0 a), (index_Some _ 1 b) by done.
    do 2 ok_step. by rewrite <- Hab, le_to_N_to_le.
Qed.
Ltac inv_res_hook ::=
  match goal with
  | H : index _ _ = Ok _ |- _ => apply index_Ok in H
  | H : index_range _ _ _ = Ok _ |- _ => apply index_range_Ok in H
  | H : index_from _ _ = Ok _ |- _ => apply index_from_Ok in H as [-> ?]
  | H : (let '(_, _) := ?p in _) = Ok _ |- _ => destruct p
  | H : cur_take _ _ _ = Ok _ |- _ => apply cur_take_Ok in H as [-> ?]
  | H : cur_byte _ _ = Ok _ |- _ => apply cur_byte_Ok in H as [? ->]
  | H : cur_le16 _ _ = Ok _ |- _ => apply cur_le16_Ok in H as [? ->]
  end.

(** The value-type octet: a type below 128 and the raw-bit-stream flag. *)
Lemma type_octet v :
  v < 256 -> v = N.land v 0x7f + (if negb (N.land v 0x80 =? 0) then 128 else 0).
Proof.
  intros Hv. apply N.eqb_eq.
  pose proof (forall_byte (fun c => byte_N c =?
    N.land (byte_N c) 0x7f + (if negb (N.land (byte_N c) 0x80 =? 0) then 128 else 0))
    ltac:(vm_compute; reflexivity) (byte_of v)) as H.
  cbv beta in H. by rewrite byte_N_of, N.mod_small in H.
Qed.
Lemma type_octet_fields t (raw : bool) :
  t <= 4 -> let v := t + (if raw then 128 else 0) in
  v < 256 /\ N.land v 0x7f = t /\ negb (N.land v 0x80 =? 0) = raw.
Proof.
  intros Ht. assert (t = 0 \/ t = 1 \/ t = 2 \/ t = 3 \/ t = 4) as Hc by lia.
  destruct raw; repeat destruct Hc as [->|Hc]; try subst t; by repeat split.
Qed.

Lemma parse_value_Ok block vt v :
  parse_value block = Ok (vt, v) <->
  vt < 256 /\ 1 <= blen v < 65536 /\ block = byte_of vt :: N_to_le 2 (blen v) ++ v.
Proof.
  unfold parse_value. split.
  - intros Hr. inv_res. bools.
    match goal with H : blen _ = 0 |- _ => apply blen_0 in H; subst end. rewrite app_nil_r.
    repeat split; auto; lia.
  - intros (Hvt & Hv & ->). rewrite (proj2 (cur_byte_Ok _ _ vt _)) by done. ok_step.
    rewrite (proj2 (cur_le16_Ok _ _ (blen v) v)) by (split; [lia|done]). ok_step.
    rewrite (proj2 (cur_take_Ok _ _ _ v [])) by (by rewrite app_nil_r).
    ok_step. pass ltac:(bools; split; [done|lia]). done.
Qed.

(** ** Blocks *)
(** The flags of the indices seen so far. *)
Definition marked (l : list N) : list bool :=
  foldl (fun s i => <[N.to_nat i := true]> s) (replicate 256 false) l.
Lemma marked_snoc l i : marked (l ++ [i]) = <[N.to_nat i := true]> (marked l).
Proof. unfold marked. by rewrite foldl_snoc. Qed.
Lemma length_marked l : length (marked l) = 256%nat.
Proof.
  induction l as [|i l IH] using rev_ind; [done|]. by rewrite marked_snoc, length_insert.
Qed.
Lemma get_marked l i : i < 256 -> get (marked l) i = Some (bool_decide (i ∈ l)).
Proof.
  intros Hi. apply get_Some. unfold blen. rewrite length_marked. split; [lia|].
  induction l as [|j l IH] using rev_ind.
  - cbn [marked foldl]. rewrite lookup_replicate_2 by lia. by rewrite bool_decide_eq_false_2 by set_solver.
  - rewrite marked_snoc. destruct (decide (i = j)) as [->|Hne].
    + rewrite list_lookup_insert_eq by (rewrite length_marked; lia).
      by rewrite bool_decide_eq_true_2 by set_solver.
    + rewrite list_lookup_insert_ne, IH by lia. f_equal. apply bool_decide_ext. set_solver.
Qed.

Lemma parse_block_inv record l ms st :
  parse_block (record, marked l, ms) tt = Ok st ->
  exists m rest, measurement_wf m /\ index_ m ∉ l /\ record = encode_measurement m ++ rest /\
    st = (rest, marked (l ++ [index_ m]), ms ++ [m]).
Proof.
  unfold parse_block. intros H. apply bind_Ok in H as ([i r1] & Hi & H).
  apply cur_byte_Ok in Hi as [Hi ->]. apply bind_Ok in H as ([] & Hs & H).
  destruct ((i =? 0) || (i =? 255)) eqn:Hr; [done|]. unfold index in Hs.
  rewrite get_marked in Hs by done. cbn in Hs. apply reject_if_Ok in Hs. bools.
  cbv zeta in H. inv_res. bools. subst.
  match goal with H : parse_value _ = _ |- _ => apply parse_value_Ok in H as (Hvt & Hv & ->) end.
  match goal with H : blen (byte_of ?vt0 :: N_to_le 2 _ ++ ?w) < _ |- _ =>
    rename vt0 into vt, w into v, H into Hsz end.
  assert (blen (byte_of vt :: N_to_le 2 (blen v) ++ v) = 3 + blen v) as Hlen
    by (rewrite blen_cons, blen_app, blen_N_to_le; lia).
  rewrite Hlen in *.
  eexists {| index_ := i; value_type := N.land vt 0x7f;
             raw_bit_stream := negb (N.land vt 0x80 =? 0); value := v |}, _.
  split; [|split; [done|split; [|by rewrite marked_snoc]]].
  - unfold measurement_wf; cbn [index_ value_type raw_bit_stream value].
    split; [lia|]. split; [lia|]. split; [lia|]. rewrite negb_false_iff, N.eqb_eq. tauto.
  - unfold encode_measurement, type_byte; cbn [index_ value_type raw_bit_stream value].
    rewrite <- (type_octet vt) by done. change (byte_of 1) with x01.
    cbn [app]. by rewrite <- !(assoc_L (++)).
Qed.

Lemma parse_block_run m rest l ms :
  measurement_wf m -> index_ m ∉ l ->
  parse_block (encode_measurement m ++ rest, marked l, ms) tt =
  Ok (rest, marked (l ++ [index_ m]), ms ++ [m]).
Proof.
  intros (Hi & Ht & Hv & Hraw) Hl. unfold encode_measurement. cbn [app]. unfold parse_block.
  rewrite (proj2 (cur_byte_Ok _ _ (index_ m) _)) by (split; [lia|done]). ok_step.
  rewrite (proj2 (orb_false_iff _ _)) by (bools; lia). unfold index.
  rewrite get_marked by lia. rewrite bool_decide_eq_false_2 by done. cbn [unwrap].
  ok_step. cbn [reject_if]. ok_step. cbv zeta.
  rewrite (proj2 (cur_byte_Ok _ _ 1 _)) by done. ok_step. pass ltac:(done).
  rewrite <- (assoc_L (++)), (proj2 (cur_le16_Ok _ _ (3 + blen (value m)) _)) by (split; [lia|done]).
  ok_step. rewrite <- app_comm_cons, <- (assoc_L (++)), app_comm_cons, (assoc_L (++)).
  rewrite (proj2 (cur_take_Ok _ _ _ (type_byte m :: N_to_le 2 (blen (value m)) ++ value m) rest))
    by (split; [done|rewrite blen_cons, blen_app, blen_N_to_le; cbn; lia]).
  ok_step.
  pose proof (type_octet_fields (value_type m) (raw_bit_stream m) Ht) as (Hvt & H7f & H80).
  rewrite (proj2 (parse_value_Ok _ (value_type m + if raw_bit_stream m then 128 else 0) (value m)))
    by (split_and!; try done; lia).
  ok_step. rewrite H7f, H80.
  assert ((4 <? value_type m) || negb (raw_bit_stream m) && negb (blen (value m) =? 48) = false) as Hg.
  { apply orb_false_iff. split; [apply N.ltb_ge; lia|].
    destruct (raw_bit_stream m); [done|]. by rewrite Hraw. }
  pass ltac:(exact Hg). rewrite marked_snoc. by destruct m.
Qed.

Lemma parse_blocks_inv n l0 ms0 record st :
  for_each parse_block (record, marked l0, ms0) (replicate n tt) = Ok st ->
  exists ms rest, length ms = n /\ Forall measurement_wf ms /\ (forall i, i ∈ l0 -> i ∉ index_ <$> ms) /\
    NoDup (index_ <$> ms) /\ record = encode_record ms ++ rest /\
    st = (rest, marked (l0 ++ (index_ <$> ms)), ms0 ++ ms).
Proof.
  revert l0 ms0 record. induction n as [|n IH]; intros l0 ms0 record H.
  - injection H as <-. exists [], record. rewrite !app_nil_r. cbn. split_and!; auto; try constructor. set_solver.
  - cbn [replicate for_each] in H. apply bind_Ok in H as (st1 & H1 & H).
    apply parse_block_inv in H1 as (m & rest1 & Hwf & Hm & -> & ->).
    apply IH in H as (ms & rest & <- & Hall & Hdisj & Hnd & -> & ->).
    exists (m :: ms), rest. cbn. rewrite <- !(assoc_L (++)). split_and!; auto.
    + intros i Hi. specialize (Hdisj i ltac:(set_solver)). set_solver.
    + apply NoDup_cons. split; [|done]. apply Hdisj. set_solver.
Qed.

Lemma parse_blocks_run ms rest l0 ms0 :
  Forall measurement_wf ms -> (forall i, i ∈ l0 -> i ∉ index_ <$> ms) -> NoDup (index_ <$> ms) ->
  for_each parse_block (encode_record ms ++ rest, marked l0, ms0) (replicate (length ms) tt) =
  Ok (rest, marked (l0 ++ (index_ <$> ms)), ms0 ++ ms).
Proof.
  revert l0 ms0. induction ms as [|m ms IH]; intros l0 ms0 Hall Hdisj Hnd.
  - cbn. by rewrite !app_nil_r.
  - cbn [length replicate for_each]. apply Forall_cons in Hall as [Hm Hall].
    cbn [fmap list_fmap] in Hnd, Hdisj. apply NoDup_cons in Hnd as [Hni Hnd].
    change (encode_record (m :: ms)) with (encode_measurement m ++ encode_record ms).
    rewrite <- (assoc_L (++)), parse_block_run by (auto; set_solver). rewrite res_bind_Ok, IH; auto.
    + cbn [fmap list_fmap]. by rewrite <- !(assoc_L (++)).
    + set_solver.
Qed.

(** ** The frame *)
Lemma list_split_37 (v : bytes) :
  blen v = 37 -> exists h n s, v = h ++ n ++ [s] /\ blen h = 4 /\ blen n = 32.
Proof.
  intros Hv. exists (take 4 v), (take 32 (drop 4 v)).
  destruct (drop 36 v) as [|s [|]] eqn:Hd;
    try (apply (f_equal length) in Hd; rewrite length_drop in Hd; unfold blen in Hv; simpl in Hd; lia).
  exists s. split.
  - rewrite <- Hd. change 36%nat with (4 + 32)%nat. by rewrite <- drop_drop, !take_drop.
  - unfold blen in *. rewrite !length_take, length_drop. lia.
Qed.

(** The ranges of the request that the parser reads. *)
Lemma request_parts (n : bytes) s :
  blen n = 32 -> let q := [x11; xe0; x01; xff] ++ n ++ [s] in
  get_range q 0 4 = Some [x11; xe0; x01; xff] /\ get q 36 = Some s /\ get_range q 4 36 = Some n.
Proof.
  intros Hn q. split_and!.
  - exact (get_range_app [] [x11; xe0; x01; xff] (n ++ [s])).
  - apply get_Some. unfold q. rewrite !blen_app, Hn. split; [done|].
    rewrite lookup_app_r by (simpl; lia). apply list_lookup_middle. unfold blen in Hn. simpl. lia.
  - pose proof (get_range_app [x11; xe0; x01; xff] n [s]) as H. by rewrite Hn in H.
Qed.

Lemma parse_request_Ok b q c :
  parse_request b = Ok (q, c) <->
  exists slot n, byte_N slot <= 7 /\ blen n = 32 /\ q = [x11; xe0; x01; xff] ++ n ++ [slot] /\
    b = encode_request slot n ++ c.
Proof.
  unfold parse_request, encode_request, REQUEST_SIZE. split.
  - intros ([q' c1] & (-> & Hq)%cur_take_Ok & H)%bind_Ok. cbv beta iota in H.
    apply bind_Ok in H as (h & Hh%index_range_Ok & (slot & Hs & H)%bind_Ok).
    destruct (bytes_eqb h [x11; xe0; x01; xff]) eqn:He; [|done]. apply bytes_eqb_eq in He as ->.
    cbn [negb] in Hs. inv_res. bools.
    destruct (list_split_37 q ltac:(done)) as (h & n & s & -> & Hh' & Hn).
    assert (h = [x11; xe0; x01; xff]) as ->.
    { apply get_range_Some in Hh as [_ Hh]. change (N.to_nat 0) with 0%nat in Hh.
      replace (N.to_nat (4 - 0)) with (length h) in Hh by (unfold blen in Hh'; lia).
      by rewrite drop_0, take_app_length in Hh. }
    destruct (request_parts n s Hn) as (_ & Hs & _). simplify_eq.
    exists slot, n. rewrite <- !(assoc_L (++)). split_and!; auto.
  - intros (slot & n & Hslot & Hn & -> & ->). rewrite <- (assoc_L (++)).
    destruct (request_parts n slot Hn) as (H1 & H2 & H3).
    rewrite (proj2 (cur_take_Ok _ _ _ ([x11; xe0; x01; xff] ++ n ++ [slot]) _))
      by (split; [done|rewrite !blen_app, Hn; done]).
    ok_step. unfold index_range at 1. rewrite H1. cbn [unwrap]. ok_step.
    rewrite (proj2 (bytes_eqb_eq _ _) eq_refl). cbn [negb].
    rewrite (index_Some _ _ _ H2). ok_step. rewrite (reject_if_false (7 <? byte_N slot)) by (bools; lia).
    do 2 ok_step. rewrite (proj2 (cur_take_Ok _ _ _ [x11; x60; x00; slot] c)) by done. ok_step.
    by pass ltac:(by rewrite (proj2 (bytes_eqb_eq _ _) eq_refl)).
Qed.

Lemma record_length_bytes l0 l1 l2 : le_to_N [l0; l1; l2; x00] = le_to_N [l0; l1; l2].
Proof. cbn. lia. Qed.

Lemma parse_record_Ok c ms rest :
  parse_record c = Ok (ms, rest) <->
  ms <> [] /\ Forall measurement_wf ms /\ NoDup (index_ <$> ms) /\ blen ms < 256 /\
  blen (encode_record ms) < 2 ^ 24 /\ c = encode_blocks ms ++ rest.
Proof.
  unfold parse_record, encode_blocks. change (replicate 256 false) with (marked []). split.
  - intros H. inv_res.
    match goal with H : for_each _ _ _ = _ |- _ =>
      apply parse_blocks_inv in H as (ms' & r' & Hn & Hall & _ & Hnd & -> & ?) end.
    match goal with H : blen _ = 3 |- _ => apply list_blen_3 in H as (a & b & d & ->) end.
    repeat match goal with H : get _ _ = Some _ |- _ => cbn in H; injection H as <- end.
    simplify_eq. bools. match goal with H : blen _ = 0 |- _ => apply blen_0 in H; subst end.
    rewrite ?app_nil_r in *. cbn [app].
    match goal with H : _ = le_to_N _ |- _ => rewrite record_length_bytes in H; rename H into Hlen end.
    assert (blen ms' = n) as Hms by (unfold blen; lia).
    split_and!; try done.
    + intros ->. by rewrite blen_nil in Hms.
    + by rewrite Hms.
    + rewrite Hlen. apply (le_to_N_bound [a; b; d]).
    + rewrite Hms, Hlen, <- (le_to_N_eq [a; b; d] 3) by done. by rewrite <- (assoc_L (++)).
  - intros (Hne & Hall & Hnd & Hms & Hlen & ->). cbn [app]. rewrite <- (assoc_L (++)).
    rewrite (proj2 (cur_byte_Ok _ _ (blen ms) _)) by done. ok_step.
    pass ltac:(apply N.eqb_neq; by rewrite blen_0).
    rewrite (proj2 (cur_take_Ok _ _ _ (N_to_le 3 (blen (encode_record ms))) _))
      by (by rewrite blen_N_to_le). ok_step.
    pose proof (blen_N_to_le 3 (blen (encode_record ms))) as (a & b & d & Habd)%list_blen_3.
    rewrite Habd, (index_Some _ 0 a), (index_Some _ 1 b), (index_Some _ 2 d) by done.
    do 3 ok_step. rewrite record_length_bytes, <- Habd, le_to_N_to_le by done.
    rewrite (proj2 (cur_take_Ok _ _ _ (encode_record ms) rest)) by done. ok_step.
    replace (N.to_nat (blen ms)) with (length ms) by (unfold blen; lia).
    pose proof (parse_blocks_run ms [] [] [] Hall) as Hrun.
    rewrite app_nil_r in Hrun. rewrite Hrun by (auto; set_solver). ok_step.
    by pass ltac:(done).
Qed.

(** ** Panic freedom *)
Lemma safe_cur_take c n f (Q : bytes * bytes -> Prop) :
  (forall v rest, c = v ++ rest -> blen v = n -> Q (v, rest)) -> safe (cur_take c n f) Q.
Proof.
  intros HQ. unfold cur_take. wp. match goal with H : get_range _ _ _ = _ |- _ => rename H into Hg end.
  pose proof (get_range_blen _ _ _ _ Hg). pose proof Hg as [? _]%get_range_Some.
  apply get_range_next in Hg. apply safe_index_from; [lia|]. apply HQ; [done|lia].
Qed.
Lemma safe_cur_byte c f (Q : N * bytes -> Prop) :
  (forall v rest, v < 256 -> c = byte_of v :: rest -> Q (v, rest)) -> safe (cur_byte c f) Q.
Proof.
  intros HQ. apply (safe_mono _ (fun _ => True)).
  - unfold cur_byte. wp. apply safe_cur_take. intros v rest -> Hv. wp. apply safe_index; [lia|done].
  - intros [v rest] [? ?]%cur_byte_Ok _. auto.
Qed.
Lemma safe_cur_le16 c f (Q : N * bytes -> Prop) :
  (forall v rest, v < 65536 -> c = N_to_le 2 v ++ rest -> Q (v, rest)) -> safe (cur_le16 c f) Q.
Proof.
  intros HQ. apply (safe_mono _ (fun _ => True)).
  - unfold cur_le16. wp. apply safe_cur_take. intros v rest -> Hv.
    wp. apply safe_index; [lia|]. intros x0 Hx0. wp. apply safe_index; [lia|done].
  - intros [v rest] [? ?]%cur_le16_Ok _. auto.
Qed.

Lemma safe_parse_block record seen ms :
  length seen = 256%nat ->
  safe (parse_block (record, seen, ms) tt) (fun '(_, seen', _) => length seen' = 256%nat).
Proof.
  intros Hs. unfold parse_block. wp. apply safe_cur_byte. intros i r1 Hi _. wp.
  case_match; [done|]. wp. apply safe_index; [unfold blen; lia|]. intros s _. wp.
  apply safe_cur_byte. intros sp r2 _ _. wp. apply safe_cur_le16. intros sz r3 _ _. wp.
  apply safe_cur_take. intros v r4 _ _. wp. unfold parse_value. wp.
  apply safe_cur_byte. intros vt r5 _ _. wp. apply safe_cur_le16. intros vs r6 _ _. wp.
  apply safe_cur_take. intros w r7 _ _. wp. by rewrite length_insert.
Qed.

Lemma safe_parse_request b :
  safe (parse_request b) (fun '(q, c) => blen q = 37 /\ exists p, b = p ++ c).
Proof.
  unfold parse_request, REQUEST_SIZE. wp. apply safe_cur_take. intros q c -> Hq. wp.
  apply safe_index_range; [lia|lia|]. intros h _ _. wp. case_match; [done|]. wp.
  apply safe_index; [lia|]. intros s _. wp. apply safe_cur_take. intros h' c' -> _. wp.
  split; [done|]. exists (q ++ h'). by rewrite <- (assoc_L (++)).
Qed.

Lemma safe_parse_record c : safe (parse_record c) (fun '(_, c') => exists p, c = p ++ c').
Proof.
  unfold parse_record. wp. apply safe_cur_byte. intros n c1 _ ->. wp.
  apply safe_cur_take. intros l c2 -> Hl. apply list_blen_3 in Hl as (a & b & d & ->).
  wp. apply safe_index; [done|]. intros ? _. wp. apply safe_index; [done|]. intros ? _. wp.
  apply safe_index; [done|]. intros ? _. wp. apply safe_cur_take. intros r c3 -> _. wp.
  eapply (safe_mono _ (fun '(_, seen, _) => length seen = 256%nat)).
  - apply safe_for_each; [done|]. intros [[? ?] ?] [] _ Hs. by apply safe_parse_block.
  - intros [[? ?] ?] _ _. wp. exists (byte_of n :: [a; b; d] ++ r).
    rewrite <- !app_comm_cons. by rewrite <- (assoc_L (++)).
Qed.

Lemma safe_parse_report b : safe (parse_report b) (fun _ => True).
Proof.
  unfold parse_report. wp. eapply safe_mono; [apply safe_parse_request|].
  intros [q c] _ [Hq [p ->]]. wp. eapply safe_mono; [apply safe_parse_record|].
  intros [ms c1] _ [p1 ->]. wp. apply safe_cur_take. intros rn c2 -> _. wp.
  apply safe_cur_le16. intros ol c3 _ ->. wp. apply safe_cur_take. intros od c4 -> _. wp.
  apply safe_unwrap. eexists. split; [apply checked_sub_Some; split; [reflexivity|]|].
  { rewrite !blen_app. lia. }
  wp. apply safe_cur_take. intros sg c5 -> _. wp.
  apply safe_index_range; [lia|rewrite !blen_app; lia|]. intros t _ _. wp.
  apply safe_index_range; [lia|lia|]. done.
Qed.

(** ** Exactness *)
Lemma distinct_indices (ms : list Measurement) :
  Forall measurement_wf ms -> NoDup (index_ <$> ms) -> blen ms < 256.
Proof.
  intros Hall Hnd. assert (incl (index_ <$> ms) (N.of_nat <$> seq 0 255)) as Hincl.
  { intros i (m & -> & Hm)%list_elem_of_In%list_elem_of_fmap.
    rewrite Forall_forall in Hall. destruct (Hall m Hm) as (Hi & _). apply list_elem_of_In.
    rewrite <- (N2Nat.id (index_ m)). apply list_elem_of_fmap_2, elem_of_seq. lia. }
  apply NoDup_ListNoDup in Hnd. pose proof (NoDup_incl_length Hnd Hincl) as Hlen.
  rewrite !length_fmap, length_seq in Hlen. unfold blen. lia.
Qed.

Lemma all_but_suffix (p s t : bytes) :
  get_range (p ++ s) 0 (blen (p ++ s) - blen s) = Some t -> t = p.
Proof.
  rewrite blen_app. replace (blen p + blen s - blen s) with (blen p) by lia.
  assert (get_range (p ++ s) 0 (blen p) = Some p) as -> by exact (get_range_app [] p s). congruence.
Qed.

Lemma parse_report_inv b r :
  parse_report b = Ok r ->
  blen b <= MAX_REPORT_SIZE /\ report_wf r /\ b = signed_transcript r ++ signature r /\
  exists slot, byte_N slot <= 7 /\ signed_transcript r = encode_transcript slot r.
Proof.
  unfold parse_report. intros H. inv_res. bools.
  match goal with H : parse_request _ = _ |- _ =>
    apply parse_request_Ok in H as (slot & n & Hslot & Hn & -> & ->) end.
  match goal with H : parse_record _ = _ |- _ =>
    apply parse_record_Ok in H as (Hne & Hall & Hnd & Hms & Hrec & ->) end.
  match goal with H : blen _ = 0 |- _ => apply blen_0 in H; subst end. rewrite ?app_nil_r in *.
  destruct (request_parts n slot Hn) as (_ & _ & Hq). simplify_eq.
  match goal with H : checked_sub _ _ = Some _ |- _ => apply checked_sub_Some in H as [-> _] end.
  match goal with H : get_range _ 0 _ = Some ?t |- context [report_wf ?r0] =>
    rename H into Ht;
    match type of Ht with get_range ?b _ _ = _ =>
      assert (b = encode_transcript slot r0 ++ signature r0) as Hb end end.
  { unfold encode_transcript. cbn [signature request_nonce measurements responder_nonce opaque_data].
    by rewrite <- !(assoc_L (++)). }
  rewrite Hb in *. cbn [signature] in *. apply all_but_suffix in Ht.
  split; [done|]. split; [by repeat split|]. cbn [signed_transcript]. rewrite <- Ht. eauto.
Qed.

Lemma parse_report_run b slot (r : SpdmReport) :
  blen b <= MAX_REPORT_SIZE -> byte_N slot <= 7 -> report_wf r ->
  b = signed_transcript r ++ signature r ->
  signed_transcript r = encode_transcript slot r -> parse_report b = Ok r.
Proof.
  intros Hmax Hslot (Hn & Hrn & Hsg & Hod & Hne & Hall & Hnd) Hb Ht. unfold parse_report.
  pass ltac:(bools; lia).
  rewrite (proj2 (parse_request_Ok _ ([x11; xe0; x01; xff] ++ request_nonce r ++ [slot])
    (encode_blocks (measurements r) ++ responder_nonce r ++ N_to_le 2 (blen (opaque_data r)) ++
     opaque_data r ++ signature r)))
    by (exists slot, (request_nonce r); split_and!; auto; rewrite Hb, Ht; unfold encode_transcript;
        by rewrite <- !(assoc_L (++))). ok_step.
  assert (blen (encode_record (measurements r)) <= blen b) as Hrec.
  { rewrite Hb, Ht. unfold encode_transcript, encode_blocks. rewrite !blen_app, !blen_cons, !blen_app. lia. }
  unfold MAX_REPORT_SIZE in Hmax.
  rewrite (proj2 (parse_record_Ok _ (measurements r) _))
    by (split_and!; auto using distinct_indices; lia). ok_step.
  rewrite (proj2 (cur_take_Ok _ _ _ (responder_nonce r) _)) by done. ok_step.
  rewrite (proj2 (cur_le16_Ok _ _ (blen (opaque_data r)) _)) by done. ok_step.
  rewrite (proj2 (cur_take_Ok _ _ _ (opaque_data r) _)) by done. ok_step.
  rewrite (proj2 (checked_sub_Some _ _ (blen (signed_transcript r)))) by (rewrite Hb, blen_app; lia).
  cbn [unwrap]. ok_step.
  rewrite (proj2 (cur_take_Ok _ _ _ (signature r) [])) by (by rewrite app_nil_r). ok_step.
  pass ltac:(done). rewrite Hb, index_range_app_0 by done. ok_step.
  destruct (request_parts (request_nonce r) slot Hn) as (_ & _ & Hq).
  unfold index_range. rewrite Hq. cbn [unwrap]. ok_step. by destruct r.
Qed.

(** * Theorems *)

(** The SPDM parser is exactly the report profile, and it never panics.  For
    every byte string and every report, the parser returns that report if and only
    if the input is at most 8192 bytes, is the report's signed transcript followed
    by its 96-byte signature, and the transcript is the printed layout of the
    report's own fields: fixed request header, one slot of 0 to 7 in request and
    response, 32-byte nonces, a non-empty record filled by blocks with pairwise
    different indices of 1 to 254, DMTF types of 0 to 4 and 48-byte digests. *)
Theorem spdm_parse_exact b :
  safe (parse_report b) (fun _ => True) /\
  forall r, parse_report b = Ok r <->
    blen b <= MAX_REPORT_SIZE /\ report_wf r /\ b = signed_transcript r ++ signature r /\
    exists slot, byte_N slot <= 7 /\ signed_transcript r = encode_transcript slot r.
Proof.
  split; [apply safe_parse_report|]. intros r. split; [apply parse_report_inv|].
  intros (Hmax & Hwf & Hb & slot & Hslot & Ht). by eapply parse_report_run.
Qed.

Lemma report_split b r :
  parse_report b = Ok r ->
  signed_transcript r = take (length b - 96) b /\ signature r = drop (length b - 96) b.
Proof.
  intros (_ & (_ & _ & Hsg & _) & -> & _)%parse_report_inv.
  rewrite length_app. replace (_ + _ - 96)%nat with (length (signed_transcript r))
    by (unfold SIGNATURE_SIZE, blen in Hsg; lia).
  by rewrite take_app_length, drop_app_length.
Qed.

(** Reports with one transcript differ at most in the signature. *)
Lemma transcript_determines b r b' r' :
  parse_report b = Ok r -> parse_report b' = Ok r' ->
  signed_transcript r' = signed_transcript r ->
  request_nonce r' = request_nonce r /\ responder_nonce r' = responder_nonce r /\
  measurements r' = measurements r /\ opaque_data r' = opaque_data r.
Proof.
  intros (_ & Hwf & _ & slot & Hslot & Ht)%parse_report_inv Hp' Heq.
  pose proof Hp' as (Hmax & (_ & _ & Hsg & _) & Hb' & _)%parse_report_inv.
  destruct Hwf as (Hn & Hrn & _ & Hwf).
  set (r1 := {| signed_transcript := signed_transcript r; signature := signature r';
    request_nonce := request_nonce r; responder_nonce := responder_nonce r;
    measurements := measurements r; opaque_data := opaque_data r |}).
  rewrite Heq in Hb'.
  assert (parse_report b' = Ok r1) as Hp1.
  { apply (parse_report_run _ slot); [done|done| |done|done]. by repeat split; cbn; try apply Hwf. }
  assert (r' = r1) as Hr by congruence. by rewrite Hr.
Qed.

(** The signature check covers every claim of the report.  A parsed report
    passes [verify_signature] exactly when its request nonce is the verifier's and
    the key accepts the last 96 bytes of the input as a signature of all the bytes
    before them; and any other input with the same signed bytes parses, if at all,
    to the same nonces, measurements and opaque data, so no claim can change
    without changing the signed message. *)
Theorem spdm_signature_covers_claims `{P384} b r nonce key :
  parse_report b = Ok r ->
  (verify_signature r nonce key = Ok tt <->
   request_nonce r = nonce /\
   exists sig, signature_from_slice (drop (length b - 96) b) = Some sig /\
     p384_verify key (take (length b - 96) b) sig = true) /\
  (forall b' r', parse_report b' = Ok r' ->
   take (length b' - 96) b' = take (length b - 96) b ->
   request_nonce r' = request_nonce r /\ responder_nonce r' = responder_nonce r /\
   measurements r' = measurements r /\ opaque_data r' = opaque_data r).
Proof.
  intros Hp. destruct (report_split b r Hp) as [Ht Hs]. split.
  - rewrite <- Ht, <- Hs. unfold verify_signature, check_nonce. split.
    + intros Hv. inv_res. bools. eauto.
    + intros (Hn & sig & Hsig & Hver). pass ltac:(apply negb_false_iff, bytes_eqb_eq; done).
      rewrite Hsig. cbn [ok_or]. ok_step. by rewrite Hver.
  - intros b' r' Hp' Heq. apply (transcript_determines b _ b'); [done|done|].
    destruct (report_split b' r' Hp') as [-> _]. by rewrite Heq, Ht.
Qed.

(** ** Witness: a report of one digest and one raw measurement *)
Definition toy_p384 : P384 := {|
  P384Key := N;
  P384Signature := bytes;
  signature_from_slice s := if blen s =? 96 then Some s else None;
  p384_verify k m s := bytes_eqb s (toy_digest 96 k m);
|}.
Definition sample_report : SpdmReport :=
  let r := {|
    signed_transcript := []; signature := [];
    request_nonce := replicate 32 x07; responder_nonce := replicate 32 x08;
    measurements := [
      {| index_ := 1; value_type := 0; raw_bit_stream := false; value := replicate 48 xaa |};
      {| index_ := 9; value_type := 3; raw_bit_stream := true; value := [x01; x02] |}];
    opaque_data := lit "NVDA" |} in
  let t := encode_transcript x02 r in
  {| signed_transcript := t; signature := toy_digest 96 5 t;
     request_nonce := request_nonce r; responder_nonce := responder_nonce r;
     measurements := measurements r; opaque_data := opaque_data r |}.
Definition sample_bytes : bytes := signed_transcript sample_report ++ signature sample_report.

Lemma spdm_signature_covers_claims_witness :
  parse_report sample_bytes = Ok sample_report /\
  verify_signature (H:=toy_p384) sample_report (replicate 32 x07) 5 = Ok tt.
Proof.
  assert (parse_report sample_bytes = Ok sample_report) as Hp by (vm_compute; reflexivity).
  split; [exact Hp|].
  apply (proj1 (spdm_signature_covers_claims (H:=toy_p384) sample_bytes sample_report
    (replicate 32 x07) 5 Hp)).
  split; [reflexivity|]. exists (drop (length sample_bytes - 96) sample_bytes).
  split; vm_compute; reflexivity.
Defined.
