(* ===== verification/Opaque.v ===== *)
(** * Opaque: NVIDIA opaque-data fields of [src/v2/src/gpu/opaque.rs]

    The type-length-value list that an SPDM report carries as opaque data, in its
    legacy form (4-byte headers) and in its typed NVDAOD form (a 12-byte file
    header, 6-byte field headers), and the typed accessors on the parsed fields.

    [fields] is a [BTreeMap] in the source and a [gmap] here.  The TLV loop
    carries fuel; one unit per input byte is enough, since a field takes at least
    four bytes ([parse_tlvs_run], [safe_parse_tlvs]). *)
From S2P Require Import Prelude Bytes Text.

Inductive ConfidentialMode : Type := Mpt | Spt | Ppcie.

(** [anyhow] messages, with the field number where the source prints one. *)
Inductive OpaqueError : Type :=
| Msg (text : string)
| FieldMsg (text : string) (id : N).

Record Field : Type := { field_type : N; field_value : bytes }.
Record OpaqueData : Type := {
  fields : gmap N Field;
  has_header : bool;
  major_version : N;
}.

(** [u16::from_le_bytes([bytes[i], bytes[i + 1]])] *)
Definition u16_le_at (b : bytes) (i : N) : res OpaqueError N :=
  x ← index b i; y ← index b (i + 1); Ok (le_to_N [x; y]).

Definition le_integer (b : bytes) : res OpaqueError N :=
  ensure (negb (blen b =? 0) && (blen b <=? 8)) (Msg "invalid opaque integer length");;
  Ok (le_to_N (b ++ replicate (8 - length b) x00)).

(** ** Parsing *)
(** One turn of the loop: the field at [pos] and the position behind it. *)
Definition parse_tlv (b : bytes) (header : bool) (pos : N) (fs : gmap N Field) :
    res OpaqueError (N * gmap N Field) :=
  let size_ := if header then 6 else 4 in
  room ← unwrap (checked_sub (blen b) pos);
  ensure (size_ <=? room) (Msg "truncated opaque TLV");;
  id ← u16_le_at b pos;
  vt ← (if header then u16_le_at b (pos + 2) else Ok 0);
  let len_pos := pos + size_ - 2 in
  len ← u16_le_at b len_pos;
  let pos := pos + size_ in
  room ← unwrap (checked_sub (blen b) pos);
  ensure (negb (id =? 255) && (len <=? room)) (FieldMsg "invalid opaque field" id);;
  ensure (N.of_nat (size fs) <? 256) (Msg "too many opaque fields");;
  v ← index_range b pos (pos + len);
  ensure (bool_decide (fs !! id = None)) (FieldMsg "duplicate opaque field" id);;
  Ok (pos + len, <[id := {| field_type := vt; field_value := v |}]> fs).

Fixpoint parse_tlvs (fuel : nat) (b : bytes) (header : bool) (pos : N) (fs : gmap N Field) :
    res OpaqueError (gmap N Field) :=
  if pos <? blen b then
    match fuel with
    | O => NoFuel
    | S fuel => '(pos, fs) ← parse_tlv b header pos fs; parse_tlvs fuel b header pos fs
    end
  else Ok fs.

Definition check_header (b : bytes) : res OpaqueError unit :=
  ensure (12 <=? blen b) (Msg "truncated NVDAOD header");;
  profile ← index_range b 6 8;
  ensure (bytes_eqb profile [x00; x00]) (Msg "unsupported NVDAOD profile");;
  pad ← index b 11;
  ensure (byte_N pad =? 0) (Msg "nonzero NVDAOD padding").

(** The version of a legacy list: field 34, or 0 when it is absent. *)
Definition legacy_version (fs : gmap N Field) : res OpaqueError N :=
  match fs !! 34 with
  | Some f =>
    ensure (blen (field_value f) =? 2) (Msg "invalid legacy opaque version width");;
    le_integer (field_value f)
  | None => Ok 0
  end.

Definition parse_opaque (b : bytes) : res OpaqueError OpaqueData :=
  ensure (negb (blen b =? 0) && (blen b <=? 8192)) (Msg "invalid opaque data length");;
  let header := starts_with (lit "NVDAOD") b in
  (if header then check_header b else Ok tt);;
  fs ← parse_tlvs (length b) b header (if header then 12 else 0) ∅;
  major ← (if header then m ← index b 8; Ok (byte_N m) else legacy_version fs);
  ensure (major <=? 2) (Msg "unsupported opaque data major version");;
  Ok {| fields := fs; has_header := header; major_version := major |}.

(** ** Accessors *)
Definition field (d : OpaqueData) (id : N) : res OpaqueError Field :=
  ok_or (fields d !! id) (FieldMsg "missing signed opaque field" id).

(** The value type that the pinned profile documents for a field. *)
Definition expected_type (id : N) : option N :=
  if (id =? 3) || (id =? 6) || (id =? 34) then Some 0x86
  else if (id =? 4) || (id =? 11) || ((14 <=? id) && (id <=? 19)) then Some 0x82
  else if id =? 12 then Some 0x84
  else if id =? 13 then Some 0x83
  else if id =? 20 then Some 0x01
  else if (id =? 21) || (id =? 36) then Some 0x85
  else if id =? 37 then Some 0x87
  else None.

Definition field_bytes (d : OpaqueData) (id : N) : res OpaqueError bytes :=
  f ← field d id;
  (if has_header d then
     ensure (major_version d =? 2) (Msg "unsupported typed NVIDIA opaque profile");;
     expected ← ok_or (expected_type id) (FieldMsg "unsupported typed NVIDIA opaque field" id);
     ensure (field_type f =? expected) (FieldMsg "unsupported signed opaque field value type" id)
   else Ok tt);;
  Ok (field_value f).

Definition integer (d : OpaqueData) (id : N) : res OpaqueError N :=
  b ← field_bytes d id; le_integer b.

Definition svn (d : OpaqueData) (id : N) : res OpaqueError N :=
  f ← field d id;
  ensure (has_header d && (major_version d =? 2) && (field_type f =? 0x87)
          && (blen (field_value f) =? 2)) (Msg "unsupported signed SVN field type/width");;
  (if blen (field_value f) =? 2 then Ok tt else Err (Msg "TryFromSliceError"));;
  Ok (le_to_N (field_value f)).

Definition is_ascii_graphic (c : byte) : bool := (33 <=? byte_N c) && (byte_N c <=? 126).

Definition field_text (d : OpaqueData) (id : N) : res OpaqueError bytes :=
  b ← field_bytes d id;
  ensure (negb (blen b =? 0) && (blen b <=? (if id =? 3 then 16 else 128)))
    (FieldMsg "invalid text field" id);;
  let end_ := default (blen b) (position (Byte.eqb x00) b) in
  tail ← index_from b end_;
  ensure (forallb (Byte.eqb x00) tail) (FieldMsg "embedded NUL in text field" id);;
  (if 0 <? end_ then
     head ← index_range b 0 end_;
     ensure (forallb is_ascii_graphic head) (FieldMsg "invalid ASCII text field" id)
   else Err (FieldMsg "invalid ASCII text field" id));;
  head ← index_range b 0 end_;
  ok_or (from_utf8 head) (Msg "Utf8Error").

(** [format!("{:02X}", x)] *)
Definition hex_upper (x : byte) : bytes := to_ascii_uppercase (hex_encode [x]).

Definition vbios_version (d : OpaqueData) : res OpaqueError bytes :=
  b ← field_bytes d 6;
  (if blen b =? 8 then
     tail ← index_from b 5;
     ensure (bytes_eqb tail [x00; x00; x00]) (Msg "unsupported VBIOS encoding")
   else Err (Msg "unsupported VBIOS encoding"));;
  b3 ← index b 3; b2 ← index b 2; b1 ← index b 1; b0 ← index b 0; b4 ← index b 4;
  Ok (hex_upper b3 ++ lit "." ++ hex_upper b2 ++ lit "." ++ hex_upper b1 ++ lit "." ++
      hex_upper b0 ++ lit "." ++ hex_upper b4).

Definition switch_vbios_version (d : OpaqueData) : res OpaqueError bytes :=
  ensure (negb (has_header d)) (Msg "unsupported typed NVSwitch opaque profile");;
  t ← field_text d 6;
  let parts := split_byte "."%byte t in
  ensure ((blen parts =? 5) && forallb (fun p => (blen p =? 2) && all_hex p) parts)
    (Msg "invalid signed switch VBIOS version");;
  Ok (to_ascii_uppercase t).

Definition mode (d : OpaqueData) : res OpaqueError ConfidentialMode :=
  ensure (1 <=? major_version d) (Msg "signed confidential mode absent in legacy opaque profile");;
  f ← field d 36;
  (if has_header d then
     ensure ((field_type f =? 0x85) && (blen (field_value f) =? 2))
       (Msg "unsupported typed NVIDIA confidential-mode field")
   else
     ensure ((field_type f =? 0) && ((1 <=? blen (field_value f)) && (blen (field_value f) <=? 8)))
       (Msg "invalid legacy NVIDIA confidential-mode field"));;
  n ← integer d 36;
  if n =? 0 then Ok Mpt else if n =? 1 then Ok Spt else if n =? 2 then Ok Ppcie
  else Err (Msg "unknown signed confidential mode").

Definition pdis (d : OpaqueData) (id : N) : res OpaqueError (list bytes) :=
  b ← field_bytes d id;
  ensure (negb (blen b =? 0) && (blen b mod 8 =? 0) && (blen b <=? 256)) (Msg "invalid PDI list");;
  for_each (fun acc c => c ← expect_len 8 c; Ok (acc ++ [c])) [] (chunks_exact 8 b).

(** ** Specification: the wire format as a printer *)
Definition encode_tlv (header : bool) (t : N * Field) : bytes :=
  N_to_le 2 t.1 ++ (if header then N_to_le 2 (field_type t.2) else []) ++
  N_to_le 2 (blen (field_value t.2)) ++ field_value t.2.
Definition encode_tlvs (header : bool) (ts : list (N * Field)) : bytes := ts ≫= encode_tlv header.

Definition tlv_wf (header : bool) (t : N * Field) : Prop :=
  t.1 < 65536 /\ t.1 <> 255 /\ blen (field_value t.2) < 65536 /\
  if header then field_type t.2 < 65536 else field_type t.2 = 0.

(** What stands before the fields: nothing, or the NVDAOD header of some version. *)
Definition file_header (b : bytes) (header : bool) (body : bytes) (major : N) : Prop :=
  if header then
    exists v minor patch, b = lit "NVDAOD" ++ [x00; x00; v; minor; patch; x00] ++ body /\
      major = byte_N v
  else b = body /\ starts_with (lit "NVDAOD") b = false.

Definition opaque_grammar (b : bytes) (d : OpaqueData) : Prop :=
  exists ts, let header := has_header d in
  1 <= blen b <= 8192 /\ file_header b header (encode_tlvs header ts) (major_version d) /\
  Forall (tlv_wf header) ts /\ NoDup ts.*1 /\ (length ts <= 256)%nat /\
  fields d = list_to_map ts /\ major_version d <= 2 /\
  (header = false ->
   match fields d !! 34 with
   | Some f => blen (field_value f) = 2 /\ major_version d = le_to_N (field_value f)
   | None => major_version d = 0
   end).

(** * Lemmas *)

(** ** Fields of the input *)
Lemma u16_le_at_inv b i v :
  u16_le_at b i = Ok v ->
  i + 2 <= blen b /\ v < 65536 /\ drop (N.to_nat i) b = N_to_le 2 v ++ drop (N.to_nat (i + 2)) b.
Proof.
  unfold u16_le_at. intros (x & [Hi Hx]%index_Ok%get_Some & (y & [Hi' Hy]%index_Ok%get_Some & Hv)%bind_Ok)%bind_Ok.
  assert (v = le_to_N [x; y]) as -> by congruence. split; [lia|]. split; [apply (le_to_N_bound [_; _])|].
  rewrite <- (le_to_N_eq [_; _] 2 _ eq_refl eq_refl). replace (N.to_nat (i + 2)) with (S (S (N.to_nat i))) by lia.
  rewrite (drop_S b x (N.to_nat i)), (drop_S b y (S (N.to_nat i))); [done| |done].
  by replace (S (N.to_nat i)) with (N.to_nat (i + 1)) by lia.
Qed.

Lemma u16_le_at_run (p q : bytes) v i :
  i = blen p -> v < 65536 -> u16_le_at (p ++ N_to_le 2 v ++ q) i = Ok v.
Proof.
  intros -> Hv. pose proof (le_to_N_to_le 2 v Hv) as Hback.
  pose proof (length_N_to_le 2 v) as Hlen.
  destruct (N_to_le 2 v) as [|x [|y [|]]]; try discriminate Hlen. unfold u16_le_at.
  rewrite (index_Some _ (blen p) x), (index_Some _ (blen p + 1) y).
  - do 2 ok_step. by rewrite Hback.
  - apply get_Some. rewrite blen_app. cbn [app]. rewrite !blen_cons. split; [lia|].
    rewrite lookup_app_r by (unfold blen; lia).
    by replace (N.to_nat (blen p + 1) - length p)%nat with 1%nat by (unfold blen; lia).
  - apply get_Some. rewrite blen_app. cbn [app]. rewrite !blen_cons. split; [lia|].
    by apply list_lookup_middle; unfold blen; lia.
Qed.

Lemma safe_u16_le_at b i (Q : N -> Prop) :
  i + 2 <= blen b -> (forall v, Q v) -> safe (u16_le_at b i) Q.
Proof.
  intros Hi HQ. unfold u16_le_at. wp. apply safe_index; [lia|]. intros x _. wp.
  apply safe_index; [lia|]. intros y _. wp. apply HQ.
Qed.

Definition tlv_size (header : bool) : N := if header then 6 else 4.
Lemma blen_encode_tlv header id f :
  blen (encode_tlv header (id, f)) = tlv_size header + blen (field_value f).
Proof.
  unfold encode_tlv, tlv_size. rewrite !blen_app, !blen_N_to_le. destruct header;
    rewrite ?blen_N_to_le, ?blen_nil; cbn [snd fst]; lia.
Qed.

Lemma parse_tlv_inv b header pos fs pos' fs' :
  parse_tlv b header pos fs = Ok (pos', fs') ->
  exists id f, tlv_wf header (id, f) /\ fs !! id = None /\ (size fs < 256)%nat /\
    drop (N.to_nat pos) b = encode_tlv header (id, f) ++ drop (N.to_nat pos') b /\
    pos < pos' <= blen b /\ fs' = <[id := f]> fs.
Proof.
  unfold parse_tlv, encode_tlv, tlv_wf. intros H. inv_res.
  repeat match goal with H : checked_sub _ _ = Some _ |- _ => apply checked_sub_Some in H as [-> ?] end.
  repeat match goal with H : u16_le_at b _ = Ok _ |- _ => apply u16_le_at_inv in H as (? & ? & ?) end.
  match goal with H : get_range _ _ _ = Some _ |- _ =>
    pose proof (get_range_blen _ _ _ _ H); apply get_range_next in H end.
  bools. destruct header; inv_res; bools;
    repeat match goal with H : u16_le_at b _ = Ok _ |- _ => apply u16_le_at_inv in H as (? & ? & ?) end;
    match goal with |- context [<[?id := ?f]> fs = _] => exists id, f end;
    cbn [fst snd field_type field_value];
    match goal with H : blen ?v = _ + ?len - _ |- _ =>
      assert (blen v = len) as Hlen by lia; rewrite Hlen end;
    split_and!; try done; try lia.
  - replace (pos + 6 - 2) with (pos + 2 + 2) in * by lia.
    replace (pos + 6) with (pos + 2 + 2 + 2) in * by lia. rewrite <- !(assoc_L (++)). congruence.
  - replace (pos + 4 - 2) with (pos + 2) in * by lia.
    replace (pos + 4) with (pos + 2 + 2) in * by lia. cbn [app]. rewrite <- !(assoc_L (++)). congruence.
Qed.

Lemma parse_tlv_run (p q : bytes) header id f fs :
  tlv_wf header (id, f) -> fs !! id = None -> (size fs < 256)%nat ->
  parse_tlv (p ++ encode_tlv header (id, f) ++ q) header (blen p) fs =
  Ok (blen p + blen (encode_tlv header (id, f)), <[id := f]> fs).
Proof.
  intros (Hid & Hne & Hlen & Hvt) Hnew Hsz. cbn [fst snd] in *.
  set (b := p ++ encode_tlv header (id, f) ++ q).
  assert (blen b = blen p + tlv_size header + blen (field_value f) + blen q) as Hb
    by (unfold b; rewrite !blen_app, blen_encode_tlv; lia).
  unfold parse_tlv. fold (tlv_size header). cbv zeta.
  rewrite (proj2 (checked_sub_Some (blen b) (blen p) _)) by (split; [reflexivity|lia]). cbn [unwrap]. ok_step.
  pass ltac:(bools; lia).
  assert (u16_le_at b (blen p) = Ok id) as ->.
  { unfold b, encode_tlv. rewrite <- !(assoc_L (++)). by apply u16_le_at_run. }
  ok_step.
  assert ((if header then u16_le_at b (blen p + 2) else Ok 0) = Ok (field_type f)) as ->.
  { destruct header; [|by rewrite Hvt]. unfold b, encode_tlv. cbn [fst snd].
    rewrite <- !(assoc_L (++)), (assoc_L (++) p). apply u16_le_at_run; [|done].
    by rewrite blen_app, blen_N_to_le. }
  ok_step.
  assert (u16_le_at b (blen p + tlv_size header - 2) = Ok (blen (field_value f))) as ->.
  { unfold b, encode_tlv. cbn [fst snd].
    rewrite (assoc_L (++) (N_to_le 2 id)), <- !(assoc_L (++)), (assoc_L (++) (N_to_le 2 id)), (assoc_L (++) p).
    apply u16_le_at_run; [|done]. rewrite !blen_app, blen_N_to_le.
    destruct header; rewrite ?blen_N_to_le, ?blen_nil; cbn [tlv_size]; lia. }
  ok_step. rewrite (proj2 (checked_sub_Some (blen b) (blen p + tlv_size header) _))
    by (split; [reflexivity|lia]). cbn [unwrap]. ok_step.
  pass ltac:(bools; lia). pass ltac:(bools; lia).
  assert (index_range (E:=OpaqueError) b (blen p + tlv_size header)
    (blen p + tlv_size header + blen (field_value f)) = Ok (field_value f)) as ->.
  { unfold b, encode_tlv. cbn [fst snd]. rewrite !(assoc_L (++)), <- (assoc_L (++) _ (field_value f)).
    apply index_range_app; rewrite !blen_app, !blen_N_to_le;
      destruct header; rewrite ?blen_N_to_le, ?blen_nil; cbn [tlv_size]; lia. }
  ok_step. pass ltac:(by apply bool_decide_eq_true). rewrite blen_encode_tlv.
  destruct f. by rewrite N.add_assoc.
Qed.

Lemma safe_parse_tlv b header pos fs :
  pos <= blen b -> safe (parse_tlv b header pos fs) (fun '(pos', _) => pos < pos' <= blen b).
Proof.
  intros Hpos. unfold parse_tlv. fold (tlv_size header). cbv zeta.
  assert (4 <= tlv_size header) as Hsz by (destruct header; done). wp.
  apply safe_unwrap. eexists. split; [apply checked_sub_Some; split; [reflexivity|done]|].
  wp. bools. apply safe_u16_le_at; [lia|]. intros id. wp.
  apply (safe_mono _ (fun _ => True)).
  { destruct header; [|done]. apply safe_u16_le_at; [cbn [tlv_size] in *; lia|done]. }
  intros vt _ _. wp. apply safe_u16_le_at; [lia|]. intros len. wp.
  apply safe_unwrap. eexists. split; [apply checked_sub_Some; split; [reflexivity|lia]|].
  wp. bools. apply safe_index_range; [lia|lia|]. intros v _ _. wp. lia.
Qed.

(** ** The loop *)
Lemma parse_tlvs_inv fuel b header pos fs fs' :
  parse_tlvs fuel b header pos fs = Ok fs' -> pos <= blen b -> (size fs <= 256)%nat ->
  exists ts, Forall (tlv_wf header) ts /\ NoDup ts.*1 /\ (forall i, i ∈ ts.*1 -> fs !! i = None) /\
    (length ts + size fs <= 256)%nat /\ drop (N.to_nat pos) b = encode_tlvs header ts /\
    fs' = list_to_map ts ∪ fs.
Proof.
  revert pos fs. induction fuel as [|fuel IH]; intros pos fs H Hpos Hsz; cbn [parse_tlvs] in H;
    destruct (N.ltb_spec pos (blen b)).
  - done.
  - injection H as <-. exists []. cbn. rewrite (left_id_L ∅ (∪)), drop_ge by (unfold blen in *; lia).
    split_and!; try done; try constructor; try lia. set_solver.
  - apply bind_Ok in H as ([pos' fs1] & (id & f & Hwf & Hnew & Hlt & Hdrop & Hp & ->)%parse_tlv_inv & H).
    apply IH in H as (ts & Hall & Hnd & Hdisj & Hn & Hd & ->);
      [|lia|rewrite map_size_insert_None by done; lia].
    rewrite map_size_insert_None in Hn by done.
    assert (id ∉ ts.*1) as Hid.
    { intros Hin%Hdisj. by rewrite lookup_insert_eq in Hin. }
    exists ((id, f) :: ts). cbn [fmap list_fmap fst length list_to_map]. split_and!.
    + by constructor.
    + by apply NoDup_cons.
    + intros i [->|Hi]%elem_of_cons; [done|]. specialize (Hdisj i Hi).
      by apply lookup_insert_None in Hdisj as [? _].
    + lia.
    + by rewrite Hdrop, Hd.
    + rewrite <- insert_union_r by (by apply not_elem_of_list_to_map_1). apply insert_union_l.
  - injection H as <-. exists []. cbn. rewrite (left_id_L ∅ (∪)), drop_ge by (unfold blen in *; lia).
    split_and!; try done; try constructor; try lia. set_solver.
Qed.

Lemma parse_tlvs_run header ts : forall fuel (p : bytes) fs,
  Forall (tlv_wf header) ts -> NoDup ts.*1 -> (forall i, i ∈ ts.*1 -> fs !! i = None) ->
  (length ts + size fs <= 256)%nat -> (length ts <= fuel)%nat ->
  parse_tlvs fuel (p ++ encode_tlvs header ts) header (blen p) fs = Ok (list_to_map ts ∪ fs).
Proof.
  induction ts as [|[id f] ts IH]; intros fuel p fs Hall Hnd Hdisj Hsz Hfuel.
  - cbn. rewrite app_nil_r, (left_id_L ∅ (∪)). destruct fuel; cbn; by rewrite N.ltb_irrefl.
  - destruct fuel as [|fuel]; [cbn in Hfuel; lia|]. cbn [parse_tlvs].
    change (encode_tlvs header ((id, f) :: ts)) with (encode_tlv header (id, f) ++ encode_tlvs header ts).
    cbn [fmap list_fmap fst length] in *. apply Forall_cons in Hall as [Hwf Hall].
    apply NoDup_cons in Hnd as [Hid Hnd].
    destruct (N.ltb_spec (blen p) (blen (p ++ encode_tlv header (id, f) ++ encode_tlvs header ts)))
      as [_|Hge]; [|rewrite !blen_app, blen_encode_tlv in Hge; destruct header; cbn [tlv_size] in Hge; lia].
    rewrite parse_tlv_run; [|done|apply Hdisj; set_solver|lia]. ok_step.
    rewrite <- blen_app, (assoc_L (++)), IH.
    + cbn [list_to_map]. rewrite <- insert_union_r by (by apply not_elem_of_list_to_map_1).
      by rewrite insert_union_l.
    + done.
    + done.
    + intros i Hi. apply lookup_insert_None. split; [apply Hdisj; set_solver|]. intros ->. done.
    + rewrite map_size_insert_None by (apply Hdisj; set_solver). lia.
    + lia.
Qed.

Lemma safe_parse_tlvs fuel b header pos fs :
  pos <= blen b -> blen b - pos <= N.of_nat fuel ->
  safe (parse_tlvs fuel b header pos fs) (fun _ => True).
Proof.
  revert pos fs. induction fuel as [|fuel IH]; intros pos fs Hpos Hfuel; cbn [parse_tlvs];
    destruct (N.ltb_spec pos (blen b)); try done; [lia|].
  apply safe_bind. eapply safe_mono; [by apply safe_parse_tlv|].
  intros [pos' fs'] _ Hp. apply IH; lia.
Qed.

(** ** The file header *)
Lemma header_inv b :
  starts_with (lit "NVDAOD") b = true -> check_header b = Ok tt ->
  exists v minor patch,
    b = lit "NVDAOD" ++ [x00; x00; v; minor; patch; x00] ++ drop 12 b /\ get b 8 = Some v.
Proof.
  unfold starts_with. intros Hp Hc. destruct (strip_prefix _ b) as [r|] eqn:Hr; [|done].
  apply strip_prefix_Some in Hr as ->. unfold check_header in Hc. inv_res. bools.
  match goal with H : 12 <= _ |- _ => rewrite blen_app in H; cbn in H end.
  do 6 (destruct r as [|? r]; [unfold blen in *; cbn [length] in *; lia|]).
  repeat match goal with H : get_range _ _ _ = _ |- _ => apply get_range_Some in H as [_ H];
    change (N.to_nat (8 - 6)) with 2%nat in H; change (N.to_nat 6) with 6%nat in H; cbn in H end.
  repeat match goal with H : get _ _ = _ |- _ => apply get_Some in H as [_ H];
    change (N.to_nat 11) with 11%nat in H; cbn in H end.
  simplify_eq. match goal with H : byte_N ?c = 0 |- _ => apply (byte_N_inj c x00) in H; subst c end.
  do 3 eexists. split; [cbn; rewrite drop_0; reflexivity|]. apply get_Some. split; [|done].
  unfold blen. cbn. lia.
Qed.

Lemma blen_header v minor patch body :
  blen (lit "NVDAOD" ++ [x00; x00; v; minor; patch; x00] ++ body) = 12 + blen body.
Proof. by rewrite (assoc_L (++)), blen_app. Qed.

Lemma header_run v minor patch body :
  let b := lit "NVDAOD" ++ [x00; x00; v; minor; patch; x00] ++ body in
  starts_with (lit "NVDAOD") b = true /\ check_header b = Ok tt /\ get b 8 = Some v.
Proof.
  intros b. assert (12 <= blen b) as Hb.
  { unfold b. rewrite blen_header. lia. }
  split; [done|]. split.
  - unfold check_header. pass ltac:(bools; lia).
    assert (get_range b 6 8 = Some [x00; x00]) as Hr by (apply get_range_Some; split; [lia|done]).
    unfold index_range. rewrite Hr. cbn [unwrap]. ok_step. pass ltac:(done).
    rewrite (index_Some _ 11 x00) by (apply get_Some; split; [lia|done]). by ok_step.
  - apply get_Some. split; [lia|done].
Qed.

Lemma le_integer_Ok b v :
  le_integer b = Ok v <-> 1 <= blen b <= 8 /\ v = le_to_N b.
Proof.
  assert (forall n, le_to_N (b ++ replicate n x00) = le_to_N b) as Hpad.
  { intros n. induction b as [|x b' IH]; [|by cbn; rewrite IH].
    induction n as [|n IH]; [done|]. cbn in *. by rewrite IH. }
  unfold le_integer. rewrite Hpad. split.
  - intros H. inv_res. bools. split; [lia|done].
  - intros [Hb ->]. pass ltac:(bools; lia). done.
Qed.

(** [ensure] as the last step. *)
Lemma ensure_iff {E} (c : bool) (e : E) : ensure c e = Ok tt <-> c = true.
Proof. by destruct c. Qed.

Lemma legacy_version_Ok fs v :
  legacy_version fs = Ok v <->
  match fs !! 34 with
  | Some f => blen (field_value f) = 2 /\ v = le_to_N (field_value f)
  | None => v = 0
  end.
Proof.
  unfold legacy_version. destruct (fs !! 34) as [f|]; [|naive_solver]. split.
  - intros H. inv_res. bools. by match goal with H : le_integer _ = _ |- _ => apply le_integer_Ok in H as [_ ->] end.
  - intros [Hf ->]. pass ltac:(by bools). apply le_integer_Ok. split; [lia|done].
Qed.

Lemma safe_le_integer b (Q : N -> Prop) : (forall v, Q v) -> safe (le_integer b) Q.
Proof. intros HQ. unfold le_integer. wp. apply HQ. Qed.

Lemma parse_opaque_inv b d : parse_opaque b = Ok d -> opaque_grammar b d.
Proof.
  unfold parse_opaque. intros (u & Hlen%ensure_Ok & H)%bind_Ok. bools. cbv zeta in H.
  apply bind_Ok in H as ([] & Hh & (fs & Hfs & (major & Hm & H)%bind_Ok)%bind_Ok).
  apply bind_Ok in H as (u' & Hle%ensure_Ok & [= <-]). apply N.leb_le in Hle. unfold opaque_grammar.
  cbn [fields has_header major_version].
  destruct (starts_with (lit "NVDAOD") b) eqn:Hs.
  - destruct (header_inv b Hs Hh) as (v & minor & patch & Hb & Hv). unfold index in Hm. rewrite Hv in Hm.
    cbn in Hm. injection Hm as <-.
    apply parse_tlvs_inv in Hfs as (ts & Hall & Hnd & _ & Hn & Hd & ->);
      [|rewrite Hb, blen_header; lia|rewrite map_size_empty; lia].
    rewrite map_size_empty in Hn. rewrite (right_id_L ∅ (∪)). exists ts.
    split_and!; auto; try lia; try done. exists v, minor, patch. change (N.to_nat 12) with 12%nat in Hd.
    by rewrite <- Hd.
  - apply parse_tlvs_inv in Hfs as (ts & Hall & Hnd & _ & Hn & Hd & ->); [|lia|rewrite map_size_empty; lia].
    rewrite map_size_empty in Hn. rewrite (right_id_L ∅ (∪)) in *. exists ts.
    split_and!; auto; try lia.
    + by split.
    + intros _. by apply legacy_version_Ok.
Qed.

Lemma length_encode_tlvs header ts : (length ts <= length (encode_tlvs header ts))%nat.
Proof.
  induction ts as [|[id f] ts IH]; [done|]. cbn [length].
  change (encode_tlvs header ((id, f) :: ts)) with (encode_tlv header (id, f) ++ encode_tlvs header ts).
  rewrite length_app. pose proof (blen_encode_tlv header id f) as Hb. unfold blen in Hb.
  destruct header; cbn [tlv_size] in Hb; lia.
Qed.

Lemma parse_opaque_run b d : opaque_grammar b d -> parse_opaque b = Ok d.
Proof.
  destruct d as [fs header major]. intros (ts & Hb & Hh & Hall & Hnd & Hn & Hfs & Hmaj & Hleg).
  cbn [fields has_header major_version] in *. unfold parse_opaque. pass ltac:(bools; lia). cbv zeta.
  assert (forall p, b = p ++ encode_tlvs header ts -> blen p = (if header then 12 else 0) ->
    parse_tlvs (length b) b header (if header then 12 else 0) ∅ = Ok fs) as Hrun.
  { intros p Hp <-. rewrite Hfs, <- (right_id_L ∅ (∪) (list_to_map ts)). rewrite Hp at 2.
    apply parse_tlvs_run; auto; [rewrite map_size_empty; lia|].
    rewrite Hp, length_app. pose proof (length_encode_tlvs header ts). lia. }
  destruct header; cbn [file_header] in Hh.
  - destruct Hh as (v & minor & patch & Heq & ->).
    destruct (header_run v minor patch (encode_tlvs true ts)) as (Hs & Hc & Hv).
    rewrite <- Heq in Hs, Hc, Hv. rewrite Hs, Hc. ok_step.
    rewrite (Hrun (lit "NVDAOD" ++ [x00; x00; v; minor; patch; x00])) by done. ok_step.
    rewrite (index_Some _ _ _ Hv). do 2 ok_step. by pass ltac:(by apply N.leb_le).
  - destruct Hh as [Heq Hs]. rewrite Hs. ok_step. rewrite (Hrun []) by done. ok_step.
    rewrite (proj2 (legacy_version_Ok fs major)) by (by apply Hleg). ok_step. by pass ltac:(by apply N.leb_le).
Qed.

Lemma safe_parse_opaque b : safe (parse_opaque b) (fun _ => True).
Proof.
  unfold parse_opaque. wp. bools. cbv zeta. wp. destruct (starts_with (lit "NVDAOD") b) eqn:Hs.
  - apply (safe_mono _ (fun _ => 12 <= blen b)).
    + unfold check_header. wp. bools. apply safe_index_range; [lia|lia|]. intros ? _ _. wp.
      apply safe_index; [lia|]. intros ? _. wp. lia.
    + intros [] _ H12. wp. eapply safe_mono; [apply safe_parse_tlvs; unfold blen in *; lia|].
      intros fs _ _. wp. apply safe_index; [lia|]. intros ? _. by wp.
  - wp. eapply safe_mono; [apply safe_parse_tlvs; unfold blen in *; lia|].
    intros fs _ _. wp. apply (safe_mono _ (fun _ => True)); [|by intros; wp].
    unfold legacy_version. case_match; [|done]. wp. by apply safe_le_integer.
Qed.

(** ** Accessors *)
Lemma field_Ok d id f : field d id = Ok f <-> fields d !! id = Some f.
Proof. unfold field. destruct (fields d !! id); cbn; split; congruence. Qed.

(** The bytes of field 36, of the type the accessor demands. *)
Lemma field_bytes_36 d f :
  fields d !! 36 = Some f -> (has_header d = true -> major_version d = 2 /\ field_type f = 0x85) ->
  field_bytes d 36 = Ok (field_value f).
Proof.
  intros Hf Ht. unfold field_bytes. rewrite (proj2 (field_Ok _ _ _) Hf). ok_step.
  destruct (has_header d); [|done]. destruct (Ht eq_refl) as [-> ->]. done.
Qed.

Definition mode_code (m : ConfidentialMode) : N :=
  match m with Mpt => 0 | Spt => 1 | Ppcie => 2 end.

Lemma mode_exact d m :
  mode d = Ok m <->
  1 <= major_version d /\ exists f, fields d !! 36 = Some f /\ le_to_N (field_value f) = mode_code m /\
    if has_header d then major_version d = 2 /\ field_type f = 0x85 /\ blen (field_value f) = 2
    else field_type f = 0 /\ 1 <= blen (field_value f) <= 8.
Proof.
  unfold mode, integer. split.
  - intros (u & Hm%ensure_Ok & (f & Hf%field_Ok & (u' & Ht & (n & Hn & H)%bind_Ok)%bind_Ok)%bind_Ok)%bind_Ok.
    apply N.leb_le in Hm. split; [done|]. exists f. split; [done|].
    apply bind_Ok in Hn as (b & Hb & [_ ->]%le_integer_Ok).
    unfold field_bytes in Hb. rewrite (proj2 (field_Ok _ _ _) Hf), res_bind_Ok in Hb.
    destruct (has_header d); inv_res; bools; (split; [by repeat case_match; inv_res; bools|]); auto.
  - intros (Hm & f & Hf & Hcode & Ht). pass ltac:(by apply N.leb_le).
    rewrite (proj2 (field_Ok _ _ _) Hf). ok_step.
    assert (1 <= blen (field_value f) <= 8) as Hlen by (destruct (has_header d); lia).
    assert (field_bytes d 36 = Ok (field_value f)) as Hb.
    { apply field_bytes_36; [done|]. intros Hh. rewrite Hh in Ht. tauto. }
    assert ((if has_header d
       then ensure ((field_type f =? 0x85) && (blen (field_value f) =? 2))
         (Msg "unsupported typed NVIDIA confidential-mode field")
       else ensure ((field_type f =? 0) && ((1 <=? blen (field_value f)) && (blen (field_value f) <=? 8)))
         (Msg "invalid legacy NVIDIA confidential-mode field")) = Ok tt) as ->.
    { destruct (has_header d); apply ensure_iff; bools; tauto. }
    ok_step. rewrite Hb. ok_step. rewrite (proj2 (le_integer_Ok _ _) (conj Hlen eq_refl)), Hcode. ok_step.
    by destruct m.
Qed.

Lemma svn_exact d id v :
  svn d id = Ok v <->
  has_header d = true /\ major_version d = 2 /\ v < 65536 /\
  fields d !! id = Some {| field_type := 0x87; field_value := N_to_le 2 v |}.
Proof.
  unfold svn. split.
  - intros ([vt w] & Hf%field_Ok & (u & Hc%ensure_Ok & H)%bind_Ok)%bind_Ok. cbn [field_type field_value] in *.
    bools. subst. match goal with H : blen w = 2 |- _ => rename H into Hw end.
    rewrite Hw in H. cbn in H. injection H as <-. split_and!; auto.
    + pose proof (le_to_N_bound w) as Hb. by rewrite Hw in Hb.
    + by rewrite <- (le_to_N_eq w 2).
  - intros (Hh & Hm & Hv & Hf). rewrite (proj2 (field_Ok _ _ _) Hf). ok_step. rewrite Hh, Hm.
    cbn [field_type field_value]. rewrite blen_N_to_le. pass ltac:(done). cbn [N.of_nat].
    rewrite le_to_N_to_le by done. done.
Qed.

Lemma position_zero (b : bytes) :
  let n := default (blen b) (position (Byte.eqb x00) b) in
  n <= blen b /\ x00 ∉ take (N.to_nat n) b /\ (position (Byte.eqb x00) b = None -> n = blen b).
Proof.
  cbv zeta. destruct (position (Byte.eqb x00) b) as [n|] eqn:Hp; simpl default; cbn [from_option id].
  - apply position_Some in Hp as (Hn & _ & Hall). split; [lia|]. split; [|done].
    intros Hin%list_elem_of_In. rewrite forallb_forall in Hall. by specialize (Hall _ Hin).
  - split; [lia|]. split; [|done]. apply position_None in Hp.
    intros Hin%elem_of_take%list_elem_of_In. rewrite forallb_forall in Hp. by specialize (Hp _ Hin).
Qed.

Definition text_limit (id : N) : N := if id =? 3 then 16 else 128.

Lemma graphic_nonzero t : forallb is_ascii_graphic t = true -> x00 ∉ t.
Proof. intros Hg Hin%list_elem_of_In. rewrite forallb_forall in Hg. by specialize (Hg _ Hin). Qed.

Lemma graphic_utf8 t : forallb is_ascii_graphic t = true -> from_utf8 t = Some t.
Proof.
  intros Hg. destruct (ascii_utf8 t) as [cs Hcs].
  - apply forallb_forall. intros c Hc. rewrite forallb_forall in Hg. specialize (Hg c Hc).
    unfold is_ascii_graphic in Hg. bools. lia.
  - unfold from_utf8. by rewrite Hcs.
Qed.

Lemma position_text t n :
  x00 ∉ t -> default (blen (t ++ replicate n x00)) (position (Byte.eqb x00) (t ++ replicate n x00)) = blen t.
Proof.
  intros Ht. induction t as [|c t IH].
  - by destruct n.
  - cbn [app position]. destruct (Byte.eqb x00 c) eqn:Hc; bools; [set_solver|].
    specialize (IH ltac:(set_solver)). rewrite !blen_cons.
    destruct (position (Byte.eqb x00) (t ++ replicate n x00)); cbn in *; lia.
Qed.

Lemma field_text_exact d id t :
  field_text d id = Ok t <->
  exists n, field_bytes d id = Ok (t ++ replicate n x00) /\ t <> [] /\
    forallb is_ascii_graphic t = true /\ blen t + N.of_nat n <= text_limit id.
Proof.
  unfold field_text. fold (text_limit id). split.
  - intros (b & Hb & (u & Hlen%ensure_Ok & H)%bind_Ok)%bind_Ok. cbv zeta in H.
    set (e := default (blen b) (position (Byte.eqb x00) b)) in *. 
    apply bind_Ok in H as (tail & [-> He]%index_from_Ok & (u' & Hz%ensure_Ok & H)%bind_Ok).
    apply bind_Ok in H as (u'' & Hg & H). destruct (N.ltb_spec 0 e) as [Hpos|]; [|done].
    apply bind_Ok in Hg as (head & Hr%index_range_Ok & Hg%ensure_Ok).
    unfold index_range in H. rewrite Hr in H. cbn [unwrap] in H. rewrite res_bind_Ok in H.
    rewrite graphic_utf8 in H by done. injection H as <-.
    apply (proj1 (all_zero_spec _)) in Hz. pose proof (get_range_blen _ _ _ _ Hr) as Hl.
    apply get_range_next in Hr. cbn [N.to_nat] in Hr. rewrite drop_0 in Hr.
    exists (length (drop (N.to_nat e) b)). rewrite <- Hz, <- Hr. split; [done|]. bools. split_and!.
    + intros ->. rewrite blen_nil in Hl. lia.
    + done.
    + rewrite length_drop. unfold blen in *. lia.
  - intros (n & Hb & Hne & Hg & Hlim). rewrite Hb. ok_step.
    pass ltac:(rewrite blen_app; unfold blen at 2 4; rewrite length_replicate;
      rewrite <- blen_0 in Hne; bools; lia).
    cbv zeta. rewrite position_text by (by apply graphic_nonzero).
    rewrite index_from_app by done. ok_step. pass ltac:(apply all_zero_spec; by rewrite length_replicate).
    rewrite <- blen_0 in Hne. destruct (N.ltb_spec 0 (blen t)); [|lia].
    rewrite index_range_app_0 by done. do 2 ok_step. rewrite Hg. cbn [ensure]. ok_step.
    by rewrite graphic_utf8.
Qed.

Lemma pdis_loop (cs acc : list bytes) :
  for_each (E:=OpaqueError) (fun acc c => c ← expect_len 8 c; Ok (acc ++ [c])) acc cs =
  if forallb (fun c => blen c =? 8) cs then Ok (acc ++ cs) else Panic.
Proof.
  revert acc. induction cs as [|c cs IH]; intros acc; [by rewrite app_nil_r|].
  cbn [for_each forallb]. destruct (N.eqb_spec (blen c) 8) as [Hc|Hc]; cbn [andb].
  2: { assert (expect_len (E:=OpaqueError) 8 c = Panic) as ->; [|done].
       unfold expect_len. by rewrite (proj2 (N.eqb_neq _ _) Hc). }
  rewrite (expect_len_eq 8 c Hc). do 2 ok_step. rewrite IH. by rewrite <- (assoc_L (++)).
Qed.

(** Chunks of a concatenation of chunks, and a length that divides evenly. *)
Lemma chunks_concat n (l : list bytes) :
  (0 < n)%nat -> Forall (fun c => length c = n) l -> chunks_exact n (concat l) = l.
Proof.
  intros Hn Hall. unfold chunks_exact.
  assert (forall fuel, (length l <= fuel)%nat -> chunks_exact_fuel fuel n (concat l) = l) as Hf.
  { induction Hall as [|c l Hc Hall IH]; intros fuel Hfuel; destruct fuel as [|fuel]; cbn [length concat] in *;
      try done; try lia; cbn [chunks_exact_fuel].
    - destruct (Nat.leb_spec n (length (@nil byte))); [cbn in *; lia|done].
    - rewrite length_app, Hc. destruct (Nat.leb_spec n (n + length (concat l))); [|lia].
      rewrite <- Hc, take_app_length, drop_app_length, Hc, IH by lia. done. }
  apply Hf. clear Hf. induction Hall as [|c l Hc Hall IH]; cbn; [done|]. rewrite length_app. lia.
Qed.
Lemma length_concat_chunks n (l : list bytes) :
  Forall (fun c => length c = n) l -> length (concat l) = (length l * n)%nat.
Proof. induction 1 as [|c l Hc _ IH]; cbn; [done|]. rewrite length_app. lia. Qed.
Lemma split_chunks n (k : nat) (b : bytes) :
  length b = (k * n)%nat -> exists l, b = concat l /\ length l = k /\ Forall (fun c => length c = n) l.
Proof.
  revert b. induction k as [|k IH]; intros b Hb.
  - exists []. by destruct b.
  - destruct (IH (drop n b)) as (l & Hl & <- & Hall); [rewrite length_drop; lia|].
    exists (take n b :: l). cbn. rewrite <- Hl, take_drop. split_and!; try done.
    constructor; [rewrite length_take; lia|done].
Qed.

Lemma pdis_exact d id l :
  pdis d id = Ok l <->
  field_bytes d id = Ok (concat l) /\ Forall (fun c => blen c = 8) l /\ (1 <= length l <= 32)%nat.
Proof.
  assert (forall c : bytes, blen c = 8 <-> length c = 8%nat) as H8 by (intros c; apply (length_blen c 8)).
  unfold pdis. split.
  - intros (b & Hb & (u & Hc%ensure_Ok & H)%bind_Ok)%bind_Ok. bools. rewrite pdis_loop in H.
    destruct (split_chunks 8 (length b / 8) b) as (cs & -> & Hk & Hall).
    { unfold blen in *. pose proof (N.div_mod' (N.of_nat (length b)) 8).
      pose proof (Nat.div_mod_eq (length b) 8). 
      pose proof (Nat.mod_upper_bound (length b) 8). lia. }
    rewrite chunks_concat in H by (done || lia). rewrite Hb.
    destruct (forallb _ cs); [|done]. injection H as <-. cbn [app]. split; [done|]. split.
    + eapply Forall_impl; [done|]. intros c. apply H8.
    + pose proof (length_concat_chunks 8 cs Hall). unfold blen in *. lia.
  - intros (Hb & Hall & Hl). rewrite Hb. ok_step.
    assert (Forall (fun c => length c = 8%nat) l) as Hall'.
    { eapply Forall_impl; [done|]. intros c. apply H8. }
    assert (blen (concat l) = 8 * N.of_nat (length l)) as Hlen
      by (unfold blen; rewrite (length_concat_chunks 8 l Hall'); lia).
    pass ltac:(rewrite Hlen, N.mul_comm, N.Div0.mod_mul; bools; split_and!; try done; lia).
    rewrite pdis_loop, chunks_concat by (done || lia).
    rewrite (proj2 (forallb_forall _ _)); [done|]. intros c Hc%list_elem_of_In.
    rewrite Forall_forall in Hall. apply N.eqb_eq. by apply Hall.
Qed.

(** ** Accessors do not panic *)
Lemma safe_field_bytes d id (Q : bytes -> Prop) : (forall b, Q b) -> safe (field_bytes d id) Q.
Proof.
  intros HQ. unfold field_bytes, field. wp. destruct (has_header d); wp; apply HQ.
Qed.
Lemma safe_field_text d id : safe (field_text d id) (fun _ => True).
Proof.
  unfold field_text. wp. apply safe_field_bytes. intros b. wp. cbv zeta.
  destruct (position_zero b) as (He & _). set (e := default (blen b) _) in *. wp.
  apply safe_index_from; [done|]. wp. destruct (0 <? e); [|done]. wp.
  apply safe_index_range; [lia|done|]. intros h _ _. wp.
  apply safe_index_range; [lia|done|]. intros h' _ _. by wp.
Qed.
Lemma safe_vbios_version d : safe (vbios_version d) (fun _ => True).
Proof.
  unfold vbios_version. wp. apply safe_field_bytes. intros b. wp.
  destruct (N.eqb_spec (blen b) 8) as [Hb|]; [|done]. wp. apply safe_index_from; [lia|]. wp.
  repeat (apply safe_index; [lia|]; intros ? _; wp). done.
Qed.
Lemma accessors_safe d id :
  safe (integer d id) (fun _ => True) /\ safe (svn d id) (fun _ => True) /\
  safe (field_text d id) (fun _ => True) /\ safe (vbios_version d) (fun _ => True) /\
  safe (switch_vbios_version d) (fun _ => True) /\ safe (mode d) (fun _ => True) /\
  safe (pdis d id) (fun _ => True).
Proof.
  split_and!.
  - unfold integer. wp. apply safe_field_bytes. intros b. by apply safe_le_integer.
  - unfold svn, field. wp. bools. match goal with H : blen _ = 2 |- _ => rewrite H end. by cbn.
  - apply safe_field_text.
  - apply safe_vbios_version.
  - unfold switch_vbios_version. wp. eapply safe_mono; [apply safe_field_text|]. intros t _ _. by wp.
  - unfold mode, field, integer. wp. apply (safe_mono _ (fun _ => True)).
    { destruct (has_header d); by wp. }
    intros [] _ _. wp. apply safe_field_bytes. intros b. apply safe_le_integer. intros v.
    by repeat case_match.
  - unfold pdis. wp. apply safe_field_bytes. intros b. wp. rewrite pdis_loop.
    rewrite (proj2 (forallb_forall _ _)); [done|]. intros c Hc%list_elem_of_In.
    pose proof (chunks_exact_length 8 b) as Hall. rewrite Forall_forall in Hall.
    apply N.eqb_eq, (length_blen c 8). by apply Hall.
Qed.

(** * Theorems *)

(** The opaque-data parser is exactly its wire format, and it never panics.
    It returns [d] if and only if the input is 1 to 8192 bytes, is a list of at
    most 256 fields with pairwise different numbers other than 255 (behind the
    12-byte NVDAOD header when the input starts with its magic, with type-less
    field headers otherwise), [d] maps exactly these numbers to these values, and
    the version, from the header or from the two-byte legacy field 34, is at
    most 2. *)
Theorem opaque_parse_exact b :
  safe (parse_opaque b) (fun _ => True) /\
  forall d, parse_opaque b = Ok d <-> opaque_grammar b d.
Proof.
  split; [apply safe_parse_opaque|]. split; [apply parse_opaque_inv|apply parse_opaque_run].
Qed.

(** The accessors read exactly what their documentation promises and never
    panic.  The confidential mode is the little-endian value of field 36, from
    version 1 on, of type 0x85 and two bytes in the typed profile of version 2 and
    untyped with one to eight bytes in the legacy one; a security version is a
    two-byte field of type 0x87 of the typed profile only; a text field is
    non-empty printable ASCII with NUL padding within the length limit; a PDI list
    is 1 to 32 eight-byte groups that fill the field. *)
Theorem opaque_accessors_exact d id :
  (forall m, mode d = Ok m <->
    1 <= major_version d /\ exists f, fields d !! 36 = Some f /\ le_to_N (field_value f) = mode_code m /\
      if has_header d then major_version d = 2 /\ field_type f = 0x85 /\ blen (field_value f) = 2
      else field_type f = 0 /\ 1 <= blen (field_value f) <= 8) /\
  (forall v, svn d id = Ok v <->
    has_header d = true /\ major_version d = 2 /\ v < 65536 /\
    fields d !! id = Some {| field_type := 0x87; field_value := N_to_le 2 v |}) /\
  (forall t, field_text d id = Ok t <->
    exists n, field_bytes d id = Ok (t ++ replicate n x00) /\ t <> [] /\
      forallb is_ascii_graphic t = true /\ blen t + N.of_nat n <= text_limit id) /\
  (forall l, pdis d id = Ok l <->
    field_bytes d id = Ok (concat l) /\ Forall (fun c => blen c = 8) l /\ (1 <= length l <= 32)%nat) /\
  safe (integer d id) (fun _ => True) /\ safe (svn d id) (fun _ => True) /\
  safe (field_text d id) (fun _ => True) /\ safe (vbios_version d) (fun _ => True) /\
  safe (switch_vbios_version d) (fun _ => True) /\ safe (mode d) (fun _ => True) /\
  safe (pdis d id) (fun _ => True).
Proof.
  split; [apply mode_exact|]. split; [apply svn_exact|]. split; [apply field_text_exact|].
  split; [apply pdis_exact|]. apply accessors_safe.
Qed.

(** A typed and a legacy list, and values read from them. *)
Definition typed_sample : bytes :=
  lit "NVDAOD" ++ [x00; x00; x02; x00; x00; x00] ++
  encode_tlvs true [(36, {| field_type := 0x85; field_value := [x01; x00] |});
                    (37, {| field_type := 0x87; field_value := [x05; x01] |});
                    (3, {| field_type := 0x86; field_value := lit "GH100" ++ [x00] |})].
Example typed_sample_mode : (d ← parse_opaque typed_sample; mode d) = Ok Spt.
Proof. vm_compute. reflexivity. Qed.
Example typed_sample_svn : (d ← parse_opaque typed_sample; svn d 37) = Ok 261.
Proof. vm_compute. reflexivity. Qed.
Example typed_sample_text : (d ← parse_opaque typed_sample; field_text d 3) = Ok (lit "GH100").
Proof. vm_compute. reflexivity. Qed.
