(* ===== verification/Relay.v ===== *)
(** * Relay: bootstrap-once credentials of [src/v2/src/relay.rs]

    A relay issuer signs a short-lived credential for a device that attested
    once; a relying party then accepts the credential with a fresh proof of
    possession.  The file models the challenge, the credential and their
    canonical encodings, the device binding, the two replay stores and the four
    operations [bootstrap], [present], [accept] and [RelayCredential::verify].

    An operation that takes [&mut] store returns the store next to its result;
    the calls that the source makes before the store is touched return it
    unchanged.  Signatures are the [Ed25519] interface, the binding hash is
    [sha256].  [step] is the relation of an issuer and a relying party that
    serve arbitrary requests at arbitrary times; the invariants of its
    executions are proved by induction on them. *)
From S2P Require Import Prelude Bytes Crypto.

Definition CRED_DOMAIN : bytes := lit "uq/relay/credential" ++ [x00].
Definition CHALLENGE_DOMAIN : bytes := lit "uq/relay/challenge" ++ [x00].
Definition BIND_DOMAIN : bytes := lit "uq/relay/device-binding" ++ [x00].
Definition POP_DOMAIN : bytes := lit "uq/relay/proof-of-possession" ++ [x00].
Definition SKEW_SECS : N := 60.

Inductive RelayError : Type :=
| InvalidPublicKey
| InvalidSignature
| DeviceBindingMismatch
| BootstrapReplay
| PresentationReplay
| ChallengeExpired
| TimeOverflow
| IssuerSignatureInvalid
| Expired
| NotYetValid
| ProofOfPossession
| TeeAttestation (why : bytes)
| DeviceAttestation (why : bytes).

(** ** Challenges *)
Record RelayChallenge : Type := { nonce : bytes; expires_at : N; context : bytes }.

(** [put_field]: the length as [u32] (the cast truncates), then the bytes. *)
Definition put_field (field : bytes) : bytes := N_to_be 4 (blen field) ++ field.

Definition challenge_new (nonce : bytes) (now ttl_secs : N) (context : bytes) :
    res RelayError RelayChallenge :=
  expires_at ← ok_or (checked_add u64_max now ttl_secs) TimeOverflow;
  Ok {| nonce := nonce; expires_at := expires_at; context := context |}.

Definition ensure_fresh (c : RelayChallenge) (now : N) : res RelayError unit :=
  reject_if (expires_at c <? now) ChallengeExpired.

Definition challenge_bytes (c : RelayChallenge) : bytes :=
  CHALLENGE_DOMAIN ++ nonce c ++ N_to_be 8 (expires_at c) ++ put_field (context c).

Definition pop_message (challenge : bytes) : bytes :=
  POP_DOMAIN ++ N_to_be 4 (blen challenge) ++ challenge.

(** ** Credentials *)
Record RelayCredential : Type := {
  device_pubkey : bytes;
  platform : bytes;
  value_x : bytes;
  tee_value_x : bytes;
  issued_at : N;
  expiry : N;
  sig : bytes;
}.

Definition credential_bytes (c : RelayCredential) : bytes :=
  CRED_DOMAIN ++ put_field (device_pubkey c) ++ put_field (platform c) ++
  put_field (value_x c) ++ put_field (tee_value_x c) ++
  N_to_be 8 (issued_at c) ++ N_to_be 8 (expiry c).

Record Presentation : Type := { pop_sig : bytes }.
Record AcceptedRelayClaims : Type := {
  claim_platform : bytes;
  claim_value_x : bytes;
  claim_tee_value_x : bytes;
  claim_device_pubkey : bytes;
}.
Record VerifiedRelayTee : Type := { relay_value_x : bytes }.
Record VerifiedDeviceAttestation : Type := {
  device_platform : bytes;
  device_value_x : bytes;
  observed_binding : bytes;
}.

(** ** Replay stores: nonces that were consumed, with their expiry *)
Record BootstrapReplayStore : Type := { boot_seen : gmap bytes N }.
Record PresentationReplayStore : Type := { pres_seen : gmap bytes N }.

Definition boot_check_and_store (s : BootstrapReplayStore) (c : RelayChallenge) (now : N) :
    res RelayError unit * BootstrapReplayStore :=
  match ensure_fresh c now with
  | Ok _ =>
    if bool_decide (is_Some (boot_seen s !! nonce c)) then (Err BootstrapReplay, s)
    else (Ok tt, {| boot_seen := <[nonce c := expires_at c]> (boot_seen s) |})
  | r => (r, s)
  end.
Definition pres_check_and_store (s : PresentationReplayStore) (c : RelayChallenge) (now : N) :
    res RelayError unit * PresentationReplayStore :=
  match ensure_fresh c now with
  | Ok _ =>
    if bool_decide (is_Some (pres_seen s !! nonce c)) then (Err PresentationReplay, s)
    else (Ok tt, {| pres_seen := <[nonce c := expires_at c]> (pres_seen s) |})
  | r => (r, s)
  end.

(** Continue with the store a call returned; an error keeps that store. *)
Definition then_store {S A B} (r : res RelayError A * S) (k : A -> S -> res RelayError B * S) :
    res RelayError B * S :=
  match r with
  | (Ok a, s) => k a s
  | (Err e, s) => (Err e, s)
  | (Panic, s) => (Panic, s)
  | (NoFuel, s) => (NoFuel, s)
  end.

Section Operations.
Context `{H : Sha2} `{ED : Ed25519}.

Definition binding_input (device_pubkey tee_value_x : bytes) (c : RelayChallenge) : bytes :=
  BIND_DOMAIN ++ device_pubkey ++ N_to_be 4 (blen tee_value_x) ++ tee_value_x ++ challenge_bytes c.
Definition device_binding (device_pubkey tee_value_x : bytes) (c : RelayChallenge) : bytes :=
  sha256 (binding_input device_pubkey tee_value_x c).

(** The 32-byte array conversion, then the key decoder. *)
Definition vk_from_slice (b : bytes) : res RelayError bytes :=
  ensure (blen b =? 32) InvalidPublicKey;; ensure (vk_valid b) InvalidPublicKey;; Ok b.
Definition sig_from_slice (b : bytes) : res RelayError bytes :=
  ensure (blen b =? 64) InvalidSignature;; Ok b.

Definition credential_verify (c : RelayCredential) (issuer : bytes) (now : N) :
    res RelayError bytes :=
  reject_if (expiry c <? now) Expired;;
  skewed ← plain_add u64_max now SKEW_SECS;
  reject_if (skewed <? issued_at c) NotYetValid;;
  s ← sig_from_slice (sig c);
  ensure (ed_verify issuer (credential_bytes c) s) IssuerSignatureInvalid;;
  vk_from_slice (device_pubkey c).

Definition verify_presentation (c : RelayCredential) (issuer challenge_message : bytes)
    (pop : Presentation) (now : N) : res RelayError unit :=
  device_vk ← credential_verify c issuer now;
  s ← sig_from_slice (pop_sig pop);
  ensure (ed_verify device_vk (pop_message challenge_message) s) ProofOfPossession.

Definition issue (issuer_sk : SigningKey) (device_pubkey platform value_x tee_value_x : bytes)
    (issued_at ttl_secs : N) : res RelayError RelayCredential :=
  expiry ← plain_add u64_max issued_at ttl_secs;
  let cred := {| device_pubkey := device_pubkey; platform := platform; value_x := value_x;
                 tee_value_x := tee_value_x; issued_at := issued_at; expiry := expiry;
                 sig := [] |} in
  Ok {| device_pubkey := device_pubkey; platform := platform; value_x := value_x;
        tee_value_x := tee_value_x; issued_at := issued_at; expiry := expiry;
        sig := ed_sign issuer_sk (credential_bytes cred) |}.

Definition bootstrap (s : BootstrapReplayStore) (issuer_sk : SigningKey) (device_pubkey : bytes)
    (device : VerifiedDeviceAttestation) (relay_tee : VerifiedRelayTee) (c : RelayChallenge)
    (issued_at ttl_secs : N) : res RelayError RelayCredential * BootstrapReplayStore :=
  then_store
    (ok_or (checked_add u64_max issued_at ttl_secs) TimeOverflow;;
     reject_if (negb (bytes_eqb (observed_binding device)
                        (device_binding device_pubkey (relay_value_x relay_tee) c)))
       DeviceBindingMismatch, s)
    (fun _ s =>
  then_store (boot_check_and_store s c issued_at)
    (fun _ s =>
  (issue issuer_sk device_pubkey (device_platform device) (device_value_x device)
     (relay_value_x relay_tee) issued_at ttl_secs, s))).

Definition bootstrap_once (s : BootstrapReplayStore) (issuer_sk : SigningKey)
    (device_pubkey : bytes) (device : VerifiedDeviceAttestation) (relay_tee : VerifiedRelayTee)
    (c : RelayChallenge) (issued_at ttl_secs : N) :
    res RelayError RelayCredential * BootstrapReplayStore :=
  bootstrap s issuer_sk device_pubkey device relay_tee c issued_at ttl_secs.

Definition present (device_sk : SigningKey) (c : RelayChallenge) : Presentation :=
  {| pop_sig := ed_sign device_sk (pop_message (challenge_bytes c)) |}.

Definition accept (s : PresentationReplayStore) (cred : RelayCredential) (p : Presentation)
    (issuer : bytes) (c : RelayChallenge) (now : N) :
    res RelayError AcceptedRelayClaims * PresentationReplayStore :=
  then_store
    (ensure_fresh c now;;
     verify_presentation cred issuer (challenge_bytes c) p now, s)
    (fun _ s =>
  then_store (pres_check_and_store s c now)
    (fun _ s =>
  (device_pubkey ← vk_from_slice (device_pubkey cred);
   Ok {| claim_platform := platform cred; claim_value_x := value_x cred;
         claim_tee_value_x := tee_value_x cred; claim_device_pubkey := device_pubkey |}, s))).

(** ** The system: one issuer and one relying party serving requests *)
Record RelaySystem : Type := {
  boot_store : BootstrapReplayStore;
  pres_store : PresentationReplayStore;
}.
Definition initial_system : RelaySystem :=
  {| boot_store := {| boot_seen := ∅ |}; pres_store := {| pres_seen := ∅ |} |}.

Inductive Event : Type :=
| Issued (device_pubkey : bytes) (device : VerifiedDeviceAttestation)
    (relay_tee : VerifiedRelayTee) (c : RelayChallenge) (at_ ttl : N) (cred : RelayCredential)
| Accepted (issuer : bytes) (cred : RelayCredential) (p : Presentation) (c : RelayChallenge)
    (at_ : N) (claims : AcceptedRelayClaims)
| Refused.

Inductive step : RelaySystem -> Event -> RelaySystem -> Prop :=
| step_issued s sk pk device tee c now ttl cred store :
    bootstrap (boot_store s) sk pk device tee c now ttl = (Ok cred, store) ->
    step s (Issued pk device tee c now ttl cred)
      {| boot_store := store; pres_store := pres_store s |}
| step_not_issued s sk pk device tee c now ttl r store :
    bootstrap (boot_store s) sk pk device tee c now ttl = (r, store) -> is_ok r = false ->
    step s Refused {| boot_store := store; pres_store := pres_store s |}
| step_accepted s cred p issuer c now claims store :
    accept (pres_store s) cred p issuer c now = (Ok claims, store) ->
    step s (Accepted issuer cred p c now claims)
      {| boot_store := boot_store s; pres_store := store |}
| step_not_accepted s cred p issuer c now r store :
    accept (pres_store s) cred p issuer c now = (r, store) -> is_ok r = false ->
    step s Refused {| boot_store := boot_store s; pres_store := store |}.

(** Executions from the initial system, with their events in order. *)
Inductive execution : list Event -> RelaySystem -> Prop :=
| execution_start : execution [] initial_system
| execution_step tr s e s' : execution tr s -> step s e s' -> execution (tr ++ [e]) s'.

Definition issued_nonce (e : Event) : option bytes :=
  if e is Issued _ _ _ c _ _ _ then Some (nonce c) else None.
Definition accepted_nonce (e : Event) : option bytes :=
  if e is Accepted _ _ _ c _ _ then Some (nonce c) else None.

(** What an acceptance establishes. *)
Record acceptance_ok (issuer : bytes) (cred : RelayCredential) (p : Presentation)
    (c : RelayChallenge) (now : N) (claims : AcceptedRelayClaims) : Prop := {
  ok_challenge_fresh : now <= expires_at c;
  ok_no_overflow : now + SKEW_SECS <= u64_max;
  ok_not_expired : now <= expiry cred;
  ok_issued : issued_at cred <= now + SKEW_SECS;
  ok_issuer_sig : ed_verify issuer (credential_bytes cred) (sig cred) = true;
  ok_pop : ed_verify (device_pubkey cred) (pop_message (challenge_bytes c)) (pop_sig p) = true;
  ok_widths : blen (sig cred) = 64 /\ blen (pop_sig p) = 64 /\
    blen (device_pubkey cred) = 32 /\ vk_valid (device_pubkey cred) = true;
  ok_claims : claims = {| claim_platform := platform cred; claim_value_x := value_x cred;
    claim_tee_value_x := tee_value_x cred; claim_device_pubkey := device_pubkey cred |};
}.

(** What an issued credential records. *)
Record issuance_ok (pk : bytes) (device : VerifiedDeviceAttestation) (tee : VerifiedRelayTee)
    (c : RelayChallenge) (now ttl : N) (cred : RelayCredential) : Prop := {
  ok_bound : observed_binding device = device_binding pk (relay_value_x tee) c;
  ok_fresh : now <= expires_at c;
  ok_window : issued_at cred = now /\ expiry cred = now + ttl /\ now + ttl <= u64_max;
  ok_recorded : device_pubkey cred = pk /\ platform cred = device_platform device /\
    value_x cred = device_value_x device /\ tee_value_x cred = relay_value_x tee;
}.
End Operations.

(** * Lemmas *)

(** ** Encodings are injective *)
Lemma put_field_inj (f f' b b' : bytes) :
  blen f < 2 ^ 32 -> blen f' < 2 ^ 32 -> put_field f ++ b = put_field f' ++ b' -> f = f' /\ b = b'.
Proof.
  unfold put_field. intros Hf Hf'. rewrite <- !(assoc_L (++)).
  intros [Hlen Heq]%N_to_be_app_inj; [|done|done]. apply app_inj_blen in Heq; [done|].
  unfold blen in Hlen. lia.
Qed.

Record challenge_wf (c : RelayChallenge) : Prop := {
  wf_nonce : blen (nonce c) = 32;
  wf_expires : expires_at c <= u64_max;
  wf_context : blen (context c) < 2 ^ 32;
}.
Lemma challenge_bytes_inj c c' :
  challenge_wf c -> challenge_wf c' -> challenge_bytes c = challenge_bytes c' -> c = c'.
Proof.
  intros [Hn He Hc] [Hn' He' Hc'] Heq. unfold challenge_bytes in Heq.
  apply app_inv_head in Heq. apply app_inj_blen in Heq as [Hnonce Heq]; [|unfold blen in *; lia].
  unfold u64_max in *. apply N_to_be_app_inj in Heq as [Hexp Heq]; [|lia|lia].
  apply (f_equal (fun l => l ++ [])) in Heq. apply put_field_inj in Heq as [Hctx _]; [|done|done].
  destruct c, c'; cbn in *; congruence.
Qed.

Record credential_wf (c : RelayCredential) : Prop := {
  wf_pubkey : blen (device_pubkey c) < 2 ^ 32;
  wf_platform : blen (platform c) < 2 ^ 32;
  wf_value_x : blen (value_x c) < 2 ^ 32;
  wf_tee_value_x : blen (tee_value_x c) < 2 ^ 32;
  wf_issued : issued_at c <= u64_max;
  wf_expiry : expiry c <= u64_max;
}.
(** The fields the issuer signs. *)
Definition signed_fields (c : RelayCredential) : bytes * bytes * bytes * bytes * N * N :=
  (device_pubkey c, platform c, value_x c, tee_value_x c, issued_at c, expiry c).
Lemma credential_bytes_inj c c' :
  credential_wf c -> credential_wf c' -> credential_bytes c = credential_bytes c' ->
  signed_fields c = signed_fields c'.
Proof.
  intros [? ? ? ? ? ?] [? ? ? ? ? ?] Heq. unfold credential_bytes in Heq. unfold u64_max in *.
  apply app_inv_head in Heq. do 4 (apply put_field_inj in Heq as [? Heq]; [|done|done]).
  apply N_to_be_app_inj in Heq as [? Heq]; [|lia|lia]. apply (N_to_be_inj 8) in Heq; [|lia|lia].
  unfold signed_fields. congruence.
Qed.

Section Proofs.
Context `{H : Sha2} `{ED : Ed25519}.

(** ** Single operations *)
Lemma vk_from_slice_Ok b v : vk_from_slice b = Ok v <-> v = b /\ blen b = 32 /\ vk_valid b = true.
Proof.
  unfold vk_from_slice. split.
  - intros Hv. inv_res. bools. done.
  - intros (-> & Hl & Hv). rewrite Hl, Hv. done.
Qed.
Lemma sig_from_slice_Ok b s : sig_from_slice b = Ok s <-> s = b /\ blen b = 64.
Proof.
  unfold sig_from_slice. split.
  - intros Hv. inv_res. bools. done.
  - intros (-> & Hl). by rewrite Hl.
Qed.

Lemma credential_verify_Ok cred issuer now vk :
  credential_verify cred issuer now = Ok vk <->
  now <= expiry cred /\ now + SKEW_SECS <= u64_max /\ issued_at cred <= now + SKEW_SECS /\
  blen (sig cred) = 64 /\ ed_verify issuer (credential_bytes cred) (sig cred) = true /\
  vk = device_pubkey cred /\ blen (device_pubkey cred) = 32 /\ vk_valid (device_pubkey cred) = true.
Proof.
  unfold credential_verify, plain_add. split.
  - intros Hv. inv_res.
    match goal with H : checked_add _ _ _ = Some _ |- _ => apply checked_add_Some in H as [-> ?] end.
    match goal with H : sig_from_slice _ = _ |- _ => apply sig_from_slice_Ok in H as [-> ?] end.
    match goal with H : vk_from_slice _ = _ |- _ => apply vk_from_slice_Ok in H as (-> & ? & ?) end.
    bools. split_and!; auto.
  - intros (He & Hmax & Hi & Hs & Hver & -> & Hl & Hvk). pass ltac:(by apply N.ltb_ge).
    rewrite (proj2 (checked_add_Some _ _ _ _) (conj eq_refl Hmax)). cbn [unwrap]. ok_step.
    pass ltac:(by apply N.ltb_ge). rewrite (proj2 (sig_from_slice_Ok _ _) (conj eq_refl Hs)). ok_step.
    pass ltac:(done). by apply vk_from_slice_Ok.
Qed.

(** The relying party's checks, before the store. *)
Lemma accept_checks cred p issuer c now claims :
  (exists u, (ensure_fresh c now;; verify_presentation cred issuer (challenge_bytes c) p now) = Ok u) /\
  (pk ← vk_from_slice (device_pubkey cred);
   Ok {| claim_platform := platform cred; claim_value_x := value_x cred;
         claim_tee_value_x := tee_value_x cred; claim_device_pubkey := pk |}) = Ok claims <->
  acceptance_ok issuer cred p c now claims.
Proof.
  unfold verify_presentation, ensure_fresh. split.
  - intros [[u Hu] Hc]. inv_res.
    match goal with H : credential_verify _ _ _ = _ |- _ =>
      apply credential_verify_Ok in H as (? & ? & ? & ? & ? & -> & ? & ?) end.
    match goal with H : sig_from_slice _ = _ |- _ => apply sig_from_slice_Ok in H as [-> ?] end.
    match goal with H : vk_from_slice _ = _ |- _ => apply vk_from_slice_Ok in H as (-> & _ & _) end.
    bools. by split.
  - intros [Hf Hmax He Hi Hs Hp (Hw1 & Hw2 & Hw3 & Hw4) ->]. split.
    + exists tt. pass ltac:(by apply N.ltb_ge).
      rewrite (proj2 (credential_verify_Ok _ _ _ (device_pubkey cred))) by (by split_and!). ok_step.
      rewrite (proj2 (sig_from_slice_Ok _ _) (conj eq_refl Hw2)). ok_step. by rewrite Hp.
    + rewrite (proj2 (vk_from_slice_Ok _ (device_pubkey cred))) by done. done.
Qed.

Lemma then_store_Ok {S A B} (r : res RelayError A * S) (k : A -> S -> res RelayError B * S) b s' :
  then_store r k = (Ok b, s') -> exists a s, r = (Ok a, s) /\ k a s = (Ok b, s').
Proof. destruct r as [[]]; cbn; try discriminate. eauto. Qed.

Lemma pres_check_Ok s c now u s' :
  pres_check_and_store s c now = (Ok u, s') <->
  now <= expires_at c /\ pres_seen s !! nonce c = None /\
  s' = {| pres_seen := <[nonce c := expires_at c]> (pres_seen s) |}.
Proof.
  unfold pres_check_and_store, ensure_fresh. destruct u. destruct (N.ltb_spec (expires_at c) now); cbn.
  - split; [done|]. lia.
  - case_bool_decide as Hseen; [|apply eq_None_not_Some in Hseen]; split; try naive_solver.
    intros (_ & Hn & _). rewrite Hn in Hseen. by destruct Hseen.
Qed.
Lemma boot_check_Ok s c now u s' :
  boot_check_and_store s c now = (Ok u, s') <->
  now <= expires_at c /\ boot_seen s !! nonce c = None /\
  s' = {| boot_seen := <[nonce c := expires_at c]> (boot_seen s) |}.
Proof.
  unfold boot_check_and_store, ensure_fresh. destruct u. destruct (N.ltb_spec (expires_at c) now); cbn.
  - split; [done|]. lia.
  - case_bool_decide as Hseen; [|apply eq_None_not_Some in Hseen]; split; try naive_solver.
    intros (_ & Hn & _). rewrite Hn in Hseen. by destruct Hseen.
Qed.

Lemma accept_exact s cred p issuer c now claims s' :
  accept s cred p issuer c now = (Ok claims, s') <->
  acceptance_ok issuer cred p c now claims /\ pres_seen s !! nonce c = None /\
  s' = {| pres_seen := <[nonce c := expires_at c]> (pres_seen s) |}.
Proof.
  unfold accept. split.
  - intros (u & s1 & [= Hu <-] & (u' & s2 & Hs & [= Hc <-])%then_store_Ok)%then_store_Ok.
    apply pres_check_Ok in Hs as (_ & Hnew & ->). split; [|done].
    apply accept_checks. eauto.
  - intros (Hok & Hnew & ->). pose proof (ok_challenge_fresh _ _ _ _ _ _ Hok) as Hf.
    apply accept_checks in Hok as [[u Hu] Hc]. rewrite Hu. cbn [then_store].
    rewrite (proj2 (pres_check_Ok s c now tt _)) by done. cbn [then_store]. by rewrite Hc.
Qed.

(** A refusal leaves the store as it was. *)
Lemma accept_refused s cred p issuer c now r s' :
  accept s cred p issuer c now = (r, s') -> is_ok r = false -> s' = s.
Proof.
  intros Ha Hr. unfold accept in Ha.
  destruct (ensure_fresh c now;; verify_presentation cred issuer (challenge_bytes c) p now) as [u|e| |] eqn:Hu;
    cbn [then_store] in Ha; try congruence.
  unfold verify_presentation in Hu. inv_res.
  match goal with H : credential_verify _ _ _ = _ |- _ =>
    apply credential_verify_Ok in H as (_ & _ & _ & _ & _ & _ & Hl & Hv) end.
  destruct (pres_check_and_store s c now) as [r0 s0] eqn:Hs.
  destruct r0 as [u|e| |]; cbn [then_store] in Ha.
  - rewrite (proj2 (vk_from_slice_Ok _ (device_pubkey cred))) in Ha by done.
    injection Ha as <- <-. done.
  - unfold pres_check_and_store in Hs. injection Ha as <- <-. repeat case_match; congruence.
  - unfold pres_check_and_store in Hs. injection Ha as <- <-. repeat case_match; congruence.
  - unfold pres_check_and_store in Hs. injection Ha as <- <-. repeat case_match; congruence.
Qed.

Lemma accept_safe s cred p issuer c now :
  now + SKEW_SECS <= u64_max -> safe (accept s cred p issuer c now).1 (fun _ => True).
Proof.
  intros Hmax. unfold accept.
  assert (forall b, safe (vk_from_slice b) (fun _ => True)) as Hvk by (intros b; unfold vk_from_slice; by wp).
  assert (forall b, safe (sig_from_slice b) (fun _ => True)) as Hsg by (intros b; unfold sig_from_slice; by wp).
  assert (safe (ensure_fresh c now;; verify_presentation cred issuer (challenge_bytes c) p now)
    (fun _ => True)) as Hchecks.
  { unfold ensure_fresh, verify_presentation, credential_verify, plain_add. wp.
    rewrite (proj2 (checked_add_Some _ _ _ _) (conj eq_refl Hmax)). cbn [unwrap safe]. wp.
    eapply safe_mono; [apply Hsg|]. intros sg _ _. wp.
    eapply safe_mono; [apply Hvk|]. intros vk _ _. wp.
    eapply safe_mono; [apply Hsg|]. intros sg' _ _. by wp. }
  destruct (ensure_fresh c now;; verify_presentation cred issuer (challenge_bytes c) p now);
    cbn [then_store fst] in *; try done.
  unfold pres_check_and_store, ensure_fresh. destruct (expires_at c <? now); cbn; [done|].
  case_bool_decide; cbn; [done|]. apply safe_bind. eapply safe_mono; [apply Hvk|done].
Qed.

Lemma bootstrap_exact s sk pk device tee c now ttl cred s' :
  bootstrap s sk pk device tee c now ttl = (Ok cred, s') <->
  issuance_ok pk device tee c now ttl cred /\ sig cred = ed_sign sk (credential_bytes cred) /\
  boot_seen s !! nonce c = None /\
  s' = {| boot_seen := <[nonce c := expires_at c]> (boot_seen s) |}.
Proof.
  unfold bootstrap, issue, plain_add. split.
  - intros (u & s1 & [= Hu <-] & (u' & s2 & Hs & [= Hc <-])%then_store_Ok)%then_store_Ok.
    apply boot_check_Ok in Hs as (Hf & Hnew & ->). inv_res.
    match goal with H : checked_add _ _ _ = Some _ |- _ => apply checked_add_Some in H as [-> ?] end.
    bools. split; [|done]. by split.
  - intros ([Hb Hf (Hi & He & Hmax) (<- & Hpl & Hx & Ht)] & Hsig & Hnew & ->).
    rewrite (proj2 (checked_add_Some _ _ _ _) (conj eq_refl Hmax)). cbn [ok_or]. rewrite res_bind_Ok.
    rewrite reject_if_false by (apply negb_false_iff; by apply bytes_eqb_eq). cbn [then_store].
    rewrite (proj2 (boot_check_Ok s c now tt _)) by done. cbn [then_store unwrap]. rewrite res_bind_Ok.
    rewrite <- Hpl, <- Hx, <- Ht. rewrite <- Hi at 1 2. rewrite <- He.
    f_equal. f_equal. destruct cred; cbn in *. subst. done.
Qed.

Lemma bootstrap_refused s sk pk device tee c now ttl r s' :
  bootstrap s sk pk device tee c now ttl = (r, s') -> is_ok r = false -> s' = s.
Proof.
  intros Ha Hr. unfold bootstrap, issue, plain_add in Ha.
  destruct (checked_add u64_max now ttl) as [e|] eqn:He; cbn [ok_or] in Ha; [|cbn in Ha; congruence].
  rewrite res_bind_Ok in Ha. destruct (negb _); cbn [reject_if then_store] in Ha; [congruence|].
  destruct (boot_check_and_store s c now) as [r0 s0] eqn:Hs. unfold boot_check_and_store in Hs.
  destruct r0; cbn [then_store] in Ha; [by injection Ha as <- <-|..];
    injection Ha as <- <-; repeat case_match; congruence.
Qed.

(** ** Executions *)
(** Every consumed nonce is in the store that guards it. *)
Record system_inv (tr : list Event) (s : RelaySystem) : Prop := {
  inv_boot : forall n, n ∈ omap issued_nonce tr <-> is_Some (boot_seen (boot_store s) !! n);
  inv_pres : forall n, n ∈ omap accepted_nonce tr <-> is_Some (pres_seen (pres_store s) !! n);
  inv_issued : NoDup (omap issued_nonce tr);
  inv_accepted : NoDup (omap accepted_nonce tr);
  inv_events : forall e, e ∈ tr ->
    match e with
    | Issued pk device tee c now ttl cred => issuance_ok pk device tee c now ttl cred
    | Accepted issuer cred p c now claims => acceptance_ok issuer cred p c now claims
    | Refused => True
    end;
}.

Lemma insert_consumed (m : gmap bytes N) (l : list bytes) k v :
  (forall n, n ∈ l <-> is_Some (m !! n)) -> m !! k = None -> NoDup l ->
  (forall n, n ∈ l ++ [k] <-> is_Some (<[k := v]> m !! n)) /\ NoDup (l ++ [k]).
Proof.
  intros Hl Hk Hnd. split.
  - intros n. rewrite elem_of_app, list_elem_of_singleton, Hl, lookup_insert_is_Some'. naive_solver.
  - apply NoDup_app. split; [done|]. split; [|apply NoDup_singleton].
    intros x Hx ->%list_elem_of_singleton. apply Hl in Hx. rewrite Hk in Hx. by destruct Hx.
Qed.

Lemma execution_inv tr s : execution tr s -> system_inv tr s.
Proof.
  induction 1 as [|tr s e s' _ [IHb IHp IHi IHa IHe] Hstep].
  - split.
    + intros n. cbn. rewrite lookup_empty. split; [set_solver|by intros [? ?]].
    + intros n. cbn. rewrite lookup_empty. split; [set_solver|by intros [? ?]].
    + apply NoDup_nil_2.
    + apply NoDup_nil_2.
    + set_solver.
  - inversion Hstep; subst; clear Hstep.
    + match goal with H : bootstrap _ _ _ _ _ _ _ _ = _ |- _ =>
        apply bootstrap_exact in H as (Hok & _ & Hnew & ->) end.
      destruct (insert_consumed _ _ _ (expires_at c) IHb Hnew IHi) as [Hb Hi].
      split; rewrite ?omap_app; cbn; rewrite ?app_nil_r; auto.
      intros e [He|He%list_elem_of_singleton]%elem_of_app; [by apply IHe|by subst].
    + match goal with H : bootstrap _ _ _ _ _ _ _ _ = _ |- _ => apply bootstrap_refused in H; [subst|done] end.
      split; rewrite ?omap_app; cbn; rewrite ?app_nil_r; auto.
      intros e [He|He%list_elem_of_singleton]%elem_of_app; [by apply IHe|by subst].
    + match goal with H : accept _ _ _ _ _ _ = _ |- _ => apply accept_exact in H as (Hok & Hnew & ->) end.
      destruct (insert_consumed _ _ _ (expires_at c) IHp Hnew IHa) as [Hb Hi].
      split; rewrite ?omap_app; cbn; rewrite ?app_nil_r; auto.
      intros e [He|He%list_elem_of_singleton]%elem_of_app; [by apply IHe|by subst].
    + match goal with H : accept _ _ _ _ _ _ = _ |- _ => apply accept_refused in H; [subst|done] end.
      split; rewrite ?omap_app; cbn; rewrite ?app_nil_r; auto.
      intros e [He|He%list_elem_of_singleton]%elem_of_app; [by apply IHe|by subst].
Qed.

(** * Theorems *)

(** C9: replay protection holds in every execution.  However requests are
    interleaved and whatever clock they carry, the nonces of accepted
    presentations are pairwise different, and so are the nonces of issued
    credentials; every acceptance happened within the challenge and credential
    windows, under a valid issuer signature over all credential fields and a valid
    device signature over that very challenge, and returned the signed fields;
    every credential was issued against the matching device binding and records
    exactly the attested values and the checked validity window. *)
Theorem relay_at_most_once tr s :
  execution tr s ->
  NoDup (omap accepted_nonce tr) /\ NoDup (omap issued_nonce tr) /\
  forall e, e ∈ tr ->
    match e with
    | Issued pk device tee c now ttl cred => issuance_ok pk device tee c now ttl cred
    | Accepted issuer cred p c now claims => acceptance_ok issuer cred p c now claims
    | Refused => True
    end.
Proof. intros [_ _ Hi Ha He]%execution_inv. auto. Qed.

(** C40: an honest device gets through, once.  After an attestation that commits
    to the device binding, bootstrapping with an unused, unexpired challenge
    yields a credential; presenting it within its window, against a second unused
    challenge, is accepted and returns the attested platform, identity, TEE
    identity and device key.  Presenting again for the same challenge and
    bootstrapping again with the same nonce are refused as replays, and the
    relying party's check never panics at these times. *)
Theorem relay_round_trip (EL : Ed25519Laws ED) bs ps isk dsk device tee c now ttl c' t :
  observed_binding device = device_binding (verifying_key dsk) (relay_value_x tee) c ->
  boot_seen bs !! nonce c = None -> now <= expires_at c -> now + ttl <= u64_max ->
  pres_seen ps !! nonce c' = None -> t <= expires_at c' -> t + SKEW_SECS <= u64_max ->
  now <= t + SKEW_SECS -> t <= now + ttl ->
  exists cred bs' claims ps',
    bootstrap bs isk (verifying_key dsk) device tee c now ttl = (Ok cred, bs') /\
    accept ps cred (present dsk c') (verifying_key isk) c' t = (Ok claims, ps') /\
    claims = {| claim_platform := device_platform device; claim_value_x := device_value_x device;
                claim_tee_value_x := relay_value_x tee; claim_device_pubkey := verifying_key dsk |} /\
    accept ps' cred (present dsk c') (verifying_key isk) c' t = (Err PresentationReplay, ps') /\
    bootstrap bs' isk (verifying_key dsk) device tee c now ttl = (Err BootstrapReplay, bs').
Proof.
  intros Hb Hbs Hf Hmax Hps Hf' Hmax' Hwin Hexp.
  set (blank := {| device_pubkey := verifying_key dsk; platform := device_platform device;
    value_x := device_value_x device; tee_value_x := relay_value_x tee; issued_at := now;
    expiry := now + ttl; sig := [] |}).
  set (cred := {| device_pubkey := verifying_key dsk; platform := device_platform device;
    value_x := device_value_x device; tee_value_x := relay_value_x tee; issued_at := now;
    expiry := now + ttl; sig := ed_sign isk (credential_bytes blank) |}).
  assert (length (verifying_key dsk) = 32%nat) as Hk by apply verifying_key_length.
  assert (forall b, blen b = 32 <-> length (A:=byte) b = 32%nat) as H32 by (intros b; apply (length_blen b 32)).
  assert (forall b, blen b = 64 <-> length (A:=byte) b = 64%nat) as H64 by (intros b; apply (length_blen b 64)).
  set (claims := {| claim_platform := device_platform device; claim_value_x := device_value_x device;
                claim_tee_value_x := relay_value_x tee; claim_device_pubkey := verifying_key dsk |}).
  assert (acceptance_ok (verifying_key isk) cred (present dsk c') c' t claims) as Hok.
  { split; try done; try apply ed_verify_sign.
    split_and!; cbn; try apply H64; try apply H32; try apply ed_sign_length; auto using vk_valid_key. }
  exists cred, {| boot_seen := <[nonce c := expires_at c]> (boot_seen bs) |}, claims,
    {| pres_seen := <[nonce c' := expires_at c']> (pres_seen ps) |}. split_and!.
  - apply bootstrap_exact. split_and!; try done; by split.
  - by apply accept_exact.
  - done.
  - pose proof Hok as Hc. apply accept_checks in Hc as [[u Hu] _]. unfold accept. rewrite Hu. cbn [then_store].
    unfold pres_check_and_store, ensure_fresh. rewrite (proj2 (N.ltb_ge _ _) Hf'). cbn.
    by rewrite bool_decide_eq_true_2 by (rewrite lookup_insert_eq; eauto).
  - unfold bootstrap. rewrite (proj2 (checked_add_Some _ _ _ _) (conj eq_refl Hmax)). cbn [ok_or].
    rewrite res_bind_Ok. rewrite reject_if_false by (apply negb_false_iff; by apply bytes_eqb_eq).
    cbn [then_store]. unfold boot_check_and_store, ensure_fresh. rewrite (proj2 (N.ltb_ge _ _) Hf). cbn.
    by rewrite bool_decide_eq_true_2 by (rewrite lookup_insert_eq; eauto).
Qed.

(** The signed and hashed messages are unambiguous.  Equal credential
    messages have equal fields, equal proof-of-possession messages come from equal
    challenges, no message is both, and equal device bindings commit to the same
    device key, the same TEE identity and the same challenge, unless the two hashed
    messages collide under SHA-256 (lengths within the 32-bit length prefix, times within 64 bits). *)
Theorem relay_messages_unambiguous cred cred' c c' pk pk' tee tee' :
  credential_wf cred -> credential_wf cred' -> challenge_wf c -> challenge_wf c' ->
  blen pk = 32 -> blen pk' = 32 -> blen tee < 2 ^ 32 -> blen tee' < 2 ^ 32 ->
  (credential_bytes cred = credential_bytes cred' -> signed_fields cred = signed_fields cred') /\
  (pop_message (challenge_bytes c) = pop_message (challenge_bytes c') -> c = c') /\
  credential_bytes cred <> pop_message (challenge_bytes c) /\
  (device_binding pk tee c = device_binding pk' tee' c' ->
   (pk = pk' /\ tee = tee' /\ c = c') \/
   collision sha256 (binding_input pk tee c) (binding_input pk' tee' c')).
Proof.
  intros Hcred Hcred' Hc Hc' Hpk Hpk' Htee Htee'. split_and!.
  - by apply credential_bytes_inj.
  - unfold pop_message. intros [_ Heq]%app_inv_head%app_inj_blen; [|by rewrite !length_N_to_be].
    by apply challenge_bytes_inj.
  - done.
  - intros [Heq|]%eq_or_collision; [left|by right]. apply app_inv_head in Heq.
    apply app_inj_blen in Heq as [-> Heq]; [|unfold blen in *; lia].
    apply N_to_be_app_inj in Heq as [Hl Heq]; [|done|done].
    apply app_inj_blen in Heq as [-> Heq]; [|unfold blen in *; lia].
    by apply challenge_bytes_inj in Heq.
Qed.
End Proofs.

(** ** Witnesses *)
Definition sample_challenge (n : byte) : RelayChallenge :=
  {| nonce := replicate 32 n; expires_at := 1000; context := lit "relay" |}.
Definition sample_tee : VerifiedRelayTee := {| relay_value_x := replicate 48 x11 |}.
Definition sample_pk : bytes := verifying_key (Ed25519:=toy_ed25519) (7 : N).
Definition sample_device : VerifiedDeviceAttestation := {|
  device_platform := lit "linux-tpm-client"; device_value_x := replicate 32 x22;
  observed_binding := device_binding (H:=toy_sha2) sample_pk (replicate 48 x11) (sample_challenge x01) |}.
Definition sample_credential : RelayCredential :=
  unwrap_or (bootstrap (H:=toy_sha2) (ED:=toy_ed25519) {| boot_seen := ∅ |} (9 : N) sample_pk sample_device
    sample_tee (sample_challenge x01) 900 3600).1
    {| device_pubkey := []; platform := []; value_x := []; tee_value_x := []; issued_at := 0;
       expiry := 0; sig := [] |}.

Lemma relay_round_trip_witness :
  exists cred bs' claims ps',
    bootstrap (H:=toy_sha2) (ED:=toy_ed25519) {| boot_seen := ∅ |} (9 : N) sample_pk sample_device
      sample_tee (sample_challenge x01) 900 3600 = (Ok cred, bs') /\
    accept (ED:=toy_ed25519) {| pres_seen := ∅ |} cred
      (present (ED:=toy_ed25519) (7 : N) (sample_challenge x02))
      (verifying_key (Ed25519:=toy_ed25519) (9 : N)) (sample_challenge x02) 950 = (Ok claims, ps').
Proof.
  destruct (relay_round_trip (H:=toy_sha2) (ED:=toy_ed25519) toy_ed25519_laws
    {| boot_seen := ∅ |} {| pres_seen := ∅ |} (9 : N) (7 : N) sample_device sample_tee
    (sample_challenge x01) 900 3600 (sample_challenge x02) 950)
    as (cred & bs' & claims & ps' & H1 & H2 & _);
    [reflexivity|reflexivity|vm_compute; discriminate|vm_compute; discriminate|reflexivity
    |vm_compute; discriminate|vm_compute; discriminate|vm_compute; discriminate|vm_compute; discriminate|].
  exists cred, bs', claims, ps'. split; [exact H1|exact H2].
Defined.

Definition sample_store : BootstrapReplayStore := {| boot_seen := {[replicate 32 x01 := 1000]} |}.
Lemma sample_issued :
  bootstrap (H:=toy_sha2) (ED:=toy_ed25519) (boot_store initial_system) (9 : N) sample_pk sample_device
    sample_tee (sample_challenge x01) 900 3600 = (Ok sample_credential, sample_store).
Proof. vm_cast_no_check (eq_refl (Ok (E:=RelayError) sample_credential, sample_store)). Qed.
Definition sample_trace : list Event :=
  [Issued sample_pk sample_device sample_tee (sample_challenge x01) 900 3600 sample_credential].
Lemma sample_execution :
  execution (H:=toy_sha2) (ED:=toy_ed25519) sample_trace
    {| boot_store := sample_store; pres_store := pres_store initial_system |}.
Proof. exact (execution_step [] _ _ _ execution_start (step_issued _ _ _ _ _ _ _ _ _ _ sample_issued)). Qed.

Lemma relay_at_most_once_witness :
  omap issued_nonce sample_trace = [replicate 32 x01] /\ NoDup (omap issued_nonce sample_trace).
Proof.
  split; [reflexivity|].
  exact (proj1 (proj2 (relay_at_most_once (H:=toy_sha2) (ED:=toy_ed25519) _ _ sample_execution))).
Defined.

Lemma relay_messages_unambiguous_witness :
  credential_bytes sample_credential <> pop_message (challenge_bytes (sample_challenge x01)).
Proof.
  apply (relay_messages_unambiguous (H:=toy_sha2) sample_credential sample_credential
    (sample_challenge x01) (sample_challenge x02) sample_pk sample_pk [] []);
    try split; vm_compute; solve [reflexivity|discriminate].
Defined.
