(* ===== verification/Eat.v ===== *)
(** * Eat: the attestation token of [src/v2/src/eat.rs]

    [EatToken] with its shape check, its binding hash in the three suites, the
    64-byte report data and the link to the previous stage.  CBOR is the
    [ciborium] crate: a codec is a parameter ([CborCodec]) that decodes a token
    from the front of the input and says how many bytes it used.

    [eat_report_data_binding] is the central fact about the token: the report data
    that the CPU signs determines every claim that the token carries outside the
    quote, or else two of the messages that the commitments of the two tokens hash
    ([bound_messages]) collide under SHA-256. *)
From S2P Require Import Prelude Bytes Text Crypto.

(** [src/v2/src/quote/mod.rs] *)
Inductive Platform : Type := Nitro | SevSnp | Tdx | AzureSnpVtpm | AwsSnpNitroTpm.
#[global] Instance Platform_eq_dec : EqDecision Platform.
Proof. solve_decision. Defined.

Definition EAT_VERSION : N := 2.
Definition EAT_PROFILE : bytes := lit "https://uq.secure.build/eat/v2".
Definition EAT_PROFILE_ACCEPTED : list bytes := [EAT_PROFILE; lit "https://bountynet.dev/eat/v2"].
Definition BINDING_SUITE_V2_SHA256 : N := 0.
Definition BINDING_SUITE_V3_SHA256_DUAL : N := 1.
Definition BINDING_SUITE_COMPOSITE : N := 2.
Definition DEFAULT_BINDING_SUITE : N := BINDING_SUITE_V2_SHA256.
Definition SECOND_COMMITMENT_DOMAIN : bytes := lit "uq/eat/report-data-2" ++ [x00].

Inductive EatError : Type :=
| Shape (why : string)
| UnknownSuite (suite : N)
| Encode
| Decode
| VersionMismatch (expected got : N)
| ProfileMismatch (expected got : bytes).

Record EatToken : Type := {
  version : N;
  eat_profile : bytes;
  binding_suite : N;
  value_x : bytes;
  platform : N;
  platform_measurement : bytes;
  platform_quote : bytes;
  tls_spki_hash : bytes;
  source_hash : bytes;
  artifact_hash : bytes;
  iat : N;
  eat_nonce : bytes;
  previous_attestation : bytes;
  gpu_evidence : bytes;
  boot_evidence : bytes;
}.

(** The widths that the Rust types carry ([u8], [u16], [u32], [u64], arrays). *)
Record token_typed (t : EatToken) : Prop := {
  ty_version : version t <= u32_max;
  ty_suite : binding_suite t <= u16_max;
  ty_value_x : blen (value_x t) = 48;
  ty_platform : platform t <= u8_max;
  ty_tls : blen (tls_spki_hash t) = 32;
  ty_source : blen (source_hash t) = 48;
  ty_artifact : blen (artifact_hash t) = 48;
  ty_iat : iat t <= u64_max;
  ty_nonce : blen (eat_nonce t) = 32;
}.

Definition platform_enum (t : EatToken) : option Platform :=
  if platform t =? 1 then Some Nitro
  else if platform t =? 2 then Some SevSnp
  else if platform t =? 3 then Some Tdx
  else if platform t =? 4 then Some AzureSnpVtpm
  else if platform t =? 5 then Some AwsSnpNitroTpm
  else None.
Definition platform_to_u8 (p : Platform) : N :=
  match p with Nitro => 1 | SevSnp => 2 | Tdx => 3 | AzureSnpVtpm => 4 | AwsSnpNitroTpm => 5 end.

Definition MiB : N := 1024 * 1024.
Definition validate_shape (t : EatToken) : res EatError unit :=
  reject_if (negb (version t =? EAT_VERSION)) (VersionMismatch EAT_VERSION (version t));;
  reject_if (negb (existsb (bytes_eqb (eat_profile t)) EAT_PROFILE_ACCEPTED))
    (ProfileMismatch EAT_PROFILE (eat_profile t));;
  reject_if (negb (binding_suite t <=? 2)) (UnknownSuite (binding_suite t));;
  reject_if (negb (binding_suite t =? BINDING_SUITE_COMPOSITE)
             && (negb (blen (gpu_evidence t) =? 0) || negb (blen (boot_evidence t) =? 0)))
    (Shape "composite evidence requires binding suite 2");;
  reject_if (bool_decide (platform_enum t = None)) (Shape "unknown platform");;
  reject_if (((platform t =? 4) || (platform t =? 5))
             && negb (binding_suite t =? BINDING_SUITE_COMPOSITE))
    (Shape "TPM composite profiles require binding suite 2");;
  reject_if ((8 * MiB <? blen (gpu_evidence t)) || (16 * MiB <? blen (boot_evidence t)))
    (Shape "evidence exceeds size limit");;
  reject_if ((4 * MiB <? blen (platform_quote t)) || (8 * MiB <? blen (previous_attestation t)))
    (Shape "CPU quote or preceding stage exceeds size limit").

(** ** CBOR *)
Class CborCodec := {
  (** [ciborium::ser::into_writer] *)
  cbor_encode : EatToken -> option bytes;
  (** [ciborium::de::from_reader] on a cursor: the token and the final position *)
  cbor_decode : bytes -> option (EatToken * N);
}.
(** What the code relies on: an encoder that fits its decoder, and values of the
    field types. *)
Class CborLaws (C : CborCodec) : Prop := {
  cbor_decode_encode t b : token_typed t -> cbor_encode t = Some b -> cbor_decode b = Some (t, blen b);
  cbor_decode_typed b t n : cbor_decode b = Some (t, n) -> token_typed t /\ n <= blen b;
}.

Definition to_cbor `{CborCodec} (t : EatToken) : res EatError bytes := ok_or (cbor_encode t) Encode.

Definition from_cbor `{CborCodec} (b : bytes) : res EatError EatToken :=
  reject_if (32 * MiB <? blen b) (Shape "token exceeds 32 MiB");;
  '(token, pos) ← ok_or (cbor_decode b) Decode;
  reject_if (negb (pos =? blen b)) (Shape "trailing CBOR data");;
  validate_shape token;;
  Ok token.

Definition has_previous (t : EatToken) : bool := negb (blen (previous_attestation t) =? 0).
Definition decode_previous `{CborCodec} (t : EatToken) : res EatError (option EatToken) :=
  if blen (previous_attestation t) =? 0 then Ok None
  else p ← from_cbor (previous_attestation t); Ok (Some p).
Definition set_previous (t : EatToken) (previous_cbor : bytes) : EatToken :=
  {| version := version t; eat_profile := eat_profile t; binding_suite := binding_suite t;
     value_x := value_x t; platform := platform t;
     platform_measurement := platform_measurement t; platform_quote := platform_quote t;
     tls_spki_hash := tls_spki_hash t; source_hash := source_hash t;
     artifact_hash := artifact_hash t; iat := iat t; eat_nonce := eat_nonce t;
     previous_attestation := previous_cbor; gpu_evidence := gpu_evidence t;
     boot_evidence := boot_evidence t |}.
(** Writing the collected quote back into the token. *)
Definition set_quote (t : EatToken) (measurement quote : bytes) : EatToken :=
  {| version := version t; eat_profile := eat_profile t; binding_suite := binding_suite t;
     value_x := value_x t; platform := platform t;
     platform_measurement := measurement; platform_quote := quote;
     tls_spki_hash := tls_spki_hash t; source_hash := source_hash t;
     artifact_hash := artifact_hash t; iat := iat t; eat_nonce := eat_nonce t;
     previous_attestation := previous_attestation t; gpu_evidence := gpu_evidence t;
     boot_evidence := boot_evidence t |}.

(** ** Commitments *)
Section Binding.
Context `{H : Sha2}.

Definition previous_hash (t : EatToken) : bytes :=
  if blen (previous_attestation t) =? 0 then replicate 32 x00 else sha256 (previous_attestation t).

(** The fields every suite hashes, in order. *)
Definition binding_fields (t : EatToken) : bytes :=
  N_to_be 4 (version t) ++ N_to_be 4 (blen (eat_profile t)) ++ eat_profile t ++
  value_x t ++ [byte_of (platform t)] ++ tls_spki_hash t ++ source_hash t ++ artifact_hash t ++
  N_to_be 8 (iat t) ++ eat_nonce t ++ previous_hash t.

Definition binding_bytes_v2 (t : EatToken) : bytes := sha256 (binding_fields t).

Definition V3_DOMAIN : bytes := lit "uq/eat/binding/v3" ++ [x00].
Definition v3_message (t : EatToken) : bytes :=
  V3_DOMAIN ++ N_to_be 2 (binding_suite t) ++ binding_fields t.
Definition binding_bytes_v3 (t : EatToken) : bytes := sha256 (v3_message t).

Definition COMPOSITE_DOMAIN : bytes := lit "uq/eat/composite/v1" ++ [x00].
Definition UNSUPPORTED_DOMAIN : bytes := lit "uq/eat/unsupported-suite" ++ [x00].
Definition composite_input (t : EatToken) : bytes :=
  COMPOSITE_DOMAIN ++ binding_bytes_v3 t ++
  N_to_be 8 (blen (gpu_evidence t)) ++ sha256 (gpu_evidence t) ++
  N_to_be 8 (blen (boot_evidence t)) ++ sha256 (boot_evidence t).
Definition binding_bytes (t : EatToken) : bytes :=
  if binding_suite t =? BINDING_SUITE_COMPOSITE then sha256 (composite_input t)
  else if binding_suite t =? BINDING_SUITE_V3_SHA256_DUAL then binding_bytes_v3 t
  else if binding_suite t =? BINDING_SUITE_V2_SHA256 then binding_bytes_v2 t
  else sha256 (UNSUPPORTED_DOMAIN ++ N_to_be 2 (binding_suite t) ++ binding_bytes_v3 t).

Definition second_commitment (t : EatToken) (challenge : option bytes) : bytes :=
  match challenge with
  | None => take 32 (value_x t)
  | Some c => sha256 (SECOND_COMMITMENT_DOMAIN ++ c ++ take 32 (value_x t))
  end.
Definition report_data_64 (t : EatToken) (challenge : option bytes) : bytes :=
  binding_bytes t ++ second_commitment t challenge.

(** ** Producers *)
Record BuildComponents : Type := {
  bc_platform : Platform;
  bc_value_x : bytes;
  bc_source_hash : bytes;
  bc_artifact_hash : bytes;
  bc_platform_measurement : bytes;
  bc_platform_quote : bytes;
}.
(** [now] is the system clock in seconds, 0 before the epoch. *)
Definition from_build_with_nonce (now : N) (c : BuildComponents) (nonce : bytes) : EatToken :=
  {| version := EAT_VERSION; eat_profile := EAT_PROFILE; binding_suite := DEFAULT_BINDING_SUITE;
     value_x := bc_value_x c; platform := platform_to_u8 (bc_platform c);
     platform_measurement := bc_platform_measurement c; platform_quote := bc_platform_quote c;
     tls_spki_hash := replicate 32 x00; source_hash := bc_source_hash c;
     artifact_hash := bc_artifact_hash c; iat := now; eat_nonce := nonce;
     previous_attestation := []; gpu_evidence := []; boot_evidence := [] |}.

(** [env] is the value of UQ_EAT_NONCE, when set and Unicode. *)
Definition nonce_from_env (env : option bytes) : option bytes :=
  v ← env;
  let v := str_trim v in
  if blen v =? 0 then None
  else match hex_decode v with
       | Some b => if blen b =? 32 then Some b else None
       | None => None
       end.
(** [random] is the entropy that [random_eat_nonce] draws. *)
Definition from_build (now : N) (env : option bytes) (random : bytes) (c : BuildComponents) : EatToken :=
  from_build_with_nonce now c (default random (nonce_from_env env)).
End Binding.

(** * Lemmas *)
Lemma validate_shape_Ok t :
  validate_shape t = Ok tt <->
  version t = EAT_VERSION /\ eat_profile t ∈ EAT_PROFILE_ACCEPTED /\ binding_suite t <= 2 /\
  (binding_suite t = 2 \/ gpu_evidence t = [] /\ boot_evidence t = []) /\
  (exists p, platform_enum t = Some p) /\
  (platform t = 4 \/ platform t = 5 -> binding_suite t = 2) /\
  blen (gpu_evidence t) <= 8 * MiB /\ blen (boot_evidence t) <= 16 * MiB /\
  blen (platform_quote t) <= 4 * MiB /\ blen (previous_attestation t) <= 8 * MiB.
Proof.
  unfold validate_shape, BINDING_SUITE_COMPOSITE. split.
  - intros Hv. inv_res. bools. rewrite existsb_exists in *.
    match goal with H : exists x, _ |- _ => destruct H as (p & Hp & Heq) end. bools. subst p.
    apply list_elem_of_In in Hp. rewrite <- !blen_0.
    destruct (platform_enum t); [|done]. split_and!; eauto; lia.
  - intros (Hv & Hp & Hs & Hc & [p Hpl] & H45 & ? & ? & ? & ?).
    pass ltac:(by rewrite Hv). pass ltac:(apply negb_false_iff, existsb_exists; exists (eat_profile t);
      split; [by apply list_elem_of_In|by apply bytes_eqb_eq]).
    pass ltac:(bools; lia).
    pass ltac:(destruct Hc as [->|[-> ->]]; [done|by rewrite andb_comm]).
    pass ltac:(by rewrite Hpl).
    pass ltac:(destruct (N.eqb_spec (platform t) 4), (N.eqb_spec (platform t) 5);
      cbn [orb andb]; rewrite ?H45 by auto; done).
    pass ltac:(bools; lia). apply reject_if_false. bools. lia.
Qed.

(** The claims outside the quote. *)
Definition bound_claims (t : EatToken) :=
  (version t, eat_profile t, binding_suite t, value_x t, platform t, tls_spki_hash t,
   source_hash t, artifact_hash t, iat t, eat_nonce t, previous_attestation t,
   gpu_evidence t, boot_evidence t).
(** The claims that [binding_fields] hashes. *)
Definition base_claims (t : EatToken) :=
  (version t, eat_profile t, value_x t, platform t, tls_spki_hash t, source_hash t,
   artifact_hash t, iat t, eat_nonce t, previous_attestation t).

(** A token that is validated and of the Rust types. *)
Definition token_ok (t : EatToken) : Prop := token_typed t /\ validate_shape t = Ok tt.

Lemma profile_length t : token_ok t -> blen (eat_profile t) < 2 ^ 32.
Proof.
  intros [_ (_ & Hp & _)%validate_shape_Ok]. unfold EAT_PROFILE_ACCEPTED in Hp.
  rewrite !elem_of_cons in Hp. destruct Hp as [->|[->|Hp]]; [done|done|set_solver].
Qed.

Section Binding.
Context `{H : Sha2} {HL : Sha2Laws H}.

(** The messages that the commitment of a token hashes: the predecessor, when there is
    one, and what its suite adds. *)
Definition previous_messages (t : EatToken) : list bytes :=
  if blen (previous_attestation t) =? 0 then [] else [previous_attestation t].
Definition bound_messages (t : EatToken) : list bytes :=
  previous_messages t ++
  if binding_suite t =? 2 then [v3_message t; gpu_evidence t; boot_evidence t; composite_input t]
  else if binding_suite t =? 1 then [v3_message t]
  else [binding_fields t].
(** What breaks the binding of two tokens: one of the messages that the first hashes
    collides with one of the second, or the predecessor of one of them has the
    all-zero digest that marks an absent predecessor. *)
Definition sha256_broken (t t' : EatToken) : Prop :=
  collision_among sha256 (bound_messages t) (bound_messages t') \/
  preimage_among sha256 (previous_messages t ++ previous_messages t') (replicate 32 x00).

Lemma blen_sha256 b : blen (sha256 b) = 32.
Proof. apply (length_blen _ 32), sha256_length. Qed.

Lemma broken_among t t' x y l l' :
  bound_messages t = previous_messages t ++ l -> bound_messages t' = previous_messages t' ++ l' ->
  x ∈ l -> y ∈ l' -> sha256 x = sha256 y -> x = y \/ sha256_broken t t'.
Proof.
  intros Hl Hl' Hx Hy [|Hc]%eq_or_collision; [by left|right; left]. exists x, y.
  rewrite Hl, Hl', !elem_of_app. auto.
Qed.
Lemma previous_hash_inj t t' :
  previous_hash t = previous_hash t' ->
  previous_attestation t = previous_attestation t' \/ sha256_broken t t'.
Proof.
  unfold previous_hash, sha256_broken, bound_messages, previous_messages.
  destruct (N.eqb_spec (blen (previous_attestation t)) 0) as [E|_],
    (N.eqb_spec (blen (previous_attestation t')) 0) as [E'|_]; intros Heq.
  - left. apply blen_0 in E, E'. by rewrite E, E'.
  - right. right. exists (previous_attestation t'). split; [set_solver|done].
  - right. right. exists (previous_attestation t). split; [set_solver|done].
  - apply eq_or_collision in Heq as [|Hc]; [by left|right; left].
    exists (previous_attestation t), (previous_attestation t'). split_and!; [set_solver..|done].
Qed.

Lemma byte_of_inj n m : n <= u8_max -> m <= u8_max -> byte_of n = byte_of m -> n = m.
Proof.
  unfold u8_max. intros Hn Hm Heq%(f_equal byte_N). rewrite !byte_N_of, !N.mod_small in Heq by lia. done.
Qed.

Lemma blen_previous_hash t : blen (previous_hash t) = 32.
Proof. unfold previous_hash. case_match; [done|apply blen_sha256]. Qed.

Lemma binding_fields_inj t t' :
  token_ok t -> token_ok t' -> binding_fields t = binding_fields t' ->
  base_claims t = base_claims t' \/ sha256_broken t t'.
Proof.
  intros Hok Hok' Heq. pose proof (profile_length t Hok) as Hp. pose proof (profile_length t' Hok') as Hp'.
  destruct Hok as [[? ? ? ? ? ? ? ? ?] _], Hok' as [[? ? ? ? ? ? ? ? ?] _].
  unfold binding_fields in Heq. unfold u32_max, u64_max in *.
  apply N_to_be_app_inj in Heq as [Hv Heq]; [|lia|lia].
  apply N_to_be_app_inj in Heq as [Hlen Heq]; [|lia|lia].
  apply app_inj_blen in Heq as [? Heq]; [|unfold blen in *; lia].
  apply app_inj_blen in Heq as [? Heq]; [|unfold blen in *; lia].
  cbn [app] in Heq. apply (inj2 cons) in Heq as [Hpl%byte_of_inj Heq]; [|done|done].
  do 3 (apply app_inj_blen in Heq as [? Heq]; [|unfold blen in *; lia]).
  apply N_to_be_app_inj in Heq as [Hiat Heq]; [|lia|lia].
  apply app_inj_blen in Heq as [? Heq]; [|unfold blen in *; lia].
  apply previous_hash_inj in Heq as [Hprev|]; [left|by right]. unfold base_claims. congruence.
Qed.

(** The messages of suites 1 and 2. *)
Lemma v3_message_bound t : token_ok t -> binding_suite t <> 0 ->
  exists l, bound_messages t = previous_messages t ++ l /\ v3_message t ∈ l.
Proof.
  intros [_ (_ & _ & Hs & _)%validate_shape_Ok] Hne. unfold bound_messages.
  destruct (N.eqb_spec (binding_suite t) 2); [eexists; split; [done|set_solver]|].
  destruct (N.eqb_spec (binding_suite t) 1); [eexists; split; [done|set_solver]|lia].
Qed.
Lemma binding_v3_inj t t' :
  token_ok t -> token_ok t' -> binding_suite t <> 0 -> binding_suite t' <> 0 ->
  binding_bytes_v3 t = binding_bytes_v3 t' ->
  (binding_suite t = binding_suite t' /\ base_claims t = base_claims t') \/ sha256_broken t t'.
Proof.
  intros Hok Hok' (l & Hl & Hin)%(v3_message_bound _ Hok) (l' & Hl' & Hin')%(v3_message_bound _ Hok').
  intros [Heq|]%(broken_among _ _ _ _ _ _ Hl Hl' Hin Hin'); [|by right]. apply app_inv_head in Heq.
  pose proof (ty_suite _ (proj1 Hok)). pose proof (ty_suite _ (proj1 Hok')). unfold u16_max in *.
  apply N_to_be_app_inj in Heq as [? Heq]; [|lia|lia].
  apply binding_fields_inj in Heq as [|]; auto.
Qed.

Lemma composite_inj t t' :
  token_ok t -> token_ok t' -> binding_suite t = 2 -> binding_suite t' = 2 ->
  composite_input t = composite_input t' ->
  (base_claims t = base_claims t' /\
   gpu_evidence t = gpu_evidence t' /\ boot_evidence t = boot_evidence t') \/ sha256_broken t t'.
Proof.
  intros Hok Hok' E E' Heq. pose proof (proj2 Hok) as (_ & _ & _ & _ & _ & _ & Hg & Hb & _)%validate_shape_Ok.
  pose proof (proj2 Hok') as (_ & _ & _ & _ & _ & _ & Hg' & Hb' & _)%validate_shape_Ok.
  unfold MiB in *. apply app_inv_head in Heq.
  apply app_inj_blen in Heq as [Hv3 Heq]; [|unfold binding_bytes_v3; by rewrite !sha256_length].
  apply N_to_be_app_inj in Heq as [_ Heq]; [|lia|lia].
  apply app_inj_blen in Heq as [Hgpu Heq]; [|by rewrite !sha256_length].
  apply N_to_be_app_inj in Heq as [_ Hboot]; [|lia|lia].
  apply binding_v3_inj in Hv3 as [[_ ?]|]; [|by right|done|done|lia|lia].
  assert (forall u, binding_suite u = 2 ->
    bound_messages u = previous_messages u ++ [v3_message u; gpu_evidence u; boot_evidence u; composite_input u]) as Hm.
  { intros u Eu. unfold bound_messages. by rewrite Eu. }
  apply (broken_among _ _ _ _ _ _ (Hm _ E) (Hm _ E')) in Hgpu as [?|]; [|by right|set_solver..].
  apply (broken_among _ _ _ _ _ _ (Hm _ E) (Hm _ E')) in Hboot as [?|]; [|by right|set_solver..]. by left.
Qed.

(** A digest of suite 0 starts with the version number, the others with a domain. *)
Lemma fields_not_domain t d s : token_ok t -> binding_fields t <> x75 :: d ++ s.
Proof.
  intros [_ (Hv & _)%validate_shape_Ok] Heq. unfold binding_fields in Heq. rewrite Hv in Heq. discriminate Heq.
Qed.

(** The message whose digest is the binding of the token. *)
Definition binding_message (t : EatToken) : bytes :=
  if binding_suite t =? 2 then composite_input t
  else if binding_suite t =? 1 then v3_message t
  else binding_fields t.
Lemma binding_message_bound t : token_ok t -> binding_bytes t = sha256 (binding_message t) /\
  exists l, bound_messages t = previous_messages t ++ l /\ binding_message t ∈ l.
Proof.
  intros [_ (_ & _ & Hs & _)%validate_shape_Ok]. unfold binding_bytes, binding_message, bound_messages,
    BINDING_SUITE_COMPOSITE, BINDING_SUITE_V3_SHA256_DUAL, BINDING_SUITE_V2_SHA256.
  assert (binding_suite t = 0 \/ binding_suite t = 1 \/ binding_suite t = 2) as [E|[E|E]] by lia; rewrite E; cbn [N.eqb Pos.eqb];
    (split; [done|eexists; split; [done|set_solver]]).
Qed.
Lemma binding_bytes_inj t t' :
  token_ok t -> token_ok t' -> binding_bytes t = binding_bytes t' ->
  bound_claims t = bound_claims t' \/ sha256_broken t t'.
Proof.
  intros Hok Hok' Heq. pose proof (proj2 Hok) as (_ & _ & Hs & Hc & _)%validate_shape_Ok.
  pose proof (proj2 Hok') as (_ & _ & Hs' & Hc' & _)%validate_shape_Ok.
  destruct (binding_message_bound _ Hok) as (Hm & l & Hl & Hin), (binding_message_bound _ Hok') as (Hm' & l' & Hl' & Hin').
  rewrite Hm, Hm' in Heq. apply (broken_among _ _ _ _ _ _ Hl Hl' Hin Hin') in Heq as [Heq|]; [|by right].
  clear Hm Hm' Hl Hl' Hin Hin'. unfold binding_message in Heq.
  assert (binding_suite t = 0 \/ binding_suite t = 1 \/ binding_suite t = 2) as [E|[E|E]] by lia;
  assert (binding_suite t' = 0 \/ binding_suite t' = 1 \/ binding_suite t' = 2) as [E'|[E'|E']] by lia;
    rewrite E, E' in Heq; cbn [N.eqb Pos.eqb] in Heq.
  - apply binding_fields_inj in Heq as [Hb|]; [left|by right|done|done].
    destruct Hc as [?|[Hg Hbt]]; [lia|]. destruct Hc' as [?|[Hg' Hbt']]; [lia|].
    unfold bound_claims, base_claims in *. congruence.
  - by apply (fields_not_domain t (tail V3_DOMAIN)) in Heq.
  - by apply (fields_not_domain t (tail COMPOSITE_DOMAIN)) in Heq.
  - by apply eq_sym, (fields_not_domain t' (tail V3_DOMAIN)) in Heq.
  - destruct (binding_v3_inj _ _ Hok Hok' ltac:(lia) ltac:(lia) (f_equal sha256 Heq)) as [[Hst Hb]|]; [left|by right].
    destruct Hc as [?|[Hg Hbt]]; [lia|]. destruct Hc' as [?|[Hg' Hbt']]; [lia|].
    unfold bound_claims, base_claims in *. congruence.
  - discriminate Heq.
  - by apply eq_sym, (fields_not_domain t' (tail COMPOSITE_DOMAIN)) in Heq.
  - discriminate Heq.
  - apply composite_inj in Heq as [(Hb & ? & ?)|]; [left|by right|done..].
    unfold bound_claims, base_claims in *. congruence.
Qed.

Lemma blen_binding_bytes t : blen (binding_bytes t) = 32.
Proof. unfold binding_bytes. repeat case_match; apply blen_sha256. Qed.

Lemma report_data_inj t t' c c' :
  report_data_64 t c = report_data_64 t' c' -> binding_bytes t = binding_bytes t'.
Proof.
  unfold report_data_64. intros [? _]%app_inj_blen; [done|].
  pose proof (blen_binding_bytes t). pose proof (blen_binding_bytes t'). unfold blen in *. lia.
Qed.

(** * Theorems *)

(** C21: the report data binds the token.  If two tokens that pass the shape check
    have the same 64-byte report data, under whatever challenges, then they agree
    on version, profile, suite, Value X, platform, TLS key hash, source and
    artifact hashes, issue time, nonce, predecessor bytes, GPU evidence and boot
    evidence, also across binding suites; the only alternatives are that a message
    which the commitment of the first token hashes (its predecessor, its base fields,
    its GPU or boot evidence, the composite input) collides under SHA-256 with one of
    the second's, and that the predecessor of one of the two has the all-zero digest. *)
Theorem eat_report_data_binding t t' c c' :
  token_ok t -> token_ok t' -> report_data_64 t c = report_data_64 t' c' ->
  bound_claims t = bound_claims t' \/
  collision_among sha256 (bound_messages t) (bound_messages t') \/
  preimage_among sha256 (previous_messages t ++ previous_messages t') (replicate 32 x00).
Proof. intros Hok Hok' Hrd%report_data_inj. by apply binding_bytes_inj. Qed.
End Binding.

Section Codec.
Context `{C : CborCodec} {CL : CborLaws C}.

Lemma from_cbor_Ok b t :
  from_cbor b = Ok t <->
  blen b <= 32 * MiB /\ cbor_decode b = Some (t, blen b) /\ validate_shape t = Ok tt.
Proof.
  unfold from_cbor. split.
  - intros (u & Hl%reject_if_Ok & ([t' pos] & Hd%ok_or_Ok & Hf)%bind_Ok)%bind_Ok. inv_res. bools. by subst.
  - intros (Hlen & Hd & Hv). pass ltac:(by apply N.ltb_ge). rewrite Hd. cbn [ok_or]. ok_step.
    pass ltac:(by rewrite N.eqb_refl). rewrite Hv. by ok_step.
Qed.

Lemma validate_shape_safe t : safe (validate_shape t) (fun _ => True).
Proof. unfold validate_shape. by wp. Qed.
Lemma from_cbor_safe b : safe (from_cbor b) (fun _ => True).
Proof.
  unfold from_cbor. wp. destruct a as [t' pos]. wp. eapply safe_mono; [apply validate_shape_safe|]. done.
Qed.

(** Tokens round-trip and decoding admits well-formed tokens only.  Encoding a
    token that passes the shape check and decoding the bytes gives the token back;
    every decoded token has the field widths and passed the shape check; a
    trailing byte after the encoding is refused; decoding never panics; and
    writing the collected quote into a token leaves its report data unchanged. *)
Theorem eat_round_trip `{H : Sha2} t b x :
  token_ok t -> to_cbor t = Ok b -> blen b <= 32 * MiB ->
  from_cbor b = Ok t /\
  (forall b' t', from_cbor b' = Ok t' -> token_ok t' /\ cbor_decode b' = Some (t', blen b')) /\
  (cbor_decode (b ++ [x]) = cbor_decode b -> is_ok (from_cbor (b ++ [x])) = false) /\
  (forall b', safe (from_cbor b') (fun _ => True)) /\
  (forall m q c, report_data_64 (set_quote t m q) c = report_data_64 t c).
Proof.
  intros [Hty Hv] Hb Hlen. unfold to_cbor in Hb. apply ok_or_Ok in Hb.
  apply cbor_decode_encode in Hb; [|done]. split_and!.
  - by apply from_cbor_Ok.
  - intros b' t' (_ & Hd & Hv')%from_cbor_Ok. split; [|done]. split; [|done].
    by apply cbor_decode_typed in Hd as [? _].
  - rewrite Hb. intros Hd. destruct (from_cbor (b ++ [x])) as [t'|e| |] eqn:Hf; try done.
    apply from_cbor_Ok in Hf as (_ & Hd' & _). rewrite Hd in Hd'. injection Hd' as _ Hl.
    rewrite blen_app in Hl. change (blen [x]) with 1 in Hl. lia.
  - intros b'. apply from_cbor_safe.
  - done.
Qed.
End Codec.

(** ** Witnesses *)
#[global] Instance EatToken_eq_dec : EqDecision EatToken.
Proof. solve_decision. Defined.
Definition sample_token : EatToken :=
  from_build_with_nonce 1700000000
    {| bc_platform := Tdx; bc_value_x := replicate 48 x01; bc_source_hash := replicate 48 x02;
       bc_artifact_hash := replicate 48 x03; bc_platform_measurement := [];
       bc_platform_quote := lit "quote" |} (replicate 32 x04).
(** A codec that knows one token. *)
Definition sample_codec : CborCodec := {|
  cbor_encode t := if decide (t = sample_token) then Some [x01] else None;
  cbor_decode b := match b with x01 :: _ => Some (sample_token, 1) | _ => None end;
|}.
Lemma sample_token_typed : token_typed sample_token.
Proof. split; vm_compute; solve [reflexivity|discriminate]. Qed.
Lemma sample_codec_laws : CborLaws sample_codec.
Proof.
  split.
  - intros t b _. cbn. case_decide; [|done]. by intros [= <-]; subst.
  - intros b t n. cbn. destruct b as [|c b]; [done|]. destruct c; try done. intros [= <- <-].
    split; [apply sample_token_typed|]. rewrite blen_cons. lia.
Qed.
Lemma sample_token_ok : token_ok sample_token.
Proof. split; [apply sample_token_typed|]. vm_compute. reflexivity. Qed.

Lemma eat_report_data_binding_witness :
  let sent := set_quote sample_token [] [] in
  bound_claims sample_token = bound_claims sent \/
  collision_among (sha256 (Sha2:=toy_sha2)) (bound_messages (H:=toy_sha2) sample_token) (bound_messages (H:=toy_sha2) sent) \/
  preimage_among (sha256 (Sha2:=toy_sha2)) (previous_messages sample_token ++ previous_messages sent) (replicate 32 x00).
Proof.
  apply (eat_report_data_binding (H:=toy_sha2) (HL:=toy_sha2_laws) sample_token
    (set_quote sample_token [] []) None None).
  - exact sample_token_ok.
  - split; [split; vm_compute; solve [reflexivity|discriminate]|vm_compute; reflexivity].
  - vm_compute. reflexivity.
Defined.

(** The alternatives say something of the two tokens at hand: under a hash that has
    collisions, these two tokens show none. *)
Example no_collision_at_hand :
  let fresh := from_build_with_nonce 1700000000
    {| bc_platform := Tdx; bc_value_x := replicate 48 x01; bc_source_hash := replicate 48 x02;
       bc_artifact_hash := replicate 48 x03; bc_platform_measurement := [];
       bc_platform_quote := lit "quote" |} (replicate 32 x05) in
  ~ sha256_broken (H:=toy_sha2) sample_token fresh.
Proof.
  intros fresh [(x & y & Hx & Hy & _ & Heq)|(x & Hx & _)]; [|by apply not_elem_of_nil in Hx].
  apply list_elem_of_singleton in Hx, Hy. subst x y. revert Heq. vm_compute. discriminate.
Qed.

Lemma eat_round_trip_witness : from_cbor (H:=sample_codec) [x01] = Ok sample_token.
Proof.
  apply (eat_round_trip (C:=sample_codec) (CL:=sample_codec_laws) (H:=toy_sha2) sample_token [x01] x00).
  - exact sample_token_ok.
  - vm_compute. reflexivity.
  - vm_compute. discriminate.
Defined.
