(* ===== verification/Pki.v ===== *)
(** * Pki: certificate paths and revocation lists of [src/v2/src/quote/pki.rs]

    The CPU quote verifiers share one bounded PKIX profile: a path of two to twelve
    certificates that ends in a pinned root, every certificate checked for dates,
    extensions and key type, every issuer authorised and every signature verified.

    DER, ECDSA, RSA and base64 are crates.  [Certificate] and [CertificateList] are
    the views of the parsed structures that the code reads; a decoder of the crate
    that the code calls on an extension is a field that holds its result ([None]
    is a decoding error).  [X509] and [CpuCrypto] are the parsers and primitives.

    The crate features that enable P-384 and RSA are on.  [validate_chain_decides]
    characterises the accepted paths by the inductive relation [signed_path]:
    the loop over indices is a walk up the path.  Revocation lists are in [Crl],
    PEM bundles in [Pem]. *)
From S2P Require Import Prelude Bytes Text Crypto.

Definition MAX_CHAIN_BYTES : N := 256 * 1024.
Definition MAX_CHAIN_CERTS : N := 12.
Definition EC_KEY : bytes := lit "1.2.840.10045.2.1".
Definition P384_OID : bytes := lit "1.3.132.0.34".
Definition P256_OID : bytes := lit "1.2.840.10045.3.1.7".
Definition RSA_KEY : bytes := lit "1.2.840.113549.1.1.1".
Definition RSA_PSS : bytes := lit "1.2.840.113549.1.1.10".

(** An [anyhow] error by its message. *)
Inductive PkiError : Type := PkiMsg (message : string).

Inductive Curve : Type := P256 | P384 | AmdEndorsement.
#[global] Instance Curve_eq_dec : EqDecision Curve.
Proof. solve_decision. Defined.

(** ** Views of the parsed structures *)
Inductive Version : Type := V1 | V2 | V3.
#[global] Instance Version_eq_dec : EqDecision Version.
Proof. solve_decision. Defined.

Record BitString : Type := { raw_bytes : bytes; unused_bits : N }.
Definition as_bytes (b : BitString) : option bytes :=
  if unused_bits b =? 0 then Some (raw_bytes b) else None.
Definition octets (b : bytes) : BitString := {| raw_bytes := b; unused_bits := 0 |}.

(** A distinguished name: its relative names, each a set of attributes.  The value is
    a DER element with its tag. *)
Record Attribute : Type := { attr_oid : bytes; attr_tag : N; attr_value : bytes }.
#[global] Instance Attribute_eq_dec : EqDecision Attribute.
Proof. solve_decision. Defined.
Definition Name : Type := list (list Attribute).

(** Parameters: absent, or the encoding with what [decode_as] makes of it. *)
Record AlgParams : Type := {
  params_der : bytes;
  params_oid : option bytes;
  params_null : bool;
}.
#[global] Instance AlgParams_eq_dec : EqDecision AlgParams.
Proof. solve_decision. Defined.
Record AlgorithmIdentifier : Type := { alg_oid : bytes; alg_params : option AlgParams }.
#[global] Instance AlgorithmIdentifier_eq_dec : EqDecision AlgorithmIdentifier.
Proof. solve_decision. Defined.

Record Extension : Type := { extn_id : bytes; critical : bool; extn_value : bytes }.
Record BasicConstraints : Type := { ca : bool; path_len_constraint : option N }.
Record KeyUsage : Type := {
  digital_signature : bool;
  key_agreement : bool;
  key_cert_sign : bool;
  crl_sign : bool;
  encipher_only : bool;
  decipher_only : bool;
}.
Inductive GeneralName : Type := DirectoryName (n : Name) | OtherName.
Record AuthorityKeyIdentifier : Type := {
  key_identifier : option bytes;
  authority_cert_issuer : option (list GeneralName);
  authority_cert_serial_number : option bytes;
}.

(** [tbs.get::<T>()]: a decoding error, or the extension when present. *)
Definition Got (A : Type) : Type := option (option (bool * A)).

Record Certificate : Type := {
  cert_version : Version;
  serial_number : bytes;
  tbs_signature : AlgorithmIdentifier;
  issuer : Name;
  not_before : N;
  not_after : N;
  subject : Name;
  spki_algorithm : AlgorithmIdentifier;
  spki_der : bytes;
  subject_public_key : BitString;
  has_unique_ids : bool;
  extensions : list Extension;
  get_basic_constraints : Got BasicConstraints;
  get_key_usage : Got KeyUsage;
  get_eku : Got (list bytes);
  get_aki : Got AuthorityKeyIdentifier;
  get_ski : Got bytes;
  tbs_der : bytes;
  signature_algorithm : AlgorithmIdentifier;
  cert_signature : BitString;
}.

Record RevokedCert : Type := {
  revoked_serial : bytes;
  crl_entry_extensions : list Extension;
}.
Record CertificateList : Type := {
  crl_version : Version;
  crl_tbs_signature : AlgorithmIdentifier;
  crl_issuer : Name;
  this_update : N;
  next_update : option N;
  revoked_certificates : list RevokedCert;
  crl_extensions : list Extension;
  crl_tbs_der : bytes;
  crl_signature_algorithm : AlgorithmIdentifier;
  crl_signature : BitString;
}.

Record RsaPssParams : Type := {
  pss_hash : AlgorithmIdentifier;
  pss_mask_gen_oid : bytes;
  pss_mgf : option AlgorithmIdentifier;
  pss_salt_len : N;
}.

(** ** The crates *)
Class X509 := {
  cert_from_der : bytes -> option Certificate;
  crl_from_der : bytes -> option CertificateList;
  aki_from_der : bytes -> option AuthorityKeyIdentifier;
  crl_number_ok : bytes -> bool;
  (** [CrlReason::from_der]: an error, or whether it is removeFromCRL *)
  crl_reason_remove : bytes -> option bool;
  generalized_time_ok : bytes -> bool;
  pss_from_der : bytes -> option RsaPssParams;
  base64_decode : bytes -> option bytes;
}.

(** One elliptic curve of [ecdsa]. *)
Record Ecdsa : Type := {
  Point : Type;
  EcSignature : Type;
  from_sec1 : bytes -> option Point;
  sig_from_der : bytes -> option EcSignature;
  sig_from_slice : bytes -> option EcSignature;
  verify_prehash : Point -> bytes -> EcSignature -> bool;
}.
Class CpuCrypto := {
  p256 : Ecdsa;
  p384 : Ecdsa;
  (** The modulus size of an RSA key from its SubjectPublicKeyInfo. *)
  rsa_bits : bytes -> option N;
  (** PSS with SHA-384 and a 48-byte salt: key, digest, signature. *)
  rsa_pss_verify : bytes -> bytes -> bytes -> bool;
}.

(** [x?] on an [Option] or [Result] of a crate *)
Definition orelse {A} (o : option A) (m : string) : res PkiError A := ok_or o (PkiMsg m).
Definition need (c : bool) (m : string) : res PkiError unit := ensure c (PkiMsg m).
Definition got {A} (g : Got A) : res PkiError (option (bool * A)) := orelse g "invalid extension".

Section Checks.
Context `{X : X509} `{K : CpuCrypto} `{H : Sha2}.

Definition curve (c : Certificate) : res PkiError bytes :=
  p ← orelse (alg_params (spki_algorithm c)) "missing named EC curve";
  orelse (params_oid p) "EC parameters are not an object identifier".

Definition public_key (c : Certificate) : res PkiError bytes :=
  orelse (as_bytes (subject_public_key c)) "public key is not byte-aligned".

Definition key_usage (c : Certificate) : res PkiError KeyUsage :=
  g ← got (get_key_usage c);
  u ← orelse g "certificate lacks key usage";
  Ok u.2.

Definition check_null_or_absent (a : AlgorithmIdentifier) : res PkiError unit :=
  match alg_params a with
  | Some p => need (params_null p) "algorithm parameters must be absent or NULL"
  | None => Ok tt
  end.

Definition unsupported_constraint (oid : bytes) : bool :=
  existsb (bytes_eqb oid) [lit "2.5.29.30"; lit "2.5.29.33"; lit "2.5.29.36"; lit "2.5.29.54"].
Definition known_critical (oid : bytes) : bool :=
  existsb (bytes_eqb oid)
    [lit "2.5.29.19"; lit "2.5.29.15"; lit "2.5.29.37"; lit "2.5.29.14"; lit "2.5.29.35"].

Definition check_extension (seen : gset bytes) (e : Extension) : res PkiError (gset bytes) :=
  need (bool_decide (extn_id e ∉ seen)) "duplicate certificate extension";;
  need (negb (unsupported_constraint (extn_id e))) "unsupported name/policy constraints";;
  (if critical e
   then need (known_critical (extn_id e)) "unsupported critical certificate extension"
   else Ok tt);;
  Ok ({[extn_id e]} ∪ seen).

Definition check_key (c : Certificate) : res PkiError unit :=
  let a := spki_algorithm c in
  if bytes_eqb (alg_oid a) EC_KEY then
    oid ← curve c;
    if bytes_eqb oid P384_OID then
      k ← public_key c; orelse (from_sec1 p384 k) "invalid P-384 key";; Ok tt
    else if bytes_eqb oid P256_OID then
      k ← public_key c; orelse (from_sec1 p256 k) "invalid P-256 key";; Ok tt
    else Err (PkiMsg "unsupported EC curve")
  else if bytes_eqb (alg_oid a) RSA_KEY then
    check_null_or_absent a;;
    bits ← orelse (rsa_bits (spki_der c)) "invalid RSA key";
    need ((3072 <=? bits) && (bits <=? 8192)) "RSA key outside supported 3072-8192 bit range"
  else Err (PkiMsg "unsupported certificate public-key algorithm").

Definition check_certificate (c : Certificate) (now : N) : res PkiError unit :=
  need (bool_decide (cert_version c = V3)) "only X.509 v3 certificates are supported";;
  need (negb (has_unique_ids c)) "unique identifiers are outside the supported PKIX profile";;
  need (not_before c <=? now) "certificate is not yet valid";;
  need (now <=? not_after c) "certificate has expired";;
  need (bool_decide (tbs_signature c = signature_algorithm c))
    "certificate inner/outer signature algorithms differ";;
  need (negb (blen (subject c) =? 0)) "empty certificate subject is unsupported";;
  for_each check_extension ∅ (extensions c);;
  bc ← got (get_basic_constraints c);
  match bc with
  | Some (_, bc) => need (ca bc || bool_decide (path_len_constraint bc = None))
                      "path length on non-CA certificate"
  | None => Ok tt
  end;;
  ku ← got (get_key_usage c);
  match ku with
  | Some (_, u) => need (negb (encipher_only u || decipher_only u) || key_agreement u)
                     "encipherOnly/decipherOnly requires keyAgreement"
  | None => Ok tt
  end;;
  eku ← got (get_eku c);
  match eku with
  | Some (_, oids) =>
    need (negb (blen oids =? 0)) "empty extended key usage";;
    need (existsb (fun oid => bytes_eqb oid (lit "2.5.29.37.0")) oids)
      "CPU certificate EKU excludes unrestricted attestation use"
  | None => Ok tt
  end;;
  got (get_aki c);;
  got (get_ski c);;
  check_key c.

Definition names_directory (n : Name) (g : GeneralName) : bool :=
  match g with DirectoryName m => bool_decide (m = n) | OtherName => false end.

Definition check_authority_key_id (aki : AuthorityKeyIdentifier) (iss : Certificate) :
    res PkiError unit :=
  match key_identifier aki with
  | Some key_id =>
    g ← got (get_ski iss);
    ski ← orelse g "AKI present but issuer lacks SKI";
    need (bytes_eqb key_id ski.2) "authority key identifier mismatch"
  | None => Ok tt
  end;;
  need (Bool.eqb (bool_decide (is_Some (authority_cert_issuer aki)))
          (bool_decide (is_Some (authority_cert_serial_number aki))))
    "authority issuer and serial must occur together";;
  match authority_cert_serial_number aki with
  | Some serial => need (bytes_eqb serial (serial_number iss)) "authority serial mismatch"
  | None => Ok tt
  end;;
  match authority_cert_issuer aki with
  | Some names => need (existsb (names_directory (issuer iss)) names) "authority issuer name mismatch"
  | None => Ok tt
  end.

(** RSA-PSS with the parameters AMD uses. *)
Definition check_null_params (p : option AlgParams) : res PkiError unit :=
  match p with Some p => need (params_null p) "RSA-PSS hash parameters are not NULL" | None => Ok tt end.
Definition verify_pss (iss : Certificate) (a : AlgorithmIdentifier) (signed sig : bytes) :
    res PkiError unit :=
  need (bytes_eqb (alg_oid (spki_algorithm iss)) RSA_KEY) "RSA-PSS requires RSA key";;
  encoded ← orelse (alg_params a) "missing RSA-PSS parameters";
  ps ← orelse (pss_from_der (params_der encoded)) "invalid RSA-PSS parameters";
  need (bytes_eqb (alg_oid (pss_hash ps)) (lit "2.16.840.1.101.3.4.2.2")
        && bytes_eqb (pss_mask_gen_oid ps) (lit "1.2.840.113549.1.1.8")
        && (pss_salt_len ps =? 48)) "unsupported AMD RSA-PSS parameters";;
  mgf ← orelse (pss_mgf ps) "missing RSA-PSS MGF hash";
  need (bytes_eqb (alg_oid mgf) (alg_oid (pss_hash ps))) "RSA-PSS MGF/hash mismatch";;
  check_null_params (alg_params (pss_hash ps));;
  check_null_params (alg_params mgf);;
  bits ← orelse (rsa_bits (spki_der iss)) "invalid RSA key";
  need ((3072 <=? bits) && (bits <=? 8192)) "RSA key outside supported range";;
  need (rsa_pss_verify (spki_der iss) (sha384 signed) sig) "RSA-PSS verification failed".

Definition ecdsa_digest (oid signed : bytes) : option bytes :=
  if bytes_eqb oid (lit "1.2.840.10045.4.3.2") then Some (sha256 signed)
  else if bytes_eqb oid (lit "1.2.840.10045.4.3.3") then Some (sha384 signed)
  else if bytes_eqb oid (lit "1.2.840.10045.4.3.4") then Some (sha512 signed)
  else None.
Definition verify_ecdsa (e : Ecdsa) (iss : Certificate) (digest sig : bytes) : res PkiError unit :=
  k ← public_key iss;
  p ← orelse (from_sec1 e k) "invalid EC key";
  s ← orelse (sig_from_der e sig) "invalid ECDSA signature";
  need (verify_prehash e p digest s) "ECDSA verification failed".

Definition verify_signature (iss : Certificate) (a : AlgorithmIdentifier) (signed sig : bytes) :
    res PkiError unit :=
  if bytes_eqb (alg_oid a) RSA_PSS then verify_pss iss a signed sig
  else
    digest ← orelse (ecdsa_digest (alg_oid a) signed) "unsupported CPU signature algorithm";
    need (bool_decide (alg_params a = None)) "ECDSA signature parameters must be absent";;
    need (bytes_eqb (alg_oid (spki_algorithm iss)) EC_KEY) "ECDSA signature requires EC key";;
    oid ← curve iss;
    if bytes_eqb oid P256_OID then verify_ecdsa p256 iss digest sig
    else if bytes_eqb oid P384_OID then verify_ecdsa p384 iss digest sig
    else Err (PkiMsg "unsupported CPU signature curve").

Definition verify_certificate_signature (c iss : Certificate) : res PkiError unit :=
  need (bool_decide (issuer c = subject iss)) "certificate issuer/subject names differ";;
  aki ← got (get_aki c);
  match aki with
  | Some (_, aki) => check_authority_key_id aki iss
  | None => Ok tt
  end;;
  need (bool_decide (tbs_signature c = signature_algorithm c))
    "certificate inner/outer signature algorithms differ";;
  sig ← orelse (as_bytes (cert_signature c)) "certificate signature is not byte-aligned";
  verify_signature iss (signature_algorithm c) (tbs_der c) sig.

(** ** Paths *)
Record PathState : Type := { total : N; seen_certs : gset bytes; certs : list Certificate }.
Definition decode_cert (st : PathState) (b : bytes) : res PkiError PathState :=
  t ← orelse (checked_add usize_max (total st) (blen b)) "certificate size overflow";
  need (negb (blen b =? 0) && (t <=? MAX_CHAIN_BYTES)) "CPU certificate path size outside limit";;
  need (bool_decide (b ∉ seen_certs st)) "duplicate CPU certificate";;
  c ← orelse (cert_from_der b) "invalid certificate";
  Ok {| total := t; seen_certs := {[b]} ∪ seen_certs st; certs := certs st ++ [c] |}.

Definition check_leaf (c : Certificate) (leaf_curve : Curve) : res PkiError unit :=
  ku ← got (get_key_usage c);
  match ku with
  | Some (_, u) => need (digital_signature u && negb (key_cert_sign u))
                     "CPU leaf must permit digitalSignature and not keyCertSign"
  | None => need (bool_decide (leaf_curve = AmdEndorsement)) "CPU signing leaf lacks key usage"
  end;;
  bc ← got (get_basic_constraints c);
  match bc with
  | Some (_, bc) => need (negb (ca bc)) "CPU signing leaf must not be a CA"
  | None => Ok tt
  end;;
  need (bytes_eqb (alg_oid (spki_algorithm c)) EC_KEY) "CPU leaf must use EC";;
  oid ← curve c;
  need (bytes_eqb oid (match leaf_curve with P256 => P256_OID | _ => P384_OID end))
    "CPU signing leaf curve mismatch".

(** Certificates below an issuer that are not self-issued. *)
Definition not_self_issued (c : Certificate) : bool := negb (bool_decide (issuer c = subject c)).

Definition check_issuer (all : list Certificate) (i : N) (c : Certificate) : res PkiError unit :=
  g ← got (get_basic_constraints c);
  bc ← orelse g "CPU issuer lacks basicConstraints";
  (if bc.1 && ca bc.2 then
     u ← key_usage c;
     need (key_cert_sign u) "CPU issuer lacks critical CA/keyCertSign authorization"
   else Err (PkiMsg "CPU issuer lacks critical CA/keyCertSign authorization"));;
  match path_len_constraint bc.2 with
  | Some limit =>
    between ← index_range all 1 i;
    need (blen (filter (fun c => not_self_issued c = true) between) <=? limit) "CPU CA path length exceeded"
  | None => Ok tt
  end;;
  below ← index all (i - 1);
  verify_certificate_signature below c.

Definition check_path_cert (all : list Certificate) (now : N) (leaf_curve : Curve)
    (i : N) (c : Certificate) : res PkiError N :=
  check_certificate c now;;
  (if i =? 0 then check_leaf c leaf_curve else check_issuer all i c);;
  Ok (i + 1).

Definition validate_chain (leaf_first : list bytes) (pinned_sha256 : bytes) (now : N)
    (leaf_curve : Curve) : res PkiError (list Certificate) :=
  need ((2 <=? blen leaf_first) && (blen leaf_first <=? MAX_CHAIN_CERTS))
    "CPU certificate path depth outside limit";;
  st ← for_each decode_cert {| total := 0; seen_certs := ∅; certs := [] |} leaf_first;
  root_der ← unwrap (last leaf_first);
  need (bytes_eqb (hex_encode (sha256 root_der)) pinned_sha256)
    "CPU certificate root fingerprint mismatch";;
  for_each (check_path_cert (certs st) now leaf_curve) 0 (certs st);;
  root ← unwrap (last (certs st));
  need (bool_decide (issuer root = subject root)) "CPU pinned root is not self-issued";;
  verify_certificate_signature root root;;
  Ok (certs st).
End Checks.

(** ** What the checks decide *)
Ltac pki := unfold got, orelse, need in *.

Section Safety.
Context `{X : X509} `{K : CpuCrypto} `{H : Sha2}.

Ltac go :=
  repeat first
    [ progress (pki; wp)
    | match goal with
      | |- safe (match ?x with _ => _ end) _ => destruct x
      | |- safe (if ?x then _ else _) _ => destruct x
      | |- safe (match ?x with _ => _ end ≫= _) _ => apply safe_bind
      end
    | done ].

Lemma curve_safe c : safe (curve c) (fun _ => True).
Proof. unfold curve. go. Qed.
Lemma public_key_safe c : safe (public_key c) (fun _ => True).
Proof. unfold public_key. go. Qed.
Lemma key_usage_safe c : safe (key_usage c) (fun _ => True).
Proof. unfold key_usage. go. Qed.

Lemma check_key_safe c : safe (check_key c) (fun _ => True).
Proof. unfold check_key, curve, public_key, check_null_or_absent. go. Qed.

Lemma check_extensions_decides l :
  decides (for_each check_extension ∅ l)
    (NoDup (extn_id <$> l) /\ forall e, e ∈ l ->
       unsupported_constraint (extn_id e) = false /\ (critical e = true -> known_critical (extn_id e) = true))
    (fun s => s = list_to_set (extn_id <$> l)).
Proof.
  apply for_each_seen. intros s e _. unfold check_extension. pki.
  destruct (bool_decide_reflect (extn_id e ∉ s)); simpl; [|naive_solver].
  destruct (unsupported_constraint _); simpl; [naive_solver|].
  destruct (critical e); simpl; [|naive_solver].
  destruct (known_critical _); simpl; naive_solver.
Qed.

Lemma check_certificate_safe c now : safe (check_certificate c now) (fun _ => True).
Proof.
  unfold check_certificate. pki. wp.
  eapply safe_mono; [eapply decides_safe, check_extensions_decides|intros _ _ _].
  go. all: try apply check_key_safe.
Qed.

Lemma check_authority_key_id_safe aki iss : safe (check_authority_key_id aki iss) (fun _ => True).
Proof. unfold check_authority_key_id. go. Qed.

Lemma verify_signature_safe iss a m s : safe (verify_signature iss a m s) (fun _ => True).
Proof.
  unfold verify_signature, verify_pss, check_null_params, verify_ecdsa, curve, public_key. go.
Qed.

Lemma verify_certificate_signature_safe c iss :
  safe (verify_certificate_signature c iss) (fun _ => True).
Proof.
  unfold verify_certificate_signature. go; try apply verify_signature_safe.
  eapply safe_mono; [apply check_authority_key_id_safe|]. intros; go. apply verify_signature_safe.
Qed.

Lemma check_leaf_safe c lc : safe (check_leaf c lc) (fun _ => True).
Proof. unfold check_leaf, curve. go. Qed.
End Safety.

(** ** Certificate paths, declaratively *)
Section PathSpec.
Context `{X : X509} `{K : CpuCrypto} `{H : Sha2}.

(** [iss] issued [c]: the names meet and the key of [iss] verifies the signature. *)
Definition issued_by (c iss : Certificate) : Prop := verify_certificate_signature c iss = Ok tt.

(** A certificate that may issue others, with [below] intermediates under it. *)
Record may_issue (below : N) (c : Certificate) : Prop := {
  mi_ca : exists bc, get_basic_constraints c = Some (Some (true, bc)) /\ ca bc = true /\
            (forall limit, path_len_constraint bc = Some limit -> below <= limit);
  mi_sign : exists b u, get_key_usage c = Some (Some (b, u)) /\ key_cert_sign u = true;
}.

Definition count_if (b : bool) : N := if b then 1 else 0.

(** A path from its first certificate, which is not an issuer itself, up to a
    self-issued root; [below] intermediates have been passed. *)
Inductive signed_path (now : N) : N -> list Certificate -> Prop :=
| path_root below c :
    check_certificate c now = Ok tt -> issuer c = subject c -> issued_by c c ->
    signed_path now below [c]
| path_step below c d cs :
    check_certificate c now = Ok tt -> issued_by c d -> may_issue below d ->
    signed_path now (below + count_if (not_self_issued d)) (d :: cs) ->
    signed_path now below (c :: d :: cs).

(** The same without the root's own signature, as the loop checks it. *)
Fixpoint links (now below : N) (c : Certificate) (cs : list Certificate) : Prop :=
  match cs with
  | [] => True
  | d :: cs =>
    check_certificate d now = Ok tt /\ may_issue below d /\ issued_by c d /\
    links now (below + count_if (not_self_issued d)) d cs
  end.

Lemma signed_path_links now below c cs r :
  last (c :: cs) = Some r ->
  signed_path now below (c :: cs) <->
  (check_certificate c now = Ok tt /\ links now below c cs /\ issuer r = subject r /\ issued_by r r).
Proof.
  revert below c; induction cs as [|d cs IH]; intros below c Hl.
  - simplify_eq/=. split; [by inversion_clear 1|]. intros (? & _ & ? & ?). by constructor.
  - change (last (d :: cs) = Some r) in Hl. cbn [links]. split.
    + inversion_clear 1 as [|? ? ? ? ? ? ? Hp]. apply (IH _ _ Hl) in Hp. naive_solver.
    + intros (? & (? & ? & ? & ?) & ? & ?). constructor; [done..|]. by apply (IH _ _ Hl).
Qed.

Definition intermediates (l : list Certificate) : N :=
  blen (filter (fun c => not_self_issued c = true) l).
Lemma intermediates_snoc l d : intermediates (l ++ [d]) = intermediates l + count_if (not_self_issued d).
Proof.
  unfold intermediates. rewrite filter_app, blen_app. f_equal.
  rewrite filter_cons, filter_nil. by destruct (not_self_issued d).
Qed.

Lemma check_issuer_decides all i d mid below c0 :
  get_range all 1 i = Some mid -> get all (i - 1) = Some below -> c0 = below ->
  decides (check_issuer all i d) (may_issue (intermediates mid) d /\ issued_by c0 d) (fun _ => True).
Proof.
  intros Hmid Hb ->. unfold check_issuer, index_range, index, key_usage. pki. rewrite Hmid, Hb.
  destruct (get_basic_constraints d) as [[[crit bc]|]|] eqn:Ebc; cycle 1.
  1,2: by intros [[(? & ? & _) _] _]; congruence.
  cbn [mbind res_bind ok_or fst snd unwrap].
  destruct crit; cycle 1. { by intros [[(? & ? & _) _] _]; congruence. }
  destruct (ca bc) eqn:Eca; cycle 1. { intros [[(? & ? & ? & _) _] _]; congruence. }
  destruct (get_key_usage d) as [[[b u]|]|] eqn:Eu; cycle 1.
  1,2: by intros [[_ (? & ? & ? & _)] _]; congruence.
  simpl. destruct (key_cert_sign u) eqn:Es; cycle 1.
  { intros [[_ (? & ? & ? & ?)] _]; congruence. }
  assert (forall l, (forall limit, path_len_constraint bc = Some limit -> l <= limit) ->
    may_issue l d) as Hmi by (intros; split; eauto 6).
  pose proof (decides_unit _ (verify_certificate_signature_safe below d)) as Hs.
  fold (issued_by below d) in Hs.
  destruct (path_len_constraint bc) as [limit|] eqn:El; simpl.
  - unfold ensure. destruct (N.leb_spec (blen (filter (fun c => not_self_issued c = true) mid)) limit); simpl.
    + eapply decides_iff; [exact Hs| |done]. split; [|tauto]. intros; split; [|done]. apply Hmi. intros ? [= <-]. done.
    + intros [[(? & ? & ? & Hl) _] _]. simplify_eq. apply Hl in El. unfold intermediates in *. lia.
  - eapply decides_iff; [exact Hs| |done]. split; [|tauto]. intros; split; [|done]. by apply Hmi.
Qed.

Lemma loop_decides now lc c0 mid suf prev :
  last (c0 :: mid) = Some prev ->
  decides (for_each (check_path_cert (c0 :: mid ++ suf) now lc) (1 + blen mid) suf)
    (links now (intermediates mid) prev suf) (fun _ => True).
Proof.
  revert mid prev; induction suf as [|d suf IH]; intros mid prev Hl; [done|].
  cbn [for_each links]. unfold check_path_cert at 2.
  assert (1 + blen mid =? 0 = false) as -> by (apply N.eqb_neq; lia).
  pose proof (decides_unit _ (check_certificate_safe d now)) as Hc.
  destruct (check_certificate d now) as [[]|e| |] eqn:Ec; [|simpl; naive_solver|done..].
  assert (decides (check_issuer (c0 :: mid ++ d :: suf) (1 + blen mid) d)
    (may_issue (intermediates mid) d /\ issued_by prev d) (fun _ => True)) as Hi.
  { eapply check_issuer_decides; [| |done].
    - apply (get_range_app [c0] mid (d :: suf)).
    - apply last_Some in Hl as [pre Hl]. change (c0 :: mid ++ d :: suf) with ((c0 :: mid) ++ d :: suf).
      rewrite Hl. rewrite <- app_assoc. assert (1 + blen mid - 1 = blen pre) as ->.
      { assert (blen (c0 :: mid) = blen (pre ++ [prev])) as He by (by rewrite Hl).
        rewrite blen_cons, blen_app in He. change (blen [prev]) with 1 in He. lia. }
      apply get_app_blen. }
  cbn [mbind res_bind].
  destruct (check_issuer _ _ _) as [[]|e| |]; [|simpl in *; naive_solver|done..].
  cbn [mbind res_bind]. destruct Hi as [[Hm Hi] _].
  specialize (IH (mid ++ [d]) d). rewrite <- app_assoc, intermediates_snoc, blen_app in IH.
  eapply decides_iff; [rewrite <- N.add_assoc; apply IH; by rewrite app_comm_cons, last_snoc| |done].
  naive_solver.
Qed.

(** ** The whole path *)
Definition total_size (l : list bytes) : N := foldr (fun b n => blen b + n) 0 l.
Lemma total_size_app a b : total_size (a ++ b) = total_size a + total_size b.
Proof. induction a as [|x a IH]; simpl; [done|]. rewrite IH. lia. Qed.

Definition decoded (b : bytes) (c : Certificate) : Prop := cert_from_der b = Some c.

(** Input certificates within the limits, without repetition, each of them parsed. *)
Record decodable (l : list bytes) : Prop := {
  dec_size : total_size l <= MAX_CHAIN_BYTES;
  dec_nonempty : forall b, b ∈ l -> b <> [];
  dec_nodup : NoDup l;
  dec_parsed : forall b, b ∈ l -> is_Some (cert_from_der b);
}.

Lemma decode_step pre b st :
  total st = total_size pre -> seen_certs st = list_to_set pre -> Forall2 decoded pre (certs st) ->
  decides (decode_cert st b)
    (total_size (pre ++ [b]) <= MAX_CHAIN_BYTES /\ b <> [] /\ b ∉ pre /\ is_Some (cert_from_der b))
    (fun st' => total st' = total_size (pre ++ [b]) /\ seen_certs st' = list_to_set (pre ++ [b])
                /\ Forall2 decoded (pre ++ [b]) (certs st')).
Proof.
  intros Ht Hs Hc. unfold decode_cert. pki. rewrite Ht, Hs, total_size_app.
  assert (total_size [b] = blen b) as -> by (cbn; lia).
  destruct (checked_add _ _ _) as [t|] eqn:Ea; simpl; cycle 1.
  { apply checked_add_None in Ea. unfold MAX_CHAIN_BYTES, usize_max, u64_max in *. lia. }
  apply checked_add_Some in Ea as [-> _].
  destruct (N.eqb_spec (blen b) 0) as [Hb|Hb]; simpl.
  { apply blen_0 in Hb. naive_solver. }
  assert (b <> []) by (by intros ->). 
  destruct (N.leb_spec (total_size pre + blen b) MAX_CHAIN_BYTES); simpl; [|lia].
  destruct (bool_decide_reflect (b ∉ list_to_set (C := gset bytes) pre)) as [Hn|Hn];
    rewrite elem_of_list_to_set in Hn; simpl; [|naive_solver].
  destruct (cert_from_der b) as [c|] eqn:Ec; simpl; [|intros (_ & _ & _ & [? ?]); done].
  split; [eauto|]. split_and!; [done| |].
  - rewrite list_to_set_app_L. set_solver.
  - by apply Forall2_app; [|constructor].
Qed.

Lemma decode_decides l :
  decides (for_each decode_cert {| total := 0; seen_certs := ∅; certs := [] |} l)
    (decodable l) (fun st => Forall2 decoded l (certs st)).
Proof.
  eapply decides_iff.
  - eapply (decides_for_each decode_cert
      (fun pre st => total st = total_size pre /\ seen_certs st = list_to_set pre
                     /\ Forall2 decoded pre (certs st))).
    + split_and!; [done..|constructor].
    + intros pre b post st _ (? & ? & ?). by apply decode_step.
  - split.
    + intros HP. assert (forall b, b ∈ l -> b <> [] /\ is_Some (cert_from_der b)) as Hb.
      { apply forall_split. intros ??? E. by destruct (HP _ _ _ E) as (_ & ? & _ & ?). }
      split; [|naive_solver| |naive_solver].
      * destruct l as [|b pre _] using rev_ind; [by cbn|]. by destruct (HP pre b [] eq_refl).
      * rewrite <- (list_fmap_id l). eapply nodup_by_prefix. intros pre b post ->.
        rewrite list_fmap_id. by destruct (HP pre b post eq_refl) as (_ & _ & ? & _).
    + intros [Hsz Hne Hnd Hp] pre b post ->. split_and!.
      * rewrite !total_size_app in *. cbn in *. lia.
      * apply Hne. set_solver.
      * apply NoDup_app in Hnd as (_ & Hnd & _). set_solver.
      * apply Hp. set_solver.
  - naive_solver.
Qed.

(** The paths that the code accepts, with the certificates they decode to. *)
Record accepted_path (leaf_first : list bytes) (pin : bytes) (now : N) (lc : Curve)
    (cs : list Certificate) : Prop := {
  ap_depth : 2 <= blen leaf_first <= MAX_CHAIN_CERTS;
  ap_input : decodable leaf_first;
  ap_certs : Forall2 decoded leaf_first cs;
  ap_pin : exists root, last leaf_first = Some root /\ hex_encode (sha256 root) = pin;
  ap_leaf : exists leaf, head cs = Some leaf /\ check_leaf leaf lc = Ok tt;
  ap_path : signed_path now 0 cs;
}.

Lemma loop_decides_all now lc c0 cs :
  decides (for_each (check_path_cert (c0 :: cs) now lc) 0 (c0 :: cs))
    (check_certificate c0 now = Ok tt /\ check_leaf c0 lc = Ok tt /\ links now 0 c0 cs)
    (fun _ => True).
Proof.
  cbn [for_each]. unfold check_path_cert at 2. cbn [N.eqb].
  pose proof (decides_unit _ (check_certificate_safe c0 now)) as Hc.
  destruct (check_certificate c0 now) as [[]|e| |]; [|simpl; naive_solver|done..].
  pose proof (decides_unit _ (check_leaf_safe c0 lc)) as Hl. cbn [mbind res_bind].
  destruct (check_leaf c0 lc) as [[]|e| |]; [|simpl; naive_solver|done..]. cbn [mbind res_bind].
  eapply decides_iff; [by apply (loop_decides now lc c0 [] cs)| |done].
  change (intermediates []) with 0. naive_solver.
Qed.

Lemma Forall2_last {A B} (R : A -> B -> Prop) l k x :
  Forall2 R l k -> last l = Some x -> exists y, last k = Some y /\ R x y.
Proof.
  intros Hf (pre & ->)%last_Some. apply Forall2_app_inv_l in Hf as (k1 & k2 & _ & Hk & ->).
  inversion Hk as [|? y ? ? ? Hn]; subst. inversion Hn. exists y. by rewrite last_snoc.
Qed.

Lemma path_checks_decides now lc c0 cs :
  decides (for_each (check_path_cert (c0 :: cs) now lc) 0 (c0 :: cs);;
           root ← unwrap (last (c0 :: cs));
           need (bool_decide (issuer root = subject root)) "CPU pinned root is not self-issued";;
           verify_certificate_signature root root;;
           Ok (c0 :: cs))
    (check_leaf c0 lc = Ok tt /\ signed_path now 0 (c0 :: cs)) (fun cs' => cs' = c0 :: cs).
Proof.
  destruct (last (c0 :: cs)) as [r|] eqn:Er; [|by rewrite last_None in Er].
  rewrite (signed_path_links now 0 c0 cs r Er).
  pose proof (loop_decides_all now lc c0 cs) as Hloop.
  destruct (for_each _ _ _) as [?|e| |]; [|simpl in *; tauto|done..].
  destruct Hloop as [Hloop _]. cbn [unwrap mbind res_bind]. pki. unfold ensure.
  case_bool_decide as Hs; simpl; [|tauto].
  pose proof (decides_unit _ (verify_certificate_signature_safe r r)) as Hv. fold (issued_by r r) in Hv.
  destruct (verify_certificate_signature r r) as [[]|e| |]; simpl in *; tauto.
Qed.

Lemma decoded_fun l cs cs' : Forall2 decoded l cs -> Forall2 decoded l cs' -> cs = cs'.
Proof.
  intros Hf. revert cs'; induction Hf as [|b c l cs Hb Hf IH]; intros cs' Hf'; inversion Hf' as [|? ? ? ? Hb' Hf'']; [done|].
  subst. f_equal; [unfold decoded in *; congruence|by apply IH].
Qed.

Lemma validate_chain_decides leaf_first pin now lc :
  decides (validate_chain leaf_first pin now lc)
    (exists cs, accepted_path leaf_first pin now lc cs)
    (accepted_path leaf_first pin now lc).
Proof.
  unfold validate_chain. pki.
  destruct (_ && _) eqn:Ed; simpl; cycle 1.
  { intros [cs [Hd _ _ _ _ _]]. apply andb_false_iff in Ed.
    rewrite !N.leb_gt in Ed. unfold MAX_CHAIN_CERTS in *. lia. }
  apply andb_true_iff in Ed as [Hd1%N.leb_le Hd2%N.leb_le].
  pose proof (decode_decides leaf_first) as Hdec.
  destruct (for_each decode_cert _ _) as [st|e| |]; [|simpl; by intros [cs []]|done..].
  destruct Hdec as [Hdec Hcs]. cbn [mbind res_bind].
  destruct leaf_first as [|b0 bs]; [done|].
  destruct (last (b0 :: bs)) as [rb|] eqn:Er; [|by rewrite last_None in Er].
  assert (forall cs, accepted_path (b0 :: bs) pin now lc cs -> cs = certs st) as Hu.
  { intros cs [_ _ Hcs' _ _ _]. by eapply decoded_fun. }
  cbn [unwrap mbind res_bind]. unfold ensure at 1.
  destruct (bytes_eqb _ _) eqn:Ep; simpl; cycle 1.
  { intros [cs' Ha]. destruct (ap_pin _ _ _ _ _ Ha) as (? & ? & ?). bools. congruence. }
  destruct (certs st) as [|c0 cs] eqn:Ec; [by inversion Hcs|]. bools.
  eapply decides_iff; [apply path_checks_decides| |]; cbv beta.
  - split.
    + intros []. exists (c0 :: cs). by constructor; eauto.
    + intros [cs' Ha]. pose proof (Hu _ Ha) as ->. by destruct Ha as [_ _ _ _ (? & [= <-] & ?) ?].
  - intros cs' _ [] ->. by constructor; eauto.
Qed.
(** C7: [validate_chain] neither panics nor diverges, and it accepts exactly the
    certificate paths of two to twelve distinct certificates within the size limit
    whose last certificate has the pinned SHA-256 fingerprint, whose first one is a
    signing leaf of the requested curve, and which form a [signed_path]: every
    certificate passes its own checks at time [now] and is signed by the next, every
    issuer is a critical CA with keyCertSign whose path-length limit covers the
    intermediates below it, and the root is self-issued and self-signed.  The result
    is the list of decoded certificates. *)
Theorem chain_validates_exact leaf_first pin now lc :
  decides (validate_chain leaf_first pin now lc)
    (exists cs, accepted_path leaf_first pin now lc cs)
    (accepted_path leaf_first pin now lc).
Proof. apply validate_chain_decides. Qed.
End PathSpec.

(** ** What acceptance means *)
Section Trust.
Context `{X : X509} `{K : CpuCrypto} `{H : Sha2}.

(** The key of [iss] signs [m] with [s]: ECDSA over a digest of [m] under one of the
    two curves, or RSA-PSS with a key of 3072 to 8192 bits. *)
Inductive signature_by (iss : Certificate) (a : AlgorithmIdentifier) (m s : bytes) : Prop :=
| by_ecdsa oid e key p sg d :
    curve iss = Ok oid -> (oid = P256_OID /\ e = p256 \/ oid = P384_OID /\ e = p384) ->
    as_bytes (subject_public_key iss) = Some key -> from_sec1 e key = Some p ->
    sig_from_der e s = Some sg -> ecdsa_digest (alg_oid a) m = Some d ->
    verify_prehash e p d sg = true -> signature_by iss a m s
| by_pss bits :
    alg_oid a = RSA_PSS -> alg_oid (spki_algorithm iss) = RSA_KEY ->
    rsa_bits (spki_der iss) = Some bits -> 3072 <= bits <= 8192 ->
    rsa_pss_verify (spki_der iss) (sha384 m) s = true -> signature_by iss a m s.

Lemma verify_signature_sound iss a m s :
  verify_signature iss a m s = Ok tt -> signature_by iss a m s.
Proof.
  unfold verify_signature. destruct (bytes_eqb (alg_oid a) RSA_PSS) eqn:Ea; intros Hv.
  - unfold verify_pss in Hv. pki. inv_res. bools. eapply by_pss; eauto.
  - pki. apply bind_Ok in Hv as (d & Hd%ok_or_Ok & Hv).
    apply bind_Ok in Hv as (_ & _ & Hv). apply bind_Ok in Hv as (_ & _ & Hv).
    apply bind_Ok in Hv as (oid & Hoid & Hv).
    destruct (bytes_eqb oid P256_OID) eqn:E1; [|destruct (bytes_eqb oid P384_OID) eqn:E2; [|done]];
      unfold verify_ecdsa, public_key in Hv; pki; inv_res; bools; eapply by_ecdsa; eauto.
Qed.

Lemma verify_certificate_signature_sound c iss :
  issued_by c iss ->
  issuer c = subject iss /\
  exists sig, as_bytes (cert_signature c) = Some sig /\ signature_by iss (signature_algorithm c) (tbs_der c) sig.
Proof.
  unfold issued_by, verify_certificate_signature. pki. intros Hv. inv_res. bools.
  split; [done|]. eexists; split; [done|]. by apply verify_signature_sound.
Qed.

Definition valid_at (now : N) (c : Certificate) : Prop := not_before c <= now <= not_after c.
Lemma check_certificate_dates c now : check_certificate c now = Ok tt -> valid_at now c.
Proof.
  unfold check_certificate. pki. intros Hv.
  do 4 (apply bind_Ok in Hv as ([] & ?%ensure_Ok & Hv)). unfold valid_at. bools. lia.
Qed.

(** Everything between a certificate and its issuer. *)
Definition vouched (c iss : Certificate) : Prop :=
  issuer c = subject iss /\
  (exists bc, get_basic_constraints iss = Some (Some (true, bc)) /\ ca bc = true) /\
  (exists b u, get_key_usage iss = Some (Some (b, u)) /\ key_cert_sign u = true) /\
  exists sig, as_bytes (cert_signature c) = Some sig /\ signature_by iss (signature_algorithm c) (tbs_der c) sig.

Lemma signed_path_sound now below cs :
  signed_path now below cs ->
  (forall c, c ∈ cs -> valid_at now c) /\
  (forall i c d, cs !! i = Some c -> cs !! S i = Some d -> vouched c d).
Proof.
  induction 1 as [below c Hc Hs Hi|below c d cs Hc Hi [(bc & ? & ? & _) ?] Hp [IHv IHl]].
  - split; [|by intros [|i]]. intros ? ->%list_elem_of_singleton. by apply check_certificate_dates.
  - split.
    + intros e [->|He]%elem_of_cons; [by apply check_certificate_dates|auto].
    + intros [|i] e f He Hf; [|by eapply (IHl i)]. simplify_eq/=.
      apply verify_certificate_signature_sound in Hi as [? ?]. by split_and!; eauto.
Qed.

(** A path that [validate_chain] returns carries trust from the pinned root to the
    leaf: every certificate is within its validity period, every certificate is
    vouched for by the next one (the names meet, the issuer is a critical CA with
    keyCertSign, and its public key verifies the signature over the certificate's TBS
    bytes), and any other path accepted under the same pin, at any time and for any
    leaf curve, ends in the same root bytes unless the two roots collide under SHA-256. *)
Theorem chain_trust_sound leaf_first pin now lc cs :
  validate_chain leaf_first pin now lc = Ok cs ->
  (forall c, c ∈ cs -> valid_at now c) /\
  (forall i c d, cs !! i = Some c -> cs !! S i = Some d -> vouched c d) /\
  (forall other now' lc' cs', validate_chain other pin now' lc' = Ok cs' ->
     exists r r', last leaf_first = Some r /\ last other = Some r' /\ (r' = r \/ collision sha256 r r')).
Proof.
  intros Hv. destruct (safe_Ok _ _ _ (decides_safe _ _ _ (validate_chain_decides _ _ _ _)) Hv) as [_ Ha].
  destruct Ha as [_ _ _ (r & Hr & Hpin) _ Hp].
  apply signed_path_sound in Hp as [Hd Hl]. split_and!; [done..|].
  intros other now' lc' cs' Hv'.
  destruct (safe_Ok _ _ _ (decides_safe _ _ _ (validate_chain_decides _ _ _ _)) Hv') as [_ Ha].
  destruct Ha as [_ _ _ (r' & Hr' & Hpin') _ _].
  exists r, r'. split_and!; [done..|]. rewrite <- Hpin' in Hpin. apply (inj hex_encode) in Hpin.
  destruct (eq_or_collision _ _ _ Hpin) as [->|]; auto.
Qed.
End Trust.

(** ** A concrete instance: a P-256 leaf under a self-signed P-384 root *)
Definition toy_curve : Ecdsa := {|
  Point := bytes; EcSignature := bytes;
  from_sec1 := Some; sig_from_der := Some; sig_from_slice := Some;
  verify_prehash := fun k d s => starts_with (take 1 k ++ take 8 d) s |}.
Definition toy_cpu : CpuCrypto := {|
  p256 := toy_curve; p384 := toy_curve;
  rsa_bits := fun _ => None; rsa_pss_verify := fun _ _ _ => false |}.

Definition ecdsa_sha256 : AlgorithmIdentifier :=
  {| alg_oid := lit "1.2.840.10045.4.3.2"; alg_params := None |}.
Definition cn (name : string) : Name :=
  [[{| attr_oid := lit "2.5.4.3"; attr_tag := 12; attr_value := lit name |}]].
Definition ec_spki (curve_oid : bytes) : AlgorithmIdentifier :=
  {| alg_oid := EC_KEY;
     alg_params := Some {| params_der := []; params_oid := Some curve_oid; params_null := false |} |}.
Definition signing : KeyUsage :=
  {| digital_signature := true; key_agreement := false; key_cert_sign := false; crl_sign := false;
     encipher_only := false; decipher_only := false |}.
Definition issuing : KeyUsage :=
  {| digital_signature := false; key_agreement := false; key_cert_sign := true; crl_sign := true;
     encipher_only := false; decipher_only := false |}.

Definition sample_leaf : Certificate := {|
  cert_version := V3; serial_number := [x07]; tbs_signature := ecdsa_sha256;
  issuer := cn "root"; not_before := 10; not_after := 20; subject := cn "leaf";
  spki_algorithm := ec_spki P256_OID; spki_der := []; subject_public_key := octets [x0a];
  has_unique_ids := false; extensions := [];
  get_basic_constraints := Some None; get_key_usage := Some (Some (true, signing));
  get_eku := Some None; get_aki := Some None; get_ski := Some None; tbs_der := [x01];
  signature_algorithm := ecdsa_sha256; cert_signature := octets (x0b :: sha256 (Sha2 := toy_sha2) [x01]) |}.
Definition sample_root : Certificate := {|
  cert_version := V3; serial_number := [x08]; tbs_signature := ecdsa_sha256;
  issuer := cn "root"; not_before := 0; not_after := 99; subject := cn "root";
  spki_algorithm := ec_spki P384_OID; spki_der := []; subject_public_key := octets [x0b];
  has_unique_ids := false; extensions := [];
  get_basic_constraints := Some (Some (true, {| ca := true; path_len_constraint := Some 0 |}));
  get_key_usage := Some (Some (true, issuing));
  get_eku := Some None; get_aki := Some None; get_ski := Some None; tbs_der := [x12];
  signature_algorithm := ecdsa_sha256; cert_signature := octets (x0b :: sha256 (Sha2 := toy_sha2) [x12]) |}.

(** A list of the root, and one that revokes the leaf. *)
Definition sample_crl (revoked : list RevokedCert) : CertificateList := {|
  crl_version := V2; crl_tbs_signature := ecdsa_sha256; crl_issuer := cn "root";
  this_update := 5; next_update := Some 30; revoked_certificates := revoked;
  crl_extensions := []; crl_tbs_der := [x03];
  crl_signature_algorithm := ecdsa_sha256; crl_signature := octets (x0b :: sha256 (Sha2 := toy_sha2) [x03]) |}.

Definition toy_x509 : X509 := {|
  cert_from_der := fun b =>
    if bytes_eqb b [x01] then Some sample_leaf else if bytes_eqb b [x02] then Some sample_root else None;
  crl_from_der := fun b =>
    if bytes_eqb b [x03] then Some (sample_crl [{| revoked_serial := [x09]; crl_entry_extensions := [] |}])
    else if bytes_eqb b [x04] then Some (sample_crl [{| revoked_serial := [x07]; crl_entry_extensions := [] |}])
    else None;
  aki_from_der := fun _ => None; crl_number_ok := fun _ => false;
  crl_reason_remove := fun _ => None; generalized_time_ok := fun _ => false; pss_from_der := fun _ => None;
  base64_decode := fun t => if bytes_eqb t (lit "AQ==") then Some [x01]
                            else if bytes_eqb t (lit "Ag==") then Some [x02] else None |}.
Definition sample_pin : bytes := hex_encode (sha256 (Sha2 := toy_sha2) [x02]).

(** The sample path is accepted inside the leaf's validity and rejected after it. *)
Example sample_chain_accepted :
  validate_chain (X := toy_x509) (K := toy_cpu) (H := toy_sha2) [[x01]; [x02]] sample_pin 15 P256
  = Ok [sample_leaf; sample_root].
Proof. vm_compute. reflexivity. Qed.
Example sample_chain_expired :
  validate_chain (X := toy_x509) (K := toy_cpu) (H := toy_sha2) [[x01]; [x02]] sample_pin 21 P256
  = Err (PkiMsg "certificate has expired").
Proof. vm_compute. reflexivity. Qed.

Lemma chain_trust_sound_witness :
  valid_at 15 sample_leaf /\ vouched (K := toy_cpu) (H := toy_sha2) sample_leaf sample_root.
Proof.
  destruct (chain_trust_sound (X := toy_x509) (K := toy_cpu) (H := toy_sha2)
    [[x01]; [x02]] sample_pin 15 P256 [sample_leaf; sample_root] sample_chain_accepted) as (Hv & Hl & _).
  split; [apply Hv; left|by apply (Hl 0%nat)].
Defined.
