(* ===== verification/Crl.v ===== *)
(** * Crl: revocation lists of [src/v2/src/quote/pki.rs]

    [check_crl] rejects a certificate that its issuer has revoked.  The list must be
    complete: every extension that would narrow its scope is refused.
    [crl_check_exact] characterises the accepted lists by the record [clears]. *)
From S2P Require Import Prelude Bytes Text Crypto Pki.

Section Crl.
Context `{X : X509} `{K : CpuCrypto} `{H : Sha2}.
Definition check_dates (this next now : N) : res PkiError unit :=
  need (this <? next) "revocation nextUpdate must follow thisUpdate";;
  need (this <=? now) "revocation thisUpdate is in the future";;
  need (now <? next) "revocation evidence has expired".

Definition check_crl_extension (allowed : list bytes) (seen : gset bytes) (e : Extension) :
    res PkiError (gset bytes) :=
  need (bool_decide (extn_id e ∉ seen)) "duplicate revocation extension";;
  need (negb (critical e) || existsb (bytes_eqb (extn_id e)) allowed)
    "unsupported critical revocation extension";;
  Ok ({[extn_id e]} ∪ seen).
Definition check_extensions (exts : list Extension) (allowed : list bytes) : res PkiError unit :=
  for_each (check_crl_extension allowed) ∅ exts;; Ok tt.

Definition crl_list_extension (iss : Certificate) (_ : unit) (e : Extension) : res PkiError unit :=
  if bytes_eqb (extn_id e) (lit "2.5.29.35") then
    aki ← orelse (aki_from_der (extn_value e)) "invalid authority key identifier";
    check_authority_key_id aki iss
  else if bytes_eqb (extn_id e) (lit "2.5.29.20") then
    need (crl_number_ok (extn_value e)) "invalid CRL number"
  else if existsb (bytes_eqb (extn_id e)) [lit "2.5.29.27"; lit "2.5.29.28"; lit "2.5.29.46"] then
    Err (PkiMsg "delta, scoped, indirect or delta-advertising CRLs are unsupported")
  else Err (PkiMsg "unsupported CRL extension").

Definition crl_entry_extension (_ : unit) (e : Extension) : res PkiError unit :=
  if bytes_eqb (extn_id e) (lit "2.5.29.21") then
    remove ← orelse (crl_reason_remove (extn_value e)) "invalid CRL reason";
    need (negb remove) "removeFromCRL is only valid in delta CRLs"
  else if bytes_eqb (extn_id e) (lit "2.5.29.24") then
    need (generalized_time_ok (extn_value e)) "invalid invalidity date"
  else Err (PkiMsg "unsupported CRL entry extension").

Definition check_revoked (subj : Certificate) (serials : gset bytes) (r : RevokedCert) :
    res PkiError (gset bytes) :=
  need (bool_decide (revoked_serial r ∉ serials)) "duplicate revoked serial in CRL";;
  check_extensions (crl_entry_extensions r) [lit "2.5.29.21"; lit "2.5.29.24"];;
  for_each crl_entry_extension tt (crl_entry_extensions r);;
  reject_if (bytes_eqb (revoked_serial r) (serial_number subj))
    (PkiMsg "certificate is revoked by CRL");;
  Ok ({[revoked_serial r]} ∪ serials).

Definition check_crl (crl_der : bytes) (subj iss : Certificate) (now : N) : res PkiError unit :=
  need (negb (blen crl_der =? 0) && (blen crl_der <=? 4 * 1024 * 1024)) "CPU CRL size outside limit";;
  crl ← orelse (crl_from_der crl_der) "invalid CRL";
  need (bool_decide (crl_version crl = V2)) "only X.509 v2 CRLs are supported";;
  need (bool_decide (crl_issuer crl = subject iss) && bool_decide (issuer subj = subject iss))
    "CRL issuer mismatch";;
  u ← key_usage iss;
  need (crl_sign u) "CRL issuer lacks cRLSign";;
  need (bool_decide (crl_tbs_signature crl = crl_signature_algorithm crl))
    "CRL inner/outer signature algorithms differ";;
  next ← orelse (next_update crl) "CRL nextUpdate is required";
  check_dates (this_update crl) next now;;
  check_extensions (crl_extensions crl) [lit "2.5.29.35"; lit "2.5.29.20"];;
  for_each (crl_list_extension iss) tt (crl_extensions crl);;
  sig ← orelse (as_bytes (crl_signature crl)) "CRL signature is not byte-aligned";
  verify_signature iss (crl_signature_algorithm crl) (crl_tbs_der crl) sig;;
  for_each (check_revoked subj) ∅ (revoked_certificates crl);;
  Ok tt.
End Crl.

(** ** Revocation lists *)
Section CrlSpec.
Context `{X : X509} `{K : CpuCrypto} `{H : Sha2}.

Definition OID_AKI : bytes := lit "2.5.29.35".
Definition OID_CRL_NUMBER : bytes := lit "2.5.29.20".
Definition OID_REASON : bytes := lit "2.5.29.21".
Definition OID_INVALIDITY : bytes := lit "2.5.29.24".

(** The only extensions a list may carry, critical or not. *)
Definition list_extension_ok (iss : Certificate) (e : Extension) : Prop :=
  (extn_id e = OID_AKI /\ exists aki, aki_from_der (extn_value e) = Some aki
                                      /\ check_authority_key_id aki iss = Ok tt) \/
  (extn_id e = OID_CRL_NUMBER /\ crl_number_ok (extn_value e) = true).

(** The only extensions an entry may carry. *)
Definition entry_extension_ok (e : Extension) : Prop :=
  (extn_id e = OID_REASON /\ crl_reason_remove (extn_value e) = Some false) \/
  (extn_id e = OID_INVALIDITY /\ generalized_time_ok (extn_value e) = true).

Definition entry_ok (r : RevokedCert) : Prop :=
  NoDup (extn_id <$> crl_entry_extensions r) /\
  forall e, e ∈ crl_entry_extensions r -> entry_extension_ok e.

(** A complete, current list of [iss] that does not name [subj]; [verify] checks its
    signature.  [quote/pki.rs] and [gpu/revocation.rs] share the checks of lists. *)
Definition SignatureCheck : Type := Certificate -> AlgorithmIdentifier -> bytes -> bytes -> res PkiError unit.
Record clears_by (verify : SignatureCheck) (crl : CertificateList) (subj iss : Certificate) (now : N) : Prop := {
  cl_version : crl_version crl = V2;
  cl_issuer : crl_issuer crl = subject iss;
  cl_subject : issuer subj = subject iss;
  cl_sign : exists b u, get_key_usage iss = Some (Some (b, u)) /\ crl_sign u = true;
  cl_algorithms : crl_tbs_signature crl = crl_signature_algorithm crl;
  cl_dates : exists next, next_update crl = Some next /\ this_update crl <= now < next;
  cl_extensions : NoDup (extn_id <$> crl_extensions crl);
  cl_extension : forall e, e ∈ crl_extensions crl -> list_extension_ok iss e;
  cl_signature : exists sig, as_bytes (crl_signature crl) = Some sig /\
    verify iss (crl_signature_algorithm crl) (crl_tbs_der crl) sig = Ok tt;
  cl_serials : NoDup (revoked_serial <$> revoked_certificates crl);
  cl_entries : forall r, r ∈ revoked_certificates crl -> entry_ok r;
  cl_not_revoked : serial_number subj ∉ revoked_serial <$> revoked_certificates crl;
}.
Definition clears : CertificateList -> Certificate -> Certificate -> N -> Prop := clears_by verify_signature.

Lemma check_dates_decides this next now :
  decides (check_dates this next now) (this <= now < next) (fun _ => True).
Proof.
  unfold check_dates. pki. unfold ensure.
  destruct (N.ltb_spec this next); simpl; [|lia].
  destruct (N.leb_spec this now); simpl; [|lia].
  destruct (N.ltb_spec now next); simpl; [auto|lia].
Qed.

Lemma check_extensions_list_decides l allowed :
  decides (check_extensions l allowed)
    (NoDup (extn_id <$> l) /\ forall e, e ∈ l -> critical e = true -> extn_id e ∈ allowed)
    (fun _ => True).
Proof.
  unfold check_extensions. eapply decides_then; [|by eauto].
  apply (for_each_seen extn_id (fun e => critical e = true -> extn_id e ∈ allowed)).
  intros s e _. unfold check_crl_extension. pki. unfold ensure.
  destruct (bool_decide_reflect (extn_id e ∉ s)); simpl; [|naive_solver].
  assert (existsb (bytes_eqb (extn_id e)) allowed = true <-> extn_id e ∈ allowed) as Hex.
  { rewrite existsb_exists. setoid_rewrite bytes_eqb_eq. setoid_rewrite list_elem_of_In. naive_solver. }
  destruct (critical e); simpl; [|naive_solver].
  destruct (existsb _ _); simpl; [|naive_solver]. naive_solver.
Qed.

Lemma crl_list_extension_decides iss e :
  decides (crl_list_extension iss tt e) (list_extension_ok iss e) (fun _ => True).
Proof.
  unfold crl_list_extension, list_extension_ok. pki.
  destruct (bytes_eqb (extn_id e) (lit "2.5.29.35")) eqn:E1; bools.
  { rewrite E1. destruct (aki_from_der _) as [aki|]; simpl; [|naive_solver].
    eapply decides_iff; [apply decides_unit, check_authority_key_id_safe| |done].
    split; [eauto 6|]. intros [(_ & ? & [= ->] & ?)|[? _]]; done. }
  destruct (bytes_eqb (extn_id e) (lit "2.5.29.20")) eqn:E2; bools.
  { rewrite E2. apply decides_ensure; [|done]. split; [auto|]. naive_solver. }
  destruct (existsb _ _); simpl; naive_solver.
Qed.

Lemma crl_entry_extension_decides e :
  decides (crl_entry_extension tt e) (entry_extension_ok e) (fun _ => True).
Proof.
  unfold crl_entry_extension, entry_extension_ok. pki.
  destruct (bytes_eqb (extn_id e) (lit "2.5.29.21")) eqn:E1; bools.
  { rewrite E1. destruct (crl_reason_remove _) as [[]|]; simpl; naive_solver. }
  destruct (bytes_eqb (extn_id e) (lit "2.5.29.24")) eqn:E2; bools; [|simpl; naive_solver].
  rewrite E2. apply decides_ensure; [|done]. naive_solver.
Qed.

Lemma check_revoked_decides subj s r :
  decides (check_revoked subj s r)
    (revoked_serial r ∉ s /\ entry_ok r /\ revoked_serial r <> serial_number subj)
    (fun s' => s' = {[revoked_serial r]} ∪ s).
Proof.
  unfold check_revoked, entry_ok. pki. unfold ensure.
  destruct (bool_decide_reflect (revoked_serial r ∉ s)); cbn [mbind res_bind]; [|simpl; naive_solver].
  pose proof (check_extensions_list_decides (crl_entry_extensions r) [OID_REASON; OID_INVALIDITY]) as Hx.
  pose proof (decides_for_all crl_entry_extension _ _
    (fun e _ => crl_entry_extension_decides e) : decides (for_each _ _ (crl_entry_extensions r)) _ _) as Hy.
  unfold OID_REASON, OID_INVALIDITY in Hx.
  assert ((forall e, e ∈ crl_entry_extensions r -> entry_extension_ok e) ->
     forall e, e ∈ crl_entry_extensions r -> critical e = true ->
       extn_id e ∈ [lit "2.5.29.21"; lit "2.5.29.24"]) as Hsub.
  { intros Hall e [[-> _]|[-> _]]%Hall _; set_solver. }
  destruct (check_extensions _ _) as [[]|e| |]; [|simpl in *; naive_solver|done..].
  cbn [mbind res_bind].
  destruct (for_each _ _ _) as [[]|e| |]; [|simpl in *; naive_solver|done..].
  cbn [mbind res_bind]. destruct (bytes_eqb _ _) eqn:Es; bools; simpl in *; naive_solver.
Qed.

Lemma check_crl_extensions_decides iss l :
  decides (check_extensions l [OID_AKI; OID_CRL_NUMBER];; for_each (crl_list_extension iss) tt l)
    (NoDup (extn_id <$> l) /\ forall e, e ∈ l -> list_extension_ok iss e) (fun _ => True).
Proof.
  pose proof (check_extensions_list_decides l [OID_AKI; OID_CRL_NUMBER]) as Hx.
  pose proof (decides_for_all (crl_list_extension iss) _ _
    (fun e _ => crl_list_extension_decides iss e) : decides (for_each _ _ l) _ _) as Hy.
  assert ((forall e, e ∈ l -> list_extension_ok iss e) ->
     forall e, e ∈ l -> critical e = true -> extn_id e ∈ [OID_AKI; OID_CRL_NUMBER]) as Hsub.
  { intros Hall e [[-> _]|[-> _]]%Hall _; set_solver. }
  destruct (check_extensions _ _) as [[]|e| |]; [|simpl in *; naive_solver|done..].
  cbn [mbind res_bind]. eapply decides_iff; [exact Hy| |done]. simpl in Hx. naive_solver.
Qed.

Lemma check_serials_decides subj l :
  decides (for_each (check_revoked subj) ∅ l)
    (NoDup (revoked_serial <$> l) /\ (forall r, r ∈ l -> entry_ok r)
     /\ serial_number subj ∉ revoked_serial <$> l) (fun _ => True).
Proof.
  eapply decides_iff; [apply (for_each_seen revoked_serial); intros; apply check_revoked_decides| |done].
  rewrite list_elem_of_fmap. naive_solver.
Qed.

(** The checks of a parsed list, in the order of the code. *)
Lemma check_crl_body (verify : SignatureCheck) crl subj iss now :
  (forall i a m s, safe (verify i a m s) (fun _ => True)) ->
  decides
    (need (bool_decide (crl_version crl = V2)) "only X.509 v2 CRLs are supported";;
     need (bool_decide (crl_issuer crl = subject iss) && bool_decide (issuer subj = subject iss))
       "CRL issuer mismatch";;
     u ← key_usage iss;
     need (crl_sign u) "CRL issuer lacks cRLSign";;
     need (bool_decide (crl_tbs_signature crl = crl_signature_algorithm crl))
       "CRL inner/outer signature algorithms differ";;
     next ← orelse (next_update crl) "CRL nextUpdate is required";
     check_dates (this_update crl) next now;;
     check_extensions (crl_extensions crl) [lit "2.5.29.35"; lit "2.5.29.20"];;
     for_each (crl_list_extension iss) tt (crl_extensions crl);;
     sig ← orelse (as_bytes (crl_signature crl)) "CRL signature is not byte-aligned";
     verify iss (crl_signature_algorithm crl) (crl_tbs_der crl) sig;;
     for_each (check_revoked subj) ∅ (revoked_certificates crl);;
     Ok tt)
    (clears_by verify crl subj iss now) (fun _ => True).
Proof.
  intros Hverify. unfold key_usage. pki. unfold ensure.
  destruct (bool_decide_reflect (crl_version crl = V2)); simpl; [|by intros []].
  destruct (bool_decide_reflect (crl_issuer crl = subject iss)); simpl; [|by intros []].
  destruct (bool_decide_reflect (issuer subj = subject iss)); simpl; [|by intros []].
  destruct (get_key_usage iss) as [[[b u]|]|] eqn:Eu; simpl; cycle 1.
  1,2: intros [? ? ? (? & ? & ? & ?)]; congruence.
  destruct (crl_sign u) eqn:Es; simpl; [|intros [? ? ? (? & ? & ? & ?)]; congruence].
  destruct (bool_decide_reflect (crl_tbs_signature crl = crl_signature_algorithm crl)); simpl; [|by intros []].
  destruct (next_update crl) as [next|] eqn:En; simpl; [|intros [????? (? & ? & ?)]; congruence].
  pose proof (check_dates_decides (this_update crl) next now) as Hd.
  destruct (check_dates _ _ _) as [[]|err| |]; simpl; [| |done..].
  2: intros [????? (? & ? & ?)]; simplify_eq; by apply Hd.
  destruct Hd as [Hd _].
  pose proof (check_crl_extensions_decides iss (crl_extensions crl)) as Hx.
  unfold OID_AKI, OID_CRL_NUMBER in Hx.
  destruct (check_extensions _ _) as [[]|err| |]; simpl; [|intros []; simpl in Hx; tauto|done..].
  destruct (for_each (crl_list_extension iss) _ _) as [[]|err| |]; simpl; [|intros []; simpl in Hx; tauto|done..].
  destruct Hx as [[Hx1 Hx2] _].
  destruct (as_bytes (crl_signature crl)) as [sig|] eqn:Esig; simpl;
    [|intros [???????? (? & ? & ?)]; congruence].
  pose proof (decides_unit _ (Hverify iss (crl_signature_algorithm crl) (crl_tbs_der crl) sig)) as Hv.
  destruct (verify _ _ _ _) as [[]|err| |] eqn:Ev; simpl; [| |done..].
  2: intros [???????? (? & ? & ?)]; simplify_eq; congruence.
  pose proof (check_serials_decides subj (revoked_certificates crl)) as Hs.
  destruct (for_each (check_revoked subj) _ _) as [?|err| |]; simpl; [|intros []; simpl in Hs; tauto|done..].
  destruct Hs as [(? & ? & ?) _]. by split; [constructor; eauto|].
Qed.

Lemma check_crl_decides der subj iss now :
  decides (check_crl der subj iss now)
    (0 < blen der <= 4 * 1024 * 1024 /\
     exists crl, crl_from_der der = Some crl /\ clears crl subj iss now) (fun _ => True).
Proof.
  unfold check_crl. pki. unfold ensure at 1.
  destruct (N.eqb_spec (blen der) 0); cbn [negb andb mbind res_bind]; [simpl; lia|].
  destruct (N.leb_spec (blen der) (4 * 1024 * 1024)); cbn [mbind res_bind]; [|simpl; lia].
  destruct (crl_from_der der) as [crl|]; simpl; [|naive_solver].
  eapply decides_iff; [apply check_crl_body, verify_signature_safe| |done]. split; [|naive_solver].
  intros. split; [lia|eauto].
Qed.

(** [check_crl] neither panics nor diverges, and it accepts a certificate
    exactly when the list parses within the size limit and [clears] it: a version 2
    list of the certificate's issuer, current at [now], signed by an issuer that has
    cRLSign, whose list and entry extensions are all understood and not repeated
    (so no delta, scoped or indirect list, and no removeFromCRL entry), without
    repeated serial numbers, and without the certificate's serial number. *)
Theorem crl_check_exact der subj iss now :
  decides (check_crl der subj iss now)
    (0 < blen der <= 4 * 1024 * 1024 /\
     exists crl, crl_from_der der = Some crl /\ clears crl subj iss now) (fun _ => True).
Proof. apply check_crl_decides. Qed.
End CrlSpec.

(** A list that names another serial number clears the leaf until it expires; one that
    names the leaf's does not. *)
Example sample_crl_clears :
  check_crl (X := toy_x509) (K := toy_cpu) (H := toy_sha2) [x03] sample_leaf sample_root 15 = Ok tt.
Proof. vm_compute. reflexivity. Qed.
Example sample_crl_expired :
  check_crl (X := toy_x509) (K := toy_cpu) (H := toy_sha2) [x03] sample_leaf sample_root 30
  = Err (PkiMsg "revocation evidence has expired").
Proof. vm_compute. reflexivity. Qed.
Example sample_crl_revokes :
  check_crl (X := toy_x509) (K := toy_cpu) (H := toy_sha2) [x04] sample_leaf sample_root 15
  = Err (PkiMsg "certificate is revoked by CRL").
Proof. vm_compute. reflexivity. Qed.
