(* ===== verification/Pem.v ===== *)
(** * Pem: certificate bundles of [src/v2/src/quote/pki.rs]

    [parse_pem_chain] splits a bounded text into CERTIFICATE blocks.  Its loop carries
    the length of the text as fuel, since every round consumes a block; base64 and
    certificate decoding are the crate functions of [X509]. *)
From S2P Require Import Prelude Bytes Text Crypto Pki.

Section Pem.
Context `{X : X509}.
Definition BEGIN_CERT : bytes := lit "-----BEGIN CERTIFICATE-----".
Definition END_CERT : bytes := lit "-----END CERTIFICATE-----".
(** [s.find(needle)] *)
Fixpoint find_sub (needle s : bytes) : option N :=
  if starts_with needle s then Some 0
  else match s with [] => None | _ :: s => N.succ <$> find_sub needle s end.

Fixpoint parse_pem (fuel : nat) (rest : bytes) (acc : list bytes) : res PkiError (list bytes) :=
  if blen rest =? 0 then Ok acc
  else
    match fuel with
    | O => NoFuel
    | S fuel =>
      rest ← orelse (strip_prefix BEGIN_CERT rest) "unexpected CPU PEM text";
      end_ ← orelse (find_sub END_CERT rest) "unterminated CPU PEM certificate";
      body ← index_range rest 0 end_;
      der ← orelse (base64_decode (List.filter (fun c => negb (is_ascii_whitespace c)) body)) "invalid base64";
      orelse (cert_from_der der) "invalid certificate";;
      let acc := acc ++ [der] in
      need (blen acc <=? MAX_CHAIN_CERTS) "too many CPU PEM certificates";;
      rest ← index_from rest (end_ + blen END_CERT);
      parse_pem fuel (str_trim rest) acc
    end.
Definition parse_pem_chain (b : bytes) : res PkiError (list bytes) :=
  need (negb (blen b =? 0) && (blen b <=? MAX_CHAIN_BYTES)) "CPU PEM size outside limit";;
  let b := default b (strip_suffix_byte x00 b) in
  text ← orelse (from_utf8 b) "invalid UTF-8";
  certs ← parse_pem (length b) (str_trim text) [];
  need (negb (blen certs =? 0)) "empty CPU certificate path";;
  Ok certs.
End Pem.

(** ** PEM bundles *)
Section PemSpec.
Context `{X : X509}.

Lemma find_sub_Some n s k :
  find_sub n s = Some k -> exists pre post, s = pre ++ n ++ post /\ blen pre = k.
Proof.
  revert k; induction s as [|c s IH]; intros k; cbn [find_sub];
    unfold starts_with; destruct (strip_prefix n _) as [post|] eqn:Ep; intros Hk.
  - apply strip_prefix_Some in Ep. simplify_eq. by exists [], post.
  - done.
  - apply strip_prefix_Some in Ep. simplify_eq. by exists [], post.
  - destruct (find_sub n s) as [k'|]; [|done]. simplify_eq/=.
    destruct (IH k' eq_refl) as (pre & post & -> & <-).
    exists (c :: pre), post. split; [done|]. rewrite blen_cons. lia.
Qed.

Lemma find_sub_hit n p q : find_sub n (p ++ n ++ q) <> None.
Proof.
  induction p as [|x p IH].
  - assert (starts_with n (n ++ q) = true) as Hs by (unfold starts_with; by rewrite (proj2 (strip_prefix_Some _ _ q) eq_refl)).
    cbn [app]. destruct (n ++ q) eqn:E; cbn [find_sub]; by rewrite Hs.
  - cbn [app find_sub]. destruct (starts_with n _); [done|]. by destruct (find_sub n (p ++ n ++ q)).
Qed.

Lemma find_sub_app c n b r : c ∉ b -> find_sub (c :: n) (b ++ (c :: n) ++ r) = Some (blen b).
Proof.
  induction b as [|x b IH]; intros Hb.
  - simpl ([] ++ _). assert (starts_with (c :: n) ((c :: n) ++ r) = true) as Hs.
    { unfold starts_with. by rewrite (proj2 (strip_prefix_Some _ _ r) eq_refl). }
    simpl. simpl in Hs. by rewrite Hs.
  - apply not_elem_of_cons in Hb as [Hx Hb]. cbn [app find_sub].
    assert (starts_with (c :: n) (x :: b ++ c :: n ++ r) = false) as ->.
    { unfold starts_with. cbn. assert (Byte.eqb c x = false) as -> by (by apply byte_eqb_neq). done. }
    cbn [app] in IH. rewrite (IH Hb), blen_cons. cbn. f_equal. lia.
Qed.

Lemma find_end body r : x2d ∉ body -> find_sub END_CERT (body ++ END_CERT ++ r) = Some (blen body).
Proof. apply (find_sub_app x2d (lit "----END CERTIFICATE-----")). Qed.

Lemma parse_pem_safe fuel rest acc :
  (length rest <= fuel)%nat -> blen acc <= MAX_CHAIN_CERTS ->
  Forall (fun d => is_Some (cert_from_der d)) acc ->
  safe (parse_pem fuel rest acc)
    (fun ders => blen ders <= MAX_CHAIN_CERTS /\ Forall (fun d => is_Some (cert_from_der d)) ders).
Proof.
  revert rest acc; induction fuel as [|fuel IH]; intros rest acc Hf Ha Hd; cbn [parse_pem];
    (destruct (N.eqb_spec (blen rest) 0); [done|]).
  { unfold blen in *. lia. }
  pki. wp. apply strip_prefix_Some in H. subst rest.
  rename a into rest. apply find_sub_Some in H0 as (body & post & -> & <-).
  apply safe_index_range; [lia|rewrite !blen_app; lia|]. intros b _ _. wp.
  apply safe_index_from; [rewrite !blen_app; lia|]. bools.
  apply IH; [|done|].
  - pose proof (str_trim_length (drop (N.to_nat (blen body + blen END_CERT)) (body ++ END_CERT ++ post))).
    rewrite length_drop in *. rewrite !length_app in *. change (length BEGIN_CERT) with 27%nat in *. lia.
  - apply Forall_app; split; [done|]. constructor; [|done]. eauto.
Qed.

Lemma parse_pem_chain_safe b :
  safe (parse_pem_chain b)
    (fun ders => 1 <= blen ders <= MAX_CHAIN_CERTS /\
                 Forall (fun d => is_Some (cert_from_der d)) ders).
Proof.
  unfold parse_pem_chain. pki. wp. apply from_utf8_Some in H0 as [-> _].
  eapply safe_mono; [apply parse_pem_safe; [apply str_trim_length|done|constructor]|].
  intros ders _ [Hl Hd]. wp. bools. split; [lia|done].
Qed.

(** [parse_pem_chain] terminates without panicking on every input, and every
    result has one to twelve entries, each of them a certificate that parses. *)
Theorem parse_pem_terminates b :
  safe (parse_pem_chain b)
    (fun ders => 1 <= blen ders <= MAX_CHAIN_CERTS /\
                 Forall (fun d => is_Some (cert_from_der d)) ders).
Proof. apply parse_pem_chain_safe. Qed.

(** A PEM file: blocks with a body each, whitespace between them. *)
Definition pem_block (body : bytes) : bytes := BEGIN_CERT ++ body ++ END_CERT.
Fixpoint pem_text (blocks : list (bytes * bytes)) : bytes :=
  match blocks with
  | [] => []
  | [(body, _)] => pem_block body
  | (body, sep) :: blocks => pem_block body ++ sep ++ pem_text blocks
  end.

(** A body of base64 text, broken by whitespace, that decodes to [der]. *)
Record pem_body (blk : bytes * bytes) (der : bytes) : Prop := {
  pb_ascii : ascii blk.1 = true;
  pb_dash : x2d ∉ blk.1;
  pb_sep : blank blk.2 = true;
  pb_decode : base64_decode (List.filter (fun c => negb (is_ascii_whitespace c)) blk.1) = Some der;
  pb_cert : is_Some (cert_from_der der);
}.

Lemma pem_block_shape body : ascii body = true ->
  ascii (pem_block body) = true /\ head (pem_block body) = Some x2d /\ last (pem_block body) = Some x2d.
Proof.
  intros Hb. unfold pem_block. split_and!.
  - rewrite !ascii_app, Hb. done.
  - done.
  - assert (END_CERT = lit "-----END CERTIFICATE----" ++ [x2d]) as -> by done.
    by rewrite !app_assoc, last_snoc.
Qed.

Lemma pem_text_shape blocks ders : Forall2 pem_body blocks ders ->
  ascii (pem_text blocks) = true /\
  (forall c, head (pem_text blocks) = Some c \/ last (pem_text blocks) = Some c -> c = x2d).
Proof.
  induction 1 as [|[body sep] der blocks ders [Ha _ Hs _ _] Hbs IH]; [by split; [|intros ? [|]]|].
  destruct (pem_block_shape body Ha) as (Hba & Hbh & Hbl). simpl in Ha, Hs.
  destruct Hbs as [|blk d blocks ders Hb Hbs].
  - split; [done|]. cbn [pem_text]. intros c [|]; congruence.
  - destruct IH as [IHa IHe].
    change (pem_text ((body, sep) :: blk :: blocks)) with (pem_block body ++ sep ++ pem_text (blk :: blocks)).
    split.
    + rewrite !ascii_app, Hba, (blank_ascii sep Hs). done.
    + intros c [Hc|Hc]; [by rewrite head_app, Hbh in Hc; simplify_eq/=|].
      apply IHe. right. rewrite !last_app in Hc. destruct (last (pem_text (blk :: blocks))) eqn:Hlast; [congruence|].
      apply last_None in Hlast. destruct blk as [? ?], blocks as [|[]]; discriminate.
Qed.

Lemma pem_text_trim w1 blocks ders w2 : Forall2 pem_body blocks ders ->
  blank w1 = true -> blank w2 = true -> str_trim (w1 ++ pem_text blocks ++ w2) = pem_text blocks.
Proof.
  intros [Ha He]%pem_text_shape H1 H2. apply str_trim_ascii; [done..|]. intros c Hc. by rewrite (He c Hc).
Qed.

Lemma parse_pem_text fuel blocks ders acc :
  Forall2 pem_body blocks ders -> (length blocks <= fuel)%nat ->
  blen acc + blen ders <= MAX_CHAIN_CERTS ->
  parse_pem fuel (pem_text blocks) acc = Ok (acc ++ ders).
Proof.
  intros Hb; revert fuel acc; induction Hb as [|[body sep] der blocks ders [Ha Hd Hs Hdec [c Hc]] Hbs IH];
    intros fuel acc Hf Hl.
  { destruct fuel; cbn; by rewrite app_nil_r. }
  destruct fuel as [|fuel]; [cbn in Hf; lia|]. simpl in Ha, Hd, Hs, Hdec.
  assert (exists tail, pem_text ((body, sep) :: blocks) = BEGIN_CERT ++ body ++ END_CERT ++ tail /\
            str_trim tail = pem_text blocks) as (tail & -> & Htail).
  { destruct blocks as [|blk blocks].
    - exists []. unfold pem_text, pem_block. rewrite app_nil_r. done.
    - exists (sep ++ pem_text (blk :: blocks)). split; [cbn [pem_text]; unfold pem_block; by rewrite <- !app_assoc|].
      rewrite <- (app_nil_r (pem_text _)) at 1. by eapply pem_text_trim. }
  cbn [parse_pem]. pki. destruct (N.eqb_spec (blen (BEGIN_CERT ++ body ++ END_CERT ++ tail)) 0) as [E|_].
  { rewrite blen_app in E. change (blen BEGIN_CERT) with 27 in E. lia. }
  rewrite (proj2 (strip_prefix_Some BEGIN_CERT _ (body ++ END_CERT ++ tail)) eq_refl). cbn [ok_or]. ok_step.
  rewrite find_end by done. cbn [ok_or]. ok_step.
  rewrite (index_range_app_0 body) by done. ok_step.
  rewrite Hdec. cbn [ok_or]. ok_step. rewrite Hc. cbn [ok_or]. ok_step.
  rewrite blen_cons in Hl. pass ltac:(rewrite blen_app; apply N.leb_le; change (blen [der]) with 1; lia).
  rewrite app_assoc, index_from_app by (by rewrite blen_app). ok_step.
  rewrite Htail, IH; [by rewrite <- app_assoc|cbn in Hf; lia|].
  rewrite blen_app. change (blen [der]) with 1. lia.
Qed.

Lemma pem_text_length blocks : (length blocks <= length (pem_text blocks))%nat.
Proof.
  induction blocks as [|[body sep] blocks IH]; [done|].
  destruct blocks as [|blk blocks]; [cbn; lia|].
  change (pem_text ((body, sep) :: blk :: blocks)) with (pem_block body ++ sep ++ pem_text (blk :: blocks)).
  unfold pem_block. rewrite !length_app. change (length BEGIN_CERT) with 27%nat.
  cbn [length] in *. lia.
Qed.

Lemma pem_text_no_nul lead blocks ders trail : Forall2 pem_body blocks ders ->
  blank lead = true -> blank trail = true ->
  strip_suffix_byte x00 (lead ++ pem_text blocks ++ trail) = None.
Proof.
  intros [_ He]%pem_text_shape H1 H2. destruct (strip_suffix_byte _ _) as [r|] eqn:Hs; [exfalso|done].
  apply strip_suffix_byte_Some in Hs. apply (f_equal last) in Hs.
  rewrite last_snoc, !last_app in Hs.
  assert (forall w, blank w = true -> last w <> Some x00) as Hw.
  { intros w Hw Hl. apply last_Some in Hl as [w' ->].
    assert (x00 ∈ w' ++ [x00]) as Hin by set_solver. apply (proj1 (blank_spec _) Hw) in Hin.
    vm_compute in Hin. by destruct_or! Hin. }
  destruct (last trail) eqn:Et; [by apply (Hw trail); congruence|].
  destruct (last (pem_text blocks)) as [c|]; [|by apply (Hw lead)].
  simplify_eq. by discriminate (He x00 (or_intror eq_refl)).
Qed.

(** [parse_pem_chain] reads back every PEM file: one to twelve CERTIFICATE blocks
    with base64 bodies broken by any ASCII whitespace, with whitespace before, between
    and after the blocks and an optional terminating NUL, give exactly the encoded
    certificates, in order. *)
Theorem pem_round_trip blocks ders lead trail (nul : bool) :
  Forall2 pem_body blocks ders -> blank lead = true -> blank trail = true ->
  1 <= blen ders <= MAX_CHAIN_CERTS ->
  blen ((lead ++ pem_text blocks ++ trail) ++ if nul then [x00] else []) <= MAX_CHAIN_BYTES ->
  parse_pem_chain ((lead ++ pem_text blocks ++ trail) ++ if nul then [x00] else []) = Ok ders.
Proof.
  intros Hb H1 H2 Hn Hsz. set (text := lead ++ pem_text blocks ++ trail) in *.
  assert (blocks <> []) as Hne by (intros ->; by inversion Hb; subst; destruct Hn).
  assert (length blocks <= length text)%nat as Hlen.
  { unfold text. rewrite !length_app. pose proof (pem_text_length blocks). lia. }
  assert (ascii text = true) as Ha.
  { unfold text. rewrite !ascii_app, (blank_ascii _ H1), (blank_ascii _ H2). by destruct (pem_text_shape _ _ Hb) as [-> _]. }
  assert (0 < blen text) as Hpos.
  { destruct blocks; [done|]. unfold blen. cbn in Hlen. lia. }
  unfold parse_pem_chain. pki. pass ltac:(bools; split; [rewrite blen_app; lia|done]).
  assert (default (text ++ if nul then [x00] else []) (strip_suffix_byte x00 (text ++ if nul then [x00] else [])) = text) as ->.
  { destruct nul.
    - by rewrite (proj2 (strip_suffix_byte_Some x00 (text ++ [x00]) text) eq_refl).
    - rewrite app_nil_r. unfold text. by erewrite pem_text_no_nul. }
  unfold from_utf8. rewrite (utf8_decode_ascii text Ha). cbn [ok_or]. ok_step.
  unfold text at 2. erewrite pem_text_trim by done.
  rewrite (parse_pem_text _ blocks ders []) by (done || (rewrite blen_nil; lia)). ok_step. cbn [app].
  pass ltac:(bools; lia). done.
Qed.
End PemSpec.

Lemma pem_round_trip_witness :
  parse_pem_chain (X := toy_x509)
    (lit "-----BEGIN CERTIFICATE-----AQ==-----END CERTIFICATE----- -----BEGIN CERTIFICATE-----A g==-----END CERTIFICATE-----" ++ [x00])
  = Ok [[x01]; [x02]].
Proof.
  apply (pem_round_trip (X := toy_x509) [(lit "AQ==", lit " "); (lit "A g==", [])] [[x01]; [x02]] [] [] true).
  - do 2 (apply List.Forall2_cons; [constructor;
      [reflexivity|apply (bool_decide_unpack _); vm_compute; exact I|reflexivity|reflexivity|by eexists]|]).
    constructor.
  - reflexivity.
  - reflexivity.
  - by vm_compute.
  - by vm_compute.
Defined.
