(* ===== verification/TdxQuote.v ===== *)
(** * TdxQuote: Intel TDX quotes of [src/v2/src/quote/verify.rs]

    A version 4 quote is a header and a TD report body, signed by an attestation key
    (AK); the AK is committed to by a report of the quoting enclave (QE), which the
    platform's PCK certificate signs; the PCK chains to the pinned Intel root.

    [tdx_quote_exact]: a quote is accepted exactly when it is the encoding of parts
    that satisfy every link of that chain.  Slices of a body of known length cannot
    fail, so the registers are read where the result is built. *)
From S2P Require Import Prelude Bytes Text Crypto Eat Pki Crl Pem.

(** ** Errors and pinned roots *)
Inductive VerifyError : Type :=
| UnsupportedPlatform (p : Platform)
| PlatformError (message : string)
(** [pki_error]: the same variant, wrapping a certificate error *)
| PkixError (e : PkiError).

Definition AWS_NITRO_ROOT_SHA256 : bytes :=
  lit "641a0321a3e244efe456463195d606317ed7cdcc3c1756e09893f3c68f79bb5b".
Definition AMD_ARK_MILAN_SHA256 : bytes :=
  lit "69d063b45344d26a2e94e1f4210de49ef555308287d4c174445c95639a540bcd".
Definition AMD_ARK_GENOA_SHA256 : bytes :=
  lit "4c6598d19c18719c5dfd4a7d335f674e5bfe1d8f800cea2cf270c10d103db2f1".
Definition AMD_ARK_TURIN_SHA256 : bytes :=
  lit "1f084161a44bb6d93778a904877d4819cafa5d05ef4193b2ded9dd9c73dd3f6a".
Definition INTEL_SGX_ROOT_SHA256 : bytes :=
  lit "44a0196b2b99f889b8e149e95b807a350e7424964399e885a7cbb8ccfab674d3".
Definition verify_root_fingerprint `{Sha2} (cert_der expected_fingerprint : bytes) : bool :=
  bytes_eqb (hex_encode (sha256 cert_der)) expected_fingerprint.

(** Named measurements, in order. *)
Definition Measurements : Type := list (bytes * bytes).
Definition flag (b : bool) : bytes := [if b then x01 else x00].

Notation fail_if c m := (reject_if c (PlatformError m)) (only parsing).

Section Tdx.
Context `{X : X509} `{K : CpuCrypto} `{H : Sha2}.

Definition le_at (b : bytes) (i j : N) : res VerifyError N := s ← index_range b i j; Ok (le_to_N s).

Definition tdx_header (raw : bytes) : res VerifyError unit :=
  version ← le_at raw 0 2;
  fail_if (negb (version =? 4)) "TDX quote version, only v4 is supported";;
  kt ← index_range raw 2 4;
  fail_if (negb (bytes_eqb kt [x02; x00])) "TDX unsupported attestation key type";;
  tee_type ← le_at raw 4 8;
  fail_if (negb (tee_type =? 0x81)) "TDX tee_type, expected 0x81".

(** The PCK path: whether the QE signature and the chain verify. *)
Definition verify_pck (pem_data qe_report qe_sig_bytes : bytes) (now : N) :
    res VerifyError (bool * bool) :=
  der_certs ← map_err PkixError (parse_pem_chain pem_data);
  if 2 <=? blen der_certs then
    pck_der ← index der_certs 0;
    pck_cert ← ok_or (cert_from_der pck_der) (PlatformError "parse PCK cert");
    pck_vk ← ok_or (from_sec1 p256 (raw_bytes (subject_public_key pck_cert)))
               (PlatformError "PCK P-256 key");
    qe_sig ← ok_or (sig_from_slice p256 qe_sig_bytes) (PlatformError "parse QE sig");
    let qe_verified := verify_prehash p256 pck_vk (sha256 qe_report) qe_sig in
    if 3 <=? blen der_certs then
      map_err PkixError (validate_chain der_certs INTEL_SGX_ROOT_SHA256 now P256);;
      Ok (qe_verified, true)
    else Ok (qe_verified, false)
  else Ok (false, false).

(** The quoting enclave's certification data. *)
Definition verify_qe (qe_cd ak_pub_xy : bytes) (now : N) : res VerifyError (bool * bool) :=
  if 450 <=? blen qe_cd then
    qe_report ← index_range qe_cd 0 384;
    qe_sig_bytes ← index_range qe_cd 384 448;
    qe_auth_size ← le_at qe_cd 448 450;
    fail_if (blen qe_cd - 450 <? qe_auth_size) "TDX truncated QE authentication data";;
    qe_auth ← index_range qe_cd 450 (450 + qe_auth_size);
    qe_reportdata ← index_range qe_report 320 384;
    rd32 ← index_range qe_reportdata 0 32;
    fail_if (negb (bytes_eqb (sha256 (ak_pub_xy ++ qe_auth)) rd32))
      "TDX: AK not bound to QE (hash mismatch)";;
    let inner_off := 450 + qe_auth_size in
    '(qe_verified, chain_verified) ←
      (if inner_off + 6 <=? blen qe_cd then
         inner_type ← le_at qe_cd inner_off (inner_off + 2);
         inner_size ← le_at qe_cd (inner_off + 2) (inner_off + 6);
         fail_if (negb (inner_type =? 5) || negb (inner_size =? blen qe_cd - inner_off - 6))
           "TDX unsupported/trailing PCK certification data";;
         pem_data ← index_range qe_cd (inner_off + 6) (inner_off + 6 + inner_size);
         verify_pck pem_data qe_report qe_sig_bytes now
       else Ok (false, false));
    fail_if (negb qe_verified) "TDX: QE report signature verification FAILED";;
    Ok (qe_verified, chain_verified)
  else Ok (false, false).

Definition tdx_measurements (body report_data : bytes) (quote_sig qe chain : bool) :
    res VerifyError Measurements :=
  mrtd ← index_range body 136 184;
  rtmr0 ← index_range body 328 376;
  rtmr1 ← index_range body 376 424;
  rtmr2 ← index_range body 424 472;
  rtmr3 ← index_range body 472 520;
  Ok [(lit "MRTD", mrtd); (lit "RTMR0", rtmr0); (lit "RTMR1", rtmr1); (lit "RTMR2", rtmr2);
      (lit "RTMR3", rtmr3); (lit "REPORTDATA", report_data); (lit "QUOTE_SIG_VERIFIED", flag quote_sig);
      (lit "QE_SIG_VERIFIED", flag qe); (lit "CHAIN_VERIFIED", flag chain)].

Definition verify_tdx_quote (raw expected_binding : bytes) (now : N) :
    res VerifyError (bool * Measurements) :=
  fail_if (blen raw <? 636) "TDX quote too short";;
  tdx_header raw;;
  body ← index_range raw 48 632;
  report_data ← index_range body 520 584;
  rd32 ← index_range report_data 0 32;
  fail_if (negb (bytes_eqb rd32 expected_binding)) "TDX: REPORTDATA[0..32] does not match EAT binding";;
  sig_data_size ← le_at raw 632 636;
  fail_if (negb (sig_data_size =? blen raw - 636)) "TDX: quote signature section length mismatch";;
  sig_data ← index_range raw 636 (636 + sig_data_size);
  fail_if (blen sig_data <? 134) "TDX: signature data too short";;
  quote_sig_bytes ← index_range sig_data 0 64;
  quote_sig ← ok_or (sig_from_slice p256 quote_sig_bytes) (PlatformError "TDX parse quote sig");
  ak_pub_xy ← index_range sig_data 64 128;
  ak_vk ← ok_or (from_sec1 p256 (x04 :: ak_pub_xy)) (PlatformError "TDX AK key");
  header_body ← index_range raw 0 632;
  let quote_sig_valid := verify_prehash p256 ak_vk (sha256 header_body) quote_sig in
  fail_if (negb quote_sig_valid) "TDX: quote signature verification FAILED";;
  cert_data_type ← le_at sig_data 128 130;
  cert_data_size ← le_at sig_data 130 134;
  fail_if (negb (cert_data_type =? 6) || negb (cert_data_size =? blen sig_data - 134))
    "TDX unsupported/trailing certification data";;
  qe_cd ← index_range sig_data 134 (134 + cert_data_size);
  '(qe_verified, chain_verified) ← verify_qe qe_cd ak_pub_xy now;
  measurements ← tdx_measurements body report_data quote_sig_valid qe_verified chain_verified;
  Ok (quote_sig_valid && qe_verified && chain_verified, measurements).
End Tdx.

(** ** Specification: the layout and the chain of trust *)
Record TdxParts : Type := {
  t_header : bytes; t_body : bytes; t_sig : bytes; t_ak : bytes;
  t_report : bytes; t_report_sig : bytes; t_auth : bytes; t_pem : bytes;
}.
Definition qe_bytes (rep rsig auth pem : bytes) : bytes :=
  rep ++ rsig ++ N_to_le 2 (blen auth) ++ auth ++ N_to_le 2 5 ++ N_to_le 4 (blen pem) ++ pem.
Definition encode_qe (p : TdxParts) : bytes :=
  qe_bytes (t_report p) (t_report_sig p) (t_auth p) (t_pem p).
Definition encode_signature (p : TdxParts) : bytes :=
  t_sig p ++ t_ak p ++ N_to_le 2 6 ++ N_to_le 4 (blen (encode_qe p)) ++ encode_qe p.
Definition encode_tdx (p : TdxParts) : bytes :=
  t_header p ++ t_body p ++ N_to_le 4 (blen (encode_signature p)) ++ encode_signature p.

Record tdx_sized (p : TdxParts) : Prop := {
  ts_header : blen (t_header p) = 48;
  ts_body : blen (t_body p) = 584;
  ts_sig : blen (t_sig p) = 64;
  ts_ak : blen (t_ak p) = 64;
  ts_report : blen (t_report p) = 384;
  ts_report_sig : blen (t_report_sig p) = 64;
  ts_auth : blen (t_auth p) <= u16_max;
  ts_total : blen (encode_signature p) <= u32_max;
}.

Section TdxSpec.
Context `{X : X509} `{K : CpuCrypto} `{H : Sha2}.

(** A P-256 signature over the SHA-256 digest of a message. *)
Definition p256_signed (key sig msg : bytes) : Prop :=
  exists vk s, from_sec1 p256 key = Some vk /\ sig_from_slice p256 sig = Some s /\
               verify_prehash p256 vk (sha256 msg) s = true.

(** The PCK bundle: a path to the Intel root whose leaf signs the QE report. *)
Definition pck_signed (pem report sig : bytes) (now : N) : Prop :=
  exists ders pck_der pck cs, parse_pem_chain pem = Ok ders /\ head ders = Some pck_der /\
    cert_from_der pck_der = Some pck /\ 3 <= blen ders /\
    p256_signed (raw_bytes (subject_public_key pck)) sig report /\
    validate_chain ders INTEL_SGX_ROOT_SHA256 now P256 = Ok cs.

Record tdx_genuine (p : TdxParts) (binding : bytes) (now : N) : Prop := {
  tg_version : le_to_N (slice (t_header p) 0 2) = 4;
  tg_key_type : slice (t_header p) 2 4 = [x02; x00];
  tg_tee : le_to_N (slice (t_header p) 4 8) = 0x81;
  tg_binding : slice (t_body p) 520 552 = binding;
  tg_quote : p256_signed (x04 :: t_ak p) (t_sig p) (t_header p ++ t_body p);
  tg_ak : sha256 (t_ak p ++ t_auth p) = slice (t_report p) 320 352;
  tg_pck : pck_signed (t_pem p) (t_report p) (t_report_sig p) now;
}.

Definition tdx_claims (body : bytes) : Measurements :=
  [(lit "MRTD", slice body 136 184); (lit "RTMR0", slice body 328 376);
   (lit "RTMR1", slice body 376 424); (lit "RTMR2", slice body 424 472);
   (lit "RTMR3", slice body 472 520); (lit "REPORTDATA", slice body 520 584);
   (lit "QUOTE_SIG_VERIFIED", [x01]); (lit "QE_SIG_VERIFIED", [x01]); (lit "CHAIN_VERIFIED", [x01])].

Lemma verify_pck_exact pem rep sg now :
  verify_pck pem rep sg now = Ok (true, true) <-> pck_signed pem rep sg now.
Proof.
  unfold verify_pck, pck_signed, p256_signed. split.
  - intros Hv. inv_res. destruct (2 <=? blen x) eqn:E2; [|done].
    inv_res. destruct (3 <=? blen x) eqn:E3; inv_res. bools.
    match goal with Hg : get _ 0 = Some _ |- _ => apply get_Some in Hg as [_ Hg] end.
    destruct x as [|d ders]; [done|]. simplify_eq/=.
    do 4 eexists. split_and!; [done|done|done|done| |done]. eauto.
  - intros (ders & pd & pck & cs & -> & Hh & Hc & Hn & (vk & s & Hvk & Hs & Hsig) & Hv).
    cbn [map_err]. ok_step. rewrite (proj2 (N.leb_le 2 (blen ders))) by lia.
    assert (get ders 0 = Some pd) as Hg.
    { apply get_Some. split; [lia|]. by destruct ders. }
    rewrite (index_Some _ _ _ Hg). ok_step. rewrite Hc. cbn [ok_or]. ok_step.
    rewrite Hvk. cbn [ok_or]. ok_step. rewrite Hs. cbn [ok_or]. ok_step.
    rewrite (proj2 (N.leb_le 3 (blen ders))), Hv, Hsig by done. done.
Qed.

Lemma verify_pck_safe pem rep sg now : safe (verify_pck pem rep sg now) (fun _ => True).
Proof.
  unfold verify_pck. wp. apply safe_map_err. eapply safe_mono; [apply parse_pem_chain_safe|].
  intros ders _ [Hl _]. destruct (2 <=? blen ders) eqn:E2; [|done]. bools. wp.
  apply safe_index; [lia|]. intros d _. wp. destruct (3 <=? blen ders); [|done]. wp.
  apply safe_map_err. eapply safe_mono; [eapply decides_safe, validate_chain_decides|]. done.
Qed.

(** The fields of the certification data, where the code reads them. *)
Record qe_fields (cd rep rsig a auth b c pem : bytes) : Prop := {
  qf_len : blen cd = 456 + blen auth + blen pem;
  qf_report : index_range (E:=VerifyError) cd 0 384 = Ok rep;
  qf_sig : index_range (E:=VerifyError) cd 384 448 = Ok rsig;
  qf_asize : index_range (E:=VerifyError) cd 448 450 = Ok a;
  qf_auth : index_range (E:=VerifyError) cd 450 (450 + blen auth) = Ok auth;
  qf_type : index_range (E:=VerifyError) cd (450 + blen auth) (450 + blen auth + 2) = Ok b;
  qf_size : index_range (E:=VerifyError) cd (450 + blen auth + 2) (450 + blen auth + 6) = Ok c;
  qf_pem : index_range (E:=VerifyError) cd (450 + blen auth + 6) (450 + blen auth + 6 + blen pem) = Ok pem;
}.
Lemma qe_fields_app rep rsig a auth b c pem :
  blen rep = 384 -> blen rsig = 64 -> blen a = 2 -> blen b = 2 -> blen c = 4 ->
  qe_fields (rep ++ rsig ++ a ++ auth ++ b ++ c ++ pem) rep rsig a auth b c pem.
Proof.
  intros. split; [rewrite !blen_app; lia|..]; slices; try done.
Qed.

Lemma qe_split cd : 456 <= blen cd -> le_to_N (slice cd 448 450) + 456 <= blen cd ->
  exists rep rsig a auth b c pem,
    cd = rep ++ rsig ++ a ++ auth ++ b ++ c ++ pem /\ blen rep = 384 /\ blen rsig = 64 /\
    blen a = 2 /\ le_to_N a = blen auth /\ blen b = 2 /\ blen c = 4.
Proof.
  intros H1 H2.
  destruct (split_at cd 384) as (rep & q & -> & ?); [lia|]. rewrite blen_app in *.
  destruct (split_at q 64) as (rsig & q1 & -> & ?); [lia|]. rewrite blen_app in *.
  destruct (split_at q1 2) as (a & q2 & -> & ?); [lia|]. rewrite blen_app in *.
  rewrite !slice_right in H2 by lia. rewrite slice_left, slice_all in H2 by lia.
  destruct (split_at q2 (le_to_N a)) as (auth & q3 & -> & ?); [lia|]. rewrite blen_app in *.
  destruct (split_at q3 2) as (b & q4 & -> & ?); [lia|]. rewrite blen_app in *.
  destruct (split_at q4 4) as (c & pem & -> & ?); [lia|].
  exists rep, rsig, a, auth, b, c, pem. by split_and!.
Qed.

(** The certification data of the quoting enclave. *)
Definition qe_valid (ak rep rsig auth pem : bytes) (now : N) : Prop :=
  sha256 (ak ++ auth) = slice rep 320 352 /\ pck_signed pem rep rsig now.

Lemma verify_qe_fields cd ak now rep rsig a auth b c pem :
  qe_fields cd rep rsig a auth b c pem -> blen rep = 384 -> le_to_N a = blen auth ->
  verify_qe cd ak now =
  (fail_if (negb (bytes_eqb (sha256 (ak ++ auth)) (slice rep 320 352)))
     "TDX: AK not bound to QE (hash mismatch)";;
   fail_if (negb (le_to_N b =? 5) || negb (le_to_N c =? blen pem))
     "TDX unsupported/trailing PCK certification data";;
   '(q, ch) ← verify_pck pem rep rsig now;
   fail_if (negb q) "TDX: QE report signature verification FAILED";;
   Ok (q, ch)).
Proof.
  intros [Hl Hr Hs Has Hau Ht Hsz Hp] Hrep Ha. unfold verify_qe, le_at.
  rewrite (proj2 (N.leb_le 450 (blen cd))) by lia. rewrite Hr. ok_step. rewrite Hs. ok_step.
  rewrite Has. do 2 ok_step. rewrite Ha. pass ltac:(apply N.ltb_ge; lia).
  rewrite Hau. ok_step. rewrite (index_range_slice rep 320 384) by lia. ok_step.
  rewrite (index_range_slice (slice rep 320 384) 0 32) by (rewrite ?blen_slice; lia). ok_step. rewrite slice_slice by lia.
  change (320 + 0) with 320. change (320 + 32) with 352.
  destruct (reject_if _ _) as [[]|e| |]; [|done..]. ok_step.
  rewrite (proj2 (N.leb_le _ (blen cd))) by lia. rewrite Ht. do 2 ok_step. rewrite Hsz. do 2 ok_step.
  replace (blen cd - (450 + blen auth) - 6) with (blen pem) by lia. ok_step.
  destruct (le_to_N b =? 5); cbn [negb orb reject_if]; [|done].
  destruct (N.eqb_spec (le_to_N c) (blen pem)) as [->|]; [|done]. cbn [negb reject_if]. ok_step.
  rewrite Hp. ok_step. done.
Qed.

Lemma verify_qe_len cd ak now ch : verify_qe cd ak now = Ok (true, ch) ->
  le_to_N (slice cd 448 450) + 456 <= blen cd.
Proof.
  unfold verify_qe, le_at. destruct (N.leb_spec 450 (blen cd)); [|done].
  rewrite (index_range_slice cd 448 450) by lia. intros Hv.
  apply bind_Ok in Hv as (rep & _ & Hv). apply bind_Ok in Hv as (rsig & _ & Hv).
  rewrite res_bind_Ok in Hv. rewrite res_bind_Ok in Hv. cbv beta in Hv.
  apply bind_Ok in Hv as (? & Hn%reject_if_Ok%N.ltb_ge & Hv).
  do 4 (apply bind_Ok in Hv as (? & _ & Hv)).
  apply bind_Ok in Hv as ([q c] & Hq & Hv). inv_res.
  destruct (N.leb_spec (450 + le_to_N (slice cd 448 450) + 6) (blen cd)); [lia|]. by simplify_eq/=.
Qed.

Lemma verify_qe_exact cd ak now :
  verify_qe cd ak now = Ok (true, true) <->
  exists rep rsig auth pem, cd = qe_bytes rep rsig auth pem /\ blen rep = 384 /\ blen rsig = 64 /\
    blen auth <= u16_max /\ blen pem <= u32_max /\ qe_valid ak rep rsig auth pem now.
Proof.
  split.
  - intros Hv. pose proof (verify_qe_len _ _ _ _ Hv).
    destruct (qe_split cd) as (rep & rsig & a & auth & b & c & pem & -> & Hr & Hs & Hla & Ha & Hlb & Hlc); [lia..|].
    erewrite verify_qe_fields in Hv by (first [by apply qe_fields_app | done]).
    apply bind_Ok in Hv as (? & Hak%reject_if_Ok & Hv). apply bind_Ok in Hv as (? & Hin%reject_if_Ok & Hv).
    apply bind_Ok in Hv as ([q ch] & Hp & Hv). inv_res. bools.
    exists rep, rsig, auth, pem. unfold qe_bytes, qe_valid.
    pose proof (le_to_N_bound a) as Hba. pose proof (le_to_N_bound c) as Hbc. rewrite Hla in Hba. rewrite Hlc in Hbc.
    rewrite <- (le_to_N_eq a 2 (blen auth)), <- (le_to_N_eq b 2 5), <- (le_to_N_eq c 4 (blen pem)) by done.
    split_and!; try done.
    + rewrite Ha in Hba. unfold u16_max. change (256 ^ 2) with 65536 in Hba. lia.
    + unfold u32_max. change (256 ^ 4) with 4294967296 in Hbc. lia.
    + by apply verify_pck_exact.
  - intros (rep & rsig & auth & pem & -> & Hr & Hs & Ha & Hp & Hak & Hpck%verify_pck_exact).
    unfold u16_max, u32_max in *.
    erewrite verify_qe_fields; [|apply qe_fields_app; [done|done|apply blen_N_to_le..]|done|
      apply le_to_N_to_le; change (256 ^ N.of_nat 2) with 65536; lia].
    pass ltac:(bools; done).
    pass ltac:(rewrite !le_to_N_to_le by (cbn; lia); bools; done).
    rewrite Hpck. done.
Qed.

Lemma safe_le_at b i j (Q : N -> Prop) : i <= j -> j <= blen b -> (forall n, Q n) -> safe (le_at b i j) Q.
Proof. intros. unfold le_at. rewrite index_range_slice by done. simpl. auto. Qed.

Lemma verify_qe_safe cd ak now : safe (verify_qe cd ak now) (fun _ => True).
Proof.
  unfold verify_qe. destruct (N.leb_spec 450 (blen cd)); [|done].
  rewrite (index_range_slice cd 0 384), (index_range_slice cd 384 448) by lia. repeat ok_step.
  apply safe_bind, safe_le_at; [lia|lia|]. intros n. wp. bools.
  apply safe_index_range; [lia|lia|]. intros ? _ _. wp.
  apply safe_index_range; [lia|rewrite blen_slice; lia|]. intros rd _ Hrd. wp.
  apply safe_index_range; [lia|lia|]. intros ? _ _. wp.
  apply (safe_mono _ (fun _ => True)); [|intros [q ch] _ _; wp; done].
  destruct (N.leb_spec (450 + n + 6) (blen cd)); [|done].
  apply safe_bind, safe_le_at; [lia|lia|]. intros t.
  apply safe_bind, safe_le_at; [lia|lia|]. intros sz. wp. bools. subst sz.
  apply safe_index_range; [lia|lia|]. intros ? _ _. wp. apply verify_pck_safe.
Qed.

Lemma tdx_header_fields hdr q : blen hdr = 48 ->
  tdx_header (hdr ++ q) =
  (fail_if (negb (le_to_N (slice hdr 0 2) =? 4)) "TDX quote version, only v4 is supported";;
   fail_if (negb (bytes_eqb (slice hdr 2 4) [x02; x00])) "TDX unsupported attestation key type";;
   fail_if (negb (le_to_N (slice hdr 4 8) =? 0x81)) "TDX tee_type, expected 0x81").
Proof.
  intros Hh. unfold tdx_header, le_at.
  rewrite (index_range_left hdr q 0 2), (index_range_left hdr q 2 4), (index_range_left hdr q 4 8) by lia.
  done.
Qed.

Lemma tdx_measurements_body body v q ch : blen body = 584 ->
  tdx_measurements body (slice body 520 584) v q ch =
  Ok (take 6 (tdx_claims body) ++
      [(lit "QUOTE_SIG_VERIFIED", flag v); (lit "QE_SIG_VERIFIED", flag q); (lit "CHAIN_VERIFIED", flag ch)]).
Proof. intros Hb. unfold tdx_measurements. rewrite !index_range_slice by lia. done. Qed.

Lemma verify_tdx_fields hdr body z sig ak ty cz cd binding now :
  blen hdr = 48 -> blen body = 584 -> blen z = 4 -> blen sig = 64 -> blen ak = 64 ->
  blen ty = 2 -> blen cz = 4 -> le_to_N z = 134 + blen cd ->
  verify_tdx_quote (hdr ++ body ++ z ++ sig ++ ak ++ ty ++ cz ++ cd) binding now =
  (tdx_header (hdr ++ body ++ z ++ sig ++ ak ++ ty ++ cz ++ cd);;
   fail_if (negb (bytes_eqb (slice body 520 552) binding))
     "TDX: REPORTDATA[0..32] does not match EAT binding";;
   qs ← ok_or (sig_from_slice p256 sig) (PlatformError "TDX parse quote sig");
   vk ← ok_or (from_sec1 p256 (x04 :: ak)) (PlatformError "TDX AK key");
   fail_if (negb (verify_prehash p256 vk (sha256 (hdr ++ body)) qs))
     "TDX: quote signature verification FAILED";;
   fail_if (negb (le_to_N ty =? 6) || negb (le_to_N cz =? blen cd))
     "TDX unsupported/trailing certification data";;
   '(q, ch) ← verify_qe cd ak now;
   ms ← tdx_measurements body (slice body 520 584) (verify_prehash p256 vk (sha256 (hdr ++ body)) qs) q ch;
   Ok (verify_prehash p256 vk (sha256 (hdr ++ body)) qs && q && ch, ms)).
Proof.
  intros Hh Hb Hz Hs Hak Hty Hcz Hlen. unfold verify_tdx_quote, le_at.
  set (raw := hdr ++ body ++ _). assert (blen raw = 770 + blen cd) as Hraw.
  { unfold raw. rewrite !blen_app. lia. }
  set (sd := sig ++ ak ++ ty ++ cz ++ cd) in raw. assert (blen sd = 134 + blen cd) as Hsd.
  { unfold sd. rewrite !blen_app. lia. }
  assert (index_range (E:=VerifyError) raw 48 632 = Ok body) as Ebody by (unfold raw; slices; done).
  assert (index_range (E:=VerifyError) raw 632 636 = Ok z) as Ez by (unfold raw; slices; done).
  assert (index_range (E:=VerifyError) raw 636 (636 + le_to_N z) = Ok sd) as Esd by (unfold raw; slices; done).
  assert (index_range (E:=VerifyError) raw 0 632 = Ok (hdr ++ body)) as Ehb.
  { unfold raw. rewrite app_assoc. apply index_range_app_0. rewrite blen_app. lia. }
  pass ltac:(apply N.ltb_ge; lia).
  destruct (tdx_header raw) as [[]|e| |]; [|done..]. do 2 ok_step. rewrite Ebody. ok_step.
  rewrite (index_range_slice body 520 584) by lia. ok_step.
  rewrite (index_range_slice (slice body 520 584) 0 32) by (rewrite ?blen_slice; lia). ok_step.
  rewrite (slice_slice body 520 584 0 32) by lia. change (520 + 0) with 520. change (520 + 32) with 552.
  destruct (reject_if (negb (bytes_eqb (slice body 520 552) binding)) _) as [[]|e| |]; [|done..]. do 2 ok_step.
  rewrite Ez. do 2 ok_step. pass ltac:(bools; lia). rewrite Esd. ok_step.
  pass ltac:(apply N.ltb_ge; lia).
  assert (index_range (E:=VerifyError) sd 0 64 = Ok sig) as -> by (unfold sd; slices; done). ok_step.
  destruct (ok_or (sig_from_slice p256 sig) _) as [qs|e| |]; [|done..]. do 2 ok_step.
  assert (index_range (E:=VerifyError) sd 64 128 = Ok ak) as -> by (unfold sd; slices; done). ok_step.
  destruct (ok_or (from_sec1 p256 _) _) as [vk|e| |]; [|done..]. do 2 ok_step. rewrite Ehb. ok_step.
  destruct (reject_if _ _) as [[]|e| |]; [|done..]. do 2 ok_step.
  assert (index_range (E:=VerifyError) sd 128 130 = Ok ty) as -> by (unfold sd; slices; done). do 2 ok_step.
  assert (index_range (E:=VerifyError) sd 130 134 = Ok cz) as -> by (unfold sd; slices; done). do 2 ok_step.
  replace (blen sd - 134) with (blen cd) by lia.
  destruct (le_to_N ty =? 6); cbn [negb orb reject_if]; [|done].
  destruct (N.eqb_spec (le_to_N cz) (blen cd)) as [->|]; [|done]. cbn [negb reject_if]. do 2 ok_step.
  assert (index_range (E:=VerifyError) sd 134 (134 + blen cd) = Ok cd) as -> by (unfold sd; slices; done).
  ok_step. done.
Qed.

Lemma verify_tdx_safe raw binding now : safe (verify_tdx_quote raw binding now) (fun _ => True).
Proof.
  unfold verify_tdx_quote, tdx_header. wp. bools.
  apply safe_le_at; [lia..|]. intros ver. wp.
  apply safe_index_range; [lia..|]. intros kt _ _. wp. apply safe_le_at; [lia..|]. intros tt'. wp.
  apply safe_index_range; [lia..|]. intros body _ Hb. wp.
  apply safe_index_range; [lia..|]. intros rd _ Hrd. wp.
  apply safe_index_range; [lia..|]. intros ? _ _. wp. apply safe_le_at; [lia..|]. intros n. wp. bools. subst n.
  apply safe_index_range; [lia..|]. intros sd _ Hsd. wp. bools.
  apply safe_index_range; [lia..|]. intros ? _ _. wp.
  apply safe_index_range; [lia..|]. intros ? _ _. wp.
  apply safe_index_range; [lia..|]. intros ? _ _. wp.
  apply safe_le_at; [lia..|]. intros ty. wp. apply safe_le_at; [lia..|]. intros n. wp. bools. subst n.
  apply safe_index_range; [lia..|]. intros cd _ _. wp.
  eapply safe_mono; [apply verify_qe_safe|]. intros [q ch] _ _. wp.
  unfold tdx_measurements. wp. do 5 (apply safe_index_range; [lia..|]; intros ? _ _; wp). done.
Qed.

(** An accepted quote splits into the parts that the code reads. *)
Lemma verify_tdx_split raw binding now r : verify_tdx_quote raw binding now = Ok r ->
  exists hdr body z sig ak ty cz cd, raw = hdr ++ body ++ z ++ sig ++ ak ++ ty ++ cz ++ cd /\
    blen hdr = 48 /\ blen body = 584 /\ blen z = 4 /\ blen sig = 64 /\ blen ak = 64 /\
    blen ty = 2 /\ blen cz = 4 /\ le_to_N z = 134 + blen cd.
Proof.
  intros Hv. unfold verify_tdx_quote in Hv.
  apply bind_Ok in Hv as (? & Hlen%reject_if_Ok%N.ltb_ge & Hv).
  do 5 (apply bind_Ok in Hv as (? & _ & Hv)).
  apply bind_Ok in Hv as (n & Hn & Hv). apply bind_Ok in Hv as (? & Hsz%reject_if_Ok & Hv).
  apply bind_Ok in Hv as (sd & Hsd & Hv). apply bind_Ok in Hv as (? & Hsl%reject_if_Ok%N.ltb_ge & _).
  bools. subst n. unfold le_at in Hn.
  destruct (split_at raw 48) as (hdr & q & -> & ?); [lia|]. rewrite blen_app in *.
  destruct (split_at q 584) as (body & q1 & -> & ?); [lia|]. rewrite blen_app in *.
  destruct (split_at q1 4) as (z & q2 & -> & ?); [lia|]. rewrite blen_app in *.
  revert Hn Hsd. slices. ok_step. intros [= Hn] [= ->].
  destruct (split_at sd 64) as (sig & q3 & -> & ?); [lia|]. rewrite blen_app in *.
  destruct (split_at q3 64) as (ak & q4 & -> & ?); [lia|]. rewrite blen_app in *.
  destruct (split_at q4 2) as (ty & q5 & -> & ?); [lia|]. rewrite blen_app in *.
  destruct (split_at q5 4) as (cz & cd & -> & ?); [lia|]. rewrite blen_app in *.
  exists hdr, body, z, sig, ak, ty, cz, cd. split_and!; [done..|lia].
Qed.

Lemma verify_tdx_sound raw binding now ms : verify_tdx_quote raw binding now = Ok (true, ms) ->
  exists p, raw = encode_tdx p /\ tdx_sized p /\ tdx_genuine p binding now /\ ms = tdx_claims (t_body p).
Proof.
  intros Hv. destruct (verify_tdx_split _ _ _ _ Hv)
    as (hdr & body & z & sig & ak & ty & cz & cd & -> & Hh & Hb & Hlz & Hs & Hak & Hty & Hcz & Hz).
  rewrite verify_tdx_fields in Hv by done. rewrite tdx_header_fields in Hv by done.
  apply bind_Ok in Hv as (? & Hhd & Hv). apply bind_Ok in Hv as (? & Hbind%reject_if_Ok & Hv).
  apply bind_Ok in Hv as (qs & Hqs%ok_or_Ok & Hv). apply bind_Ok in Hv as (vk & Hvk%ok_or_Ok & Hv).
  apply bind_Ok in Hv as (? & Hsig%reject_if_Ok & Hv). apply bind_Ok in Hv as (? & Hcd%reject_if_Ok & Hv).
  apply bind_Ok in Hv as ([q ch] & Hqe & Hv). rewrite tdx_measurements_body in Hv by done.
  rewrite res_bind_Ok in Hv. injection Hv as Hval <-.
  apply andb_true_iff in Hval as [[Hval ->]%andb_true_iff ->]. rewrite Hval. inv_res. bools.
  apply verify_qe_exact in Hqe as (rep & rsig & auth & pem & -> & Hr & Hrs & Ha & Hp & Hak' & Hpck).
  set (p := {| t_header := hdr; t_body := body; t_sig := sig; t_ak := ak; t_report := rep;
               t_report_sig := rsig; t_auth := auth; t_pem := pem |}).
  assert (ty = N_to_le 2 6 /\ cz = N_to_le 4 (blen (encode_qe p))) as [-> ->].
  { split; by apply le_to_N_eq. }
  assert (le_to_N z = blen (encode_signature p)) as Hz'.
  { rewrite Hz. unfold encode_signature. rewrite !blen_app, !blen_N_to_le.
    change (t_sig p) with sig. change (t_ak p) with ak.
    change (encode_qe p) with (qe_bytes rep rsig auth pem). lia. }
  pose proof (le_to_N_bound z) as Hbz. rewrite Hlz in Hbz. change (256 ^ 4) with 4294967296 in Hbz.
  exists p. split_and!.
  + unfold encode_tdx. by rewrite <- (le_to_N_eq z 4 _ Hlz Hz').
  + split; try done. unfold u32_max. lia.
  + split; try done. by exists vk, qs.
  + done.
Qed.

Lemma verify_tdx_complete p binding now : tdx_sized p -> tdx_genuine p binding now ->
  verify_tdx_quote (encode_tdx p) binding now = Ok (true, tdx_claims (t_body p)).
Proof.
  intros [Hh Hb Hs Hak Hr Hrs Ha Ht] [Hver Hkt Htee Hbind (vk & qs & Hvk & Hqs & Hsig) Hakb Hpck].
  unfold u32_max in Ht. unfold encode_tdx.
  assert (blen (encode_signature p) = 134 + blen (encode_qe p)) as Hl.
  { unfold encode_signature. rewrite !blen_app, !blen_N_to_le. lia. }
  assert (le_to_N (N_to_le 4 (blen (encode_signature p))) = blen (encode_signature p)) as Hz.
  { apply le_to_N_to_le. cbn. lia. }
  rewrite Hl in Hz. unfold encode_signature at 2. rewrite Hl, verify_tdx_fields by (done || apply blen_N_to_le).
  rewrite tdx_header_fields by done.
  rewrite Hver, Hkt, Htee. rewrite !N.eqb_refl. cbn [negb].
  rewrite (proj2 (bytes_eqb_eq _ _) eq_refl). cbn [negb reject_if]. do 3 ok_step.
  rewrite (reject_if_false (negb (bytes_eqb _ _))) by (bools; done). ok_step.
  rewrite Hqs. cbn [ok_or]. ok_step. rewrite Hvk. cbn [ok_or]. ok_step. rewrite Hsig.
  pass ltac:(done). pass ltac:(rewrite !le_to_N_to_le by (cbn; lia); bools; done).
  rewrite (proj2 (verify_qe_exact (encode_qe p) (t_ak p) now)).
  { ok_step. rewrite tdx_measurements_body by done. done. }
  exists (t_report p), (t_report_sig p), (t_auth p), (t_pem p). split_and!; try done.
  unfold u32_max. revert Ht Hl. unfold encode_qe, qe_bytes. rewrite !blen_app. lia.
Qed.

(** [verify_tdx_quote] never panics, and it reports a quote as valid exactly when the
    quote is the version 4 encoding of some parts, without slack or trailing bytes,
    in which every link of the chain of trust holds: the header names an ECDSA TDX
    quote, the report data starts with the expected binding, the attestation key
    signs header and body, the QE report commits to the attestation key, the PCK
    certificate signs the QE report, and its path validates to the pinned Intel root.
    The reported measurements are the registers at their offsets in that body. *)
Theorem tdx_quote_exact raw binding now :
  safe (verify_tdx_quote raw binding now) (fun _ => True) /\
  forall ms, verify_tdx_quote raw binding now = Ok (true, ms) <->
    exists p, raw = encode_tdx p /\ tdx_sized p /\ tdx_genuine p binding now /\ ms = tdx_claims (t_body p).
Proof.
  split; [apply verify_tdx_safe|]. intros ms. split; [apply verify_tdx_sound|].
  intros (p & -> & Hs & Hg & ->). by apply verify_tdx_complete.
Qed.
End TdxSpec.

(** ** A concrete quote *)
Definition sample_mid : Certificate := {|
  cert_version := V3; serial_number := [x05]; tbs_signature := ecdsa_sha256;
  issuer := cn "root"; not_before := 0; not_after := 99; subject := cn "root";
  spki_algorithm := ec_spki P384_OID; spki_der := []; subject_public_key := octets [x0b];
  has_unique_ids := false; extensions := [];
  get_basic_constraints := Some (Some (true, {| ca := true; path_len_constraint := Some 0 |}));
  get_key_usage := Some (Some (true, issuing));
  get_eku := Some None; get_aki := Some None; get_ski := Some None; tbs_der := [x05];
  signature_algorithm := ecdsa_sha256; cert_signature := octets (x0b :: sha256 (Sha2 := toy_sha2) [x05]) |}.
Definition tdx_x509 : X509 := {|
  cert_from_der := fun b =>
    if bytes_eqb b [x05] then Some sample_mid else cert_from_der (X509 := toy_x509) b;
  crl_from_der := fun _ => None; aki_from_der := fun _ => None; crl_number_ok := fun _ => false;
  crl_reason_remove := fun _ => None; generalized_time_ok := fun _ => false; pss_from_der := fun _ => None;
  base64_decode := fun t => match t with [c] => Some [byte_of (byte_N c - 48)] | _ => None end |}.
(** A hash under which the sample root has a given fingerprint. *)
Definition pinned_sha2 (pin : bytes) : Sha2 := {|
  sha256 := fun b => if bytes_eqb b [x02] then default [] (hex_decode pin) else sha256 (Sha2 := toy_sha2) b;
  sha384 := sha384 (Sha2 := toy_sha2);
  sha512 := sha512 (Sha2 := toy_sha2) |}.
Definition pad (n : nat) (b : bytes) : bytes := take n (b ++ replicate n x00).

Definition sample_tdx : TdxParts :=
  let sha := sha256 (Sha2 := toy_sha2) in
  let hdr := pad 48 [x04; x00; x02; x00; x81] in
  let body := pad 520 (replicate 520 x33) ++ pad 64 (replicate 32 x0c) in
  let ak := pad 64 [x07] in
  let report := replicate 320 x00 ++ pad 64 (sha (ak ++ [x09])) in
  {| t_header := hdr; t_body := body; t_sig := pad 64 (x04 :: take 8 (sha (hdr ++ body))); t_ak := ak;
     t_report := report; t_report_sig := pad 64 (x0a :: take 8 (sha report)); t_auth := [x09];
     t_pem := pem_text [(lit "1", []); (lit "5", []); (lit "2", [])] |}.
Example sample_tdx_accepted :
  verify_tdx_quote (X := tdx_x509) (K := toy_cpu) (H := pinned_sha2 INTEL_SGX_ROOT_SHA256)
    (encode_tdx sample_tdx) (replicate 32 x0c) 15
  = Ok (true, tdx_claims (t_body sample_tdx)).
Proof. vm_compute. reflexivity. Qed.
