(* ===== verification/SnpQuote.v ===== *)
(** * SnpQuote: AMD SEV-SNP reports of [src/v2/src/quote/verify.rs]

    A report of 1184 bytes, signed with ECDSA P-384 by a VCEK or VLEK endorsement key,
    and optionally followed by a table of certificates.  The key chains to the pinned
    AMD root of the product line ([snp_product] and [extract_kds_params] of
    [src/v2/src/tee/kds.rs]).

    Missing certificates may come from AMD's service over the network: [Kds] stands
    for it, and the theorems hold whatever it answers.

    [snp_table_exact] characterises the accepted certificate tables by their layout;
    [snp_quote_sound] states what a valid report guarantees. *)
From S2P Require Import Prelude Bytes Ranges Text Crypto Eat Pki Crl Pem TdxQuote.

(** ** The certificate table *)
Definition VCEK_GUID : bytes := byte_of <$>
  [0x63; 0xda; 0x75; 0x8d; 0xe6; 0x64; 0x45; 0x64; 0xad; 0xc5; 0xf4; 0xb9; 0x3b; 0xe8; 0xac; 0xcd].
Definition VLEK_GUID : bytes := byte_of <$>
  [0xa8; 0x07; 0x4b; 0xc2; 0xa2; 0x5a; 0x48; 0x3e; 0xaa; 0xe6; 0x39; 0xc0; 0x45; 0xa0; 0xb8; 0xa1].
Definition ASK_GUID : bytes := byte_of <$>
  [0x4a; 0xb7; 0xb3; 0x79; 0xbb; 0xac; 0x4f; 0xe4; 0xa0; 0x2f; 0x05; 0xae; 0xf3; 0x27; 0xc7; 0x82].
Definition ARK_GUID : bytes := byte_of <$>
  [0xc0; 0xb4; 0x06; 0xa4; 0xa8; 0x03; 0x49; 0x52; 0x97; 0x43; 0x3f; 0xb6; 0x01; 0x4c; 0xd0; 0xae].
Definition table_start : N := 0x4A0.

(** The four [&mut Option<Vec<u8>>] of the caller. *)
Record SnpCerts : Type := {
  vcek : option bytes; vlek : option bytes; ask : option bytes; ark : option bytes;
}.
Definition no_certs : SnpCerts := {| vcek := None; vlek := None; ask := None; ark := None |}.
Definition store_cert (cs : SnpCerts) (guid data : bytes) : SnpCerts :=
  if bytes_eqb guid VCEK_GUID then {| vcek := Some data; vlek := vlek cs; ask := ask cs; ark := ark cs |}
  else if bytes_eqb guid VLEK_GUID then {| vcek := vcek cs; vlek := Some data; ask := ask cs; ark := ark cs |}
  else if bytes_eqb guid ASK_GUID then {| vcek := vcek cs; vlek := vlek cs; ask := Some data; ark := ark cs |}
  else if bytes_eqb guid ARK_GUID then {| vcek := vcek cs; vlek := vlek cs; ask := ask cs; ark := Some data |}
  else cs.

(** One round of the loop after the terminator test: the new state. *)
Record TableState : Type := {
  tb_offset : N; tb_seen : gset bytes; tb_ranges : list (N * N); tb_certs : SnpCerts;
}.
Definition table_entry (raw : bytes) (st : TableState) (guid : bytes) : res VerifyError TableState :=
  let offset := tb_offset st in
  fail_if (bool_decide (guid ∈ tb_seen st) || (32 <? N.of_nat (size ({[guid]} ∪ tb_seen st))))
    "SNP duplicate/excessive certificate table entries";;
  data_offset ← le_at raw (offset + 16) (offset + 20);
  data_length ← le_at raw (offset + 20) (offset + 24);
  abs_offset ← ok_or (checked_add usize_max table_start data_offset)
                 (PlatformError "SNP certificate offset overflow");
  fail_if ((data_length =? 0) || (256 * 1024 <? data_length) || (abs_offset <? offset + 24)
           || (blen raw - abs_offset <? data_length)) "SNP certificate table range invalid";;
  cert_data ← index_range raw abs_offset (abs_offset + data_length);
  Ok {| tb_offset := offset + 24; tb_seen := {[guid]} ∪ tb_seen st;
        tb_ranges := tb_ranges st ++ [(abs_offset, abs_offset + data_length)];
        tb_certs := store_cert (tb_certs st) guid cert_data |}.

(** The loop: at most 32 distinct entries and a terminator. *)
Fixpoint table_loop (fuel : nat) (raw : bytes) (st : TableState) : res VerifyError TableState :=
  match fuel with
  | O => NoFuel
  | S fuel =>
    let offset := tb_offset st in
    fail_if (blen raw <? offset + 24) "SNP unterminated certificate table";;
    guid ← index_range raw offset (offset + 16);
    if bytes_eqb guid (replicate 16 x00) then
      tail ← index_range raw (offset + 16) (offset + 24);
      fail_if (any_nonzero tail) "SNP invalid table terminator";;
      Ok st
    else
      st ← table_entry raw st guid;
      table_loop fuel raw st
  end.

Definition parse_snp_cert_table (raw : bytes) (certs : SnpCerts) : res VerifyError SnpCerts :=
  if blen raw =? table_start then Ok certs
  else
    fail_if (blen raw <? table_start + 24) "SNP truncated certificate table";;
    st ← table_loop 34 raw {| tb_offset := table_start; tb_seen := ∅; tb_ranges := []; tb_certs := certs |};
    check_disjoint (PlatformError "SNP overlapping certificate table ranges") (tb_ranges st)
      (tb_offset st + 24);;
    Ok (tb_certs st).

(** ** Product detection *)
Definition snp_product (report : bytes) : res VerifyError bytes :=
  fail_if (blen report <? 0x18b) "report too short for product detection";;
  fam ← index report 0x188;
  model ← index report 0x189;
  version ← le_at report 0 4;
  fail_if (negb ((3 <=? version) && (version <=? 5)) || (byte_N fam =? 0))
    "SNP product is unavailable from this report; supply independent product policy and collateral";;
  if (byte_N fam =? 0x19) && (byte_N model <=? 0x0f) then Ok (lit "Milan")
  else if (byte_N fam =? 0x19) && (0x10 <=? byte_N model) && (byte_N model <=? 0x1f) then Ok (lit "Genoa")
  else if (byte_N fam =? 0x1a) && (byte_N model <=? 0x1f) then Ok (lit "Turin")
  else Err (PlatformError "unknown AMD product").

Record KdsParams : Type := {
  kp_product : bytes; kp_chip_id : bytes; kp_bl : byte; kp_tee : byte; kp_snp : byte; kp_ucode : byte;
}.
Definition extract_kds_params (report : bytes) : res VerifyError KdsParams :=
  fail_if (blen report <? 0x1E0) "Report too short";;
  product ← snp_product report;
  fail_if (bytes_eqb product (lit "Turin"))
    "legacy KDS parameters cannot represent Turin FMC; provide explicit endorsement collateral";;
  chip_id ← index_range report 0x1A0 0x1E0;
  tcb ← index_range report 0x180 0x188;
  bl ← index tcb 0; tee ← index tcb 1; snp ← index tcb 6; ucode ← index tcb 7;
  Ok {| kp_product := product; kp_chip_id := chip_id; kp_bl := bl; kp_tee := tee; kp_snp := snp;
        kp_ucode := ucode |}.

(** AMD's key distribution service, over the network. *)
Class Kds := {
  fetch_cert_chain_kind : bytes -> bytes -> option (bytes * bytes);
  fetch_vcek : KdsParams -> option bytes;
}.

Section Snp.
Context `{X : X509} `{K : CpuCrypto} `{H : Sha2} `{D : Kds}.

Definition check_snp_header (raw : bytes) : res VerifyError bool :=
  version ← le_at raw 0 4;
  fail_if (negb (version =? 2) && negb (version =? 5)) "SNP report version, expected 2 or 5";;
  signature_algorithm ← le_at raw 0x34 0x38;
  key_info ← le_at raw 0x48 0x4c;
  fail_if (negb (signature_algorithm =? 1) || (1 <? N.land (N.shiftr key_info 2) 7)
           || negb (N.ldiff key_info 0x1f =? 0))
    "SNP unsupported signature algorithm/signing-key encoding";;
  pad1 ← index_range raw 0x2d0 0x2e8;
  pad2 ← index_range raw 0x318 0x4a0;
  fail_if (any_nonzero (pad1 ++ pad2)) "SNP nonzero reserved signature bytes";;
  Ok (N.land (N.shiftr key_info 2) 7 =? 1).

(** The scalars are little-endian; the verifier wants them big-endian. *)
Definition snp_signature (raw : bytes) : res VerifyError bytes :=
  r ← index_range raw 0x2A0 0x2D0;
  s ← index_range raw 0x2E8 0x318;
  Ok (rev r ++ rev s).

(** The endorsement key of the kind that signs the report. *)
Definition leaf_of (is_vlek : bool) (cs : SnpCerts) : option bytes :=
  if is_vlek then vlek cs else vcek cs.

(** Certificates that the caller supplies must agree with the embedded ones. *)
Definition differs (o : option bytes) (b : bytes) : bool :=
  match o with Some v => negb (bytes_eqb v b) | None => false end.
Definition use_explicit (cs : SnpCerts) (is_vlek : bool) (chain : list bytes) : res VerifyError SnpCerts :=
  fail_if (negb (blen chain =? 3)) "SNP requires leaf/intermediate/root collateral chain";;
  c0 ← index chain 0; c1 ← index chain 1; c2 ← index chain 2;
  fail_if (differs (leaf_of is_vlek cs) c0 || differs (ask cs) c1 || differs (ark cs) c2)
    "SNP embedded/collateral certificate paths disagree";;
  Ok {| vcek := if is_vlek then vcek cs else Some c0; vlek := if is_vlek then Some c0 else vlek cs;
        ask := Some c1; ark := Some c2 |}.

(** Certificates from the service, when they are missing. *)
Definition get_or_insert (o : option bytes) (b : bytes) : option bytes := Some (default b o).
Definition fetch_missing (raw : bytes) (cs : SnpCerts) (is_vlek : bool) (product : bytes) :
    res VerifyError SnpCerts :=
  if is_vlek then
    if bool_decide (ask cs = None) || bool_decide (ark cs = None) then
      match fetch_cert_chain_kind product (lit "vlek") with
      | Some (a, r) => Ok {| vcek := vcek cs; vlek := vlek cs; ask := get_or_insert (ask cs) a;
                             ark := get_or_insert (ark cs) r |}
      | None => Ok cs
      end
    else Ok cs
  else if bool_decide (vcek cs = None) then
    match extract_kds_params raw with
    | Ok p =>
      match fetch_vcek p with
      | Some v =>
        match fetch_cert_chain_kind (kp_product p) (lit "vcek") with
        | Some (a, r) => Ok {| vcek := Some v; vlek := vlek cs; ask := Some a; ark := Some r |}
        | None => Ok {| vcek := Some v; vlek := vlek cs; ask := ask cs; ark := ark cs |}
        end
      | None => Ok cs
      end
    | Err _ => Ok cs
    | Panic => Panic
    | NoFuel => NoFuel
    end
  else Ok cs.

Definition ark_fingerprint (product : bytes) : res VerifyError bytes :=
  if bytes_eqb product (lit "Milan") then Ok AMD_ARK_MILAN_SHA256
  else if bytes_eqb product (lit "Genoa") then Ok AMD_ARK_GENOA_SHA256
  else if bytes_eqb product (lit "Turin") then Ok AMD_ARK_TURIN_SHA256
  else Err (PlatformError "SNP: no pinned AMD ARK for product line").

(** The signature and the chain: whether each was verified. *)
Definition verify_endorsement (leaf : option bytes) (cs : SnpCerts) (product digest : bytes)
    (sig : EcSignature p384) (now : N) : res VerifyError (bool * bool) :=
  match leaf with
  | Some leaf =>
    cert ← ok_or (cert_from_der leaf) (PlatformError "parse endorsement cert");
    vk ← ok_or (from_sec1 p384 (raw_bytes (subject_public_key cert))) (PlatformError "endorsement P-384 key");
    let sig_verified := verify_prehash p384 vk digest sig in
    fail_if (negb sig_verified) "SNP: report signature verification FAILED against endorsement key";;
    match ask cs, ark cs with
    | Some ask, Some ark =>
      expected_fp ← ark_fingerprint product;
      fail_if (negb (verify_root_fingerprint ark expected_fp))
        "SNP: ARK fingerprint does not match pinned AMD root";;
      map_err PkixError (validate_chain [leaf; ask; ark] expected_fp now AmdEndorsement);;
      Ok (sig_verified, true)
    | _, _ => Ok (sig_verified, false)
    end
  | None => Ok (false, false)
  end.

Definition verify_snp_quote (raw expected_binding : bytes) (now : N)
    (explicit_chain : option (list bytes * bytes)) : res VerifyError (bool * Measurements) :=
  fail_if (blen raw <? 0x4a0) "SNP report too short for signature verification";;
  is_vlek ← check_snp_header raw;
  measurement ← index_range raw 0x090 0x0C0;
  report_data ← index_range raw 0x050 0x090;
  rd32 ← index_range report_data 0 32;
  fail_if (negb (bytes_eqb rd32 expected_binding)) "SNP: REPORT_DATA[0..32] does not match EAT binding";;
  host_data ← index_range raw 0x0C0 0x0E0;
  signed_data ← index_range raw 0x000 0x2A0;
  sig_bytes ← snp_signature raw;
  sig ← ok_or (sig_from_slice p384 sig_bytes) (PlatformError "SNP parse signature");
  certs ← (if 0x4A0 <? blen raw then parse_snp_cert_table raw no_certs else Ok no_certs);
  certs ← match explicit_chain with
          | Some chain => use_explicit certs is_vlek chain.1
          | None => Ok certs
          end;
  product ← match explicit_chain with
            | Some chain => Ok chain.2
            | None => snp_product raw
            end;
  certs ← fetch_missing raw certs is_vlek product;
  '(sig_verified, chain_verified) ←
    verify_endorsement (leaf_of is_vlek certs) certs product (sha384 signed_data) sig now;
  Ok (sig_verified && chain_verified,
      [(lit "MEASUREMENT", measurement); (lit "HOST_DATA", host_data); (lit "REPORT_DATA", report_data);
       (lit "SIG_VERIFIED", flag sig_verified); (lit "CHAIN_VERIFIED", flag chain_verified)]
      ++ if 0x4A0 <? blen raw then [(lit "HAS_CERT_TABLE", [x01])] else []).
End Snp.

(** ** Specification of the certificate table *)
Record CertEntry : Type := { ce_guid : bytes; ce_offset : N; ce_length : N }.
Definition encode_entry (e : CertEntry) : bytes :=
  ce_guid e ++ N_to_le 4 (ce_offset e) ++ N_to_le 4 (ce_length e).
Definition encode_table (es : list CertEntry) : bytes := es ≫= encode_entry.
Definition cert_range (e : CertEntry) : N * N :=
  (table_start + ce_offset e, table_start + ce_offset e + ce_length e).
Definition payload (raw : bytes) (e : CertEntry) : bytes := slice raw (cert_range e).1 (cert_range e).2.
Definition stored (raw : bytes) (certs : SnpCerts) (es : list CertEntry) : SnpCerts :=
  foldl (fun cs e => store_cert cs (ce_guid e) (payload raw e)) certs es.
Definition table_end (es : list CertEntry) : N := table_start + 24 * (blen es + 1).

Record entry_wf (raw : bytes) (e : CertEntry) : Prop := {
  ew_guid : blen (ce_guid e) = 16;
  ew_nonzero : ce_guid e <> replicate 16 x00;
  ew_offset : ce_offset e <= u32_max;
  ew_length : 0 < ce_length e <= 256 * 1024;
  ew_inside : (cert_range e).2 <= blen raw;
}.

(** Report, entries, a zero terminator, payloads: distinct keys, at most 32 entries, and
    payloads behind the table that do not overlap. *)
Record table_layout (raw : bytes) (es : list CertEntry) : Prop := {
  tl_bytes : exists report rest, blen report = table_start /\
    raw = report ++ encode_table es ++ replicate 24 x00 ++ rest;
  tl_entries : Forall (entry_wf raw) es;
  tl_guids : NoDup (ce_guid <$> es);
  tl_count : blen es <= 32;
  tl_behind : Forall (fun e => table_end es <= (cert_range e).1) es;
  tl_apart : pairwise_apart (cert_range <$> es);
}.

(** * Lemmas *)
Lemma blen_encode_entry e : blen (ce_guid e) = 16 -> blen (encode_entry e) = 24.
Proof. intros. unfold encode_entry. rewrite !blen_app, !blen_N_to_le. lia. Qed.
Lemma encode_table_app a b : encode_table (a ++ b) = encode_table a ++ encode_table b.
Proof. apply bind_app. Qed.
Lemma blen_encode_table raw es : Forall (entry_wf raw) es -> blen (encode_table es) = 24 * blen es.
Proof.
  induction 1 as [|e es [Hg _ _ _ _] _ IH]; [done|].
  change (encode_table (e :: es)) with (encode_entry e ++ encode_table es).
  rewrite blen_app, blen_encode_entry, IH, blen_cons by done. lia.
Qed.

(** The state of the loop after some entries. *)
Definition state_of (raw : bytes) (certs : SnpCerts) (es : list CertEntry) : TableState := {|
  tb_offset := table_start + 24 * blen es; tb_seen := list_to_set (ce_guid <$> es);
  tb_ranges := cert_range <$> es; tb_certs := stored raw certs es |}.
Lemma state_of_snoc raw certs es e :
  {| tb_offset := table_start + 24 * blen es + 24; tb_seen := {[ce_guid e]} ∪ list_to_set (ce_guid <$> es);
     tb_ranges := (cert_range <$> es) ++ [cert_range e];
     tb_certs := store_cert (stored raw certs es) (ce_guid e) (payload raw e) |}
  = state_of raw certs (es ++ [e]).
Proof.
  unfold state_of, stored. rewrite blen_app, !fmap_app, foldl_app, list_to_set_app_L. cbn.
  change (blen [e]) with 1. f_equal; [lia|set_solver].
Qed.

Lemma size_guids (es : list CertEntry) : NoDup (ce_guid <$> es) ->
  N.of_nat (size (list_to_set (C := gset bytes) (ce_guid <$> es))) = blen es.
Proof. intros Hn. rewrite size_list_to_set, length_fmap by done. done. Qed.

(** What one entry must satisfy given those before it. *)
Definition entry_fits (raw : bytes) (pre : list CertEntry) (e : CertEntry) : Prop :=
  ce_guid e ∉ ce_guid <$> pre /\ blen pre < 32 /\ entry_wf raw e /\
  table_start + 24 * blen pre + 24 <= (cert_range e).1.

Lemma table_reads raw report pre guid ob lb tail :
  raw = report ++ encode_table pre ++ guid ++ ob ++ lb ++ tail -> blen report = table_start ->
  Forall (entry_wf raw) pre -> blen guid = 16 -> blen ob = 4 -> blen lb = 4 ->
  let off := table_start + 24 * blen pre in
  off + 24 <= blen raw /\
  index_range (E:=VerifyError) raw off (off + 16) = Ok guid /\
  index_range (E:=VerifyError) raw (off + 16) (off + 20) = Ok ob /\
  index_range (E:=VerifyError) raw (off + 20) (off + 24) = Ok lb /\
  index_range (E:=VerifyError) raw (off + 16) (off + 24) = Ok (ob ++ lb).
Proof.
  intros Hraw Hrep Hpre%blen_encode_table Hg Ho Hl. cbv zeta. rewrite <- Hrep, Hraw. clear Hraw.
  split; [rewrite !blen_app; lia|]. split_and!; [slices; done..|].
  rewrite index_range_right, index_range_right, index_range_right by lia.
  rewrite app_assoc, index_range_left by (rewrite ?blen_app; lia).
  by rewrite slice_all by (rewrite ?blen_app; lia).
Qed.

Lemma table_entry_decides raw certs report pre guid ob lb tail :
  raw = report ++ encode_table pre ++ guid ++ ob ++ lb ++ tail -> blen report = table_start ->
  Forall (entry_wf raw) pre -> NoDup (ce_guid <$> pre) ->
  blen guid = 16 -> blen ob = 4 -> blen lb = 4 -> guid <> replicate 16 x00 ->
  let e := {| ce_guid := guid; ce_offset := le_to_N ob; ce_length := le_to_N lb |} in
  decides (table_entry raw (state_of raw certs pre) guid) (entry_fits raw pre e)
    (fun st => st = state_of raw certs (pre ++ [e])).
Proof.
  intros Hraw Hrep Hpre Hnd Hg Ho Hl Hnz e.
  destruct (table_reads _ _ _ _ _ _ _ Hraw Hrep Hpre Hg Ho Hl) as (Hend & _ & Eo & El & _).
  pose proof (le_to_N_bound ob) as Hbo. rewrite Ho in Hbo. change (256 ^ 4) with 4294967296 in Hbo.
  unfold table_entry, le_at. cbn [tb_offset tb_seen tb_ranges tb_certs state_of].
  destruct (bool_decide_reflect (guid ∈ list_to_set (C := gset bytes) (ce_guid <$> pre))) as [Hd|Hd];
    rewrite elem_of_list_to_set in Hd; [cbn; by intros [? _]|].
  assert (N.of_nat (size ({[guid]} ∪ list_to_set (C := gset bytes) (ce_guid <$> pre))) = blen pre + 1) as ->.
  { rewrite size_union by set_solver. rewrite size_singleton. pose proof (size_guids pre Hnd). lia. }
  cbn [orb]. destruct (N.ltb_spec 32 (blen pre + 1)); [cbn; intros (_ & ? & _); lia|].
  cbn [reject_if]. ok_step. rewrite Eo. do 2 ok_step. rewrite El. do 2 ok_step.
  destruct (checked_add _ _ _) as [abs|] eqn:Ea.
  2: { apply checked_add_None in Ea. unfold usize_max, u64_max, table_start in Ea. lia. }
  apply checked_add_Some in Ea as [-> _]. cbn [ok_or]. ok_step.
  change (le_to_N ob) with (ce_offset e). change (le_to_N lb) with (ce_length e).
  destruct (N.eqb_spec (ce_length e) 0); [cbn; intros (_ & _ & [] & _); lia|].
  destruct (N.ltb_spec (256 * 1024) (ce_length e)); [cbn; intros (_ & _ & [] & _); lia|].
  destruct (N.ltb_spec (table_start + ce_offset e) (table_start + 24 * blen pre + 24)).
  { cbn [orb reject_if]. cbn. intros (_ & _ & _ & ?). unfold cert_range in *. cbn in *. lia. }
  destruct (N.ltb_spec (blen raw - (table_start + ce_offset e)) (ce_length e)).
  { cbn [orb reject_if]. cbn. intros (_ & _ & [_ _ _ _ Hin] & _). unfold cert_range in *. cbn in *. lia. }
  cbn [orb reject_if]. ok_step. rewrite index_range_slice by lia. ok_step. split.
  - split_and!; [done|lia| |unfold cert_range; cbn [fst]; lia].
    split; [done|done| | |]; unfold u32_max, cert_range; cbn [fst snd ce_offset e] in *; lia.
  - exact (state_of_snoc raw certs pre e).
Qed.

(** The entries that the loop accepts behind [pre], up to the terminator. *)
Definition continues (raw : bytes) (pre es : list CertEntry) : Prop :=
  forall es1 e es2, es = es1 ++ e :: es2 -> entry_fits raw (pre ++ es1) e.

Lemma continues_cons raw pre e es :
  continues raw pre (e :: es) <-> entry_fits raw pre e /\ continues raw (pre ++ [e]) es.
Proof.
  split.
  - intros Hc. split; [rewrite <- (app_nil_r pre); by eapply (Hc [])|].
    intros es1 e' es2 ->. rewrite <- app_assoc. by eapply (Hc (e :: es1)).
  - intros [He Hc] [|e' es1] e'' es2 Heq; injection Heq as -> Heq.
    + by rewrite app_nil_r.
    + subst. specialize (Hc es1 e'' es2 eq_refl). by rewrite <- app_assoc in Hc.
Qed.

Lemma entry_fits_next raw pre e : Forall (entry_wf raw) pre -> NoDup (ce_guid <$> pre) ->
  entry_fits raw pre e -> Forall (entry_wf raw) (pre ++ [e]) /\ NoDup (ce_guid <$> (pre ++ [e])).
Proof.
  intros Hw Hn (Hnew & _ & He & _). split; [by apply Forall_app; split; [|constructor]|].
  rewrite fmap_app. apply NoDup_app. split_and!; [done| |apply NoDup_singleton].
  intros g Hg ->%list_elem_of_singleton. done.
Qed.

Lemma split_24 (t : bytes) : 24 <= blen t -> exists guid ob lb rest,
  t = guid ++ ob ++ lb ++ rest /\ blen guid = 16 /\ blen ob = 4 /\ blen lb = 4.
Proof.
  intros Ht. destruct (split_at t 16) as (guid & q & -> & ?); [lia|]. rewrite blen_app in *.
  destruct (split_at q 4) as (ob & q1 & -> & ?); [lia|]. rewrite blen_app in *.
  destruct (split_at q1 4) as (lb & rest & -> & ?); [lia|]. by exists guid, ob, lb, rest.
Qed.

Lemma zeros_24 : replicate 24 x00 = replicate 16 x00 ++ replicate 4 x00 ++ replicate 4 x00.
Proof. done. Qed.

Lemma encode_entry_le guid ob lb : blen ob = 4 -> blen lb = 4 ->
  encode_entry {| ce_guid := guid; ce_offset := le_to_N ob; ce_length := le_to_N lb |} = guid ++ ob ++ lb.
Proof.
  intros Ho Hl. unfold encode_entry. cbn [ce_guid ce_offset ce_length].
  by rewrite <- (le_to_N_eq ob 4 _ Ho eq_refl), <- (le_to_N_eq lb 4 _ Hl eq_refl).
Qed.

Lemma table_loop_sound fuel raw certs report pre tail st :
  raw = report ++ encode_table pre ++ tail -> blen report = table_start ->
  Forall (entry_wf raw) pre -> NoDup (ce_guid <$> pre) ->
  table_loop fuel raw (state_of raw certs pre) = Ok st ->
  exists es rest, tail = encode_table es ++ replicate 24 x00 ++ rest /\
    continues raw pre es /\ st = state_of raw certs (pre ++ es).
Proof.
  revert pre tail; induction fuel as [|fuel IH]; intros pre tail Hraw Hrep Hw Hn Hv; [done|].
  cbn [table_loop tb_offset state_of] in Hv. apply bind_Ok in Hv as (? & Hlen%reject_if_Ok%N.ltb_ge & Hv).
  destruct (split_24 tail) as (guid & ob & lb & rest & -> & Hg & Ho & Hl).
  { rewrite Hraw in Hlen. rewrite !blen_app, (blen_encode_table _ _ Hw) in Hlen. lia. }
  destruct (table_reads _ _ _ _ _ _ _ Hraw Hrep Hw Hg Ho Hl) as (_ & Eg & _ & _ & Et).
  rewrite Eg, res_bind_Ok in Hv. destruct (bytes_eqb guid (replicate 16 x00)) eqn:Ez.
  - rewrite Et, res_bind_Ok in Hv. apply bind_Ok in Hv as (? & Hz%reject_if_Ok & Hv). bools. subst guid.
    unfold any_nonzero in Hz. bools. apply all_zero_spec in Hz.
    exists [], rest. split_and!; [|by intros [|]|by rewrite app_nil_r; simplify_eq].
    assert (ob ++ lb = replicate 8 x00) as Hol.
    { rewrite Hz. f_equal. unfold blen in *. rewrite length_app. lia. }
    change (replicate 24 x00) with (replicate 16 x00 ++ replicate 8 x00). rewrite <- Hol.
    by rewrite <- !app_assoc.
  - bools. apply bind_Ok in Hv as (st1 & He & Hv).
    pose proof (table_entry_decides raw certs report pre guid ob lb rest Hraw Hrep Hw Hn Hg Ho Hl Ez) as Hd.
    cbv zeta in Hd. fold (state_of raw certs pre) in He. rewrite He in Hd. destruct Hd as [Hfit ->].
    set (e := {| ce_guid := guid; ce_offset := _; ce_length := _ |}) in *.
    destruct (entry_fits_next _ _ _ Hw Hn Hfit) as [Hw' Hn'].
    assert (encode_entry e = guid ++ ob ++ lb) as Hee by (by apply encode_entry_le).
    destruct (IH (pre ++ [e]) rest) as (es & rest' & -> & Hc & ->); [|done..|].
    + rewrite Hraw, encode_table_app. cbn [encode_table mbind list_bind]. rewrite app_nil_r, Hee. by rewrite <- !app_assoc.
    + exists (e :: es), rest'. split_and!.
      * change (encode_table (e :: es)) with (encode_entry e ++ encode_table es). rewrite Hee. by rewrite <- !app_assoc.
      * by apply continues_cons.
      * by rewrite <- app_assoc.
Qed.

Lemma table_loop_run fuel raw certs report pre es rest :
  raw = report ++ encode_table pre ++ encode_table es ++ replicate 24 x00 ++ rest -> blen report = table_start ->
  Forall (entry_wf raw) pre -> NoDup (ce_guid <$> pre) -> continues raw pre es -> (length es < fuel)%nat ->
  table_loop fuel raw (state_of raw certs pre) = Ok (state_of raw certs (pre ++ es)).
Proof.
  revert pre fuel; induction es as [|e es IH]; intros pre [|fuel] Hraw Hrep Hw Hn Hc Hf; try (cbn in Hf; lia);
    cbn [table_loop tb_offset state_of].
  - cbn [encode_table mbind list_bind app] in Hraw. rewrite zeros_24, <- !app_assoc in Hraw.
    destruct (table_reads _ _ _ _ _ _ _ Hraw Hrep Hw eq_refl eq_refl eq_refl) as (Hend & Eg & _ & _ & Et).
    pass ltac:(apply N.ltb_ge; lia). rewrite Eg. ok_step.
    rewrite (proj2 (bytes_eqb_eq _ _) eq_refl), Et. ok_step. pass ltac:(done). by rewrite app_nil_r.
  - apply continues_cons in Hc as [Hfit Hc]. pose proof Hfit as (_ & _ & [Hg Hnz Ho Hl _] & _).
    change (encode_table (e :: es)) with (encode_entry e ++ encode_table es) in Hraw.
    pose proof Hraw as Hraw'. unfold encode_entry in Hraw. rewrite <- !app_assoc in Hraw.
    destruct (table_reads _ _ _ _ _ _ _ Hraw Hrep Hw Hg (blen_N_to_le _ _) (blen_N_to_le _ _)) as (Hend & Eg & _).
    pass ltac:(apply N.ltb_ge; lia). rewrite Eg. ok_step.
    rewrite (proj2 (bytes_eqb_neq (ce_guid e) _) Hnz).
    pose proof (table_entry_decides raw certs report pre _ _ _ _ Hraw Hrep Hw Hn Hg
      (blen_N_to_le _ _) (blen_N_to_le _ _) Hnz) as Hd. cbv zeta in Hd. unfold u32_max in *.
    rewrite !le_to_N_to_le in Hd by (cbn; lia).
    replace {| ce_guid := ce_guid e; ce_offset := ce_offset e; ce_length := ce_length e |} with e in Hd by (by destruct e).
    fold (state_of raw certs pre). destruct (table_entry _ _ _) as [st|err| |]; [|done..]. destruct Hd as [_ ->]. ok_step.
    destruct (entry_fits_next _ _ _ Hw Hn Hfit) as [Hw' Hn'].
    rewrite (IH (pre ++ [e]) fuel); [by rewrite <- app_assoc| |done..|cbn in Hf; lia].
    rewrite Hraw', encode_table_app. cbn [encode_table mbind list_bind]. by rewrite app_nil_r, <- !app_assoc.
Qed.

Lemma continues_spec raw es : continues raw [] es <->
  Forall (entry_wf raw) es /\ NoDup (ce_guid <$> es) /\ blen es <= 32 /\
  (forall es1 e es2, es = es1 ++ e :: es2 -> table_start + 24 * blen es1 + 24 <= (cert_range e).1).
Proof.
  split.
  - intros Hc. split_and!.
    + apply Forall_forall. intros e (es1 & es2 & ->)%list_elem_of_split.
      by destruct (Hc es1 e es2 eq_refl) as (_ & _ & ? & _).
    + apply nodup_by_prefix. intros es1 e es2 Hes. by destruct (Hc es1 e es2 Hes) as (? & _).
    + destruct es as [|e es1 _] using rev_ind; [done|]. destruct (Hc es1 e [] eq_refl) as (_ & Hl & _).
      cbn [app] in Hl. rewrite blen_app. change (blen [e]) with 1. lia.
    + intros es1 e es2 Hes. by destruct (Hc es1 e es2 Hes) as (_ & _ & _ & ?).
  - intros (Hw & Hn & Hl & Hb) es1 e es2 ->. split_and!; cbn [app].
    + rewrite fmap_app in Hn. apply NoDup_app in Hn as (_ & Hn & _). set_solver.
    + rewrite blen_app, blen_cons in Hl. lia.
    + rewrite Forall_forall in Hw. apply Hw. set_solver.
    + by eapply Hb.
Qed.

Lemma table_loop_safe fuel raw st : (33 <= size (tb_seen st) + fuel)%nat -> (size (tb_seen st) <= 32)%nat ->
  Forall nonempty_range (tb_ranges st) ->
  safe (table_loop fuel raw st) (fun st' => Forall nonempty_range (tb_ranges st')).
Proof.
  revert st; induction fuel as [|fuel IH]; intros st Hf Hs Hr; [lia|].
  cbn [table_loop]. wp. bools. apply safe_index_range; [lia..|]. intros guid _ _.
  destruct (bytes_eqb guid _).
  - wp. apply safe_index_range; [lia..|]. intros t _ _. wp. done.
  - wp. unfold table_entry. wp. bools. apply safe_le_at; [lia..|]. intros o. wp. apply safe_le_at; [lia..|]. intros l. wp.
    bools. match goal with E : checked_add _ _ _ = Some _ |- _ => apply checked_add_Some in E as [-> _] end.
    apply safe_index_range; [lia..|]. intros d _ _. cbn [safe]. 
    assert (size ({[guid]} ∪ tb_seen st) = S (size (tb_seen st))) as Hsz.
    { rewrite size_union by set_solver. by rewrite size_singleton. }
    apply IH; cbn [tb_seen tb_ranges]; [lia|lia|]. apply Forall_app. split; [done|]. constructor; [|done].
    unfold nonempty_range. cbn. lia.
Qed.

Lemma cert_ranges_nonempty raw es : Forall (entry_wf raw) es -> Forall nonempty_range (cert_range <$> es).
Proof.
  intros Hw. apply Forall_fmap. eapply Forall_impl; [exact Hw|].
  intros e [_ _ _ Hl _]. unfold nonempty_range, compose, cert_range. cbn. lia.
Qed.

Lemma table_layout_spec raw es report rest : blen report = table_start ->
  raw = report ++ encode_table es ++ replicate 24 x00 ++ rest ->
  table_layout raw es <-> continues raw [] es /\ Forall (fun r => table_end es <= r.1) (cert_range <$> es)
                          /\ pairwise_apart (cert_range <$> es).
Proof.
  intros Hrep Hraw. rewrite continues_spec, Forall_fmap. unfold compose. split.
  - intros [_ Hw Hn Hl Hb Ha]. split_and!; try done. intros es1 e es2 ->.
    rewrite Forall_forall in Hb. specialize (Hb e). unfold table_end in Hb. rewrite blen_app, blen_cons in Hb.
    transitivity (table_start + 24 * (blen es1 + (1 + blen es2) + 1)); [lia|]. apply Hb. set_solver.
  - intros [(Hw & Hn & Hl & _) [Hb Ha]]. split; eauto.
Qed.

Lemma parse_table_safe raw certs : safe (parse_snp_cert_table raw certs) (fun _ => True).
Proof.
  unfold parse_snp_cert_table. destruct (_ =? _); [done|]. wp.
  eapply safe_mono; [apply table_loop_safe; cbn [tb_seen tb_ranges]; [lia|rewrite size_empty; lia|constructor]|].
  intros st _ Hr. wp. eapply safe_mono; [by eapply decides_safe, decides_check_disjoint|]. done.
Qed.

(** The table is there, and the certificates are the ones that it lists. *)
Definition table_result (raw : bytes) (certs certs' : SnpCerts) : Prop :=
  (blen raw = table_start /\ certs' = certs) \/
  exists es, table_layout raw es /\ certs' = stored raw certs es.

Lemma parse_table_sound raw certs certs' :
  parse_snp_cert_table raw certs = Ok certs' -> table_result raw certs certs'.
Proof.
  unfold parse_snp_cert_table. destruct (N.eqb_spec (blen raw) table_start) as [Hl|Hl]; intros Hv.
  { left. by simplify_eq. }
  right. apply bind_Ok in Hv as (? & Hlen%reject_if_Ok%N.ltb_ge & Hv).
  apply bind_Ok in Hv as (st & Hloop & Hv). apply bind_Ok in Hv as ([] & Hd & Hv).
  destruct (split_at raw table_start) as (report & tail & Hraw & Hrep); [lia|].
  destruct (table_loop_sound 34 raw certs report [] tail st) as (es & rest & -> & Hc & ->);
    [done|done|constructor|constructor|exact Hloop|].
  cbn [app] in *. exists es. simplify_eq. split; [|done].
  eapply table_layout_spec; [done|done|]. split; [done|].
  apply continues_spec in Hc as (Hw & _).
  pose proof (decides_check_disjoint (PlatformError "SNP overlapping certificate table ranges") _
    (table_end es) (cert_ranges_nonempty _ _ Hw)) as Hdec.
  cbn [tb_ranges tb_offset state_of] in Hd. unfold table_end in *.
  replace (table_start + 24 * blen es + 24) with (table_start + 24 * (blen es + 1)) in Hd by lia.
  rewrite Hd in Hdec. apply Hdec.
Qed.

Lemma parse_table_complete raw certs certs' :
  table_result raw certs certs' -> parse_snp_cert_table raw certs = Ok certs'.
Proof.
  unfold parse_snp_cert_table. intros [[Hl ->]|(es & Hlay & ->)].
  { by rewrite (proj2 (N.eqb_eq _ _) Hl). }
  pose proof Hlay as [(report & rest & Hrep & Hraw) Hw _ Hcnt _ _].
  pose proof (proj1 (table_layout_spec _ _ _ _ Hrep Hraw) Hlay) as (Hc & Hb & Ha).
  assert (table_start + 24 <= blen raw) as Hlen.
  { rewrite Hraw, !blen_app. change (blen (replicate 24 x00)) with 24. lia. }
  destruct (N.eqb_spec (blen raw) table_start); [lia|]. pass ltac:(apply N.ltb_ge; lia).
  pose proof (table_loop_run 34 raw certs report [] es rest Hraw Hrep (Forall_nil_2 _) (NoDup_nil_2) Hc) as Hrun.
  assert (table_loop 34 raw {| tb_offset := table_start; tb_seen := ∅; tb_ranges := []; tb_certs := certs |}
    = Ok (state_of raw certs es)) as ->.
  { apply Hrun. unfold blen in Hcnt. lia. }
  ok_step.
  cbn [tb_ranges tb_offset tb_certs state_of app].
  pose proof (decides_check_disjoint (PlatformError "SNP overlapping certificate table ranges") _
    (table_end es) (cert_ranges_nonempty _ _ Hw)) as Hdec. unfold table_end in *.
  replace (table_start + 24 * blen es + 24) with (table_start + 24 * (blen es + 1)) by lia.
  destruct (check_disjoint _ _ _) as [[]|e| |]; [done|by destruct Hdec|done..].
Qed.

(** [parse_snp_cert_table] never panics and always terminates, and it accepts exactly
    the inputs that end with the report or continue with a table: 24-byte entries with
    distinct nonzero keys, at most 32 of them, a zero terminator, and payloads that lie
    inside the input, behind the terminator, and do not overlap each other.  The result
    holds the payloads of the entries with the four known keys. *)
Theorem snp_table_exact raw certs :
  safe (parse_snp_cert_table raw certs) (fun _ => True) /\
  forall certs', parse_snp_cert_table raw certs = Ok certs' <-> table_result raw certs certs'.
Proof.
  split; [apply parse_table_safe|]. intros certs'.
  split; [apply parse_table_sound|apply parse_table_complete].
Qed.

(** ** Reports *)
Section SnpSpec.
Context `{X : X509} `{K : CpuCrypto} `{H : Sha2} `{D : Kds}.

(** A P-384 signature over the SHA-384 digest of a message. *)
Definition p384_signed (key sig msg : bytes) : Prop :=
  exists vk s, from_sec1 p384 key = Some vk /\ sig_from_slice p384 sig = Some s /\
               verify_prehash p384 vk (sha384 msg) s = true.

(** The fixed fields of a report that is signed by a VCEK or a VLEK. *)
Record snp_fields (raw : bytes) (is_vlek : bool) : Prop := {
  sf_len : 0x4a0 <= blen raw;
  sf_version : le_to_N (slice raw 0 4) = 2 \/ le_to_N (slice raw 0 4) = 5;
  sf_algorithm : le_to_N (slice raw 0x34 0x38) = 1;
  sf_key : N.land (N.shiftr (le_to_N (slice raw 0x48 0x4c)) 2) 7 = N.b2n is_vlek;
  sf_key_bits : N.ldiff (le_to_N (slice raw 0x48 0x4c)) 0x1f = 0;
  sf_padding : any_nonzero (slice raw 0x2d0 0x2e8 ++ slice raw 0x318 0x4a0) = false;
}.
Definition snp_sig (raw : bytes) : bytes := rev (slice raw 0x2A0 0x2D0) ++ rev (slice raw 0x2E8 0x318).
Definition snp_claims (raw : bytes) : Measurements :=
  [(lit "MEASUREMENT", slice raw 0x090 0x0C0); (lit "HOST_DATA", slice raw 0x0C0 0x0E0);
   (lit "REPORT_DATA", slice raw 0x050 0x090); (lit "SIG_VERIFIED", [x01]); (lit "CHAIN_VERIFIED", [x01])]
  ++ if 0x4A0 <? blen raw then [(lit "HAS_CERT_TABLE", [x01])] else [].

(** The endorsement key signs the report and chains to the root of the product line. *)
Definition endorsed (raw leaf a r product : bytes) (now : N) : Prop :=
  exists cert fp cs, cert_from_der leaf = Some cert /\
    p384_signed (raw_bytes (subject_public_key cert)) (snp_sig raw) (slice raw 0 0x2A0) /\
    ark_fingerprint product = Ok fp /\ validate_chain [leaf; a; r] fp now AmdEndorsement = Ok cs.

Lemma le_at_slice b i j : i <= j -> j <= blen b -> le_at b i j = Ok (le_to_N (slice b i j)).
Proof. intros. unfold le_at. by rewrite index_range_slice. Qed.

Lemma check_snp_header_decides raw : 0x4a0 <= blen raw ->
  decides (check_snp_header raw) (exists v, snp_fields raw v) (snp_fields raw).
Proof.
  intros Hl. unfold check_snp_header. rewrite !le_at_slice, !index_range_slice by lia. ok_step.
  set (ver := le_to_N (slice raw 0 4)). set (alg := le_to_N (slice raw 0x34 0x38)).
  set (ki := le_to_N (slice raw 0x48 0x4c)).
  destruct (N.eqb_spec ver 2) as [E2|E2], (N.eqb_spec ver 5) as [E5|E5]; cbn [negb andb reject_if];
    try (cbn; intros [? []]; unfold ver in *; tauto); repeat ok_step; fold alg; fold ki.
  all: destruct (N.eqb_spec alg 1) as [Ea|Ea]; [|cbn; intros [? []]; done].
  all: destruct (N.ltb_spec 1 (N.land (N.shiftr ki 2) 7)) as [Hk|Hk];
    [cbn; intros [v [_ _ _ Hv _ _]]; fold ki in Hv; rewrite Hv in Hk; destruct v; cbn in Hk; lia|].
  all: destruct (N.eqb_spec (N.ldiff ki 0x1f) 0) as [Eb|Eb]; [|cbn; intros [? []]; done].
  all: cbn [negb orb reject_if]; repeat ok_step.
  all: destruct (any_nonzero _) eqn:Ep; [cbn; intros [? []]; congruence|].
  all: cbn [reject_if]; ok_step.
  all: assert (snp_fields raw (N.land (N.shiftr ki 2) 7 =? 1)) as Hf;
    [split; [lia|auto|done| |done|done];
     fold ki; destruct (N.eqb_spec (N.land (N.shiftr ki 2) 7) 1) as [E1|]; cbn [N.b2n]; [exact E1|lia]|].
  all: split; [by eexists|done].
Qed.

Lemma verify_endorsement_exact raw leaf cs product sg now :
  sig_from_slice p384 (snp_sig raw) = Some sg ->
  verify_endorsement leaf cs product (sha384 (slice raw 0 0x2A0)) sg now = Ok (true, true) <->
  exists l a r, leaf = Some l /\ ask cs = Some a /\ ark cs = Some r /\ endorsed raw l a r product now.
Proof.
  intros Hsg. unfold verify_endorsement, endorsed, p384_signed. split.
  - intros Hv. destruct leaf as [l|]; [|done]. inv_res_step.
    apply bind_Ok in Hv as (vk & Hvk%ok_or_Ok & Hv). apply bind_Ok in Hv as (? & Hs%reject_if_Ok & Hv).
    destruct (ask cs) as [a|], (ark cs) as [r|]; try (by simplify_eq/=).
    inv_res. bools. exists l, a, r. split_and!; try done. do 3 eexists. split_and!; try done. eauto.
  - intros (l & a & r & -> & -> & -> & cert & fp & chain & Hc & (vk & s & Hvk & Hs & Hsig) & Hfp & Hv).
    rewrite Hc. cbn [ok_or]. ok_step. rewrite Hvk. cbn [ok_or]. ok_step. simplify_eq. rewrite Hsig.
    pass ltac:(done). rewrite Hfp. ok_step.
    pose proof (validate_chain_decides [l; a; r] fp now AmdEndorsement) as Hd. rewrite Hv in Hd.
    destruct Hd as [_ [_ _ _ (root & [= <-] & Hpin) _ _]].
    pass ltac:(unfold verify_root_fingerprint; bools; done). rewrite Hv. done.
Qed.

(** The certificates that the verifier ends up with. *)
Definition gather (raw : bytes) (is_vlek : bool) (explicit_chain : option (list bytes * bytes)) :
    res VerifyError (SnpCerts * bytes) :=
  certs ← (if 0x4A0 <? blen raw then parse_snp_cert_table raw no_certs else Ok no_certs);
  certs ← match explicit_chain with
          | Some chain => use_explicit certs is_vlek chain.1
          | None => Ok certs
          end;
  product ← match explicit_chain with
            | Some chain => Ok chain.2
            | None => snp_product raw
            end;
  certs ← fetch_missing raw certs is_vlek product;
  Ok (certs, product).

Lemma verify_snp_slices raw binding now ex : 0x4a0 <= blen raw ->
  verify_snp_quote raw binding now ex =
  (v ← check_snp_header raw;
   fail_if (negb (bytes_eqb (slice raw 0x50 0x70) binding))
     "SNP: REPORT_DATA[0..32] does not match EAT binding";;
   sg ← ok_or (sig_from_slice p384 (snp_sig raw)) (PlatformError "SNP parse signature");
   '(certs, product) ← gather raw v ex;
   '(s, c) ← verify_endorsement (leaf_of v certs) certs product (sha384 (slice raw 0 0x2A0)) sg now;
   Ok (s && c, take 3 (snp_claims raw) ++ [(lit "SIG_VERIFIED", flag s); (lit "CHAIN_VERIFIED", flag c)]
       ++ drop 5 (snp_claims raw))).
Proof.
  intros Hl. unfold verify_snp_quote, snp_signature, gather. pass ltac:(apply N.ltb_ge; lia).
  destruct (check_snp_header raw) as [v|e| |]; [|done..]. do 2 ok_step.
  rewrite (index_range_slice raw 0x90 0xC0), (index_range_slice raw 0x50 0x90),
    (index_range_slice raw 0xC0 0xE0), (index_range_slice raw 0 0x2A0), (index_range_slice raw 0x2A0 0x2D0),
    (index_range_slice raw 0x2E8 0x318) by lia. do 2 ok_step.
  rewrite (index_range_slice (slice raw 0x50 0x90)) by (rewrite ?blen_slice; lia). ok_step.
  rewrite slice_slice by lia. change (0x50 + 0) with 0x50. change (0x50 + 32) with 0x70.
  destruct (reject_if _ _) as [[]|e| |]; [|done..]. repeat ok_step. fold (snp_sig raw).
  destruct (ok_or _ _) as [sg|e| |]; [|done..]. do 2 ok_step.
  destruct (if 0x4A0 <? blen raw then parse_snp_cert_table raw no_certs else Ok no_certs) as [certs|e| |]; [|done..]. do 2 ok_step.
  destruct (match ex with Some _ => use_explicit _ _ _ | None => _ end) as [certs'|e| |]; [|done..]. do 2 ok_step.
  destruct (match ex with Some _ => _ | None => snp_product raw end) as [product|e| |]; [|done..]. do 2 ok_step.
  destruct (fetch_missing _ _ _ _) as [certs''|e| |]; [|done..]. do 3 ok_step.
  destruct (verify_endorsement _ _ _ _ _ _) as [[s c]|e| |]; [|done..].
  do 2 ok_step. by unfold snp_claims; destruct (_ <? _).
Qed.

(** *** Panic freedom *)
Lemma snp_product_safe raw : safe (snp_product raw) (fun _ => True).
Proof.
  unfold snp_product. wp. bools. apply safe_index; [lia|]. intros f _. wp.
  apply safe_index; [lia|]. intros m _. wp. apply safe_le_at; [lia..|]. intros n. wp.
  by repeat case_match.
Qed.
Lemma extract_kds_params_safe raw : safe (extract_kds_params raw) (fun _ => True).
Proof.
  unfold extract_kds_params. wp. bools. eapply safe_mono; [apply snp_product_safe|]. intros p _ _. wp.
  apply safe_index_range; [lia..|]. intros ? _ _. wp. apply safe_index_range; [lia..|]. intros t _ Ht. wp.
  do 4 (apply safe_index; [lia|]; intros ? _; wp). done.
Qed.
Lemma gather_safe raw v ex : safe (gather raw v ex) (fun _ => True).
Proof.
  unfold gather. wp. apply (safe_mono _ (fun _ => True)); [destruct (_ <? _); [apply parse_table_safe|done]|].
  intros certs _ _. wp. apply (safe_mono _ (fun _ => True)).
  { destruct ex as [[chain p]|]; [|done]. unfold use_explicit. cbn [fst]. wp. bools.
    do 3 (apply safe_index; [lia|]; intros ? _; wp). done. }
  intros certs' _ _. wp. apply (safe_mono _ (fun _ => True)); [destruct ex; [done|apply snp_product_safe]|].
  intros p _ _. wp. apply (safe_mono _ (fun _ => True)); [|done].
  unfold fetch_missing. pose proof (extract_kds_params_safe raw) as Hk.
  destruct (extract_kds_params raw); [|..|done|done]; by repeat case_match.
Qed.
Lemma verify_endorsement_safe leaf cs product d sg now :
  safe (verify_endorsement leaf cs product d sg now) (fun _ => True).
Proof.
  unfold verify_endorsement. destruct leaf as [l|]; [|done]. wp.
  destruct (ask cs) as [ak|], (ark cs) as [rk|]; try done. wp.
  apply (safe_mono _ (fun _ => True)); [unfold ark_fingerprint; by repeat case_match|]. intros fp _ _. wp.
  apply safe_map_err. by eapply safe_mono; [eapply decides_safe, validate_chain_decides|].
Qed.

Lemma verify_snp_safe raw binding now ex : safe (verify_snp_quote raw binding now ex) (fun _ => True).
Proof.
  destruct (N.ltb_spec (blen raw) 0x4a0) as [Hl|Hl].
  { unfold verify_snp_quote. by rewrite (proj2 (N.ltb_lt _ _) Hl). }
  rewrite verify_snp_slices by done. wp.
  eapply safe_mono; [by apply decides_safe, check_snp_header_decides|]. intros v _ _. wp.
  eapply safe_mono; [apply gather_safe|]. intros [certs p] _ _. wp.
  eapply safe_mono; [apply verify_endorsement_safe|]. by intros [s c].
Qed.

(** *** What a valid report means *)
Lemma verify_snp_valid raw binding now ex ms : verify_snp_quote raw binding now ex = Ok (true, ms) <->
  exists v certs product l a r, snp_fields raw v /\ slice raw 0x50 0x70 = binding /\
    gather raw v ex = Ok (certs, product) /\
    leaf_of v certs = Some l /\ ask certs = Some a /\ ark certs = Some r /\
    endorsed raw l a r product now /\ ms = snp_claims raw.
Proof.
  split.
  - intros Hv. assert (0x4a0 <= blen raw) as Hl.
    { unfold verify_snp_quote in Hv. apply bind_Ok in Hv as (_ & Hl%reject_if_Ok%N.ltb_ge & _). lia. }
    rewrite verify_snp_slices in Hv by done. apply bind_Ok in Hv as (v & Hh & Hv).
    pose proof (check_snp_header_decides raw Hl) as Hd. rewrite Hh in Hd. destruct Hd as [_ Hf].
    apply bind_Ok in Hv as (? & Hb%reject_if_Ok & Hv). apply bind_Ok in Hv as (sg & Hsg%ok_or_Ok & Hv).
    apply bind_Ok in Hv as ([certs product] & Hg & Hv). apply bind_Ok in Hv as ([s c] & He & Hv).
    injection Hv as [-> ->]%andb_true_iff <-. apply (verify_endorsement_exact raw) in He; [|done].
    destruct He as (l & a & r & ? & ? & ? & ?). bools. exists v, certs, product, l, a, r.
    by split_and!.
  - intros (v & certs & product & l & a & r & Hf & Hb & Hg & Hl & Ha & Hr & He & ->).
    pose proof Hf as [Hlen _ _ _ _ _]. rewrite verify_snp_slices by done.
    pose proof (check_snp_header_decides raw Hlen) as Hd.
    destruct (check_snp_header raw) as [v'|e| |]; [|by destruct Hd; eexists|done..].
    destruct Hd as [_ Hf']. assert (v' = v) as ->.
    { pose proof (sf_key _ _ Hf) as E1. pose proof (sf_key _ _ Hf') as E2. rewrite E1 in E2. by destruct v, v'. }
    ok_step. pass ltac:(bools; done). pose proof He as (? & ? & ? & _ & (vk & sg & _ & Hsg & _) & _).
    rewrite Hsg. cbn [ok_or]. ok_step. rewrite Hg. ok_step.
    rewrite (proj2 (verify_endorsement_exact raw _ certs product sg now Hsg)) by eauto 10. ok_step.
    unfold snp_claims. by destruct (_ <? _).
Qed.

(** Whatever AMD's service answers and whatever table the report carries,
    [verify_snp_quote] never panics, and a report that it declares valid has the
    expected binding in its report data, supported version, algorithm and key fields
    and zero padding, and is signed over its first 672 bytes by an endorsement
    certificate whose path validates to the pinned root of the product line; the
    measurements are those of the report. *)
Theorem snp_quote_sound raw binding now ex :
  safe (verify_snp_quote raw binding now ex) (fun '(valid, ms) => valid = true ->
    (exists v, snp_fields raw v) /\ slice raw 0x50 0x70 = binding /\
    (exists l a r product, endorsed raw l a r product now) /\ ms = snp_claims raw).
Proof.
  eapply safe_mono; [apply verify_snp_safe|]. intros [valid ms] Hv _ ->.
  apply verify_snp_valid in Hv as (v & certs & p & l & a & r & ? & ? & _ & _ & _ & _ & ? & ?). eauto 10.
Qed.

(** The certificates that a table embeds, if there is one. *)
Definition embedded (raw : bytes) (certs : SnpCerts) : Prop :=
  if 0x4A0 <? blen raw then table_result raw no_certs certs else certs = no_certs.

Lemma embedded_run raw certs : embedded raw certs <->
  (if 0x4A0 <? blen raw then parse_snp_cert_table raw no_certs else Ok no_certs) = Ok certs.
Proof.
  unfold embedded. destruct (_ <? _); [|naive_solver].
  split; [apply parse_table_complete|apply parse_table_sound].
Qed.

Lemma use_explicit_exact cs v chain cs' : use_explicit cs v chain = Ok cs' <->
  exists l a r, chain = [l; a; r] /\ differs (leaf_of v cs) l = false /\ differs (ask cs) a = false /\
    differs (ark cs) r = false /\
    cs' = {| vcek := if v then vcek cs else Some l; vlek := if v then Some l else vlek cs;
             ask := Some a; ark := Some r |}.
Proof.
  unfold use_explicit. split.
  - intros Hv. apply bind_Ok in Hv as (? & Hn%reject_if_Ok & Hv). bools.
    destruct chain as [|l [|a [|r [|? ?]]]]; unfold blen in Hn; cbn [length] in Hn; try lia.
    simpl in Hv. apply bind_Ok in Hv as (? & Hd%reject_if_Ok & Hv). simplify_eq.
    apply orb_false_iff in Hd as [[? ?]%orb_false_iff ?]. exists l, a, r. by split_and!.
  - intros (l & a & r & -> & H1 & H2 & H3 & ->). simpl. by rewrite H1, H2, H3.
Qed.

Lemma verify_snp_explicit raw binding now chain product ms :
  verify_snp_quote raw binding now (Some (chain, product)) = Ok (true, ms) <->
  exists v certs l a r, snp_fields raw v /\ slice raw 0x50 0x70 = binding /\ embedded raw certs /\
    chain = [l; a; r] /\ differs (leaf_of v certs) l = false /\ differs (ask certs) a = false /\
    differs (ark certs) r = false /\ endorsed raw l a r product now /\ ms = snp_claims raw.
Proof.
  rewrite verify_snp_valid. unfold gather. cbn [fst snd]. split.
  - intros (v & cs & p & l & a & r & Hf & Hb & Hg & Hl & Ha & Hr & He & ->).
    apply bind_Ok in Hg as (certs & Hemb & Hg). apply bind_Ok in Hg as (cs' & Hu & Hg). rewrite res_bind_Ok in Hg.
    apply embedded_run in Hemb. apply use_explicit_exact in Hu as (l' & a' & r' & -> & ? & ? & ? & ->).
    exists v, certs, l', a', r'.
    assert (cs = {| vcek := if v then vcek certs else Some l'; vlek := if v then Some l' else vlek certs;
      ask := Some a'; ark := Some r' |} /\ p = product) as [-> ->].
    { unfold fetch_missing in Hg. destruct v; cbn in Hg; by simplify_eq. }
    destruct v; cbn in Hl, Ha, Hr; simplify_eq; by split_and!.
  - intros (v & certs & l & a & r & Hf & Hb & Hemb%embedded_run & Hc & H1 & H2 & H3 & He & ->).
    exists v, {| vcek := if v then vcek certs else Some l; vlek := if v then Some l else vlek certs;
      ask := Some a; ark := Some r |}, product, l, a, r. split_and!; [done|done| | | | |done|done].
    + rewrite Hemb. ok_step. erewrite (proj2 (use_explicit_exact certs v chain _)) by eauto 10. do 2 ok_step.
      unfold fetch_missing. destruct v; cbn; reflexivity.
    + by destruct v.
    + done.
    + done.
Qed.

(** With certificates supplied by the caller, as in admission, the verdict does not
    depend on the network: a report is valid exactly when its fields are well formed, it
    carries the binding, the caller's chain is leaf, intermediate and root and agrees
    with every certificate of the right kind that the report embeds, and the leaf signs
    the report and chains to the pinned root of the product that the caller names. *)
Theorem snp_collateral_exact raw binding now chain product ms :
  verify_snp_quote raw binding now (Some (chain, product)) = Ok (true, ms) <->
  exists v certs l a r, snp_fields raw v /\ slice raw 0x50 0x70 = binding /\ embedded raw certs /\
    chain = [l; a; r] /\ differs (leaf_of v certs) l = false /\ differs (ask certs) a = false /\
    differs (ark certs) r = false /\ endorsed raw l a r product now /\ ms = snp_claims raw.
Proof. apply verify_snp_explicit. Qed.
End SnpSpec.

(** ** Concrete reports *)
Definition snp_leaf : Certificate := {|
  cert_version := V3; serial_number := [x07]; tbs_signature := ecdsa_sha256;
  issuer := cn "root"; not_before := 10; not_after := 20; subject := cn "leaf";
  spki_algorithm := ec_spki P384_OID; spki_der := []; subject_public_key := octets [x0a];
  has_unique_ids := false; extensions := [];
  get_basic_constraints := Some None; get_key_usage := Some None;
  get_eku := Some None; get_aki := Some None; get_ski := Some None; tbs_der := [x06];
  signature_algorithm := ecdsa_sha256; cert_signature := octets (x0b :: sha256 (Sha2 := toy_sha2) [x06]) |}.
Definition snp_x509 : X509 := {|
  cert_from_der := fun b =>
    if bytes_eqb b [x06] then Some snp_leaf else cert_from_der (X509 := tdx_x509) b;
  crl_from_der := fun _ => None; aki_from_der := fun _ => None; crl_number_ok := fun _ => false;
  crl_reason_remove := fun _ => None; generalized_time_ok := fun _ => false; pss_from_der := fun _ => None;
  base64_decode := fun _ => None |}.
Definition no_kds : Kds := {| fetch_cert_chain_kind := fun _ _ => None; fetch_vcek := fun _ => None |}.

Definition sample_signed : bytes :=
  pad 0x34 [x05] ++ pad 0x1c [x01] ++ replicate 32 x0c ++ pad 32 [] ++ replicate 48 x44 ++ pad 0x1e0 [].
Definition sample_report : bytes :=
  sample_signed ++ rev (pad 48 (x0a :: take 8 (sha384 (Sha2 := toy_sha2) sample_signed))) ++ pad 464 [].
(** The same report with a table that holds the leaf. *)
Definition sample_ext_report : bytes :=
  sample_report ++ encode_table [{| ce_guid := VCEK_GUID; ce_offset := 48; ce_length := 1 |}]
  ++ replicate 24 x00 ++ [x06].

Example sample_snp_accepted :
  verify_snp_quote (X := snp_x509) (K := toy_cpu) (H := pinned_sha2 AMD_ARK_MILAN_SHA256) (D := no_kds)
    sample_ext_report (replicate 32 x0c) 15 (Some ([[x06]; [x05]; [x02]], lit "Milan"))
  = Ok (true, snp_claims sample_ext_report).
Proof. vm_compute. reflexivity. Qed.
(** A chain that disagrees with the embedded leaf is refused. *)
Example sample_snp_disagrees :
  verify_snp_quote (X := snp_x509) (K := toy_cpu) (H := pinned_sha2 AMD_ARK_MILAN_SHA256) (D := no_kds)
    sample_ext_report (replicate 32 x0c) 15 (Some ([[x01]; [x05]; [x02]], lit "Milan"))
  = Err (PlatformError "SNP embedded/collateral certificate paths disagree").
Proof. vm_compute. reflexivity. Qed.
