(* ===== verification/NitroQuote.v ===== *)
(** * NitroQuote: AWS Nitro documents of [src/v2/src/quote/verify.rs]

    A Nitro attestation document is a COSE_Sign1 structure: a protected header, a payload
    map with the PCRs, the certificates and the user data, and an ES384 signature by
    the leaf certificate, whose bundle chains to the pinned AWS root.

    CBOR is a crate.  [Value] is its data model; a [BTreeMap] is the list of its
    entries in the order of iteration, and [CborValues] holds the decoder and the
    encoder.  [CborValueLaws] states that a decoded map has no key twice.

    [nitro_quote_sound]: an accepted document is signed as the code says, and its
    measurements are the PCRs of the signed payload. *)
From S2P Require Import Prelude Bytes Text Crypto Eat Pki Crl Pem TdxQuote SnpQuote.

Inductive Value : Type :=
| VNull
| VBool (b : bool)
| VInteger (i : Z)
| VFloat
| VBytes (b : bytes)
| VText (t : bytes)
| VArray (vs : list Value)
| VMap (m : list (Value * Value))
| VTag (tag : N) (v : Value).

Class CborValues := {
  value_from_slice : bytes -> option Value;
  value_to_vec : Value -> option bytes;
}.

(** [m.get(&Value::Text(k))] and [m.get(&Value::Integer(k))] *)
Definition is_text (k : bytes) (v : Value) : bool := match v with VText t => bytes_eqb t k | _ => false end.
Definition is_integer (k : Z) (v : Value) : bool := match v with VInteger i => (i =? k)%Z | _ => false end.
Fixpoint find_key (p : Value -> bool) (m : list (Value * Value)) : option Value :=
  match m with
  | [] => None
  | (k, v) :: m => if p k then Some v else find_key p m
  end.
Definition get_text (m : list (Value * Value)) (k : string) : option Value := find_key (is_text (lit k)) m.

Section Nitro.
Context `{X : X509} `{K : CpuCrypto} `{H : Sha2} `{C : CborValues}.

Record Cose : Type := {
  cose_protected : bytes; cose_payload : bytes; cose_sig : bytes;
}.
Definition cose_array (v : Value) : res VerifyError (list Value) :=
  match v with
  | VTag 18 (VArray a) => Ok a
  | VTag 18 _ => Err (PlatformError "COSE_Sign1: not array inside tag")
  | VArray a => Ok a
  | _ => Err (PlatformError "Not a COSE_Sign1")
  end.
Definition value_bytes (v : Value) (m : string) : res VerifyError bytes :=
  match v with VBytes b => Ok b | _ => Err (PlatformError m) end.
(** ES384 and nothing else in the protected header. *)
Definition es384_header (v : Value) : bool :=
  match v with
  | VMap m => (blen m =? 1) && match find_key (is_integer 1) m with
                               | Some (VInteger i) => (i =? -35)%Z
                               | _ => false
                               end
  | _ => false
  end.
Definition empty_map (v : Value) : bool := match v with VMap m => blen m =? 0 | _ => false end.

Definition parse_cose (raw : bytes) : res VerifyError Cose :=
  cose ← ok_or (value_from_slice raw) (PlatformError "CBOR parse");
  arr ← cose_array cose;
  fail_if (negb (blen arr =? 4)) "COSE_Sign1 must have exactly four elements";;
  a0 ← index arr 0;
  protected_bytes ← value_bytes a0 "protected header not bytes";
  protected ← ok_or (value_from_slice protected_bytes) (PlatformError "Nitro protected header");
  fail_if (negb (es384_header protected)) "Nitro requires protected ES384 and no unsupported headers";;
  a1 ← index arr 1;
  fail_if (negb (empty_map a1)) "Nitro unsupported unprotected COSE headers";;
  a2 ← index arr 2;
  payload_bytes ← value_bytes a2 "Payload not bytes";
  a3 ← index arr 3;
  cose_signature ← value_bytes a3 "Signature not bytes";
  Ok {| cose_protected := protected_bytes; cose_payload := payload_bytes; cose_sig := cose_signature |}.

(** The claims that the loop over the payload collects. *)
Record NitroClaims : Type := {
  nc_pcrs : Measurements;
  nc_user_data : option bytes;
  nc_certificate : option bytes;
  nc_cabundle : option (list bytes);
}.
Definition no_claims : NitroClaims :=
  {| nc_pcrs := []; nc_user_data := None; nc_certificate := None; nc_cabundle := None |}.

Definition pcr_name (i : Z) : bytes := lit "PCR" ++ to_decimal (Z.to_N i).
Definition pcr_entry (pcrs : Measurements) (e : Value * Value) : res VerifyError Measurements :=
  match e with
  | (VInteger i, VBytes b) =>
    fail_if (negb ((0 <=? i)%Z && (i <=? 31)%Z) || negb (blen b =? 48))
      "Nitro invalid PCR index/digest width";;
    Ok (pcrs ++ [(pcr_name i, b)])
  | _ => Err (PlatformError "Nitro invalid PCR entry")
  end.
Definition bundle_entry (bundle : list bytes) (v : Value) : res VerifyError (list bytes) :=
  match v with
  | VBytes b => Ok (bundle ++ [b])
  | _ => Err (PlatformError "Nitro certificate bundle entry is not DER bytes")
  end.

Definition claim (c : NitroClaims) (e : Value * Value) : res VerifyError NitroClaims :=
  match e.1 with
  | VText key =>
    if bytes_eqb key (lit "pcrs") then
      match e.2 with
      | VMap pcr_map =>
        pcrs ← for_each pcr_entry (nc_pcrs c) pcr_map;
        Ok {| nc_pcrs := pcrs; nc_user_data := nc_user_data c; nc_certificate := nc_certificate c;
              nc_cabundle := nc_cabundle c |}
      | _ => Ok c
      end
    else if bytes_eqb key (lit "user_data") then
      match e.2 with
      | VBytes b => Ok {| nc_pcrs := nc_pcrs c; nc_user_data := Some b; nc_certificate := nc_certificate c;
                          nc_cabundle := nc_cabundle c |}
      | _ => Ok c
      end
    else if bytes_eqb key (lit "public_key") then
      match e.2 with
      | VBytes b => fail_if (4096 <? blen b) "Nitro public key exceeds limit";; Ok c
      | _ => Ok c
      end
    else if bytes_eqb key (lit "certificate") then
      match e.2 with
      | VBytes b => Ok {| nc_pcrs := nc_pcrs c; nc_user_data := nc_user_data c; nc_certificate := Some b;
                          nc_cabundle := nc_cabundle c |}
      | _ => Ok c
      end
    else if bytes_eqb key (lit "cabundle") then
      match e.2 with
      | VArray certs =>
        bundle ← for_each bundle_entry [] certs;
        Ok {| nc_pcrs := nc_pcrs c; nc_user_data := nc_user_data c; nc_certificate := nc_certificate c;
              nc_cabundle := Some bundle |}
      | _ => Ok c
      end
    else Ok c
  | _ => Ok c
  end.

Definition digest_is_sha384 (m : list (Value * Value)) : bool :=
  match get_text m "digest" with Some (VText t) => bytes_eqb t (lit "SHA384") | _ => false end.
Definition has_name (n : bytes) (ms : Measurements) : bool := existsb (fun e => bytes_eqb e.1 n) ms.

(** [binding_ok] *)
Definition user_data_binds (user_data : option bytes) (expected : bytes) : res VerifyError bool :=
  match user_data with
  | Some ud =>
    if 32 <=? blen ud then p ← index_range ud 0 32; Ok (bytes_eqb p expected) else Ok false
  | None => Ok false
  end.

(** [["Signature1", protected, b"", payload]] *)
Definition sig_structure (c : Cose) : Value :=
  VArray [VText (lit "Signature1"); VBytes (cose_protected c); VBytes []; VBytes (cose_payload c)].

Definition verify_cose (c : Cose) (leaf_cert_der : bytes) : res VerifyError unit :=
  leaf_cert ← ok_or (cert_from_der leaf_cert_der) (PlatformError "parse leaf cert");
  leaf_vk ← ok_or (from_sec1 p384 (raw_bytes (subject_public_key leaf_cert))) (PlatformError "leaf P-384 key");
  sig_structure_bytes ← ok_or (value_to_vec (sig_structure c)) (PlatformError "encode Sig_structure");
  fail_if (negb (blen (cose_sig c) =? 96)) "Nitro: COSE signature wrong length";;
  sig ← ok_or (sig_from_slice p384 (cose_sig c)) (PlatformError "parse COSE signature");
  fail_if (negb (verify_prehash p384 leaf_vk (sha384 sig_structure_bytes) sig))
    "Nitro: COSE_Sign1 signature verification FAILED".

(** The sort key: the number behind the prefix, or 99. *)
Fixpoint trim_pcr (fuel : nat) (s : bytes) : bytes :=
  match fuel with
  | O => s
  | S fuel => match strip_prefix (lit "PCR") s with Some s' => trim_pcr fuel s' | None => s end
  end.
Definition pcr_number (name : bytes) : N :=
  default 99 (parse_unsigned u32_max (trim_pcr (length name) name)).
Definition pcr_le (a b : bytes * bytes) : Prop := pcr_number a.1 <= pcr_number b.1.
#[global] Instance pcr_le_dec : RelDecision pcr_le.
Proof. intros a b. unfold pcr_le. apply _. Defined.

Definition verify_nitro_quote (raw expected_binding : bytes) (now : N) :
    res VerifyError (bool * Measurements) :=
  c ← parse_cose raw;
  payload ← ok_or (value_from_slice (cose_payload c)) (PlatformError "Payload parse");
  m ← match payload with VMap m => Ok m | _ => Err (PlatformError "Payload not a map") end;
  cl ← for_each claim no_claims m;
  fail_if (negb (digest_is_sha384 m) || negb (has_name (lit "PCR0") (nc_pcrs cl)))
    "Nitro missing SHA384/PCR0 claims";;
  binding_ok ← user_data_binds (nc_user_data cl) expected_binding;
  fail_if (negb binding_ok) "Nitro: user_data binding mismatch";;
  leaf_cert_der ← ok_or (nc_certificate cl) (PlatformError "Nitro: no certificate in attestation doc");
  verify_cose c leaf_cert_der;;
  cab ← ok_or (nc_cabundle cl) (PlatformError "Nitro: no cabundle in attestation doc");
  fail_if (blen cab =? 0) "Nitro: empty certificate bundle";;
  map_err PkixError (validate_chain (leaf_cert_der :: rev cab) AWS_NITRO_ROOT_SHA256 now P384);;
  Ok (true, merge_sort pcr_le (nc_pcrs cl) ++
            match nc_user_data cl with Some ud => [(lit "USER_DATA", ud)] | None => [] end).
End Nitro.

(** A decoded map has no key twice, at the top and one level below. *)
Class CborValueLaws (C : CborValues) : Prop := {
  keys_unique b m : value_from_slice b = Some (VMap m) -> NoDup m.*1;
  keys_unique_below b m k m' : value_from_slice b = Some (VMap m) -> (k, VMap m') ∈ m -> NoDup m'.*1;
}.

(** ** Specification *)
Definition pcr_valid (e : Value * Value) : Prop :=
  exists i b, e = (VInteger i, VBytes b) /\ (0 <= i <= 31)%Z /\ blen b = 48.
Definition pcr_of (e : Value * Value) : bytes * bytes :=
  match e with (VInteger i, VBytes b) => (pcr_name i, b) | _ => ([], []) end.
Definition bytes_of (v : Value) : option bytes := match v with VBytes b => Some b | _ => None end.

(** The claims as lookups in the payload. *)
Definition claims_of (m : list (Value * Value)) : NitroClaims := {|
  nc_pcrs := match get_text m "pcrs" with Some (VMap pm) => pcr_of <$> pm | _ => [] end;
  nc_user_data := get_text m "user_data" ≫= bytes_of;
  nc_certificate := get_text m "certificate" ≫= bytes_of;
  nc_cabundle := match get_text m "cabundle" with
                 | Some (VArray vs) => Some (default [] ∘ bytes_of <$> vs)
                 | _ => None
                 end |}.

Section NitroSpec.
Context `{X : X509} `{K : CpuCrypto} `{H : Sha2} `{C : CborValues}.

Record nitro_genuine (raw binding : bytes) (now : N) (m pm : list (Value * Value)) (ud leaf : bytes)
    (cab : list bytes) : Prop := {
  ng_cose : exists c v a1, value_from_slice raw = Some v /\
    (v = VTag 18 (VArray [VBytes (cose_protected c); a1; VBytes (cose_payload c); VBytes (cose_sig c)]) \/
     v = VArray [VBytes (cose_protected c); a1; VBytes (cose_payload c); VBytes (cose_sig c)]) /\
    a1 = VMap [] /\
    value_from_slice (cose_protected c) = Some (VMap [(VInteger 1, VInteger (-35))]) /\
    value_from_slice (cose_payload c) = Some (VMap m) /\
    exists cert signed, cert_from_der leaf = Some cert /\ value_to_vec (sig_structure c) = Some signed /\
      blen (cose_sig c) = 96 /\ p384_signed (raw_bytes (subject_public_key cert)) (cose_sig c) signed;
  ng_digest : get_text m "digest" = Some (VText (lit "SHA384"));
  ng_pcrs : get_text m "pcrs" = Some (VMap pm);
  ng_pcr : Forall pcr_valid pm;
  ng_pcr0 : exists d, (VInteger 0, VBytes d) ∈ pm;
  ng_user_data : get_text m "user_data" = Some (VBytes ud);
  ng_binding : 32 <= blen ud /\ slice ud 0 32 = binding;
  ng_certificate : get_text m "certificate" = Some (VBytes leaf);
  ng_cabundle : get_text m "cabundle" = Some (VArray (VBytes <$> cab)) /\ cab <> [];
  ng_chain : exists cs, validate_chain (leaf :: rev cab) AWS_NITRO_ROOT_SHA256 now P384 = Ok cs;
}.

Lemma pcr_loop pm acc ps : for_each pcr_entry acc pm = Ok ps -> Forall pcr_valid pm /\ ps = acc ++ (pcr_of <$> pm).
Proof.
  revert acc; induction pm as [|e pm IH]; intros acc Hv; cbn [for_each] in Hv.
  { simplify_eq. by rewrite app_nil_r. }
  apply bind_Ok in Hv as (acc' & He & Hv). destruct (IH _ Hv) as [Hf ->].
  destruct e as [k v]. unfold pcr_entry in He. destruct k as [| |i| | | | | |]; try done.
  destruct v as [| | | |b| | | |]; try done. inv_res. bools. rewrite <- app_assoc. split; [|done].
  constructor; [|done]. exists i, b. split_and!; [done|lia|lia|lia].
Qed.

Lemma bundle_loop vs acc bs : for_each bundle_entry acc vs = Ok bs ->
  exists cab, vs = VBytes <$> cab /\ bs = acc ++ cab.
Proof.
  revert acc; induction vs as [|v vs IH]; intros acc Hv; cbn [for_each] in Hv.
  { simplify_eq. exists []. by rewrite app_nil_r. }
  apply bind_Ok in Hv as (acc' & He & Hv). destruct (IH _ Hv) as (cab & -> & ->).
  destruct v; try done. unfold bundle_entry in He. simplify_eq. exists (b :: cab). by rewrite <- app_assoc.
Qed.

Lemma bytes_of_list (cab : list bytes) : default [] ∘ bytes_of <$> (VBytes <$> cab) = cab.
Proof. induction cab as [|b cab IH]; cbn; [done|]. by rewrite IH. Qed.

Lemma get_text_snoc m k v q : (forall t, k = VText t -> VText t ∉ m.*1) ->
  get_text (m ++ [(k, v)]) q = if is_text (lit q) k then Some v else get_text m q.
Proof.
  intros Hk. unfold get_text. induction m as [|[k' v'] m IH]; cbn [app find_key].
  - by destruct (is_text (lit q) k).
  - destruct (is_text (lit q) k') eqn:E'.
    + destruct (is_text (lit q) k) eqn:E; [|done]. destruct k, k'; try done. cbn in E, E'. bools. subst.
      destruct (Hk _ eq_refl). cbn. left.
    + apply IH. intros t Ht Hin. apply (Hk t Ht). cbn. by right.
Qed.

Definition pcrs_ok (m : list (Value * Value)) : Prop :=
  (forall pm, get_text m "pcrs" = Some (VMap pm) -> Forall pcr_valid pm) /\
  (forall vs, get_text m "cabundle" = Some (VArray vs) -> exists cab, vs = VBytes <$> cab).

Ltac eval_keys :=
  repeat match goal with
  | |- context [bytes_eqb (lit ?a) (lit ?b)] =>
    let x := eval vm_compute in (bytes_eqb (lit a) (lit b)) in change (bytes_eqb (lit a) (lit b)) with x
  end.

(** A key that is not in the payload yet. *)
Lemma get_text_new m q : VText (lit q) ∉ m.*1 -> get_text m q = None.
Proof.
  unfold get_text. induction m as [|[k v] m IH]; intros Hn; [done|]. cbn [find_key].
  cbn in Hn. apply not_elem_of_cons in Hn as [Hk Hm]. destruct (is_text (lit q) k) eqn:E; [|auto].
  destruct k; try done. cbn in E. bools. by subst.
Qed.

Lemma claim_step m e c : NoDup (m ++ [e]).*1 -> pcrs_ok m -> claim (claims_of m) e = Ok c ->
  c = claims_of (m ++ [e]) /\ pcrs_ok (m ++ [e]).
Proof.
  intros Hn [Hp Hb]. destruct e as [k v].
  assert (forall t, k = VText t -> VText t ∉ m.*1) as Hk.
  { intros t ->. rewrite fmap_app in Hn. apply NoDup_app in Hn as (_ & Hn & _).
    intros Hin. apply (Hn _ Hin). cbn. left. }
  unfold claims_of at 2, pcrs_ok. rewrite !get_text_snoc by done.
  unfold claim. cbn [fst snd]. destruct k as [| | | | |t| | |]; try (intros [= <-]; by split_and!).
  cbn [is_text].
  destruct (bytes_eqb t (lit "pcrs")) eqn:E1; [|destruct (bytes_eqb t (lit "user_data")) eqn:E2;
    [|destruct (bytes_eqb t (lit "public_key")) eqn:E3; [|destruct (bytes_eqb t (lit "certificate")) eqn:E4;
    [|destruct (bytes_eqb t (lit "cabundle")) eqn:E5]]]].
  - bools. subst t. eval_keys. pose proof (get_text_new m "pcrs" (Hk _ eq_refl)) as Hnew.
    unfold claims_of. rewrite Hnew. cbn [nc_pcrs nc_user_data nc_certificate nc_cabundle].
    destruct v; try (intros [= <-]; split_and!; [done|by intros|done]).
    intros Hv. apply bind_Ok in Hv as (ps & Hps & Hv). apply pcr_loop in Hps as [Hval ->].
    simplify_eq. split_and!; [done| |done]. by intros pm [= <-].
  - bools. subst t. eval_keys. pose proof (get_text_new m "user_data" (Hk _ eq_refl)) as Hnew.
    unfold claims_of. rewrite Hnew. cbn [nc_pcrs nc_user_data nc_certificate nc_cabundle].
    destruct v; intros [= <-]; by split_and!.
  - bools. subst t. eval_keys. destruct v; intros Hv; inv_res; by split_and!.
  - bools. subst t. eval_keys. pose proof (get_text_new m "certificate" (Hk _ eq_refl)) as Hnew.
    unfold claims_of. rewrite Hnew. cbn [nc_pcrs nc_user_data nc_certificate nc_cabundle].
    destruct v; intros [= <-]; by split_and!.
  - bools. subst t. eval_keys. pose proof (get_text_new m "cabundle" (Hk _ eq_refl)) as Hnew.
    unfold claims_of. rewrite Hnew. cbn [nc_pcrs nc_user_data nc_certificate nc_cabundle].
    destruct v; try (intros [= <-]; split_and!; [done|done|by intros]).
    intros Hv. apply bind_Ok in Hv as (bs & Hbs & Hv). apply bundle_loop in Hbs as (cab & -> & ->).
    simplify_eq. rewrite bytes_of_list. split_and!; [done|done|]. intros vs [= <-]. by exists cab.
  - intros [= <-]. by split_and!.
Qed.

Lemma claims_exact m c : NoDup m.*1 -> for_each claim no_claims m = Ok c -> c = claims_of m /\ pcrs_ok m.
Proof.
  intros Hn. enough (forall suf pre c, m = pre ++ suf -> pcrs_ok pre ->
    for_each claim (claims_of pre) suf = Ok c -> c = claims_of m /\ pcrs_ok m) as He.
  { intros Hv. apply (He m [] c); [done|done|exact Hv]. }
  clear c. induction suf as [|e suf IH]; intros pre c Hm Hok Hv; cbn [for_each] in Hv.
  { rewrite app_nil_r in Hm. subst. by simplify_eq. }
  apply bind_Ok in Hv as (c' & He & Hv). apply claim_step in He as [-> Hok']; [| |done].
  - apply (IH (pre ++ [e]) c); [|done..]. by rewrite <- app_assoc.
  - rewrite Hm in Hn. replace (pre ++ e :: suf) with ((pre ++ [e]) ++ suf) in Hn by (by rewrite <- app_assoc).
    rewrite fmap_app in Hn. by apply NoDup_app in Hn as [? _].
Qed.

(** *** Panic freedom *)
Lemma parse_cose_safe raw : safe (parse_cose raw) (fun _ => True).
Proof.
  unfold parse_cose. wp. apply (safe_mono _ (fun _ => True)); [unfold cose_array; by repeat case_match|].
  intros arr _ _. wp. bools.
  assert (forall v m, safe (value_bytes v m) (fun _ => True)) as Hvb by (by intros []).
  apply safe_index; [lia|]. intros ? _. wp. eapply safe_mono; [apply Hvb|]. intros p _ _. wp.
  apply safe_index; [lia|]. intros ? _. wp. apply safe_index; [lia|]. intros ? _. wp.
  eapply safe_mono; [apply Hvb|]. intros pl _ _. wp. apply safe_index; [lia|]. intros ? _. wp.
  eapply safe_mono; [apply Hvb|]. done.
Qed.

Lemma claim_safe c e : safe (claim c e) (fun _ => True).
Proof.
  unfold claim. destruct e as [[] v]; cbn [fst snd]; try done.
  repeat match goal with |- safe (if ?b then _ else _) _ => destruct b end; try done; destruct v; try done; wp; try done.
  - eapply (safe_mono _ (fun _ => True)); [|done]. apply safe_for_each; [done|]. intros ps [] _ _.
    unfold pcr_entry. repeat case_match; try done. wp. done.
  - eapply (safe_mono _ (fun _ => True)); [|done]. apply safe_for_each; [done|]. by intros bs [] _ _.
Qed.

Lemma verify_nitro_safe raw binding now : safe (verify_nitro_quote raw binding now) (fun _ => True).
Proof.
  unfold verify_nitro_quote. wp. eapply safe_mono; [apply parse_cose_safe|]. intros c _ _. wp.
  apply (safe_mono _ (fun _ => True)); [by case_match|]. intros m _ _. wp.
  apply (safe_mono _ (fun _ => True)); [apply safe_for_each; [done|]; intros; apply claim_safe|]. intros cl _ _. wp.
  apply (safe_mono _ (fun _ => True)).
  { unfold user_data_binds. destruct (nc_user_data cl) as [ud|]; [|done]. destruct (N.leb_spec 32 (blen ud)); [|done].
    wp. by apply safe_index_range; [lia..|]. }
  intros ok _ _. wp. unfold verify_cose. wp. apply safe_map_err.
  by eapply safe_mono; [eapply decides_safe, validate_chain_decides|].
Qed.

(** *** Soundness *)
Lemma pcr_name_0 i : (0 <= i <= 31)%Z -> pcr_name i = lit "PCR0" -> i = 0%Z.
Proof.
  intros Hi Hn. assert (forallb (fun i => negb (bytes_eqb (pcr_name i) (lit "PCR0"))) (seqZ 1 31) = true) as Hall.
  { vm_compute. reflexivity. }
  destruct (decide (i = 0%Z)); [done|]. rewrite forallb_forall in Hall.
  specialize (Hall i). rewrite <- list_elem_of_In, elem_of_seqZ in Hall.
  specialize (Hall ltac:(lia)). rewrite Hn in Hall. by vm_compute in Hall.
Qed.

Lemma es384_header_inv v : es384_header v = true -> v = VMap [(VInteger 1, VInteger (-35))].
Proof.
  destruct v as [| | | | | | |m|]; try done. cbn [es384_header]. intros [Hl Hf]%andb_true_iff.
  destruct m as [|[k w] [|? ?]]; bools; unfold blen in Hl; cbn [length] in Hl; try lia.
  cbn [find_key] in Hf. destruct k as [| |i| | | | | |]; try done. cbn [is_integer] in Hf.
  destruct (Z.eqb_spec i 1) as [->|]; [|done]. destruct w as [| |j| | | | | |]; try done.
  by apply Z.eqb_eq in Hf as ->.
Qed.

Lemma parse_cose_inv raw c : parse_cose raw = Ok c -> exists v, value_from_slice raw = Some v /\
  (v = VTag 18 (VArray [VBytes (cose_protected c); VMap []; VBytes (cose_payload c); VBytes (cose_sig c)]) \/
   v = VArray [VBytes (cose_protected c); VMap []; VBytes (cose_payload c); VBytes (cose_sig c)]) /\
  value_from_slice (cose_protected c) = Some (VMap [(VInteger 1, VInteger (-35))]).
Proof.
  unfold parse_cose. intros Hv. apply bind_Ok in Hv as (v & Hcose%ok_or_Ok & Hv).
  apply bind_Ok in Hv as (arr & Harr & Hv). apply bind_Ok in Hv as (? & Hl%reject_if_Ok & Hv). bools.
  destruct arr as [|a0 [|a1 [|a2 [|a3 [|? ?]]]]]; unfold blen in Hl; cbn [length] in Hl; try lia. simpl in Hv.
  destruct a0 as [| | | |p| | | |]; try done. cbn [value_bytes] in Hv. rewrite res_bind_Ok in Hv.
  apply bind_Ok in Hv as (pv & Hpv%ok_or_Ok & Hv). apply bind_Ok in Hv as (? & Hes%reject_if_Ok & Hv). simpl in Hv.
  apply bind_Ok in Hv as (? & Hem%reject_if_Ok & Hv). simpl in Hv. bools.
  apply es384_header_inv in Hes as ->.
  destruct a1 as [| | | | | | |m1|]; try done. cbn [empty_map] in Hem. bools. apply blen_0 in Hem as ->.
  destruct a2 as [| | | |pl| | | |]; try done. destruct a3 as [| | | |sg| | | |]; try done.
  cbn in Hv. simplify_eq. exists v. split_and!; [done| |done].
  destruct v as [| | | | | |vs| |tag w]; try done; cbn [cose_array] in Harr; [right; by simplify_eq|].
  left. destruct (decide (tag = 18)) as [->|Hne].
  - destruct w; try done. by simplify_eq.
  - exfalso. destruct tag as [|q]; [done|]. repeat (destruct q as [q|q|]; try done).
Qed.

Lemma verify_cose_inv c leaf : verify_cose c leaf = Ok tt ->
  exists cert signed, cert_from_der leaf = Some cert /\ value_to_vec (sig_structure c) = Some signed /\
    blen (cose_sig c) = 96 /\ p384_signed (raw_bytes (subject_public_key cert)) (cose_sig c) signed.
Proof. unfold verify_cose, p384_signed. intros Hv. inv_res. bools. do 2 eexists. split_and!; eauto. Qed.

Lemma user_data_binds_true ud binding : user_data_binds ud binding = Ok true ->
  exists b, ud = Some b /\ 32 <= blen b /\ slice b 0 32 = binding.
Proof.
  unfold user_data_binds. destruct ud as [b|]; [|done]. destruct (N.leb_spec 32 (blen b)); [|done].
  rewrite index_range_slice by lia. intros [= Hb]. bools. eauto.
Qed.

Lemma nitro_claims_inv m cl : NoDup m.*1 -> for_each claim no_claims m = Ok cl ->
  has_name (lit "PCR0") (nc_pcrs cl) = true ->
  exists pm, get_text m "pcrs" = Some (VMap pm) /\ Forall pcr_valid pm /\
    (exists d, (VInteger 0, VBytes d) ∈ pm) /\ nc_pcrs cl = pcr_of <$> pm.
Proof.
  intros Hn [-> [Hp _]]%claims_exact Hpcr0; [|done]. cbn [nc_pcrs claims_of] in *.
  destruct (get_text m "pcrs") as [[| | | | | | |pm|]|] eqn:Ep; try done.
  specialize (Hp pm eq_refl). exists pm. split_and!; try done.
  unfold has_name in Hpcr0. apply existsb_exists in Hpcr0 as ([n d] & Hin & Hname).
  apply list_elem_of_In, list_elem_of_fmap in Hin as (e & He & Hin).
  rewrite Forall_forall in Hp. destruct (Hp e Hin) as (i & b & -> & Hi & _).
  cbn [pcr_of] in He. simplify_eq. cbn [fst] in Hname. bools.
  apply pcr_name_0 in Hname as ->; eauto.
Qed.

Lemma verify_nitro_sound `{!CborValueLaws C} raw binding now :
  safe (verify_nitro_quote raw binding now) (fun '(valid, ms) => valid = true /\
    exists m pm ud leaf cab, nitro_genuine raw binding now m pm ud leaf cab /\
      ms = merge_sort pcr_le (pcr_of <$> pm) ++ [(lit "USER_DATA", ud)]).
Proof.
  eapply safe_mono; [apply verify_nitro_safe|]. intros [valid ms] Hv _. unfold verify_nitro_quote in Hv.
  apply bind_Ok in Hv as (c & Hc & Hv). apply bind_Ok in Hv as (pl & Hpl%ok_or_Ok & Hv).
  destruct pl as [| | | | | | |m|]; try done. rewrite res_bind_Ok in Hv.
  apply bind_Ok in Hv as (cl & Hcl & Hv). apply bind_Ok in Hv as (? & Hd%reject_if_Ok & Hv).
  apply orb_false_iff in Hd as [Hdig%negb_false_iff Hpcr0%negb_false_iff].
  apply bind_Ok in Hv as (ok & Hbind & Hv). apply bind_Ok in Hv as (? & ->%reject_if_Ok%negb_false_iff & Hv).
  apply user_data_binds_true in Hbind as (ud & Hud & Hbind).
  apply bind_Ok in Hv as (leaf & Hleaf%ok_or_Ok & Hv). apply bind_Ok in Hv as ([] & Hcose%verify_cose_inv & Hv).
  apply bind_Ok in Hv as (cab & Hcab%ok_or_Ok & Hv). apply bind_Ok in Hv as (? & Hne%reject_if_Ok & Hv).
  apply bind_Ok in Hv as (cs & Hchain%map_err_Ok & Hv). rewrite Hud in Hv. simplify_eq. split; [done|].
  pose proof (keys_unique _ _ Hpl) as Hn. destruct (nitro_claims_inv m cl Hn Hcl Hpcr0) as (pm & Hpm & Hval & H0 & Hps).
  apply claims_exact in Hcl as [-> [_ Hb]]; [|done]. cbn [claims_of nc_user_data nc_certificate nc_cabundle] in *.
  exists m, pm, ud, leaf, cab. rewrite Hps. split; [|done].
  apply parse_cose_inv in Hc as (v & Hv & Hshape & Hprot).
  destruct (get_text m "user_data") as [[]|] eqn:Eud; simplify_eq/=.
  destruct (get_text m "certificate") as [[]|] eqn:Ecert; simplify_eq/=.
  destruct (get_text m "cabundle") as [[| | | | | |vs| |]|] eqn:Ecab; simplify_eq/=.
  destruct (Hb vs eq_refl) as [cab' ->]. rewrite bytes_of_list in *.
  split; try done.
  - exists c, v, (VMap []). by split_and!.
  - unfold digest_is_sha384 in Hdig. destruct (get_text m "digest") as [[]|]; try done. bools. by subst.
  - split; [done|]. intros ->. by bools.
  - eauto.
Qed.

(** C24: [verify_nitro_quote] never panics, and whatever it accepts is genuine: a COSE_Sign1
    structure with ES384 as its only header, signed over the protected header and the
    payload by the leaf certificate, whose path through the bundle validates to the
    pinned AWS root; the user data starts with the expected binding.  The measurements
    are the PCRs of the signed payload, all of them 48 bytes long and with index at
    most 31, ordered by number, PCR0 among them, followed by the user data. *)
Theorem nitro_quote_sound `{!CborValueLaws C} raw binding now :
  safe (verify_nitro_quote raw binding now) (fun '(valid, ms) => valid = true /\
    exists m pm ud leaf cab, nitro_genuine raw binding now m pm ud leaf cab /\
      ms = merge_sort pcr_le (pcr_of <$> pm) ++ [(lit "USER_DATA", ud)]).
Proof. apply verify_nitro_sound. Qed.
End NitroSpec.

(** ** A concrete document *)
Definition sample_payload : list (Value * Value) :=
  [(VText (lit "pcrs"), VMap [(VInteger 2, VBytes (replicate 48 x02)); (VInteger 0, VBytes (replicate 48 x01))]);
   (VText (lit "digest"), VText (lit "SHA384"));
   (VText (lit "cabundle"), VArray [VBytes [x02]; VBytes [x05]]);
   (VText (lit "user_data"), VBytes (replicate 64 x0c));
   (VText (lit "certificate"), VBytes [x06])].
Definition nitro_sig : bytes := pad 96 (x0a :: take 8 (sha384 (Sha2 := toy_sha2) [x55])).
Definition sample_cbor : CborValues := {|
  value_from_slice := fun b =>
    if bytes_eqb b [x01] then Some (VTag 18 (VArray [VBytes [x02]; VMap []; VBytes [x03]; VBytes nitro_sig]))
    else if bytes_eqb b [x02] then Some (VMap [(VInteger 1, VInteger (-35))])
    else if bytes_eqb b [x03] then Some (VMap sample_payload) else None;
  value_to_vec := fun _ => Some [x55] |}.
Lemma sample_cbor_laws : CborValueLaws sample_cbor.
Proof.
  split; cbn [value_from_slice sample_cbor]; intros b m.
  - repeat case_match; intros [= <-]; repeat constructor; set_solver.
  - intros k m'. repeat case_match; intros [= <-]; [by intros ?%list_elem_of_singleton|].
    unfold sample_payload. rewrite !elem_of_cons. intros Hin. destruct_or! Hin; simplify_eq; [|set_solver].
    repeat constructor; set_solver.
Qed.
Definition nitro_x509 : X509 := {|
  cert_from_der := fun b =>
    if bytes_eqb b [x06] then Some {|
      cert_version := V3; serial_number := [x07]; tbs_signature := ecdsa_sha256;
      issuer := cn "root"; not_before := 10; not_after := 20; subject := cn "leaf";
      spki_algorithm := ec_spki P384_OID; spki_der := []; subject_public_key := octets [x0a];
      has_unique_ids := false; extensions := [];
      get_basic_constraints := Some None; get_key_usage := Some (Some (true, signing));
      get_eku := Some None; get_aki := Some None; get_ski := Some None; tbs_der := [x06];
      signature_algorithm := ecdsa_sha256; cert_signature := octets (x0b :: sha256 (Sha2 := toy_sha2) [x06]) |}
    else cert_from_der (X509 := tdx_x509) b;
  crl_from_der := fun _ => None; aki_from_der := fun _ => None; crl_number_ok := fun _ => false;
  crl_reason_remove := fun _ => None; generalized_time_ok := fun _ => false; pss_from_der := fun _ => None;
  base64_decode := fun _ => None |}.
Definition nitro_sample_result : Measurements :=
  [(lit "PCR0", replicate 48 x01); (lit "PCR2", replicate 48 x02); (lit "USER_DATA", replicate 64 x0c)].
Lemma nitro_quote_sound_witness :
  let X := nitro_x509 in let K := toy_cpu in let H := pinned_sha2 AWS_NITRO_ROOT_SHA256 in let C := sample_cbor in
  verify_nitro_quote [x01] (replicate 32 x0c) 15 = Ok (true, nitro_sample_result) /\
  exists m pm ud leaf cab, nitro_genuine [x01] (replicate 32 x0c) 15 m pm ud leaf cab.
Proof.
  intros X K H C. assert (verify_nitro_quote [x01] (replicate 32 x0c) 15 = Ok (true, nitro_sample_result)) as Hv.
  { vm_compute. reflexivity. }
  split; [exact Hv|].
  pose proof (nitro_quote_sound (X := X) (K := K) (H := H) (C := C) (CborValueLaws0 := sample_cbor_laws) [x01] (replicate 32 x0c) 15) as Hs.
  rewrite Hv in Hs. destruct Hs as (_ & m & pm & ud & leaf & cab & Hg & _).
  exists m, pm, ud, leaf, cab. exact Hg.
Defined.
