(* ===== verification/SnpCollateral.v ===== *)
(** * SnpCollateral: AMD endorsement appraisal of [src/v2/src/quote/snp_collateral.rs]

    After a report's signature, admission appraises the platform: the endorsement
    certificate's extensions give the security versions that AMD vouches for, the
    report gives the versions in force, and the operator's policy gives the floors.

    The DER decoders of integers, IA5 strings and octet strings are crate functions
    ([DerPrims]).  [snp_appraisal_sound] lists what an accepted platform satisfies;
    [snp_policy_monotone] shows that a weaker floor accepts whatever a stronger one does. *)
From S2P Require Import Prelude Bytes Ranges Text Crypto Eat Pki Crl Pem TdxQuote SnpQuote.

Class DerPrims := {
  der_u8 : bytes -> option N;
  der_ia5 : bytes -> option bytes;
  der_octets : bytes -> option bytes;
}.

(** ** Data *)
Record SnpCollateral : Type := { certificate_chain : list bytes; product_crl : bytes }.

Definition chain_length (acc : option N) (c : bytes) : option N :=
  n ← acc; checked_add usize_max n (blen c).
Definition validate_bounds (c : SnpCollateral) : res PkiError unit :=
  need (blen (certificate_chain c) =? 3) "AMD collateral requires exactly three certificates";;
  total ← orelse (foldl chain_length (Some 0) (certificate_chain c)) "AMD chain length overflow";
  need ((total <=? 256 * 1024) && forallb (fun c => negb (blen c =? 0)) (certificate_chain c))
    "AMD certificate path size outside limit";;
  need (negb (blen (product_crl c) =? 0) && (blen (product_crl c) <=? 4 * 1024 * 1024))
    "AMD product CRL size outside limit".

Inductive SnpProduct : Type := Milan | Genoa | Turin.
#[global] Instance SnpProduct_eq_dec : EqDecision SnpProduct.
Proof. solve_decision. Defined.
Definition product_name (p : SnpProduct) : bytes :=
  match p with Milan => lit "Milan" | Genoa => lit "Genoa" | Turin => lit "Turin" end.
Definition pin (p : SnpProduct) : bytes :=
  match p with
  | Milan => AMD_ARK_MILAN_SHA256
  | Genoa => AMD_ARK_GENOA_SHA256
  | Turin => AMD_ARK_TURIN_SHA256
  end.
Definition is_turin (p : SnpProduct) : bool := bool_decide (p = Turin).

Record SnpTcbVersion : Type := { fmc : option N; boot_loader : N; tee : N; snp : N; microcode : N }.
#[global] Instance SnpTcbVersion_eq_dec : EqDecision SnpTcbVersion.
Proof. solve_decision. Defined.
Definition has {A} (o : option A) : bool := if o is Some _ then true else false.
Definition tcb_validate (t : SnpTcbVersion) (p : SnpProduct) : res PkiError unit :=
  need (Bool.eqb (has (fmc t)) (is_turin p)) "AMD FMC/profile mismatch";;
  need ((default 0 (fmc t) <=? 127) && (boot_loader t <=? 127) && (tee t <=? 127) && (snp t <=? 127))
    "AMD component SPL exceeds documented 0..127 range".
Definition at_least (t floor : SnpTcbVersion) : bool :=
  Bool.eqb (has (fmc t)) (has (fmc floor)) && (default 0 (fmc floor) <=? default 0 (fmc t))
  && (boot_loader floor <=? boot_loader t) && (tee floor <=? tee t) && (snp floor <=? snp t)
  && (microcode floor <=? microcode t).

Record SnpTcbPolicy : Type := {
  product : SnpProduct;
  minimum_tcb : SnpTcbVersion;
  minimum_guest_svn : N;
  expected_vmpl : N;
  require_smt_disabled : bool;
  require_alias_check_complete : bool;
  minimum_launch_mitigation_vector : N;
  minimum_current_mitigation_vector : N;
  allowed_vlek_csp_ids : list bytes;
}.
Definition csp_char (b : byte) : bool := (0x21 <=? byte_N b) && (byte_N b <=? 0x7e).
Definition check_csp_id (seen : gset bytes) (id : bytes) : res PkiError (gset bytes) :=
  need (negb (blen id =? 0) && (blen id <=? 256) && forallb csp_char id) "invalid AMD CSP ID";;
  need (bool_decide (id ∉ seen)) "duplicate AMD CSP ID";;
  Ok ({[id]} ∪ seen).
Definition policy_validate (p : SnpTcbPolicy) : res PkiError unit :=
  tcb_validate (minimum_tcb p) (product p);;
  need (negb (boot_loader (minimum_tcb p) =? 0) || negb (tee (minimum_tcb p) =? 0)
        || negb (snp (minimum_tcb p) =? 0) || negb (microcode (minimum_tcb p) =? 0)
        || negb (default 0 (fmc (minimum_tcb p)) =? 0)) "AMD minimum TCB cannot be all zero";;
  need (expected_vmpl p <=? 3) "AMD expected VMPL outside 0..3";;
  need (blen (allowed_vlek_csp_ids p) <=? 32) "too many AMD CSP IDs";;
  for_each check_csp_id ∅ (allowed_vlek_csp_ids p);;
  Ok tt.

(** ** Certificates *)
Definition common_names (c : Certificate) : list Attribute :=
  filter (fun a => attr_oid a = lit "2.5.4.3") (mjoin (subject c)).
Definition common_name (c : Certificate) : res PkiError bytes :=
  match common_names c with
  | [] => Err (PkiMsg "AMD certificate missing commonName")
  | [a] =>
    v ← orelse (from_utf8 (attr_value a)) "invalid UTF-8";
    need (ascii v) "non-ASCII AMD certificate commonName";;
    Ok v
  | _ => Err (PkiMsg "AMD certificate duplicate commonName")
  end.

Record Endorsement : Type := { e_tcb : SnpTcbVersion; hwid : option bytes; stepping : option N }.

Definition KDS_PREFIX : bytes := lit "1.3.6.1.4.1.3704.1.".
Definition collect_kds (m : gmap bytes bytes) (ext : Extension) : res PkiError (gmap bytes bytes) :=
  match strip_prefix KDS_PREFIX (extn_id ext) with
  | Some suffix =>
    need (negb (critical ext)) "unexpected critical AMD KDS extension";;
    need (bool_decide (m !! suffix = None)) "duplicate AMD KDS extension";;
    Ok (<[suffix := extn_value ext]> m)
  | None => Ok m
  end.
Definition expected_keys (p : SnpProduct) : list bytes :=
  if is_turin p then lit <$> ["1"; "2"; "3.9"; "3.1"; "3.2"; "3.3"; "3.5"; "3.6"; "3.7"; "3.8"]
  else lit <$> ["1"; "2"; "3.1"; "3.2"; "3.3"; "3.4"; "3.5"; "3.6"; "3.7"; "3.8"].
Definition contains (m : gmap bytes bytes) (k : bytes) : bool := has (m !! k).

Section Appraisal.
Context `{X : X509} `{K : CpuCrypto} `{H : Sha2} `{R : DerPrims}.

(** [integer(key)] *)
Definition integer (m : gmap bytes bytes) (key : string) : res PkiError N :=
  b ← orelse (m !! lit key) "missing AMD SPL";
  orelse (der_u8 b) "invalid integer".
Definition check_reserved (m : gmap bytes bytes) (_ : unit) (key : string) : res PkiError unit :=
  if contains m (lit key) then v ← integer m key; need (v =? 0) "AMD reserved SPL is nonzero" else Ok tt.

(** [product_name] carries the stepping of a VCEK. *)
Definition is_upper (b : byte) : bool := (65 <=? byte_N b) && (byte_N b <=? 90).
Definition check_product_name (name : bytes) (p : SnpProduct) (vlek : bool) : res PkiError unit :=
  if vlek then need (bytes_eqb name (product_name p)) "AMD VLEK product mismatch"
  else
    suffix ← orelse (strip_prefix (product_name p ++ lit "-") name) "AMD VCEK product/stepping missing";
    need (match suffix with [a; b] => is_upper a && is_digit b | _ => false end)
      "invalid AMD VCEK stepping encoding".

Definition endorsement_hwid (m : gmap bytes bytes) (vlek : bool) (policy : SnpTcbPolicy) :
    res PkiError (option bytes) :=
  if vlek then
    need (contains m (lit "5") && negb (contains m (lit "4"))) "AMD VLEK must have CSP ID and no HWID";;
    b5 ← unwrap (m !! lit "5");
    csp ← orelse (der_ia5 b5) "invalid IA5 string";
    need (existsb (fun id => bytes_eqb id csp) (allowed_vlek_csp_ids policy)) "AMD VLEK CSP is not enrolled";;
    Ok None
  else
    need (contains m (lit "4") && negb (contains m (lit "5"))) "AMD VCEK must have HWID and no CSP ID";;
    let expected_length := if is_turin (product policy) then 8 else 64 in
    b ← unwrap (m !! lit "4");
    hwid ← (if blen b =? expected_length then Ok b else orelse (der_octets b) "invalid octet string");
    need ((blen hwid =? expected_length) && any_nonzero hwid) "AMD invalid/zero HWID";;
    Ok (Some hwid).

Definition endorsement (c : Certificate) (vlek : bool) (policy : SnpTcbPolicy) : res PkiError Endorsement :=
  let p := product policy in
  m ← for_each collect_kds ∅ (extensions c);
  need ((N.of_nat (size m) =? blen (expected_keys p) + 1) && forallb (contains m) (expected_keys p))
    "AMD KDS extension set mismatch";;
  version ← integer m "1";
  need (version =? N.b2n (is_turin p)) "AMD KDS structure version mismatch";;
  b2 ← unwrap (m !! lit "2");
  name ← orelse (der_ia5 b2) "invalid IA5 string";
  check_product_name name p vlek;;
  for_each (check_reserved m) tt ["3.4"; "3.5"; "3.6"; "3.7"];;
  f ← (if is_turin p then v ← integer m "3.9"; Ok (Some v) else Ok None);
  bl ← integer m "3.1"; te ← integer m "3.2"; sn ← integer m "3.3"; mc ← integer m "3.8";
  let tcb := {| fmc := f; boot_loader := bl; tee := te; snp := sn; microcode := mc |} in
  tcb_validate tcb p;;
  hw ← endorsement_hwid m vlek policy;
  step ← (if vlek then Ok None
          else
            n ← unwrap (checked_sub (blen name) 1);
            c ← index name n;
            d ← unwrap (checked_sub (byte_N c) 48);
            Ok (Some d));
  Ok {| e_tcb := tcb; hwid := hw; stepping := step |}.

(** ** The report *)
Definition le32 (b : bytes) (o : N) : res PkiError N := s ← index_range b o (o + 4); Ok (le_to_N s).
Definition le64 (b : bytes) (o : N) : res PkiError N := s ← index_range b o (o + 8); Ok (le_to_N s).
Definition byte_at (b : bytes) (o : N) : res PkiError N := c ← index b o; Ok (byte_N c).
Definition zero_range (b : bytes) (i j : N) : res PkiError bool := s ← index_range b i j; Ok (all_zero s).

Definition report_tcb (raw : bytes) (offset : N) (p : SnpProduct) : res PkiError SnpTcbVersion :=
  b ← index_range raw offset (offset + 8);
  tcb ← (if is_turin p then
           z ← zero_range b 4 7;
           need z "AMD reserved Turin TCB bytes nonzero";;
           b0 ← byte_at b 0; b1 ← byte_at b 1; b2 ← byte_at b 2; b3 ← byte_at b 3; b7 ← byte_at b 7;
           Ok {| fmc := Some b0; boot_loader := b1; tee := b2; snp := b3; microcode := b7 |}
         else
           z ← zero_range b 2 6;
           need z "AMD reserved TCB bytes nonzero";;
           b0 ← byte_at b 0; b1 ← byte_at b 1; b6 ← byte_at b 6; b7 ← byte_at b 7;
           Ok {| fmc := None; boot_loader := b0; tee := b1; snp := b6; microcode := b7 |});
  tcb_validate tcb p;;
  Ok tcb.

Definition cpuid_product (fam model : N) : option SnpProduct :=
  if (fam =? 0x19) && (model <=? 0x0f) then Some Milan
  else if (fam =? 0x19) && (0x10 <=? model) && (model <=? 0x1f) then Some Genoa
  else if (fam =? 0x1a) && (model <=? 0x1f) then Some Turin
  else None.

(** The CPU identity: absent from version 2, checked in version 5. *)
Definition check_cpuid (raw : bytes) (version : N) (policy : SnpTcbPolicy) (e : Endorsement) : res PkiError unit :=
  if version =? 2 then
    z ← zero_range raw 0x188 0x1a0;
    need (negb (is_turin (product policy)) && z) "AMD legacy report/profile mismatch"
  else
    fam ← byte_at raw 0x188; model ← byte_at raw 0x189;
    expected ← orelse (cpuid_product fam model) "unsupported AMD CPUID family/model";
    need (bool_decide (expected = product policy)) "AMD CPUID/product policy mismatch";;
    match stepping e with
    | Some s => b ← byte_at raw 0x18a; need (b =? s) "AMD certificate/report stepping mismatch"
    | None => Ok tt
    end;;
    z ← zero_range raw 0x18b 0x1a0;
    need z "AMD reserved CPUID bytes nonzero".

Definition check_hwid (raw : bytes) (e : Endorsement) : res PkiError unit :=
  match hwid e with
  | Some h =>
    a ← index_range raw 0x1a0 (0x1a0 + blen h);
    z ← zero_range raw (0x1a0 + blen h) 0x1e0;
    need (bytes_eqb a h && z) "AMD VCEK HWID does not match signed CHIP_ID"
  | None => Ok tt
  end.

Definition check_tcbs (raw : bytes) (policy : SnpTcbPolicy) (e : Endorsement) : res PkiError unit :=
  let p := product policy in
  reported ← report_tcb raw 0x180 p;
  current ← report_tcb raw 0x38 p;
  committed ← report_tcb raw 0x1e0 p;
  launch ← report_tcb raw 0x1f0 p;
  need (bool_decide (reported = e_tcb e)) "AMD endorsement SPLs differ from signed REPORTED_TCB";;
  need (at_least current reported && at_least committed reported)
    "AMD reported TCB exceeds installed/committed TCB";;
  b1 ← index_range raw 0x1e8 0x1eb; b2 ← index_range raw 0x1ec 0x1ef;
  need (bool_decide (current = committed) && bytes_eqb b1 b2) "AMD provisional firmware is unacceptable";;
  need (forallb (fun t => at_least t (minimum_tcb policy)) [reported; current; committed; launch])
    "AMD component TCB below policy minimum".

Definition bit (n i : N) : bool := negb (N.land n (N.shiftl 1 i) =? 0).
Definition check_guest (raw : bytes) (version : N) (policy : SnpTcbPolicy) : res PkiError unit :=
  svn ← le32 raw 4;
  need (minimum_guest_svn policy <=? svn) "AMD guest SVN below policy minimum";;
  vmpl ← le32 raw 0x30;
  need (vmpl =? expected_vmpl policy) "AMD VMPL mismatch";;
  guest_policy ← le64 raw 8;
  need (negb (bit guest_policy 19)) "AMD debug-enabled guest";;
  need (negb (bit guest_policy 18)) "AMD migration-agent guest policy is unsupported";;
  need (bit guest_policy 17 && (N.shiftr guest_policy 26 =? 0)) "AMD guest policy reserved bits invalid";;
  platform_info ← le64 raw 0x40;
  need (N.ldiff platform_info 0xbf =? 0) "AMD platform info reserved bits nonzero";;
  (if require_smt_disabled policy then
     need (negb (bit platform_info 0) && negb (bit guest_policy 16)) "AMD SMT is enabled/permitted"
   else Ok tt);;
  (if require_alias_check_complete policy then
     need ((3 <=? version) && bit platform_info 5) "AMD alias-check mitigation missing"
   else Ok tt).

Definition check_mitigations (raw : bytes) (version : N) (policy : SnpTcbPolicy) : res PkiError unit :=
  if version =? 2 then
    need ((minimum_launch_mitigation_vector policy =? 0) && (minimum_current_mitigation_vector policy =? 0))
      "AMD legacy report lacks required mitigation vectors";;
    z ← zero_range raw 0x1f8 0x2a0;
    need z "AMD legacy reserved report bytes nonzero"
  else
    l ← le64 raw 0x1f8;
    need (N.land l (minimum_launch_mitigation_vector policy) =? minimum_launch_mitigation_vector policy)
      "AMD launch mitigation vector lacks required bits";;
    c ← le64 raw 0x200;
    need (N.land c (minimum_current_mitigation_vector policy) =? minimum_current_mitigation_vector policy)
      "AMD current mitigation vector lacks required bits";;
    z ← zero_range raw 0x208 0x2a0;
    need z "AMD reserved report bytes nonzero".

Definition appraise_claims (raw : bytes) (policy : SnpTcbPolicy) (e : Endorsement) : res PkiError unit :=
  version ← le32 raw 0;
  need ((version =? 2) || (version =? 5)) "unsupported AMD report version";;
  check_cpuid raw version policy e;;
  key_info ← le32 raw 0x48;
  need ((N.ldiff key_info 0x1f =? 0) && (N.land key_info 2 =? 0) && (N.land (N.shiftr key_info 2) 7 <=? 1))
    "AMD invalid/masked signing key";;
  check_hwid raw e;;
  check_tcbs raw policy e;;
  check_guest raw version policy;;
  check_mitigations raw version policy;;
  z ← zero_range raw 0x4c 0x50; b1 ← byte_at raw 0x1eb; b2 ← byte_at raw 0x1ef;
  need (z && (b1 =? 0) && (b2 =? 0)) "AMD reserved report bytes nonzero".

Definition appraise_snp (raw : bytes) (c : SnpCollateral) (policy : SnpTcbPolicy) (now : N) : res PkiError unit :=
  validate_bounds c;;
  policy_validate policy;;
  need ((1184 <=? blen raw) && (blen raw <=? 8 * 1024 * 1024)) "AMD report length outside limit";;
  certs ← validate_chain (certificate_chain c) (pin (product policy)) now AmdEndorsement;
  c1 ← index certs 1; c2 ← index certs 2;
  check_crl (product_crl c) c1 c2 now;;
  key_info ← le32 raw 0x48;
  let vlek := N.land (N.shiftr key_info 2) 7 =? 1 in
  let role := if vlek then lit "SEV-VLEK" else lit "SEV" in
  n1 ← common_name c1;
  need (bytes_eqb n1 (role ++ lit "-" ++ product_name (product policy)))
    "AMD endorsement issuer role/product mismatch";;
  c0 ← index certs 0;
  n0 ← common_name c0;
  need (bytes_eqb n0 (if vlek then lit "SEV-VLEK" else lit "SEV-VCEK")) "AMD endorsement leaf role mismatch";;
  need (bytes_eqb (alg_oid (signature_algorithm c0)) (lit "1.2.840.113549.1.1.10"))
    "AMD endorsement requires RSA-PSS SHA384";;
  endorsed ← endorsement c0 vlek policy;
  appraise_claims raw policy endorsed.
End Appraisal.

(** ** Panic freedom *)
Lemma bit_testbit n i : bit n i = N.testbit n i.
Proof.
  unfold bit. rewrite N.shiftl_1_l. destruct (N.testbit n i) eqn:Eb.
  - apply negb_true_iff, N.eqb_neq. intros Hz. apply (f_equal (fun x => N.testbit x i)) in Hz.
    rewrite N.land_spec, N.pow2_bits_true, N.bits_0, Eb in Hz. done.
  - apply negb_false_iff, N.eqb_eq, N.bits_inj. intros j. rewrite N.land_spec, N.pow2_bits_eqb, N.bits_0.
    destruct (N.eqb_spec i j) as [->|]; [by rewrite Eb|apply andb_false_r].
Qed.

Ltac pki_wp := pki; wp.
#[local] Arguments for_each : simpl never.

Section Safety.
Context `{X : X509} `{K : CpuCrypto} `{H : Sha2} `{R : DerPrims}.

Lemma tcb_validate_safe t p : safe (tcb_validate t p) (fun _ => True).
Proof. unfold tcb_validate. pki_wp. done. Qed.
Lemma integer_safe m k (Q : N -> Prop) : (forall n, Q n) -> safe (integer m k) Q.
Proof. intros HQ. unfold integer. pki_wp. auto. Qed.
Lemma common_name_safe c : safe (common_name c) (fun _ => True).
Proof. unfold common_name. destruct (common_names c) as [|a [|? ?]]; [done| |done]. pki_wp. done. Qed.

Lemma le32_safe b o (Q : N -> Prop) : o + 4 <= blen b -> (forall n, Q n) -> safe (le32 b o) Q.
Proof. intros. unfold le32. rewrite index_range_slice by lia. simpl. auto. Qed.
Lemma le64_safe b o (Q : N -> Prop) : o + 8 <= blen b -> (forall n, Q n) -> safe (le64 b o) Q.
Proof. intros. unfold le64. rewrite index_range_slice by lia. simpl. auto. Qed.
Lemma byte_at_safe b o (Q : N -> Prop) : o < blen b -> (forall n, Q n) -> safe (byte_at b o) Q.
Proof. intros. unfold byte_at. wp. apply safe_index; [done|]. simpl. auto. Qed.
Lemma zero_range_safe b i j (Q : bool -> Prop) : i <= j -> j <= blen b -> (forall z, Q z) -> safe (zero_range b i j) Q.
Proof. intros. unfold zero_range. rewrite index_range_slice by lia. simpl. auto. Qed.

Ltac reads := repeat first
  [ progress pki_wp
  | apply byte_at_safe; [lia|intros ?]
  | apply le32_safe; [lia|intros ?]
  | apply le64_safe; [lia|intros ?]
  | apply zero_range_safe; [lia|lia|intros ?]
  | apply integer_safe; intros ?
  | apply safe_index_range; [lia|lia|intros ? _ ?]
  | exact I ].

Lemma report_tcb_safe raw o p (Q : SnpTcbVersion -> Prop) :
  o + 8 <= blen raw -> (forall t, Q t) -> safe (report_tcb raw o p) Q.
Proof.
  intros Hl HQ. unfold report_tcb. reads. apply (safe_mono _ (fun _ => True)); [destruct (is_turin p); reads|].
  intros t _ _. wp. eapply safe_mono; [apply tcb_validate_safe|]. intros; simpl; auto.
Qed.

Lemma check_product_name_safe name p vlek :
  safe (check_product_name name p vlek) (fun _ => vlek = false -> exists pre c, name = pre ++ [c] /\ is_digit c = true).
Proof.
  unfold check_product_name. destruct vlek; pki_wp; [done|].
  match goal with E : strip_prefix _ _ = Some _ |- _ => apply strip_prefix_Some in E as -> end.
  intros _. destruct a as [|x [|y [|? ?]]]; try done. bools.
  exists ((product_name p ++ lit "-") ++ [x]), y. split; [by rewrite <- (app_assoc _ [x] [y])|done].
Qed.

Lemma contains_Some m k : contains m k = true -> exists b, m !! k = Some b.
Proof. unfold contains, has. destruct (m !! k); [eauto|done]. Qed.

Lemma endorsement_hwid_safe m vlek policy :
  safe (endorsement_hwid m vlek policy) (fun h =>
    match h with
    | Some h => vlek = false /\ blen h <= 64 /\ (is_turin (product policy) = false -> blen h = 64)
    | None => vlek = true /\ exists csp b, m !! lit "5" = Some b /\ der_ia5 b = Some csp /\
                csp ∈ allowed_vlek_csp_ids policy
    end).
Proof.
  unfold endorsement_hwid. destruct vlek; pki_wp; bools.
  - destruct (contains_Some m (lit "5")) as [b Hb]; [done|]. rewrite Hb. cbn [unwrap]. pki_wp. split; [done|].
    exists a, b. split_and!; try done.
    match goal with E : existsb _ _ = true |- _ => apply existsb_exists in E as (id & Hin & Heq) end.
    bools. subst. by apply list_elem_of_In.
  - destruct (contains_Some m (lit "4")) as [b Hb]; [done|]. rewrite Hb. cbn [unwrap]. pki_wp.
    apply (safe_mono _ (fun _ => True)); [destruct (_ =? _); pki_wp; done|]. intros h _ _. pki_wp. bools.
    destruct (is_turin (product policy)); split_and!; try done; lia.
Qed.

Lemma endorsement_safe c vlek policy : safe (endorsement c vlek policy) (fun e =>
  match hwid e with
  | Some h => vlek = false /\ blen h <= 64
  | None => vlek = true /\ exists m csp b, for_each collect_kds ∅ (extensions c) = Ok m /\
              m !! lit "5" = Some b /\ der_ia5 b = Some csp /\ csp ∈ allowed_vlek_csp_ids policy
  end).
Proof.
  unfold endorsement. wp. apply (safe_mono _ (fun _ => True)).
  { apply safe_for_each; [done|]. intros m e _ _. unfold collect_kds. case_match; pki_wp; done. }
  intros m Hm _. pki_wp. bools.
  apply integer_safe. intros v. pki_wp.
  destruct (contains_Some m (lit "2")) as [b2 Hb2].
  { match goal with E : forallb _ _ = true |- _ => rewrite forallb_forall in E; apply E end.
    unfold expected_keys. destruct (is_turin _); right; left; done. }
  rewrite Hb2. cbn [unwrap]. pki_wp. eapply safe_mono; [apply check_product_name_safe|]. intros [] _ Hname. wp.
  apply (safe_mono _ (fun _ => True)).
  { apply safe_for_each; [done|]. intros [] k _ _. unfold check_reserved. case_match; [|done]. reads. }
  intros [] _ _. wp. apply (safe_mono _ (fun _ => True)); [destruct (is_turin _); reads|]. intros f _ _.
  reads. eapply safe_mono; [apply tcb_validate_safe|]. intros [] _ _. wp.
  eapply safe_mono; [apply endorsement_hwid_safe|]. intros h _ Hh. wp.
  apply (safe_mono _ (fun _ => True)).
  { destruct vlek; [done|]. destruct (Hname eq_refl) as (pre & ch & -> & Hd). rewrite blen_app.
    change (blen [ch]) with 1. replace (checked_sub (blen pre + 1) 1) with (Some (blen pre)).
    2: { symmetry. apply checked_sub_Some. lia. }
    cbn [unwrap]. ok_step. rewrite (index_Some (pre ++ [ch]) (blen pre) ch) by apply get_app_blen. ok_step.
    unfold is_digit in Hd. bools. replace (checked_sub (byte_N ch) 48) with (Some (byte_N ch - 48)); [done|].
    symmetry. apply checked_sub_Some. lia. }
  intros s _ _. cbn [safe hwid]. destruct h as [h|]; [naive_solver|]. destruct Hh as (? & csp & b & ? & ? & ?). eauto 10.
Qed.

Lemma check_cpuid_safe raw v policy e : 1184 <= blen raw -> safe (check_cpuid raw v policy e) (fun _ => True).
Proof.
  intros Hl. unfold check_cpuid. destruct (v =? 2); reads.
  destruct (stepping e); reads.
Qed.
Lemma check_hwid_safe raw e : 1184 <= blen raw -> (forall h, hwid e = Some h -> blen h <= 64) ->
  safe (check_hwid raw e) (fun _ => forall h, hwid e = Some h ->
    slice raw 0x1a0 (0x1a0 + blen h) = h /\ all_zero (slice raw (0x1a0 + blen h) 0x1e0) = true).
Proof.
  intros Hl Hh. unfold check_hwid. destruct (hwid e) as [h|]; [|done]. specialize (Hh h eq_refl).
  unfold zero_range. rewrite !index_range_slice by lia. repeat ok_step. pki. apply safe_ensure.
  intros Hc h' [= <-]. bools. done.
Qed.

(** Componentwise order of security versions. *)
Record tcb_le (floor t : SnpTcbVersion) : Prop := {
  le_fmc : has (fmc t) = has (fmc floor) /\ default 0 (fmc floor) <= default 0 (fmc t);
  le_boot_loader : boot_loader floor <= boot_loader t;
  le_tee : tee floor <= tee t;
  le_snp : snp floor <= snp t;
  le_microcode : microcode floor <= microcode t;
}.
Lemma at_least_le t floor : at_least t floor = true <-> tcb_le floor t.
Proof.
  unfold at_least. rewrite !andb_true_iff, Bool.eqb_true_iff, !N.leb_le. split.
  - intros (((((? & ?) & ?) & ?) & ?) & ?). by split.
  - by intros [[] ? ? ? ?].
Qed.
#[global] Instance tcb_le_preorder : PreOrder tcb_le.
Proof.
  split.
  - intros t. by split.
  - intros a b c [[] ? ? ? ?] [[] ? ? ? ?]. split; [split; [congruence|]|..]; lia.
Qed.

(** The versions of a report: reported equals endorsed, nothing is provisional, and
    all of them reach the floor. *)
Definition tcbs_ok (raw : bytes) (policy : SnpTcbPolicy) (e : Endorsement) : Prop :=
  exists current launch,
    report_tcb raw 0x180 (product policy) = Ok (e_tcb e) /\
    report_tcb raw 0x38 (product policy) = Ok current /\
    report_tcb raw 0x1e0 (product policy) = Ok current /\
    report_tcb raw 0x1f0 (product policy) = Ok launch /\
    slice raw 0x1e8 0x1eb = slice raw 0x1ec 0x1ef /\
    tcb_le (e_tcb e) current /\ tcb_le (minimum_tcb policy) (e_tcb e) /\ tcb_le (minimum_tcb policy) launch.

Lemma check_tcbs_safe raw policy e : 1184 <= blen raw -> safe (check_tcbs raw policy e) (fun _ => tcbs_ok raw policy e).
Proof.
  intros Hl. unfold check_tcbs, tcbs_ok.
  assert (forall o, o + 8 <= blen raw -> safe (report_tcb raw o (product policy)) (fun _ => True)) as Hr.
  { intros. by apply report_tcb_safe. }
  wp. eapply safe_mono; [apply Hr; lia|]. intros rep Hrep _. wp. eapply safe_mono; [apply Hr; lia|]. intros cur Hcur _. wp.
  eapply safe_mono; [apply Hr; lia|]. intros com Hcom _. wp. eapply safe_mono; [apply Hr; lia|]. intros lau Hlau _.
  rewrite (index_range_slice raw 0x1e8 0x1eb), (index_range_slice raw 0x1ec 0x1ef) by lia. pki.
  apply safe_bind, safe_ensure. intros He. apply safe_bind, safe_ensure. intros Ha. do 2 ok_step.
  apply safe_bind, safe_ensure. intros Hp. apply safe_ensure. intros Hm. cbn [forallb] in Hm.
  rewrite ?andb_true_iff, ?at_least_le in *. bools. subst. exists com, lau.
  repeat match goal with E : _ && _ = true |- _ => apply andb_true_iff in E as [? ?] end.
  rewrite ?at_least_le in *. destruct_and?. by split_and!.
Qed.

(** The guest: no debugging, no migration agent, the privilege level and the version
    that the policy wants. *)
Record guest_ok (raw : bytes) (policy : SnpTcbPolicy) : Prop := {
  go_svn : minimum_guest_svn policy <= le_to_N (slice raw 4 8);
  go_vmpl : le_to_N (slice raw 0x30 0x34) = expected_vmpl policy;
  go_debug : N.testbit (le_to_N (slice raw 8 16)) 19 = false;
  go_migration : N.testbit (le_to_N (slice raw 8 16)) 18 = false;
  go_smt : require_smt_disabled policy = true ->
    N.testbit (le_to_N (slice raw 0x40 0x48)) 0 = false /\ N.testbit (le_to_N (slice raw 8 16)) 16 = false;
  go_alias : require_alias_check_complete policy = true ->
    N.testbit (le_to_N (slice raw 0x40 0x48)) 5 = true;
}.
Lemma check_guest_safe raw v policy : 1184 <= blen raw -> safe (check_guest raw v policy) (fun _ => guest_ok raw policy).
Proof.
  intros Hl. unfold check_guest, le32, le64. rewrite !index_range_slice by lia. pki. repeat ok_step.
  change (4 + 4) with 8. change (0x30 + 4) with 0x34. change (8 + 8) with 16. change (0x40 + 8) with 0x48.
  repeat first [ apply safe_bind, safe_ensure; intros ? | ok_step ].
  apply safe_bind. eapply (safe_mono _ (fun _ => require_smt_disabled policy = true ->
    N.testbit (le_to_N (slice raw 0x40 0x48)) 0 = false /\ N.testbit (le_to_N (slice raw 8 16)) 16 = false)).
  { destruct (require_smt_disabled policy); [|done]. apply safe_ensure. intros Hb _. rewrite !bit_testbit in Hb. by bools. }
  intros [] _ Hsmt. eapply (safe_mono _ (fun _ => require_alias_check_complete policy = true ->
    N.testbit (le_to_N (slice raw 0x40 0x48)) 5 = true)).
  { destruct (require_alias_check_complete policy); [|done]. apply safe_ensure. intros Hb _. rewrite bit_testbit in Hb. by bools. }
  intros [] _ Hal. rewrite !bit_testbit in *. bools. by split.
Qed.
Lemma check_mitigations_safe raw v policy : 1184 <= blen raw ->
  safe (check_mitigations raw v policy) (fun _ => True).
Proof. intros Hl. unfold check_mitigations. destruct (v =? 2); reads. Qed.

Lemma appraise_claims_safe raw policy e : 1184 <= blen raw -> (forall h, hwid e = Some h -> blen h <= 64) ->
  safe (appraise_claims raw policy e) (fun _ => tcbs_ok raw policy e /\ guest_ok raw policy /\
    forall h, hwid e = Some h ->
      slice raw 0x1a0 (0x1a0 + blen h) = h /\ all_zero (slice raw (0x1a0 + blen h) 0x1e0) = true).
Proof.
  intros Hl Hh. unfold appraise_claims. apply safe_bind, le32_safe; [lia|]. intros v. pki.
  apply safe_bind, safe_ensure. intros _. eapply safe_seq; [by apply check_cpuid_safe|]. intros _ _ _.
  apply safe_bind, le32_safe; [lia|]. intros ki. apply safe_bind, safe_ensure. intros _.
  eapply safe_seq; [by apply check_hwid_safe|]. intros [] _ Hhw.
  eapply safe_seq; [by apply check_tcbs_safe|]. intros [] _ Ht.
  eapply safe_seq; [by apply check_guest_safe|]. intros [] _ Hg.
  eapply safe_seq; [by apply check_mitigations_safe|]. intros _ _ _. reads. done.
Qed.

(** The list of the root clears the intermediate, and the leaf endorses the platform. *)
Definition snp_platform_ok (raw : bytes) (c : SnpCollateral) (policy : SnpTcbPolicy) (now : N) : Prop :=
  exists leaf inter root e (vlek : bool),
    validate_chain (certificate_chain c) (pin (product policy)) now AmdEndorsement = Ok [leaf; inter; root] /\
    (exists crl, crl_from_der (product_crl c) = Some crl /\ clears crl inter root now) /\
    vlek = (N.land (N.shiftr (le_to_N (slice raw 0x48 0x4c)) 2) 7 =? 1) /\
    endorsement leaf vlek policy = Ok e /\ tcbs_ok raw policy e /\ guest_ok raw policy /\
    (if vlek then
       exists m csp b, for_each collect_kds ∅ (extensions leaf) = Ok m /\ m !! lit "5" = Some b /\
         der_ia5 b = Some csp /\ csp ∈ allowed_vlek_csp_ids policy
     else
       exists h, hwid e = Some h /\ slice raw 0x1a0 (0x1a0 + blen h) = h /\
         all_zero (slice raw (0x1a0 + blen h) 0x1e0) = true).

Lemma validate_bounds_safe c : safe (validate_bounds c) (fun _ => blen (certificate_chain c) = 3).
Proof. unfold validate_bounds. pki_wp. bools. done. Qed.
Lemma policy_validate_safe p : safe (policy_validate p) (fun _ => True).
Proof.
  unfold policy_validate. wp. eapply safe_mono; [apply tcb_validate_safe|]. intros _ _ _. pki_wp.
  apply (safe_mono _ (fun _ => True)); [|done]. apply safe_for_each; [done|]. intros s id _ _.
  unfold check_csp_id. pki_wp. done.
Qed.

Lemma appraise_snp_safe raw c policy now :
  safe (appraise_snp raw c policy now) (fun _ => snp_platform_ok raw c policy now).
Proof.
  unfold appraise_snp. eapply safe_seq; [apply validate_bounds_safe|]. intros [] _ Hn.
  eapply safe_seq; [apply policy_validate_safe|]. intros _ _ _. pki. apply safe_bind, safe_ensure. intros Hl. bools.
  eapply safe_seq; [eapply decides_safe, validate_chain_decides|]. intros certs Hcerts [_ [_ _ Hdec _ _ _]].
  apply Forall2_length in Hdec. assert (exists leaf inter root, certs = [leaf; inter; root]) as (leaf & inter & root & ->).
  { unfold blen in Hn. destruct certs as [|? [|? [|? [|? ?]]]]; cbn [length] in Hdec; try lia. eauto. }
  rewrite (index_Some [leaf; inter; root] 1 inter eq_refl), (index_Some [leaf; inter; root] 2 root eq_refl). do 2 ok_step.
  eapply safe_seq; [eapply decides_safe, check_crl_decides|]. intros [] _ [(_ & crl & Hcrl & Hclears) _].
  unfold le32 at 1. rewrite (index_range_slice raw 0x48) by lia. do 2 ok_step. change (0x48 + 4) with 0x4c.
  set (vlek := N.land _ 7 =? 1). eapply safe_seq; [apply common_name_safe|]. intros n1 _ _.
  apply safe_bind, safe_ensure. intros _. rewrite (index_Some [leaf; inter; root] 0 leaf eq_refl). ok_step.
  eapply safe_seq; [apply common_name_safe|]. intros n0 _ _. apply safe_bind, safe_ensure. intros _.
  apply safe_bind, safe_ensure. intros _.
  eapply safe_seq; [apply endorsement_safe|]. intros e He Hhw. cbv beta in Hhw.
  eapply safe_mono; [apply appraise_claims_safe; [lia|]|].
  { intros h Hh. rewrite Hh in Hhw. by destruct Hhw. }
  intros [] _ (Ht & Hg & Hchip). exists leaf, inter, root, e, vlek. split_and!; try done; [eauto|].
  destruct (hwid e) as [h|] eqn:Eh; destruct Hhw as [Hv Hrest]; rewrite Hv; [|done].
  exists h. split; [done|]. by apply Hchip.
Qed.

(** C25: [appraise_snp] never panics, and a platform that it accepts is endorsed and
    meets the policy: the chain validates to the product's pinned root, the root's
    current list does not revoke the intermediate, the reported security versions are
    exactly the endorsed ones and do not exceed the installed ones, nothing is
    provisional, reported, installed and launch versions all reach the floor, debugging
    and migration are off, the privilege level and guest version are as required, and
    the endorsement is for this chip (VCEK) or from an enrolled provider (VLEK). *)
Theorem snp_appraisal_sound raw c policy now :
  safe (appraise_snp raw c policy now) (fun _ => snp_platform_ok raw c policy now).
Proof. apply appraise_snp_safe. Qed.
End Safety.

(** ** Monotonicity in the policy *)
Lemma bind_mono {E A B} (c c' : res E A) (f f' : A -> res E B) v :
  (forall a, c = Ok a -> c' = Ok a) -> (forall a, c = Ok a -> f a = Ok v -> f' a = Ok v) ->
  c ≫= f = Ok v -> c' ≫= f' = Ok v.
Proof. intros Hc Hf (a & Ha & Hv)%bind_Ok. rewrite (Hc a Ha). exact (Hf a Ha Hv). Qed.
Lemma ensure_mono {E} (b b' : bool) (e e' : E) u :
  (b = true -> b' = true) -> ensure b e = Ok u -> ensure b' e' = Ok u.
Proof. intros Hb Hu. pose proof (ensure_Ok _ _ _ Hu) as H1. rewrite (Hb H1). by rewrite H1 in Hu. Qed.

(** [p'] asks for no more than [p]. *)
Record weaker (p' p : SnpTcbPolicy) : Prop := {
  wk_product : product p' = product p;
  wk_tcb : tcb_le (minimum_tcb p') (minimum_tcb p);
  wk_svn : minimum_guest_svn p' <= minimum_guest_svn p;
  wk_vmpl : expected_vmpl p' = expected_vmpl p;
  wk_smt : require_smt_disabled p' = true -> require_smt_disabled p = true;
  wk_alias : require_alias_check_complete p' = true -> require_alias_check_complete p = true;
  wk_launch : N.land (minimum_launch_mitigation_vector p) (minimum_launch_mitigation_vector p')
              = minimum_launch_mitigation_vector p';
  wk_current : N.land (minimum_current_mitigation_vector p) (minimum_current_mitigation_vector p')
               = minimum_current_mitigation_vector p';
  wk_ids : allowed_vlek_csp_ids p ⊆ allowed_vlek_csp_ids p';
}.

Lemma land_weaker l m m' : N.land m m' = m' -> N.land l m = m -> N.land l m' = m'.
Proof. intros Hw Hl. rewrite <- Hw at 1. by rewrite N.land_assoc, Hl. Qed.

Section Monotone.
Context `{X : X509} `{K : CpuCrypto} `{H : Sha2} `{R : DerPrims}.
Context (p p' : SnpTcbPolicy) (W : weaker p' p).

(** Step over parts that do not depend on the policy. *)
Ltac same := repeat (apply bind_mono; [by intros; pki|intros ? ?]).

Lemma endorsement_hwid_mono m vlek h :
  endorsement_hwid m vlek p = Ok h -> endorsement_hwid m vlek p' = Ok h.
Proof.
  unfold endorsement_hwid. rewrite (wk_product _ _ W). destruct vlek; [|done]. pki. same.
  apply bind_mono; [|by intros]. intros u. apply ensure_mono. rewrite !existsb_exists.
  intros (id & Hin & Heq). exists id. split; [|done]. rewrite <- list_elem_of_In in *. by apply (wk_ids _ _ W).
Qed.

Lemma endorsement_mono c vlek e : endorsement c vlek p = Ok e -> endorsement c vlek p' = Ok e.
Proof.
  unfold endorsement. rewrite (wk_product _ _ W).
  do 14 (apply bind_mono; [by intros|intros ? _]).
  apply bind_mono; [intros h; apply endorsement_hwid_mono|intros ? _]. done.
Qed.

Lemma check_tcbs_mono raw e u : check_tcbs raw p e = Ok u -> check_tcbs raw p' e = Ok u.
Proof.
  unfold check_tcbs. rewrite (wk_product _ _ W). pki. do 9 (apply bind_mono; [by intros|intros ? _]).
  apply ensure_mono. cbn [forallb]. rewrite !andb_true_iff, !at_least_le.
  pose proof (wk_tcb _ _ W) as Hle. intros (? & ? & ? & ? & _). split_and!; try done; by transitivity (minimum_tcb p).
Qed.

Lemma check_guest_mono raw v u : check_guest raw v p = Ok u -> check_guest raw v p' = Ok u.
Proof.
  destruct W as [_ _ Hsvn Hvmpl Hsmt Hal _ _ _]. unfold check_guest. pki. rewrite Hvmpl.
  apply bind_mono; [done|intros svn _]. apply bind_mono.
  { intros ?. apply ensure_mono. rewrite !N.leb_le. lia. }
  intros ? _. do 8 (apply bind_mono; [by intros|intros ? _]). apply bind_mono.
  - intros w. destruct (require_smt_disabled p'); [by rewrite Hsmt|]. intros _. by destruct w.
  - intros ? _. destruct (require_alias_check_complete p'); [by rewrite Hal|]. intros _. by destruct u.
Qed.

Lemma check_mitigations_mono raw v u : check_mitigations raw v p = Ok u -> check_mitigations raw v p' = Ok u.
Proof.
  destruct W as [_ _ _ _ _ _ Hl Hc _]. unfold check_mitigations. pki. destruct (v =? 2).
  - apply bind_mono; [|by intros]. intros ?. apply ensure_mono. rewrite !andb_true_iff, !N.eqb_eq.
    intros [E1 E2]. rewrite E1 in Hl. rewrite E2 in Hc. by rewrite <- Hl, <- Hc.
  - apply bind_mono; [done|intros l _]. apply bind_mono.
    { intros ?. apply ensure_mono. rewrite !N.eqb_eq. by apply land_weaker. }
    intros ? _. apply bind_mono; [done|intros c _]. apply bind_mono; [|by intros].
    intros ?. apply ensure_mono. rewrite !N.eqb_eq. by apply land_weaker.
Qed.

Lemma check_cpuid_same raw v e : check_cpuid raw v p e = check_cpuid raw v p' e.
Proof. unfold check_cpuid. by rewrite (wk_product _ _ W). Qed.

Lemma appraise_claims_mono raw e u : appraise_claims raw p e = Ok u -> appraise_claims raw p' e = Ok u.
Proof.
  unfold appraise_claims. do 2 (apply bind_mono; [by intros|intros ? _]).
  apply bind_mono; [intros ?; by rewrite check_cpuid_same|intros ? _].
  do 3 (apply bind_mono; [by intros|intros ? _]).
  apply bind_mono; [intros ?; apply check_tcbs_mono|intros ? _].
  apply bind_mono; [intros ?; apply check_guest_mono|intros ? _].
  apply bind_mono; [intros ?; apply check_mitigations_mono|intros ? _]. done.
Qed.

(** Appraisal is monotone in the operator's floors: a platform that [appraise_snp]
    accepts under a policy is accepted under every valid policy that asks for no more
    (lower versions, fewer mitigations and restrictions, more enrolled providers) for
    the same product and privilege level.  In particular no check is inverted. *)
Theorem snp_policy_monotone raw c now :
  policy_validate p' = Ok tt -> appraise_snp raw c p now = Ok tt -> appraise_snp raw c p' now = Ok tt.
Proof.
  intros Hp'. unfold appraise_snp. rewrite (wk_product _ _ W).
  apply bind_mono; [done|intros ? _]. apply bind_mono; [by intros []|intros ? _].
  do 12 (apply bind_mono; [by intros|intros ? _]).
  apply bind_mono; [intros ?; apply endorsement_mono|intros ? _]. apply appraise_claims_mono.
Qed.
End Monotone.

(** ** A concrete platform: a Milan VCEK under an RSA intermediate *)
Definition pss_alg : AlgorithmIdentifier :=
  {| alg_oid := RSA_PSS;
     alg_params := Some {| params_der := []; params_oid := None; params_null := false |} |}.
Definition kds_ext (key : string) (v : bytes) : Extension :=
  {| extn_id := KDS_PREFIX ++ lit key; critical := false; extn_value := v |}.
Definition sample_chip : bytes := replicate 64 x5a.
Definition vcek_leaf : Certificate := {|
  cert_version := V3; serial_number := [x07]; tbs_signature := pss_alg;
  issuer := cn "SEV-Milan"; not_before := 10; not_after := 20; subject := cn "SEV-VCEK";
  spki_algorithm := ec_spki P384_OID; spki_der := []; subject_public_key := octets [x0a];
  has_unique_ids := false;
  extensions := [kds_ext "1" [x00]; kds_ext "2" (lit "Milan-B1"); kds_ext "3.1" [x02]; kds_ext "3.2" [x02];
    kds_ext "3.3" [x02]; kds_ext "3.4" [x00]; kds_ext "3.5" [x00]; kds_ext "3.6" [x00]; kds_ext "3.7" [x00];
    kds_ext "3.8" [x05]; kds_ext "4" sample_chip];
  get_basic_constraints := Some None; get_key_usage := Some None;
  get_eku := Some None; get_aki := Some None; get_ski := Some None; tbs_der := [x06];
  signature_algorithm := pss_alg; cert_signature := octets (take 8 (sha384 (Sha2 := toy_sha2) [x06])) |}.
Definition amd_inter : Certificate := {|
  cert_version := V3; serial_number := [x05]; tbs_signature := ecdsa_sha256;
  issuer := cn "root"; not_before := 0; not_after := 99; subject := cn "SEV-Milan";
  spki_algorithm := {| alg_oid := RSA_KEY; alg_params := None |}; spki_der := []; subject_public_key := octets [x0b];
  has_unique_ids := false; extensions := [];
  get_basic_constraints := Some (Some (true, {| ca := true; path_len_constraint := Some 0 |}));
  get_key_usage := Some (Some (true, issuing));
  get_eku := Some None; get_aki := Some None; get_ski := Some None; tbs_der := [x05];
  signature_algorithm := ecdsa_sha256; cert_signature := octets (x0b :: sha256 (Sha2 := toy_sha2) [x05]) |}.
Definition amd_root : Certificate := {|
  cert_version := V3; serial_number := [x08]; tbs_signature := ecdsa_sha256;
  issuer := cn "root"; not_before := 0; not_after := 99; subject := cn "root";
  spki_algorithm := ec_spki P384_OID; spki_der := []; subject_public_key := octets [x0b];
  has_unique_ids := false; extensions := [];
  get_basic_constraints := Some (Some (true, {| ca := true; path_len_constraint := None |}));
  get_key_usage := Some (Some (true, issuing));
  get_eku := Some None; get_aki := Some None; get_ski := Some None; tbs_der := [x12];
  signature_algorithm := ecdsa_sha256; cert_signature := octets (x0b :: sha256 (Sha2 := toy_sha2) [x12]) |}.
Definition sha384_alg : AlgorithmIdentifier := {| alg_oid := lit "2.16.840.1.101.3.4.2.2"; alg_params := None |}.
Definition amd_x509 : X509 := {|
  cert_from_der := fun b =>
    if bytes_eqb b [x06] then Some vcek_leaf else if bytes_eqb b [x05] then Some amd_inter
    else if bytes_eqb b [x02] then Some amd_root else None;
  crl_from_der := fun b => if bytes_eqb b [x03] then Some (sample_crl []) else None;
  aki_from_der := fun _ => None; crl_number_ok := fun _ => false;
  crl_reason_remove := fun _ => None; generalized_time_ok := fun _ => false;
  pss_from_der := fun _ => Some {| pss_hash := sha384_alg; pss_mask_gen_oid := lit "1.2.840.113549.1.1.8";
                                   pss_mgf := Some sha384_alg; pss_salt_len := 48 |};
  base64_decode := fun _ => None |}.
Definition amd_cpu : CpuCrypto := {|
  p256 := toy_curve; p384 := toy_curve; rsa_bits := fun _ => Some 4096;
  rsa_pss_verify := fun _ d s => bytes_eqb s (take 8 d) |}.
Definition toy_der : DerPrims := {|
  der_u8 := fun b => match b with [c] => Some (byte_N c) | _ => None end; der_ia5 := Some; der_octets := Some |}.

Definition tcb_bytes : bytes := [x02; x02; x00; x00; x00; x00; x02; x05].
Definition amd_report : bytes :=
  pad 8 [x02] ++ pad 48 [x00; x00; x02] ++ tcb_bytes ++ pad 0x140 [] ++ tcb_bytes ++ pad 24 [] ++ sample_chip
  ++ tcb_bytes ++ pad 8 [] ++ tcb_bytes ++ pad 680 [].
Definition amd_policy (level uc : N) : SnpTcbPolicy := {|
  product := Milan;
  minimum_tcb := {| fmc := None; boot_loader := level; tee := level; snp := level; microcode := uc |};
  minimum_guest_svn := 0; expected_vmpl := 0; require_smt_disabled := true;
  require_alias_check_complete := false; minimum_launch_mitigation_vector := 0;
  minimum_current_mitigation_vector := 0; allowed_vlek_csp_ids := [] |}.
Definition amd_collateral : SnpCollateral :=
  {| certificate_chain := [[x06]; [x05]; [x02]]; product_crl := [x03] |}.

(** A floor above the platform's microcode is refused. *)
Example amd_below_floor :
  appraise_snp (X := amd_x509) (K := amd_cpu) (H := pinned_sha2 AMD_ARK_MILAN_SHA256) (R := toy_der)
    amd_report amd_collateral (amd_policy 2 6) 15 = Err (PkiMsg "AMD component TCB below policy minimum").
Proof. vm_compute. reflexivity. Qed.
Lemma amd_accepted :
  appraise_snp (X := amd_x509) (K := amd_cpu) (H := pinned_sha2 AMD_ARK_MILAN_SHA256) (R := toy_der)
    amd_report amd_collateral (amd_policy 2 5) 15 = Ok tt.
Proof. vm_compute. reflexivity. Qed.
Lemma snp_policy_monotone_witness :
  appraise_snp (X := amd_x509) (K := amd_cpu) (H := pinned_sha2 AMD_ARK_MILAN_SHA256) (R := toy_der)
    amd_report amd_collateral (amd_policy 1 1) 15 = Ok tt.
Proof.
  apply (snp_policy_monotone (X := amd_x509) (K := amd_cpu) (H := pinned_sha2 AMD_ARK_MILAN_SHA256) (R := toy_der)
    (amd_policy 2 5) (amd_policy 1 1)).
  - by split; try done; split.
  - reflexivity.
  - exact amd_accepted.
Defined.
