(* ===== verification/TdxCollateral.v ===== *)
(** * TdxCollateral: Intel TCB appraisal of [src/v2/src/quote/tdx_collateral.rs]

    Intel publishes signed JSON documents (TCB Info and QE Identity) and revocation
    lists; the PCK certificate carries the platform's security versions.  Appraisal
    authenticates the documents, checks their validity window and evaluation number,
    selects the level that the platform reaches, and requires it to be up to date.

    JSON and DER are crates: [IntelDocs] holds the typed parsers and [RawValue] is the
    exact text of the signed object; [Any] is a DER element and the decoders of its
    contents are functions.  [[Component; 16]] has a static length, so slicing it at 0
    or 2 cannot fail and is [drop].

    [quote_parts_agree]: appraisal reads the same body, QE report and certificate chain
    from a quote as its verifier does.  [tdx_appraisal_sound]: what acceptance means. *)
From S2P Require Import Prelude Bytes Text Crypto Eat Pki Crl Pem TdxQuote.

Definition MAX_JSON : N := 1024 * 1024.
Definition MAX_CRL : N := 4 * 1024 * 1024.
Definition MAX_LEVELS : N := 512.
Definition SGX_EXTENSION : bytes := lit "1.2.840.113741.1.13.1".

Record TdxCollateral : Type := {
  tcb_info_json : bytes;
  tcb_info_signing_chain : list bytes;
  qe_identity_json : bytes;
  qe_identity_signing_chain : list bytes;
  root_ca_crl : bytes;
  pck_crl : bytes;
}.

(** ** The signed documents *)
Record Component : Type := { svn : N; category : option bytes; component_type : option bytes }.
Record PlatformTcb : Type := { sgxtcbcomponents : list Component; tdxtcbcomponents : list Component; pcesvn : N }.
Record PlatformLevel : Type := {
  pl_tcb : PlatformTcb; pl_tcb_date : bytes; pl_tcb_status : bytes; pl_advisory_ids : list bytes;
}.
Record IsvLevel : Type := {
  isvsvn : N; il_tcb_date : bytes; il_tcb_status : bytes; il_advisory_ids : list bytes;
}.
Record TdxModule : Type := { tm_mrsigner : bytes; tm_attributes : bytes; tm_attributes_mask : bytes }.
Record TdxModuleIdentity : Type := {
  mi_id : bytes; mi_module : TdxModule; mi_tcb_levels : list IsvLevel;
}.
Record TcbInfo : Type := {
  ti_id : bytes; ti_version : N; ti_issue_date : bytes; ti_next_update : bytes;
  fmspc : bytes; pce_id : bytes; tcb_type : N; ti_evaluation : N;
  tdx_module : TdxModule; tdx_module_identities : list TdxModuleIdentity; ti_tcb_levels : list PlatformLevel;
}.
Record QeIdentity : Type := {
  qi_id : bytes; qi_version : N; qi_issue_date : bytes; qi_next_update : bytes; qi_evaluation : N;
  miscselect : bytes; miscselect_mask : bytes; qi_attributes : bytes; qi_attributes_mask : bytes;
  qi_mrsigner : bytes; isvprodid : N; qi_tcb_levels : list IsvLevel;
}.

(** A DER element, and an entry of an extension sequence. *)
Record Any : Type := { any_tag : N; any_value : bytes }.
Definition OidValue : Type := bytes * Any.

Class IntelDocs := {
  (** [SignedTcb], [SignedQe]: the raw object and the signature text *)
  signed_tcb : bytes -> option (bytes * bytes);
  signed_qe : bytes -> option (bytes * bytes);
  tcb_info : bytes -> option TcbInfo;
  qe_identity : bytes -> option QeIdentity;
  (** [der::DateTime::new(..)?.unix_duration()] *)
  datetime : N -> N -> N -> N -> N -> N -> option N;
  oid_values : bytes -> option (list OidValue);
  any_sequence : Any -> option (list OidValue);
  any_octets : Any -> option bytes;
  any_u8 : Any -> option N;
  any_u16 : Any -> option N;
  any_bool : Any -> option bool;
}.

(** ** Quote layout *)
Record QuoteParts : Type := { qp_body : bytes; qp_qe_report : bytes; qp_pck_chain : bytes }.
Definition u32_le (b : bytes) (i j : N) : res PkiError N := s ← index_range b i j; Ok (le_to_N s).
Definition is_range (b : bytes) (i j : N) (v : bytes) : res PkiError bool := s ← index_range b i j; Ok (bytes_eqb s v).

Definition QuoteParts_parse (quote : bytes) : res PkiError QuoteParts :=
  need ((770 <=? blen quote) && (blen quote <=? 128 * 1024)) "TDX quote length outside supported bounds";;
  v ← is_range quote 0 2 (N_to_le 2 4);
  k ← is_range quote 2 4 (N_to_le 2 2);
  t ← is_range quote 4 8 (N_to_le 4 0x81);
  need (v && k && t) "only TDX DCAP v4 ECDSA-P256 is supported";;
  n ← u32_le quote 632 636;
  need (n =? blen quote - 636) "TDX signature length mismatch";;
  sig ← index_from quote 636;
  ct ← is_range sig 128 130 (N_to_le 2 6);
  need ct "TDX requires QE report certification data type 6";;
  n ← u32_le sig 130 134;
  need (n =? blen sig - 134) "TDX outer certification length mismatch";;
  qe ← index_from sig 134;
  need (456 <=? blen qe) "truncated TDX QE certification data";;
  auth_len ← u32_le qe 448 450;
  inner ← orelse (get_from qe (450 + auth_len)) "truncated TDX QE auth data";
  ok ← (if 6 <=? blen inner then is_range inner 0 2 (N_to_le 2 5) else Ok false);
  need ok "TDX requires PCK certificate-chain type 5";;
  n ← u32_le inner 2 6;
  need (n =? blen inner - 6) "TDX inner certification length mismatch";;
  body ← index_range quote 48 632;
  report ← index_range qe 0 384;
  chain ← index_from inner 6;
  Ok {| qp_body := body; qp_qe_report := report; qp_pck_chain := chain |}.

(** ** Certificates and documents *)
Definition require_cn (c : Certificate) (names : list string) : res PkiError unit :=
  match filter (fun a => attr_oid a = lit "2.5.4.3") (mjoin (subject c)) with
  | [] => Err (PkiMsg "Intel certificate lacks commonName")
  | [cn] =>
    need ((attr_tag cn =? 12) || (attr_tag cn =? 19)) "unsupported Intel commonName encoding";;
    need (existsb (fun n => bytes_eqb (attr_value cn) (lit n)) names)
      "Intel certificate has unexpected signing role"
  | _ => Err (PkiMsg "duplicate Intel certificate commonName")
  end.

Definition hex_array (n : N) (s : bytes) : res PkiError bytes :=
  need ((blen s =? n * 2) && forallb is_ascii_hexdigit s) "expected hex field";;
  orelse (hex_decode s) "invalid hex".

Section Intel.
Context `{X : X509} `{K : CpuCrypto} `{H : Sha2} `{J : IntelDocs}.

Definition verify_signed_json (raw signature : bytes) (chain : list bytes) (root_crl : bytes) (now : N) :
    res PkiError unit :=
  need (blen chain =? 2) "unsupported Intel collateral signing hierarchy";;
  need (negb (blen root_crl =? 0) && (blen root_crl <=? MAX_CRL))
    "Intel signing certificate root CRL missing/oversized";;
  certs ← validate_chain chain INTEL_SGX_ROOT_SHA256 now P256;
  c0 ← index certs 0;
  require_cn c0 ["Intel SGX TCB Signing"];;
  c1 ← index certs 1;
  check_crl root_crl c0 c1 now;;
  pk ← orelse (as_bytes (subject_public_key c0)) "Intel collateral signer key has unused bits";
  vk ← orelse (from_sec1 p256 pk) "invalid key";
  b ← hex_array 64 signature;
  sig ← orelse (sig_from_slice p256 b) "invalid signature";
  need (verify_prehash p256 vk (sha256 raw) sig) "Intel collateral JSON signature mismatch".

Definition authenticate_documents (c : TdxCollateral) (now : N) : res PkiError (TcbInfo * QeIdentity) :=
  need (negb (blen (tcb_info_json c) =? 0) && (blen (tcb_info_json c) <=? MAX_JSON))
    "Intel TCB Info JSON is missing or oversized";;
  need (negb (blen (qe_identity_json c) =? 0) && (blen (qe_identity_json c) <=? MAX_JSON))
    "Intel QE Identity JSON is missing or oversized";;
  tcb_env ← orelse (signed_tcb (tcb_info_json c)) "invalid JSON";
  qe_env ← orelse (signed_qe (qe_identity_json c)) "invalid JSON";
  verify_signed_json tcb_env.1 tcb_env.2 (tcb_info_signing_chain c) (root_ca_crl c) now;;
  verify_signed_json qe_env.1 qe_env.2 (qe_identity_signing_chain c) (root_ca_crl c) now;;
  tcb ← orelse (tcb_info tcb_env.1) "invalid TCB Info";
  qe ← orelse (qe_identity qe_env.1) "invalid QE Identity";
  need (bytes_eqb (ti_id tcb) (lit "TDX") && (ti_version tcb =? 3) && (tcb_type tcb =? 0))
    "requires Intel TDX TCB Info v3 with TCB type 0";;
  need (bytes_eqb (qi_id qe) (lit "TD_QE") && (qi_version qe =? 2)) "requires Intel TD_QE Identity v2";;
  Ok (tcb, qe).

(** ** Dates *)
Definition digits_at (max : N) (b : bytes) (i j : N) : res PkiError N :=
  s ← index_range b i j; orelse (parse_unsigned max s) "invalid number".
Definition separator (i : nat) : option byte :=
  match i with
  | 4%nat | 7%nat => Some x2d | 10%nat => Some x54 | 13%nat | 16%nat => Some x3a | 19%nat => Some x5a
  | _ => None
  end.
Definition parse_time (b : bytes) : res PkiError N :=
  need ((blen b =? 20) && forallb (fun i => bool_decide (b !! i = separator i)) [4; 7; 10; 13; 16; 19]%nat)
    "Intel date must be YYYY-MM-DDTHH:MM:SSZ";;
  need (forallb (fun p => bool_decide (is_Some (separator p.1)) || is_digit p.2) (zip (seq 0 (length b)) b))
    "invalid Intel date digits";;
  year ← digits_at u16_max b 0 4; month ← digits_at u8_max b 5 7; day ← digits_at u8_max b 8 10;
  hour ← digits_at u8_max b 11 13; minute ← digits_at u8_max b 14 16; second ← digits_at u8_max b 17 19;
  orelse (datetime year month day hour minute second) "invalid date".
Definition check_document_window (issued next : bytes) (now : N) : res PkiError unit :=
  issued ← parse_time issued;
  next ← parse_time next;
  need ((issued <? next) && (issued <=? now) && (now <? next)) "Intel collateral is not yet valid or has expired".

(** ** Levels *)
Definition STATUSES : list bytes := lit <$>
  ["UpToDate"; "OutOfDate"; "Revoked"; "ConfigurationNeeded"; "OutOfDateConfigurationNeeded";
   "SWHardeningNeeded"; "ConfigurationAndSWHardeningNeeded"].
Definition check_level_metadata (date status : bytes) (advisories : list bytes) (now : N) : res PkiError unit :=
  t ← parse_time date;
  need (t <=? now) "TCB level date is in the future";;
  need (existsb (bytes_eqb status) STATUSES) "unsupported Intel TCB status";;
  need ((blen advisories <=? 256) && forallb (fun s => negb (blen s =? 0) && (blen s <=? 128)) advisories)
    "advisory list exceeds bounds".
Definition require_current (status : bytes) : res PkiError unit :=
  need (bytes_eqb status (lit "UpToDate")) "Intel TCB status; strict policy requires UpToDate".

Definition check_isv_level (now : N) (previous : option N) (l : IsvLevel) : res PkiError (option N) :=
  need (match previous with Some prior => isvsvn l <? prior | None => true end)
    "identity TCB levels must descend strictly";;
  check_level_metadata (il_tcb_date l) (il_tcb_status l) (il_advisory_ids l) now;;
  Ok (Some (isvsvn l)).
Definition select_isv_level (levels : list IsvLevel) (svn now : N) : res PkiError IsvLevel :=
  need (negb (blen levels =? 0) && (blen levels <=? MAX_LEVELS)) "identity TCB level count outside bounds";;
  for_each (check_isv_level now) None levels;;
  orelse (List.find (fun l => isvsvn l <=? svn) levels) "no matching identity SVN level".

Definition masked_equal (actual expected mask : bytes) : res PkiError unit :=
  need ((blen actual =? blen expected) && (blen actual =? blen mask)) "size mismatch";;
  need (forallb (fun p => N.land (byte_N p.1.1) (byte_N p.1.2) =? byte_N p.2) (zip (zip actual mask) expected))
    "mask/value mismatch".

Definition appraise_qe (q : QeIdentity) (report : bytes) (now : N) : res PkiError unit :=
  need (blen report =? 384) "QE report body length mismatch";;
  em ← hex_array 4 (miscselect q);
  mm ← hex_array 4 (miscselect_mask q);
  ms ← u32_le report 16 20;
  need (N.land ms (be_to_N mm) =? be_to_N em) "QE MISCSELECT differs from Intel identity";;
  attr ← index_range report 48 64;
  ea ← hex_array 16 (qi_attributes q);
  ma ← hex_array 16 (qi_attributes_mask q);
  masked_equal attr ea ma;;
  flags ← u32_le report 48 56;
  need (N.land flags 2 =? 0) "debug QE forbidden";;
  signer ← hex_array 32 (qi_mrsigner q);
  s ← is_range report 128 160 signer;
  need s "QE MRSIGNER mismatch";;
  prod ← u32_le report 256 258;
  need (prod =? isvprodid q) "QE ISVPRODID mismatch";;
  svn ← u32_le report 258 260;
  selected ← select_isv_level (qi_tcb_levels q) svn now;
  require_current (il_tcb_status selected).

(** ** The platform *)
Record PckTcb : Type := { pk_fmspc : bytes; pk_pce_id : bytes; components : list N; pce_svn : N }.

Definition short (o : option bytes) : bool := match o with Some s => blen s <=? 128 | None => true end.
Definition check_platform_level (now : N) (seen : gset (list N * list N * N)) (l : PlatformLevel) :
    res PkiError (gset (list N * list N * N)) :=
  check_level_metadata (pl_tcb_date l) (pl_tcb_status l) (pl_advisory_ids l) now;;
  need (forallb (fun c => short (category c) && short (component_type c))
          (sgxtcbcomponents (pl_tcb l) ++ tdxtcbcomponents (pl_tcb l))) "TCB component metadata too long";;
  let key := (svn <$> sgxtcbcomponents (pl_tcb l), svn <$> tdxtcbcomponents (pl_tcb l), pcesvn (pl_tcb l)) in
  need (bool_decide (key ∉ seen)) "duplicate platform TCB level";;
  Ok ({[key]} ∪ seen).

Definition covers (actual : list N) (expected : list Component) : bool :=
  forallb (fun p => svn p.2 <=? p.1) (zip actual expected).
Definition level_matches (pck : PckTcb) (tee_svn : bytes) (start : nat) (l : PlatformLevel) : bool :=
  covers (components pck) (sgxtcbcomponents (pl_tcb l)) && (pcesvn (pl_tcb l) <=? pce_svn pck)
  && covers (byte_N <$> drop start tee_svn) (drop start (tdxtcbcomponents (pl_tcb l))).

Definition check_module_id (ids : gset bytes) (m : TdxModuleIdentity) : res PkiError (gset bytes) :=
  need (ascii (mi_id m) && (blen (mi_id m) =? 6)
        && bytes_eqb (to_ascii_lowercase (take 4 (mi_id m))) (to_ascii_lowercase (lit "TDX_"))
        && forallb is_ascii_hexdigit (drop 4 (mi_id m))) "invalid TDX module identity ID";;
  need (bool_decide (to_ascii_uppercase (mi_id m) ∉ ids)) "duplicate TDX module identity";;
  Ok ({[to_ascii_uppercase (mi_id m)]} ∪ ids).
(** [format!("TDX_{:02X}", v)] *)
Definition module_id (v : byte) : bytes := lit "TDX_" ++ to_ascii_uppercase (hex_encode [v]).

Definition select_module (info : TcbInfo) (tee_svn : bytes) (now : N) : res PkiError TdxModule :=
  v ← index tee_svn 1;
  if byte_N v =? 0 then Ok (tdx_module info)
  else
    identity ← orelse (List.find (fun m => bytes_eqb (to_ascii_lowercase (mi_id m)) (to_ascii_lowercase (module_id v)))
                         (tdx_module_identities info)) "TDX module version has no signed identity";
    minor ← index tee_svn 0;
    level ← select_isv_level (mi_tcb_levels identity) (byte_N minor) now;
    require_current (il_tcb_status level);;
    Ok (mi_module identity).

Definition appraise_module (info : TcbInfo) (body : bytes) (now : N) : res PkiError unit :=
  need (blen body =? 584) "TD report body length mismatch";;
  tee_svn ← index_range body 0 16;
  need (blen (tdx_module_identities info) <=? 256) "too many TDX module identities";;
  for_each check_module_id ∅ (tdx_module_identities info);;
  m ← select_module info tee_svn now;
  signer ← hex_array 48 (tm_mrsigner m);
  s ← is_range body 64 112 signer;
  need s "TDX MRSIGNERSEAM mismatch";;
  attr ← index_range body 112 120;
  ea ← hex_array 8 (tm_attributes m);
  ma ← hex_array 8 (tm_attributes_mask m);
  masked_equal attr ea ma;;
  need (all_zero attr) "nonzero TDX SEAMATTRIBUTES are unsupported".

Definition appraise_platform (info : TcbInfo) (pck : PckTcb) (body : bytes) (now : N) : res PkiError unit :=
  need (blen body =? 584) "TD report body length mismatch";;
  f ← hex_array 6 (fmspc info);
  same ← (if bytes_eqb f (pk_fmspc pck) then p ← hex_array 2 (pce_id info); Ok (bytes_eqb p (pk_pce_id pck))
          else Ok false);
  need same "PCK certificate FMSPC/PCEID does not match signed TCB Info";;
  tee_svn ← index_range body 0 16;
  need (negb (blen (ti_tcb_levels info) =? 0) && (blen (ti_tcb_levels info) <=? MAX_LEVELS))
    "TCB level count outside bounds";;
  for_each (check_platform_level now) ∅ (ti_tcb_levels info);;
  v ← index tee_svn 1;
  let start := if byte_N v =? 0 then 0%nat else 2%nat in
  selected ← orelse (List.find (level_matches pck tee_svn start) (ti_tcb_levels info))
               "no matching Intel platform TCB level";
  require_current (pl_tcb_status selected);;
  appraise_module info body now.

(** ** The PCK certificate's SGX extension *)
Definition oid_entry (base : bytes) (maximum : N) (m : gmap N Any) (e : OidValue) : res PkiError (gmap N Any) :=
  suffix ← orelse (strip_prefix (base ++ lit ".") e.1) "foreign OID in Intel extension";
  i ← orelse (parse_unsigned u8_max suffix) "unsupported nested Intel extension OID";
  need ((0 <? i) && (i <=? maximum) && bytes_eqb suffix (to_decimal i)) "unsupported Intel extension index";;
  need (bool_decide (m !! i = None)) "duplicate Intel extension OID";;
  Ok (<[i := e.2]> m).
Definition oid_sequence (entries : list OidValue) (base : bytes) (maximum : N) : res PkiError (gmap N Any) :=
  need (negb (blen entries =? 0) && (blen entries <=? maximum)) "Intel extension entry count outside bounds";;
  for_each (oid_entry base maximum) ∅ entries.
(** [take(&mut fields, index)]: the value, and the fields without it *)
Definition take_field (fields : gmap N Any) (i : N) : res PkiError (Any * gmap N Any) :=
  v ← orelse (fields !! i) "missing required Intel extension field";
  Ok (v, delete i fields).
Definition octets_n (n : N) (v : Any) : res PkiError bytes :=
  b ← orelse (any_octets v) "invalid octet string";
  need (blen b =? n) "Intel extension OCTET STRING size mismatch";;
  Ok b.
Definition is_empty_map (m : gmap N Any) : bool := bool_decide (m = ∅).

Definition take_bool (fields : gmap N Any) (i : N) : res PkiError (gmap N Any) :=
  '(v, fields) ← take_field fields i;
  orelse (any_bool v) "invalid boolean";;
  Ok fields.
Definition take_component (st : list N * gmap N Any) (i : N) : res PkiError (list N * gmap N Any) :=
  '(v, fields) ← take_field st.2 i;
  n ← orelse (any_u8 v) "invalid integer";
  Ok (st.1 ++ [n], fields).

(** The fields of a multi-package platform. *)
Definition parse_configuration (fields : gmap N Any) : res PkiError (gmap N Any) :=
  '(platform_id, fields) ← take_field fields 6;
  octets_n 16 platform_id;;
  '(config, fields) ← take_field fields 7;
  entries ← orelse (any_sequence config) "invalid sequence";
  cf ← oid_sequence entries (SGX_EXTENSION ++ lit ".7") 3;
  cf ← for_each take_bool cf [1; 2; 3];
  need (is_empty_map cf) "unknown PCK configuration field";;
  Ok fields.

Definition parse_tcb_components (tcb : Any) : res PkiError (list N * N) :=
  entries ← orelse (any_sequence tcb) "invalid sequence";
  tcbs ← oid_sequence entries (SGX_EXTENSION ++ lit ".2") 18;
  '(comps, tcbs) ← for_each take_component ([], tcbs) [1; 2; 3; 4; 5; 6; 7; 8; 9; 10; 11; 12; 13; 14; 15; 16];
  '(pv, tcbs) ← take_field tcbs 17;
  pce_svn ← orelse (any_u16 pv) "invalid integer";
  '(cv, tcbs) ← take_field tcbs 18;
  octets_n 16 cv;;
  need (is_empty_map tcbs) "unknown PCK TCB field";;
  Ok (comps, pce_svn).

Definition PckTcb_parse (c : Certificate) : res PkiError PckTcb :=
  match filter (fun e => extn_id e = SGX_EXTENSION) (extensions c) with
  | [] => Err (PkiMsg "PCK lacks SGX extension")
  | [extension] =>
    let b := extn_value extension in
    need (negb (blen b =? 0) && (blen b <=? 8192)) "PCK SGX extension outside size bounds";;
    entries ← orelse (oid_values b) "invalid sequence";
    fields ← oid_sequence entries SGX_EXTENSION 7;
    '(ppid, fields) ← take_field fields 1;
    octets_n 16 ppid;;
    '(tcb, fields) ← take_field fields 2;
    '(pv, fields) ← take_field fields 3;
    pce_id ← octets_n 2 pv;
    '(fv, fields) ← take_field fields 4;
    fmspc ← octets_n 6 fv;
    '(sgx_type, fields) ← take_field fields 5;
    need ((any_tag sgx_type =? 10) && (bytes_eqb (any_value sgx_type) [x00] || bytes_eqb (any_value sgx_type) [x01]))
      "unsupported PCK SGX type";;
    fields ← (if bytes_eqb (any_value sgx_type) [x01] then parse_configuration fields else Ok fields);
    need (is_empty_map fields) "unknown or inappropriate PCK SGX field";;
    '(comps, pce_svn) ← parse_tcb_components tcb;
    Ok {| pk_fmspc := fmspc; pk_pce_id := pce_id; components := comps; pce_svn := pce_svn |}
  | _ => Err (PkiMsg "duplicate PCK SGX extension")
  end.

Definition appraise_tdx (quote : bytes) (c : TdxCollateral) (now floor : N) : res PkiError unit :=
  need (0 <? floor) "TDX policy requires a nonzero independently enrolled TCB evaluation-data floor";;
  parsed ← QuoteParts_parse quote;
  need (negb (blen (root_ca_crl c) =? 0) && (blen (root_ca_crl c) <=? MAX_CRL))
    "Intel root CRL is missing or oversized";;
  need (negb (blen (pck_crl c) =? 0) && (blen (pck_crl c) <=? MAX_CRL)) "Intel PCK CRL is missing or oversized";;
  pck_chain ← parse_pem_chain (qp_pck_chain parsed);
  need (blen pck_chain =? 3) "unsupported Intel PCK certificate hierarchy";;
  pck ← validate_chain pck_chain INTEL_SGX_ROOT_SHA256 now P256;
  c0 ← index pck 0; c1 ← index pck 1; c2 ← index pck 2;
  require_cn c0 ["Intel SGX PCK Certificate"];;
  require_cn c1 ["Intel SGX PCK Platform CA"; "Intel SGX PCK Processor CA"];;
  check_crl (root_ca_crl c) c1 c2 now;;
  check_crl (pck_crl c) c0 c1 now;;
  pck_tcb ← PckTcb_parse c0;
  '(tcb, qe) ← authenticate_documents c now;
  check_document_window (ti_issue_date tcb) (ti_next_update tcb) now;;
  check_document_window (qi_issue_date qe) (qi_next_update qe) now;;
  need ((floor <=? ti_evaluation tcb) && (floor <=? qi_evaluation qe))
    "Intel collateral evaluation-data number is below trusted policy floor";;
  appraise_qe qe (qp_qe_report parsed) now;;
  appraise_platform tcb pck_tcb (qp_body parsed) now.
End Intel.

(** ** One layout, two readers *)
Lemma slice_eq_le b i j w n : i <= j -> j <= blen b -> j - i = N.of_nat w -> le_to_N (slice b i j) = n ->
  slice b i j = N_to_le w n.
Proof. intros. apply le_to_N_eq; [rewrite blen_slice by done; lia|done]. Qed.

Lemma bytes_eqb_refl b : bytes_eqb b b = true.
Proof. by apply bytes_eqb_eq. Qed.

(** The header fields of a supported quote. *)
Definition v4_header (hdr : bytes) : Prop :=
  slice hdr 0 2 = N_to_le 2 4 /\ slice hdr 2 4 = N_to_le 2 2 /\ slice hdr 4 8 = N_to_le 4 0x81.

Lemma quote_parts_run hdr body z sig ak ty cz rep rsig a auth b c pem :
  blen hdr = 48 -> blen body = 584 -> blen z = 4 -> blen sig = 64 -> blen ak = 64 -> blen ty = 2 -> blen cz = 4 ->
  blen rep = 384 -> blen rsig = 64 -> blen a = 2 -> blen b = 2 -> blen c = 4 ->
  le_to_N a = blen auth -> le_to_N c = blen pem -> b = N_to_le 2 5 -> ty = N_to_le 2 6 ->
  le_to_N cz = 456 + blen auth + blen pem -> le_to_N z = 590 + blen auth + blen pem ->
  1226 + blen auth + blen pem <= 128 * 1024 -> v4_header hdr ->
  QuoteParts_parse (hdr ++ body ++ z ++ sig ++ ak ++ ty ++ cz ++ rep ++ rsig ++ a ++ auth ++ b ++ c ++ pem)
  = Ok {| qp_body := body; qp_qe_report := rep; qp_pck_chain := pem |}.
Proof.
  intros Hh Hb Hz Hs Hak Hty Hcz Hr Hrs Ha Hlb Hlc Hna Hnc Hb5 Ht6 Hncz Hnz Hmax (H1 & H2 & H3).
  set (quote := hdr ++ _). unfold QuoteParts_parse, is_range, u32_le. pki.
  set (cd := rep ++ rsig ++ a ++ auth ++ b ++ c ++ pem) in quote.
  set (sd := sig ++ ak ++ ty ++ cz ++ cd) in quote. set (inner := b ++ c ++ pem) in cd.
  assert (blen inner = 6 + blen pem) as Hin by (unfold inner; rewrite !blen_app; lia).
  assert (blen cd = 456 + blen auth + blen pem) as Hcd by (unfold cd; rewrite !blen_app; lia).
  assert (blen sd = 134 + blen cd) as Hsd by (unfold sd; rewrite !blen_app; lia).
  assert (blen quote = 636 + blen sd) as Hq by (unfold quote; rewrite !blen_app; lia).
  pass ltac:(bools; split; lia).
  assert (index_range (E:=PkiError) quote 0 2 = Ok (N_to_le 2 4)) as -> by (unfold quote; rewrite index_range_left by lia; by rewrite H1).
  assert (index_range (E:=PkiError) quote 2 4 = Ok (N_to_le 2 2)) as -> by (unfold quote; rewrite index_range_left by lia; by rewrite H2).
  assert (index_range (E:=PkiError) quote 4 8 = Ok (N_to_le 4 0x81)) as -> by (unfold quote; rewrite index_range_left by lia; by rewrite H3).
  repeat ok_step. rewrite !bytes_eqb_refl. pass ltac:(done).
  assert (index_range (E:=PkiError) quote 632 636 = Ok z) as -> by (unfold quote; slices; done). do 2 ok_step.
  pass ltac:(bools; lia).
  assert (index_from (E:=PkiError) quote 636 = Ok sd) as ->.
  { unfold quote. rewrite (app_assoc body), (app_assoc hdr). apply index_from_app. rewrite !blen_app. lia. }
  ok_step. assert (index_range (E:=PkiError) sd 128 130 = Ok ty) as -> by (unfold sd; slices; done). do 2 ok_step.
  rewrite Ht6 at 1. rewrite bytes_eqb_refl. pass ltac:(done).
  assert (index_range (E:=PkiError) sd 130 134 = Ok cz) as -> by (unfold sd; slices; done). do 2 ok_step.
  pass ltac:(bools; lia).
  assert (index_from (E:=PkiError) sd 134 = Ok cd) as ->.
  { unfold sd. rewrite (app_assoc ty), (app_assoc ak), (app_assoc sig). apply index_from_app. rewrite !blen_app. lia. }
  ok_step. pass ltac:(bools; lia).
  assert (index_range (E:=PkiError) cd 448 450 = Ok a) as -> by (unfold cd; slices; done). do 2 ok_step. rewrite Hna.
  assert (get_from cd (450 + blen auth) = Some inner) as ->.
  { unfold get_from. rewrite (proj2 (N.leb_le _ (blen cd))) by lia. f_equal.
    unfold cd. rewrite (app_assoc a), (app_assoc rsig), (app_assoc rep).
    replace (N.to_nat (450 + blen auth)) with (length (rep ++ rsig ++ a ++ auth)); [by rewrite drop_app_length|].
    unfold blen in *. rewrite !length_app. lia. }
  cbn [ok_or]. ok_step. rewrite (proj2 (N.leb_le 6 (blen inner))) by lia.
  assert (index_range (E:=PkiError) inner 0 2 = Ok b) as -> by (unfold inner; slices; done). do 2 ok_step.
  rewrite Hb5 at 1. rewrite bytes_eqb_refl. pass ltac:(done).
  assert (index_range (E:=PkiError) inner 2 6 = Ok c) as -> by (unfold inner; slices; done). do 2 ok_step.
  pass ltac:(bools; lia).
  assert (index_range (E:=PkiError) quote 48 632 = Ok body) as -> by (unfold quote; slices; done). ok_step.
  assert (index_range (E:=PkiError) cd 0 384 = Ok rep) as -> by (unfold cd; slices; done). ok_step.
  assert (index_from (E:=PkiError) inner 6 = Ok pem) as ->.
  { unfold inner. rewrite (app_assoc b). apply index_from_app. rewrite !blen_app. lia. }
  done.
Qed.

Section Agree.
Context `{X : X509} `{K : CpuCrypto} `{H : Sha2}.

Lemma quote_parts_encode p binding now :
  tdx_sized p -> tdx_genuine p binding now -> blen (encode_tdx p) <= 128 * 1024 ->
  QuoteParts_parse (encode_tdx p)
  = Ok {| qp_body := t_body p; qp_qe_report := t_report p; qp_pck_chain := t_pem p |}.
Proof.
  intros Hs Hg Hmax.
  pose proof Hs as [Hh Hb Hsg Hak Hr Hrs Ha Ht]. pose proof Hg as [Hv Hk Htee _ _ _ _].
  assert (blen (encode_qe p) = 456 + blen (t_auth p) + blen (t_pem p)) as Hq.
  { unfold encode_qe, qe_bytes. rewrite !blen_app, !blen_N_to_le. lia. }
  assert (blen (encode_signature p) = 134 + blen (encode_qe p)) as Hl.
  { unfold encode_signature. rewrite !blen_app, !blen_N_to_le. lia. }
  assert (blen (encode_tdx p) = 636 + blen (encode_signature p)) as Ht'.
  { unfold encode_tdx. rewrite !blen_app, !blen_N_to_le. lia. }
  unfold u16_max, u32_max in *.
  unfold encode_tdx, encode_signature at 2, encode_qe at 2, qe_bytes.
  apply quote_parts_run; try done; try apply blen_N_to_le; try (apply le_to_N_to_le; cbn; lia); try lia.
  - rewrite le_to_N_to_le by (cbn; lia). lia.
  - rewrite le_to_N_to_le by (cbn; lia). lia.
  - split_and!; [apply slice_eq_le; [lia|lia|done|done]|by rewrite Hk|apply slice_eq_le; [lia|lia|done|done]].
Qed.

(** C28: the two readers of a TDX quote agree.  Whenever [verify_tdx_quote] reports a
    quote of at most 128 KiB as valid, [QuoteParts::parse] of the collateral code
    succeeds on the same bytes and yields exactly the TD report body, the QE report and
    the certificate chain whose signatures were verified: what is appraised is what was
    authenticated. *)
Theorem quote_parts_agree raw binding now ms :
  verify_tdx_quote raw binding now = Ok (true, ms) -> blen raw <= 128 * 1024 ->
  exists p, raw = encode_tdx p /\ tdx_sized p /\ tdx_genuine p binding now /\
    QuoteParts_parse raw = Ok {| qp_body := t_body p; qp_qe_report := t_report p; qp_pck_chain := t_pem p |}.
Proof.
  intros (p & -> & Hs & Hg & _)%verify_tdx_sound Hmax. exists p. split_and!; try done. by eapply quote_parts_encode.
Qed.
End Agree.

(** ** Panic freedom *)
Ltac pki_wp := pki; wp.
#[local] Arguments for_each : simpl never.

Lemma u32_le_safe b i j (Q : N -> Prop) : i <= j -> j <= blen b -> (forall n, Q n) -> safe (u32_le b i j) Q.
Proof. intros. unfold u32_le. rewrite index_range_slice by lia. simpl. auto. Qed.
Lemma is_range_safe b i j v (Q : bool -> Prop) :
  i <= j -> j <= blen b -> Q (bytes_eqb (slice b i j) v) -> safe (is_range b i j v) Q.
Proof. intros. unfold is_range. rewrite index_range_slice by lia. simpl. auto. Qed.
Lemma hex_array_safe n s (Q : bytes -> Prop) : (forall b, blen b = n -> Q b) -> safe (hex_array n s) Q.
Proof.
  intros HQ. unfold hex_array. pki_wp. bools. apply HQ.
  match goal with E : hex_decode s = Some ?b |- _ => apply hex_decode_Some in E as [E _] end. lia.
Qed.
Lemma require_cn_safe c names : safe (require_cn c names) (fun _ => True).
Proof. unfold require_cn. case_match; [done|]. case_match; [|done]. pki_wp. done. Qed.
Lemma masked_equal_safe a e m : safe (masked_equal a e m) (fun _ => True).
Proof. unfold masked_equal. pki_wp. done. Qed.

(** [reads] steps over guards and over reads that are in range. *)
Ltac reads := repeat first
  [ progress pki_wp
  | apply u32_le_safe; [lia|lia|intros ?]
  | apply is_range_safe; [lia|lia|]
  | apply hex_array_safe; intros ? ?
  | apply safe_index_range; [lia|lia|intros ? _ ?]
  | apply safe_index_from; [lia|]
  | apply safe_index; [lia|intros ? _]
  | exact I ].

Lemma QuoteParts_parse_safe quote : safe (QuoteParts_parse quote) (fun p =>
  blen (qp_body p) = 584 /\ blen (qp_qe_report p) = 384).
Proof.
  unfold QuoteParts_parse. pki_wp. bools.
  do 3 (apply is_range_safe; [lia|lia|]; pki_wp). apply u32_le_safe; [lia..|]. intros n. pki_wp. bools.
  apply safe_index_from; [lia|]. wp. set (sd := drop _ quote). assert (blen sd = blen quote - 636) as Hsd.
  { unfold sd, blen. rewrite length_drop. unfold blen in *. lia. }
  apply is_range_safe; [lia|lia|]. pki_wp. apply u32_le_safe; [lia..|]. intros m. pki_wp.
  apply safe_index_from; [lia|]. wp. pki_wp. generalize dependent (drop (N.to_nat 134) sd). intros qe Hqe. bools. apply u32_le_safe; [lia..|]. intros al. wp.
  pki_wp. apply (safe_mono _ (fun ok => ok = true -> 6 <= blen a)).
  { destruct (N.leb_spec 6 (blen a)); [|done]. apply is_range_safe; [lia|lia|done]. }
  intros ok _ Hok. pki_wp. specialize (Hok ltac:(done)). apply u32_le_safe; [lia..|]. intros k. pki_wp.
  apply safe_index_range; [lia..|]. intros body _ Hb. wp. apply safe_index_range; [lia..|]. intros rep _ Hr. wp.
  apply safe_index_from; [lia|]. split; cbn; lia.
Qed.

Section TdxSafety.
Context `{X : X509} `{K : CpuCrypto} `{H : Sha2} `{J : IntelDocs}.

Lemma parse_time_safe b (Q : N -> Prop) : (forall t, Q t) -> safe (parse_time b) Q.
Proof.
  intros HQ. unfold parse_time, digits_at. pki_wp. bools.
  do 6 (apply safe_index_range; [lia|lia|]; intros ? _ _; pki_wp). auto.
Qed.
Lemma check_level_metadata_safe d s a now : safe (check_level_metadata d s a now) (fun _ => True).
Proof. unfold check_level_metadata. wp. apply parse_time_safe. intros t. pki_wp. done. Qed.
Lemma check_document_window_safe i n now : safe (check_document_window i n now) (fun _ =>
  exists ti tn, parse_time i = Ok ti /\ parse_time n = Ok tn /\ ti <= now < tn).
Proof.
  unfold check_document_window. wp.
  eapply safe_mono; [by apply (parse_time_safe i (fun _ => True))|]. intros ti Hi _. wp.
  eapply safe_mono; [by apply (parse_time_safe n (fun _ => True))|]. intros tn Hn _. pki_wp. bools.
  exists ti, tn. split_and!; try done.
Qed.

(** Levels that descend strictly: the first that is not above [n] is the highest such. *)
Definition highest_below (levels : list IsvLevel) (n : N) (l : IsvLevel) : Prop :=
  l ∈ levels /\ isvsvn l <= n /\ forall l', l' ∈ levels -> isvsvn l' <= n -> isvsvn l' <= isvsvn l.

Lemma find_descending levels n l : StronglySorted (fun a b => isvsvn b < isvsvn a) levels ->
  List.find (fun l => isvsvn l <=? n) levels = Some l -> highest_below levels n l.
Proof.
  induction 1 as [|a levels Hs IH Ha]; cbn [List.find]; [done|].
  destruct (N.leb_spec (isvsvn a) n) as [Hle|Hgt].
  - intros [= <-]. split_and!; [left|done|]. rewrite Forall_forall in Ha.
    intros l' [->|Hin]%elem_of_cons _; [done|]. specialize (Ha l' Hin). cbn in Ha. lia.
  - intros Hf. destruct (IH Hf) as (Hin & Hle & Hmax). split_and!; [by right|done|].
    intros l' [->|Hin']%elem_of_cons Hl'; [lia|auto].
Qed.

Lemma check_isv_levels_safe now prev levels : safe (for_each (check_isv_level now) prev levels) (fun _ =>
  Sorted (fun a b => isvsvn b < isvsvn a) levels /\
  match prev, levels with Some q, l :: _ => isvsvn l < q | _, _ => True end).
Proof.
  revert prev; induction levels as [|l levels IH]; intros prev; [cbn; split; [constructor|by destruct prev]|].
  change (safe (check_isv_level now prev l ≫= fun acc => for_each (check_isv_level now) acc levels) (fun _ =>
    Sorted (fun a b => isvsvn b < isvsvn a) (l :: levels) /\ match prev with Some q => isvsvn l < q | None => True end)).
  apply safe_bind. unfold check_isv_level at 1. pki_wp.
  eapply safe_mono; [apply check_level_metadata_safe|]. intros _ _ _. cbn [safe].
  eapply safe_mono; [apply IH|]. intros _ _ [Hs Hp]. split; [|destruct prev; [by bools|done]].
  constructor; [done|]. destruct levels; by constructor.
Qed.

Lemma select_isv_level_safe levels n now : safe (select_isv_level levels n now) (highest_below levels n).
Proof.
  unfold select_isv_level. pki_wp. eapply safe_mono; [apply check_isv_levels_safe|]. intros _ _ [Hs _]. pki_wp.
  apply find_descending; [|done]. apply Sorted_StronglySorted; [|done]. intros ???. lia.
Qed.

Lemma take_field_safe m i : safe (take_field m i) (fun _ => True).
Proof. unfold take_field. pki_wp. done. Qed.
Lemma octets_n_safe n v : safe (octets_n n v) (fun _ => True).
Proof. unfold octets_n. pki_wp. done. Qed.
Lemma oid_sequence_safe es base mx : safe (oid_sequence es base mx) (fun _ => True).
Proof.
  unfold oid_sequence. pki_wp. apply safe_for_each; [done|]. intros m e _ _. unfold oid_entry. pki_wp. done.
Qed.
(** Step over the lookups of extension fields. *)
Ltac fields := repeat first
  [ progress pki_wp
  | eapply safe_mono; [apply take_field_safe|intros [? ?] _ _]
  | eapply safe_mono; [apply octets_n_safe|intros ? _ _]
  | eapply safe_mono; [apply oid_sequence_safe|intros ? _ _]
  | exact I ].
Lemma parse_configuration_safe m : safe (parse_configuration m) (fun _ => True).
Proof.
  unfold parse_configuration. fields. eapply (safe_mono _ (fun _ => True)); [|intros ? _ _; fields].
  apply safe_for_each; [done|]. intros f i _ _. unfold take_bool. fields.
Qed.
Lemma parse_tcb_components_safe v : safe (parse_tcb_components v) (fun _ => True).
Proof.
  unfold parse_tcb_components. fields. eapply (safe_mono _ (fun _ => True)); [|intros [? ?] _ _; fields].
  apply safe_for_each; [done|]. intros f i _ _. unfold take_component. fields.
Qed.
Lemma PckTcb_parse_safe c : safe (PckTcb_parse c) (fun _ => True).
Proof.
  unfold PckTcb_parse. case_match; [done|]. case_match; [|done]. fields.
  eapply (safe_mono _ (fun _ => True)); [case_match; [apply parse_configuration_safe|done]|].
  intros ? _ _. fields. eapply safe_mono; [apply parse_tcb_components_safe|]. intros [? ?] _ _. done.
Qed.

(** ** What acceptance means *)

(** The signed document: a current chain to the Intel root whose leaf has the signing
    role, is not revoked, and signs the exact text. *)
Definition intel_signed (raw signature : bytes) (chain : list bytes) (root_crl : bytes) (now : N) : Prop :=
  exists c0 c1 sig key, validate_chain chain INTEL_SGX_ROOT_SHA256 now P256 = Ok [c0; c1] /\
    require_cn c0 ["Intel SGX TCB Signing"] = Ok tt /\
    (exists crl, crl_from_der root_crl = Some crl /\ clears crl c0 c1 now) /\
    as_bytes (subject_public_key c0) = Some key /\ hex_decode signature = Some sig /\ p256_signed key sig raw.

Lemma chain_of_length chain pin now lc certs (n : nat) :
  validate_chain chain pin now lc = Ok certs -> blen chain = N.of_nat n -> length certs = n.
Proof.
  intros Hv Hl. pose proof (validate_chain_decides chain pin now lc) as Hd. rewrite Hv in Hd.
  destruct Hd as [_ [_ _ Hdec _ _ _]]. apply Forall2_length in Hdec. unfold blen in Hl. lia.
Qed.

Lemma validate_chain_safe chain pin now lc : safe (validate_chain chain pin now lc) (fun _ => True).
Proof. by eapply safe_mono; [eapply decides_safe, validate_chain_decides|]. Qed.
Lemma check_crl_safe der s i now : safe (check_crl der s i now) (fun _ =>
  exists crl, crl_from_der der = Some crl /\ clears crl s i now).
Proof. eapply safe_mono; [eapply decides_safe, check_crl_decides|]. intros _ _ [[_ ?] _]. done. Qed.

Lemma verify_signed_json_safe raw signature chain crl now :
  safe (verify_signed_json raw signature chain crl now) (fun _ => intel_signed raw signature chain crl now).
Proof.
  unfold verify_signed_json. pki. apply safe_bind, safe_ensure. intros Hn. apply safe_bind, safe_ensure. intros _. bools.
  eapply safe_seq; [apply validate_chain_safe|]. intros certs Hc _.
  pose proof (chain_of_length _ _ _ _ _ 2 Hc Hn) as Hl.
  destruct certs as [|c0 [|c1 [|? ?]]]; cbn [length] in Hl; try lia.
  rewrite (index_Some [c0; c1] 0 c0 eq_refl), (index_Some [c0; c1] 1 c1 eq_refl). ok_step.
  eapply safe_seq; [apply require_cn_safe|]. intros [] Hcn _. ok_step.
  eapply safe_seq; [apply check_crl_safe|]. intros [] _ Hcrl. cbv beta in Hcrl. pki_wp.
  unfold hex_array. pki_wp.
  exists c0, c1. do 2 eexists. split_and!; try done. unfold p256_signed. eauto.
Qed.

Lemma find_first {A} (f : A -> bool) l x : List.find f l = Some x ->
  exists pre post, l = pre ++ x :: post /\ f x = true /\ Forall (fun y => f y = false) pre.
Proof.
  induction l as [|y l IH]; cbn; [done|]. destruct (f y) eqn:Ef.
  - intros [= ->]. by exists [], l.
  - intros (pre & post & -> & ? & ?)%IH. exists (y :: pre), post. by repeat constructor.
Qed.

(** The quoting enclave is Intel's, not a debug one, and its level is current. *)
Record qe_current (q : QeIdentity) (report : bytes) : Prop := {
  qc_debug : N.land (le_to_N (slice report 48 56)) 2 = 0;
  qc_signer : hex_decode (qi_mrsigner q) = Some (slice report 128 160);
  qc_product : le_to_N (slice report 256 258) = isvprodid q;
  qc_level : exists l, highest_below (qi_tcb_levels q) (le_to_N (slice report 258 260)) l /\
               il_tcb_status l = lit "UpToDate";
}.
Lemma appraise_qe_safe q report now : safe (appraise_qe q report now) (fun _ => qe_current q report).
Proof.
  unfold appraise_qe, u32_le, is_range. pki. apply safe_bind, safe_ensure. intros Hl. bools.
  apply safe_bind, hex_array_safe. intros em _. apply safe_bind, hex_array_safe. intros mm _.
  rewrite !index_range_slice by lia. repeat ok_step. apply safe_bind, safe_ensure. intros _. repeat ok_step.
  apply safe_bind, hex_array_safe. intros ea _. apply safe_bind, hex_array_safe. intros ma _.
  eapply safe_seq; [apply masked_equal_safe|]. intros _ _ _. repeat ok_step. apply safe_bind, safe_ensure. intros Hd. 
  eapply safe_seq; [by apply (hex_array_safe _ _ (fun _ => True))|]. intros signer Hs _. repeat ok_step.
  apply safe_bind, safe_ensure. intros Hsig. repeat ok_step. apply safe_bind, safe_ensure. intros Hp. repeat ok_step.
  eapply safe_seq; [apply select_isv_level_safe|]. intros l _ Hsel. cbv beta in Hsel.
  unfold require_current. pki. apply safe_ensure. intros Hst. bools.
  unfold hex_array in Hs. pki. inv_res. split; [done|congruence|done|eauto].
Qed.

(** The module: the signer and zero attributes, and a current level of its identity. *)
Definition module_current (info : TcbInfo) (body : bytes) : Prop :=
  exists m, hex_decode (tm_mrsigner m) = Some (slice body 64 112) /\ all_zero (slice body 112 120) = true /\
    (le_to_N (slice body 1 2) = 0 /\ m = tdx_module info \/
     exists i l, i ∈ tdx_module_identities info /\ m = mi_module i /\
       highest_below (mi_tcb_levels i) (le_to_N (slice body 0 1)) l /\ il_tcb_status l = lit "UpToDate").

Lemma byte_of_slice (b : bytes) i c n : n <= blen b -> get (slice b 0 n) i = Some c ->
  forall j, j = i + 1 -> byte_N c = le_to_N (slice b i j).
Proof.
  intros Hn [Hi Hc]%get_Some j ->. rewrite blen_slice in Hi by lia.
  unfold slice in *. rewrite drop_0 in Hc. replace (i + 1 - i) with 1 by lia.
  rewrite lookup_take_Some in Hc. destruct Hc as [Hc _]. rewrite (drop_S _ _ _ Hc).
  change (N.to_nat 1) with 1%nat. cbn [take le_to_N]. rewrite take_0. cbn [le_to_N]. lia.
Qed.

Lemma select_module_safe info body now : 16 <= blen body ->
  safe (select_module info (slice body 0 16) now) (fun m =>
    le_to_N (slice body 1 2) = 0 /\ m = tdx_module info \/
    exists i l, i ∈ tdx_module_identities info /\ m = mi_module i /\
      highest_below (mi_tcb_levels i) (le_to_N (slice body 0 1)) l /\ il_tcb_status l = lit "UpToDate").
Proof.
  intros Hl. unfold select_module. wp. apply safe_index; [rewrite blen_slice; lia|]. intros v Hv.
  apply (byte_of_slice body 1 v 16 ltac:(lia)) with (j := 2) in Hv; [|done]. destruct (N.eqb_spec (byte_N v) 0) as [Hz|Hz].
  { left. split; [|done]. by rewrite <- Hz, Hv. }
  pki_wp. apply safe_index; [rewrite blen_slice; lia|]. intros c Hc. apply (byte_of_slice body 0 c 16 ltac:(lia)) with (j := 1) in Hc; [|done]. wp.
  eapply safe_mono; [apply select_isv_level_safe|]. intros l _ Hsel. unfold require_current. pki_wp. bools.
  right. match goal with E : List.find _ _ = Some ?i |- _ => exists i, l; apply List.find_some in E as [E _] end.
  split_and!; [by apply list_elem_of_In|done| |done]. by rewrite <- Hc.
Qed.

Lemma appraise_module_safe info body now : safe (appraise_module info body now) (fun _ => module_current info body).
Proof.
  unfold appraise_module, is_range. pki. apply safe_bind, safe_ensure. intros Hl. bools.
  rewrite !index_range_slice by lia. repeat ok_step. apply safe_bind, safe_ensure. intros _.
  eapply (safe_seq _ _ (fun _ => True)).
  { apply safe_for_each; [done|]. intros s m _ _. unfold check_module_id. pki_wp. done. }
  intros _ _ _. eapply safe_seq; [apply select_module_safe; lia|]. intros m _ Hm. cbv beta in Hm.
  eapply safe_seq; [by apply (hex_array_safe _ _ (fun _ => True))|]. intros signer Hs _. repeat ok_step.
  apply safe_bind, safe_ensure. intros Hsig. repeat ok_step.
  apply safe_bind, hex_array_safe. intros ea _. apply safe_bind, hex_array_safe. intros ma _.
  eapply safe_seq; [apply masked_equal_safe|]. intros _ _ _. apply safe_ensure. intros Hz. bools.
  unfold hex_array in Hs. pki. inv_res. exists m. by split_and!; [congruence|..].
Qed.

(** The platform: the certificate is for this document, and the first level that the
    platform reaches is current. *)
Definition platform_current (info : TcbInfo) (pck : PckTcb) (body : bytes) : Prop :=
  hex_decode (fmspc info) = Some (pk_fmspc pck) /\ hex_decode (pce_id info) = Some (pk_pce_id pck) /\
  exists (start : nat) pre l post, ti_tcb_levels info = pre ++ l :: post /\
    start = (if (le_to_N (slice body 1 2) =? 0)%N then 0 else 2)%nat /\
    level_matches pck (slice body 0 16) start l = true /\
    Forall (fun l' => level_matches pck (slice body 0 16) start l' = false) pre /\
    pl_tcb_status l = lit "UpToDate".

Lemma appraise_platform_safe info pck body now :
  safe (appraise_platform info pck body now) (fun _ => platform_current info pck body /\ module_current info body).
Proof.
  unfold appraise_platform. pki. apply safe_bind, safe_ensure. intros Hl. bools.
  eapply safe_seq; [by apply (hex_array_safe _ _ (fun _ => True))|]. intros f Hf _.
  eapply (safe_seq _ _ (fun same => same = true -> f = pk_fmspc pck /\ hex_decode (pce_id info) = Some (pk_pce_id pck))).
  { destruct (bytes_eqb f (pk_fmspc pck)) eqn:Ef; [|done]. apply safe_bind.
    eapply safe_mono; [by apply (hex_array_safe _ _ (fun _ => True))|]. intros p Hp _ Heq. bools. subst.
    unfold hex_array in Hp. pki. by inv_res. }
  intros same _ Hsame. apply safe_bind, safe_ensure. intros ->. destruct (Hsame eq_refl) as [-> Hpce].
  rewrite (index_range_slice body 0 16) by lia. repeat ok_step. apply safe_bind, safe_ensure. intros _.
  eapply (safe_seq _ _ (fun _ => True)).
  { apply safe_for_each; [done|]. intros s m _ _. unfold check_platform_level. wp.
    eapply safe_mono; [apply check_level_metadata_safe|]. intros _ _ _. pki_wp. done. }
  intros _ _ _. apply safe_bind, safe_index; [rewrite blen_slice; lia|]. intros v Hv.
  apply (byte_of_slice body 1 v 16 ltac:(lia)) with (j := 2) in Hv; [|done]. apply safe_bind, safe_ok_or. intros l Hfind.
  unfold require_current. pki. apply safe_bind, safe_ensure. intros Hst. bools.
  eapply safe_mono; [apply appraise_module_safe|]. intros ? _ Hm. cbv beta in Hm. split; [|done].
  apply find_first in Hfind as (pre & post & Hlev & Hmat & Hpre). unfold hex_array in Hf. pki. inv_res.
  split_and!; try done. rewrite <- Hv. eauto 10.
Qed.

(** Both documents are signed by Intel and are the expected kind and version. *)
Definition documents_signed (c : TdxCollateral) (now : N) (tcb : TcbInfo) (qe : QeIdentity) : Prop :=
  exists te qenv, signed_tcb (tcb_info_json c) = Some te /\ signed_qe (qe_identity_json c) = Some qenv /\
    intel_signed te.1 te.2 (tcb_info_signing_chain c) (root_ca_crl c) now /\
    intel_signed qenv.1 qenv.2 (qe_identity_signing_chain c) (root_ca_crl c) now /\
    tcb_info te.1 = Some tcb /\ qe_identity qenv.1 = Some qe /\
    ti_id tcb = lit "TDX" /\ ti_version tcb = 3 /\ tcb_type tcb = 0 /\ qi_id qe = lit "TD_QE" /\ qi_version qe = 2.

Lemma authenticate_documents_safe c now :
  safe (authenticate_documents c now) (fun d => documents_signed c now d.1 d.2).
Proof.
  unfold authenticate_documents. pki.
  apply safe_bind, safe_ensure. intros _. apply safe_bind, safe_ensure. intros _.
  apply safe_bind, safe_ok_or. intros te Hte. apply safe_bind, safe_ok_or. intros qenv Hqe.
  eapply safe_seq; [apply verify_signed_json_safe|]. intros [] _ Hs1. cbv beta in Hs1.
  eapply safe_seq; [apply verify_signed_json_safe|]. intros [] _ Hs2. cbv beta in Hs2.
  apply safe_bind, safe_ok_or. intros tcb Ht. apply safe_bind, safe_ok_or. intros qe Hq.
  apply safe_bind, safe_ensure. intros Hid. apply safe_bind, safe_ensure. intros Hqid. bools.
  exists te, qenv. by split_and!.
Qed.

(** The window of a document. *)
Definition in_window (issued next : bytes) (now : N) : Prop :=
  exists ti tn, parse_time issued = Ok ti /\ parse_time next = Ok tn /\ ti <= now < tn.

(** A platform that appraisal accepts. *)
Record tdx_platform_ok (quote : bytes) (c : TdxCollateral) (now floor : N) (p : QuoteParts) (chain : list bytes)
    (leaf ca root : Certificate) (pck : PckTcb) (tcb : TcbInfo) (qe : QeIdentity) : Prop := {
  tp_floor : 0 < floor;
  tp_parts : QuoteParts_parse quote = Ok p;
  tp_pem : parse_pem_chain (qp_pck_chain p) = Ok chain;
  tp_chain : validate_chain chain INTEL_SGX_ROOT_SHA256 now P256 = Ok [leaf; ca; root];
  tp_leaf : require_cn leaf ["Intel SGX PCK Certificate"] = Ok tt;
  tp_ca : require_cn ca ["Intel SGX PCK Platform CA"; "Intel SGX PCK Processor CA"] = Ok tt;
  tp_root_crl : exists crl, crl_from_der (root_ca_crl c) = Some crl /\ clears crl ca root now;
  tp_pck_crl : exists crl, crl_from_der (pck_crl c) = Some crl /\ clears crl leaf ca now;
  tp_pck : PckTcb_parse leaf = Ok pck;
  tp_documents : documents_signed c now tcb qe;
  tp_tcb_window : in_window (ti_issue_date tcb) (ti_next_update tcb) now;
  tp_qe_window : in_window (qi_issue_date qe) (qi_next_update qe) now;
  tp_evaluation : floor <= ti_evaluation tcb /\ floor <= qi_evaluation qe;
  tp_qe : qe_current qe (qp_qe_report p);
  tp_platform : platform_current tcb pck (qp_body p);
  tp_module : module_current tcb (qp_body p);
}.

Lemma appraise_tdx_safe quote c now floor : safe (appraise_tdx quote c now floor) (fun _ =>
  exists p chain leaf ca root pck tcb qe, tdx_platform_ok quote c now floor p chain leaf ca root pck tcb qe).
Proof.
  unfold appraise_tdx. pki. apply safe_bind, safe_ensure. intros Hfl.
  eapply safe_seq; [apply QuoteParts_parse_safe|]. intros p Hp _.
  apply safe_bind, safe_ensure. intros _. apply safe_bind, safe_ensure. intros _.
  eapply safe_seq; [apply parse_pem_chain_safe|]. intros chain Hch _.
  apply safe_bind, safe_ensure. intros Hn. bools.
  eapply safe_seq; [apply validate_chain_safe|]. intros certs Hc _.
  pose proof (chain_of_length _ _ _ _ _ 3 Hc Hn) as Hl.
  destruct certs as [|leaf [|ca [|root [|? ?]]]]; cbn [length] in Hl; try lia.
  rewrite (index_Some [leaf; ca; root] 0 leaf eq_refl), (index_Some [leaf; ca; root] 1 ca eq_refl),
    (index_Some [leaf; ca; root] 2 root eq_refl). repeat ok_step.
  eapply safe_seq; [apply require_cn_safe|]. intros [] Hcn _.
  eapply safe_seq; [apply require_cn_safe|]. intros [] Hcn' _.
  eapply safe_seq; [apply check_crl_safe|]. intros [] _ Hrc. cbv beta in Hrc.
  eapply safe_seq; [apply check_crl_safe|]. intros [] _ Hpc. cbv beta in Hpc.
  eapply safe_seq; [apply PckTcb_parse_safe|]. intros pck Hpck _.
  eapply safe_seq; [apply authenticate_documents_safe|]. intros [tcb qe] _ Hdoc. cbn [fst snd] in Hdoc.
  eapply safe_seq; [apply check_document_window_safe|]. intros [] _ Hw. cbv beta in Hw.
  eapply safe_seq; [apply check_document_window_safe|]. intros [] _ Hw'. cbv beta in Hw'.
  apply safe_bind, safe_ensure. intros Hev. bools.
  eapply safe_seq; [apply appraise_qe_safe|]. intros [] _ Hq. cbv beta in Hq.
  eapply safe_mono; [apply appraise_platform_safe|]. intros ? _ [Hpl Hm].
  exists p, chain, leaf, ca, root, pck, tcb, qe. by split.
Qed.

(** C26: [appraise_tdx] never panics, and a platform that it accepts is one that Intel
    currently vouches for: the quote's certificate chain leads to the pinned root with
    the PCK roles and neither list revokes it, TCB Info and QE Identity carry Intel's
    signature over their exact text and are inside their validity windows with an
    evaluation number at or above the enrolled floor, the quoting enclave is Intel's and
    not a debug one, and the enclave, the platform and the TDX module are each at a level
    whose status is UpToDate: the highest level at or below the reported version for the
    enclave and module, and for the platform the first that its certificate and TEE
    versions reach. *)
Theorem tdx_appraisal_sound quote c now floor : safe (appraise_tdx quote c now floor) (fun _ =>
  exists p chain leaf ca root pck tcb qe, tdx_platform_ok quote c now floor p chain leaf ca root pck tcb qe).
Proof. apply appraise_tdx_safe. Qed.
End TdxSafety.

Lemma quote_parts_agree_witness :
  exists p, encode_tdx sample_tdx = encode_tdx p /\ tdx_sized p /\
    tdx_genuine (X := tdx_x509) (K := toy_cpu) (H := pinned_sha2 INTEL_SGX_ROOT_SHA256) p (replicate 32 x0c) 15 /\
    QuoteParts_parse (encode_tdx sample_tdx)
    = Ok {| qp_body := t_body p; qp_qe_report := t_report p; qp_pck_chain := t_pem p |}.
Proof.
  apply (quote_parts_agree (X := tdx_x509) (K := toy_cpu) (H := pinned_sha2 INTEL_SGX_ROOT_SHA256)
           _ _ _ (tdx_claims (t_body sample_tdx))); [exact sample_tdx_accepted|by vm_compute].
Defined.
