(* ===== verification/QuoteVerify.v ===== *)
(** * QuoteVerify: verification and admission of CPU quotes

    The entry points of [src/v2/src/quote/verify.rs]: verification of a quote of any
    platform at a given time, and admission, which adds vendor collateral and the
    verifier's own minimum security versions.  All platform features are enabled; the
    system clock is an argument ([None] when it is before the epoch).

    [admission_sound]: an admitted quote is authentic, carries the binding, is not a
    debug or zero launch, and comes from a platform that the vendor vouches for.
    [admission_requires_collateral]: missing or foreign collateral or policy is an error.
    [admission_offline]: admission never depends on AMD's key service. *)
From S2P Require Import Prelude Bytes Text Crypto Eat Pki Crl Pem TdxQuote SnpQuote NitroQuote SnpCollateral TdxCollateral.

Definition MAX_QUOTE : N := 8 * 1024 * 1024.

Inductive CpuCollateral : Type :=
| CollateralIntelTdx (c : TdxCollateral)
| CollateralAmdSnp (c : SnpCollateral).
Inductive CpuTcbPolicy : Type :=
| PolicyIntelTdx (minimum_tcb_evaluation_data_number : N)
| PolicyAmdSnp (p : SnpTcbPolicy).

(** [measurements.iter().any(|(name, value)| name == n && value.iter().any(|b| *b != 0))] *)
Definition launch_measured (n : string) (ms : Measurements) : bool :=
  existsb (fun e => bytes_eqb e.1 (lit n) && any_nonzero e.2) ms.

Section Verify.
Context `{X : X509} `{K : CpuCrypto} `{H : Sha2} `{D : Kds} `{C : CborValues} `{J : IntelDocs} `{R : DerPrims}.

Definition trusted_now (clock : option N) : res VerifyError N :=
  ok_or clock (PlatformError "invalid verifier clock").

Definition verify_platform_quote_at (platform : Platform) (raw expected_binding : bytes) (now : N) :
    res VerifyError Measurements :=
  fail_if ((blen raw =? 0) || (MAX_QUOTE <? blen raw)) "CPU quote size outside limit";;
  match platform with
  | Nitro =>
    '(valid, measurements) ← verify_nitro_quote raw expected_binding now;
    fail_if (negb valid) "Nitro: platform signature chain did not verify";;
    Ok measurements
  | SevSnp =>
    '(valid, measurements) ← verify_snp_quote raw expected_binding now None;
    fail_if (negb valid) "SNP: platform signature chain did not verify";;
    Ok measurements
  | Tdx =>
    '(valid, measurements) ← verify_tdx_quote raw expected_binding now;
    fail_if (negb valid) "TDX: platform signature chain did not verify";;
    Ok measurements
  | _ => Err (UnsupportedPlatform platform)
  end.

Definition verify_platform_quote (clock : option N) (platform : Platform) (raw expected_binding : bytes) :
    res VerifyError Measurements :=
  now ← trusted_now clock;
  verify_platform_quote_at platform raw expected_binding now.

Definition admit_nitro (raw expected_binding : bytes) (now : N)
    (collateral : option CpuCollateral) (policy : option CpuTcbPolicy) : res VerifyError Measurements :=
  match collateral, policy with
  | None, None =>
    measurements ← verify_platform_quote_at Nitro raw expected_binding now;
    fail_if (negb (launch_measured "PCR0" measurements)) "Nitro debug/zero launch measurement is forbidden";;
    Ok measurements
  | _, _ => Err (PlatformError "CPU collateral/policy platform mismatch for Nitro")
  end.

Definition admit_tdx (raw expected_binding : bytes) (now : N)
    (collateral : option CpuCollateral) (policy : option CpuTcbPolicy) : res VerifyError Measurements :=
  match collateral, policy with
  | Some (CollateralIntelTdx c), Some (PolicyIntelTdx floor) =>
    fail_if (floor =? 0) "TDX TCB evaluation floor must be nonzero";;
    measurements ← verify_platform_quote_at Tdx raw expected_binding now;
    attributes ← index raw 168;
    fail_if (negb (N.land (byte_N attributes) 1 =? 0) || negb (launch_measured "MRTD" measurements))
      "TDX debug/zero launch measurement is forbidden";;
    map_err PkixError (appraise_tdx raw c now floor);;
    Ok measurements
  | _, _ => Err (PlatformError "TDX admission requires Intel collateral and independent TCB policy")
  end.

Definition admit_snp (raw expected_binding : bytes) (now : N)
    (collateral : option CpuCollateral) (policy : option CpuTcbPolicy) : res VerifyError Measurements :=
  match collateral, policy with
  | Some (CollateralAmdSnp c), Some (PolicyAmdSnp p) =>
    map_err PkixError (validate_bounds c);;
    map_err PkixError (policy_validate p);;
    '(valid, measurements) ← verify_snp_quote raw expected_binding now
                               (Some (certificate_chain c, product_name (product p)));
    fail_if (negb valid) "SNP quote signature/chain did not verify";;
    fail_if (negb (launch_measured "MEASUREMENT" measurements)) "SNP zero launch measurement is forbidden";;
    map_err PkixError (appraise_snp raw c p now);;
    Ok measurements
  | _, _ => Err (PlatformError "SNP admission requires AMD collateral and independent TCB policy")
  end.

Definition verify_platform_quote_for_admission (clock : option N) (platform : Platform)
    (raw expected_binding : bytes) (collateral : option CpuCollateral) (policy : option CpuTcbPolicy) :
    res VerifyError Measurements :=
  fail_if ((blen raw =? 0) || (MAX_QUOTE <? blen raw)) "CPU quote size outside limit";;
  now ← trusted_now clock;
  match platform with
  | Nitro => admit_nitro raw expected_binding now collateral policy
  | Tdx => admit_tdx raw expected_binding now collateral policy
  | SevSnp => admit_snp raw expected_binding now collateral policy
  | _ => Err (UnsupportedPlatform platform)
  end.
End Verify.

(** ** Specification *)
Section AdmissionSpec.
Context `{X : X509} `{K : CpuCrypto} `{H : Sha2} `{D : Kds} `{C : CborValues} `{J : IntelDocs} `{R : DerPrims}.

(** An admitted quote, by platform. *)
Inductive admitted (raw binding : bytes) (now : N) :
    Platform -> option CpuCollateral -> option CpuTcbPolicy -> Measurements -> Prop :=
| admitted_nitro m pm ud leaf cab d :
    nitro_genuine raw binding now m pm ud leaf cab ->
    (VInteger 0, VBytes d) ∈ pm -> any_nonzero d = true ->
    admitted raw binding now Nitro None None (merge_sort pcr_le (pcr_of <$> pm) ++ [(lit "USER_DATA", ud)])
| admitted_tdx p c floor chain leaf ca root pck tcb qe :
    raw = encode_tdx p -> tdx_sized p -> tdx_genuine p binding now ->
    N.testbit (le_to_N (slice (t_body p) 120 121)) 0 = false ->
    any_nonzero (slice (t_body p) 136 184) = true ->
    tdx_platform_ok raw c now floor
      {| qp_body := t_body p; qp_qe_report := t_report p; qp_pck_chain := t_pem p |}
      chain leaf ca root pck tcb qe ->
    admitted raw binding now Tdx (Some (CollateralIntelTdx c)) (Some (PolicyIntelTdx floor)) (tdx_claims (t_body p))
| admitted_snp c policy v l a r :
    certificate_chain c = [l; a; r] -> snp_fields raw v -> slice raw 0x50 0x70 = binding ->
    endorsed raw l a r (product_name (product policy)) now ->
    any_nonzero (slice raw 0x090 0x0C0) = true ->
    snp_platform_ok raw c policy now ->
    admitted raw binding now SevSnp (Some (CollateralAmdSnp c)) (Some (PolicyAmdSnp policy)) (snp_claims raw).

Lemma verify_platform_quote_at_safe platform raw binding now :
  safe (verify_platform_quote_at platform raw binding now) (fun _ => True).
Proof.
  unfold verify_platform_quote_at. wp. destruct platform; try done; wp.
  - eapply safe_mono; [apply verify_nitro_safe|]. intros [v ms] _ _. wp. done.
  - eapply safe_mono; [apply verify_snp_safe|]. intros [v ms] _ _. wp. done.
  - eapply safe_mono; [apply verify_tdx_safe|]. intros [v ms] _ _. wp. done.
Qed.

(** Inversion of a verification that succeeded. *)
Lemma verified_at platform raw binding now ms :
  verify_platform_quote_at platform raw binding now = Ok ms ->
  match platform with
  | Nitro => verify_nitro_quote raw binding now = Ok (true, ms)
  | SevSnp => verify_snp_quote raw binding now None = Ok (true, ms)
  | Tdx => verify_tdx_quote raw binding now = Ok (true, ms)
  | _ => False
  end.
Proof.
  unfold verify_platform_quote_at. intros Hv. apply bind_Ok in Hv as (_ & _ & Hv).
  destruct platform; try done; apply bind_Ok in Hv as ([valid ms'] & Hq & Hv); inv_res; bools; by subst.
Qed.

Lemma launch_measured_in n ms : launch_measured n ms = true <->
  exists v, (lit n, v) ∈ ms /\ any_nonzero v = true.
Proof.
  unfold launch_measured. rewrite existsb_exists. split.
  - intros ([n' v] & Hin%list_elem_of_In & Hb). cbn in Hb. bools. subst. eauto.
  - intros (v & Hin%list_elem_of_In & Hv). exists (lit n, v). split; [done|]. cbn. bools. done.
Qed.

Lemma admit_nitro_safe `{!CborValueLaws C} raw binding now col pol :
  safe (admit_nitro raw binding now col pol) (admitted raw binding now Nitro col pol).
Proof.
  unfold admit_nitro. destruct col; [done|]. destruct pol; [done|].
  eapply safe_seq; [apply verify_platform_quote_at_safe|]. intros ms Hms%verified_at _. wp.
  pose proof (verify_nitro_sound raw binding now) as Hs. rewrite Hms in Hs.
  destruct Hs as (_ & m & pm & ud & leaf & cab & Hg & ->). bools.
  match goal with E : launch_measured _ _ = true |- _ => apply launch_measured_in in E as (v & Hin & Hv) end.
  apply elem_of_app in Hin as [Hin|Hin]; [|by apply list_elem_of_singleton in Hin].
  rewrite merge_sort_Permutation in Hin. apply list_elem_of_fmap in Hin as (e & He & Hin).
  pose proof (ng_pcr _ _ _ _ _ _ _ _ Hg) as Hp. rewrite Forall_forall in Hp.
  destruct (Hp e Hin) as (i & b & -> & Hi & _). cbn [pcr_of] in He. simplify_eq.
  match goal with E : lit "PCR0" = _ |- _ => symmetry in E; apply pcr_name_0 in E as ->; [|done] end.
  by econstructor.
Qed.

(** The debug bit: byte 168 of the quote is byte 120 of the body. *)
Lemma tdx_debug_byte p c : tdx_sized p -> get (encode_tdx p) 168 = Some c ->
  byte_N c = le_to_N (slice (t_body p) 120 121).
Proof.
  intros [Hh Hb _ _ _ _ _ _] Hc. unfold encode_tdx in Hc.
  assert (get (t_body p) 120 = Some c) as Hg.
  { apply get_Some in Hc as [_ Hc]. apply get_Some. split; [lia|].
    unfold blen in *. rewrite lookup_app_r in Hc by lia. rewrite lookup_app_l in Hc by lia.
    rewrite <- Hc. f_equal. lia. }
  apply (byte_of_slice (t_body p) 120 c 584); [lia| |done]. by rewrite <- Hb, slice_all.
Qed.

Lemma land_1_testbit n : (N.land n 1 =? 0) = negb (N.testbit n 0).
Proof.
  change 1 with (N.ones 1). rewrite N.land_ones, N.bit0_odd. change (2 ^ 1) with 2.
  rewrite <- N.bit0_mod, N.bit0_odd. by destruct (N.odd n).
Qed.

Lemma admit_tdx_safe raw binding now col pol :
  safe (admit_tdx raw binding now col pol) (admitted raw binding now Tdx col pol).
Proof.
  unfold admit_tdx. destruct col as [[c|c]|]; try done. destruct pol as [[floor|p]|]; try done.
  apply safe_bind, safe_reject_if. intros _.
  eapply safe_seq; [apply verify_platform_quote_at_safe|]. intros ms Hms%verified_at _.
  pose proof Hms as (p & Hraw & Hsz & Hg & ->)%verify_tdx_sound.
  pose proof Hsz as [Hh Hb _ _ _ _ _ _].
  apply safe_bind, safe_index.
  { rewrite Hraw. unfold encode_tdx. rewrite !blen_app. lia. }
  intros at_ Hat. rewrite Hraw in Hat. apply tdx_debug_byte in Hat; [|done].
  apply safe_bind, safe_reject_if. intros Hl. rewrite land_1_testbit, Hat in Hl. bools.
  eapply safe_seq; [apply safe_map_err, appraise_tdx_safe|].
  intros [] _ (q & chain & leaf & ca & root & pck & tcb & qe & Hok). cbn [safe].
  assert (q = {| qp_body := t_body p; qp_qe_report := t_report p; qp_pck_chain := t_pem p |}) as ->.
  { pose proof (tp_parts _ _ _ _ _ _ _ _ _ _ _ _ Hok) as Hq. subst raw.
    assert (blen (encode_tdx p) <= 128 * 1024) as Hmax.
    { unfold QuoteParts_parse in Hq. pki. apply bind_Ok in Hq as (_ & Hlen%ensure_Ok & _). by bools. }
    rewrite (quote_parts_encode p binding now) in Hq by done. by injection Hq. }
  eapply admitted_tdx; try done.
  match goal with E : launch_measured _ _ = true |- _ => apply launch_measured_in in E as (v & Hin & Hv) end.
  unfold tdx_claims in Hin. rewrite !elem_of_cons in Hin. destruct_or! Hin; try done; [|by apply elem_of_nil in Hin].
  by simplify_eq.
Qed.

Lemma admit_snp_safe raw binding now col pol :
  safe (admit_snp raw binding now col pol) (admitted raw binding now SevSnp col pol).
Proof.
  unfold admit_snp. destruct col as [[c|c]|]; try done. destruct pol as [[floor|p]|]; try done.
  eapply safe_seq; [apply safe_map_err, validate_bounds_safe|]. intros _ _ _.
  eapply safe_seq; [apply safe_map_err, policy_validate_safe|]. intros _ _ _.
  eapply safe_seq; [apply verify_snp_safe|]. intros [valid ms] Hv _.
  apply safe_bind, safe_reject_if. intros Hvalid. bools. subst valid.
  apply verify_snp_explicit in Hv as (v & certs & l & a & r & Hf & Hb & _ & Hc & _ & _ & _ & He & ->).
  apply safe_bind, safe_reject_if. intros Hm. bools.
  eapply safe_seq; [apply safe_map_err, appraise_snp_safe|]. intros [] _ Hok. cbn [safe].
  econstructor; try done.
  apply launch_measured_in in Hm as (m & Hin & Hm). unfold snp_claims in Hin.
  apply elem_of_app in Hin as [Hin|Hin].
  - rewrite !elem_of_cons in Hin. destruct_or! Hin; try done; [|by apply elem_of_nil in Hin]. by simplify_eq.
  - destruct (_ <? _); [by apply list_elem_of_singleton in Hin|by apply elem_of_nil in Hin].
Qed.

Lemma admission_safe `{!CborValueLaws C} clock platform raw binding col pol :
  safe (verify_platform_quote_for_admission clock platform raw binding col pol) (fun ms =>
    exists now, clock = Some now /\ 0 < blen raw <= MAX_QUOTE /\ admitted raw binding now platform col pol ms).
Proof.
  unfold verify_platform_quote_for_admission, trusted_now. wp. bools.
  assert (0 < blen raw <= MAX_QUOTE) by lia.
  destruct platform; try done; (eapply safe_mono;
    [first [apply admit_nitro_safe|apply admit_snp_safe|apply admit_tdx_safe]|]); eauto.
Qed.

(** C3: admission never panics, and an admitted quote is authentic and comes from a
    platform in good standing at the verifier's own clock.  For every platform the quote
    verifies to the pinned vendor root and carries the expected binding.  For TDX the
    debug attribute is off, MRTD is not zero, and the parts that Intel's signed
    collateral appraises are the very parts whose signatures were verified; for SNP the
    launch measurement is not zero and the collateral chain that endorses the report is
    the chain that the appraisal validates; for Nitro PCR0 is not zero.  Nothing else is
    admitted: other platforms, and collateral or policy of another vendor, never are. *)
Theorem admission_sound `{!CborValueLaws C} clock platform raw binding col pol :
  safe (verify_platform_quote_for_admission clock platform raw binding col pol) (fun ms =>
    exists now, clock = Some now /\ 0 < blen raw <= MAX_QUOTE /\ admitted raw binding now platform col pol ms).
Proof. apply admission_safe. Qed.

(** Collateral and policy of the platform's vendor. *)
Definition collateral_matches (platform : Platform) (col : option CpuCollateral) (pol : option CpuTcbPolicy) : bool :=
  match platform, col, pol with
  | Nitro, None, None => true
  | Tdx, Some (CollateralIntelTdx _), Some (PolicyIntelTdx floor) => negb (floor =? 0)
  | SevSnp, Some (CollateralAmdSnp _), Some (PolicyAmdSnp _) => true
  | _, _, _ => false
  end.

(** Admission without the vendor's collateral and the verifier's policy fails closed:
    when the collateral or the policy is missing, is of another vendor, carries a zero
    evaluation floor, or is supplied to a platform that takes none, and on every platform
    that is not one of the three, the result is an error, whatever the quote. *)
Theorem admission_requires_collateral clock platform raw binding col pol :
  collateral_matches platform col pol = false ->
  exists e, verify_platform_quote_for_admission clock platform raw binding col pol = Err e.
Proof.
  intros Hm. unfold verify_platform_quote_for_admission, trusted_now.
  destruct (_ || _); [by eexists|]. cbn [reject_if]. ok_step. destruct clock as [now|]; [|by eexists]. cbn [ok_or]. ok_step.
  destruct platform; try (by eexists).
  - unfold admit_nitro. destruct col, pol; try done; by eexists.
  - unfold admit_snp. destruct col as [[]|], pol as [[]|]; try done; by eexists.
  - unfold admit_tdx. destruct col as [[]|], pol as [[floor|]|]; try (by eexists).
    cbn in Hm. bools. subst. by eexists.
Qed.
End AdmissionSpec.

(** ** Admission works offline *)
Lemma bind_ext {E A B} (c : res E A) (f g : A -> res E B) :
  (forall a, c = Ok a -> f a = g a) -> c ≫= f = c ≫= g.
Proof. destruct c; simpl; auto. Qed.

Section Offline.
Context `{X : X509} `{K : CpuCrypto} `{H : Sha2} `{C : CborValues} `{J : IntelDocs} `{R : DerPrims}.

Lemma fetch_missing_explicit (D : Kds) raw cs v chain product cs' :
  use_explicit cs v chain = Ok cs' -> fetch_missing raw cs' v product = Ok cs'.
Proof. intros (l & a & r & _ & _ & _ & _ & ->)%use_explicit_exact. by destruct v. Qed.

Lemma verify_snp_offline (D D' : Kds) raw binding now chain product :
  verify_snp_quote (D := D) raw binding now (Some (chain, product))
  = verify_snp_quote (D := D') raw binding now (Some (chain, product)).
Proof.
  unfold verify_snp_quote. cbn [fst snd]. do 10 (apply bind_ext; intros ? _).
  apply bind_ext. intros certs _. apply bind_ext. intros certs' Hu. ok_step. ok_step.
  by rewrite !(fetch_missing_explicit _ _ _ _ _ _ _ Hu).
Qed.

(** Admission performs no network retrieval: its outcome, errors included, is the
    same whatever AMD's key service would answer, since the certificates come from the
    collateral. *)
Theorem admission_offline (D D' : Kds) clock platform raw binding col pol :
  verify_platform_quote_for_admission (D := D) clock platform raw binding col pol
  = verify_platform_quote_for_admission (D := D') clock platform raw binding col pol.
Proof.
  unfold verify_platform_quote_for_admission. apply bind_ext. intros _ _. apply bind_ext. intros now _.
  destruct platform; [reflexivity| |reflexivity..].
  unfold admit_snp. destruct col as [[]|]; [reflexivity| |reflexivity].
  destruct pol as [[]|]; [reflexivity| |reflexivity].
  by rewrite (verify_snp_offline D D').
Qed.
End Offline.

(** ** Concrete admissions *)
Definition no_docs : IntelDocs := {|
  signed_tcb := fun _ => None; signed_qe := fun _ => None; tcb_info := fun _ => None; qe_identity := fun _ => None;
  datetime := fun _ _ _ _ _ _ => None; oid_values := fun _ => None; any_sequence := fun _ => None;
  any_octets := fun _ => None; any_u8 := fun _ => None; any_u16 := fun _ => None; any_bool := fun _ => None |}.

Lemma admission_sound_witness :
  let X := nitro_x509 in let K := toy_cpu in let H := pinned_sha2 AWS_NITRO_ROOT_SHA256 in let D := no_kds in
  let C := sample_cbor in let J := no_docs in let R := toy_der in
  verify_platform_quote_for_admission (Some 15) Nitro [x01] (replicate 32 x0c) None None = Ok nitro_sample_result /\
  admitted [x01] (replicate 32 x0c) 15 Nitro None None nitro_sample_result.
Proof.
  intros X K H D C J R.
  assert (verify_platform_quote_for_admission (Some 15) Nitro [x01] (replicate 32 x0c) None None
          = Ok nitro_sample_result) as Hv by (vm_compute; reflexivity).
  split; [exact Hv|].
  pose proof (admission_sound (X := X) (K := K) (H := H) (D := D) (C := C) (J := J) (R := R)
    (CborValueLaws0 := sample_cbor_laws) (Some 15) Nitro [x01] (replicate 32 x0c) None None) as Hs.
  rewrite Hv in Hs. destruct Hs as (now & [= <-] & _ & Ha). exact Ha.
Defined.

Lemma admission_requires_collateral_witness : exists e,
  verify_platform_quote_for_admission (X := tdx_x509) (K := toy_cpu) (H := pinned_sha2 INTEL_SGX_ROOT_SHA256)
    (D := no_kds) (C := sample_cbor) (J := no_docs) (R := toy_der)
    (Some 15) Tdx (encode_tdx sample_tdx) (replicate 32 x0c) None (Some (PolicyIntelTdx 1)) = Err e.
Proof. apply admission_requires_collateral. reflexivity. Defined.
