(* ===== verification/NitroTpm.v ===== *)
(** * NitroTpm: AWS NitroTPM documents of [src/v2/src/tee/nitrotpm_verify.rs]

    A NitroTPM document is a COSE_Sign1 structure like that of a Nitro enclave, with the
    PCRs of a virtual TPM, a nonce, user data and a timestamp.  The verifier compares them
    with an independent policy.  CBOR is a crate: [Ciborium] holds its reader, which
    returns the position after the value, and its writer; a map is the list of its
    entries, in which a key may occur twice.

    [nitrotpm_sound]: what acceptance means; PCR0 and PCR1, which AWS replaces by
    constants, never become authenticated registers. *)
From S2P Require Import Prelude Bytes Text Crypto Boot EventLog Replay Eat Pki Crl Pem TdxQuote SnpQuote NitroQuote.

Definition MAX_NITROTPM_DOCUMENT_BYTES : N := 32 * 1024.

Class Ciborium := {
  cbor_read : bytes -> option (Value * N);
  cbor_write : Value -> option bytes;
}.

Record NitroTpmPolicy : Type := {
  pcr_algorithm : N; expected_pcrs : gmap N bytes; max_age_secs : N; max_future_skew_secs : N;
}.
Definition tpm_bank_size (algorithm : N) : res PkiError N :=
  match algorithm with
  | 0xb => Ok 32
  | 0xc => Ok 48
  | 0xd => Ok 64
  | _ => Err (PkiMsg "NitroTPM requires an independently selected SHA2 bank")
  end.

Definition check_expected_pcr (width : N) (_ : unit) (e : N * bytes) : res PkiError unit :=
  need ((e.1 <=? 23) && (blen e.2 =? width * 2) && forallb is_ascii_hexdigit e.2) "invalid expected NitroTPM PCR".
Definition measured_static (e : N * bytes) : bool :=
  (2 <=? e.1) && (e.1 <=? 15) && existsb (fun b => negb (Byte.eqb b x30)) e.2.
Definition NitroTpmPolicy_validate (p : NitroTpmPolicy) : res PkiError unit :=
  width ← tpm_bank_size (pcr_algorithm p);
  need (negb (size (expected_pcrs p) =? 0)%nat && (size (expected_pcrs p) <=? 24)%nat)
    "NitroTPM policy requires PCR expectations";;
  need ((1 <=? max_age_secs p) && (max_age_secs p <=? 3600) && (max_future_skew_secs p <=? 30))
    "NitroTPM freshness bounds exceed policy limits";;
  for_each (check_expected_pcr width) tt (btree_iter N.le (expected_pcrs p));;
  need (existsb measured_static (btree_iter N.le (expected_pcrs p)))
    "NitroTPM policy requires a nonzero measured static PCR2..15 expectation".

Record VerifiedNitroTpm : Type := {
  nt_module_id : bytes; nt_timestamp_millis : N; nt_pcr_algorithm : N; nt_pcrs : gmap N bytes;
}.

(** ** Decoding *)
Definition value_octets (v : Value) : res PkiError bytes :=
  match v with VBytes b => Ok b | _ => Err (PkiMsg "expected CBOR byte string") end.
Definition value_text (v : Value) : res PkiError bytes :=
  match v with VText t => Ok t | _ => Err (PkiMsg "expected CBOR text") end.
Definition value_uint (v : Value) : res PkiError N :=
  match v with
  | VInteger i => need ((0 <=? i)%Z && (Z.to_N i <=? u64_max)) "expected unsigned integer";; Ok (Z.to_N i)
  | _ => Err (PkiMsg "expected CBOR integer")
  end.

Definition unique_entry (m : gmap bytes Value) (e : Value * Value) : res PkiError (gmap bytes Value) :=
  k ← value_text e.1;
  need (bool_decide (m !! k = None)) "duplicate NitroTPM claim";;
  Ok (<[k := e.2]> m).
Definition unique_map (v : Value) : res PkiError (gmap bytes Value) :=
  match v with
  | VMap fields =>
    need (blen fields <=? 12) "too many NitroTPM claims";;
    for_each unique_entry ∅ fields
  | _ => Err (PkiMsg "expected CBOR claim map")
  end.
Definition optional_bytes (fields : gmap bytes Value) (key : string) : res PkiError (option bytes) :=
  match fields !! lit key with
  | None | Some VNull => Ok None
  | Some v =>
    b ← value_octets v;
    need (blen b <=? 1024) "NitroTPM optional field exceeds limit";;
    Ok (Some b)
  end.

Record ParsedDocument : Type := {
  d_cose : Cose; d_module_id : bytes; d_timestamp : N; d_pcrs : gmap N bytes; d_certificate : bytes;
  d_cabundle : list bytes; d_nonce : option bytes; d_user_data : option bytes;
}.

Definition CLAIM_NAMES : list bytes := lit <$>
  ["module_id"; "timestamp"; "digest"; "nitrotpm_pcrs"; "certificate"; "cabundle"; "nonce"; "user_data"; "public_key"].
Definition get_claim (fields : gmap bytes Value) (key : string) : res PkiError Value :=
  orelse (fields !! lit key) "missing NitroTPM claim".
Definition tpm_pcr_entry (pcrs : gmap N bytes) (e : Value * Value) : res PkiError (gmap N bytes) :=
  i ← value_uint e.1;
  digest ← value_octets e.2;
  need ((i <=? 31) && ((blen digest =? 32) || (blen digest =? 48) || (blen digest =? 64)))
    "invalid NitroTPM PCR index/width";;
  need (bool_decide (pcrs !! i = None)) "duplicate NitroTPM PCR index";;
  Ok (<[i := digest]> pcrs).
Definition tpm_bundle_entry (st : gset bytes * list bytes) (v : Value) : res PkiError (gset bytes * list bytes) :=
  cert ← value_octets v;
  need (negb (blen cert =? 0) && (blen cert <=? 1024) && bool_decide (cert ∉ st.1))
    "invalid/duplicate NitroTPM CA certificate";;
  Ok ({[cert]} ∪ st.1, st.2 ++ [cert]).
Definition REQUIRED_PCRS : list N := [0; 1; 2; 3; 4; 5; 6; 7; 8; 9; 10; 11; 12; 13; 14; 15; 16; 23].
Definition printable_id (b : byte) : bool := (0x21 <=? byte_N b) && (byte_N b <=? 0x7e).

Section NitroTpm.
Context `{X : X509} `{K : CpuCrypto} `{H : Sha2} `{C : Ciborium}.

Definition decode (b : bytes) : res PkiError Value :=
  '(v, pos) ← orelse (cbor_read b) "invalid CBOR";
  need (pos =? blen b) "trailing CBOR data";;
  Ok v.

Definition document_array (v : Value) : res PkiError (list Value) :=
  match v with
  | VTag 18 (VArray a) => Ok a
  | VTag 18 _ => Err (PkiMsg "COSE tag does not contain an array")
  | VArray a => Ok a
  | _ => Err (PkiMsg "NitroTPM document is not COSE_Sign1")
  end.
Definition only_es384 (headers : list (Value * Value)) : bool :=
  match headers with
  | [(VInteger k, VInteger v)] => (k =? 1)%Z && (v =? -35)%Z
  | _ => false
  end.
Definition parse_envelope (raw : bytes) : res PkiError Cose :=
  need (negb (blen raw =? 0) && (blen raw <=? MAX_NITROTPM_DOCUMENT_BYTES)) "NitroTPM document outside size limit";;
  outer ← decode raw;
  array ← document_array outer;
  need (blen array =? 4) "COSE_Sign1 must have four elements";;
  a0 ← index array 0;
  protected ← value_octets a0;
  need (blen protected <=? 64) "COSE header exceeds limit";;
  header ← decode protected;
  headers ← match header with VMap m => Ok m | _ => Err (PkiMsg "protected COSE header is not a map") end;
  need (only_es384 headers) "NitroTPM requires exactly protected ES384";;
  a1 ← index array 1;
  need (empty_map a1) "unsupported unprotected COSE header";;
  a2 ← index array 2;
  payload ← value_octets a2;
  a3 ← index array 3;
  signature ← value_octets a3;
  need (blen signature =? 96) "ES384 signature must be r||s";;
  Ok {| cose_protected := protected; cose_payload := payload; cose_sig := signature |}.

Definition parse_pcrs (fields : gmap bytes Value) : res PkiError (gmap N bytes) :=
  v ← get_claim fields "nitrotpm_pcrs";
  entries ← match v with VMap m => Ok m | _ => Err (PkiMsg "NitroTPM PCR claims must be a map") end;
  need (negb (blen entries =? 0) && (blen entries <=? 32)) "invalid NitroTPM PCR count";;
  pcrs ← for_each tpm_pcr_entry ∅ entries;
  need (forallb (fun i => bool_decide (is_Some (pcrs !! i))) REQUIRED_PCRS)
    "NitroTPM document omits required profile PCRs";;
  Ok pcrs.

Definition parse_document (raw : bytes) : res PkiError ParsedDocument :=
  cose ← parse_envelope raw;
  decoded ← decode (cose_payload cose);
  fields ← unique_map decoded;
  need (forallb (fun e => existsb (bytes_eqb e.1) CLAIM_NAMES) (map_to_list fields)) "unknown/foreign NitroTPM claim";;
  v ← get_claim fields "digest";
  digest ← value_text v;
  need (bytes_eqb digest (lit "SHA384")) "unsupported NitroTPM document digest profile";;
  v ← get_claim fields "module_id";
  module_id ← value_text v;
  need (negb (blen module_id =? 0) && (blen module_id <=? 256) && forallb printable_id module_id)
    "invalid NitroTPM module ID";;
  v ← get_claim fields "timestamp";
  timestamp ← value_uint v;
  pcrs ← parse_pcrs fields;
  v ← get_claim fields "certificate";
  certificate ← value_octets v;
  need (negb (blen certificate =? 0) && (blen certificate <=? 1024)) "invalid NitroTPM certificate size";;
  v ← get_claim fields "cabundle";
  bundle ← match v with VArray a => Ok a | _ => Err (PkiMsg "NitroTPM CA bundle is not an array") end;
  need (negb (blen bundle =? 0) && (blen bundle <=? 10)) "invalid NitroTPM CA bundle depth";;
  st ← for_each tpm_bundle_entry ({[certificate]}, []) bundle;
  nonce ← optional_bytes fields "nonce";
  user_data ← optional_bytes fields "user_data";
  optional_bytes fields "public_key";;
  Ok {| d_cose := cose; d_module_id := module_id; d_timestamp := timestamp; d_pcrs := pcrs;
        d_certificate := certificate; d_cabundle := st.2; d_nonce := nonce; d_user_data := user_data |}.

Definition opt_eqb (a b : option bytes) : bool := bool_decide (a = b).
Definition inspect_document (raw nonce : bytes) (user_data : option bytes) : res PkiError (gmap N bytes) :=
  document ← parse_document raw;
  need (opt_eqb (d_nonce document) (Some nonce)) "returned NitroTPM nonce differs from request";;
  need (opt_eqb (d_user_data document) user_data) "returned NitroTPM user_data differs from request";;
  Ok (d_pcrs document).

Definition verify_document_signature (doc : ParsedDocument) (public_key : bytes) : res PkiError unit :=
  key ← orelse (from_sec1 p384 public_key) "invalid key";
  encoded ← orelse (cbor_write (sig_structure (d_cose doc))) "encoding";
  sig ← orelse (sig_from_slice p384 (cose_sig (d_cose doc))) "invalid signature";
  need (verify_prehash p384 key (sha384 encoded) sig) "signature mismatch".

Definition check_policy_pcr (pcrs : gmap N bytes) (_ : unit) (e : N * bytes) : res PkiError unit :=
  expected ← orelse (hex_decode e.2) "invalid hex";
  need (opt_eqb (pcrs !! e.1) (Some expected)) "NitroTPM PCR differs from independent policy".

Definition verify_nitrotpm_document (raw nonce : bytes) (user_data : option bytes) (policy : NitroTpmPolicy)
    (now_secs : N) : res PkiError VerifiedNitroTpm :=
  NitroTpmPolicy_validate policy;;
  need (match user_data with Some d => blen d <=? 1024 | None => true end) "expected user_data too large";;
  doc ← parse_document raw;
  need (opt_eqb (d_nonce doc) (Some nonce)) "NitroTPM signed nonce mismatch";;
  need (opt_eqb (d_user_data doc) user_data) "NitroTPM signed user_data mismatch";;
  now ← orelse (checked_mul u64_max now_secs 1000) "verifier clock overflow";
  need ((d_timestamp doc <=? saturating_add u64_max now (max_future_skew_secs policy * 1000))
        && (now - d_timestamp doc <=? max_age_secs policy * 1000)) "NitroTPM document is stale or future-dated";;
  width ← tpm_bank_size (pcr_algorithm policy);
  need (forallb (fun e => blen e.2 =? width) (map_to_list (d_pcrs doc)))
    "NitroTPM PCR width differs from independent bank policy";;
  certs ← validate_chain (d_certificate doc :: rev (d_cabundle doc)) AWS_NITRO_ROOT_SHA256 now_secs P384;
  c0 ← index certs 0;
  pk ← public_key c0;
  verify_document_signature doc pk;;
  for_each (check_policy_pcr (d_pcrs doc)) tt (btree_iter N.le (expected_pcrs policy));;
  Ok {| nt_module_id := d_module_id doc; nt_timestamp_millis := d_timestamp doc;
        nt_pcr_algorithm := pcr_algorithm policy; nt_pcrs := d_pcrs doc |}.
End NitroTpm.

Section Registers.
Context `{H : Sha2}.
Definition static_pcrs (v : VerifiedNitroTpm) : gmap (N * N) bytes :=
  list_to_map ((fun e : N * bytes => ((nt_pcr_algorithm v, e.1), e.2)) <$>
    filter (fun e => 2 <= e.1 <= 15) (map_to_list (nt_pcrs v))).
Definition nitrotpm_registers (v : VerifiedNitroTpm) : res PkiError AuthenticatedRegisters :=
  map_err (fun _ => PkiMsg "invalid registers") (AuthenticatedRegisters_tpm (static_pcrs v)).
Definition verify_boot_log (v : VerifiedNitroTpm) (b : bytes) (limits : ParseLimits) : res PkiError VerifiedBootLog :=
  log ← map_err (fun _ => PkiMsg "invalid event log") (parse_tcg2 b limits);
  regs ← nitrotpm_registers v;
  map_err (fun _ => PkiMsg "event log mismatch") (verify log regs).
End Registers.

(** ** Specification *)
Section NitroTpmSpec.
Context `{X : X509} `{K : CpuCrypto} `{H : Sha2} `{C : Ciborium}.
#[local] Arguments for_each : simpl never.

(** The claims as lookups in the payload, in which no key occurs twice. *)
Definition find_text (fields : list (Value * Value)) (k : bytes) : option Value := find_key (is_text k) fields.

Lemma is_text_eq k v : is_text k v = true <-> v = VText k.
Proof. destruct v; cbn; try naive_solver. rewrite bytes_eqb_eq. naive_solver. Qed.

Lemma unique_entries fields m : for_each unique_entry ∅ fields = Ok m ->
  NoDup fields.*1 /\ Forall (fun e => exists t, e.1 = VText t) fields /\ forall k, m !! k = find_text fields k.
Proof.
  revert m. induction fields as [|[key v] fields IH] using rev_ind; intros m Hv.
  { injection Hv as <-. split_and!; [constructor|constructor|]. intros k. by rewrite lookup_empty. }
  rewrite for_each_snoc in Hv. apply bind_Ok in Hv as (m' & Hm' & Hv). destruct (IH _ Hm') as (Hn & Hf & Hl).
  unfold unique_entry in Hv. destruct key as [| | | | |t| | |]; try done.
  cbn [fst snd value_text] in Hv. pki. rewrite res_bind_Ok in Hv.
  apply bind_Ok in Hv as (_ & Hnone%ensure_Ok%bool_decide_eq_true & Hv). injection Hv as <-. rewrite Hl in Hnone. assert (VText t ∉ fields.*1) as Hnew.
  { intros ([k v'] & Hk & Hin)%list_elem_of_fmap. cbn in Hk. subst k. revert Hin.
    revert Hnone. unfold find_text. clear.
    induction fields as [|[k w] fields IH]; [by intros _ ?%elem_of_nil|]. cbn [find_key].
    destruct (is_text t k) eqn:E; [done|]. intros Hn [Hin|Hin]%elem_of_cons; [|by apply IH].
    simplify_eq. by rewrite (proj2 (is_text_eq t (VText t)) eq_refl) in E. }
  split_and!.
  - rewrite fmap_app. cbn. apply NoDup_app. split_and!; [done| |apply NoDup_singleton].
    intros x Hx ->%list_elem_of_singleton. done.
  - apply Forall_app. split; [done|]. repeat constructor. by exists t.
  - intros k. destruct (decide (k = t)) as [->|Hne].
    + rewrite lookup_insert_eq. unfold find_text. clear -Hnew. induction fields as [|[k w] fields IH].
      * cbn. by rewrite (proj2 (bytes_eqb_eq t t) eq_refl).
      * cbn [app find_key]. cbn in Hnew. apply not_elem_of_cons in Hnew as [Hk Hnew].
        destruct (is_text t k) eqn:E; [apply is_text_eq in E; congruence|auto].
    + rewrite lookup_insert_ne by done. rewrite Hl. unfold find_text. clear -Hne.
      induction fields as [|[k' w] fields IH]; cbn [app find_key].
      * destruct (is_text k (VText t)) eqn:E; [|done]. apply is_text_eq in E. congruence.
      * by destruct (is_text k k').
Qed.

(** The PCR map of the payload. *)
Definition tpm_pcrs_of (entries : list (Value * Value)) (pcrs : gmap N bytes) : Prop :=
  exists l : list (N * bytes), entries = (fun e => (VInteger (Z.of_N e.1), VBytes e.2)) <$> l /\
    NoDup l.*1 /\ Forall (fun e => e.1 <= 31) l /\ pcrs = list_to_map l.

Lemma pcr_entries entries pcrs : for_each tpm_pcr_entry ∅ entries = Ok pcrs -> tpm_pcrs_of entries pcrs.
Proof.
  unfold tpm_pcrs_of. revert pcrs. induction entries as [|[key v] entries IH] using rev_ind; intros pcrs Hv.
  { injection Hv as <-. exists []. split_and!; constructor. }
  rewrite for_each_snoc in Hv. apply bind_Ok in Hv as (m & Hm & Hv). destruct (IH _ Hm) as (l & -> & Hn & Hf & ->).
  unfold tpm_pcr_entry, value_uint, value_octets in Hv. cbn [fst snd] in Hv.
  destruct key as [| |i| | | | | |]; try done. pki.
  apply bind_Ok in Hv as (n & Hn' & Hv). apply bind_Ok in Hn' as (_ & Hi%ensure_Ok & [= <-]).
  destruct v as [| | | |d| | | |]; try done. rewrite res_bind_Ok in Hv.
  apply bind_Ok in Hv as (_ & Hr%ensure_Ok & Hv). apply bind_Ok in Hv as (_ & Hnone%ensure_Ok & Hv).
  injection Hv as <-. bools.
  exists (l ++ [(Z.to_N i, d)]). split_and!.
  - rewrite fmap_app. cbn. rewrite Z2N.id by lia. done.
  - rewrite fmap_app. cbn. apply NoDup_app. split_and!; [done| |apply NoDup_singleton].
    intros x Hx ->%list_elem_of_singleton. by apply not_elem_of_list_to_map in Hnone.
  - apply Forall_app. split; [done|]. by repeat constructor.
  - rewrite list_to_map_app. cbn. by rewrite insert_empty, <- insert_union_singleton_r.
Qed.

(** The signed structure. *)
Record document_shape (raw : bytes) (c : Cose) (fields : list (Value * Value)) : Prop := {
  ds_size : 0 < blen raw <= MAX_NITROTPM_DOCUMENT_BYTES;
  ds_cose : exists v, cbor_read raw = Some (v, blen raw) /\
    (v = VTag 18 (VArray [VBytes (cose_protected c); VMap []; VBytes (cose_payload c); VBytes (cose_sig c)]) \/
     v = VArray [VBytes (cose_protected c); VMap []; VBytes (cose_payload c); VBytes (cose_sig c)]);
  ds_header : cbor_read (cose_protected c) = Some (VMap [(VInteger 1, VInteger (-35))], blen (cose_protected c));
  ds_payload : cbor_read (cose_payload c) = Some (VMap fields, blen (cose_payload c));
  ds_unique : NoDup fields.*1;
}.

Lemma decode_inv b v : decode b = Ok v -> cbor_read b = Some (v, blen b).
Proof. unfold decode. pki. intros Hv. apply bind_Ok in Hv as ([w pos] & Hr & Hv). inv_res. bools. by subst. Qed.

Lemma document_array_inv v a : document_array v = Ok a -> v = VTag 18 (VArray a) \/ v = VArray a.
Proof.
  intros Hv. destruct v as [| | | | | |vs| |tag w]; try done; cbn [document_array] in Hv; [right; by simplify_eq|].
  left. destruct (decide (tag = 18)) as [->|Hne].
  - destruct w; try done. by simplify_eq.
  - exfalso. destruct tag as [|q]; [done|]. repeat (destruct q as [q|q|]; try done).
Qed.
Lemma only_es384_inv h : only_es384 h = true -> h = [(VInteger 1, VInteger (-35))].
Proof.
  destruct h as [|[[] []] [|]]; cbn; try done. intros [?%Z.eqb_eq ?%Z.eqb_eq]%andb_true_iff. by subst.
Qed.
Lemma empty_map_inv v : empty_map v = true -> v = VMap [].
Proof. destruct v as [| | | | | | |m|]; try done. cbn. intros Hm. bools. apply blen_0 in Hm. by subst. Qed.
Lemma octets_inv v b : value_octets v = Ok b -> v = VBytes b.
Proof. destruct v; cbn; congruence. Qed.

Lemma parse_envelope_inv raw c : parse_envelope raw = Ok c ->
  0 < blen raw <= MAX_NITROTPM_DOCUMENT_BYTES /\ blen (cose_sig c) = 96 /\
  (exists v, cbor_read raw = Some (v, blen raw) /\
    (v = VTag 18 (VArray [VBytes (cose_protected c); VMap []; VBytes (cose_payload c); VBytes (cose_sig c)]) \/
     v = VArray [VBytes (cose_protected c); VMap []; VBytes (cose_payload c); VBytes (cose_sig c)])) /\
  cbor_read (cose_protected c) = Some (VMap [(VInteger 1, VInteger (-35))], blen (cose_protected c)).
Proof.
  unfold parse_envelope. pki. intros Hv. apply bind_Ok in Hv as (_ & Hs%ensure_Ok & Hv).
  apply bind_Ok in Hv as (outer & Ho%decode_inv & Hv). apply bind_Ok in Hv as (arr & Ha%document_array_inv & Hv).
  apply bind_Ok in Hv as (_ & Hn%ensure_Ok & Hv). bools.
  assert (exists a0 a1 a2 a3, arr = [a0; a1; a2; a3]) as (a0 & a1 & a2 & a3 & ->).
  { unfold blen in Hn. destruct arr as [|? [|? [|? [|? [|? ?]]]]]; cbn [length] in Hn; try lia. eauto 10. }
  set (arr := [a0; a1; a2; a3]) in *.
  rewrite (index_Some arr 0 a0 eq_refl), (index_Some arr 1 a1 eq_refl), (index_Some arr 2 a2 eq_refl),
    (index_Some arr 3 a3 eq_refl) in Hv. subst arr. rewrite !res_bind_Ok in Hv.
  apply bind_Ok in Hv as (prot & ->%octets_inv & Hv). apply bind_Ok in Hv as (_ & _ & Hv).
  apply bind_Ok in Hv as (hdr & Hh%decode_inv & Hv). apply bind_Ok in Hv as (hs & Hhs & Hv).
  apply bind_Ok in Hv as (_ & He%ensure_Ok%only_es384_inv & Hv). destruct hdr; try done. injection Hhs as ->. subst hs.
  rewrite res_bind_Ok in Hv. apply bind_Ok in Hv as (_ & ->%ensure_Ok%empty_map_inv & Hv). rewrite res_bind_Ok in Hv.
  apply bind_Ok in Hv as (pl & ->%octets_inv & Hv). rewrite res_bind_Ok in Hv.
  apply bind_Ok in Hv as (sg & ->%octets_inv & Hv). inv_res. bools. cbn [cose_protected cose_payload cose_sig].
  split_and!; [lia|done|done|by exists outer|done].
Qed.

Lemma find_text_get (fields : list (Value * Value)) (m : gmap bytes Value) k v :
  (forall k, m !! k = find_text fields k) -> get_claim m k = Ok v -> find_text fields (lit k) = Some v.
Proof. intros Hl. unfold get_claim. pki. rewrite Hl. apply ok_or_Ok. Qed.

Definition optional_claim (fields : list (Value * Value)) (k : bytes) (o : option bytes) : Prop :=
  match o with
  | Some b => find_text fields k = Some (VBytes b)
  | None => find_text fields k = None \/ find_text fields k = Some VNull
  end.
Lemma optional_bytes_inv (fields : list (Value * Value)) (m : gmap bytes Value) k o :
  (forall k, m !! k = find_text fields k) -> optional_bytes m k = Ok o -> optional_claim fields (lit k) o.
Proof.
  intros Hl. unfold optional_bytes, optional_claim. rewrite Hl.
  destruct (find_text fields (lit k)) as [v|]; [|intros [= <-]; by left].
  destruct v; intros Hv; pki; try done; [injection Hv as <-; by right|]. cbn [value_octets] in Hv. by inv_res.
Qed.

Lemma bundle_entries vs st st' : for_each tpm_bundle_entry st vs = Ok st' ->
  exists cab, vs = VBytes <$> cab /\ st'.2 = st.2 ++ cab.
Proof.
  revert st st'. induction vs as [|v vs IH] using rev_ind; intros st st' Hv.
  { injection Hv as <-. exists []. by rewrite app_nil_r. }
  rewrite for_each_snoc in Hv. apply bind_Ok in Hv as (m & Hm & Hv). destruct (IH _ _ Hm) as (cab & -> & Hst).
  unfold tpm_bundle_entry in Hv. apply bind_Ok in Hv as (b & ->%octets_inv & Hv). pki. inv_res. cbn.
  exists (cab ++ [b]). by rewrite fmap_app, Hst, <- app_assoc.
Qed.

(** What parsing extracts from the payload. *)
Record document_claims (fields : list (Value * Value)) (d : ParsedDocument) : Prop := {
  dc_pcrs : exists entries, find_text fields (lit "nitrotpm_pcrs") = Some (VMap entries) /\ tpm_pcrs_of entries (d_pcrs d);
  dc_required : Forall (fun i => is_Some (d_pcrs d !! i)) REQUIRED_PCRS;
  dc_timestamp : find_text fields (lit "timestamp") = Some (VInteger (Z.of_N (d_timestamp d)));
  dc_certificate : find_text fields (lit "certificate") = Some (VBytes (d_certificate d));
  dc_cabundle : find_text fields (lit "cabundle") = Some (VArray (VBytes <$> d_cabundle d));
  dc_nonce : optional_claim fields (lit "nonce") (d_nonce d);
  dc_user_data : optional_claim fields (lit "user_data") (d_user_data d);
}.

Lemma uint_inv v n : value_uint v = Ok n -> v = VInteger (Z.of_N n).
Proof.
  destruct v as [| |i| | | | | |]; cbn; try done. pki. intros Hv. inv_res. bools. by rewrite Z2N.id by lia.
Qed.

Lemma parse_pcrs_inv (m : gmap bytes Value) (fields : list (Value * Value)) pcrs :
  (forall k, m !! k = find_text fields k) -> parse_pcrs m = Ok pcrs ->
  (exists entries, find_text fields (lit "nitrotpm_pcrs") = Some (VMap entries) /\ tpm_pcrs_of entries pcrs) /\
  Forall (fun i => is_Some (pcrs !! i)) REQUIRED_PCRS.
Proof.
  intros Hl Hv. unfold parse_pcrs in Hv. pki.
  apply bind_Ok in Hv as (v & Hc & Hv). apply (find_text_get fields) in Hc; [|done].
  apply bind_Ok in Hv as (es & Hes & Hv). destruct v; try done. injection Hes as ->.
  apply bind_Ok in Hv as (_ & _ & Hv). apply bind_Ok in Hv as (ps & Hps%pcr_entries & Hv).
  apply bind_Ok in Hv as (_ & Hr%ensure_Ok & Hv). injection Hv as <-. split; [eauto|].
  apply Forall_forall. intros i Hi%list_elem_of_In. rewrite forallb_forall in Hr. by apply Hr, bool_decide_eq_true in Hi.
Qed.

Lemma parse_document_inv raw d : parse_document raw = Ok d ->
  exists fields, document_shape raw (d_cose d) fields /\ document_claims fields d /\ blen (cose_sig (d_cose d)) = 96.
Proof.
  unfold parse_document. intros Hv. pki.
  apply bind_Ok in Hv as (c & (Hs & H96 & Hc & Hh)%parse_envelope_inv & Hv).
  apply bind_Ok in Hv as (pl & Hpl%decode_inv & Hv). apply bind_Ok in Hv as (m & Hm & Hv).
  unfold unique_map in Hm. destruct pl as [| | | | | | |fields|]; try done. pki.
  apply bind_Ok in Hm as (_ & _ & (Hn & _ & Hl)%unique_entries). exists fields.
  apply bind_Ok in Hv as (_ & _ & Hv). do 2 apply bind_Ok in Hv as (? & _ & Hv). apply bind_Ok in Hv as (_ & _ & Hv).
  do 2 apply bind_Ok in Hv as (? & _ & Hv). apply bind_Ok in Hv as (_ & _ & Hv).
  apply bind_Ok in Hv as (tv & Htv & Hv). apply bind_Ok in Hv as (ts & Hts & Hv).
  apply bind_Ok in Hv as (ps & Hps & Hv). apply bind_Ok in Hv as (cv & Hcv & Hv).
  apply bind_Ok in Hv as (cert & ->%octets_inv & Hv). apply bind_Ok in Hv as (_ & _ & Hv).
  apply bind_Ok in Hv as (bv & Hbv & Hv). apply bind_Ok in Hv as (vs & Hvs & Hv). destruct bv; try done. injection Hvs as ->.
  apply bind_Ok in Hv as (_ & _ & Hv). apply bind_Ok in Hv as (st & (cab & -> & Hst)%bundle_entries & Hv).
  apply bind_Ok in Hv as (no & Hno & Hv). apply bind_Ok in Hv as (ud & Hud & Hv). apply bind_Ok in Hv as (? & _ & Hv).
  injection Hv as <-. cbn in Hst. cbn [d_cose]. apply uint_inv in Hts. subst tv.
  apply (parse_pcrs_inv m fields) in Hps as [Hps Hreq]; [|done].
  split_and!; [by split| |done].
  split; cbn [d_pcrs d_timestamp d_certificate d_cabundle d_nonce d_user_data]; rewrite ?Hst; eauto using find_text_get, optional_bytes_inv.
Qed.

(** *** Panic freedom *)
Ltac values := repeat first
  [ progress (pki; wp)
  | match goal with
    | |- safe (value_octets ?v) _ => destruct v; cbn [value_octets]
    | |- safe (value_text ?v) _ => destruct v; cbn [value_text]
    | |- safe (value_uint ?v) _ => destruct v; cbn [value_uint]
    | |- safe (get_claim _ _) _ => unfold get_claim
    | |- safe (decode _) _ => unfold decode
    end
  | exact I ].
Lemma decode_safe b : safe (decode b) (fun _ => True).
Proof. unfold decode. pki. wp. destruct a as [v pos]. wp. done. Qed.
Lemma optional_bytes_safe m k : safe (optional_bytes m k) (fun _ => True).
Proof. unfold optional_bytes. case_match; [|done]. case_match; values. Qed.
Lemma parse_envelope_safe raw : safe (parse_envelope raw) (fun _ => True).
Proof.
  unfold parse_envelope. pki. apply safe_bind, safe_ensure. intros _.
  eapply safe_seq; [apply decode_safe|]. intros outer _ _.
  eapply (safe_seq _ _ (fun _ => True)); [destruct outer; try done; cbn; by repeat case_match|]. intros arr _ _.
  apply safe_bind, safe_ensure. intros Hn. bools.
  apply safe_bind, safe_index; [lia|]. intros a0 _. eapply (safe_seq _ _ (fun _ => True)); [by destruct a0|]. intros p _ _.
  apply safe_bind, safe_ensure. intros _. eapply safe_seq; [apply decode_safe|]. intros h _ _.
  eapply (safe_seq _ _ (fun _ => True)); [by destruct h|]. intros hs _ _. apply safe_bind, safe_ensure. intros _.
  apply safe_bind, safe_index; [lia|]. intros a1 _. apply safe_bind, safe_ensure. intros _.
  apply safe_bind, safe_index; [lia|]. intros a2 _. eapply (safe_seq _ _ (fun _ => True)); [by destruct a2|]. intros pl _ _.
  apply safe_bind, safe_index; [lia|]. intros a3 _. eapply (safe_seq _ _ (fun _ => True)); [by destruct a3|]. intros sg _ _.
  values.
Qed.
Lemma loop_safe {A B} (f : A -> B -> res PkiError A) acc l :
  (forall a x, safe (f a x) (fun _ => True)) -> safe (for_each f acc l) (fun _ => True).
Proof. intros Hf. apply safe_for_each; [done|]. intros a x _ _. apply Hf. Qed.

Lemma parse_pcrs_safe m : safe (parse_pcrs m) (fun _ => True).
Proof.
  unfold parse_pcrs. eapply (safe_seq _ _ (fun _ => True)); [values|]. intros v _ _.
  eapply (safe_seq _ _ (fun _ => True)); [by destruct v|]. intros es _ _. pki. apply safe_bind, safe_ensure. intros _.
  eapply safe_seq; [apply loop_safe; intros a x; unfold tpm_pcr_entry; values|]. intros ps _ _. values.
Qed.
Lemma parse_document_safe raw : safe (parse_document raw) (fun _ => True).
Proof.
  unfold parse_document. pki. eapply safe_seq; [apply parse_envelope_safe|]. intros c _ _.
  eapply safe_seq; [apply decode_safe|]. intros pl _ _.
  eapply (safe_seq _ _ (fun _ => True)).
  { unfold unique_map. destruct pl; try done. values. apply loop_safe. intros a x. unfold unique_entry. values. }
  intros m _ _. apply safe_bind, safe_ensure. intros _.
  do 2 (eapply (safe_seq _ _ (fun _ => True)); [values|]; intros ? _ _). apply safe_bind, safe_ensure. intros _.
  do 2 (eapply (safe_seq _ _ (fun _ => True)); [values|]; intros ? _ _). apply safe_bind, safe_ensure. intros _.
  do 2 (eapply (safe_seq _ _ (fun _ => True)); [values|]; intros ? _ _).
  eapply safe_seq; [apply parse_pcrs_safe|]. intros ps _ _.
  do 2 (eapply (safe_seq _ _ (fun _ => True)); [values|]; intros ? _ _). apply safe_bind, safe_ensure. intros _.
  eapply (safe_seq _ _ (fun _ => True)); [values|]. intros bv _ _.
  eapply (safe_seq _ _ (fun _ => True)); [by destruct bv|]. intros bs _ _. apply safe_bind, safe_ensure. intros _.
  eapply safe_seq; [apply loop_safe; intros st x; unfold tpm_bundle_entry; values|]. intros st _ _.
  do 3 (eapply safe_seq; [apply optional_bytes_safe|]; intros ? _ _). done.
Qed.

(** *** What acceptance means *)
Record nitrotpm_genuine (raw nonce : bytes) (ud : option bytes) (policy : NitroTpmPolicy) (now : N)
    (v : VerifiedNitroTpm) (d : ParsedDocument) (fields : list (Value * Value)) : Prop := {
  nt_shape : document_shape raw (d_cose d) fields;
  nt_claims : document_claims fields d;
  nt_nonce : find_text fields (lit "nonce") = Some (VBytes nonce);
  nt_user_data : optional_claim fields (lit "user_data") ud;
  nt_values : nt_pcrs v = d_pcrs d /\ nt_pcr_algorithm v = pcr_algorithm policy;
  nt_width : exists w, tpm_bank_size (pcr_algorithm policy) = Ok w /\ map_Forall (fun _ p => blen p = w) (d_pcrs d);
  nt_policy : map_Forall (fun i e => exists p, hex_decode e = Some p /\ d_pcrs d !! i = Some p) (expected_pcrs policy);
  nt_not_future : d_timestamp d <= now * 1000 + max_future_skew_secs policy * 1000;
  nt_not_stale : now * 1000 <= d_timestamp d + max_age_secs policy * 1000;
  nt_signed : exists c0 cs key signed,
    validate_chain (d_certificate d :: rev (d_cabundle d)) AWS_NITRO_ROOT_SHA256 now P384 = Ok (c0 :: cs) /\
    as_bytes (subject_public_key c0) = Some key /\ cbor_write (sig_structure (d_cose d)) = Some signed /\
    p384_signed key (cose_sig (d_cose d)) signed;
}.

Lemma tpm_bank_size_safe a : safe (tpm_bank_size a) (fun _ => True).
Proof. unfold tpm_bank_size. by repeat case_match. Qed.
Lemma policy_safe p : safe (NitroTpmPolicy_validate p) (fun _ => True).
Proof.
  unfold NitroTpmPolicy_validate. pki. eapply safe_seq; [apply tpm_bank_size_safe|]. intros w _ _.
  apply safe_bind, safe_ensure. intros _. apply safe_bind, safe_ensure. intros _.
  eapply safe_seq; [apply loop_safe; intros a x; unfold check_expected_pcr; values|]. intros _ _ _. values.
Qed.

Lemma policy_pcrs_ok pcrs es u : for_each (check_policy_pcr pcrs) u es = Ok tt ->
  Forall (fun e => exists p, hex_decode e.2 = Some p /\ pcrs !! e.1 = Some p) es.
Proof.
  revert u. induction es as [|e es IH] using rev_ind; intros u Hv; [constructor|].
  rewrite for_each_snoc in Hv. apply bind_Ok in Hv as ([] & Hm & Hv). apply Forall_app. split; [by eapply IH|].
  repeat constructor. unfold check_policy_pcr in Hv. pki. apply bind_Ok in Hv as (p & Hp%ok_or_Ok & Hv%ensure_Ok).
  unfold opt_eqb in Hv. bools. eauto.
Qed.

Lemma verify_document_signature_safe d pk : safe (verify_document_signature d pk) (fun _ =>
  exists signed, cbor_write (sig_structure (d_cose d)) = Some signed /\ p384_signed pk (cose_sig (d_cose d)) signed).
Proof. unfold verify_document_signature, p384_signed. values. eauto 10. Qed.

Lemma verify_nitrotpm_safe raw nonce ud policy now :
  safe (verify_nitrotpm_document raw nonce ud policy now) (fun v =>
    exists d fields, nitrotpm_genuine raw nonce ud policy now v d fields).
Proof.
  unfold verify_nitrotpm_document. pki. eapply safe_seq; [apply policy_safe|]. intros _ _ _.
  apply safe_bind, safe_ensure. intros _. eapply safe_seq; [apply parse_document_safe|].
  intros d (fields & Hsh & Hcl & _)%parse_document_inv _.
  apply safe_bind, safe_ensure. intros Hno. apply safe_bind, safe_ensure. intros Hud.
  apply safe_bind, safe_ok_or. intros millis [-> _]%checked_mul_Some. apply safe_bind, safe_ensure. intros Hfresh.
  eapply safe_seq; [apply tpm_bank_size_safe|]. intros w Hw _. apply safe_bind, safe_ensure. intros Hwidth.
  eapply safe_seq; [eapply decides_safe, validate_chain_decides|]. intros certs Hcerts [_ [_ _ Hdec _ _ _]].
  destruct certs as [|c0 cs]; [by apply Forall2_length in Hdec|].
  rewrite (index_Some (c0 :: cs) 0 c0 eq_refl). ok_step.
  unfold public_key. pki. apply safe_bind, safe_ok_or. intros pk Hpk.
  eapply safe_seq; [apply verify_document_signature_safe|]. intros [] _ (signed & Henc & Hsig).
  eapply safe_seq; [apply loop_safe; intros a x; unfold check_policy_pcr; values|]. intros [] Hps%policy_pcrs_ok _.
  cbn [safe]. exists d, fields. unfold opt_eqb in *. unfold saturating_add in Hfresh. bools.
  pose proof (dc_nonce _ _ Hcl) as Hn. pose proof (dc_user_data _ _ Hcl) as Hu.
  match goal with E : d_nonce d = _ |- _ => rewrite E in Hn end. match goal with E : d_user_data d = _ |- _ => rewrite E in Hu end.
  split; try done; [| |lia|lia|eauto 10].
  - exists w. split; [done|]. intros i p Hi%elem_of_map_to_list%list_elem_of_In.
    rewrite forallb_forall in Hwidth. apply Hwidth in Hi. by bools.
  - intros i e Hi%(elem_of_btree_iter N.le). rewrite Forall_forall in Hps. by apply (Hps (i, e)).
Qed.

(** *** Registers for boot logs *)
Lemma elem_of_static v key p : nt_pcr_algorithm v = key.1 ->
  static_pcrs v !! key = Some p <-> 2 <= key.2 <= 15 /\ nt_pcrs v !! key.2 = Some p.
Proof.
  destruct key as [a i]. cbn. intros <-. unfold static_pcrs. rewrite <- elem_of_list_to_map.
  - rewrite list_elem_of_fmap. split.
    + intros ([j q] & Heq & [Hj Hin%elem_of_map_to_list]%list_elem_of_filter). cbn in *. by simplify_eq.
    + intros [Hi Hp]. exists (i, p). split; [done|]. apply list_elem_of_filter. split; [done|]. by apply elem_of_map_to_list.
  - rewrite <- list_fmap_compose. assert (forall l : list (N * bytes), NoDup l.*1 ->
      NoDup ((fst ∘ (fun e : N * bytes => ((nt_pcr_algorithm v, e.1), e.2))) <$> filter (fun e => 2 <= e.1 <= 15) l)) as Hn.
    { intros l. induction l as [|[j q] l IH]; cbn [fmap list_fmap]; intros Hl; [constructor|].
      apply NoDup_cons in Hl as [Hj Hl]. rewrite filter_cons. case_decide; [|auto]. cbn. constructor; [|auto].
      intros ([j' q'] & [= ->] & [_ Hin]%list_elem_of_filter)%list_elem_of_fmap. apply Hj. apply list_elem_of_fmap. by exists (j', q'). }
    apply Hn, NoDup_fst_map_to_list.
Qed.
Lemma static_algorithm v a i p : static_pcrs v !! (a, i) = Some p -> a = nt_pcr_algorithm v.
Proof.
  unfold static_pcrs. intros Hp%elem_of_list_to_map_2. apply list_elem_of_fmap in Hp as ([j q] & [= -> _ _] & _). done.
Qed.

Lemma registers_ok `{!Sha2Laws H} v w : tpm_bank_size (nt_pcr_algorithm v) = Ok w ->
  map_Forall (fun _ p => blen p = w) (nt_pcrs v) -> is_Some (nt_pcrs v !! 2) ->
  nitrotpm_registers v = Ok {| auth_kind := Tpm2; auth_values := static_pcrs v |}.
Proof.
  intros Hw Hp [p2 H2]. unfold nitrotpm_registers, AuthenticatedRegisters_tpm.
  assert (static_pcrs v !! (nt_pcr_algorithm v, 2) = Some p2) as Hs.
  { apply elem_of_static; [done|]. cbn. split; [lia|done]. }
  rewrite (bool_decide_eq_false_2 (static_pcrs v = ∅)) by (intros He; by rewrite He in Hs). cbn [orb].
  assert (existsb (fun key : N * N => 15 <? key.2) (btree_keys pair_le (static_pcrs v)) = false) as ->.
  { apply not_true_is_false. intros ([a i] & Hin%list_elem_of_In & Hi)%existsb_exists. cbn in Hi. bools.
    apply elem_of_btree_keys in Hin as [p Hin]. pose proof (static_algorithm _ _ _ _ Hin) as ->.
    apply elem_of_static in Hin as [? _]; [|done]. cbn in *. lia. }
  cbn [reject_if]. ok_step.
  enough (for_each (fun (_ : unit) '((algorithm, _), digest) => empty ← hash algorithm [];
      reject_if (negb (blen empty =? blen digest)) (InvalidRegisters "digest length"))
    tt (btree_iter pair_le (static_pcrs v)) = Ok tt) as -> by done.
  assert (forall e, e ∈ btree_iter pair_le (static_pcrs v) -> e.1.1 = nt_pcr_algorithm v /\ blen e.2 = w) as Hall.
  { intros [[a i] p] Hin%elem_of_btree_iter. pose proof (static_algorithm _ _ _ _ Hin) as ->.
    apply elem_of_static in Hin as [_ Hin]; [|done]. split; [done|]. by apply (Hp i). }
  revert Hall. generalize (btree_iter pair_le (static_pcrs v)). intros l. induction l as [|[[a i] p] l IH]; intros Hall; [done|].
  destruct (Hall ((a, i), p)) as [Ha Hl]; [left|]. cbn in Ha, Hl. rewrite for_each_cons. subst a. cbv beta iota.
  assert (exists e, hash (nt_pcr_algorithm v) [] = Ok e /\ blen e = w) as (e & -> & He).
  { unfold tpm_bank_size in Hw. unfold hash. destruct H as [s2 s3 s5], Sha2Laws0 as [L2 L3 L5]. cbn in *.
    repeat case_match; simplify_eq; eexists; (split; [reflexivity|]); unfold blen; rewrite ?L2, ?L3, ?L5; done. }
  ok_step. rewrite He, Hl, N.eqb_refl. cbn [negb reject_if]. ok_step. apply IH. intros e' He'. apply Hall. by right.
Qed.

(** C14: [verify_nitrotpm_document] never panics, and a document that it accepts is
    genuine: a COSE_Sign1 structure with ES384 as its only header and no trailing bytes,
    signed by a leaf certificate whose path leads to the pinned AWS root; its signed
    payload names each claim once, carries exactly the expected nonce and user data, a
    timestamp within the policy's window around the verifier's clock, and PCRs of the
    policy's bank that equal every expected value.  The registers that it yields for boot
    logs are exactly PCRs 2 to 15 of the signed document: PCR0 and PCR1, which AWS
    replaces by constants, and the dynamic PCRs never appear. *)
Theorem nitrotpm_sound `{!Sha2Laws H} raw nonce ud policy now :
  safe (verify_nitrotpm_document raw nonce ud policy now) (fun v =>
    (exists d fields, nitrotpm_genuine raw nonce ud policy now v d fields) /\
    exists regs, nitrotpm_registers v = Ok regs /\ auth_kind regs = Tpm2 /\
      forall a i p, auth_values regs !! (a, i) = Some p <->
        a = pcr_algorithm policy /\ 2 <= i <= 15 /\ nt_pcrs v !! i = Some p).
Proof.
  eapply safe_mono; [apply verify_nitrotpm_safe|]. intros v _ (d & fields & Hg). split; [eauto|].
  destruct (nt_values _ _ _ _ _ _ _ _ Hg) as [Hp Ha]. destruct (nt_width _ _ _ _ _ _ _ _ Hg) as (w & Hw & Hwidth).
  eexists. split; [apply (registers_ok v w); rewrite ?Ha, ?Hp; try done|].
  { pose proof (dc_required _ _ (nt_claims _ _ _ _ _ _ _ _ Hg)) as Hr. rewrite Forall_forall in Hr. apply Hr.
    unfold REQUIRED_PCRS. set_solver. }
  split; [done|]. intros a i p. cbn [auth_values]. split.
  - intros Hs. pose proof (static_algorithm _ _ _ _ Hs) as ->. apply elem_of_static in Hs; [|done]. by rewrite Ha.
  - intros (-> & Hi & Hq). apply elem_of_static; [by rewrite Ha|done].
Qed.
End NitroTpmSpec.

(** ** A concrete document *)
Lemma pinned_sha2_laws : Sha2Laws (pinned_sha2 AWS_NITRO_ROOT_SHA256).
Proof. split; intros b; cbn; [case_match; [done|]|..]; apply length_toy_digest. Qed.

Definition sample_claims : list (Value * Value) :=
  [(VText (lit "module_id"), VText (lit "i-1")); (VText (lit "timestamp"), VInteger 14000);
   (VText (lit "digest"), VText (lit "SHA384"));
   (VText (lit "nitrotpm_pcrs"),
     VMap ((fun i => (VInteger (Z.of_N i), VBytes (replicate 48 (byte_of i)))) <$> REQUIRED_PCRS));
   (VText (lit "certificate"), VBytes [x06]); (VText (lit "cabundle"), VArray [VBytes [x02]; VBytes [x05]]);
   (VText (lit "nonce"), VBytes (replicate 32 x0d)); (VText (lit "user_data"), VNull)].
Definition sample_ciborium : Ciborium := {|
  cbor_read := fun b =>
    if bytes_eqb b [x01] then Some (VTag 18 (VArray [VBytes [x02]; VMap []; VBytes [x03]; VBytes nitro_sig]), 1)
    else if bytes_eqb b [x02] then Some (VMap [(VInteger 1, VInteger (-35))], 1)
    else if bytes_eqb b [x03] then Some (VMap sample_claims, 1) else None;
  cbor_write := fun _ => Some [x55] |}.
Definition sample_tpm_policy : NitroTpmPolicy := {|
  pcr_algorithm := 0xc; expected_pcrs := {[4 := hex_encode (replicate 48 x04)]};
  max_age_secs := 60; max_future_skew_secs := 5 |}.

Lemma nitrotpm_sound_witness :
  let X := nitro_x509 in let K := toy_cpu in let H := pinned_sha2 AWS_NITRO_ROOT_SHA256 in let C := sample_ciborium in
  exists v, verify_nitrotpm_document [x01] (replicate 32 x0d) None sample_tpm_policy 15 = Ok v /\
    exists regs, nitrotpm_registers v = Ok regs /\ auth_values regs !! (0xc, 4) = Some (replicate 48 x04) /\
      auth_values regs !! (0xc, 0) = None.
Proof.
  intros X K H C.
  destruct (verify_nitrotpm_document [x01] (replicate 32 x0d) None sample_tpm_policy 15) as [v|e| |] eqn:Hv.
  2-4: exfalso; revert Hv; vm_compute; discriminate.
  exists v. split; [done|].
  pose proof (nitrotpm_sound (X := X) (K := K) (H := H) (C := C) (Sha2Laws0 := pinned_sha2_laws)
    [x01] (replicate 32 x0d) None sample_tpm_policy 15) as Hs.
  rewrite Hv in Hs. destruct Hs as (_ & regs & Hr & _ & Hx). exists regs. split_and!; [done| |].
  - apply Hx. split_and!; [done|lia..|]. revert Hv. vm_compute. by intros [= <-].
  - destruct (auth_values regs !! (0xc, 0)) as [p|] eqn:Hp; [|done]. apply Hx in Hp as (_ & ? & _). lia.
Defined.
