(* ===== verification/DesktopTpm.v ===== *)
(** * DesktopTpm: TPM evidence of desktops
    ([src/v2/src/tee/desktop/tpm.rs], [tee/desktop/mod.rs])

    A client sends a quote over a channel binding, the certificate of the key that signed
    it, the endorsement key's path to a manufacturer root, a token that says that the two
    keys live in one TPM (credential activation), and optionally the PCR values with the
    kernel's IMA log, which together say which binary is running.

    [tpm_evidence]: what a verdict means.  An accepted quote is the encoding of one
    attestation structure ([quote_encoding]); PCR 10 is the replay of the IMA entries, so
    two clients with the same PCR 10 measured the same files ([ima_same_files]).

    RSA ([TpmRsa]) is a parameter; certificates and curves are those of [Pki]. *)
From S2P Require Import Prelude Bytes Ranges Text Crypto Boot EventLog Replay Verity Pki.

(** ** Data *)
Definition TPM_GENERATED_VALUE : N := 0xff544347.
Definition TPM_ST_ATTEST_QUOTE : N := 0x8018.
Definition TPM_ALG_ECDSA : N := 0x0018.
Definition TPM_ALG_RSASSA : N := 0x0014.
Definition TPM_ALG_RSAPSS : N := 0x0016.
Definition ACTIVATION_TOKEN_DOMAIN : bytes := lit "uq/desktop-tpm/activation-token/v1" ++ [x00].
Definition LINUX_TPM_PLATFORM : bytes := lit "linux-tpm-client".
Definition WINDOWS_TPM_PLATFORM : bytes := lit "windows-tpm-client".
Definition BUILD_ID_DOMAIN : bytes := lit "uq/desktop/build-id/v1" ++ [x00].

Record PcrValue : Type := { pv_index : N; pv_value : bytes }.
Record TpmVerifierOptions : Type := {
  ek_root_sha256 : list bytes; activation_pubkeys : list bytes; opt_now : option N;
}.
Record TpmActivationToken : Type := {
  tok_version : N; tok_exp : N; tok_nonce : bytes; tok_binding : bytes; tok_ek_cert_sha256 : bytes;
  tok_ak_cert_sha256 : bytes; tok_ak_name : bytes; tok_secret_sha256 : bytes; tok_issuer_pubkey : bytes; tok_sig : bytes;
}.
Record TpmCredentialActivation : Type := { token : TpmActivationToken; secret : bytes }.
Record TpmClientBundle : Type := {
  b_version : N; b_platform : bytes; b_binding : bytes; b_build_digest : bytes; b_ak_cert : bytes; b_ek_cert : bytes;
  b_ek_ca_chain : list bytes; b_ak_name : bytes; b_credential_activation : option TpmCredentialActivation;
  b_quote_msg : bytes; b_quote_sig : bytes; b_qualifying_data : bytes; b_pcr_bank : bytes; b_pcrs : list PcrValue; b_ima_log : bytes;
}.
Inductive TpmVerifyError : Type := TpmParse (m : string) | TpmVerify (m : string).
Record DesktopVerdict : Type := {
  dv_verdict : bytes; dv_platform : bytes; dv_identity_hash : bytes; ima_verified : bool; boot_aggregate : option bytes;
}.
Definition parses (c : bool) (m : string) : res TpmVerifyError unit := ensure c (TpmParse m).
Definition verifies (c : bool) (m : string) : res TpmVerifyError unit := ensure c (TpmVerify m).
Definition parsed {A} (o : option A) (m : string) : res TpmVerifyError A := ok_or o (TpmParse m).
Definition verified {A} (o : option A) (m : string) : res TpmVerifyError A := ok_or o (TpmVerify m).
Ltac tpm := unfold parses, verifies, parsed, verified in *.

(** [RsaPublicKey] in PKCS#1, the two signature schemes. *)
Class TpmRsa := {
  TpmRsaKey : Type;
  from_pkcs1_der : bytes -> option TpmRsaKey;
  (** key, DigestInfo prefix, digest, signature *)
  pkcs1v15_verify : TpmRsaKey -> bytes -> bytes -> bytes -> bool;
  (** [Signature::try_from] *)
  pss_sig_from : bytes -> bool;
  (** hash algorithm, key, digest, signature *)
  pss_verify : N -> TpmRsaKey -> bytes -> bytes -> bool;
}.

(** ** Readers *)
Section Readers.
Implicit Types (buf : bytes) (off n : N).
Definition read_bytes buf off n : res TpmVerifyError (bytes * N) :=
  parses (off + n <=? blen buf) "truncated field";;
  s ← index_range buf off (off + n);
  Ok (s, off + n).
Definition read_u8 buf off : res TpmVerifyError (N * N) := b ← parsed (get buf off) "truncated u8"; Ok (byte_N b, off + 1).
Definition read_u16 buf off : res TpmVerifyError (N * N) :=
  '(b, off) ← read_bytes buf off 2; b0 ← index b 0; b1 ← index b 1; Ok (be_to_N [b0; b1], off).
Definition read_u32 buf off : res TpmVerifyError (N * N) :=
  '(b, off) ← read_bytes buf off 4; b0 ← index b 0; b1 ← index b 1; b2 ← index b 2; b3 ← index b 3; Ok (be_to_N [b0; b1; b2; b3], off).
Definition skip buf off n : res TpmVerifyError N := '(_, off) ← read_bytes buf off n; Ok off.
Definition read_tpm2b buf off : res TpmVerifyError (bytes * N) :=
  parses (off + 2 <=? blen buf) "truncated TPM2B";;
  b0 ← index buf off; b1 ← index buf (off + 1);
  let sz := be_to_N [b0; b1] in
  let off := off + 2 in
  parses (off + sz <=? blen buf) "truncated TPM2B payload";;
  s ← index_range buf off (off + sz);
  Ok (s, off + sz).
Definition parse_hex (s : bytes) (field : string) : res TpmVerifyError bytes := parsed (hex_decode (str_trim s)) field.
Definition parse_hex32 (s : bytes) (field : string) : res TpmVerifyError bytes :=
  v ← parse_hex s field; parses (blen v =? 32) "must be 32 bytes";; Ok v.
Definition parse_required_hex (s : bytes) (field : string) : res TpmVerifyError bytes :=
  verifies (negb (blen (str_trim s) =? 0)) "is required";; parse_hex s field.
Definition decode_link (acc : list bytes) (h : bytes) : res TpmVerifyError (list bytes) :=
  v ← parse_required_hex h "chain"; Ok (acc ++ [v]).
Definition decode_hex_chain (hex_certs : list bytes) : res TpmVerifyError (list bytes) := for_each decode_link [] hex_certs.
End Readers.

(** ** The quote *)
Record ParsedQuote : Type := { extra_data : bytes; selections : list (N * list N); pcr_digest : bytes }.
Definition byte_bits (p : nat * byte) : list N :=
  (fun bit => N.of_nat p.1 * 8 + bit) <$> filter (fun bit => N.land (byte_N p.2) (N.shiftl 1 bit) <> 0) [0; 1; 2; 3; 4; 5; 6; 7].
Definition pcr_indices_from_bitmap (bitmap : bytes) : list N :=
  merge_sort N.le (mjoin (byte_bits <$> zip (seq 0 (length bitmap)) bitmap)).
Record Selecting : Type := { sl_off : N; sl_selections : list (N * list N); sl_banks : gset N }.
Definition read_selection (attest : bytes) (st : Selecting) (_ : nat) : res TpmVerifyError Selecting :=
  '(hash_alg, off) ← read_u16 attest (sl_off st);
  '(size_of_select, off) ← read_u8 attest off;
  parses (negb (bool_decide (hash_alg ∈ sl_banks st) || (size_of_select =? 0) || (3 <? size_of_select))) "duplicate bank or invalid PCR selection bitmap";;
  '(bitmap, off) ← read_bytes attest off size_of_select;
  Ok {| sl_off := off; sl_selections := sl_selections st ++ [(hash_alg, pcr_indices_from_bitmap bitmap)]; sl_banks := {[hash_alg]} ∪ sl_banks st |}.
Definition parse_quote (quote_msg : bytes) : res TpmVerifyError ParsedQuote :=
  parses (blen quote_msg <=? 65537) "TPM2B_ATTEST exceeds maximum encoded length";;
  '(attest, stop) ← read_tpm2b quote_msg 0;
  parses (stop =? blen quote_msg) "trailing bytes after TPM2B_ATTEST";;
  '(magic, off) ← read_u32 attest 0;
  verifies (magic =? TPM_GENERATED_VALUE) "bad TPM_GENERATED magic";;
  '(typ, off) ← read_u16 attest off;
  verifies (typ =? TPM_ST_ATTEST_QUOTE) "not a quote attestation";;
  '(_, off) ← read_tpm2b attest off;
  '(extra, off) ← read_tpm2b attest off;
  off ← skip attest off (17 + 8);
  '(count, off) ← read_u32 attest off;
  parses (negb (count =? 0) && (count <=? 16)) "invalid TPM PCR selection count";;
  st ← for_each (read_selection attest) {| sl_off := off; sl_selections := []; sl_banks := ∅ |} (seq 0 (N.to_nat count));
  '(digest, stop) ← read_tpm2b attest (sl_off st);
  parses (stop =? blen attest) "trailing bytes after TPMS_QUOTE_INFO";;
  Ok {| extra_data := extra; selections := sl_selections st; pcr_digest := digest |}.

(** ** PCR values and the IMA log *)
Record ImaNgEntry : Type := { template_digest : bytes; file_digest : bytes; filename : bytes }.
Definition insert_pcr_value (m : gmap N bytes) (p : PcrValue) : res TpmVerifyError (gmap N bytes) :=
  parses (pv_index p <=? 23) "PCR index out of range";;
  v ← parse_hex32 (pv_value p) "pcr value";
  parses (bool_decide (m !! pv_index p = None)) "duplicate reported PCR";;
  Ok (<[pv_index p := v]> m).
Definition parse_pcrs (pcrs : list PcrValue) : res TpmVerifyError (gmap N bytes) :=
  parses (blen pcrs <=? 24) "too many PCR values";;
  for_each insert_pcr_value ∅ pcrs.
Definition collect_value (pcrs : gmap N bytes) (acc : bytes) (idx : N) : res TpmVerifyError bytes :=
  v ← verified (pcrs !! idx) "PCR not reported"; Ok (acc ++ v).
Section Verifier.
Context `{H : Sha2} `{SG : Ed25519} `{X : X509} `{K : CpuCrypto} `{R : TpmRsa}.

Definition verify_pcr_digest (quote : ParsedQuote) (pcrs : gmap N bytes) : res TpmVerifyError unit :=
  one ← (if negb (blen (selections quote) =? 1) then Ok false else s ← index (selections quote) 0; Ok (s.1 =? TPM_ALG_SHA256));
  verifies one "exactly one SHA-256 PCR bank is required";;
  indices ← verified (snd <$> List.find (fun s => s.1 =? TPM_ALG_SHA256) (selections quote)) "quote has no sha256 PCR selection";
  verifies (negb ((blen indices =? 0) || negb (blen indices =? N.of_nat (size pcrs)) || existsb (fun i => bool_decide (pcrs !! i = None)) indices))
    "reported PCR coverage differs from the signed quote selection";;
  all ← for_each (collect_value pcrs) [] indices;
  verifies (bytes_eqb (sha256 all) (pcr_digest quote)) "reported PCRs do not match the quote's pcrDigest".
Definition SHA256_COLON : bytes := lit "sha256:".
(** The bytes that the kernel hashes for an ima-ng entry. *)
Definition ima_template (file_digest filename : bytes) : bytes :=
  N_to_le 4 40 ++ (SHA256_COLON ++ [x00]) ++ file_digest ++ N_to_le 4 (blen filename + 1) ++ filename ++ [x00].
Definition parse_ima_line (result : list ImaNgEntry) (line : bytes) : res TpmVerifyError (list ImaNgEntry) :=
  if blen line =? 0 then Ok result
  else
    parses (negb ((8192 <? blen line) || (262144 <=? blen result) || contains_byte x00 line)) "IMA entry exceeds limits or contains NUL";;
    match split_ascii_whitespace line with
    | [pcr; logged_hex; profile; digest_field; filename] =>
      verifies (bytes_eqb pcr (lit "10") && bytes_eqb profile (lit "ima-ng")) "only complete PCR10 ima-ng entries are supported";;
      logged ← parse_hex32 logged_hex "IMA template digest";
      digest_text ← verified (strip_prefix SHA256_COLON digest_field) "IMA d-ng must use sha256";
      file_digest ← parse_hex32 digest_text "IMA file digest";
      parses (negb ((4096 <? blen filename) || existsb char_is_control (chars filename))) "unsupported IMA filename encoding";;
      let template_digest := sha256 (ima_template file_digest filename) in
      verifies (bytes_eqb logged template_digest) "IMA template digest does not authenticate its file digest and name";;
      Ok (result ++ [{| template_digest := template_digest; file_digest := file_digest; filename := filename |}])
    | _ => Err (TpmVerify "only complete PCR10 ima-ng entries are supported")
    end.
Definition parse_ima_ng (ima_log : bytes) : res TpmVerifyError (list ImaNgEntry) :=
  parses (blen ima_log <=? 32 * 1024 * 1024) "IMA log exceeds byte limit";;
  result ← for_each parse_ima_line [] (lines ima_log);
  verifies (negb (blen result =? 0)) "empty IMA log";;
  Ok result.
Definition replay_ima_pcr10 (ima_log : bytes) : res TpmVerifyError bytes :=
  entries ← parse_ima_ng ima_log;
  Ok (foldl (fun pcr e => sha256 (pcr ++ template_digest e)) (replicate 32 x00) entries).
Definition ima_contains_filehash (ima_log build_digest : bytes) : res TpmVerifyError bool :=
  entries ← parse_ima_ng ima_log;
  Ok (existsb (fun e => negb (bytes_eqb (filename e) (lit "boot_aggregate")) && bytes_eqb (file_digest e) build_digest) entries).
Definition TEN : list N := [0; 1; 2; 3; 4; 5; 6; 7; 8; 9].
Definition boot_aggregate_over_0_9 (pcrs : gmap N bytes) : res TpmVerifyError bytes :=
  all ← for_each (collect_value pcrs) [] TEN; Ok (sha256 all).

(** ** Signatures *)
Record TpmEccSignature : Type := { ecc_hash_alg : N; ecc_r : bytes; ecc_s : bytes }.
Record TpmRsaSignature : Type := { rsa_hash_alg : N; rsa_sig : bytes }.
Definition parse_tpm_ecc_signature (body : bytes) : res TpmVerifyError TpmEccSignature :=
  '(alg, off) ← read_u16 body 0; '(r, off) ← read_tpm2b body off; '(s, _) ← read_tpm2b body off;
  Ok {| ecc_hash_alg := alg; ecc_r := r; ecc_s := s |}.
Definition parse_tpm_rsa_signature (body : bytes) : res TpmVerifyError TpmRsaSignature :=
  '(alg, off) ← read_u16 body 0; '(sig, _) ← read_tpm2b body off; Ok {| rsa_hash_alg := alg; rsa_sig := sig |}.
Definition digest_for_hash_alg (hash_alg : N) (msg : bytes) : res TpmVerifyError bytes :=
  if hash_alg =? TPM_ALG_SHA256 then Ok (sha256 msg)
  else if hash_alg =? TPM_ALG_SHA384 then Ok (sha384 msg)
  else Err (TpmVerify "unsupported TPM quote hash alg").
Definition fixed_width_component (v : bytes) (width : N) : res TpmVerifyError bytes :=
  significant ← (if width <? blen v then index_from v (default (blen v) (position (fun b => negb (Byte.eqb b x00)) v)) else Ok v);
  parses (blen significant <=? width) "component is wider than the curve";;
  Ok (replicate (N.to_nat (width - blen significant)) x00 ++ significant).
Definition raw_ecdsa_signature (r s : bytes) (width : N) : res TpmVerifyError bytes :=
  r ← fixed_width_component r width; s ← fixed_width_component s width; Ok (r ++ s).
Definition verify_with (e : Ecdsa) (key : Point e) (width : N) (sig : TpmEccSignature) (digest : bytes) : res TpmVerifyError unit :=
  raw ← raw_ecdsa_signature (ecc_r sig) (ecc_s sig) width;
  s ← parsed (sig_from_slice e raw) "ecdsa sig";
  verifies (verify_prehash e key digest s) "ecdsa quote sig".
Definition verify_ecdsa_quote (spki quote_msg sig_body : bytes) : res TpmVerifyError unit :=
  sig ← parse_tpm_ecc_signature sig_body;
  digest ← digest_for_hash_alg (ecc_hash_alg sig) quote_msg;
  match from_sec1 p256 spki with
  | Some vk => verify_with p256 vk 32 sig digest
  | None =>
    match from_sec1 p384 spki with
    | Some vk => verify_with p384 vk 48 sig digest
    | None => Err (TpmVerify "AK public key is not P-256 or P-384 ECDSA")
    end
  end.
Definition SHA256_DIGESTINFO : bytes := byte_of <$>
  [0x30; 0x31; 0x30; 0x0d; 0x06; 0x09; 0x60; 0x86; 0x48; 0x01; 0x65; 0x03; 0x04; 0x02; 0x01; 0x05; 0x00; 0x04; 0x20].
Definition SHA384_DIGESTINFO : bytes := byte_of <$>
  [0x30; 0x41; 0x30; 0x0d; 0x06; 0x09; 0x60; 0x86; 0x48; 0x01; 0x65; 0x03; 0x04; 0x02; 0x02; 0x05; 0x00; 0x04; 0x30].
Definition pkcs1v15_scheme (hash_alg : N) : res TpmVerifyError bytes :=
  if hash_alg =? TPM_ALG_SHA256 then Ok SHA256_DIGESTINFO
  else if hash_alg =? TPM_ALG_SHA384 then Ok SHA384_DIGESTINFO
  else Err (TpmVerify "unsupported TPM quote hash alg").
Definition verify_rsapss_quote (pk : TpmRsaKey) (hash_alg : N) (digest sig_bytes : bytes) : res TpmVerifyError unit :=
  parses (pss_sig_from sig_bytes) "rsa pss sig";;
  if (hash_alg =? TPM_ALG_SHA256) || (hash_alg =? TPM_ALG_SHA384) then verifies (pss_verify hash_alg pk digest sig_bytes) "rsa pss quote sig"
  else Err (TpmVerify "unsupported TPM quote hash alg").
Definition verify_rsa_quote (spki quote_msg : bytes) (sig_alg : N) (sig_body : bytes) : res TpmVerifyError unit :=
  sig ← parse_tpm_rsa_signature sig_body;
  digest ← digest_for_hash_alg (rsa_hash_alg sig) quote_msg;
  pk ← parsed (from_pkcs1_der spki) "rsa ak";
  if sig_alg =? TPM_ALG_RSASSA then
    prefix ← pkcs1v15_scheme (rsa_hash_alg sig);
    verifies (pkcs1v15_verify pk prefix digest (rsa_sig sig)) "rsa rsassa quote sig"
  else if sig_alg =? TPM_ALG_RSAPSS then verify_rsapss_quote pk (rsa_hash_alg sig) digest (rsa_sig sig)
  else Panic.
Definition verify_quote_signature (ak : Certificate) (quote_msg quote_sig : bytes) : res TpmVerifyError unit :=
  parses (2 <=? blen quote_sig) "quote_sig too short";;
  b0 ← index quote_sig 0; b1 ← index quote_sig 1;
  let alg := be_to_N [b0; b1] in
  body ← index_from quote_sig 2;
  let spki := raw_bytes (subject_public_key ak) in
  if alg =? TPM_ALG_ECDSA then verify_ecdsa_quote spki quote_msg body
  else if (alg =? TPM_ALG_RSASSA) || (alg =? TPM_ALG_RSAPSS) then verify_rsa_quote spki quote_msg alg body
  else Err (TpmVerify "unsupported TPM quote signature alg").

(** ** Certificates of the endorsement key *)
Definition verify_cert_ecdsa (e : Ecdsa) (digest issuer_pk sig_bytes : bytes) : res TpmVerifyError bool :=
  vk ← parsed (from_sec1 e issuer_pk) "issuer key"; sig ← parsed (sig_from_der e sig_bytes) "cert sig";
  Ok (verify_prehash e vk digest sig).
Definition verify_cert_rsa_pkcs1 (issuer_pk : bytes) (hash_alg : N) (tbs sig_bytes : bytes) : res TpmVerifyError bool :=
  pk ← parsed (from_pkcs1_der issuer_pk) "issuer RSA key";
  digest ← digest_for_hash_alg hash_alg tbs;
  prefix ← pkcs1v15_scheme hash_alg;
  Ok (pkcs1v15_verify pk prefix digest sig_bytes).
Definition verify_cert_rsa_pss (issuer_pk tbs sig_bytes : bytes) (hash_alg : N) : res TpmVerifyError bool :=
  pk ← parsed (from_pkcs1_der issuer_pk) "issuer RSA key";
  parses (pss_sig_from sig_bytes) "rsa pss cert sig";;
  if hash_alg =? TPM_ALG_SHA256 then Ok (pss_verify TPM_ALG_SHA256 pk (sha256 tbs) sig_bytes)
  else if hash_alg =? TPM_ALG_SHA384 then Ok (pss_verify TPM_ALG_SHA384 pk (sha384 tbs) sig_bytes)
  else Panic.
(** [r.or_else(|_| f())] *)
Definition or_else {A} (r f : res TpmVerifyError A) : res TpmVerifyError A := match r with Err _ => f | r => r end.
Definition verify_cert_sig (issuer_der subject_der : bytes) : res TpmVerifyError bool :=
  iss ← parsed (cert_from_der issuer_der) "issuer cert";
  subj ← parsed (cert_from_der subject_der) "subject cert";
  let issuer_pk := raw_bytes (subject_public_key iss) in
  let tbs := tbs_der subj in
  let sig_bytes := raw_bytes (cert_signature subj) in
  let sig_alg := alg_oid (signature_algorithm subj) in
  if bytes_eqb sig_alg (lit "1.2.840.10045.4.3.2") then verify_cert_ecdsa p256 (sha256 tbs) issuer_pk sig_bytes
  else if bytes_eqb sig_alg (lit "1.2.840.10045.4.3.3") then verify_cert_ecdsa p384 (sha384 tbs) issuer_pk sig_bytes
  else if bytes_eqb sig_alg (lit "1.2.840.113549.1.1.11") then verify_cert_rsa_pkcs1 issuer_pk TPM_ALG_SHA256 tbs sig_bytes
  else if bytes_eqb sig_alg (lit "1.2.840.113549.1.1.12") then verify_cert_rsa_pkcs1 issuer_pk TPM_ALG_SHA384 tbs sig_bytes
  else if bytes_eqb sig_alg (lit "1.2.840.113549.1.1.10") then
    or_else (verify_cert_rsa_pss issuer_pk tbs sig_bytes TPM_ALG_SHA256) (verify_cert_rsa_pss issuer_pk tbs sig_bytes TPM_ALG_SHA384)
  else Err (TpmVerify "unsupported cert signature algorithm OID").
Definition check_link (subj iss : bytes) : res TpmVerifyError bytes :=
  ok ← verify_cert_sig iss subj; verifies ok "ek_ca_chain link failed signature check";; Ok iss.
Definition verify_ek_chain (ek_der : bytes) (ca_chain pinned_roots : list bytes) : res TpmVerifyError unit :=
  verifies (negb (blen ca_chain =? 0)) "ek_ca_chain is required and must end at a pinned root";;
  parsed (cert_from_der ek_der) "ek_cert";;
  for_each check_link ek_der ca_chain;;
  root ← unwrap (last ca_chain);
  ok ← verify_cert_sig root root;
  verifies ok "ek_ca_chain root is not self-signed";;
  let root_fp := hex_encode (sha256 root) in
  verifies (existsb (fun fp => eq_ignore_ascii_case (str_trim fp) root_fp) pinned_roots) "ek_ca_chain root fingerprint is not pinned".

(** ** Credential activation *)
Definition put_str (s : bytes) : bytes := N_to_be 4 (blen s) ++ s.
Definition signed_bytes (t : TpmActivationToken) : bytes :=
  ACTIVATION_TOKEN_DOMAIN ++ N_to_be 4 (tok_version t) ++ N_to_be 8 (tok_exp t) ++ put_str (tok_nonce t) ++ put_str (tok_binding t) ++
  put_str (tok_ek_cert_sha256 t) ++ put_str (tok_ak_cert_sha256 t) ++ put_str (tok_ak_name t) ++ put_str (tok_secret_sha256 t) ++
  put_str (tok_issuer_pubkey t).
Definition names_digest (field : bytes) (b : bytes) : bool := eq_ignore_ascii_case (str_trim field) (hex_encode b).
Definition verify_activation_proof (clk : option N) (bundle : TpmClientBundle) (ek_der ak_der expected_binding : bytes)
    (options : TpmVerifierOptions) : res TpmVerifyError unit :=
  activation ← verified (b_credential_activation bundle) "credential_activation proof is required";
  let t := token activation in
  verifies (tok_version t =? 1) "unsupported credential_activation token version";;
  let now := default (default 0 clk) (opt_now options) in
  verifies (now <=? tok_exp t) "credential_activation token expired";;
  verifies (names_digest (tok_binding t) expected_binding) "credential_activation token binding mismatch";;
  verifies (names_digest (tok_ek_cert_sha256 t) (sha256 ek_der)) "credential_activation token EK certificate mismatch";;
  verifies (names_digest (tok_ak_cert_sha256 t) (sha256 ak_der)) "credential_activation token AK certificate mismatch";;
  verifies (negb ((blen (str_trim (b_ak_name bundle)) =? 0) || negb (eq_ignore_ascii_case (str_trim (tok_ak_name t)) (str_trim (b_ak_name bundle)))))
    "credential_activation token AK name mismatch";;
  secret ← parse_required_hex (secret activation) "credential_activation.secret";
  verifies (names_digest (tok_secret_sha256 t) (sha256 secret)) "credential_activation secret does not match token";;
  issuer_pubkey ← parse_hex32 (tok_issuer_pubkey t) "credential_activation.issuer_pubkey";
  verifies (existsb (bytes_eqb issuer_pubkey) (activation_pubkeys options)) "credential_activation issuer is not trusted";;
  parses (vk_valid issuer_pubkey) "activation issuer pubkey";;
  sig_bytes ← parse_required_hex (tok_sig t) "credential_activation.sig";
  parses (blen sig_bytes =? 64) "credential_activation.sig must be 64 bytes";;
  verifies (ed_verify issuer_pubkey (signed_bytes t) sig_bytes) "credential_activation token signature".
Definition verify_hardware_root (clk : option N) (bundle : TpmClientBundle) (ak_der expected_binding : bytes) (options : TpmVerifierOptions) :
    res TpmVerifyError unit :=
  verifies (negb (blen (ek_root_sha256 options) =? 0)) "desktop TPM EK root fingerprints are not configured";;
  verifies (negb (blen (activation_pubkeys options) =? 0)) "desktop TPM credential-activation signer keys are not configured";;
  ek_der ← parse_required_hex (b_ek_cert bundle) "ek_cert";
  ek_chain ← decode_hex_chain (b_ek_ca_chain bundle);
  verify_ek_chain ek_der ek_chain (ek_root_sha256 options);;
  verify_activation_proof clk bundle ek_der ak_der expected_binding options.

(** ** Verification *)
Definition desktop_build_id_hash (build_digest : bytes) : bytes := sha256 (BUILD_ID_DOMAIN ++ build_digest).
(** The measured profile: the quoted PCRs, the log, the binary in it. *)
Definition verify_ima (bundle : TpmClientBundle) (quote : ParsedQuote) (build_digest : bytes) : res TpmVerifyError (bool * option bytes) :=
  let no_log := blen (str_trim (b_ima_log bundle)) =? 0 in
  let no_pcrs := blen (b_pcrs bundle) =? 0 in
  if negb no_log || negb no_pcrs then
    verifies (negb (no_log || no_pcrs)) "IMA mode requires both pcrs and ima_log";;
    verifies ((blen (b_pcr_bank bundle) =? 0) || bytes_eqb (to_ascii_lowercase (b_pcr_bank bundle)) (lit "sha256"))
      "only the sha256 PCR bank is supported";;
    pcrs ← parse_pcrs (b_pcrs bundle);
    verify_pcr_digest quote pcrs;;
    pcr10 ← verified (pcrs !! 10) "PCR 10 not in reported pcrs";
    replayed ← replay_ima_pcr10 (b_ima_log bundle);
    verifies (bytes_eqb replayed pcr10) "IMA log does not reproduce the quoted PCR 10";;
    measured ← ima_contains_filehash (b_ima_log bundle) build_digest;
    verifies measured "build_digest was not measured by IMA (binary not in the log)";;
    boot ← boot_aggregate_over_0_9 pcrs;
    Ok (true, Some (hex_encode boot))
  else Ok (false, None).
Definition verify_bundle_with_options (clk : option N) (bundle : TpmClientBundle) (expected_binding : bytes) (options : TpmVerifierOptions) :
    res TpmVerifyError DesktopVerdict :=
  verifies (b_version bundle =? 1) "unsupported version";;
  verifies (bytes_eqb (b_platform bundle) LINUX_TPM_PLATFORM || bytes_eqb (b_platform bundle) WINDOWS_TPM_PLATFORM) "expected platform";;
  binding ← parse_hex32 (b_binding bundle) "binding";
  verifies (bytes_eqb binding expected_binding) "binding does not match expected channel binding";;
  qualifying ← parse_hex (b_qualifying_data bundle) "qualifying_data";
  verifies (bytes_eqb qualifying expected_binding) "qualifying_data does not match expected channel binding";;
  build_digest ← parse_hex32 (b_build_digest bundle) "build_digest";
  ak_der ← parse_hex (b_ak_cert bundle) "ak_cert";
  quote_msg ← parse_hex (b_quote_msg bundle) "quote_msg";
  quote_sig ← parse_hex (b_quote_sig bundle) "quote_sig";
  quote ← parse_quote quote_msg;
  verifies (bytes_eqb (extra_data quote) expected_binding) "quote extraData does not match expected channel binding";;
  ak ← parsed (cert_from_der ak_der) "ak_cert";
  verify_quote_signature ak quote_msg quote_sig;;
  verify_hardware_root clk bundle ak_der expected_binding options;;
  '(ima_verified, boot_aggregate) ← verify_ima bundle quote build_digest;
  Ok {| dv_verdict := lit "verified"; dv_platform := b_platform bundle; dv_identity_hash := hex_encode (desktop_build_id_hash build_digest);
        ima_verified := ima_verified; boot_aggregate := boot_aggregate |}.
Definition no_options : TpmVerifierOptions := {| ek_root_sha256 := []; activation_pubkeys := []; opt_now := None |}.
Definition verify_bundle (clk : option N) (bundle : TpmClientBundle) (expected_binding : bytes) : res TpmVerifyError DesktopVerdict :=
  verify_bundle_with_options clk bundle expected_binding no_options.
Definition boot_value (pcrs : gmap N bytes) (acc : gmap (N * N) bytes) (i : N) : res TpmVerifyError (gmap (N * N) bytes) :=
  v ← verified (pcrs !! i) "required PCR missing"; Ok (<[(TPM_ALG_SHA256, i) := v]> acc).
Definition verify_boot_event_log (clk : option N) (bundle : TpmClientBundle) (expected_binding : bytes) (options : TpmVerifierOptions)
    (log : EventLog) : res TpmVerifyError VerifiedBootLog :=
  verdict ← verify_bundle_with_options clk bundle expected_binding options;
  verifies (ima_verified verdict) "boot log verification requires the quoted PCR/IMA profile";;
  pcrs ← parse_pcrs (b_pcrs bundle);
  values ← for_each (boot_value pcrs) ∅ TEN;
  registers ← map_err (fun _ => TpmVerify "registers") (AuthenticatedRegisters_tpm values);
  map_err (fun _ => TpmVerify "boot log") (Replay.verify log registers).
End Verifier.

(** * Lemmas *)
(** ** Readers *)
(** The bytes [v] stand at [off], and the reader moved behind them. *)
Definition consumed (buf : bytes) (off : N) (v : bytes) (off' : N) : Prop :=
  exists p q, buf = p ++ v ++ q /\ blen p = off /\ off' = off + blen v.
(** A reader of the encoding [enc] of values that satisfy [wf]. *)
Record field {A} (f : bytes -> N -> res TpmVerifyError (A * N)) (enc : A -> bytes) (wf : A -> Prop) : Prop := {
  field_safe buf off : safe (f buf off) (fun r => wf r.1 /\ consumed buf off (enc r.1) r.2);
  field_run p a q : wf a -> f (p ++ enc a ++ q) (blen p) = Ok (a, blen p + blen (enc a));
}.
Definition sized (b : bytes) : bytes := N_to_be 2 (blen b) ++ b.

Lemma consumed_trans buf a u b v c : consumed buf a u b -> consumed buf b v c -> consumed buf a (u ++ v) c.
Proof.
  intros (p & q & -> & <- & ->) (p' & q' & Heq & Hp & ->). rewrite app_assoc in Heq. apply app_inj_1 in Heq as [<- ->].
  - exists p, q'. rewrite <- !app_assoc, blen_app. split; [done|]. split; [done|lia].
  - rewrite length_app. unfold blen in Hp. lia.
Qed.
Lemma consumed_all buf v : consumed buf 0 v (blen buf) -> buf = v.
Proof.
  intros (p & q & -> & Hp%blen_0 & Hl). subst p. rewrite app_nil_l in *. rewrite blen_app in Hl.
  assert (blen q = 0) as ->%blen_0 by lia. by rewrite app_nil_r.
Qed.
Lemma field_bytes n : field (fun buf off => read_bytes buf off n) id (fun b => blen b = n).
Proof.
  split.
  - intros buf off. unfold read_bytes. tpm. apply safe_bind, safe_ensure. intros Hl%N.leb_le. rewrite index_range_slice by lia. ok_step. cbn [safe fst snd].
    split; [rewrite blen_slice; lia|]. destruct (split_at buf off ltac:(lia)) as (p & r & -> & Hp).
    rewrite blen_app in Hl. destruct (split_at r n ltac:(lia)) as (v & q & -> & Hv). exists p, q. unfold id.
    rewrite slice_right by lia. rewrite slice_left by lia. rewrite slice_all by lia. split; [done|]. split; [done|lia].
  - intros p a q <-. unfold id, read_bytes. tpm. rewrite ensure_true by (apply N.leb_le; rewrite !blen_app; lia). ok_step.
    rewrite index_range_app by done. by ok_step.
Qed.
Lemma be_bytes (b : bytes) k : length b = k -> be_to_N b < 256 ^ N.of_nat k /\ N_to_be k (be_to_N b) = b.
Proof. intros <-. split; [apply be_to_N_bound|apply N_to_be_to_N]. Qed.
(** Read the bytes of a list of known shape. *)
Ltac index_steps := repeat (erewrite index_Some by reflexivity); repeat ok_step.
Lemma field_u16 : field read_u16 (N_to_be 2) (fun n => n < 2 ^ 16).
Proof.
  destruct (field_bytes 2) as [Hs Hr]. unfold id in *. split.
  - intros buf off. eapply safe_seq; [apply Hs|]. intros [b off'] _ [Hl Hc]. cbn [fst snd] in *. destruct b as [|b0 [|b1 [|? ?]]]; rewrite ?blen_cons, ?blen_nil in Hl; try lia.
    index_steps. destruct (be_bytes [b0; b1] 2 eq_refl) as [Hb He]. cbn [safe fst snd]. split; [exact Hb|]. by rewrite He.
  - intros p a q Ha. unfold read_u16. assert (blen (N_to_be 2 a) = 2) as Hl by (unfold blen; by rewrite length_N_to_be). rewrite Hr by done. ok_step.
    destruct (N_to_be 2 a) as [|b0 [|b1 [|? ?]]] eqn:E; rewrite ?blen_cons, ?blen_nil in Hl; try lia.
    index_steps. rewrite <- E, be_to_N_to_be by exact Ha. by rewrite E.
Qed.
Lemma field_u32 : field read_u32 (N_to_be 4) (fun n => n < 2 ^ 32).
Proof.
  destruct (field_bytes 4) as [Hs Hr]. unfold id in *. split.
  - intros buf off. eapply safe_seq; [apply Hs|]. intros [b off'] _ [Hl Hc]. cbn [fst snd] in *.
    destruct b as [|b0 [|b1 [|b2 [|b3 [|? ?]]]]]; rewrite ?blen_cons, ?blen_nil in Hl; try lia.
    index_steps. destruct (be_bytes [b0; b1; b2; b3] 4 eq_refl) as [Hb He].
    cbn [safe fst snd]. split; [exact Hb|]. by rewrite He.
  - intros p a q Ha. unfold read_u32. assert (blen (N_to_be 4 a) = 4) as Hl by (unfold blen; by rewrite length_N_to_be). rewrite Hr by done. ok_step.
    destruct (N_to_be 4 a) as [|b0 [|b1 [|b2 [|b3 [|? ?]]]]] eqn:E; rewrite ?blen_cons, ?blen_nil in Hl; try lia.
    index_steps. rewrite <- E, be_to_N_to_be by exact Ha. by rewrite E.
Qed.
Lemma N_to_be_1 n : n < 256 -> N_to_be 1 n = [byte_of n].
Proof. done. Qed.
Lemma field_u8 : field read_u8 (N_to_be 1) (fun n => n < 256).
Proof.
  split.
  - intros buf off. unfold read_u8. tpm. apply safe_bind, safe_ok_or. intros b Hb. apply get_split in Hb as (p & q & -> & <-). cbn [safe fst snd].
    split; [apply byte_N_lt|]. exists p, q. rewrite N_to_be_1 by apply byte_N_lt. by rewrite byte_of_N.
  - intros p a q Ha. unfold read_u8. tpm. rewrite N_to_be_1 by done. change ([byte_of a] ++ q) with (byte_of a :: q). rewrite get_app_blen. cbn [ok_or]. ok_step.
    rewrite byte_N_of, N.mod_small by done. done.
Qed.
Lemma field_sized : field read_tpm2b sized (fun b => blen b < 2 ^ 16).
Proof.
  split.
  - intros buf off. unfold read_tpm2b. tpm. apply safe_bind, safe_ensure. intros Hl%N.leb_le.
    destruct (split_at buf off ltac:(lia)) as (p & r & -> & <-). rewrite blen_app in Hl.
    destruct r as [|b0 [|b1 r]]; rewrite ?blen_cons, ?blen_nil in Hl; try lia. rewrite (index_Some _ (blen p) b0) by apply get_app_blen. ok_step.
    rewrite (index_Some _ (blen p + 1) b1).
    2: { replace (p ++ b0 :: b1 :: r) with ((p ++ [b0]) ++ b1 :: r) by (by rewrite <- app_assoc).
         replace (blen p + 1) with (blen (p ++ [b0])) by (by rewrite blen_app). apply get_app_blen. }
    ok_step. set (sz := be_to_N [b0; b1]). apply safe_bind, safe_ensure. intros Hs%N.leb_le. rewrite blen_app, !blen_cons in Hs.
    destruct (split_at r sz ltac:(lia)) as (v & q & -> & Hv).
    replace (p ++ b0 :: b1 :: v ++ q) with ((p ++ [b0; b1]) ++ v ++ q) by (by rewrite <- app_assoc).
    rewrite (index_range_app (p ++ [b0; b1]) v q) by (rewrite ?blen_app, <- ?Hv; reflexivity). ok_step. cbn [safe fst snd].
    destruct (be_bytes [b0; b1] 2 eq_refl) as [Hb He]. fold sz in Hb, He. split; [rewrite Hv; exact Hb|].
    exists p, q. unfold sized. rewrite Hv, He, blen_app, <- Hv, <- !app_assoc. split; [done|]. split; [done|]. change (blen [b0; b1]) with 2. lia.
  - intros p a q Ha. unfold read_tpm2b, sized. tpm. assert (blen (N_to_be 2 (blen a)) = 2) as Hl by (unfold blen at 1; by rewrite length_N_to_be).
    pose proof (be_to_N_to_be 2 (blen a) Ha) as Hsz.
    destruct (N_to_be 2 (blen a)) as [|b0 [|b1 [|? ?]]] eqn:E; rewrite ?blen_cons, ?blen_nil in Hl; try lia.
    rewrite ensure_true by (apply N.leb_le; rewrite !blen_app, !blen_cons; lia). ok_step.
    replace (p ++ ([b0; b1] ++ a) ++ q) with (p ++ b0 :: b1 :: a ++ q) by (by rewrite <- app_assoc).
    rewrite (index_Some _ (blen p) b0) by apply get_app_blen. ok_step. rewrite (index_Some _ (blen p + 1) b1).
    2: { replace (p ++ b0 :: b1 :: a ++ q) with ((p ++ [b0]) ++ b1 :: a ++ q) by (by rewrite <- app_assoc).
         replace (blen p + 1) with (blen (p ++ [b0])) by (by rewrite blen_app). apply get_app_blen. }
    ok_step. rewrite Hsz. rewrite ensure_true by (apply N.leb_le; rewrite blen_app, !blen_cons, blen_app; lia). ok_step.
    replace (p ++ b0 :: b1 :: a ++ q) with ((p ++ [b0; b1]) ++ a ++ q) by (by rewrite <- app_assoc).
    rewrite (index_range_app (p ++ [b0; b1]) a q) by (rewrite ?blen_app; reflexivity). ok_step. rewrite blen_app. change (blen [b0; b1]) with 2. do 2 f_equal. lia.
Qed.

(** ** Attestation structures *)
Record TpmsQuote : Type := {
  tq_signer : bytes; tq_extra : bytes; tq_clock : bytes; tq_selections : list (N * bytes); tq_digest : bytes;
}.
Definition encode_selection (s : N * bytes) : bytes := N_to_be 2 s.1 ++ N_to_be 1 (blen s.2) ++ s.2.
Definition encode_quote (q : TpmsQuote) : bytes :=
  N_to_be 4 TPM_GENERATED_VALUE ++ N_to_be 2 TPM_ST_ATTEST_QUOTE ++ sized (tq_signer q) ++ sized (tq_extra q) ++ tq_clock q ++
  N_to_be 4 (blen (tq_selections q)) ++ mjoin (encode_selection <$> tq_selections q) ++ sized (tq_digest q).
Definition selection_wf (s : N * bytes) : Prop := s.1 < 2 ^ 16 /\ 1 <= blen s.2 <= 3.
Record quote_wf (q : TpmsQuote) : Prop := {
  qw_sizes : blen (tq_signer q) < 2 ^ 16 /\ blen (tq_extra q) < 2 ^ 16 /\ blen (tq_digest q) < 2 ^ 16;
  qw_clock : blen (tq_clock q) = 25;
  qw_count : 1 <= blen (tq_selections q) <= 16;
  qw_selections : Forall selection_wf (tq_selections q);
  qw_banks : NoDup (tq_selections q).*1;
}.
Definition selected_of (s : N * bytes) : N * list N := (s.1, pcr_indices_from_bitmap s.2).
Definition quote_of (q : TpmsQuote) : ParsedQuote :=
  {| extra_data := tq_extra q; selections := selected_of <$> tq_selections q; pcr_digest := tq_digest q |}.
(** The state of the loop after some selections. *)
Definition selecting (off : N) (ss : list (N * bytes)) : Selecting :=
  {| sl_off := off; sl_selections := selected_of <$> ss; sl_banks := list_to_set ss.*1 |}.
Lemma selecting_snoc off ss s :
  selecting off (ss ++ [s]) = {| sl_off := off; sl_selections := (selected_of <$> ss) ++ [selected_of s]; sl_banks := {[s.1]} ∪ list_to_set ss.*1 |}.
Proof. unfold selecting. rewrite !fmap_app, list_to_set_app_L. cbn. f_equal. set_solver. Qed.
Lemma read_selection_safe attest off ss k : safe (read_selection attest (selecting off ss) k)
  (fun st => exists s off', st = selecting off' (ss ++ [s]) /\ selection_wf s /\ s.1 ∉ ss.*1 /\ consumed attest off (encode_selection s) off').
Proof.
  unfold read_selection. cbn [selecting sl_off sl_selections sl_banks].
  eapply safe_seq; [apply (field_safe _ _ _ field_u16)|]. intros [alg off1] _ [Ha C1]. eapply safe_seq; [apply (field_safe _ _ _ field_u8)|]. intros [n off2] _ [Hn C2].
  tpm. apply safe_bind, safe_ensure. intros Hg. bools. eapply safe_seq; [apply (field_safe _ _ _ (field_bytes n))|]. intros [bm off3] _ [Hb C3]. unfold id in *.
  cbn [fst snd safe] in *. exists (alg, bm), off3. rewrite selecting_snoc. split; [done|]. split; [split; cbn; [done|lia]|]. cbn [fst].
  split; [by rewrite elem_of_list_to_set in *|]. unfold encode_selection. cbn [fst snd]. rewrite Hb. eapply consumed_trans, consumed_trans; eassumption.
Qed.
Lemma read_selection_run attest pre ss s rest k : attest = pre ++ encode_selection s ++ rest -> selection_wf s -> s.1 ∉ ss.*1 ->
  read_selection attest (selecting (blen pre) ss) k = Ok (selecting (blen (pre ++ encode_selection s)) (ss ++ [s])).
Proof.
  intros -> [Ha Hb] Hnew. unfold read_selection. cbn [selecting sl_off sl_selections sl_banks]. unfold encode_selection. rewrite <- !app_assoc.
  rewrite (field_run _ _ _ field_u16) by done. ok_step. rewrite (app_assoc pre), <- (blen_app pre).
  rewrite (field_run _ _ _ field_u8) by (unfold blen in *; lia). ok_step. tpm.
  rewrite ensure_true.
  2: { rewrite !negb_orb, !andb_true_iff. split; [split|]; bools; [by rewrite elem_of_list_to_set|lia|lia]. }
  ok_step. rewrite (app_assoc (pre ++ _)), <- blen_app. rewrite (field_run _ _ _ (field_bytes _) _ s.2) by done. ok_step. unfold id.
  rewrite selecting_snoc, <- !blen_app, <- !app_assoc. done.
Qed.
Lemma selections_safe attest u off n : consumed attest 0 u off ->
  safe (for_each (read_selection attest) (selecting off []) (seq 0 n))
    (fun st => exists ss off', st = selecting off' ss /\ length ss = n /\ Forall selection_wf ss /\ NoDup ss.*1 /\
       consumed attest 0 (u ++ mjoin (encode_selection <$> ss)) off').
Proof.
  intros Hu. eapply safe_mono; [apply (safe_prefix _ (fun pre st => exists ss off', st = selecting off' ss /\ length ss = length pre /\
    Forall selection_wf ss /\ NoDup ss.*1 /\ consumed attest 0 (u ++ mjoin (encode_selection <$> ss)) off'))|].
  - exists [], off. rewrite app_nil_r. split_and!; [done|done|constructor|constructor|done].
  - intros pre k post st _ (ss & off' & -> & Hl & Hw & Hn & Hc). eapply safe_mono; [apply read_selection_safe|].
    intros st _ (s & off2 & -> & Hs & Hnew & Hc2). exists (ss ++ [s]), off2. split_and!; [done|rewrite !length_app; cbn [length]; lia| | |].
    + apply Forall_app; split; [done|by constructor].
    + rewrite fmap_app. apply NoDup_app. split_and!; [done| |apply NoDup_singleton]. by intros x Hx ->%list_elem_of_singleton.
    + rewrite fmap_app, join_app, app_assoc. cbn. rewrite app_nil_r. by eapply consumed_trans.
  - intros st _ (ss & off' & -> & Hl & H2). exists ss, off'. rewrite Hl, length_seq. by split.
Qed.
Lemma selections_run attest pre ss done rest ks : attest = pre ++ mjoin (encode_selection <$> ss) ++ rest -> length ks = length ss ->
  Forall selection_wf ss -> NoDup (done ++ ss).*1 ->
  for_each (read_selection attest) (selecting (blen pre) done) ks = Ok (selecting (blen (pre ++ mjoin (encode_selection <$> ss))) (done ++ ss)).
Proof.
  revert pre done ks. induction ss as [|s ss IH]; intros pre done ks Hd Hl Hw Hn.
  - destruct ks; [|done]. by rewrite !app_nil_r.
  - destruct ks as [|k ks]; [done|]. inversion_clear Hw as [|? ? Hs Hw']. rewrite for_each_cons. rewrite fmap_cons in *. cbn [mjoin list_join] in *.
    rewrite (read_selection_run attest pre done s (mjoin (encode_selection <$> ss) ++ rest) k); [|by rewrite Hd, <- !app_assoc|done|].
    + ok_step. rewrite (IH (pre ++ encode_selection s) (done ++ [s]) ks); [by rewrite <- !app_assoc|by rewrite Hd, <- !app_assoc|by injection Hl|done|by rewrite <- app_assoc].
    + rewrite fmap_app, fmap_cons in Hn. apply NoDup_app in Hn as (_ & Hn & _). intros Hi. by apply (Hn s.1 Hi); left.
Qed.
(** The reader of quotes accepts exactly the encodings. *)
Definition quote_encoding (m : bytes) (q : TpmsQuote) : Prop := quote_wf q /\ m = sized (encode_quote q) /\ blen (encode_quote q) < 2 ^ 16.
Lemma quote_of_safe m : safe (parse_quote m) (fun p => exists q, quote_encoding m q /\ p = quote_of q).
Proof.
  unfold parse_quote. tpm. apply safe_bind, safe_ensure. intros _.
  eapply safe_seq; [apply (field_safe _ _ _ field_sized)|]. intros [attest stop] _ [Hal Hac]. cbn [fst snd] in *.
  apply safe_bind, safe_ensure. intros ->%N.eqb_eq. apply consumed_all in Hac. subst m.
  eapply safe_seq; [apply (field_safe _ _ _ field_u32)|]. intros [magic o1] _ [_ C1]. apply safe_bind, safe_ensure. intros ->%N.eqb_eq.
  eapply safe_seq; [apply (field_safe _ _ _ field_u16)|]. intros [typ o2] _ [_ C2]. apply safe_bind, safe_ensure. intros ->%N.eqb_eq.
  eapply safe_seq; [apply (field_safe _ _ _ field_sized)|]. intros [sg o3] _ [H3 C3].
  eapply safe_seq; [apply (field_safe _ _ _ field_sized)|]. intros [extra o4] _ [H4 C4].
  unfold skip. apply safe_bind. eapply safe_seq; [apply (field_safe _ _ _ (field_bytes (17 + 8)))|]. intros [clk o5] _ [H5 C5]. cbn [safe].
  eapply safe_seq; [apply (field_safe _ _ _ field_u32)|]. intros [count o6] _ [H6 C6]. apply safe_bind, safe_ensure. intros Hc. bools.
  unfold id in *. cbn [fst snd] in *.
  pose proof (consumed_trans _ _ _ _ _ _ (consumed_trans _ _ _ _ _ _ (consumed_trans _ _ _ _ _ _ (consumed_trans _ _ _ _ _ _ (consumed_trans _ _ _ _ _ _ C1 C2) C3) C4) C5) C6) as C.
  change {| sl_off := o6; sl_selections := []; sl_banks := ∅ |} with (selecting o6 []).
  eapply safe_seq; [by eapply selections_safe|]. intros st _ (ss & o7 & -> & Hl & Hw & Hn & C7). cbn [selecting sl_off sl_selections].
  eapply safe_seq; [apply (field_safe _ _ _ field_sized)|]. intros [digest stop] _ [H8 C8]. cbn [fst snd] in *.
  apply safe_bind, safe_ensure. intros ->%N.eqb_eq. pose proof (consumed_trans _ _ _ _ _ _ C7 C8) as Hall. apply consumed_all in Hall. cbn [safe].
  assert (blen ss = count) as Hbl by (unfold blen; lia).
  exists {| tq_signer := sg; tq_extra := extra; tq_clock := clk; tq_selections := ss; tq_digest := digest |}.
  assert (encode_quote {| tq_signer := sg; tq_extra := extra; tq_clock := clk; tq_selections := ss; tq_digest := digest |} = attest) as E.
  { unfold encode_quote. cbn [tq_signer tq_extra tq_clock tq_selections tq_digest]. rewrite Hbl, Hall at 1. by rewrite <- !app_assoc. }
  split; [|done]. unfold quote_encoding. rewrite E. split; [|done]. split; cbn; [done|done|lia|done|done].
Qed.
Lemma parse_quote_run m q : quote_encoding m q -> parse_quote m = Ok (quote_of q).
Proof.
  intros ([(H1 & H2 & H3) H4 H5 H6 H7] & -> & Hl). unfold parse_quote. tpm.
  assert (blen (sized (encode_quote q)) = 2 + blen (encode_quote q)) as Hsl by (unfold sized; rewrite blen_app; f_equal; unfold blen; by rewrite length_N_to_be).
  rewrite ensure_true by (apply N.leb_le; lia). ok_step.
  pose proof (field_run _ _ _ field_sized [] (encode_quote q) [] Hl) as Hrun. rewrite app_nil_l, app_nil_r in Hrun. change (blen []) with 0 in Hrun. rewrite Hrun. ok_step.
  rewrite N.add_0_l, N.eqb_refl. cbn [ensure]. ok_step. set (attest := encode_quote q).
  assert (forall A f enc wf p (a : A) r, field f enc wf -> wf a -> attest = p ++ enc a ++ r -> f attest (blen p) = Ok (a, blen (p ++ enc a))) as Hf.
  { intros A f enc wf p a r Hfd Hw ->. rewrite blen_app. by apply (field_run _ _ _ Hfd). }
  change (read_u32 attest 0) with (read_u32 attest (blen (@nil byte))). erewrite (Hf _ _ _ _ [] TPM_GENERATED_VALUE _ field_u32); [|done|reflexivity]. ok_step. rewrite N.eqb_refl. cbn [ensure]. ok_step.
  erewrite (Hf _ _ _ _ _ TPM_ST_ATTEST_QUOTE _ field_u16); [|done|by rewrite <- !app_assoc; reflexivity]. ok_step. rewrite N.eqb_refl. cbn [ensure]. ok_step.
  erewrite (Hf _ _ _ _ _ (tq_signer q) _ field_sized); [|done|by rewrite <- !app_assoc; reflexivity]. ok_step.
  erewrite (Hf _ _ _ _ _ (tq_extra q) _ field_sized); [|done|by rewrite <- !app_assoc; reflexivity]. ok_step.
  unfold skip. erewrite (Hf _ _ _ _ _ (tq_clock q) _ (field_bytes (17 + 8))); [|done|by unfold id; rewrite <- !app_assoc; reflexivity]. do 2 ok_step.
  erewrite (Hf _ _ _ _ _ (blen (tq_selections q)) _ field_u32); [|eapply N.le_lt_trans; [apply H5|done]|by unfold id; rewrite <- !app_assoc; reflexivity]. ok_step.
  rewrite ensure_true by (apply andb_true_iff; split; bools; lia). ok_step.
  match goal with |- context [for_each _ {| sl_off := ?o; sl_selections := []; sl_banks := ∅ |} _] =>
    change {| sl_off := o; sl_selections := []; sl_banks := ∅ |} with (selecting o []) end.
  erewrite selections_run; [|by unfold id; rewrite <- !app_assoc; reflexivity|rewrite length_seq; unfold blen; lia|done|done]. ok_step.
  cbn [selecting sl_off sl_selections app]. erewrite (Hf _ _ _ _ _ (tq_digest q) [] field_sized); [|done|unfold id; rewrite app_nil_r, <- !app_assoc; reflexivity]. ok_step.
  rewrite ensure_true; [by ok_step|]. apply N.eqb_eq. f_equal. unfold id. by rewrite <- !app_assoc.
Qed.
Lemma parse_quote_exact m : decides (parse_quote m) (exists q, quote_encoding m q) (fun p => exists q, quote_encoding m q /\ p = quote_of q).
Proof.
  pose proof (quote_of_safe m) as Hs. destruct (parse_quote m) as [p|e| |] eqn:Hp; [|intros [q Hq]|done..].
  - destruct Hs as (q & Hq & ->). split; by exists q.
  - by rewrite (parse_quote_run m q Hq) in Hp.
Qed.

(** ** What is signed *)
Section Spec.
Context `{H : Sha2} `{SG : Ed25519} `{X : X509} `{K : CpuCrypto} `{R : TpmRsa}.

Definition hashed (h : N) (msg d : bytes) : Prop := h = TPM_ALG_SHA256 /\ d = sha256 msg \/ h = TPM_ALG_SHA384 /\ d = sha384 msg.
(** Some signature over [msg] verifies under the key in [spki]. *)
Inductive key_signed (spki msg : bytes) : Prop :=
| signed_ecdsa e key h d sg : e = p256 \/ e = p384 -> from_sec1 e spki = Some key -> hashed h msg d -> verify_prehash e key d sg = true -> key_signed spki msg
| signed_pkcs1 pk h d sg : from_pkcs1_der spki = Some pk -> hashed h msg d ->
    pkcs1v15_verify pk (if h =? TPM_ALG_SHA256 then SHA256_DIGESTINFO else SHA384_DIGESTINFO) d sg = true -> key_signed spki msg
| signed_pss pk h d sg : from_pkcs1_der spki = Some pk -> hashed h msg d -> pss_verify h pk d sg = true -> key_signed spki msg.
Definition cert_signed (iss_der subj_der : bytes) : Prop :=
  exists iss subj, cert_from_der iss_der = Some iss /\ cert_from_der subj_der = Some subj /\
    key_signed (raw_bytes (subject_public_key iss)) (tbs_der subj).

Lemma digest_for_safe h msg : safe (digest_for_hash_alg h msg) (hashed h msg).
Proof.
  unfold digest_for_hash_alg, hashed. destruct (N.eqb_spec h TPM_ALG_SHA256); [by left|]. destruct (N.eqb_spec h TPM_ALG_SHA384); [by right|done].
Qed.
Lemma scheme_safe h : safe (pkcs1v15_scheme h) (fun p => p = if h =? TPM_ALG_SHA256 then SHA256_DIGESTINFO else SHA384_DIGESTINFO).
Proof. unfold pkcs1v15_scheme. destruct (h =? TPM_ALG_SHA256); [done|]. by destruct (h =? TPM_ALG_SHA384). Qed.
Lemma fixed_width_safe v width : safe (fixed_width_component v width) (fun b => blen b = width).
Proof.
  unfold fixed_width_component. apply (safe_seq _ _ (fun _ => True)).
  - destruct (width <? blen v); [|done]. apply safe_index_from; [|done]. destruct (position _ v) as [i|] eqn:Hp; cbn; [|lia].
    apply position_Some in Hp as [Hp _]. lia.
  - intros s _ _. tpm. apply safe_bind, safe_ensure. intros Hl%N.leb_le. cbn [safe]. rewrite blen_app. unfold blen in *. rewrite length_replicate. lia.
Qed.
Lemma raw_signature_safe r s width : safe (raw_ecdsa_signature r s width) (fun b => blen b = 2 * width).
Proof.
  unfold raw_ecdsa_signature. eapply safe_seq; [apply fixed_width_safe|]. intros a _ Ha. eapply safe_seq; [apply fixed_width_safe|]. intros b _ Hb.
  cbn [safe]. cbv beta in *. rewrite blen_app. lia.
Qed.
Lemma verify_with_safe e key width sig d spki h msg : e = p256 \/ e = p384 -> from_sec1 e spki = Some key -> hashed h msg d ->
  safe (verify_with e key width sig d) (fun _ => key_signed spki msg).
Proof.
  intros He Hk Hd. unfold verify_with. tpm. eapply safe_seq; [apply raw_signature_safe|]. intros raw _ _. apply safe_bind, safe_ok_or. intros sg _.
  apply safe_ensure. intros Hv. by eapply signed_ecdsa.
Qed.
Lemma ecc_signature_safe body : safe (parse_tpm_ecc_signature body) (fun _ => True).
Proof.
  unfold parse_tpm_ecc_signature. eapply safe_seq; [apply (field_safe _ _ _ field_u16)|]. intros [alg o1] _ _.
  eapply safe_seq; [apply (field_safe _ _ _ field_sized)|]. intros [r o2] _ _. eapply safe_seq; [apply (field_safe _ _ _ field_sized)|]. by intros [s o3] _ _.
Qed.
Lemma rsa_signature_safe body : safe (parse_tpm_rsa_signature body) (fun _ => True).
Proof.
  unfold parse_tpm_rsa_signature. eapply safe_seq; [apply (field_safe _ _ _ field_u16)|]. intros [alg o1] _ _.
  eapply safe_seq; [apply (field_safe _ _ _ field_sized)|]. by intros [s o3] _ _.
Qed.
Lemma quote_signature_safe ak msg sig : safe (verify_quote_signature ak msg sig) (fun _ => key_signed (raw_bytes (subject_public_key ak)) msg).
Proof.
  unfold verify_quote_signature. tpm. apply safe_bind, safe_ensure. intros Hl%N.leb_le.
  apply safe_bind, safe_index; [lia|]. intros b0 _. apply safe_bind, safe_index; [lia|]. intros b1 _. apply safe_bind, safe_index_from; [lia|].
  set (alg := be_to_N [b0; b1]). destruct (N.eqb_spec alg TPM_ALG_ECDSA) as [_|_].
  - unfold verify_ecdsa_quote. eapply safe_seq; [apply ecc_signature_safe|]. intros sg _ _. eapply safe_seq; [apply digest_for_safe|]. intros d _ Hd.
    destruct (from_sec1 p256 _) as [k|] eqn:H1; [eapply verify_with_safe; [by left|done|done]|].
    destruct (from_sec1 p384 _) as [k|] eqn:H2; [eapply verify_with_safe; [by right|done|done]|done].
  - destruct ((alg =? TPM_ALG_RSASSA) || (alg =? TPM_ALG_RSAPSS)) eqn:Ha; [|done]. unfold verify_rsa_quote. tpm.
    eapply safe_seq; [apply rsa_signature_safe|]. intros sg _ _. eapply safe_seq; [apply digest_for_safe|]. intros d _ Hd. apply safe_bind, safe_ok_or. intros pk Hpk.
    destruct (alg =? TPM_ALG_RSASSA).
    + eapply safe_seq; [apply scheme_safe|]. intros p _ ->. apply safe_ensure. intros Hv. by eapply signed_pkcs1.
    + cbn [orb] in Ha. rewrite Ha. unfold verify_rsapss_quote. tpm. apply safe_bind, safe_ensure. intros _.
      destruct ((rsa_hash_alg sg =? TPM_ALG_SHA256) || (rsa_hash_alg sg =? TPM_ALG_SHA384)); [|done]. apply safe_ensure. intros Hv. by eapply signed_pss.
Qed.
Lemma or_else_safe {A} (r f : res TpmVerifyError A) Q : safe r Q -> safe f Q -> safe (or_else r f) Q.
Proof. by destruct r. Qed.
Lemma cert_ecdsa_safe e d msg pk sig : e = p256 \/ e = p384 -> (exists h, hashed h msg d) ->
  safe (verify_cert_ecdsa e d pk sig) (fun b => b = true -> key_signed pk msg).
Proof.
  intros He [h Hd]. unfold verify_cert_ecdsa. tpm. apply safe_bind, safe_ok_or. intros k Hk. apply safe_bind, safe_ok_or. intros sg _. cbn.
  intros Hv. by eapply signed_ecdsa.
Qed.
Lemma cert_pkcs1_safe pk h tbs sig : safe (verify_cert_rsa_pkcs1 pk h tbs sig) (fun b => b = true -> key_signed pk tbs).
Proof.
  unfold verify_cert_rsa_pkcs1. tpm. apply safe_bind, safe_ok_or. intros k Hk. eapply safe_seq; [apply digest_for_safe|]. intros d _ Hd.
  eapply safe_seq; [apply scheme_safe|]. intros p _ ->. cbn. intros Hv. by eapply signed_pkcs1.
Qed.
Lemma cert_pss_safe pk tbs sig h : h = TPM_ALG_SHA256 \/ h = TPM_ALG_SHA384 ->
  safe (verify_cert_rsa_pss pk tbs sig h) (fun b => b = true -> key_signed pk tbs).
Proof.
  intros Hh. unfold verify_cert_rsa_pss. tpm. apply safe_bind, safe_ok_or. intros k Hk. apply safe_bind, safe_ensure. intros _.
  destruct Hh as [-> | ->]; cbn; intros Hv; eapply signed_pss; try done; [by left|by right].
Qed.
Lemma verify_cert_sig_safe iss subj : safe (verify_cert_sig iss subj) (fun b => b = true -> cert_signed iss subj).
Proof.
  unfold verify_cert_sig. tpm. apply safe_bind, safe_ok_or. intros i Hi. apply safe_bind, safe_ok_or. intros s Hs.
  eapply (safe_mono _ (fun b => b = true -> key_signed (raw_bytes (subject_public_key i)) (tbs_der s))).
  2: { intros b _ Hb Ht. exists i, s. by split_and!; [..|apply Hb]. }
  repeat case_match; first [apply cert_ecdsa_safe; [by left|exists TPM_ALG_SHA256; by left]
    | apply cert_ecdsa_safe; [by right|exists TPM_ALG_SHA384; by right] | apply cert_pkcs1_safe
    | apply or_else_safe; apply cert_pss_safe; auto | done].
Qed.
(** A second hash profile is announced for PSS, but a signature that does not verify
    under SHA-256 is no error, so the second is never tried on a key that parses. *)
Lemma pss_second_profile_unused pk tbs sig : is_Some (from_pkcs1_der pk) -> pss_sig_from sig = true ->
  or_else (verify_cert_rsa_pss pk tbs sig TPM_ALG_SHA256) (verify_cert_rsa_pss pk tbs sig TPM_ALG_SHA384)
  = verify_cert_rsa_pss pk tbs sig TPM_ALG_SHA256.
Proof. intros [k Hk] Hs. unfold verify_cert_rsa_pss. tpm. by rewrite Hk, Hs. Qed.

(** ** The hardware root *)
(** Text that names the bytes in hexadecimal, in either case and with spaces around. *)
Definition names (text b : bytes) : Prop := to_ascii_lowercase (str_trim text) = to_ascii_lowercase (hex_encode b).
Lemma names_digest_spec text b : names_digest text b = true -> names text b.
Proof. unfold names_digest, eq_ignore_ascii_case, names. by intros ->%bytes_eqb_eq. Qed.
Definition hex_of (text b : bytes) : Prop := hex_decode (str_trim text) = Some b.
(** A path from [ek] to a pinned root: every certificate signed by the next, the last by
    itself. *)
Record rooted (ek : bytes) (chain roots : list bytes) : Prop := {
  rt_links i subj iss : (ek :: chain) !! i = Some subj -> (ek :: chain) !! S i = Some iss -> cert_signed iss subj;
  rt_root : exists root fp, last chain = Some root /\ cert_signed root root /\ fp ∈ roots /\ names fp (sha256 root);
}.
Record activated (clk : option N) (b : TpmClientBundle) (ek ak binding : bytes) (o : TpmVerifierOptions) : Prop := {
  ac_token : exists a pk sg sec, b_credential_activation b = Some a /\
    let t := token a in
    tok_version t = 1 /\ default (default 0 clk) (opt_now o) <= tok_exp t /\ names (tok_binding t) binding /\
    names (tok_ek_cert_sha256 t) (sha256 ek) /\ names (tok_ak_cert_sha256 t) (sha256 ak) /\
    hex_of (secret a) sec /\ names (tok_secret_sha256 t) (sha256 sec) /\
    hex_of (tok_issuer_pubkey t) pk /\ pk ∈ activation_pubkeys o /\ vk_valid pk = true /\
    hex_of (tok_sig t) sg /\ blen sg = 64 /\ ed_verify pk (signed_bytes t) sg = true;
}.
Lemma parse_hex_safe s f : safe (parse_hex s f) (hex_of s).
Proof. unfold parse_hex. tpm. by apply safe_ok_or. Qed.
Lemma parse_hex32_safe s f : safe (parse_hex32 s f) (fun b => hex_of s b /\ blen b = 32).
Proof. unfold parse_hex32. eapply safe_seq; [apply parse_hex_safe|]. intros b _ Hb. tpm. apply safe_bind, safe_ensure. by intros Hl%N.eqb_eq. Qed.
Lemma parse_required_safe s f : safe (parse_required_hex s f) (hex_of s).
Proof. unfold parse_required_hex. tpm. apply safe_bind, safe_ensure. intros _. apply parse_hex_safe. Qed.
Lemma decode_chain_safe l : safe (decode_hex_chain l) (fun ds => Forall2 hex_of l ds).
Proof.
  unfold decode_hex_chain. apply (safe_prefix _ (fun pre ds => Forall2 hex_of pre ds)); [constructor|]. intros pre x post ds _ Hd. unfold decode_link.
  eapply safe_seq; [apply parse_required_safe|]. intros v _ Hv. cbn [safe]. apply Forall2_app; [done|by constructor].
Qed.
Lemma ek_chain_safe ek chain roots : safe (verify_ek_chain ek chain roots) (fun _ => rooted ek chain roots).
Proof.
  unfold verify_ek_chain. tpm. apply safe_bind, safe_ensure. intros Hne. apply safe_bind, safe_ok_or. intros ekc _.
  eapply (safe_seq _ _ (fun _ => forall i subj iss, (ek :: chain) !! i = Some subj -> (ek :: chain) !! S i = Some iss -> cert_signed iss subj)).
  { eapply safe_mono; [apply (safe_prefix _ (fun pre subj => last (ek :: pre) = Some subj /\
      forall i sb iss, (ek :: pre) !! i = Some sb -> (ek :: pre) !! S i = Some iss -> cert_signed iss sb))|].
    - split; [done|]. by intros i sb iss _ Hi.
    - intros pre x post subj _ [Hlast Hall]. unfold check_link. eapply safe_seq; [apply verify_cert_sig_safe|]. intros ok _ Hok. tpm.
      apply safe_bind, safe_ensure. intros ->. cbn [safe]. rewrite app_comm_cons. split; [apply last_snoc|]. intros i sb iss Hi Hs.
      destruct (decide (S i < length (ek :: pre))%nat) as [Hlt|Hge].
      + rewrite lookup_app_l in Hi, Hs by lia. by eapply Hall.
      + pose proof (lookup_lt_Some _ _ _ Hs) as Hlt. rewrite length_app in Hlt. cbn [length] in *.
        assert (i = length pre) as -> by lia. rewrite lookup_app_r in Hs by (cbn; lia). cbn [length] in Hs. rewrite Nat.sub_diag in Hs. injection Hs as <-.
        rewrite lookup_app_l in Hi by (cbn; lia). rewrite last_lookup in Hlast. cbn [length pred] in Hlast. rewrite Hlast in Hi. injection Hi as <-. by apply Hok.
    - by intros subj _ [_ Hall]. }
  intros _ _ Hl. apply safe_bind, safe_unwrap. destruct (last chain) as [root|] eqn:Hr.
  2: { apply last_None in Hr as ->. done. }
  exists root. split; [done|]. eapply safe_seq; [apply verify_cert_sig_safe|]. intros ok _ Hok. apply safe_bind, safe_ensure. intros ->.
  apply safe_ensure. intros (fp & Hin & Hfp)%existsb_exists. split; [done|]. exists root, fp. split; [done|]. split; [by apply Hok|].
  split; [by apply list_elem_of_In|by apply names_digest_spec].
Qed.
Lemma activation_safe clk b ek ak binding o : safe (verify_activation_proof clk b ek ak binding o) (fun _ => activated clk b ek ak binding o).
Proof.
  unfold verify_activation_proof. tpm. apply safe_bind, safe_ok_or. intros a Ha. apply safe_bind, safe_ensure. intros Hv%N.eqb_eq.
  apply safe_bind, safe_ensure. intros Hexp%N.leb_le. apply safe_bind, safe_ensure. intros Hb%names_digest_spec. apply safe_bind, safe_ensure. intros He%names_digest_spec.
  apply safe_bind, safe_ensure. intros Hk%names_digest_spec. apply safe_bind, safe_ensure. intros _.
  eapply safe_seq; [apply parse_required_safe|]. intros sec _ Hsec. apply safe_bind, safe_ensure. intros Hs%names_digest_spec.
  eapply safe_seq; [apply parse_hex32_safe|]. intros pk _ [Hpk _]. apply safe_bind, safe_ensure. intros (pk' & Hin & ->%bytes_eqb_eq)%existsb_exists.
  apply safe_bind, safe_ensure. intros Hvk. eapply safe_seq; [apply parse_required_safe|]. intros sg _ Hsg.
  apply safe_bind, safe_ensure. intros Hl%N.eqb_eq. apply safe_ensure. intros Hed. split. exists a, pk', sg, sec. split; [done|]. cbv zeta.
  apply list_elem_of_In in Hin. by split_and!.
Qed.

(** ** PCRs and the IMA log *)
Definition pcrs_at (pcrs : gmap N bytes) (sel : list N) (vs : list bytes) : Prop := Forall2 (fun i v => pcrs !! i = Some v) sel vs.
Lemma collect_values_safe pcrs sel : safe (for_each (collect_value pcrs) [] sel) (fun all => exists vs, pcrs_at pcrs sel vs /\ all = mjoin vs).
Proof.
  apply (safe_prefix _ (fun pre all => exists vs, pcrs_at pcrs pre vs /\ all = mjoin vs)); [by exists []; split; [constructor|]|].
  intros pre i post all _ (vs & Hvs & ->). unfold collect_value. tpm. apply safe_bind, safe_ok_or. intros v Hv. cbn [safe].
  exists (vs ++ [v]). split; [apply Forall2_app; [done|by constructor]|]. rewrite join_app. cbn. by rewrite app_nil_r.
Qed.
(** A map of PCR values as reported: the values of the list and nothing else, each of
    index 0..23 and of 32 bytes. *)
Definition reported (l : list PcrValue) (pcrs : gmap N bytes) : Prop :=
  (forall p, p ∈ l -> exists v, hex_of (pv_value p) v /\ pcrs !! pv_index p = Some v) /\
  (forall i v, pcrs !! i = Some v -> i <= 23 /\ blen v = 32 /\ i ∈ pv_index <$> l).
Lemma reported_safe l : safe (parse_pcrs l) (reported l).
Proof.
  unfold parse_pcrs. tpm. apply safe_bind, safe_ensure. intros _. apply (safe_prefix _ (fun pre m => reported pre m)).
  - split; [by intros p Hp%not_elem_of_nil|]. intros i v. by rewrite lookup_empty.
  - intros pre p post m _ [H1 H2]. unfold insert_pcr_value. tpm. apply safe_bind, safe_ensure. intros Hi%N.leb_le.
    eapply safe_seq; [apply parse_hex32_safe|]. intros v _ [Hv Hl]. apply safe_bind, safe_ensure. intros Hn%bool_decide_eq_true. cbn [safe]. split.
    + intros p' [Hp| ->%list_elem_of_singleton]%elem_of_app; [|by exists v; rewrite lookup_insert_eq]. destruct (H1 p' Hp) as (v' & Hv' & Hm).
      exists v'. split; [done|]. rewrite lookup_insert_ne; [done|]. intros E. rewrite E in Hn. by rewrite Hn in Hm.
    + intros i u. rewrite fmap_app, elem_of_app. destruct (decide (i = pv_index p)) as [->|Hne].
      * rewrite lookup_insert_eq. intros [= <-]. split_and!; [done|done|right; by left].
      * rewrite lookup_insert_ne by done. intros (Hr1 & Hr2 & Hr3)%H2. split_and!; [done|done|by left].
Qed.
Definition entry_ok (e : ImaNgEntry) : Prop :=
  template_digest e = sha256 (ima_template (file_digest e) (filename e)) /\ blen (file_digest e) = 32 /\ blen (filename e) <= 4096.
Lemma parse_ima_safe log : safe (parse_ima_ng log) (fun es => es <> [] /\ Forall entry_ok es).
Proof.
  unfold parse_ima_ng. tpm. apply safe_bind, safe_ensure. intros _. apply (safe_seq _ _ (fun es => Forall entry_ok es)).
  - apply safe_for_each; [constructor|]. intros es line _ Hes. unfold parse_ima_line. destruct (blen line =? 0); [done|]. tpm.
    apply safe_bind, safe_ensure. intros _. destruct (split_ascii_whitespace line) as [|p [|h [|pr [|d [|n [|? ?]]]]]]; try done.
    apply safe_bind, safe_ensure. intros _. eapply safe_seq; [apply parse_hex32_safe|]. intros logged _ _. apply safe_bind, safe_ok_or. intros dt _.
    eapply safe_seq; [apply parse_hex32_safe|]. intros fd _ [_ Hl]. apply safe_bind, safe_ensure. intros Hn. apply safe_bind, safe_ensure. intros _.
    cbn [safe]. apply Forall_app. split; [done|]. constructor; [|constructor]. bools. by split_and!.
  - intros es _ Hes. apply safe_bind, safe_ensure. intros Hne. cbn [safe]. split; [by intros ->|done].
Qed.
Definition ima_pcr10 (es : list ImaNgEntry) : bytes := foldl (fun pcr e => sha256 (pcr ++ template_digest e)) (replicate 32 x00) es.
(** What the quoted PCRs and the log say about the running binary. *)
Record ima_evidence (b : TpmClientBundle) (q : TpmsQuote) (build boot : bytes) : Prop := {
  ie_all : exists pcrs es sel vs, reported (b_pcrs b) pcrs /\
    selections (quote_of q) = [(TPM_ALG_SHA256, sel)] /\ pcrs_at pcrs sel vs /\ blen sel = N.of_nat (size pcrs) /\ tq_digest q = sha256 (mjoin vs) /\
    parse_ima_ng (b_ima_log b) = Ok es /\ pcrs !! 10 = Some (ima_pcr10 es) /\
    (exists e, e ∈ es /\ file_digest e = build /\ filename e <> lit "boot_aggregate") /\
    exists bs, pcrs_at pcrs TEN bs /\ boot = hex_encode (sha256 (mjoin bs));
}.
Lemma pcr_digest_safe q pcrs : safe (verify_pcr_digest (quote_of q) pcrs) (fun _ => exists sel vs,
  selections (quote_of q) = [(TPM_ALG_SHA256, sel)] /\ pcrs_at pcrs sel vs /\ blen sel = N.of_nat (size pcrs) /\ tq_digest q = sha256 (mjoin vs)).
Proof.
  unfold verify_pcr_digest. tpm. apply (safe_seq _ _ (fun one => one = true -> exists sel, selections (quote_of q) = [(TPM_ALG_SHA256, sel)])).
  { destruct (selections (quote_of q)) as [|[alg sel] [|? ?]] eqn:Es; [done| |].
    - cbn [blen length N.of_nat negb N.eqb]. erewrite index_Some by reflexivity. ok_step. cbn [safe fst]. intros ->%N.eqb_eq. by exists sel.
    - rewrite !blen_cons. by destruct (N.eqb_spec (1 + (1 + blen l)) 1); [lia|]. }
  intros one _ Hone. apply safe_bind, safe_ensure. intros ->. destruct (Hone eq_refl) as [sel Es]. rewrite Es. cbn [List.find fst snd]. rewrite N.eqb_refl.
  apply safe_bind, safe_ok_or. intros indices [= <-]. apply safe_bind, safe_ensure. intros Hc. bools.
  eapply safe_seq; [apply collect_values_safe|]. intros all _ (vs & Hvs & ->). apply safe_ensure. intros Hd%bytes_eqb_eq. by exists sel, vs.
Qed.
Lemma verify_ima_safe b q build : safe (verify_ima b (quote_of q) build)
  (fun r => r.1 = false /\ r.2 = None \/ r.1 = true /\ exists boot, r.2 = Some boot /\ ima_evidence b q build boot).
Proof.
  unfold verify_ima. destruct (negb _ || negb _); [|by left]. tpm. apply safe_bind, safe_ensure. intros _. apply safe_bind, safe_ensure. intros _.
  eapply safe_seq; [apply reported_safe|]. intros pcrs _ Hrep. eapply safe_seq; [apply pcr_digest_safe|]. intros [] _ (sel & vs & Hsel & Hvs & Hsz & Hdig).
  apply safe_bind, safe_ok_or. intros pcr10 H10. unfold replay_ima_pcr10, ima_contains_filehash.
  apply safe_bind. eapply safe_seq; [apply parse_ima_safe|]. intros es He _. cbn [safe]. fold (ima_pcr10 es).
  apply safe_bind, safe_ensure. intros Hr%bytes_eqb_eq. rewrite He. ok_step. ok_step. apply safe_bind, safe_ensure.
  intros (e & Hin & [Hn Hf]%andb_true_iff)%existsb_exists. unfold boot_aggregate_over_0_9. apply safe_bind.
  eapply safe_seq; [apply collect_values_safe|]. intros all _ (bs & Hbs & ->). cbn [safe fst snd]. right. split; [done|]. eexists. split; [done|]. split.
  exists pcrs, es, sel, vs. split_and!; [done|done|done|done|done|done|by rewrite H10, <- Hr| |by exists bs].
  exists e. split; [by apply list_elem_of_In|]. apply negb_true_iff, bytes_eqb_neq in Hn. by apply bytes_eqb_eq in Hf.
Qed.

(** ** Bundles *)
(** What a verdict about a bundle means. *)
Record tpm_evidence (clk : option N) (b : TpmClientBundle) (binding : bytes) (o : TpmVerifierOptions) (v : DesktopVerdict)
    (q : TpmsQuote) (build : bytes) : Prop := {
  tv_quote : exists msg ak_der ak ek chain, hex_of (b_quote_msg b) msg /\ quote_encoding msg q /\
    hex_of (b_ak_cert b) ak_der /\ cert_from_der ak_der = Some ak /\ key_signed (raw_bytes (subject_public_key ak)) msg /\
    hex_of (b_ek_cert b) ek /\ Forall2 hex_of (b_ek_ca_chain b) chain /\ rooted ek chain (ek_root_sha256 o) /\
    activated clk b ek ak_der binding o;
  tv_binding : tq_extra q = binding /\ hex_of (b_binding b) binding /\ hex_of (b_qualifying_data b) binding;
  tv_build : hex_of (b_build_digest b) build /\ blen build = 32 /\ dv_identity_hash v = hex_encode (desktop_build_id_hash build);
  tv_platform : dv_platform v = b_platform b /\ (b_platform b = LINUX_TPM_PLATFORM \/ b_platform b = WINDOWS_TPM_PLATFORM);
  tv_ima : ima_verified v = true -> exists boot, boot_aggregate v = Some boot /\ ima_evidence b q build boot;
}.
Lemma hardware_root_safe clk b ak binding o : safe (verify_hardware_root clk b ak binding o) (fun _ => exists ek chain,
  hex_of (b_ek_cert b) ek /\ Forall2 hex_of (b_ek_ca_chain b) chain /\ rooted ek chain (ek_root_sha256 o) /\ activated clk b ek ak binding o).
Proof.
  unfold verify_hardware_root. tpm. apply safe_bind, safe_ensure. intros _. apply safe_bind, safe_ensure. intros _.
  eapply safe_seq; [apply parse_required_safe|]. intros ek _ He. eapply safe_seq; [apply decode_chain_safe|]. intros chain _ Hc.
  eapply safe_seq; [apply ek_chain_safe|]. intros [] _ Hr. eapply safe_mono; [apply activation_safe|]. intros [] _ Ha. by exists ek, chain.
Qed.
Lemma verify_bundle_safe clk b binding o :
  safe (verify_bundle_with_options clk b binding o) (fun v => exists q build, tpm_evidence clk b binding o v q build).
Proof.
  unfold verify_bundle_with_options. tpm. apply safe_bind, safe_ensure. intros _. apply safe_bind, safe_ensure. intros Hp.
  eapply safe_seq; [apply parse_hex32_safe|]. intros bd _ [Hb _]. apply safe_bind, safe_ensure. intros ->%bytes_eqb_eq.
  eapply safe_seq; [apply parse_hex_safe|]. intros qd _ Hqd. apply safe_bind, safe_ensure. intros ->%bytes_eqb_eq.
  eapply safe_seq; [apply parse_hex32_safe|]. intros build _ [Hbuild Hbl]. eapply safe_seq; [apply parse_hex_safe|]. intros ak_der _ Hak.
  eapply safe_seq; [apply parse_hex_safe|]. intros msg _ Hmsg. eapply safe_seq; [apply parse_hex_safe|]. intros sg _ _.
  eapply safe_seq; [apply quote_of_safe|]. intros pq _ (q & Hq & ->). apply safe_bind, safe_ensure. intros Hx%bytes_eqb_eq.
  apply safe_bind, safe_ok_or. intros ak Hcert. eapply safe_seq; [apply quote_signature_safe|]. intros [] _ Hsig.
  eapply safe_seq; [apply hardware_root_safe|]. intros [] _ (ek & chain & Hek & Hchain & Hroot & Hact).
  eapply safe_seq; [apply verify_ima_safe|]. intros [iv ba] _ Hima. cbn [safe fst snd] in *. exists q, build.
  split; cbn [dv_platform dv_identity_hash ima_verified boot_aggregate]; [by exists msg, ak_der, ak, ek, chain|done|done| |].
  - split; [done|]. apply orb_true_iff in Hp as [Hp|Hp]; apply bytes_eqb_eq in Hp; auto.
  - intros ->. destruct Hima as [[? _]|(_ & boot & -> & Hi)]; [done|]. by exists boot.
Qed.
(** C23: what a TPM verdict means.  Verification of a bundle never panics.  When it gives
    a verdict, the quote is the encoding of an attestation structure over the expected
    channel binding, signed by the key of the AK certificate; the EK certificate has a
    path of valid signatures to a root whose fingerprint the operator pinned; and a
    token that a trusted issuer signed, and that has not expired, names this binding and
    both certificates.  When the verdict says that the binary was measured, the quote
    signs the reported PCRs, the IMA log replays to the quoted PCR 10, and the build is a
    file in it. *)
Theorem desktop_tpm_sound clk b binding o :
  safe (verify_bundle_with_options clk b binding o) (fun v => exists q build, tpm_evidence clk b binding o v q build).
Proof. apply verify_bundle_safe. Qed.

(** The values that the verifier of the boot log takes from the quoted PCRs. *)
Definition boot_registers (pcrs : gmap N bytes) (vals : gmap (N * N) bytes) : Prop :=
  forall i, i <= 9 -> exists v, pcrs !! i = Some v /\ vals !! (TPM_ALG_SHA256, i) = Some v.
Lemma boot_values_safe pcrs : safe (for_each (boot_value pcrs) ∅ TEN) (boot_registers pcrs).
Proof.
  eapply safe_mono; [apply (safe_prefix _ (fun pre vals => forall i, i ∈ pre -> exists v, pcrs !! i = Some v /\ vals !! (TPM_ALG_SHA256, i) = Some v))|].
  - by intros i Hi%not_elem_of_nil.
  - intros pre i post vals _ Hv. unfold boot_value. tpm. apply safe_bind, safe_ok_or. intros v Hi. cbn [safe].
    intros j Hj. destruct (decide (j = i)) as [->|Hne]; [exists v; by rewrite lookup_insert_eq|].
    apply elem_of_app in Hj as [Hj|Hj%list_elem_of_singleton]; [|done]. destruct (Hv j Hj) as (w & Hw & Hm). exists w.
    rewrite lookup_insert_ne by (by intros [= ->]). by split.
  - intros vals _ Hv i Hi. apply Hv. unfold TEN. rewrite !elem_of_cons. lia.
Qed.
Lemma verify_boot_log_safe `{!Sha2Laws H} clk b binding o log : log_wf log ->
  safe (verify_boot_event_log clk b binding o log) (fun vl => vlog vl = log /\ exists v q build pcrs vals,
    tpm_evidence clk b binding o v q build /\ ima_verified v = true /\ reported (b_pcrs b) pcrs /\ boot_registers pcrs vals /\
    log_matches log {| auth_kind := Tpm2; auth_values := vals |}).
Proof.
  intros Hlog. unfold verify_boot_event_log. tpm. eapply safe_seq; [apply verify_bundle_safe|]. intros v _ (q & build & He).
  apply safe_bind, safe_ensure. intros Hi. eapply safe_seq; [apply reported_safe|]. intros pcrs _ Hr.
  eapply safe_seq; [apply boot_values_safe|]. intros vals _ Hv. apply safe_bind, safe_map_err. eapply safe_mono; [apply tpm_registers_safe|].
  intros [k vs] _ [Hk Hvs]. cbn in Hk, Hvs. subst k vs. apply safe_map_err.
  eapply safe_mono; [apply (decides_safe _ _ _ (decides_verify log _ (log_wf_registers _ Hlog)))|]. intros vl _ [Hm [Hl _]]. split; [done|].
  by exists v, q, build, pcrs, vals.
Qed.

(** ** The log is determined by the register *)
Lemma ima_template_inj d1 f1 d2 f2 : blen d1 = 32 -> blen d2 = 32 -> ima_template d1 f1 = ima_template d2 f2 -> d1 = d2 /\ f1 = f2.
Proof.
  intros H1 H2 Heq. unfold ima_template in Heq. do 2 apply app_inv_head in Heq. apply app_inj_1 in Heq as [-> Heq]; [|unfold blen in *; lia].
  apply app_inj_1 in Heq as [_ Heq]; [|by rewrite !length_N_to_le]. split; [done|]. by apply app_inj_tail in Heq as [-> _].
Qed.
Lemma ima_pcr10_extend es : ima_pcr10 es = foldl (extend TPM_ALG_SHA256) (replicate 32 x00) (template_digest <$> es).
Proof.
  unfold ima_pcr10. generalize (replicate 32 x00). induction es as [|e es IH]; intros v; [done|]. cbn [foldl fmap list_fmap]. by rewrite IH.
Qed.
(** The messages that an IMA log hashes: the templates and the extends of PCR 10. *)
Definition template_of (e : ImaNgEntry) : bytes := ima_template (file_digest e) (filename e).
Definition ima_messages (es : list ImaNgEntry) : list bytes :=
  extend_messages TPM_ALG_SHA256 (replicate 32 x00) (template_digest <$> es) ++ (template_of <$> es).
Definition measured_files (es : list ImaNgEntry) : list (bytes * bytes) := (fun e => (file_digest e, filename e)) <$> es.
Lemma same_templates es1 es2 : Forall entry_ok es1 -> Forall entry_ok es2 -> template_digest <$> es1 = template_digest <$> es2 ->
  measured_files es1 = measured_files es2 \/ collision_among sha256 (template_of <$> es1) (template_of <$> es2).
Proof.
  intros H1. revert es2. induction H1 as [|e1 es1 (Ht1 & Hd1 & _) H1 IH]; intros [|e2 es2] H2; [by left|done..|].
  inversion_clear H2 as [|? ? (Ht2 & Hd2 & _) H2']. rewrite !fmap_cons. intros [= He Hes]. rewrite Ht1, Ht2 in He.
  apply eq_or_collision in He as [He|Hc]; [|right; by apply collision_here].
  apply ima_template_inj in He as [Hd Hf]; [|done..].
  destruct (IH es2 H2' Hes) as [Hm|Hc]; [left|right; eapply collision_among_mono, Hc; set_solver]. unfold measured_files in *. rewrite !fmap_cons, Hm. by rewrite Hd, Hf.
Qed.
Lemma ima_files_determined `{!Sha2Laws H} es1 es2 : Forall entry_ok es1 -> Forall entry_ok es2 -> ima_pcr10 es1 = ima_pcr10 es2 ->
  measured_files es1 = measured_files es2 \/ collision_among sha256 (ima_messages es1) (ima_messages es2) \/
  preimage_among sha256 (ima_messages es1 ++ ima_messages es2) (replicate 32 x00).
Proof.
  intros H1 H2. rewrite !ima_pcr10_extend. intros Heq. apply foldl_extend_binding in Heq; [|done..].
  unfold ima_messages. destruct Heq as [[_ Heq]|[Hc|[Hp|Hp]]]; [|right..].
  - destruct (same_templates _ _ H1 H2 Heq) as [|Hc]; [by left|right; left]. eapply collision_among_mono, Hc; set_solver.
  - left. eapply collision_among_mono, Hc; set_solver.
  - right. eapply preimage_among_mono, Hp; set_solver.
  - right. eapply preimage_among_mono, Hp; set_solver.
Qed.
(** The values of given registers follow from the digest that a quote signs. *)
Lemma quoted_values pcrs1 pcrs2 sel vs1 vs2 : pcrs_at pcrs1 sel vs1 -> pcrs_at pcrs2 sel vs2 ->
  (forall i v, pcrs1 !! i = Some v -> blen v = 32) -> (forall i v, pcrs2 !! i = Some v -> blen v = 32) ->
  mjoin vs1 = mjoin vs2 -> vs1 = vs2.
Proof.
  intros H1. revert vs2. induction H1 as [|i v1 sel vs1 Hv1 H1 IH]; intros vs2 H2 Hl1 Hl2; inversion H2 as [|? v2 ? vs2' Hv2 H2']; subst; [done|].
  cbn. intros Heq. apply app_inj_1 in Heq as [-> Heq]; [|pose proof (Hl1 _ _ Hv1); pose proof (Hl2 _ _ Hv2); unfold blen in *; lia].
  f_equal. by eapply IH.
Qed.
(** A quote that covers as many registers as were reported covers each of them. *)
Lemma bitmap_bits k bm : NoDup (mjoin (byte_bits <$> zip (seq k (length bm)) bm)) /\
  forall x, x ∈ mjoin (byte_bits <$> zip (seq k (length bm)) bm) -> N.of_nat k * 8 <= x.
Proof.
  revert k. induction bm as [|b bm IH]; intros k; [split; [constructor|by intros x Hx%not_elem_of_nil]|]. cbn [length seq zip zip_with].
  rewrite fmap_cons. cbn [mjoin list_join]. destruct (IH (S k)) as [Hn Hge].
  assert (forall x, x ∈ byte_bits (k, b) -> N.of_nat k * 8 <= x < N.of_nat (S k) * 8) as Hb.
  { intros x (bit & -> & Hbit)%list_elem_of_fmap. apply list_elem_of_filter in Hbit as [_ Hbit]. rewrite !elem_of_cons in Hbit. cbn [fst].
    assert (bit <= 7) by (destruct Hbit as [->|[->|[->|[->|[->|[->|[->|[->|Hx%not_elem_of_nil]]]]]]]]; done). lia. }
  split.
  - apply NoDup_app. split_and!; [|intros x Hx%Hb Hx'%Hge; lia|done]. unfold byte_bits. apply NoDup_fmap_2; [intros x y Hxy; lia|].
    apply NoDup_filter. by apply (bool_decide_unpack _); vm_compute.
  - intros x [Hx%Hb|Hx%Hge]%elem_of_app; lia.
Qed.
Lemma indices_nodup bm : NoDup (pcr_indices_from_bitmap bm).
Proof. unfold pcr_indices_from_bitmap. rewrite merge_sort_Permutation. apply (bitmap_bits 0). Qed.
Lemma covers_all (pcrs : gmap N bytes) (sel : list N) vs i : NoDup sel -> pcrs_at pcrs sel vs -> blen sel = N.of_nat (size pcrs) -> is_Some (pcrs !! i) -> i ∈ sel.
Proof.
  intros Hn Hv Hl Hi. assert ((list_to_set sel : gset N) ⊆ dom pcrs) as Hsub.
  { intros j Hj%elem_of_list_to_set. apply list_elem_of_lookup in Hj as [k Hk]. destruct (Forall2_lookup_l _ _ _ _ _ Hv Hk) as (v & _ & Hp). by apply elem_of_dom_2 in Hp. }
  assert (dom pcrs ⊆ (list_to_set sel : gset N)) as Hsup.
  { rewrite (set_subseteq_size_eq _ _ Hsub); [done|]. rewrite size_dom, size_list_to_set by done. unfold blen in Hl. lia. }
  apply elem_of_dom, Hsup in Hi. by apply elem_of_list_to_set in Hi.
Qed.
(** The signed PCR digest fixes what was measured.  If two bundles are accepted as
    measured and their quotes sign the same digest over the same selection,
    the IMA logs list the same files with the same digests in the same
    order, unless the concatenated PCR values collide under SHA-256, or two of the
    messages that the logs hash do, or one of these hashes to the reset value. *)
Theorem desktop_same_files `{!Sha2Laws H} b1 b2 q1 q2 build1 build2 boot1 boot2 es1 es2 :
  ima_evidence b1 q1 build1 boot1 -> ima_evidence b2 q2 build2 boot2 ->
  tq_digest q1 = tq_digest q2 -> selections (quote_of q1) = selections (quote_of q2) ->
  parse_ima_ng (b_ima_log b1) = Ok es1 -> parse_ima_ng (b_ima_log b2) = Ok es2 ->
  measured_files es1 = measured_files es2 \/
  collision_among sha256 (ima_messages es1) (ima_messages es2) \/
  preimage_among sha256 (ima_messages es1 ++ ima_messages es2) (replicate 32 x00) \/
  exists pcrs1 pcrs2 sel vs1 vs2, reported (b_pcrs b1) pcrs1 /\ reported (b_pcrs b2) pcrs2 /\
    selections (quote_of q1) = [(TPM_ALG_SHA256, sel)] /\ pcrs_at pcrs1 sel vs1 /\ pcrs_at pcrs2 sel vs2 /\
    collision sha256 (mjoin vs1) (mjoin vs2).
Proof.
  intros [(pcrs1 & es1' & sel1 & vs1 & Hrep1 & Hs1 & Hv1 & Hz1 & Hd1 & Hp1 & H101 & _)] [(pcrs2 & es2' & sel2 & vs2 & Hrep2 & Hs2 & Hv2 & _ & Hd2 & Hp2 & H102 & _)].
  pose proof Hrep1 as [_ Hr1]. pose proof Hrep2 as [_ Hr2]. intros Hd Hs E1 E2. rewrite E1 in Hp1. injection Hp1 as <-. rewrite E2 in Hp2. injection Hp2 as <-.
  rewrite Hs1, Hs2 in Hs. injection Hs as <-.
  assert (10 ∈ sel1) as H10.
  { apply (covers_all pcrs1 sel1 vs1 10); [|done|done|by eexists]. unfold quote_of in Hs1. cbn [selections] in Hs1.
    destruct (tq_selections q1) as [|[alg bm] [|? ?]]; [done| |done]. injection Hs1 as _ <-. apply indices_nodup. }
  rewrite Hd1, Hd2 in Hd.
  apply eq_or_collision in Hd as [Hd|Hc]; [|do 3 right; by exists pcrs1, pcrs2, sel1, vs1, vs2].
  assert (vs1 = vs2) as <- by (apply (quoted_values pcrs1 pcrs2 sel1); [done|done|by intros i v (_ & ? & _)%Hr1|by intros i v (_ & ? & _)%Hr2|done]).
  cut (measured_files es1 = measured_files es2 \/ collision_among sha256 (ima_messages es1) (ima_messages es2) \/
    preimage_among sha256 (ima_messages es1 ++ ima_messages es2) (replicate 32 x00)); [tauto|].
  apply ima_files_determined.
  - by apply (safe_Ok _ _ _ (parse_ima_safe (b_ima_log b1)) E1).
  - by apply (safe_Ok _ _ _ (parse_ima_safe (b_ima_log b2)) E2).
  - apply list_elem_of_lookup in H10 as [k Hk]. destruct (Forall2_lookup_l _ _ _ _ _ Hv1 Hk) as (v & Hvk & Hp1).
    destruct (Forall2_lookup_l _ _ _ _ _ Hv2 Hk) as (v' & Hvk' & Hp2). rewrite Hvk in Hvk'. injection Hvk' as <-. congruence.
Qed.
End Spec.

(** ** A measured client *)
Definition toy_tpm_rsa : TpmRsa := {|
  TpmRsaKey := bytes; from_pkcs1_der := fun _ => None; pkcs1v15_verify := fun _ _ _ _ => false; pss_sig_from := fun _ => false; pss_verify := fun _ _ _ _ => false |}.
Definition tpm_binding : bytes := replicate 32 x0c.
Definition tpm_build : bytes := replicate 32 x5a.
Definition toy_hash : bytes -> bytes := sha256 (Sha2 := toy_sha2).
Definition agent_template : bytes := toy_hash (ima_template tpm_build (lit "/usr/bin/agent")).
Definition sample_ima_log : bytes :=
  lit "10 " ++ hex_encode agent_template ++ lit " ima-ng sha256:" ++ hex_encode tpm_build ++ lit " /usr/bin/agent" ++ [x0a].
Definition sample_pcr (i : N) : bytes := if i =? 10 then toy_hash (replicate 32 x00 ++ agent_template) else replicate 32 (byte_of i).
Definition sample_tpms : TpmsQuote := {|
  tq_signer := []; tq_extra := tpm_binding; tq_clock := replicate 25 x00; tq_selections := [(TPM_ALG_SHA256, [xff; x07; x00])];
  tq_digest := toy_hash (mjoin (sample_pcr <$> TEN ++ [10])) |}.
Definition sample_msg : bytes := sized (encode_quote sample_tpms).
(** A signature by the key of [Pki.sample_leaf]. *)
Definition sample_quote_sig : bytes :=
  N_to_be 2 TPM_ALG_ECDSA ++ N_to_be 2 TPM_ALG_SHA256 ++
  sized (take 32 (take 1 (raw_bytes (subject_public_key sample_leaf)) ++ take 8 (toy_hash sample_msg) ++ replicate 32 x00)) ++ sized (replicate 32 x00).
Definition unsigned_token : TpmActivationToken := {|
  tok_version := 1; tok_exp := 100; tok_nonce := []; tok_binding := hex_encode tpm_binding; tok_ek_cert_sha256 := hex_encode (toy_hash [x01]);
  tok_ak_cert_sha256 := hex_encode (toy_hash [x01]); tok_ak_name := lit "000b"; tok_secret_sha256 := hex_encode (toy_hash [x77]);
  tok_issuer_pubkey := hex_encode (N_to_le 32 5); tok_sig := [] |}.
Definition sample_token_tpm : TpmActivationToken := {|
  tok_version := 1; tok_exp := 100; tok_nonce := []; tok_binding := hex_encode tpm_binding; tok_ek_cert_sha256 := hex_encode (toy_hash [x01]);
  tok_ak_cert_sha256 := hex_encode (toy_hash [x01]); tok_ak_name := lit "000b"; tok_secret_sha256 := hex_encode (toy_hash [x77]);
  tok_issuer_pubkey := hex_encode (N_to_le 32 5); tok_sig := hex_encode (ed_sign (Ed25519 := toy_ed25519) (5 : SigningKey (Ed25519 := toy_ed25519)) (signed_bytes unsigned_token)) |}.
Definition sample_bundle : TpmClientBundle := {|
  b_version := 1; b_platform := LINUX_TPM_PLATFORM; b_binding := hex_encode tpm_binding; b_build_digest := hex_encode tpm_build;
  b_ak_cert := lit "01"; b_ek_cert := lit "01"; b_ek_ca_chain := [lit "02"]; b_ak_name := lit "000b";
  b_credential_activation := Some {| token := sample_token_tpm; secret := lit "77" |};
  b_quote_msg := hex_encode sample_msg; b_quote_sig := hex_encode sample_quote_sig; b_qualifying_data := hex_encode tpm_binding;
  b_pcr_bank := lit "SHA256"; b_pcrs := (fun i => {| pv_index := i; pv_value := hex_encode (sample_pcr i) |}) <$> TEN ++ [10]; b_ima_log := sample_ima_log |}.
Definition sample_options : TpmVerifierOptions :=
  {| ek_root_sha256 := [hex_encode (toy_hash [x02])]; activation_pubkeys := [N_to_le 32 5]; opt_now := Some 50 |}.
Definition sample_verdict (o : TpmVerifierOptions) : res TpmVerifyError DesktopVerdict :=
  verify_bundle_with_options (H := toy_sha2) (SG := toy_ed25519) (X := toy_x509) (K := toy_cpu) (R := toy_tpm_rsa) None sample_bundle tpm_binding o.
Example sample_tpm_accepted : (v ← sample_verdict sample_options; Ok (dv_verdict v, ima_verified v)) = Ok (lit "verified", true).
Proof. vm_compute. reflexivity. Qed.
Example sample_tpm_unpinned : is_ok (sample_verdict {| ek_root_sha256 := [lit "00"]; activation_pubkeys := [N_to_le 32 5]; opt_now := Some 50 |}) = false.
Proof. vm_compute. reflexivity. Qed.
Example sample_tpm_expired : sample_verdict {| ek_root_sha256 := [hex_encode (toy_hash [x02])]; activation_pubkeys := [N_to_le 32 5]; opt_now := Some 101 |}
  = Err (TpmVerify "credential_activation token expired").
Proof. vm_compute. reflexivity. Qed.
Lemma sample_ima_evidence : exists boot, ima_evidence (H := toy_sha2) sample_bundle sample_tpms tpm_build boot.
Proof.
  pose proof (verify_ima_safe (H := toy_sha2) sample_bundle sample_tpms tpm_build) as Hs.
  assert (exists boot, verify_ima (H := toy_sha2) sample_bundle (quote_of sample_tpms) tpm_build = Ok (true, Some boot)) as [boot E]
    by (eexists; vm_compute; reflexivity).
  rewrite E in Hs. destruct Hs as [[Hv _]|(_ & boot' & _ & Hi)]; [discriminate Hv|]. exists boot'. exact Hi.
Qed.
Definition sample_entries : list ImaNgEntry :=
  [{| template_digest := agent_template; file_digest := tpm_build; filename := lit "/usr/bin/agent" |}].
Lemma sample_ima_parsed : parse_ima_ng (H := toy_sha2) sample_ima_log = Ok sample_entries.
Proof. vm_compute. reflexivity. Qed.
Lemma desktop_same_files_witness : exists boot, ima_evidence (H := toy_sha2) sample_bundle sample_tpms tpm_build boot /\
  (measured_files sample_entries = measured_files sample_entries \/
   collision_among (sha256 (Sha2 := toy_sha2)) (ima_messages (H := toy_sha2) sample_entries) (ima_messages (H := toy_sha2) sample_entries) \/
   preimage_among (sha256 (Sha2 := toy_sha2))
     (ima_messages (H := toy_sha2) sample_entries ++ ima_messages (H := toy_sha2) sample_entries) (replicate 32 x00) \/
   exists pcrs1 pcrs2 sel vs1 vs2, reported (b_pcrs sample_bundle) pcrs1 /\ reported (b_pcrs sample_bundle) pcrs2 /\
     selections (quote_of sample_tpms) = [(TPM_ALG_SHA256, sel)] /\ pcrs_at pcrs1 sel vs1 /\ pcrs_at pcrs2 sel vs2 /\
     collision (sha256 (Sha2 := toy_sha2)) (mjoin vs1) (mjoin vs2)).
Proof.
  destruct sample_ima_evidence as [boot Hi]. exists boot. split; [exact Hi|].
  exact (desktop_same_files (H := toy_sha2) (Sha2Laws0 := toy_sha2_laws) sample_bundle sample_bundle sample_tpms sample_tpms tpm_build tpm_build boot boot
    sample_entries sample_entries Hi Hi eq_refl eq_refl sample_ima_parsed sample_ima_parsed).
Defined.
