(* ===== verification/Azure.v ===== *)
(** * Azure: the HCL and vTPM evidence of [src/v2/src/tee/azure_composite.rs]

    An Azure confidential VM has an SNP report made at boot, whose report data commits to
    a JSON object with the attestation key (AK) of the VM's virtual TPM; freshness comes
    from a TPM quote by that key over a hash of the expected report data.  The verifier
    combines both with AMD collateral and independently enrolled keys, paravisor
    measurements, VM identity and PCR values.

    JSON, base64url and RSA are crates: [AzureLibs] holds the typed parsers and the key
    operations.  A [Reader] is the log cursor of [Boot] with its own errors.

    [tpm_quote_exact]: the quote parser accepts exactly the encodings of its profile.
    [azure_sound]: what an accepted composite means. *)
From S2P Require Import Prelude Bytes Text Crypto Boot EventLog Replay Eat Pki Crl Pem TdxQuote SnpQuote NitroQuote SnpCollateral TdxCollateral QuoteVerify.

Definition HCL_HEADER : N := 32.
Definition SNP_SIZE : N := 1184.
Definition RUNTIME_OFFSET : N := HCL_HEADER + SNP_SIZE.
Definition CLAIMS_OFFSET : N := RUNTIME_OFFSET + 20.
Definition HCL_NV_SIZE : N := 2600.
Definition MAX_TPM_QUOTE : N := 4096.
Definition MAX_SIGNATURE : N := 518.
Definition MAX_WIRE : N := 48 * 1024.
Definition SHA256_ALG : N := 0x000b.
Definition RSASSA : N := 0x0014.
Definition AZURE_CHALLENGE_DOMAIN : bytes := lit "uq/azure-hcl-vtpm/eat-report-data/v1" ++ [x00].

Record AzurePcrValue : Type := { pcr_index : N; pcr_value : bytes }.
#[global] Instance AzurePcrValue_eq_dec : EqDecision AzurePcrValue.
Proof. solve_decision. Defined.
Record AzureCompositeEvidence : Type := {
  ev_version : N; hcl_report : bytes; quote_message : bytes; quote_signature : bytes; ev_pcrs : list AzurePcrValue;
}.
Record AzureCompositePolicy : Type := {
  ap_version : N; allowed_ak_spki_sha256 : list bytes; enrolled_ak_public_areas : list bytes;
  allowed_paravisor_measurements : list bytes; expected_vm_id : bytes; ap_expected_pcrs : list AzurePcrValue;
  allow_console : bool;
}.
Record AzureClockInfo : Type := { clock : N; reset_count : N; restart_count : N; firmware_version : N }.
Record VerifiedAzureComposite : Type := {
  az_measurements : gmap bytes bytes; az_pcrs : list AzurePcrValue; az_ak_spki_sha256 : bytes; az_vm_id : bytes;
  az_clock : AzureClockInfo;
}.
Record RuntimeKey : Type := { kid : bytes; key_ops : list bytes; kty : bytes; rk_e : bytes; rk_n : bytes }.
Record VmConfiguration : Type := {
  root_cert_thumbprint : bytes; console_enabled : bool; secure_boot : bool; tpm_enabled : bool;
  tpm_persisted : bool; vm_unique_id : bytes; current_time : option N;
}.
Record RuntimeClaims : Type := { keys : list RuntimeKey; configuration : VmConfiguration; rc_user_data : bytes }.

Class AzureLibs := {
  evidence_from_slice : bytes -> option AzureCompositeEvidence;
  evidence_to_vec : AzureCompositeEvidence -> option bytes;
  azure_policy_from_slice : bytes -> option AzureCompositePolicy;
  claims_from_slice : bytes -> option RuntimeClaims;
  b64url_decode : bytes -> option bytes;
  b64url_encode : bytes -> bytes;
  RsaPublicKey : Type;
  (** [RsaPublicKey::new] of a big-endian modulus and the exponent 65537 *)
  rsa_new : bytes -> option RsaPublicKey;
  rsa_spki_der : RsaPublicKey -> option bytes;
  rsa_size : RsaPublicKey -> N;
  (** PKCS1 v1.5 with SHA-256: key, digest, signature *)
  rsa_pkcs1_verify : RsaPublicKey -> bytes -> bytes -> bool;
}.

(** ** Reader *)
Definition rd_take (c : Cursor) (count : N) : res PkiError (bytes * Cursor) :=
  end_ ← orelse (checked_add usize_max (cur_offset c) count) "TPM offset overflow";
  value ← orelse (get_range (cur_bytes c) (cur_offset c) end_) "truncated TPM attestation";
  Ok (value, {| cur_bytes := cur_bytes c; cur_offset := end_ |}).
Definition rd_u8 (c : Cursor) : res PkiError (N * Cursor) :=
  '(v, c) ← rd_take c 1; b ← index v 0; Ok (byte_N b, c).
Definition rd_be (w : N) (c : Cursor) : res PkiError (N * Cursor) :=
  '(v, c) ← rd_take c w; need (blen v =? w) "slice length";; Ok (be_to_N v, c).
Definition rd_u16 := rd_be 2.
Definition rd_u32 := rd_be 4.
Definition rd_u64 := rd_be 8.
Definition rd_tpm2b (c : Cursor) : res PkiError (bytes * Cursor) :=
  '(n, c) ← rd_u16 c; rd_take c n.
Definition reader (b : bytes) : Cursor := {| cur_bytes := b; cur_offset := 0 |}.

(** ** Policies and evidence *)
Fixpoint windows2 {A} (f : A -> A -> bool) (l : list A) : bool :=
  match l with
  | a :: (b :: _) as l => f a b && windows2 f l
  | _ => true
  end.
Definition pcr_values (values : list AzurePcrValue) : res PkiError (gmap N bytes) :=
  need (negb (blen values =? 0) && (blen values <=? 16)) "Azure PCR count must be 1..16";;
  need (forallb (fun p => pcr_index p <? 16) values && windows2 (fun a b => pcr_index a <? pcr_index b) values)
    "Azure PCR indices must be unique, increasing and within 0..15";;
  Ok (list_to_map ((fun p => (pcr_index p, pcr_value p)) <$> values)).

Definition all_ff (b : bytes) : bool := forallb (Byte.eqb xff) b.
Definition allow_entry (sz : N) (m : gset bytes) (value : bytes) : res PkiError (gset bytes) :=
  need (blen value =? sz * 2) "Azure pin has wrong length";;
  decoded ← orelse (hex_decode value) "Azure pin is not hex";
  need (any_nonzero decoded && negb (all_ff decoded)) "Azure pin is a placeholder";;
  need (bool_decide (decoded ∉ m)) "duplicate Azure pin";;
  Ok ({[decoded]} ∪ m).
Definition hex_allowlist (values : list bytes) (sz : N) : res PkiError (gset bytes) :=
  need (negb (blen values =? 0) && (blen values <=? 64)) "Azure allowlist must contain 1..64 entries";;
  for_each (allow_entry sz) ∅ values.

Definition dash_position (i : nat) : bool := existsb (Nat.eqb i) [8; 13; 18; 23]%nat.
Definition vm_id (value : bytes) : res PkiError bytes :=
  need ((blen value =? 36) && forallb (fun p => if dash_position p.1 then Byte.eqb p.2 x2d else is_ascii_hexdigit p.2)
                                (zip (seq 0 (length value)) value)) "Azure VM identity must be a UUID";;
  id ← orelse (hex_decode (filter (fun b => b <> x2d) value)) "invalid hex";
  id ← expect_len 16 id;
  need (any_nonzero id && negb (all_ff id)) "Azure VM identity cannot be a placeholder";;
  Ok id.
Definition hex_uuid (value : bytes) : res PkiError bytes :=
  let hex := hex_encode value in
  a ← index_range hex 0 8; b ← index_range hex 8 12; c ← index_range hex 12 16; d ← index_range hex 16 20;
  e ← index_from hex 20;
  Ok (a ++ [x2d] ++ b ++ [x2d] ++ c ++ [x2d] ++ d ++ [x2d] ++ e).

Definition evidence_bounds (e : AzureCompositeEvidence) : res PkiError unit :=
  need (ev_version e =? 1) "unsupported Azure composite evidence version";;
  need ((CLAIMS_OFFSET + 1 <=? blen (hcl_report e)) && (blen (hcl_report e) <=? HCL_NV_SIZE))
    "HCL size outside supported NV profile";;
  need (negb (blen (quote_message e) =? 0) && (blen (quote_message e) <=? MAX_TPM_QUOTE))
    "Azure TPM quote size outside bounds";;
  need ((262 <=? blen (quote_signature e)) && (blen (quote_signature e) <=? MAX_SIGNATURE))
    "Azure TPM signature size outside bounds";;
  pcr_values (ev_pcrs e);;
  Ok tt.

Section Azure.
Context `{X : X509} `{K : CpuCrypto} `{H : Sha2} `{D : Kds} `{C : CborValues} `{J : IntelDocs} `{R : DerPrims} `{L : AzureLibs}.

Definition evidence_from_json (b : bytes) : res PkiError AzureCompositeEvidence :=
  need (negb (blen b =? 0) && (blen b <=? MAX_WIRE)) "Azure evidence JSON exceeds bounds";;
  evidence ← orelse (evidence_from_slice b) "Azure evidence JSON";
  evidence_bounds evidence;;
  Ok evidence.
Definition evidence_to_json (e : AzureCompositeEvidence) : res PkiError bytes :=
  evidence_bounds e;;
  encoded ← orelse (evidence_to_vec e) "JSON";
  need (blen encoded <=? MAX_WIRE) "Azure evidence JSON exceeds bounds";;
  Ok encoded.

Definition enrolled_ak_name (public_area : bytes) : res PkiError (bytes * bytes) :=
  need (blen public_area =? 280) "Azure enrolled AK must use the exact RSA2048 TPMT_PUBLIC profile";;
  '(ty, c) ← rd_u16 (reader public_area);
  '(ok, c) ← (if ty =? 1 then '(alg, c) ← rd_u16 c; Ok (alg =? SHA256_ALG, c) else Ok (false, c));
  need ok "Azure enrolled AK must use RSA and SHA256 nameAlg";;
  '(attributes, c) ← rd_u32 c;
  need (attributes =? 0x00050472) "Azure enrolled AK attributes are not the Microsoft restricted signing profile";;
  '(auth_policy, c) ← rd_tpm2b c;
  need (blen auth_policy =? 0) "Azure enrolled AK authPolicy must match the published primary template";;
  '(symmetric, c) ← rd_u16 c; need (symmetric =? 0x0010) "Azure enrolled AK RSA parameters differ";;
  '(scheme, c) ← rd_u16 c; need (scheme =? RSASSA) "Azure enrolled AK RSA parameters differ";;
  '(alg, c) ← rd_u16 c; need (alg =? SHA256_ALG) "Azure enrolled AK RSA parameters differ";;
  '(bits, c) ← rd_u16 c; need (bits =? 2048) "Azure enrolled AK RSA parameters differ";;
  '(exponent, c) ← rd_u32 c; need (exponent =? 0) "Azure enrolled AK RSA parameters differ";;
  '(modulus, c) ← rd_tpm2b c;
  ok ← (if blen modulus =? 256 then
          b ← index modulus 0; Ok (negb (N.land (byte_N b) 0x80 =? 0) && (cur_offset c =? blen public_area))
        else Ok false);
  need ok "Azure enrolled AK modulus/length mismatch";;
  key ← orelse (rsa_new modulus) "invalid RSA key";
  der ← orelse (rsa_spki_der key) "encoding";
  let pin := sha256 der in
  let name := N_to_be 2 SHA256_ALG ++ sha256 public_area in
  let qualified_name := N_to_be 2 SHA256_ALG ++ sha256 (N_to_be 4 0x4000000b ++ name) in
  Ok (pin, qualified_name).

Definition enroll (pins : gset bytes) (names : gmap bytes bytes) (area : bytes) : res PkiError (gmap bytes bytes) :=
  '(pin, name) ← enrolled_ak_name area;
  need (bool_decide (pin ∈ pins)) "enrolled AK public area differs from SPKI pin policy";;
  need (bool_decide (names !! pin = None)) "duplicate enrolled AK public area";;
  Ok (<[pin := name]> names).
Definition enrolled_ak_names (p : AzureCompositePolicy) : res PkiError (gmap bytes bytes) :=
  pins ← hex_allowlist (allowed_ak_spki_sha256 p) 32;
  need (blen (enrolled_ak_public_areas p) =? N.of_nat (size pins))
    "Azure AK public-area enrollment must match every SPKI pin exactly once";;
  for_each (enroll pins) ∅ (enrolled_ak_public_areas p).
Definition AzureCompositePolicy_validate (p : AzureCompositePolicy) : res PkiError unit :=
  need (ap_version p =? 1) "unsupported Azure composite policy version";;
  enrolled_ak_names p;;
  hex_allowlist (allowed_paravisor_measurements p) 48;;
  vm_id (expected_vm_id p);;
  pcr_values (ap_expected_pcrs p);;
  need (existsb (fun v => any_nonzero (pcr_value v)) (ap_expected_pcrs p)) "Azure PCR policy cannot be entirely zero".
Definition azure_policy_from_json (b : bytes) : res PkiError AzureCompositePolicy :=
  need (negb (blen b =? 0) && (blen b <=? 128 * 1024)) "Azure policy JSON exceeds bounds";;
  policy ← orelse (azure_policy_from_slice b) "Azure policy JSON";
  AzureCompositePolicy_validate policy;;
  Ok policy.

Definition azure_registers (v : VerifiedAzureComposite) : res PkiError AuthenticatedRegisters :=
  map_err (fun _ => PkiMsg "invalid registers")
    (AuthenticatedRegisters_tpm (list_to_map ((fun p => ((SHA256_ALG, pcr_index p), pcr_value p)) <$> az_pcrs v))).

Definition qualifying_data (report_data : bytes) : bytes := sha256 (AZURE_CHALLENGE_DOMAIN ++ report_data).

(** ** The HCL report *)
Record Hcl : Type := { hcl_snp : bytes; hcl_claims : bytes }.
Definition hcl_le (b : bytes) (offset : N) : res PkiError N := s ← index_range b offset (offset + 4); Ok (le_to_N s).
Definition parse_hcl (b : bytes) : res PkiError Hcl :=
  need ((CLAIMS_OFFSET + 1 <=? blen b) && (blen b <=? HCL_NV_SIZE)) "HCL size outside supported profile";;
  magic ← hcl_le b 0; version ← hcl_le b 4; request ← hcl_le b 12;
  need ((magic =? 0x414c4348) && (version =? 2) && (request =? 2)) "unsupported HCL signature/version/request type";;
  reserved ← index_range b 16 32;
  need (all_zero reserved) "nonzero HCL reserved/status field";;
  size ← hcl_le b 8;
  need ((CLAIMS_OFFSET + 1 <=? size) && (size <=? blen b)) "HCL report size outside supplied bytes";;
  tail ← index_from b size;
  need ((size =? blen b) || ((blen b =? HCL_NV_SIZE) && all_zero tail)) "HCL trailing bytes are not documented NV padding";;
  rv ← hcl_le b (RUNTIME_OFFSET + 4); rt ← hcl_le b (RUNTIME_OFFSET + 8); rh ← hcl_le b (RUNTIME_OFFSET + 12);
  need ((rv =? 1) && (rt =? 2) && (rh =? 1)) "unsupported HCL runtime version/report/hash profile";;
  runtime_size ← hcl_le b RUNTIME_OFFSET;
  claims_size ← hcl_le b (RUNTIME_OFFSET + 16);
  need ((runtime_size =? size - RUNTIME_OFFSET) && (claims_size =? size - CLAIMS_OFFSET))
    "HCL runtime/claim lengths disagree";;
  report ← index_range b HCL_HEADER RUNTIME_OFFSET;
  claims ← index_range b CLAIMS_OFFSET size;
  rd ← index_range report 0x50 0x70;
  zeros ← index_range report 0x70 0x90;
  need (bytes_eqb rd (sha256 claims) && all_zero zeros)
    "HCL REPORT_DATA must equal SHA256(exact runtime claims) followed by zero padding";;
  Ok {| hcl_snp := report; hcl_claims := claims |}.

Definition key_rsa (k : RuntimeKey) : res PkiError RsaPublicKey :=
  need ((342 <=? blen (rk_n k)) && (blen (rk_n k) <=? 683) && bytes_eqb (rk_e k) (lit "AQAB"))
    "HCL RSA key size/exponent outside profile";;
  modulus ← orelse (b64url_decode (rk_n k)) "HCL RSA modulus base64url";
  ok ← (if (blen modulus =? 256) || (blen modulus =? 384) || (blen modulus =? 512) then
          b ← index modulus 0; Ok (negb (N.land (byte_N b) 0x80 =? 0))
        else Ok false);
  need ok "HCL RSA modulus must have exactly 2048/3072/4096 bits";;
  need (bytes_eqb (b64url_encode modulus) (rk_n k)) "noncanonical HCL RSA JWK modulus";;
  orelse (rsa_new modulus) "invalid RSA key".

Definition check_jwk (seen : gset bytes) (k : RuntimeKey) : res PkiError (gset bytes) :=
  need (bool_decide (kid k ∉ seen)) "duplicate HCL JWK identity";;
  operation ← (if bytes_eqb (kid k) (lit "HCLAkPub") then Ok (lit "sign")
               else if bytes_eqb (kid k) (lit "HCLEkPub") then Ok (lit "encrypt")
               else Err (PkiMsg "unsupported HCL JWK identity"));
  need (bytes_eqb (kty k) (lit "RSA") && bool_decide (key_ops k = [operation])) "unsupported HCL JWK type/operation";;
  key_rsa k;;
  Ok ({[kid k]} ∪ seen).
Definition parse_claims (b : bytes) : res PkiError RuntimeClaims :=
  claims ← orelse (claims_from_slice b) "unsupported HCL runtime claim schema";
  need (blen (keys claims) =? 2) "HCL profile requires exactly AK and EK JWKs";;
  for_each check_jwk ∅ (keys claims);;
  need ((blen (rc_user_data claims) =? 128) && forallb is_ascii_hexdigit (rc_user_data claims))
    "HCL user-data is not exactly 64 bytes of hex";;
  let thumbprint := root_cert_thumbprint (configuration claims) in
  need ((blen thumbprint =? 0)
        || (((blen thumbprint =? 40) || (blen thumbprint =? 64)) && forallb is_ascii_hexdigit thumbprint))
    "unsupported HCL root thumbprint encoding";;
  vm_id (vm_unique_id (configuration claims));;
  Ok claims.
Definition ak_key (c : RuntimeClaims) : res PkiError RsaPublicKey :=
  k ← orelse (List.find (fun k => bytes_eqb (kid k) (lit "HCLAkPub")) (keys c)) "missing HCL AK";
  key_rsa k.
Definition check_policy (c : RuntimeClaims) (p : AzureCompositePolicy) : res PkiError unit :=
  let cfg := configuration c in
  need (secure_boot cfg && tpm_enabled cfg && tpm_persisted cfg) "HCL secure boot/TPM/persistence must be enabled";;
  need (negb (console_enabled cfg) || allow_console p) "HCL console access is forbidden by policy";;
  a ← vm_id (vm_unique_id cfg);
  b ← vm_id (expected_vm_id p);
  need (bytes_eqb a b) "HCL VM identity differs from enrollment".

(** ** The TPM quote *)
Record ParsedQuote : Type := {
  qualified_signer : bytes; extra_data : bytes; indices : list N; pq_digest : bytes; pq_clock : AzureClockInfo;
}.
Definition selected (bitmap : bytes) (i : N) : res PkiError bool :=
  b ← index bitmap (i / 8); Ok (negb (N.land (byte_N b) (N.shiftl 1 (i mod 8)) =? 0)).
Definition select_index (bitmap : bytes) (acc : list N) (i : N) : res PkiError (list N) :=
  s ← selected bitmap i; Ok (match s with true => acc ++ [i] | false => acc end).
Definition SIXTEEN : list N := [0; 1; 2; 3; 4; 5; 6; 7; 8; 9; 10; 11; 12; 13; 14; 15].

Definition parse_signer (c : Cursor) : res PkiError (bytes * Cursor) :=
  '(signer, c) ← rd_tpm2b c;
  ok ← (if blen signer =? 34 then
          a ← index_range signer 0 2; r ← index_from signer 2; Ok (bytes_eqb a (N_to_be 2 SHA256_ALG) && any_nonzero r)
        else Ok false);
  need ok "unsupported TPM AK qualified-name profile";;
  Ok (signer, c).
Definition parse_clock (c : Cursor) : res PkiError (AzureClockInfo * Cursor) :=
  '(clk, c) ← rd_u64 c;
  '(reset, c) ← rd_u32 c;
  '(restart, c) ← rd_u32 c;
  '(safe_, c) ← rd_u8 c;
  need (safe_ =? 1) "TPM clockInfo.safe must be true";;
  '(firmware, c) ← rd_u64 c;
  Ok ({| clock := clk; reset_count := reset; restart_count := restart; firmware_version := firmware |}, c).
Definition parse_bitmap (c : Cursor) : res PkiError (bytes * Cursor) :=
  '(count, c) ← rd_u32 c;
  '(ok, c) ← (if count =? 1 then '(alg, c) ← rd_u16 c; Ok (alg =? SHA256_ALG, c) else Ok (false, c));
  need ok "exactly one SHA256 PCR bank is required";;
  '(n, c) ← rd_u8 c;
  need (n =? 3) "PCR selection must use the 24-bit PC-client bitmap";;
  '(bitmap, c) ← rd_take c 3;
  b2 ← index bitmap 2;
  need (byte_N b2 =? 0) "only static PCRs 0..15 are supported";;
  Ok (bitmap, c).

Definition parse_quote (message : bytes) : res PkiError ParsedQuote :=
  need (negb (blen message =? 0) && (blen message <=? MAX_TPM_QUOTE)) "TPMS_ATTEST size outside bounds";;
  '(magic, c) ← rd_u32 (reader message);
  '(ok, c) ← (if magic =? 0xff544347 then '(ty, c) ← rd_u16 c; Ok (ty =? 0x8018, c) else Ok (false, c));
  need ok "TPMS_ATTEST magic/type mismatch";;
  '(signer, c) ← parse_signer c;
  '(extra, c) ← rd_tpm2b c;
  need (blen extra =? 32) "TPM qualifyingData must be exactly 32 bytes";;
  '(ci, c) ← parse_clock c;
  '(bitmap, c) ← parse_bitmap c;
  indices ← for_each (select_index bitmap) [] SIXTEEN;
  need (negb (blen indices =? 0)) "TPM quote cannot select no PCRs";;
  '(digest, c) ← rd_tpm2b c;
  need ((blen digest =? 32) && (cur_offset c =? blen message)) "TPM PCR digest length or trailing data mismatch";;
  Ok {| qualified_signer := signer; extra_data := extra; indices := indices; pq_digest := digest; pq_clock := ci |}.

Definition verify_quote (ak : RsaPublicKey) (e : AzureCompositeEvidence) (expected_report_data : bytes) :
    res PkiError ParsedQuote :=
  quote ← parse_quote (quote_message e);
  need (bytes_eqb (extra_data quote) (qualifying_data expected_report_data))
    "Azure TPM quote does not bind the complete expected EAT report data";;
  pcrs ← pcr_values (ev_pcrs e);
  need (bool_decide (indices quote = btree_keys N.le pcrs)) "PCR evidence coverage differs from signed selection";;
  need (bytes_eqb (pq_digest quote) (sha256 (mjoin (btree_iter N.le pcrs).*2)))
    "PCR values do not reproduce the signed TPM digest";;
  '(scheme, c) ← rd_u16 (reader (quote_signature e));
  '(ok, c) ← (if scheme =? RSASSA then '(alg, c) ← rd_u16 c; Ok (alg =? SHA256_ALG, c) else Ok (false, c));
  need ok "TPM signature must be RSASSA/SHA256";;
  '(raw_signature, c) ← rd_tpm2b c;
  need ((blen raw_signature =? rsa_size ak) && (cur_offset c =? blen (quote_signature e)))
    "TPM signature size/trailing data mismatch";;
  need (rsa_pkcs1_verify ak (sha256 (quote_message e)) raw_signature) "Azure AK quote signature";;
  Ok quote.

(** ** The composite *)
Definition insert_pcr (ms : gmap bytes bytes) (p : AzurePcrValue) : gmap bytes bytes :=
  <[lit "TPM_PCR" ++ to_decimal (pcr_index p) := pcr_value p]> ms.
(** [into_iter().collect()] of pairs: a later pair with the same name wins. *)
Definition collect_map (ms : Measurements) : gmap bytes bytes :=
  foldl (fun m e => <[e.1 := e.2]> m) ∅ ms.

Definition azure_verify (clk : option N) (e : AzureCompositeEvidence) (expected_report_data : bytes)
    (policy : AzureCompositePolicy) (collateral : SnpCollateral) (tcb_policy : SnpTcbPolicy) :
    res PkiError VerifiedAzureComposite :=
  evidence_bounds e;;
  AzureCompositePolicy_validate policy;;
  validate_bounds collateral;;
  policy_validate tcb_policy;;
  first ← index_range expected_report_data 0 32;
  second ← index_from expected_report_data 32;
  need (any_nonzero first && any_nonzero second) "Azure requires both halves of the EAT commitment";;
  need (expected_vmpl tcb_policy =? 0) "Azure HCL policy requires VMPL0";;
  hcl ← parse_hcl (hcl_report e);
  claims ← parse_claims (hcl_claims hcl);
  ak ← ak_key claims;
  der ← orelse (rsa_spki_der ak) "encoding";
  let ak_pin := sha256 der in
  ak_pins ← hex_allowlist (allowed_ak_spki_sha256 policy) 32;
  need (bool_decide (ak_pin ∈ ak_pins)) "HCL AK is not independently enrolled";;
  check_policy claims policy;;
  paravisors ← hex_allowlist (allowed_paravisor_measurements policy) 48;
  measurement ← index_range (hcl_snp hcl) 0x90 0xc0;
  need (bool_decide (measurement ∈ paravisors)) "HCL paravisor measurement is not approved";;
  quote ← verify_quote ak e expected_report_data;
  enrolled_names ← enrolled_ak_names policy;
  enrolled ← orelse (enrolled_names !! ak_pin) "HCL AK public area is not enrolled";
  need (bytes_eqb (qualified_signer quote) enrolled)
    "TPM qualified signer differs from the independently enrolled restricted endorsement primary";;
  need (bool_decide (ev_pcrs e = ap_expected_pcrs policy)) "Azure guest PCR values do not satisfy independent policy";;
  let runtime_hash := sha256 (hcl_claims hcl) in
  cpu_measurements ← map_err (fun _ => PkiMsg "Azure AMD endorsement and current TCB appraisal")
    (verify_platform_quote_for_admission clk SevSnp (hcl_snp hcl) runtime_hash
       (Some (CollateralAmdSnp collateral)) (Some (PolicyAmdSnp tcb_policy)));
  let ms := foldl insert_pcr (collect_map cpu_measurements) (ev_pcrs e) in
  let ms := <[lit "AZURE_EAT_REPORT_DATA" := expected_report_data]>
              (<[lit "AZURE_AK_QUALIFIED_NAME" := qualified_signer quote]>
                 (<[lit "AZURE_AK_SPKI_SHA256" := ak_pin]> ms)) in
  id ← vm_id (vm_unique_id (configuration claims));
  uuid ← hex_uuid id;
  Ok {| az_measurements := ms; az_pcrs := ev_pcrs e; az_ak_spki_sha256 := ak_pin; az_vm_id := uuid;
        az_clock := pq_clock quote |}.
End Azure.

(** ** Readers as codecs

    [reads f enc wf]: [f] consumes exactly the encoding of a well-formed value. *)
Record reads {A} (f : Cursor -> res PkiError (A * Cursor)) (enc : A -> bytes) (wf : A -> Prop) : Prop := {
  reads_sound c a c' : cursor_fit c -> f c = Ok (a, c') -> wf a /\ took c (blen (enc a)) (enc a) c';
  reads_run c a rest : cursor_fit c -> wf a -> remaining c = enc a ++ rest ->
    exists c', f c = Ok (a, c') /\ remaining c' = rest /\ cursor_fit c' /\ took c (blen (enc a)) (enc a) c';
  reads_safe c : cursor_fit c -> safe (f c) (fun _ => True);
}.

Lemma rd_take_Ok c n v c' : rd_take c n = Ok (v, c') <-> cursor_take c n = Ok (v, c').
Proof.
  unfold rd_take, cursor_take. pki. destruct (checked_add _ _ _); [|simpl; naive_solver]. cbn [ok_or]. rewrite !res_bind_Ok.
  destruct (get_range _ _ _); simpl; naive_solver.
Qed.
Lemma rd_take_reads n : reads (fun c => rd_take c n) id (fun v => blen v = n).
Proof.
  split.
  - intros c v c' _ Hv%rd_take_Ok%cursor_take_Ok. unfold id. split; [by eapply took_blen|by eapply took_self].
  - intros c v rest [Hok Hmax] <- Hr. unfold id in *. destruct (cursor_take_app c v rest Hok Hmax Hr) as (H1 & H2 & H3).
    exists (advance c (blen v)). split; [by apply rd_take_Ok|]. split; [done|]. split; [done|]. by apply cursor_take_Ok.
  - intros c _. unfold rd_take. pki. wp. done.
Qed.
Lemma rd_be_reads (w : nat) : reads (rd_be (N.of_nat w)) (N_to_be w) (fun n => n < 256 ^ N.of_nat w).
Proof.
  pose proof (rd_take_reads (N.of_nat w)) as [Hs Hr Hf]. split.
  - intros c n c' Hfit Hv. unfold rd_be in Hv. pki. apply bind_Ok in Hv as ([v c1] & Ht & Hv).
    destruct (Hs _ _ _ Hfit Ht) as [Hl Htook]. unfold id in *. inv_res.
    pose proof (be_to_N_bound v) as Hb. rewrite Hl in Hb. split; [done|].
    replace (N_to_be w (be_to_N v)) with v; [done|]. unfold N_to_be, be_to_N.
    rewrite <- (le_to_N_eq (rev v) w (le_to_N (rev v))); [by rewrite rev_involutive| |done].
    unfold blen in *. rewrite length_rev. done.
  - intros c n rest Hfit Hn Hrem.
    assert (blen (N_to_be w n) = N.of_nat w) as Hl by (unfold blen; by rewrite length_N_to_be).
    destruct (Hr c (N_to_be w n) rest Hfit Hl Hrem) as (c' & Ht & H2 & H3 & H4). exists c'. split; [|done].
    unfold rd_be. rewrite Ht. ok_step. unfold need. rewrite Hl, N.eqb_refl. cbn [ensure]. ok_step. by rewrite be_to_N_to_be.
  - intros c Hfit. unfold rd_be. eapply safe_seq; [by apply Hf|]. intros [v c1] _ _. pki. wp. done.
Qed.
Lemma rd_u8_reads : reads rd_u8 (N_to_be 1) (fun n => n < 256).
Proof.
  destruct (rd_be_reads 1) as [Hs Hr Hf]. assert (forall c, cursor_fit c -> rd_u8 c = rd_be 1 c) as He.
  { intros c Hc. unfold rd_u8, rd_be. destruct (rd_take c 1) as [[v c1]|e| |] eqn:Ht; [|done..].
    destruct (rd_take_reads 1) as [Hs' _ _]. destruct (Hs' _ _ _ Hc Ht) as [Hl _]. rewrite !res_bind_Ok.
    unfold need. rewrite Hl, N.eqb_refl. cbn [ensure]. ok_step.
    destruct v as [|b [|? ?]]; rewrite ?blen_cons, ?blen_nil in Hl; try lia.
    rewrite (index_Some [b] 0 b eq_refl). ok_step. unfold be_to_N. cbn. do 2 f_equal. lia. }
  split; intros c **.
  - rewrite He in * by done. by apply Hs.
  - rewrite He by done. by apply Hr.
  - rewrite He by done. by apply Hf.
Qed.

Definition tpm2b (b : bytes) : bytes := N_to_be 2 (blen b) ++ b.
Lemma rd_tpm2b_reads : reads rd_tpm2b tpm2b (fun b => blen b < 2 ^ 16).
Proof.
  destruct (rd_be_reads 2) as [Hs Hr Hf]. split.
  - intros c v c' Hfit Hv. unfold rd_tpm2b in Hv. apply bind_Ok in Hv as ([n c1] & Hn & Hv).
    destruct (Hs _ _ _ Hfit Hn) as [Hb Ht1]. destruct (rd_take_reads n) as [Hs' _ _].
    destruct (Hs' _ _ _ (took_fit _ _ _ _ Ht1 Hfit) Hv) as [Hl Ht2]. unfold id in *. subst n.
    split; [exact Hb|]. unfold tpm2b. rewrite blen_app. by eapply took_trans.
  - intros c v rest Hfit Hb Hrem. unfold tpm2b in *. rewrite <- app_assoc in Hrem.
    destruct (Hr c (blen v) (v ++ rest) Hfit Hb Hrem) as (c1 & H1 & H2 & H3 & H4).
    destruct (rd_take_reads (blen v)) as [_ Hr' _]. destruct (Hr' c1 v rest H3 eq_refl H2) as (c2 & H5 & H6 & H7 & H8).
    exists c2. unfold id in *. split; [|split; [done|split; [done|rewrite blen_app; by eapply took_trans]]].
    unfold rd_tpm2b, rd_u16. change (N.of_nat 2) with 2 in H1. rewrite H1. ok_step. exact H5.
  - intros c Hfit. unfold rd_tpm2b. eapply safe_seq; [by apply Hf|]. intros [n c1] Hn _.
    destruct (Hs _ _ _ Hfit Hn) as [_ Ht]. destruct (rd_take_reads n) as [_ _ Hf']. apply Hf'. by eapply took_fit.
Qed.


(** ** The quote profile *)
Record Attest : Type := {
  at_signer : bytes; at_extra : bytes; at_clock : AzureClockInfo; at_bitmap : bytes; at_digest : bytes;
}.
Definition encode_clock (c : AzureClockInfo) : bytes :=
  N_to_be 8 (clock c) ++ N_to_be 4 (reset_count c) ++ N_to_be 4 (restart_count c) ++ N_to_be 1 1 ++
  N_to_be 8 (firmware_version c).
Definition encode_bitmap (b : bytes) : bytes := N_to_be 4 1 ++ N_to_be 2 SHA256_ALG ++ N_to_be 1 3 ++ b.
Definition encode_attest (a : Attest) : bytes :=
  N_to_be 4 0xff544347 ++ N_to_be 2 0x8018 ++ tpm2b (at_signer a) ++ tpm2b (at_extra a) ++
  encode_clock (at_clock a) ++ encode_bitmap (at_bitmap a) ++ tpm2b (at_digest a).

(** The PCRs that a bitmap selects, in increasing order. *)
Definition bit_of (b : bytes) (i : N) : bool :=
  match b !! N.to_nat (i / 8) with Some x => N.testbit (byte_N x) (i mod 8) | None => false end.
Definition bitmap_indices (b : bytes) : list N := filter (fun i => bit_of b i = true) SIXTEEN.

Definition signer_wf (s : bytes) : Prop :=
  exists d, s = N_to_be 2 SHA256_ALG ++ d /\ blen d = 32 /\ any_nonzero d = true.
Definition clock_wf (c : AzureClockInfo) : Prop :=
  clock c < 2 ^ 64 /\ reset_count c < 2 ^ 32 /\ restart_count c < 2 ^ 32 /\ firmware_version c < 2 ^ 64.
Definition bitmap_wf (b : bytes) : Prop := exists b0 b1, b = [b0; b1; x00].
Record attest_wf (a : Attest) : Prop := {
  aw_signer : signer_wf (at_signer a);
  aw_extra : blen (at_extra a) = 32;
  aw_clock : clock_wf (at_clock a);
  aw_bitmap : bitmap_wf (at_bitmap a);
  aw_selected : bitmap_indices (at_bitmap a) <> [];
  aw_digest : blen (at_digest a) = 32;
}.
Definition quote_of (a : Attest) : ParsedQuote := {|
  qualified_signer := at_signer a; extra_data := at_extra a; indices := bitmap_indices (at_bitmap a);
  pq_digest := at_digest a; pq_clock := at_clock a |}.

(** [sound R H]: what the reader [R] consumed in [H], added to what was consumed before;
    [run R H]: run the reader [R] on the input in [H]. *)
Ltac sound R H :=
  let Hw := fresh "Hw" in let Ht := fresh "Ht" in let Hf := fresh "Hf" in
  lazymatch type of H with
  | _ = Ok (?a, ?c') =>
    lazymatch goal with
    | Hfit : cursor_fit ?c |- _ =>
      destruct (reads_sound _ _ _ R _ _ _ Hfit H) as [Hw Ht];
      pose proof (took_fit _ _ _ _ Ht Hfit) as Hf; clear H;
      try match goal with
      | Hp : took ?c0 _ _ ?c1, Hn : took ?c1 _ _ c' |- _ =>
        apply (took_trans _ _ _ _ _ _ _ Hp) in Hn; clear Hp
      end; clear Hfit
    end
  end.

Lemma small_lt (n m : N) : (n <? m) = true -> n < m.
Proof. apply N.ltb_lt. Qed.

Section QuoteCodec.
Notation u8_r := rd_u8_reads.
Notation u16_r := (rd_be_reads 2).
Notation u32_r := (rd_be_reads 4).
Notation u64_r := (rd_be_reads 8).

Lemma parse_signer_reads : reads parse_signer tpm2b signer_wf.
Proof.
  unfold parse_signer. split.
  - intros c s c' Hfit Hv. apply bind_Ok in Hv as ([s1 c1] & H1 & Hv). sound rd_tpm2b_reads H1.
    apply bind_Ok in Hv as (ok & Hok & Hv). pki. apply bind_Ok in Hv as (_ & ->%ensure_Ok & Hv). injection Hv as <- <-.
    split; [|done]. destruct (blen s1 =? 34) eqn:El; [|done]. bools. rewrite index_range_slice in Hok by lia.
    rewrite res_bind_Ok in Hok. apply bind_Ok in Hok as (r & Hr%index_from_Ok & Hok). destruct Hr as [-> _]. injection Hok as Hok. bools.
    exists (drop (N.to_nat 2) s1). split_and!; [|unfold blen in *; rewrite length_drop; lia|done].
    match goal with E : slice s1 0 2 = _ |- _ => rewrite <- E end. unfold slice. rewrite drop_0. by rewrite take_drop.
  - intros c s rest Hfit Hs Hrem. pose proof Hs as (d & Hsd & Hd & Hnz).
    assert (blen s = 34) as Hl by (subst s; rewrite blen_app, Hd; unfold blen; by rewrite length_N_to_be).
    destruct (reads_run _ _ _ rd_tpm2b_reads c s rest Hfit ltac:(cbn; lia) Hrem) as (c' & H1 & H2 & H3 & H4).
    exists c'. split; [|done]. rewrite H1. ok_step. rewrite Hl. cbn [N.eqb]. change (34 =? 34) with true. cbv iota.
    subst s. rewrite index_range_slice by lia. ok_step.
    assert (slice (N_to_be 2 SHA256_ALG ++ d) 0 2 = N_to_be 2 SHA256_ALG) as -> by (rewrite slice_left; [by apply slice_all|done|done]).
    rewrite (index_from_app (N_to_be 2 SHA256_ALG) d) by done. ok_step. rewrite bytes_eqb_refl, Hnz. done.
  - intros c Hfit. eapply safe_seq; [by apply rd_tpm2b_reads|]. intros [s1 c1] _ _.
    apply safe_bind. eapply (safe_mono _ (fun _ => True)); [|intros ok _ _; pki; wp; done].
    destruct (N.eqb_spec (blen s1) 34); [|done]. rewrite index_range_slice by lia. ok_step.
    apply safe_bind, safe_index_from; [lia|]. done.
Qed.

(** [run R a tac]: the reader [R] reads [a] from the input of the cursor; [tac] proves that
    [a] is well formed. *)
Ltac run R a tac :=
  lazymatch goal with
  | Hfit : cursor_fit ?c, Hrem : remaining ?c = _ |- _ =>
    let c' := fresh "c" in let H1 := fresh "Hrun" in let H2 := fresh "Hrem" in let H3 := fresh "Hfit" in
    let H4 := fresh "Htook" in
    destruct (reads_run _ _ _ R c a _ Hfit ltac:(tac) Hrem) as (c' & H1 & H2 & H3 & H4);
    try change (N.of_nat 8) with 8 in H1; try change (N.of_nat 4) with 4 in H1; try change (N.of_nat 2) with 2 in H1; clear Hfit Hrem;
    try match goal with
    | Hp : took ?c0 _ _ c |- _ => apply (took_trans _ _ _ _ _ _ _ Hp) in H4; clear Hp
    end
  end.
Ltac ran := match goal with Hr : _ = Ok (_, _) |- context [_ ≫= _] => rewrite Hr; clear Hr; ok_step end.

Ltac took_done := match goal with Ht : took _ _ _ _ |- _ => apply took_self in Ht; by rewrite <- !app_assoc in Ht end.

Lemma blen_be w n : blen (N_to_be w n) = N.of_nat w.
Proof. unfold blen. by rewrite length_N_to_be. Qed.

Lemma parse_clock_reads : reads parse_clock encode_clock clock_wf.
Proof.
  unfold parse_clock, rd_u64, rd_u32. split.
  - intros c ci c' Hfit Hv. apply bind_Ok in Hv as ([n1 c1] & H1 & Hv). sound (rd_be_reads 8) H1.
    apply bind_Ok in Hv as ([n2 c2] & H2 & Hv). sound (rd_be_reads 4) H2.
    apply bind_Ok in Hv as ([n3 c3] & H3 & Hv). sound (rd_be_reads 4) H3.
    apply bind_Ok in Hv as ([n4 c4] & H4 & Hv). sound rd_u8_reads H4.
    pki. apply bind_Ok in Hv as (_ & Hs%ensure_Ok & Hv). bools. subst n4.
    apply bind_Ok in Hv as ([n5 c5] & H5 & Hv). sound (rd_be_reads 8) H5. injection Hv as <- <-.
    split; [repeat split; match goal with Hn : _ < _ |- _ => exact Hn end|]. unfold encode_clock. cbn [clock reset_count restart_count firmware_version].
    apply took_self in Ht. by rewrite <- !app_assoc in Ht.
  - intros c ci rest Hfit (W1 & W2 & W3 & W4) Hrem. unfold encode_clock in *. rewrite <- !app_assoc in Hrem.
    run (rd_be_reads 8) (clock ci) ltac:(exact W1). run (rd_be_reads 4) (reset_count ci) ltac:(exact W2).
    run (rd_be_reads 4) (restart_count ci) ltac:(exact W3). run rd_u8_reads 1 ltac:(done).
    run (rd_be_reads 8) (firmware_version ci) ltac:(exact W4).
    eexists. repeat ran. change (1 =? 1) with true. unfold need. cbn [ensure]. repeat ok_step. repeat ran.
    split; [by destruct ci|]. split; [done|]. split; [done|]. took_done.
  - intros c Hfit. eapply safe_seq; [by apply (rd_be_reads 8)|]. intros [n1 c1] H1 _. sound (rd_be_reads 8) H1.
    eapply safe_seq; [by apply (rd_be_reads 4)|]. intros [n2 c2] H2 _. sound (rd_be_reads 4) H2.
    eapply safe_seq; [by apply (rd_be_reads 4)|]. intros [n3 c3] H3 _. sound (rd_be_reads 4) H3.
    eapply safe_seq; [by apply rd_u8_reads|]. intros [n4 c4] H4 _. sound rd_u8_reads H4.
    pki. apply safe_bind, safe_ensure. intros _. eapply safe_seq; [by apply (rd_be_reads 8)|]. by intros [n5 c5] _ _.
Qed.

(** A field that selects an algorithm, read only when the field before it fits. *)
Lemma rd_pair_sound (test : bool) (want : N) c ok c' : cursor_fit c ->
  (if test then '(alg, c) ← rd_u16 c; Ok (alg =? want, c) else Ok (false, c)) = Ok (ok, c') -> ok = true ->
  test = true /\ want < 2 ^ 16 /\ took c 2 (N_to_be 2 want) c'.
Proof.
  intros Hfit Hv ->. destruct test; [|done]. apply bind_Ok in Hv as ([n c1] & H1 & Hv). sound (rd_be_reads 2) H1.
  injection Hv as He <-. bools. subst n. by rewrite blen_be in Ht.
Qed.
Lemma rd_pair_run (test : bool) (want : N) c rest : cursor_fit c -> test = true -> want < 2 ^ 16 ->
  remaining c = N_to_be 2 want ++ rest ->
  exists c', (if test then '(alg, c) ← rd_u16 c; Ok (alg =? want, c) else Ok (false, c)) = Ok (true, c') /\
    remaining c' = rest /\ cursor_fit c' /\ took c 2 (N_to_be 2 want) c'.
Proof.
  intros Hfit -> Hw Hrem. run (rd_be_reads 2) want ltac:(exact Hw). unfold rd_u16. eexists. split.
  - ran. by rewrite N.eqb_refl.
  - split; [done|]. split; [done|]. by rewrite blen_be in Htook.
Qed.
Lemma rd_pair_safe (test : bool) (want : N) c : cursor_fit c ->
  safe (if test then '(alg, c) ← rd_u16 c; Ok (alg =? want, c) else Ok (false, c)) (fun p => cursor_fit p.2).
Proof.
  intros Hfit. destruct test; [|done]. eapply safe_seq; [by apply (rd_be_reads 2)|]. intros [n c1] H1 _.
  by sound (rd_be_reads 2) H1.
Qed.

Lemma parse_bitmap_reads : reads parse_bitmap encode_bitmap bitmap_wf.
Proof.
  unfold parse_bitmap, rd_u32. split.
  - intros c b c' Hfit Hv. apply bind_Ok in Hv as ([n1 c1] & H1 & Hv). sound (rd_be_reads 4) H1.
    apply bind_Ok in Hv as ([ok c2] & H2 & Hv). pki. apply bind_Ok in Hv as (_ & Hok%ensure_Ok & Hv).
    destruct (rd_pair_sound _ _ _ _ _ Hf H2 Hok) as (E1 & _ & Ht2). bools. subst n1.
    pose proof (took_fit _ _ _ _ Ht2 Hf) as Hf2. apply (took_trans _ _ _ _ _ _ _ Ht) in Ht2. clear Ht Hf.
    apply bind_Ok in Hv as ([n3 c3] & H3 & Hv). sound rd_u8_reads H3.
    apply bind_Ok in Hv as (_ & Hs%ensure_Ok & Hv). bools. subst n3.
    apply bind_Ok in Hv as ([bm c4] & H4 & Hv). sound (rd_take_reads 3) H4. unfold id in *.
    apply bind_Ok in Hv as (b2 & Hb2%index_Ok & Hv). apply bind_Ok in Hv as (_ & Hz%ensure_Ok & Hv). bools.
    injection Hv as <- <-. destruct bm as [|x0 [|x1 [|x2 [|? ?]]]]; rewrite ?blen_cons, ?blen_nil in *; try lia.
    apply get_Some in Hb2 as [_ Hb2]. cbn in Hb2. injection Hb2 as ->.
    assert (b2 = x00) as -> by (apply byte_N_inj; done). split; [by exists x0, x1|].
    apply took_self in Ht0. unfold encode_bitmap. by rewrite <- !app_assoc in Ht0.
  - intros c b rest Hfit (b0 & b1 & ->) Hrem. unfold encode_bitmap in *. rewrite <- !app_assoc in Hrem.
    run (rd_be_reads 4) 1 ltac:(done).
    destruct (rd_pair_run (1 =? 1) SHA256_ALG c0 _ Hfit0 eq_refl ltac:(done) Hrem0) as (c2 & H2 & Hrem2 & Hfit2 & Ht2).
    apply (took_trans _ _ _ _ _ _ _ Htook) in Ht2. clear Htook Hfit0 Hrem0.
    run rd_u8_reads 3 ltac:(done). change ([b0; b1; x00] ++ rest) with (id [b0; b1; x00] ++ rest) in Hrem.
    run (rd_take_reads 3) [b0; b1; x00] ltac:(done). unfold id in *.
    eexists. ran. rewrite H2. ok_step. unfold need. cbn [ensure]. ok_step. ran. cbn [ensure]. change (3 =? 3) with true. cbn [ensure].
    ok_step. ran. rewrite (index_Some [b0; b1; x00] 2 x00 eq_refl). ok_step. change (byte_N x00 =? 0) with true. cbn [ensure]. ok_step.
    split; [done|]. split; [done|]. split; [done|]. took_done.
  - intros c Hfit. eapply safe_seq; [by apply (rd_be_reads 4)|]. intros [n1 c1] H1 _. sound (rd_be_reads 4) H1.
    eapply safe_seq; [by apply rd_pair_safe|]. intros [ok c2] _ Hf2. cbn in Hf2. pki. apply safe_bind, safe_ensure. intros _.
    clear Hf. eapply safe_seq; [by apply rd_u8_reads|]. intros [n3 c3] H3 _. sound rd_u8_reads H3.
    apply safe_bind, safe_ensure. intros _. eapply safe_seq; [by apply (rd_take_reads 3)|]. intros [bm c4] H4 _.
    sound (rd_take_reads 3) H4. apply safe_bind, safe_index; [lia|]. intros b2 _. wp. done.
Qed.

Lemma select_index_run b acc i : i / 8 < blen b ->
  select_index b acc i = Ok (acc ++ if bit_of b i then [i] else []).
Proof.
  intros Hi. destruct (get_total b (i / 8) Hi) as [x Hx]. unfold select_index, selected, bit_of.
  rewrite (index_Some _ _ _ Hx). repeat ok_step. apply get_Some in Hx as [_ ->].
  change (negb (N.land (byte_N x) (N.shiftl 1 (i mod 8)) =? 0)) with (bit (byte_N x) (i mod 8)). rewrite bit_testbit.
  destruct (N.testbit _ _); [done|by rewrite app_nil_r].
Qed.
Lemma select_indices b acc l : (forall i, i ∈ l -> i / 8 < blen b) ->
  for_each (select_index b) acc l = Ok (acc ++ filter (fun i => bit_of b i = true) l).
Proof.
  revert acc. induction l as [|i l IH]; intros acc Hl; [by rewrite app_nil_r|]. rewrite for_each_cons, filter_cons.
  rewrite select_index_run by (apply Hl; left). ok_step. rewrite IH by (intros j Hj; apply Hl; by right).
  destruct (bit_of b i); [rewrite decide_True by done|rewrite decide_False by done]; by rewrite <- app_assoc.
Qed.
Lemma bitmap_indices_run b : bitmap_wf b -> for_each (select_index b) [] SIXTEEN = Ok (bitmap_indices b).
Proof.
  intros (b0 & b1 & ->). apply select_indices. intros i Hi. change (blen [b0; b1; x00]) with 3. unfold SIXTEEN in Hi.
  rewrite !elem_of_cons, elem_of_nil in Hi. destruct_or! Hi; subst; done.
Qed.

#[local] Opaque bitmap_indices.
Lemma remaining_nil c : cursor_ok c -> cur_offset c = blen (cur_bytes c) <-> remaining c = [].
Proof.
  intros Hok. unfold remaining, cursor_ok in *. rewrite <- length_zero_iff_nil, length_drop. unfold blen in *. lia.
Qed.

Lemma parse_quote_sound m q : blen m <= usize_max -> parse_quote m = Ok q ->
  exists a, m = encode_attest a /\ attest_wf a /\ q = quote_of a.
Proof.
  intros Hmax Hv. unfold parse_quote, rd_u32 in Hv. pki. apply bind_Ok in Hv as (_ & _ & Hv).
  assert (cursor_fit (reader m)) as Hfit by (split; unfold cursor_ok, reader; cbn; lia).
  apply bind_Ok in Hv as ([n1 c1] & H1 & Hv). sound (rd_be_reads 4) H1.
  apply bind_Ok in Hv as ([ok c2] & H2 & Hv). apply bind_Ok in Hv as (_ & Hok%ensure_Ok & Hv).
  destruct (rd_pair_sound _ _ _ _ _ Hf H2 Hok) as (E1 & _ & Ht2). bools. subst n1.
  pose proof (took_fit _ _ _ _ Ht2 Hf) as Hf2. apply (took_trans _ _ _ _ _ _ _ Ht) in Ht2. clear Ht Hf.
  apply bind_Ok in Hv as ([sg c3] & H3 & Hv). sound parse_signer_reads H3.
  apply bind_Ok in Hv as ([ex c4] & H4 & Hv). sound rd_tpm2b_reads H4. apply bind_Ok in Hv as (_ & Hex%ensure_Ok & Hv).
  apply bind_Ok in Hv as ([ci c5] & H5 & Hv). sound parse_clock_reads H5.
  apply bind_Ok in Hv as ([bm c6] & H6 & Hv). sound parse_bitmap_reads H6.
  rewrite bitmap_indices_run in Hv by done. rewrite res_bind_Ok in Hv. apply bind_Ok in Hv as (_ & Hne%ensure_Ok & Hv).
  apply bind_Ok in Hv as ([dg c7] & H7 & Hv). sound rd_tpm2b_reads H7. apply bind_Ok in Hv as (_ & Hend%ensure_Ok & Hv).
  injection Hv as <-. bools.
  exists {| at_signer := sg; at_extra := ex; at_clock := ci; at_bitmap := bm; at_digest := dg |}.
  match goal with T : took (reader m) _ _ c7 |- _ => rename T into Htot end.
  split; [|split; [split; cbn; try done|done]].
  - pose proof (took_remaining _ _ _ _ Htot) as Hr. pose proof (took_ok _ _ _ _ Htot) as Hok7.
    assert (cur_bytes c7 = m) as Hb by (by rewrite (took_bytes _ _ _ _ Htot)).
    rewrite (proj1 (remaining_nil c7 Hok7)), app_nil_r in Hr by (rewrite Hb; done).
    unfold remaining, reader in Hr. cbn [cur_bytes cur_offset N.to_nat] in Hr. rewrite drop_0 in Hr. rewrite Hr.
    unfold encode_attest. by rewrite <- !app_assoc.
  - intros Hn. by rewrite Hn in Hne.
Qed.

Lemma parse_quote_complete a : attest_wf a -> parse_quote (encode_attest a) = Ok (quote_of a).
Proof.
  intros [Hsg Hex Hci Hbm Hne Hdg]. set (m := encode_attest a).
  assert (blen (at_signer a) = 34) as Hsl.
  { destruct Hsg as (d & -> & Hd & _). by rewrite blen_app, blen_be, Hd. }
  assert (blen m = 145) as Hl.
  { unfold m, encode_attest, encode_clock, encode_bitmap, tpm2b. rewrite !blen_app, !blen_be, Hsl, Hex, Hdg.
    destruct Hbm as (b0 & b1 & ->). reflexivity. }
  assert (cursor_fit (reader m)) as Hfit by (split; unfold cursor_ok, reader, usize_max, u64_max; cbn; lia).
  assert (remaining (reader m) = encode_attest a ++ []) as Hrem by (by rewrite app_nil_r).
  unfold encode_attest in Hrem. rewrite <- !app_assoc in Hrem.
  unfold parse_quote, rd_u32. pki. pass ltac:(rewrite Hl; done).
  run (rd_be_reads 4) 0xff544347 ltac:(done).
  match goal with Hc : cursor_fit ?c, Hr : remaining ?c = _ |- _ =>
    destruct (rd_pair_run (0xff544347 =? 0xff544347) 0x8018 c _ Hc eq_refl ltac:(done) Hr) as (c2 & H2 & Hrem2 & Hfit2 & Ht2);
    clear Hc Hr end.
  apply (took_trans _ _ _ _ _ _ _ Htook) in Ht2. clear Htook.
  run parse_signer_reads (at_signer a) ltac:(exact Hsg). run rd_tpm2b_reads (at_extra a) ltac:(cbn; lia).
  run parse_clock_reads (at_clock a) ltac:(exact Hci). run parse_bitmap_reads (at_bitmap a) ltac:(exact Hbm).
  run rd_tpm2b_reads (at_digest a) ltac:(cbn; lia).
  ran. rewrite H2. ok_step. cbn [ensure]. ok_step. ran. ran. pass ltac:(rewrite Hex; done).
  ran. ran. rewrite bitmap_indices_run by done. ok_step.
  pass ltac:(bools; intros Hz%blen_0; done). ran.
  match goal with Hr : remaining ?c = [], Ht : took _ _ _ ?c |- _ =>
    pose proof (proj2 (remaining_nil c (took_ok _ _ _ _ Ht)) Hr) as He; rewrite (took_bytes _ _ _ _ Ht) in He end.
  pass ltac:(bools; split; [done|exact He]). done.
Qed.
End QuoteCodec.

(** ** What acceptance means *)
Lemma parse_quote_safe m : safe (parse_quote m) (fun _ => True).
Proof.
  unfold parse_quote, rd_u32. pki. apply safe_bind, safe_ensure. intros Hm. bools.
  assert (cursor_fit (reader m)) as Hfit by (split; unfold cursor_ok, reader, MAX_TPM_QUOTE, usize_max, u64_max in *; cbn; lia).
  eapply safe_seq; [by apply (rd_be_reads 4)|]. intros [n1 c1] H1 _. sound (rd_be_reads 4) H1.
  eapply safe_seq; [by apply rd_pair_safe|]. intros [ok c2] _ Hf2. cbn in Hf2. apply safe_bind, safe_ensure. intros _. clear Hf.
  eapply safe_seq; [by apply parse_signer_reads|]. intros [sg c3] H3 _. sound parse_signer_reads H3.
  eapply safe_seq; [by apply rd_tpm2b_reads|]. intros [ex c4] H4 _. sound rd_tpm2b_reads H4. apply safe_bind, safe_ensure. intros _.
  eapply safe_seq; [by apply parse_clock_reads|]. intros [ci c5] H5 _. sound parse_clock_reads H5.
  eapply safe_seq; [by apply parse_bitmap_reads|]. intros [bm c6] H6 _. sound parse_bitmap_reads H6.
  rewrite bitmap_indices_run by done. rewrite res_bind_Ok. apply safe_bind, safe_ensure. intros _.
  eapply safe_seq; [by apply rd_tpm2b_reads|]. intros [dg c7] _ _. wp. done.
Qed.
Lemma parse_quote_decides m :
  decides (parse_quote m) (exists a, m = encode_attest a /\ attest_wf a)
    (fun q => exists a, m = encode_attest a /\ attest_wf a /\ q = quote_of a).
Proof.
  pose proof (parse_quote_safe m) as Hs. destruct (parse_quote m) as [q|er| |] eqn:Hv; try done.
  - assert (blen m <= usize_max) as Hm.
    { unfold parse_quote in Hv. pki. apply bind_Ok in Hv as (_ & Hm%ensure_Ok & _). bools.
      unfold MAX_TPM_QUOTE, usize_max, u64_max in *. lia. }
    destruct (parse_quote_sound m q Hm Hv) as (a & -> & Hw & ->). split; by exists a.
  - intros (a & -> & Hw). by rewrite parse_quote_complete in Hv.
Qed.

(** The parser of TPM quotes never panics, accepts exactly the byte strings that encode
    an attestation of the supported profile (magic and type, a SHA-256 qualified signer,
    32 bytes of qualifying data, a safe clock, one SHA-256 bank that selects some of
    PCR0 to PCR15, a 32-byte digest, nothing after it), and returns its fields. *)
Theorem tpm_quote_exact m :
  decides (parse_quote m) (exists a, m = encode_attest a /\ attest_wf a)
    (fun q => exists a, m = encode_attest a /\ attest_wf a /\ q = quote_of a).
Proof. apply parse_quote_decides. Qed.

(** The entries of a map made from pairs of increasing keys are those pairs. *)
Lemma btree_iter_sorted (l : list (N * bytes)) : StronglySorted N.lt l.*1 -> btree_iter N.le (list_to_map l) = l.
Proof.
  intros Hs. assert (NoDup l.*1) as Hnd.
  { clear -Hs. induction Hs as [|k ks _ IH Hk]; constructor; [|done]. intros Hin. rewrite Forall_forall in Hk. specialize (Hk _ Hin). lia. }
  unfold btree_iter. pose proof (map_to_list_to_map (M := gmap N) l Hnd) as Hp.
  assert (StronglySorted (key_le (A := bytes) N.le) l) as Hl.
  { clear -Hs. induction l as [|[k v] l IH]; [constructor|]. inversion Hs as [|? ? Hs' Hk]; subst. constructor; [by apply IH|].
    apply Forall_forall. intros [k' v'] Hin. unfold key_le. cbn. rewrite Forall_forall in Hk.
    assert (k' ∈ l.*1) as Hk' by (apply list_elem_of_fmap; by exists (k', v')). specialize (Hk _ Hk'). lia. }
  assert (Transitive (key_le (A := bytes) N.le)) by (intros [??] [??] [??]; unfold key_le; cbn; lia).
  assert (Total (key_le (A := bytes) N.le)) by (intros [??] [??]; unfold key_le; cbn; lia).
  pose proof (StronglySorted_merge_sort (key_le N.le) (map_to_list (list_to_map l : gmap N bytes))) as Hm.
  assert (merge_sort (key_le N.le) (map_to_list (list_to_map l : gmap N bytes)) ≡ₚ l) as Hperm by (by rewrite merge_sort_Permutation).
  revert Hm Hperm. generalize (merge_sort (key_le N.le) (map_to_list (list_to_map l : gmap N bytes))). clear Hp Hs.
  induction l as [|[k v] l IH]; intros l' Hm Hperm; [by apply Permutation_nil_r in Hperm|].
  destruct l' as [|[k' v'] l']; [by apply Permutation_nil_l in Hperm|].
  inversion Hl as [|? ? Hl1 Hl2]; subst. inversion Hm as [|? ? Hm1 Hm2]; subst. inversion Hnd as [|? ? Hnd1 Hnd2]; subst.
  assert ((k', v') = (k, v)) as [= -> ->].
  { assert ((k', v') ∈ (k, v) :: l) as Hin by (rewrite <- Hperm; left). apply elem_of_cons in Hin as [|Hin]; [done|].
    assert ((k, v) ∈ (k', v') :: l') as Hin' by (rewrite Hperm; left). apply elem_of_cons in Hin' as [|Hin']; [done|].
    rewrite Forall_forall in Hl2. specialize (Hl2 _ Hin). rewrite Forall_forall in Hm2. specialize (Hm2 _ Hin').
    unfold key_le in *. cbn in *. assert (k = k') as -> by lia. exfalso. apply Hnd1. apply list_elem_of_fmap. by exists (k', v'). }
  f_equal. apply IH; [done|done|done|]. by apply Permutation_cons_inv in Hperm.
Qed.

Definition pcr_pairs (l : list AzurePcrValue) : list (N * bytes) := (fun p => (pcr_index p, pcr_value p)) <$> l.
Lemma pcr_pairs_fst l : (pcr_pairs l).*1 = pcr_index <$> l.
Proof. unfold pcr_pairs. rewrite <- list_fmap_compose. done. Qed.
Lemma pcr_pairs_snd l : (pcr_pairs l).*2 = pcr_value <$> l.
Proof. unfold pcr_pairs. rewrite <- list_fmap_compose. done. Qed.
Lemma windows2_sorted l : windows2 (fun a b => pcr_index a <? pcr_index b) l = true -> StronglySorted N.lt (pcr_index <$> l).
Proof.
  induction l as [|a l IH]; intros Hw; [constructor|]. destruct l as [|b l]; [repeat constructor|].
  cbn [windows2] in Hw. apply andb_true_iff in Hw as [Hab%N.ltb_lt Hw]. specialize (IH Hw). rewrite fmap_cons.
  constructor; [done|]. rewrite fmap_cons in IH |- *. inversion IH as [|? ? _ Hf]; subst. constructor; [done|].
  eapply Forall_impl; [exact Hf|]. intros x Hx. cbn in Hx. lia.
Qed.

(** The PCR values of evidence or policy, in increasing order of index. *)
Definition pcrs_wf (l : list AzurePcrValue) : Prop :=
  1 <= blen l <= 16 /\ Forall (fun p => pcr_index p < 16) l /\ StronglySorted N.lt (pcr_index <$> l).
Lemma pcr_values_safe l :
  safe (pcr_values l) (fun m => pcrs_wf l /\ btree_iter N.le m = pcr_pairs l).
Proof.
  unfold pcr_values. pki. wp. bools.
  match goal with Hw : windows2 _ _ = true |- _ => apply windows2_sorted in Hw; rename Hw into Hs end.
  match goal with Hf : forallb _ _ = true |- _ => rename Hf into Hf' end.
  split; [split; [lia|split; [|done]]|].
  - apply Forall_forall. intros p Hp. rewrite forallb_forall in Hf'. apply list_elem_of_In, Hf' in Hp. by apply N.ltb_lt.
  - apply btree_iter_sorted. by rewrite pcr_pairs_fst.
Qed.

(** The pins that an allowlist holds. *)
Definition pin_of (values : list bytes) (sz : N) (pin : bytes) : Prop :=
  exists t, t ∈ values /\ hex_decode t = Some pin /\ blen pin = sz.
Lemma hex_allowlist_safe values sz : safe (hex_allowlist values sz) (fun s => forall pin, pin ∈ s -> pin_of values sz pin).
Proof.
  unfold hex_allowlist. pki. wp.
  assert (forall l acc, (forall t, t ∈ l -> t ∈ values) -> (forall pin, pin ∈ acc -> pin_of values sz pin) ->
    safe (for_each (allow_entry sz) acc l) (fun s => forall pin, pin ∈ s -> pin_of values sz pin)) as Hgo.
  { induction l as [|t l IH]; intros acc Hl Hacc; [done|]. rewrite for_each_cons. unfold allow_entry at 1. pki.
    apply safe_bind, safe_bind, safe_ensure. intros Hlen. bools. apply safe_bind, safe_ok_or. intros d Hd.
    apply safe_bind, safe_ensure. intros _. apply safe_bind, safe_ensure. intros _. cbn [safe].
    apply IH; [intros x Hx; apply Hl; by right|]. intros pin Hp. apply elem_of_union in Hp as [->%elem_of_singleton|]; [|by apply Hacc].
    exists t. split; [apply Hl; left|]. split; [done|]. apply hex_decode_Some in Hd as [Hd _]. lia. }
  by apply Hgo.
Qed.

Definition uuid_char (p : nat * byte) : bool :=
  if dash_position p.1 then Byte.eqb p.2 x2d else is_ascii_hexdigit p.2.
Lemma uuid_digits t k : forallb uuid_char (zip (seq k (length t)) t) = true ->
  length (filter (fun b => b <> x2d) t) = length (filter (fun i => dash_position i = false) (seq k (length t))).
Proof.
  revert k. induction t as [|b t IH]; intros k Hu; [done|]. cbn [length seq zip_with forallb] in Hu |- *.
  apply andb_true_iff in Hu as [Hb Hu]. specialize (IH _ Hu). rewrite !filter_cons. unfold uuid_char in Hb. cbn [fst snd] in Hb.
  destruct (dash_position k).
  - rewrite (decide_False (P := true = false)) by done. apply byte_eqb_eq in Hb as ->. by rewrite decide_False by tauto.
  - rewrite (decide_True (P := false = false)) by done. rewrite decide_True; [cbn; by rewrite IH|]. by intros ->.
Qed.
Lemma vm_id_safe t : safe (vm_id t) (fun id => blen id = 16 /\ hex_decode (filter (fun b => b <> x2d) t) = Some id).
Proof.
  unfold vm_id. pki. apply safe_bind, safe_ensure. intros Hu. apply andb_true_iff in Hu as [Hl%N.eqb_eq Hu].
  apply safe_bind, safe_ok_or. intros id Hd.
  assert (blen id = 16) as Hid.
  { pose proof (uuid_digits t 0 Hu) as Hc. apply hex_decode_Some in Hd as [Hd _]. unfold blen in *.
    assert (length t = 36%nat) as Ht by lia. rewrite Ht in Hc.
    replace (length (filter (fun i => dash_position i = false) (seq 0 36))) with 32%nat in Hc by (vm_compute; reflexivity). lia. }
  rewrite expect_len_eq by done. ok_step. wp. done.
Qed.
Lemma hex_uuid_safe id : blen id = 16 -> safe (hex_uuid id) (fun _ => True).
Proof.
  intros Hl. assert (blen (hex_encode id) = 32) as Hh by (unfold blen in *; rewrite length_hex_encode; lia). unfold hex_uuid.
  do 4 (apply safe_bind, safe_index_range; [lia..|]; intros ? _ _). apply safe_bind, safe_index_from; [lia|]. done.
Qed.

Section AzureSpec.
Context `{X : X509} `{K : CpuCrypto} `{H : Sha2} `{D : Kds} `{C : CborValues} `{J : IntelDocs} `{R : DerPrims} `{L : AzureLibs}.

(** The little-endian word of a report at an offset. *)
Definition word (b : bytes) (offset : N) : N := le_to_N (slice b offset (offset + 4)).
Record hcl_wf (b : bytes) (h : Hcl) : Prop := {
  hw_size : CLAIMS_OFFSET < word b 8 <= blen b;
  hw_fixed : word b 0 = 0x414c4348 /\ word b 4 = 2 /\ word b 12 = 2 /\ all_zero (slice b 16 32) = true;
  hw_padding : word b 8 = blen b \/ (blen b = HCL_NV_SIZE /\ all_zero (drop (N.to_nat (word b 8)) b) = true);
  hw_runtime : word b RUNTIME_OFFSET = word b 8 - RUNTIME_OFFSET /\ word b (RUNTIME_OFFSET + 4) = 1 /\
    word b (RUNTIME_OFFSET + 8) = 2 /\ word b (RUNTIME_OFFSET + 12) = 1 /\
    word b (RUNTIME_OFFSET + 16) = word b 8 - CLAIMS_OFFSET;
  hw_snp : hcl_snp h = slice b HCL_HEADER RUNTIME_OFFSET;
  hw_claims : hcl_claims h = slice b CLAIMS_OFFSET (word b 8);
  hw_binding : slice (hcl_snp h) 0x50 0x70 = sha256 (hcl_claims h) /\ all_zero (slice (hcl_snp h) 0x70 0x90) = true;
}.
Lemma hcl_le_run b o : o + 4 <= blen b -> hcl_le b o = Ok (word b o).
Proof. intros Ho. unfold hcl_le. rewrite index_range_slice by lia. done. Qed.
Lemma parse_hcl_safe b : safe (parse_hcl b) (hcl_wf b).
Proof.
  unfold parse_hcl. pki. apply safe_bind, safe_ensure. intros Hb. bools. unfold CLAIMS_OFFSET, RUNTIME_OFFSET, HCL_HEADER, SNP_SIZE in *.
  change (32 + 1184) with 1216 in *. change (1216 + 20) with 1236 in *.
  rewrite !(hcl_le_run b 0), !(hcl_le_run b 4), !(hcl_le_run b 12), !(hcl_le_run b 8) by lia. do 3 ok_step.
  apply safe_bind, safe_ensure. intros E1. bools. rewrite (index_range_slice b 16 32) by lia. ok_step.
  apply safe_bind, safe_ensure. intros E2. ok_step. apply safe_bind, safe_ensure. intros E3. bools.
  apply safe_bind, safe_index_from; [lia|].
  apply safe_bind, safe_ensure. intros E4. rewrite !hcl_le_run by lia. do 3 ok_step. apply safe_bind, safe_ensure. intros E5. do 2 ok_step.
  apply safe_bind, safe_ensure. intros E6. bools. rewrite !(index_range_slice b) by lia. do 2 ok_step.
  assert (blen (slice b 32 1216) = 1184) as Hs by (rewrite blen_slice by lia; lia).
  rewrite !index_range_slice by (rewrite ?Hs; lia). do 2 ok_step. apply safe_bind, safe_ensure. intros E7. bools. cbn [safe].
  split; cbn [hcl_snp hcl_claims]; unfold CLAIMS_OFFSET, RUNTIME_OFFSET, HCL_HEADER, SNP_SIZE in *; change (32 + 1184) with 1216; change (1216 + 20) with 1236; try done; try (split_and!; done); lia.
Qed.

(** The RSA key that a runtime JWK holds. *)
Definition jwk_key (k : RuntimeKey) (key : RsaPublicKey) : Prop :=
  rk_e k = lit "AQAB" /\ exists modulus, b64url_decode (rk_n k) = Some modulus /\ b64url_encode modulus = rk_n k /\
    blen modulus ∈ [256; 384; 512] /\ rsa_new modulus = Some key.
Lemma key_rsa_safe k : safe (key_rsa k) (jwk_key k).
Proof.
  unfold key_rsa. pki. apply safe_bind, safe_ensure. intros He. bools. apply safe_bind, safe_ok_or. intros m Hm.
  apply safe_bind. eapply (safe_mono _ (fun ok => ok = true -> blen m ∈ [256; 384; 512])).
  - destruct (_ || _) eqn:El; [|done]. rewrite !orb_true_iff, !N.eqb_eq in El.
    apply safe_bind, safe_index; [lia|]. intros x _ _. rewrite !elem_of_cons. naive_solver.
  - intros ok _ Hok. apply safe_bind, safe_ensure. intros Ht. apply safe_bind, safe_ensure. intros Hc. bools.
    apply safe_ok_or. intros key Hk. split; [done|]. exists m. auto.
Qed.

(** The runtime claims of a report: two distinct JWKs, of which the AK signs. *)
Record claims_wf (b : bytes) (c : RuntimeClaims) : Prop := {
  cw_parsed : claims_from_slice b = Some c;
  cw_keys : blen (keys c) = 2 /\ NoDup (kid <$> keys c);
  cw_key k : k ∈ keys c ->
    (kid k = lit "HCLAkPub" /\ key_ops k = [lit "sign"] \/ kid k = lit "HCLEkPub" /\ key_ops k = [lit "encrypt"]) /\
    exists key, jwk_key k key;
}.
Lemma check_jwk_safe seen k :
  safe (check_jwk seen k) (fun s => s = {[kid k]} ∪ seen /\ kid k ∉ seen /\
    (kid k = lit "HCLAkPub" /\ key_ops k = [lit "sign"] \/ kid k = lit "HCLEkPub" /\ key_ops k = [lit "encrypt"]) /\
    exists key, jwk_key k key).
Proof.
  unfold check_jwk. pki. apply safe_bind, safe_ensure. intros Hn%bool_decide_eq_true.
  eapply (safe_seq _ _ (fun op => kid k = lit "HCLAkPub" /\ op = lit "sign" \/ kid k = lit "HCLEkPub" /\ op = lit "encrypt")).
  { destruct (bytes_eqb (kid k) (lit "HCLAkPub")) eqn:E1; [apply bytes_eqb_eq in E1; by left|].
    destruct (bytes_eqb (kid k) (lit "HCLEkPub")) eqn:E2; [apply bytes_eqb_eq in E2; by right|done]. }
  intros op _ Hop. apply safe_bind, safe_ensure. intros [_ Ho%bool_decide_eq_true]%andb_true_iff.
  eapply safe_seq; [apply key_rsa_safe|]. intros key _ Hk. split; [done|]. split; [done|]. split; [|by exists key].
  rewrite Ho. naive_solver.
Qed.
Lemma parse_claims_safe b : safe (parse_claims b) (claims_wf b).
Proof.
  unfold parse_claims. pki. apply safe_bind, safe_ok_or. intros c Hc. apply safe_bind, safe_ensure. intros E2%N.eqb_eq.
  assert (exists k1 k2, keys c = [k1; k2]) as (k1 & k2 & Hk).
  { destruct (keys c) as [|k1 [|k2 [|? ?]]]; rewrite ?blen_cons, ?blen_nil in E2; try lia. by exists k1, k2. }
  rewrite Hk. eapply (safe_seq _ _ (fun _ => claims_wf b c)).
  - rewrite !for_each_cons. eapply safe_seq; [apply check_jwk_safe|]. intros s1 _ (-> & _ & Hk1 & HK1).
    eapply safe_seq; [apply check_jwk_safe|]. intros s2 _ (-> & Hn & Hk2 & HK2). cbn [for_each safe]. split; [done| |].
    + split; [done|]. rewrite Hk. cbn. repeat constructor; set_solver.
    + intros k Hin. rewrite Hk in Hin. rewrite !elem_of_cons, elem_of_nil in Hin. naive_solver.
  - intros _ _ Hw. apply safe_bind, safe_ensure. intros _. apply safe_bind, safe_ensure. intros _.
    eapply safe_seq; [apply vm_id_safe|]. done.
Qed.
Lemma ak_key_safe c : safe (ak_key c) (fun key => exists k, k ∈ keys c /\ kid k = lit "HCLAkPub" /\ jwk_key k key).
Proof.
  unfold ak_key. pki. apply safe_bind, safe_ok_or. intros k [Hin Hk]%find_some. eapply safe_mono; [apply key_rsa_safe|].
  intros key _ HK. exists k. by rewrite list_elem_of_In, <- bytes_eqb_eq.
Qed.

Record config_ok (c : RuntimeClaims) (p : AzureCompositePolicy) (id : bytes) : Prop := {
  co_flags : secure_boot (configuration c) = true /\ tpm_enabled (configuration c) = true /\ tpm_persisted (configuration c) = true;
  co_console : console_enabled (configuration c) = true -> allow_console p = true;
  co_vm : vm_id (vm_unique_id (configuration c)) = Ok id /\ vm_id (expected_vm_id p) = Ok id;
}.
Lemma check_policy_safe c p : safe (check_policy c p) (fun _ => exists id, config_ok c p id).
Proof.
  unfold check_policy. pki. apply safe_bind, safe_ensure. intros Hf. apply safe_bind, safe_ensure. intros Hc.
  eapply safe_seq; [apply vm_id_safe|]. intros a Ha _. eapply safe_seq; [apply vm_id_safe|]. intros b Hb _.
  apply safe_ensure. intros ->%bytes_eqb_eq. exists b. split; [|intros E; rewrite E in Hc; done|done].
  rewrite !andb_true_iff in Hf. tauto.
Qed.

(** The quote of the evidence: it is over the qualifying data of the challenge and the
    PCR values of the evidence, and the AK signed it. *)
Record quote_ok (ak : RsaPublicKey) (e : AzureCompositeEvidence) (rd : bytes) (a : Attest) : Prop := {
  qo_message : quote_message e = encode_attest a /\ attest_wf a;
  qo_fresh : at_extra a = qualifying_data rd;
  qo_selected : bitmap_indices (at_bitmap a) = pcr_index <$> ev_pcrs e;
  qo_digest : at_digest a = sha256 (mjoin (pcr_value <$> ev_pcrs e));
  qo_signed : exists sig, quote_signature e = N_to_be 2 RSASSA ++ N_to_be 2 SHA256_ALG ++ tpm2b sig /\
    blen sig = rsa_size ak /\ rsa_pkcs1_verify ak (sha256 (quote_message e)) sig = true;
}.
Lemma btree_keys_pairs (m : gmap N bytes) l : btree_iter N.le m = pcr_pairs l -> btree_keys N.le m = pcr_index <$> l.
Proof. unfold btree_keys. intros ->. apply pcr_pairs_fst. Qed.
Lemma reader_fit b : blen b <= usize_max -> cursor_fit (reader b).
Proof. intros Hb. split; unfold cursor_ok, reader; cbn; lia. Qed.
Lemma reader_total b n enc c : took (reader b) n enc c -> cur_offset c = blen b -> b = enc.
Proof.
  intros Ht He. pose proof (took_remaining _ _ _ _ Ht) as Hr. pose proof (took_ok _ _ _ _ Ht) as Hok.
  rewrite (proj1 (remaining_nil c Hok)), app_nil_r in Hr by (by rewrite (took_bytes _ _ _ _ Ht)).
  unfold remaining, reader in Hr. cbn [cur_bytes cur_offset N.to_nat] in Hr. by rewrite drop_0 in Hr.
Qed.
Lemma verify_quote_safe ak e rd : blen (quote_signature e) <= usize_max ->
  safe (verify_quote ak e rd) (fun q => exists a, quote_ok ak e rd a /\ q = quote_of a).
Proof.
  intros Hmax. unfold verify_quote, rd_u16. pki.
  eapply safe_seq; [apply decides_safe, parse_quote_decides|]. intros q _ (_ & a & Hm & Hw & ->). cbn [quote_of extra_data indices pq_digest].
  apply safe_bind, safe_ensure. intros Hx%bytes_eqb_eq. eapply safe_seq; [apply pcr_values_safe|]. intros m _ (Hp & Hit).
  rewrite (btree_keys_pairs _ _ Hit), Hit, pcr_pairs_snd.
  apply safe_bind, safe_ensure. intros Hi%bool_decide_eq_true. apply safe_bind, safe_ensure. intros Hd%bytes_eqb_eq.
  pose proof (reader_fit _ Hmax) as Hfit.
  eapply safe_seq; [by apply (rd_be_reads 2)|]. intros [s c1] R1 _. sound (rd_be_reads 2) R1.
  eapply safe_seq; [by apply rd_pair_safe|]. intros [ok c2] R2 Hf2. cbn [snd] in Hf2. apply safe_bind, safe_ensure. intros Hok.
  destruct (rd_pair_sound _ _ _ _ _ Hf R2 Hok) as (->%N.eqb_eq & _ & Ht2). apply (took_trans _ _ _ _ _ _ _ Ht) in Ht2. clear Ht Hf.
  eapply safe_seq; [by apply rd_tpm2b_reads|]. intros [sg c3] R3 _. sound rd_tpm2b_reads R3.
  apply safe_bind, safe_ensure. intros [Hsz%N.eqb_eq Hend%N.eqb_eq]%andb_true_iff. apply safe_bind, safe_ensure. intros Hv.
  exists a. split; [|done]. split; [done|done|done|done|]. exists sg. split; [|done].
  match goal with T : took (reader _) _ _ c3 |- _ => apply reader_total in T; [|done] end. by rewrite <- app_assoc in *.
Qed.

(** The TPM name of an enrolled public area, and the name of that key as a primary of the
    endorsement hierarchy. *)
Definition tpm_name (area : bytes) : bytes := N_to_be 2 SHA256_ALG ++ sha256 area.
Definition endorsement_name (area : bytes) : bytes :=
  N_to_be 2 SHA256_ALG ++ sha256 (N_to_be 4 0x4000000b ++ tpm_name area).
(** A restricted RSA-2048 signing key of the Microsoft template. *)
Definition area_prefix : bytes :=
  N_to_be 2 1 ++ N_to_be 2 SHA256_ALG ++ N_to_be 4 0x00050472 ++ tpm2b [] ++ N_to_be 2 0x0010 ++
  N_to_be 2 RSASSA ++ N_to_be 2 SHA256_ALG ++ N_to_be 2 2048 ++ N_to_be 4 0.
Definition enrolled_area (area pin name : bytes) : Prop :=
  exists modulus key der, area = area_prefix ++ tpm2b modulus /\ blen modulus = 256 /\ rsa_new modulus = Some key /\
    rsa_spki_der key = Some der /\ pin = sha256 der /\ name = endorsement_name area.

(** One field of the template, read and compared. *)
Ltac area_field R :=
  eapply safe_seq; [by apply R|]; let v := fresh "v" in let c := fresh "c" in let Hr := fresh "Hr" in
  intros [v c] Hr _; sound R Hr.
Ltac area_check := let E := fresh "Hc" in apply safe_bind, safe_ensure; intros E%N.eqb_eq.
Lemma enrolled_ak_name_safe area : safe (enrolled_ak_name area) (fun p => enrolled_area area p.1 p.2).
Proof.
  unfold enrolled_ak_name, rd_u16, rd_u32. pki. apply safe_bind, safe_ensure. intros Hl%N.eqb_eq.
  assert (cursor_fit (reader area)) as Hfit by (apply reader_fit; rewrite Hl; done).
  area_field (rd_be_reads 2).
  eapply safe_seq; [by apply rd_pair_safe|]. intros [ok c2] R2 Hf2. cbn [snd] in Hf2. apply safe_bind, safe_ensure. intros Hok.
  destruct (rd_pair_sound _ _ _ _ _ Hf R2 Hok) as (->%N.eqb_eq & _ & Ht2). apply (took_trans _ _ _ _ _ _ _ Ht) in Ht2. clear Ht Hf.
  area_field (rd_be_reads 4). area_check. subst. area_field rd_tpm2b_reads. area_check. apply blen_0 in Hc. subst.
  do 4 (area_field (rd_be_reads 2); area_check; subst). area_field (rd_be_reads 4). area_check. subst.
  area_field rd_tpm2b_reads.
  match goal with T : took (reader area) _ ?x ?c |- _ => rename T into Htot; rename c into cl end.
  match type of Htot with took _ _ (_ ++ tpm2b ?m) _ => rename m into modulus end.
  eapply (safe_seq _ _ (fun ok => ok = true -> blen modulus = 256 /\ cur_offset cl = blen area)).
  { destruct (N.eqb_spec (blen modulus) 256); [|done]. apply safe_bind, safe_index; [lia|]. intros b _.
    by intros [_ ?%N.eqb_eq]%andb_true_iff. }
  intros ok' _ Hok'. apply safe_bind, safe_ensure. intros Hs%Hok'. destruct Hs as [Hm Hend]. apply safe_bind, safe_ok_or. intros key Hk.
  apply safe_bind, safe_ok_or. intros der Hd. cbn [safe fst snd]. exists modulus, key, der.
  split; [|done]. apply reader_total in Htot; [|done]. unfold area_prefix. by rewrite <- !app_assoc in *.
Qed.

Lemma enrolled_ak_names_safe p :
  safe (enrolled_ak_names p) (fun m => forall pin name, m !! pin = Some name ->
    pin_of (allowed_ak_spki_sha256 p) 32 pin /\ exists area, area ∈ enrolled_ak_public_areas p /\ enrolled_area area pin name).
Proof.
  unfold enrolled_ak_names. pki. eapply safe_seq; [apply hex_allowlist_safe|]. intros pins _ Hpins.
  apply safe_bind, safe_ensure. intros _.
  set (I := fun m : gmap bytes bytes => forall pin name, m !! pin = Some name ->
    pin_of (allowed_ak_spki_sha256 p) 32 pin /\ exists area, area ∈ enrolled_ak_public_areas p /\ enrolled_area area pin name).
  assert (forall l acc, (forall t, t ∈ l -> t ∈ enrolled_ak_public_areas p) -> I acc -> safe (for_each (enroll pins) acc l) I) as Hgo.
  { induction l as [|t l IH]; intros acc Hl Hacc; [done|]. rewrite for_each_cons. unfold enroll at 1. pki.
    apply safe_bind. eapply safe_seq; [apply enrolled_ak_name_safe|]. intros [pin name] _ Ha. cbn [fst snd] in Ha.
    apply safe_bind, safe_ensure. intros Hp%bool_decide_eq_true. apply safe_bind, safe_ensure. intros _. cbn [safe].
    apply IH; [intros x Hx; apply Hl; by right|]. intros pin' name' Hlook.
    destruct (decide (pin = pin')) as [<-|Hne]; [rewrite lookup_insert_eq in Hlook; injection Hlook as <-|rewrite lookup_insert_ne in Hlook by done; by apply Hacc].
    split; [by apply Hpins|]. exists t. split; [apply Hl; left|done]. }
  apply Hgo; [done|]. intros pin name Hn. by rewrite lookup_empty in Hn.
Qed.
Lemma evidence_bounds_safe e : safe (evidence_bounds e) (fun _ =>
  blen (hcl_report e) <= HCL_NV_SIZE /\ blen (quote_message e) <= MAX_TPM_QUOTE /\ blen (quote_signature e) <= MAX_SIGNATURE).
Proof.
  unfold evidence_bounds. pki. apply safe_bind, safe_ensure. intros _. do 3 (apply safe_bind, safe_ensure; intros ?). bools.
  eapply safe_seq; [apply pcr_values_safe|]. done.
Qed.
Lemma azure_policy_safe p : safe (AzureCompositePolicy_validate p) (fun _ =>
  pcrs_wf (ap_expected_pcrs p) /\ exists v, v ∈ ap_expected_pcrs p /\ any_nonzero (pcr_value v) = true).
Proof.
  unfold AzureCompositePolicy_validate. pki. apply safe_bind, safe_ensure. intros _.
  eapply safe_seq; [apply enrolled_ak_names_safe|]. intros _ _ _. eapply safe_seq; [apply hex_allowlist_safe|]. intros _ _ _.
  eapply safe_seq; [apply vm_id_safe|]. intros _ _ _. eapply safe_seq; [apply pcr_values_safe|]. intros m _ [Hp _].
  apply safe_ensure. intros (v & Hv & Hn)%existsb_exists. split; [done|]. exists v. by rewrite list_elem_of_In.
Qed.

(** What an accepted composite says of the machine. *)
Record azure_ok (now : N) (e : AzureCompositeEvidence) (rd : bytes) (p : AzureCompositePolicy) (col : SnpCollateral)
    (tcb : SnpTcbPolicy) (v : VerifiedAzureComposite) (h : Hcl) (c : RuntimeClaims) (k : RuntimeKey)
    (ak : RsaPublicKey) (der area : bytes) (a : Attest) (ms : Measurements) : Prop := {
  az_hcl : hcl_wf (hcl_report e) h;
  az_claims : claims_wf (hcl_claims h) c;
  az_ak : k ∈ keys c /\ kid k = lit "HCLAkPub" /\ jwk_key k ak /\ rsa_spki_der ak = Some der;
  az_pinned : pin_of (allowed_ak_spki_sha256 p) 32 (sha256 der);
  az_enrolled : area ∈ enrolled_ak_public_areas p /\ enrolled_area area (sha256 der) (at_signer a);
  az_config : exists id, config_ok c p id;
  az_paravisor : pin_of (allowed_paravisor_measurements p) 48 (slice (hcl_snp h) 0x90 0xc0);
  az_quote : quote_ok ak e rd a;
  az_values : ev_pcrs e = ap_expected_pcrs p /\ pcrs_wf (ev_pcrs e) /\
    exists v, v ∈ ev_pcrs e /\ any_nonzero (pcr_value v) = true;
  az_cpu : expected_vmpl tcb = 0 /\
    admitted (hcl_snp h) (sha256 (hcl_claims h)) now SevSnp (Some (CollateralAmdSnp col)) (Some (PolicyAmdSnp tcb)) ms;
  az_result : v = {|
    az_measurements := <[lit "AZURE_EAT_REPORT_DATA" := rd]> (<[lit "AZURE_AK_QUALIFIED_NAME" := at_signer a]>
      (<[lit "AZURE_AK_SPKI_SHA256" := sha256 der]> (foldl insert_pcr (collect_map ms) (ev_pcrs e))));
    az_pcrs := ev_pcrs e; az_ak_spki_sha256 := sha256 der; az_vm_id := az_vm_id v; az_clock := at_clock a |};
}.

Lemma admission_snp_safe clk raw binding col pol :
  safe (verify_platform_quote_for_admission clk SevSnp raw binding col pol) (fun ms =>
    exists now, clk = Some now /\ admitted raw binding now SevSnp col pol ms).
Proof.
  unfold verify_platform_quote_for_admission, trusted_now. apply safe_bind, safe_reject_if. intros _.
  apply safe_bind, safe_ok_or. intros now ->. eapply safe_mono; [apply admit_snp_safe|]. eauto.
Qed.
Lemma azure_verify_safe clk e rd p col tcb : blen rd = 64 ->
  safe (azure_verify clk e rd p col tcb) (fun v => exists now h c k ak der area a ms,
    clk = Some now /\ azure_ok now e rd p col tcb v h c k ak der area a ms).
Proof.
  intros Hrd. unfold azure_verify. pki. eapply safe_seq; [apply evidence_bounds_safe|]. intros [] _ (Hb1 & _ & Hb2).
  eapply safe_seq; [apply azure_policy_safe|]. intros [] _ (Hpw & Hpn).
  eapply safe_seq; [apply validate_bounds_safe|]. intros [] _ _. eapply safe_seq; [apply policy_validate_safe|]. intros [] _ _.
  apply safe_bind, safe_index_range; [lia..|]. intros f _ _. apply safe_bind, safe_index_from; [lia|].
  apply safe_bind, safe_ensure. intros _. apply safe_bind, safe_ensure. intros Hv%N.eqb_eq.
  eapply safe_seq; [apply parse_hcl_safe|]. intros h _ Hh. eapply safe_seq; [apply parse_claims_safe|]. intros c _ Hc.
  eapply safe_seq; [apply ak_key_safe|]. intros ak _ (k & Hk1 & Hk2 & Hk3). apply safe_bind, safe_ok_or. intros der Hder.
  eapply safe_seq; [apply hex_allowlist_safe|]. intros pins _ Hpins. apply safe_bind, safe_ensure. intros Hpin%bool_decide_eq_true%Hpins.
  eapply safe_seq; [apply check_policy_safe|]. intros [] _ Hcfg.
  eapply safe_seq; [apply hex_allowlist_safe|]. intros pvs _ Hpvs.
  assert (blen (hcl_snp h) = 1184) as Hsnp.
  { rewrite (hw_snp _ _ Hh). rewrite blen_slice; [done|done|]. destruct (hw_size _ _ Hh). unfold CLAIMS_OFFSET, RUNTIME_OFFSET, HCL_HEADER, SNP_SIZE in *. lia. }
  rewrite index_range_slice by lia. ok_step. apply safe_bind, safe_ensure. intros Hm%bool_decide_eq_true%Hpvs.
  eapply safe_seq; [apply verify_quote_safe; unfold MAX_SIGNATURE, usize_max, u64_max in *; lia|]. intros q _ (a & Hq & ->).
  eapply safe_seq; [apply enrolled_ak_names_safe|]. intros names _ Hnames. apply safe_bind, safe_ok_or. intros en Hen.
  apply safe_bind, safe_ensure. intros Hs%bytes_eqb_eq. cbn [quote_of qualified_signer] in Hs. subst en.
  apply Hnames in Hen as (_ & area & Harea & Hen).
  apply safe_bind, safe_ensure. intros Hpcr%bool_decide_eq_true.
  eapply safe_seq; [apply safe_map_err, admission_snp_safe|]. intros ms _ (now & -> & Hms).
  eapply safe_seq; [apply vm_id_safe|]. intros id _ [Hid _]. eapply safe_seq; [by apply hex_uuid_safe|]. intros uuid _ _. cbn [safe].
  exists now, h, c, k, ak, der, area, a, ms. split; [done|]. split; try done. rewrite Hpcr. done.
Qed.
(** C13: the verifier of Azure evidence never panics, and a composite it accepts has a HCL
    report that carries the hash of its runtime claims; an attestation key that is pinned
    and enrolled; secure boot, TPM and persistence on, no console unless allowed, and the
    enrolled VM; an approved paravisor; a TPM quote signed by that key, under its enrolled
    name, over the challenge and over exactly the PCR values that the policy demands; and
    an SNP report that AMD collateral and policy admit. *)
Theorem azure_sound clk e rd p col tcb : blen rd = 64 ->
  safe (azure_verify clk e rd p col tcb) (fun v => exists now h c k ak der area a ms,
    clk = Some now /\ azure_ok now e rd p col tcb v h c k ak der area a ms).
Proof. apply azure_verify_safe. Qed.
End AzureSpec.

(** ** A concrete composite *)
Definition azure_sha2 : Sha2 := pinned_sha2 AMD_ARK_MILAN_SHA256.
Definition azure_modulus : bytes := replicate 256 x81.
Definition azure_jwk_n : bytes := replicate 342 x41.
Definition sample_vm_id : bytes := lit "11111111-2222-3333-4444-555555555555".
Definition sample_runtime : RuntimeClaims := {|
  keys := [{| kid := lit "HCLAkPub"; key_ops := [lit "sign"]; kty := lit "RSA"; rk_e := lit "AQAB"; rk_n := azure_jwk_n |};
           {| kid := lit "HCLEkPub"; key_ops := [lit "encrypt"]; kty := lit "RSA"; rk_e := lit "AQAB"; rk_n := azure_jwk_n |}];
  configuration := {| root_cert_thumbprint := []; console_enabled := false; secure_boot := true; tpm_enabled := true;
                      tpm_persisted := true; vm_unique_id := sample_vm_id; current_time := None |};
  rc_user_data := replicate 128 x30 |}.
Definition sample_azure_libs : AzureLibs := {|
  evidence_from_slice := fun _ => None; evidence_to_vec := fun _ => None; azure_policy_from_slice := fun _ => None;
  claims_from_slice := fun b => if bytes_eqb b [x7b; x7d] then Some sample_runtime else None;
  b64url_decode := fun t => if bytes_eqb t azure_jwk_n then Some azure_modulus else None;
  b64url_encode := fun _ => azure_jwk_n; RsaPublicKey := bytes; rsa_new := Some; rsa_spki_der := Some;
  rsa_size := blen; rsa_pkcs1_verify := fun k d s => bytes_eqb s (pad 256 (take 1 k ++ d)) |}.

Definition azure_snp_signed : bytes :=
  pad 8 [x02] ++ pad 44 [x00; x00; x02] ++ [x01; x00; x00; x00] ++ tcb_bytes ++ pad 16 []
  ++ sha256 (Sha2 := azure_sha2) [x7b; x7d] ++ pad 32 [] ++ replicate 48 x44 ++ pad 0xc0 [] ++ tcb_bytes ++ pad 24 []
  ++ sample_chip ++ tcb_bytes ++ pad 8 [] ++ tcb_bytes ++ pad 168 [].
Definition azure_snp_report : bytes :=
  azure_snp_signed ++ rev (pad 48 (x0a :: take 8 (sha384 (Sha2 := azure_sha2) azure_snp_signed))) ++ pad 464 [].
Definition azure_hcl : bytes :=
  N_to_le 4 0x414c4348 ++ N_to_le 4 2 ++ N_to_le 4 1238 ++ N_to_le 4 2 ++ pad 16 [] ++ azure_snp_report
  ++ N_to_le 4 22 ++ N_to_le 4 1 ++ N_to_le 4 2 ++ N_to_le 4 1 ++ N_to_le 4 2 ++ [x7b; x7d].
Definition azure_area : bytes := area_prefix ++ tpm2b azure_modulus.
Definition azure_pcrs : list AzurePcrValue :=
  [{| pcr_index := 0; pcr_value := replicate 32 x01 |}; {| pcr_index := 7; pcr_value := replicate 32 x02 |}].
Definition azure_rd : bytes := replicate 64 x0d.
Definition azure_attest (rd : bytes) : Attest := {|
  at_signer := endorsement_name (H := azure_sha2) azure_area; at_extra := qualifying_data (H := azure_sha2) rd;
  at_clock := {| clock := 5; reset_count := 1; restart_count := 2; firmware_version := 3 |}; at_bitmap := [x81; x00; x00];
  at_digest := sha256 (Sha2 := azure_sha2) (mjoin (pcr_value <$> azure_pcrs)) |}.
Definition azure_evidence_for (rd : bytes) : AzureCompositeEvidence := {|
  ev_version := 1; hcl_report := azure_hcl; quote_message := encode_attest (azure_attest rd);
  quote_signature := N_to_be 2 RSASSA ++ N_to_be 2 SHA256_ALG
    ++ tpm2b (pad 256 (take 1 azure_modulus ++ sha256 (Sha2 := azure_sha2) (encode_attest (azure_attest rd))));
  ev_pcrs := azure_pcrs |}.
Definition azure_evidence : AzureCompositeEvidence := azure_evidence_for azure_rd.
Definition azure_policy : AzureCompositePolicy := {|
  ap_version := 1; allowed_ak_spki_sha256 := [hex_encode (sha256 (Sha2 := azure_sha2) azure_modulus)];
  enrolled_ak_public_areas := [azure_area]; allowed_paravisor_measurements := [hex_encode (replicate 48 x44)];
  expected_vm_id := sample_vm_id; ap_expected_pcrs := azure_pcrs; allow_console := false |}.
Definition azure_run (rd : bytes) : res PkiError VerifiedAzureComposite :=
  azure_verify (X := amd_x509) (K := amd_cpu) (H := azure_sha2) (D := no_kds) (C := sample_cbor) (J := no_docs)
    (R := toy_der) (L := sample_azure_libs) (Some 15) azure_evidence rd azure_policy amd_collateral (amd_policy 2 5).
Example azure_replayed :
  azure_run (replicate 64 x0e) = Err (PkiMsg "Azure TPM quote does not bind the complete expected EAT report data").
Proof. vm_compute. reflexivity. Qed.
Lemma azure_sound_witness : exists v now h c k ak der area a ms,
  azure_run azure_rd = Ok v /\ Some 15 = Some now /\
  azure_ok (X := amd_x509) (K := amd_cpu) (H := azure_sha2) (C := sample_cbor) (J := no_docs)
    (R := toy_der) (L := sample_azure_libs) now azure_evidence azure_rd azure_policy amd_collateral (amd_policy 2 5)
    v h c k ak der area a ms.
Proof.
  pose proof (azure_sound (X := amd_x509) (K := amd_cpu) (H := azure_sha2) (D := no_kds) (C := sample_cbor) (J := no_docs)
    (R := toy_der) (L := sample_azure_libs) (Some 15) azure_evidence azure_rd azure_policy amd_collateral (amd_policy 2 5)
    eq_refl) as Hs.
  change (safe (azure_run azure_rd) (fun v => exists now h c k ak der area a ms, Some 15 = Some now /\
    azure_ok (X := amd_x509) (K := amd_cpu) (H := azure_sha2) (C := sample_cbor) (J := no_docs)
    (R := toy_der) (L := sample_azure_libs) now azure_evidence azure_rd azure_policy amd_collateral (amd_policy 2 5)
    v h c k ak der area a ms)) in Hs.
  assert (is_ok (azure_run azure_rd) = true) as Hok by (vm_compute; reflexivity).
  destruct (azure_run azure_rd) as [v|e| |]; [|discriminate Hok..].
  destruct Hs as (now & h & c & k & ak & der & area & a & ms & Hn & Ha).
  exists v, now, h, c, k, ak, der, area, a, ms. split; [reflexivity|split; [exact Hn|exact Ha]].
Defined.
