(* ===== verification/BootSafe.v ===== *)
(** * BootSafe: the boot verifiers always return ([src/v2/src/boot.rs], [boot/*.rs])

    The other files of the boot component say what an accepted log, image or command line
    means; this one shows that on every input the verifiers of a log that the parser
    accepted return: no slice is out of range, no [unwrap] fails, no loop runs out of the
    fuel of its model.  Clients that call them compose with these lemmas. *)
From S2P Require Import Prelude Bytes Ranges Text Crypto Boot Aael EventLog Replay CommandLine Runtime Uki UkiSelection UkiExecution UkiVerify.

Notation returns c := (safe c (fun _ => True)).

Section Safe.
Context {H : Sha2} {HL : Sha2Laws H}.

Lemma hash_returns alg b : returns (hash alg b).
Proof. unfold hash. repeat case_match; wp; done. Qed.
Lemma digest_returns v i alg : returns (authenticated_digest v i alg).
Proof. unfold authenticated_digest. wp. done. Qed.
Lemma expected_digest_returns v i alg d : returns (verify_expected_digest v i alg d).
Proof. unfold verify_expected_digest. eapply safe_seq; [apply digest_returns|]. intros x _ _. wp. done. Qed.
Lemma measured_bytes_returns v i alg b : returns (verify_measured_bytes v i alg b).
Proof.
  unfold verify_measured_bytes. eapply safe_seq; [apply digest_returns|]. intros x _ _.
  eapply safe_seq; [apply hash_returns|]. intros y _ _. wp. done.
Qed.
Lemma verify_dm_verity_returns m root : returns (verify_dm_verity m root).
Proof.
  unfold verify_dm_verity. apply safe_bind, safe_reject_if. intros _. apply safe_bind, safe_reject_if. intros _.
  eapply safe_seq; [apply scan_roothash_safe|]. intros o _ _. wp. done.
Qed.
Lemma command_line_returns v i alg profile : returns (authenticated_command_line v i alg profile).
Proof.
  unfold authenticated_command_line. destruct profile; [| |done]; rewrite res_bind_Ok; apply safe_bind, safe_ok_or; intros e _;
    destruct (kind (vlog v)); rewrite res_bind_Ok; apply safe_bind, safe_reject_if; intros _.
  1,2: eapply (safe_seq _ _ (fun _ => True)); [|intros t _ _; wp; done]; unfold grub_command_line; apply safe_bind, safe_ok_or; intros t _;
    apply safe_bind, safe_ok_or; intros m _; eapply safe_seq; [apply measured_bytes_returns|]; intros _ _ _; wp; done.
  all: eapply (safe_seq _ _ (fun _ => True)); [|intros t _ _; wp; done]; unfold load_options_command_line;
    eapply safe_seq; [apply measured_bytes_returns|]; intros _ _ _; wp; done.
Qed.
Lemma verified_dm_verity_returns v i alg profile root : returns (verified_dm_verity v i alg profile root).
Proof. eapply safe_seq; [apply command_line_returns|]. intros m _ _. apply verify_dm_verity_returns. Qed.

Lemma verify_returns log expected : log_wf log -> returns (verify log expected).
Proof. intros Hw. eapply safe_mono; [apply decides_safe, decides_verify, log_wf_registers, Hw|done]. Qed.
Lemma policy_returns p : returns (RuntimePolicy_validate p).
Proof.
  unfold RuntimePolicy_validate. wp. eapply (safe_mono _ (fun _ => True)); [|intros; wp; done].
  apply (safe_for_each _ (fun _ => True)); [done|]. intros n e _ _. by apply safe_bind, safe_RuntimeEvent_validate.
Qed.
Lemma runtime_step_returns v st ie : returns (runtime_step v st ie).
Proof.
  destruct st as [rs ix], ie as [i e]. cbn [runtime_step]. destruct (negb _); [done|].
  eapply safe_seq; [apply safe_parse_aael|]. intros r _ _. eapply safe_seq; [apply digest_returns|]. intros d _ _.
  eapply safe_seq; [apply hash_returns|]. intros h _ _. wp. done.
Qed.
Lemma verify_tdx_runtime_returns log expected policy : log_wf log -> returns (verify_tdx_runtime log expected policy).
Proof.
  intros Hw. unfold verify_tdx_runtime. eapply safe_seq; [apply policy_returns|]. intros _ _ _.
  apply safe_bind, safe_reject_if. intros _. apply safe_bind, safe_reject_if. intros Hf.
  eapply safe_seq; [by apply verify_returns|]. intros v _ _.
  eapply safe_seq; [apply (safe_for_each _ (fun _ => True)); [done|intros; apply runtime_step_returns]|]. intros [rs ix] _ _.
  apply safe_bind, safe_reject_if. intros _. apply safe_bind, safe_unwrap. unfold four_rtmrs in Hf.
  apply negb_false_iff, andb_true_iff in Hf as [_ Hf]. cbn [forallb] in Hf. rewrite !andb_true_iff in Hf. destruct Hf as (_ & _ & _ & Hf & _).
  destruct (auth_values expected !! (TPM_ALG_SHA384, 3)) as [d|]; [|done]. by exists d.
Qed.

(** ** UKI *)
Lemma section_digest_returns u s alg : uki_wf u -> section_ok (uki_bytes u) s -> returns (section_digest u s alg).
Proof.
  intros Hu Hs. unfold section_digest. apply safe_bind, safe_file_content; [done|done|]. intros b _ Hb.
  apply safe_bind, safe_unwrap. exists (virtual_size s - blen b). split; [apply checked_sub_Some; split; [done|lia]|].
  rewrite !hash_loaded_spec. repeat case_match; done.
Qed.
Lemma section_text_returns u s : uki_wf u -> section_ok (uki_bytes u) s -> returns (section_text u s).
Proof.
  intros Hu Hs. unfold section_text. apply safe_bind, safe_reject_if. intros _.
  apply safe_bind, safe_file_content; [done|done|]. intros b _ _.
  assert (default (blen b) (position (Byte.eqb x00) b) <= blen b) as Hp.
  { destruct (position (Byte.eqb x00) b) as [n|] eqn:Hn; cbn; [|lia]. apply position_Some in Hn as (Hn & _). lia. }
  apply safe_bind, safe_index_from; [done|]. apply safe_bind, safe_reject_if. intros _.
  apply safe_bind, safe_index_range; [lia|done|]. intros body _ _. wp. done.
Qed.
Lemma canonical_returns t : returns (canonical t).
Proof. unfold canonical. wp. done. Qed.
Lemma append_text_returns p : returns (append_text p).
Proof.
  unfold append_text. apply safe_bind, safe_reject_if. intros _.
  eapply safe_seq; [apply (safe_for_each _ (fun _ => True)); [done|]|].
  - intros line f _ _. unfold join_fragment. repeat case_match; wp; done.
  - intros out _ _. eapply safe_seq; [apply canonical_returns|]. done.
Qed.
Lemma execution_policy_returns p alg : returns (UkiExecutionPolicy_validate p alg).
Proof.
  unfold UkiExecutionPolicy_validate. eapply safe_seq; [apply hash_returns|]. intros d _ _. apply safe_bind, safe_reject_if. intros _.
  apply safe_bind. eapply (safe_mono _ (fun _ => True)); [destruct (base p); [done|apply canonical_returns]|]. intros _ _ _.
  eapply safe_seq; [apply (safe_for_each _ (fun _ => True)); [done|]|].
  - intros [] a _ _. apply safe_bind, safe_reject_if. intros _. eapply safe_seq; [apply append_text_returns|]. done.
  - intros _ _ _. apply safe_bind, safe_reject_if. intros _.
    eapply safe_seq; [apply (safe_for_each _ (fun _ => True)); [done|intros [] x _ _; wp; done]|]. intros _ _ _. wp. done.
Qed.
Lemma uki_policy_returns p : returns (UkiPolicy_validate p).
Proof.
  unfold UkiPolicy_validate. apply safe_bind. eapply (safe_mono _ (fun _ => True)).
  { destruct (selection p); [apply safe_UkiSelectionPolicy_validate|done]. }
  intros _ _ _. apply safe_bind. eapply (safe_mono _ (fun _ => True)); [destruct (execution p); [apply execution_policy_returns|done]|].
  intros _ _ _. eapply safe_seq; [apply hash_returns|]. intros d _ _. apply safe_bind, safe_reject_if. intros _.
  eapply safe_seq; [apply (safe_for_each _ (fun _ => True)); [done|intros [] [nm x] _ _; wp; done]|]. intros _ _ _. wp. done.
Qed.
Lemma record_text_returns v alg st i t : returns (record_text v alg st i t).
Proof.
  unfold record_text. eapply safe_seq; [apply canonical_returns|]. intros _ _ _. apply safe_bind, safe_ok_or. intros e _.
  apply safe_bind, safe_reject_if. intros _. eapply safe_seq; [apply measured_bytes_returns|]. done.
Qed.
Lemma apply_append_returns v alg b a st : returns (apply_append v alg b a st).
Proof.
  destruct a as [a|], st as [acc line]; [|done]. cbn [apply_append]. apply safe_bind, safe_reject_if. intros _.
  eapply safe_seq; [apply append_text_returns|]. intros t _ _. eapply safe_seq; [apply record_text_returns|]. done.
Qed.
Lemma uki_execution_returns v uki policy : returns (verify_uki_execution v uki policy).
Proof.
  unfold verify_uki_execution. eapply safe_seq; [apply execution_policy_returns|]. intros _ _ _. apply safe_bind, safe_ok_or. intros l _.
  eapply safe_seq; [apply (safe_for_each _ (fun _ => True)); [done|]|].
  { intros st s _ _. unfold recheck_section. eapply safe_seq; [apply measured_bytes_returns|]. intros _ _ _. apply safe_bind, safe_ok_or. intros d _.
    eapply safe_seq; [apply expected_digest_returns|]. done. }
  intros cov _ _. eapply (safe_seq _ _ (fun _ => True)).
  { destruct (base policy); [done|]. eapply safe_seq; [apply record_text_returns|]. done. }
  intros [acc line] _ _. eapply safe_seq; [apply apply_append_returns|]. intros [acc1 line1] _ _.
  eapply safe_seq; [apply apply_append_returns|]. intros [acc2 line2] _ _.
  eapply safe_seq; [apply (safe_for_each _ (fun _ => True)); [done|]|].
  { intros [[a s] o] x _ _. cbn [verify_addon]. apply safe_bind, safe_reject_if. intros _. apply safe_bind, safe_ok_or. intros e _.
    apply safe_bind, safe_reject_if. intros _. apply safe_bind, safe_ok_or. intros d _. eapply safe_seq; [apply expected_digest_returns|]. done. }
  intros [[acc3 s3] out] _ _. eapply safe_seq; [apply (safe_for_each _ (fun _ => True)); [done|]|].
  { intros st [i d] _ _. cbn [verify_other]. apply safe_bind, safe_ok_or. intros e _. apply safe_bind, safe_reject_if. intros _.
    apply safe_bind, safe_ok_or. intros x _. eapply safe_seq; [apply expected_digest_returns|]. done. }
  intros covd _ _. apply safe_bind, safe_reject_if. intros _. apply safe_bind, safe_reject_if. intros _. apply safe_bind.
  eapply (safe_mono _ (fun _ => True)); [|done]. destruct (execution_verity_root policy); [|done]. apply safe_bind, safe_ok_or. intros d _.
  eapply safe_seq; [apply verify_dm_verity_returns|]. done.
Qed.

Lemma verify_section_returns v u policy ds st s : uki_wf u -> section_ok (uki_bytes u) s -> is_Some (expected_sections policy !! name s) ->
  returns (verify_section v u policy ds st s).
Proof.
  intros Hu Hs [hex Hhex]. destruct st as [stream done_]. cbn [verify_section]. destruct stream as [|[i e] stream]; [done|]. rewrite res_bind_Ok.
  apply safe_bind, safe_reject_if. intros _. destruct stream as [|[j e'] stream]; [done|]. rewrite res_bind_Ok.
  apply safe_bind, safe_reject_if. intros _. eapply safe_seq; [apply measured_bytes_returns|]. intros _ _ _.
  eapply safe_seq; [by apply section_digest_returns|]. intros d _ _. eapply safe_seq; [apply expected_digest_returns|]. intros _ _ _.
  apply safe_bind, safe_unwrap. exists hex. split; [done|]. wp. done.
Qed.
Lemma selected_text_returns u chosen nm : uki_wf u -> (forall n s, chosen !! n = Some s -> section_ok (uki_bytes u) s) ->
  returns (selected_text u chosen nm).
Proof.
  intros Hu Hc. unfold selected_text. destruct (chosen !! nm) as [s|] eqn:Hs; [|done].
  eapply safe_seq; [apply section_text_returns; [done|by eapply Hc]|]. done.
Qed.
Lemma profile_number_returns v s alg i : returns (verify_uki_profile_number v s alg i).
Proof.
  unfold verify_uki_profile_number. destruct (profile_event s); [|done]. apply safe_bind, safe_reject_if. intros _.
  apply safe_bind, safe_ok_or. intros e _. apply safe_bind, safe_reject_if. intros _. eapply safe_seq; [apply measured_bytes_returns|]. done.
Qed.
Lemma verify_uki_returns v b policy : returns (verify_uki v b policy).
Proof.
  unfold verify_uki. eapply safe_seq; [apply uki_policy_returns|]. intros _ _ _. unfold Uki.parse.
  eapply safe_seq; [apply safe_parse_pe|]. intros u _ (Hu & Hb & _). eapply safe_seq; [apply hash_returns|]. intros d _ _.
  eapply safe_seq; [by apply safe_selected|]. intros chosen Hsel _. destruct (selected_Ok _ _ _ Hsel) as [Hov _].
  assert (forall n s, chosen !! n = Some s -> section_ok (uki_bytes u) s) as Hall.
  { intros n s Hs. apply (overlay_lookup _ _ _ _ _ Hov) in Hs as [Hin _].
    pose proof (uki_sections _ Hu) as Ha. rewrite Forall_forall in Ha. auto. }
  cbv zeta. apply safe_bind, safe_reject_if. intros Hexp. apply orb_false_iff in Hexp as [_ Hexp%negb_false_iff].
  rewrite forallb_forall in Hexp. eapply safe_seq; [apply (safe_for_each _ (fun _ => True)); [done|]|].
  { intros st s Hin _. apply verify_section_returns; [done| |].
    - apply list_elem_of_omap in Hin as (nm & _ & Hs). by eapply Hall.
    - apply list_elem_of_In, Hexp in Hin. by bools. }
  intros [stream done_] _ _. eapply (safe_seq _ _ (fun _ => True)).
  { unfold check_following. destruct stream as [|[i e] stream]; [done|]. eapply safe_seq; [apply digest_returns|]. intros x _ _.
    apply (safe_for_each _ (fun _ => True)); [done|]. intros [] nm _ _. eapply safe_seq; [apply hash_returns|]. intros y _ _. wp. done. }
  intros _ _ _. eapply safe_seq; [by apply selected_text_returns|]. intros line _ _. apply safe_bind.
  eapply (safe_mono _ (fun _ => True)).
  { destruct (expected_command_line policy); wp; done. }
  intros _ _ _. eapply (safe_seq _ _ (fun _ => True)).
  { unfold uki_dm_verity. destruct (expected_verity_root policy); [|done]. do 3 (apply safe_bind, safe_ok_or; intros ? _).
    eapply safe_seq; [apply verify_dm_verity_returns|]. done. }
  intros dm _ _. eapply (safe_seq _ _ (fun _ => True)); [destruct (selection policy); [apply profile_number_returns|done]|].
  intros profile _ _. eapply safe_seq; [by apply selected_text_returns|]. intros osrel _ _.
  eapply safe_seq; [by apply selected_text_returns|]. intros uname _ _. destruct (execution policy); [|done].
  eapply safe_seq; [apply uki_execution_returns|]. done.
Qed.

(** C20: the boot appraisal always returns: for a log that the parser accepted, whatever the
    registers, policies and image bytes, comparison with the registers, runtime events,
    the dm-verity commitment and the UKI explanation each return a result or an error
    (no slice out of range, no failed [unwrap], no loop that outruns its fuel). *)
Theorem boot_appraisal_returns bytes k limits aael log expected rt v i alg profile root image up :
  EventLog.parse bytes k limits aael = Ok log ->
  returns (verify log expected) /\ returns (verify_tdx_runtime log expected rt) /\
  returns (verified_dm_verity v i alg profile root) /\ returns (verify_uki v image up).
Proof.
  intros Hp%parse_wf. split; [by apply verify_returns|]. split; [by apply verify_tdx_runtime_returns|].
  split; [apply verified_dm_verity_returns|apply verify_uki_returns].
Qed.
End Safe.

Lemma boot_appraisal_returns_witness :
  returns (verify (H := toy_sha2) sample_parsed sample_registers).
Proof.
  destruct (boot_appraisal_returns (H := toy_sha2) (HL := toy_sha2_laws) sample_tpm_log Tpm2 default_limits false sample_parsed sample_registers
    sample_policy sample_verified 0 0 Grub [] [] sample_uki_policy) as [Hv _]; [vm_compute; reflexivity|exact Hv].
Defined.
