(* ===== verification/GpuCert.v ===== *)
(** * GpuCert: certificate paths of GPUs, switches and their manifests

    [src/v2/src/gpu/cert.rs]: a path, leaf first, that ends in a pinned root or is issued
    by one; the checks of each certificate depend on the purpose of the path.  The views
    of certificates and the elementary checks that both files share are those of [Pki]. *)
From S2P Require Import Prelude Bytes Text Crypto Pki Pem.

Inductive Purpose : Type := Device | Rim | OcspResponder.
#[global] Instance Purpose_eq_dec : EqDecision Purpose.
Proof. solve_decision. Defined.

(** What this file uses of the crates beyond [X509] and [CpuCrypto]. *)
Class GpuX509 := {
  (** [Certificate::decode]: a certificate and the rest of the reader *)
  cert_decode : bytes -> option (Certificate * bytes);
  (** [to_der] of a certificate *)
  cert_to_der : Certificate -> option bytes;
  (** PKCS #1 v1.5: key, digest, signature; the hash is that of the digest's length *)
  rsa_v15_verify : bytes -> bytes -> bytes -> bool;
  (** [der::asn1::Null::from_der] *)
  null_ok : bytes -> bool;
  (** the files under [gpu/roots] *)
  device_identity_pem : bytes;
  rim_signing_pem : bytes;
  rim_ca001_pem : bytes;
}.

(** [==] of certificates: the encodings determine the structures. *)
Definition same_cert (c d : Certificate) : bool :=
  bytes_eqb (tbs_der c) (tbs_der d) && bool_decide (signature_algorithm c = signature_algorithm d)
  && bytes_eqb (raw_bytes (cert_signature c)) (raw_bytes (cert_signature d))
  && (unused_bits (cert_signature c) =? unused_bits (cert_signature d)).

(** A path that [validate_chain] accepted, its root included. *)
Record ValidatedChain : Type := { certificates : list Certificate }.

Section Cert.
Context `{X : X509} `{K : CpuCrypto} `{H : Sha2} `{GX : GpuX509}.

Fixpoint parse_pem_certs (fuel : nat) (rest : bytes) (acc : list Certificate) : res PkiError (list Certificate) :=
  if blen rest =? 0 then Ok acc
  else
    match fuel with
    | O => NoFuel
    | S fuel =>
      rest ← orelse (strip_prefix BEGIN_CERT rest) "unexpected text in certificate PEM";
      end_ ← orelse (find_sub END_CERT rest) "unterminated certificate PEM";
      body ← index_range rest 0 end_;
      der ← orelse (base64_decode (List.filter (fun c => negb (is_ascii_whitespace c)) body)) "invalid certificate base64";
      c ← orelse (cert_from_der der) "invalid certificate DER";
      rest ← index_from rest (end_ + blen END_CERT);
      need (blen (acc ++ [c]) <=? MAX_CHAIN_CERTS) "too many certificates";;
      parse_pem_certs fuel (str_trim rest) (acc ++ [c])
    end.
Fixpoint parse_der_certs (fuel : nat) (rest : bytes) (acc : list Certificate) : res PkiError (list Certificate) :=
  if blen rest =? 0 then Ok acc
  else
    match fuel with
    | O => NoFuel
    | S fuel =>
      '(c, rest) ← orelse (cert_decode rest) "invalid concatenated certificate DER";
      need (blen (acc ++ [c]) <=? MAX_CHAIN_CERTS) "too many certificates";;
      parse_der_certs fuel rest (acc ++ [c])
    end.
Definition unseen_cert (seen : gset bytes) (c : Certificate) : res PkiError (gset bytes) :=
  der ← orelse (cert_to_der c) "encoding";
  need (bool_decide (der ∉ seen)) "duplicate certificate in chain";;
  Ok ({[der]} ∪ seen).
(** A path has at most twelve certificates, so thirteen rounds are enough. *)
Definition PARSE_FUEL : nat := 13.
Definition starts_pem (b : bytes) : bool :=
  match List.find (fun c => negb (is_ascii_whitespace c)) b with Some c => Byte.eqb c x2d | None => false end.
Definition parse_certificates (b : bytes) : res PkiError (list Certificate) :=
  need (negb (blen b =? 0) && (blen b <=? MAX_CHAIN_BYTES)) "certificate chain size outside limit";;
  certs ← (if starts_pem b
           then text ← orelse (from_utf8 b) "PEM is not UTF-8"; parse_pem_certs PARSE_FUEL (str_trim text) []
           else parse_der_certs PARSE_FUEL b []);
  need (negb (blen certs =? 0)) "empty certificate chain";;
  for_each unseen_cert ∅ certs;;
  Ok certs.

Definition pinned_device_roots : res PkiError (list Certificate) := parse_certificates device_identity_pem.
Definition pinned_rim_roots : res PkiError (list Certificate) :=
  roots ← parse_certificates rim_signing_pem;
  more ← parse_certificates rim_ca001_pem;
  Ok (roots ++ more).

(** ** One certificate *)
Definition gpu_known_critical (oid : bytes) : bool :=
  known_critical oid || bytes_eqb oid (lit "1.3.6.1.5.5.7.48.1.5").
Definition check_gpu_extension (seen : gset bytes) (e : Extension) : res PkiError (gset bytes) :=
  need (bool_decide (extn_id e ∉ seen)) "duplicate certificate extension";;
  need (negb (unsupported_constraint (extn_id e))) "unsupported name/policy constraints";;
  (if critical e then need (gpu_known_critical (extn_id e)) "unsupported critical certificate extension" else Ok tt);;
  Ok ({[extn_id e]} ∪ seen).
Definition check_gpu_certificate (c : Certificate) (now : N) : res PkiError unit :=
  need (bool_decide (cert_version c = V3)) "only X.509 v3 certificates are supported";;
  need (negb (has_unique_ids c)) "unique identifiers are outside the supported PKIX profile";;
  need (not_before c <=? now) "certificate is not yet valid";;
  need (now <=? not_after c) "certificate has expired";;
  need (bool_decide (tbs_signature c = signature_algorithm c)) "certificate inner/outer signature algorithms differ";;
  need (negb (blen (subject c) =? 0)) "empty certificate subject is unsupported";;
  for_each check_gpu_extension ∅ (extensions c);;
  bc ← got (get_basic_constraints c);
  match bc with
  | Some (_, bc) => need (ca bc || bool_decide (path_len_constraint bc = None)) "path length on non-CA certificate"
  | None => Ok tt
  end;;
  usage ← key_usage c;
  need (negb (encipher_only usage || decipher_only usage) || key_agreement usage)
    "encipherOnly/decipherOnly requires keyAgreement";;
  got (get_eku c);; got (get_aki c);; got (get_ski c);;
  check_key c.

Definition NO_CHECK : bytes := lit "1.3.6.1.5.5.7.48.1.5".
Definition purpose_oid (p : Purpose) : bytes :=
  match p with Rim => lit "1.3.6.1.5.5.7.3.3" | OcspResponder => lit "1.3.6.1.5.5.7.3.9" | Device => lit "2.5.29.37.0" end.
Definition check_extended_usage (c : Certificate) (p : Purpose) (leaf : bool) : res PkiError unit :=
  match List.find (fun e => bytes_eqb (extn_id e) NO_CHECK) (extensions c) with
  | Some no_check =>
    need (bool_decide (p = OcspResponder) && leaf) "id-pkix-ocsp-nocheck is only valid for a delegated OCSP signer";;
    need (null_ok (extn_value no_check)) "invalid OCSP no-check extension"
  | None => Ok tt
  end;;
  eku ← got (get_eku c);
  (if bool_decide (p = OcspResponder) && leaf
   then need (match eku with Some (_, v) => existsb (bytes_eqb (lit "1.3.6.1.5.5.7.3.9")) v | None => false end)
          "delegated responder lacks id-kp-OCSPSigning"
   else Ok tt);;
  match eku with
  | Some (_, v) =>
    need (negb (blen v =? 0)) "empty extended key usage";;
    need (existsb (fun o => bytes_eqb o (purpose_oid p) || bytes_eqb o (lit "2.5.29.37.0")) v)
      "extended key usage excludes requested purpose"
  | None => Ok tt
  end.

(** ** Signatures *)
Definition signature_digest (oid signed : bytes) : option (bytes * bool) :=
  if bytes_eqb oid (lit "1.2.840.10045.4.3.2") then Some (sha256 signed, true)
  else if bytes_eqb oid (lit "1.2.840.10045.4.3.3") then Some (sha384 signed, true)
  else if bytes_eqb oid (lit "1.2.840.10045.4.3.4") then Some (sha512 signed, true)
  else if bytes_eqb oid (lit "1.2.840.113549.1.1.11") then Some (sha256 signed, false)
  else if bytes_eqb oid (lit "1.2.840.113549.1.1.12") then Some (sha384 signed, false)
  else if bytes_eqb oid (lit "1.2.840.113549.1.1.13") then Some (sha512 signed, false)
  else None.
Definition verify_gpu_signature (iss : Certificate) (a : AlgorithmIdentifier) (signed sig : bytes) : res PkiError unit :=
  '(digest, ecdsa) ← orelse (signature_digest (alg_oid a) signed) "unsupported signature algorithm";
  if ecdsa : bool then
    need (bool_decide (alg_params a = None)) "ECDSA signature parameters must be absent";;
    need (bytes_eqb (alg_oid (spki_algorithm iss)) EC_KEY) "ECDSA signature requires EC key";;
    oid ← curve iss;
    if bytes_eqb oid P384_OID then verify_ecdsa p384 iss digest sig
    else if bytes_eqb oid P256_OID then verify_ecdsa p256 iss digest sig
    else Err (PkiMsg "unsupported signature curve")
  else
    need (bytes_eqb (alg_oid (spki_algorithm iss)) RSA_KEY) "RSA signature requires RSA key";;
    check_null_or_absent a;;
    bits ← orelse (rsa_bits (spki_der iss)) "invalid RSA key";
    need ((3072 <=? bits) && (bits <=? 8192)) "RSA key outside supported 3072-8192 bit range";;
    (if (blen digest =? 32) || (blen digest =? 48) || (blen digest =? 64) then Ok tt else Panic);;
    need (rsa_v15_verify (spki_der iss) digest sig) "RSA verification failed".
Definition verify_gpu_cert_signature (c iss : Certificate) : res PkiError unit :=
  need (bool_decide (issuer c = subject iss)) "certificate issuer/subject names differ";;
  aki ← got (get_aki c);
  match aki with Some (_, aki) => check_authority_key_id aki iss | None => Ok tt end;;
  need (bool_decide (tbs_signature c = signature_algorithm c)) "certificate inner/outer signature algorithms differ";;
  sig ← orelse (as_bytes (cert_signature c)) "certificate signature is not byte-aligned";
  verify_gpu_signature iss (signature_algorithm c) (tbs_der c) sig.

(** ** The path *)
(** The pinned root that issued the end of a path. *)
Definition issuing_root (roots : list Certificate) (tail : Certificate) : option Certificate :=
  List.find (fun root => bool_decide (issuer tail = subject root) && is_ok (verify_gpu_cert_signature tail root)) roots.
Definition complete_path (roots certs : list Certificate) : res PkiError (list Certificate) :=
  tail ← unwrap (last certs);
  if existsb (fun root => same_cert root tail) roots then Ok certs
  else
    root ← orelse (issuing_root roots tail) "certificate chain does not terminate at a pinned root";
    need (blen certs <? MAX_CHAIN_CERTS) "certificate path exceeds depth limit";;
    Ok (certs ++ [root]).
Definition check_gpu_issuer (all : list Certificate) (i : N) (c : Certificate) : res PkiError unit :=
  g ← got (get_basic_constraints c);
  bc ← orelse g "issuer lacks basic constraints";
  need (ca bc.2) "issuer is not a CA";;
  need bc.1 "CA basic constraints must be critical";;
  u ← key_usage c;
  need (key_cert_sign u) "issuer lacks keyCertSign";;
  between ← index_range all 1 i;
  match path_len_constraint bc.2 with
  | Some limit => need (blen (filter (fun c => not_self_issued c = true) between) <=? limit) "CA path length constraint exceeded"
  | None => Ok tt
  end;;
  below ← index all (i - 1);
  verify_gpu_cert_signature below c.
Definition check_gpu_path_cert (all : list Certificate) (now : N) (p : Purpose) (i : N) (c : Certificate) : res PkiError unit :=
  check_gpu_certificate c now;;
  check_extended_usage c p (i =? 0);;
  (if 0 <? i then check_gpu_issuer all i c else Ok tt).
Definition check_gpu_leaf (leaf : Certificate) (p : Purpose) : res PkiError unit :=
  u ← key_usage leaf;
  need (digital_signature u) "leaf lacks digitalSignature usage";;
  (if negb (bool_decide (p = Device)) then
     bc ← got (get_basic_constraints leaf);
     match bc with Some (_, bc) => need (negb (ca bc)) "RIM/OCSP signer must be an end entity" | None => Ok tt end;;
     u ← key_usage leaf;
     need (negb (key_cert_sign u)) "RIM/OCSP leaf cannot sign certificates"
   else Ok tt);;
  (if negb (bool_decide (p = OcspResponder)) then
     need_ec ← (if bytes_eqb (alg_oid (spki_algorithm leaf)) EC_KEY then oid ← curve leaf; Ok (bytes_eqb oid P384_OID) else Ok false);
     need need_ec "NVIDIA attestation/RIM leaf must use P-384"
   else Ok tt).
Definition validate_gpu_chain (b : bytes) (roots : list Certificate) (now : N) (p : Purpose) : res PkiError ValidatedChain :=
  need (negb (blen roots =? 0)) "no pinned trust roots";;
  certs ← parse_certificates b;
  certs ← complete_path roots certs;
  need (2 <=? blen certs) "a trust anchor alone is not an attestation signing chain";;
  for_each (fun i c => check_gpu_path_cert certs now p i c;; Ok (i + 1)) 0 certs;;
  leaf ← index certs 0;
  check_gpu_leaf leaf p;;
  root ← unwrap (last certs);
  need (bool_decide (issuer root = subject root)) "configured trust root must be self-issued";;
  verify_gpu_cert_signature root root;;
  Ok {| certificates := certs |}.
End Cert.

(** * What a validated path satisfies *)
Section CertSpec.
Context `{X : X509} `{K : CpuCrypto} `{H : Sha2} `{GX : GpuX509}.

(** [d], the certificate at position [i], may issue the one below it. *)
Record gpu_issuer (all : list Certificate) (i : N) (d : Certificate) : Prop := {
  gi_ca : exists bc, get_basic_constraints d = Some (Some (true, bc)) /\ ca bc = true /\
    forall limit, path_len_constraint bc = Some limit ->
      blen (filter (fun c => not_self_issued c = true) (slice all 1 i)) <= limit;
  gi_sign : exists b u, get_key_usage d = Some (Some (b, u)) /\ key_cert_sign u = true;
}.
Record gpu_leaf (c : Certificate) (p : Purpose) : Prop := {
  gl_sign : exists b u, get_key_usage c = Some (Some (b, u)) /\ digital_signature u = true /\
    (p <> Device -> key_cert_sign u = false);
  gl_entity : p <> Device -> forall b bc, get_basic_constraints c = Some (Some (b, bc)) -> ca bc = false;
  gl_p384 : p <> OcspResponder -> alg_oid (spki_algorithm c) = EC_KEY /\ curve c = Ok P384_OID;
}.
(** A path of two to twelve certificates, leaf first, from [roots] at [now]. *)
Record gpu_path (roots : list Certificate) (now : N) (p : Purpose) (certs : list Certificate) : Prop := {
  gp_size : 2 <= blen certs <= MAX_CHAIN_CERTS;
  gp_cert i c : certs !! i = Some c -> check_gpu_certificate c now = Ok tt /\
    check_extended_usage c p (N.of_nat i =? 0) = Ok tt;
  gp_link i c d : certs !! i = Some c -> certs !! S i = Some d ->
    verify_gpu_cert_signature c d = Ok tt /\ gpu_issuer certs (N.of_nat (S i)) d;
  gp_leaf : exists c, certs !! 0%nat = Some c /\ gpu_leaf c p;
  gp_root : exists r root, last certs = Some r /\ root ∈ roots /\ same_cert root r = true /\
    issuer r = subject r /\ verify_gpu_cert_signature r r = Ok tt;
}.

Ltac go :=
  repeat first
    [ progress (pki; wp)
    | match goal with
      | |- safe (match ?x with _ => _ end) _ => destruct x
      | |- safe (if ?x then _ else _) _ => destruct x
      | |- safe (match ?x with _ => _ end ≫= _) _ => apply safe_bind
      end
    | done ].

Lemma pem_certs_safe fuel rest acc : blen acc <= MAX_CHAIN_CERTS -> MAX_CHAIN_CERTS - blen acc < N.of_nat fuel ->
  safe (parse_pem_certs fuel rest acc) (fun cs => blen cs <= MAX_CHAIN_CERTS).
Proof.
  revert rest acc. induction fuel as [|fuel IH]; intros rest acc Ha Hf; [lia|]. cbn [parse_pem_certs].
  destruct (blen rest =? 0); [done|]. pki. apply safe_bind, safe_ok_or. intros rest1 _. apply safe_bind, safe_ok_or. intros e He.
  apply find_sub_Some in He as (pre & post & -> & <-). apply safe_bind, safe_index_range; [lia|rewrite !blen_app; lia|]. intros body _ _.
  apply safe_bind, safe_ok_or. intros der _. apply safe_bind, safe_ok_or. intros c _.
  apply safe_bind, safe_index_from; [rewrite !blen_app; lia|]. apply safe_bind, safe_ensure. intros Hl%N.leb_le.
  rewrite blen_app in Hl. change (blen [c]) with 1 in Hl. apply IH; rewrite blen_app; change (blen [c]) with 1; lia.
Qed.
Lemma der_certs_safe fuel rest acc : blen acc <= MAX_CHAIN_CERTS -> MAX_CHAIN_CERTS - blen acc < N.of_nat fuel ->
  safe (parse_der_certs fuel rest acc) (fun cs => blen cs <= MAX_CHAIN_CERTS).
Proof.
  revert rest acc. induction fuel as [|fuel IH]; intros rest acc Ha Hf; [lia|]. cbn [parse_der_certs].
  destruct (blen rest =? 0); [done|]. pki. apply safe_bind, safe_ok_or. intros [c rest1] _. apply safe_bind, safe_ensure. intros Hl%N.leb_le.
  rewrite blen_app in Hl. change (blen [c]) with 1 in Hl. apply IH; rewrite blen_app; change (blen [c]) with 1; lia.
Qed.
Lemma parse_certificates_safe b : safe (parse_certificates b) (fun cs => 1 <= blen cs <= MAX_CHAIN_CERTS).
Proof.
  unfold parse_certificates. pki. apply safe_bind, safe_ensure. intros _. eapply (safe_seq _ _ (fun cs => blen cs <= MAX_CHAIN_CERTS)).
  { destruct (starts_pem b); [|apply der_certs_safe; by vm_compute]. apply safe_bind, safe_ok_or. intros t _.
    apply pem_certs_safe; by vm_compute. }
  intros cs _ Hm. apply safe_bind, safe_ensure. intros Hn. bools.
  eapply safe_seq; [apply (safe_for_each _ (fun _ => True)); [done|]|].
  - intros s c _ _. unfold unseen_cert. pki. apply safe_bind, safe_ok_or. intros d _. by apply safe_bind, safe_ensure.
  - intros _ _ _. cbn [safe]. lia.
Qed.
Lemma check_gpu_certificate_safe c now : safe (check_gpu_certificate c now) (fun _ => True).
Proof.
  unfold check_gpu_certificate. pki. wp. eapply safe_mono.
  { apply (safe_for_each _ (fun _ => True)); [done|]. intros s e _ _. unfold check_gpu_extension. pki. wp. destruct (critical e); by wp. }
  intros _ _ _. apply safe_bind, safe_ok_or. intros bc _. apply safe_bind.
  eapply (safe_mono _ (fun _ => True)); [destruct bc as [[]|]; go|]. intros _ _ _.
  eapply safe_seq; [apply key_usage_safe|]. intros u _ _. go. apply check_key_safe.
Qed.
Lemma check_extended_usage_safe c p leaf : safe (check_extended_usage c p leaf) (fun _ => True).
Proof. unfold check_extended_usage. go. Qed.
Lemma digest_length oid m d e : Sha2Laws H -> signature_digest oid m = Some (d, e) -> blen d = 32 \/ blen d = 48 \/ blen d = 64.
Proof.
  intros HL. unfold signature_digest. repeat case_match; intros Hs; simplify_eq;
    unfold blen; rewrite ?sha256_length, ?sha384_length, ?sha512_length; auto.
Qed.
Context {HL : Sha2Laws H}.
Lemma verify_gpu_signature_safe iss a m s : safe (verify_gpu_signature iss a m s) (fun _ => True).
Proof.
  unfold verify_gpu_signature. pki. apply safe_bind, safe_ok_or. intros [d e] Hd. apply digest_length in Hd; [|done].
  destruct e.
  - unfold curve, verify_ecdsa, public_key. go.
  - unfold check_null_or_absent. pki. apply safe_bind, safe_ensure. intros _. apply safe_bind.
    eapply (safe_mono _ (fun _ => True)); [destruct (alg_params a); [by apply safe_ensure|done]|]. intros _ _ _.
    apply safe_bind, safe_ok_or. intros n _. apply safe_bind, safe_ensure. intros _.
    destruct Hd as [-> |[-> | ->]]; cbn [orb N.eqb Pos.eqb]; ok_step; by apply safe_ensure.
Qed.
Lemma verify_gpu_cert_signature_safe c iss : safe (verify_gpu_cert_signature c iss) (fun _ => True).
Proof.
  unfold verify_gpu_cert_signature. pki. apply safe_bind, safe_ensure. intros _. apply safe_bind, safe_ok_or. intros aki _.
  apply safe_bind. eapply (safe_mono _ (fun _ => True)); [destruct aki as [[]|]; [apply check_authority_key_id_safe|done]|].
  intros _ _ _. apply safe_bind, safe_ensure. intros _. apply safe_bind, safe_ok_or. intros s _. apply verify_gpu_signature_safe.
Qed.
Lemma same_cert_refl c : same_cert c c = true.
Proof. unfold same_cert. by rewrite !(proj2 (bytes_eqb_eq _ _) eq_refl), bool_decide_eq_true_2, N.eqb_refl. Qed.
Lemma complete_path_safe roots certs : 1 <= blen certs <= MAX_CHAIN_CERTS ->
  safe (complete_path roots certs) (fun all => blen all <= MAX_CHAIN_CERTS /\
    exists r root, last all = Some r /\ root ∈ roots /\ same_cert root r = true).
Proof.
  intros Hl. unfold complete_path. apply safe_bind, safe_unwrap.
  destruct (last certs) as [tail|] eqn:Et; [|apply last_None in Et; subst; vm_compute in Hl; by destruct Hl].
  exists tail. split; [done|]. destruct (existsb _ roots) eqn:Ee.
  - apply existsb_exists in Ee as (root & Hin%list_elem_of_In & Hs). cbn [safe]. split; [lia|]. by exists tail, root.
  - pki. apply safe_bind, safe_ok_or. intros root Hr. apply safe_bind, safe_ensure. intros Hm%N.ltb_lt. cbn [safe].
    rewrite blen_app. change (blen [root]) with 1. split; [lia|]. exists root, root. rewrite last_snoc.
    apply find_some in Hr as [Hin%list_elem_of_In _]. auto using same_cert_refl.
Qed.

(** A loop that counts its items checks each at its position. *)
Lemma numbered_safe {E A} (f : N -> A -> res E unit) (I : N -> A -> Prop) l n :
  (forall i x, l !! i = Some x -> safe (f (n + N.of_nat i) x) (fun _ => I (n + N.of_nat i) x)) ->
  safe (for_each (fun i c => f i c;; Ok (i + 1)) n l) (fun _ => forall i x, l !! i = Some x -> I (n + N.of_nat i) x).
Proof.
  revert n. induction l as [|x l IH]; intros n Hf; [done|]. rewrite for_each_cons.
  assert (safe (f n x) (fun _ => I n x)) as Hx by (specialize (Hf 0%nat x eq_refl); by rewrite N.add_0_r in Hf).
  destruct (f n x) as [[]|e| |]; cbn in Hx; try done. rewrite !res_bind_Ok.
  eapply safe_mono.
  - apply IH. intros i y Hy. specialize (Hf (S i) y Hy). replace (n + 1 + N.of_nat i) with (n + N.of_nat (S i)) by lia. exact Hf.
  - intros m' _ Hl [|i] y Hy; cbn in Hy; [simplify_eq; by rewrite N.add_0_r|].
    replace (n + N.of_nat (S i)) with (n + 1 + N.of_nat i) by lia. by apply Hl.
Qed.
Lemma key_usage_Ok c u : key_usage c = Ok u -> exists b, get_key_usage c = Some (Some (b, u)).
Proof. unfold key_usage. pki. intros Hk. inv_res. destruct (get_key_usage c) as [[[b v]|]|]; simplify_eq/=. eauto. Qed.
Lemma get_nat {A} (l : list A) i x : l !! i = Some x -> get l (N.of_nat i) = Some x.
Proof. intros Hx. apply get_Some. rewrite Nat2N.id. split; [|done]. apply lookup_lt_Some in Hx. unfold blen. lia. Qed.
Lemma check_gpu_issuer_safe all i d : 1 <= i -> i < blen all ->
  safe (check_gpu_issuer all i d) (fun _ => gpu_issuer all i d /\
    forall below, get all (i - 1) = Some below -> verify_gpu_cert_signature below d = Ok tt).
Proof.
  intros Hi Hl. unfold check_gpu_issuer. pki. apply safe_bind, safe_ok_or. intros g Hg. apply safe_bind, safe_ok_or. intros [crit bc] ->.
  apply safe_bind, safe_ensure. intros Hca. apply safe_bind, safe_ensure. intros Hcrit. cbn [fst snd] in *. subst crit.
  eapply safe_seq; [apply key_usage_safe|]. intros u Hu _. apply safe_bind, safe_ensure. intros Hk.
  rewrite index_range_slice by lia. ok_step.
  apply (safe_seq _ _ (fun _ => forall limit, path_len_constraint bc = Some limit ->
      blen (filter (fun c => not_self_issued c = true) (slice all 1 i)) <= limit)).
  { destruct (path_len_constraint bc) as [limit|]; [|done]. apply safe_ensure. intros Hle%N.leb_le k [= <-]. done. }
  intros [] _ Hp. apply safe_bind, safe_index; [lia|]. intros below Hb.
  eapply safe_mono; [apply verify_gpu_cert_signature_safe|]. intros [] Hv _. split.
  - split; [by exists bc|]. apply key_usage_Ok in Hu as [b Hu]. by exists b, u.
  - intros below' Hb'. by assert (below' = below) as -> by congruence.
Qed.
Lemma check_gpu_leaf_safe c p : safe (check_gpu_leaf c p) (fun _ => gpu_leaf c p).
Proof.
  unfold check_gpu_leaf. pki. eapply safe_seq; [apply key_usage_safe|]. intros u Hu _. apply safe_bind, safe_ensure. intros Hd.
  apply (safe_seq _ _ (fun _ => p <> Device -> key_cert_sign u = false /\
    forall b bc, get_basic_constraints c = Some (Some (b, bc)) -> ca bc = false)).
  { case_bool_decide as Ep; [done|]. cbn [negb]. apply safe_bind, safe_ok_or. intros bc Hbc.
    apply (safe_seq _ _ (fun _ => forall b x, bc = Some (b, x) -> ca x = false)).
    { destruct bc as [[b x]|]; [|done]. apply safe_ensure. intros Hn%negb_true_iff b' x' [= <- <-]. done. }
    intros [] _ Hx. rewrite Hu. ok_step. apply safe_ensure. intros Hk%negb_true_iff _. split; [done|]. intros b x E. rewrite Hbc in E.
    injection E as E. by eapply Hx. }
  intros [] _ Hne. apply key_usage_Ok in Hu as [b Hu]. eapply (safe_mono _ (fun _ => p <> OcspResponder ->
    alg_oid (spki_algorithm c) = EC_KEY /\ curve c = Ok P384_OID)).
  - case_bool_decide as Ep; [done|]. cbn [negb]. destruct (bytes_eqb (alg_oid (spki_algorithm c)) EC_KEY) eqn:Ea; [|done].
    apply bytes_eqb_eq in Ea. pose proof (curve_safe c) as Hcs. destruct (curve c) as [oid|e| |]; try done. rewrite !res_bind_Ok.
    apply safe_ensure. intros Ho%bytes_eqb_eq _. split; [exact Ea|by rewrite Ho].
  - intros [] _ Hc. split; [exists b, u; split; [done|]; split; [done|]; intros Hp; apply (Hne Hp)|intros Hp; apply (Hne Hp)|done].
Qed.
(** Path validation never panics, and the paths it accepts are as [gpu_path] says. *)
Lemma validate_gpu_chain_safe b roots now p :
  safe (validate_gpu_chain b roots now p) (fun v => gpu_path roots now p (certificates v)).
Proof.
  unfold validate_gpu_chain. pki. apply safe_bind, safe_ensure. intros _. eapply safe_seq; [apply parse_certificates_safe|]. intros cs _ Hcs.
  eapply safe_seq; [by apply complete_path_safe|]. intros certs _ (Hmax & r & root & Hlast & Hroot & Hsame).
  apply safe_bind, safe_ensure. intros Hmin%N.leb_le.
  set (I := fun (i : N) (c : Certificate) => check_gpu_certificate c now = Ok tt /\ check_extended_usage c p (i =? 0) = Ok tt /\
    (0 < i -> gpu_issuer certs i c /\ forall below, get certs (i - 1) = Some below -> verify_gpu_cert_signature below c = Ok tt)).
  apply (safe_seq _ _ (fun _ => forall i c, certs !! i = Some c -> I (0 + N.of_nat i) c)).
  { apply (numbered_safe (check_gpu_path_cert certs now p) I). intros i c Hc. pose proof (lookup_lt_Some _ _ _ Hc) as Hlt.
    unfold check_gpu_path_cert. eapply safe_seq; [apply check_gpu_certificate_safe|]. intros [] H1 _.
    eapply safe_seq; [apply check_extended_usage_safe|]. intros [] H2 _. rewrite N.add_0_l in *.
    destruct (N.ltb_spec 0 (N.of_nat i)) as [Hi|Hi].
    - eapply safe_mono; [apply check_gpu_issuer_safe; unfold blen; lia|]. intros [] _ H3. split; [done|]. by split.
    - cbn [safe]. split; [done|]. split; [done|]. lia. }
  intros n _ HI. apply safe_bind, safe_index; [lia|]. intros leaf [_ Hl]%get_Some.
  eapply safe_seq; [apply check_gpu_leaf_safe|]. intros [] _ Hleaf. apply safe_bind, safe_unwrap. exists r. split; [done|].
  apply safe_bind, safe_ensure. intros Hself%bool_decide_eq_true. eapply safe_seq; [apply verify_gpu_cert_signature_safe|].
  intros [] Hv _. cbn [safe certificates]. split.
  - lia.
  - intros i c Hc. destruct (HI i c Hc) as (H1 & H2 & _). by rewrite N.add_0_l in H2.
  - intros i c d Hc Hd. destruct (HI (S i) d Hd) as (_ & _ & H3). rewrite N.add_0_l in H3. destruct H3 as [H3 H4]; [lia|].
    split; [|done]. apply H4. replace (N.of_nat (S i) - 1) with (N.of_nat i) by lia. by apply get_nat.
  - by exists leaf.
  - exists r, root. done.
Qed.
(** Path validation of GPU, switch and manifest certificates never panics, and an accepted
    path has two to twelve certificates, ends in a pinned root, every certificate passes
    the checks of date, extensions and key and fits the purpose, each is issued and signed
    by the next, issuers are critical CAs within their path length, and the leaf signs
    data with a P-384 key (or is a delegated OCSP responder). *)
Theorem gpu_chain_sound b roots now p :
  safe (validate_gpu_chain b roots now p) (fun v => gpu_path roots now p (certificates v)).
Proof. apply validate_gpu_chain_safe. Qed.
End CertSpec.

(** ** A concrete path: an alias certificate and a manifest signer under one root *)
(** The crates' view of [X] with text that is its own base64. *)
Definition plain_base64 (X : X509) : X509 := {|
  cert_from_der := cert_from_der; crl_from_der := crl_from_der; aki_from_der := aki_from_der; crl_number_ok := crl_number_ok;
  crl_reason_remove := crl_reason_remove; generalized_time_ok := generalized_time_ok; pss_from_der := pss_from_der;
  base64_decode := Some |}.
Definition gpu_leaf_cert (name : string) (tbs : byte) (exts : list Extension) : Certificate := {|
  cert_version := V3; serial_number := [tbs]; tbs_signature := ecdsa_sha256;
  issuer := cn "root"; not_before := 10; not_after := 20; subject := cn name;
  spki_algorithm := ec_spki P384_OID; spki_der := [x0a]; subject_public_key := octets [x0a];
  has_unique_ids := false; extensions := exts;
  get_basic_constraints := Some None; get_key_usage := Some (Some (true, signing));
  get_eku := Some None; get_aki := Some None; get_ski := Some None; tbs_der := [tbs];
  signature_algorithm := ecdsa_sha256; cert_signature := octets (x0b :: sha256 (Sha2 := toy_sha2) [tbs]) |}.
Definition gpu_alias : Certificate :=
  gpu_leaf_cert "gpu" x21 [{| extn_id := lit "2.23.133.5.4.1.1"; critical := false; extn_value := [x30] |}].
Definition rim_signer : Certificate := gpu_leaf_cert "rim" x22 [].
Definition toy_gpu_x509 : GpuX509 := {|
  cert_decode := fun b => match b with
    | x02 :: r => Some (sample_root, r) | x21 :: r => Some (gpu_alias, r) | x22 :: r => Some (rim_signer, r) | _ => None end;
  cert_to_der := fun c => Some (tbs_der c); rsa_v15_verify := fun _ _ _ => false; null_ok := fun b => blen b =? 0;
  device_identity_pem := [x02]; rim_signing_pem := [x02]; rim_ca001_pem := [x02] |}.
Definition sample_gpu_chain (now : N) (p : Purpose) : res PkiError ValidatedChain :=
  validate_gpu_chain (X := toy_x509) (K := toy_cpu) (H := toy_sha2) (GX := toy_gpu_x509) [x21] [sample_root] now p.
Example gpu_chain_accepted : sample_gpu_chain 15 Device = Ok {| certificates := [gpu_alias; sample_root] |}.
Proof. vm_compute. reflexivity. Qed.
Example gpu_chain_expired : sample_gpu_chain 21 Device = Err (PkiMsg "certificate has expired").
Proof. vm_compute. reflexivity. Qed.
Lemma gpu_chain_sound_witness : exists v, sample_gpu_chain 15 Device = Ok v /\
  gpu_path (K := toy_cpu) (H := toy_sha2) (GX := toy_gpu_x509) [sample_root] 15 Device (certificates v).
Proof.
  pose proof (gpu_chain_sound (X := toy_x509) (K := toy_cpu) (H := toy_sha2) (GX := toy_gpu_x509) (HL := toy_sha2_laws)
    [x21] [sample_root] 15 Device) as Hs.
  exists {| certificates := [gpu_alias; sample_root] |}. split; [exact gpu_chain_accepted|].
  unfold sample_gpu_chain in *. pose proof gpu_chain_accepted as Ha. unfold sample_gpu_chain in Ha. rewrite Ha in Hs. exact Hs.
Defined.
