(* ===== verification/GpuIdentity.v ===== *)
(** * GpuIdentity: what a device certificate says of the device

    [src/v2/src/gpu/identity.rs]: the model and serial number in the subject alternative
    name, the firmware digests of the DICE extension in its two formats, and the
    operational flags of the target environment with the specification's polarity.  The
    DER structures are decoded by a crate ([DiceDer]). *)
From S2P Require Import Prelude Bytes Text Crypto Pki Pem GpuCert.

Definition LEGACY_TCB : bytes := lit "2.23.133.5.4.1".
Definition DICE_TCB : bytes := lit "2.23.133.5.4.1.1".
Definition DICE_UEID : bytes := lit "2.23.133.5.4.4".
Definition DMTF_DEVICE_INFO : bytes := lit "1.3.6.1.4.1.412.274.1".
Definition SHA384_OID : bytes := lit "2.16.840.1.101.3.4.2.2".

Inductive OperationalFlag : Type :=
| NotConfigured | NotSecure | Recovery | Debug | NotReplayProtected | NotIntegrityProtected | NotRuntimeMeasured
| NotImmutable | NotTcb.
#[global] Instance OperationalFlag_eq_dec : EqDecision OperationalFlag.
Proof. solve_decision. Defined.
Record DiceOperationalFlags : Type := {
  not_configured : option bool; not_secure : option bool; recovery : option bool; debug : option bool;
  not_replay_protected : option bool; not_integrity_protected : option bool; not_runtime_measured : option bool;
  not_immutable : option bool; not_tcb : option bool;
}.
Record DeviceCertificateIdentity : Type := {
  manufacturer : bytes; id_model : bytes; serial : bytes; ueid : option bytes; device_key_sha256 : bytes;
  firmware_digests : list bytes; tcb_svn : option N; operational_flags : option DiceOperationalFlags;
}.

Record Fwid : Type := { hash_alg : bytes; fw_digest : bytes }.
Record CompositeDeviceId : Type := { cd_version : N; cd_spki_der : bytes; cd_fwid : Fwid }.
Record DiceTcbInfo : Type := {
  dt_vendor : option bytes; dt_model : option bytes; dt_version : option bytes; dt_svn : option N;
  dt_fwids : option (list Fwid); dt_flags : option BitString; dt_flags_mask : option BitString;
  dt_integrity_registers : bool;
}.
(** A subject alternative name: the type and, when it is one, the UTF-8 text of an other
    name. *)
Inductive SanName : Type := SanOther (type_id : bytes) (text : option bytes) | SanUnrelated.
Class DiceDer := {
  get_san : Certificate -> Got (list SanName);
  (** [Any::from_der]: whether it is a SEQUENCE, and its value *)
  any_from_der : bytes -> option (bool * bytes);
  composite_from_der : bytes -> option CompositeDeviceId;
  wrapped_from_der : bytes -> option (bytes * CompositeDeviceId);
  dice_from_der : bytes -> option DiceTcbInfo;
  ueid_from_der : bytes -> option bytes;
}.

(** ** Operational flags *)
Definition bit_len (b : BitString) : N := 8 * blen (raw_bytes b) - unused_bits b.
(** ASN.1 numbers bits from the most significant; omitted bits are clear. *)
Definition bit_at (b : BitString) (i : N) : bool :=
  match get (raw_bytes b) (i / 8) with
  | Some x => negb (N.land (byte_N x) (N.shiftr 0x80 (i mod 8)) =? 0)
  | None => false
  end.
Definition meaningful (mask : option BitString) (i : N) : bool := if mask is Some m then bit_at m i else true.
Definition flag_state (flags : BitString) (mask : option BitString) (i : N) : option bool :=
  if meaningful mask i then Some (bit_at flags i) else None.
Definition RESERVED_FLAGS : list N := N.of_nat <$> seq 9 22.
Definition DiceOperationalFlags_parse (flags : BitString) (mask : option BitString) : res PkiError DiceOperationalFlags :=
  need (bit_len flags <=? 32) "DICE flags exceed supported width";;
  (if mask is Some m then need (bit_len m <=? 32) "DICE flags mask exceeds supported width" else Ok tt);;
  need (forallb (fun i => negb (meaningful mask i) || negb (bit_at flags i)) RESERVED_FLAGS) "unsupported DICE operational flag";;
  let state := flag_state flags mask in
  Ok {| not_configured := state 0; not_secure := state 1; recovery := state 2; debug := state 3;
        not_replay_protected := state 4; not_integrity_protected := state 5; not_runtime_measured := state 6;
        not_immutable := state 7; not_tcb := state 8 |}.
Definition flag_get (f : DiceOperationalFlags) (flag : OperationalFlag) : option bool :=
  match flag with
  | NotConfigured => not_configured f | NotSecure => not_secure f | Recovery => recovery f | Debug => debug f
  | NotReplayProtected => not_replay_protected f | NotIntegrityProtected => not_integrity_protected f
  | NotRuntimeMeasured => not_runtime_measured f | NotImmutable => not_immutable f | NotTcb => not_tcb f
  end.

(** ** Requirements *)
Definition require_flag (id : DeviceCertificateIdentity) (seen : list OperationalFlag) (r : OperationalFlag * bool) :
    res PkiError (list OperationalFlag) :=
  need (negb (bool_decide (r.1 ∈ seen))) "duplicate DICE operational flag requirement";;
  actual ← orelse (flags ← operational_flags id; flag_get flags r.1) "missing authenticated DICE operational flag";
  need (Bool.eqb actual r.2) "authenticated DICE operational flag violates policy";;
  Ok (r.1 :: seen).
Definition require_security_flags (id : DeviceCertificateIdentity) (required : list (OperationalFlag * bool)) :
    res PkiError unit :=
  for_each (require_flag id) [] required;; Ok tt.
Definition verify_report_fwid (id : DeviceCertificateIdentity) (signed_fwid : bytes) : res PkiError unit :=
  need (blen signed_fwid =? 48) "report FWID must be SHA-384";;
  first ← index (firmware_digests id) 0;
  need (bytes_eqb signed_fwid first) "report FWID does not match alias certificate firmware".

(** ** The identity *)
Section Identity.
Context `{H : Sha2} `{DD : DiceDer}.

Definition device_info (n : SanName) : option (option bytes) :=
  match n with SanOther t text => if bytes_eqb t DMTF_DEVICE_INFO then Some text else None | SanUnrelated => None end.
(** The DMTF name: manufacturer, model and serial number. *)
Definition device_names (c : Certificate) : res PkiError (bytes * bytes) :=
  g ← got (get_san c);
  san ← orelse g "device alias certificate lacks DMTF identity SAN";
  text ← (match omap device_info san.2 with
          | [] => Err (PkiMsg "missing DMTF device identity")
          | [text] => orelse text "DMTF device identity is not UTF-8"
          | _ => Err (PkiMsg "duplicate DMTF device identity")
          end);
  match split_byte x3a text with
  | [m; mdl; s] =>
    need (bytes_eqb m (lit "NVIDIA")) "device identity manufacturer/format mismatch";;
    need (negb (blen mdl =? 0) && (blen mdl <=? 32) && forallb (fun c => is_ascii_alphanumeric c || Byte.eqb c x5f) mdl)
      "invalid authenticated device model";;
    need ((blen s =? 16) && forallb is_ascii_hexdigit s) "NVIDIA device serial must be a 64-bit hexadecimal identity";;
    need (existsb (fun c => negb (Byte.eqb c x30)) s) "NVIDIA device serial is zero";;
    Ok (mdl, s)
  | _ => Err (PkiMsg "device identity manufacturer/format mismatch")
  end.

Definition legacy_device (e : Extension) (discriminator : byte) (issuer : Certificate) : res PkiError (list Fwid) :=
  legacy ← (if Byte.eqb discriminator x02 then orelse (composite_from_der (extn_value e)) "CompositeDeviceID"
            else '(oid, v) ← orelse (wrapped_from_der (extn_value e)) "CompositeDeviceID";
                 need (bytes_eqb oid LEGACY_TCB) "CompositeDeviceID wrapper OID mismatch";; Ok v);
  need (cd_version legacy =? 1) "unsupported CompositeDeviceID version";;
  need (bytes_eqb (cd_spki_der legacy) (spki_der issuer)) "CompositeDeviceID BROM public key differs from issuing certificate";;
  Ok [cd_fwid legacy].
Definition dice_text_ok (o : option bytes) : bool :=
  if o is Some s then negb (blen s =? 0) && (blen s <=? 128) && negb (existsb char_is_control (chars s)) else true.
Definition dice_device (e : Extension) (mdl : bytes) : res PkiError (list Fwid * option N * option DiceOperationalFlags) :=
  dice ← orelse (dice_from_der (extn_value e)) "unsupported/malformed DiceTcbInfo";
  (if dt_vendor dice is Some v then need (bytes_eqb v (lit "NVIDIA")) "DICE vendor conflicts with certificate SAN" else Ok tt);;
  (if dt_model dice is Some m then
     need (bool_decide (head (split_ascii_whitespace m) = Some mdl)) "DICE model conflicts with certificate SAN" else Ok tt);;
  need (dice_text_ok (dt_vendor dice) && dice_text_ok (dt_model dice) && dice_text_ok (dt_version dice)) "invalid DICE TCB text";;
  need (match dt_flags dice, dt_flags_mask dice with None, Some _ => false | _, _ => true end) "DICE flags mask without flags";;
  flags ← (if dt_flags dice is Some f then s ← DiceOperationalFlags_parse f (dt_flags_mask dice); Ok (Some s) else Ok None);
  need (negb (dt_integrity_registers dice)) "DICE integrity-register profile is not supported";;
  fwids ← orelse (dt_fwids dice) "DICE TCB has no firmware identifiers";
  Ok (fwids, dt_svn dice, flags).
Definition fwid_digest (acc : list bytes) (f : Fwid) : res PkiError (list bytes) :=
  need (bytes_eqb (hash_alg f) SHA384_OID) "GPU firmware identity must use SHA-384";;
  need (blen (fw_digest f) =? 48) "firmware identity digest is not 48 bytes";;
  Ok (acc ++ [fw_digest f]).
Definition is_tcb (e : Extension) : bool := bytes_eqb (extn_id e) LEGACY_TCB || bytes_eqb (extn_id e) DICE_TCB.

Definition certificate_identity (chain : ValidatedChain) : res PkiError DeviceCertificateIdentity :=
  cert ← index (certificates chain) 0;
  issuer ← orelse (get (certificates chain) 1) "device chain has no BROM issuer";
  '(mdl, s) ← device_names cert;
  (* a certificate with an alternative name has extensions *)
  e ← (match filter (fun e => is_tcb e = true) (extensions cert) with
       | [] => Err (PkiMsg "device alias certificate lacks firmware identity")
       | [e] => Ok e
       | _ => Err (PkiMsg "ambiguous multiple device firmware identity extensions")
       end);
  need (blen (extn_value e) <=? 8192) "device TCB extension exceeds size limit";;
  '(is_sequence, v) ← orelse (any_from_der (extn_value e)) "device TCB extension";
  need is_sequence "device TCB extension is not a DER sequence";;
  discriminator ← orelse (head v) "empty device TCB extension";
  '(fwids, svn, flags) ←
    (if bytes_eqb (extn_id e) LEGACY_TCB && (Byte.eqb discriminator x02 || Byte.eqb discriminator x06)
     then f ← legacy_device e discriminator issuer; Ok (f, None, None) else dice_device e mdl);
  need (negb (blen fwids =? 0) && (blen fwids <=? 16)) "DICE firmware identifier count outside limit";;
  digests ← for_each fwid_digest [] fwids;
  first ← index digests 0;
  need (negb (bytes_eqb first (replicate 48 x00))) "primary firmware digest is zero";;
  ueid ← (if List.find (fun e => bytes_eqb (extn_id e) DICE_UEID) (extensions cert) is Some ext then
            u ← orelse (ueid_from_der (extn_value ext)) "DICE UEID";
            need ((7 <=? blen u) && (blen u <=? 33)) "DICE UEID size outside RFC 9711 limits";; Ok (Some u)
          else Ok None);
  Ok {| manufacturer := lit "NVIDIA"; id_model := mdl; serial := to_ascii_uppercase s; ueid := ueid;
        device_key_sha256 := sha256 (spki_der issuer); firmware_digests := digests; tcb_svn := svn;
        operational_flags := flags |}.
End Identity.

(** * What the identity satisfies *)
Definition flag_bit (f : OperationalFlag) : N :=
  match f with
  | NotConfigured => 0 | NotSecure => 1 | Recovery => 2 | Debug => 3 | NotReplayProtected => 4
  | NotIntegrityProtected => 5 | NotRuntimeMeasured => 6 | NotImmutable => 7 | NotTcb => 8
  end.
(** The flags that can be read: at most 32 bits, and no reserved bit that is meaningful. *)
Record flags_wf (flags : BitString) (mask : option BitString) : Prop := {
  fw_width : bit_len flags <= 32;
  fw_mask : forall m, mask = Some m -> bit_len m <= 32;
  fw_reserved : forall i, 9 <= i < 31 -> meaningful mask i = true -> bit_at flags i = false;
}.
Lemma elem_of_reserved i : i ∈ RESERVED_FLAGS <-> 9 <= i < 31.
Proof.
  unfold RESERVED_FLAGS. rewrite list_elem_of_fmap. split.
  - intros (n & -> & Hn%elem_of_seq). lia.
  - intros Hi. exists (N.to_nat i). rewrite elem_of_seq. lia.
Qed.
Lemma reserved_clear flags mask :
  forallb (fun i => negb (meaningful mask i) || negb (bit_at flags i)) RESERVED_FLAGS = true <->
  (forall i, 9 <= i < 31 -> meaningful mask i = true -> bit_at flags i = false).
Proof.
  rewrite forallb_forall. split.
  - intros Hf i Hi Hm. specialize (Hf i (proj1 (list_elem_of_In _ _) (proj2 (elem_of_reserved i) Hi))).
    rewrite Hm in Hf. by apply negb_true_iff in Hf.
  - intros Hf i Hi%list_elem_of_In%elem_of_reserved. destruct (meaningful mask i) eqn:Em; [|done]. by rewrite Hf.
Qed.
(** The parser reads exactly the well-formed flags, every flag by its bit and mask. *)
Lemma flags_parse_decides flags mask :
  decides (DiceOperationalFlags_parse flags mask) (flags_wf flags mask)
    (fun f => forall flag, flag_get f flag = flag_state flags mask (flag_bit flag)).
Proof.
  unfold DiceOperationalFlags_parse. pki. eapply decides_iff.
  - apply (decides_bind _ _ (bit_len flags <= 32) ((forall m, mask = Some m -> bit_len m <= 32) /\
      (forall i, 9 <= i < 31 -> meaningful mask i = true -> bit_at flags i = false)) (fun _ => True)).
    { apply decides_ensure; [apply N.leb_le|done]. }
    intros [] _ _ _. apply (decides_bind _ _ _ _ (fun _ => True)).
    { destruct mask as [m|]; [|by split]. apply decides_ensure; [|done]. rewrite N.leb_le. naive_solver. }
    intros [] _ _ _. apply (decides_then _ _ _ (fun _ => True) (fun f => forall flag, flag_get f flag = flag_state flags mask (flag_bit flag))).
    { by apply decides_ensure; [apply reserved_clear|]. }
    intros [] _ _ _. eexists. split; [done|]. by intros [].
  - split; [intros (? & ? & ?)|intros []]; by split_and?.
  - done.
Qed.

(** [require_security_flags] accepts exactly the identities whose flags are present and as
    required, once per flag. *)
Definition flag_is (id : DeviceCertificateIdentity) (r : OperationalFlag * bool) : Prop :=
  exists flags, operational_flags id = Some flags /\ flag_get flags r.1 = Some r.2.
Lemma security_flags_decides id required :
  decides (require_security_flags id required) (NoDup required.*1 /\ forall r, r ∈ required -> flag_is id r) (fun _ => True).
Proof.
  unfold require_security_flags. eapply decides_iff.
  - apply (decides_then _ _ (forall pre r post, required = pre ++ r :: post -> r.1 ∉ pre.*1 /\ flag_is id r)
      (fun s => forall f, f ∈ s <-> f ∈ required.*1) (fun _ => True)); [|by eauto].
    eapply (decides_for_each (require_flag id) (fun pre s => forall f, f ∈ s <-> f ∈ pre.*1)
      (fun pre r => r.1 ∉ pre.*1 /\ flag_is id r)); [set_solver|].
    intros pre r post s _ Hs. unfold require_flag. pki.
    apply (decides_bind _ _ (r.1 ∉ pre.*1) _ (fun _ => True)); [apply decides_ensure; [by rewrite negb_true_iff, bool_decide_eq_false, Hs|done]|].
    intros [] _ _ _. unfold flag_is. destruct (operational_flags id) as [flags|]; cbn [mbind option_bind ok_or res_bind decides].
    2: { by intros (? & ? & ?). }
    destruct (flag_get flags r.1) as [actual|] eqn:Ea; cbn [mbind option_bind ok_or res_bind decides].
    2: { intros (f & [= <-] & ?). congruence. }
    unfold ensure. destruct (Bool.eqb actual r.2) eqn:Eb; cbn [mbind res_bind decides].
    + apply eqb_prop in Eb as ->. split; [by exists flags|]. intros f. rewrite fmap_app. set_solver.
    + intros (f & [= <-] & Hf). rewrite Ea in Hf. injection Hf as ->. by rewrite eqb_reflx in Eb.
  - split.
    + intros Hl. split; [|by apply forall_split; intros; eapply Hl].
      apply (nodup_by_prefix fst). intros pre r post E. by apply (Hl pre r post E).
    + intros [Hn Hf] pre r post ->. split; [|apply Hf; set_solver]. rewrite fmap_app in Hn. apply NoDup_app in Hn as (_ & Hn & _). set_solver.
  - done.
Qed.

(** ** The identity that a path certifies *)
Section IdentitySpec.
Context `{H : Sha2} `{DD : DiceDer}.

(** The name in the alternative name: an NVIDIA device, its model and its serial number. *)
Record named (c : Certificate) (mdl serial : bytes) : Prop := {
  na_text : exists san text, get_san c = Some (Some san) /\ omap device_info san.2 = [Some text] /\
    split_byte x3a text = [lit "NVIDIA"; mdl; serial];
  na_model : 0 < blen mdl <= 32;
  na_serial : blen serial = 16 /\ forallb is_ascii_hexdigit serial = true /\ exists c, c ∈ serial /\ c <> x30;
}.
(** What the firmware extension of [c], issued by the device key of [iss], says: in the
    legacy format the device key itself, in the DICE format flags that are well formed and
    a vendor and model that agree with the name. *)
Inductive firmware_of (c iss : Certificate) (mdl : bytes) (e : Extension) :
    list Fwid -> option N -> option DiceOperationalFlags -> Prop :=
| fw_legacy d : extn_id e = LEGACY_TCB -> cd_version d = 1 -> cd_spki_der d = spki_der iss ->
    (composite_from_der (extn_value e) = Some d \/ wrapped_from_der (extn_value e) = Some (LEGACY_TCB, d)) ->
    firmware_of c iss mdl e [cd_fwid d] None None
| fw_dice d fwids flags : dice_from_der (extn_value e) = Some d -> dt_fwids d = Some fwids ->
    (forall v, dt_vendor d = Some v -> v = lit "NVIDIA") ->
    (forall m, dt_model d = Some m -> head (split_ascii_whitespace m) = Some mdl) ->
    dt_integrity_registers d = false ->
    (flags = None /\ dt_flags d = None /\ dt_flags_mask d = None \/
     exists f s, flags = Some s /\ dt_flags d = Some f /\ flags_wf f (dt_flags_mask d) /\
       forall flag, flag_get s flag = flag_state f (dt_flags_mask d) (flag_bit flag)) ->
    firmware_of c iss mdl e fwids (dt_svn d) flags.
(** The identity of the device at the end of a path. *)
Record identity_of (certs : list Certificate) (id : DeviceCertificateIdentity) : Prop := {
  io_certs : exists c iss s e fwids, certs !! 0%nat = Some c /\ certs !! 1%nat = Some iss /\
    named c (id_model id) s /\ serial id = to_ascii_uppercase s /\ device_key_sha256 id = sha256 (spki_der iss) /\
    filter (fun e => is_tcb e = true) (extensions c) = [e] /\
    firmware_of c iss (id_model id) e fwids (tcb_svn id) (operational_flags id) /\
    firmware_digests id = fw_digest <$> fwids /\ Forall (fun f => hash_alg f = SHA384_OID) fwids;
  io_digests : 1 <= blen (firmware_digests id) <= 16 /\ Forall (fun d => blen d = 48) (firmware_digests id);
  io_first : exists d, head (firmware_digests id) = Some d /\ d <> replicate 48 x00;
}.

Lemma split_head text m a b : split_byte x3a text = [m; a; b] -> bytes_eqb m (lit "NVIDIA") = true ->
  split_byte x3a text = [lit "NVIDIA"; a; b].
Proof. by intros -> ->%bytes_eqb_eq. Qed.
Lemma device_names_safe c : safe (device_names c) (fun p => named c p.1 p.2).
Proof.
  unfold device_names. pki. apply safe_bind, safe_ok_or. intros g Hg. apply safe_bind, safe_ok_or. intros san ->.
  apply (safe_seq _ _ (fun text => omap device_info san.2 = [Some text])).
  { destruct (omap device_info san.2) as [|o [|]] eqn:E; [done| |done]. destruct o as [t|]; [|done]. by rewrite <- E. }
  intros text _ Ht. destruct (split_byte x3a text) as [|m [|mdl [|s [|]]]] eqn:Es; try done.
  apply safe_bind, safe_ensure. intros Hm. apply safe_bind, safe_ensure. intros Hmd. apply safe_bind, safe_ensure. intros Hs.
  apply safe_bind, safe_ensure. intros Hz. cbn [safe fst snd]. pose proof (split_head _ _ _ _ Es Hm) as Es'. bools.
  split; [by exists san, text|lia|]. split; [done|]. split; [done|]. apply existsb_exists in Hz as (x & Hx & Hn).
  exists x. rewrite list_elem_of_In. split; [done|]. apply negb_true_iff in Hn. by apply byte_eqb_neq in Hn.
Qed.
Lemma legacy_device_safe c mdl e d iss : extn_id e = LEGACY_TCB ->
  safe (legacy_device e d iss) (fun fwids => firmware_of c iss mdl e fwids None None).
Proof.
  intros He. unfold legacy_device. pki.
  apply (safe_seq _ _ (fun x => composite_from_der (extn_value e) = Some x \/ wrapped_from_der (extn_value e) = Some (LEGACY_TCB, x))).
  { destruct (Byte.eqb d x02); [apply safe_ok_or; auto|]. apply safe_bind, safe_ok_or. intros [oid v] Hv. apply safe_bind, safe_ensure.
    intros ->%bytes_eqb_eq. cbn [safe]. auto. }
  intros x _ Hx. apply safe_bind, safe_ensure. intros Hv%N.eqb_eq. apply safe_bind, safe_ensure. intros Hk%bytes_eqb_eq. cbn [safe].
  by apply fw_legacy.
Qed.
Lemma dice_device_safe c iss mdl e : safe (dice_device e mdl) (fun r => firmware_of c iss mdl e r.1.1 r.1.2 r.2).
Proof.
  unfold dice_device. pki. apply safe_bind, safe_ok_or. intros d Hd.
  apply (safe_seq _ _ (fun _ => forall v, dt_vendor d = Some v -> v = lit "NVIDIA")).
  { destruct (dt_vendor d) as [v|]; [|done]. apply safe_ensure. intros ->%bytes_eqb_eq v' E. by injection E. }
  intros [] _ Hv. apply (safe_seq _ _ (fun _ => forall m, dt_model d = Some m -> head (split_ascii_whitespace m) = Some mdl)).
  { destruct (dt_model d) as [m|]; [|done]. apply safe_ensure. intros Hm%bool_decide_eq_true m' E. by injection E as <-. }
  intros [] _ Hm. apply safe_bind, safe_ensure. intros _. apply safe_bind, safe_ensure. intros Hmask.
  apply (safe_seq _ _ (fun flags => flags = None /\ dt_flags d = None \/
     exists f s, flags = Some s /\ dt_flags d = Some f /\ flags_wf f (dt_flags_mask d) /\
       forall flag, flag_get s flag = flag_state f (dt_flags_mask d) (flag_bit flag))).
  { destruct (dt_flags d) as [f|]; [|by left]. eapply safe_seq; [apply decides_safe, flags_parse_decides|].
    intros s _ [Hw Hf]. right. by exists f, s. }
  intros flags _ Hf. apply safe_bind, safe_ensure. intros Hi%negb_true_iff. apply safe_bind, safe_ok_or. intros fwids Hfw.
  cbn [safe fst snd]. eapply fw_dice; try done. destruct Hf as [[-> Hn]|Hf]; [left|by right]. rewrite Hn in Hmask.
  by destruct (dt_flags_mask d).
Qed.
Lemma fwid_digests_safe fwids : safe (for_each fwid_digest [] fwids) (fun ds => ds = fw_digest <$> fwids /\
  Forall (fun f => hash_alg f = SHA384_OID) fwids /\ Forall (fun d => blen d = 48) ds).
Proof.
  enough (forall fwids acc, Forall (fun d => blen d = 48) acc -> safe (for_each fwid_digest acc fwids) (fun ds =>
    ds = acc ++ (fw_digest <$> fwids) /\ Forall (fun f => hash_alg f = SHA384_OID) fwids /\ Forall (fun d => blen d = 48) ds)) as Hg
    by exact (Hg fwids [] (Forall_nil_2 _)).
  clear fwids. induction fwids as [|f fwids IH]; intros acc Ha; [by rewrite app_nil_r|]. rewrite for_each_cons.
  unfold fwid_digest at 1. pki. apply safe_bind, safe_bind, safe_ensure. intros Hh%bytes_eqb_eq. apply safe_bind, safe_ensure. intros Hl%N.eqb_eq.
  cbn [safe]. eapply safe_mono; [apply IH; apply Forall_app; split; [done|by constructor]|].
  intros ds _ (-> & Hf & Hd). split; [by rewrite <- app_assoc|]. split; [by constructor|done].
Qed.
(** Reading the identity never panics, and it is the identity of the path. *)
Lemma certificate_identity_safe chain : 1 <= blen (certificates chain) ->
  safe (certificate_identity chain) (identity_of (certificates chain)).
Proof.
  intros Hc. unfold certificate_identity. pki. apply safe_bind, safe_index; [lia|]. intros c [_ Hc0]%get_Some.
  apply safe_bind, safe_ok_or. intros iss [_ Hc1]%get_Some. eapply safe_seq; [apply device_names_safe|]. intros [mdl s] _ Hn.
  apply (safe_seq _ _ (fun e => filter (fun e => is_tcb e = true) (extensions c) = [e])).
  { destruct (filter _ (extensions c)) as [|e [|]]; done. }
  intros e _ He. apply safe_bind, safe_ensure. intros _. apply safe_bind, safe_ok_or. intros [sq v] _. apply safe_bind, safe_ensure. intros _.
  apply safe_bind, safe_ok_or. intros disc _. apply (safe_seq _ _ (fun r => firmware_of c iss mdl e r.1.1 r.1.2 r.2)).
  { destruct (bytes_eqb (extn_id e) LEGACY_TCB && _) eqn:El; [|apply dice_device_safe]. apply andb_true_iff in El as [El%bytes_eqb_eq _].
    eapply safe_seq; [by apply legacy_device_safe|]. intros f _ Hf. exact Hf. }
  intros [[fwids svn] flags] _ Hf. cbn [fst snd] in Hf. apply safe_bind, safe_ensure. intros Hl. eapply safe_seq; [apply fwid_digests_safe|].
  intros ds _ (Eds & Hh & Hd). assert (blen ds = blen fwids) as Elen by (rewrite Eds; unfold blen; by rewrite length_fmap).
  apply andb_true_iff in Hl as [Hl1%negb_true_iff%N.eqb_neq Hl2%N.leb_le]. apply safe_bind, safe_index; [lia|]. intros first [_ Hfirst]%get_Some.
  apply safe_bind, safe_ensure. intros Hz%negb_true_iff. apply safe_bind. eapply (safe_mono _ (fun _ => True)).
  { destruct (List.find _ _) as [x|]; [|done]. by wp. }
  intros u _ _. cbn [safe]. split; cbn [id_model serial device_key_sha256 tcb_svn operational_flags firmware_digests].
  - exists c, iss, s, e, fwids. by split_and!.
  - split; [lia|done].
  - exists first. split; [by destruct ds|]. by apply bytes_eqb_neq in Hz.
Qed.
Lemma verify_report_fwid_safe id f : 1 <= blen (firmware_digests id) ->
  safe (verify_report_fwid id f) (fun _ => head (firmware_digests id) = Some f /\ blen f = 48).
Proof.
  intros Hl. unfold verify_report_fwid. pki. apply safe_bind, safe_ensure. intros Hf%N.eqb_eq. apply safe_bind, safe_index; [lia|].
  intros d [_ Hd]%get_Some. apply safe_ensure. intros ->%bytes_eqb_eq. split; [|done]. by destruct (firmware_digests id).
Qed.
End IdentitySpec.

(** The operational flags of a certificate are read exactly, and required exactly: the
    parser accepts the flags whose width, mask and reserved bits are well formed and
    reports each flag by its bit, as unknown when it is masked out; and a requirement
    holds of an identity precisely when it names no flag twice and every flag it names is
    present with the required value, so a missing or masked flag never satisfies it. *)
Theorem security_flags_exact flags mask id required :
  decides (DiceOperationalFlags_parse flags mask) (flags_wf flags mask)
    (fun f => forall flag, flag_get f flag = flag_state flags mask (flag_bit flag)) /\
  decides (require_security_flags id required) (NoDup required.*1 /\ forall r, r ∈ required -> flag_is id r) (fun _ => True).
Proof. split; [apply flags_parse_decides|apply security_flags_decides]. Qed.

(** ** The identity of a concrete path *)
Definition toy_dice : DiceDer := {|
  get_san := fun _ => Some (Some (false, [SanUnrelated; SanOther DMTF_DEVICE_INFO (Some (lit "NVIDIA:GH100:0123456789ABCDEF"))]));
  any_from_der := fun b => Some (true, b); composite_from_der := fun _ => None; wrapped_from_der := fun _ => None;
  dice_from_der := fun _ => Some {| dt_vendor := Some (lit "NVIDIA"); dt_model := None; dt_version := None; dt_svn := Some 3;
    dt_fwids := Some [{| hash_alg := SHA384_OID; fw_digest := replicate 48 x09 |}];
    dt_flags := Some {| raw_bytes := [x01; x80]; unused_bits := 0 |}; dt_flags_mask := None; dt_integrity_registers := false |};
  ueid_from_der := fun _ => None |}.
Definition sample_identity : res PkiError DeviceCertificateIdentity :=
  certificate_identity (H := toy_sha2) (DD := toy_dice) {| certificates := [gpu_alias; sample_root] |}.
Example identity_read : (id ← sample_identity; Ok (id_model id, operational_flags id ≫= (fun f => flag_get f NotImmutable), firmware_digests id))
  = Ok (lit "GH100", Some true, [replicate 48 x09]).
Proof. vm_compute. reflexivity. Qed.
(** The flags that are set do not keep the device from meeting requirements on others. *)
Example identity_not_debug : (id ← sample_identity; require_security_flags id [(Debug, false); (NotTcb, true)]) = Ok tt.
Proof. vm_compute. reflexivity. Qed.
Example identity_mutable : (id ← sample_identity; require_security_flags id [(NotImmutable, false)])
  = Err (PkiMsg "authenticated DICE operational flag violates policy").
Proof. vm_compute. reflexivity. Qed.
