(* ===== verification/Revocation.v ===== *)
(** * Revocation: the revocation status of GPU certificates

    [src/v2/src/gpu/revocation.rs]: every certificate of a path but the root needs a
    current signed status, from an OCSP response of its issuer (or of a responder that the
    issuer has delegated) or from a complete list of its issuer; and no status in the
    evidence that concerns a certificate may be anything but good.  The file also models
    the cache of evidence.  The network client is not modelled.

    OCSP structures are decoded by a crate; the records below are the views that the code
    reads ([OcspFormats]).  Revocation lists share their checks with [Crl]. *)
From S2P Require Import Prelude Bytes Text Crypto Pki Crl Pem GpuCert.

Definition MAX_OBJECT_BYTES : N := 4 * 1024 * 1024.
Definition MAX_EVIDENCE_BYTES : N := 32 * 1024 * 1024.
Definition MAX_OBJECTS : N := 128.
Definition OCSP_BASIC : bytes := lit "1.3.6.1.5.5.7.48.1.1".
Definition OCSP_NONCE : bytes := lit "1.3.6.1.5.5.7.48.1.2".
Definition OCSP_NOCHECK : bytes := lit "1.3.6.1.5.5.7.48.1.5".

Record RevocationEvidence : Type := { ocsp_responses : list bytes; crls : list bytes }.
Definition no_evidence : RevocationEvidence := {| ocsp_responses := []; crls := [] |}.

(** ** Views of the OCSP structures *)
Record CertId : Type := { hash_algorithm : AlgorithmIdentifier; issuer_name_hash : bytes; issuer_key_hash : bytes; id_serial : bytes }.
Inductive CertStatus : Type := Good | Revoked | Unknown.
Record SingleResponse : Type := {
  sr_cert_id : CertId; sr_status : CertStatus; sr_this_update : N; sr_next_update : option N; sr_extensions : list Extension;
}.
Inductive ResponderId : Type := ByName (n : Name) | ByKey (hash : bytes).
Record BasicOcspResponse : Type := {
  ocsp_v1 : bool; responder_id : ResponderId; produced_at : N; responses : list SingleResponse;
  response_extensions : list Extension;
  (** [tbs_response_data.to_der()] *)
  response_tbs : option bytes;
  ocsp_algorithm : AlgorithmIdentifier; ocsp_signature : BitString; ocsp_certs : list Certificate;
}.
Class OcspFormats := {
  (** [OcspResponse::from_der]: success, and the body when there is one *)
  ocsp_from_der : bytes -> option (bool * option (bytes * bytes));
  basic_from_der : bytes -> option BasicOcspResponse;
  (** [OctetString::from_der] *)
  octet_string_from_der : bytes -> option bytes;
  name_to_der : Name -> option bytes;
  sha1 : bytes -> bytes;
  (** [serde_json::from_slice::<RevocationCache>] *)
  cache_from_slice : bytes -> option (gmap bytes RevocationEvidence);
}.

(** ** Limits *)
Definition objects (e : RevocationEvidence) : list bytes := ocsp_responses e ++ crls e.
Definition add_object (total : N) (b : bytes) : res PkiError N :=
  need (negb (blen b =? 0) && (blen b <=? MAX_OBJECT_BYTES)) "revocation object size outside limit";;
  orelse (checked_add usize_max total (blen b)) "revocation size overflow".
Definition validate_limits (e : RevocationEvidence) : res PkiError unit :=
  need (blen (ocsp_responses e) + blen (crls e) <=? MAX_OBJECTS) "too many revocation objects";;
  total ← for_each add_object 0 (objects e);
  need (total <=? MAX_EVIDENCE_BYTES) "revocation evidence exceeds size limit".
(** [.sum()] of lengths *)
Definition add_len (total : N) (b : bytes) : res PkiError N := plain_add usize_max total (blen b).
Definition evidence_size (e : RevocationEvidence) : res PkiError N := for_each add_len 0 (objects e).

Section Revocation.
Context `{X : X509} `{K : CpuCrypto} `{H : Sha2} `{GX : GpuX509} `{OF : OcspFormats}.

Definition parse_ocsp (raw : bytes) : res PkiError BasicOcspResponse :=
  need (blen raw <=? MAX_OBJECT_BYTES) "OCSP response exceeds size limit";;
  '(successful, body) ← orelse (ocsp_from_der raw) "invalid OCSPResponse DER";
  need successful "OCSP responder did not return success";;
  '(ty, response) ← orelse body "successful OCSP response has no body";
  need (bytes_eqb ty OCSP_BASIC) "unsupported OCSP response type";;
  orelse (basic_from_der response) "invalid BasicOCSPResponse DER".

(** ** Certificate identifiers *)
Definition identifier_digest (a : AlgorithmIdentifier) (b : bytes) : res PkiError bytes :=
  check_null_or_absent a;;
  if bytes_eqb (alg_oid a) (lit "1.3.14.3.2.26") then Ok (sha1 b)
  else if bytes_eqb (alg_oid a) (lit "2.16.840.1.101.3.4.2.1") then Ok (sha256 b)
  else if bytes_eqb (alg_oid a) (lit "2.16.840.1.101.3.4.2.2") then Ok (sha384 b)
  else if bytes_eqb (alg_oid a) (lit "2.16.840.1.101.3.4.2.3") then Ok (sha512 b)
  else Err (PkiMsg "unsupported OCSP CertID hash algorithm").
Definition cert_id_matches (id : CertId) (subj iss : Certificate) : res PkiError bool :=
  if negb (bytes_eqb (id_serial id) (serial_number subj)) then Ok false
  else
    name ← orelse (name_to_der (subject iss)) "encoding";
    d ← identifier_digest (hash_algorithm id) name;
    if bytes_eqb (issuer_name_hash id) d then
      key ← public_key iss;
      d ← identifier_digest (hash_algorithm id) key;
      Ok (bytes_eqb (issuer_key_hash id) d)
    else Ok false.
Definition responder_matches (id : ResponderId) (c : Certificate) : res PkiError bool :=
  match id with
  | ByName n => Ok (bool_decide (n = subject c))
  | ByKey hash => key ← public_key c; Ok (bytes_eqb hash (sha1 key))
  end.

(** ** Revocation lists *)
Definition check_gpu_crl (crl : CertificateList) (subj iss : Certificate) (now : N) : res PkiError unit :=
  need (bool_decide (crl_version crl = V2)) "only X.509 v2 CRLs are supported";;
  need (bool_decide (crl_issuer crl = subject iss) && bool_decide (issuer subj = subject iss))
    "CRL issuer mismatch";;
  u ← key_usage iss;
  need (crl_sign u) "CRL issuer lacks cRLSign";;
  need (bool_decide (crl_tbs_signature crl = crl_signature_algorithm crl))
    "CRL inner/outer signature algorithms differ";;
  next ← orelse (next_update crl) "CRL nextUpdate is required";
  check_dates (this_update crl) next now;;
  check_extensions (crl_extensions crl) [lit "2.5.29.35"; lit "2.5.29.20"];;
  for_each (crl_list_extension iss) tt (crl_extensions crl);;
  sig ← orelse (as_bytes (crl_signature crl)) "CRL signature is not byte-aligned";
  verify_gpu_signature iss (crl_signature_algorithm crl) (crl_tbs_der crl) sig;;
  for_each (check_revoked subj) ∅ (revoked_certificates crl);;
  Ok tt.
Definition same_issuer (iss : Certificate) (crl : CertificateList) : bool := bool_decide (crl_issuer crl = subject iss).
(** The lists of the issuer, each of which must clear the certificate; whether there is one. *)
Definition check_crls (lists : list CertificateList) (subj iss : Certificate) (now : N) (covered : bool) : res PkiError bool :=
  for_each (fun covered crl => if same_issuer iss crl then check_gpu_crl crl subj iss now;; Ok true else Ok covered) covered lists.

(** ** OCSP responses *)
(** A responder that the issuer delegates to. *)
Definition check_delegated (d iss : Certificate) (lists : list CertificateList) (now : N) : res PkiError unit :=
  check_gpu_certificate d now;;
  check_extended_usage d OcspResponder true;;
  u ← key_usage d;
  need (digital_signature u) "OCSP signer lacks digitalSignature";;
  u ← key_usage d;
  need (negb (key_cert_sign u)) "OCSP delegated signer must not be a CA";;
  bc ← got (get_basic_constraints d);
  match bc with Some (_, bc) => need (negb (ca bc)) "OCSP delegated signer must not be a CA" | None => Ok tt end;;
  verify_gpu_cert_signature d iss;;
  match List.find (fun e => bytes_eqb (extn_id e) OCSP_NOCHECK) (extensions d) with
  | Some e => need (null_ok (extn_value e)) "invalid id-pkix-ocsp-nocheck extension"
  | None =>
    checked ← check_crls lists d iss now false;
    need checked "delegated OCSP signer lacks authenticated revocation status or id-pkix-ocsp-nocheck"
  end.
Definition ocsp_signer (r : BasicOcspResponse) (iss : Certificate) (lists : list CertificateList) (now : N) : res PkiError Certificate :=
  own ← responder_matches (responder_id r) iss;
  if own : bool then Ok iss
  else
    match filter (fun c => unwrap_or (responder_matches (responder_id r) c) false = true) (ocsp_certs r) with
    | [] => Err (PkiMsg "OCSP responder signer certificate is missing")
    | [d] => check_delegated d iss lists now;; Ok d
    | _ => Err (PkiMsg "ambiguous OCSP responder certificate")
    end.
Definition check_nonce (r : BasicOcspResponse) (nonce : option bytes) : res PkiError unit :=
  match nonce with
  | Some expected =>
    ext ← orelse (List.find (fun e => bytes_eqb (extn_id e) OCSP_NONCE) (response_extensions r)) "OCSP response does not echo request nonce";
    value ← orelse (octet_string_from_der (extn_value ext)) "invalid OCSP nonce";
    need (bytes_eqb value expected) "OCSP response nonce mismatch"
  | None => Ok tt
  end.
Definition check_single (subj iss : Certificate) (now produced : N) (matches_ : N) (s : SingleResponse) : res PkiError N :=
  check_extensions (sr_extensions s) [];;
  m ← cert_id_matches (sr_cert_id s) subj iss;
  if negb m then Ok matches_
  else
    next ← orelse (sr_next_update s) "OCSP nextUpdate is required under strict policy";
    check_dates (sr_this_update s) next now;;
    need ((sr_this_update s <=? produced) && (produced <? next)) "OCSP producedAt is outside status interval";;
    match sr_status s with
    | Good => Ok (matches_ + 1)
    | Revoked => Err (PkiMsg "certificate is revoked (including certificateHold)")
    | Unknown => Err (PkiMsg "OCSP certificate status is unknown")
    end.
Definition check_ocsp (r : BasicOcspResponse) (subj iss : Certificate) (lists : list CertificateList) (now : N) (nonce : option bytes) :
    res PkiError unit :=
  need (ocsp_v1 r) "unsupported OCSP version";;
  need (negb (blen (responses r) =? 0) && (blen (responses r) <=? MAX_OBJECTS)) "OCSP single response count outside limit";;
  check_extensions (response_extensions r) [OCSP_NONCE];;
  check_nonce r nonce;;
  let produced := produced_at r in
  need (produced <=? now) "OCSP producedAt is in the future";;
  signer ← ocsp_signer r iss lists now;
  need ((not_before signer <=? produced) && (produced <=? not_after signer)) "OCSP producedAt is outside signer validity";;
  tbs ← orelse (response_tbs r) "encoding";
  sig ← orelse (as_bytes (ocsp_signature r)) "OCSP signature is not byte-aligned";
  verify_gpu_signature signer (ocsp_algorithm r) tbs sig;;
  n ← for_each (check_single subj iss now produced) 0 (responses r);
  need (n =? 1) "OCSP must contain exactly one matching CertID".

(** ** The path *)
Definition concerns (r : BasicOcspResponse) (subj iss : Certificate) : bool :=
  existsb (fun s => unwrap_or (cert_id_matches (sr_cert_id s) subj iss) false) (responses r).
Definition check_pair (rs : list BasicOcspResponse) (lists : list CertificateList) (now : N) (subj iss : Certificate) : res PkiError unit :=
  covered ← for_each (fun covered r => if concerns r subj iss then check_ocsp r subj iss lists now None;; Ok true else Ok covered) false rs;
  covered ← check_crls lists subj iss now covered;
  need covered "missing authenticated revocation status for certificate".
Definition parse_each {A} (f : bytes -> res PkiError A) (l : list bytes) : res PkiError (list A) :=
  for_each (fun acc b => x ← f b; Ok (acc ++ [x])) [] l.
Definition pairs (certs : list Certificate) : list (Certificate * Certificate) := zip certs (drop 1 certs).
Definition check_chain (chain : ValidatedChain) (e : RevocationEvidence) (now : N) : res PkiError unit :=
  validate_limits e;;
  rs ← parse_each parse_ocsp (ocsp_responses e);
  lists ← parse_each (fun b => orelse (crl_from_der b) "invalid CRL DER") (crls e);
  for_each (fun _ c => check_gpu_certificate c now) tt (certificates chain);;
  for_each (fun _ p => check_pair rs lists now p.1 p.2) tt (pairs (certificates chain)).

(** ** The cache of evidence *)
Definition add_size (total : N) (e : RevocationEvidence) : res PkiError N := n ← evidence_size e; plain_add usize_max total n.
Definition total_size (l : list RevocationEvidence) : res PkiError N := for_each add_size 0 l.
Definition cache_from_json (b : bytes) : res PkiError (gmap bytes RevocationEvidence) :=
  need (blen b <=? MAX_EVIDENCE_BYTES * 4) "revocation cache exceeds JSON limit";;
  cache ← orelse (cache_from_slice b) "invalid revocation cache";
  need (N.of_nat (size cache) <=? MAX_OBJECTS) "too many revocation cache entries";;
  for_each (fun _ e => validate_limits e) tt (btree_iter bytes_le cache).*2;;
  total ← total_size (btree_iter bytes_le cache).*2;
  need (total <=? MAX_EVIDENCE_BYTES) "combined revocation cache exceeds size limit";;
  Ok cache.
Definition key_part (acc : bytes) (c : Certificate) : res PkiError bytes :=
  der ← orelse (cert_to_der c) "encoding"; Ok (acc ++ N_to_be 8 (blen der) ++ der).
Definition cache_key (chain : ValidatedChain) : res PkiError bytes :=
  b ← for_each key_part (lit "unified-quote/revocation-chain/v1" ++ [x00]) (certificates chain);
  Ok (hex_encode (sha384 b)).
Definition cache_insert (cache : gmap bytes RevocationEvidence) (chain : ValidatedChain) (e : RevocationEvidence) (now : N) :
    res PkiError (gmap bytes RevocationEvidence) :=
  check_chain chain e now;;
  key ← cache_key chain;
  need (bool_decide (is_Some (cache !! key)) || (N.of_nat (size cache) <? MAX_OBJECTS)) "revocation cache is full";;
  retained ← total_size (btree_iter bytes_le (delete key cache)).*2;
  n ← evidence_size e;
  sum ← plain_add usize_max retained n;
  need (sum <=? MAX_EVIDENCE_BYTES) "combined revocation cache exceeds size limit";;
  Ok (<[key := e]> cache).
Definition checked_evidence (cache : gmap bytes RevocationEvidence) (chain : ValidatedChain) (now : N) : res PkiError RevocationEvidence :=
  key ← cache_key chain;
  e ← orelse (cache !! key) "revocation evidence is not cached";
  check_chain chain e now;;
  Ok e.
End Revocation.

(** * What an accepted status means *)
Section RevocationSpec.
Context `{X : X509} `{K : CpuCrypto} `{H : Sha2} `{GX : GpuX509} `{OF : OcspFormats}.

(** The evidence is within the limits. *)
Definition total_len (l : list bytes) : N := foldr (fun b n => blen b + n) 0 l.
Record evidence_wf (e : RevocationEvidence) : Prop := {
  ew_count : blen (objects e) <= MAX_OBJECTS;
  ew_size : forall b, b ∈ objects e -> 0 < blen b <= MAX_OBJECT_BYTES;
  ew_total : total_len (objects e) <= MAX_EVIDENCE_BYTES;
}.
(** [s] is about [subj], issued by [iss]. *)
Definition about (s : SingleResponse) (subj iss : Certificate) : Prop := cert_id_matches (sr_cert_id s) subj iss = Ok true.
(** Every list of the issuer is current, complete and signed, and does not name [subj]. *)
Definition lists_clear (lists : list CertificateList) (subj iss : Certificate) (now : N) : Prop :=
  forall crl, crl ∈ lists -> crl_issuer crl = subject iss -> clears_by verify_gpu_signature crl subj iss now.
(** A responder that the issuer itself delegates to, and that is not revoked. *)
Record delegated (d iss : Certificate) (lists : list CertificateList) (now : N) : Prop := {
  de_certificate : check_gpu_certificate d now = Ok tt;
  de_usage : check_extended_usage d OcspResponder true = Ok tt;
  de_sign : exists b u, get_key_usage d = Some (Some (b, u)) /\ digital_signature u = true /\ key_cert_sign u = false;
  de_entity : forall b bc, get_basic_constraints d = Some (Some (b, bc)) -> ca bc = false;
  de_issued : verify_gpu_cert_signature d iss = Ok tt;
  de_status : (exists e, e ∈ extensions d /\ extn_id e = OCSP_NOCHECK /\ null_ok (extn_value e) = true) \/
    (lists_clear lists d iss now /\ exists crl, crl ∈ lists /\ crl_issuer crl = subject iss);
}.
Inductive signer_of (r : BasicOcspResponse) (iss : Certificate) (lists : list CertificateList) (now : N) : Certificate -> Prop :=
| by_issuer : responder_matches (responder_id r) iss = Ok true -> signer_of r iss lists now iss
| by_delegate d : d ∈ ocsp_certs r -> responder_matches (responder_id r) d = Ok true -> delegated d iss lists now ->
    signer_of r iss lists now d.
(** A response, signed by the issuer or its delegate, that says [subj] is good now. *)
Record ocsp_good (r : BasicOcspResponse) (subj iss : Certificate) (lists : list CertificateList) (now : N) : Prop := {
  og_shape : ocsp_v1 r = true /\ 0 < blen (responses r) <= MAX_OBJECTS;
  og_signed : exists signer tbs sig, signer_of r iss lists now signer /\ response_tbs r = Some tbs /\
    as_bytes (ocsp_signature r) = Some sig /\ verify_gpu_signature signer (ocsp_algorithm r) tbs sig = Ok tt /\
    not_before signer <= produced_at r <= not_after signer /\ produced_at r <= now;
  og_good : forall s, s ∈ responses r -> about s subj iss -> sr_status s = Good /\
    exists next, sr_next_update s = Some next /\ sr_this_update s <= now < next /\ sr_this_update s <= produced_at r < next;
  og_once : exists s, s ∈ responses r /\ about s subj iss;
}.
(** The status of one certificate: nothing in the evidence that concerns it is anything
    but good, and something does concern it. *)
Record status_good (rs : list BasicOcspResponse) (lists : list CertificateList) (now : N) (subj iss : Certificate) : Prop := {
  sg_responses : forall r s, r ∈ rs -> s ∈ responses r -> about s subj iss -> ocsp_good r subj iss lists now;
  sg_lists : lists_clear lists subj iss now;
  sg_covered : (exists r s, r ∈ rs /\ s ∈ responses r /\ about s subj iss) \/
    (exists crl, crl ∈ lists /\ crl_issuer crl = subject iss);
}.
Record chain_good (certs : list Certificate) (e : RevocationEvidence) (now : N) : Prop := {
  cg_limits : evidence_wf e;
  cg_certificates : forall c, c ∈ certs -> check_gpu_certificate c now = Ok tt;
  cg_status : exists rs lists, Forall2 (fun b r => parse_ocsp b = Ok r) (ocsp_responses e) rs /\
    Forall2 (fun b l => crl_from_der b = Some l) (crls e) lists /\
    forall i c d, certs !! i = Some c -> certs !! S i = Some d -> status_good rs lists now c d;
}.

(** ** Loops *)
(** A loop that checks the items that concern it and notes whether there is one. *)
Lemma covering_safe {B} (sel : B -> bool) (g : B -> res PkiError unit) (Q : B -> Prop) l c0 :
  (forall x, x ∈ l -> safe (g x) (fun _ => Q x)) ->
  safe (for_each (fun covered x => if sel x then g x;; Ok true else Ok covered) c0 l)
    (fun c => (forall x, x ∈ l -> sel x = true -> Q x) /\ (c = true -> c0 = true \/ exists x, x ∈ l /\ sel x = true)).
Proof.
  revert c0. induction l as [|x l IH]; intros c0 Hg; [cbn [for_each safe]; split; [set_solver|auto]|]. rewrite for_each_cons.
  assert (forall y, y ∈ l -> safe (g y) (fun _ => Q y)) as Hg' by (intros y Hy; apply Hg; by right).
  destruct (sel x) eqn:Es.
  - rewrite bind_assoc_res. apply (safe_seq _ _ (fun _ => Q x)); [apply Hg; by left|]. intros [] _ Hx. ok_step.
    eapply safe_mono; [by apply IH|]. intros c _ [Hl _]. split.
    + intros y [->|Hy]%elem_of_cons Hs; auto.
    + intros _. right. exists x. split; [by left|done].
  - ok_step. eapply safe_mono; [by apply IH|]. intros c _ [Hl Hc]. split.
    + intros y [->|Hy]%elem_of_cons Hs; [congruence|auto].
    + intros [?|(y & Hy & Hs)]%Hc; [auto|]. right. exists y. split; [by right|done].
Qed.
Lemma parse_each_safe {A} (f : bytes -> res PkiError A) l : (forall b, safe (f b) (fun _ => True)) ->
  safe (parse_each f l) (fun xs => Forall2 (fun b x => f b = Ok x) l xs).
Proof.
  intros Hf. unfold parse_each. enough (forall acc, safe (for_each (fun acc b => x ← f b; Ok (acc ++ [x])) acc l)
    (fun xs => exists ys, xs = acc ++ ys /\ Forall2 (fun b x => f b = Ok x) l ys)) as Hg.
  { eapply safe_mono; [apply (Hg [])|]. by intros xs _ (ys & -> & ?). }
  induction l as [|b l IH]; intros acc; [exists []; by rewrite app_nil_r|]. rewrite for_each_cons.
  specialize (Hf b). destruct (f b) as [x|e| |] eqn:Eb; try done. ok_step. eapply safe_mono; [apply IH|].
  intros xs _ (ys & -> & Hys). exists (x :: ys). rewrite <- app_assoc. split; [done|]. by constructor.
Qed.
Lemma sums_to {A} (f : N -> A -> res PkiError N) (size_of : A -> N) l n :
  (forall m x, x ∈ l -> m + size_of x <= usize_max -> f m x = Ok (m + size_of x)) ->
  n + foldr (fun x m => size_of x + m) 0 l <= usize_max ->
  for_each f n l = Ok (n + foldr (fun x m => size_of x + m) 0 l).
Proof.
  revert n. induction l as [|x l IH]; intros n Hf Hn; cbn [for_each foldr] in *; [f_equal; lia|].
  rewrite Hf; [|by left|lia]. ok_step. rewrite IH; [f_equal; lia| |lia]. intros m y Hy. apply Hf. by right.
Qed.
Lemma add_object_safe l n : safe (for_each add_object n l) (fun t => t = n + total_len l /\ forall b, b ∈ l -> 0 < blen b <= MAX_OBJECT_BYTES).
Proof.
  revert n. induction l as [|b l IH]; intros n; [cbn; split; [lia|set_solver]|]. rewrite for_each_cons.
  unfold add_object at 1. pki. apply safe_bind, safe_bind, safe_ensure. intros Hb. bools. apply safe_ok_or.
  intros t [-> _]%checked_add_Some. eapply safe_mono; [apply IH|]. intros t' _ [-> Hl]. cbn [total_len foldr]. split; [unfold total_len; lia|].
  intros c [->|Hc]%elem_of_cons; [lia|auto].
Qed.
Lemma validate_limits_safe e : safe (validate_limits e) (fun _ => evidence_wf e).
Proof.
  unfold validate_limits. pki. apply safe_bind, safe_ensure. intros Hn%N.leb_le. eapply safe_seq; [apply add_object_safe|].
  intros t _ [-> Hl]. apply safe_ensure. intros Ht%N.leb_le. split; [unfold objects; by rewrite blen_app|done|lia].
Qed.

(** ** Status *)
Context {HL : Sha2Laws H}.
Lemma parse_ocsp_safe b : safe (parse_ocsp b) (fun _ => True).
Proof.
  unfold parse_ocsp. pki. apply safe_bind, safe_ensure. intros _. apply safe_bind, safe_ok_or. intros [ok body] _.
  apply safe_bind, safe_ensure. intros _. apply safe_bind, safe_ok_or. intros [ty r] _. apply safe_bind, safe_ensure. intros _.
  by apply safe_ok_or.
Qed.
Lemma identifier_digest_safe a b : safe (identifier_digest a b) (fun _ => True).
Proof.
  unfold identifier_digest, check_null_or_absent. pki. eapply (safe_seq _ _ (fun _ => True)).
  { destruct (alg_params a); [by apply safe_ensure|done]. }
  intros [] _ _. repeat case_match; done.
Qed.
Lemma cert_id_matches_safe id c d : safe (cert_id_matches id c d) (fun _ => True).
Proof.
  unfold cert_id_matches. destruct (negb _); [done|]. pki. apply safe_bind, safe_ok_or. intros n _.
  eapply safe_seq; [apply identifier_digest_safe|]. intros x _ _. destruct (bytes_eqb _ x); [|done].
  eapply safe_seq; [apply public_key_safe|]. intros k _ _. eapply safe_seq; [apply identifier_digest_safe|]. done.
Qed.
Lemma responder_matches_safe id c : safe (responder_matches id c) (fun _ => True).
Proof. unfold responder_matches. destruct id; [done|]. eapply safe_seq; [apply public_key_safe|done]. Qed.
Lemma unwrap_or_true (r : res PkiError bool) : unwrap_or r false = true <-> r = Ok true.
Proof. unfold unwrap_or. destruct r as [[]| | |]; split; congruence. Qed.
Lemma concerns_true r c d : concerns r c d = true <-> exists s, s ∈ responses r /\ about s c d.
Proof.
  unfold concerns, about. rewrite existsb_exists. setoid_rewrite unwrap_or_true. setoid_rewrite list_elem_of_In. done.
Qed.
Lemma check_gpu_crl_safe crl c d now : safe (check_gpu_crl crl c d now) (fun _ => clears_by verify_gpu_signature crl c d now).
Proof.
  eapply safe_mono; [apply decides_safe, (check_crl_body verify_gpu_signature), verify_gpu_signature_safe|]. by intros [] _ [].
Qed.
Lemma check_crls_safe lists c d now covered : safe (check_crls lists c d now covered) (fun r =>
  lists_clear lists c d now /\ (r = true -> covered = true \/ exists crl, crl ∈ lists /\ crl_issuer crl = subject d)).
Proof.
  unfold check_crls. eapply safe_mono.
  { apply (covering_safe (same_issuer d) _ (fun crl => clears_by verify_gpu_signature crl c d now)). intros crl _. apply check_gpu_crl_safe. }
  unfold same_issuer. intros r _ [Hl Hr]. split.
  - intros crl Hc Hi. apply Hl; [done|]. by apply bool_decide_eq_true.
  - intros [?|(crl & Hc & Hi%bool_decide_eq_true)]%Hr; [by left|right]. by exists crl.
Qed.
Lemma check_delegated_safe d iss lists now : safe (check_delegated d iss lists now) (fun _ => delegated d iss lists now).
Proof.
  unfold check_delegated. eapply safe_seq; [apply check_gpu_certificate_safe|]. intros [] H1 _.
  eapply safe_seq; [apply check_extended_usage_safe|]. intros [] H2 _. eapply safe_seq; [apply key_usage_safe|]. intros u Hu _. pki.
  apply safe_bind, safe_ensure. intros Hds. rewrite Hu. ok_step. apply safe_bind, safe_ensure. intros Hks%negb_true_iff.
  apply safe_bind, safe_ok_or. intros bc Hbc. apply (safe_seq _ _ (fun _ => forall b x, bc = Some (b, x) -> ca x = false)).
  { destruct bc as [[b x]|]; [|done]. apply safe_ensure. intros Hn%negb_true_iff b' x' [= <- <-]. done. }
  intros [] _ He. eapply safe_seq; [apply verify_gpu_cert_signature_safe|]. intros [] Hv _. apply key_usage_Ok in Hu as [b Hu].
  eapply (safe_mono _ (fun _ => (exists e, e ∈ extensions d /\ extn_id e = OCSP_NOCHECK /\ null_ok (extn_value e) = true) \/
    (lists_clear lists d iss now /\ exists crl, crl ∈ lists /\ crl_issuer crl = subject iss))).
  - destruct (List.find _ _) as [e|] eqn:Ef.
    + apply safe_ensure. intros Hn. left. apply find_some in Ef as [Hin%list_elem_of_In Hid%bytes_eqb_eq]. by exists e.
    + eapply safe_seq; [apply check_crls_safe|]. intros r _ [Hl Hr]. apply safe_ensure. intros ->. right. split; [done|].
      by destruct (Hr eq_refl).
  - intros [] _ Hst. split; try done; [by exists b, u|]. intros b' bc' E. rewrite Hbc in E. injection E as E. by eapply He.
Qed.
Lemma ocsp_signer_safe r iss lists now : safe (ocsp_signer r iss lists now) (signer_of r iss lists now).
Proof.
  unfold ocsp_signer. eapply safe_seq; [apply responder_matches_safe|]. intros [] Hr _; [by apply by_issuer|].
  destruct (filter _ (ocsp_certs r)) as [|d [|]] eqn:Ef; [done| |done].
  eapply safe_seq; [apply check_delegated_safe|]. intros [] _ Hd. cbn [safe].
  assert (d ∈ filter (fun c => unwrap_or (responder_matches (responder_id r) c) false = true) (ocsp_certs r)) as Hin by (rewrite Ef; by left).
  apply list_elem_of_filter in Hin as [Hm%unwrap_or_true Hin]. by apply by_delegate.
Qed.
Lemma check_nonce_safe r nonce : safe (check_nonce r nonce) (fun _ => True).
Proof. unfold check_nonce. destruct nonce as [e|]; [|done]. pki. by wp. Qed.
(** What one pass over the single responses establishes. *)
Definition single_good (subj iss : Certificate) (now produced : N) (s : SingleResponse) : Prop :=
  sr_status s = Good /\ exists next, sr_next_update s = Some next /\ sr_this_update s <= now < next /\
    sr_this_update s <= produced < next.
Lemma check_single_safe subj iss now produced n s : safe (check_single subj iss now produced n s) (fun m =>
  (m = n /\ ~ about s subj iss) \/ (m = n + 1 /\ about s subj iss /\ single_good subj iss now produced s)).
Proof.
  unfold check_single. eapply safe_seq; [eapply decides_safe, check_extensions_list_decides|]. intros [] _ _.
  eapply safe_seq; [apply cert_id_matches_safe|]. intros m Hm _. unfold about. destruct m; cbn [negb]; [|left; split; congruence].
  pki. apply safe_bind, safe_ok_or. intros next Hnext. eapply safe_seq; [eapply decides_safe, check_dates_decides|].
  intros [] _ [Hd _]. apply safe_bind, safe_ensure. intros Hp. bools. destruct (sr_status s) eqn:Es; try done. right.
  split; [done|]. split; [done|]. split; [done|]. exists next. split; [done|]. lia.
Qed.
Lemma check_singles_safe subj iss now produced l n : safe (for_each (check_single subj iss now produced) n l) (fun m =>
  (forall s, s ∈ l -> about s subj iss -> single_good subj iss now produced s) /\ (n < m -> exists s, s ∈ l /\ about s subj iss)).
Proof.
  revert n. induction l as [|s l IH]; intros n; [cbn; split; [set_solver|lia]|]. rewrite for_each_cons.
  eapply safe_seq; [apply check_single_safe|]. intros m _ Hm. eapply safe_mono; [apply IH|]. intros m' _ [Hl Hs]. split.
  - intros t [->|Ht]%elem_of_cons Ha; [|by apply Hl]. destruct Hm as [[_ []]|(_ & _ & Hg)]; done.
  - intros Hlt. destruct Hm as [[-> _]|(-> & Ha & _)]; [|exists s; split; [by left|done]].
    destruct (Hs Hlt) as (t & Ht & Ha). exists t. split; [by right|done].
Qed.
Lemma check_ocsp_safe r subj iss lists now nonce : safe (check_ocsp r subj iss lists now nonce) (fun _ => ocsp_good r subj iss lists now).
Proof.
  unfold check_ocsp. pki. apply safe_bind, safe_ensure. intros Hv. apply safe_bind, safe_ensure. intros Hc. bools.
  eapply safe_seq; [eapply decides_safe, check_extensions_list_decides|]. intros [] _ _.
  eapply safe_seq; [apply check_nonce_safe|]. intros [] _ _. apply safe_bind, safe_ensure. intros Hp%N.leb_le.
  eapply safe_seq; [apply ocsp_signer_safe|]. intros signer _ Hs. apply safe_bind, safe_ensure. intros Hval. bools.
  apply safe_bind, safe_ok_or. intros tbs Ht. apply safe_bind, safe_ok_or. intros sig Hsig.
  eapply safe_seq; [apply verify_gpu_signature_safe|]. intros [] Hver _. eapply safe_seq; [apply check_singles_safe|].
  intros n _ [Hg Ho]. apply safe_ensure. intros ->%N.eqb_eq. split; [split; [done|lia]| |done|by apply Ho].
  exists signer, tbs, sig. by split_and!.
Qed.
Lemma check_pair_safe rs lists now subj iss : safe (check_pair rs lists now subj iss) (fun _ => status_good rs lists now subj iss).
Proof.
  unfold check_pair. eapply safe_seq.
  { apply (covering_safe (fun r => concerns r subj iss) _ (fun r => ocsp_good r subj iss lists now)). intros r _. apply check_ocsp_safe. }
  intros covered _ [Hr Hc]. eapply safe_seq; [apply check_crls_safe|]. intros covered' _ [Hl Hc']. pki. apply safe_ensure. intros ->. split; [|done|].
  - intros r s Hin Hs Ha. apply Hr; [done|]. apply concerns_true. by exists s.
  - destruct (Hc' eq_refl) as [->|?]; [left|by right]. destruct (Hc eq_refl) as [?|(r & Hin & (s & Hs & Ha)%concerns_true)]; [done|].
    by exists r, s.
Qed.
Lemma pairs_lookup certs i c d : certs !! i = Some c -> certs !! S i = Some d -> (c, d) ∈ pairs certs.
Proof.
  intros Hc Hd. apply (list_elem_of_lookup_2 _ i). unfold pairs. rewrite lookup_zip_with, Hc, lookup_drop. cbn [mbind option_bind].
  change (1 + i)%nat with (S i). by rewrite Hd.
Qed.
Lemma check_chain_safe chain e now : safe (check_chain chain e now) (fun _ => chain_good (certificates chain) e now).
Proof.
  unfold check_chain. eapply safe_seq; [apply validate_limits_safe|]. intros [] _ Hw.
  eapply safe_seq; [apply parse_each_safe, parse_ocsp_safe|]. intros rs _ Hrs.
  eapply safe_seq; [apply parse_each_safe; intros b; pki; by apply safe_ok_or|]. intros lists _ Hlists.
  eapply safe_seq; [apply (safe_for_all (fun _ c => check_gpu_certificate c now)); intros c _; apply check_gpu_certificate_safe|].
  intros [] _ Hcert. eapply safe_mono; [apply (safe_for_all (fun _ p => check_pair rs lists now p.1 p.2))|].
  { intros p _. eapply safe_mono; [apply check_pair_safe|done]. }
  intros [] _ Hp. split; [done|done|]. exists rs, lists. split; [done|]. split.
  - eapply Forall2_impl; [exact Hlists|]. cbv beta. pki. by intros b l ?%ok_or_Ok.
  - intros i c d Hc Hd. specialize (Hp _ (pairs_lookup _ _ _ _ Hc Hd)). cbn [fst snd] in Hp.
    exact (safe_Ok _ _ _ (check_pair_safe _ _ _ _ _) Hp).
Qed.

(** ** The cache *)
Definition size_of (e : RevocationEvidence) : N := total_len (objects e).
Definition sizes (l : list RevocationEvidence) : N := foldr (fun e n => size_of e + n) 0 l.
(** The evidence of a cache is within the limits, one by one and together. *)
Record cache_wf (cache : gmap bytes RevocationEvidence) : Prop := {
  cw_count : N.of_nat (size cache) <= MAX_OBJECTS;
  cw_entries : forall k e, cache !! k = Some e -> evidence_wf e;
  cw_total : sizes (btree_iter bytes_le cache).*2 <= MAX_EVIDENCE_BYTES;
}.
#[local] Instance sizes_perm : Proper ((≡ₚ) ==> eq) sizes.
Proof. intros l k Hp. unfold sizes. induction Hp; cbn; lia. Qed.
Lemma btree_iter_perm (cache : gmap bytes RevocationEvidence) : btree_iter bytes_le cache ≡ₚ map_to_list cache.
Proof. apply merge_sort_Permutation. Qed.
Lemma sizes_insert cache k e : sizes (btree_iter bytes_le (<[k := e]> cache)).*2 =
  size_of e + sizes (btree_iter bytes_le (delete k cache)).*2.
Proof.
  rewrite !btree_iter_perm. rewrite <- insert_delete_eq, map_to_list_insert by apply lookup_delete_eq. done.
Qed.
Lemma sizes_delete cache k : sizes (btree_iter bytes_le (delete k cache)).*2 <= sizes (btree_iter bytes_le cache).*2.
Proof.
  destruct (cache !! k) as [e|] eqn:Ek; [|by rewrite delete_id].
  rewrite !btree_iter_perm. rewrite <- (map_to_list_delete cache k e Ek). cbn [fmap list_fmap snd sizes foldr]. unfold sizes. lia.
Qed.
Lemma evidence_sizes_elem e l : e ∈ l -> size_of e <= sizes l.
Proof. induction l as [|x l IH]; [set_solver|]. intros [->|He]%elem_of_cons; cbn; [lia|]. specialize (IH He). unfold sizes in *. lia. Qed.
Lemma evidence_size_run e : size_of e <= usize_max -> evidence_size e = Ok (size_of e).
Proof.
  intros He. unfold evidence_size, size_of in *. rewrite (sums_to _ (fun b => blen b)); [by rewrite N.add_0_l| |by rewrite N.add_0_l].
  intros m b _ Hm. unfold add_len, plain_add. by rewrite (proj2 (checked_add_Some _ _ _ _) (conj eq_refl Hm)).
Qed.
Lemma total_size_run l : sizes l <= usize_max -> total_size l = Ok (sizes l).
Proof.
  intros Hl. unfold total_size. rewrite (sums_to _ size_of); [by rewrite N.add_0_l| |by rewrite N.add_0_l].
  intros m e He Hm. unfold add_size. rewrite evidence_size_run by (apply evidence_sizes_elem in He; lia). ok_step.
  unfold plain_add. by rewrite (proj2 (checked_add_Some _ _ _ _) (conj eq_refl Hm)).
Qed.
Lemma evidence_wf_size e : evidence_wf e -> size_of e <= MAX_EVIDENCE_BYTES.
Proof. intros []. done. Qed.
Lemma sizes_bound l : (forall e, e ∈ l -> evidence_wf e) -> sizes l <= blen l * MAX_EVIDENCE_BYTES.
Proof.
  induction l as [|e l IH]; intros Hl; [done|]. rewrite blen_cons. cbn [sizes foldr].
  assert (size_of e <= MAX_EVIDENCE_BYTES) by (apply evidence_wf_size, Hl; by left).
  assert (sizes l <= blen l * MAX_EVIDENCE_BYTES) by (apply IH; intros x Hx; apply Hl; by right). unfold sizes in *. lia.
Qed.
Lemma cache_from_json_safe b : safe (cache_from_json b) cache_wf.
Proof.
  unfold cache_from_json. pki. apply safe_bind, safe_ensure. intros _. apply safe_bind, safe_ok_or. intros cache _.
  apply safe_bind, safe_ensure. intros Hn%N.leb_le. eapply safe_seq.
  { apply (safe_for_all (fun _ e => validate_limits e)). intros e _. eapply safe_mono; [apply validate_limits_safe|done]. }
  intros [] _ Hv. assert (forall e, e ∈ (btree_iter bytes_le cache).*2 -> evidence_wf e) as Hw.
  { intros e He. exact (safe_Ok _ _ _ (validate_limits_safe e) (Hv e He)). }
  assert (blen (btree_iter bytes_le cache).*2 = N.of_nat (size cache)) as Hlen.
  { unfold blen. by rewrite length_fmap, btree_iter_perm, length_map_to_list. }
  pose proof (sizes_bound _ Hw) as Hb. rewrite Hlen in Hb. rewrite total_size_run by (unfold MAX_OBJECTS, MAX_EVIDENCE_BYTES, usize_max, u64_max in *; nia).
  ok_step. apply safe_bind, safe_ensure. intros Ht%N.leb_le. cbn [safe]. split; [done| |done].
  intros k e Hk. apply Hw. apply list_elem_of_fmap. exists (k, e). split; [done|]. by apply elem_of_btree_iter.
Qed.
Lemma cache_key_safe chain : safe (cache_key chain) (fun _ => True).
Proof.
  unfold cache_key. eapply (safe_seq _ _ (fun _ => True)); [|done]. apply safe_for_each; [done|].
  intros acc c _ _. unfold key_part. pki. by wp.
Qed.
Lemma cache_insert_safe cache chain e now : cache_wf cache ->
  safe (cache_insert cache chain e now) (fun cache' => cache_wf cache' /\ chain_good (certificates chain) e now).
Proof.
  intros [Hn He Ht]. unfold cache_insert. eapply safe_seq; [apply check_chain_safe|]. intros [] _ Hc.
  eapply safe_seq; [apply cache_key_safe|]. intros key _ _. pki. apply safe_bind, safe_ensure. intros Hfull.
  pose proof (sizes_delete cache key) as Hd. pose proof (evidence_wf_size e (cg_limits _ _ _ Hc)) as Hs.
  rewrite total_size_run by (unfold MAX_EVIDENCE_BYTES, usize_max, u64_max in *; lia). ok_step.
  rewrite evidence_size_run by (unfold MAX_EVIDENCE_BYTES, usize_max, u64_max in *; lia). ok_step.
  assert (sizes (btree_iter bytes_le (delete key cache)).*2 + size_of e <= usize_max) as Hmax
    by (unfold MAX_EVIDENCE_BYTES, usize_max, u64_max in *; lia).
  unfold plain_add. rewrite (proj2 (checked_add_Some usize_max _ _ _) (conj eq_refl Hmax)). unfold unwrap.
  ok_step. apply safe_bind, safe_ensure. intros Hsum%N.leb_le. cbn [safe]. split; [|done]. split.
  - rewrite map_size_insert. destruct (cache !! key) as [x|]; cbn in *; [lia|]. apply N.ltb_lt in Hfull. lia.
  - intros k x. destruct (decide (k = key)) as [->|Hne]; [rewrite lookup_insert_eq; intros [= <-]; apply Hc|].
    rewrite lookup_insert_ne by done. apply He.
  - rewrite sizes_insert. lia.
Qed.
Lemma checked_evidence_safe cache chain now : safe (checked_evidence cache chain now) (fun e =>
  chain_good (certificates chain) e now).
Proof.
  unfold checked_evidence. eapply safe_seq; [apply cache_key_safe|]. intros key _ _. pki. apply safe_bind, safe_ok_or. intros e _.
  eapply safe_seq; [apply check_chain_safe|]. intros [] _ Hc. exact Hc.
Qed.
End RevocationSpec.

Section RevocationTheorem.
Context `{X : X509} `{K : CpuCrypto} `{H : Sha2} `{GX : GpuX509} `{OF : OcspFormats} {HL : Sha2Laws H}.
(** C18: revocation checking never panics and fails closed: it accepts a path only when every
    certificate but the root has a signed status in the evidence, and every status that
    concerns a certificate is good: the OCSP responses are current, signed by the issuer
    or by a responder the issuer delegates to, whose own status is covered, and say good;
    the lists of the issuer are current, complete and signed, and do not name the
    certificate.  The cache keeps its limits and returns only evidence that was checked. *)
Theorem revocation_sound chain e now cache : cache_wf cache ->
  safe (check_chain chain e now) (fun _ => chain_good (certificates chain) e now) /\
  safe (cache_insert cache chain e now) (fun cache' => cache_wf cache' /\ chain_good (certificates chain) e now) /\
  safe (checked_evidence cache chain now) (fun e => chain_good (certificates chain) e now).
Proof. intros Hc. split; [apply check_chain_safe|]. split; [by apply cache_insert_safe|apply checked_evidence_safe]. Qed.
End RevocationTheorem.

(** ** Status of a concrete path *)
Definition toy_ocsp : OcspFormats := {|
  ocsp_from_der := fun _ => None; basic_from_der := fun _ => None; octet_string_from_der := fun _ => None;
  name_to_der := fun _ => None; sha1 := fun b => b; cache_from_slice := fun _ => None |}.
Definition sample_status (evidence : RevocationEvidence) : res PkiError unit :=
  check_chain (X := toy_x509) (K := toy_cpu) (H := toy_sha2) (GX := toy_gpu_x509) (OF := toy_ocsp)
    {| certificates := [gpu_alias; sample_root] |} evidence 15.
Definition list_evidence : RevocationEvidence := {| ocsp_responses := []; crls := [[x03]] |}.
Example status_covered : sample_status list_evidence = Ok tt.
Proof. vm_compute. reflexivity. Qed.
Example status_missing : sample_status no_evidence = Err (PkiMsg "missing authenticated revocation status for certificate").
Proof. vm_compute. reflexivity. Qed.
Lemma empty_cache_wf : cache_wf ∅.
Proof. split; [done|intros k e; by rewrite lookup_empty|vm_compute; discriminate]. Qed.
Lemma revocation_sound_witness : sample_status list_evidence = Ok tt /\
  chain_good (X := toy_x509) (K := toy_cpu) (H := toy_sha2) (GX := toy_gpu_x509) (OF := toy_ocsp) [gpu_alias; sample_root] list_evidence 15.
Proof.
  pose proof (revocation_sound (X := toy_x509) (K := toy_cpu) (H := toy_sha2) (GX := toy_gpu_x509) (OF := toy_ocsp) (HL := toy_sha2_laws)
    {| certificates := [gpu_alias; sample_root] |} list_evidence 15 ∅ empty_cache_wf) as [Hs _].
  split; [exact status_covered|]. pose proof status_covered as Ha. unfold sample_status in Ha. rewrite Ha in Hs. exact Hs.
Defined.
