(* ===== verification/Rim.v ===== *)
(** * Rim: reference integrity manifests of GPU firmware

    [src/v2/src/gpu/rim.rs]: an XML document in a constrained signature profile.  The
    reference covers the whole document without its signature, the signature is by the
    P-384 key at the end of a path to NVIDIA's manifest roots, and the reference
    measurements are read from the same document that was canonicalised.

    The XML parser, its document model and the canonicalisation are crates ([Xml]). *)
From S2P Require Import Prelude Bytes Text Crypto Spdm Pki Crl Pem GpuCert Revocation.

Definition SWID : bytes := lit "http://standards.iso.org/iso/19770/-2/2015/schema.xsd".
Definition DS : bytes := lit "http://www.w3.org/2000/09/xmldsig#".
Definition RIM : bytes := lit "https://trustedcomputinggroup.org/resource/tcg-reference-integrity-manifest-rim-information-model/".
Definition HASH : bytes := lit "http://www.w3.org/2001/04/xmlenc#sha384".
Definition OPAQUE : bytes := lit "https://docs.nvidia.com/attestation/specs/latest/opaque-data.html".
Definition C14N11 : bytes := lit "http://www.w3.org/2006/12/xml-c14n11".
Definition ECDSA384 : bytes := lit "http://www.w3.org/2001/04/xmldsig-more#ecdsa-sha384".
Definition DIGEST384 : bytes := lit "http://www.w3.org/2001/04/xmldsig-more#sha384".
Definition ENVELOPED : bytes := lit "http://www.w3.org/2000/09/xmldsig#enveloped-signature".
Definition MAX_XML_BYTES : N := 2 * 1024 * 1024.
Definition MAX_NODES : N := 16384.
Definition MAX_CERTIFICATES : N := 8.
Definition MAX_ALTERNATIVES : N := 256.
Definition OPAQUE_INDEX_BASE : N := 0x1000.

Inductive RimKind : Type := GpuDriver | GpuVbios | NvSwitchVbios.
#[global] Instance RimKind_eq_dec : EqDecision RimKind.
Proof. solve_decision. Defined.
Record RimMetadata : Type := {
  kind : RimKind; version : bytes; model : bytes; product : bytes; edition : bytes; tag_id : bytes;
  firmware_manufacturer_id : N; platform_manufacturer_id : N;
}.
Record OpaqueSvnConstraint : Type := {
  type_id : N; constraint_name : bytes; declared_size : N; value_size : N; min_svn : N; include_in_result : bool;
}.
Record RimData : Type := {
  metadata : RimMetadata; rim_measurements : gmap N (list bytes); inactive_indices : gset N;
  opaque_constraints : list OpaqueSvnConstraint; source_sha384 : bytes;
}.
Record VerifiedRim : Type := { rim_data : RimData }.
Record SignatureVerifiedRim : Type := { sv_data : RimData; sv_chain : ValidatedChain }.

(** ** The document model *)
Record QName : Type := { namespace_uri : option bytes; local_name : bytes }.
Record Elem : Type := { elem_name : QName; attributes : list (QName * bytes) }.
Inductive NodeKind : Type := NElement (e : Elem) | NText (s : bytes) | NCData (s : bytes) | NComment | NInstruction | NOther.
Class Xml := {
  Document : Type;
  NodeId : Type;
  (** [Parser::new().with_max_depth(32).parse] *)
  xml_parse : bytes -> option Document;
  (** version and encoding *)
  xml_declaration : Document -> option (bytes * option bytes);
  doc_root : Document -> NodeId;
  document_element : Document -> option NodeId;
  descendants : Document -> NodeId -> list NodeId;
  children_iter : Document -> NodeId -> list NodeId;
  node_kind : Document -> NodeId -> option NodeKind;
  (** [QName::matches] *)
  name_matches : QName -> option bytes -> bytes -> bool;
  (** C14N 1.1 of the document without comments and without the subtree of a node *)
  canonical_without : Document -> NodeId -> option bytes;
  (** C14N 1.1 of the subtree of a node, without comments *)
  canonical_tree : Document -> NodeId -> option bytes;
}.
(** [VerifyingKey::from_public_key_der] *)
Class P384Keys (P : Spdm.P384) := { p384_from_der : bytes -> option P384Key }.

Definition contains (needle s : bytes) : bool := if find_sub needle s is Some _ then true else false.

(** ** Values *)
Definition decimal (value : bytes) (label : string) : res PkiError N :=
  need (negb (blen value =? 0) && forallb is_digit value) "RIM value must be unsigned decimal";;
  orelse (parse_unsigned u64_max value) "RIM value exceeds supported range".
Definition strict_bool (value : bytes) : res PkiError bool :=
  if bytes_eqb value (lit "True") then Ok true
  else if bytes_eqb value (lit "False") then Ok false
  else Err (PkiMsg "RIM boolean must be exactly True or False").
(** [u32::try_from] *)
Definition u32_of (n : N) : res PkiError N := need (n <=? u32_max) "TryFromIntError";; Ok n.

Section Rim.
Context `{X : X509} `{K : CpuCrypto} `{H : Sha2} `{GX : GpuX509} `{OF : OcspFormats} `{P : Spdm.P384} `{PK : !P384Keys P} `{XM : Xml}.

(** ** Nodes *)
Definition doc_element (doc : Document) (id : NodeId) : option Elem :=
  match node_kind doc id with Some (NElement e) => Some e | _ => None end.
Definition element (doc : Document) (id : NodeId) : res PkiError Elem := orelse (doc_element doc id) "expected XML element".
Definition matches (doc : Document) (id : NodeId) (ns name : bytes) : bool :=
  match doc_element doc id with Some e => name_matches (elem_name e) (Some ns) name | None => false end.
Definition optional_attribute (e : Elem) (ns : option bytes) (name : bytes) : option bytes :=
  snd <$> List.find (fun a : QName * bytes => name_matches a.1 ns name) (attributes e).
Definition attribute (e : Elem) (ns : option bytes) (name : bytes) : res PkiError bytes :=
  orelse (optional_attribute e ns name) "missing RIM attribute".
Definition allowed_attributes (e : Elem) (allowed : list (option bytes * bytes)) : res PkiError unit :=
  for_each (fun _ a => need (existsb (fun n => name_matches a.1 n.1 n.2) allowed) "unexpected RIM attribute") tt (attributes e).
Definition exact_attributes (e : Elem) (expected : list (option bytes * bytes)) : res PkiError unit :=
  need (blen (attributes e) =? blen expected) "unexpected attribute count";;
  allowed_attributes e expected;;
  for_each (fun _ n => attribute e n.1 n.2;; Ok tt) tt expected.
Definition element_child (doc : Document) (acc : list NodeId) (child : NodeId) : res PkiError (list NodeId) :=
  match node_kind doc child with
  | Some (NElement _) => Ok (acc ++ [child])
  | Some (NText t) | Some (NCData t) => need (blen (str_trim t) =? 0) "unexpected text in RIM structural element";; Ok acc
  | Some NComment => Ok acc
  | _ => Err (PkiMsg "unexpected XML node in RIM structure")
  end.
Definition element_children (doc : Document) (id : NodeId) : res PkiError (list NodeId) :=
  for_each (element_child doc) [] (children_iter doc id).
Definition exact_children (doc : Document) (id : NodeId) (expected : list (bytes * bytes)) : res PkiError (list NodeId) :=
  children ← element_children doc id;
  need (blen children =? blen expected) "unexpected RIM child count";;
  for_each (fun _ p => need (matches doc p.1 p.2.1 p.2.2) "expected RIM child") tt (zip children expected);;
  Ok children.
Definition empty_element (doc : Document) (id : NodeId) : res PkiError unit :=
  children ← element_children doc id;
  need (blen children =? 0) "RIM element must be empty".
Definition algorithm (doc : Document) (id : NodeId) (expected : bytes) : res PkiError unit :=
  e ← element doc id;
  exact_attributes e [(None, lit "Algorithm")];;
  empty_element doc id;;
  a ← attribute e None (lit "Algorithm");
  need (bytes_eqb a expected) "unsupported RIM algorithm".
Definition base64_blank (c : byte) : bool := Byte.eqb c x20 || Byte.eqb c x09 || Byte.eqb c x0d || Byte.eqb c x0a.
Definition base64_child (doc : Document) (text : bytes) (child : NodeId) : res PkiError bytes :=
  match node_kind doc child with
  | Some (NText s) | Some (NCData s) => Ok (text ++ List.filter (fun c => negb (base64_blank c)) s)
  | Some NComment => Ok text
  | _ => Err (PkiMsg "RIM base64 element contains nested content")
  end.
Definition div_ceil (a b : N) : N := (a + b - 1) / b.
Definition base64_element (doc : Document) (id : NodeId) (max_bytes : N) : res PkiError bytes :=
  e ← element doc id;
  exact_attributes e [];;
  text ← for_each (base64_child doc) [] (children_iter doc id);
  need (blen text <=? div_ceil max_bytes 3 * 4) "RIM base64 value exceeds bound";;
  decoded ← orelse (base64_decode text) "invalid base64 in RIM";
  need (blen decoded <=? max_bytes) "RIM decoded value exceeds bound";;
  Ok decoded.

(** ** Parsing *)
Definition unique_id (ids : gset bytes) (a : QName * bytes) : res PkiError (gset bytes) :=
  if eq_ignore_ascii_case (local_name a.1) (lit "id") then
    need (bool_decide (a.2 ∉ ids)) "RIM contains an ambiguous duplicate ID";; Ok ({[a.2]} ∪ ids)
  else Ok ids.
Definition check_node (doc : Document) (ids : gset bytes) (id : NodeId) : res PkiError (gset bytes) :=
  need (match node_kind doc id with Some NInstruction => false | _ => true end) "RIM processing instructions are forbidden";;
  match doc_element doc id with Some e => for_each unique_id ids (attributes e) | None => Ok ids end.
Definition parse_document (xml : bytes) : res PkiError Document :=
  need (negb (blen xml =? 0) && (blen xml <=? MAX_XML_BYTES)) "RIM XML size is outside the supported bound";;
  need (negb (contains (lit "<!DOCTYPE") xml) && negb (contains (lit "<!ENTITY") xml))
    "RIM DTDs and entity declarations are forbidden";;
  doc ← orelse (xml_parse xml) "malformed RIM XML";
  match xml_declaration doc with
  | Some (v, encoding) =>
    need (bytes_eqb v (lit "1.0")) "RIM must use XML 1.0";;
    need (match encoding with Some s => eq_ignore_ascii_case s (lit "utf-8") | None => true end) "RIM XML must use UTF-8"
  | None => Ok tt
  end;;
  let nodes := descendants doc (doc_root doc) in
  need (blen nodes <=? MAX_NODES) "RIM XML has too many nodes";;
  for_each (check_node doc) ∅ nodes;;
  Ok doc.

(** ** Extraction *)
Definition RESOURCE_OPAQUE : list (option bytes * bytes) :=
  [(None, lit "type"); (None, lit "index"); (None, lit "active"); (None, lit "name"); (None, lit "alternatives");
   (None, lit "size"); (Some OPAQUE, lit "minSvn"); (Some OPAQUE, lit "includeInResult")].
Record Payload : Type := {
  pl_measurements : gmap N (list bytes); pl_inactive : gset N; pl_opaque : list OpaqueSvnConstraint; pl_seen : gset N;
}.
Definition no_payload : Payload := {| pl_measurements := ∅; pl_inactive := ∅; pl_opaque := []; pl_seen := ∅ |}.

Definition opaque_resource (r : Elem) (index : N) (name : bytes) : res PkiError OpaqueSvnConstraint :=
  need (index - OPAQUE_INDEX_BASE <=? u16_max) "RIM opaque type exceeds u16";;
  allowed_attributes r RESOURCE_OPAQUE;;
  a ← attribute r (Some OPAQUE) (lit "minSvn");
  min ← decimal a "opaque minimum SVN";
  a ← attribute r None (lit "alternatives");
  n ← decimal a "opaque alternatives";
  need (n =? 1) "opaque minimum SVN supports exactly one constraint";;
  a ← attribute r None (lit "size");
  n ← decimal a "opaque declared size";
  size ← u32_of n;
  need (0 <? size) "opaque declared size is zero";;
  need (min <=? u16_max) "minimum SVN exceeds NVIDIA uint16 field";;
  include ← (match optional_attribute r (Some OPAQUE) (lit "includeInResult") with Some v => strict_bool v | None => Ok false end);
  Ok {| type_id := index - OPAQUE_INDEX_BASE; constraint_name := name; declared_size := size; value_size := 2; min_svn := min;
        include_in_result := include |}.

Definition hash_name (alt : N) : bytes := lit "Hash" ++ to_decimal alt.
Definition hash_value (r : Elem) (alt : N) : res PkiError bytes :=
  hash ← attribute r (Some HASH) (hash_name alt);
  need (blen hash =? 96) "RIM hash must encode 48 bytes";;
  orelse (hex_decode hash) "RIM measurement is not hexadecimal".
Definition measurement_attribute (alternatives : N) (n : QName) : bool :=
  let standard := bool_decide (namespace_uri n = None) &&
    existsb (bytes_eqb (local_name n)) [lit "type"; lit "index"; lit "active"; lit "alternatives"; lit "name"; lit "size"] in
  let hash := bool_decide (namespace_uri n = Some HASH) &&
    match strip_prefix (lit "Hash") (local_name n) ≫= parse_unsigned usize_max with
    | Some k => (k <? alternatives) && bytes_eqb (local_name n) (hash_name k)
    | None => false
    end in
  standard || hash.
Definition measurement_resource (r : Elem) (index : N) : res PkiError (list bytes) :=
  need (index <? 254) "RIM index cannot map to an individual SPDM measurement block";;
  a ← attribute r None (lit "size");
  n ← decimal a "measurement size";
  need (n =? 48) "RIM measurements must be 48-byte SHA-384 digests";;
  a ← attribute r None (lit "alternatives");
  alternatives ← decimal a "alternatives";
  need ((1 <=? alternatives) && (alternatives <=? MAX_ALTERNATIVES)) "RIM alternatives count outside bound";;
  values ← for_each (fun acc alt => v ← hash_value r alt; Ok (acc ++ [v])) [] (N.of_nat <$> seq 0 (N.to_nat alternatives));
  for_each (fun _ a => need (measurement_attribute alternatives a.1) "unexpected RIM resource attribute") tt (attributes r);;
  Ok values.

Definition payload_resource (doc : Document) (st : Payload) (id : NodeId) : res PkiError Payload :=
  need (matches doc id SWID (lit "Resource")) "unexpected RIM Payload child";;
  empty_element doc id;;
  r ← element doc id;
  a ← attribute r None (lit "type");
  need (bytes_eqb a (lit "Measurement")) "unsupported RIM Resource type";;
  a ← attribute r None (lit "index");
  index ← decimal a "measurement index";
  need (bool_decide (index ∉ pl_seen st)) "duplicate RIM measurement index";;
  let seen := {[index]} ∪ pl_seen st in
  a ← attribute r None (lit "active");
  active ← strict_bool a;
  name ← attribute r None (lit "name");
  need (negb (blen name =? 0)) "RIM resource name is empty";;
  if OPAQUE_INDEX_BASE <=? index then
    c ← opaque_resource r index name;
    Ok {| pl_measurements := pl_measurements st; pl_inactive := pl_inactive st;
          pl_opaque := if active : bool then pl_opaque st ++ [c] else pl_opaque st; pl_seen := seen |}
  else
    values ← measurement_resource r index;
    if active : bool then
      Ok {| pl_measurements := <[index := values]> (pl_measurements st); pl_inactive := pl_inactive st;
            pl_opaque := pl_opaque st; pl_seen := seen |}
    else
      Ok {| pl_measurements := pl_measurements st; pl_inactive := {[index]} ∪ pl_inactive st;
            pl_opaque := pl_opaque st; pl_seen := seen |}.

Definition IDENTITY_ATTRIBUTES : list (option bytes * bytes) :=
  (fun n => (None, n)) <$> [lit "corpus"; lit "name"; lit "patch"; lit "supplemental"; lit "tagId"; lit "version"; lit "tagVersion"].
Definition META_ATTRIBUTES : list (option bytes * bytes) :=
  ((fun n => (None, n)) <$> [lit "colloquialVersion"; lit "edition"; lit "product"; lit "revision"; lit "PayloadType"]) ++
  ((fun n => (Some RIM, n)) <$> [lit "BindingSpec"; lit "BindingSpecVersion"; lit "PlatformManufacturerId"; lit "PlatformManufacturerStr";
     lit "PlatformModel"; lit "FirmwareManufacturer"; lit "FirmwareManufacturerId"]).

(** The tag of the SWID identity. *)
Definition read_identity (identity : Elem) : res PkiError bytes :=
  exact_attributes identity IDENTITY_ATTRIBUTES;;
  for_each (fun _ flag => a ← attribute identity None flag; need (bytes_eqb a (lit "false")) "RIM flag must be false for a complete direct manifest")
    tt [lit "corpus"; lit "patch"; lit "supplemental"];;
  a ← attribute identity None (lit "version");
  need (bytes_eqb a (lit "1.0")) "unsupported SWID version";;
  a ← attribute identity None (lit "tagVersion");
  decimal a "tagVersion";;
  tag ← attribute identity None (lit "tagId");
  need (negb (blen tag =? 0) && (blen tag <=? 256)) "invalid RIM tagId";;
  Ok tag.
Definition read_entity (doc : Document) (id : NodeId) : res PkiError unit :=
  entity ← element doc id;
  exact_attributes entity [(None, lit "name"); (None, lit "role")];;
  empty_element doc id;;
  a ← attribute entity None (lit "name");
  need (bytes_eqb a (lit "NVIDIA Corporation")) "RIM entity is not NVIDIA";;
  a ← attribute entity None (lit "role");
  need (bool_decide ((list_to_set (split_ascii_whitespace a) : gset bytes) = {[lit "softwareCreator"; lit "tagCreator"]}))
    "unsupported RIM entity role".
(** Decimal components are a driver's version, hexadecimal bytes that of a VBIOS. *)
Definition vbios_components (cs : list bytes) : bool :=
  (blen cs =? 5) && forallb (fun s => (blen s =? 2) && forallb is_ascii_hexdigit s) cs.
Definition driver_components (cs : list bytes) : bool :=
  (2 <=? blen cs) && (blen cs <=? 3) && forallb (fun s => negb (blen s =? 0) && (blen s <=? 6) && forallb is_digit s) cs.
Definition rim_kind (edition version : bytes) : res PkiError RimKind :=
  let cs := split_byte x2e version in
  match bytes_eqb edition (lit "GPU"), bytes_eqb edition (lit "SWITCH"), driver_components cs, vbios_components cs with
  | true, _, true, false => Ok GpuDriver
  | true, _, false, true => Ok GpuVbios
  | _, true, false, true => Ok NvSwitchVbios
  | _, _, _, _ => Err (PkiMsg "unsupported or ambiguous RIM edition/version profile")
  end.
Definition read_meta (doc : Document) (id : NodeId) (identity : Elem) (tag : bytes) : res PkiError RimMetadata :=
  meta ← element doc id;
  empty_element doc id;;
  exact_attributes meta META_ATTRIBUTES;;
  a ← attribute meta None (lit "PayloadType");
  need (bytes_eqb a (lit "direct")) "RIM must contain direct reference values";;
  a ← attribute meta (Some RIM) (lit "BindingSpec");
  (if bytes_eqb a (lit "RIMIM") then
     b ← attribute meta (Some RIM) (lit "BindingSpecVersion");
     need (bytes_eqb b (lit "1.01")) "unsupported RIM binding specification"
   else Err (PkiMsg "unsupported RIM binding specification"));;
  a ← attribute meta (Some RIM) (lit "PlatformManufacturerStr");
  (if bytes_eqb a (lit "NVIDIA Corporation") then
     b ← attribute meta (Some RIM) (lit "FirmwareManufacturer");
     need (bytes_eqb b (lit "NVIDIA Corporation")) "RIM manufacturer is not NVIDIA"
   else Err (PkiMsg "RIM manufacturer is not NVIDIA"));;
  a ← attribute meta (Some RIM) (lit "FirmwareManufacturerId");
  n ← decimal a "FirmwareManufacturerId";
  firmware ← u32_of n;
  a ← attribute meta (Some RIM) (lit "PlatformManufacturerId");
  n ← decimal a "PlatformManufacturerId";
  platform ← u32_of n;
  need ((firmware =? 5703) && (platform =? 5703)) "RIM manufacturer PEN must be NVIDIA 5703";;
  mdl ← attribute meta (Some RIM) (lit "PlatformModel");
  prod ← attribute meta None (lit "product");
  (if negb (blen mdl =? 0) && bytes_eqb mdl prod then
     name ← attribute identity None (lit "name");
     need (bytes_eqb mdl name) "RIM model/product identity is inconsistent"
   else Err (PkiMsg "RIM model/product identity is inconsistent"));;
  ed ← attribute meta None (lit "edition");
  v ← attribute meta None (lit "colloquialVersion");
  k ← rim_kind ed v;
  Ok {| kind := k; version := v; model := mdl; product := prod; edition := ed; tag_id := tag;
        firmware_manufacturer_id := firmware; platform_manufacturer_id := platform |}.
Definition extract_data (doc : Document) (root : NodeId) (parts : list NodeId) (xml : bytes) : res PkiError RimData :=
  identity ← element doc root;
  tag ← read_identity identity;
  p0 ← index parts 0;
  read_entity doc p0;;
  p1 ← index parts 1;
  meta ← read_meta doc p1 identity tag;
  p2 ← index parts 2;
  e ← element doc p2;
  exact_attributes e [];;
  children ← element_children doc p2;
  st ← for_each (payload_resource doc) no_payload children;
  need (bool_decide (pl_measurements st <> ∅)) "RIM contains no active reference measurements";;
  Ok {| metadata := meta; rim_measurements := pl_measurements st; inactive_indices := pl_inactive st;
        opaque_constraints := pl_opaque st; source_sha384 := sha384 xml |}.

(** ** Verification *)
Definition key_certificate (doc : Document) (chain : bytes) (id : NodeId) : res PkiError bytes :=
  need (matches doc id DS (lit "X509Certificate")) "only inline X509Certificate is supported in RIM KeyInfo";;
  der ← base64_element doc id (16 * 1024);
  need (negb (blen der =? 0)) "empty RIM signer certificate";;
  Ok (chain ++ der).
Definition extract_certificate_chain (doc : Document) (key_info : NodeId) : res PkiError bytes :=
  e ← element doc key_info;
  exact_attributes e [];;
  xs ← exact_children doc key_info [(DS, lit "X509Data")];
  x509 ← index xs 0;
  e ← element doc x509;
  exact_attributes e [];;
  nodes ← element_children doc x509;
  need (negb (blen nodes =? 0) && (blen nodes <=? MAX_CERTIFICATES)) "RIM certificate count outside bound";;
  for_each (key_certificate doc) [] nodes.

(** What the signature element says: the digest of the document, and where its parts are. *)
Record SignatureParts : Type := { sp_digest : bytes; sp_signed_info : NodeId; sp_value : NodeId; sp_key_info : NodeId }.
Definition read_signature (doc : Document) (signature_id : NodeId) : res PkiError SignatureParts :=
  sig_parts ← exact_children doc signature_id [(DS, lit "SignedInfo"); (DS, lit "SignatureValue"); (DS, lit "KeyInfo")];
  e ← element doc signature_id;
  exact_attributes e [];;
  signed_info ← index sig_parts 0;
  e ← element doc signed_info;
  exact_attributes e [];;
  si ← exact_children doc signed_info [(DS, lit "CanonicalizationMethod"); (DS, lit "SignatureMethod"); (DS, lit "Reference")];
  s0 ← index si 0; algorithm doc s0 C14N11;;
  s1 ← index si 1; algorithm doc s1 ECDSA384;;
  s2 ← index si 2;
  e ← element doc s2;
  exact_attributes e [(None, lit "URI")];;
  uri ← attribute e None (lit "URI");
  need (blen uri =? 0) "RIM reference must cover the entire document";;
  reference ← exact_children doc s2 [(DS, lit "Transforms"); (DS, lit "DigestMethod"); (DS, lit "DigestValue")];
  r0 ← index reference 0;
  e ← element doc r0;
  exact_attributes e [];;
  transforms ← exact_children doc r0 [(DS, lit "Transform"); (DS, lit "Transform")];
  t0 ← index transforms 0; algorithm doc t0 ENVELOPED;;
  t1 ← index transforms 1; algorithm doc t1 C14N11;;
  r1 ← index reference 1; algorithm doc r1 DIGEST384;;
  r2 ← index reference 2;
  digest ← base64_element doc r2 48;
  need (blen digest =? 48) "RIM SHA-384 digest must be 48 bytes";;
  value_ ← index sig_parts 1;
  key_info ← index sig_parts 2;
  Ok {| sp_digest := digest; sp_signed_info := signed_info; sp_value := value_; sp_key_info := key_info |}.
Definition verify_xml_signature_and_chain (xml : bytes) (roots : list Certificate) (now : N) : res PkiError SignatureVerifiedRim :=
  doc ← parse_document xml;
  root ← orelse (document_element doc) "RIM document has no root";
  need (matches doc root SWID (lit "SoftwareIdentity")) "RIM root must be SWID SoftwareIdentity";;
  parts ← exact_children doc root [(SWID, lit "Entity"); (SWID, lit "Meta"); (SWID, lit "Payload"); (DS, lit "Signature")];
  signature_id ← index parts 3;
  need (blen (List.filter (fun id => matches doc id DS (lit "Signature")) (descendants doc root)) =? 1)
    "RIM must contain exactly one signature";;
  sp ← read_signature doc signature_id;
  covered ← orelse (canonical_without doc signature_id) "RIM canonicalization";
  need (bytes_eqb (sha384 covered) (sp_digest sp)) "RIM reference digest mismatch";;
  cert_bytes ← extract_certificate_chain doc (sp_key_info sp);
  chain ← validate_gpu_chain cert_bytes roots now Rim;
  leaf ← index (certificates chain) 0;
  key ← orelse (p384_from_der (spki_der leaf)) "RIM signer must use a P-384 public key";
  sig ← base64_element doc (sp_value sp) 96;
  sig ← orelse (signature_from_slice sig) "RIM XMLDSig signature must be fixed-width";
  info ← orelse (canonical_tree doc (sp_signed_info sp)) "RIM SignedInfo canonicalization";
  need (p384_verify key info sig) "RIM ECDSA signature mismatch";;
  data ← extract_data doc root parts xml;
  Ok {| sv_data := data; sv_chain := chain |}.
Definition verify_xml (xml : bytes) (roots : list Certificate) (e : RevocationEvidence) (now : N) : res PkiError VerifiedRim :=
  checked ← verify_xml_signature_and_chain xml roots now;
  check_chain (sv_chain checked) e now;;
  Ok {| rim_data := sv_data checked |}.
End Rim.

(** * What an accepted manifest says *)
Section RimSpec.
Context `{X : X509} `{K : CpuCrypto} `{H : Sha2} `{GX : GpuX509} `{OF : OcspFormats} `{P : Spdm.P384} `{PK : !P384Keys P} `{XM : Xml}.

(** The resource of a payload at node [id]: its index and whether it is active. *)
Definition resource (doc : Document) (id : NodeId) (r : Elem) (i : N) (active : bool) : Prop :=
  doc_element doc id = Some r /\ matches doc id SWID (lit "Resource") = true /\
  (a ← attribute r None (lit "index"); decimal a "measurement index") = Ok i /\
  (a ← attribute r None (lit "active"); strict_bool a) = Ok active.
(** The reference values of a measurement resource, in the order of their names, as many as
    its count of alternatives. *)
Definition reference_values (r : Elem) (vs : list bytes) : Prop :=
  (a ← attribute r None (lit "alternatives"); decimal a "alternatives") = Ok (blen vs) /\ 1 <= blen vs <= MAX_ALTERNATIVES /\ Forall (fun v => blen v = 48) vs /\
  forall k v, vs !! k = Some v -> hash_value r (N.of_nat k) = Ok v.
Definition constraint_wf (c : OpaqueSvnConstraint) : Prop :=
  type_id c <= u16_max /\ value_size c = 2 /\ min_svn c <= u16_max /\ 0 < declared_size c <= u32_max.
(** No two resources state the same index, active or not. *)
Definition distinct_indices (doc : Document) (ids : list NodeId) : Prop :=
  forall j1 j2 id1 id2 r1 r2 i a1 a2, ids !! j1 = Some id1 -> ids !! j2 = Some id2 ->
    resource doc id1 r1 i a1 -> resource doc id2 r2 i a2 -> j1 = j2.
(** What the resources at the nodes [ids] amount to: each has its own index; exactly the active
    measurements with their values, exactly the inactive ones, and exactly the active
    constraints, as their resources state them. *)
Record payload_of (doc : Document) (ids : list NodeId) (ms : gmap N (list bytes)) (off : gset N) (cs : list OpaqueSvnConstraint) : Prop := {
  po_measured i vs : ms !! i = Some vs -> i < 254 /\ exists id r, id ∈ ids /\ resource doc id r i true /\ reference_values r vs;
  po_inactive i : i ∈ off -> i < 254 /\ ms !! i = None /\ exists id r, id ∈ ids /\ resource doc id r i false;
  po_complete id : id ∈ ids -> exists r i active, resource doc id r i active /\
    (i < OPAQUE_INDEX_BASE -> if active : bool then is_Some (ms !! i) else i ∈ off) /\
    (OPAQUE_INDEX_BASE <= i -> active = true -> exists c, c ∈ cs /\ type_id c = i - OPAQUE_INDEX_BASE);
  po_constraints : Forall constraint_wf cs /\ NoDup (type_id <$> cs);
  po_distinct : distinct_indices doc ids;
  po_constrained c : c ∈ cs -> exists id r n, id ∈ ids /\ resource doc id r (OPAQUE_INDEX_BASE + type_id c) true /\
    attribute r None (lit "name") = Ok n /\ opaque_resource r (OPAQUE_INDEX_BASE + type_id c) n = Ok c;
}.
(** The kind of a manifest is determined by its edition and the form of its version. *)
Definition kind_ok (m : RimMetadata) : Prop :=
  match kind m with
  | GpuDriver => edition m = lit "GPU" /\ driver_components (split_byte x2e (version m)) = true
  | GpuVbios => edition m = lit "GPU" /\ vbios_components (split_byte x2e (version m)) = true
  | NvSwitchVbios => edition m = lit "SWITCH" /\ vbios_components (split_byte x2e (version m)) = true
  end.
Record data_of (doc : Document) (payload : NodeId) (d : RimData) : Prop := {
  do_meta : kind_ok (metadata d) /\ 0 < blen (model (metadata d)) /\ firmware_manufacturer_id (metadata d) = 5703;
  do_payload : exists ids, element_children doc payload = Ok ids /\
    payload_of doc ids (rim_measurements d) (inactive_indices d) (opaque_constraints d);
  do_active : rim_measurements d <> ∅;
}.
(** The manifest is the one whose document, without its only signature, has the digest that
    the signature element states, and that element is signed by the key at the end of a
    path to [roots]. *)
Record signed_rim (xml : bytes) (roots : list Certificate) (now : N) (d : RimData) (certs : list Certificate) : Prop := {
  sr_document : exists doc root parts sig sp covered info leaf key s payload,
    parse_document xml = Ok doc /\ document_element doc = Some root /\
    exact_children doc root [(SWID, lit "Entity"); (SWID, lit "Meta"); (SWID, lit "Payload"); (DS, lit "Signature")] = Ok parts /\
    parts !! 2%nat = Some payload /\ parts !! 3%nat = Some sig /\
    (exists only, List.filter (fun id => matches doc id DS (lit "Signature")) (descendants doc root) = [only]) /\
    read_signature doc sig = Ok sp /\ canonical_without doc sig = Some covered /\ sha384 covered = sp_digest sp /\
    certs !! 0%nat = Some leaf /\ p384_from_der (spki_der leaf) = Some key /\
    (v ← base64_element doc (sp_value sp) 96; orelse (signature_from_slice v) "RIM XMLDSig signature must be fixed-width") = Ok s /\
    canonical_tree doc (sp_signed_info sp) = Some info /\ p384_verify key info s = true /\
    data_of doc payload d;
  sr_path : gpu_path roots now Rim certs;
  sr_source : source_sha384 d = sha384 xml;
}.

(** ** Nodes *)
Lemma blen_one {A} (l : list A) : blen l = 1 -> exists x, l = [x].
Proof. destruct l as [|x [|y l]]; rewrite ?blen_cons; [done|by exists x|lia]. Qed.
Lemma attribute_safe e ns n : safe (attribute e ns n) (fun _ => True).
Proof. unfold attribute. pki. by apply safe_ok_or. Qed.
Lemma element_safe doc id : safe (element doc id) (fun e => doc_element doc id = Some e).
Proof. unfold element. pki. apply safe_ok_or. auto. Qed.
Lemma decimal_safe v l : safe (decimal v l) (fun _ => True).
Proof. unfold decimal. pki. by wp. Qed.
Lemma u32_of_safe n : safe (u32_of n) (fun m => m = n /\ n <= u32_max).
Proof. unfold u32_of. pki. apply safe_bind, safe_ensure. intros Hn%N.leb_le. cbn. auto. Qed.
Lemma strict_bool_safe v : safe (strict_bool v) (fun _ => True).
Proof. unfold strict_bool. repeat case_match; done. Qed.
Lemma allowed_attributes_safe e l : safe (allowed_attributes e l) (fun _ => True).
Proof. unfold allowed_attributes. apply safe_for_each; [done|]. intros [] a _ _. pki. by apply safe_ensure. Qed.
Lemma exact_attributes_safe e l : safe (exact_attributes e l) (fun _ => True).
Proof.
  unfold exact_attributes. pki. apply safe_bind, safe_ensure. intros _. eapply safe_seq; [apply allowed_attributes_safe|]. intros [] _ _.
  apply safe_for_each; [done|]. intros [] n _ _. eapply safe_seq; [apply attribute_safe|done].
Qed.
Lemma element_children_safe doc id : safe (element_children doc id) (fun _ => True).
Proof.
  unfold element_children. apply safe_for_each; [done|]. intros acc c _ _. unfold element_child.
  destruct (node_kind doc c) as [[]|]; try done; pki; by wp.
Qed.
Lemma exact_children_safe doc id l : safe (exact_children doc id l) (fun cs => blen cs = blen l).
Proof.
  unfold exact_children. eapply safe_seq; [apply element_children_safe|]. intros cs _ _. pki. apply safe_bind, safe_ensure.
  intros Hl%N.eqb_eq. eapply (safe_seq _ _ (fun _ => True)); [|done]. apply safe_for_each; [done|]. intros [] x _ _. by apply safe_ensure.
Qed.
Lemma empty_element_safe doc id : safe (empty_element doc id) (fun _ => True).
Proof. unfold empty_element. eapply safe_seq; [apply element_children_safe|]. intros cs _ _. pki. by apply safe_ensure. Qed.
Lemma algorithm_safe doc id a : safe (algorithm doc id a) (fun _ => True).
Proof.
  unfold algorithm. eapply safe_seq; [apply element_safe|]. intros e _ _. eapply safe_seq; [apply exact_attributes_safe|]. intros [] _ _.
  eapply safe_seq; [apply empty_element_safe|]. intros [] _ _. eapply safe_seq; [apply attribute_safe|]. intros x _ _. pki. by apply safe_ensure.
Qed.
Lemma base64_element_safe doc id n : safe (base64_element doc id n) (fun _ => True).
Proof.
  unfold base64_element. eapply safe_seq; [apply element_safe|]. intros e _ _. eapply safe_seq; [apply exact_attributes_safe|]. intros [] _ _.
  eapply (safe_seq _ _ (fun _ => True)).
  { apply safe_for_each; [done|]. intros acc c _ _. unfold base64_child. destruct (node_kind doc c) as [[]|]; done. }
  intros t _ _. pki. by wp.
Qed.
Lemma rim_document_safe xml : safe (parse_document xml) (fun _ => True).
Proof.
  unfold parse_document. pki. apply safe_bind, safe_ensure. intros _. apply safe_bind, safe_ensure. intros _. apply safe_bind, safe_ok_or.
  intros doc _. eapply (safe_seq _ _ (fun _ => True)); [destruct (xml_declaration doc) as [[]|]; [by wp|done]|]. intros [] _ _.
  apply safe_bind, safe_ensure. intros _. eapply (safe_seq _ _ (fun _ => True)); [|done]. apply safe_for_each; [done|].
  intros ids id _ _. unfold check_node. pki. apply safe_bind, safe_ensure. intros _. destruct (doc_element doc id); [|done].
  apply safe_for_each; [done|]. intros s a _ _. unfold unique_id. destruct (eq_ignore_ascii_case _ _); [|done]. pki. by wp.
Qed.

(** ** The payload *)
Lemma hash_value_safe r alt : safe (hash_value r alt) (fun v => blen v = 48).
Proof.
  unfold hash_value. eapply safe_seq; [apply attribute_safe|]. intros h _ _. pki. apply safe_bind, safe_ensure. intros Hl%N.eqb_eq.
  apply safe_ok_or. intros v Hv. apply hex_decode_Some in Hv as [Hv _]. unfold blen in *. lia.
Qed.
Lemma hash_values_safe r n : safe (for_each (fun acc alt => v ← hash_value r alt; Ok (acc ++ [v])) [] (N.of_nat <$> seq 0 n))
  (fun vs => length vs = n /\ Forall (fun v => blen v = 48) vs /\ forall k v, vs !! k = Some v -> hash_value r (N.of_nat k) = Ok v).
Proof.
  induction n as [|n IH]; [cbn; split; [done|]; split; [constructor|done]|].
  rewrite seq_S, fmap_app. cbn [fmap list_fmap plus]. rewrite for_each_snoc. eapply safe_seq; [apply IH|].
  intros vs _ (Hl & Hv & Hk). pose proof (hash_value_safe r (N.of_nat n)) as Hs. change (0 + n)%nat with n.
  destruct (hash_value r (N.of_nat n)) as [v|e| |] eqn:Eh; try done. ok_step. cbn [safe]. rewrite length_app. split; [cbn; lia|].
  split; [apply Forall_app; split; [done|by constructor]|]. intros k w [Hw|[Hge Hw]]%lookup_app_Some; [by apply Hk|].
  destruct (k - length vs)%nat as [|j] eqn:Ek; cbn in Hw; [|done]. injection Hw as <-. assert (k = n) as -> by lia. by rewrite Eh.
Qed.
Lemma measurement_resource_safe r i : safe (measurement_resource r i) (fun vs => i < 254 /\ reference_values r vs).
Proof.
  unfold measurement_resource. pki. apply safe_bind, safe_ensure. intros Hi%N.ltb_lt. eapply safe_seq; [apply attribute_safe|]. intros a _ _.
  eapply safe_seq; [apply decimal_safe|]. intros n _ _. apply safe_bind, safe_ensure. intros _. eapply safe_seq; [apply attribute_safe|].
  intros a' Ha' _. eapply safe_seq; [apply decimal_safe|]. intros alts Halts _. apply safe_bind, safe_ensure. intros Ha. bools.
  assert ((a ← attribute r None (lit "alternatives"); decimal a "alternatives") = Ok alts) as Hal by (rewrite Ha'; by ok_step).
  eapply safe_seq; [apply hash_values_safe|]. intros vs _ (Hl & Hv & Hk). eapply (safe_seq _ _ (fun _ => True)).
  { apply safe_for_each; [done|]. intros [] x _ _. by apply safe_ensure. }
  intros [] _ _. cbn [safe]. split; [done|]. unfold reference_values. rewrite Hal. assert (blen vs = alts) as Hb by (unfold blen; rewrite Hl; lia).
  split; [by rewrite Hb|]. by rewrite Hb.
Qed.
Lemma opaque_resource_safe r i name : OPAQUE_INDEX_BASE <= i -> safe (opaque_resource r i name) (fun c => constraint_wf c /\ type_id c = i - OPAQUE_INDEX_BASE).
Proof.
  intros Hi. unfold opaque_resource. pki. apply safe_bind, safe_ensure. intros Ht%N.leb_le. eapply safe_seq; [apply allowed_attributes_safe|]. intros [] _ _.
  eapply safe_seq; [apply attribute_safe|]. intros a _ _. eapply safe_seq; [apply decimal_safe|]. intros min _ _.
  eapply safe_seq; [apply attribute_safe|]. intros a' _ _. eapply safe_seq; [apply decimal_safe|]. intros n _ _.
  apply safe_bind, safe_ensure. intros _. eapply safe_seq; [apply attribute_safe|]. intros a'' _ _. eapply safe_seq; [apply decimal_safe|]. intros m _ _.
  eapply safe_seq; [apply u32_of_safe|]. intros sz _ [-> Hs]. apply safe_bind, safe_ensure. intros Hz%N.ltb_lt. apply safe_bind, safe_ensure. intros Hm%N.leb_le.
  eapply (safe_seq _ _ (fun _ => True)). { destruct (optional_attribute _ _ _); [apply strict_bool_safe|done]. }
  intros inc _ _. cbn [safe]. split; [|done]. by split_and!.
Qed.

Definition payload_inv (doc : Document) (pre : list NodeId) (st : Payload) : Prop :=
  payload_of doc pre (pl_measurements st) (pl_inactive st) (pl_opaque st) /\
  (forall i, i ∈ pl_seen st <-> exists id r a, id ∈ pre /\ resource doc id r i a) /\
  (forall c, c ∈ pl_opaque st -> type_id c + OPAQUE_INDEX_BASE ∈ pl_seen st).
Lemma payload_inv_nil doc : payload_inv doc [] no_payload.
Proof.
  split; [split|split].
  - intros i vs Hi. cbn in Hi. by rewrite lookup_empty in Hi.
  - cbn. set_solver.
  - intros id Hid. by apply not_elem_of_nil in Hid.
  - split; constructor.
  - intros j1 j2 id1 id2 r1 r2 i a1 a2 H1. by rewrite lookup_nil in H1.
  - cbn. intros c Hc. by apply not_elem_of_nil in Hc.
  - intros i. cbn. split; [set_solver|]. intros (id & r & a & Hid & _). by apply not_elem_of_nil in Hid.
  - cbn. intros c Hc. by apply not_elem_of_nil in Hc.
Qed.
Lemma resource_fun doc id r i a r' i' a' : resource doc id r i a -> resource doc id r' i' a' -> r' = r /\ i' = i /\ a' = a.
Proof. intros (E1 & _ & E2 & E3) (F1 & _ & F2 & F3). assert (r' = r) as -> by congruence. split; [done|]. split; congruence. Qed.
(** One more resource, with an index not seen before. *)
Section Step.
Context (doc : Document) (pre : list NodeId) (st : Payload) (id : NodeId) (r : Elem) (i : N).
Context (Hinv : payload_inv doc pre st) (Hnew : i ∉ pl_seen st).
Lemma measured_seen j vs : pl_measurements st !! j = Some vs -> j ∈ pl_seen st.
Proof. intros Hj. destruct Hinv as [[Hm _ _ _ _ _] [Hs _]]. apply Hm in Hj as (_ & x & e & Hx & Hr & _). apply Hs. by exists x, e, true. Qed.
Lemma inactive_seen j : j ∈ pl_inactive st -> j ∈ pl_seen st.
Proof. intros Hj. destruct Hinv as [[_ Ho _ _ _ _] [Hs _]]. apply Ho in Hj as (_ & _ & x & e & Hx & Hr). apply Hs. by exists x, e, false. Qed.
Lemma seen_step a : resource doc id r i a -> forall j, j ∈ ({[i]} ∪ pl_seen st : gset N) <->
  exists x e b, x ∈ pre ++ [id] /\ resource doc x e j b.
Proof.
  intros Hr j. destruct Hinv as [_ [Hs _]]. rewrite elem_of_union, elem_of_singleton, Hs. split.
  - intros [->|(x & e & b & Hx & Hb)]; [exists id, r, a; split; [set_solver|done]|exists x, e, b; split; [set_solver|done]].
  - intros (x & e & b & [Hx| ->%list_elem_of_singleton]%elem_of_app & Hb); [right; by exists x, e, b|left].
    by destruct (resource_fun _ _ _ _ _ _ _ _ Hr Hb) as (_ & -> & _).
Qed.
Lemma distinct_step a : resource doc id r i a -> distinct_indices doc (pre ++ [id]).
Proof.
  intros Hr. destruct Hinv as [[_ _ _ _ Hd _] [Hs _]].
  assert (forall j x e b, pre !! j = Some x -> resource doc x e i b -> False) as Hold.
  { intros j x e b Hj Hx. apply Hnew, Hs. exists x, e, b. split; [by eapply list_elem_of_lookup_2|done]. }
  intros j1 j2 id1 id2 r1 r2 k a1 a2 [H1|[Hg1 [Hj1 <-]%list_lookup_singleton_Some]]%lookup_app_Some
    [H2|[Hg2 [Hj2 <-]%list_lookup_singleton_Some]]%lookup_app_Some R1 R2.
  - by eapply (Hd j1 j2).
  - destruct (resource_fun _ _ _ _ _ _ _ _ Hr R2) as (_ & -> & _). exfalso. by eapply Hold.
  - destruct (resource_fun _ _ _ _ _ _ _ _ Hr R1) as (_ & -> & _). exfalso. by eapply Hold.
  - lia.
Qed.
Lemma constrained_step c : c ∈ pl_opaque st -> exists x e n, x ∈ pre ++ [id] /\ resource doc x e (OPAQUE_INDEX_BASE + type_id c) true /\
  attribute e None (lit "name") = Ok n /\ opaque_resource e (OPAQUE_INDEX_BASE + type_id c) n = Ok c.
Proof. intros Hc. destruct Hinv as [[_ _ _ _ _ Ho] _]. destruct (Ho _ Hc) as (x & e & n & Hx & Hr). exists x, e, n. split; [set_solver|done]. Qed.
Lemma step_measured vs : resource doc id r i true -> i < 254 -> reference_values r vs ->
  payload_inv doc (pre ++ [id]) {| pl_measurements := <[i := vs]> (pl_measurements st); pl_inactive := pl_inactive st;
    pl_opaque := pl_opaque st; pl_seen := {[i]} ∪ pl_seen st |}.
Proof.
  intros Hr Hi Hv. pose proof (seen_step _ Hr) as Hseen. pose proof (distinct_step _ Hr) as Hd. destruct Hinv as [[Hm Ho Hc Hk _ _] [Hs Hop]].
  split; [split|split]; cbn [pl_measurements pl_inactive pl_opaque pl_seen]; [| | |done|done|apply constrained_step|done|set_solver].
  - intros j ws. destruct (decide (j = i)) as [->|Hne]; [rewrite lookup_insert_eq|rewrite lookup_insert_ne by done].
    + intros [= <-]. split; [done|]. exists id, r. split; [set_solver|done].
    + intros (Hj & x & e & Hx & Hrest)%Hm. split; [done|]. exists x, e. split; [set_solver|done].
  - intros j Hj. pose proof (inactive_seen j Hj) as Hjs. destruct (Ho j Hj) as (Hlt & Hn & x & e & Hx & Hre). split; [done|].
    split; [rewrite lookup_insert_ne; [done|intros ->; done]|]. exists x, e. split; [set_solver|done].
  - intros x [Hx| ->%list_elem_of_singleton]%elem_of_app.
    + destruct (Hc x Hx) as (e & j & a & Hre & H1 & H2). exists e, j, a. split; [done|]. split; [|done]. intros Hj. specialize (H1 Hj).
      destruct a; [|done]. destruct (decide (i = j)) as [->|Hne]; [rewrite lookup_insert_eq|rewrite lookup_insert_ne]; by eauto.
    + exists r, i, true. split; [done|]. split; [rewrite lookup_insert_eq; by eauto|]. unfold OPAQUE_INDEX_BASE. lia.
Qed.
Lemma step_inactive : resource doc id r i false -> i < 254 ->
  payload_inv doc (pre ++ [id]) {| pl_measurements := pl_measurements st; pl_inactive := {[i]} ∪ pl_inactive st;
    pl_opaque := pl_opaque st; pl_seen := {[i]} ∪ pl_seen st |}.
Proof.
  intros Hr Hi. pose proof (seen_step _ Hr) as Hseen. pose proof (distinct_step _ Hr) as Hd. destruct Hinv as [[Hm Ho Hc Hk _ _] [Hs Hop]].
  split; [split|split]; cbn [pl_measurements pl_inactive pl_opaque pl_seen]; [| | |done|done|apply constrained_step|done|set_solver].
  - intros j ws (Hj & x & e & Hx & Hrest)%Hm. split; [done|]. exists x, e. split; [set_solver|done].
  - intros j [->%elem_of_singleton|Hj]%elem_of_union.
    + split; [done|]. split; [|exists id, r; split; [set_solver|done]]. destruct (pl_measurements st !! i) as [ws|] eqn:E; [|done].
      by apply measured_seen in E.
    + destruct (Ho j Hj) as (Hlt & Hn & x & e & Hx & Hre). split; [done|]. split; [done|]. exists x, e. split; [set_solver|done].
  - intros x [Hx| ->%list_elem_of_singleton]%elem_of_app.
    + destruct (Hc x Hx) as (e & j & a & Hre & H1 & H2). exists e, j, a. split; [done|]. split; [|done]. intros Hj. specialize (H1 Hj).
      destruct a; [done|set_solver].
    + exists r, i, false. split; [done|]. split; [set_solver|done].
Qed.
Lemma step_opaque c n (a : bool) : resource doc id r i a -> OPAQUE_INDEX_BASE <= i -> constraint_wf c -> type_id c = i - OPAQUE_INDEX_BASE ->
  attribute r None (lit "name") = Ok n -> opaque_resource r i n = Ok c ->
  payload_inv doc (pre ++ [id]) {| pl_measurements := pl_measurements st; pl_inactive := pl_inactive st;
    pl_opaque := if a then pl_opaque st ++ [c] else pl_opaque st; pl_seen := {[i]} ∪ pl_seen st |}.
Proof.
  intros Hr Hi Hw Ht Hname Hread. pose proof (seen_step _ Hr) as Hseen. pose proof (distinct_step _ Hr) as Hd.
  destruct Hinv as [[Hm Ho Hc [Hk1 Hk2] _ _] [Hs Hop]].
  split; [split|split]; cbn [pl_measurements pl_inactive pl_opaque pl_seen]; [| | | |done| |done|].
  - intros j ws (Hj & x & e & Hx & Hrest)%Hm. split; [done|]. exists x, e. split; [set_solver|done].
  - intros j Hj. destruct (Ho j Hj) as (Hlt & Hn & x & e & Hx & Hre). split; [done|]. split; [done|]. exists x, e. split; [set_solver|done].
  - intros x [Hx| ->%list_elem_of_singleton]%elem_of_app.
    + destruct (Hc x Hx) as (e & j & b & Hre & H1 & H2). exists e, j, b. split; [done|]. split; [done|]. intros Hj Hb.
      destruct (H2 Hj Hb) as (c' & Hc' & Ht'). exists c'. split; [destruct a; set_solver|done].
    + exists r, i, a. split; [done|]. split; [lia|]. intros _ ->. exists c. split; [set_solver|done].
  - destruct a; [|done]. split; [apply Forall_app; split; [done|by constructor]|]. rewrite fmap_app. apply NoDup_app. split; [done|].
    split; [|apply NoDup_singleton]. intros t (c' & -> & Hc')%list_elem_of_fmap [= Heq]%list_elem_of_singleton. apply Hnew.
    replace i with (type_id c' + OPAQUE_INDEX_BASE) by lia. by apply Hop.
  - intros c' Hc'. destruct a; [|by apply constrained_step]. apply elem_of_app in Hc' as [Hc'| ->%list_elem_of_singleton]; [by apply constrained_step|].
    replace (OPAQUE_INDEX_BASE + type_id c) with i by lia. exists id, r, n. split; [set_solver|done].
  - intros c'. destruct a; [|set_solver]. intros [Hc'| ->%list_elem_of_singleton]%elem_of_app; [set_solver|].
    replace (type_id c + OPAQUE_INDEX_BASE) with i by lia. set_solver.
Qed.
End Step.
Lemma payload_resource_safe doc pre st id : payload_inv doc pre st -> safe (payload_resource doc st id) (payload_inv doc (pre ++ [id])).
Proof.
  intros Hinv. unfold payload_resource. pki. apply safe_bind, safe_ensure. intros Hm. eapply safe_seq; [apply empty_element_safe|]. intros [] _ _.
  eapply safe_seq; [apply element_safe|]. intros r _ Hr. eapply safe_seq; [apply attribute_safe|]. intros ty _ _. apply safe_bind, safe_ensure. intros _.
  eapply safe_seq; [apply attribute_safe|]. intros a Ha _. eapply safe_seq; [apply decimal_safe|]. intros i Hi _.
  apply safe_bind, safe_ensure. intros Hnew%bool_decide_eq_true. eapply safe_seq; [apply attribute_safe|]. intros b Hb _.
  eapply safe_seq; [apply strict_bool_safe|]. intros active Hact _. eapply safe_seq; [apply attribute_safe|]. intros name Hname _.
  apply safe_bind, safe_ensure. intros _.
  assert (resource doc id r i active) as Hres by (split; [done|]; split; [done|]; rewrite Ha, Hb; cbn; done).
  destruct (N.leb_spec OPAQUE_INDEX_BASE i) as [Hbase|Hbase].
  - eapply safe_seq; [by apply opaque_resource_safe|]. intros c Hread [Hw Ht]. by apply (step_opaque doc pre st id r i Hinv Hnew c name).
  - eapply safe_seq; [apply measurement_resource_safe|]. intros vs _ [Hlt Hv]. destruct active; cbn [safe].
    + by apply (step_measured doc pre st id r i).
    + by apply (step_inactive doc pre st id r i).
Qed.

(** ** The data of a manifest *)
Lemma rim_kind_safe ed v : safe (rim_kind ed v) (fun k => match k with
  | GpuDriver => ed = lit "GPU" /\ driver_components (split_byte x2e v) = true
  | GpuVbios => ed = lit "GPU" /\ vbios_components (split_byte x2e v) = true
  | NvSwitchVbios => ed = lit "SWITCH" /\ vbios_components (split_byte x2e v) = true
  end).
Proof.
  unfold rim_kind. destruct (bytes_eqb ed (lit "GPU")) eqn:E1, (bytes_eqb ed (lit "SWITCH")) eqn:E2,
    (driver_components _) eqn:E3, (vbios_components _) eqn:E4; try done; cbn [safe];
    rewrite ?bytes_eqb_eq in *; done.
Qed.
Ltac next :=
  first [ eapply safe_seq; [apply attribute_safe|]; intros ? _ _ | eapply safe_seq; [apply decimal_safe|]; intros ? _ _
        | eapply safe_seq; [apply exact_attributes_safe|]; intros ? _ _ | eapply safe_seq; [apply empty_element_safe|]; intros ? _ _
        | eapply safe_seq; [apply element_safe|]; intros ? _ _ | eapply safe_seq; [apply algorithm_safe|]; intros ? _ _
        | eapply safe_seq; [apply base64_element_safe|]; intros ? _ _ ].
Lemma read_identity_safe e : safe (read_identity e) (fun _ => True).
Proof.
  unfold read_identity. next. eapply (safe_seq _ _ (fun _ => True)).
  { apply safe_for_each; [done|]. intros [] f _ _. next. pki. by apply safe_ensure. }
  intros [] _ _. next. pki. apply safe_bind, safe_ensure. intros _. next. next. next. by apply safe_bind, safe_ensure.
Qed.
Lemma read_entity_safe doc id : safe (read_entity doc id) (fun _ => True).
Proof. unfold read_entity. do 4 next. pki. apply safe_bind, safe_ensure. intros _. next. by apply safe_ensure. Qed.
Lemma read_meta_safe doc id e tag : safe (read_meta doc id e tag) (fun m => kind_ok m /\ 0 < blen (model m) /\ firmware_manufacturer_id m = 5703).
Proof.
  unfold read_meta. do 4 next. pki. apply safe_bind, safe_ensure. intros _. next. eapply (safe_seq _ _ (fun _ => True)).
  { destruct (bytes_eqb _ _); [|done]. next. by apply safe_ensure. }
  intros [] _ _. next. eapply (safe_seq _ _ (fun _ => True)). { destruct (bytes_eqb _ _); [|done]. next. by apply safe_ensure. }
  intros [] _ _. next. next. eapply safe_seq; [apply u32_of_safe|]. intros fw _ [-> _]. next. next.
  eapply safe_seq; [apply u32_of_safe|]. intros pf _ [-> _]. apply safe_bind, safe_ensure. intros Hpen. bools. next. next.
  match goal with |- safe ((if negb (blen ?m =? 0) && _ then _ else _) ≫= _) _ => apply (safe_seq _ _ (fun _ => 0 < blen m)) end.
  { destruct (negb _ && _) eqn:Em; [|done]. next. apply safe_ensure. intros _. bools. lia. }
  intros [] _ Hlen. next. next. eapply safe_seq; [apply rim_kind_safe|]. intros k _ Hk. cbn [safe]. split; [exact Hk|]. cbn. by split.
Qed.
Lemma extract_data_safe doc root parts xml : blen parts = 4 -> safe (extract_data doc root parts xml) (fun d =>
  source_sha384 d = sha384 xml /\ exists payload, parts !! 2%nat = Some payload /\ data_of doc payload d).
Proof.
  intros Hl. unfold extract_data. next. eapply safe_seq; [apply read_identity_safe|]. intros tag _ _.
  apply safe_bind, safe_index; [lia|]. intros p0 _. eapply safe_seq; [apply read_entity_safe|]. intros [] _ _.
  apply safe_bind, safe_index; [lia|]. intros p1 _. eapply safe_seq; [apply read_meta_safe|]. intros m _ Hm.
  apply safe_bind, safe_index; [lia|]. intros p2 [_ Hp2]%get_Some. do 2 next. eapply safe_seq; [apply element_children_safe|]. intros ids Hids _.
  eapply safe_seq; [apply (safe_prefix _ (payload_inv doc)); [apply payload_inv_nil|]; intros; by apply payload_resource_safe|].
  intros st _ (Hpay & _). pki. apply safe_bind, safe_ensure. intros Hne%bool_decide_eq_true. cbn [safe]. split; [done|].
  exists p2. split; [done|]. split; [done| |done]. by exists ids.
Qed.

(** ** The signature *)
Lemma extract_certificate_chain_safe doc id : safe (extract_certificate_chain doc id) (fun _ => True).
Proof.
  unfold extract_certificate_chain. do 2 next. eapply safe_seq; [apply exact_children_safe|]. intros xs _ Hx. apply safe_bind, safe_index.
  { rewrite Hx. by vm_compute. }
  intros x _. do 2 next. eapply safe_seq; [apply element_children_safe|]. intros ns _ _. pki. apply safe_bind, safe_ensure. intros _.
  apply safe_for_each; [done|]. intros acc n _ _. unfold key_certificate. pki. apply safe_bind, safe_ensure. intros _. next.
  by apply safe_bind, safe_ensure.
Qed.
Ltac child := cbv beta in *; apply safe_bind, safe_index; [match goal with Hx : blen ?x = _ |- _ < blen ?x => by rewrite Hx end|]; intros ? _.
Lemma read_signature_safe doc id : safe (read_signature doc id) (fun sp => blen (sp_digest sp) = 48).
Proof.
  unfold read_signature. eapply safe_seq; [apply exact_children_safe|]. intros sig_parts _ Hsp. do 2 next. child. do 2 next.
  eapply safe_seq; [apply exact_children_safe|]. intros si _ Hsi. child. next. child. next. child. do 3 next. pki. apply safe_bind, safe_ensure. intros _.
  eapply safe_seq; [apply exact_children_safe|]. intros rf _ Hrf. child. do 2 next. eapply safe_seq; [apply exact_children_safe|]. intros ts _ Hts.
  child. next. child. next. child. next. child. next. apply safe_bind, safe_ensure. intros Hd%N.eqb_eq. child. child. cbn [safe]. done.
Qed.

Context {HL : Sha2Laws H}.
Lemma verify_xml_signature_and_chain_safe xml roots now : safe (verify_xml_signature_and_chain xml roots now) (fun r =>
  signed_rim xml roots now (sv_data r) (certificates (sv_chain r))).
Proof.
  unfold verify_xml_signature_and_chain. eapply safe_seq; [apply rim_document_safe|]. intros doc Hdoc _. pki. apply safe_bind, safe_ok_or.
  intros root Hroot. apply safe_bind, safe_ensure. intros _. eapply safe_seq; [apply exact_children_safe|]. intros parts Hparts Hl.
  change (blen parts = 4) in Hl.
  apply safe_bind, safe_index; [lia|]. intros sig [_ Hsig]%get_Some. apply safe_bind, safe_ensure. intros [only Hone]%N.eqb_eq%blen_one.
  eapply safe_seq; [apply read_signature_safe|]. intros sp Hsp _. apply safe_bind, safe_ok_or. intros covered Hc.
  apply safe_bind, safe_ensure. intros Hdig%bytes_eqb_eq. eapply safe_seq; [apply extract_certificate_chain_safe|]. intros cb _ _.
  eapply safe_seq; [apply validate_gpu_chain_safe|]. intros chain _ Hpath. apply safe_bind, safe_index.
  { pose proof (gp_size _ _ _ _ Hpath). lia. }
  intros leaf [_ Hleaf]%get_Some. apply safe_bind, safe_ok_or. intros key Hkey. pose proof (base64_element_safe doc (sp_value sp) 96) as Hb.
  destruct (base64_element doc (sp_value sp) 96) as [v|e| |] eqn:Ev; try done. ok_step. apply safe_bind, safe_ok_or. intros s Hs.
  apply safe_bind, safe_ok_or. intros info Hinfo. apply safe_bind, safe_ensure. intros Hver.
  eapply safe_seq; [by apply extract_data_safe|]. intros d _ (Hsrc & payload & Hpay & Hd). cbn [safe sv_data sv_chain]. split; [|done|done].
  exists doc, root, parts, sig, sp, covered, info, leaf, key, s, payload. split_and!; try done; [by exists only|]. rewrite Ev. ok_step. pki. by rewrite Hs.
Qed.
Lemma verify_xml_safe xml roots e now : safe (verify_xml xml roots e now) (fun r => exists certs,
  signed_rim xml roots now (rim_data r) certs /\ chain_good certs e now).
Proof.
  unfold verify_xml. eapply safe_seq; [apply verify_xml_signature_and_chain_safe|]. intros r _ Hr.
  eapply safe_seq; [apply check_chain_safe|]. intros [] _ Hc. cbn [safe rim_data]. by exists (certificates (sv_chain r)).
Qed.
End RimSpec.

Section RimTheorem.
Context `{X : X509} `{K : CpuCrypto} `{H : Sha2} `{GX : GpuX509} `{OF : OcspFormats} `{P : Spdm.P384} `{PK : !P384Keys P} `{XM : Xml}.
Context {HL : Sha2Laws H}.
(** C17: manifest verification never panics, and an accepted manifest is authentic and read
    faithfully: below its root there is one Signature element and no other; its signature
    states the digest of the rest of the document and is signed by the P-384 key at the end
    of a path to the manifest roots whose status is good now; no two resources of the payload
    state one index; its measurements are exactly the active measurement resources, each
    with an index below 254 and one to 256 values of 48 bytes, as many as it states, apart
    from the inactive ones; its constraints are exactly those of the active resources above
    the opaque base, each as its resource states it; and its kind agrees with its edition
    and the form of its version. *)
Theorem rim_sound xml roots e now :
  safe (verify_xml xml roots e now) (fun r => exists certs,
    signed_rim xml roots now (rim_data r) certs /\ chain_good certs e now).
Proof. apply verify_xml_safe. Qed.
End RimTheorem.

(** ** Concrete manifests of a driver and a VBIOS

    One tree shape serves both documents; a document is its own first byte. *)
Definition none_attrs (l : list (string * bytes)) : list (QName * bytes) :=
  (fun p => ({| namespace_uri := None; local_name := lit p.1 |}, p.2)) <$> l.
Definition ns_attrs (ns : bytes) (l : list (string * bytes)) : list (QName * bytes) :=
  (fun p => ({| namespace_uri := Some ns; local_name := lit p.1 |}, p.2)) <$> l.
Definition node (ns : bytes) (name : string) (attrs : list (QName * bytes)) : option NodeKind :=
  Some (NElement {| elem_name := {| namespace_uri := Some ns; local_name := lit name |}; attributes := attrs |}).
Definition algorithm_node (name : string) (a : bytes) : option NodeKind := node DS name (none_attrs [("Algorithm", a)]).
Definition rim_version (doc : bytes) : bytes := if bytes_eqb doc [x44] then lit "550.54" else lit "01.02.03.04.05".
Definition sample_pad (n : nat) (b : bytes) : bytes := b ++ replicate (n - length b) x00.
Definition toy_node (doc : bytes) (id : N) : option NodeKind :=
  match id with
  | 1 => node SWID "SoftwareIdentity" (none_attrs [("corpus", lit "false"); ("name", lit "GH100"); ("patch", lit "false");
           ("supplemental", lit "false"); ("tagId", lit "tag"); ("version", lit "1.0"); ("tagVersion", lit "1")])
  | 2 => node SWID "Entity" (none_attrs [("name", lit "NVIDIA Corporation"); ("role", lit "tagCreator softwareCreator")])
  | 3 => node SWID "Meta" (none_attrs [("colloquialVersion", rim_version doc); ("edition", lit "GPU"); ("product", lit "GH100");
           ("revision", lit "1"); ("PayloadType", lit "direct")] ++
         ns_attrs RIM [("BindingSpec", lit "RIMIM"); ("BindingSpecVersion", lit "1.01"); ("PlatformManufacturerId", lit "5703");
           ("PlatformManufacturerStr", lit "NVIDIA Corporation"); ("PlatformModel", lit "GH100");
           ("FirmwareManufacturer", lit "NVIDIA Corporation"); ("FirmwareManufacturerId", lit "5703")])
  | 4 => node SWID "Payload" []
  | 5 => node DS "Signature" []
  | 6 => node DS "SignedInfo" []
  | 7 => node DS "SignatureValue" []
  | 8 => node DS "KeyInfo" []
  | 9 => algorithm_node "CanonicalizationMethod" C14N11
  | 10 => algorithm_node "SignatureMethod" ECDSA384
  | 11 => node DS "Reference" (none_attrs [("URI", [])])
  | 12 => node DS "Transforms" []
  | 13 => algorithm_node "DigestMethod" DIGEST384
  | 14 => node DS "DigestValue" []
  | 15 => algorithm_node "Transform" ENVELOPED
  | 16 => algorithm_node "Transform" C14N11
  | 17 => node DS "X509Data" []
  | 18 => node DS "X509Certificate" []
  | 19 => node SWID "Resource" (none_attrs [("type", lit "Measurement"); ("index", if bytes_eqb doc [x44] then lit "0" else lit "1");
            ("active", lit "True"); ("name", lit "m"); ("size", lit "48"); ("alternatives", lit "1")] ++
          ns_attrs HASH [("Hash0", hex_encode (replicate 48 x31))])
  | 20 => Some NComment
  | 21 => Some (NText (sha384 (Sha2 := toy_sha2) (doc ++ [x2d])))
  | 22 => Some (NText (sample_pad 96 (take 8 (sha384 (Sha2 := toy_sha2) (doc ++ [x2b])))))
  | 23 => Some (NText [x22])
  | _ => None
  end.
Definition toy_children (id : N) : list N :=
  match id with
  | 0 => [1] | 1 => [2; 20; 3; 4; 5] | 4 => [19] | 5 => [6; 7; 8] | 6 => [9; 10; 11] | 7 => [22] | 8 => [17] | 11 => [12; 13; 14]
  | 12 => [15; 16] | 14 => [21] | 17 => [18] | 18 => [23] | _ => []
  end.
Definition toy_xml : Xml := {|
  Document := bytes; NodeId := N; xml_parse := fun b => if bytes_eqb b [x44] || bytes_eqb b [x56] then Some b else None;
  xml_declaration := fun _ => Some (lit "1.0", Some (lit "UTF-8")); doc_root := fun _ => 0; document_element := fun _ => Some 1;
  descendants := fun _ _ => N.of_nat <$> seq 1 23; children_iter := fun _ => toy_children; node_kind := toy_node;
  name_matches := fun n ns l => bool_decide (namespace_uri n = ns) && bytes_eqb (local_name n) l;
  canonical_without := fun doc _ => Some (doc ++ [x2d]); canonical_tree := fun doc _ => Some (doc ++ [x2b]) |}.
Definition toy_p384 : Spdm.P384 := {|
  P384Key := bytes; P384Signature := bytes; signature_from_slice := Some;
  p384_verify := fun _ m s => bytes_eqb (take 8 s) (take 8 (sha384 (Sha2 := toy_sha2) m)) |}.
Definition toy_p384_keys : P384Keys toy_p384 := {| p384_from_der := (Some : bytes -> option (P384Key (P384 := toy_p384))) |}.
Definition sample_rim (e : RevocationEvidence) : res PkiError VerifiedRim :=
  verify_xml (X := plain_base64 toy_x509) (K := toy_cpu) (H := toy_sha2) (GX := toy_gpu_x509) (OF := toy_ocsp) (PK := toy_p384_keys)
    (XM := toy_xml) [x44] [sample_root] e 15.
Example rim_accepted : (r ← sample_rim list_evidence; Ok (version (metadata (rim_data r)), map_to_list (rim_measurements (rim_data r))))
  = Ok (lit "550.54", [(0, [replicate 48 x31])]).
Proof. vm_compute. reflexivity. Qed.
Example rim_without_status : sample_rim no_evidence = Err (PkiMsg "missing authenticated revocation status for certificate").
Proof. vm_compute. reflexivity. Qed.
Lemma rim_sound_witness : exists r certs, sample_rim list_evidence = Ok r /\
  signed_rim (X := plain_base64 toy_x509) (K := toy_cpu) (H := toy_sha2) (GX := toy_gpu_x509) (PK := toy_p384_keys) (XM := toy_xml)
    [x44] [sample_root] 15 (rim_data r) certs.
Proof.
  pose proof (rim_sound (X := plain_base64 toy_x509) (K := toy_cpu) (H := toy_sha2) (GX := toy_gpu_x509) (OF := toy_ocsp)
    (PK := toy_p384_keys) (XM := toy_xml) (HL := toy_sha2_laws) [x44] [sample_root] list_evidence 15) as Hs.
  change (safe (sample_rim list_evidence) (fun r => exists certs,
    signed_rim (X := plain_base64 toy_x509) (K := toy_cpu) (H := toy_sha2) (GX := toy_gpu_x509) (PK := toy_p384_keys) (XM := toy_xml)
      [x44] [sample_root] 15 (rim_data r) certs /\
    chain_good (X := plain_base64 toy_x509) (K := toy_cpu) (H := toy_sha2) (GX := toy_gpu_x509) (OF := toy_ocsp) certs list_evidence 15)) in Hs.
  assert (is_ok (sample_rim list_evidence) = true) as Hok by (vm_compute; reflexivity).
  destruct (sample_rim list_evidence) as [r|e| |]; [|discriminate Hok..]. destruct Hs as (certs & Hr & _).
  exists r, certs. split; [reflexivity|exact Hr].
Defined.
