(* ===== verification/CorimCbor.v ===== *)
(** * CorimCbor: the preflight of CBOR documents
    ([src/v2/src/gpu/corim.rs], [decode] and [scan])

    Before a CoRIM document is given to the CBOR crate, [scan] walks over it: it admits
    definite lengths only, no floats, at most 24 levels of nesting, 32768 nodes, 4096
    elements of an array and 128 entries of a map, so that the decoder never allocates
    for a length that the document does not have.

    [cbor] is the grammar of such documents.  [corim_decode_exact]: a document is decoded
    exactly when it is a sentence of the grammar with at most that many nodes and the
    CBOR crate reads all of it. *)
From S2P Require Import Prelude Bytes Text Crypto Pki NitroQuote.

(** ** Definitions *)
Definition CORIM_MAX_BYTES : N := 4 * 1024 * 1024.
Definition MAX_NODES : N := 32768.
Record Scan : Type := { scan_offset : N; scan_budget : N }.
Definition advance (s : Scan) (n : N) : Scan := {| scan_offset := scan_offset s + n; scan_budget := scan_budget s |}.
(** [iter().fold(0u64, |n, b| (n << 8) | u64::from( *b))] *)
Definition fold_be (b : bytes) : N := foldl (fun n x => N.lor (N.land (N.shiftl n 8) u64_max) (byte_N x)) 0 b.
Definition scan_argument (b : bytes) (s : Scan) (ai : N) : res PkiError (N * Scan) :=
  if ai <=? 23 then Ok (ai, s)
  else if ai <=? 27 then
    let count := N.shiftl 1 (ai - 24) in
    end_ ← orelse (checked_add usize_max (scan_offset s) count) "CBOR length overflow";
    a ← orelse (get_range b (scan_offset s) end_) "truncated CBOR argument";
    Ok (fold_be a, {| scan_offset := end_; scan_budget := scan_budget s |})
  else Err (PkiMsg "indefinite/reserved CBOR encoding is not supported").
Fixpoint scan_items (n : nat) (f : Scan -> res PkiError Scan) (s : Scan) : res PkiError Scan :=
  match n with O => Ok s | S n => s ← f s; scan_items n f s end.
Definition scan_head (b : bytes) (depth : N) (s : Scan) : res PkiError (N * N * Scan) :=
  need ((depth <=? 24) && (0 <? scan_budget s)) "CoRIM CBOR nesting/node limit exceeded";;
  head ← orelse (get b (scan_offset s)) "truncated CBOR";
  Ok (N.shiftr (byte_N head) 5, N.land (byte_N head) 31, {| scan_offset := scan_offset s + 1; scan_budget := scan_budget s - 1 |}).
Definition container_count (major length : N) : res PkiError N :=
  if major =? 5 then need (length <=? 128) "CBOR map too large";; Ok (length * 2)
  else need (length <=? 4096) "CBOR array too large";; Ok length.
(** The content after a head; [f] scans the items inside. *)
Definition scan_content (f : Scan -> res PkiError Scan) (b : bytes) (major length : N) (s : Scan) : res PkiError Scan :=
  if major <=? 1 then Ok s
  else if major <=? 3 then
    end_ ← orelse (checked_add usize_max (scan_offset s) length) "CBOR length overflow";
    need (end_ <=? blen b) "truncated CBOR string";;
    Ok {| scan_offset := end_; scan_budget := scan_budget s |}
  else if major <=? 5 then
    count ← container_count major length;
    need (count <=? scan_budget s) "CBOR container exceeds node budget";;
    scan_items (N.to_nat count) f s
  else f s.
Fixpoint scan (fuel : nat) (b : bytes) (depth : N) (s : Scan) : res PkiError Scan :=
  match fuel with
  | O => NoFuel
  | S fuel =>
    '(major, ai, s) ← scan_head b depth s;
    if major =? 7 then need ((ai =? 20) || (ai =? 21) || (ai =? 22)) "unsupported CBOR simple/float value";; Ok s
    else
      '(length, s) ← scan_argument b s ai;
      scan_content (scan fuel b (depth + 1)) b major length s
  end.
(** Levels 0 to 24, and the one that is refused. *)
Definition SCAN_FUEL : nat := 26.

(** The crates: CBOR, and the dotted form of an encoded object identifier. *)
Class CorimFormats := {
  (** [ciborium::de::from_reader_with_recursion_limit]: the value and the bytes that are left *)
  cbor_from_reader : N -> bytes -> option (Value * bytes);
  cbor_into_writer : Value -> option bytes;
  oid_from_bytes : bytes -> option bytes;
}.
Definition scan_start : Scan := {| scan_offset := 0; scan_budget := MAX_NODES |}.
Definition decode `{CorimFormats} (b : bytes) : res PkiError Value :=
  need (negb (blen b =? 0) && (blen b <=? CORIM_MAX_BYTES)) "CoRIM CBOR size outside bound";;
  s ← scan SCAN_FUEL b 0 scan_start;
  need (scan_offset s =? blen b) "trailing CBOR data";;
  '(value, rest) ← orelse (cbor_from_reader 32 b) "malformed CoRIM CBOR";
  need (bool_decide (rest = [])) "trailing CoRIM CBOR";;
  Ok value.

(** ** The grammar *)
Definition head_byte (major n : N) : byte := byte_of (32 * major + n).
Inductive cbor_head (major : N) : bytes -> N -> Prop :=
| head_short n : n <= 23 -> cbor_head major [head_byte major n] n
| head_long k bs : k <= 3 -> blen bs = 2 ^ k -> cbor_head major (head_byte major (24 + k) :: bs) (be_to_N bs).
(** [cbor depth b k]: [b] is an item at this depth, of [k] nodes; [cbors depth n b k]: [n] items. *)
Inductive cbor : N -> bytes -> N -> Prop :=
| cbor_int depth m h n : depth <= 24 -> m <= 1 -> cbor_head m h n -> cbor depth h 1
| cbor_string depth m h s : depth <= 24 -> m = 2 \/ m = 3 -> cbor_head m h (blen s) -> cbor depth (h ++ s) 1
| cbor_simple depth v : depth <= 24 -> v = 20 \/ v = 21 \/ v = 22 -> cbor depth [head_byte 7 v] 1
| cbor_array depth h n b k : depth <= 24 -> cbor_head 4 h n -> n <= 4096 -> cbors (depth + 1) (N.to_nat n) b k -> cbor depth (h ++ b) (1 + k)
| cbor_map depth h n b k : depth <= 24 -> cbor_head 5 h n -> n <= 128 -> cbors (depth + 1) (N.to_nat (n * 2)) b k -> cbor depth (h ++ b) (1 + k)
| cbor_tag depth h n b k : depth <= 24 -> cbor_head 6 h n -> cbor (depth + 1) b k -> cbor depth (h ++ b) (1 + k)
with cbors : N -> nat -> bytes -> N -> Prop :=
| cbors_nil depth : cbors depth 0 [] 0
| cbors_cons depth n b b' k k' : cbor depth b k -> cbors depth n b' k' -> cbors depth (S n) (b ++ b') (k + k').
Scheme cbor_mut := Induction for cbor Sort Prop
with cbors_mut := Induction for cbors Sort Prop.

(** * Lemmas *)
Lemma fold_be_spec b : blen b <= 8 -> fold_be b = be_to_N b.
Proof.
  unfold fold_be. induction b as [|x b IH] using rev_ind; [done|]. rewrite blen_app. change (blen [x]) with 1. intros Hl.
  rewrite foldl_app. cbn [foldl]. rewrite IH by lia. rewrite be_to_N_snoc. pose proof (be_to_N_bound b) as Hb.
  assert (be_to_N b < 2 ^ 56) as Hlt by (eapply N.lt_le_trans; [exact Hb|]; change (2 ^ 56) with (256 ^ 7); apply N.pow_le_mono_r; lia).
  rewrite <- lor_shift_8 by apply byte_N_lt. f_equal. change u64_max with (N.ones 64). rewrite N.land_ones. apply N.mod_small.
  rewrite N.shiftl_mul_pow2. change (2 ^ 64) with (2 ^ 56 * 2 ^ 8). apply N.mul_lt_mono_pos_r; [done|exact Hlt].
Qed.
Lemma head_byte_split (x : byte) : x = head_byte (N.shiftr (byte_N x) 5) (N.land (byte_N x) 31).
Proof.
  unfold head_byte. rewrite <- (byte_of_N x) at 1. f_equal. rewrite N.shiftr_div_pow2. change 31 with (N.ones 5). rewrite N.land_ones.
  apply N.div_mod. done.
Qed.
Lemma head_byte_parts m n : m <= 7 -> n < 32 ->
  N.shiftr (byte_N (head_byte m n)) 5 = m /\ N.land (byte_N (head_byte m n)) 31 = n.
Proof.
  intros Hm Hn. unfold head_byte. rewrite byte_N_of, N.mod_small by lia. rewrite N.shiftr_div_pow2. change 31 with (N.ones 5). rewrite N.land_ones.
  change (2 ^ 5) with 32. split; [symmetry; apply (N.div_unique _ _ _ n); lia|symmetry; apply (N.mod_unique _ _ m); lia].
Qed.

(** From [s], the bytes [item] with [k] nodes were read. *)
Definition scanned (b : bytes) (s s' : Scan) (item : bytes) (k : N) : Prop :=
  (exists rest, drop (N.to_nat (scan_offset s)) b = item ++ rest) /\ k <= scan_budget s /\
  s' = {| scan_offset := scan_offset s + blen item; scan_budget := scan_budget s - k |}.
Lemma scanned_offset b s s' item k : scan_offset s <= blen b -> scanned b s s' item k -> scan_offset s' <= blen b.
Proof.
  intros Ho ((rest & Hd) & _ & ->). cbn [scan_offset]. assert (length (drop (N.to_nat (scan_offset s)) b) = length (item ++ rest)) as Hl by by rewrite Hd.
  rewrite length_drop, length_app in Hl. unfold blen in *. lia.
Qed.
Lemma scanned_nil b s : scanned b s s [] 0.
Proof. split; [by exists (drop (N.to_nat (scan_offset s)) b)|]. split; [lia|]. change (blen []) with 0. rewrite N.add_0_r, N.sub_0_r. by destruct s. Qed.
Lemma scanned_trans b s s1 s2 i1 i2 k1 k2 : scanned b s s1 i1 k1 -> scanned b s1 s2 i2 k2 -> scanned b s s2 (i1 ++ i2) (k1 + k2).
Proof.
  intros ((r1 & H1) & Hk1 & ->) ((r2 & H2) & Hk2 & ->). cbn [scan_offset scan_budget] in *. split; [|split].
  - exists r2. rewrite N2Nat.inj_add in H2. rewrite <- drop_drop, H1 in H2. unfold blen in H2. rewrite Nat2N.id, drop_app_length in H2.
    rewrite H1, H2. by rewrite app_assoc.
  - lia.
  - f_equal; [rewrite blen_app; lia|lia].
Qed.
(** Bytes that are passed over without a node of their own. *)
Lemma scanned_advance b s n part : get_range b (scan_offset s) (scan_offset s + n) = Some part -> scanned b s (advance s n) part 0.
Proof.
  intros Hg. pose proof (get_range_blen _ _ _ _ Hg) as Hl. apply get_range_Some in Hg as (Hle & ->).
  assert (scan_offset s + n - scan_offset s = n) as Hn by lia. rewrite Hn in *. split; [|split; [lia|]].
  - exists (drop (N.to_nat n) (drop (N.to_nat (scan_offset s)) b)). by rewrite take_drop.
  - unfold advance. f_equal; lia.
Qed.
Lemma scan_argument_safe b s major ai : major <= 7 -> ai < 32 -> blen b <= usize_max -> scan_offset s <= blen b ->
  safe (scan_argument b s ai) (fun p => exists arg, cbor_head major (head_byte major ai :: arg) p.1 /\ scanned b s p.2 arg 0).
Proof.
  intros Hm Hai Hmax Ho. unfold scan_argument. pki. destruct (N.leb_spec ai 23) as [Hs|Hs].
  - cbn [safe fst snd]. exists []. split; [by apply head_short|apply scanned_nil].
  - destruct (N.leb_spec ai 27) as [Hk|Hk]; [|done]. rewrite N.shiftl_mul_pow2, N.mul_1_l.
    assert (2 ^ (ai - 24) <= 8) as Hp by (change 8 with (2 ^ 3); apply N.pow_le_mono_r; lia).
    apply safe_bind, safe_ok_or. intros end_ He. unfold checked_add in He. destruct (_ <=? usize_max); [|done]. injection He as <-.
    apply safe_bind, safe_ok_or. intros a Ha. cbn [safe fst snd]. pose proof (get_range_blen _ _ _ _ Ha) as Hl. exists a.
    replace (scan_offset s + 2 ^ (ai - 24) - scan_offset s) with (2 ^ (ai - 24)) in Hl by lia. split.
    + rewrite fold_be_spec by lia. replace ai with (24 + (ai - 24)) at 1 by lia. apply head_long; [lia|done].
    + apply scanned_advance in Ha. done.
Qed.
Lemma scan_head_safe b depth s : scan_offset s <= blen b ->
  safe (scan_head b depth s) (fun p => let '(major, ai, s') := p in depth <= 24 /\ major <= 7 /\ ai < 32 /\ scanned b s s' [head_byte major ai] 1).
Proof.
  intros Ho. unfold scan_head. pki. apply safe_bind, safe_ensure. intros [Hd%N.leb_le Hb%N.ltb_lt]%andb_true_iff.
  apply safe_bind, safe_ok_or. intros x Hx. cbn [safe]. pose proof (byte_N_lt x) as Hlt.
  split; [done|]. split; [rewrite N.shiftr_div_pow2; change (2 ^ 5) with 32; pose proof (N.div_lt_upper_bound (byte_N x) 32 8); lia|].
  split; [change 31 with (N.ones 5); rewrite N.land_ones; by apply N.mod_lt|]. rewrite <- head_byte_split.
  unfold get in Hx. destruct (_ <? _) in Hx; [|done]. split; [|split; [lia|done]].
  exists (drop (S (N.to_nat (scan_offset s))) b). by apply drop_S.
Qed.

Lemma scan_items_safe b f depth n :
  (forall s, scan_offset s <= blen b -> safe (f s) (fun s' => exists item k, cbor depth item k /\ scanned b s s' item k)) ->
  forall s, scan_offset s <= blen b -> safe (scan_items n f s) (fun s' => exists items k, cbors depth n items k /\ scanned b s s' items k).
Proof.
  intros Hf. induction n as [|n IH]; intros s Ho; cbn [scan_items].
  - cbn [safe]. exists [], 0. split; [constructor|apply scanned_nil].
  - eapply safe_seq; [by apply Hf|]. intros s1 _ (item & k & Hi & Hs1). eapply safe_mono; [by eapply IH, scanned_offset|].
    intros s2 _ (items & k' & His & Hs2). exists (item ++ items), (k + k'). split; [by constructor|by eapply scanned_trans].
Qed.
Lemma scan_safe b : blen b <= usize_max -> forall fuel depth s, depth <= 25 -> 25 < depth + N.of_nat fuel -> scan_offset s <= blen b ->
  safe (scan fuel b depth s) (fun s' => exists item k, cbor depth item k /\ scanned b s s' item k).
Proof.
  intros Hmax. induction fuel as [|fuel IH]; intros depth s Hd Hf Ho; [lia|]. cbn [scan]. pki.
  eapply safe_seq; [by apply scan_head_safe|]. intros [[major ai] s1] _ (Hd24 & Hm & Hai & Hs1).
  destruct (N.eqb_spec major 7) as [->|H7].
  { apply safe_bind, safe_ensure. intros Hv. cbn [safe]. exists [head_byte 7 ai], 1. split; [|done]. apply cbor_simple; [done|]. bools. lia. }
  eapply safe_seq; [apply (scan_argument_safe b s1 major ai); try done; [by eapply scanned_offset]|]. intros [len s2] _ (arg & Hh & Hs2).
  pose proof (scanned_trans _ _ _ _ _ _ _ _ Hs1 Hs2) as Hhead. cbn [app fst snd] in *. rewrite N.add_0_r in Hhead.
  pose proof (scanned_offset _ _ _ _ _ Ho Hhead) as Ho2.
  unfold scan_content. destruct (N.leb_spec major 1) as [H1|H1]; [cbn [safe]; exists (head_byte major ai :: arg), 1; split; [by eapply cbor_int|done]|].
  destruct (N.leb_spec major 3) as [H3|H3].
  { apply safe_bind, safe_ok_or. intros end_ He. unfold checked_add in He. destruct (_ <=? usize_max); [|done]. injection He as <-.
    apply safe_bind, safe_ensure. intros He%N.leb_le. cbn [safe].
    destruct (get_range b (scan_offset s2) (scan_offset s2 + len)) as [str|] eqn:Hg; [|apply get_range_None in Hg; lia].
    pose proof (get_range_blen _ _ _ _ Hg) as Hlen. apply scanned_advance in Hg. exists ((head_byte major ai :: arg) ++ str), 1. split.
    - eapply cbor_string; [done| |]; [|replace (blen str) with len by lia; exact Hh]. lia.
    - rewrite <- (N.add_0_r 1). eapply scanned_trans; [exact Hhead|exact Hg]. }
  destruct (N.leb_spec major 5) as [H5|H5].
  - eapply (safe_seq _ _ (fun count => (major = 4 /\ len <= 4096 /\ count = len) \/ (major = 5 /\ len <= 128 /\ count = len * 2))).
    { unfold container_count. destruct (N.eqb_spec major 5) as [->|H5']; apply safe_bind, safe_ensure; intros Hc%N.leb_le; cbn [safe]; [by right|left; lia]. }
    intros count _ Hcount. apply safe_bind, safe_ensure. intros Hb%N.leb_le.
    eapply safe_mono; [apply (scan_items_safe b _ (depth + 1)); [|done]; intros s' Ho'; apply IH; lia|].
    intros s' _ (items & k & His & Hs'). exists ((head_byte major ai :: arg) ++ items), (1 + k). split; [|by eapply scanned_trans].
    destruct Hcount as [(-> & Hl & ->)|(-> & Hl & ->)]; [by eapply cbor_array|by eapply cbor_map].
  - eapply safe_mono; [apply (IH (depth + 1) s2); lia|]. intros s' _ (item & k & Hi & Hs').
    exists ((head_byte major ai :: arg) ++ item), (1 + k). split; [|by eapply scanned_trans].
    eapply cbor_tag; [done| |done]. by replace 6 with major by lia.
Qed.

(** A position: the next bytes are [item], then [rest]. *)
Definition facing (b : bytes) (s : Scan) (item rest : bytes) : Prop := scan_offset s <= blen b /\ drop (N.to_nat (scan_offset s)) b = item ++ rest.
Definition passed (s : Scan) (item : bytes) (k : N) : Scan := {| scan_offset := scan_offset s + blen item; scan_budget := scan_budget s - k |}.
Lemma facing_blen b s item rest : facing b s item rest -> scan_offset s + blen item + blen rest = blen b.
Proof. intros [Ho Hd]. apply (f_equal length) in Hd. rewrite length_drop, length_app in Hd. unfold blen in *. lia. Qed.
Lemma facing_passed b s item rest1 rest2 k : facing b s (item ++ rest1) rest2 -> facing b (passed s item k) rest1 rest2.
Proof.
  intros Hf. pose proof (facing_blen _ _ _ _ Hf) as Hl. rewrite blen_app in Hl. destruct Hf as [Ho Hd]. split; cbn [passed scan_offset]; [lia|].
  rewrite N2Nat.inj_add, <- drop_drop, Hd. unfold blen. rewrite Nat2N.id. by rewrite <- app_assoc, drop_app_length.
Qed.
Lemma passed_passed s i1 i2 k1 k2 : passed (passed s i1 k1) i2 k2 = passed s (i1 ++ i2) (k1 + k2).
Proof. unfold passed. cbn [scan_offset scan_budget]. rewrite blen_app. f_equal; lia. Qed.
Lemma facing_get b s x item rest : facing b s (x :: item) rest -> get b (scan_offset s) = Some x.
Proof.
  intros Hf. pose proof (facing_blen _ _ _ _ Hf) as Hl. rewrite blen_cons in Hl. destruct Hf as [Ho Hd]. unfold get.
  destruct (N.ltb_spec (scan_offset s) (blen b)); [|lia]. apply (f_equal (lookup 0%nat)) in Hd. by rewrite lookup_drop, Nat.add_0_r in Hd.
Qed.
Lemma facing_range b s item rest : facing b s item rest -> get_range b (scan_offset s) (scan_offset s + blen item) = Some item.
Proof.
  intros Hf. pose proof (facing_blen _ _ _ _ Hf) as Hl. destruct Hf as [Ho Hd]. apply get_range_Some. split; [lia|]. rewrite Hd.
  replace (N.to_nat _) with (length item) by (unfold blen; lia). by rewrite take_app_length.
Qed.
Lemma scan_head_run b depth s major n item rest : depth <= 24 -> 0 < scan_budget s -> major <= 7 -> n < 32 ->
  facing b s (head_byte major n :: item) rest -> scan_head b depth s = Ok (major, n, passed s [head_byte major n] 1).
Proof.
  intros Hd Hb Hm Hn Hf. unfold scan_head. pki. rewrite ensure_true by (bools; lia). ok_step. rewrite (facing_get _ _ _ _ _ Hf). cbn [ok_or].
  ok_step. by destruct (head_byte_parts major n Hm Hn) as [-> ->].
Qed.
(** The head of an item: its first byte, then its argument. *)
Lemma scan_head_argument b depth s major h n item rest : blen b <= usize_max -> depth <= 24 -> 0 < scan_budget s -> major <= 7 -> cbor_head major h n ->
  facing b s (h ++ item) rest ->
  exists ai s1, scan_head b depth s = Ok (major, ai, s1) /\ scan_argument b s1 ai = Ok (n, passed s h 1).
Proof.
  intros Hmax Hd Hb Hm Hh Hf. destruct Hh as [n Hn|k bs Hk Hl].
  - exists n, (passed s [head_byte major n] 1). split; [eapply scan_head_run; [done..|lia|exact Hf]|].
    unfold scan_argument. destruct (N.leb_spec n 23); [done|lia].
  - exists (24 + k), (passed s [head_byte major (24 + k)] 1). cbn [app] in Hf. split; [eapply scan_head_run; [done..|lia|exact Hf]|].
    unfold scan_argument. pki. destruct (N.leb_spec (24 + k) 23); [lia|]. destruct (N.leb_spec (24 + k) 27); [|lia].
    replace (24 + k - 24) with k by lia. rewrite N.shiftl_mul_pow2, N.mul_1_l, <- Hl.
    apply (facing_passed b s [_] (bs ++ item) rest 1) in Hf. pose proof (facing_blen _ _ _ _ Hf) as Hlen. rewrite blen_app in Hlen.
    assert (facing b (passed s [head_byte major (24 + k)] 1) bs (item ++ rest)) as Hf' by (destruct Hf; split; [done|by rewrite app_assoc]).
    unfold checked_add. destruct (N.leb_spec (scan_offset (passed s [head_byte major (24 + k)] 1) + blen bs) usize_max); [|lia]. cbn [ok_or]. ok_step.
    rewrite (facing_range _ _ _ _ Hf'). cbn [ok_or]. ok_step. rewrite fold_be_spec.
    + do 2 f_equal. unfold passed. cbn [scan_offset scan_budget]. f_equal. rewrite !blen_cons. change (blen []) with 0. lia.
    + rewrite Hl. change 8 with (2 ^ 3). apply N.pow_le_mono_r; lia.
Qed.
Lemma cbor_nodes depth b k : cbor depth b k -> 1 <= k.
Proof. intros H; destruct H; lia. Qed.
Lemma cbors_nodes depth n b k : cbors depth n b k -> N.of_nat n <= k.
Proof. induction 1 as [|depth n b b' k k' Hc Hcs IH]; [lia|]. apply cbor_nodes in Hc. lia. Qed.
Definition scans (b : bytes) (depth : N) (item : bytes) (k : N) : Prop := forall fuel s rest, 25 < depth + N.of_nat fuel ->
  facing b s item rest -> k <= scan_budget s -> scan fuel b depth s = Ok (passed s item k).
Definition scans_all (b : bytes) (depth : N) (n : nat) (items : bytes) (k : N) : Prop := forall fuel s rest, 25 < depth + N.of_nat fuel ->
  facing b s items rest -> k <= scan_budget s -> scan_items n (scan fuel b depth) s = Ok (passed s items k).
Lemma scan_item_run b depth m h n item k : blen b <= usize_max -> depth <= 24 -> m <= 6 -> cbor_head m h n -> 1 <= k ->
  (forall fuel s1 rest, 25 < depth + 1 + N.of_nat fuel -> facing b s1 item rest -> k - 1 <= scan_budget s1 ->
    scan_content (scan fuel b (depth + 1)) b m n s1 = Ok (passed s1 item (k - 1))) ->
  scans b depth (h ++ item) k.
Proof.
  intros Hmax Hd Hm Hh Hk Hrest fuel s rest Hfuel Hf Hb. destruct fuel as [|fuel]; [lia|]. cbn [scan].
  destruct (scan_head_argument b depth s m h n item rest) as (ai & s1 & E1 & E2); [done|done|lia|lia|done|done|].
  rewrite E1. ok_step. destruct (N.eqb_spec m 7); [lia|]. rewrite E2. ok_step. rewrite (Hrest fuel (passed s h 1) rest); [|lia| |cbn; lia].
  - rewrite passed_passed. do 2 f_equal. lia.
  - by eapply facing_passed.
Qed.
Lemma passed_nil s : passed s [] 0 = s.
Proof. unfold passed. change (blen []) with 0. rewrite N.add_0_r, N.sub_0_r. by destruct s. Qed.
Lemma scan_array_run b depth m n count items k : container_count m n = Ok count -> m = 4 \/ m = 5 -> cbors (depth + 1) (N.to_nat count) items k ->
  scans_all b (depth + 1) (N.to_nat count) items k -> forall fuel s1 rest, 25 < depth + 1 + N.of_nat fuel -> facing b s1 items rest -> k <= scan_budget s1 ->
  scan_content (scan fuel b (depth + 1)) b m n s1 = Ok (passed s1 items k).
Proof.
  intros Hc Hm Hcs IH fuel s1 rest Hfuel Hf Hb. unfold scan_content. destruct (N.leb_spec m 1); [lia|]. destruct (N.leb_spec m 3); [lia|].
  destruct (N.leb_spec m 5); [|lia]. rewrite Hc. ok_step. pki. pose proof (cbors_nodes _ _ _ _ Hcs). rewrite ensure_true by (bools; lia). ok_step.
  by apply (IH fuel s1 rest).
Qed.
Lemma scan_complete b : blen b <= usize_max -> forall depth item k, cbor depth item k -> scans b depth item k.
Proof.
  intros Hmax.
  apply (cbor_mut (fun depth item k _ => scans b depth item k) (fun depth n items k _ => scans_all b depth n items k)).
  - intros depth m h n Hd Hm Hh. rewrite <- (app_nil_r h). apply (scan_item_run b depth m h n [] 1); [done|done|lia|done|lia|].
    intros fuel s1 rest _ _ _. unfold scan_content. destruct (N.leb_spec m 1); [|lia]. by rewrite passed_nil.
  - intros depth m h str Hd Hm Hh. eapply (scan_item_run b depth m h _ str 1); [done|done|lia|done|lia|]. intros fuel s1 rest _ Hf _.
    unfold scan_content. destruct (N.leb_spec m 1); [lia|]. destruct (N.leb_spec m 3); [|lia]. pose proof (facing_blen _ _ _ _ Hf) as Hl. pki.
    unfold checked_add. destruct (N.leb_spec (scan_offset s1 + blen str) usize_max); [|lia]. cbn [ok_or]. ok_step.
    rewrite ensure_true by (bools; lia). ok_step. f_equal. unfold passed. f_equal. lia.
  - intros depth v Hd Hv fuel s rest Hfuel Hf Hb. destruct fuel as [|fuel]; [lia|]. cbn [scan]. pki.
    rewrite (scan_head_run b depth s 7 v [] rest) by (done || lia). ok_step. rewrite N.eqb_refl, ensure_true by (bools; lia). by ok_step.
  - intros depth h n items k Hd Hh Hn Hcs IH. eapply (scan_item_run b depth 4 h n items (1 + k)); [done|done|lia|done|lia|].
    intros fuel s1 rest Hfuel Hf Hb. replace (1 + k - 1) with k in * by lia. eapply (scan_array_run b depth 4 n n); eauto.
    unfold container_count. pki. cbn [N.eqb Pos.eqb]. rewrite ensure_true by (bools; lia). by ok_step.
  - intros depth h n items k Hd Hh Hn Hcs IH. eapply (scan_item_run b depth 5 h n items (1 + k)); [done|done|lia|done|lia|].
    intros fuel s1 rest Hfuel Hf Hb. replace (1 + k - 1) with k in * by lia. eapply (scan_array_run b depth 5 n (n * 2)); eauto.
    unfold container_count. pki. cbn [N.eqb Pos.eqb]. rewrite ensure_true by (bools; lia). by ok_step.
  - intros depth h n item k Hd Hh Hc IH. eapply (scan_item_run b depth 6 h n item (1 + k)); [done|done|lia|done|lia|].
    intros fuel s1 rest Hfuel Hf Hb. replace (1 + k - 1) with k in * by lia. by apply (IH fuel s1 rest).
  - intros depth fuel s rest _ _ _. cbn [scan_items]. by rewrite passed_nil.
  - intros depth n item items k k' Hc IH1 Hcs IH2 fuel s rest Hfuel Hf Hb. cbn [scan_items].
    rewrite (IH1 fuel s (items ++ rest)); [|done| |lia].
    + ok_step. rewrite (IH2 fuel _ rest); [by rewrite passed_passed|done| |cbn; lia]. by eapply facing_passed.
    + destruct Hf as [Ho Hd]. split; [done|]. by rewrite Hd, app_assoc.
Qed.

(** ** Decoding *)
Lemma corim_size n : n <= CORIM_MAX_BYTES -> n <= usize_max.
Proof. intros Hn. eapply N.le_trans; [exact Hn|]. vm_compute. discriminate. Qed.
(** A whole document. *)
Definition document (b : bytes) : Prop := exists k, cbor 0 b k /\ k <= MAX_NODES.
Lemma scan_document_safe b : blen b <= usize_max ->
  safe (scan SCAN_FUEL b 0 scan_start) (fun s => (scan_offset s =? blen b) = true -> document b).
Proof.
  intros Hmax. eapply safe_mono; [apply (scan_safe b Hmax); [done|done|cbn; lia]|]. intros s _ (item & k & Hi & (rest & Hd) & Hk & ->) Ho%N.eqb_eq.
  cbn [scan_offset scan_start] in Ho, Hd. change (N.to_nat 0) with 0%nat in Hd. rewrite drop_0 in Hd. subst b. rewrite blen_app in Ho.
  assert (rest = []) as -> by (apply blen_0; lia). rewrite app_nil_r. by exists k.
Qed.
Lemma scan_document_run b k : blen b <= usize_max -> cbor 0 b k -> k <= MAX_NODES -> scan SCAN_FUEL b 0 scan_start = Ok (passed scan_start b k).
Proof.
  intros Hmax Hc Hk. apply (scan_complete b Hmax 0 b k Hc SCAN_FUEL scan_start []); [done| |done]. split; [cbn; lia|].
  by rewrite app_nil_r.
Qed.
Section DecodeSpec.
Context `{CF : CorimFormats}.
Lemma corim_decode_safe b : safe (decode b) (fun v => 0 < blen b <= CORIM_MAX_BYTES /\ document b /\ cbor_from_reader 32 b = Some (v, [])).
Proof.
  unfold decode. pki. apply safe_bind, safe_ensure. intros Hb. bools. assert (blen b <= usize_max) as Hmax by (apply corim_size; lia).
  eapply safe_seq; [by apply scan_document_safe|]. intros s _ Hs. apply safe_bind, safe_ensure. intros Ho. apply safe_bind, safe_ok_or.
  intros [v rest] Hv. apply safe_bind, safe_ensure. intros ->%bool_decide_eq_true. cbn [safe]. split; [lia|]. auto.
Qed.
(** C32: which documents are decoded.  Decoding never panics and ends.  It yields a value
    exactly when the document has between one byte and four mebibytes, is one item of the
    grammar (definite lengths, no floats, nesting of at most 24, bounded arrays and maps,
    at most 32768 nodes), and the CBOR crate reads that value from all of it. *)
Theorem corim_decode_exact b :
  safe (decode b) (fun _ => True) /\
  forall v, decode b = Ok v <-> 0 < blen b <= CORIM_MAX_BYTES /\ document b /\ cbor_from_reader 32 b = Some (v, []).
Proof.
  pose proof (corim_decode_safe b) as Hs. split; [by eapply safe_mono|]. intros v. split; [intros E; by rewrite E in Hs|].
  intros (Hb & (k & Hc & Hk) & Hv). assert (blen b <= usize_max) as Hmax by (apply corim_size; lia). unfold decode. pki.
  rewrite ensure_true by (bools; lia). ok_step. rewrite (scan_document_run b k) by done. ok_step.
  rewrite ensure_true by (bools; cbn; lia). ok_step. rewrite Hv. cbn [ok_or]. ok_step. by rewrite ensure_true by by apply bool_decide_eq_true.
Qed.
End DecodeSpec.

(** ** Documents at the limits *)
Definition nested (n : nat) : bytes := replicate n x81 ++ [x00].
Definition scan_result (b : bytes) : res PkiError Scan := scan SCAN_FUEL b 0 scan_start.
Example scan_nested : scan_result (nested 24) = Ok {| scan_offset := 25; scan_budget := MAX_NODES - 25 |} /\
  scan_result (nested 25) = Err (PkiMsg "CoRIM CBOR nesting/node limit exceeded").
Proof. split; vm_compute; reflexivity. Qed.
(** A tagged map of a 16-bit key to a text, and the same with an indefinite length, a float, and a length of 2^64 - 1. *)
Example scan_samples : (fun b => is_ok (scan_result b)) <$>
  [[xd2; xa1; x19; x01; xf5; x62; x61; x62]; [xd2; xbf; x00; x00; xff]; [xfa; x00; x00; x00; x00]; [x5b; xff; xff; xff; xff; xff; xff; xff; xff]] =
  [true; false; false; false].
Proof. vm_compute. reflexivity. Qed.
