(* ===== verification/Corim.v ===== *)
(** * Corim: signed reference manifests in CBOR
    ([src/v2/src/gpu/corim.rs])

    A CoRIM is a COSE_Sign1 envelope: a protected header, an embedded payload, an ES384
    signature by a certificate whose chain ends in a pinned root.  The payload is a
    manifest of CoMID documents; each lists reference values for an environment.  Every
    map is read against a list of the fields the code knows; an unknown or repeated field
    is an error.

    The definitions follow the file from top to bottom; a [BTreeMap] is a [gmap], since no
    operation depends on its order.  CBOR is read by [CorimCbor.decode].

    [corim_claims_typed]: the claims of a payload that parses are well formed.
    [corim_sound]: an accepted manifest is signed over exactly the bytes that were parsed,
    by a certificate with a valid, unrevoked path to a given root, at a time within the
    validity intervals of manifest and signer. *)
From S2P Require Import Prelude Bytes Text Crypto Spdm Pki NitroQuote GpuCert Revocation Rim CorimCbor.

Inductive Identifier : Type :=
| IdText (s : bytes) | IdUuid (b : bytes) | IdOid (s : bytes) | IdBytes (b : bytes) | IdUeid (b : bytes) | IdUnsigned (n : N).
#[global] Instance Identifier_eq_dec : EqDecision Identifier.
Proof. solve_decision. Defined.
Inductive CorimProfile : Type := ProfileUri (s : bytes) | ProfileOid (s : bytes) | ProfileText (s : bytes).
Record CorimValidity : Type := { cv_not_before : option N; cv_not_after : N }.
#[global] Instance CorimValidity_eq_dec : EqDecision CorimValidity.
Proof. solve_decision. Defined.
Record CorimEntity : Type := { ent_name : bytes; ent_uri : option bytes; ent_roles : gset N }.
Record EnvClass : Type := {
  class_id : option Identifier; class_vendor : option bytes; class_model : option bytes; class_layer : option N; class_index : option N;
}.
Record Environment : Type := { env_class : option EnvClass; env_instance : option Identifier; env_group : option Identifier }.
Inductive VersionScheme : Type := SchemeInteger (i : Z) | SchemeText (s : bytes).
Record ComidVersion : Type := { ver_value : bytes; ver_scheme : option VersionScheme }.
Inductive SecurityVersion : Type := SvnExact (n : N) | SvnMinimum (n : N).
Record ReferenceDigest : Type := { rd_algorithm : N; rd_value : bytes }.
Inductive RawValue : Type := RawExact (b : bytes) | RawMasked (value mask : bytes).
Record IntegerRange : Type := { range_minimum : option Z; range_maximum : option Z }.
Record MeasurementValues : Type := {
  mv_version : option ComidVersion; mv_svn : option SecurityVersion; mv_digests : list ReferenceDigest; mv_flags : gmap N bool;
  mv_raw_value : option RawValue; mv_name : option bytes; mv_integer_range : option IntegerRange;
}.
Record Measurement : Type := { me_key : option Identifier; me_values : MeasurementValues }.
Record ReferenceTriple : Type := { ref_environment : Environment; ref_measurements : list Measurement }.
Record DependencyTriple : Type := { dep_domain : Environment; dep_trustees : list Environment }.
Record Comid : Type := {
  comid_id : Identifier; comid_version : option N; comid_language : option bytes; comid_entities : list CorimEntity;
  comid_references : list ReferenceTriple; comid_dependencies : list DependencyTriple;
}.
Record CorimClaims : Type := {
  corim_id : Identifier; corim_profile : option CorimProfile; corim_validity : option CorimValidity; corim_entities : list CorimEntity; corim_comids : list Comid;
}.
Record SignerMetadata : Type := {
  signer_name : bytes; signer_uri : option bytes; signer_subject : option bytes; signer_validity : option CorimValidity;
}.
Record VerifiedCorim : Type := { vc_claims : CorimClaims; vc_signer : SignerMetadata; vc_source_sha384 : bytes }.
Record SignatureVerifiedCorim : Type := {
  svc_claims : CorimClaims; svc_signer : SignerMetadata; svc_source_sha384 : bytes; svc_chain : ValidatedChain;
}.

(** ** Readers of a value *)
Definition i64_min : Z := - 2 ^ 63.
Definition i64_max : Z := 2 ^ 63 - 1.
Definition integer (v : Value) : res PkiError Z :=
  match v with
  | VInteger i => need (bool_decide (i64_min <= i <= i64_max)%Z) "TryFromIntError";; Ok i
  | _ => Err (PkiMsg "expected CBOR integer")
  end.
Definition unsigned (v : Value) : res PkiError N :=
  match v with
  | VInteger i => need (bool_decide (0 <= i <= Z.of_N u64_max)%Z) "TryFromIntError";; Ok (Z.to_N i)
  | _ => Err (PkiMsg "expected unsigned CBOR integer")
  end.
Definition tag (v : Value) (expected : N) : res PkiError Value :=
  match v with
  | VTag t v => need (t =? expected) "unexpected CBOR tag";; Ok v
  | _ => Err (PkiMsg "required CBOR tag is missing")
  end.
Definition text (v : Value) : res PkiError bytes :=
  match v with
  | VText s => need (negb (blen s =? 0) && (blen s <=? 4096)) "CoRIM text size outside bound";; Ok s
  | _ => Err (PkiMsg "expected CBOR text")
  end.
Definition bstr (v : Value) : res PkiError bytes :=
  match v with VBytes b => Ok b | _ => Err (PkiMsg "expected CBOR byte string") end.
Definition array (v : Value) (min max : N) : res PkiError (list Value) :=
  match v with
  | VArray l => need ((min <=? blen l) && (blen l <=? max)) "CoRIM array size outside bound";; Ok l
  | _ => Err (PkiMsg "expected CoRIM array")
  end.
Notation Fields := (gmap Z Value).
Definition map_entry (allowed : list Z) (m : Fields) (e : Value * Value) : res PkiError Fields :=
  key ← integer e.1;
  need (bool_decide (key ∈ allowed)) "unsupported CoRIM/COSE field";;
  need (bool_decide (m !! key = None)) "duplicate CoRIM/COSE map key";;
  Ok (<[key := e.2]> m).
Definition map_fields (v : Value) (allowed : list Z) : res PkiError Fields :=
  match v with
  | VMap l => for_each (map_entry allowed) ∅ l
  | _ => Err (PkiMsg "expected CoRIM CBOR map")
  end.
Definition required (m : Fields) (key : Z) : res PkiError Value := orelse (m !! key) "missing CoRIM field".
(** [m.get(&key).map(f).transpose()?] *)
Definition optional {A} (m : Fields) (key : Z) (f : Value -> res PkiError A) : res PkiError (option A) :=
  match m !! key with Some v => x ← f v; Ok (Some x) | None => Ok None end.
(** [.iter().map(f).collect::<Result<_>>()?] *)
Fixpoint collect {A B} (f : A -> res PkiError B) (l : list A) : res PkiError (list B) :=
  match l with [] => Ok [] | x :: l => y ← f x; ys ← collect f l; Ok (y :: ys) end.
Definition contains_key (m : Fields) (key : Z) : bool := bool_decide (is_Some (m !! key)).

Section Corim.
Context `{CF : CorimFormats}.

Definition is_ascii_alphabetic (c : byte) : bool :=
  ((65 <=? byte_N c) && (byte_N c <=? 90)) || ((97 <=? byte_N c) && (byte_N c <=? 122)).
Definition scheme_char (c : byte) : bool := is_ascii_alphanumeric c || Byte.eqb c x2b || Byte.eqb c x2d || Byte.eqb c x2e.
Definition uri (v : Value) : res PkiError bytes :=
  v ← tag v 32;
  s ← text v;
  '(scheme, _) ← orelse (split_once x3a s) "URI has no scheme";
  need (match head scheme with Some c => is_ascii_alphabetic c | None => false end && forallb scheme_char scheme &&
        negb (existsb (fun c => char_is_whitespace c || char_is_control c) (chars s))) "invalid absolute URI";;
  Ok s.
Definition oid (v : Value) : res PkiError bytes :=
  v ← tag v 111;
  raw ← bstr v;
  orelse (oid_from_bytes raw) "malformed BER OID content".
Definition manifest_id (v : Value) : res PkiError Identifier :=
  match v with
  | VText s => need (negb (blen s =? 0) && (blen s <=? 1024)) "invalid CoRIM/CoMID identity";; Ok (IdText s)
  | VBytes b => need (blen b =? 16) "manifest UUID must be 16 bytes";; Ok (IdUuid b)
  | _ => Err (PkiMsg "invalid CoRIM/CoMID identity")
  end.
Definition typed_identifier (value : Value) (tags : list N) : res PkiError Identifier :=
  match value with
  | VTag t v =>
    need (bool_decide (t ∈ tags)) "unsupported identifier tag";;
    if t =? 111 then s ← oid value; Ok (IdOid s)
    else if t =? 37 then b ← bstr v; need (blen b =? 16) "UUID must be 16 bytes";; Ok (IdUuid b)
    else if t =? 550 then b ← bstr v; need ((7 <=? blen b) && (blen b <=? 33)) "invalid UEID size";; Ok (IdUeid b)
    else if t =? 560 then b ← bstr v; need (negb (blen b =? 0)) "empty byte identifier";; Ok (IdBytes b)
    else Err (PkiMsg "unsupported identifier")
  | _ => Err (PkiMsg "identifier requires an explicit CBOR tag")
  end.
Definition check_validity (v : CorimValidity) (now : N) : res PkiError unit :=
  need (match cv_not_before v with Some t => (t <=? now) && (t <? cv_not_after v) | None => true end)
    "CoRIM validity has not begun or is inverted";;
  need (now <? cv_not_after v) "CoRIM validity expired".
Definition tagged_time (v : Value) : res PkiError N := v ← tag v 1; unsigned v.
Definition validity (v : Value) (now : N) : res PkiError CorimValidity :=
  m ← map_fields v [0; 1]%Z;
  not_before ← optional m 0 tagged_time;
  e ← required m 1;
  not_after ← tagged_time e;
  let v := {| cv_not_before := not_before; cv_not_after := not_after |} in
  check_validity v now;;
  Ok v.
Definition entity_role (allowed : list N) (roles : gset N) (v : Value) : res PkiError (gset N) :=
  role ← unsigned v;
  need (bool_decide (role ∈ allowed) && bool_decide (role ∉ roles)) "unknown or repeated CoRIM entity role";;
  Ok ({[role]} ∪ roles).
Definition entity (allowed : list N) (v : Value) : res PkiError CorimEntity :=
  m ← map_fields v [0; 1; 2]%Z;
  r ← required m 2;
  l ← array r 1 (blen allowed);
  roles ← for_each (entity_role allowed) ∅ l;
  n ← required m 0;
  name ← text n;
  u ← optional m 1 uri;
  Ok {| ent_name := name; ent_uri := u; ent_roles := roles |}.
Definition entities (v : Value) (allowed : list N) : res PkiError (list CorimEntity) :=
  l ← array v 1 32; collect (entity allowed) l.
Definition optional_entities (m : Fields) (key : Z) (allowed : list N) : res PkiError (list CorimEntity) :=
  e ← optional m key (fun v => entities v allowed); Ok (default [] e).

(** ** Environments and measurements *)
Definition env_class_of (v : Value) : res PkiError EnvClass :=
  c ← map_fields v [0; 1; 2; 3; 4]%Z;
  need (contains_key c 0 || contains_key c 1 || contains_key c 2) "CoMID class has no identity";;
  id ← optional c 0 (fun v => typed_identifier v [37; 111; 560]);
  vendor ← optional c 1 text;
  model ← optional c 2 text;
  layer ← optional c 3 unsigned;
  idx ← optional c 4 unsigned;
  Ok {| class_id := id; class_vendor := vendor; class_model := model; class_layer := layer; class_index := idx |}.
Definition environment (v : Value) : res PkiError Environment :=
  m ← map_fields v [0; 1; 2]%Z;
  need (negb (bool_decide (m = ∅))) "empty CoMID environment is ambiguous";;
  cls ← optional m 0 env_class_of;
  inst ← optional m 1 (fun v => typed_identifier v [37; 550; 560]);
  grp ← optional m 2 (fun v => typed_identifier v [37; 560]);
  Ok {| env_class := cls; env_instance := inst; env_group := grp |}.
Definition version_scheme (v : Value) : res PkiError VersionScheme :=
  match v with
  | VInteger _ => i ← integer v; Ok (SchemeInteger i)
  | VText s => Ok (SchemeText s)
  | _ => Err (PkiMsg "unsupported CoMID version scheme")
  end.
Definition comid_version_of (v : Value) : res PkiError ComidVersion :=
  m ← map_fields v [0; 1]%Z;
  scheme ← optional m 1 version_scheme;
  x ← required m 0;
  value ← text x;
  Ok {| ver_value := value; ver_scheme := scheme |}.
Definition security_version (v : Value) : res PkiError SecurityVersion :=
  match v with
  | VInteger _ => n ← unsigned v; Ok (SvnExact n)
  | VTag t v => if t =? 552 then n ← unsigned v; Ok (SvnExact n)
                else if t =? 553 then n ← unsigned v; Ok (SvnMinimum n)
                else Err (PkiMsg "unsupported CoMID SVN constraint")
  | _ => Err (PkiMsg "unsupported CoMID SVN constraint")
  end.
Definition digest_size (algorithm : N) : option N :=
  if algorithm =? 1 then Some 32 else if algorithm =? 7 then Some 48 else if algorithm =? 8 then Some 64 else None.
Definition reference_digest (acc : list ReferenceDigest) (v : Value) : res PkiError (list ReferenceDigest) :=
  d ← array v 2 2;
  d0 ← index d 0;
  algorithm ← unsigned d0;
  size ← orelse (digest_size algorithm) "unsupported CoMID reference digest algorithm";
  d1 ← index d 1;
  value ← bstr d1;
  need (blen value =? size) "CoMID digest has incorrect size";;
  need (negb (existsb (fun d => (rd_algorithm d =? algorithm) && bytes_eqb (rd_value d) value) acc)) "duplicate CoMID digest";;
  Ok (acc ++ [{| rd_algorithm := algorithm; rd_value := value |}]).
Definition flag (acc : gmap N bool) (e : Z * Value) : res PkiError (gmap N bool) :=
  match e.2 with VBool b => Ok (<[Z.to_N e.1 := b]> acc) | _ => Err (PkiMsg "CoMID flag is not boolean") end.
Definition flags_of (v : Value) : res PkiError (gmap N bool) :=
  m ← map_fields v [0; 1; 2; 3; 4; 5; 6; 7; 8; 9]%Z;
  fs ← for_each flag ∅ (map_to_list m);
  need (negb (bool_decide (fs = ∅))) "empty CoMID flags map";;
  Ok fs.
Definition raw_value_of (v : Value) : res PkiError RawValue :=
  match v with
  | VTag t v =>
    if t =? 560 then b ← bstr v; Ok (RawExact b)
    else if t =? 563 then
      fields ← array v 2 2;
      f0 ← index fields 0;
      value ← bstr f0;
      f1 ← index fields 1;
      mask ← bstr f1;
      need (negb (blen value =? 0) && (blen value =? blen mask)) "CoMID masked raw value length mismatch";;
      Ok (RawMasked value mask)
    else Err (PkiMsg "unsupported CoMID raw-value type")
  | _ => Err (PkiMsg "unsupported CoMID raw-value type")
  end.
Definition range_end (v : Value) : res PkiError (option Z) :=
  match v with VNull => Ok None | v => i ← integer v; Ok (Some i) end.
Definition integer_range_of (v : Value) : res PkiError IntegerRange :=
  match v with
  | VInteger _ => i ← integer v; Ok {| range_minimum := Some i; range_maximum := Some i |}
  | VTag t v =>
    if t =? 564 then
      fields ← array v 2 2;
      f0 ← index fields 0;
      minimum ← range_end f0;
      f1 ← index fields 1;
      maximum ← range_end f1;
      need (match minimum, maximum with Some a, Some b => negb (b <? a)%Z | _, _ => true end) "inverted CoMID integer range";;
      Ok {| range_minimum := minimum; range_maximum := maximum |}
    else Err (PkiMsg "unsupported CoMID integer range")
  | _ => Err (PkiMsg "unsupported CoMID integer range")
  end.
Definition measurement_values (v : Value) : res PkiError MeasurementValues :=
  m ← map_fields v [0; 1; 2; 3; 4; 11; 15]%Z;
  need (negb (bool_decide (m = ∅))) "empty CoMID measurement values";;
  version ← optional m 0 comid_version_of;
  svn ← optional m 1 security_version;
  digests ← optional m 2 (fun v => l ← array v 1 32; for_each reference_digest [] l);
  flags ← optional m 3 flags_of;
  raw ← optional m 4 raw_value_of;
  name ← optional m 11 text;
  range ← optional m 15 integer_range_of;
  Ok {| mv_version := version; mv_svn := svn; mv_digests := default [] digests; mv_flags := default ∅ flags; mv_raw_value := raw;
        mv_name := name; mv_integer_range := range |}.
Definition measurement_key (v : Value) : res PkiError Identifier :=
  match v with
  | VInteger _ => n ← unsigned v; Ok (IdUnsigned n)
  | VText s => Ok (IdText s)
  | _ => typed_identifier v [37; 111]
  end.
Definition measurement (v : Value) : res PkiError Measurement :=
  m ← map_fields v [0; 1]%Z;
  key ← optional m 0 measurement_key;
  x ← required m 1;
  values ← measurement_values x;
  Ok {| me_key := key; me_values := values |}.

(** ** Documents *)
Definition reference_triple (v : Value) : res PkiError ReferenceTriple :=
  r ← array v 2 2;
  r0 ← index r 0;
  env ← environment r0;
  r1 ← index r 1;
  l ← array r1 1 256;
  ms ← collect measurement l;
  Ok {| ref_environment := env; ref_measurements := ms |}.
Definition dependency_triple (v : Value) : res PkiError DependencyTriple :=
  d ← array v 2 2;
  d0 ← index d 0;
  domain ← environment d0;
  d1 ← index d 1;
  l ← array d1 1 256;
  trustees ← collect environment l;
  Ok {| dep_domain := domain; dep_trustees := trustees |}.
Definition parse_comid (b : bytes) : res PkiError Comid :=
  value ← decode b;
  m ← map_fields value [0; 1; 2; 4]%Z;
  i ← required m 1;
  identity ← map_fields i [0; 12]%Z;
  i ← required identity 0;
  id ← manifest_id i;
  version ← optional identity 12 unsigned;
  language ← optional m 0 text;
  es ← optional_entities m 2 [0; 1; 2];
  t ← required m 4;
  triples ← map_fields t [0; 4]%Z;
  references ← optional triples 0 (fun v => l ← array v 1 256; collect reference_triple l);
  let references := default [] references in
  need (negb (blen references =? 0)) "CoMID contains no supported reference triples";;
  dependencies ← optional triples 4 (fun v => l ← array v 1 256; collect dependency_triple l);
  Ok {| comid_id := id; comid_version := version; comid_language := language; comid_entities := es; comid_references := references;
        comid_dependencies := default [] dependencies |}.
Definition profile_of (v : Value) : res PkiError CorimProfile :=
  match v with
  | VText s => Ok (ProfileText s)
  | VTag t _ => if t =? 32 then s ← uri v; Ok (ProfileUri s) else if t =? 111 then s ← oid v; Ok (ProfileOid s)
                else Err (PkiMsg "unsupported CoRIM profile type")
  | _ => Err (PkiMsg "unsupported CoRIM profile type")
  end.
Definition concise_tag (v : Value) : res PkiError Comid := t ← tag v 506; b ← bstr t; parse_comid b.
Definition unique_comid (seen : list Identifier) (c : Comid) : res PkiError (list Identifier) :=
  need (negb (bool_decide (comid_id c ∈ seen))) "duplicate CoMID identity";; Ok (seen ++ [comid_id c]).
Definition parse_payload (b : bytes) (now : N) : res PkiError CorimClaims :=
  value ← decode b;
  v ← tag value 501;
  m ← map_fields v [0; 1; 3; 4; 5]%Z;
  i ← required m 0;
  id ← manifest_id i;
  prof ← optional m 3 profile_of;
  val ← optional m 4 (fun v => validity v now);
  es ← optional_entities m 5 [1; 2];
  t ← required m 1;
  tags ← array t 1 25;
  comids ← collect concise_tag tags;
  for_each unique_comid [] comids;;
  Ok {| corim_id := id; corim_profile := prof; corim_validity := val; corim_entities := es; corim_comids := comids |}.

(** ** The envelope *)
Definition legacy_metadata (now : N) (v : Value) : res PkiError SignerMetadata :=
  b ← bstr v;
  decoded ← decode b;
  meta ← map_fields decoded [0; 1]%Z;
  s ← required meta 0;
  signer ← map_fields s [0; 1]%Z;
  n ← required signer 0;
  name ← text n;
  u ← optional signer 1 uri;
  val ← optional meta 1 (fun v => validity v now);
  Ok {| signer_name := name; signer_uri := u; signer_subject := None; signer_validity := val |}.
Definition cwt_metadata (now : N) (v : Value) : res PkiError SignerMetadata :=
  m ← map_fields v [1; 2; 4; 5]%Z;
  before ← optional m 5 unsigned;
  need (bool_decide (before = None) || contains_key m 4) "CWT not-before requires expiration";;
  val ← optional m 4 (fun v =>
    after ← unsigned v;
    let val := {| cv_not_before := before; cv_not_after := after |} in
    check_validity val now;; Ok val);
  n ← required m 1;
  name ← text n;
  subject ← optional m 2 text;
  Ok {| signer_name := name; signer_uri := None; signer_subject := subject; signer_validity := val |}.
Definition signer_metadata (protected : Fields) (now : N) : res PkiError SignerMetadata :=
  legacy ← optional protected 8 (legacy_metadata now);
  cwt ← optional protected 15 (cwt_metadata now);
  match legacy, cwt with
  | Some a, Some b =>
    need (bytes_eqb (signer_name a) (signer_name b) && bool_decide (signer_validity a = signer_validity b))
      "CoRIM legacy metadata and CWT claims conflict";;
    Ok {| signer_name := signer_name a; signer_uri := signer_uri a; signer_subject := signer_subject b; signer_validity := signer_validity a |}
  | Some a, None | None, Some a => Ok a
  | None, None => Err (PkiMsg "CoRIM requires protected signer metadata (8 or 15)")
  end.
End Corim.

Section Envelope.
Context `{X : X509} `{K : CpuCrypto} `{H : Sha2} `{GX : GpuX509} `{OF : OcspFormats} `{P : Spdm.P384} `{PK : !P384Keys P} `{CF : CorimFormats}.
Definition critical_header (protected : Fields) (seen : gset Z) (v : Value) : res PkiError (gset Z) :=
  key ← integer v;
  need (negb (key =? 2)%Z && bool_decide (key ∉ seen) && contains_key protected key) "invalid or duplicate COSE critical header";;
  Ok ({[key]} ∪ seen).
(** The checks of both headers before the certificate chain. *)
Definition check_headers (protected unprotected : Fields) : res PkiError unit :=
  need (forallb (fun e => negb (contains_key protected e.1)) (map_to_list unprotected)) "COSE header appears in protected and unprotected maps";;
  a ← required protected 1;
  alg ← integer a;
  need (alg =? -35)%Z "CoRIM requires protected ES384 algorithm (-35)";;
  c ← required protected 3;
  content ← text c;
  need (bytes_eqb content (lit "application/rim+cbor")) "CoRIM requires protected application/rim+cbor content type";;
  optional protected 4 (fun v => kid ← bstr v; need (blen kid <=? 1024) "COSE key ID exceeds bound");;
  optional protected 2 (fun v => l ← array v 1 8; for_each (critical_header protected) ∅ l);;
  Ok tt.
Definition chain_certificates (v : Value) : res PkiError (list bytes) :=
  match v with VBytes b => Ok [b] | v => l ← array v 2 8; collect bstr l end.
Definition header_chain (protected unprotected : Fields) : res PkiError (list bytes) :=
  v ← orelse (match protected !! 33%Z with Some v => Some v | None => unprotected !! 33%Z end) "CoRIM x5chain is missing";
  certs ← chain_certificates v;
  for_each (fun _ c => need (negb (blen c =? 0) && (blen c <=? 16 * 1024)) "CoRIM certificate size outside bound") tt certs;;
  Ok certs.
Definition thumbprint_digest (algorithm : Z) (b : bytes) : res PkiError bytes :=
  if (algorithm =? -16)%Z then Ok (sha256 b) else if (algorithm =? -43)%Z then Ok (sha384 b) else if (algorithm =? -44)%Z then Ok (sha512 b)
  else Err (PkiMsg "unsupported COSE x5t digest algorithm").
Definition thumbprint (certs : list bytes) (v : Value) : res PkiError unit :=
  hash ← array v 2 2;
  h0 ← index hash 0;
  alg ← integer h0;
  first ← index certs 0;
  expected ← thumbprint_digest alg first;
  h1 ← index hash 1;
  found ← bstr h1;
  need (bytes_eqb expected found) "COSE x5t certificate thumbprint mismatch".
(** Protect the leaf certificate identity when the chain itself is mutable. *)
Definition check_thumbprint (protected : Fields) (certs : list bytes) : res PkiError unit :=
  need (contains_key protected 33 || contains_key protected 34) "unprotected x5chain requires a protected x5t thumbprint";;
  optional protected 34 (thumbprint certs);;
  Ok tt.
Definition signature_structure (protected_bytes payload : bytes) : Value :=
  VArray [VText (lit "Signature1"); VBytes protected_bytes; VBytes []; VBytes payload].
Definition HYPHEN : bytes := lit "-".
Definition uuid_text (id : bytes) : res PkiError bytes :=
  let h := hex_encode id in
  a ← index_range h 0 8;
  b ← index_range h 8 12;
  c ← index_range h 12 16;
  d ← index_range h 16 20;
  e ← index_from h 20;
  Ok (a ++ HYPHEN ++ b ++ HYPHEN ++ c ++ HYPHEN ++ d ++ HYPHEN ++ e).
Definition check_subject (signer : SignerMetadata) (claims : CorimClaims) : res PkiError unit :=
  match signer_subject signer with
  | None => Ok tt
  | Some subject =>
    expected ← match corim_id claims with IdText id => Ok id | IdUuid id => uuid_text id | _ => Err (PkiMsg "unsupported CWT subject identity") end;
    need (bytes_eqb subject expected) "CWT subject does not match CoRIM identity"
  end.
Definition verify_corim_signature_and_chain (b : bytes) (roots : list Certificate) (now : N) : res PkiError SignatureVerifiedCorim :=
  envelope ← decode b;
  t ← tag envelope 18;
  fields ← array t 4 4;
  f0 ← index fields 0;
  protected_bytes ← bstr f0;
  protected_value ← decode protected_bytes;
  protected ← map_fields protected_value [1; 2; 3; 4; 8; 15; 33; 34]%Z;
  f1 ← index fields 1;
  unprotected ← map_fields f1 [33]%Z;
  check_headers protected unprotected;;
  certs ← header_chain protected unprotected;
  check_thumbprint protected certs;;
  chain ← validate_gpu_chain (concat certs) roots now GpuCert.Rim;
  f2 ← index fields 2;
  payload ← bstr f2;
  f3 ← index fields 3;
  s ← bstr f3;
  sig ← orelse (signature_from_slice s) "COSE ES384 signature must be 96-byte r || s";
  leaf ← index (certificates chain) 0;
  key ← orelse (p384_from_der (spki_der leaf)) "CoRIM signer key";
  message ← orelse (cbor_into_writer (signature_structure protected_bytes payload)) "CBOR";
  need (p384_verify key message sig) "CoRIM COSE signature mismatch";;
  signer ← signer_metadata protected now;
  claims ← parse_payload payload now;
  check_subject signer claims;;
  Ok {| svc_claims := claims; svc_signer := signer; svc_source_sha384 := sha384 b; svc_chain := chain |}.
Definition verify_corim (b : bytes) (roots : list Certificate) (e : RevocationEvidence) (now : N) : res PkiError VerifiedCorim :=
  verified ← verify_corim_signature_and_chain b roots now;
  check_chain (svc_chain verified) e now;;
  Ok {| vc_claims := svc_claims verified; vc_signer := svc_signer verified; vc_source_sha384 := svc_source_sha384 verified |}.
End Envelope.

(** * Well-formed claims *)
Definition text_wf (s : bytes) : Prop := 0 < blen s <= 4096.
Definition in_force (v : CorimValidity) (now : N) : Prop :=
  now < cv_not_after v /\ forall t, cv_not_before v = Some t -> t <= now /\ t < cv_not_after v.
Definition identifier_wf (i : Identifier) : Prop :=
  match i with
  | IdUuid b => blen b = 16
  | IdUeid b => 7 <= blen b <= 33
  | IdBytes b => b <> []
  | IdUnsigned n => n <= u64_max
  | IdText _ | IdOid _ => True
  end.
Definition manifest_id_wf (i : Identifier) : Prop :=
  match i with IdText s => 0 < blen s <= 1024 | IdUuid b => blen b = 16 | _ => False end.
Definition digest_wf (d : ReferenceDigest) : Prop := digest_size (rd_algorithm d) = Some (blen (rd_value d)).
Record values_wf (v : MeasurementValues) : Prop := {
  vw_digests : Forall digest_wf (mv_digests v) /\ NoDup (mv_digests v) /\ blen (mv_digests v) <= 32;
  vw_flags : forall k b, mv_flags v !! k = Some b -> k <= 9;
  vw_masked value mask : mv_raw_value v = Some (RawMasked value mask) -> 0 < blen value /\ blen mask = blen value;
  vw_range r a b : mv_integer_range v = Some r -> range_minimum r = Some a -> range_maximum r = Some b -> (a <= b)%Z;
  vw_some : is_Some (mv_version v) \/ is_Some (mv_svn v) \/ mv_digests v <> [] \/ mv_flags v <> ∅ \/ is_Some (mv_raw_value v) \/
    is_Some (mv_name v) \/ is_Some (mv_integer_range v);
}.
Definition optionally {A} (Q : A -> Prop) (o : option A) : Prop := match o with Some x => Q x | None => True end.
Definition class_wf (c : EnvClass) : Prop :=
  (is_Some (class_id c) \/ is_Some (class_vendor c) \/ is_Some (class_model c)) /\ optionally identifier_wf (class_id c).
Record environment_wf (e : Environment) : Prop := {
  ew_some : is_Some (env_class e) \/ is_Some (env_instance e) \/ is_Some (env_group e);
  ew_class : optionally class_wf (env_class e);
  ew_instance : optionally identifier_wf (env_instance e);
  ew_group : optionally identifier_wf (env_group e);
}.
Definition measurement_wf (m : Measurement) : Prop := optionally identifier_wf (me_key m) /\ values_wf (me_values m).
Definition reference_wf (r : ReferenceTriple) : Prop :=
  environment_wf (ref_environment r) /\ Forall measurement_wf (ref_measurements r) /\ 1 <= blen (ref_measurements r) <= 256.
Definition dependency_wf (d : DependencyTriple) : Prop :=
  environment_wf (dep_domain d) /\ Forall environment_wf (dep_trustees d) /\ 1 <= blen (dep_trustees d) <= 256.
Definition entity_wf (allowed : list N) (e : CorimEntity) : Prop :=
  text_wf (ent_name e) /\ ent_roles e <> ∅ /\ forall r, r ∈ ent_roles e -> r ∈ allowed.
Record comid_wf (c : Comid) : Prop := {
  cw_id : manifest_id_wf (comid_id c);
  cw_entities : Forall (entity_wf [0; 1; 2]) (comid_entities c);
  cw_references : Forall reference_wf (comid_references c) /\ 1 <= blen (comid_references c) <= 256;
  cw_dependencies : Forall dependency_wf (comid_dependencies c) /\ blen (comid_dependencies c) <= 256;
}.
Record claims_wf (now : N) (c : CorimClaims) : Prop := {
  cl_id : manifest_id_wf (corim_id c);
  cl_validity : optionally (fun v => in_force v now) (corim_validity c);
  cl_entities : Forall (entity_wf [1; 2]) (corim_entities c);
  cl_comids : Forall comid_wf (corim_comids c) /\ NoDup (comid_id <$> corim_comids c) /\ 1 <= blen (corim_comids c) <= 25;
}.
Record signer_wf (now : N) (s : SignerMetadata) : Prop := {
  sm_name : text_wf (signer_name s);
  sm_validity : optionally (fun v => in_force v now) (signer_validity s);
}.

(** * Lemmas *)
Lemma corim_integer_safe v : safe (integer v) (fun i => v = VInteger i).
Proof. destruct v; try done. unfold integer. pki. by wp. Qed.
Lemma unsigned_safe v : safe (unsigned v) (fun n => v = VInteger (Z.of_N n) /\ n <= u64_max).
Proof. destruct v; try done. unfold unsigned. pki. wp. bools. split; [f_equal|]; lia. Qed.
Lemma tag_safe v t : safe (tag v t) (fun x => v = VTag t x).
Proof. destruct v; try done. unfold tag. pki. wp. by bools; subst. Qed.
Lemma text_safe v : safe (text v) (fun s => v = VText s /\ text_wf s).
Proof. destruct v; try done. unfold text. pki. wp. bools. split; [done|]. unfold text_wf. lia. Qed.
Lemma bstr_safe v : safe (bstr v) (fun b => v = VBytes b).
Proof. by destruct v. Qed.
Lemma array_safe v a b : safe (array v a b) (fun l => v = VArray l /\ a <= blen l <= b).
Proof. destruct v; try done. unfold array. pki. wp. bools. split; [done|lia]. Qed.
Lemma required_safe m k : safe (required m k) (fun v => m !! k = Some v).
Proof. unfold required. pki. by apply safe_ok_or. Qed.
Lemma optional_safe {A} m k (f : Value -> res PkiError A) Q : (forall v, m !! k = Some v -> safe (f v) Q) ->
  safe (optional m k f) (fun o => optionally Q o /\ (is_Some o <-> is_Some (m !! k))).
Proof.
  intros Hf. unfold optional. destruct (m !! k) as [v|]; [|cbn; split; [done|by split; intros []]]. specialize (Hf v eq_refl).
  by destruct (f v); cbn in *.
Qed.
Lemma collect_safe {A B} (f : A -> res PkiError B) l Q : (forall x, x ∈ l -> safe (f x) Q) ->
  safe (collect f l) (fun ys => Forall Q ys /\ blen ys = blen l).
Proof.
  induction l as [|x l IH]; intros Hf; cbn [collect]; [by split|]. eapply safe_seq; [apply Hf; left|]. intros y _ Hy.
  eapply safe_seq; [apply IH; intros z Hz; apply Hf; by right|]. intros ys _ [Hys Hl]. cbn [safe]. rewrite !blen_cons. split; [by constructor|lia].
Qed.

(** What a map holds: each of its entries, under an allowed integer, once. *)
Record fields_of (v : Value) (allowed : list Z) (m : Fields) : Prop := {
  fo_entries : exists l, v = VMap l /\ (forall k x, m !! k = Some x <-> (VInteger k, x) ∈ l) /\ (forall e, e ∈ l -> exists k, e.1 = VInteger k) /\ NoDup l.*1;
  fo_allowed k : is_Some (m !! k) -> k ∈ allowed;
}.
Lemma map_fields_safe v allowed : safe (map_fields v allowed) (fields_of v allowed).
Proof.
  destruct v as [| | | | | | |l|]; try done. unfold map_fields.
  eapply safe_mono; [apply (safe_prefix _ (fun pre m => ((forall k x, m !! k = Some x <-> (VInteger k, x) ∈ pre) /\
    (forall e, e ∈ pre -> exists k, e.1 = VInteger k) /\ NoDup pre.*1) /\ forall k, is_Some (m !! k) -> k ∈ allowed))|].
  - split; [split; [|split]|]; [|by intros e ?%not_elem_of_nil|constructor|].
    + intros k x. rewrite lookup_empty. split; [done|by intros ?%not_elem_of_nil].
    + intros k. rewrite lookup_empty. by intros [].
  - intros pre [kv x] post m _ ((Hm & Hint & Hnd) & Hall). unfold map_entry. pki. eapply safe_seq; [apply corim_integer_safe|]. cbn [fst snd]. intros k _ ->.
    wp. bools. rename H into Hk, H0 into Hnew. split; [split; [|split]|].
    + intros j y. rewrite elem_of_app, list_elem_of_singleton. destruct (decide (j = k)) as [->|Hne].
      * rewrite lookup_insert_eq. split; [intros [= ->]; by right|intros [Hin%Hm|[= ->]]; congruence].
      * rewrite lookup_insert_ne by done. rewrite Hm. split; [auto|intros [?|[= -> ->]]; done].
    + intros e [He|He%list_elem_of_singleton]%elem_of_app; [by apply Hint|subst e; eauto].
    + rewrite fmap_app. apply NoDup_app. split; [done|]. split; [|apply NoDup_singleton]. cbn. intros v Hv ->%list_elem_of_singleton.
      apply list_elem_of_fmap in Hv as ([? y] & Hv & Hin). cbn in Hv. subst. apply Hm in Hin. congruence.
    + intros j [y Hj]. destruct (decide (j = k)) as [->|Hne]; [done|]. rewrite lookup_insert_ne in Hj by done. eauto.
  - intros m _ (Hl & Hall). split; [|done]. by exists l.
Qed.
Lemma text_wf_safe v : safe (text v) text_wf.
Proof. eapply safe_mono; [apply text_safe|]. by intros s _ []. Qed.
Lemma unsigned_bound v : safe (unsigned v) (fun n => n <= u64_max).
Proof. eapply safe_mono; [apply unsigned_safe|]. by intros n _ []. Qed.
Lemma safe_trivial {E A} (c : res E A) Q : safe c Q -> safe c (fun _ => True).
Proof. intros Hc. by eapply safe_mono. Qed.

(** [cor] goes through a reader step by step; at an optional field it stops. *)
Ltac cor_use L := eapply safe_mono; [apply L|cbv beta; intros ? _ ?]; destruct_and?; cbv beta.
Ltac cor_step :=
  match goal with
  | |- safe (integer _) _ => cor_use @corim_integer_safe
  | |- safe (unsigned _) _ => cor_use @unsigned_safe
  | |- safe (tag _ _) _ => cor_use @tag_safe
  | |- safe (text _) _ => cor_use @text_safe
  | |- safe (bstr _) _ => cor_use @bstr_safe
  | |- safe (array _ _ _) _ => cor_use @array_safe
  | |- safe (required _ _) _ => cor_use @required_safe
  | |- safe (map_fields _ _) _ => cor_use @map_fields_safe
  | |- safe (index ?l _) _ => apply safe_index; [lia|intros ? ?]
  | |- safe (if ?c then _ else _) _ => destruct c eqn:?
  | _ => progress (pki; wp_step)
  end.
Ltac cor := repeat cor_step.
(** An optional field whose reader has the lemma [L]. *)
Ltac cor_optional L := eapply safe_mono; [apply optional_safe; intros ? _; apply L|cbv beta; intros ? _ [? ?]; cbv beta].

Section Claims.
Context `{CF : CorimFormats}.
Lemma oid_safe v : safe (oid v) (fun _ => True).
Proof. unfold oid. by cor. Qed.
Lemma uri_safe v : safe (uri v) text_wf.
Proof. unfold uri. cor. destruct a1. by cor. Qed.
Lemma manifest_id_safe v : safe (manifest_id v) manifest_id_wf.
Proof. destruct v; try done; unfold manifest_id; cor; bools; cbn; lia. Qed.
Lemma typed_identifier_safe tags v : safe (typed_identifier v tags) identifier_wf.
Proof.
  destruct v; try done. unfold typed_identifier. cor; [by eapply safe_mono; [apply oid_safe|]|..]; bools; cbn; try lia; by intros ->.
Qed.
Lemma check_validity_safe v now : safe (check_validity v now) (fun _ => in_force v now).
Proof.
  unfold check_validity. cor. bools. split; [lia|]. intros t Ht. rewrite Ht in H. bools. lia.
Qed.
Lemma tagged_time_safe v : safe (tagged_time v) (fun n => n <= u64_max).
Proof. unfold tagged_time. by cor. Qed.
Lemma validity_safe now v : safe (validity v now) (fun x => in_force x now).
Proof.
  unfold validity. cor. cor_optional tagged_time_safe. cor. eapply safe_mono; [apply tagged_time_safe|]. intros after _ _. cbv zeta. wp.
  eapply safe_mono; [apply check_validity_safe|]. by intros [] _ Hv.
Qed.
Lemma entity_safe allowed v : safe (entity allowed v) (entity_wf allowed).
Proof.
  unfold entity. cor. eapply safe_mono.
  { apply (safe_prefix _ (fun pre (roles : gset N) => (forall r, r ∈ roles -> r ∈ allowed) /\ (pre <> [] -> roles <> ∅))); [by split; [set_solver|]|].
    intros pre x post roles _ [Hr _]. unfold entity_role. cor. bools. split; [|intros _; set_solver]. intros r [->%elem_of_singleton|Hin]%elem_of_union; auto. }
  cbv beta. intros roles _ [Hr Hne]. cor. cor_optional uri_safe. cor. split; [done|]. split; [|done]. cbn. apply Hne. intros ->. pose proof (blen_nil (A := Value)). lia.
Qed.
Lemma entities_safe allowed v : safe (entities v allowed) (Forall (entity_wf allowed)).
Proof.
  unfold entities. cor. eapply safe_mono; [apply collect_safe; intros x _; apply entity_safe|]. by intros es _ [Hes _].
Qed.
Lemma optional_entities_safe m k allowed : safe (optional_entities m k allowed) (Forall (entity_wf allowed)).
Proof. unfold optional_entities. cor. cor_optional entities_safe. cbn. by destruct a as [es|]; [|constructor]. Qed.
Lemma fields_some v allowed m : fields_of v allowed m -> m <> ∅ -> exists k, k ∈ allowed /\ is_Some (m !! k).
Proof. intros [_ Hall] (k & x & Hk)%map_choose. exists k. eauto. Qed.
Lemma env_class_safe v : safe (env_class_of v) class_wf.
Proof.
  unfold env_class_of. cor. rename H0 into Hk. cor_optional typed_identifier_safe. cor. cor_optional text_wf_safe. cor. cor_optional text_wf_safe.
  cor. cor_optional unsigned_bound. cor. cor_optional unsigned_bound. cor. split; [cbn|done]. unfold contains_key in Hk. bools. tauto.
Qed.
Lemma environment_safe v : safe (environment v) environment_wf.
Proof.
  unfold environment. cor. apply negb_true_iff, bool_decide_eq_false in H0 as Hne. pose proof (fields_some _ _ _ H Hne) as (k & Hin & Hk).
  cor_optional env_class_safe. cor. cor_optional typed_identifier_safe. cor. cor_optional typed_identifier_safe. cor. split; cbn; try done.
  rewrite !elem_of_cons, elem_of_nil in Hin. destruct Hin as [-> |[-> |[-> |[]]]]; tauto.
Qed.
Lemma version_safe v : safe (comid_version_of v) (fun _ => True).
Proof.
  unfold comid_version_of. cor. eapply safe_mono; [apply (optional_safe _ _ _ (fun _ => True))|].
  - intros x _. destruct x; try done; unfold version_scheme; by cor.
  - intros sch _ _. by cor.
Qed.
Lemma corim_svn_safe v : safe (security_version v) (fun _ => True).
Proof. destruct v; try done; unfold security_version; by cor. Qed.
Lemma reference_digest_safe acc v : Forall digest_wf acc /\ NoDup acc ->
  safe (reference_digest acc v) (fun ds => (Forall digest_wf ds /\ NoDup ds) /\ blen ds = blen acc + 1).
Proof.
  intros [Hwf Hnd]. unfold reference_digest. cor.
  match goal with Hs : (blen ?b =? _) = true, Hx : negb (existsb _ _) = true |- _ =>
    apply N.eqb_eq in Hs; rename b into value, Hx into Hnew; apply negb_true_iff, not_true_iff_false in Hnew end.
  split; [split|by rewrite blen_app].
  - apply Forall_app. split; [done|]. apply Forall_singleton. unfold digest_wf. cbn. congruence.
  - apply NoDup_app. split; [done|]. split; [|apply NoDup_singleton]. intros d Hd ->%list_elem_of_singleton.
    apply Hnew, existsb_exists. eexists. split; [by apply list_elem_of_In|]. cbn.
    rewrite N.eqb_refl. by apply bytes_eqb_eq.
Qed.
Lemma digests_safe v : safe (l ← array v 1 32; for_each reference_digest [] l)
  (fun ds => (Forall digest_wf ds /\ NoDup ds) /\ 1 <= blen ds <= 32).
Proof.
  cor. eapply safe_mono; [apply (safe_prefix _ (fun pre ds => (Forall digest_wf ds /\ NoDup ds) /\ blen ds = blen pre))|].
  - split; [split; constructor|done].
  - intros pre x post ds _ [Hds Hl]. eapply safe_mono; [by apply reference_digest_safe|]. cbv beta. intros ds' _ [Hds' Hl'].
    split; [done|]. rewrite blen_app. change (blen [x]) with 1. lia.
  - cbv beta. intros ds _ [Hds Hl]. split; [done|lia].
Qed.
Lemma flags_safe v : safe (flags_of v) (fun fs => fs <> ∅ /\ forall k b, fs !! k = Some b -> k <= 9).
Proof.
  unfold flags_of. cor. rename H into Hm. eapply safe_mono; [apply (safe_for_each _ (fun fs : gmap N bool => forall k b, fs !! k = Some b -> k <= 9))|].
  - intros k b. by rewrite lookup_empty.
  - intros acc [z x] Hin Hacc. apply elem_of_map_to_list in Hin. unfold flag. cbn [fst snd]. destruct x; try done. cbn [safe].
    intros k b0. destruct (decide (k = Z.to_N z)) as [->|Hne]; [intros _|rewrite lookup_insert_ne by done; by apply Hacc].
    assert (z ∈ [0; 1; 2; 3; 4; 5; 6; 7; 8; 9]%Z) as Hz by (apply (fo_allowed _ _ _ Hm); eauto).
    rewrite !elem_of_cons, elem_of_nil in Hz. lia.
  - intros fs _ Hfs. cor. split; [|done]. by apply negb_true_iff, bool_decide_eq_false in H.
Qed.
Definition raw_wf (r : RawValue) : Prop := match r with RawExact _ => True | RawMasked value mask => 0 < blen value /\ blen mask = blen value end.
Lemma raw_value_safe v : safe (raw_value_of v) raw_wf.
Proof. destruct v; try done. unfold raw_value_of. cor; cbn; [done|]. bools. lia. Qed.
Definition range_wf (r : IntegerRange) : Prop :=
  forall a b, range_minimum r = Some a -> range_maximum r = Some b -> (a <= b)%Z.
Lemma range_end_safe v : safe (range_end v) (fun _ => True).
Proof. destruct v; try done. unfold range_end. by cor. Qed.
Lemma integer_range_safe v : safe (integer_range_of v) range_wf.
Proof.
  destruct v; try done; unfold integer_range_of; cor.
  - intros x y. cbn. intros [= <-] [= <-]. lia.
  - eapply safe_mono; [apply range_end_safe|]. intros lo _ _. cor. eapply safe_mono; [apply range_end_safe|]. intros hi _ _. cor.
    intros lo0 hi0. cbn. intros -> ->. bools. lia.
Qed.
Lemma measurement_values_safe v : safe (measurement_values v) values_wf.
Proof.
  unfold measurement_values. cor. apply negb_true_iff, bool_decide_eq_false in H0. pose proof (fields_some _ _ _ H H0) as (k & Hin & Hk). clear H H0.
  cor_optional version_safe. cor. cor_optional corim_svn_safe. cor. cor_optional digests_safe. cor. cor_optional flags_safe. cor. cor_optional raw_value_safe.
  cor. cor_optional text_wf_safe. cor. cor_optional integer_range_safe. cor.
  rename a2 into ds, a3 into fs. split; cbn.
  - destruct ds as [ds|]; cbn in *; [destruct_and?; split_and!; [done..|lia]|split_and!; [constructor..|done]].
  - destruct fs as [fs|]; cbn in *; [naive_solver|]. intros j b. by rewrite lookup_empty.
  - intros value mask ->. done.
  - intros r x y ->. cbn in *. eauto.
  - assert (is_Some ds -> default [] ds <> []) as Hds by (intros [l ->]; cbn in *; intros ->; destruct_and?; pose proof (blen_nil (A := ReferenceDigest)); lia).
    assert (is_Some fs -> default ∅ fs <> ∅) as Hfs by (intros [l ->]; cbn in *; by destruct_and?).
    rewrite !elem_of_cons, elem_of_nil in Hin. destruct Hin as [-> |[-> |[-> |[-> |[-> |[-> |[-> |[]]]]]]]]; tauto.
Qed.
Lemma measurement_key_safe v : safe (measurement_key v) identifier_wf.
Proof. destruct v; try done; unfold measurement_key; try apply typed_identifier_safe; by cor. Qed.
Lemma measurement_safe v : safe (measurement v) measurement_wf.
Proof.
  unfold measurement. cor. cor_optional measurement_key_safe. cor. eapply safe_mono; [apply measurement_values_safe|]. intros vs _ Hvs. cor. by split.
Qed.
Lemma reference_triple_safe v : safe (reference_triple v) reference_wf.
Proof.
  unfold reference_triple. cor. eapply safe_mono; [apply environment_safe|]. intros env _ He. cor.
  eapply safe_mono; [apply collect_safe; intros x1 _; apply measurement_safe|]. intros ms _ [Hms Hl]. cor. split; [done|]. split; [done|]. cbn. lia.
Qed.
Lemma dependency_triple_safe v : safe (dependency_triple v) dependency_wf.
Proof.
  unfold dependency_triple. cor. eapply safe_mono; [apply environment_safe|]. intros env _ He. cor.
  eapply safe_mono; [apply collect_safe; intros x1 _; apply environment_safe|]. intros ms _ [Hms Hl]. cor. split; [done|]. split; [done|]. cbn. lia.
Qed.
Lemma collected_safe {A} (f : Value -> res PkiError A) Q v : (forall x, safe (f x) Q) ->
  safe (l ← array v 1 256; collect f l) (fun ys => Forall Q ys /\ 1 <= blen ys <= 256).
Proof. intros Hf. cor. eapply safe_mono; [apply collect_safe; intros x _; apply Hf|]. intros ys _ [Hys Hl]. split; [done|lia]. Qed.
Lemma parse_comid_safe b : safe (parse_comid b) comid_wf.
Proof.
  unfold parse_comid. eapply safe_seq; [apply corim_decode_safe|]. intros value _ _. cor. eapply safe_mono; [apply manifest_id_safe|]. intros id _ Hid. cor.
  cor_optional unsigned_bound. cor. cor_optional text_wf_safe. cor. eapply safe_mono; [apply optional_entities_safe|]. intros es _ Hes. cor.
  eapply safe_mono; [apply optional_safe; intros v _; apply collected_safe, reference_triple_safe|]. intros refs _ [Hrefs _]. cbv zeta. wp_step. cor.
  eapply safe_mono; [apply optional_safe; intros v _; apply collected_safe, dependency_triple_safe|]. intros deps _ [Hdeps _]. cor.
  bools. split; cbn; [done..| |].
  - destruct refs as [refs|]; cbn in *; [done|]. by rewrite blen_nil in *.
  - destruct deps as [deps|]; cbn in *; [destruct_and?; split; [done|lia]|]. split; [constructor|done].
Qed.
Lemma corim_profile_safe v : safe (profile_of v) (fun _ => True).
Proof.
  destruct v; try done. unfold profile_of. cor; [by eapply safe_mono; [apply uri_safe|]|by eapply safe_mono; [apply oid_safe|]].
Qed.
Lemma concise_tag_safe v : safe (concise_tag v) comid_wf.
Proof. unfold concise_tag. cor. apply parse_comid_safe. Qed.
Lemma unique_comids_safe comids : safe (for_each unique_comid [] comids) (fun _ => NoDup (comid_id <$> comids)).
Proof.
  eapply safe_mono; [apply (safe_prefix _ (fun pre seen => seen = comid_id <$> pre /\ NoDup seen)); [split; [done|constructor]|]|].
  - intros pre c post seen _ [-> Hnd]. unfold unique_comid. cor. apply negb_true_iff, bool_decide_eq_false in H. rewrite fmap_app. split; [done|].
    apply NoDup_app. split; [done|]. split; [|apply NoDup_singleton]. by intros i Hi ->%list_elem_of_singleton.
  - by intros seen _ [-> Hnd].
Qed.
Lemma parse_payload_safe b now : safe (parse_payload b now) (claims_wf now).
Proof.
  unfold parse_payload. eapply safe_seq; [apply corim_decode_safe|]. intros value _ _. cor. eapply safe_mono; [apply manifest_id_safe|]. intros id _ Hid. cor.
  cor_optional corim_profile_safe. cor. cor_optional validity_safe. cor. eapply safe_mono; [apply optional_entities_safe|]. intros es _ Hes. cor.
  eapply safe_mono; [apply collect_safe; intros v _; apply concise_tag_safe|]. intros comids _ [Hc Hl]. cor.
  eapply safe_mono; [apply unique_comids_safe|]. intros ids _ Hu. cor. split; cbn; try done. split; [done|]. split; [done|lia].
Qed.
Lemma legacy_metadata_safe now v : safe (legacy_metadata now v) (signer_wf now).
Proof.
  unfold legacy_metadata. cor. eapply safe_mono; [apply corim_decode_safe|]. intros decoded _ _. cor. cor_optional uri_safe. cor. cor_optional validity_safe. cor.
  by split.
Qed.
Lemma cwt_metadata_safe now v : safe (cwt_metadata now v) (signer_wf now).
Proof.
  unfold cwt_metadata. cor. cor_optional unsigned_bound. cor.
  eapply safe_mono; [apply (optional_safe _ _ _ (fun x => in_force x now))|].
  - intros x _. cor. cbv zeta. eapply safe_mono; [apply check_validity_safe|]. by intros [] _ Hf.
  - intros val _ [Hv _]. cor. cor_optional text_wf_safe. cor. by split.
Qed.
Lemma signer_metadata_safe m now : safe (signer_metadata m now) (signer_wf now).
Proof.
  unfold signer_metadata. cor. cor_optional legacy_metadata_safe. cor. cor_optional cwt_metadata_safe.
  destruct a as [x|], a0 as [y|]; cbn in *; cor; try done. destruct H. by split.
Qed.
(** The claims of a manifest are well formed.  Reading a payload never panics.  A
    manifest that is read has one to 25 CoMID documents with distinct identities; each has
    at least one reference triple, whose environment names something and which lists one
    to 256 measurements; every measurement constrains something; a digest has the length
    of its algorithm and is listed once, a mask has the length of its value, a range is
    not inverted, a flag has a number up to 9; identifiers have the size of their type;
    and a validity interval contains the time of reading. *)
Theorem corim_claims_typed b now : safe (parse_payload b now) (claims_wf now).
Proof. apply parse_payload_safe. Qed.
End Claims.

(** ** Authenticity *)
Section Authentic.
Context `{X : X509} `{K : CpuCrypto} `{H : Sha2} `{GX : GpuX509} `{OF : OcspFormats} `{P : Spdm.P384} `{PK : !P384Keys P} `{CF : CorimFormats}.
Definition PROTECTED_FIELDS : list Z := [1; 2; 3; 4; 8; 15; 33; 34]%Z.
(** The headers: the algorithm and the content type are fixed and protected, nothing is
    in both headers, and every critical field is one that is read. *)
Record headers_ok (protected unprotected : Fields) : Prop := {
  ho_disjoint k : is_Some (unprotected !! k) -> protected !! k = None;
  ho_algorithm : protected !! 1%Z = Some (VInteger (-35));
  ho_content : protected !! 3%Z = Some (VText (lit "application/rim+cbor"));
  ho_critical v : protected !! 2%Z = Some v -> exists l, v = VArray l /\ 1 <= blen l <= 8 /\ NoDup l /\
    forall x, x ∈ l -> exists k, x = VInteger k /\ k <> 2%Z /\ is_Some (protected !! k);
}.
(** The certificates of the header, and what binds the first of them. *)
Definition listed_chain (v : Value) (certs : list bytes) : Prop :=
  (exists b, v = VBytes b /\ certs = [b]) \/ (v = VArray (VBytes <$> certs) /\ 2 <= blen certs <= 8).
Definition leaf_bound (protected : Fields) (certs : list bytes) : Prop :=
  (protected !! 34%Z = None -> is_Some (protected !! 33%Z)) /\
  forall v, protected !! 34%Z = Some v -> exists alg h first, v = VArray [VInteger alg; VBytes h] /\ head certs = Some first /\
    thumbprint_digest alg first = Ok h.
Definition uuid_string (id : bytes) : bytes :=
  let h := hex_encode id in
  take 8 h ++ HYPHEN ++ take 4 (drop 8 h) ++ HYPHEN ++ take 4 (drop 12 h) ++ HYPHEN ++ take 4 (drop 16 h) ++ HYPHEN ++ drop 20 h.
Definition subject_matches (signer : SignerMetadata) (claims : CorimClaims) : Prop :=
  forall s, signer_subject signer = Some s -> corim_id claims = IdText s \/ exists id, corim_id claims = IdUuid id /\ s = uuid_string id.
Record signed_corim (b : bytes) (roots : list Certificate) (now : N) (claims : CorimClaims) (signer : SignerMetadata) (certs : list Certificate) : Prop := {
  sc_envelope : exists pb u payload s pv protected unprotected x5chain listed leaf key sig message,
    decode b = Ok (VTag 18 (VArray [VBytes pb; u; VBytes payload; VBytes s])) /\
    decode pb = Ok pv /\ fields_of pv PROTECTED_FIELDS protected /\ fields_of u [33%Z] unprotected /\ headers_ok protected unprotected /\
    (protected !! 33%Z = Some x5chain \/ protected !! 33%Z = None /\ unprotected !! 33%Z = Some x5chain) /\
    listed_chain x5chain listed /\ leaf_bound protected listed /\
    validate_gpu_chain (concat listed) roots now GpuCert.Rim = Ok {| certificates := certs |} /\ head certs = Some leaf /\
    p384_from_der (spki_der leaf) = Some key /\ signature_from_slice s = Some sig /\
    cbor_into_writer (signature_structure pb payload) = Some message /\ p384_verify key message sig = true /\
    signer_metadata protected now = Ok signer /\ parse_payload payload now = Ok claims;
  sc_path : gpu_path roots now GpuCert.Rim certs;
  sc_claims : claims_wf now claims;
  sc_signer : signer_wf now signer;
  sc_subject : subject_matches signer claims;
}.
Lemma critical_safe protected v : safe (l ← array v 1 8; for_each (critical_header protected) ∅ l)
  (fun _ => exists l, v = VArray l /\ 1 <= blen l <= 8 /\ NoDup l /\ forall x, x ∈ l -> exists k, x = VInteger k /\ k <> 2%Z /\ is_Some (protected !! k)).
Proof.
  cor. eapply safe_mono; [apply (safe_prefix _ (fun pre (seen : gset Z) => NoDup pre /\ (forall k, VInteger k ∈ pre -> k ∈ seen) /\
    forall x, x ∈ pre -> exists k, x = VInteger k /\ k <> 2%Z /\ is_Some (protected !! k)))|].
  - split; [constructor|]. split; [by intros k ?%not_elem_of_nil|by intros x ?%not_elem_of_nil].
  - intros pre x post seen _ (Hnd & Hseen & Hall). unfold critical_header. cor. unfold contains_key in *. bools.
    match goal with Hk : x = VInteger ?k |- _ => subst x; rename k into key end. split; [|split].
    + apply NoDup_app. split; [done|]. split; [|apply NoDup_singleton]. intros y Hy ->%list_elem_of_singleton. by apply Hseen in Hy.
    + intros k [Hk|[= ->]%list_elem_of_singleton]%elem_of_app; [apply elem_of_union; right; by apply Hseen|set_solver].
    + intros y [Hy| ->%list_elem_of_singleton]%elem_of_app; [by apply Hall|]. exists key. split_and!; [done|by apply Z.eqb_neq|done].
  - cbv beta. intros _ _ (Hnd & _ & Hall). exists a. by split_and!.
Qed.
Lemma disjoint_headers (protected unprotected : Fields) : forallb (fun e => negb (contains_key protected e.1)) (map_to_list unprotected) = true ->
  forall k, is_Some (unprotected !! k) -> protected !! k = None.
Proof.
  intros Hall k [v Hv]. rewrite forallb_forall in Hall. specialize (Hall (k, v)). cbn in Hall. unfold contains_key in Hall.
  destruct (protected !! k); [|done]. discriminate Hall. by apply list_elem_of_In, elem_of_map_to_list.
Qed.
Ltac fix_headers :=
  match goal with Hd : forallb _ _ = true, Ha : (_ =? -35)%Z = true, Hc : bytes_eqb _ _ = true |- _ =>
    pose proof (disjoint_headers _ _ Hd); apply Z.eqb_eq in Ha; apply bytes_eqb_eq in Hc end; subst; split; try done;
  match goal with E : ?m !! 2%Z = _ |- forall v, ?m !! 2%Z = _ -> _ => rewrite E end.
Lemma check_headers_safe protected unprotected : safe (check_headers protected unprotected) (fun _ => headers_ok protected unprotected).
Proof.
  unfold check_headers. cor. eapply safe_mono; [apply (optional_safe _ _ _ (fun _ => True)); intros x _; by cor|]. intros kid _ _. cor.
  destruct (protected !! 2%Z) as [v|] eqn:E2.
  - unfold optional. rewrite E2. apply safe_bind. eapply safe_mono; [apply critical_safe|]. intros seen _ Hc. cor. fix_headers. by intros ? [= <-].
  - unfold optional. rewrite E2. cor. by fix_headers.
Qed.
Lemma collect_bstr_safe vs : safe (collect bstr vs) (fun l => vs = VBytes <$> l /\ blen l = blen vs).
Proof.
  induction vs as [|x vs IH]; cbn [collect]; [done|]. cor. eapply safe_mono; [exact IH|]. intros l _ [-> Hl]. cor.
  subst. split; [done|]. rewrite !blen_cons. lia.
Qed.
Lemma chain_certificates_safe v : safe (chain_certificates v) (fun l => listed_chain v l).
Proof.
  destruct v; try done; unfold chain_certificates; [left; eauto|]. cor. match goal with Hl : VArray _ = VArray _ |- _ => injection Hl as <- end.
  eapply safe_mono; [apply collect_bstr_safe|]. intros l _ [-> Hl]. right. rewrite Hl in *. done.
Qed.
Lemma header_chain_safe protected unprotected : safe (header_chain protected unprotected) (fun l => exists v, listed_chain v l /\
  (protected !! 33%Z = Some v \/ protected !! 33%Z = None /\ unprotected !! 33%Z = Some v)).
Proof.
  unfold header_chain. pki. apply safe_bind, safe_ok_or. intros v Hv. apply safe_bind. eapply safe_mono; [apply chain_certificates_safe|]. intros l _ Hl. cor.
  eapply safe_mono; [apply (safe_for_each _ (fun _ => True)); [done|]; intros [] x _ _; by cor|]. intros [] _ _. cor. exists v. split; [done|].
  destruct (protected !! 33%Z); [left; congruence|by right].
Qed.
Lemma thumbprint_digest_safe alg b : safe (thumbprint_digest alg b) (fun h => thumbprint_digest alg b = Ok h).
Proof. unfold thumbprint_digest. by repeat case_match. Qed.
Lemma two_values a (x y : Value) : 2 <= blen a -> blen a <= 2 -> get a 0 = Some x -> get a 1 = Some y -> a = [x; y].
Proof.
  intros H1 H2 [_ Hx]%get_Some [_ Hy]%get_Some. destruct a as [|x' [|y' [|]]]; rewrite ?blen_cons, ?blen_nil in *; try lia. change (N.to_nat 0) with 0%nat in Hx. change (N.to_nat 1) with 1%nat in Hy. by simplify_eq/=.
Qed.
Lemma four_values a (x y z w : Value) : 4 <= blen a -> blen a <= 4 -> get a 0 = Some x -> get a 1 = Some y -> get a 2 = Some z -> get a 3 = Some w ->
  a = [x; y; z; w].
Proof.
  intros H1 H2 [_ Hx]%get_Some [_ Hy]%get_Some [_ Hz]%get_Some [_ Hw]%get_Some.
  destruct a as [|? [|? [|? [|? [|]]]]]; rewrite ?blen_cons, ?blen_nil in *; try lia. by simplify_eq/=.
Qed.
Lemma thumbprint_safe certs v : certs <> [] ->
  safe (thumbprint certs v) (fun _ => exists alg h first, v = VArray [VInteger alg; VBytes h] /\ head certs = Some first /\ thumbprint_digest alg first = Ok h).
Proof.
  intros Hne. unfold thumbprint. do 6 cor_step. cor_step.
  apply safe_index; [destruct certs; [done|rewrite blen_cons; lia]|]. intros first [_ Hf]%get_Some. apply safe_bind.
  eapply safe_mono; [apply thumbprint_digest_safe|]. intros expected _ He. cor. bools. subst.
  match goal with Ha : get a 0 = Some ?x, Hb : get a 1 = Some ?y |- _ => rewrite (two_values a x y) by (done || lia) end.
  eexists _, _, first. split; [done|]. split; [|done]. destruct certs; [done|exact Hf].
Qed.
Lemma check_thumbprint_safe protected certs : certs <> [] -> safe (check_thumbprint protected certs) (fun _ => leaf_bound protected certs).
Proof.
  intros Hne. unfold check_thumbprint, contains_key. cor. rename H0 into Hc. unfold optional. destruct (protected !! 34%Z) as [v|] eqn:E.
  - apply safe_bind. eapply safe_mono; [by apply thumbprint_safe|]. intros [] _ Ht. cor. split; [by rewrite E|]. rewrite E. by intros ? [= <-].
  - cor. split; [|by rewrite E]. intros _. bools. destruct Hc as [?|[? [=]]]. done.
Qed.
Lemma uuid_text_safe id : blen id = 16 -> safe (uuid_text id) (fun s => s = uuid_string id).
Proof.
  intros Hl. assert (blen (hex_encode id) = 32) as Hh by (unfold blen in *; rewrite length_hex_encode; lia). unfold uuid_text, uuid_string. cbv zeta.
  rewrite !index_range_slice by lia. repeat ok_step. apply safe_bind, safe_index_from; [lia|]. reflexivity.
Qed.
Lemma check_subject_safe signer claims : manifest_id_wf (corim_id claims) -> safe (check_subject signer claims) (fun _ => subject_matches signer claims).
Proof.
  intros Hid. unfold check_subject. destruct (signer_subject signer) as [s|] eqn:Es; [|cbn; intros s Hs; congruence].
  apply (safe_seq _ _ (fun x => corim_id claims = IdText x \/ exists id, corim_id claims = IdUuid id /\ x = uuid_string id)).
  - destruct (corim_id claims); try done; [by left|]. eapply safe_mono; [by apply uuid_text_safe|]. right. eauto.
  - intros x _ Hx. pki. apply safe_ensure. intros ->%bytes_eqb_eq s' Hs'. rewrite Es in Hs'. by injection Hs' as ->.
Qed.
Context {HL : Sha2Laws H}.
Lemma listed_nonempty v l : listed_chain v l -> l <> [].
Proof. intros [(b & _ & ->)|[_ Hl]]; [done|]. intros ->. rewrite blen_nil in Hl. lia. Qed.
Lemma corim_signature_safe b roots now : safe (verify_corim_signature_and_chain b roots now) (fun v =>
  signed_corim b roots now (svc_claims v) (svc_signer v) (certificates (svc_chain v)) /\ svc_source_sha384 v = sha384 b).
Proof.
  unfold verify_corim_signature_and_chain. eapply safe_seq; [apply corim_decode_safe|]. intros env Henv _. apply safe_bind. cor_use @tag_safe. subst env.
  apply safe_bind. cor_use @array_safe. rename a0 into fields. subst a. pki. cor_step. cor_step. rename x into f0. cor_step. cor_use @bstr_safe. subst f0. rename a into pb.
  eapply safe_seq; [apply corim_decode_safe|]. intros pv Hpv _. cor_step. cor_use @map_fields_safe. rename a into protected. cor_step. cor_step. rename x into u.
  cor_step. cor_use @map_fields_safe. rename a into unprotected. eapply safe_seq; [apply check_headers_safe|]. intros [] _ Hheaders.
  eapply safe_seq; [apply header_chain_safe|]. intros listed _ (v33 & Hlisted & H33). eapply safe_seq; [by eapply check_thumbprint_safe, listed_nonempty|].
  intros [] _ Hbound. eapply safe_seq; [apply validate_gpu_chain_safe|]. intros [certs] Hchain Hpath. cbn [certificates] in *.
  cor_step. cor_step. rename x into f2. cor_step. cor_use @bstr_safe. subst f2. rename a into payload.
  cor_step. cor_step. rename x into f3. cor_step. cor_use @bstr_safe. subst f3. rename a into s. apply safe_bind, safe_ok_or. intros sig Hsig.
  apply safe_bind, safe_index; [pose proof (gp_size _ _ _ _ Hpath); lia|]. intros leaf [_ Hleaf]%get_Some. apply safe_bind, safe_ok_or. intros key Hkey.
  apply safe_bind, safe_ok_or. intros message Hm. apply safe_bind, safe_ensure. intros Hv.
  eapply safe_seq; [apply signer_metadata_safe|]. intros signer Hsigner Hsw. eapply safe_seq; [apply parse_payload_safe|]. intros claims Hclaims Hcw.
  eapply safe_seq; [eapply check_subject_safe, cl_id; exact Hcw|]. intros [] _ Hsub. cbn [safe svc_claims svc_signer svc_chain svc_source_sha384 certificates].
  split; [|done]. split; [|done..]. exists pb, u, payload, s, pv, protected, unprotected, v33, listed, leaf, key, sig, message.
  split_and!; try done. { rewrite Henv. do 4 f_equal. by apply four_values. } { by destruct certs. }
Qed.
Lemma verify_corim_safe b roots e now : safe (verify_corim b roots e now) (fun v => exists certs,
  signed_corim b roots now (vc_claims v) (vc_signer v) certs /\ chain_good certs e now /\ vc_source_sha384 v = sha384 b).
Proof.
  unfold verify_corim. eapply safe_seq; [apply corim_signature_safe|]. intros v _ [Hs Hd]. eapply safe_seq; [apply check_chain_safe|].
  intros [] _ Hc. cbn. eauto.
Qed.
(** C31: an accepted manifest is authentic.  Verification never panics.  An accepted
    document is an envelope whose protected header fixes ES384 and the content type and
    has no critical field that is not read; whose certificates, in one header, give a
    valid path for manifests to one of the roots, with nothing but good status now; whose
    first certificate is in the protected header or is bound there by a digest; and whose
    signature verifies under the key of the leaf over the protected bytes and the payload.
    The claims and the signer are what those very bytes say; they are well formed, in
    force now, and agree on the subject. *)
Theorem corim_sound b roots e now : safe (verify_corim b roots e now) (fun v => exists certs,
  signed_corim b roots now (vc_claims v) (vc_signer v) certs /\ chain_good certs e now /\ vc_source_sha384 v = sha384 b).
Proof. apply verify_corim_safe. Qed.
End Authentic.

(** ** A concrete manifest

    Each document is one byte; the reader gives it its value. *)
Definition corim_message : bytes := lit "Signature1" ++ [x01] ++ [x02].
Definition sample_envelope : Value := VTag 18 (VArray [VBytes [x01]; VMap []; VBytes [x02]; VBytes (take 8 (sha384 (Sha2 := toy_sha2) corim_message))]).
Definition sample_header (expiration : Z) : Value := VMap [
  (VInteger 1, VInteger (-35)); (VInteger 3, VText (lit "application/rim+cbor")); (VInteger 33, VBytes [x22]);
  (VInteger 15, VMap [(VInteger 1, VText (lit "NVIDIA")); (VInteger 2, VText (lit "gpu-rim")); (VInteger 4, VInteger expiration)])].
Definition sample_payload : Value := VTag 501 (VMap [(VInteger 0, VText (lit "gpu-rim")); (VInteger 1, VArray [VTag 506 (VBytes [x03])])]).
Definition sample_comid : Value := VMap [
  (VInteger 1, VMap [(VInteger 0, VText (lit "comid"))]);
  (VInteger 4, VMap [(VInteger 0, VArray [VArray [
    VMap [(VInteger 0, VMap [(VInteger 1, VText (lit "NVIDIA"))])];
    VArray [VMap [(VInteger 1, VMap [(VInteger 2, VArray [VArray [VInteger 7; VBytes (replicate 48 x31)]])])]]]])])].
Definition corim_formats (expiration : Z) : CorimFormats := {|
  cbor_from_reader := fun _ b => match b with
    | [x00] => Some (sample_envelope, []) | [x01] => Some (sample_header expiration, []) | [x02] => Some (sample_payload, [])
    | [x03] => Some (sample_comid, []) | _ => None end;
  cbor_into_writer := fun v => match v with VArray [VText t; VBytes a; VBytes b; VBytes c] => Some (t ++ a ++ b ++ c) | _ => None end;
  oid_from_bytes := Some |}.
Notation sample_corim expiration := (verify_corim (X := toy_x509) (K := toy_cpu) (H := toy_sha2) (GX := toy_gpu_x509) (OF := toy_ocsp)
  (PK := toy_p384_keys) (CF := corim_formats expiration) [x00] [sample_root] list_evidence 15).
Example corim_accepted : is_ok (sample_corim 16%Z) = true.
Proof. vm_compute. reflexivity. Qed.
Example corim_expired : sample_corim 15%Z = Err (PkiMsg "CoRIM validity expired").
Proof. vm_compute. reflexivity. Qed.
Lemma corim_sound_witness : exists v certs, sample_corim 16%Z = Ok v /\
  signed_corim (X := toy_x509) (K := toy_cpu) (H := toy_sha2) (GX := toy_gpu_x509) (PK := toy_p384_keys) (CF := corim_formats 16)
    [x00] [sample_root] 15 (vc_claims v) (vc_signer v) certs.
Proof.
  pose proof (corim_sound (X := toy_x509) (K := toy_cpu) (H := toy_sha2) (GX := toy_gpu_x509) (OF := toy_ocsp)
    (PK := toy_p384_keys) (CF := corim_formats 16) (HL := toy_sha2_laws) [x00] [sample_root] list_evidence 15) as Hs.
  pose proof corim_accepted as Hok. destruct (sample_corim 16%Z) as [v|e| |]; [|discriminate Hok..]. destruct Hs as (certs & Hv & _).
  exists v, certs. split; [reflexivity|exact Hv].
Defined.
