(* ===== verification/Effects.v ===== *)
(** * Effects: computations over a state that survives errors

    A function that takes [&mut] state, or that talks to the operating system, leaves a
    state behind also when it fails.  A computation of [V E St A] returns its outcome
    together with the state it leaves, whatever the outcome.  [vsafe] is its program
    logic: what the state satisfies after an error, and what value and state satisfy
    after a success; panics and exhausted fuel are excluded. *)
From S2P Require Import Prelude.

Section State.
Context {E St : Type}.

Definition V (A : Type) : Type := St -> res E A * St.
#[global] Instance V_ret : MRet V := fun A a s => (Ok a, s).
#[global] Instance V_bind : MBind V := fun A B f c s =>
  match c s with
  | (Ok a, s') => f a s'
  | (Err e, s') => (Err e, s')
  | (Panic, s') => (Panic, s')
  | (NoFuel, s') => (NoFuel, s')
  end.
Definition lift {A} (r : res E A) : V A := fun s => (r, s).
Definition state : V St := fun s => (Ok s, s).
Definition modify (f : St -> St) : V unit := fun s => (Ok tt, f s).
Definition fails {A} (e : E) : V A := fun s => (Err e, s).
(** [if c { m }] *)
Definition when (c : bool) (m : V unit) : V unit := if c then m else mret tt.

(** [vsafe m I Q s]: from [s], [m] neither panics nor runs out of fuel; the state it leaves
    satisfies [I] when it fails, and value and state satisfy [Q] when it succeeds. *)
Definition vsafe {A} (m : V A) (I : St -> Prop) (Q : A -> St -> Prop) (s : St) : Prop :=
  match m s with
  | (Ok a, s') => Q a s'
  | (Err _, s') => I s'
  | _ => False
  end.

Lemma vsafe_bind {A B} (m : V A) (f : A -> V B) I Q s :
  vsafe m I (fun a s' => vsafe (f a) I Q s') s -> vsafe (m ≫= f) I Q s.
Proof. unfold vsafe, mbind, V_bind. by destruct (m s) as [[a|e| |] s']. Qed.
Lemma vsafe_seq {A B} (m : V A) (f : A -> V B) I P Q s :
  vsafe m I P s -> (forall a s', P a s' -> vsafe (f a) I Q s') -> vsafe (m ≫= f) I Q s.
Proof. intros Hm Hf. apply vsafe_bind. revert Hm. unfold vsafe at 1 2. destruct (m s) as [[a|e| |] s']; try done. apply Hf. Qed.
Lemma vsafe_mono {A} (m : V A) (I : St -> Prop) (P Q : A -> St -> Prop) s :
  vsafe m I P s -> (forall a s', P a s' -> Q a s') -> vsafe m I Q s.
Proof. unfold vsafe. destruct (m s) as [[a|e| |] s']; auto. Qed.
Lemma vsafe_ret {A} (a : A) I (Q : A -> St -> Prop) s : Q a s -> vsafe (mret a) I Q s.
Proof. done. Qed.
Lemma vsafe_lift {A} (r : res E A) (I : St -> Prop) (Q : A -> St -> Prop) s :
  I s -> safe r (fun a => Q a s) -> vsafe (lift r) I Q s.
Proof. unfold vsafe, lift. by destruct r. Qed.
Lemma vsafe_pure {A} (r : res E A) a (I : St -> Prop) (Q : A -> St -> Prop) s : r = Ok a -> Q a s -> vsafe (lift r) I Q s.
Proof. by intros ->. Qed.
Lemma vsafe_need (c : bool) (e : E) (I : St -> Prop) (Q : unit -> St -> Prop) s :
  I s -> (c = true -> Q tt s) -> vsafe (lift (ensure c e)) I Q s.
Proof. intros Hi HQ. apply vsafe_lift; [done|]. by apply safe_ensure. Qed.
Lemma vsafe_some {A} (o : option A) (e : E) (I : St -> Prop) (Q : A -> St -> Prop) s :
  I s -> (forall a, o = Some a -> Q a s) -> vsafe (lift (ok_or o e)) I Q s.
Proof. intros Hi HQ. apply vsafe_lift; [done|]. by apply safe_ok_or. Qed.
Lemma vsafe_state (I : St -> Prop) (Q : St -> St -> Prop) s : Q s s -> vsafe state I Q s.
Proof. done. Qed.
Lemma vsafe_modify f (I : St -> Prop) (Q : unit -> St -> Prop) s : Q tt (f s) -> vsafe (modify f) I Q s.
Proof. done. Qed.
Lemma vsafe_fails {A} e (I : St -> Prop) (Q : A -> St -> Prop) s : I s -> vsafe (fails e) I Q s.
Proof. done. Qed.
(** A run that succeeds has the value and the state that are promised. *)
Lemma vsafe_run {A} (m : V A) I (Q : A -> St -> Prop) s : vsafe m I Q s ->
  (match (m s).1 with Ok _ => true | _ => false end) = true -> exists a s', m s = (Ok a, s') /\ Q a s'.
Proof. unfold vsafe. destruct (m s) as [[a|e| |] s']; try done. by exists a, s'. Qed.
End State.
Arguments V E St A : clear implicits.

(** [e.into()] in a [?]: another error type, the same state. *)
Definition converts {E F St A} (f : E -> F) (m : V E St A) : V F St A := fun s => let '(r, s') := m s in (map_err f r, s').
Lemma vsafe_converts {E F St A} (f : E -> F) (m : V E St A) (I : St -> Prop) (Q : A -> St -> Prop) s :
  vsafe m I Q s -> vsafe (converts f m) I Q s.
Proof. unfold vsafe, converts. by destruct (m s) as [[a|e| |] s']. Qed.
