(* ===== verification/Host.v ===== *)
(** * Host: the operating system as an oracle, and the trace of what was asked of it

    The collectors of evidence under [src/v2/src/tee] create directories, read and write
    files, run tools and call drivers.  A computation of [IO E A] extends a [Trace], the
    list of the operations performed so far, oldest first.  The operating system is a
    class of functions from the trace and the arguments of an operation to its outcome:
    an answer may depend on everything that happened before, and nothing is assumed of it.

    [tidy]: the removal of every directory that was created is requested later (the request
    may fail: the drop guards of the code ignore its outcome), every process that was started
    is waited for, and the removal of nothing else is requested. *)
From S2P Require Import Prelude Bytes Text Effects.

Inductive Event : Type :=
| Looked (path : bytes)
| Drew
| Created (dir : bytes) (made : bool)
(** the removal was requested; whether it succeeds is [remove_dir] *)
| Removed (dir : bytes)
| Wrote (path content : bytes)
| Read (path : bytes)
| Called (device request : bytes)
| Started (pid : N) (program : bytes) (args : list bytes)
| Refused (program : bytes)
| Drained (pid : N) (stderr : bool)
| Polled (pid : N)
| Slept (nanos : N)
| Killed (pid : N)
| Reaped (pid : N)
| Driver_opened (fd : Z)
| Attested (fd : Z) (user_data public_key : bytes)
| Driver_closed (fd : Z)
| Asked_time.
Definition Trace : Type := list Event.

Inductive DirOutcome : Type := DirMade | DirExists | DirFailed.
Inductive ReadOutcome : Type := NotFound | OpenFailed | ReadFailed | Content (b : bytes).
Class Host := {
  (** [Path::try_exists] *)
  try_exists : Trace -> bytes -> option bool;
  (** sixteen bytes of [OsRng] *)
  draw16 : Trace -> option bytes;
  make_dir : Trace -> bytes -> DirOutcome;
  (** [remove_dir]: whether it succeeds *)
  remove_dir : Trace -> bytes -> bool;
  write_to : Trace -> bytes -> bytes -> bool;
  (** open, then read at most so many bytes *)
  read_at_most : Trace -> bytes -> N -> ReadOutcome;
  process_id : N;
  (** seconds since the epoch, unless the clock is before it *)
  clock_at : Trace -> option N;
}.

Notation IO E := (V E Trace).
(** One operation: its event and its outcome. *)
Definition act {E A} (f : Trace -> Event * A) : IO E A := fun t => (Ok (f t).2, t ++ [(f t).1]).
(** [Drop] of a guard that a success has disarmed. *)
Definition undo_on_error {E A} (dir : bytes) (m : IO E A) : IO E A := fun t =>
  match m t with (Ok a, t') => (Ok a, t') | (r, t') => (r, t' ++ [Removed dir]) end.
(** [Drop] of a guard at the end of its scope. *)
Definition finally_remove {E A} (dir : bytes) (m : IO E A) : IO E A := fun t =>
  let '(r, t') := m t in (r, t' ++ [Removed dir]).

Definition slash : byte := x2f.
Definition join (dir name : bytes) : bytes := dir ++ [slash] ++ name.

Section Operations.
Context `{OS : Host} {E : Type}.
Definition exists_ (path : bytes) : IO E (option bool) := act (fun t => (Looked path, try_exists t path)).
Definition draw : IO E (option bytes) := act (fun t => (Drew, draw16 t)).
Definition mkdir (dir : bytes) : IO E DirOutcome :=
  act (fun t => (Created dir (match make_dir t dir with DirMade => true | _ => false end), make_dir t dir)).
Definition rmdir (dir : bytes) : IO E bool := act (fun t => (Removed dir, remove_dir t dir)).
Definition write_file (path content : bytes) : IO E bool := act (fun t => (Wrote path content, write_to t path content)).
Definition read_file (path : bytes) (n : N) : IO E ReadOutcome := act (fun t => (Read path, read_at_most t path n)).
Definition now_secs : IO E (option N) := act (fun t => (Asked_time, clock_at t)).
End Operations.

(** ** Traces *)
Inductive Resource : Type := Directory (d : bytes) | Child (pid : N).
Definition acquires (e : Event) : option Resource :=
  match e with Created d true => Some (Directory d) | Started pid _ _ => Some (Child pid) | _ => None end.
Definition releases (e : Event) : option Resource :=
  match e with Removed d => Some (Directory d) | Reaped pid => Some (Child pid) | _ => None end.
Definition quiet_event (e : Event) : bool := match acquires e, releases e with None, None => true | _, _ => false end.
Definition quiet_trace (l : Trace) : Prop := Forall (fun e => quiet_event e = true) l.
Record tidy (l : Trace) : Prop := {
  td_released pre e r post : l = pre ++ e :: post -> acquires e = Some r -> exists e', e' ∈ post /\ releases e' = Some r;
  td_owned pre e r post : l = pre ++ e :: post -> releases e = Some r -> exists e', e' ∈ pre /\ acquires e' = Some r;
}.
(** [t'] extends [t] by events that satisfy [P]. *)
Definition extends (P : Trace -> Prop) (t t' : Trace) : Prop := exists l, t' = t ++ l /\ P l.

Lemma extends_app P t l : P l -> extends P t (t ++ l).
Proof. intros. by exists l. Qed.
Lemma extends_trans (P Q S : Trace -> Prop) t t' t'' :
  (forall l l', P l -> Q l' -> S (l ++ l')) -> extends P t t' -> extends Q t' t'' -> extends S t t''.
Proof. intros HS (l & -> & Hl) (l' & -> & Hl'). exists (l ++ l'). split; [by rewrite app_assoc|by apply HS]. Qed.

Lemma split_app {A} (l1 l2 pre post : list A) x : l1 ++ l2 = pre ++ x :: post ->
  (exists mid, l1 = pre ++ x :: mid /\ post = mid ++ l2) \/ (exists mid, pre = l1 ++ mid /\ l2 = mid ++ x :: post).
Proof.
  intros He. destruct (app_eq_inv _ _ _ _ He) as [(k & -> & H2)|(k & -> & H2)]; [|right; by exists k].
  destruct k as [|y k]; [right; exists []; rewrite !app_nil_r; by split|]. injection H2 as <- ->. left. by exists k.
Qed.
Lemma tidy_nil : tidy [].
Proof. split; intros pre e r post He; by destruct pre. Qed.
Lemma tidy_app l l' : tidy l -> tidy l' -> tidy (l ++ l').
Proof.
  intros [H1 H2] [H1' H2']. split; intros pre e r post [(mid & -> & ->)|(mid & -> & ->)]%split_app Hr.
  - destruct (H1 _ _ _ _ eq_refl Hr) as (e' & He & Hr'). exists e'. split; [apply elem_of_app; by left|done].
  - by eapply H1'.
  - by eapply H2.
  - destruct (H2' _ _ _ _ eq_refl Hr) as (e' & He & Hr'). exists e'. split; [apply elem_of_app; by right|done].
Qed.
Lemma quiet_none e : quiet_event e = true -> acquires e = None /\ releases e = None.
Proof. unfold quiet_event. by destruct (acquires e), (releases e). Qed.
Lemma tidy_quiet l : quiet_trace l -> tidy l.
Proof.
  intros Hq. split; intros pre e r post -> Hr; apply Forall_app in Hq as [_ Hq]; inversion Hq as [|? ? He _]; subst;
    apply quiet_none in He as [Ha He]; congruence.
Qed.
Lemma acquires_releases e r : acquires e = Some r -> releases e = None.
Proof. by destruct e as [| |d [|]| | | | | | | | | | | | | | |]. Qed.
(** A resource of one's own, around anything tidy; letting go of it again is harmless. *)
Lemma tidy_around e l n e' r : acquires e = Some r -> releases e' = Some r -> tidy l -> tidy (e :: l ++ replicate (S n) e').
Proof.
  intros Ha Hr [H1 H2]. pose proof (acquires_releases e r Ha) as Hno.
  assert (acquires e' = None) as Hno' by (destruct (acquires e') eqn:Ha'; [by apply acquires_releases in Ha'; congruence|done]).
  assert (forall x mid post, replicate (S n) e' = mid ++ x :: post -> x = e') as Hrep.
  { intros x mid post Hs. assert (x ∈ replicate (S n) e') as Hi by (rewrite Hs; apply elem_of_app; right; by left). by apply elem_of_replicate in Hi as [? _]. }
  split; intros pre x r' post Hs Hx; (destruct pre as [|y pre]; injection Hs as Heq Hs; [subst x|subst y]).
  - subst post. rewrite Ha in Hx. injection Hx as <-. exists e'. split; [apply elem_of_app; right; by left|done].
  - apply split_app in Hs as [(mid & -> & ->)|(mid & -> & Hr')]; [|apply Hrep in Hr'; congruence].
    destruct (H1 _ _ _ _ eq_refl Hx) as (z & Hz & Hzr). exists z. split; [apply elem_of_app; by left|done].
  - congruence.
  - apply split_app in Hs as [(mid & -> & ->)|(mid & -> & Hr')].
    + destruct (H2 _ _ _ _ eq_refl Hx) as (z & Hz & Hzr). exists z. split; [by right|done].
    + apply Hrep in Hr' as ->. exists e. split; [by left|congruence].
Qed.
Lemma tidy_bracket d l n : tidy l -> tidy (Created d true :: l ++ replicate (S n) (Removed d)).
Proof. by apply tidy_around with (r := Directory d). Qed.
Lemma extends_tidy_trans t t1 t2 : extends tidy t t1 -> extends tidy t1 t2 -> extends tidy t t2.
Proof. apply extends_trans, tidy_app. Qed.

(** ** Program logic *)
Section Rules.
Context {E : Type}.
Lemma vsafe_act {A} (f : Trace -> Event * A) (I : Trace -> Prop) (Q : A -> Trace -> Prop) t :
  Q (f t).2 (t ++ [(f t).1]) -> vsafe (act f : IO E A) I Q t.
Proof. done. Qed.
Lemma vsafe_undo {A} d (m : IO E A) (I J : Trace -> Prop) (Q : A -> Trace -> Prop) t :
  vsafe m J Q t -> (forall t', J t' -> I (t' ++ [Removed d])) -> vsafe (undo_on_error d m) I Q t.
Proof. unfold vsafe, undo_on_error. destruct (m t) as [[a|e| |] t']; auto. Qed.
Lemma vsafe_finally {A} d (m : IO E A) (I J : Trace -> Prop) (Q R : A -> Trace -> Prop) t :
  vsafe m J R t -> (forall t', J t' -> I (t' ++ [Removed d])) -> (forall a t', R a t' -> Q a (t' ++ [Removed d])) ->
  vsafe (finally_remove d m) I Q t.
Proof. unfold vsafe, finally_remove. destruct (m t) as [[a|e| |] t']; auto. Qed.
Lemma vsafe_weaken {A} (m : IO E A) (I J : Trace -> Prop) (Q : A -> Trace -> Prop) t :
  vsafe m J Q t -> (forall t', J t' -> I t') -> vsafe m I Q t.
Proof. unfold vsafe. destruct (m t) as [[a|e| |] t']; auto. Qed.
End Rules.
