(* ===== verification/Tsm.v ===== *)
(** * Tsm: evidence of TDX and SEV-SNP guests
    ([src/v2/src/tee/detect.rs], [tee/tdx.rs], [tee/snp.rs])

    Linux exposes a guest's attestation through configfs: a directory is created for a
    request, the report data is written to it, the quote is read from it, and the
    directory is removed ([TsmRequest], whose [Drop] removes it on error paths).  SEV-SNP
    guests without configfs use an ioctl instead ([SnpDevice]).

    [tsm_session]: a collection that succeeds performs exactly the operations of one
    session in this order, and one that fails still asks for the removal of its directory.  What is
    collected echoes the report data, and the certificate table of a collected SNP report
    is one that the verifier's own parser ([SnpQuote]) accepts. *)
From S2P Require Import Prelude Bytes Ranges Text Crypto Eat Pki TdxQuote SnpQuote Effects Host.

Inductive TeeError : Type :=
| DeviceNotFound (m : string)
| IoctlError
| InvalidResponse (m : string)
| NoTeeDetected.
Record TeeEvidence : Type := {
  te_platform : Platform; raw_quote : bytes; te_cert_chain : list bytes; kms_private_key : option bytes;
}.
Notation TIO := (IO TeeError).
Definition tee_need (c : bool) (m : string) : TIO unit := lift (ensure c (InvalidResponse m)).
Definition tee_some {A} (o : option A) (e : TeeError) : TIO A := lift (ok_or o e).

(** ** [detect.rs]: configfs requests *)
Definition TSM_REPORT_BASE : bytes := lit "/sys/kernel/config/tsm/report".

Section Requests.
Context `{OS : Host}.

Definition path_exists (path : bytes) : TIO bool := e ← exists_ path; tee_some e (DeviceNotFound "inspect").
Definition tsm_create (base purpose : bytes) : TIO bytes :=
  r ← draw;
  suffix ← tee_some r (InvalidResponse "configfs request randomness unavailable");
  let path := join base (lit "uq-" ++ purpose ++ lit "-" ++ to_decimal process_id ++ lit "-" ++ hex_encode suffix) in
  made ← mkdir path;
  lift (ensure (match made with DirMade => true | _ => false end) (DeviceNotFound "create configfs report"));;
  mret path.
Definition optional_blob (path name : bytes) (limit : N) : TIO (option bytes) :=
  r ← read_file (join path name) (limit + 1);
  match r with
  | NotFound => mret None
  | OpenFailed => fails (InvalidResponse "open configfs")
  | ReadFailed => fails (InvalidResponse "read configfs")
  | Content b => tee_need (blen b <=? limit) "configfs blob exceeds limit";; mret (Some b)
  end.
Definition read_blob (path name : bytes) (limit : N) : TIO bytes :=
  o ← optional_blob path name limit; tee_some o (InvalidResponse "configfs blob is missing").
Definition provider (path : bytes) : TIO bytes :=
  b ← read_blob path (lit "provider") 128;
  v ← tee_some (from_utf8 b) (InvalidResponse "configfs provider is not UTF-8");
  let value := default v (strip_suffix_byte x0a v) in
  tee_need (negb (blen value =? 0) && forallb (fun c => is_ascii_alphanumeric c || Byte.eqb c x5f) value)
    "empty or malformed configfs provider";;
  mret value.
Definition require_provider (path expected : bytes) : TIO unit :=
  actual ← provider path; tee_need (bytes_eqb actual expected) "configfs provider differs".
Definition write_report_data (path report_data : bytes) : TIO unit :=
  ok ← write_file (join path (lit "inblob")) report_data; tee_need ok "write configfs inblob".
Definition finish (path : bytes) : TIO unit := ok ← rmdir path; tee_need ok "remove configfs report".
(** A request: created, used, finished; dropped when anything fails. *)
Definition with_request {A} (base purpose : bytes) (body : bytes -> TIO A) : TIO A :=
  path ← tsm_create base purpose;
  undo_on_error path (a ← body path; finish path;; mret a).
End Requests.

(** ** [tdx.rs] *)
Definition MAX_QUOTE_BYTES : N := 128 * 1024.
Definition MAX_AUX_BYTES : N := 1024 * 1024.
Definition TDX_GUEST : bytes := lit "tdx_guest".
Definition validate_quote_structure (quote report_data : bytes) : res TeeError unit :=
  reject_if ((blen quote <? 636 + 134) || (MAX_QUOTE_BYTES <? blen quote)) (InvalidResponse "TDX DCAP quote length out of bounds");;
  v ← index_range quote 0 2; k ← index_range quote 2 4; t ← index_range quote 4 8;
  reject_if (negb (bytes_eqb v (N_to_le 2 4)) || negb (bytes_eqb k (N_to_le 2 2)) || negb (bytes_eqb t (N_to_le 4 0x81)))
    (InvalidResponse "requires TDX DCAP v4 ECDSA-P256 quote");;
  s ← index_range quote 632 636;
  reject_if (negb (le_to_N s =? blen quote - 636)) (InvalidResponse "TDX quote signature framing mismatch");;
  rd ← index_range quote 568 632;
  reject_if (negb (bytes_eqb rd report_data)) (InvalidResponse "TDX REPORTDATA does not match this collection request").

Section Tdx.
Context `{OS : Host}.
Definition TdxProvider_new : TIO unit :=
  e ← path_exists TSM_REPORT_BASE;
  lift (ensure e (DeviceNotFound "TDX full-quote collection requires configfs-TSM"));;
  with_request TSM_REPORT_BASE (lit "tdx-probe") (fun p => require_provider p TDX_GUEST).
Definition collect_tdx_evidence (report_data : bytes) : TIO TeeEvidence :=
  with_request TSM_REPORT_BASE (lit "tdx") (fun p =>
    require_provider p TDX_GUEST;;
    write_report_data p report_data;;
    quote ← read_blob p (lit "outblob") MAX_QUOTE_BYTES;
    lift (validate_quote_structure quote report_data);;
    aux ← optional_blob p (lit "auxblob") MAX_AUX_BYTES;
    require_provider p TDX_GUEST;;
    mret {| te_platform := Tdx; raw_quote := quote;
            te_cert_chain := match aux with Some b => if blen b =? 0 then [] else [b] | None => [] end; kms_private_key := None |}).
End Tdx.

(** ** [snp.rs] *)
Definition SEV_GUEST_DEVICE : bytes := lit "/dev/sev-guest".
Definition REPORT_BYTES : N := 1184.
Definition RESPONSE_BYTES : N := 4000.
Definition MAX_CERT_TABLE_BYTES : N := 0x4000.
Definition SEV_GUEST : bytes := lit "sev_guest".
(** What [SNP_GET_EXT_REPORT] left in the caller's buffers. *)
Record SnpCall : Type := {
  sc_failed : bool; exitinfo2 : N; sc_response : bytes; sc_certs : bytes; certs_len : N;
}.
Class SnpDevice `{Host} := {
  (** the host runs Linux on x86-64 *)
  linux_x86_64 : bool;
  open_device : Trace -> bytes -> bool;
  snp_get_ext_report : Trace -> bytes -> SnpCall;
}.
Arguments SnpDevice H : clear implicits.

Definition validate_report (report report_data : bytes) : res TeeError unit :=
  reject_if (negb (blen report =? REPORT_BYTES)) (InvalidResponse "SNP signed report must be exactly 1184 bytes");;
  v ← index_range report 0 4;
  reject_if (negb ((le_to_N v =? 2) || (le_to_N v =? 5))) (InvalidResponse "unsupported SNP report version");;
  a ← index_range report 0x34 0x38;
  reject_if (negb (bytes_eqb a (N_to_le 4 1))) (InvalidResponse "SNP report signature algorithm must be ECDSA-P384-SHA384");;
  rd ← index_range report 0x50 0x90;
  reject_if (negb (bytes_eqb rd report_data)) (InvalidResponse "SNP REPORT_DATA does not match this collection request").

Definition malformed_table : TeeError := InvalidResponse "malformed SNP certificate table".
Record CertScan : Type := { sn_position : N; sn_guids : gset bytes; sn_entries : list (N * N) }.
(** The loop: the end of the table and the ranges of its entries. *)
Fixpoint scan_entries (fuel : nat) (data : bytes) (st : CertScan) : res TeeError (N * list (N * N)) :=
  match fuel with
  | O => NoFuel
  | S fuel =>
    entry ← ok_or (get_range data (sn_position st) (sn_position st + 24)) malformed_table;
    let position := sn_position st + 24 in
    guid ← index_range entry 0 16; ob ← index_range entry 16 20; lb ← index_range entry 20 24;
    let offset := le_to_N ob in let length := le_to_N lb in
    if bytes_eqb guid (replicate 16 x00) then
      reject_if (negb (offset =? 0) || negb (length =? 0)) malformed_table;; Ok (position, sn_entries st)
    else
      reject_if (bool_decide (guid ∈ sn_guids st) || (32 <=? blen (sn_entries st)) || (length =? 0)) malformed_table;;
      stop ← ok_or (checked_add usize_max offset length) malformed_table;
      reject_if (blen data <? stop) malformed_table;;
      scan_entries fuel data {| sn_position := position; sn_guids := {[guid]} ∪ sn_guids st; sn_entries := sn_entries st ++ [(offset, stop)] |}
  end.
(** At most 32 entries and a terminator. *)
Definition SCAN_FUEL : nat := 34.
Definition cut (data : bytes) (acc : list bytes) (r : N * N) : res TeeError (list bytes) :=
  b ← index_range data r.1 r.2; Ok (acc ++ [b]).
Definition parse_cert_table (data : bytes) : res TeeError (list bytes) :=
  if blen data =? 0 then Ok []
  else
    reject_if (MAX_CERT_TABLE_BYTES <? blen data) (InvalidResponse "SNP certificate table exceeds kernel maximum");;
    '(table_end, entries) ← scan_entries SCAN_FUEL data {| sn_position := 0; sn_guids := ∅; sn_entries := [] |};
    check_disjoint malformed_table entries table_end;;
    for_each (cut data) [] entries.
Definition assemble_evidence (report table : bytes) : res TeeError TeeEvidence :=
  cert_chain ← parse_cert_table table;
  Ok {| te_platform := SevSnp; raw_quote := if negb (blen table =? 0) then report ++ table else report;
        te_cert_chain := cert_chain; kms_private_key := None |}.
Definition parse_response (response report_data : bytes) : res TeeError bytes :=
  reject_if (negb (blen response =? RESPONSE_BYTES)) (InvalidResponse "SNP ioctl response size mismatch");;
  status ← index_range response 0 4;
  len ← index_range response 4 8;
  reserved ← index_range response 8 32;
  reject_if (negb (le_to_N status =? 0) || negb (le_to_N len =? REPORT_BYTES) || any_nonzero reserved)
    (InvalidResponse "SNP response status, report_size, or reserved bytes invalid");;
  report ← index_range response 32 (32 + REPORT_BYTES);
  validate_report report report_data;;
  Ok report.

Section Snp.
Context `{OS : Host} {DV : SnpDevice OS}.
Definition SnpProvider_new : TIO bool :=
  use_configfs ← path_exists TSM_REPORT_BASE;
  (if use_configfs : bool then with_request TSM_REPORT_BASE (lit "snp-probe") (fun p => require_provider p SEV_GUEST)
   else e ← path_exists SEV_GUEST_DEVICE; lift (ensure e (DeviceNotFound "/dev/sev-guest")));;
  mret use_configfs.
Definition collect_via_configfs (report_data : bytes) : TIO TeeEvidence :=
  with_request TSM_REPORT_BASE (lit "snp") (fun p =>
    require_provider p SEV_GUEST;;
    write_report_data p report_data;;
    report ← read_blob p (lit "outblob") REPORT_BYTES;
    lift (validate_report report report_data);;
    table ← optional_blob p (lit "auxblob") MAX_CERT_TABLE_BYTES;
    evidence ← lift (assemble_evidence report (default [] table));
    require_provider p SEV_GUEST;;
    mret evidence).
Definition snp_open : TIO bool := act (fun t => (Read SEV_GUEST_DEVICE, open_device t SEV_GUEST_DEVICE)).
(** The request: the report data, VMPL 0 and reserved zeros. *)
Definition snp_ioctl (report_data : bytes) : TIO SnpCall :=
  let request := report_data ++ N_to_le 4 0 ++ replicate 28 x00 in
  act (fun t => (Called SEV_GUEST_DEVICE request, snp_get_ext_report t request)).
Definition collect_via_ioctl (report_data : bytes) : TIO TeeEvidence :=
  lift (ensure linux_x86_64 (DeviceNotFound "SNP guest ioctl requires Linux x86_64"));;
  ok ← snp_open;
  lift (ensure ok (DeviceNotFound "/dev/sev-guest"));;
  c ← snp_ioctl report_data;
  (if sc_failed c then
     if negb (exitinfo2 c =? 0) then fails (InvalidResponse "SNP_GET_EXT_REPORT firmware error") else fails IoctlError
   else mret tt);;
  tee_need (exitinfo2 c =? 0) "SNP_GET_EXT_REPORT returned error status";;
  report ← lift (parse_response (sc_response c) report_data);
  vmpl ← lift (index_range report 0x30 0x34);
  tee_need (bytes_eqb vmpl (N_to_le 4 0)) "SNP report VMPL differs from requested VMPL0";;
  tee_need (certs_len c <=? blen (sc_certs c)) "SNP certificate response length exceeds allocated buffer";;
  table ← lift (index_range (sc_certs c) 0 (certs_len c));
  lift (assemble_evidence report table).
Definition collect_snp_evidence (use_configfs : bool) (report_data : bytes) : TIO TeeEvidence :=
  if use_configfs then collect_via_configfs report_data else collect_via_ioctl report_data.
End Snp.

(** * Lemmas *)
(** ** Requests *)
(** The outcome of reading an attribute at a point of the trace. *)
Definition attribute_is `{OS : Host} (t : Trace) (path name : bytes) (limit : N) (o : option bytes) : Prop :=
  match o with
  | None => read_at_most t (join path name) (limit + 1) = NotFound
  | Some b => read_at_most t (join path name) (limit + 1) = Content b /\ blen b <= limit
  end.
Definition opened (t : Trace) (path : bytes) : Trace := t ++ [Drew; Created path true].

Section RequestRules.
Context `{OS : Host}.
Implicit Types (I : Trace -> Prop) (t : Trace).

Lemma vsafe_tee_need c m I (Q : unit -> Trace -> Prop) t : I t -> (c = true -> Q tt t) -> vsafe (tee_need c m) I Q t.
Proof. intros Hi HQ. by apply vsafe_lift; [|apply safe_ensure]. Qed.
Lemma vsafe_tee_some {A} (o : option A) e I (Q : A -> Trace -> Prop) t :
  I t -> (forall a, o = Some a -> Q a t) -> vsafe (tee_some o e) I Q t.
Proof. intros Hi HQ. by apply vsafe_lift; [|apply safe_ok_or]. Qed.

Lemma optional_blob_safe path name limit I (Q : option bytes -> Trace -> Prop) t :
  let t' := t ++ [Read (join path name)] in
  I t' -> (forall o, attribute_is t path name limit o -> Q o t') -> vsafe (optional_blob path name limit) I Q t.
Proof.
  cbv zeta. intros Hi HQ. apply vsafe_bind, vsafe_act. cbn [fst snd]. destruct (read_at_most _ _ _) eqn:Hr; [by apply HQ|done..|].
  apply vsafe_bind, vsafe_tee_need; [done|]. intros Hl%N.leb_le. apply vsafe_ret, HQ. by split.
Qed.
Lemma read_blob_safe path name limit I (Q : bytes -> Trace -> Prop) t :
  let t' := t ++ [Read (join path name)] in
  I t' -> (forall b, attribute_is t path name limit (Some b) -> Q b t') -> vsafe (read_blob path name limit) I Q t.
Proof. cbv zeta. intros Hi HQ. apply vsafe_bind, optional_blob_safe; [done|]. intros o Ho. apply vsafe_tee_some; [done|]. intros b ->. by apply HQ. Qed.
Lemma require_provider_safe path expected I (Q : unit -> Trace -> Prop) t :
  let t' := t ++ [Read (join path (lit "provider"))] in
  I t' -> Q tt t' -> vsafe (require_provider path expected) I Q t.
Proof.
  cbv zeta. intros Hi HQ. apply vsafe_bind, vsafe_bind, read_blob_safe; [done|]. intros b _. apply vsafe_bind, vsafe_tee_some; [done|].
  intros v _. apply vsafe_bind, vsafe_tee_need; [done|]. intros _. apply vsafe_ret. by apply vsafe_tee_need.
Qed.
Lemma write_report_data_safe path rd I (Q : unit -> Trace -> Prop) t :
  let t' := t ++ [Wrote (join path (lit "inblob")) rd] in
  I t' -> Q tt t' -> vsafe (write_report_data path rd) I Q t.
Proof. cbv zeta. intros Hi HQ. apply vsafe_bind, vsafe_act. by apply vsafe_tee_need. Qed.
Lemma path_exists_safe path I (Q : bool -> Trace -> Prop) t :
  let t' := t ++ [Looked path] in I t' -> (forall b, Q b t') -> vsafe (path_exists path) I Q t.
Proof. cbv zeta. intros Hi HQ. apply vsafe_bind, vsafe_act. by apply vsafe_tee_some; [|intros b _]. Qed.

(** A request is tidy, whatever its body does that is quiet. *)
Lemma with_request_safe {A} base purpose (body : bytes -> TIO A) (R : bytes -> A -> Trace -> Prop) t :
  (forall p, vsafe (body p) (extends quiet_trace (opened t p)) (fun a t' => R p a t' /\ extends quiet_trace (opened t p) t') (opened t p)) ->
  vsafe (with_request base purpose body) (extends tidy t)
    (fun a t' => extends tidy t t' /\ exists p t1, R p a t1 /\ t' = t1 ++ [Removed p]) t.
Proof.
  intros Hbody. assert (forall p t1 n, extends quiet_trace (opened t p) t1 -> extends tidy t (t1 ++ replicate (S n) (Removed p))) as Hclose.
  { intros p t1 n (l & -> & Hl). exists ([Drew] ++ (Created p true :: l ++ replicate (S n) (Removed p))).
    split; [unfold opened; by rewrite <- !app_assoc|]. apply tidy_app; [apply tidy_quiet; by constructor|]. by apply tidy_bracket, tidy_quiet. }
  apply vsafe_bind, vsafe_bind, vsafe_act. cbn [fst snd].
  assert (extends tidy t (t ++ [Drew])) as H1 by (apply extends_app, tidy_quiet; by constructor).
  apply vsafe_bind, vsafe_tee_some; [done|]. intros suffix _. apply vsafe_bind, vsafe_act. cbn [fst snd].
  set (p := join base _). destruct (make_dir (t ++ [Drew]) p) eqn:Hd.
  2-3: apply vsafe_bind, vsafe_need; [|done]; rewrite <- app_assoc; apply extends_app, tidy_quiet; by repeat constructor.
  rewrite <- app_assoc. change (t ++ [Drew] ++ [Created p true]) with (opened t p).
  eapply vsafe_bind, vsafe_pure; [done|]. apply vsafe_ret.
  apply (vsafe_undo _ _ _ (fun t' => exists n t1, extends quiet_trace (opened t p) t1 /\ t' = t1 ++ replicate n (Removed p))).
  - apply vsafe_bind. eapply vsafe_weaken; [eapply vsafe_mono; [apply Hbody|]|].
    + intros a t1 [HR Hq]. apply vsafe_bind, vsafe_bind, vsafe_act. cbn [fst snd].
      apply vsafe_tee_need; [by exists 1%nat, t1|]. intros _. apply vsafe_ret. split; [by apply (Hclose p t1 0%nat)|by exists p, t1].
    + intros t1 Hq. exists 0%nat, t1. by rewrite app_nil_r.
  - intros t' (n & t1 & Hq & ->). rewrite <- app_assoc. change [Removed p] with (replicate 1 (Removed p)).
    rewrite <- replicate_add, Nat.add_1_r. by apply Hclose.
Qed.
End RequestRules.

(** ** Sessions *)
(** A collection through configfs, operation by operation. *)
Definition tsm_session (path report_data : bytes) : Trace :=
  [Drew; Created path true; Read (join path (lit "provider")); Wrote (join path (lit "inblob")) report_data;
   Read (join path (lit "outblob")); Read (join path (lit "auxblob")); Read (join path (lit "provider")); Removed path].
(** The part of it before the quote is read. *)
Definition until_quote (path report_data : bytes) : Trace := take 4 (tsm_session path report_data).

(** Framing of a TDX quote, and the report data in it. *)
Record tdx_echo (quote report_data : bytes) : Prop := {
  te_size : 636 + 134 <= blen quote <= MAX_QUOTE_BYTES;
  te_version : slice quote 0 2 = N_to_le 2 4;
  te_key_type : slice quote 2 4 = N_to_le 2 2;
  te_tee_type : slice quote 4 8 = N_to_le 4 0x81;
  te_signature : le_to_N (slice quote 632 636) = blen quote - 636;
  te_report_data : slice quote 568 632 = report_data;
}.
Lemma validate_quote_exact quote rd : decides (validate_quote_structure quote rd) (tdx_echo quote rd) (fun _ => True).
Proof.
  unfold validate_quote_structure. destruct (blen quote <? 636 + 134) eqn:H1; [cbn; intros []; bools; lia|].
  destruct (MAX_QUOTE_BYTES <? blen quote) eqn:H2; [cbn; intros []; bools; lia|]. bools. cbn [orb reject_if]. ok_step.
  rewrite !(index_range_slice quote) by lia. do 3 ok_step.
  destruct (bytes_eqb (slice quote 0 2) _) eqn:Ev; [|cbn; intros [_ ? _ _ _ _]; by apply bytes_eqb_neq in Ev].
  destruct (bytes_eqb (slice quote 2 4) _) eqn:Ek; [|cbn; intros [_ _ ? _ _ _]; by apply bytes_eqb_neq in Ek].
  destruct (bytes_eqb (slice quote 4 8) _) eqn:Et; [|cbn; intros [_ _ _ ? _ _]; by apply bytes_eqb_neq in Et].
  cbn [negb orb reject_if]. do 2 ok_step.
  destruct (N.eqb_spec (le_to_N (slice quote 632 636)) (blen quote - 636)) as [Es|Es]; [|cbn; by intros [_ _ _ _ ? _]].
  cbn [negb reject_if]. do 2 ok_step.
  destruct (bytes_eqb (slice quote 568 632) rd) eqn:Er; [|cbn; intros [_ _ _ _ _ ?]; by apply bytes_eqb_neq in Er].
  cbn. bools. split; [|done]. by split.
Qed.

(** A goal about a trace of known quiet events. *)
Ltac quiet := rewrite <- ?app_assoc; apply extends_app; repeat constructor.

Section TdxSpec.
Context `{OS : Host}.
(** What a TDX collection gives: the quote that the kernel answered, after the report data
    was written to the request, and that echoes the report data. *)
Record tdx_collected (t : Trace) (rd path : bytes) (e : TeeEvidence) (t' : Trace) : Prop := {
  tc_session : t' = t ++ tsm_session path rd;
  tc_quote : attribute_is (t ++ until_quote path rd) path (lit "outblob") MAX_QUOTE_BYTES (Some (raw_quote e));
  tc_echo : tdx_echo (raw_quote e) rd;
  tc_platform : te_platform e = Tdx;
}.
Lemma collect_tdx_safe rd t :
  vsafe (collect_tdx_evidence rd) (extends tidy t) (fun e t' => extends tidy t t' /\ exists p, tdx_collected t rd p e t') t.
Proof.
  eapply vsafe_mono; [eapply (with_request_safe _ _ _ (fun p e t1 => tdx_collected t rd p e (t1 ++ [Removed p])))|].
  - intros p. remember (opened t p) as t0 eqn:Et0.
    apply vsafe_bind, require_provider_safe; [quiet|]. apply vsafe_bind, write_report_data_safe; [quiet|].
    apply vsafe_bind, read_blob_safe; [quiet|]. intros quote Hq.
    pose proof (validate_quote_exact quote rd) as Hd. apply vsafe_bind, vsafe_lift; [quiet|]. eapply safe_mono; [apply (decides_safe _ _ _ Hd)|].
    intros [] _ [He _]. apply vsafe_bind, optional_blob_safe; [quiet|]. intros aux _.
    apply vsafe_bind, require_provider_safe; [quiet|]. apply vsafe_ret. split; [|quiet].
    subst t0. unfold opened in *. rewrite <- !app_assoc in *. by split.
  - intros e t' [Ht (p & t1 & Hc & ->)]. split; [done|]. by exists p.
Qed.
Lemma probe_safe (purpose expected : bytes) t :
  vsafe (with_request TSM_REPORT_BASE purpose (fun p => require_provider p expected)) (extends tidy t) (fun _ t' => extends tidy t t') t.
Proof.
  eapply vsafe_mono; [apply (with_request_safe _ _ _ (fun _ _ _ => True))|].
  - intros p. generalize (opened t p). intros t0. apply require_provider_safe; [quiet|]. split; [done|quiet].
  - by intros a t' [Ht _].
Qed.
Lemma tdx_new_safe t : vsafe TdxProvider_new (extends tidy t) (fun _ t' => extends tidy t t') t.
Proof.
  assert (extends tidy t (t ++ [Looked TSM_REPORT_BASE])) as H1 by (apply extends_app, tidy_quiet; by constructor).
  apply vsafe_bind, path_exists_safe; [done|]. intros e. apply vsafe_bind, vsafe_need; [done|]. intros _.
  eapply vsafe_weaken; [eapply vsafe_mono; [apply probe_safe|]|]; [intros a t' Ht|intros t' Ht];
    by eapply extends_trans; [|exact H1|exact Ht]; apply tidy_app.
Qed.
End TdxSpec.

(** ** Certificate tables *)
(** The ranges of entries relative to the table; [SnpQuote]'s are relative to the report. *)
Definition entry_range (e : CertEntry) : N * N := (ce_offset e, ce_offset e + ce_length e).
Definition scan_of (es : list CertEntry) : CertScan := {|
  sn_position := 24 * blen es; sn_guids := list_to_set (ce_guid <$> es); sn_entries := entry_range <$> es |}.
Lemma scan_of_snoc es e :
  {| sn_position := 24 * blen es + 24; sn_guids := {[ce_guid e]} ∪ list_to_set (ce_guid <$> es);
     sn_entries := (entry_range <$> es) ++ [entry_range e] |} = scan_of (es ++ [e]).
Proof.
  unfold scan_of. rewrite blen_app, !fmap_app, list_to_set_app_L. cbn. change (blen [e]) with 1. f_equal; [lia|set_solver].
Qed.
Lemma entry_range_nonempty raw es : Forall (entry_wf raw) es -> Forall nonempty_range (entry_range <$> es).
Proof. intros Hf. apply Forall_fmap. eapply Forall_impl; [exact Hf|]. intros e [_ _ _ ? _]. cbv [nonempty_range entry_range compose fst snd]. lia. Qed.
Lemma entry_range_apart a b : apart (entry_range a) (entry_range b) -> apart (cert_range a) (cert_range b).
Proof. unfold apart, entry_range, cert_range. cbn [fst snd]. lia. Qed.

(** What the loop has read: distinct entries and the terminator. *)
Record scanned (report data : bytes) (es : list CertEntry) (r : N * list (N * N)) : Prop := {
  sd_result : r = (24 * (blen es + 1), entry_range <$> es);
  sd_bytes : exists rest, data = encode_table es ++ replicate 24 x00 ++ rest;
  sd_entries : Forall (entry_wf (report ++ data)) es;
  sd_guids : NoDup (ce_guid <$> es);
  sd_count : blen es <= 32;
}.
Lemma scan_entries_safe report data fuel pre tail :
  blen report = table_start -> blen data <= MAX_CERT_TABLE_BYTES -> data = encode_table pre ++ tail ->
  Forall (entry_wf (report ++ data)) pre -> NoDup (ce_guid <$> pre) -> blen pre <= 32 -> N.of_nat fuel + blen pre = 34 ->
  safe (scan_entries fuel data (scan_of pre)) (fun r => exists es, scanned report data es r).
Proof.
  intros Hrep Hmax. revert pre tail; induction fuel as [|fuel IH]; intros pre tail Hdata Hw Hn Hc Hfuel; [lia|].
  pose proof (blen_encode_table _ _ Hw) as Hlen. cbn [scan_entries sn_position sn_guids sn_entries scan_of].
  destruct (get_range data (24 * blen pre) (24 * blen pre + 24)) as [entry|] eqn:Hent; [|done]. cbn [ok_or]. ok_step.
  assert (24 <= blen tail) as Htail. { apply get_range_Some in Hent as [[_ Hb] _]. rewrite Hdata, blen_app in Hb. lia. }
  destruct (split_24 tail Htail) as (guid & ob & lb & rest & -> & Hg & Ho & Hl).
  assert (entry = guid ++ ob ++ lb) as ->.
  { rewrite Hdata, <- Hlen, !app_assoc in Hent. rewrite <- (app_assoc (encode_table pre)), <- (app_assoc (encode_table pre)), <- app_assoc in Hent.
    replace (blen (encode_table pre) + 24) with (blen (encode_table pre) + blen ((guid ++ ob) ++ lb)) in Hent by (rewrite !blen_app; lia).
    rewrite get_range_app in Hent. injection Hent as <-. by rewrite app_assoc. }
  slices. do 3 ok_step. set (e := {| ce_guid := guid; ce_offset := le_to_N ob; ce_length := le_to_N lb |}).
  pose proof (le_to_N_bound ob) as Hbo. rewrite Ho in Hbo. pose proof (le_to_N_bound lb) as Hbl. rewrite Hl in Hbl.
  change (256 ^ 4) with 4294967296 in *.
  destruct (bytes_eqb guid (replicate 16 x00)) eqn:Ez.
  - apply safe_bind, safe_reject_if. intros Hz. bools. cbn [safe]. exists pre. split; [f_equal; lia| |done..].
    exists rest. rewrite Hdata. f_equal. rewrite zeros_24, <- !app_assoc. rewrite (le_to_N_eq ob 4 0 Ho), (le_to_N_eq lb 4 0 Hl) by done.
    by subst guid.
  - apply bytes_eqb_neq in Ez. apply safe_bind, safe_reject_if. intros Hr. bools.
    apply safe_bind, safe_ok_or. intros stop Hs. apply checked_add_Some in Hs as [-> _].
    apply safe_bind, safe_reject_if. intros Hin%N.ltb_ge.
    change (le_to_N ob, le_to_N ob + le_to_N lb) with (entry_range e). change guid with (ce_guid e) at 1. rewrite scan_of_snoc.
    rewrite blen_fmap in *.
    apply (IH (pre ++ [e]) rest).
    + rewrite Hdata at 1. rewrite encode_table_app, <- app_assoc. f_equal. change (encode_table [e]) with (encode_entry e ++ []).
      rewrite app_nil_r. unfold e. rewrite (encode_entry_le guid ob lb Ho Hl). by rewrite <- !app_assoc.
    + apply Forall_app. split; [done|]. constructor; [|constructor].
      split; cbn [ce_guid ce_offset ce_length e]; unfold u32_max; [done|done|lia| |]; unfold cert_range; cbn [ce_offset ce_length e snd];
        unfold MAX_CERT_TABLE_BYTES in *; rewrite ?blen_app; lia.
    + rewrite fmap_app. apply NoDup_app. split_and!; [done| |apply NoDup_singleton].
      intros g Hgi ->%list_elem_of_singleton. rewrite elem_of_list_to_set in *. done.
    + rewrite blen_app. change (blen [e]) with 1. lia.
    + rewrite blen_app. change (blen [e]) with 1. lia.
Qed.

Lemma pairwise_cert_ranges es : pairwise_apart (entry_range <$> es) -> pairwise_apart (cert_range <$> es).
Proof.
  unfold pairwise_apart. induction es as [|e es IH]; [constructor|]. rewrite !fmap_cons. intros Hp. inversion_clear Hp as [|? ? Hx Hr].
  constructor; [|by apply IH]. rewrite Forall_fmap in *. eapply Forall_impl; [exact Hx|]. intros e'. apply entry_range_apart.
Qed.
Lemma cut_entries report data es : blen report = table_start -> Forall (entry_wf (report ++ data)) es ->
  for_each (cut data) [] (entry_range <$> es) = Ok (payload (report ++ data) <$> es).
Proof.
  intros Hrep Hf. change (payload (report ++ data) <$> es) with ([] ++ (payload (report ++ data) <$> es)). generalize (@nil bytes) as acc.
  induction Hf as [|e es [_ _ _ Hl Hin] Hf IH]; intros acc; [by rewrite app_nil_r|]. rewrite !fmap_cons, for_each_cons.
  change (cut data acc (entry_range e)) with (b ← index_range (E := TeeError) data (ce_offset e) (ce_offset e + ce_length e); Ok (acc ++ [b])).
  unfold cert_range in Hin. cbn [snd] in Hin. rewrite blen_app in Hin.
  rewrite index_range_slice by lia. do 2 ok_step. rewrite IH, <- app_assoc.
  assert (payload (report ++ data) e = slice data (ce_offset e) (ce_offset e + ce_length e)) as <-; [|done].
  unfold payload, cert_range. cbn [fst snd]. rewrite slice_right by lia. f_equal; lia.
Qed.
(** What the collector makes of a certificate table that follows a report. *)
Lemma parse_cert_table_safe report data : blen report = table_start ->
  safe (parse_cert_table data) (fun certs => data = [] /\ certs = [] \/
    data <> [] /\ exists es, table_layout (report ++ data) es /\ certs = payload (report ++ data) <$> es).
Proof.
  intros Hrep. unfold parse_cert_table. destruct (N.eqb_spec (blen data) 0) as [H0|H0]; [left; by apply blen_0 in H0|].
  apply safe_bind, safe_reject_if. intros Hmax%N.ltb_ge.
  eapply safe_seq; [apply (scan_entries_safe report data SCAN_FUEL [] data); try done; constructor|].
  intros [table_end entries] _ (es & [[= -> ->] (rest & Hb) He Hn Hc]).
  pose proof (decides_check_disjoint malformed_table (entry_range <$> es) (24 * (blen es + 1)) (entry_range_nonempty _ _ He)) as Hd.
  eapply safe_seq; [apply (decides_safe _ _ _ Hd)|]. intros [] _ [[Hbehind Hapart] _]. rewrite (cut_entries _ _ _ Hrep He). right.
  split; [by intros ->|]. exists es. split; [|done]. split; [|done..| |by apply pairwise_cert_ranges].
  - exists report, rest. split; [done|]. by rewrite Hb.
  - rewrite Forall_fmap in Hbehind. eapply Forall_impl; [exact Hbehind|]. intros e. unfold entry_range, cert_range, SnpQuote.table_end.
    cbn. lia.
Qed.

(** The certificates that the verifier took from a table. *)
Definition certs_of (cs : SnpCerts) : list bytes := omap id [vcek cs; vlek cs; ask cs; ark cs].
Lemma stored_certs raw es cs : certs_of (stored raw cs es) ⊆ certs_of cs ++ (payload raw <$> es).
Proof.
  unfold stored. revert cs. induction es as [|e es IH]; intros cs; [by rewrite app_nil_r|]. cbn [foldl]. intros c Hc. apply IH in Hc.
  rewrite fmap_cons. rewrite elem_of_app, elem_of_cons in *. destruct Hc as [Hc|Hc]; [|by right; right].
  assert (c = payload raw e \/ c ∈ certs_of cs) as Hx; [|naive_solver]. revert Hc. unfold store_cert, certs_of.
  rewrite !list_elem_of_omap. intros (o & Ho & Hc). unfold id in Hc. subst o.
  assert (Some c = Some (payload raw e) \/ Some c ∈ [vcek cs; vlek cs; ask cs; ark cs]) as [[= ->]|Hi]; [|by left|by right; exists (Some c)].
  revert Ho. repeat case_match; cbn [vcek vlek ask ark]; rewrite !elem_of_cons; tauto.
Qed.
Lemma collected_table report data certs :
  blen report = table_start -> parse_cert_table data = Ok certs ->
  exists cs, parse_snp_cert_table (report ++ data) no_certs = Ok cs /\ certs_of cs ⊆ certs.
Proof.
  intros Hrep Hp. pose proof (safe_Ok _ _ _ (parse_cert_table_safe report data Hrep) Hp) as [[-> ->]|(Hne & es & Hlay & ->)].
  - exists no_certs. split; [|done]. apply parse_table_complete. left. split; [by rewrite app_nil_r|done].
  - exists (stored (report ++ data) no_certs es). split; [apply parse_table_complete; right; by exists es|].
    apply (stored_certs _ _ no_certs).
Qed.
(** What the collector sends, the verifier reads.  When the collector of SEV-SNP
    evidence accepts the certificate table of the hypervisor, the verifier's own parser
    accepts the report followed by that table, and the certificates it takes from it are
    among those that the collector found. *)
Theorem collected_table_accepted report data certs :
  blen report = table_start -> parse_cert_table data = Ok certs ->
  exists cs, parse_snp_cert_table (report ++ data) no_certs = Ok cs /\ certs_of cs ⊆ certs.
Proof. exact (collected_table report data certs). Qed.

(** ** SEV-SNP collections *)
Record snp_echo (report report_data : bytes) : Prop := {
  se_size : blen report = REPORT_BYTES;
  se_version : le_to_N (slice report 0 4) = 2 \/ le_to_N (slice report 0 4) = 5;
  se_algorithm : slice report 0x34 0x38 = N_to_le 4 1;
  se_report_data : slice report 0x50 0x90 = report_data;
}.
(** A report that echoes the report data, then a table that the verifier reads. *)
Record snp_evidence (rd : bytes) (e : TeeEvidence) : Prop := {
  sv_platform : te_platform e = SevSnp;
  sv_parts : exists report table, raw_quote e = report ++ table /\ snp_echo report rd;
  sv_table : exists cs, parse_snp_cert_table (raw_quote e) no_certs = Ok cs /\ certs_of cs ⊆ te_cert_chain e;
}.
Lemma validate_report_safe report rd : safe (validate_report report rd) (fun _ => snp_echo report rd).
Proof.
  unfold validate_report. apply safe_bind, safe_reject_if. intros Hl. bools. unfold REPORT_BYTES in *.
  rewrite !(index_range_slice report) by lia. ok_step. apply safe_bind, safe_reject_if. intros Hv. bools. ok_step.
  apply safe_bind, safe_reject_if. intros Ha. bools. ok_step. apply safe_reject_if. intros Hr. bools. by split.
Qed.
Lemma assemble_evidence_safe report table rd : snp_echo report rd ->
  safe (assemble_evidence report table) (snp_evidence rd).
Proof.
  intros He. pose proof (se_size _ _ He) as Hl. unfold assemble_evidence.
  eapply safe_seq; [apply (parse_cert_table_safe report table Hl)|]. intros certs Hp _. cbn [safe].
  assert ((if negb (blen table =? 0) then report ++ table else report) = report ++ table) as E.
  { destruct (N.eqb_spec (blen table) 0) as [H0%blen_0|]; [|done]. by rewrite H0, app_nil_r. }
  rewrite E. split; [done|by exists report, table|]. by apply collected_table.
Qed.
Lemma parse_response_safe response rd : safe (parse_response response rd) (fun r => snp_echo r rd).
Proof.
  unfold parse_response. apply safe_bind, safe_reject_if. intros Hl. bools. unfold RESPONSE_BYTES, REPORT_BYTES in *.
  rewrite !(index_range_slice response) by lia. do 3 ok_step. apply safe_bind, safe_reject_if. intros _. ok_step.
  eapply safe_seq; [apply validate_report_safe|]. by intros [] _ He.
Qed.

Section SnpSpec.
Context `{OS : Host} {DV : SnpDevice OS}.
Lemma collect_configfs_safe rd t :
  vsafe (collect_via_configfs rd) (extends tidy t)
    (fun e t' => extends tidy t t' /\ snp_evidence rd e /\ exists p, t' = t ++ tsm_session p rd) t.
Proof.
  eapply vsafe_mono; [eapply (with_request_safe _ _ _ (fun p e t1 => snp_evidence rd e /\ t1 ++ [Removed p] = t ++ tsm_session p rd))|].
  - intros p. remember (opened t p) as t0 eqn:Et0.
    apply vsafe_bind, require_provider_safe; [quiet|]. apply vsafe_bind, write_report_data_safe; [quiet|].
    apply vsafe_bind, read_blob_safe; [quiet|]. intros report _.
    apply vsafe_bind, vsafe_lift; [quiet|]. eapply safe_mono; [apply validate_report_safe|].
    intros [] _ He. apply vsafe_bind, optional_blob_safe; [quiet|]. intros table _.
    apply vsafe_bind, vsafe_lift; [quiet|]. eapply safe_mono; [by apply assemble_evidence_safe|]. intros e _ Hev.
    apply vsafe_bind, require_provider_safe; [quiet|]. apply vsafe_ret. split; [|quiet].
    split; [done|]. subst t0. unfold opened. by rewrite <- !app_assoc.
  - intros e t' [Ht (p & t1 & [He Heq] & ->)]. split; [done|]. split; [done|]. by exists p.
Qed.
Lemma collect_ioctl_safe rd t :
  vsafe (collect_via_ioctl rd) (extends tidy t) (fun e t' => extends tidy t t' /\ snp_evidence rd e) t.
Proof.
  assert (forall l, quiet_trace l -> extends tidy t (t ++ l)) as Hq by (intros; by apply extends_app, tidy_quiet).
  apply vsafe_bind, vsafe_need; [exists []; rewrite app_nil_r; by split; [|apply tidy_nil]|]. intros _. apply vsafe_bind, vsafe_act.
  apply vsafe_bind, vsafe_need; [apply Hq; by constructor|]. intros _. apply vsafe_bind, vsafe_act. cbn [fst snd]. rewrite <- app_assoc.
  assert (extends tidy t (t ++ [Read SEV_GUEST_DEVICE] ++ [Called SEV_GUEST_DEVICE (rd ++ N_to_le 4 0 ++ replicate 28 x00)])) as Ht
    by (apply Hq; by repeat constructor).
  set (c := snp_get_ext_report _ _). apply vsafe_bind. destruct (sc_failed c); [by destruct (negb _)|]. apply vsafe_ret.
  apply vsafe_bind, vsafe_tee_need; [done|]. intros _. apply vsafe_bind, vsafe_lift; [done|].
  eapply safe_mono; [apply parse_response_safe|]. intros report _ He. pose proof (se_size _ _ He) as Hl. unfold REPORT_BYTES in Hl.
  apply vsafe_bind. rewrite index_range_slice by lia. apply vsafe_pure with (a := slice report 0x30 0x34); [done|].
  apply vsafe_bind, vsafe_tee_need; [done|]. intros _. apply vsafe_bind, vsafe_tee_need; [done|]. intros Hc%N.leb_le.
  apply vsafe_bind. rewrite index_range_slice by lia. apply vsafe_pure with (a := slice (sc_certs c) 0 (certs_len c)); [done|].
  apply vsafe_lift; [done|]. eapply safe_mono; [apply assemble_evidence_safe, He|]. by intros e _ Hev.
Qed.
Lemma collect_snp_safe b rd t :
  vsafe (collect_snp_evidence b rd) (extends tidy t) (fun e t' => extends tidy t t' /\ snp_evidence rd e) t.
Proof.
  destruct b; [|apply collect_ioctl_safe]. eapply vsafe_mono; [apply collect_configfs_safe|]. by intros e t' (Ht & He & _).
Qed.
Lemma snp_new_safe t : vsafe SnpProvider_new (extends tidy t) (fun _ t' => extends tidy t t') t.
Proof.
  assert (extends tidy t (t ++ [Looked TSM_REPORT_BASE])) as H1 by (apply extends_app, tidy_quiet; by constructor).
  apply vsafe_bind, path_exists_safe; [done|]. intros b. apply vsafe_bind. destruct b.
  - eapply vsafe_weaken; [eapply vsafe_mono; [apply probe_safe|]|]; [intros a t' Ht; apply vsafe_ret|intros t' Ht];
      by eapply extends_trans; [|exact H1|exact Ht]; apply tidy_app.
  - assert (extends tidy t ((t ++ [Looked TSM_REPORT_BASE]) ++ [Looked SEV_GUEST_DEVICE])) as H2.
    { rewrite <- app_assoc. apply extends_app, tidy_quiet. by repeat constructor. }
    apply vsafe_bind, path_exists_safe; [done|]. intros b. apply vsafe_need; [done|]. intros _. by apply vsafe_ret.
Qed.
(** Collection from a TDX or SEV-SNP guest.  Whatever the operating system answers,
    collecting neither panics nor loops, and it asks for the removal of every configfs
    request that it creates and of nothing else, on errors as well.  A collection through configfs that
    succeeds is one session: create, check the provider, write the report data, read the
    quote, check the provider again, remove.  The evidence is what was read in it, carries
    the report data that was asked for, and, for SEV-SNP, a certificate table that the
    verifier reads. *)
Theorem guest_collection_sound rd t :
  vsafe (collect_tdx_evidence rd) (extends tidy t) (fun e t' => extends tidy t t' /\ exists p, tdx_collected t rd p e t') t /\
  vsafe (collect_via_configfs rd) (extends tidy t)
    (fun e t' => extends tidy t t' /\ snp_evidence rd e /\ exists p, t' = t ++ tsm_session p rd) t /\
  vsafe (collect_via_ioctl rd) (extends tidy t) (fun e t' => extends tidy t t' /\ snp_evidence rd e) t.
Proof. split; [apply collect_tdx_safe|]. split; [apply collect_configfs_safe|apply collect_ioctl_safe]. Qed.
End SnpSpec.

(** ** A guest that answers *)
(** An operating system on which every directory can be made and every attribute of a
    request reads as [files] says. *)
Definition sample_host (files : list (bytes * bytes)) : Host := {|
  try_exists := fun _ _ => Some true;
  draw16 := fun _ => Some (replicate 16 x07);
  make_dir := fun _ _ => DirMade;
  remove_dir := fun _ _ => true;
  write_to := fun _ _ _ => true;
  read_at_most := fun _ path n =>
    match List.find (fun f => bytes_eqb f.1 (default [] (last (split_byte slash path)))) files with
    | Some (_, b) => Content (take (N.to_nat n) b)
    | None => NotFound
    end;
  process_id := 1234;
  clock_at := fun _ => Some 1700000000;
|}.
Definition sample_rd : bytes := replicate 64 x0c.
Definition sample_tdx_quote : bytes :=
  N_to_le 2 4 ++ N_to_le 2 2 ++ N_to_le 4 0x81 ++ replicate 560 x00 ++ sample_rd ++ N_to_le 4 134 ++ replicate 134 x01.
Definition tdx_guest : list (bytes * bytes) := [(lit "provider", lit "tdx_guest"); (lit "outblob", sample_tdx_quote)].
Example tdx_collected_once :
  let r := collect_tdx_evidence (OS := sample_host tdx_guest) sample_rd [] in
  is_ok r.1 = true /\ length r.2 = 8%nat.
Proof. split; vm_compute; reflexivity. Qed.
(** A provider that is not the expected one: the removal of the request is asked for all the same. *)
Example tdx_wrong_provider :
  let r := collect_tdx_evidence (OS := sample_host [(lit "provider", lit "sev_guest")]) sample_rd [] in
  is_ok r.1 = false /\ length r.2 = 4%nat.
Proof. split; vm_compute; reflexivity. Qed.
Definition sample_snp_report : bytes :=
  N_to_le 4 2 ++ replicate 48 x00 ++ N_to_le 4 1 ++ replicate 24 x00 ++ sample_rd ++ replicate 1040 x00.
Definition sample_table : bytes := VCEK_GUID ++ N_to_le 4 48 ++ N_to_le 4 3 ++ replicate 24 x00 ++ [x01; x02; x03].
Example snp_collected :
  is_ok (collect_via_configfs (OS := sample_host [(lit "provider", lit "sev_guest"); (lit "outblob", sample_snp_report);
    (lit "auxblob", sample_table)]) sample_rd []).1 = true.
Proof. vm_compute. reflexivity. Qed.
Lemma collected_table_accepted_witness :
  exists cs, parse_snp_cert_table (sample_snp_report ++ sample_table) no_certs = Ok cs /\ certs_of cs ⊆ [[x01; x02; x03]].
Proof. apply (collected_table_accepted sample_snp_report sample_table [[x01; x02; x03]]); vm_compute; reflexivity. Defined.
