(* ===== verification/Cms.v ===== *)
(** * Cms: decryption of a key service's answer to an enclave
    ([src/v2/src/tee/nitro.rs], [kms_decrypt])

    The key management service answers an attested request with a CMS EnvelopedData in
    BER: a content key encrypted to the RSA key in the attestation document, and the
    content encrypted under that key.  The source does not parse the structure; it scans
    for the 256-byte octet string, the object identifier of AES-256-CBC and the
    initialisation vector behind it, and the context tag of the content.

    The scanner returns on every input, with parts of the sizes that decryption needs.
    It finds the parts of every message that is laid out as [kms_message] says, and so
    [kms_decrypt] inverts the encryption of the service ([kms_roundtrip] in [Nsm]). *)
From S2P Require Import Prelude Bytes Ranges Text Crypto Eat Pki Effects Host Tsm.

(** ** Definitions *)
Record CmsComponents : Type := { encrypted_key : bytes; iv : bytes; encrypted_content : bytes }.

Section Scan.
Context {E : Type}.
Implicit Types (data : bytes).

Definition read_ber_length data : res E (option (N * N)) :=
  if blen data =? 0 then Ok None
  else
    b ← index data 0;
    let first := byte_N b in
    if first <? 0x80 then Ok (Some (first, 1))
    else if first =? 0x80 then Ok None
    else
      let num_bytes := N.land first 0x7f in
      if (num_bytes =? 0) || (4 <? num_bytes) || (blen data <? 1 + num_bytes) then Ok None
      else
        len ← for_each (fun len j => d ← index data (1 + N.of_nat j); Ok (N.lor (N.shiftl len 8) (byte_N d))) 0 (seq 0 (N.to_nat num_bytes));
        Ok (Some (len, 1 + num_bytes)).
Definition read_ber_octet_string data : res E (option bytes) :=
  if blen data =? 0 then Ok None
  else
    t ← index data 0;
    if negb (Byte.eqb t x04) then Ok None
    else
      tail ← index_from data 1;
      l ← read_ber_length tail;
      match l with
      | None => Ok None
      | Some (len, hdr_size) =>
        let start := 1 + hdr_size in
        if start + len <=? blen data then b ← index_range data start (start + len); Ok (Some b) else Ok None
      end.
(** [for i in i..i + n], up to the first [return Some(_)]. *)
Fixpoint first_some {B} (f : N -> res E (option B)) (n : nat) (i : N) : res E (option B) :=
  match n with
  | O => Ok None
  | S n => o ← f i; match o with Some b => Ok (Some b) | None => first_some f n (i + 1) end
  end.
Definition octet_string_at data (size i : N) : res E (option bytes) :=
  t ← index data i;
  if Byte.eqb t x04 then
    tail ← index_from data (i + 1);
    l ← read_ber_length tail;
    match l with
    | Some (len, hdr_size) =>
      if (len =? size) && (i + 1 + hdr_size + size <=? blen data) then
        let start := i + 1 + hdr_size in b ← index_range data start (start + size); Ok (Some b)
      else Ok None
    | None => Ok None
    end
  else Ok None.
Definition find_octet_string_of_size data (size : N) : res E (option bytes) :=
  first_some (octet_string_at data size) (length data - 4) 0.

(** The loop of [collect_indefinite_content], from [pos] on. *)
Fixpoint collect_loop (fuel : nat) data (pos : N) (result : bytes) : res E (option bytes) :=
  let done := Ok (if blen result =? 0 then None else Some result) in
  match fuel with
  | O => NoFuel
  | S fuel =>
    if negb (pos + 1 <? blen data) then done
    else
      b ← index data pos;
      c ← index data (pos + 1);
      if Byte.eqb b x00 && Byte.eqb c x00 then done
      else if Byte.eqb b x04 then
        tail ← index_from data (pos + 1);
        l ← read_ber_length tail;
        match l with
        | Some (len, hdr_size) =>
          let start := pos + 1 + hdr_size in
          if start + len <=? blen data then
            chunk ← index_range data start (start + len); collect_loop fuel data (start + len) (result ++ chunk)
          else collect_loop fuel data (pos + 1) result
        | None => collect_loop fuel data (pos + 1) result
        end
      else collect_loop fuel data (pos + 1) result
  end.
Definition collect_indefinite_content data : res E (option bytes) := collect_loop (S (length data)) data 0 [].
(** [Some (len, hdr_size) if len > 0] that fits: the content; else the search goes on. *)
Definition definite_content data (i : N) : res E (option bytes) :=
  tail ← index_from data (i + 1);
  l ← read_ber_length tail;
  match l with
  | Some (len, hdr_size) =>
    if (0 <? len) && (i + 1 + hdr_size + len <=? blen data) then
      let start := i + 1 + hdr_size in b ← index_range data start (start + len); Ok (Some b)
    else Ok None
  | None => Ok None
  end.
(** The outer option says whether the search ends here, the inner one with what. *)
Definition context_0_at data (i : N) : res E (option (option bytes)) :=
  tag ← index data i;
  if Byte.eqb tag xa0 then
    if bool_decide (get data (i + 1) = Some x80) then
      tail ← index_from data (i + 2); o ← collect_indefinite_content tail; Ok (Some o)
    else o ← definite_content data i; Ok (option_map Some o)
  else if Byte.eqb tag x80 then o ← definite_content data i; Ok (option_map Some o)
  else Ok None.
Definition find_context_0_content data : res E (option bytes) :=
  o ← first_some (context_0_at data) (length data - 2) 0; Ok (default None o).
End Scan.

(** [haystack.windows(needle.len()).position(|w| w == needle)] for a nonempty needle *)
Fixpoint find_subsequence (haystack needle : bytes) : option N :=
  if starts_with needle haystack then Some 0
  else match haystack with [] => None | _ :: haystack => N.succ <$> find_subsequence haystack needle end.
Definition AES_CBC_OID : bytes := byte_of <$> [0x60; 0x86; 0x48; 0x01; 0x65; 0x03; 0x04; 0x01; 0x2a].
Definition parse_cms_enveloped_data (data : bytes) : res string CmsComponents :=
  k ← find_octet_string_of_size data 256;
  key ← ok_or k "Cannot find 256-byte encrypted key (RSA-2048) in CMS";
  oid_pos ← ok_or (find_subsequence data AES_CBC_OID) "Cannot find AES-256-CBC OID in CMS";
  let after_oid := oid_pos + blen AES_CBC_OID in
  tail ← index_from data after_oid;
  v ← read_ber_octet_string tail;
  iv ← ok_or v "Cannot find IV after AES-256-CBC OID";
  ensure (blen iv =? 16) "Expected 16-byte IV";;
  let content_start := after_oid + 2 + 16 in
  rest ← index_from data content_start;
  c ← find_context_0_content rest;
  content ← ok_or c "Cannot find encrypted content ([0] IMPLICIT) in CMS";
  Ok {| encrypted_key := key; iv := iv; encrypted_content := content |}.

(** RSA (PKCS#8 and OAEP with SHA-256) and AES-256-CBC with PKCS#7 padding. *)
Class KmsCrypto := {
  RsaKey : Type;
  from_pkcs8_der : bytes -> option RsaKey;
  oaep_decrypt : RsaKey -> bytes -> option bytes;
  (** for a key of 32 bytes and a vector of 16 *)
  cbc_decrypt : bytes -> bytes -> bytes -> option bytes;
}.
Definition kms_decrypt `{KmsCrypto} (private_key_der cms_bytes : bytes) : res TeeError bytes :=
  cms ← map_err (fun _ => InvalidResponse "CMS parse") (parse_cms_enveloped_data cms_bytes);
  rsa_key ← ok_or (from_pkcs8_der private_key_der) (InvalidResponse "RSA privkey decode");
  aes_key ← ok_or (oaep_decrypt rsa_key (encrypted_key cms)) (InvalidResponse "RSA-OAEP decrypt DEK");
  reject_if (negb (blen aes_key =? 32)) (InvalidResponse "Expected 32-byte AES key");;
  reject_if (negb ((blen aes_key =? 32) && (blen (iv cms) =? 16))) (InvalidResponse "AES init");;
  ok_or (cbc_decrypt aes_key (iv cms) (encrypted_content cms)) (InvalidResponse "AES-CBC decrypt").

(** ** Specification: BER lengths and values *)
Inductive ber_len : bytes -> N -> Prop :=
| ber_short b : byte_N b < 0x80 -> ber_len [b] (byte_N b)
| ber_long b ds : byte_N b = 0x80 + blen ds -> 1 <= blen ds <= 4 -> ber_len (b :: ds) (be_to_N ds).
(** [s] starts with the value [c] under the tag [t]. *)
Definition tlv_prefix (t : byte) (c s : bytes) : Prop :=
  exists hdr rest, s = t :: hdr ++ c ++ rest /\ ber_len hdr (blen c).

(** * Lemmas *)
Lemma land_7f b : 0x80 <= byte_N b -> N.land (byte_N b) 0x7f = byte_N b - 0x80.
Proof.
  intros Hb. pose proof (byte_N_lt b). change 0x7f with (N.ones 7). rewrite N.land_ones. change (2 ^ 7) with 128.
  symmetry. apply (N.mod_unique _ _ 1); lia.
Qed.

Section ScanRules.
Context {E : Type}.
Lemma read_be b ds rest :
  for_each (fun len j => d ← index (E := E) (b :: ds ++ rest) (1 + N.of_nat j); Ok (N.lor (N.shiftl len 8) (byte_N d))) 0
    (seq 0 (length ds)) = Ok (be_to_N ds).
Proof.
  revert rest. induction ds as [|d ds IH] using rev_ind; intros rest; [done|].
  rewrite length_app, Nat.add_1_r, seq_S, for_each_snoc, <- app_assoc, IH. ok_step. rewrite Nat.add_0_l.
  change (b :: ds ++ [d] ++ rest) with ((b :: ds) ++ d :: rest). replace (1 + N.of_nat (length ds)) with (blen (b :: ds)) by (unfold blen; cbn; lia).
  rewrite (index_Some _ _ d) by apply get_app_blen. ok_step. rewrite lor_shift_8 by apply byte_N_lt. by rewrite be_to_N_snoc.
Qed.
Lemma read_ber_length_hdr hdr n rest : ber_len hdr n -> read_ber_length (E := E) (hdr ++ rest) = Ok (Some (n, blen hdr)).
Proof.
  unfold read_ber_length. intros [b Hb|b ds Hb Hd]; rewrite <- app_comm_cons, blen_cons.
  - destruct (N.eqb_spec (1 + blen ([] ++ rest)) 0); [lia|]. rewrite (index_Some _ _ b) by apply (get_app_blen []). ok_step. by rewrite (proj2 (N.ltb_lt _ _) Hb).
  - destruct (N.eqb_spec (1 + blen (ds ++ rest)) 0); [lia|]. rewrite (index_Some _ _ b) by apply (get_app_blen []). ok_step.
    destruct (N.ltb_spec (byte_N b) 0x80); [lia|]. destruct (N.eqb_spec (byte_N b) 0x80); [lia|]. rewrite land_7f by lia.
    replace (byte_N b - 0x80) with (blen ds) by lia. rewrite blen_app.
    destruct (N.eqb_spec (blen ds) 0); [lia|]. destruct (N.ltb_spec 4 (blen ds)); [lia|].
    destruct (N.ltb_spec (1 + (blen ds + blen rest)) (1 + blen ds)); [lia|]. cbn [orb].
    replace (N.to_nat (blen ds)) with (length ds) by (unfold blen; lia). rewrite read_be. ok_step. by rewrite blen_cons.
Qed.
Lemma read_ber_length_total data : exists o, read_ber_length (E := E) data = Ok o /\
  (forall n h, o = Some (n, h) -> exists hdr rest, data = hdr ++ rest /\ ber_len hdr n /\ blen hdr = h).
Proof.
  destruct data as [|b data]; [by exists None|].
  destruct (N.ltb_spec (byte_N b) 0x80) as [Hb|Hb].
  { eexists. split; [apply (read_ber_length_hdr [b]); by constructor|]. intros n h [= <- <-]. exists [b], data. split; [done|]. split; [by constructor|done]. }
  destruct (N.eqb_spec (byte_N b) 0x80) as [Hb'|Hb'].
  { exists None. split; [|done]. unfold read_ber_length. rewrite (index_Some _ _ b) by apply (get_app_blen []).
    destruct (N.eqb_spec (blen (b :: data)) 0) as [H0|]; [by apply blen_0 in H0|]. ok_step. rewrite (proj2 (N.ltb_ge _ _) Hb).
    by rewrite (proj2 (N.eqb_eq _ _) Hb'). }
  pose proof (land_7f b Hb) as Hl. set (k := byte_N b - 0x80) in *.
  destruct (N.leb_spec k 4) as [Hk|Hk]; [destruct (N.leb_spec k (blen data)) as [Hd|Hd]|].
  - destruct (split_at data k Hd) as (ds & rest & -> & Hds). assert (ber_len (b :: ds) (be_to_N ds)) as Hber by (constructor; lia).
    eexists. split; [apply (read_ber_length_hdr (b :: ds) _ rest Hber)|]. intros n h [= <- <-]. by exists (b :: ds), rest.
  - exists None. split; [|done]. unfold read_ber_length. rewrite blen_cons. destruct (N.eqb_spec (1 + blen data) 0); [lia|].
    rewrite (index_Some _ _ b) by apply (get_app_blen []). ok_step. rewrite (proj2 (N.ltb_ge _ _) Hb), (proj2 (N.eqb_neq _ _) Hb'), Hl.
    destruct (N.ltb_spec (1 + blen data) (1 + k)); [|lia]. by rewrite !orb_true_r.
  - exists None. split; [|done]. unfold read_ber_length. rewrite blen_cons. destruct (N.eqb_spec (1 + blen data) 0); [lia|].
    rewrite (index_Some _ _ b) by apply (get_app_blen []). ok_step. rewrite (proj2 (N.ltb_ge _ _) Hb), (proj2 (N.eqb_neq _ _) Hb'), Hl.
    destruct (N.ltb_spec 4 k); [|lia]. by rewrite orb_true_r.
Qed.
End ScanRules.

Lemma app_inj_size {A} (a a' b b' : list A) : a ++ b = a' ++ b' -> blen a = blen a' -> a = a' /\ b = b'.
Proof. intros Heq Hl. apply app_inj_1 in Heq; [done|unfold blen in Hl; lia]. Qed.
Lemma drop_blen {A} (p q : list A) : drop (N.to_nat (blen p)) (p ++ q) = q.
Proof. unfold blen. by rewrite Nat2N.id, drop_app_length. Qed.
Lemma split_tag {A} (b : list A) i : i < blen b -> exists pre t s, b = pre ++ t :: s /\ blen pre = i.
Proof. intros (t & Ht)%get_total. apply get_split in Ht as (pre & s & -> & <-). by exists pre, t, s. Qed.
Lemma tlv_fun t t' c c' s : tlv_prefix t c s -> tlv_prefix t' c' s -> t = t' /\ c = c'.
Proof.
  intros (hdr & rest & -> & Hb) (hdr' & rest' & Hs & Hb'). injection Hs as Ht Heq. split; [done|].
  pose proof (read_ber_length_hdr (E := unit) hdr _ (c ++ rest) Hb) as H1. rewrite Heq, (read_ber_length_hdr hdr' _ (c' ++ rest') Hb') in H1.
  injection H1 as Hc Hh. apply app_inj_size in Heq as [-> Heq]; [|done]. by apply app_inj_size in Heq as [-> _].
Qed.

Section Values.
Context {E : Type}.
Implicit Types (data : bytes).
(** The value at [i] of a length that satisfies [p]. *)
Definition value_at (p : N -> bool) data (i : N) : res E (option bytes) :=
  tail ← index_from data (i + 1);
  l ← read_ber_length tail;
  match l with
  | Some (len, hdr_size) =>
    if p len && (i + 1 + hdr_size + len <=? blen data) then
      let start := i + 1 + hdr_size in b ← index_range data start (start + len); Ok (Some b)
    else Ok None
  | None => Ok None
  end.
Lemma value_at_spec p data i : i < blen data -> exists o, value_at p data i = Ok o /\
  forall c, o = Some c <-> p (blen c) = true /\ exists t, tlv_prefix t c (drop (N.to_nat i) data).
Proof.
  intros (pre & t & s & -> & <-)%split_tag. unfold value_at. rewrite drop_blen.
  replace (pre ++ t :: s) with ((pre ++ [t]) ++ s) by by rewrite <- app_assoc. replace (blen pre + 1) with (blen (pre ++ [t])) by (rewrite blen_app; done).
  rewrite index_from_app by done. ok_step. destruct (read_ber_length_total (E := E) s) as (l & Hl & Hspec). rewrite Hl. ok_step.
  destruct l as [[n h]|].
  2: { exists None. split; [done|]. intros c. split; [done|]. intros (_ & t' & hdr & rest & Heq & Hb). injection Heq as -> ->.
    by rewrite (read_ber_length_hdr hdr _ _ Hb) in Hl. }
  destruct (Hspec n h eq_refl) as (hdr & body & -> & Hb & <-). rewrite !blen_app.
  assert (forall c t', tlv_prefix t' c (t :: hdr ++ body) -> blen c = n /\ exists rest, body = c ++ rest) as Hinv.
  { intros c t' (hdr' & rest & Heq & Hb'). injection Heq as -> Heq. rewrite Heq, (read_ber_length_hdr hdr' _ _ Hb') in Hl.
    injection Hl as Hc Hh. apply app_inj_size in Heq as [_ ->]; [|done]. split; [done|by exists rest]. }
  destruct (p n) eqn:Hp; cbn [andb].
  2: { exists None. split; [done|]. intros c. split; [done|]. intros (Hc & t' & [Hn _]%Hinv). congruence. }
  destruct (N.leb_spec (blen pre + blen [t] + blen hdr + n) (blen pre + blen [t] + (blen hdr + blen body))) as [Hfit|Hfit].
  - destruct (split_at body n ltac:(lia)) as (c & rest & -> & Hn).
    replace ((pre ++ [t]) ++ hdr ++ c ++ rest) with (((pre ++ [t]) ++ hdr) ++ c ++ rest) by by rewrite <- !app_assoc.
    rewrite (index_range_app _ c rest) by (rewrite !blen_app; lia). ok_step. exists (Some c). split; [done|]. intros c'. split.
    + intros [= <-]. split; [by rewrite Hn|]. exists t, hdr, rest. split; [done|by rewrite Hn].
    + intros (_ & t' & [Hc (rest' & Heq)]%Hinv). apply app_inj_size in Heq as [-> _]; [done|lia].
  - exists None. split; [done|]. intros c. split; [done|]. intros (_ & t' & [Hc (rest & ->)]%Hinv). rewrite blen_app in Hfit. lia.
Qed.
Lemma definite_content_spec data i : i < blen data -> exists o, definite_content (E := E) data i = Ok o /\
  forall c, o = Some c <-> c <> [] /\ exists t, tlv_prefix t c (drop (N.to_nat i) data).
Proof.
  intros Hi. destruct (value_at_spec (fun len => 0 <? len) data i Hi) as (o & Ho & Hspec). exists o. split; [exact Ho|].
  intros c. rewrite Hspec, N.ltb_lt. pose proof (blen_0 c). split; intros [Hc Ht]; (split; [|done]); [intros H0%H; lia|].
  destruct (N.eqb_spec (blen c) 0) as [H0%H|]; [done|lia].
Qed.
Lemma octet_string_at_spec data size i : i < blen data -> exists o, octet_string_at (E := E) data size i = Ok o /\
  forall c, o = Some c <-> blen c = size /\ tlv_prefix x04 c (drop (N.to_nat i) data).
Proof.
  intros Hi. destruct (value_at_spec (fun len => len =? size) data i Hi) as (o & Ho & Hspec).
  pose proof Hi as (pre & t & s & Hdata & Hpre)%split_tag. unfold octet_string_at. rewrite (index_Some _ _ t) by (subst; apply get_app_blen). ok_step.
  destruct (Byte.eqb t x04) eqn:Et.
  - apply byte_eqb_eq in Et. subst t. exists o. split.
    + rewrite <- Ho. unfold value_at. destruct (index_from data (i + 1)) as [tail| | |]; [|done..]. rewrite !res_bind_Ok; cbv beta.
      destruct (read_ber_length tail) as [[[n h]|]| | |]; [|done..]. rewrite !res_bind_Ok; cbv beta iota. by destruct (N.eqb_spec n size) as [->|].
    + intros c. rewrite Hspec, N.eqb_eq. subst data i. rewrite drop_blen. split; intros [Hc Ht]; (split; [done|]); [|by exists x04].
      destruct Ht as (t & hdr & rest & Heq & Hb). injection Heq as <- ->. by exists hdr, rest.
  - exists None. split; [done|]. intros c. split; [done|]. intros [_ (hdr & rest & Heq & _)]. subst data i. rewrite drop_blen in Heq.
    injection Heq as -> _. by apply byte_eqb_neq in Et.
Qed.
(** The first index at which [f] has a value, if there is one. *)
Lemma first_some_spec {B} (f : N -> res E (option B)) n i :
  (forall j, i <= j < i + N.of_nat n -> exists o, f j = Ok o) ->
  exists o, first_some f n i = Ok o /\
    match o with
    | Some b => exists j, i <= j < i + N.of_nat n /\ f j = Ok (Some b) /\ forall k, i <= k < j -> f k = Ok None
    | None => forall j, i <= j < i + N.of_nat n -> f j = Ok None
    end.
Proof.
  revert i. induction n as [|n IH]; intros i Hf; [exists None; split; [done|lia]|]. cbn [first_some].
  destruct (Hf i ltac:(lia)) as [[b|] Ho]; rewrite Ho; ok_step.
  - exists (Some b). split; [done|]. exists i. split; [lia|]. split; [done|lia].
  - destruct (IH (i + 1)) as (o & Hr & Hspec); [intros j Hj; apply Hf; lia|]. exists o. split; [done|].
    assert (forall k, i <= k -> k < i + 1 \/ i + 1 <= k) as Hcase by lia. destruct o as [b|].
    + destruct Hspec as (j & Hj & Hb & Hk). exists j. split; [lia|]. split; [done|]. intros k Hk'. destruct (Hcase k ltac:(lia)) as [Hlt|Hge];
        [by replace k with i by lia|apply Hk; lia].
    + intros j Hj. destruct (Hcase j ltac:(lia)); [by replace j with i by lia|apply Hspec; lia].
Qed.
Lemma first_some_at {B} (f : N -> res E (option B)) n i j b :
  i <= j < i + N.of_nat n -> f j = Ok (Some b) -> (forall k, i <= k < j -> f k = Ok None) -> first_some f n i = Ok (Some b).
Proof.
  revert i. induction n as [|n IH]; intros i Hj Hb Hk; [lia|]. cbn [first_some]. destruct (N.eqb_spec i j) as [->|Hne]; [by rewrite Hb|].
  rewrite Hk by lia. ok_step. apply IH; [lia|done|]. intros k Hk'. apply Hk. lia.
Qed.
End Values.

(** ** The parts of a message *)
Inductive octet_chunks : list bytes -> bytes -> Prop :=
| chunks_nil : octet_chunks [] []
| chunks_cons hdr c cs enc : ber_len hdr (blen c) -> octet_chunks cs enc -> octet_chunks (c :: cs) (x04 :: hdr ++ c ++ enc).
(** The encrypted content, in a definite encoding or in chunks up to an end marker. *)
Inductive content_field : bytes -> bytes -> Prop :=
| field_definite t hdr c : t = xa0 \/ t = x80 -> c <> [] -> ber_len hdr (blen c) -> content_field (t :: hdr ++ c) c
| field_indefinite cs enc : octet_chunks cs enc -> concat cs <> [] -> content_field (xa0 :: x80 :: enc ++ [x00; x00]) (concat cs).
(** A message with these parts: nothing before the key looks like a key, the object
    identifier does not occur before its place, and no context tag stands between the
    initialisation vector and the content. *)
Record kms_message (data : bytes) (m : CmsComponents) : Prop := {
  km_key_size : blen (encrypted_key m) = 256;
  km_iv_size : blen (iv m) = 16;
  km_key : exists pre rest, data = pre ++ rest /\ tlv_prefix x04 (encrypted_key m) rest /\
    forall i c, i < blen pre -> blen c = 256 -> ~ tlv_prefix x04 c (drop (N.to_nat i) data);
  km_content : exists pre gap field post,
    data = pre ++ AES_CBC_OID ++ (x04 :: x10 :: iv m) ++ gap ++ field ++ post /\
    Forall (fun b => b <> xa0 /\ b <> x80) gap /\ content_field field (encrypted_content m) /\
    forall p q, data = p ++ AES_CBC_OID ++ q -> blen pre <= blen p;
}.

Section Finders.
Context {E : Type}.
Implicit Types (data : bytes).
Lemma find_octet_string_total data size :
  exists o, find_octet_string_of_size (E := E) data size = Ok o /\ forall c, o = Some c -> blen c = size.
Proof.
  unfold find_octet_string_of_size. destruct (first_some_spec (octet_string_at (E := E) data size) (length data - 4) 0) as (o & Ho & Hspec).
  { intros j Hj. destruct (octet_string_at_spec (E := E) data size j) as (o & Ho & _); [unfold blen; lia|by exists o]. }
  exists o. split; [exact Ho|]. intros c ->. destruct Hspec as (j & Hj & Hb & _).
  destruct (octet_string_at_spec (E := E) data size j) as (o & Ho' & Hc); [unfold blen; lia|]. rewrite Hb in Ho'. injection Ho' as <-.
  by apply Hc.
Qed.
Lemma find_octet_string_first pre rest size c : 3 <= size -> blen c = size -> tlv_prefix x04 c rest ->
  (forall i c', i < blen pre -> blen c' = size -> ~ tlv_prefix x04 c' (drop (N.to_nat i) (pre ++ rest))) ->
  find_octet_string_of_size (E := E) (pre ++ rest) size = Ok (Some c).
Proof.
  intros Hs Hc Ht Hno. assert (blen pre + 4 < blen (pre ++ rest)) as Hlen.
  { destruct Ht as (hdr & post & -> & Hb). rewrite blen_app, blen_cons, !blen_app. inversion Hb; rewrite blen_cons; lia. }
  assert (forall k, k <= blen pre -> exists o, octet_string_at (E := E) (pre ++ rest) size k = Ok o /\
    forall c, o = Some c <-> blen c = size /\ tlv_prefix x04 c (drop (N.to_nat k) (pre ++ rest))) as Hat
    by (intros; apply octet_string_at_spec; lia).
  apply (first_some_at _ _ _ (blen pre)); [unfold blen in *; lia| |].
  - destruct (Hat (blen pre) ltac:(lia)) as (o & -> & Ho). f_equal. apply Ho. by rewrite drop_blen.
  - intros k Hk. destruct (Hat k ltac:(lia)) as ([c'|] & -> & Ho); [|done]. destruct (proj1 (Ho c') eq_refl) as [Hc' Ht'].
    by destruct (Hno k c' ltac:(lia) Hc' Ht').
Qed.
Lemma find_subsequence_Some hay needle n : find_subsequence hay needle = Some n ->
  exists p q, hay = p ++ needle ++ q /\ blen p = n.
Proof.
  revert n. induction hay as [|x hay IH]; intros n; cbn [find_subsequence]; unfold starts_with;
    (destruct (strip_prefix needle _) as [r|] eqn:Hr; [intros [= <-]; apply strip_prefix_Some in Hr; exists [], r; by split|]); [done|].
  intros (m & Hm & ->)%fmap_Some. destruct (IH m Hm) as (p & q & -> & <-). exists (x :: p), q. split; [done|]. rewrite blen_cons. lia.
Qed.
Lemma find_subsequence_min hay needle n p q : find_subsequence hay needle = Some n -> hay = p ++ needle ++ q -> n <= blen p.
Proof.
  revert n p. induction hay as [|x hay IH]; intros n p; cbn [find_subsequence]; unfold starts_with;
    (destruct (strip_prefix needle _) as [r|] eqn:Hr; [intros [= <-]; lia|]); [done|].
  intros (m & Hm & ->)%fmap_Some Heq. destruct p as [|y p].
  - rewrite app_nil_l in Heq. by rewrite (proj2 (strip_prefix_Some needle _ q) Heq) in Hr.
  - injection Heq as -> Heq. rewrite blen_cons. specialize (IH m p Hm Heq). lia.
Qed.
Lemma find_subsequence_first pre post needle : needle <> [] ->
  (forall p q, pre ++ needle ++ post = p ++ needle ++ q -> blen pre <= blen p) ->
  find_subsequence (pre ++ needle ++ post) needle = Some (blen pre).
Proof.
  intros Hn. induction pre as [|x pre IH]; intros Hmin.
  - rewrite app_nil_l. assert (starts_with needle (needle ++ post) = true) as Hs.
    { unfold starts_with. by rewrite (proj2 (strip_prefix_Some needle _ post)). }
    destruct (needle ++ post) eqn:Heq; cbn [find_subsequence]; by rewrite Hs.
  - rewrite <- app_comm_cons in *. cbn [find_subsequence]. unfold starts_with. destruct (strip_prefix needle _) as [r|] eqn:Hr.
    { apply strip_prefix_Some in Hr. specialize (Hmin [] r Hr). rewrite blen_cons in Hmin. change (blen (@nil byte)) with 0 in Hmin. lia. }
    rewrite IH; [by rewrite blen_cons, N.add_1_l|].
    intros p q Heq. specialize (Hmin (x :: p) q ltac:(by rewrite Heq)). rewrite !blen_cons in Hmin. lia.
Qed.
End Finders.

Section Contents.
Context {E : Type}.
Implicit Types (data : bytes).
Lemma index_ok data i : i < blen data -> exists x, index (E := E) data i = Ok x.
Proof. intros (x & Hx)%get_total. exists x. by apply index_Some. Qed.
Lemma collect_done result : exists o, Ok (E := E) (if blen result =? 0 then None else Some result) = Ok o /\ forall c : bytes, o = Some c -> c <> [].
Proof. eexists. split; [done|]. destruct (N.eqb_spec (blen result) 0) as [|Hr]; [done|]. intros c [= <-] ->. by apply Hr. Qed.
Lemma collect_loop_total fuel data pos result : (1 <= fuel)%nat -> blen data <= N.of_nat fuel + pos ->
  exists o, collect_loop (E := E) fuel data pos result = Ok o /\ forall c, o = Some c -> c <> [].
Proof.
  revert pos result. induction fuel as [|fuel IH]; intros pos result H1 Hf; [lia|]. cbn [collect_loop].
  destruct (N.ltb_spec (pos + 1) (blen data)) as [Hlt|]; cbn [negb]; [|apply collect_done].
  destruct (index_ok data pos ltac:(lia)) as [b Hb]. destruct (index_ok data (pos + 1) Hlt) as [c Hc]. rewrite Hb, Hc. do 2 ok_step.
  destruct (Byte.eqb b x00 && Byte.eqb c x00); [apply collect_done|].
  assert (forall p r, pos < p -> exists o, collect_loop (E := E) fuel data p r = Ok o /\ forall c, o = Some c -> c <> []) as Hrec
    by (intros; apply IH; lia).
  destruct (Byte.eqb b x04); [|apply Hrec; lia]. unfold index_from. rewrite get_from_total by lia. cbn [unwrap]. ok_step.
  destruct (read_ber_length_total (E := E) (drop (N.to_nat (pos + 1)) data)) as ([[n h]|] & -> & _); ok_step; [|apply Hrec; lia].
  destruct (N.leb_spec (pos + 1 + h + n) (blen data)); [|apply Hrec; lia]. rewrite index_range_slice by lia. ok_step. apply Hrec. lia.
Qed.
Lemma collect_total data : exists o, collect_indefinite_content (E := E) data = Ok o /\ forall c, o = Some c -> c <> [].
Proof. apply collect_loop_total; unfold blen; lia. Qed.
Lemma collect_chunks fuel pre cs enc rest result : octet_chunks cs enc -> (length enc < fuel)%nat ->
  collect_loop (E := E) fuel (pre ++ enc ++ x00 :: x00 :: rest) (blen pre) result
  = Ok (if blen (result ++ concat cs) =? 0 then None else Some (result ++ concat cs)).
Proof.
  intros Hc. revert fuel pre result. induction Hc as [|hdr c cs enc Hb Hc IH]; intros [|fuel] pre result Hf; try lia; cbn [collect_loop].
  - rewrite app_nil_l, app_nil_r. destruct (N.ltb_spec (blen pre + 1) (blen (pre ++ x00 :: x00 :: rest))) as [|Hge]; [|rewrite blen_app, !blen_cons in Hge; lia].
    cbn [negb]. rewrite (index_Some _ (blen pre) x00) by apply get_app_blen. ok_step.
    replace (pre ++ x00 :: x00 :: rest) with ((pre ++ [x00]) ++ x00 :: rest) by by rewrite <- app_assoc.
    rewrite (index_Some _ (blen pre + 1) x00) by (replace (blen pre + 1) with (blen (pre ++ [x00])) by (by rewrite blen_app); apply get_app_blen).
    by ok_step.
  - set (tail := c ++ enc ++ x00 :: x00 :: rest).
    replace (pre ++ (x04 :: hdr ++ c ++ enc) ++ x00 :: x00 :: rest) with (pre ++ x04 :: hdr ++ tail) by (unfold tail; by rewrite <- app_comm_cons, <- !app_assoc).
    set (data := pre ++ x04 :: hdr ++ tail). assert (blen data = blen pre + 1 + blen hdr + blen tail) as Hdl by (unfold data; rewrite blen_app, blen_cons, blen_app; lia).
    assert (2 <= blen tail) as Htl by (unfold tail; rewrite !blen_app, !blen_cons; lia).
    destruct (N.ltb_spec (blen pre + 1) (blen data)) as [|Hge]; [|lia]. cbn [negb].
    rewrite (index_Some _ (blen pre) x04) by apply get_app_blen. ok_step. destruct (index_ok data (blen pre + 1) ltac:(lia)) as [b' ->]. ok_step.
    change (Byte.eqb x04 x00) with false. change (Byte.eqb x04 x04) with true. cbn [andb].
    assert (data = (pre ++ [x04]) ++ hdr ++ tail) as E1 by (unfold data; by rewrite <- app_assoc).
    rewrite E1 at 1. rewrite index_from_app by by rewrite blen_app. ok_step. rewrite (read_ber_length_hdr hdr _ tail Hb). ok_step.
    assert (data = ((pre ++ [x04]) ++ hdr) ++ c ++ enc ++ x00 :: x00 :: rest) as E2 by (rewrite E1; unfold tail; by rewrite <- !app_assoc).
    destruct (N.leb_spec (blen pre + 1 + blen hdr + blen c) (blen data)) as [|Hge]; [|rewrite Hdl in Hge; unfold tail in Hge; rewrite blen_app in Hge; lia].
    rewrite E2 at 1. rewrite (index_range_app _ c) by (rewrite ?blen_app; change (blen [x04]) with 1; lia). ok_step.
    rewrite E2, !app_assoc, <- (app_assoc _ enc). replace (blen pre + 1 + blen hdr + blen c) with (blen (((pre ++ [x04]) ++ hdr) ++ c))
      by (rewrite !blen_app; change (blen [x04]) with 1; lia).
    rewrite IH by (cbn [length] in Hf; rewrite !length_app in Hf; lia). cbn [concat]. by rewrite <- app_assoc.
Qed.
End Contents.

Section Messages.
Context {E : Type}.
Implicit Types (data : bytes).
Lemma context_0_at_total data i : i + 2 <= blen data ->
  exists o, context_0_at (E := E) data i = Ok o /\ forall c, o = Some (Some c) -> c <> [].
Proof.
  intros Hi. unfold context_0_at. destruct (index_ok (E := E) data i ltac:(lia)) as [tag ->]. ok_step.
  destruct (definite_content_spec (E := E) data i ltac:(lia)) as (o & -> & Ho).
  assert (exists o', (o ← Ok o; Ok (E := E) (option_map Some o)) = Ok o' /\ forall c, o' = Some (Some c) -> c <> []) as Hdef.
  { exists (option_map Some o). split; [done|]. intros c. destruct o as [c'|]; [|done]. intros [= ->]. by apply Ho. }
  destruct (Byte.eqb tag xa0); [|by destruct (Byte.eqb tag x80); [|exists None]].
  case_bool_decide; [|exact Hdef]. unfold index_from. rewrite get_from_total by lia. cbn [unwrap]. ok_step.
  destruct (collect_total (E := E) (drop (N.to_nat (i + 2)) data)) as (o' & -> & Ho'). exists (Some o'). split; [done|]. intros c [= ->]. by apply Ho'.
Qed.
Lemma find_context_0_total data : exists o, find_context_0_content (E := E) data = Ok o /\ forall c, o = Some c -> c <> [].
Proof.
  unfold find_context_0_content. destruct (first_some_spec (context_0_at (E := E) data) (length data - 2) 0) as (o & -> & Hspec).
  { intros j Hj. destruct (context_0_at_total data j) as (o & Ho & _); [unfold blen; lia|by exists o]. }
  ok_step. exists (default None o). split; [done|]. intros c. destruct o as [[c'|]|]; try done. intros [= ->].
  destruct Hspec as (j & Hj & Hb & _). destruct (context_0_at_total data j) as (o & Ho & Hc); [unfold blen; lia|].
  rewrite Hb in Ho. injection Ho as <-. by apply Hc.
Qed.
Lemma ber_len_head hdr n b l : ber_len hdr n -> hdr = b :: l -> b <> x80.
Proof. intros [c Hc|c ds Hc Hd] [= -> _] ->; cbn in Hc; lia. Qed.
Lemma context_0_at_field pre field c post : content_field field c ->
  context_0_at (E := E) (pre ++ field ++ post) (blen pre) = Ok (Some (Some c)).
Proof.
  intros [t hdr d Ht Hd Hb|cs enc Hcs Hne]; unfold context_0_at.
  - set (data := pre ++ (t :: hdr ++ d) ++ post).
    assert (data = pre ++ t :: hdr ++ d ++ post) as E1 by (unfold data; by rewrite <- app_comm_cons, <- app_assoc).
    rewrite (index_Some _ (blen pre) t) by (rewrite E1; apply get_app_blen). ok_step.
    assert (definite_content (E := E) data (blen pre) = Ok (Some d)) as ->.
    { destruct (definite_content_spec (E := E) data (blen pre)) as (o & -> & Ho); [rewrite E1, blen_app, blen_cons; lia|]. f_equal. apply Ho.
      split; [done|]. exists t, hdr, post. by rewrite E1, drop_blen. }
    assert (bool_decide (get data (blen pre + 1) = Some x80) = false) as ->.
    { apply bool_decide_eq_false. rewrite E1. destruct hdr as [|b l] eqn:Eh; [inversion Hb|]. change (pre ++ t :: (b :: l) ++ d ++ post) with (pre ++ [t] ++ b :: l ++ d ++ post).
      rewrite app_assoc. replace (blen pre + 1) with (blen (pre ++ [t])) by (by rewrite blen_app). rewrite get_app_blen. intros [= Hx].
      by apply (ber_len_head _ _ b l Hb). }
    by destruct Ht as [-> | ->].
  - set (data := pre ++ (xa0 :: x80 :: enc ++ [x00; x00]) ++ post).
    assert (data = (pre ++ [xa0; x80]) ++ enc ++ x00 :: x00 :: post) as E1 by (unfold data; cbn [app]; by rewrite <- !app_assoc).
    rewrite (index_Some _ (blen pre) xa0) by (unfold data; rewrite <- app_comm_cons; apply get_app_blen). ok_step.
    assert (get data (blen pre + 1) = Some x80) as ->.
    { rewrite E1. replace (blen pre + 1) with (blen (pre ++ [xa0])) by (by rewrite blen_app).
      replace ((pre ++ [xa0; x80]) ++ enc ++ x00 :: x00 :: post) with ((pre ++ [xa0]) ++ x80 :: enc ++ x00 :: x00 :: post) by (by rewrite <- !app_assoc).
      apply get_app_blen. }
    change (Byte.eqb xa0 xa0) with true. rewrite bool_decide_eq_true_2 by done. rewrite E1, index_from_app by (by rewrite blen_app). ok_step.
    unfold collect_indefinite_content. change (enc ++ x00 :: x00 :: post) with ([] ++ enc ++ x00 :: x00 :: post) at 2.
    change 0 with (blen (@nil byte)). rewrite (collect_chunks _ [] cs enc) by (done || (rewrite length_app; lia)). ok_step.
    rewrite app_nil_l. destruct (N.eqb_spec (blen (concat cs)) 0) as [H0%blen_0|]; done.
Qed.
Lemma find_context_0_first gap field c post : content_field field c -> Forall (fun b => b <> xa0 /\ b <> x80) gap ->
  find_context_0_content (E := E) (gap ++ field ++ post) = Ok (Some c).
Proof.
  intros Hf Hg. unfold find_context_0_content. rewrite (first_some_at _ _ _ (blen gap) (Some c)); [done| |by apply context_0_at_field|].
  - assert (3 <= blen field) as Hl.
    { destruct Hf as [t hdr d _ Hd Hb|cs enc _ _]; [|rewrite !blen_cons, blen_app, !blen_cons; lia].
      assert (blen d <> 0) by (by rewrite blen_0). rewrite blen_cons, blen_app. inversion Hb; rewrite blen_cons; lia. }
    rewrite !length_app. unfold blen in *. lia.
  - intros k Hk. destruct (split_tag gap k ltac:(lia)) as (p & t & s & -> & <-). apply Forall_app in Hg as [_ Hg].
    inversion_clear Hg as [|? ? [Ht1 Ht2] _]. unfold context_0_at. rewrite <- app_assoc, <- app_comm_cons.
    rewrite (index_Some _ (blen p) t) by apply get_app_blen. ok_step. by rewrite (proj2 (byte_eqb_neq t xa0)), (proj2 (byte_eqb_neq t x80)).
Qed.
Lemma read_octet_string_total data : exists o, read_ber_octet_string (E := E) data = Ok o /\
  forall c, o = Some c -> blen c = 16 -> 18 <= blen data.
Proof.
  unfold read_ber_octet_string. destruct (N.eqb_spec (blen data) 0) as [|Hne]; [by exists None|].
  destruct (index_ok (E := E) data 0 ltac:(lia)) as [t ->]. ok_step. destruct (Byte.eqb t x04); [|by exists None].
  cbn [negb]. unfold index_from. rewrite get_from_total by lia. cbn [unwrap]. ok_step.
  destruct (read_ber_length_total (E := E) (drop (N.to_nat 1) data)) as ([[n h]|] & -> & Hspec); ok_step; [|by exists None].
  destruct (N.leb_spec (1 + h + n) (blen data)); [|by exists None]. rewrite index_range_slice by lia. ok_step.
  eexists. split; [done|]. intros c [= <-]. rewrite blen_slice by lia. destruct (Hspec n h eq_refl) as (hdr & rest & _ & Hb & <-).
  inversion Hb; subst; rewrite ?blen_cons in *; lia.
Qed.
Lemma read_octet_string_16 v rest : blen v = 16 -> read_ber_octet_string (E := E) ((x04 :: x10 :: v) ++ rest) = Ok (Some v).
Proof.
  intros Hv. unfold read_ber_octet_string. rewrite blen_app, !blen_cons. destruct (N.eqb_spec (1 + (1 + blen v) + blen rest) 0); [lia|].
  change ((x04 :: x10 :: v) ++ rest) with ([x04] ++ [x10] ++ v ++ rest). rewrite (index_Some _ 0 x04) by apply (get_app_blen []). ok_step.
  change (negb (Byte.eqb x04 x04)) with false. rewrite index_from_app by done. ok_step.
  rewrite (read_ber_length_hdr [x10] 16) by (constructor; cbn; lia). ok_step. destruct (N.leb_spec (1 + blen [x10] + 16) (1 + (1 + blen v) + blen rest)) as [|Hge].
  - rewrite app_assoc, (index_range_app _ v) by (done || (rewrite Hv; done)). by ok_step.
  - change (blen [x10]) with 1 in Hge. lia.
Qed.
End Messages.

Lemma parse_cms_safe data : safe (parse_cms_enveloped_data data)
  (fun m => blen (encrypted_key m) = 256 /\ blen (iv m) = 16 /\ encrypted_content m <> []).
Proof.
  unfold parse_cms_enveloped_data. destruct (find_octet_string_total (E := string) data 256) as (k & -> & Hk). ok_step.
  apply safe_bind, safe_ok_or. intros key ->. apply safe_bind, safe_ok_or. intros n (p & q & -> & <-)%find_subsequence_Some.
  rewrite (app_assoc p), <- blen_app, (index_from_app _ q (blen (p ++ AES_CBC_OID))) by done. ok_step.
  destruct (read_octet_string_total (E := string) q) as (v & -> & Hv). ok_step. apply safe_bind, safe_ok_or. intros iv ->.
  apply safe_bind, safe_ensure. intros Hiv%N.eqb_eq. specialize (Hv iv eq_refl Hiv).
  apply safe_bind, safe_index_from; [rewrite (blen_app _ q); lia|].
  destruct (find_context_0_total (E := string) (drop (N.to_nat (blen (p ++ AES_CBC_OID) + 2 + 16)) ((p ++ AES_CBC_OID) ++ q))) as (c & -> & Hc).
  ok_step. apply safe_bind, safe_ok_or. intros content ->. cbn. auto.
Qed.
(** Step over a value that was found. *)
Ltac some_step := ok_step; cbn [ok_or]; ok_step.
Lemma parse_cms_message data m : kms_message data m -> parse_cms_enveloped_data data = Ok m.
Proof.
  intros [Hks His (pre & rest & E1 & Hkey & Hno) (p & gap & field & post & E2 & Hg & Hf & Hmin)]. unfold parse_cms_enveloped_data.
  rewrite E1 in Hno. rewrite E1 at 1. rewrite (find_octet_string_first pre rest 256 (encrypted_key m)) by (done || lia). some_step.
  rewrite E2 in Hmin. rewrite E2, find_subsequence_first; [|by vm_compute|exact Hmin]. cbn [ok_or]. ok_step.
  rewrite (app_assoc p), <- blen_app, (index_from_app _ _ (blen (p ++ AES_CBC_OID))) by done. ok_step.
  rewrite read_octet_string_16 by done. some_step. rewrite (ensure_true _ _ (proj2 (N.eqb_eq _ _) His)). ok_step.
  rewrite app_assoc, index_from_app by (rewrite (blen_app (p ++ _)), !blen_cons, His; lia). ok_step.
  rewrite find_context_0_first with (c := encrypted_content m) by done. some_step. by destruct m.
Qed.
Lemma kms_decrypt_safe `{KmsCrypto} der data : safe (kms_decrypt der data) (fun _ => True).
Proof.
  unfold kms_decrypt. apply safe_bind, safe_map_err. eapply safe_mono; [apply parse_cms_safe|]. intros m _ _. by wp.
Qed.
(** What the service encrypted to the key is what comes out. *)
Lemma kms_decrypt_message `{KmsCrypto} der key dek plain data m :
  kms_message data m -> from_pkcs8_der der = Some key -> oaep_decrypt key (encrypted_key m) = Some dek -> blen dek = 32 ->
  cbc_decrypt dek (iv m) (encrypted_content m) = Some plain -> kms_decrypt der data = Ok plain.
Proof.
  intros Hm Hder Hkey Hdek Hcbc. unfold kms_decrypt. rewrite (parse_cms_message _ _ Hm). cbn [map_err]. ok_step. rewrite Hder. cbn [ok_or]. ok_step.
  rewrite Hkey. cbn [ok_or]. ok_step. rewrite Hdek, (km_iv_size _ _ Hm). cbn [N.eqb negb andb reject_if]. by rewrite Hcbc.
Qed.

(** An initialisation vector behind a length field of two bytes is accepted, but the
    search for the content then starts within it: here the two last bytes of the vector
    and the end of the algorithm are taken for the content. *)
Example long_iv_header :
  let data := x04 :: x82 :: x01 :: x00 :: replicate 256 x0a ++ AES_CBC_OID ++ x04 :: x81 :: x10 :: replicate 15 x01 ++ [x80]
    ++ [x03; x01; x02; x03; xa0; x80; x04; x01; x05; x00; x00] in
  encrypted_content <$> parse_cms_enveloped_data data = Ok [x01; x02; x03].
Proof. vm_compute. reflexivity. Qed.
