(* ===== verification/Nsm.v ===== *)
(** * Nsm: evidence of AWS Nitro enclaves and the answers of the key service
    ([src/v2/src/tee/nitro.rs])

    The enclave draws an RSA key, asks the security module for an attestation document
    that carries the report data and the public key, and keeps the private key.  The
    driver ([nsm_init], [nsm_process_request]) and the key generation are classes.

    [nitro_kms_round_trip]: whoever reads the public key in the request that was attested
    and encrypts to it, in a message that [Cms.kms_message] describes, is understood by
    [Cms.kms_decrypt] with the private key of the evidence. *)
From S2P Require Import Prelude Bytes Ranges Text Crypto Eat Pki Effects Host Tsm Cms.

(** ** Definitions *)
Definition NSM_DEVICE : bytes := lit "/dev/nsm".
Inductive NsmResponse : Type := NsmAttestation (document : bytes) | NsmError | NsmUnexpected.
Class NsmDriver `{Host} := {
  nsm_init : Trace -> Z;
  (** an attestation request with these user data and this public key, and no nonce *)
  nsm_process_request : Trace -> Z -> bytes -> bytes -> NsmResponse;
}.
Arguments NsmDriver H : clear implicits.
Class NsmKeys `{KmsCrypto} := {
  rsa_generate : Trace -> option RsaKey;
  to_public_key_der : RsaKey -> option bytes;
  to_pkcs8_der : RsaKey -> option bytes;
}.
Arguments NsmKeys H : clear implicits.

Section Nitro.
Context `{OS : Host} {DR : NsmDriver OS} `{KC : KmsCrypto} {NK : NsmKeys KC}.

(** The provider is the file descriptor of the driver. *)
Definition NitroProvider_new : TIO Z :=
  e ← exists_ NSM_DEVICE;
  lift (ensure (default false e) (DeviceNotFound "/dev/nsm"));;
  fd ← act (fun t => (Driver_opened (nsm_init t), nsm_init t));
  lift (reject_if (fd <? 0)%Z (DeviceNotFound "/dev/nsm exists but nsm_init() failed"));;
  mret fd.
Definition nitro_drop (fd : Z) : TIO unit := when (0 <=? fd)%Z (act (fun _ => (Driver_closed fd, tt))).
Definition nsm_attest (fd : Z) (user_data public_key : bytes) : TIO NsmResponse :=
  act (fun t => (Attested fd user_data public_key, nsm_process_request t fd user_data public_key)).
Definition fresh_attestation (fd : Z) (report_data rsa_pub_der : bytes) : TIO bytes :=
  response ← nsm_attest fd report_data rsa_pub_der;
  match response with
  | NsmAttestation document => mret document
  | NsmError => fails (InvalidResponse "NSM attestation refresh error")
  | NsmUnexpected => fails (InvalidResponse "unexpected NSM response")
  end.
Definition collect_nitro_evidence (fd : Z) (report_data : bytes) : TIO TeeEvidence :=
  k ← act (fun t => (Drew, rsa_generate t));
  rsa_private ← tee_some k (InvalidResponse "RSA keygen");
  rsa_pub_der ← tee_some (to_public_key_der rsa_private) (InvalidResponse "RSA pubkey DER");
  rsa_priv_der ← tee_some (to_pkcs8_der rsa_private) (InvalidResponse "RSA privkey DER");
  response ← nsm_attest fd report_data rsa_pub_der;
  match response with
  | NsmAttestation document =>
    mret {| te_platform := Nitro; raw_quote := document; te_cert_chain := []; kms_private_key := Some rsa_priv_der |}
  | NsmError => fails (InvalidResponse "NSM attestation error")
  | NsmUnexpected => fails (InvalidResponse "unexpected NSM response")
  end.
End Nitro.

(** * Lemmas *)
Section NitroSpec.
Context `{OS : Host} {DR : NsmDriver OS} `{KC : KmsCrypto} {NK : NsmKeys KC}.

(** The evidence of one key, one request and its answer. *)
Record nitro_collected (t : Trace) (fd : Z) (rd : bytes) (e : TeeEvidence) (t' : Trace) (key : RsaKey) (pub : bytes) : Prop := {
  nc_trace : t' = t ++ [Drew; Attested fd rd pub];
  nc_key : rsa_generate t = Some key;
  nc_public : to_public_key_der key = Some pub;
  nc_private : kms_private_key e = to_pkcs8_der key /\ is_Some (to_pkcs8_der key);
  nc_document : nsm_process_request (t ++ [Drew]) fd rd pub = NsmAttestation (raw_quote e);
  nc_platform : te_platform e = Nitro;
}.
Lemma collect_nitro_safe fd rd t :
  vsafe (collect_nitro_evidence fd rd) (extends tidy t)
    (fun e t' => extends tidy t t' /\ exists key pub, nitro_collected t fd rd e t' key pub) t.
Proof.
  assert (forall l, quiet_trace l -> extends tidy t (t ++ l)) as Hq by (intros; by apply extends_app, tidy_quiet).
  assert (extends tidy t (t ++ [Drew])) as H1 by (apply Hq; by constructor).
  apply vsafe_bind, vsafe_act. cbn [fst snd]. apply vsafe_bind, vsafe_tee_some; [done|]. intros key Hkey.
  apply vsafe_bind, vsafe_tee_some; [done|]. intros pub Hpub. apply vsafe_bind, vsafe_tee_some; [done|]. intros der Hder.
  apply vsafe_bind, vsafe_act. cbn [fst snd]. rewrite <- app_assoc.
  assert (extends tidy t (t ++ [Drew] ++ [Attested fd rd pub])) as H2 by (apply Hq; by repeat constructor).
  destruct (nsm_process_request _ fd rd pub) as [doc| |] eqn:Hr; [|done..]. apply vsafe_ret. split; [done|]. exists key, pub. by split.
Qed.
Lemma nitro_new_safe t : vsafe NitroProvider_new (fun t' => exists l, t' = t ++ l /\ quiet_trace l)
  (fun fd t' => (0 <= fd)%Z /\ t' = t ++ [Looked NSM_DEVICE; Driver_opened fd]) t.
Proof.
  apply vsafe_bind, vsafe_act. cbn [fst snd]. apply vsafe_bind, vsafe_need; [eexists; split; [done|by constructor]|]. intros _.
  apply vsafe_bind, vsafe_act. cbn [fst snd]. rewrite <- app_assoc. apply vsafe_bind, vsafe_lift; [eexists; split; [done|by repeat constructor]|].
  apply safe_reject_if. intros Hfd%Z.ltb_ge. by apply vsafe_ret.
Qed.

(** Encryption to a public key in DER, and under a content key and a vector. *)
Context (oaep_encrypts : bytes -> bytes -> bytes -> Prop) (cbc_encrypts : bytes -> bytes -> bytes -> bytes -> Prop).
(** C27: the enclave understands the key service.  Collecting evidence from a Nitro
    enclave never panics, the report data and the public key of the drawn RSA key are
    what the module attests, and the document is its answer.  If the private key encodes
    and decodes (PKCS#8), and decryption inverts encryption (OAEP, CBC), then every
    message whose content key was encrypted to the attested public key, and whose parts
    the scan can find, decrypts under the private key of the evidence to what was
    encrypted. *)
Theorem nitro_kms_round_trip fd rd t :
  (forall key der, to_pkcs8_der key = Some der -> from_pkcs8_der der = Some key) ->
  (forall key pub m c, to_public_key_der key = Some pub -> oaep_encrypts pub m c -> oaep_decrypt key c = Some m) ->
  (forall key v plain c, cbc_encrypts key v plain c -> cbc_decrypt key v c = Some plain) ->
  vsafe (collect_nitro_evidence fd rd) (extends tidy t) (fun e t' => exists key pub der,
    nitro_collected t fd rd e t' key pub /\ kms_private_key e = Some der /\
    forall data m dek plain, kms_message data m -> oaep_encrypts pub dek (encrypted_key m) -> blen dek = 32 ->
      cbc_encrypts dek (iv m) plain (encrypted_content m) -> kms_decrypt der data = Ok plain) t.
Proof.
  intros Hpk Hoaep Hcbc. eapply vsafe_mono; [apply collect_nitro_safe|]. intros e t' (_ & key & pub & Hc).
  destruct (nc_private _ _ _ _ _ _ _ Hc) as [Hp [der Hder]]. exists key, pub, der. split; [done|]. split; [by rewrite Hp|].
  intros data m dek plain Hm Ho Hd Hv. eapply kms_decrypt_message; [done|by apply Hpk|by eapply Hoaep, Ho; apply Hc|done|by apply Hcbc].
Qed.
End NitroSpec.

(** ** An enclave *)
Definition toy_kms : KmsCrypto := {|
  RsaKey := bytes; from_pkcs8_der := Some; oaep_decrypt := fun key c => if bytes_eqb (drop 32 c) (replicate 224 (default x00 (head key))) then Some (take 32 c) else None;
  cbc_decrypt := fun _ _ c => Some c |}.
Definition toy_nsm : NsmDriver (sample_host []) :=
  {| nsm_init := fun _ => 3%Z; nsm_process_request := fun _ _ rd pub => NsmAttestation (rd ++ pub) |}.
Definition toy_keys : NsmKeys toy_kms :=
  {| rsa_generate := fun _ => Some [x2a; x2b] : option (RsaKey (KmsCrypto := toy_kms)); to_public_key_der := fun k => head k ≫= (fun b => Some [b]); to_pkcs8_der := Some |}.
Definition toy_dek : bytes := replicate 32 x11.
Definition sample_kms_answer : bytes :=
  x04 :: x82 :: x01 :: x00 :: (toy_dek ++ replicate 224 x2a) ++ AES_CBC_OID ++ (x04 :: x10 :: replicate 16 x07)
    ++ xa0 :: x80 :: x04 :: x02 :: x61 :: x62 :: x04 :: x01 :: x63 :: [x00; x00].
Definition sample_cms : CmsComponents :=
  {| encrypted_key := toy_dek ++ replicate 224 x2a; iv := replicate 16 x07; encrypted_content := lit "abc" |}.
Definition toy_oaep (pub m c : bytes) : Prop := blen m = 32 /\ c = m ++ replicate 224 (default x00 (head pub)).
Lemma sample_kms_message : kms_message sample_kms_answer sample_cms.
Proof.
  split; [done|done| |].
  - exists [], sample_kms_answer. split; [done|]. split; [|intros i c Hi; change (blen (@nil byte)) with 0 in Hi; lia].
    exists [x82; x01; x00], (AES_CBC_OID ++ (x04 :: x10 :: replicate 16 x07) ++ xa0 :: x80 :: x04 :: x02 :: x61 :: x62 :: x04 :: x01 :: x63 :: [x00; x00]).
    split; [done|]. apply (ber_long x82 [x01; x00]); done.
  - exists (x04 :: x82 :: x01 :: x00 :: toy_dek ++ replicate 224 x2a), [], (xa0 :: x80 :: (x04 :: [x02] ++ lit "ab" ++ x04 :: [x01] ++ lit "c" ++ []) ++ [x00; x00]), [].
    split; [done|]. split; [constructor|]. split.
    + apply (field_indefinite [lit "ab"; lit "c"]); [|done]. constructor; [by apply (ber_short x02)|]. constructor; [by apply (ber_short x01)|constructor].
    + intros p q Heq. by apply (find_subsequence_min sample_kms_answer AES_CBC_OID 260 p q).
Qed.
Lemma nitro_kms_round_trip_witness : exists e t' der,
  collect_nitro_evidence (DR := toy_nsm) (NK := toy_keys) 3 sample_rd [] = (Ok e, t') /\ kms_private_key e = Some der /\
  kms_decrypt (H := toy_kms) der sample_kms_answer = Ok (lit "abc").
Proof.
  pose proof (nitro_kms_round_trip (DR := toy_nsm) (NK := toy_keys) toy_oaep (fun _ _ plain c => plain = c) 3 sample_rd []) as H.
  unfold vsafe in H. destruct (collect_nitro_evidence (DR := toy_nsm) (NK := toy_keys) 3 sample_rd []) as [r t'] eqn:Er.
  assert (r = Ok {| te_platform := Nitro; raw_quote := sample_rd ++ [x2a]; te_cert_chain := []; kms_private_key := Some [x2a; x2b] |}) as ->
    by (vm_compute in Er; by injection Er as <- _).
  destruct H as (key & pub & der & Hc & Hder & Hdec).
  - by intros key der [= ->].
  - intros key pub m c Hpub [Hm ->]. destruct key as [|b key]; [done|]. injection Hpub as <-. cbn.
    assert (length m = 32%nat) as Hl by (by apply length_blen). unfold bytes_eqb. by rewrite drop_app_length', take_app_length', bool_decide_eq_true_2.
  - by intros key v plain c ->.
  - eexists _, _, der. split; [done|]. split; [done|]. injection (nc_key _ _ _ _ _ _ _ Hc) as <-. injection (nc_public _ _ _ _ _ _ _ Hc) as <-.
    by apply (Hdec sample_kms_answer sample_cms toy_dek (lit "abc") sample_kms_message).
Defined.
