(* ===== verification/Tee.v ===== *)
(** * Tee: which trusted execution environment this is
    ([src/v2/src/tee/detect.rs], [tee/mod.rs])

    A [TeeProvider] is the interface behind which a platform collects: its platform, the
    collection for some report data, and its [Drop].  [detect_tee] looks at the device
    files and at the provider that configfs names, refuses contradictions, and builds the
    provider.  A provider that is returned is the one of the environment that was found
    ([detected]), and what it collects is of its platform and carries the report data
    ([provides]); the collector is verified against that interface. *)
From S2P Require Import Prelude Bytes Ranges Text Crypto Eat Pki TdxQuote SnpQuote Effects Host Tsm Cms Nsm.

(** ** Definitions *)
Record TeeProvider : Type := {
  tp_platform : Platform;
  tp_collect_evidence : bytes -> TIO TeeEvidence;
  tp_drop : TIO unit;
}.
Definition NSM : bytes := lit "nsm".
(** [[nsm, tdx, snp].into_iter().filter(|v| *v).count() > 1] *)
Definition conflicting (nsm tdx snp : bool) : bool := 1 <? blen (List.filter id [nsm; tdx; snp]).
Definition choose_provider (nsm tdx snp : bool) (configfs : option bytes) : res TeeError (option bytes) :=
  reject_if (conflicting nsm tdx snp) (InvalidResponse "conflicting TEE device identities");;
  match configfs with
  | Some value =>
    if bytes_eqb value TDX_GUEST && negb snp && negb nsm then Ok (Some TDX_GUEST)
    else if bytes_eqb value SEV_GUEST && negb tdx && negb nsm then Ok (Some SEV_GUEST)
    else if bytes_eqb value TDX_GUEST || bytes_eqb value SEV_GUEST then Err (InvalidResponse "configfs provider conflicts with TEE device")
    else Err (InvalidResponse "unsupported configfs provider")
  | None =>
    if nsm then Ok (Some NSM) else if tdx then Ok (Some TDX_GUEST) else if snp then Ok (Some SEV_GUEST) else Ok None
  end.

Section Detect.
Context `{OS : Host} {DV : SnpDevice OS} {DR : NsmDriver OS} `{KC : KmsCrypto} {NK : NsmKeys KC}.
Definition nitro_provider (fd : Z) : TeeProvider :=
  {| tp_platform := Nitro; tp_collect_evidence := collect_nitro_evidence fd; tp_drop := nitro_drop fd |}.
Definition tdx_provider : TeeProvider :=
  {| tp_platform := Tdx; tp_collect_evidence := collect_tdx_evidence; tp_drop := mret tt |}.
Definition snp_provider (use_configfs : bool) : TeeProvider :=
  {| tp_platform := SevSnp; tp_collect_evidence := collect_snp_evidence use_configfs; tp_drop := mret tt |}.
Definition new_provider (platform : option bytes) : TIO TeeProvider :=
  match platform with
  | None => fails NoTeeDetected
  | Some p =>
    if bytes_eqb p NSM then fd ← NitroProvider_new; mret (nitro_provider fd)
    else if bytes_eqb p TDX_GUEST then TdxProvider_new;; mret tdx_provider
    else if bytes_eqb p SEV_GUEST then c ← SnpProvider_new; mret (snp_provider c)
    else lift Panic
  end.
Definition detect_tee : TIO TeeProvider :=
  has_nsm ← path_exists NSM_DEVICE;
  tdx1 ← path_exists (lit "/dev/tdx-guest");
  has_tdx ← (if tdx1 : bool then mret true else path_exists (lit "/dev/tdx_guest"));
  has_snp ← path_exists SEV_GUEST_DEVICE;
  lift (reject_if (conflicting has_nsm has_tdx has_snp) (InvalidResponse "conflicting TEE device identities"));;
  tsm ← path_exists TSM_REPORT_BASE;
  configfs ← (if tsm : bool then v ← with_request TSM_REPORT_BASE (lit "detect") provider; mret (Some v) else mret None);
  platform ← lift (choose_provider has_nsm has_tdx has_snp configfs);
  new_provider platform.
End Detect.

(** * Lemmas *)
(** The platform that the observations determine. *)
Definition found (nsm tdx snp : bool) (configfs : option bytes) (p : option bytes) : Prop :=
  (nsm && tdx || nsm && snp || tdx && snp = false) /\
  match configfs with
  | Some v => p = Some v /\ nsm = false /\ (v = TDX_GUEST /\ snp = false \/ v = SEV_GUEST /\ tdx = false)
  | None => p = (if nsm then Some NSM else if tdx then Some TDX_GUEST else if snp then Some SEV_GUEST else None)
  end.
Lemma conflicting_spec nsm tdx snp : conflicting nsm tdx snp = nsm && tdx || nsm && snp || tdx && snp.
Proof. by destruct nsm, tdx, snp. Qed.
Lemma choose_provider_exact nsm tdx snp configfs :
  decides (choose_provider nsm tdx snp configfs) (exists p, found nsm tdx snp configfs p) (found nsm tdx snp configfs).
Proof.
  unfold choose_provider, found. rewrite conflicting_spec. assert (TDX_GUEST <> SEV_GUEST) as Hne by done. revert Hne.
  generalize TDX_GUEST SEV_GUEST NSM. intros T S M Hne. destruct (nsm && tdx || nsm && snp || tdx && snp); [cbn; naive_solver|].
  cbn [reject_if]. ok_step. destruct configfs as [v|]; [|destruct nsm, tdx, snp; cbn; naive_solver].
  destruct (bytes_eqb v T) eqn:Et; [apply bytes_eqb_eq in Et; subst v|apply bytes_eqb_neq in Et].
  - rewrite (proj2 (bytes_eqb_neq T S)) by done. destruct nsm, tdx, snp; cbn; naive_solver.
  - destruct (bytes_eqb v S) eqn:Es; [apply bytes_eqb_eq in Es; subst v|apply bytes_eqb_neq in Es]; destruct nsm, tdx, snp; cbn; naive_solver.
Qed.

Section Promise.
Context `{OS : Host} {DR : NsmDriver OS}.
(** Between the traces [t] and [t'] the security module was given [rd] as user data, and
    its answer was [document]. *)
Definition attests (t t' : Trace) (rd document : bytes) : Prop :=
  exists before fd pub after, t' = t ++ before ++ Attested fd rd pub :: after /\
    nsm_process_request (t ++ before) fd rd pub = NsmAttestation document.
(** Quote bytes for the report data, obtained between two traces: the quotes of TDX and SNP
    echo it; the document of a Nitro enclave is opaque to the collector, and is the answer of
    the security module for it.  No other platform is collected directly. *)
Definition carries (t t' : Trace) (platform : Platform) (rd quote : bytes) : Prop :=
  match platform with
  | Tdx => tdx_echo quote rd
  | SevSnp => exists report table, quote = report ++ table /\ snp_echo report rd
  | Nitro => attests t t' rd quote
  | _ => False
  end.
(** What a provider promises to the collector. *)
Record provides (p : TeeProvider) : Prop := {
  pv_platform : tp_platform p = Nitro \/ tp_platform p = Tdx \/ tp_platform p = SevSnp;
  pv_collect rd t : vsafe (tp_collect_evidence p rd) (extends tidy t)
    (fun e t' => extends tidy t t' /\ te_platform e = tp_platform p /\ carries t t' (tp_platform p) rd (raw_quote e)) t;
  pv_drop t : exists l, tp_drop p t = (Ok tt, t ++ l) /\ quiet_trace l;
}.
(** What happens before and after does not matter. *)
Lemma carries_within t1 t2 platform rd quote P Q t t' : extends P t t1 -> extends Q t2 t' -> carries t1 t2 platform rd quote -> carries t t' platform rd quote.
Proof.
  intros (l & -> & _) (l' & -> & _). destruct platform; try done. intros (before & fd & pub & after & -> & Ha).
  exists (l ++ before), fd, pub, (after ++ l'). split; [by rewrite <- !app_assoc|]. by rewrite <- app_assoc in Ha.
Qed.
End Promise.

Section DetectSpec.
Context `{OS : Host} {DV : SnpDevice OS} {DR : NsmDriver OS} `{KC : KmsCrypto} {NK : NsmKeys KC}.
Lemma nitro_provides fd : provides (nitro_provider fd).
Proof.
  split; cbn [nitro_provider tp_platform tp_collect_evidence tp_drop]; [by left| |].
  - intros rd t. eapply vsafe_mono; [apply collect_nitro_safe|]. intros e t' (Ht & key & pub & Hc). split; [done|]. split; [by apply Hc|].
    exists [Drew], fd, pub, []. split; [apply Hc|by apply (nc_document _ _ _ _ _ _ _ Hc)].
  - intros t. unfold nitro_drop, when. destruct (0 <=? fd)%Z; [by exists [Driver_closed fd]; split; [|by constructor]|].
    exists []. rewrite app_nil_r. split; [done|constructor].
Qed.
Lemma tdx_provides : provides tdx_provider.
Proof.
  split; cbn [tdx_provider tp_platform tp_collect_evidence tp_drop]; [by right; left| |].
  - intros rd t. eapply vsafe_mono; [apply collect_tdx_safe|]. intros e t' (Ht & p & Hc). split; [done|]. split; apply Hc.
  - intros t. exists []. rewrite app_nil_r. split; [done|constructor].
Qed.
Lemma snp_provides c : provides (snp_provider c).
Proof.
  split; cbn [snp_provider tp_platform tp_collect_evidence tp_drop]; [by right; right| |].
  - intros rd t. eapply vsafe_mono; [apply collect_snp_safe|]. intros e t' (Ht & He). split; [done|]. split; apply He.
  - intros t. exists []. rewrite app_nil_r. split; [done|constructor].
Qed.
(** The provider named by the identity that was found. *)
Definition names (name : bytes) (p : TeeProvider) : Prop :=
  name = NSM /\ tp_platform p = Nitro \/ name = TDX_GUEST /\ tp_platform p = Tdx \/ name = SEV_GUEST /\ tp_platform p = SevSnp.
Lemma new_provider_safe o t : (forall v, o = Some v -> v = NSM \/ v = TDX_GUEST \/ v = SEV_GUEST) ->
  vsafe (new_provider o) (extends tidy t) (fun p t' => extends tidy t t' /\ provides p /\ exists v, o = Some v /\ names v p) t.
Proof.
  intros Ho. destruct o as [v|]; [|apply vsafe_fails; exists []; rewrite app_nil_r; by split; [|apply tidy_nil]].
  destruct (Ho v eq_refl) as [-> |[-> | ->]]; apply vsafe_bind.
  - eapply vsafe_weaken; [eapply vsafe_mono; [apply nitro_new_safe|]|].
    + intros fd t' [_ ->]. apply vsafe_ret. split; [apply extends_app, tidy_quiet; by repeat constructor|]. split; [apply nitro_provides|].
      exists NSM. split; [done|by left].
    + intros t' (l & -> & Hl). by apply extends_app, tidy_quiet.
  - eapply vsafe_mono; [apply tdx_new_safe|]. intros u t' Ht. apply vsafe_ret. split; [done|]. split; [apply tdx_provides|].
    exists TDX_GUEST. split; [done|by right; left].
  - eapply vsafe_mono; [apply snp_new_safe|]. intros c t' Ht. apply vsafe_ret. split; [done|]. split; [apply snp_provides|].
    exists SEV_GUEST. split; [done|by right; right].
Qed.
Lemma looked_safe path t t1 (Q : bool -> Trace -> Prop) : extends tidy t t1 -> (forall b t2, extends tidy t t2 -> Q b t2) ->
  vsafe (path_exists path) (extends tidy t) Q t1.
Proof.
  intros Ht HQ. assert (extends tidy t (t1 ++ [Looked path])) as H1.
  { eapply extends_tidy_trans; [exact Ht|]. apply extends_app, tidy_quiet. by constructor. }
  apply path_exists_safe; [done|]. intros b. by apply HQ.
Qed.
Lemma configfs_safe t t1 : extends tidy t t1 ->
  vsafe (with_request TSM_REPORT_BASE (lit "detect") provider) (extends tidy t) (fun _ t2 => extends tidy t t2) t1.
Proof.
  intros Ht. eapply vsafe_weaken; [eapply vsafe_mono; [apply (with_request_safe _ _ _ (fun _ _ _ => True))|]|].
  - intros p. generalize (opened t1 p). intros t0. apply vsafe_bind, read_blob_safe; [quiet|]. intros b _.
    apply vsafe_bind, vsafe_tee_some; [quiet|]. intros v _. apply vsafe_bind, vsafe_tee_need; [quiet|]. intros _. apply vsafe_ret. split; [done|quiet].
  - intros v t2 [H2 _]. by eapply extends_tidy_trans.
  - intros t2 H2. by eapply extends_tidy_trans.
Qed.
Lemma found_known nsm tdx snp cf v : found nsm tdx snp cf (Some v) -> v = NSM \/ v = TDX_GUEST \/ v = SEV_GUEST.
Proof. unfold found. intros [_ Hf]. destruct cf as [u|]; [naive_solver|]. destruct nsm, tdx, snp; naive_solver. Qed.
Definition detected (t : Trace) (p : TeeProvider) (t' : Trace) : Prop :=
  extends tidy t t' /\ provides p /\ exists nsm tdx snp cf v, found nsm tdx snp cf (Some v) /\ names v p.
Lemma detect_tee_safe t : vsafe detect_tee (extends tidy t) (detected t) t.
Proof.
  assert (extends tidy t t) as H0 by (exists []; rewrite app_nil_r; by split; [|apply tidy_nil]).
  apply vsafe_bind, looked_safe; [done|]. intros nsm t1 H1. apply vsafe_bind, looked_safe; [done|]. intros tdx1 t2 H2.
  eapply (vsafe_seq _ _ _ (fun _ t' => extends tidy t t')); [destruct tdx1; [done|by apply looked_safe]|]. intros tdx t3 H3.
  apply vsafe_bind, looked_safe; [done|]. intros snp t4 H4. apply vsafe_bind, vsafe_lift; [done|]. apply safe_reject_if. intros _.
  apply vsafe_bind, looked_safe; [done|]. intros tsm t5 H5.
  eapply (vsafe_seq _ _ _ (fun _ t' => extends tidy t t')).
  { destruct tsm; [|done]. eapply vsafe_seq; [by apply configfs_safe|]. by intros v t6 H6. }
  intros cf t6 H6. apply vsafe_bind, vsafe_lift; [done|].
  eapply safe_mono; [apply (decides_safe _ _ _ (choose_provider_exact nsm tdx snp cf))|]. intros o _ [_ Hf].
  eapply vsafe_weaken; [eapply vsafe_mono; [apply new_provider_safe|]|].
  - intros v ->. by eapply found_known.
  - intros p t7 (H7 & Hp & v & -> & Hn). split; [by eapply extends_tidy_trans|]. split; [done|]. by exists nsm, tdx, snp, cf, v.
  - intros t7 H7. by eapply extends_tidy_trans.
Qed.
End DetectSpec.

(** The host of [Tsm.sample_host] has the device files of every platform, so detection
    refuses it; with configfs alone it finds the TDX guest, which collects. *)
Definition only_configfs (files : list (bytes * bytes)) : Host := {|
  try_exists := fun _ path => Some (bytes_eqb path TSM_REPORT_BASE);
  draw16 := draw16 (Host := sample_host files); make_dir := make_dir (Host := sample_host files);
  remove_dir := remove_dir (Host := sample_host files); write_to := write_to (Host := sample_host files);
  read_at_most := read_at_most (Host := sample_host files); process_id := 1234; clock_at := clock_at (Host := sample_host files);
|}.
Definition no_snp {OS : Host} : SnpDevice OS :=
  {| linux_x86_64 := true; open_device := fun _ _ => false;
     snp_get_ext_report := fun _ _ => {| sc_failed := true; exitinfo2 := 0; sc_response := []; sc_certs := []; certs_len := 0 |} |}.
Definition no_nsm {OS : Host} : NsmDriver OS := {| nsm_init := fun _ => (-1)%Z; nsm_process_request := fun _ _ _ _ => NsmError |}.
Example tdx_detected :
  let OS := only_configfs tdx_guest in
  let m := detect_tee (OS := OS) (DV := no_snp) (DR := no_nsm) (NK := toy_keys) in
  let r := (p ← m; e ← tp_collect_evidence p sample_rd; mret (tp_platform p, raw_quote e)) [] in
  r.1 = Ok (Tdx, sample_tdx_quote).
Proof. vm_compute. reflexivity. Qed.
(** An enclave: the document is what the security module answers to the report data. *)
Definition only_nsm : Host := {|
  try_exists := fun _ path => Some (bytes_eqb path NSM_DEVICE);
  draw16 := fun _ => None; make_dir := fun _ _ => DirFailed; remove_dir := fun _ _ => false; write_to := fun _ _ _ => false;
  read_at_most := fun _ _ _ => NotFound; process_id := 1; clock_at := fun _ => None;
|}.
Definition echo_nsm : NsmDriver only_nsm :=
  {| nsm_init := fun _ => 3%Z; nsm_process_request := fun _ _ rd pub => NsmAttestation (rd ++ pub) |}.
Example nitro_detected :
  let m := detect_tee (OS := only_nsm) (DV := no_snp) (DR := echo_nsm) (NK := toy_keys) in
  let r := (p ← m; e ← tp_collect_evidence p sample_rd; tp_drop p;; mret (tp_platform p, raw_quote e)) [] in
  r.1 = Ok (Nitro, sample_rd ++ [x2a]) /\ drop 7 r.2 = [Drew; Attested 3 sample_rd [x2a]; Driver_closed 3].
Proof. split; vm_compute; reflexivity. Qed.
Example devices_in_conflict :
  (detect_tee (OS := sample_host []) (DV := no_snp) (DR := no_nsm) (NK := toy_keys) []).1 = Err (InvalidResponse "conflicting TEE device identities").
Proof. vm_compute. reflexivity. Qed.
