(* ===== verification/Verdict.v ===== *)
(** * Verdict: errors and effects of the top-level verifier

    [src/v2/src/attestation.rs] and [attestation_chain.rs] use [anyhow]: an error of a
    component becomes an [AttError] that keeps its cause.  The verifier writes its
    progress into a verdict through a [&mut] reference, and the progress survives a
    rejection; it also reads the system clock several times: its effects are those of
    [Effects.V]. *)
From S2P Require Import Prelude Bytes Spdm Opaque Text Crypto Boot Eat Pki TdxQuote Effects Host Tsm.
From S2P Require Export Effects.

Inductive AttError : Type :=
| Msg (message : string)
| FromEat (e : EatError)
| FromBoot (e : BootError)
| FromPki (e : PkiError)
| FromQuote (e : VerifyError)
| FromSpdm (e : SpdmError)
| FromOpaque (e : OpaqueError)
| FromTee (e : TeeError)
| InStage (name : bytes) (e : AttError)
| StageRejected (name : bytes) (failures : list AttError).

Definition att_need (c : bool) (m : string) : res AttError unit := ensure c (Msg m).
Definition att_some {A} (o : option A) (m : string) : res AttError A := ok_or o (Msg m).
Definition att_eat {A} : res EatError A -> res AttError A := map_err FromEat.
Definition att_boot {A} : res BootError A -> res AttError A := map_err FromBoot.
Definition att_pki {A} : res PkiError A -> res AttError A := map_err FromPki.
Definition att_quote {A} : res VerifyError A -> res AttError A := map_err FromQuote.
Definition att_spdm {A} : res SpdmError A -> res AttError A := map_err FromSpdm.
Definition att_opaque {A} : res OpaqueError A -> res AttError A := map_err FromOpaque.
(** Unfold the error conversions, for the rules of [safe] and [bind_Ok]. *)
Ltac att := unfold att_need, att_some, att_eat, att_boot, att_pki, att_quote, att_spdm, att_opaque in *.
