(* ===== verification/Tools.v ===== *)
(** * Tools: programs run with bounds on their time and output
    ([src/v2/src/tee/tpm.rs])

    A NitroTPM document comes from a tool of the distribution, run in a directory of its
    own with its output read through pipes.  [Machine] is what the operating system
    answers about files, processes and the monotonic clock; like [Host], its answers may
    depend on everything that happened before.  The only law ([MachineLaws]) is that a
    sleep lasts at least as long as asked, and it bounds the number of rounds of the
    waiting loop: with [rounds] of fuel the loop never runs out ([polling_safe]).

    Whatever the tool does, its process is waited for, the removal of its directory is
    requested (the code ignores whether it succeeds), its
    output is within the limit, and a document that is returned answers the request. *)
From S2P Require Import Prelude Bytes Text Crypto Pki NitroQuote NitroTpm Effects Host Tsm Verdict.

Inductive FileKind : Type := RegularFile | CharDevice | OtherFile.
Record Metadata : Type := { md_kind : FileKind; md_len : N; md_mode : N }.
Definition is_file (m : Metadata) : bool := match md_kind m with RegularFile => true | _ => false end.
Definition is_char_device (m : Metadata) : bool := match md_kind m with CharDevice => true | _ => false end.
Inductive Lookup : Type := Absent | LookupFailed | Found (m : Metadata).
(** The reads of one pipe until it is empty: data or an interrupted call ([None]), and
    how they end. *)
Inductive PipeEnd : Type := Closed | WouldBlock | PipeFailed.
Record PipeReads : Type := { reads : list (option bytes); reads_end : PipeEnd }.
Inductive WaitResult : Type := WaitFailed | Running | Exited (success : bool).
Class Machine := {
  canonicalize : Trace -> bytes -> option bytes;
  metadata : Trace -> bytes -> option Metadata;
  symlink_metadata : Trace -> bytes -> Lookup;
  (** create a new file and write it *)
  create_new : Trace -> bytes -> bytes -> bool;
  (** open a file for reading, or the diagnostic output for writing, without following links *)
  open_file : Trace -> bytes -> bool;
  file_metadata : Trace -> bytes -> option Metadata;
  (** read at most so many bytes of an open file *)
  read_open : Trace -> bytes -> N -> option bytes;
  spawn : Trace -> bytes -> list bytes -> option N;
  set_nonblocking : Trace -> N -> bool -> bool;
  pipe_reads : Trace -> N -> bool -> PipeReads;
  try_wait : Trace -> N -> WaitResult;
  (** [Instant::now], in nanoseconds *)
  monotonic : Trace -> N;
}.
Fixpoint slept (l : Trace) : N := match l with [] => 0 | Slept n :: l => n + slept l | _ :: l => slept l end.
Class MachineLaws (M : Machine) : Prop := { monotonic_slept t l : monotonic t + slept l <= monotonic (t ++ l) }.

Notation AIO := (IO AttError).
Definition io_need (c : bool) (m : string) : AIO unit := lift (att_need c m).
Definition io_some {A} (o : option A) (m : string) : AIO A := lift (att_some o m).

(** ** Processes *)
Definition SECOND : N := 1000000000.
Definition POLL : N := 10000000.
(** Rounds of ten milliseconds that fit before the time is over, and two more. *)
Definition rounds (timeout : N) : nat := N.to_nat (timeout / POLL + 2).

Section Processes.
Context `{M : Machine}.
Definition instant : AIO N := act (fun t => (Asked_time, monotonic t)).
Definition sleep (nanos : N) : AIO unit := act (fun _ => (Slept nanos, tt)).
Definition kill (pid : N) : AIO unit := act (fun _ => (Killed pid, tt)).
Definition waited (pid : N) : AIO WaitResult := act (fun t => (Polled pid, try_wait t pid)).
Definition start (program : bytes) (args : list bytes) : AIO (option N) :=
  act (fun t => (match spawn t program args with Some pid => Started pid program args | None => Refused program end, spawn t program args)).
(** [let _ = child.wait()] at the end. *)
Definition reaping {A} (pid : N) (m : AIO A) : AIO A := fun t => let '(r, t') := m t in (r, t' ++ [Reaped pid]).
Definition kill_on_error {A} (pid : N) (m : AIO A) : AIO A := fun t =>
  match m t with (Ok a, t') => (Ok a, t') | (r, t') => (r, t' ++ [Killed pid]) end.

(** [loop { round?; ensure!(elapsed < timeout); sleep(10 ms) }] *)
Fixpoint polling {S A} (fuel : nat) (from timeout : N) (late : string) (round : S -> AIO (S + A)) (s : S) : AIO A :=
  match fuel with
  | O => lift NoFuel
  | Datatypes.S fuel =>
    r ← round s;
    match r with
    | inr a => mret a
    | inl s => now ← instant; io_need (now - from <? timeout) late;; sleep POLL;; polling fuel from timeout late round s
    end
  end.

Definition drain_read (limit : N) (out : bytes) (r : option bytes) : res AttError bytes :=
  match r with
  | Some b => att_need (saturating_add u64_max (blen out) (blen b) <=? limit) "NitroTPM output exceeds limit";; Ok (out ++ b)
  | None => Ok out
  end.
Definition drain (pid : N) (stderr : bool) (out : bytes) (limit : N) : AIO bytes :=
  p ← act (fun t => (Drained pid stderr, pipe_reads t pid stderr));
  out ← lift (for_each (drain_read limit) out (reads p));
  io_need (match reads_end p with PipeFailed => false | _ => true end) "read pipe";;
  mret out.
Definition MAX_STDERR : N := 16 * 1024.
Definition drain_both (pid limit : N) (s : bytes * bytes) : AIO (bytes * bytes) :=
  out ← drain pid false s.1 limit; err ← drain pid true s.2 MAX_STDERR; mret (out, err).
Definition tool_round (pid limit : N) (s : bytes * bytes) : AIO ((bytes * bytes) + bytes) :=
  s ← drain_both pid limit s;
  w ← waited pid;
  match w with
  | WaitFailed => fails (Msg "wait")
  | Exited success => s ← drain_both pid limit s; io_need success "NitroTPM tool failed";; mret (inr s.1)
  | Running => mret (inl s)
  end.
Definition nonblocking (pid : N) (stderr : bool) : AIO unit := t ← state; io_need (set_nonblocking t pid stderr) "set nonblocking pipe".
Definition bounded_output (program : bytes) (args : list bytes) (timeout limit : N) : AIO bytes :=
  s ← start program args;
  pid ← io_some s "start NitroTPM tool";
  reaping pid (kill_on_error pid (
    nonblocking pid false;;
    nonblocking pid true;;
    from ← instant;
    polling (rounds timeout) from timeout "NitroTPM tool timed out" (tool_round pid limit) ([], []))).
End Processes.

(** ** The NitroTPM tool *)
Definition is_absolute (path : bytes) : bool := starts_with [slash] path.
Definition TMP : bytes := lit "/tmp".
Record TpmAttestation : Type := { ta_digest : bytes; ta_document : option bytes; ta_pcrs : gmap N bytes }.
Definition NITRO_TOOLS : list bytes := [lit "/usr/bin/nitro-tpm-attest"; lit "/usr/local/bin/nitro-tpm-attest"].

Section Nitro.
Context `{OS : Host} `{M : Machine} `{H : Sha2} `{C : Ciborium}.
Definition look (path : bytes) : AIO (option Metadata) := act (fun t => (Looked path, metadata t path)).
Definition write_new (directory name value : bytes) : AIO bytes :=
  let path := join directory name in
  ok ← act (fun t => (Wrote path value, create_new t path value)); io_need ok "write";; mret path.
Definition tool_arguments (directory nonce : bytes) (user_data : option bytes) : AIO (list bytes) :=
  nonce_file ← write_new directory (lit "nonce") nonce;
  match user_data with
  | None => mret [lit "--nonce"; nonce_file]
  | Some data => data_file ← write_new directory (lit "user-data") data; mret [lit "--nonce"; nonce_file; lit "--user-data"; data_file]
  end.
Definition collect_nitrotpm_document_with_tool (tool nonce : bytes) (user_data : option bytes) : AIO bytes :=
  io_need (is_absolute tool) "NitroTPM tool path must be absolute";;
  io_need (match user_data with Some d => blen d <=? 1024 | None => true end) "NitroTPM user_data exceeds AWS limit";;
  r ← draw;
  random ← io_some r "NitroTPM temporary directory randomness";
  let directory := join TMP (lit "uq-nitrotpm-" ++ to_decimal process_id ++ lit "-" ++ hex_encode random) in
  made ← mkdir directory;
  io_need (match made with DirMade => true | _ => false end) "create directory";;
  finally_remove directory (
    args ← tool_arguments directory nonce user_data;
    output ← bounded_output tool args (20 * SECOND) MAX_NITROTPM_DOCUMENT_BYTES;
    lift (att_pki (inspect_document output nonce user_data));;
    mret output).
Fixpoint first_file (paths : list bytes) : AIO (option bytes) :=
  match paths with
  | [] => mret None
  | path :: paths => m ← look path; if from_option is_file false m then mret (Some path) else first_file paths
  end.
Definition which_nitro_tpm_attest : AIO (option bytes) := first_file NITRO_TOOLS.
Definition tpm_available : AIO bool := tool ← which_nitro_tpm_attest; mret (bool_decide (is_Some tool)).
Definition collect_nitrotpm_document (nonce : bytes) (user_data : option bytes) : AIO bytes :=
  t ← which_nitro_tpm_attest;
  tool ← io_some t "signed NitroTPM tool is unavailable";
  collect_nitrotpm_document_with_tool tool nonce user_data.
Definition collect_tpm_attestation (nonce : bytes) : AIO TpmAttestation :=
  io_need (blen nonce =? 32) "NitroTPM requires a 32-byte challenge";;
  doc ← collect_nitrotpm_document nonce None;
  pcrs ← lift (att_pki (inspect_document doc nonce None));
  mret {| ta_digest := sha256 doc; ta_document := Some doc; ta_pcrs := pcrs |}.

(** The diagnostic that reads sysfs. *)
Definition sysfs_pcr (base : bytes) (pcrs : gmap N bytes) (i : N) : AIO (gmap N bytes) :=
  io_need ((i <? 24) && bool_decide (pcrs !! i = None)) "invalid/duplicate diagnostic PCR index";;
  r ← read_file (join base (to_decimal i)) 129;
  data ← (match r with Content b => mret b | _ => fails (Msg "read PCR") end);
  io_need (blen data <=? 128) "PCR sysfs text exceeds limit";;
  text ← io_some (from_utf8 data) "invalid UTF-8";
  value ← io_some (hex_decode (str_trim text)) "invalid hex";
  io_need (blen value =? 32) "diagnostic pcr-sha256 value must be 32 bytes";;
  mret (<[i := value]> pcrs).
Fixpoint sysfs_pcrs (base : bytes) (pcrs : gmap N bytes) (indices : list N) : AIO (gmap N bytes) :=
  match indices with
  | [] => mret pcrs
  | i :: indices => pcrs ← sysfs_pcr base pcrs i; sysfs_pcrs base pcrs indices
  end.
Definition read_unverified_sysfs_pcrs (base : bytes) (indices : list N) : AIO (gmap N bytes) :=
  io_need (negb (blen indices =? 0) && (blen indices <=? 24)) "invalid diagnostic PCR selection";;
  sysfs_pcrs base ∅ indices.
End Nitro.

(** * Lemmas *)
Lemma extends_quiet_trans t t1 t2 : extends quiet_trace t t1 -> extends quiet_trace t1 t2 -> extends quiet_trace t t2.
Proof. apply extends_trans. intros l l'. apply Forall_app_2. Qed.
Lemma extends_refl t : extends quiet_trace t t.
Proof. exists []. rewrite app_nil_r. by split; [|constructor]. Qed.
Lemma extends_quiet_tidy t t' : extends quiet_trace t t' -> extends tidy t t'.
Proof. intros (l & -> & Hl). by apply extends_app, tidy_quiet. Qed.
Lemma io_need_safe (c : bool) m (I : Trace -> Prop) (Q : unit -> Trace -> Prop) t : I t -> (c = true -> Q tt t) -> vsafe (io_need c m) I Q t.
Proof. apply vsafe_need. Qed.
Lemma io_some_safe {A} (o : option A) m (I : Trace -> Prop) (Q : A -> Trace -> Prop) t : I t -> (forall a, o = Some a -> Q a t) -> vsafe (io_some o m) I Q t.
Proof. apply vsafe_some. Qed.
(** One quiet operation after quiet ones. *)
Lemma extends_snoc t t1 e : quiet_event e = true -> extends quiet_trace t t1 -> extends quiet_trace t (t1 ++ [e]).
Proof. intros He Ht. eapply extends_quiet_trans; [exact Ht|]. apply extends_app. by constructor. Qed.
Ltac calm := repeat (first [assumption | apply extends_refl | apply extends_snoc; [reflexivity|]]).
Lemma quiet_safe {A} (m : AIO A) (P : A -> Prop) (Q : A -> Trace -> Prop) t t1 :
  vsafe m (extends quiet_trace t1) (fun a t2 => extends quiet_trace t1 t2 /\ P a) t1 -> extends quiet_trace t t1 ->
  (forall a t2, extends quiet_trace t t2 -> P a -> Q a t2) -> vsafe m (extends quiet_trace t) Q t1.
Proof.
  intros Hm Ht HQ. eapply vsafe_weaken; [eapply vsafe_mono; [exact Hm|]|].
  - intros a t2 [H2 HP]. apply HQ; [by eapply extends_quiet_trans|done].
  - intros t2 H2. by eapply extends_quiet_trans.
Qed.

Lemma slept_app l l' : slept (l ++ l') = slept l + slept l'.
Proof. induction l as [|e l IH]; cbn [slept app]; [lia|]. rewrite IH. destruct e; lia. Qed.

Section Rules.
Context `{M : Machine} {ML : MachineLaws M}.
(** The waiting loop: with [k] sleeps behind it, enough fuel, and an invariant of the
    rounds, it returns. *)
Lemma polling_loop_safe {S A} (round : S -> AIO (S + A)) (J : S -> Prop) (P : A -> Prop) timeout late t0 :
  (forall s t, J s -> vsafe (round s) (extends quiet_trace t)
    (fun r t' => extends quiet_trace t t' /\ match r with inl s' => J s' | inr a => P a end) t) ->
  forall fuel k s l, J s -> quiet_trace l -> k * POLL <= slept l -> k = 0 \/ (k - 1) * POLL < timeout ->
  timeout + POLL <= (k + N.of_nat fuel) * POLL ->
  vsafe (polling fuel (monotonic t0) timeout late round s) (extends quiet_trace t0) (fun a t' => extends quiet_trace t0 t' /\ P a) (t0 ++ l).
Proof.
  intros Hround. induction fuel as [|fuel IH]; intros k s l HJ Hl Hk Hlast Hfuel.
  - exfalso. unfold POLL in *. nia.
  - cbn [polling]. apply vsafe_bind. assert (extends quiet_trace t0 (t0 ++ l)) as Ht by by apply extends_app.
    eapply vsafe_weaken; [eapply vsafe_mono; [by apply Hround|]|intros t'; by apply extends_quiet_trans].
    intros [s'|a] t2 [(l2 & -> & Hl2) Hr]; [|apply vsafe_ret; split; [|done]; eapply extends_quiet_trans; [exact Ht|by apply extends_app]].
    assert (quiet_trace (l ++ l2)) as Hq by by apply Forall_app_2. rewrite <- app_assoc. apply vsafe_bind, vsafe_act. cbn [fst snd].
    apply vsafe_bind, io_need_safe; [rewrite <- app_assoc; apply extends_app, Forall_app_2; [done|by repeat constructor]|].
    intros Hin%N.ltb_lt. apply vsafe_bind, vsafe_act. cbn [fst snd]. rewrite <- !app_assoc, (app_assoc l).
    pose proof (monotonic_slept t0 (l ++ l2)) as Hm. rewrite slept_app in Hm.
    apply (IH (k + 1)); [done|by apply Forall_app_2; [done|repeat constructor]| | |unfold POLL in *; lia].
    + rewrite slept_app, slept_app. cbn [slept app]. lia.
    + right. rewrite N.add_sub. lia.
Qed.
Lemma polling_safe {S A} (round : S -> AIO (S + A)) (J : S -> Prop) (P : A -> Prop) timeout late t0 s l :
  (forall s t, J s -> vsafe (round s) (extends quiet_trace t)
    (fun r t' => extends quiet_trace t t' /\ match r with inl s' => J s' | inr a => P a end) t) -> J s -> quiet_trace l ->
  vsafe (polling (rounds timeout) (monotonic t0) timeout late round s) (extends quiet_trace t0) (fun a t' => extends quiet_trace t0 t' /\ P a) (t0 ++ l).
Proof.
  intros Hround HJ Hl. apply (polling_loop_safe round J P timeout late t0 Hround _ 0 s l HJ Hl); [lia|by left|].
  unfold rounds. rewrite N2Nat.id. unfold POLL. pose proof (N.div_mod timeout 10000000). pose proof (N.mod_lt timeout 10000000). lia.
Qed.

Lemma drain_read_safe limit out r : limit < u64_max -> blen out <= limit -> safe (drain_read limit out r) (fun out' => blen out' <= limit).
Proof.
  intros Hm Ho. destruct r as [b|]; cbn [drain_read]; [|done]. att. apply safe_bind, safe_ensure. intros Hb%N.leb_le.
  cbn [safe]. rewrite blen_app. unfold saturating_add in Hb. lia.
Qed.
Lemma drain_safe pid stderr out limit t : limit < u64_max -> blen out <= limit ->
  vsafe (drain pid stderr out limit) (extends quiet_trace t) (fun out' t' => extends quiet_trace t t' /\ blen out' <= limit) t.
Proof.
  intros Hm Ho. apply vsafe_bind, vsafe_act. cbn [fst snd]. set (p := pipe_reads t pid stderr). clearbody p.
  apply vsafe_bind, vsafe_lift; [calm|].
  eapply safe_mono; [apply (safe_for_each _ (fun out => blen out <= limit)); [done|intros o r _ Ho'; by apply drain_read_safe]|].
  intros out' _ Hout. apply vsafe_bind, io_need_safe; [calm|]. intros _. apply vsafe_ret. split; [calm|done].
Qed.
Definition drained (limit : N) (s : bytes * bytes) : Prop := blen s.1 <= limit /\ blen s.2 <= MAX_STDERR.
Lemma drain_both_safe pid limit s t : limit < u64_max -> drained limit s ->
  vsafe (drain_both pid limit s) (extends quiet_trace t) (fun s' t' => extends quiet_trace t t' /\ drained limit s') t.
Proof.
  intros Hm [Ho He]. apply vsafe_bind. eapply quiet_safe; [by apply drain_safe|calm|]. intros out t1 H1 Hout.
  apply vsafe_bind. eapply quiet_safe; [by apply drain_safe|done|]. intros err t2 H2 Herr. by apply vsafe_ret.
Qed.
Lemma tool_round_safe pid limit s t : limit < u64_max -> drained limit s ->
  vsafe (tool_round pid limit s) (extends quiet_trace t)
    (fun r t' => extends quiet_trace t t' /\ match r with inl s' => drained limit s' | inr out => blen out <= limit end) t.
Proof.
  intros Hm Hs. apply vsafe_bind. eapply quiet_safe; [by apply drain_both_safe|calm|]. intros s1 t1 H1 Hs1.
  apply vsafe_bind, vsafe_act. cbn [fst snd]. destruct (try_wait t1 pid) as [| |success]; [apply vsafe_fails; calm|apply vsafe_ret; split; [calm|done]|].
  apply vsafe_bind. eapply quiet_safe; [by apply drain_both_safe|calm|]. intros s2 t2 H2 Hs2.
  apply vsafe_bind, io_need_safe; [done|]. intros _. apply vsafe_ret. split; [done|apply Hs2].
Qed.
Lemma kill_on_error_safe {A} pid (m : AIO A) (Q : A -> Trace -> Prop) t t1 :
  vsafe m (extends quiet_trace t) Q t1 -> vsafe (kill_on_error pid m) (extends quiet_trace t) Q t1.
Proof. unfold vsafe, kill_on_error. destruct (m t1) as [[a|e| |] t']; try done. intros Ht. calm. Qed.
(** A process of one's own: waited for, whatever happens to it. *)
Lemma child_safe {A} pid program args (m : AIO A) (P : A -> Prop) t :
  (forall t1, vsafe m (extends quiet_trace t1) (fun a t2 => extends quiet_trace t1 t2 /\ P a) t1) ->
  vsafe (reaping pid m) (extends tidy t)
    (fun a t' => P a /\ exists l, quiet_trace l /\ t' = t ++ Started pid program args :: l ++ [Reaped pid]) (t ++ [Started pid program args]).
Proof.
  intros Hm. specialize (Hm (t ++ [Started pid program args])). unfold vsafe, reaping in *.
  destruct (m _) as [[a|e| |] t'] eqn:E; try done.
  - destruct Hm as [(l & -> & Hl) HP]. split; [done|]. exists l. split; [done|]. by rewrite <- !app_assoc.
  - destruct Hm as (l & -> & Hl). rewrite <- !app_assoc. apply extends_app.
    by apply (tidy_around _ l 0 _ (Child pid)), tidy_quiet.
Qed.
Lemma bounded_output_safe program args timeout limit t : limit < u64_max ->
  vsafe (bounded_output program args timeout limit) (extends tidy t)
    (fun out t' => blen out <= limit /\ exists pid l, quiet_trace l /\ t' = t ++ Started pid program args :: l ++ [Reaped pid]) t.
Proof.
  intros Hm. apply vsafe_bind, vsafe_act. cbn [fst snd]. destruct (spawn t program args) as [pid|].
  2: { apply vsafe_bind, io_some_safe; [|done]. apply extends_quiet_tidy. calm. }
  eapply vsafe_bind, vsafe_pure; [done|]. cbv beta. eapply vsafe_mono; [apply (child_safe pid program args _ (fun out => blen out <= limit))|].
  2: { intros out t' (Ho & l & Hl & ->). split; [done|]. by exists pid, l. }
  intros t1. apply kill_on_error_safe. unfold nonblocking, io_need.
  do 2 (apply vsafe_bind, vsafe_bind, vsafe_state; apply vsafe_need; [calm|]; intros _).
  apply vsafe_bind, vsafe_act. cbn [fst snd].
  apply (polling_safe _ (drained limit)); [intros; by apply tool_round_safe|split; apply N.le_0_l|by repeat constructor].
Qed.
End Rules.

(** ** The session of the NitroTPM tool *)
Definition user_data_file (directory : bytes) (user_data : option bytes) : list Event :=
  match user_data with Some d => [Wrote (join directory (lit "user-data")) d] | None => [] end.
Definition nitro_args (directory : bytes) (user_data : option bytes) : list bytes :=
  [lit "--nonce"; join directory (lit "nonce")] ++
  match user_data with Some _ => [lit "--user-data"; join directory (lit "user-data")] | None => [] end.
(** The operations of a collection in [directory], those of the tool's process aside. *)
Definition nitro_session (tool nonce : bytes) (user_data : option bytes) (directory : bytes) (pid : N) (l : Trace) : Trace :=
  [Drew; Created directory true; Wrote (join directory (lit "nonce")) nonce] ++ user_data_file directory user_data ++
  (Started pid tool (nitro_args directory user_data) :: l ++ [Reaped pid]) ++ [Removed directory].
Record nitro_collected `{C : Ciborium} (tool nonce : bytes) (user_data : option bytes) (t : Trace) (doc : bytes) (t' : Trace) : Prop := {
  nc_session : exists directory pid l, quiet_trace l /\ t' = t ++ nitro_session tool nonce user_data directory pid l;
  nc_size : blen doc <= MAX_NITROTPM_DOCUMENT_BYTES;
  nc_answers : exists pcrs, inspect_document doc nonce user_data = Ok pcrs;
}.
Lemma quiet_user_data d ud : quiet_trace (user_data_file d ud).
Proof. by destruct ud; repeat constructor. Qed.

(** A directory of one's own, removed at the end. *)
Lemma own_directory_safe {A} d (m : AIO A) (Q R : A -> Trace -> Prop) t :
  vsafe m (extends tidy (t ++ [Created d true])) R (t ++ [Created d true]) -> (forall a t', R a t' -> Q a (t' ++ [Removed d])) ->
  vsafe (finally_remove d m) (extends tidy t) Q (t ++ [Created d true]).
Proof.
  intros Hm HQ. eapply vsafe_finally; [exact Hm| |exact HQ]. intros t' (l & -> & Hl). rewrite <- !app_assoc. apply extends_app.
  by apply (tidy_bracket d l 0).
Qed.

Section NitroSpec.
Context `{OS : Host} `{M : Machine} {ML : MachineLaws M} `{H : Sha2} `{C : Ciborium}.
Lemma inspect_safe raw nonce ud : safe (inspect_document raw nonce ud) (fun _ => True).
Proof.
  unfold inspect_document. eapply safe_seq; [apply parse_document_safe|]. intros d _ _. pki.
  do 2 (apply safe_bind, safe_ensure; intros _). done.
Qed.
Lemma write_new_safe d name v t :
  vsafe (write_new d name v) (extends quiet_trace t) (fun p t' => p = join d name /\ t' = t ++ [Wrote (join d name) v]) t.
Proof. apply vsafe_bind, vsafe_act. cbn [fst snd]. apply vsafe_bind, io_need_safe; [calm|]. intros _. by apply vsafe_ret. Qed.
Lemma tool_arguments_safe d nonce ud t :
  vsafe (tool_arguments d nonce ud) (extends quiet_trace t)
    (fun args t' => args = nitro_args d ud /\ t' = t ++ Wrote (join d (lit "nonce")) nonce :: user_data_file d ud) t.
Proof.
  apply vsafe_bind. eapply vsafe_mono; [apply write_new_safe|]. intros p t1 [-> ->]. destruct ud as [data|]; [|by apply vsafe_ret].
  apply vsafe_bind. eapply vsafe_weaken; [eapply vsafe_mono; [apply write_new_safe|]|].
  - intros p t2 [-> ->]. apply vsafe_ret. split; [done|]. by rewrite <- app_assoc.
  - intros t'. apply extends_quiet_trans. calm.
Qed.
Lemma nitro_with_tool_safe tool nonce ud t :
  vsafe (collect_nitrotpm_document_with_tool tool nonce ud) (extends tidy t) (nitro_collected tool nonce ud t) t.
Proof.
  assert (extends tidy t t) as H0 by apply extends_quiet_tidy, extends_refl.
  apply vsafe_bind, io_need_safe; [done|]. intros _. apply vsafe_bind, io_need_safe; [done|]. intros _.
  apply vsafe_bind, vsafe_act. cbn [fst snd]. apply vsafe_bind, io_some_safe; [apply extends_quiet_tidy; calm|]. intros random _.
  apply vsafe_bind, vsafe_act. cbn [fst snd]. set (d := join TMP _). clearbody d. destruct (make_dir (t ++ [Drew]) d) eqn:Hd.
  2-3: apply vsafe_bind, io_need_safe; [apply extends_quiet_tidy; calm|done].
  eapply vsafe_bind, vsafe_pure; [done|]. cbv beta. eapply vsafe_weaken; [eapply own_directory_safe|].
  - apply vsafe_bind. eapply vsafe_weaken; [eapply vsafe_mono; [apply tool_arguments_safe|]|apply extends_quiet_tidy].
    intros args t1 [-> ->]. set (t1 := ((t ++ [Drew]) ++ [Created d true]) ++ _).
    assert (extends tidy ((t ++ [Drew]) ++ [Created d true]) t1) as H1 by (apply extends_app, tidy_quiet; constructor; [done|apply quiet_user_data]).
    apply vsafe_bind. eapply vsafe_weaken; [eapply vsafe_mono; [by apply bounded_output_safe|]|].
    2: { intros t2 H2. eapply extends_tidy_trans; [exact H1|exact H2]. }
    intros out t2 [Ho (pid & l & Hl & ->)]. apply vsafe_bind, vsafe_lift.
    { eapply extends_tidy_trans; [exact H1|]. apply extends_app. by apply (tidy_around _ l 0 _ (Child pid)), tidy_quiet. }
    destruct (inspect_document out nonce ud) as [pcrs|e| |] eqn:Hp; cbn; [|done|by pose proof (inspect_safe out nonce ud) as Hs; rewrite Hp in Hs..].
    instantiate (1 := fun doc t' => nitro_collected tool nonce ud t doc (t' ++ [Removed d])). cbv beta.
    split; [|done|by exists pcrs]. exists d, pid, l. split; [done|]. subst t1. unfold nitro_session. by rewrite <- !app_assoc.
  - by intros doc t'.
  - intros t'. apply extends_tidy_trans. apply extends_quiet_tidy. calm.
Qed.
Lemma first_file_safe paths t :
  vsafe (first_file paths) (extends quiet_trace t) (fun o t' => extends quiet_trace t t' /\ forall p, o = Some p -> p ∈ paths) t.
Proof.
  revert t. induction paths as [|p ps IH]; intros t; cbn [first_file]; [by apply vsafe_ret; split; [calm|]|].
  apply vsafe_bind, vsafe_act. cbn [fst snd]. destruct (from_option is_file false _).
  - apply vsafe_ret. split; [calm|]. intros ? [= ->]. by left.
  - eapply quiet_safe; [apply IH|calm|]. cbv beta. intros o t2 H2 Ho. split; [done|]. intros q Hq. right. by apply Ho.
Qed.
(** A document collected with one of the tools of the distribution. *)
Definition nitro_document (nonce : bytes) (ud : option bytes) (t : Trace) (doc : bytes) (t' : Trace) : Prop :=
  exists t1 tool, extends quiet_trace t t1 /\ tool ∈ NITRO_TOOLS /\ nitro_collected tool nonce ud t1 doc t'.
Lemma nitro_document_safe nonce ud t : vsafe (collect_nitrotpm_document nonce ud) (extends tidy t) (nitro_document nonce ud t) t.
Proof.
  apply vsafe_bind. eapply vsafe_weaken; [eapply vsafe_mono; [apply first_file_safe|]|apply extends_quiet_tidy].
  intros o t1 [H1 Ho]. apply vsafe_bind, io_some_safe; [by apply extends_quiet_tidy|]. intros tool ->.
  eapply vsafe_weaken; [eapply vsafe_mono; [apply nitro_with_tool_safe|]|].
  - intros doc t2 Hd. exists t1, tool. split; [done|]. split; [by apply Ho|done].
  - intros t2 H2. eapply extends_tidy_trans; [by apply extends_quiet_tidy|exact H2].
Qed.
Lemma nitro_session_tidy tool nonce ud d pid l : quiet_trace l -> tidy (nitro_session tool nonce ud d pid l).
Proof.
  intros Hl. unfold nitro_session.
  replace (_ ++ _) with ([Drew] ++ (Created d true :: ([Wrote (join d (lit "nonce")) nonce] ++ user_data_file d ud ++
    Started pid tool (nitro_args d ud) :: l ++ replicate 1 (Reaped pid)) ++ replicate 1 (Removed d))).
  2: { generalize (user_data_file d ud) (nitro_args d ud) (Wrote (join d (lit "nonce")) nonce). intros us args w. cbn. rewrite <- !app_assoc. cbn. by rewrite <- app_assoc. }
  apply tidy_app; [by apply tidy_quiet; repeat constructor|]. apply tidy_bracket, tidy_app; [by apply tidy_quiet; repeat constructor|].
  apply tidy_app; [apply tidy_quiet, quiet_user_data|]. by apply (tidy_around _ l 0 _ (Child pid)), tidy_quiet.
Qed.
(** A collection leaves nothing behind. *)
Lemma nitro_document_tidy nonce ud t doc t' : nitro_document nonce ud t doc t' -> extends tidy t t'.
Proof.
  intros (t1 & tool & H1 & _ & [(d & pid & l & Hl & ->) _ _]). eapply extends_tidy_trans; [by apply extends_quiet_tidy|].
  by apply extends_app, nitro_session_tidy.
Qed.
(** Collecting a NitroTPM document.  Whatever the tool, its pipes and the file system
    do, the collection returns: the loop that waits for the tool ends within its
    deadline, and nothing panics.  When it fails, it has still asked for the removal of the
    directory that it created and waited for the process that it started.  When it succeeds, exactly the
    operations of one session took place, in this order, with the nonce and the user data
    in the files that the tool was given, and the document is within the limit, is well
    formed, and carries that nonce and that user data. *)
Theorem nitrotpm_collection nonce ud t :
  vsafe (collect_nitrotpm_document nonce ud) (extends tidy t)
    (fun doc t' => extends tidy t t' /\ nitro_document nonce ud t doc t') t.
Proof. eapply vsafe_mono; [apply nitro_document_safe|]. intros doc t' Hd. split; [by eapply nitro_document_tidy|done]. Qed.

Lemma tpm_attestation_safe nonce t :
  vsafe (collect_tpm_attestation nonce) (extends tidy t)
    (fun a t' => exists doc, ta_document a = Some doc /\ ta_digest a = sha256 doc /\ inspect_document doc nonce None = Ok (ta_pcrs a) /\
       nitro_document nonce None t doc t') t.
Proof.
  apply vsafe_bind, io_need_safe; [by apply extends_quiet_tidy, extends_refl|]. intros _.
  apply vsafe_bind. eapply vsafe_mono; [apply nitro_document_safe|]. intros doc t1 Hd.
  apply vsafe_bind, vsafe_lift; [by eapply nitro_document_tidy|].
  pose proof (inspect_safe doc nonce None) as Hs. destruct (inspect_document doc nonce None) as [pcrs|e| |] eqn:Hp; try done.
  cbn [att_pki map_err safe]. apply vsafe_ret. exists doc. by split.
Qed.
Lemma tpm_available_safe t : vsafe tpm_available (extends quiet_trace t) (fun _ t' => extends quiet_trace t t') t.
Proof. apply vsafe_bind. eapply vsafe_mono; [apply first_file_safe|]. intros o t1 [H1 _]. by apply vsafe_ret. Qed.

(** The diagnostic: exactly the PCRs that were asked for, each of 32 bytes. *)
Definition diagnosed (done : list N) (pcrs : gmap N bytes) : Prop :=
  forall i, (i ∈ done -> exists v, pcrs !! i = Some v /\ blen v = 32 /\ i < 24) /\ (i ∉ done -> pcrs !! i = None).
Lemma sysfs_pcr_safe base pcrs i t l : diagnosed l pcrs ->
  vsafe (sysfs_pcr base pcrs i) (extends quiet_trace t) (fun pcrs' t' => extends quiet_trace t t' /\ diagnosed (l ++ [i]) pcrs') t.
Proof.
  intros Hd. apply vsafe_bind, io_need_safe; [calm|]. intros [Hi%N.ltb_lt Hnew%bool_decide_eq_true]%andb_true_iff.
  apply vsafe_bind, vsafe_act. cbn [fst snd]. set (r := read_at_most _ _ _). clearbody r. apply vsafe_bind.
  destruct r as [| | |data]; try (apply vsafe_fails; calm). apply vsafe_ret.
  apply vsafe_bind, io_need_safe; [calm|]. intros _. apply vsafe_bind, io_some_safe; [calm|]. intros text _.
  apply vsafe_bind, io_some_safe; [calm|]. intros v _. apply vsafe_bind, io_need_safe; [calm|]. intros Hv%N.eqb_eq.
  apply vsafe_ret. split; [calm|]. intros j. rewrite elem_of_app, list_elem_of_singleton. destruct (Hd j) as [H1 H2].
  destruct (decide (j = i)) as [->|Hne].
  - rewrite lookup_insert_eq. split; [intros _; by exists v|]. intros Hn. exfalso. apply Hn. by right.
  - rewrite lookup_insert_ne by done. split; [intros [Hj|?]; [by apply H1|done]|]. intros Hn. apply H2. naive_solver.
Qed.
Lemma sysfs_safe base indices t :
  vsafe (read_unverified_sysfs_pcrs base indices) (extends quiet_trace t)
    (fun pcrs t' => extends quiet_trace t t' /\ diagnosed indices pcrs) t.
Proof.
  apply vsafe_bind, io_need_safe; [calm|]. intros _.
  enough (forall todo l pcrs t1, diagnosed l pcrs -> extends quiet_trace t t1 ->
    vsafe (sysfs_pcrs base pcrs todo) (extends quiet_trace t) (fun pcrs t' => extends quiet_trace t t' /\ diagnosed (l ++ todo) pcrs) t1) as Hg
    by (apply (Hg indices []); [intros i; split; [by intros ?%not_elem_of_nil|done]|calm]).
  induction todo as [|i todo IH]; intros l pcrs t1 Hl H1; cbn [sysfs_pcrs]; [apply vsafe_ret; by rewrite app_nil_r|].
  apply vsafe_bind. eapply quiet_safe; [by apply sysfs_pcr_safe|done|]. cbv beta. intros pcrs' t2 H2 Hl'.
  rewrite (app_assoc l [i] todo : l ++ i :: todo = _). by apply IH.
Qed.
End NitroSpec.

(** ** A tool *)
(** A machine on which the tool exits after [run_time] nanoseconds, its document on its
    output; a sleep takes ten times as long as asked. *)
Definition sample_machine (tool document : bytes) (run_time : N) : Machine := {|
  canonicalize := fun _ path => Some path;
  metadata := fun _ path => if bytes_eqb path tool then Some {| md_kind := RegularFile; md_len := 4096; md_mode := 0x1ed |} else None;
  symlink_metadata := fun _ _ => Absent;
  create_new := fun _ _ _ => true;
  open_file := fun _ _ => true;
  file_metadata := fun _ _ => Some {| md_kind := RegularFile; md_len := 0; md_mode := 0x180 |};
  read_open := fun _ _ _ => None;
  spawn := fun _ _ _ => Some 77;
  set_nonblocking := fun _ _ _ => true;
  pipe_reads := fun t _ stderr =>
    {| reads := if stderr || existsb (fun e => match e with Drained _ _ => true | _ => false end) t then [] else [None; Some document];
       reads_end := WouldBlock |};
  try_wait := fun t _ => if 10 * slept t <? run_time then Running else Exited true;
  monotonic := fun t => 10 * slept t;
|}.
Lemma sample_machine_laws tool document run_time : MachineLaws (sample_machine tool document run_time).
Proof. split. intros t l. cbn. rewrite slept_app. lia. Qed.
Definition NITRO_TOOL : bytes := lit "/usr/local/bin/nitro-tpm-attest".
Definition run_nitro (tool : bytes) (run_time : N) : res AttError bytes * Trace :=
  collect_nitrotpm_document (OS := sample_host []) (M := sample_machine tool [x01] run_time) (C := sample_ciborium) (replicate 32 x0d) None [].
Example nitro_document_read : (run_nitro NITRO_TOOL 250000000).1 = Ok [x01].
Proof. vm_compute. reflexivity. Qed.
Example nitro_tool_missing : run_nitro (lit "/opt/tool") 0 = (Err (Msg "signed NitroTPM tool is unavailable"), Looked <$> NITRO_TOOLS).
Proof. vm_compute. reflexivity. Qed.
(** A tool that does not end is killed, waited for, and its directory is removed. *)
Example nitro_tool_late :
  let r := run_nitro NITRO_TOOL (30 * SECOND) in
  r.1 = Err (Msg "NitroTPM tool timed out") /\ drop (length r.2 - 3) r.2 =
    [Killed 77; Reaped 77; Removed (join TMP (lit "uq-nitrotpm-1234-07070707070707070707070707070707"))].
Proof. vm_compute. by split. Qed.
Lemma nitro_run : exists t', run_nitro NITRO_TOOL 250000000 = (Ok [x01], t').
Proof. eexists. vm_compute. reflexivity. Qed.
Lemma nitrotpm_collection_witness : exists t', extends tidy [] t' /\
  nitro_document (C := sample_ciborium) (replicate 32 x0d) None [] [x01] t'.
Proof.
  destruct nitro_run as [t' E].
  pose proof (nitrotpm_collection (OS := sample_host []) (M := sample_machine NITRO_TOOL [x01] 250000000)
    (ML := sample_machine_laws _ _ _) (C := sample_ciborium) (replicate 32 x0d) None []) as Ht.
  unfold vsafe in Ht. unfold run_nitro in E. rewrite E in Ht. exists t'. exact Ht.
Defined.
