(* ===== verification/AzureCollect.v ===== *)
(** * AzureCollect: a quote of the paravisor's TPM
    ([src/v2/src/tee/azure_composite/collector.rs])

    Two programs of tpm2-tools read the HCL report and quote the TPM; their outputs are
    files in a private directory, bounded while the programs run and again when they are
    read.  The programs are run through [Tools.Machine], with the same waiting loop.

    What is collected satisfies the conditions that the verifier ([Azure]) checks of a
    quote, under the key that the report names: [azure_collection] is the counterpart of
    the verifier's theorem. *)
From S2P Require Import Prelude Bytes Text Crypto Pki Azure Effects Host Tsm Verdict NitroQuote NitroTpm Tools.

(** ** Definitions *)
Record AzureCompositeCollector : Type := { cl_nvread : bytes; cl_quote : bytes; cl_device : bytes }.
Definition validate_indices (indices : list N) : res AttError unit :=
  att_need (negb (blen indices =? 0) && (blen indices <=? 16) && forallb (fun i => i <? 16) indices && windows2 N.ltb indices)
    "Azure collection requires 1..16 unique increasing PCR indices within 0..15".
Definition MAX_EXECUTABLE : N := 64 * 1024 * 1024.
Definition MAX_DIAGNOSTIC_FILE : N := 16 * 1024.
Definition DEADLINE : N := 15 * SECOND.

Section Collect.
Context `{OS : Host} `{M : Machine} `{H : Sha2} `{L : AzureLibs}.
Definition resolve (path : bytes) : AIO (option bytes) := act (fun t => (Looked path, canonicalize t path)).
Definition executable_file (path : bytes) : AIO bytes :=
  io_need (is_absolute path) "Azure collection requires absolute trusted tool paths";;
  p ← resolve path;
  path ← io_some p "resolve Azure TPM tool executable";
  m ← look path;
  md ← io_some m "metadata";
  io_need (is_file md && (0 <? md_len md) && (md_len md <=? MAX_EXECUTABLE)) "Azure TPM tool is not a bounded nonempty regular file";;
  io_need (negb (N.land (md_mode md) 0x49 =? 0)) "Azure TPM tool is not executable";;
  mret path.
Definition AzureCompositeCollector_new (nvread quote device : bytes) : AIO AzureCompositeCollector :=
  io_need (bytes_eqb device (lit "/dev/tpmrm0") || bytes_eqb device (lit "/dev/tpm0"))
    "Azure TPM device must be explicitly /dev/tpmrm0 or /dev/tpm0";;
  n ← executable_file nvread;
  q ← executable_file quote;
  mret {| cl_nvread := n; cl_quote := q; cl_device := device |}.

(** ** Directories and files *)
Fixpoint private_directory (tries : nat) : AIO bytes :=
  match tries with
  | O => fails (Msg "could not create private Azure collection directory")
  | S tries =>
    r ← draw;
    nonce ← io_some r "randomness";
    let path := join TMP (lit "uq-azure-" ++ hex_encode nonce) in
    made ← mkdir path;
    match made with
    | DirMade => mret path
    | DirExists => private_directory tries
    | DirFailed => fails (Msg "create directory")
    end
  end.
Definition open_metadata (path : bytes) : AIO Metadata := m ← act (fun t => (Looked path, file_metadata t path)); io_some m "metadata".
Definition read_bounded (path : bytes) (limit : N) : AIO bytes :=
  ok ← act (fun t => (Looked path, open_file t path)); io_need ok "open";;
  first ← open_metadata path;
  fits ← (if is_file first then second ← open_metadata path; mret (md_len second <=? limit) else mret false);
  io_need fits "Azure TPM output exceeds limit or is not regular";;
  r ← act (fun t => (Read path, read_open t path (limit + 1)));
  b ← io_some r "read";
  io_need (negb (blen b =? 0) && (blen b <=? limit)) "Azure TPM output is empty or exceeds limit";;
  mret b.

(** ** A tool *)
Definition check_output (o : bytes * N) : AIO unit :=
  m ← act (fun t => (Looked o.1, symlink_metadata t o.1));
  match m with
  | Found md => io_need (is_file md && (md_len md <=? o.2)) "Azure TPM tool output exceeded a file bound"
  | Absent => mret tt
  | LookupFailed => fails (Msg "inspect output")
  end.
Fixpoint check_outputs (l : list (bytes * N)) : AIO unit := match l with [] => mret tt | o :: l => check_output o;; check_outputs l end.
Definition azure_round (pid : N) (limits : list (bytes * N)) (_ : unit) : AIO (unit + unit) :=
  check_outputs limits;;
  w ← waited pid;
  match w with
  | WaitFailed => fails (Msg "wait")
  | Exited success => io_need success "Azure TPM tool failed";; mret (inr tt)
  | Running => mret (inl tt)
  end.
Definition killing {A} (pid : N) (m : AIO A) : AIO A := fun t => let '(r, t') := m t in (r, t' ++ [Killed pid]).
Definition run_tool (program : bytes) (args : list bytes) (directory : bytes) (outputs : list (bytes * N)) : AIO unit :=
  let diagnostic := join directory (lit "stderr.txt") in
  ok ← act (fun t => (Wrote diagnostic [], open_file t diagnostic)); io_need ok "open diagnostic";;
  md ← open_metadata diagnostic;
  io_need (is_file md) "Azure TPM diagnostic output is not a regular file";;
  s ← start program args;
  pid ← io_some s "start explicitly configured Azure TPM tool";
  reaping pid (killing pid (
    from ← instant;
    polling (rounds DEADLINE) from DEADLINE "Azure TPM tool exceeded 15-second deadline"
      (azure_round pid (outputs ++ [(diagnostic, MAX_DIAGNOSTIC_FILE)])) tt)).

(** ** The collection *)
Definition comma_separated (l : list bytes) : bytes :=
  match l with [] => [] | x :: l => x ++ mjoin ((fun y => x2c :: y) <$> l) end.
Definition tcti (c : AzureCompositeCollector) : bytes := lit "device:" ++ cl_device c.
Definition nvread_args (c : AzureCompositeCollector) (directory : bytes) : list bytes :=
  [lit "-Q"; lit "-T"; tcti c; lit "-C"; lit "o"; lit "0x01400001"; lit "-o"; join directory (lit "hcl.bin")].
Definition quote_args (c : AzureCompositeCollector) (directory report_data : bytes) (indices : list N) : list bytes :=
  [lit "-Q"; lit "-T"; tcti c; lit "-c"; lit "0x81000003"; lit "-l"; lit "sha256:" ++ comma_separated (to_decimal <$> indices);
   lit "-q"; hex_encode (qualifying_data report_data); lit "-g"; lit "sha256"; lit "--scheme"; lit "rsassa"; lit "-f"; lit "tss";
   lit "-F"; lit "values"; lit "-m"; join directory (lit "quote.bin"); lit "-s"; join directory (lit "signature.bin");
   lit "-o"; join directory (lit "pcrs.bin")].
Definition pcr_chunk (acc : list AzurePcrValue) (p : N * bytes) : res AttError (list AzurePcrValue) :=
  v ← unwrap (if blen p.2 =? 32 then Some p.2 else None); Ok (acc ++ [{| pcr_index := p.1; pcr_value := v |}]).
Definition quote_report_key (hcl_report : bytes) : res PkiError RsaPublicKey :=
  hcl ← parse_hcl hcl_report; claims ← parse_claims (hcl_claims hcl); ak_key claims.
Definition read_evidence (directory report_data : bytes) (indices : list N) (hcl_report : bytes) (ak : RsaPublicKey) : AIO AzureCompositeEvidence :=
  let size := blen indices * 32 in
  values ← read_bounded (join directory (lit "pcrs.bin")) size;
  io_need (blen values =? size) "tpm2_quote PCR output does not match explicit selection";;
  message ← read_bounded (join directory (lit "quote.bin")) MAX_TPM_QUOTE;
  signature ← read_bounded (join directory (lit "signature.bin")) MAX_SIGNATURE;
  pcrs ← lift (for_each pcr_chunk [] (zip indices (chunks_exact 32 values)));
  let evidence := {| ev_version := 1; hcl_report := hcl_report; quote_message := message; quote_signature := signature; ev_pcrs := pcrs |} in
  lift (att_pki (evidence_bounds evidence));;
  lift (att_pki (verify_quote ak evidence report_data));;
  mret evidence.
Definition collect_linux (c : AzureCompositeCollector) (report_data : bytes) (indices : list N) : AIO AzureCompositeEvidence :=
  m ← look (cl_device c);
  md ← io_some m "Azure TPM device unavailable";
  io_need (is_char_device md) "Azure TPM device is not a character device";;
  directory ← private_directory 8;
  finally_remove directory (
    run_tool (cl_nvread c) (nvread_args c directory) directory [(join directory (lit "hcl.bin"), HCL_NV_SIZE)];;
    hcl_report ← read_bounded (join directory (lit "hcl.bin")) HCL_NV_SIZE;
    ak ← lift (att_pki (quote_report_key hcl_report));
    run_tool (cl_quote c) (quote_args c directory report_data indices) directory
      [(join directory (lit "quote.bin"), MAX_TPM_QUOTE); (join directory (lit "signature.bin"), MAX_SIGNATURE);
       (join directory (lit "pcrs.bin"), blen indices * 32)];;
    read_evidence directory report_data indices hcl_report ak).
Definition AzureCompositeCollector_collect (c : AzureCompositeCollector) (report_data : bytes) (indices : list N) : AIO AzureCompositeEvidence :=
  lift (validate_indices indices);; collect_linux c report_data indices.
Definition azure_collect (report_data : bytes) (indices : list N) : AIO AzureCompositeEvidence :=
  lift (validate_indices indices);;
  c ← AzureCompositeCollector_new (lit "/usr/bin/tpm2_nvread") (lit "/usr/bin/tpm2_quote") (lit "/dev/tpmrm0");
  AzureCompositeCollector_collect c report_data indices.
End Collect.

(** * Lemmas *)
Lemma chunks_count {A} n (k : nat) (b : list A) : length b = (k * n)%nat -> (0 < n)%nat -> length (chunks_exact n b) = k.
Proof.
  intros Hl Hn. unfold chunks_exact. assert (k <= length b)%nat as Hf by nia. revert Hf. generalize (length b) at 1 2. intros fuel.
  revert b k Hl. induction fuel as [|fuel IH]; intros b k Hl Hf; cbn [chunks_exact_fuel]; [cbn; lia|].
  destruct k as [|k].
  - destruct (Nat.leb_spec n (length b)); [lia|done].
  - destruct (Nat.leb_spec n (length b)); [|lia]. cbn [length]. rewrite (IH _ k); [done|rewrite length_drop; lia|lia].
Qed.

Section Rules.
Context `{OS : Host} `{M : Machine} {ML : MachineLaws M} `{H : Sha2} `{L : AzureLibs}.
(** A directory of one's own, after a few attempts. *)
Lemma private_directory_safe n t :
  vsafe (private_directory n) (extends quiet_trace t)
    (fun d t' => exists t1, extends quiet_trace t t1 /\ t' = t1 ++ [Created d true]) t.
Proof.
  revert t. induction n as [|n IH]; intros t; cbn [private_directory]; [apply vsafe_fails; calm|].
  apply vsafe_bind, vsafe_act. cbn [fst snd]. apply vsafe_bind, io_some_safe; [calm|]. intros nonce _.
  apply vsafe_bind, vsafe_act. cbn [fst snd]. set (d := join TMP _). clearbody d. destruct (make_dir (t ++ [Drew]) d).
  - apply vsafe_ret. exists (t ++ [Drew]). split; [calm|done].
  - eapply vsafe_weaken; [eapply vsafe_mono; [apply IH|]|].
    + intros d' t' (t1 & H1 & ->). exists t1. split; [|done]. eapply extends_quiet_trans; [|exact H1]. calm.
    + intros t'. apply extends_quiet_trans. calm.
  - apply vsafe_fails. calm.
Qed.
Lemma open_metadata_safe path t :
  vsafe (open_metadata path) (extends quiet_trace t) (fun _ t' => extends quiet_trace t t' /\ True) t.
Proof. apply vsafe_bind, vsafe_act. cbn [fst snd]. apply io_some_safe; [calm|]. intros m _. split; [calm|done]. Qed.
Lemma read_bounded_safe path limit t :
  vsafe (read_bounded path limit) (extends quiet_trace t) (fun b t' => extends quiet_trace t t' /\ 1 <= blen b <= limit) t.
Proof.
  apply vsafe_bind, vsafe_act. cbn [fst snd]. apply vsafe_bind, io_need_safe; [calm|]. intros _.
  apply vsafe_bind. eapply quiet_safe; [apply open_metadata_safe|calm|]. cbv beta. intros first t1 H1 _.
  apply vsafe_bind. eapply (vsafe_mono _ _ (fun _ t2 => extends quiet_trace t t2)).
  { destruct (is_file first); [|by apply vsafe_ret]. apply vsafe_bind. eapply quiet_safe; [apply open_metadata_safe|done|]. cbv beta. by intros. }
  cbv beta. intros fits t2 H2. apply vsafe_bind, io_need_safe; [done|]. intros _. apply vsafe_bind, vsafe_act. cbn [fst snd].
  apply vsafe_bind, io_some_safe; [calm|]. intros b _. apply vsafe_bind, io_need_safe; [calm|]. intros Hb. apply vsafe_ret. split; [calm|].
  bools. lia.
Qed.
Lemma check_outputs_safe l t : vsafe (check_outputs l) (extends quiet_trace t) (fun _ t' => extends quiet_trace t t' /\ True) t.
Proof.
  revert t. induction l as [|o l IH]; intros t; cbn [check_outputs]; [apply vsafe_ret; split; [calm|done]|].
  apply vsafe_bind, vsafe_bind, vsafe_act. cbn [fst snd]. destruct (symlink_metadata t o.1) as [| |md]; cbv beta iota.
  - apply vsafe_ret. eapply quiet_safe; [apply IH|calm|]. by intros.
  - apply vsafe_fails. calm.
  - apply io_need_safe; [calm|]. intros _. eapply quiet_safe; [apply IH|calm|]. by intros.
Qed.
Lemma azure_round_safe pid limits s t :
  vsafe (azure_round pid limits s) (extends quiet_trace t) (fun r t' => extends quiet_trace t t' /\ match r with inl _ | inr _ => True end) t.
Proof.
  apply vsafe_bind. eapply quiet_safe; [apply check_outputs_safe|calm|]. cbv beta. intros _ t1 H1 _.
  apply vsafe_bind, vsafe_act. cbn [fst snd]. destruct (try_wait t1 pid) as [| |b]; [apply vsafe_fails; calm|apply vsafe_ret; split; [calm|done]|].
  apply vsafe_bind, io_need_safe; [calm|]. intros _. apply vsafe_ret. split; [calm|done].
Qed.
Lemma killing_safe {A} pid (m : AIO A) (P : A -> Prop) t t1 :
  vsafe m (extends quiet_trace t) (fun a t2 => extends quiet_trace t t2 /\ P a) t1 ->
  vsafe (killing pid m) (extends quiet_trace t) (fun a t2 => extends quiet_trace t t2 /\ P a) t1.
Proof. unfold vsafe, killing. destruct (m t1) as [[a|e| |] t']; try done; [intros [Ht HP]; split; [calm|done]|intros Ht; calm]. Qed.
(** A tool that was run: started with these arguments, and waited for. *)
Definition tool_ran (program : bytes) (args : list bytes) (t t' : Trace) : Prop :=
  exists t1 pid l, extends quiet_trace t t1 /\ quiet_trace l /\ t' = t1 ++ Started pid program args :: l ++ [Reaped pid].
Lemma tool_ran_tidy program args t t' : tool_ran program args t t' -> extends tidy t t'.
Proof.
  intros (t1 & pid & l & H1 & Hl & ->). eapply extends_tidy_trans; [by apply extends_quiet_tidy|].
  apply extends_app. by apply (tidy_around _ l 0 _ (Child pid)), tidy_quiet.
Qed.
(** A quiet step where failures must be tidy. *)
Lemma calm_safe {A} (m : AIO A) (P : A -> Prop) (Q : A -> Trace -> Prop) t t1 :
  vsafe m (extends quiet_trace t1) (fun a t2 => extends quiet_trace t1 t2 /\ P a) t1 -> extends quiet_trace t t1 ->
  (forall a t2, extends quiet_trace t t2 -> P a -> Q a t2) -> vsafe m (extends tidy t) Q t1.
Proof. intros Hm Ht HQ. eapply vsafe_weaken; [by eapply quiet_safe|]. intros t2. apply extends_quiet_tidy. Qed.
Lemma run_tool_safe program args d outputs t :
  vsafe (run_tool program args d outputs) (extends tidy t) (fun _ t' => tool_ran program args t t') t.
Proof.
  apply vsafe_bind, vsafe_act. cbn [fst snd]. apply vsafe_bind, io_need_safe; [apply extends_quiet_tidy; calm|]. intros _.
  apply vsafe_bind. eapply calm_safe; [apply open_metadata_safe|calm|]. cbv beta. intros md t1 H1 _.
  apply vsafe_bind, io_need_safe; [by apply extends_quiet_tidy|]. intros _. apply vsafe_bind, vsafe_act. cbn [fst snd].
  destruct (spawn t1 program args) as [pid|]; [|apply vsafe_bind, io_some_safe; [apply extends_quiet_tidy; calm|done]].
  eapply vsafe_bind, vsafe_pure; [done|]. cbv beta.
  eapply vsafe_weaken; [eapply vsafe_mono; [apply (child_safe pid program args _ (fun _ => True))|]|].
  - intros t2. apply killing_safe, vsafe_bind, vsafe_act. cbn [fst snd].
    apply (polling_safe _ (fun _ => True)); [intros s t3 _|done|by repeat constructor].
    eapply vsafe_mono; [apply azure_round_safe|]. intros r t4 [H4 _]. split; [done|by destruct r].
  - intros u t2 (_ & l & Hl & ->). by exists t1, pid, l.
  - intros t2 H2. eapply extends_tidy_trans; [by apply extends_quiet_tidy|exact H2].
Qed.

(** ** Evidence *)
(** Evidence for some report data: within the verifier's bounds, over the PCRs that were
    asked for, with a quote of that report data under the key that the report names. *)
Record collected_evidence (rd : bytes) (indices : list N) (e : AzureCompositeEvidence) : Prop := {
  ae_version : ev_version e = 1;
  ae_bounds : evidence_bounds e = Ok tt;
  ae_indices : pcr_index <$> ev_pcrs e = indices;
  ae_widths p : p ∈ ev_pcrs e -> blen (pcr_value p) = 32;
  ae_quote : exists ak a, quote_report_key (hcl_report e) = Ok ak /\ quote_ok ak e rd a;
}.
Lemma report_key_safe b : safe (quote_report_key b) (fun _ => True).
Proof.
  unfold quote_report_key. eapply safe_seq; [apply parse_hcl_safe|]. intros h _ _. eapply safe_seq; [apply parse_claims_safe|]. intros c _ _.
  eapply safe_mono; [apply ak_key_safe|]. done.
Qed.
Lemma pcr_chunks_safe indices (chunks : list bytes) : length indices = length chunks -> Forall (fun c => length c = 32%nat) chunks ->
  safe (for_each pcr_chunk [] (zip indices chunks)) (fun l => (pcr_index <$> l) = indices /\ forall p, p ∈ l -> blen (pcr_value p) = 32).
Proof.
  intros Hlen Hw. eapply safe_mono.
  - apply (safe_prefix _ (fun pre l => (pcr_index <$> l) = pre.*1 /\ forall p, p ∈ l -> blen (pcr_value p) = 32)).
    + split; [done|]. by intros p ?%not_elem_of_nil.
    + intros pre [i c] post l Hz [Hi Hl]. unfold pcr_chunk. cbn [fst snd].
      assert (blen c = 32) as Hc.
      { rewrite Forall_forall in Hw. unfold blen. rewrite Hw; [done|]. apply (elem_of_zip_r i _ indices). rewrite Hz. set_solver. }
      rewrite Hc, N.eqb_refl. cbn. rewrite !fmap_app, Hi. split; [done|]. intros p [Hp|Hp%list_elem_of_singleton]%elem_of_app; [by apply Hl|by subst p].
  - cbv beta. intros l _ [Hi Hl]. split; [|done]. rewrite Hi. apply fst_zip. lia.
Qed.
Lemma read_evidence_safe d rd indices hcl ak t : quote_report_key hcl = Ok ak ->
  vsafe (read_evidence d rd indices hcl ak) (extends quiet_trace t) (fun e t' => extends quiet_trace t t' /\ collected_evidence rd indices e) t.
Proof.
  intros Hak. unfold read_evidence. apply vsafe_bind. eapply quiet_safe; [apply read_bounded_safe|calm|]. cbv beta. intros values t1 H1 _.
  apply vsafe_bind, io_need_safe; [done|]. intros Hv%N.eqb_eq.
  apply vsafe_bind. eapply quiet_safe; [apply read_bounded_safe|done|]. cbv beta. intros m t2 H2 Hm.
  apply vsafe_bind. eapply quiet_safe; [apply read_bounded_safe|done|]. cbv beta. intros sg t3 H3 Hsg.
  apply vsafe_bind, vsafe_lift; [done|]. eapply safe_mono; [apply pcr_chunks_safe; [|apply chunks_exact_length]|].
  { rewrite (chunks_count 32 (length indices)); [done|unfold blen in Hv; lia|lia]. }
  cbv beta. intros pcrs _ [Hi Hw]. set (e := {| ev_version := 1 |}).
  apply vsafe_bind, vsafe_lift; [done|]. pose proof (evidence_bounds_safe e) as Hb. destruct (evidence_bounds e) as [[]|er| |] eqn:Eb; try done.
  cbn [att_pki map_err safe]. apply vsafe_bind, vsafe_lift; [done|].
  assert (blen (quote_signature e) <= usize_max) as Hs by (cbn; unfold MAX_SIGNATURE, usize_max, u64_max in *; lia).
  pose proof (verify_quote_safe ak e rd Hs) as Hq. destruct (verify_quote ak e rd) as [q|er| |] eqn:Eq; try done.
  cbn [att_pki map_err safe]. apply vsafe_ret. split; [done|]. destruct Hq as (a & Hq & _). split; [done|done|done|done|]. by exists ak, a.
Qed.
(** A collection with the tools of [c]: both ran, the second with this report data, and
    nothing is left of them. *)
Definition azure_session (c : AzureCompositeCollector) (rd : bytes) (indices : list N) (t t' : Trace) : Prop :=
  exists d t0 t1 t2 t3 t4, extends quiet_trace t t0 /\ tool_ran (cl_nvread c) (nvread_args c d) (t0 ++ [Created d true]) t1 /\
    extends quiet_trace t1 t2 /\ tool_ran (cl_quote c) (quote_args c d rd indices) t2 t3 /\ extends quiet_trace t3 t4 /\ t' = t4 ++ [Removed d].
Lemma azure_session_tidy c rd indices t t' : azure_session c rd indices t t' -> extends tidy t t'.
Proof.
  intros (d & t0 & t1 & t2 & t3 & t4 & H0 & H1%tool_ran_tidy & H2%extends_quiet_tidy & H3%tool_ran_tidy & H4%extends_quiet_tidy & ->).
  assert (extends tidy (t0 ++ [Created d true]) t4) as (l & -> & Hl) by eauto using extends_tidy_trans.
  eapply extends_tidy_trans; [by apply extends_quiet_tidy|]. rewrite <- !app_assoc. apply extends_app. by apply (tidy_bracket d l 0).
Qed.
Lemma collect_linux_safe c rd indices t :
  vsafe (collect_linux c rd indices) (extends tidy t) (fun e t' => collected_evidence rd indices e /\ azure_session c rd indices t t') t.
Proof.
  unfold collect_linux. apply vsafe_bind, vsafe_act. cbn [fst snd]. apply vsafe_bind, io_some_safe; [apply extends_quiet_tidy; calm|]. intros md _.
  apply vsafe_bind, io_need_safe; [apply extends_quiet_tidy; calm|]. intros _.
  apply vsafe_bind. eapply vsafe_weaken; [eapply vsafe_mono; [apply private_directory_safe|]|].
  2: { intros t' H'. apply extends_quiet_tidy. eapply extends_quiet_trans; [|exact H']. calm. }
  intros d t' (t0 & H0 & ->). assert (extends quiet_trace t t0) as H0' by (eapply extends_quiet_trans; [|exact H0]; calm).
  eapply vsafe_weaken; [eapply (own_directory_safe d _ _ (fun e t4 => collected_evidence rd indices e /\ azure_session c rd indices t (t4 ++ [Removed d])))|].
  2: by intros. 2: { intros t' H'. eapply extends_tidy_trans; [by apply extends_quiet_tidy|exact H']. }
  apply vsafe_bind. eapply vsafe_mono; [apply run_tool_safe|]. cbv beta. intros _ t1 H1. pose proof (tool_ran_tidy _ _ _ _ H1) as H1'.
  apply vsafe_bind. eapply vsafe_weaken; [eapply vsafe_mono; [apply read_bounded_safe|]|].
  2: { intros t2 H2%extends_quiet_tidy. eauto using extends_tidy_trans. }
  cbv beta. intros hcl t2 [H2 _]. assert (extends tidy (t0 ++ [Created d true]) t2) as H2' by eauto using extends_tidy_trans, extends_quiet_tidy.
  apply vsafe_bind, vsafe_lift; [done|]. pose proof (report_key_safe hcl) as Hk. destruct (quote_report_key hcl) as [ak|er| |] eqn:Ek; try done.
  cbn [att_pki map_err safe]. clear Hk. apply vsafe_bind. eapply vsafe_weaken; [eapply vsafe_mono; [apply run_tool_safe|]|].
  2: { intros t3 H3. eauto using extends_tidy_trans. }
  cbv beta. intros _ t3 H3. assert (extends tidy (t0 ++ [Created d true]) t3) as H3' by eauto using extends_tidy_trans, tool_ran_tidy.
  eapply vsafe_weaken; [eapply vsafe_mono; [by apply read_evidence_safe|]|].
  - cbv beta. intros e t4 [H4 He]. split; [done|]. by exists d, t0, t1, t2, t3, t4.
  - intros t4 H4%extends_quiet_tidy. eauto using extends_tidy_trans.
Qed.

(** A program that was found: the file that a path leads to, executable and not empty. *)
Lemma executable_file_safe path t :
  vsafe (executable_file path) (extends quiet_trace t) (fun _ t' => extends quiet_trace t t' /\ is_absolute path = true) t.
Proof.
  apply vsafe_bind, io_need_safe; [calm|]. intros Ha. apply vsafe_bind, vsafe_act. cbn [fst snd].
  apply vsafe_bind, io_some_safe; [calm|]. intros p _. apply vsafe_bind, vsafe_act. cbn [fst snd].
  apply vsafe_bind, io_some_safe; [calm|]. intros md _. do 2 (apply vsafe_bind, io_need_safe; [calm|]; intros _). apply vsafe_ret. split; [calm|done].
Qed.
Lemma collector_new_safe nvread quote device t :
  vsafe (AzureCompositeCollector_new nvread quote device) (extends quiet_trace t)
    (fun c t' => extends quiet_trace t t' /\ cl_device c ∈ [lit "/dev/tpmrm0"; lit "/dev/tpm0"]) t.
Proof.
  unfold AzureCompositeCollector_new. generalize (lit "/dev/tpmrm0") (lit "/dev/tpm0"). intros rm raw.
  apply vsafe_bind, io_need_safe; [calm|]. intros Hd. apply vsafe_bind. eapply quiet_safe; [apply executable_file_safe|calm|]. cbv beta.
  intros n t1 H1 _. apply vsafe_bind. eapply quiet_safe; [apply executable_file_safe|done|]. cbv beta. intros q t2 H2 _.
  apply vsafe_ret. split; [done|]. cbn [cl_device]. rewrite !elem_of_cons. apply orb_true_iff in Hd as [Hd|Hd]; apply bytes_eqb_eq in Hd; auto.
Qed.
Lemma validate_indices_safe indices : safe (validate_indices indices) (fun _ => True).
Proof. unfold validate_indices. att. by apply safe_ensure. Qed.
Lemma azure_collect_safe rd indices t :
  vsafe (azure_collect rd indices) (extends tidy t)
    (fun e t' => collected_evidence rd indices e /\ exists c t1, extends quiet_trace t t1 /\ azure_session c rd indices t1 t') t.
Proof.
  assert (extends tidy t t) as H0 by apply extends_quiet_tidy, extends_refl.
  apply vsafe_bind, vsafe_lift; [done|]. eapply safe_mono; [apply validate_indices_safe|]. intros _ _ _.
  apply vsafe_bind. eapply calm_safe; [apply collector_new_safe|calm|]. cbv beta. intros c t1 H1 _.
  apply vsafe_bind, vsafe_lift; [by apply extends_quiet_tidy|]. eapply safe_mono; [apply validate_indices_safe|]. intros _ _ _.
  eapply vsafe_weaken; [eapply vsafe_mono; [apply collect_linux_safe|]|].
  - cbv beta. intros e t' [He Hs]. split; [done|]. by exists c, t1.
  - intros t'. apply extends_tidy_trans. by apply extends_quiet_tidy.
Qed.
(** Collecting a quote of Azure's TPM.  Whatever the programs and the file system do,
    the collection returns without a panic within the deadline of each program; a
    failure too waits for every process and asks for the removal of the directory.  On
    success the two programs ran one after the other in one private directory, the second
    with the challenge of this report data and exactly these PCR indices, the removal of
    the directory was the last step, and the evidence passes the verifier's bounds and its check of the TPM quote: the key that
    the HCL report names signed a quote of this report data over the values that the
    evidence lists. *)
Theorem azure_collection rd indices t :
  vsafe (azure_collect rd indices) (extends tidy t)
    (fun e t' => extends tidy t t' /\ collected_evidence rd indices e /\
       exists c t1, extends quiet_trace t t1 /\ azure_session c rd indices t1 t') t.
Proof.
  eapply vsafe_mono; [apply azure_collect_safe|]. cbv beta. intros e t' (He & c & t1 & H1 & Hs). split; [|by eauto].
  eapply extends_tidy_trans; [by apply extends_quiet_tidy|by eapply azure_session_tidy].
Qed.
End Rules.

(** ** Two tools *)
(** A machine with a TPM, whose tools leave these files. *)
Definition azure_machine (files : list (bytes * bytes)) : Machine := {|
  canonicalize := fun _ path => Some path;
  metadata := fun _ path => Some (if bytes_eqb path (lit "/dev/tpmrm0") then {| md_kind := CharDevice; md_len := 0; md_mode := 0x1b0 |}
                                  else {| md_kind := RegularFile; md_len := 4096; md_mode := 0x1ed |});
  symlink_metadata := fun _ _ => Absent;
  create_new := fun _ _ _ => true;
  open_file := fun _ _ => true;
  file_metadata := fun _ _ => Some {| md_kind := RegularFile; md_len := 32; md_mode := 0x180 |};
  read_open := fun _ path n => match List.find (fun f => bytes_eqb f.1 (default [] (last (split_byte slash path)))) files with
                               | Some (_, b) => Some (take (N.to_nat n) b) | None => None end;
  spawn := fun _ _ _ => Some 78;
  set_nonblocking := fun _ _ _ => true;
  pipe_reads := fun _ _ _ => {| reads := []; reads_end := Closed |};
  try_wait := fun _ _ => Exited true;
  monotonic := slept;
|}.
Lemma azure_machine_laws files : MachineLaws (azure_machine files).
Proof. split. intros t l. cbn. rewrite slept_app. lia. Qed.
Definition azure_files (rd : bytes) : list (bytes * bytes) :=
  let e := azure_evidence_for rd in
  [(lit "hcl.bin", hcl_report e); (lit "quote.bin", quote_message e); (lit "signature.bin", quote_signature e);
   (lit "pcrs.bin", mjoin (pcr_value <$> azure_pcrs))].
Notation run_azure rd indices :=
  (azure_collect (OS := sample_host []) (M := azure_machine (azure_files azure_rd)) (H := azure_sha2) (L := sample_azure_libs) rd indices).
Example azure_collected : (run_azure azure_rd [0; 7] []).1 = Ok (azure_evidence_for azure_rd).
Proof. vm_compute. reflexivity. Qed.
Example azure_stale : (run_azure (replicate 64 x0e) [0; 7] []).1 =
  Err (FromPki (PkiMsg "Azure TPM quote does not bind the complete expected EAT report data")).
Proof. vm_compute. reflexivity. Qed.
Lemma azure_run_ok : (match (run_azure azure_rd [0; 7] []).1 with Ok _ => true | _ => false end) = true.
Proof. vm_compute. reflexivity. Qed.
Lemma azure_collection_witness : exists e t', run_azure azure_rd [0; 7] [] = (Ok e, t') /\
  collected_evidence (H := azure_sha2) (L := sample_azure_libs) azure_rd [0; 7] e.
Proof.
  destruct (vsafe_run _ _ _ _ (azure_collection (OS := sample_host []) (M := azure_machine (azure_files azure_rd)) (ML := azure_machine_laws _)
    (H := azure_sha2) (L := sample_azure_libs) azure_rd [0; 7] []) azure_run_ok) as (e & t' & E & _ & He & _).
  exists e, t'. exact (conj E He).
Defined.
