(* ===== verification/GpuVerify.v ===== *)
(** * GpuVerify: appraisal of GPU and switch evidence

    [src/v2/src/gpu/verify.rs] and the evidence of [src/v2/src/gpu/mod.rs].  The relying
    party enrols every device by the digest of its key, with its model, mode and signed
    fields; the evidence must be that inventory exactly.  Each device is authenticated by
    its certificate path, its revocation status and its signed report, and every
    measurement of the report is compared with the signed manifests of its driver and
    firmware.  In a fabric the signed peers of devices and switches must be the enrolled
    graph. *)
From S2P Require Import Prelude Bytes Text Crypto Spdm Opaque Pki Crl Pem GpuCert GpuIdentity Revocation Rim Verdict.

(** ** Policies *)
Record DevicePolicy : Type := {
  dp_identity : bytes; dp_model : bytes; dp_mode : ConfidentialMode; dp_required : gmap N bytes; dp_pdi : option bytes;
}.
Record SwitchPolicy : Type := {
  sp_identity : bytes; sp_model : bytes; sp_pdi : bytes; sp_gpu_pdis : gset bytes; sp_required : gmap N bytes;
}.
Record GpuPolicy : Type := { policy_devices : list DevicePolicy; policy_switches : list SwitchPolicy }.
#[global] Instance ConfidentialMode_eq_dec : EqDecision ConfidentialMode.
Proof. solve_decision. Defined.

Definition gpu_manifest_model (mdl : bytes) : res AttError bytes :=
  att_need (bytes_eqb mdl (lit "GH100") || bytes_eqb mdl (lit "GB100")) "unsupported certificate-authenticated GPU model";; Ok mdl.
Definition switch_manifest_model (mdl : bytes) : res AttError bytes :=
  att_need (bytes_eqb mdl (lit "LS_10")) "unsupported certificate-authenticated switch model";; Ok (lit "LS10").
Definition policy_hex (s : bytes) (len : N) : res AttError bytes :=
  b ← att_some (hex_decode s) "FromHexError";
  att_need ((blen b =? len) && bytes_eqb (hex_encode b) s) "policy digest/PDI must be canonical lower-case hex";;
  att_need (any_nonzero b) "policy digest/PDI cannot be a zero placeholder";;
  Ok b.

Definition policy_device (p : GpuPolicy) (st : gset bytes * gset bytes) (d : DevicePolicy) : res AttError (gset bytes * gset bytes) :=
  let '(ids, gpu_pdis) := st in
  policy_hex (dp_identity d) 32;;
  att_need (bool_decide (dp_identity d ∉ ids)) "duplicate enrolled device identity";;
  let ids := {[dp_identity d]} ∪ ids in
  gpu_manifest_model (dp_model d);;
  if bool_decide (dp_mode d = Ppcie) then
    pdi ← att_some (dp_pdi d) "PPCIE policy requires GPU PDI";
    policy_hex pdi 8;;
    att_need (bool_decide (pdi ∉ gpu_pdis)) "duplicate enrolled GPU PDI";;
    att_need (negb (blen (policy_switches p) =? 0)) "PPCIE policy requires switches";;
    att_need (bool_decide (is_Some (dp_required d !! 21))) "PPCIE requires explicit signed protected-PCIe state";;
    Ok (ids, {[pdi]} ∪ gpu_pdis)
  else
    att_need (blen (policy_switches p) =? 0) "mixed independent-GPU/fabric policy is unsupported";;
    Ok (ids, gpu_pdis).
Definition explicit_field (required : gmap N bytes) (_ : unit) (id : N) : res AttError unit :=
  att_need (match required !! id with Some v => negb (blen v =? 0) | None => false end) "switch policy requires explicit opaque field".
Definition policy_switch (gpu_pdis : gset bytes) (st : gset bytes * gset bytes) (s : SwitchPolicy) : res AttError (gset bytes * gset bytes) :=
  let '(ids, pdis) := st in
  switch_manifest_model (sp_model s);;
  policy_hex (sp_identity s) 32;;
  policy_hex (sp_pdi s) 8;;
  att_need (bool_decide (sp_identity s ∉ ids) && bool_decide (sp_pdi s ∉ pdis)) "duplicate enrolled switch identity/PDI";;
  att_need (bool_decide (sp_gpu_pdis s <> ∅) && bool_decide (sp_gpu_pdis s ⊆ gpu_pdis)) "invalid expected switch GPU graph";;
  for_each (explicit_field (sp_required s)) tt [21; 23; 25; 26];;
  Ok ({[sp_identity s]} ∪ ids, {[sp_pdi s]} ∪ pdis).
Definition has_edge (p : GpuPolicy) (_ : unit) (pdi : bytes) : res AttError unit :=
  att_need (existsb (fun s => bool_decide (pdi ∈ sp_gpu_pdis s)) (policy_switches p)) "enrolled GPU has no switch edge".
Definition gpu_policy_validate (p : GpuPolicy) : res AttError unit :=
  att_need (negb (blen (policy_devices p) =? 0) && (blen (policy_devices p) <=? 256) && (blen (policy_switches p) <=? 32))
    "invalid required GPU/switch count";;
  '(ids, gpu_pdis) ← for_each (policy_device p) (∅, ∅) (policy_devices p);
  for_each (policy_switch gpu_pdis) (ids, ∅) (policy_switches p);;
  for_each (has_edge p) tt (elements gpu_pdis).

(** ** Evidence *)
Record NvmlCcState : Type := { environment : N; cc_feature : N; dev_tools_mode : N; accepting_client_requests : N }.
Record GpuEvidence : Type := {
  ge_index : N; ge_uuid : bytes; ge_name : bytes; ge_vbios_version : bytes; ge_certificate_chain : bytes;
  ge_attestation_certificate_chain : bytes; ge_attestation_report : bytes; ge_cec_attestation_report : bytes;
}.
Record SwitchEvidence : Type := { se_uuid : bytes; se_tnvl_mode : Z; se_certificate_chain : bytes; se_attestation_report : bytes }.
Record GpuCollateral : Type := { manifests : list bytes; revocation : RevocationEvidence }.
Record GpuEvidenceBundle : Type := {
  bundle_version : N; bundle_nonce : bytes; bundle_driver_version : bytes; cc_state : NvmlCcState; gpus : list GpuEvidence;
  switches : list SwitchEvidence; collateral : GpuCollateral;
}.

(** ** Verdicts *)
Record DeviceVerdict : Type := {
  dv_identity : bytes; dv_model : bytes; dv_driver_version : option bytes; dv_vbios_version : bytes; dv_mode : option ConfidentialMode;
  matched_measurements : list N; inactive_measurements : list N; nvdec_disabled_measurements : list N; manifest_sha384 : list bytes;
  opaque_claims : gmap bytes N; security_profile : bytes; signed_security_flags : option DiceOperationalFlags;
}.
Record VerifiedGpuBundle : Type := { vb_devices : list DeviceVerdict; vb_switches : list DeviceVerdict; fabric_policy_verified : bool }.
Record GpuVerifier : Type := { gv_policy : GpuPolicy; device_roots : list Certificate; rim_roots : list Certificate }.

(** ** Measurements *)
Record MeasurementAppraisal : Type := { matched : list N; inactive : list N; nvdec_disabled : list N }.
Record Appraising : Type := { remaining : gset N; so_far : MeasurementAppraisal }.
(** A measurement against its reference values, or the declaration that it is inactive. *)
Definition appraise_reference_of (golden : gmap N (list bytes)) (inact : gset N) (st : Appraising) (m : Measurement) (i : N) : res AttError Appraising :=
  let a := so_far st in
  match golden !! i with
  | Some values =>
    att_need (existsb (bytes_eqb (value m)) values) "reference measurement mismatch";;
    Ok {| remaining := remaining st ∖ {[i]};
          so_far := {| matched := matched a ++ [i]; inactive := inactive a; nvdec_disabled := nvdec_disabled a |} |}
  | None =>
    att_need (bool_decide (i ∈ inact)) "measurement has no authenticated reference disposition";;
    Ok {| remaining := remaining st;
          so_far := {| matched := matched a; inactive := inactive a ++ [i]; nvdec_disabled := nvdec_disabled a |} |}
  end.
Definition appraise_measurement (golden : gmap N (list bytes)) (inact : gset N) (nvdec : bool) (st : Appraising) (m : Measurement) :
    res AttError Appraising :=
  let a := so_far st in
  i ← unwrap (checked_sub (index_ m) 1);
  att_need (negb (raw_bit_stream m) && (value_type m =? 1) && (blen (value m) =? 48)) "unsupported NVIDIA reference measurement format";;
  if (i =? 35) && nvdec then
    Ok {| remaining := remaining st ∖ {[i]};
          so_far := {| matched := matched a; inactive := inactive a; nvdec_disabled := nvdec_disabled a ++ [i] |} |}
  else
    appraise_reference_of golden inact st m i.
Definition nvdec_state (d : OpaqueData) (gpu : bool) : res AttError bool :=
  if gpu then
    b ← att_opaque (field_bytes d 11);
    if bytes_eqb b [x55] then Ok true else if bytes_eqb b [xaa] then Ok false else Err (Msg "missing/unknown signed NVDEC state")
  else Ok false.
Definition appraise_measurements (r : SpdmReport) (d : OpaqueData) (golden : gmap N (list bytes)) (inact : gset N) (gpu : bool) :
    res AttError MeasurementAppraisal :=
  att_need (bool_decide (is_Some (golden !! 0))) "security reference profile lacks boot measurement 0";;
  nvdec ← nvdec_state d gpu;
  st ← for_each (appraise_measurement golden inact nvdec)
         {| remaining := dom golden; so_far := {| matched := []; inactive := []; nvdec_disabled := [] |} |} (measurements r);
  att_need (bool_decide (remaining st = ∅)) "report missing required measurements";;
  Ok (so_far st).

(** ** Security versions *)
Definition svn_constraint (d : OpaqueData) (st : gset N * gset bytes * gmap bytes N) (c : OpaqueSvnConstraint) :
    res AttError (gset N * gset bytes * gmap bytes N) :=
  let '(ids, names, claims) := st in
  att_need (bool_decide (type_id c ∉ ids) && bool_decide (constraint_name c ∉ names)) "overlapping signed SVN constraints";;
  att_need (value_size c =? 2) "unsupported manifest SVN width";;
  runtime ← att_opaque (svn d (type_id c));
  att_need (min_svn c <=? runtime) "SVN rollback";;
  Ok ({[type_id c]} ∪ ids, {[constraint_name c]} ∪ names,
      if include_in_result c then <[constraint_name c := runtime]> claims else claims).
Definition appraise_svn (d : OpaqueData) (cs : list OpaqueSvnConstraint) : res AttError (gmap bytes N) :=
  '(_, _, claims) ← for_each (svn_constraint d) (∅, ∅, ∅) cs; Ok claims.

(** ** One device against its manifests *)
Definition golden_entry (golden : gmap N (list bytes)) (e : N * list bytes) : res AttError (gmap N (list bytes)) :=
  att_need (bool_decide (golden !! e.1 = None)) "overlapping active RIM measurement";; Ok (<[e.1 := e.2]> golden).
Definition golden_rim (st : gmap N (list bytes) * gset N) (r : VerifiedRim) : res AttError (gmap N (list bytes) * gset N) :=
  let '(golden, inact) := st in
  golden ← for_each golden_entry golden (btree_iter N.le (rim_measurements (rim_data r)));
  Ok (golden, inact ∪ inactive_indices (rim_data r)).
Definition appraise (r : SpdmReport) (d : OpaqueData) (rims : list VerifiedRim) (gpu : bool) : res AttError DeviceVerdict :=
  '(golden, inact) ← for_each golden_rim (∅, ∅) rims;
  claims ← appraise_svn d (rims ≫= fun r => opaque_constraints (rim_data r));
  ma ← appraise_measurements r d golden inact gpu;
  Ok {| dv_identity := []; dv_model := []; dv_driver_version := None; dv_vbios_version := []; dv_mode := None;
        matched_measurements := matched ma; inactive_measurements := inactive ma; nvdec_disabled_measurements := nvdec_disabled ma;
        manifest_sha384 := (fun r => hex_encode (source_sha384 (rim_data r))) <$> rims; opaque_claims := claims;
        security_profile := lit "nvidia_signed_reference_measurements_matched"; signed_security_flags := None |}.
Definition is_manifest (k : RimKind) (mdl v : bytes) (r : VerifiedRim) : bool :=
  let m := metadata (rim_data r) in bool_decide (kind m = k) && bytes_eqb (model m) mdl && bytes_eqb (version m) v.
Definition manifest (rims : list VerifiedRim) (k : RimKind) (mdl v : bytes) : res AttError VerifiedRim :=
  let found := List.filter (is_manifest k mdl v) rims in
  att_need (blen found =? 1) "missing or ambiguous signed RIM";; index found 0.

(** ** Signed fields *)
Definition check_field (d : OpaqueData) (_ : unit) (e : N * bytes) : res AttError unit :=
  if negb (blen e.2 =? 0) then
    v ← att_opaque (field_bytes d e.1); att_need (bytes_eqb v e.2) "signed security field violates policy"
  else Err (Msg "signed security field violates policy").
Definition check_fields (d : OpaqueData) (required : gmap N bytes) : res AttError unit :=
  for_each (check_field d) tt (btree_iter N.le required).
Definition insert_pdi (s : gset bytes) (pdi : bytes) : gset bytes :=
  if bytes_eqb pdi (replicate 8 x00) then s else {[hex_encode pdi]} ∪ s.
Definition pdi_set (values : list bytes) : res AttError (gset bytes) :=
  let result := foldl insert_pdi ∅ values in
  att_need (bool_decide (result <> ∅)) "empty signed topology";; Ok result.
Definition PRODUCTION_FLAGS : list (OperationalFlag * bool) :=
  [(NotConfigured, false); (NotSecure, false); (Recovery, false); (Debug, false); (NotReplayProtected, false); (NotIntegrityProtected, false)].
Definition require_production_security (id : DeviceCertificateIdentity) : res AttError unit :=
  att_pki (require_security_flags id PRODUCTION_FLAGS).

Section Verify.
Context `{X : X509} `{K : CpuCrypto} `{H : Sha2} `{GX : GpuX509} `{OF : OcspFormats} `{P : Spdm.P384} `{PK : !P384Keys P} `{XM : Xml} `{DD : DiceDer}.

(** ** The verifier *)
Definition with_pinned_roots (p : GpuPolicy) (device rim : list Certificate) : res AttError GpuVerifier :=
  gpu_policy_validate p;;
  att_need (negb (blen device =? 0) && negb (blen rim =? 0)) "vendor trust roots cannot be empty";;
  Ok {| gv_policy := p; device_roots := device; rim_roots := rim |}.
Definition gpu_verifier_new (p : GpuPolicy) : res AttError GpuVerifier :=
  device ← att_pki pinned_device_roots;
  rim ← att_pki pinned_rim_roots;
  with_pinned_roots p device rim.

Definition authenticate (v : GpuVerifier) (certs report nonce : bytes) (e : GpuEvidenceBundle) (now : N) : res AttError ValidatedChain :=
  chain ← att_pki (validate_gpu_chain certs (device_roots v) now Device);
  att_pki (check_chain chain (revocation (collateral e)) now);;
  leaf ← index (certificates chain) 0;
  key ← att_some (p384_from_der (spki_der leaf)) "invalid P-384 key";
  r ← att_spdm (parse_report report);
  att_spdm (Spdm.verify_signature r nonce key);;
  Ok chain.

Record GpuProgress : Type := { gp_devices : list DeviceVerdict; gp_seen : gset bytes; gp_edges : gmap bytes (gset bytes) }.
(** The signed peers of a device in a fabric, which must be the enrolled ones. *)
Definition gpu_topology (v : GpuVerifier) (p : DevicePolicy) (d : OpaqueData) : res AttError (bytes * gset bytes) :=
  raw ← att_opaque (pdis d 22);
  actual ← pdi_set (@rev byte <$> raw);
  gpu_pdi ← att_some (dp_pdi p) "missing enrolled GPU PDI";
  let expected : gset bytes :=
    list_to_set (sp_pdi <$> List.filter (fun s => bool_decide (gpu_pdi ∈ sp_gpu_pdis s)) (policy_switches (gv_policy v))) in
  att_need (bool_decide (actual = expected)) "signed GPU-to-switch topology mismatch";;
  Ok (gpu_pdi, actual).
Definition verify_gpu (v : GpuVerifier) (e : GpuEvidenceBundle) (rims : list VerifiedRim) (nonce : bytes) (now : N)
    (st : GpuProgress) (gpu : GpuEvidence) : res AttError GpuProgress :=
  chain ← authenticate v (ge_attestation_certificate_chain gpu) (ge_attestation_report gpu) nonce e now;
  certified ← att_pki (certificate_identity chain);
  require_production_security certified;;
  let identity := hex_encode (device_key_sha256 certified) in
  att_need (bool_decide (identity ∉ gp_seen st)) "repeated device certificate identity";;
  p ← att_some (List.find (fun p => bytes_eqb (dp_identity p) identity) (policy_devices (gv_policy v))) "GPU identity not enrolled";
  r ← att_spdm (parse_report (ge_attestation_report gpu));
  d ← att_opaque (parse_opaque (opaque_data r));
  att_need (bytes_eqb (id_model certified) (dp_model p)) "certificate GPU model differs from enrolled model";;
  (if bytes_eqb (id_model certified) (lit "GB100") || is_ok (field d 20)
   then f ← att_opaque (field_bytes d 20); att_pki (verify_report_fwid certified f) else Ok tt);;
  (if bytes_eqb (id_model certified) (lit "GB100") && is_ok (field d 35)
   then t ← att_opaque (field_text d 35); att_need (bytes_eqb t (id_model certified)) "signed CHIP_INFO differs from certificate model"
   else Ok tt);;
  m ← att_opaque (mode d);
  att_need (bool_decide (m = dp_mode p)) "signed GPU confidential mode violates policy";;
  check_fields d (dp_required p);;
  driver_version ← att_opaque (field_text d 3);
  vbios ← att_opaque (vbios_version d);
  driver_rim ← manifest rims GpuDriver (dp_model p) driver_version;
  vbios_rim ← manifest rims GpuVbios (dp_model p) vbios;
  a ← appraise r d [driver_rim; vbios_rim] true;
  let verdict := {|
    dv_identity := identity; dv_model := dp_model p; dv_driver_version := Some driver_version; dv_vbios_version := vbios;
    dv_mode := Some (dp_mode p); matched_measurements := matched_measurements a; inactive_measurements := inactive_measurements a;
    nvdec_disabled_measurements := nvdec_disabled_measurements a; manifest_sha384 := manifest_sha384 a; opaque_claims := opaque_claims a;
    security_profile := security_profile a; signed_security_flags := operational_flags certified |} in
  edges ← (if bool_decide (dp_mode p = Ppcie)
           then '(pdi, actual) ← gpu_topology v p d; Ok (<[pdi := actual]> (gp_edges st))
           else Ok (gp_edges st));
  Ok {| gp_devices := gp_devices st ++ [verdict]; gp_seen := {[identity]} ∪ gp_seen st; gp_edges := edges |}.

Definition reciprocal (edges : gmap bytes (gset bytes)) (pdi : bytes) (_ : unit) (peer : bytes) : res AttError unit :=
  att_need (match edges !! peer with Some s => bool_decide (pdi ∈ s) | None => false end) "nonreciprocal signed fabric edge".
(** The signed peers of a switch: the enrolled devices, each of which names the switch. *)
Definition switch_topology (edges : gmap bytes (gset bytes)) (p : SwitchPolicy) (d : OpaqueData) : res AttError unit :=
  own ← att_opaque (field_bytes d 22);
  att_need (bytes_eqb (hex_encode own) (sp_pdi p)) "signed switch PDI mismatch";;
  peers ← att_opaque (field_bytes d 26);
  att_need ((64 <=? blen peers) && (blen peers <=? 128)) "invalid LS10 PDI/port vector";;
  head ← index_range peers 0 64;
  parsed ← for_each (fun acc c => c ← expect_len 8 c; Ok (acc ++ [c])) [] (chunks_exact 8 head);
  actual ← pdi_set parsed;
  att_need (bool_decide (actual = sp_gpu_pdis p)) "signed switch-to-GPU topology mismatch";;
  for_each (reciprocal edges (sp_pdi p)) tt (elements actual).
Definition verify_switch (v : GpuVerifier) (e : GpuEvidenceBundle) (rims : list VerifiedRim) (nonce : bytes) (now : N)
    (edges : gmap bytes (gset bytes)) (st : list DeviceVerdict * gset bytes) (sw : SwitchEvidence) :
    res AttError (list DeviceVerdict * gset bytes) :=
  let '(verdicts, seen) := st in
  chain ← authenticate v (se_certificate_chain sw) (se_attestation_report sw) nonce e now;
  certified ← att_pki (certificate_identity chain);
  require_production_security certified;;
  let identity := hex_encode (device_key_sha256 certified) in
  att_need (bool_decide (identity ∉ seen)) "repeated switch/device certificate identity";;
  p ← att_some (List.find (fun p => bytes_eqb (sp_identity p) identity) (policy_switches (gv_policy v))) "switch identity not enrolled";
  r ← att_spdm (parse_report (se_attestation_report sw));
  d ← att_opaque (parse_opaque (opaque_data r));
  att_need (bytes_eqb (id_model certified) (sp_model p)) "certificate switch model differs from enrolled model";;
  (if is_ok (field d 20) then f ← att_opaque (field_bytes d 20); att_pki (verify_report_fwid certified f) else Ok tt);;
  check_fields d (sp_required p);;
  switch_topology edges p d;;
  vbios ← att_opaque (switch_vbios_version d);
  mdl ← switch_manifest_model (sp_model p);
  rim ← manifest rims NvSwitchVbios mdl vbios;
  a ← appraise r d [rim] false;
  let verdict := {|
    dv_identity := identity; dv_model := sp_model p; dv_driver_version := None; dv_vbios_version := vbios; dv_mode := None;
    matched_measurements := matched_measurements a; inactive_measurements := inactive_measurements a;
    nvdec_disabled_measurements := nvdec_disabled_measurements a; manifest_sha384 := manifest_sha384 a; opaque_claims := opaque_claims a;
    security_profile := security_profile a; signed_security_flags := operational_flags certified |} in
  Ok (verdicts ++ [verdict], {[identity]} ∪ seen).

Definition verify_manifest (v : GpuVerifier) (e : GpuEvidenceBundle) (now : N) (acc : list VerifiedRim) (xml : bytes) : res AttError (list VerifiedRim) :=
  r ← att_pki (verify_xml xml (rim_roots v) (revocation (collateral e)) now); Ok (acc ++ [r]).
Definition gpu_verifier_verify (v : GpuVerifier) (e : GpuEvidenceBundle) (nonce : bytes) (now : N) : res AttError VerifiedGpuBundle :=
  att_need ((bundle_version e =? 1) && bytes_eqb (bundle_nonce e) nonce) "GPU bundle version/nonce mismatch";;
  att_need ((blen (gpus e) =? blen (policy_devices (gv_policy v))) && (blen (switches e) =? blen (policy_switches (gv_policy v))))
    "required GPU/switch inventory mismatch";;
  att_need (forallb (fun g => blen (ge_cec_attestation_report g) =? 0) (gpus e)) "CEC evidence requires a supported CEC appraisal profile";;
  att_need (negb (blen (manifests (collateral e)) =? 0) && (blen (manifests (collateral e)) <=? 64)) "invalid manifest inventory";;
  rims ← for_each (verify_manifest v e now) [] (manifests (collateral e));
  st ← for_each (verify_gpu v e rims nonce now) {| gp_devices := []; gp_seen := ∅; gp_edges := ∅ |} (gpus e);
  '(sw, _) ← for_each (verify_switch v e rims nonce now (gp_edges st)) ([], gp_seen st) (switches e);
  Ok {| vb_devices := gp_devices st; vb_switches := sw; fabric_policy_verified := negb (blen (policy_switches (gv_policy v)) =? 0) |}.
End Verify.

(** * Policies that are accepted *)
(** Canonical lower-case hexadecimal of [n] bytes, not all zero. *)
Definition canonical_hex (n : N) (s : bytes) : Prop := exists b, s = hex_encode b /\ blen b = n /\ any_nonzero b = true.
Definition enrolled_pdi (d : DevicePolicy) : option bytes := if bool_decide (dp_mode d = Ppcie) then dp_pdi d else None.
Definition enrolled_pdis (p : GpuPolicy) : list bytes := omap enrolled_pdi (policy_devices p).
(** One enrolled device: independent of a fabric, or part of one and of no switchless one. *)
Record device_enrolled (p : GpuPolicy) (d : DevicePolicy) : Prop := {
  de_identity : canonical_hex 32 (dp_identity d);
  de_model : dp_model d = lit "GH100" \/ dp_model d = lit "GB100";
  de_fabric : if decide (dp_mode d = Ppcie)
    then policy_switches p <> [] /\ is_Some (dp_required d !! 21) /\ exists pdi, dp_pdi d = Some pdi /\ canonical_hex 8 pdi
    else policy_switches p = [];
}.
Record switch_enrolled (p : GpuPolicy) (s : SwitchPolicy) : Prop := {
  se_identity : canonical_hex 32 (sp_identity s);
  se_pdi : canonical_hex 8 (sp_pdi s);
  se_model : sp_model s = lit "LS_10";
  se_peers : sp_gpu_pdis s <> ∅ /\ forall pdi, pdi ∈ sp_gpu_pdis s -> pdi ∈ enrolled_pdis p;
  se_fields : forall id, id ∈ [21; 23; 25; 26] -> exists v, sp_required s !! id = Some v /\ v <> [];
}.
Record gpu_policy_wf (p : GpuPolicy) : Prop := {
  gw_count : 1 <= blen (policy_devices p) <= 256 /\ blen (policy_switches p) <= 32;
  gw_devices : forall d, d ∈ policy_devices p -> device_enrolled p d;
  gw_switches : forall s, s ∈ policy_switches p -> switch_enrolled p s;
  gw_identities : NoDup ((dp_identity <$> policy_devices p) ++ (sp_identity <$> policy_switches p));
  gw_pdis : NoDup (enrolled_pdis p) /\ NoDup (sp_pdi <$> policy_switches p);
  gw_edges : forall pdi, pdi ∈ enrolled_pdis p -> exists s, s ∈ policy_switches p /\ pdi ∈ sp_gpu_pdis s;
}.

Lemma policy_hex_safe s n : safe (policy_hex s n) (fun _ => canonical_hex n s).
Proof.
  unfold policy_hex. att. apply safe_bind, safe_ok_or. intros b _. apply safe_bind, safe_ensure. intros Hb. apply safe_bind, safe_ensure.
  intros Hz. cbn [safe]. apply andb_true_iff in Hb as [Hl%N.eqb_eq <-%bytes_eqb_eq]. by exists b.
Qed.
Lemma policy_device_safe p pre d st : st.1 = list_to_set (dp_identity <$> pre) /\ st.2 = list_to_set (omap enrolled_pdi pre) ->
  safe (policy_device p st d) (fun st' => device_enrolled p d /\ dp_identity d ∉ dp_identity <$> pre /\
    (forall pdi, enrolled_pdi d = Some pdi -> pdi ∉ omap enrolled_pdi pre) /\
    st'.1 = list_to_set (dp_identity <$> pre ++ [d]) /\ st'.2 = list_to_set (omap enrolled_pdi (pre ++ [d]))).
Proof.
  destruct st as [ids pdis_]. cbn [fst snd]. intros [-> ->]. unfold policy_device. eapply safe_seq; [apply policy_hex_safe|]. intros ? _ Hid. att.
  apply safe_bind, safe_ensure. intros Hnew%bool_decide_eq_true. rewrite elem_of_list_to_set in Hnew. cbv zeta. unfold gpu_manifest_model. att.
  apply safe_bind, safe_bind, safe_ensure. intros Hmodel. cbn [safe].
  assert (dp_model d = lit "GH100" \/ dp_model d = lit "GB100") as Hm by (apply orb_true_iff in Hmodel; by rewrite !bytes_eqb_eq in Hmodel).
  rewrite fmap_app, list_to_set_app_L, (omap_app _ pre). case_bool_decide as Hmode.
  - apply safe_bind, safe_ok_or. intros pdi Hpdi. eapply safe_seq; [apply policy_hex_safe|]. intros ? _ Hhex.
    apply safe_bind, safe_ensure. intros Hfresh%bool_decide_eq_true. rewrite elem_of_list_to_set in Hfresh.
    apply safe_bind, safe_ensure. intros Hsw. apply safe_bind, safe_ensure. intros H21%bool_decide_eq_true. cbn [safe fst snd].
    assert (enrolled_pdi d = Some pdi) as Hen by (unfold enrolled_pdi; by rewrite bool_decide_eq_true_2).
    split; [|split; [done|split]].
    + split; [done|done|]. rewrite decide_True by done. split; [|split; [done|by exists pdi]]. intros E. by rewrite E in Hsw.
    + intros q Hq. by assert (q = pdi) as -> by congruence.
    + cbn [omap list_omap]. rewrite Hen, list_to_set_app_L. cbn. set_solver.
  - apply safe_bind, safe_ensure. intros Hsw%N.eqb_eq%blen_0. cbn [safe fst snd].
    assert (enrolled_pdi d = None) as Hen by (unfold enrolled_pdi; by rewrite bool_decide_eq_false_2).
    split; [|split; [done|split]].
    + split; [done|done|]. by rewrite decide_False.
    + by rewrite Hen.
    + cbn [omap list_omap]. rewrite Hen, app_nil_r. cbn. set_solver.
Qed.
Definition devices_checked (p : GpuPolicy) (pre : list DevicePolicy) (st : gset bytes * gset bytes) : Prop :=
  (forall d, d ∈ pre -> device_enrolled p d) /\ NoDup (dp_identity <$> pre) /\ NoDup (omap enrolled_pdi pre) /\
  st.1 = list_to_set (dp_identity <$> pre) /\ st.2 = list_to_set (omap enrolled_pdi pre).
Lemma policy_devices_safe p : safe (for_each (policy_device p) (∅, ∅) (policy_devices p)) (devices_checked p (policy_devices p)).
Proof.
  apply safe_prefix; [repeat split; try constructor; set_solver|]. intros pre d post st _ (Hd & Hi & Hp & Hst).
  eapply safe_mono; [by apply policy_device_safe|]. intros st' _ (He & Hid & Hpdi & Hst'). split; [set_solver|].
  rewrite !fmap_app, !omap_app. split; [apply NoDup_app; split; [done|split; [set_solver|apply NoDup_singleton]]|].
  split; [|by rewrite <- fmap_app, <- omap_app]. apply NoDup_app. split; [done|]. cbn [omap list_omap].
  destruct (enrolled_pdi d) as [pdi|]; [|split; [set_solver|constructor]]. specialize (Hpdi pdi eq_refl). split; [set_solver|apply NoDup_singleton].
Qed.
Lemma explicit_fields_safe required : safe (for_each (explicit_field required) tt [21; 23; 25; 26]) (fun _ =>
  forall id, id ∈ [21; 23; 25; 26] -> exists v, required !! id = Some v /\ v <> []).
Proof.
  eapply safe_mono; [apply (safe_for_all (explicit_field required))|].
  - intros id _. unfold explicit_field. att. by apply safe_ensure.
  - intros [] _ Hl id Hid. specialize (Hl id Hid). unfold explicit_field in Hl. att. apply ensure_Ok in Hl.
    destruct (required !! id) as [v|]; [|done]. exists v. split; [done|]. by intros ->.
Qed.
Definition switches_checked (p : GpuPolicy) (ids : list bytes) (pre : list SwitchPolicy) (st : gset bytes * gset bytes) : Prop :=
  (forall s, s ∈ pre -> switch_enrolled p s) /\ NoDup (ids ++ (sp_identity <$> pre)) /\ NoDup (sp_pdi <$> pre) /\
  st.1 = list_to_set (ids ++ (sp_identity <$> pre)) /\ st.2 = list_to_set (sp_pdi <$> pre).
Lemma policy_switches_safe (p : GpuPolicy) (ids : list bytes) (pdis_ : gset bytes) : NoDup ids -> pdis_ = list_to_set (enrolled_pdis p) ->
  safe (for_each (policy_switch pdis_) (list_to_set ids, ∅) (policy_switches p)) (switches_checked p ids (policy_switches p)).
Proof.
  intros Hids ->. apply safe_prefix; [repeat split; cbn; rewrite ?app_nil_r; try constructor; set_solver|].
  intros pre s post [si sp] _ (Hs & Hi & Hp & E1 & E2). cbn [fst snd] in *. subst si sp. unfold policy_switch, switch_manifest_model. att.
  apply safe_bind, safe_bind, safe_ensure. intros Hm%bytes_eqb_eq. cbn [safe]. eapply safe_seq; [apply policy_hex_safe|]. intros ? _ H1.
  eapply safe_seq; [apply policy_hex_safe|]. intros ? _ H2. apply safe_bind, safe_ensure. intros Hnew.
  apply safe_bind, safe_ensure. intros Hg. eapply safe_seq; [apply explicit_fields_safe|]. intros ? _ Hf. cbn [safe].
  apply andb_true_iff in Hnew as [Hn1%bool_decide_eq_true Hn2%bool_decide_eq_true].
  apply andb_true_iff in Hg as [Hg1%bool_decide_eq_true Hg2%bool_decide_eq_true]. rewrite elem_of_list_to_set in Hn1, Hn2.
  unfold switches_checked. rewrite !fmap_app. split; [|split; [|split; [|split]]]; cbn [fst snd].
  - intros t [Ht| ->%list_elem_of_singleton]%elem_of_app; [by apply Hs|]. split; try done. split; [done|]. set_solver.
  - rewrite app_assoc. apply NoDup_app. split; [done|]. split; [set_solver|apply NoDup_singleton].
  - apply NoDup_app. split; [done|]. split; [set_solver|apply NoDup_singleton].
  - rewrite app_assoc, list_to_set_app_L. cbn. set_solver.
  - rewrite list_to_set_app_L. cbn. set_solver.
Qed.
(** Validation never panics, and accepts well-formed policies only. *)
Lemma gpu_policy_validate_safe p : safe (gpu_policy_validate p) (fun _ => gpu_policy_wf p).
Proof.
  unfold gpu_policy_validate. att. apply safe_bind, safe_ensure. intros Hc. bools. eapply safe_seq; [apply policy_devices_safe|].
  intros [ids pdis_] _ (Hd & Hi & Hp & E1 & E2). cbn [fst snd] in *. subst ids.
  eapply safe_seq; [by apply policy_switches_safe|]. intros st _ (Hs & Hall & Hsp & _). eapply safe_mono.
  { apply (safe_for_all (has_edge p)). intros x _. unfold has_edge. att. by apply safe_ensure. }
  intros [] _ Hedge. split; try done; [lia|]. intros pdi Hpdi. assert (has_edge p tt pdi = Ok tt) as He.
  { apply Hedge. rewrite elem_of_elements, E2. by apply elem_of_list_to_set. }
  unfold has_edge in He. att. apply ensure_Ok in He. apply existsb_exists in He as (s & Hin%list_elem_of_In & Hm%bool_decide_eq_true). by exists s.
Qed.

(** * Measurements *)
(** What becomes of a measurement: matched against its reference values, declared inactive
    by the manifests, or that of a video decoder that is signed to be disabled. *)
Inductive Fate : Type := ToMatched | ToInactive | ToNvdec.
#[local] Instance Fate_eq_dec : EqDecision Fate.
Proof. solve_decision. Defined.
Inductive fate (golden : gmap N (list bytes)) (inact : gset N) (nvdec : bool) (m : Measurement) : Fate -> Prop :=
| to_nvdec : nvdec = true -> index_ m = 36 -> fate golden inact nvdec m ToNvdec
| to_matched vs : ~ (nvdec = true /\ index_ m = 36) -> golden !! (index_ m - 1) = Some vs -> value m ∈ vs ->
    fate golden inact nvdec m ToMatched
| to_inactive : ~ (nvdec = true /\ index_ m = 36) -> golden !! (index_ m - 1) = None -> index_ m - 1 ∈ inact ->
    fate golden inact nvdec m ToInactive.
Definition reference_form (m : Measurement) : Prop := raw_bit_stream m = false /\ value_type m = 1 /\ blen (value m) = 48.
(** The measurements accepted by the references: every one has a fate, and none that the
    references require is missing. *)
Record measured (ms : list Measurement) (golden : gmap N (list bytes)) (inact : gset N) (nvdec : bool) : Prop := {
  me_fates : forall m, m ∈ ms -> reference_form m /\ exists f, fate golden inact nvdec m f;
  me_complete : forall i, is_Some (golden !! i) -> exists m, m ∈ ms /\ index_ m = i + 1;
}.
(** The lists of a verdict are the measurements of each fate. *)
Definition fates_listed (ms : list Measurement) (golden : gmap N (list bytes)) (inact : gset N) (nvdec : bool) (a : MeasurementAppraisal) : Prop :=
  forall i, (i ∈ matched a <-> exists m, m ∈ ms /\ index_ m = i + 1 /\ fate golden inact nvdec m ToMatched) /\
    (i ∈ inactive a <-> exists m, m ∈ ms /\ index_ m = i + 1 /\ fate golden inact nvdec m ToInactive) /\
    (i ∈ nvdec_disabled a <-> exists m, m ∈ ms /\ index_ m = i + 1 /\ fate golden inact nvdec m ToNvdec).
Lemma fate_fun golden inact nvdec m f f' : fate golden inact nvdec m f -> fate golden inact nvdec m f' -> f = f'.
Proof. by do 2 inversion 1; subst; try congruence; tauto. Qed.

Definition appraising (golden : gmap N (list bytes)) (inact : gset N) (nvdec : bool) (pre : list Measurement) (st : Appraising) : Prop :=
  fates_listed pre golden inact nvdec (so_far st) /\
  forall i, i ∈ remaining st <-> is_Some (golden !! i) /\ forall m, m ∈ pre -> index_ m <> i + 1.
Lemma listed_snoc pre m f golden inact nvdec a a' : fates_listed pre golden inact nvdec a -> 1 <= index_ m ->
  fate golden inact nvdec m f -> (matched a' = matched a ++ (if f is ToMatched then [index_ m - 1] else []))%list ->
  inactive a' = inactive a ++ (if f is ToInactive then [index_ m - 1] else []) ->
  nvdec_disabled a' = nvdec_disabled a ++ (if f is ToNvdec then [index_ m - 1] else []) ->
  fates_listed (pre ++ [m]) golden inact nvdec a'.
Proof.
  intros Ha Hi Hf E1 E2 E3 i. destruct (Ha i) as (H1 & H2 & H3). rewrite E1, E2, E3.
  assert (forall g l, (i ∈ l <-> exists x, x ∈ pre /\ index_ x = i + 1 /\ fate golden inact nvdec x g) ->
    (i ∈ l ++ (if decide (f = g) then [index_ m - 1] else []) <->
     exists x, x ∈ pre ++ [m] /\ index_ x = i + 1 /\ fate golden inact nvdec x g)) as Hstep.
  { intros g l Hl. rewrite elem_of_app, Hl. split.
    - intros [(x & Hx & Hr)|Hn]; [exists x; split; [set_solver|done]|]. destruct (decide (f = g)) as [<-|]; [|by apply not_elem_of_nil in Hn].
      apply list_elem_of_singleton in Hn as ->. exists m. split; [set_solver|]. split; [lia|done].
    - intros (x & [Hx| ->%list_elem_of_singleton]%elem_of_app & Hix & Hg); [left; by exists x|right].
      rewrite decide_True by by eapply fate_fun. apply list_elem_of_singleton. lia. }
  split; [|split]; [pose proof (Hstep ToMatched _ H1) as Hs|pose proof (Hstep ToInactive _ H2) as Hs|pose proof (Hstep ToNvdec _ H3) as Hs];
    destruct f; exact Hs.
Qed.
Lemma at_36 m : 1 <= index_ m -> (index_ m - 1 =? 35) = true <-> index_ m = 36.
Proof. rewrite N.eqb_eq. lia. Qed.
Lemma remaining_snoc (golden : gmap N (list bytes)) (pre : list Measurement) m (s s' : gset N) : 1 <= index_ m ->
  (forall i, i ∈ s <-> is_Some (golden !! i) /\ forall x, x ∈ pre -> index_ x <> i + 1) ->
  (s' = s ∖ {[index_ m - 1]} \/ s' = s /\ golden !! (index_ m - 1) = None) ->
  forall i, i ∈ s' <-> is_Some (golden !! i) /\ forall x, x ∈ pre ++ [m] -> index_ x <> i + 1.
Proof.
  intros Hm Hs Hs' i. destruct Hs' as [-> |[-> Hn]].
  - rewrite elem_of_difference, Hs, elem_of_singleton. split.
    + intros [[Hg Hp] Hne]. split; [done|]. intros x [Hx| ->%list_elem_of_singleton]%elem_of_app; [by apply Hp|lia].
    + intros [Hg Hp]. split; [split; [done|]; intros x Hx; apply Hp; set_solver|]. intros ->.
      apply (Hp m); [set_solver|lia].
  - rewrite Hs. split.
    + intros [Hg Hp]. split; [done|]. intros x [Hx| ->%list_elem_of_singleton]%elem_of_app; [by apply Hp|]. intros E.
      replace i with (index_ m - 1) in Hg by lia. rewrite Hn in Hg. by destruct Hg.
    + intros [Hg Hp]. split; [done|]. intros x Hx. apply Hp. set_solver.
Qed.
(** A measurement that the video decoder's state does not excuse. *)
Lemma appraise_reference golden inact nvdec pre st m : appraising golden inact nvdec pre st -> 1 <= index_ m ->
  ~ (nvdec = true /\ index_ m = 36) ->
  decides (appraise_reference_of golden inact st m (index_ m - 1)) (exists f, fate golden inact nvdec m f)
    (appraising golden inact nvdec (pre ++ [m])).
Proof.
  intros [Hl Hr] Hm Hn. unfold appraise_reference_of. att. unfold ensure. destruct (golden !! (index_ m - 1)) as [vs|] eqn:Eg.
  - destruct (existsb (bytes_eqb (value m)) vs) eqn:Ev; cbn [mbind res_bind decides].
    + assert (value m ∈ vs) as Hv by (apply existsb_exists in Ev as (x & Hx%list_elem_of_In & ->%bytes_eqb_eq); done).
      assert (fate golden inact nvdec m ToMatched) as Hf by by econstructor. split; [by eexists|]. split.
      * eapply (listed_snoc _ _ ToMatched); try done; cbn; by rewrite ?app_nil_r.
      * cbn [remaining]. eapply remaining_snoc; [done|exact Hr|by left].
    + intros (f & Hf). inversion Hf; subst; try tauto; [|congruence]. simplify_eq.
      assert (existsb (bytes_eqb (value m)) vs = true) as E; [|congruence]. apply existsb_exists. exists (value m).
      split; [by apply list_elem_of_In|by apply bytes_eqb_eq].
  - case_bool_decide as Ei; cbn [mbind res_bind decides].
    + assert (fate golden inact nvdec m ToInactive) as Hf by by constructor. split; [by eexists|]. split.
      * eapply (listed_snoc _ _ ToInactive); try done; cbn; by rewrite ?app_nil_r.
      * cbn [remaining]. eapply remaining_snoc; [done|exact Hr|by right].
    + intros (f & Hf). inversion Hf; subst; try tauto; congruence.
Qed.
Lemma appraise_measurement_decides golden inact nvdec pre st m : appraising golden inact nvdec pre st -> 1 <= index_ m ->
  decides (appraise_measurement golden inact nvdec st m) (reference_form m /\ exists f, fate golden inact nvdec m f)
    (appraising golden inact nvdec (pre ++ [m])).
Proof.
  intros Ha Hm. unfold appraise_measurement. rewrite (proj2 (checked_sub_Some _ _ _) (conj eq_refl Hm)).
  cbn [unwrap]. ok_step. att. apply (decides_bind _ _ _ _ (fun _ => True)).
  { apply decides_ensure; [|done]. unfold reference_form. rewrite !andb_true_iff, negb_true_iff, !N.eqb_eq. tauto. }
  intros [] _ _ _. pose proof (appraise_reference golden inact nvdec pre st m Ha Hm) as Href. pose proof (at_36 m Hm) as H36.
  destruct (index_ m - 1 =? 35); cbn [andb]; [|apply Href; intros [_ E]; by apply H36 in E].
  destruct nvdec; [|apply Href; by intros [? _]]. destruct Ha as [Hl Hr].
  assert (fate golden inact true m ToNvdec) as Hf by (constructor; [done|by apply H36]). split; [by eexists|]. split.
  - eapply (listed_snoc _ _ ToNvdec); try done; cbn; by rewrite ?app_nil_r.
  - cbn [remaining]. eapply remaining_snoc; [done|exact Hr|by left].
Qed.
Lemma remaining_empty (golden : gmap N (list bytes)) (ms : list Measurement) (s : gset N) :
  (forall i, i ∈ s <-> is_Some (golden !! i) /\ forall x, x ∈ ms -> index_ x <> i + 1) ->
  s = ∅ <-> (forall i, is_Some (golden !! i) -> exists m, m ∈ ms /\ index_ m = i + 1).
Proof.
  intros Hs. split.
  - intros -> i Hi. destruct (decide (Exists (fun m => index_ m = i + 1) ms)) as [He|Hn]; [by apply Exists_exists in He|].
    exfalso. apply (not_elem_of_empty (C := gset N) i), Hs. split; [done|]. intros x Hx E. apply Hn, Exists_exists. by exists x.
  - intros Hc. apply set_eq. intros i. rewrite Hs. split; [|set_solver]. intros [Hi Hn]. destruct (Hc i Hi) as (m & Hm & E). by destruct (Hn m Hm).
Qed.
(** The comparison accepts exactly the reports that [measured] describes, and lists them. *)
Lemma appraise_measurements_decides r d golden inact gpu nvdec : (forall m, m ∈ measurements r -> 1 <= index_ m) ->
  nvdec_state d gpu = Ok nvdec ->
  decides (appraise_measurements r d golden inact gpu) (is_Some (golden !! 0) /\ measured (measurements r) golden inact nvdec)
    (fates_listed (measurements r) golden inact nvdec).
Proof.
  intros Hi Hn. unfold appraise_measurements. rewrite Hn. ok_step. att. apply (decides_bind _ _ _ _ (fun _ => True)).
  { apply decides_ensure; [apply bool_decide_eq_true|done]. }
  intros [] _ _ _. set (P := forall pre m post, measurements r = pre ++ m :: post -> reference_form m /\ exists f, fate golden inact nvdec m f).
  eapply (decides_iff _ (P /\ (forall i, is_Some (golden !! i) -> exists m, m ∈ measurements r /\ index_ m = i + 1))).
  - eapply (decides_bind _ _ P _ (appraising golden inact nvdec (measurements r))).
    + apply (decides_for_each _ (appraising golden inact nvdec) (fun _ m => reference_form m /\ exists f, fate golden inact nvdec m f)).
      * split; [intros i; cbn; repeat split; try set_solver; intros (m & Hm & _); by apply not_elem_of_nil in Hm|].
        intros i. cbn [remaining]. rewrite elem_of_dom. split; [intros ?; split; [done|set_solver]|tauto].
      * intros pre m post st E Hst. apply appraise_measurement_decides; [done|]. apply Hi. rewrite E. set_solver.
    + intros st _ _ [Hl Hr]. apply (decides_then _ _ _ (fun _ => True) (fates_listed (measurements r) golden inact nvdec)); [|by eauto].
      apply decides_ensure; [|done]. rewrite bool_decide_eq_true. by apply remaining_empty.
  - unfold P. rewrite forall_split. split; [intros [H1 H2]; by split|intros []; by split].
  - done.
Qed.

(** ** Security versions and references *)
(** Every constraint holds of the signed version, and the claims are the signed versions of
    the constraints that ask for it. *)
Record versions_ok (d : OpaqueData) (cs : list OpaqueSvnConstraint) (claims : gmap bytes N) : Prop := {
  vo_floor : forall c, c ∈ cs -> exists n, svn d (type_id c) = Ok n /\ min_svn c <= n;
  vo_apart : NoDup (type_id <$> cs) /\ NoDup (constraint_name <$> cs);
  vo_claims : forall name n, claims !! name = Some n <->
    exists c, c ∈ cs /\ include_in_result c = true /\ constraint_name c = name /\ svn d (type_id c) = Ok n;
}.
Lemma svn_safe d id : safe (svn d id) (fun _ => True).
Proof. by destruct (accessors_safe d id) as (_ & ? & _). Qed.
Lemma svn_constraint_safe d pre st c :
  st.1.1 = list_to_set (type_id <$> pre) /\ st.1.2 = list_to_set (constraint_name <$> pre) /\ versions_ok d pre st.2 ->
  safe (svn_constraint d st c) (fun st' => st'.1.1 = list_to_set (type_id <$> pre ++ [c]) /\
    st'.1.2 = list_to_set (constraint_name <$> pre ++ [c]) /\ versions_ok d (pre ++ [c]) st'.2).
Proof.
  destruct st as [[ids names] claims]. cbn [fst snd]. intros (-> & -> & [Hf [Ht Hn] Hc]). unfold svn_constraint. att.
  apply safe_bind, safe_ensure. intros Hnew. apply safe_bind, safe_ensure. intros _. apply andb_true_iff in Hnew as [H1%bool_decide_eq_true H2%bool_decide_eq_true].
  rewrite elem_of_list_to_set in H1. rewrite elem_of_list_to_set in H2. eapply safe_seq; [apply safe_map_err, svn_safe|]. intros n Hsvn%map_err_Ok _.
  apply safe_bind, safe_ensure. intros Hle%N.leb_le. cbn [safe fst snd]. rewrite !fmap_app, !list_to_set_app_L.
  split; [cbn; set_solver|]. split; [cbn; set_solver|]. split.
  - intros x [Hx| ->%list_elem_of_singleton]%elem_of_app; [by apply Hf|]. by exists n.
  - rewrite !fmap_app. split; (apply NoDup_app; split; [done|]; split; [set_solver|apply NoDup_singleton]).
  - intros name k. destruct (include_in_result c) eqn:Ei.
    + destruct (decide (name = constraint_name c)) as [->|Hne].
      * rewrite lookup_insert_eq. split; [intros [= <-]; exists c; split; [set_solver|done]|].
        intros (x & [Hx| ->%list_elem_of_singleton]%elem_of_app & _ & E & Hs); [|congruence]. destruct H2. rewrite <- E. set_solver.
      * rewrite lookup_insert_ne, Hc by done. split; intros (x & Hx & Hr & E & Hs); exists x; [set_solver|].
        apply elem_of_app in Hx as [Hx| ->%list_elem_of_singleton]; done.
    + rewrite Hc. split; intros (x & Hx & Hr & E & Hs); exists x; [set_solver|].
      apply elem_of_app in Hx as [Hx| ->%list_elem_of_singleton]; [done|congruence].
Qed.
Lemma appraise_svn_safe d cs : safe (appraise_svn d cs) (versions_ok d cs).
Proof.
  unfold appraise_svn. eapply safe_seq.
  { apply (safe_prefix _ (fun pre st => st.1.1 = list_to_set (type_id <$> pre) /\ st.1.2 = list_to_set (constraint_name <$> pre) /\
      versions_ok d pre st.2)).
    - split; [done|]. split; [done|]. split; [set_solver|split; constructor|]. intros name n. cbn. rewrite lookup_empty.
      split; [done|]. intros (c & Hc & _). by apply not_elem_of_nil in Hc.
    - intros pre c post st _ Hst. by apply svn_constraint_safe. }
  intros [[ids names] claims] _ (_ & _ & Hv). exact Hv.
Qed.

(** The references of several manifests: their union, which no two share an index of. *)
Record golden_of (rims : list VerifiedRim) (golden : gmap N (list bytes)) (inact : gset N) : Prop := {
  gn_golden i vs : golden !! i = Some vs <-> exists r, r ∈ rims /\ rim_measurements (rim_data r) !! i = Some vs;
  gn_inactive i : i ∈ inact <-> exists r, r ∈ rims /\ i ∈ inactive_indices (rim_data r);
}.
Lemma golden_entries_safe l golden : safe (for_each golden_entry golden l) (fun g => forall i vs,
  g !! i = Some vs <-> golden !! i = Some vs \/ (i, vs) ∈ l).
Proof.
  revert golden. induction l as [|[i vs] l IH]; intros golden; [cbn; set_solver|]. rewrite for_each_cons. unfold golden_entry at 1. att.
  apply safe_bind, safe_bind, safe_ensure. intros Hn%bool_decide_eq_true. cbn [safe fst snd] in *. eapply safe_mono; [apply IH|].
  intros g _ Hg j ws. rewrite (Hg j ws). destruct (decide (j = i)) as [->|Hne].
  - rewrite lookup_insert_eq, Hn, elem_of_cons. split; [intros [[= <-]|?]; auto|intros [?|[[= <-]|?]]; auto; congruence].
  - rewrite lookup_insert_ne, elem_of_cons by done. split; [intros [?|?]; auto|intros [?|[[= ? ?]|?]]; auto; congruence].
Qed.
Lemma golden_rims_safe rims : safe (for_each golden_rim (∅, ∅) rims) (fun st => golden_of rims st.1 st.2).
Proof.
  apply (safe_prefix _ (fun pre st => golden_of pre st.1 st.2)).
  - split; cbn; [intros i vs; rewrite lookup_empty|intros i]; split; try set_solver; intros (r & Hr & _); by apply not_elem_of_nil in Hr.
  - intros pre r post [golden inact] _ [Hg Hi]. cbn [fst snd] in *. unfold golden_rim. eapply safe_seq; [apply golden_entries_safe|].
    intros g _ Hg'. cbn [safe fst snd]. split; intros i.
    + intros vs. rewrite (Hg' i vs), Hg, elem_of_btree_iter. split.
      * intros [(x & Hx & Hm)|Hm]; [exists x; split; [set_solver|done]|exists r; split; [set_solver|done]].
      * intros (x & [Hx| ->%list_elem_of_singleton]%elem_of_app & Hm); [left; by exists x|by right].
    + rewrite elem_of_union, Hi. split.
      * intros [(x & Hx & Hm)|Hm]; [exists x; split; [set_solver|done]|exists r; split; [set_solver|done]].
      * intros (x & [Hx| ->%list_elem_of_singleton]%elem_of_app & Hm); [left; by exists x|by right].
Qed.
(** A device whose signed report agrees with its manifests, and what the verdict says of it. *)
Record appraised (r : SpdmReport) (d : OpaqueData) (rims : list VerifiedRim) (gpu : bool) (v : DeviceVerdict) : Prop := {
  ad_references : exists golden inact nvdec, golden_of rims golden inact /\ nvdec_state d gpu = Ok nvdec /\ is_Some (golden !! 0) /\
    measured (measurements r) golden inact nvdec /\
    fates_listed (measurements r) golden inact nvdec {| matched := matched_measurements v; inactive := inactive_measurements v;
      nvdec_disabled := nvdec_disabled_measurements v |};
  ad_versions : versions_ok d (rims ≫= fun r => opaque_constraints (rim_data r)) (opaque_claims v);
  ad_manifests : manifest_sha384 v = (fun r => hex_encode (source_sha384 (rim_data r))) <$> rims;
}.
Lemma nvdec_state_safe d gpu : safe (nvdec_state d gpu) (fun _ => True).
Proof.
  unfold nvdec_state. destruct gpu; [|done]. att. apply safe_bind, safe_map_err, safe_field_bytes. intros b. repeat case_match; done.
Qed.
Lemma appraise_safe r d rims gpu : (forall m, m ∈ measurements r -> 1 <= index_ m) -> safe (appraise r d rims gpu) (appraised r d rims gpu).
Proof.
  intros Hi. unfold appraise. eapply safe_seq; [apply golden_rims_safe|]. intros [golden inact] _ Hg. cbn [fst snd] in Hg.
  eapply safe_seq; [apply appraise_svn_safe|]. intros claims _ Hv. pose proof (nvdec_state_safe d gpu) as Hn.
  assert (safe (appraise_measurements r d golden inact gpu) (fun a => exists nvdec, nvdec_state d gpu = Ok nvdec /\ is_Some (golden !! 0) /\
    measured (measurements r) golden inact nvdec /\ fates_listed (measurements r) golden inact nvdec a)) as Ha.
  { destruct (nvdec_state d gpu) as [nvdec|e| |] eqn:En; try done.
    - eapply safe_mono; [eapply decides_safe, appraise_measurements_decides; [done|exact En]|]. intros a _ [[H0 Hm] Hl]. by exists nvdec.
    - unfold appraise_measurements. att. apply safe_bind, safe_ensure. intros _. by rewrite En. }
  eapply safe_seq; [exact Ha|]. intros a _ (nvdec & En & H0 & Hm & Hl). cbn [safe]. split; [|done|done].
  exists golden, inact, nvdec. split; [done|]. split; [done|]. split; [done|]. split; [done|]. by destruct a.
Qed.
Lemma manifest_safe rims k mdl v : safe (manifest rims k mdl v) (fun r => r ∈ rims /\ kind (metadata (rim_data r)) = k /\
  model (metadata (rim_data r)) = mdl /\ version (metadata (rim_data r)) = v).
Proof.
  unfold manifest. att. apply safe_bind, safe_ensure. intros Hl%N.eqb_eq. apply safe_index; [lia|]. intros r [_ Hr]%get_Some.
  apply list_elem_of_lookup_2 in Hr. apply list_elem_of_In, filter_In in Hr as [Hin%list_elem_of_In Hm]. unfold is_manifest in Hm.
  apply andb_true_iff in Hm as [[H1%bool_decide_eq_true H2%bytes_eqb_eq]%andb_true_iff H3%bytes_eqb_eq]. done.
Qed.

(** ** Signed fields and peers *)
Definition fields_match (d : OpaqueData) (required : gmap N bytes) : Prop :=
  forall id v, required !! id = Some v -> v <> [] /\ field_bytes d id = Ok v.
Lemma check_fields_safe d required : safe (check_fields d required) (fun _ => fields_match d required).
Proof.
  unfold check_fields. eapply safe_mono; [apply (safe_for_all (check_field d))|].
  - intros [id v] _. unfold check_field. cbn [fst snd]. destruct (negb _); [|done]. att. apply safe_bind, safe_map_err, safe_field_bytes.
    intros b. by apply safe_ensure.
  - intros [] _ Hl id v Hv. specialize (Hl (id, v) (proj2 (elem_of_btree_iter N.le _ _ _) Hv)). unfold check_field in Hl. cbn [fst snd] in Hl.
    destruct (N.eqb_spec (blen v) 0) as [|Hne]; [done|]. cbn [negb] in Hl. att. inv_res. bools. subst. split; [by intros ->|done].
Qed.
Definition peers_of (values : list bytes) (s : gset bytes) : Prop :=
  forall pdi, pdi ∈ s <-> exists v, v ∈ values /\ v <> replicate 8 x00 /\ pdi = hex_encode v.
Lemma insert_pdis values s0 : forall pdi, pdi ∈ foldl insert_pdi s0 values <->
  pdi ∈ s0 \/ exists v, v ∈ values /\ v <> replicate 8 x00 /\ pdi = hex_encode v.
Proof.
  revert s0. induction values as [|v values IH]; intros s0 pdi; cbn [foldl].
  - split; [auto|]. intros [?|(v & Hv & _)]; [done|by apply not_elem_of_nil in Hv].
  - rewrite IH. unfold insert_pdi. destruct (bytes_eqb v (replicate 8 x00)) eqn:Ev.
    + apply bytes_eqb_eq in Ev. split; [intros [?|(w & Hw & ? & ?)]; [by left|right; exists w; split; [by right|done]]|].
      intros [?|(w & [->|Hw]%elem_of_cons & ? & ?)]; [by left|done|right; by exists w].
    + apply bytes_eqb_neq in Ev. rewrite elem_of_union, elem_of_singleton. split.
      * intros [[->|?]|(w & Hw & ? & ?)]; [right; exists v; split; [by left|done]|by left|right; exists w; split; [by right|done]].
      * intros [?|(w & [->|Hw]%elem_of_cons & ? & ->)]; [auto|auto|right; by exists w].
Qed.
Lemma pdi_set_safe values : safe (pdi_set values) (fun s => peers_of values s /\ s <> ∅).
Proof.
  unfold pdi_set. att. apply safe_bind, safe_ensure. intros Hne%bool_decide_eq_true. cbn [safe]. split; [|done].
  intros pdi. rewrite insert_pdis. set_solver.
Qed.
Lemma chunks_safe {E} (b : bytes) acc : safe (E := E) (for_each (fun acc c => c ← expect_len 8 c; Ok (acc ++ [c])) acc (chunks_exact 8 b))
  (fun cs => cs = acc ++ chunks_exact 8 b).
Proof.
  assert (forall c, c ∈ chunks_exact 8 b -> blen c = 8) as Hc.
  { intros c Hc. pose proof (proj1 (Forall_forall _ _) (chunks_exact_length 8 b) c Hc) as Hl. unfold blen. cbv beta in Hl. lia. }
  revert acc Hc. induction (chunks_exact 8 b) as [|c cs IH]; intros acc Hc; [by rewrite app_nil_r|]. rewrite for_each_cons.
  unfold expect_len. rewrite (proj2 (N.eqb_eq _ _)) by (apply Hc; by left). do 2 ok_step. eapply safe_mono; [apply IH; intros x Hx; apply Hc; by right|].
  intros xs _ ->. by rewrite <- app_assoc.
Qed.
Lemma pdis_safe d id : safe (pdis d id) (fun _ => True).
Proof. by destruct (accessors_safe d id) as (_ & _ & _ & _ & _ & _ & ?). Qed.

(** * Devices that are accepted *)
Section VerifySpec.
Context `{X : X509} `{K : CpuCrypto} `{H : Sha2} `{GX : GpuX509} `{OF : OcspFormats} `{P : Spdm.P384} `{PK : !P384Keys P} `{XM : Xml} `{DD : DiceDer}.

(** A report signed for [nonce] by the key at the end of a current path to the device
    roots, and the identity that the path certifies. *)
Record authentic (v : GpuVerifier) (e : GpuEvidenceBundle) (nonce : bytes) (now : N) (report : bytes)
    (certs : list Certificate) (r : SpdmReport) (id : DeviceCertificateIdentity) : Prop := {
  au_path : gpu_path (device_roots v) now Device certs;
  au_status : chain_good certs (revocation (collateral e)) now;
  au_report : parse_report report = Ok r;
  au_signed : exists leaf key s, certs !! 0%nat = Some leaf /\ p384_from_der (spki_der leaf) = Some key /\
    request_nonce r = nonce /\ signature_from_slice (signature r) = Some s /\ p384_verify key (signed_transcript r) s = true;
  au_identity : identity_of certs id;
  au_secure : forall f, f ∈ PRODUCTION_FLAGS -> flag_is id f;
}.
(** The firmware digest that the report states is the certified one. *)
Definition firmware_bound (id : DeviceCertificateIdentity) (d : OpaqueData) : Prop :=
  exists f, field_bytes d 20 = Ok f /\ head (firmware_digests id) = Some f.
(** The manifests of the evidence, each signed by a current path to the manifest roots. *)
Definition manifests_ok (v : GpuVerifier) (e : GpuEvidenceBundle) (now : N) (rims : list VerifiedRim) : Prop :=
  Forall2 (fun xml r => exists certs, signed_rim xml (rim_roots v) now (rim_data r) certs /\
    chain_good certs (revocation (collateral e)) now) (manifests (collateral e)) rims.
(** The enrolled switches of a device. *)
Definition expected_switches (v : GpuVerifier) (pdi : bytes) : gset bytes :=
  list_to_set (sp_pdi <$> List.filter (fun s => bool_decide (pdi ∈ sp_gpu_pdis s)) (policy_switches (gv_policy v))).

(** A GPU that meets its enrolment [p], with its verdict [w]. *)
Record gpu_accepted (v : GpuVerifier) (e : GpuEvidenceBundle) (rims : list VerifiedRim) (nonce : bytes) (now : N)
    (g : GpuEvidence) (p : DevicePolicy) (w : DeviceVerdict) : Prop := {
  ga_device : exists certs r id d driver vbios dv,
    authentic v e nonce now (ge_attestation_report g) certs r id /\ parse_opaque (opaque_data r) = Ok d /\
    dv_identity w = hex_encode (device_key_sha256 id) /\ id_model id = dp_model p /\
    (id_model id = lit "GB100" \/ is_Some (fields d !! 20) -> firmware_bound id d) /\
    mode d = Ok (dp_mode p) /\ fields_match d (dp_required p) /\
    field_text d 3 = Ok dv /\ dv_driver_version w = Some dv /\ vbios_version d = Ok (dv_vbios_version w) /\
    driver ∈ rims /\ kind (metadata (rim_data driver)) = GpuDriver /\ model (metadata (rim_data driver)) = dp_model p /\
    version (metadata (rim_data driver)) = dv /\
    vbios ∈ rims /\ kind (metadata (rim_data vbios)) = GpuVbios /\ model (metadata (rim_data vbios)) = dp_model p /\
    version (metadata (rim_data vbios)) = dv_vbios_version w /\
    appraised r d [driver; vbios] true w /\
    (dp_mode p = Ppcie -> exists pdi raw, dp_pdi p = Some pdi /\ pdis d 22 = Ok raw /\
      peers_of (@rev byte <$> raw) (expected_switches v pdi));
  ga_enrolled : p ∈ policy_devices (gv_policy v) /\ dv_identity w = dp_identity p /\ dv_model w = dp_model p /\ dv_mode w = Some (dp_mode p);
}.
(** A switch that meets its enrolment; [edges] are the signed peers of the devices. *)
Record switch_accepted (v : GpuVerifier) (e : GpuEvidenceBundle) (rims : list VerifiedRim) (nonce : bytes) (now : N)
    (edges : gmap bytes (gset bytes)) (s : SwitchEvidence) (p : SwitchPolicy) (w : DeviceVerdict) : Prop := {
  sa_device : exists certs r id d rim own peers,
    authentic v e nonce now (se_attestation_report s) certs r id /\ parse_opaque (opaque_data r) = Ok d /\
    dv_identity w = hex_encode (device_key_sha256 id) /\ id_model id = sp_model p /\
    (is_Some (fields d !! 20) -> firmware_bound id d) /\ fields_match d (sp_required p) /\
    field_bytes d 22 = Ok own /\ hex_encode own = sp_pdi p /\
    field_bytes d 26 = Ok peers /\ peers_of (chunks_exact 8 (take 64 peers)) (sp_gpu_pdis p) /\
    (forall pdi, pdi ∈ sp_gpu_pdis p -> exists s, edges !! pdi = Some s /\ sp_pdi p ∈ s) /\
    switch_vbios_version d = Ok (dv_vbios_version w) /\
    rim ∈ rims /\ kind (metadata (rim_data rim)) = NvSwitchVbios /\ model (metadata (rim_data rim)) = lit "LS10" /\
    version (metadata (rim_data rim)) = dv_vbios_version w /\ appraised r d [rim] false w;
  sa_enrolled : p ∈ policy_switches (gv_policy v) /\ dv_identity w = sp_identity p /\ dv_model w = sp_model p;
}.
Context {HL : Sha2Laws H}.

Lemma spdm_signature_safe r nonce key : safe (Spdm.verify_signature r nonce key) (fun _ => request_nonce r = nonce /\
  exists s, signature_from_slice (signature r) = Some s /\ p384_verify key (signed_transcript r) s = true).
Proof.
  unfold Spdm.verify_signature, Spdm.check_nonce. apply safe_bind, safe_reject_if. intros Hn%negb_false_iff%bytes_eqb_eq.
  apply safe_bind, safe_ok_or. intros s Hs. apply safe_reject_if. intros Hv%negb_false_iff. split; [done|]. by exists s.
Qed.
Lemma authenticate_safe v certs report nonce e now : safe (authenticate v certs report nonce e now) (fun chain => exists r,
  gpu_path (device_roots v) now Device (certificates chain) /\ chain_good (certificates chain) (revocation (collateral e)) now /\
  parse_report report = Ok r /\
  exists leaf key s, certificates chain !! 0%nat = Some leaf /\ p384_from_der (spki_der leaf) = Some key /\
    request_nonce r = nonce /\ signature_from_slice (signature r) = Some s /\ p384_verify key (signed_transcript r) s = true).
Proof.
  unfold authenticate. att. eapply safe_seq; [apply safe_map_err, validate_gpu_chain_safe|]. intros chain _ Hp.
  eapply safe_seq; [apply safe_map_err, check_chain_safe|]. intros [] _ Hc. apply safe_bind, safe_index; [pose proof (gp_size _ _ _ _ Hp); lia|].
  intros leaf [_ Hl]%get_Some. apply safe_bind, safe_ok_or. intros key Hk. eapply safe_seq; [apply safe_map_err, safe_parse_report|].
  intros r Hr%map_err_Ok _. eapply safe_seq; [apply safe_map_err, spdm_signature_safe|]. intros [] _ (Hn & s & Hs & Hv). cbn [safe].
  exists r. split; [done|]. split; [done|]. split; [done|]. by exists leaf, key, s.
Qed.
Lemma certified_safe v certs report nonce e now : safe (chain ← authenticate v certs report nonce e now;
    id ← att_pki (certificate_identity chain); require_production_security id;; Ok id)
  (fun id => exists cs r, authentic v e nonce now report cs r id).
Proof.
  eapply safe_seq; [apply authenticate_safe|]. intros chain _ (r & Hp & Hc & Hr & Hs). att.
  eapply safe_seq; [apply safe_map_err, certificate_identity_safe; pose proof (gp_size _ _ _ _ Hp); lia|]. intros id _ Hid.
  unfold require_production_security. att. eapply safe_seq; [apply safe_map_err; eapply decides_safe, security_flags_decides|].
  intros [] _ [[_ Hf] _]. cbn [safe]. by exists (certificates chain), r.
Qed.
(** The first steps of both loops, up to the identity. *)
Lemma certified_seq {B} v certs report nonce e now (f : DeviceCertificateIdentity -> res AttError B) Q :
  (forall id cs r, authentic v e nonce now report cs r id -> safe (f id) Q) ->
  safe (chain ← authenticate v certs report nonce e now; id ← att_pki (certificate_identity chain); require_production_security id;; f id) Q.
Proof.
  intros Hf. pose proof (certified_safe v certs report nonce e now) as Hs. apply safe_bind_inv in Hs. apply safe_bind.
  eapply safe_mono; [exact Hs|]. intros chain _ Hc. cbv beta in Hc. apply safe_bind_inv in Hc. apply safe_bind.
  eapply safe_mono; [exact Hc|]. intros id _ Hi. cbv beta in Hi. apply safe_bind_inv in Hi. apply safe_bind.
  eapply safe_mono; [exact Hi|]. intros [] _ (cs & r & Ha). by eapply Hf.
Qed.
Lemma report_indices b r : parse_report b = Ok r -> forall m, m ∈ measurements r -> 1 <= index_ m.
Proof.
  intros (_ & (_ & _ & _ & _ & _ & Hw & _) & _)%parse_report_inv m Hm. rewrite Forall_forall in Hw. by destruct (Hw m Hm) as [[? _] _].
Qed.
Lemma field_present d id : is_ok (field d id) = true <-> is_Some (fields d !! id).
Proof. unfold field. destruct (fields d !! id); cbn; split; try done; by intros []. Qed.
Lemma fwid_safe certs id d (c : bool) : identity_of certs id ->
  safe (if c then f ← att_opaque (field_bytes d 20); att_pki (verify_report_fwid id f) else Ok tt) (fun _ => c = true -> firmware_bound id d).
Proof.
  intros Hid. destruct c; [|done]. att. eapply safe_seq; [apply safe_map_err, (safe_field_bytes _ _ (fun _ => True)); done|].
  intros f Hf%map_err_Ok _. eapply safe_mono; [apply safe_map_err, verify_report_fwid_safe; destruct (io_digests _ _ Hid); lia|].
  intros [] _ [Hh _] _. by exists f.
Qed.
Lemma field_text_safe d id : safe (att_opaque (field_text d id)) (fun t => field_text d id = Ok t).
Proof. att. eapply safe_mono; [apply safe_map_err, safe_field_text|]. by intros t ?%map_err_Ok _. Qed.
Lemma opaque_ok {A} (c : res OpaqueError A) : safe c (fun _ => True) -> safe (att_opaque c) (fun a => c = Ok a).
Proof. intros Hc. att. eapply safe_mono; [by apply safe_map_err|]. by intros a ?%map_err_Ok _. Qed.
Lemma field_bytes_safe d id : safe (field_bytes d id) (fun _ => True).
Proof. by apply safe_field_bytes. Qed.
Lemma mode_safe d : safe (mode d) (fun _ => True).
Proof. by destruct (accessors_safe d 0) as (_ & _ & _ & _ & _ & ? & _). Qed.
Lemma switch_vbios_safe d : safe (switch_vbios_version d) (fun _ => True).
Proof. by destruct (accessors_safe d 0) as (_ & _ & _ & _ & ? & _). Qed.
Lemma chip_info_safe d id (c : bool) :
  safe (if c then t ← att_opaque (field_text d 35); att_need (bytes_eqb t id) "signed CHIP_INFO differs from certificate model" else Ok tt) (fun _ => True).
Proof. destruct c; [|done]. eapply safe_seq; [apply field_text_safe|]. intros t _ _. att. by apply safe_ensure. Qed.
Lemma gpu_topology_safe v p d : safe (gpu_topology v p d) (fun r => dp_pdi p = Some r.1 /\ r.2 = expected_switches v r.1 /\
  exists raw, pdis d 22 = Ok raw /\ peers_of (@rev byte <$> raw) r.2).
Proof.
  unfold gpu_topology. eapply safe_seq; [apply opaque_ok, pdis_safe|]. intros raw _ Hraw. eapply safe_seq; [apply pdi_set_safe|].
  intros actual _ [Hp _]. att. apply safe_bind, safe_ok_or. intros pdi Hpdi. cbv zeta. apply safe_bind, safe_ensure.
  intros ->%bool_decide_eq_true. cbn [safe fst snd]. split; [done|]. split; [done|]. by exists raw.
Qed.
Lemma enrolled_find {A} (key : A -> bytes) (id : bytes) (l : list A) p :
  List.find (fun p => bytes_eqb (key p) id) l = Some p -> p ∈ l /\ key p = id.
Proof. intros [Hin%list_elem_of_In Hk%bytes_eqb_eq]%find_some. done. Qed.

Definition gpu_step (v : GpuVerifier) (e : GpuEvidenceBundle) (rims : list VerifiedRim) (nonce : bytes) (now : N) (g : GpuEvidence) (st st' : GpuProgress) : Prop :=
  exists p w, gpu_accepted v e rims nonce now g p w /\ dv_identity w ∉ gp_seen st /\
    gp_devices st' = gp_devices st ++ [w] /\ gp_seen st' = {[dv_identity w]} ∪ gp_seen st.
Lemma verify_gpu_safe (v : GpuVerifier) (e : GpuEvidenceBundle) (rims : list VerifiedRim) (nonce : bytes) (now : N) st g : safe (verify_gpu v e rims nonce now st g) (gpu_step v e rims nonce now g st).
Proof.
  unfold verify_gpu. apply certified_seq. intros id cs r Ha. cbv zeta. att. apply safe_bind, safe_ensure. intros Hnew%bool_decide_eq_true.
  apply safe_bind, safe_ok_or. intros p [Hp Hpid]%enrolled_find. rewrite (au_report _ _ _ _ _ _ _ _ Ha). cbn [map_err]. ok_step.
  eapply safe_seq; [apply opaque_ok, safe_parse_opaque|]. intros d _ Hd. apply safe_bind, safe_ensure. intros Hm%bytes_eqb_eq.
  eapply safe_seq; [eapply fwid_safe, au_identity; exact Ha|]. intros [] _ Hf. eapply safe_seq; [apply chip_info_safe|]. intros [] _ _.
  eapply safe_seq; [apply opaque_ok, mode_safe|]. intros mo _ Hmo. apply safe_bind, safe_ensure. intros ->%bool_decide_eq_true.
  eapply safe_seq; [apply check_fields_safe|]. intros [] _ Hfields. eapply safe_seq; [apply opaque_ok, safe_field_text|]. intros dv _ Hdv.
  eapply safe_seq; [apply opaque_ok, safe_vbios_version|]. intros vb _ Hvb. eapply safe_seq; [apply manifest_safe|]. intros driver _ (D1 & D2 & D3 & D4).
  eapply safe_seq; [apply manifest_safe|]. intros vbios _ (B1 & B2 & B3 & B4).
  eapply safe_seq; [apply appraise_safe; eapply report_indices, au_report; exact Ha|]. intros a _ [A1 A2 A3].
  eapply (safe_seq _ _ (fun _ => dp_mode p = Ppcie -> exists pdi raw, dp_pdi p = Some pdi /\ pdis d 22 = Ok raw /\
    peers_of (@rev byte <$> raw) (expected_switches v pdi))).
  { case_bool_decide as Emode; [|by intros ?]. eapply safe_seq; [apply gpu_topology_safe|]. intros [pdi actual] _ (T1 & T2 & raw & T3 & T4).
    cbn [safe fst snd] in *. subst actual. intros _. by exists pdi, raw. }
  intros edges _ Htop. cbn [safe]. eexists p, _. split; [|split; [|split; reflexivity]]; [|exact Hnew]. split.
  - exists cs, r, id, d, driver, vbios, dv. cbn. split_and!; try done.
    intros Hb. apply Hf. apply orb_true_iff. destruct Hb as [Hb|Hb]; [left; by apply bytes_eqb_eq|right; by apply field_present].
  - cbn. by split_and!.
Qed.
Definition gpus_done (v : GpuVerifier) (e : GpuEvidenceBundle) (rims : list VerifiedRim) (nonce : bytes) (now : N) (pre : list GpuEvidence) (st : GpuProgress) : Prop :=
  Forall2 (fun g w => exists p, gpu_accepted v e rims nonce now g p w) pre (gp_devices st) /\
  NoDup (dv_identity <$> gp_devices st) /\ gp_seen st = list_to_set (dv_identity <$> gp_devices st).
Lemma verify_gpus_safe (v : GpuVerifier) (e : GpuEvidenceBundle) (rims : list VerifiedRim) (nonce : bytes) (now : N) l :
  safe (for_each (verify_gpu v e rims nonce now) {| gp_devices := []; gp_seen := ∅; gp_edges := ∅ |} l) (gpus_done v e rims nonce now l).
Proof.
  apply safe_prefix; [split; [constructor|split; [constructor|done]]|]. intros pre g post st _ (Hf & Hn & Hs).
  eapply safe_mono; [apply verify_gpu_safe|]. intros st' _ (p & w & Ha & Hw & E1 & E2). rewrite Hs in *. unfold gpus_done. rewrite E1, E2. split; [|split].
  - apply Forall2_app; [done|]. constructor; [by exists p|constructor].
  - rewrite fmap_app. apply NoDup_app. split; [done|]. split; [set_solver|apply NoDup_singleton].
  - rewrite fmap_app, list_to_set_app_L. cbn. set_solver.
Qed.

Lemma reciprocal_safe edges pdi (l : list bytes) : safe (for_each (reciprocal edges pdi) tt l) (fun _ =>
  forall x, x ∈ l -> exists s, edges !! x = Some s /\ pdi ∈ s).
Proof.
  eapply safe_mono; [apply (safe_for_all (reciprocal edges pdi)); intros x _; unfold reciprocal; att; by apply safe_ensure|].
  intros [] _ Hl x Hx. specialize (Hl x Hx). unfold reciprocal in Hl. att. apply ensure_Ok in Hl.
  destruct (edges !! x) as [s|]; [|done]. apply bool_decide_eq_true in Hl. by exists s.
Qed.
Lemma switch_topology_safe edges p d : safe (switch_topology edges p d) (fun _ => exists own peers,
  field_bytes d 22 = Ok own /\ hex_encode own = sp_pdi p /\ field_bytes d 26 = Ok peers /\
  peers_of (chunks_exact 8 (take 64 peers)) (sp_gpu_pdis p) /\
  (forall pdi, pdi ∈ sp_gpu_pdis p -> exists s, edges !! pdi = Some s /\ sp_pdi p ∈ s)).
Proof.
  unfold switch_topology. eapply safe_seq; [apply opaque_ok, field_bytes_safe|]. intros own _ Hown. att. apply safe_bind, safe_ensure.
  intros Ho%bytes_eqb_eq. eapply safe_seq; [apply opaque_ok, field_bytes_safe|]. intros peers _ Hpeers. apply safe_bind, safe_ensure. intros Hl. bools.
  rewrite index_range_slice by lia. ok_step. eapply safe_seq; [apply chunks_safe|]. intros parsed _ ->. cbn [app].
  eapply safe_seq; [apply pdi_set_safe|]. intros actual _ [Hp _]. apply safe_bind, safe_ensure. intros ->%bool_decide_eq_true.
  eapply safe_mono; [apply reciprocal_safe|]. intros [] _ Hr. exists own, peers. split; [done|]. split; [done|]. split; [done|]. split; [exact Hp|].
  intros pdi Hpdi. apply Hr. by apply elem_of_elements.
Qed.
Definition switch_step (v : GpuVerifier) (e : GpuEvidenceBundle) (rims : list VerifiedRim) (nonce : bytes) (now : N) (edges : gmap bytes (gset bytes)) (s : SwitchEvidence) (st st' : list DeviceVerdict * gset bytes) : Prop :=
  exists p w, switch_accepted v e rims nonce now edges s p w /\ dv_identity w ∉ st.2 /\
    st'.1 = st.1 ++ [w] /\ st'.2 = {[dv_identity w]} ∪ st.2.
Lemma verify_switch_safe (v : GpuVerifier) (e : GpuEvidenceBundle) (rims : list VerifiedRim) (nonce : bytes) (now : N) (edges : gmap bytes (gset bytes)) st s :
  safe (verify_switch v e rims nonce now edges st s) (switch_step v e rims nonce now edges s st).
Proof.
  destruct st as [verdicts seen]. unfold verify_switch. apply certified_seq. intros id cs r Ha. cbv zeta. att. apply safe_bind, safe_ensure.
  intros Hnew%bool_decide_eq_true. apply safe_bind, safe_ok_or. intros p [Hp Hpid]%enrolled_find.
  rewrite (au_report _ _ _ _ _ _ _ _ Ha). cbn [map_err]. ok_step.
  eapply safe_seq; [apply opaque_ok, safe_parse_opaque|]. intros d _ Hd. apply safe_bind, safe_ensure. intros Hm%bytes_eqb_eq.
  eapply safe_seq; [eapply fwid_safe, au_identity; exact Ha|]. intros [] _ Hf.
  eapply safe_seq; [apply check_fields_safe|]. intros [] _ Hfields.
  eapply safe_seq; [apply switch_topology_safe|]. intros [] _ (own & peers & T1 & T2 & T3 & T4 & T5).
  eapply safe_seq; [apply opaque_ok, switch_vbios_safe|]. intros vb _ Hvb. unfold switch_manifest_model. att.
  apply safe_bind, safe_bind, safe_ensure. intros _. cbn [safe].
  eapply safe_seq; [apply manifest_safe|]. intros rim _ (B1 & B2 & B3 & B4).
  eapply safe_seq; [apply appraise_safe; eapply report_indices, au_report; exact Ha|]. intros a _ [A1 A2 A3]. cbn [safe].
  eexists p, _. split; [|split; [|split; reflexivity]]; [|exact Hnew]. split; [|cbn; by split_and!].
  exists cs, r, id, d, rim, own, peers. cbn. split_and!; try done. intros Hb. apply Hf. by apply field_present.
Qed.
Definition switches_done (v : GpuVerifier) (e : GpuEvidenceBundle) (rims : list VerifiedRim) (nonce : bytes) (now : N) (edges : gmap bytes (gset bytes)) (ids : list bytes) (pre : list SwitchEvidence) (st : list DeviceVerdict * gset bytes) : Prop :=
  Forall2 (fun s w => exists p, switch_accepted v e rims nonce now edges s p w) pre st.1 /\
  NoDup (ids ++ (dv_identity <$> st.1)) /\ st.2 = list_to_set (ids ++ (dv_identity <$> st.1)).
Lemma verify_switches_safe (v : GpuVerifier) (e : GpuEvidenceBundle) (rims : list VerifiedRim) (nonce : bytes) (now : N) (edges : gmap bytes (gset bytes)) (ids : list bytes) l : NoDup ids ->
  safe (for_each (verify_switch v e rims nonce now edges) ([], list_to_set ids) l) (switches_done v e rims nonce now edges ids l).
Proof.
  intros Hids. apply safe_prefix; [split; [constructor|split; cbn; by rewrite app_nil_r]|]. intros pre s post st _ (Hf & Hn & Hs).
  eapply safe_mono; [apply verify_switch_safe|]. intros st' _ (p & w & Ha & Hw & E1 & E2). rewrite Hs in *. unfold switches_done. rewrite E1, E2.
  split; [|split].
  - apply Forall2_app; [done|]. constructor; [by exists p|constructor].
  - rewrite fmap_app, app_assoc. apply NoDup_app. split; [done|]. split; [set_solver|apply NoDup_singleton].
  - rewrite fmap_app, app_assoc, list_to_set_app_L. cbn. set_solver.
Qed.

(** * The bundle *)
(** The evidence that the verifier accepts: exactly the enrolled inventory, every device
    and switch accepted under its own enrolment, no key used twice. *)
Record bundle_accepted (v : GpuVerifier) (e : GpuEvidenceBundle) (nonce : bytes) (now : N) (b : VerifiedGpuBundle) : Prop := {
  ba_challenge : bundle_version e = 1 /\ bundle_nonce e = nonce;
  ba_devices : exists rims edges, manifests_ok v e now rims /\
    Forall2 (fun g w => exists p, gpu_accepted v e rims nonce now g p w) (gpus e) (vb_devices b) /\
    Forall2 (fun s w => exists p, switch_accepted v e rims nonce now edges s p w) (switches e) (vb_switches b);
  ba_inventory : dv_identity <$> vb_devices b ≡ₚ dp_identity <$> policy_devices (gv_policy v) /\
    dv_identity <$> vb_switches b ≡ₚ sp_identity <$> policy_switches (gv_policy v);
  ba_distinct : NoDup ((dv_identity <$> vb_devices b) ++ (dv_identity <$> vb_switches b));
  ba_cec : forall g, g ∈ gpus e -> ge_cec_attestation_report g = [];
  ba_fabric : fabric_policy_verified b = negb (blen (policy_switches (gv_policy v)) =? 0);
}.
Lemma verify_manifests_safe v e now : safe (for_each (verify_manifest v e now) [] (manifests (collateral e))) (manifests_ok v e now).
Proof.
  apply (safe_prefix _ (fun pre rims => Forall2 (fun xml r => exists certs, signed_rim xml (rim_roots v) now (rim_data r) certs /\
    chain_good certs (revocation (collateral e)) now) pre rims)); [constructor|]. intros pre xml post rims _ Hr. unfold verify_manifest. att.
  eapply safe_seq; [apply safe_map_err, verify_xml_safe|]. intros r _ Hx. cbn [safe]. apply Forall2_app; [done|]. by repeat constructor.
Qed.
(** Distinct keys of as many enrolled devices are the enrolled keys. *)
Lemma inventory_exact {A} (key : A -> bytes) (l : list A) (ids : list bytes) :
  NoDup ids -> (forall i, i ∈ ids -> i ∈ key <$> l) -> length ids = length l -> ids ≡ₚ key <$> l.
Proof.
  intros Hn Hi Hl. apply submseteq_length_Permutation; [by apply NoDup_submseteq|]. by rewrite length_fmap, Hl.
Qed.
Lemma Forall2_enrolled {A B} (R : A -> DeviceVerdict -> Prop) (key : B -> bytes) (l : list B) evidence verdicts :
  Forall2 R evidence verdicts -> (forall x w, R x w -> exists p, p ∈ l /\ dv_identity w = key p) ->
  (forall i, i ∈ dv_identity <$> verdicts -> i ∈ key <$> l) /\ length (dv_identity <$> verdicts) = length evidence.
Proof.
  intros Hf HR. split; [|rewrite length_fmap; symmetry; by eapply Forall2_length].
  intros i (w & -> & Hw)%list_elem_of_fmap. apply list_elem_of_lookup in Hw as [k Hk].
  destruct (Forall2_lookup_r _ _ _ _ _ Hf Hk) as (x & _ & Hx). destruct (HR _ _ Hx) as (p & Hp & ->). by apply list_elem_of_fmap_2.
Qed.
(** Verification never panics, and what it accepts is an accepted bundle. *)
Lemma gpu_verifier_verify_safe v e nonce now : safe (gpu_verifier_verify v e nonce now) (bundle_accepted v e nonce now).
Proof.
  unfold gpu_verifier_verify. att. apply safe_bind, safe_ensure. intros Hv. apply safe_bind, safe_ensure. intros Hc. apply safe_bind, safe_ensure. intros Hcec.
  apply safe_bind, safe_ensure. intros _. eapply safe_seq; [apply verify_manifests_safe|]. intros rims _ Hrims.
  eapply safe_seq; [apply verify_gpus_safe|]. intros st _ (Hg & Hn & Hs). rewrite Hs.
  eapply safe_seq; [by apply verify_switches_safe|]. intros [sw seen] _ (Hsw & Hn2 & _). cbn [fst snd] in *. cbn [safe].
  apply andb_true_iff in Hv as [H1%N.eqb_eq H2%bytes_eqb_eq]. apply andb_true_iff in Hc as [H3%N.eqb_eq H4%N.eqb_eq].
  pose proof (proj1 (NoDup_app _ _) Hn2) as (_ & _ & Hnsw).
  destruct (Forall2_enrolled _ dp_identity (policy_devices (gv_policy v)) _ _ Hg) as [I1 L1].
  { intros x w (p & _ & Hp & Hid & _). by exists p. }
  destruct (Forall2_enrolled _ sp_identity (policy_switches (gv_policy v)) _ _ Hsw) as [I2 L2].
  { intros x w (p & _ & Hp & Hid & _). by exists p. }
  split; cbn [vb_devices vb_switches fabric_policy_verified]; try done.
  - by exists rims, (gp_edges st).
  - unfold blen in *. split; apply inventory_exact; try done; lia.
  - intros g Hin. rewrite forallb_forall in Hcec. apply blen_0, N.eqb_eq, Hcec. by apply list_elem_of_In.
Qed.
Lemma with_pinned_roots_safe p device rim : safe (with_pinned_roots p device rim) (fun v => gv_policy v = p /\ gpu_policy_wf p /\ device_roots v = device /\ rim_roots v = rim).
Proof.
  unfold with_pinned_roots. eapply safe_seq; [apply gpu_policy_validate_safe|]. intros [] _ Hw. att. by apply safe_bind, safe_ensure.
Qed.
Lemma pinned_rim_roots_safe : safe pinned_rim_roots (fun _ => True).
Proof.
  unfold pinned_rim_roots. eapply safe_seq; [apply parse_certificates_safe|]. intros r _ _. by eapply safe_seq; [apply parse_certificates_safe|].
Qed.
Lemma gpu_verifier_new_safe p : safe (gpu_verifier_new p) (fun v => gv_policy v = p /\ gpu_policy_wf p).
Proof.
  unfold gpu_verifier_new. att. eapply safe_seq; [apply safe_map_err, parse_certificates_safe|]. intros device _ _.
  eapply safe_seq; [apply safe_map_err, pinned_rim_roots_safe|]. intros rim _ _. eapply safe_mono; [apply with_pinned_roots_safe|].
  intros v _ (? & ? & _). by split.
Qed.
End VerifySpec.

Section GpuTheorems.
Context `{X : X509} `{K : CpuCrypto} `{H : Sha2} `{GX : GpuX509} `{OF : OcspFormats} `{P : Spdm.P384} `{PK : !P384Keys P} `{XM : Xml} `{DD : DiceDer}.
Context {HL : Sha2Laws H}.
(** The verifier of GPU evidence never panics, and what it accepts is the enrolled
    inventory exactly: the challenge is the verifier's; the keys of the devices are a
    permutation of the enrolled ones and no key answers twice; every device has a current
    certificate path, good revocation status, a report signed over the challenge by its
    key, a certified identity of the enrolled model without debug or recovery state, the
    enrolled mode and fields, the certified firmware; its measurements agree with signed,
    unrevoked manifests of exactly its model and versions, none missing, and no security
    version is below its floor; and in a fabric the signed peers of devices and switches
    are those enrolled, in both directions.  The policy of a verifier that was built is
    well formed. *)
Theorem gpu_bundle_sound v e nonce now :
  safe (gpu_verifier_verify v e nonce now) (bundle_accepted v e nonce now) /\
  forall p, safe (gpu_verifier_new p) (fun v => gv_policy v = p /\ gpu_policy_wf p).
Proof. split; [apply gpu_verifier_verify_safe|]. apply gpu_verifier_new_safe. Qed.
End GpuTheorems.

(** C16: the comparison of a parsed report with its references is exact.  It never panics
    (the block index is at least one), and it accepts exactly when there is a boot
    reference, every measurement is a 48-byte digest that is among its reference values,
    or declared inactive by the manifests, or that of the video decoder while the signed
    state says it is disabled, and every reference has a measurement; and the verdict
    lists the measurements by what became of them. *)
Theorem measurement_appraisal_exact b r d golden inact gpu nvdec : parse_report b = Ok r -> nvdec_state d gpu = Ok nvdec ->
  decides (appraise_measurements r d golden inact gpu) (is_Some (golden !! 0) /\ measured (measurements r) golden inact nvdec)
    (fates_listed (measurements r) golden inact nvdec).
Proof. intros Hr Hn. apply appraise_measurements_decides; [by eapply report_indices|done]. Qed.

(** ** A concrete device *)
Definition gpu_policy : GpuPolicy := {|
  policy_devices := [{| dp_identity := hex_encode (sha256 (Sha2 := toy_sha2) []); dp_model := lit "GH100"; dp_mode := Spt;
    dp_required := {[11 := [xaa]]}; dp_pdi := None |}];
  policy_switches := [] |}.
Definition gpu_opaque : bytes := encode_tlvs false
  [(3, {| field_type := 0; field_value := lit "550.54" |});
   (6, {| field_type := 0; field_value := [x04; x03; x02; x01; x05; x00; x00; x00] |});
   (11, {| field_type := 0; field_value := [xaa] |}); (34, {| field_type := 0; field_value := [x01; x00] |});
   (36, {| field_type := 0; field_value := [x01] |})].
Definition gpu_measurement (i : N) (b : byte) : Measurement :=
  {| index_ := i; value_type := 1; raw_bit_stream := false; value := replicate 48 b |}.
Definition gpu_transcript (nonce : bytes) (ms : list Measurement) : bytes :=
  encode_transcript x00 {| signed_transcript := []; signature := []; request_nonce := nonce; responder_nonce := replicate 32 x00;
    measurements := ms; opaque_data := gpu_opaque |}.
Definition gpu_report (nonce : bytes) (ms : list Measurement) : bytes :=
  let t := gpu_transcript nonce ms in t ++ sample_pad 96 (take 8 (sha384 (Sha2 := toy_sha2) t)).
Definition gpu_bundle (nonce : bytes) (ms : list Measurement) : GpuEvidenceBundle := {|
  bundle_version := 1; bundle_nonce := nonce; bundle_driver_version := [];
  cc_state := {| environment := 0; cc_feature := 0; dev_tools_mode := 0; accepting_client_requests := 0 |};
  gpus := [{| ge_index := 0; ge_uuid := []; ge_name := []; ge_vbios_version := []; ge_certificate_chain := [];
    ge_attestation_certificate_chain := [x21]; ge_attestation_report := gpu_report nonce ms; ge_cec_attestation_report := [] |}];
  switches := []; collateral := {| manifests := [[x44]; [x56]]; revocation := list_evidence |} |}.
(** The certificate of the sample identity, with every adverse flag clear. *)
Definition secure_dice : DiceDer := {|
  get_san := get_san (DiceDer := toy_dice); any_from_der := any_from_der (DiceDer := toy_dice);
  composite_from_der := composite_from_der (DiceDer := toy_dice); wrapped_from_der := wrapped_from_der (DiceDer := toy_dice);
  dice_from_der := fun _ => Some {| dt_vendor := None; dt_model := Some (lit "GH100 A01"); dt_version := None; dt_svn := None;
    dt_fwids := Some [{| hash_alg := SHA384_OID; fw_digest := replicate 48 x09 |}];
    dt_flags := Some {| raw_bytes := [x00; x00]; unused_bits := 0 |}; dt_flags_mask := None; dt_integrity_registers := false |};
  ueid_from_der := fun _ => None |}.
Definition sample_verifier : res AttError GpuVerifier :=
  gpu_verifier_new (X := plain_base64 toy_x509) (GX := toy_gpu_x509) gpu_policy.
Definition sample_gpu_verify (nonce : bytes) (e : GpuEvidenceBundle) : res AttError VerifiedGpuBundle :=
  v ← sample_verifier;
  gpu_verifier_verify (X := plain_base64 toy_x509) (K := toy_cpu) (H := toy_sha2) (GX := toy_gpu_x509) (OF := toy_ocsp)
    (PK := toy_p384_keys) (XM := toy_xml) (DD := secure_dice) v e nonce 15.
Definition good_measurements : list Measurement := [gpu_measurement 1 x31; gpu_measurement 2 x31].
Example gpu_accepted_sample :
  (b ← sample_gpu_verify (replicate 32 x06) (gpu_bundle (replicate 32 x06) good_measurements);
   Ok (matched_measurements <$> vb_devices b, dv_mode <$> vb_devices b)) = Ok ([[0; 1]], [Some Spt]).
Proof. vm_compute. reflexivity. Qed.
Example gpu_replayed : sample_gpu_verify (replicate 32 x07) (gpu_bundle (replicate 32 x06) good_measurements)
  = Err (Msg "GPU bundle version/nonce mismatch").
Proof. vm_compute. reflexivity. Qed.
Example gpu_tampered :
  sample_gpu_verify (replicate 32 x06) (gpu_bundle (replicate 32 x06) [gpu_measurement 1 x31; gpu_measurement 2 x32])
  = Err (Msg "reference measurement mismatch").
Proof. vm_compute. reflexivity. Qed.
Example gpu_measurement_missing : sample_gpu_verify (replicate 32 x06) (gpu_bundle (replicate 32 x06) [gpu_measurement 1 x31])
  = Err (Msg "report missing required measurements").
Proof. vm_compute. reflexivity. Qed.
Lemma gpu_bundle_sound_witness : exists v b, sample_verifier = Ok v /\ gpu_policy_wf gpu_policy /\
  dv_identity <$> vb_devices b ≡ₚ dp_identity <$> policy_devices (gv_policy v) /\
  is_ok (sample_gpu_verify (replicate 32 x06) (gpu_bundle (replicate 32 x06) good_measurements)) = true.
Proof.
  assert (is_ok (sample_gpu_verify (replicate 32 x06) (gpu_bundle (replicate 32 x06) good_measurements)) = true) as Hok by (vm_compute; reflexivity).
  rewrite Hok. unfold sample_gpu_verify in Hok. destruct sample_verifier as [v|e| |] eqn:Ev; [|discriminate Hok..]. rewrite res_bind_Ok in Hok.
  destruct (gpu_bundle_sound (X := plain_base64 toy_x509) (K := toy_cpu) (H := toy_sha2) (GX := toy_gpu_x509) (OF := toy_ocsp)
    (PK := toy_p384_keys) (XM := toy_xml) (DD := secure_dice) (HL := toy_sha2_laws) v
    (gpu_bundle (replicate 32 x06) good_measurements) (replicate 32 x06) 15) as [Hs Hn].
  destruct (gpu_verifier_verify _ _ _ _) as [b|e| |]; [|discriminate Hok..]. exists v, b. split; [reflexivity|].
  specialize (Hn gpu_policy). unfold sample_verifier in Ev. rewrite Ev in Hn. destruct Hn as [_ Hw]. split; [exact Hw|].
  split; [exact (proj1 (ba_inventory _ _ _ _ _ Hs))|reflexivity].
Defined.
Lemma measurement_appraisal_exact_witness : exists r d, parse_report (gpu_report (replicate 32 x06) good_measurements) = Ok r /\
  decides (appraise_measurements r d {[0 := [replicate 48 x31]; 1 := [replicate 48 x31]]} ∅ true)
    (is_Some (({[0 := [replicate 48 x31]; 1 := [replicate 48 x31]]} : gmap N (list bytes)) !! 0) /\
     measured (measurements r) {[0 := [replicate 48 x31]; 1 := [replicate 48 x31]]} ∅ false)
    (fates_listed (measurements r) {[0 := [replicate 48 x31]; 1 := [replicate 48 x31]]} ∅ false).
Proof.
  destruct (parse_report (gpu_report (replicate 32 x06) good_measurements)) as [r|e| |] eqn:Er;
    [|exfalso; assert (is_ok (parse_report (gpu_report (replicate 32 x06) good_measurements)) = true) as Hok by (vm_compute; reflexivity);
      rewrite Er in Hok; discriminate Hok..].
  destruct (parse_opaque gpu_opaque) as [d|e| |] eqn:Ed;
    [|exfalso; assert (is_ok (parse_opaque gpu_opaque) = true) as Hok by (vm_compute; reflexivity); rewrite Ed in Hok; discriminate Hok..].
  exists r, d. split; [reflexivity|]. apply (measurement_appraisal_exact _ _ _ _ _ _ _ Er).
  assert ((d ← parse_opaque gpu_opaque; Ok (is_ok (nvdec_state d true), nvdec_state d true)) = Ok (true, Ok false)) as Hn by (vm_compute; reflexivity).
  rewrite Ed in Hn. rewrite res_bind_Ok in Hn. exact (f_equal (fun x => match x with Ok y => y.2 | _ => Panic end) Hn).
Defined.
