(* ===== verification/Google.v ===== *)
(** * Google: the external verifier process of [src/v2/src/google_backend.rs]

    An operator can configure a helper executable that repeats the appraisal of TDX quotes
    and of the boot log, or collects a quote.  The process itself is outside the model
    ([GoogleHelper]): it maps a request to an exit status and two output streams.  What the
    code makes of a run is modelled: a response counts only if it names the request it
    answers, and the result is checked against what was asked. *)
From S2P Require Import Prelude Bytes Text Crypto Boot Eat Pki TdxQuote TdxCollateral Verdict.

Definition MAX_REQUEST : N := 48 * 1024 * 1024.
Definition MAX_RESPONSE : N := 16 * 1024 * 1024.
Definition MAX_DIAGNOSTIC : N := 16 * 1024.

Inductive TdxTransport : Type := Configfs | Ioctl.
Record GoogleVerifier : Type := { executable : bytes; timeout_ns : N }.
Record Response (T : Type) : Type := {
  rs_version : N; request_sha256 : bytes; rs_result : option T; rs_error : option bytes;
}.
Arguments rs_version {T} r.
Arguments request_sha256 {T} r.
Arguments rs_result {T} r.
Arguments rs_error {T} r.

(** What a started helper did: the exit status, absent past the deadline; whether the
    request was written; the bytes of its output streams, absent on a read error. *)
Record HelperRun : Type := {
  run_status : option bool; run_written : bool; run_stdout : option bytes; run_stderr : option bytes;
}.
Record TdxResultData : Type := {
  td_measurements : gmap bytes bytes; td_quote_version : N; td_tdx_version : bytes; td_tcb_status : bytes;
}.
Record ReplayResult : Type := { event_count : N; registers_verified : N }.

Class GoogleHelper := {
  (** serialized requests: quote, report data, measurement, collateral, floor *)
  tdx_request : bytes -> bytes -> bytes -> TdxCollateral -> N -> option bytes;
  replay_request : bytes -> list bytes -> option bytes;
  collect_request : TdxTransport -> bytes -> option bytes;
  (** [spawn], feed the request, wait; absent when the process does not start *)
  run_helper : GoogleVerifier -> bytes -> option HelperRun;
  (** typed JSON responses *)
  tdx_response : bytes -> option (Response TdxResultData);
  replay_response : bytes -> option (Response ReplayResult);
  collect_response : bytes -> option (Response bytes);
  (** the file system: [canonicalize] and [is_file] *)
  canonicalize : bytes -> option bytes;
  is_file : bytes -> bool;
}.

Definition read_limited (stream : option bytes) (limit : N) : res AttError bytes :=
  b ← att_some stream "read";
  att_need (blen b <=? limit) "Google verifier output exceeds limit";;
  Ok b.

Definition tdx_body_offset (quote : bytes) : res AttError N :=
  att_need ((48 <=? blen quote) && (blen quote <=? 8 * 1024 * 1024)) "TDX quote size outside limits";;
  key_type ← index_range quote 2 4; tee_type ← index_range quote 4 8;
  att_need (bytes_eqb key_type [x02; x00] && bytes_eqb tee_type [x81; x00; x00; x00])
    "unsupported TDX attestation key or TEE type";;
  v ← index_range quote 0 2;
  '(start, len) ← (
    if le_to_N v =? 4 then Ok (48, 584)
    else if le_to_N v =? 5 then
      att_need (54 <=? blen quote) "truncated TDX v5 descriptor";;
      kind ← index_range quote 48 50; len ← index_range quote 50 54;
      let kind := le_to_N kind in let len := le_to_N len in
      att_need (((kind =? 2) && (len =? 584)) || ((kind =? 3) && (len =? 648))) "unsupported TDX v5 body";;
      Ok (54, len)
    else Err (Msg "unsupported TDX quote version"));
  let signature_offset := start + len in
  att_need (signature_offset + 4 <=? blen quote) "truncated TDX quote";;
  s ← index_range quote signature_offset (signature_offset + 4);
  let signature_len := le_to_N s in
  att_need ((0 <? signature_len) && (signature_len =? blen quote - signature_offset - 4))
    "TDX signature data is missing or has trailing bytes";;
  Ok start.

Section Google.
Context `{X : X509} `{H : Sha2} `{G : GoogleHelper}.

Definition GoogleVerifier_new (path : bytes) : res AttError GoogleVerifier :=
  att_need (match path with c :: _ => Byte.eqb c x2f | [] => false end)
    "Google verifier requires an absolute executable path";;
  exe ← att_some (canonicalize path) "resolve Google verifier executable";
  att_need (is_file exe) "Google verifier executable is not a regular file";;
  Ok {| executable := exe; timeout_ns := 60 * 1000000000 |}.
Definition with_timeout (g : GoogleVerifier) (t : N) : res AttError GoogleVerifier :=
  att_need (negb (t =? 0) && (t <=? 60 * 1000000000))
    "Google verifier timeout must be greater than zero and at most 60 seconds";;
  Ok {| executable := executable g; timeout_ns := t |}.

Definition invoke {T} (decode : bytes -> option (Response T)) (g : GoogleVerifier) (request : option bytes) :
    res AttError T :=
  request ← att_some request "serialize request";
  att_need (blen request <=? MAX_REQUEST) "Google verifier request exceeds limit";;
  let expected_digest := hex_encode (sha256 request) in
  run ← att_some (run_helper g request) "start Google verifier";
  status ← att_some (run_status run) "Google verifier exceeded its deadline";
  att_need (run_written run) "write Google verifier request";;
  output ← read_limited (run_stdout run) MAX_RESPONSE;
  read_limited (run_stderr run) MAX_DIAGNOSTIC;;
  response ← att_some (decode output) "invalid Google verifier response";
  att_need ((rs_version response =? 1) && bytes_eqb (request_sha256 response) expected_digest)
    "Google verifier response does not match the request";;
  match status, rs_result response, rs_error response with
  | true, Some result, None => Ok result
  | _, None, Some _ => Err (Msg "Google verifier rejected evidence")
  | _, _, _ => Err (Msg "Google verifier failed")
  end.

Definition decode_measurement (values : gmap bytes bytes) (e : bytes * bytes) : res AttError (gmap bytes bytes) :=
  v ← att_some (base64_decode e.2) "invalid base64"; Ok (<[e.1 := v]> values).
Definition has_register (values : gmap bytes bytes) (_ : unit) (key : bytes) : res AttError unit :=
  att_need (if values !! key is Some v then blen v =? 48 else false) "Google TDX result lacks a register".
Definition TDX_REGISTERS : list bytes := lit <$> ["MRTD"; "RTMR0"; "RTMR1"; "RTMR2"; "RTMR3"].

Definition verify_tdx (g : GoogleVerifier) (quote report_data measurement : bytes) (collateral : TdxCollateral)
    (floor : N) : res AttError (gmap bytes bytes) :=
  result ← invoke tdx_response g (tdx_request quote report_data measurement collateral floor);
  att_need (((td_quote_version result =? 4) || (td_quote_version result =? 5))
            && (bytes_eqb (td_tdx_version result) (lit "1.0") || bytes_eqb (td_tdx_version result) (lit "1.5"))
            && bytes_eqb (td_tcb_status result) (lit "UpToDate"))
    "Google returned an unacceptable TDX profile/status";;
  values ← for_each decode_measurement ∅ (map_to_list (td_measurements result));
  for_each (has_register values) tt TDX_REGISTERS;;
  att_need ((if values !! lit "MRTD" is Some v then bytes_eqb v measurement else false)
            && (if values !! lit "REPORTDATA" is Some v then bytes_eqb v report_data else false)
            && (if values !! lit "TD_ATTRIBUTES" is Some v then blen v =? 8 else false))
    "Google TDX result does not match expected commitments";;
  Ok values.

Definition replay_tdx (g : GoogleVerifier) (log : bytes) (registers : list bytes) : res AttError unit :=
  result ← invoke replay_response g (replay_request log registers);
  att_need ((registers_verified result =? 4) && (event_count result <=? 65536))
    "Google replay did not verify all four RTMRs within event limits".

Definition collect_tdx (g : GoogleVerifier) (transport : TdxTransport) (report_data : bytes) : res AttError bytes :=
  result ← invoke collect_response g (collect_request transport report_data);
  b ← att_some (base64_decode result) "invalid base64";
  tdx_body_offset b;;
  Ok b.

(** ** Lemmas *)
(** A completed exchange: the helper exited with success and answered this request. *)
Definition answered {T} (decode : bytes -> option (Response T)) (g : GoogleVerifier) (request : bytes) (t : T) : Prop :=
  exists run out r, run_helper g request = Some run /\ run_status run = Some true /\ run_stdout run = Some out /\
    decode out = Some r /\ request_sha256 r = hex_encode (sha256 request) /\ rs_result r = Some t /\ rs_error r = None.
Lemma read_limited_safe stream limit : safe (read_limited stream limit) (fun b => stream = Some b /\ blen b <= limit).
Proof. unfold read_limited. att. wp. bools. done. Qed.
Lemma invoke_safe {T} (decode : bytes -> option (Response T)) g request :
  safe (invoke decode g request) (fun t => exists req, request = Some req /\ blen req <= MAX_REQUEST /\ answered decode g req t).
Proof.
  unfold invoke. att. apply safe_bind, safe_ok_or. intros req ->. apply safe_bind, safe_ensure. intros Hl%N.leb_le.
  apply safe_bind, safe_ok_or. intros run Hrun. apply safe_bind, safe_ok_or. intros st Hst. apply safe_bind, safe_ensure. intros _.
  eapply safe_seq; [apply read_limited_safe|]. intros out _ [Hout _]. eapply safe_seq; [apply read_limited_safe|]. intros err _ _.
  apply safe_bind, safe_ok_or. intros r Hr. apply safe_bind, safe_ensure. intros Hd. bools.
  destruct st, (rs_result r) as [t|] eqn:Et, (rs_error r) as [e|] eqn:Ee; try done.
  cbn [safe]. exists req. split; [done|]. split; [done|]. by exists run, out, r.
Qed.

Lemma decode_measurements_safe l acc : safe (for_each decode_measurement acc l) (fun _ => True).
Proof.
  revert acc. induction l as [|e l IH]; intros acc; [done|]. rewrite for_each_cons. unfold decode_measurement at 1. att.
  apply safe_bind, safe_bind, safe_ok_or. intros v _. apply IH.
Qed.
Lemma has_registers_safe values l :
  safe (for_each (has_register values) tt l) (fun _ => forall k, k ∈ l -> exists v, values !! k = Some v /\ blen v = 48).
Proof.
  induction l as [|k l IH]; [by intros k Hk%not_elem_of_nil|]. rewrite for_each_cons. unfold has_register at 1. att.
  apply safe_bind, safe_ensure. intros Hv. eapply safe_mono; [apply IH|]. intros [] _ Hl k' [->|Hk]%elem_of_cons; [|by apply Hl].
  destruct (values !! k) as [v|]; [|done]. exists v. by apply N.eqb_eq in Hv.
Qed.

(** What an accepted answer of the helper carries. *)
Record tdx_answer (g : GoogleVerifier) (quote rd measurement : bytes) (c : TdxCollateral) (floor : N)
    (values : gmap bytes bytes) : Prop := {
  ta_answered : exists req t, tdx_request quote rd measurement c floor = Some req /\ answered tdx_response g req t /\
    td_tcb_status t = lit "UpToDate";
  ta_registers k : k ∈ TDX_REGISTERS -> exists v, values !! k = Some v /\ blen v = 48;
  ta_mrtd : values !! lit "MRTD" = Some measurement;
  ta_report_data : values !! lit "REPORTDATA" = Some rd;
  ta_attributes : exists v, values !! lit "TD_ATTRIBUTES" = Some v /\ blen v = 8;
}.
Lemma lookup_is (o : option bytes) (w : bytes) :
  (if o is Some v then bytes_eqb v w else false) = true <-> o = Some w.
Proof. destruct o; [rewrite bytes_eqb_eq|]; naive_solver. Qed.
Lemma google_tdx_safe g quote rd measurement c floor :
  safe (verify_tdx g quote rd measurement c floor) (tdx_answer g quote rd measurement c floor).
Proof.
  unfold verify_tdx. att. eapply safe_seq; [apply invoke_safe|]. intros t _ (req & Hreq & _ & Ht).
  apply safe_bind, safe_ensure. intros Hp. apply safe_bind. eapply safe_mono; [apply decode_measurements_safe|]. intros values _ _.
  eapply safe_seq; [apply has_registers_safe|]. intros [] _ Hregs. apply safe_bind, safe_ensure. intros Hc.
  rewrite !andb_true_iff, !lookup_is in Hc. destruct Hc as [[Hm Hr] Ha].
  rewrite !andb_true_iff, bytes_eqb_eq in Hp. destruct Hp as [_ Hs]. cbn [safe].
  split; [by exists req, t|done|done|done|]. destruct (values !! lit "TD_ATTRIBUTES") as [v|]; [|done].
  exists v. by apply N.eqb_eq in Ha.
Qed.
Lemma replay_tdx_safe g log regs :
  safe (replay_tdx g log regs) (fun _ => exists req t, replay_request log regs = Some req /\
    answered replay_response g req t /\ registers_verified t = 4).
Proof.
  unfold replay_tdx. att. eapply safe_seq; [apply invoke_safe|]. intros t _ (req & Hreq & _ & Ht).
  apply safe_ensure. intros [Hn%N.eqb_eq _]%andb_true_iff. by exists req, t.
Qed.
End Google.

(** The framing that collection accepts: a v4 quote, or a v5 quote with a TD 1.0 or 1.5
    body, whose signature data ends the quote. *)
Definition tdx_framed (quote : bytes) (start : N) : Prop :=
  blen quote <= 8 * 1024 * 1024 /\ slice quote 2 4 = [x02; x00] /\ slice quote 4 8 = [x81; x00; x00; x00] /\
  exists len, (le_to_N (slice quote 0 2) = 4 /\ start = 48 /\ len = 584 \/
               le_to_N (slice quote 0 2) = 5 /\ start = 54 /\ le_to_N (slice quote 50 54) = len /\
               (le_to_N (slice quote 48 50) = 2 /\ len = 584 \/ le_to_N (slice quote 48 50) = 3 /\ len = 648)) /\
    exists sig, 0 < sig /\ le_to_N (slice quote (start + len) (start + len + 4)) = sig /\ blen quote = start + len + 4 + sig.
Lemma tdx_body_offset_safe quote : safe (tdx_body_offset quote) (tdx_framed quote).
Proof.
  unfold tdx_body_offset. att. apply safe_bind, safe_ensure. intros Hl. bools. rewrite !(index_range_slice quote 2 4), !(index_range_slice quote 4 8) by lia.
  do 2 ok_step. apply safe_bind, safe_ensure. intros Hk. bools. rewrite (index_range_slice quote 0 2) by lia. ok_step.
  apply (safe_seq _ _ (fun p => 48 <= p.1 /\ (le_to_N (slice quote 0 2) = 4 /\ p.1 = 48 /\ p.2 = 584 \/
               le_to_N (slice quote 0 2) = 5 /\ p.1 = 54 /\ le_to_N (slice quote 50 54) = p.2 /\
               (le_to_N (slice quote 48 50) = 2 /\ p.2 = 584 \/ le_to_N (slice quote 48 50) = 3 /\ p.2 = 648)))).
  - destruct (N.eqb_spec (le_to_N (slice quote 0 2)) 4); [cbn; split; [lia|by left]|].
    destruct (N.eqb_spec (le_to_N (slice quote 0 2)) 5); [|done]. apply safe_bind, safe_ensure. intros H54%N.leb_le.
    rewrite (index_range_slice quote 48 50), (index_range_slice quote 50 54) by lia. do 2 ok_step.
    apply safe_bind, safe_ensure. intros Ht. cbn. split; [lia|]. right. split_and!; try done.
    apply orb_true_iff in Ht as [[Ka Kb]%andb_true_iff|[Ka Kb]%andb_true_iff]; apply N.eqb_eq in Ka, Kb; auto.
  - intros [start len] _ [Hs Hf]. cbn [fst snd] in *. apply safe_bind, safe_ensure. intros Hend%N.leb_le.
    rewrite index_range_slice by lia. ok_step. apply safe_bind, safe_ensure. intros Hsig. bools. cbn [safe].
    split; [lia|]. split; [done|]. split; [done|]. exists len. split; [done|].
    exists (le_to_N (slice quote (start + len) (start + len + 4))). split; [done|]. split; [done|]. lia.
Qed.
