(* ===== verification/Attestation.v ===== *)
(** * Attestation: the relying party's verifier of [src/v2/src/attestation.rs]

    [AttestationVerifier::verify] decides whether a token is admitted: it checks the shape
    of the token, the challenge, freshness, the TLS key and the application identity, then
    the CPU evidence by platform (a direct quote, Azure's vTPM composite, AWS's SNP and
    NitroTPM composite, or a quote that the configured Google helper verifies), then GPU
    evidence and the boot log, and records what it did in a verdict.

    The model is the build with the features [tdx], [sev-snp], [nitro] and [gpu].  The GPU
    appraiser is used through the interface [GpuAppraiser]; [crate::gpu::google], which the
    source names but does not contain, is an operation of that interface.  [clock] gives
    the successive readings of the system clock.

    The data of [attestation_chain.rs] is declared here because the verifier's
    configuration contains it; its operations are in [Chain]. *)
From S2P Require Import Prelude Bytes Text Crypto Boot Aael EventLog Replay CommandLine Runtime Uki UkiExecution UkiVerify Eat Pki Crl Pem TdxQuote SnpQuote NitroQuote SnpCollateral TdxCollateral QuoteVerify NitroTpm Azure BootSafe Verdict Google.

(** ** Interfaces *)
Class GpuAppraiser := {
  GpuPolicy : Type;
  GpuVerifier : Type;
  GpuEvidenceBundle : Type;
  VerifiedGpuBundle : Type;
  (** [GpuVerifier::new] *)
  gpu_new : GpuPolicy -> res AttError GpuVerifier;
  (** [GpuVerifier::verify]: bundle, nonce, time *)
  gpu_verify : GpuVerifier -> GpuEvidenceBundle -> bytes -> N -> res AttError VerifiedGpuBundle;
  (** [ciborium::de::from_reader]: the bundle and the final position *)
  gpu_bundle_read : bytes -> option (GpuEvidenceBundle * N);
  (** [crate::gpu::google::verify] *)
  google_gpu_verify : GoogleVerifier -> GpuEvidenceBundle -> GpuPolicy -> VerifiedGpuBundle -> bytes -> N -> res AttError unit;
}.
(** What the verifier relies on: the appraiser returns. *)
Class GpuAppraiserLaws (P : GpuAppraiser) : Prop := {
  gpu_new_safe p : safe (gpu_new p) (fun _ => True);
  gpu_verify_safe v b n t : safe (gpu_verify v b n t) (fun _ => True);
  google_gpu_safe g b p v n t : safe (google_gpu_verify g b p v n t) (fun _ => True);
}.

(** Formats read by crates. *)
Class TokenFormats := {
  (** [SubjectPublicKeyInfoOwned::from_der(b).is_ok()] *)
  spki_from_der : bytes -> bool;
  (** [serde_json::from_slice::<AwsSnpNitroTpmEvidence>]: version, report, document *)
  aws_from_slice : bytes -> option (N * bytes * bytes);
}.

(** ** [tee/composite.rs] *)
Inductive CpuCollectionProfile : Type :=
| Direct
| ProfileAzureSnpVtpm (pcr_indices : list N)
| ProfileAwsSnpNitroTpm.
Definition CpuCollectionProfile_validate (p : CpuCollectionProfile) : res AttError unit :=
  match p with
  | Direct => Ok tt
  | ProfileAzureSnpVtpm indices =>
    att_need (negb (blen indices =? 0) && (blen indices <=? 16) && forallb (fun i => i <=? 15) indices && windows2 N.ltb indices)
      "Azure PCR indices must be sorted, unique, and within 0..15"
  | ProfileAwsSnpNitroTpm => Ok tt
  end.
Record AwsSnpNitroTpmEvidence : Type := { aws_version : N; snp_report : bytes; nitrotpm_document : bytes }.
Definition aws_validate (e : AwsSnpNitroTpmEvidence) : res AttError unit :=
  att_need (aws_version e =? 1) "unsupported AWS composite evidence version";;
  att_need ((1184 <=? blen (snp_report e)) && (blen (snp_report e) <=? 1024 * 1024)) "SNP report size outside limit";;
  att_need (negb (blen (nitrotpm_document e) =? 0) && (blen (nitrotpm_document e) <=? 64 * 1024))
    "NitroTPM document size outside limit".
Definition aws_from_json `{TokenFormats} (raw : bytes) : res AttError AwsSnpNitroTpmEvidence :=
  att_need (blen raw <=? 4 * 1024 * 1024) "AWS composite evidence exceeds byte limit";;
  '(v, r, d) ← att_some (aws_from_slice raw) "AWS composite evidence JSON";
  let evidence := {| aws_version := v; snp_report := r; nitrotpm_document := d |} in
  aws_validate evidence;;
  Ok evidence.

(** ** Policies, verdicts and configuration *)
Record ExpectedBootEvent : Type := { be_event_index : N; be_algorithm : N; be_digest : bytes; be_identity : bytes }.
Record VerityPolicy : Type := { vp_event_index : N; vp_algorithm : N; vp_profile : CommandLineProfile; vp_root_digest : bytes }.
Record BootPolicy : Type := {
  bp_events : list ExpectedBootEvent; bp_dm_verity : option VerityPolicy; bp_uki : option UkiPolicy;
  bp_runtime : option RuntimePolicy;
}.
Inductive Detail : Type := Note (text : string) | Failure (e : AttError).
Record CheckVerdict : Type := { check : string; passed : bool; detail : Detail }.

Section Attestation.
Context `{X : X509} `{K : CpuCrypto} `{H : Sha2} `{D : Kds} `{C : CborValues} `{J : IntelDocs} `{R : DerPrims}.
Context `{L : AzureLibs} `{B : Ciborium} `{Codec : CborCodec} `{G : GoogleHelper} `{GA : GpuAppraiser} `{TF : TokenFormats}.
(** The readings of [SystemTime::now], in seconds; absent before the epoch. *)
Context (clock : nat -> option N).

Record AttestationVerdict : Type := {
  valid : bool; checks : list CheckVerdict; platform_measurements : gmap bytes bytes;
  runtime : option VerifiedRuntimeLog; prior_stage_count : N; gpu : option VerifiedGpuBundle;
  boot : option VerifiedBootLog; dm_verity : option DmVerityCommitment; uki : option VerifiedUki;
}.
Definition new_verdict : AttestationVerdict := {|
  valid := false; checks := []; platform_measurements := ∅; runtime := None; prior_stage_count := 0;
  gpu := None; boot := None; dm_verity := None; uki := None |}.

(** [attestation_chain.rs]: the policy of the earlier stages, and their proof. *)
Record PriorStagePolicyEntry : Type := {
  ps_name : bytes; ps_receipt_sha256 : bytes; ps_source_hash : bytes; ps_artifact_hash : bytes;
  ps_expected_nonce : bytes; ps_tls_spki_der : bytes; ps_expected_value_x : bytes; ps_expected_platform : Platform;
  ps_expected_platform_measurement : bytes; ps_max_age_secs : N; ps_cpu_collateral : option CpuCollateral;
  ps_cpu_tcb_policy : option CpuTcbPolicy; ps_azure_policy : option AzureCompositePolicy;
  ps_nitrotpm_policy : option NitroTpmPolicy; ps_boot_policy : option BootPolicy; ps_uki_evidence : option bytes;
  ps_gpu_policy : option GpuPolicy;
}.
Record PriorStagePolicy : Type := { policy_stages : list PriorStagePolicyEntry }.
Record VerifiedPriorStage : Type := {
  vps_name : bytes; vps_receipt_sha256 : bytes; vps_source_hash : bytes; vps_artifact_hash : bytes; vps_nonce : bytes;
  vps_tls_spki_sha256 : bytes; vps_value_x : bytes; vps_platform : Platform; vps_issued_at : N;
  vps_verdict : AttestationVerdict;
}.
Record VerifiedPriorStages : Type := {
  stages : list VerifiedPriorStage; immediate_predecessor_sha256 : bytes; pv_value_x : bytes; freshness_deadline : N;
}.

(** [AttestationVerifierBuilder] *)
Record Config : Type := {
  cfg_nonce : option bytes; cfg_spki : bytes; cfg_value_x : option bytes; cfg_platform : option Platform;
  cfg_measurement : option bytes; cfg_cpu_collateral : option CpuCollateral; cfg_cpu_tcb_policy : option CpuTcbPolicy;
  cfg_azure_policy : option AzureCompositePolicy; cfg_nitrotpm_policy : option NitroTpmPolicy; cfg_max_age : N;
  cfg_require_gpu : bool; cfg_boot : option BootPolicy; cfg_uki : option bytes;
  cfg_google_boot_verifier : option GoogleVerifier; cfg_google_tdx_verifier : option GoogleVerifier;
  cfg_google_gpu_verifier : option GoogleVerifier; cfg_prior_stage_policy : option PriorStagePolicy;
  cfg_gpu : option GpuPolicy;
}.
Definition default_config : Config := {|
  cfg_nonce := None; cfg_spki := []; cfg_value_x := None; cfg_platform := None; cfg_measurement := None;
  cfg_cpu_collateral := None; cfg_cpu_tcb_policy := None; cfg_azure_policy := None; cfg_nitrotpm_policy := None;
  cfg_max_age := 300; cfg_require_gpu := false; cfg_boot := None; cfg_uki := None; cfg_google_boot_verifier := None;
  cfg_google_tdx_verifier := None; cfg_google_gpu_verifier := None; cfg_prior_stage_policy := None; cfg_gpu := None |}.
(** The setters of [AttestationVerifierBuilder]. *)
Definition with_expected_nonce (n : bytes) (c : Config) : Config := {|
  cfg_nonce := Some n; cfg_spki := cfg_spki c; cfg_value_x := cfg_value_x c; cfg_platform := cfg_platform c;
  cfg_measurement := cfg_measurement c; cfg_cpu_collateral := cfg_cpu_collateral c;
  cfg_cpu_tcb_policy := cfg_cpu_tcb_policy c; cfg_azure_policy := cfg_azure_policy c;
  cfg_nitrotpm_policy := cfg_nitrotpm_policy c; cfg_max_age := cfg_max_age c; cfg_require_gpu := cfg_require_gpu c;
  cfg_boot := cfg_boot c; cfg_uki := cfg_uki c; cfg_google_boot_verifier := cfg_google_boot_verifier c;
  cfg_google_tdx_verifier := cfg_google_tdx_verifier c; cfg_google_gpu_verifier := cfg_google_gpu_verifier c;
  cfg_prior_stage_policy := cfg_prior_stage_policy c; cfg_gpu := cfg_gpu c |}.
Definition with_tls_spki_der (s : bytes) (c : Config) : Config := {|
  cfg_nonce := cfg_nonce c; cfg_spki := s; cfg_value_x := cfg_value_x c; cfg_platform := cfg_platform c;
  cfg_measurement := cfg_measurement c; cfg_cpu_collateral := cfg_cpu_collateral c;
  cfg_cpu_tcb_policy := cfg_cpu_tcb_policy c; cfg_azure_policy := cfg_azure_policy c;
  cfg_nitrotpm_policy := cfg_nitrotpm_policy c; cfg_max_age := cfg_max_age c; cfg_require_gpu := cfg_require_gpu c;
  cfg_boot := cfg_boot c; cfg_uki := cfg_uki c; cfg_google_boot_verifier := cfg_google_boot_verifier c;
  cfg_google_tdx_verifier := cfg_google_tdx_verifier c; cfg_google_gpu_verifier := cfg_google_gpu_verifier c;
  cfg_prior_stage_policy := cfg_prior_stage_policy c; cfg_gpu := cfg_gpu c |}.
Definition with_expected_value_x (x : bytes) (c : Config) : Config := {|
  cfg_nonce := cfg_nonce c; cfg_spki := cfg_spki c; cfg_value_x := Some x; cfg_platform := cfg_platform c;
  cfg_measurement := cfg_measurement c; cfg_cpu_collateral := cfg_cpu_collateral c;
  cfg_cpu_tcb_policy := cfg_cpu_tcb_policy c; cfg_azure_policy := cfg_azure_policy c;
  cfg_nitrotpm_policy := cfg_nitrotpm_policy c; cfg_max_age := cfg_max_age c; cfg_require_gpu := cfg_require_gpu c;
  cfg_boot := cfg_boot c; cfg_uki := cfg_uki c; cfg_google_boot_verifier := cfg_google_boot_verifier c;
  cfg_google_tdx_verifier := cfg_google_tdx_verifier c; cfg_google_gpu_verifier := cfg_google_gpu_verifier c;
  cfg_prior_stage_policy := cfg_prior_stage_policy c; cfg_gpu := cfg_gpu c |}.
Definition require_platform (p : Platform) (c : Config) : Config := {|
  cfg_nonce := cfg_nonce c; cfg_spki := cfg_spki c; cfg_value_x := cfg_value_x c; cfg_platform := Some p;
  cfg_measurement := cfg_measurement c; cfg_cpu_collateral := cfg_cpu_collateral c;
  cfg_cpu_tcb_policy := cfg_cpu_tcb_policy c; cfg_azure_policy := cfg_azure_policy c;
  cfg_nitrotpm_policy := cfg_nitrotpm_policy c; cfg_max_age := cfg_max_age c; cfg_require_gpu := cfg_require_gpu c;
  cfg_boot := cfg_boot c; cfg_uki := cfg_uki c; cfg_google_boot_verifier := cfg_google_boot_verifier c;
  cfg_google_tdx_verifier := cfg_google_tdx_verifier c; cfg_google_gpu_verifier := cfg_google_gpu_verifier c;
  cfg_prior_stage_policy := cfg_prior_stage_policy c; cfg_gpu := cfg_gpu c |}.
Definition with_expected_platform_measurement (m : bytes) (c : Config) : Config := {|
  cfg_nonce := cfg_nonce c; cfg_spki := cfg_spki c; cfg_value_x := cfg_value_x c; cfg_platform := cfg_platform c;
  cfg_measurement := Some m; cfg_cpu_collateral := cfg_cpu_collateral c; cfg_cpu_tcb_policy := cfg_cpu_tcb_policy c;
  cfg_azure_policy := cfg_azure_policy c; cfg_nitrotpm_policy := cfg_nitrotpm_policy c; cfg_max_age := cfg_max_age c;
  cfg_require_gpu := cfg_require_gpu c; cfg_boot := cfg_boot c; cfg_uki := cfg_uki c;
  cfg_google_boot_verifier := cfg_google_boot_verifier c; cfg_google_tdx_verifier := cfg_google_tdx_verifier c;
  cfg_google_gpu_verifier := cfg_google_gpu_verifier c; cfg_prior_stage_policy := cfg_prior_stage_policy c;
  cfg_gpu := cfg_gpu c |}.
Definition with_cpu_collateral (x : CpuCollateral) (c : Config) : Config := {|
  cfg_nonce := cfg_nonce c; cfg_spki := cfg_spki c; cfg_value_x := cfg_value_x c; cfg_platform := cfg_platform c;
  cfg_measurement := cfg_measurement c; cfg_cpu_collateral := Some x; cfg_cpu_tcb_policy := cfg_cpu_tcb_policy c;
  cfg_azure_policy := cfg_azure_policy c; cfg_nitrotpm_policy := cfg_nitrotpm_policy c; cfg_max_age := cfg_max_age c;
  cfg_require_gpu := cfg_require_gpu c; cfg_boot := cfg_boot c; cfg_uki := cfg_uki c;
  cfg_google_boot_verifier := cfg_google_boot_verifier c; cfg_google_tdx_verifier := cfg_google_tdx_verifier c;
  cfg_google_gpu_verifier := cfg_google_gpu_verifier c; cfg_prior_stage_policy := cfg_prior_stage_policy c;
  cfg_gpu := cfg_gpu c |}.
Definition with_azure_policy (p : AzureCompositePolicy) (c : Config) : Config := {|
  cfg_nonce := cfg_nonce c; cfg_spki := cfg_spki c; cfg_value_x := cfg_value_x c; cfg_platform := cfg_platform c;
  cfg_measurement := cfg_measurement c; cfg_cpu_collateral := cfg_cpu_collateral c;
  cfg_cpu_tcb_policy := cfg_cpu_tcb_policy c; cfg_azure_policy := Some p;
  cfg_nitrotpm_policy := cfg_nitrotpm_policy c; cfg_max_age := cfg_max_age c; cfg_require_gpu := cfg_require_gpu c;
  cfg_boot := cfg_boot c; cfg_uki := cfg_uki c; cfg_google_boot_verifier := cfg_google_boot_verifier c;
  cfg_google_tdx_verifier := cfg_google_tdx_verifier c; cfg_google_gpu_verifier := cfg_google_gpu_verifier c;
  cfg_prior_stage_policy := cfg_prior_stage_policy c; cfg_gpu := cfg_gpu c |}.
Definition with_nitrotpm_policy (p : NitroTpmPolicy) (c : Config) : Config := {|
  cfg_nonce := cfg_nonce c; cfg_spki := cfg_spki c; cfg_value_x := cfg_value_x c; cfg_platform := cfg_platform c;
  cfg_measurement := cfg_measurement c; cfg_cpu_collateral := cfg_cpu_collateral c;
  cfg_cpu_tcb_policy := cfg_cpu_tcb_policy c; cfg_azure_policy := cfg_azure_policy c; cfg_nitrotpm_policy := Some p;
  cfg_max_age := cfg_max_age c; cfg_require_gpu := cfg_require_gpu c; cfg_boot := cfg_boot c; cfg_uki := cfg_uki c;
  cfg_google_boot_verifier := cfg_google_boot_verifier c; cfg_google_tdx_verifier := cfg_google_tdx_verifier c;
  cfg_google_gpu_verifier := cfg_google_gpu_verifier c; cfg_prior_stage_policy := cfg_prior_stage_policy c;
  cfg_gpu := cfg_gpu c |}.
Definition with_cpu_tcb_policy (p : CpuTcbPolicy) (c : Config) : Config := {|
  cfg_nonce := cfg_nonce c; cfg_spki := cfg_spki c; cfg_value_x := cfg_value_x c; cfg_platform := cfg_platform c;
  cfg_measurement := cfg_measurement c; cfg_cpu_collateral := cfg_cpu_collateral c; cfg_cpu_tcb_policy := Some p;
  cfg_azure_policy := cfg_azure_policy c; cfg_nitrotpm_policy := cfg_nitrotpm_policy c; cfg_max_age := cfg_max_age c;
  cfg_require_gpu := cfg_require_gpu c; cfg_boot := cfg_boot c; cfg_uki := cfg_uki c;
  cfg_google_boot_verifier := cfg_google_boot_verifier c; cfg_google_tdx_verifier := cfg_google_tdx_verifier c;
  cfg_google_gpu_verifier := cfg_google_gpu_verifier c; cfg_prior_stage_policy := cfg_prior_stage_policy c;
  cfg_gpu := cfg_gpu c |}.
Definition with_max_age_secs (age : N) (c : Config) : Config := {|
  cfg_nonce := cfg_nonce c; cfg_spki := cfg_spki c; cfg_value_x := cfg_value_x c; cfg_platform := cfg_platform c;
  cfg_measurement := cfg_measurement c; cfg_cpu_collateral := cfg_cpu_collateral c;
  cfg_cpu_tcb_policy := cfg_cpu_tcb_policy c; cfg_azure_policy := cfg_azure_policy c;
  cfg_nitrotpm_policy := cfg_nitrotpm_policy c; cfg_max_age := age; cfg_require_gpu := cfg_require_gpu c;
  cfg_boot := cfg_boot c; cfg_uki := cfg_uki c; cfg_google_boot_verifier := cfg_google_boot_verifier c;
  cfg_google_tdx_verifier := cfg_google_tdx_verifier c; cfg_google_gpu_verifier := cfg_google_gpu_verifier c;
  cfg_prior_stage_policy := cfg_prior_stage_policy c; cfg_gpu := cfg_gpu c |}.
Definition require_gpu_verified (b : bool) (c : Config) : Config := {|
  cfg_nonce := cfg_nonce c; cfg_spki := cfg_spki c; cfg_value_x := cfg_value_x c; cfg_platform := cfg_platform c;
  cfg_measurement := cfg_measurement c; cfg_cpu_collateral := cfg_cpu_collateral c;
  cfg_cpu_tcb_policy := cfg_cpu_tcb_policy c; cfg_azure_policy := cfg_azure_policy c;
  cfg_nitrotpm_policy := cfg_nitrotpm_policy c; cfg_max_age := cfg_max_age c; cfg_require_gpu := b;
  cfg_boot := cfg_boot c; cfg_uki := cfg_uki c; cfg_google_boot_verifier := cfg_google_boot_verifier c;
  cfg_google_tdx_verifier := cfg_google_tdx_verifier c; cfg_google_gpu_verifier := cfg_google_gpu_verifier c;
  cfg_prior_stage_policy := cfg_prior_stage_policy c; cfg_gpu := cfg_gpu c |}.
Definition with_boot_policy (p : BootPolicy) (c : Config) : Config := {|
  cfg_nonce := cfg_nonce c; cfg_spki := cfg_spki c; cfg_value_x := cfg_value_x c; cfg_platform := cfg_platform c;
  cfg_measurement := cfg_measurement c; cfg_cpu_collateral := cfg_cpu_collateral c;
  cfg_cpu_tcb_policy := cfg_cpu_tcb_policy c; cfg_azure_policy := cfg_azure_policy c;
  cfg_nitrotpm_policy := cfg_nitrotpm_policy c; cfg_max_age := cfg_max_age c; cfg_require_gpu := cfg_require_gpu c;
  cfg_boot := Some p; cfg_uki := cfg_uki c; cfg_google_boot_verifier := cfg_google_boot_verifier c;
  cfg_google_tdx_verifier := cfg_google_tdx_verifier c; cfg_google_gpu_verifier := cfg_google_gpu_verifier c;
  cfg_prior_stage_policy := cfg_prior_stage_policy c; cfg_gpu := cfg_gpu c |}.
Definition with_prior_stage_policy (p : PriorStagePolicy) (c : Config) : Config := {|
  cfg_nonce := cfg_nonce c; cfg_spki := cfg_spki c; cfg_value_x := cfg_value_x c; cfg_platform := cfg_platform c;
  cfg_measurement := cfg_measurement c; cfg_cpu_collateral := cfg_cpu_collateral c;
  cfg_cpu_tcb_policy := cfg_cpu_tcb_policy c; cfg_azure_policy := cfg_azure_policy c;
  cfg_nitrotpm_policy := cfg_nitrotpm_policy c; cfg_max_age := cfg_max_age c; cfg_require_gpu := cfg_require_gpu c;
  cfg_boot := cfg_boot c; cfg_uki := cfg_uki c; cfg_google_boot_verifier := cfg_google_boot_verifier c;
  cfg_google_tdx_verifier := cfg_google_tdx_verifier c; cfg_google_gpu_verifier := cfg_google_gpu_verifier c;
  cfg_prior_stage_policy := Some p; cfg_gpu := cfg_gpu c |}.
Definition with_google_boot_verifier (g : GoogleVerifier) (c : Config) : Config := {|
  cfg_nonce := cfg_nonce c; cfg_spki := cfg_spki c; cfg_value_x := cfg_value_x c; cfg_platform := cfg_platform c;
  cfg_measurement := cfg_measurement c; cfg_cpu_collateral := cfg_cpu_collateral c;
  cfg_cpu_tcb_policy := cfg_cpu_tcb_policy c; cfg_azure_policy := cfg_azure_policy c;
  cfg_nitrotpm_policy := cfg_nitrotpm_policy c; cfg_max_age := cfg_max_age c; cfg_require_gpu := cfg_require_gpu c;
  cfg_boot := cfg_boot c; cfg_uki := cfg_uki c; cfg_google_boot_verifier := Some g;
  cfg_google_tdx_verifier := cfg_google_tdx_verifier c; cfg_google_gpu_verifier := cfg_google_gpu_verifier c;
  cfg_prior_stage_policy := cfg_prior_stage_policy c; cfg_gpu := cfg_gpu c |}.
Definition with_google_tdx_verifier (g : GoogleVerifier) (c : Config) : Config := {|
  cfg_nonce := cfg_nonce c; cfg_spki := cfg_spki c; cfg_value_x := cfg_value_x c; cfg_platform := cfg_platform c;
  cfg_measurement := cfg_measurement c; cfg_cpu_collateral := cfg_cpu_collateral c;
  cfg_cpu_tcb_policy := cfg_cpu_tcb_policy c; cfg_azure_policy := cfg_azure_policy c;
  cfg_nitrotpm_policy := cfg_nitrotpm_policy c; cfg_max_age := cfg_max_age c; cfg_require_gpu := cfg_require_gpu c;
  cfg_boot := cfg_boot c; cfg_uki := cfg_uki c; cfg_google_boot_verifier := cfg_google_boot_verifier c;
  cfg_google_tdx_verifier := Some g; cfg_google_gpu_verifier := cfg_google_gpu_verifier c;
  cfg_prior_stage_policy := cfg_prior_stage_policy c; cfg_gpu := cfg_gpu c |}.
Definition with_google_gpu_verifier (g : GoogleVerifier) (c : Config) : Config := {|
  cfg_nonce := cfg_nonce c; cfg_spki := cfg_spki c; cfg_value_x := cfg_value_x c; cfg_platform := cfg_platform c;
  cfg_measurement := cfg_measurement c; cfg_cpu_collateral := cfg_cpu_collateral c;
  cfg_cpu_tcb_policy := cfg_cpu_tcb_policy c; cfg_azure_policy := cfg_azure_policy c;
  cfg_nitrotpm_policy := cfg_nitrotpm_policy c; cfg_max_age := cfg_max_age c; cfg_require_gpu := cfg_require_gpu c;
  cfg_boot := cfg_boot c; cfg_uki := cfg_uki c; cfg_google_boot_verifier := cfg_google_boot_verifier c;
  cfg_google_tdx_verifier := cfg_google_tdx_verifier c; cfg_google_gpu_verifier := Some g;
  cfg_prior_stage_policy := cfg_prior_stage_policy c; cfg_gpu := cfg_gpu c |}.
Definition with_uki_evidence (image : bytes) (c : Config) : Config := {|
  cfg_nonce := cfg_nonce c; cfg_spki := cfg_spki c; cfg_value_x := cfg_value_x c; cfg_platform := cfg_platform c;
  cfg_measurement := cfg_measurement c; cfg_cpu_collateral := cfg_cpu_collateral c;
  cfg_cpu_tcb_policy := cfg_cpu_tcb_policy c; cfg_azure_policy := cfg_azure_policy c;
  cfg_nitrotpm_policy := cfg_nitrotpm_policy c; cfg_max_age := cfg_max_age c; cfg_require_gpu := cfg_require_gpu c;
  cfg_boot := cfg_boot c; cfg_uki := Some image; cfg_google_boot_verifier := cfg_google_boot_verifier c;
  cfg_google_tdx_verifier := cfg_google_tdx_verifier c; cfg_google_gpu_verifier := cfg_google_gpu_verifier c;
  cfg_prior_stage_policy := cfg_prior_stage_policy c; cfg_gpu := cfg_gpu c |}.
Definition with_gpu_policy (p : GpuPolicy) (c : Config) : Config := {|
  cfg_nonce := cfg_nonce c; cfg_spki := cfg_spki c; cfg_value_x := cfg_value_x c; cfg_platform := cfg_platform c;
  cfg_measurement := cfg_measurement c; cfg_cpu_collateral := cfg_cpu_collateral c;
  cfg_cpu_tcb_policy := cfg_cpu_tcb_policy c; cfg_azure_policy := cfg_azure_policy c;
  cfg_nitrotpm_policy := cfg_nitrotpm_policy c; cfg_max_age := cfg_max_age c; cfg_require_gpu := true;
  cfg_boot := cfg_boot c; cfg_uki := cfg_uki c; cfg_google_boot_verifier := cfg_google_boot_verifier c;
  cfg_google_tdx_verifier := cfg_google_tdx_verifier c; cfg_google_gpu_verifier := cfg_google_gpu_verifier c;
  cfg_prior_stage_policy := cfg_prior_stage_policy c; cfg_gpu := Some p |}.
Record AttestationVerifier : Type := { config : Config; gpu_verifier : option GpuVerifier }.

(** ** Building a verifier *)
Definition validate_spki (spki : bytes) : res AttError unit :=
  att_need (negb (blen spki =? 0) && (blen spki <=? 16384)) "an explicit TLS SubjectPublicKeyInfo DER is required";;
  att_need (spki_from_der spki) "invalid TLS SPKI DER".
Definition is_some {A} (o : option A) : bool := if o is Some _ then true else false.
Definition some_nonzero (o : option bytes) : bool := if o is Some b then any_nonzero b else false.
Definition intel_collateral (o : option CpuCollateral) : bool :=
  match o with Some (CollateralIntelTdx _) => true | _ => false end.
Definition amd_collateral_given (o : option CpuCollateral) : bool :=
  match o with Some (CollateralAmdSnp _) => true | _ => false end.
Definition amd_tcb_given (o : option CpuTcbPolicy) : bool := match o with Some (PolicyAmdSnp _) => true | _ => false end.
Definition intel_floor (o : option CpuTcbPolicy) : bool :=
  match o with Some (PolicyIntelTdx n) => 1 <=? n | _ => false end.

Definition check_boot_event (_ : unit) (e : ExpectedBootEvent) : res AttError unit :=
  ok ← (if blen (be_identity e) =? 0 then Ok false else
          d ← att_some (hex_decode (be_digest e)) "invalid hex";
          Ok ((blen d =? 32) || (blen d =? 48) || (blen d =? 64)));
  att_need ok "invalid boot digest policy".
Definition check_boot_policy (p : BootPolicy) : res AttError unit :=
  (if bp_runtime p is Some r then att_boot (RuntimePolicy_validate r) else Ok tt);;
  att_need (negb (blen (bp_events p) =? 0) && (blen (bp_events p) <=? 1024))
    "boot policy must specify approved event measurements";;
  for_each check_boot_event tt (bp_events p);;
  (if bp_uki p is Some u then att_boot (UkiPolicy_validate u) else Ok tt).

(** The vendor checks of [build]. *)
Definition build_platform (c : Config) : res AttError unit :=
  (if is_some (cfg_google_tdx_verifier c) then
     att_need (bool_decide (cfg_platform c = Some Tdx)) "Google TDX verifier requires explicit TDX platform policy";;
     att_need (intel_collateral (cfg_cpu_collateral c) && intel_floor (cfg_cpu_tcb_policy c))
       "Google TDX requires Intel collateral and a nonzero TCB evaluation-data floor"
   else Ok tt);;
  att_need (negb (is_some (cfg_google_gpu_verifier c)) || is_some (cfg_gpu c))
    "Google GPU verification requires an enrolled GPU inventory policy";;
  (if cfg_azure_policy c is Some p then
     att_need (bool_decide (cfg_platform c = Some AzureSnpVtpm)) "Azure policy requires the explicit Azure platform";;
     att_pki (AzureCompositePolicy_validate p)
   else Ok tt);;
  (if cfg_nitrotpm_policy c is Some p then
     att_need (bool_decide (cfg_platform c = Some AwsSnpNitroTpm))
       "NitroTPM policy requires the explicit AWS composite platform";;
     att_pki (NitroTpmPolicy_validate p)
   else Ok tt);;
  (if bool_decide (cfg_platform c = Some AzureSnpVtpm) || bool_decide (cfg_platform c = Some AwsSnpNitroTpm) then
     att_need (amd_collateral_given (cfg_cpu_collateral c) && amd_tcb_given (cfg_cpu_tcb_policy c))
       "CPU/TPM profiles require current AMD collateral and independent TCB policy"
   else Ok tt);;
  att_need (negb (bool_decide (cfg_platform c = Some AzureSnpVtpm)) || is_some (cfg_azure_policy c))
    "Azure profile requires independent Azure policy";;
  att_need (negb (bool_decide (cfg_platform c = Some AwsSnpNitroTpm)) || is_some (cfg_nitrotpm_policy c))
    "AWS profile requires independent NitroTPM policy".

(** [build]; [validate_prior] is [PriorStagePolicy::validate]. *)
Definition build_with (validate_prior : PriorStagePolicy -> res AttError unit) (c : Config) :
    res AttError AttestationVerifier :=
  build_platform c;;
  (if cfg_prior_stage_policy c is Some p then validate_prior p else Ok tt);;
  att_need (is_some (cfg_nonce c) && some_nonzero (cfg_value_x c))
    "verifier requires an expected challenge and nonzero Value X";;
  att_need (if cfg_measurement c is Some m then (blen m =? 48) && any_nonzero m else false)
    "verifier requires an approved 48-byte CPU platform measurement";;
  validate_spki (cfg_spki c);;
  att_need ((0 <? cfg_max_age c) && (cfg_max_age c <=? 86400)) "max EAT age must be 1..86400 seconds";;
  (if cfg_boot c is Some p then check_boot_policy p else Ok tt);;
  att_need (negb (is_some (cfg_google_boot_verifier c)) || is_some (cfg_boot c))
    "Google boot replay requires an independent boot policy";;
  att_need (Bool.eqb (if cfg_boot c is Some p then is_some (bp_uki p) else false) (is_some (cfg_uki c)))
    "UKI appraisal requires both a boot UKI policy and image bytes";;
  (if cfg_uki c is Some image then
     att_need (negb (blen image =? 0) && (blen image <=? MAX_UKI_BYTES)) "UKI image size outside limit"
   else Ok tt);;
  let require_gpu := cfg_require_gpu c || is_some (cfg_gpu c) in
  att_need (negb require_gpu || is_some (cfg_gpu c)) "require_gpu_verified needs an enrolled GPU inventory policy";;
  gpu ← (if cfg_gpu c is Some p then v ← gpu_new p; Ok (Some v) else Ok None);
  Ok {| config := {|
          cfg_nonce := cfg_nonce c; cfg_spki := cfg_spki c; cfg_value_x := cfg_value_x c; cfg_platform := cfg_platform c;
          cfg_measurement := cfg_measurement c; cfg_cpu_collateral := cfg_cpu_collateral c;
          cfg_cpu_tcb_policy := cfg_cpu_tcb_policy c; cfg_azure_policy := cfg_azure_policy c;
          cfg_nitrotpm_policy := cfg_nitrotpm_policy c; cfg_max_age := cfg_max_age c; cfg_require_gpu := require_gpu;
          cfg_boot := cfg_boot c; cfg_uki := cfg_uki c; cfg_google_boot_verifier := cfg_google_boot_verifier c;
          cfg_google_tdx_verifier := cfg_google_tdx_verifier c; cfg_google_gpu_verifier := cfg_google_gpu_verifier c;
          cfg_prior_stage_policy := cfg_prior_stage_policy c; cfg_gpu := cfg_gpu c |};
        gpu_verifier := gpu |}.

(** ** Verification *)
Record Session : Type := { verdict : AttestationVerdict; readings : nat }.
Definition on_verdict (f : AttestationVerdict -> AttestationVerdict) (s : Session) : Session :=
  {| verdict := f (verdict s); readings := readings s |}.
Definition push_check (c : CheckVerdict) (v : AttestationVerdict) : AttestationVerdict := {|
  valid := valid v; checks := checks v ++ [c]; platform_measurements := platform_measurements v; runtime := runtime v;
  prior_stage_count := prior_stage_count v; gpu := gpu v; boot := boot v; dm_verity := dm_verity v; uki := uki v |}.
Definition set_valid (v : AttestationVerdict) : AttestationVerdict := {|
  valid := true; checks := checks v; platform_measurements := platform_measurements v; runtime := runtime v;
  prior_stage_count := prior_stage_count v; gpu := gpu v; boot := boot v; dm_verity := dm_verity v; uki := uki v |}.
Definition set_count (n : N) (v : AttestationVerdict) : AttestationVerdict := {|
  valid := valid v; checks := checks v; platform_measurements := platform_measurements v; runtime := runtime v;
  prior_stage_count := n; gpu := gpu v; boot := boot v; dm_verity := dm_verity v; uki := uki v |}.
Definition set_measurements (m : gmap bytes bytes) (v : AttestationVerdict) : AttestationVerdict := {|
  valid := valid v; checks := checks v; platform_measurements := m; runtime := runtime v;
  prior_stage_count := prior_stage_count v; gpu := gpu v; boot := boot v; dm_verity := dm_verity v; uki := uki v |}.
Definition set_gpu (g : VerifiedGpuBundle) (v : AttestationVerdict) : AttestationVerdict := {|
  valid := valid v; checks := checks v; platform_measurements := platform_measurements v; runtime := runtime v;
  prior_stage_count := prior_stage_count v; gpu := Some g; boot := boot v; dm_verity := dm_verity v; uki := uki v |}.
Definition set_runtime (r : VerifiedRuntimeLog) (v : AttestationVerdict) : AttestationVerdict := {|
  valid := valid v; checks := checks v; platform_measurements := platform_measurements v; runtime := Some r;
  prior_stage_count := prior_stage_count v; gpu := gpu v; boot := boot v; dm_verity := dm_verity v; uki := uki v |}.
Definition set_boot (b : VerifiedBootLog) (v : AttestationVerdict) : AttestationVerdict := {|
  valid := valid v; checks := checks v; platform_measurements := platform_measurements v; runtime := runtime v;
  prior_stage_count := prior_stage_count v; gpu := gpu v; boot := Some b; dm_verity := dm_verity v; uki := uki v |}.
Definition set_verity (d : DmVerityCommitment) (v : AttestationVerdict) : AttestationVerdict := {|
  valid := valid v; checks := checks v; platform_measurements := platform_measurements v; runtime := runtime v;
  prior_stage_count := prior_stage_count v; gpu := gpu v; boot := boot v; dm_verity := Some d; uki := uki v |}.
Definition set_uki (u : VerifiedUki) (v : AttestationVerdict) : AttestationVerdict := {|
  valid := valid v; checks := checks v; platform_measurements := platform_measurements v; runtime := runtime v;
  prior_stage_count := prior_stage_count v; gpu := gpu v; boot := boot v; dm_verity := dm_verity v; uki := Some u |}.

Notation VS := (V AttError Session).
Definition pass (name text : string) : VS unit :=
  modify (on_verdict (push_check {| check := name; passed := true; detail := Note text |})).
(** One reading of the clock. *)
Definition reading : VS (option N) :=
  s ← state; modify (fun s => {| verdict := verdict s; readings := S (readings s) |});; mret (clock (readings s)).
Definition trusted_now : VS N := t ← reading; lift (att_some t "system clock is before the epoch").
Definition require (c : bool) (m : string) : VS unit := lift (ensure c (Msg m)).
Definition some_or {A} (o : option A) (m : string) : VS A := lift (ok_or o (Msg m)).

(** [VerifiedPriorStages::check_child] *)
Definition check_child (p : VerifiedPriorStages) (child : EatToken) : VS unit :=
  require (negb (blen (stages p) =? 0) && negb (blen (previous_attestation child) =? 0))
    "verified ancestry requires an exact nonempty predecessor link";;
  require ((binding_suite child =? 1) || (binding_suite child =? 2))
    "build ancestry requires a full 64-byte CPU report-data binding";;
  require (bytes_eqb (hex_encode (previous_hash child)) (immediate_predecessor_sha256 p))
    "child predecessor bytes differ from verified ancestry";;
  require (bytes_eqb (hex_encode (value_x child)) (pv_value_x p)) "Value X differs between child and verified ancestry";;
  now ← trusted_now;
  require (now <=? freshness_deadline p) "verified ancestry freshness expired before child admission".

(** The CPU evidence: the authenticated measurements, and the registers of a TPM. *)
Definition Values : Type := gmap bytes bytes.
Definition google_tdx_values (c : Config) (g : GoogleVerifier) (token : EatToken) : VS Values :=
  match cfg_cpu_collateral c, cfg_cpu_tcb_policy c with
  | Some (CollateralIntelTdx collateral), Some (PolicyIntelTdx floor) =>
    require ((binding_suite token =? 1) || (binding_suite token =? 2))
      "Google TDX admission requires full report-data binding";;
    measurement ← some_or (cfg_measurement c) "missing approved MRTD";
    values ← lift (verify_tdx g (platform_quote token) (report_data_64 token None) measurement collateral floor);
    pass "google_tdx" "Google quote verification and strict current collateral, revocation and independent TCB policy verified";;
    mret values
  | _, _ => fails (Msg "Google TDX requires Intel collateral and independent TCB policy")
  end.
Definition azure_values (c : Config) (token : EatToken) : VS (Values * option AuthenticatedRegisters) :=
  match cfg_cpu_collateral c, cfg_cpu_tcb_policy c with
  | Some (CollateralAmdSnp collateral), Some (PolicyAmdSnp tcb) =>
    evidence ← lift (att_pki (evidence_from_json (platform_quote token)));
    policy ← some_or (cfg_azure_policy c) "missing Azure policy";
    t ← reading;
    verified ← lift (att_pki (azure_verify t evidence (report_data_64 token None) policy collateral tcb));
    registers ← (if is_some (cfg_boot c) then r ← lift (att_pki (azure_registers verified)); mret (Some r) else mret None);
    pass "azure_vtpm" "SNP-endorsed AK, fresh TPM quote, exact PCR and independent VM policy verified";;
    mret (az_measurements verified, registers)
  | _, _ => fails (Msg "Azure requires current AMD collateral and independent TCB policy")
  end.
Definition insert_nitrotpm (values : Values) (pcrs : gmap N bytes) : Values :=
  foldl (fun m e => <[lit "NITROTPM_PCR" ++ to_decimal e.1 := e.2]> m) values (btree_iter N.le pcrs).
Definition aws_values (c : Config) (token : EatToken) (now : N) : VS (Values * option AuthenticatedRegisters) :=
  evidence ← lift (aws_from_json (platform_quote token));
  t ← reading;
  cpu ← lift (att_quote (verify_platform_quote_for_admission t SevSnp (snp_report evidence) (binding_bytes token)
                           (cfg_cpu_collateral c) (cfg_cpu_tcb_policy c)));
  require (if get_range (snp_report evidence) 0x30 0x34 is Some v then bytes_eqb v [x00; x00; x00; x00] else false)
    "AWS SNP policy requires VMPL 0";;
  policy ← some_or (cfg_nitrotpm_policy c) "missing NitroTPM policy";
  nitro ← lift (att_pki (verify_nitrotpm_document (nitrotpm_document evidence) (eat_nonce token)
                           (Some (report_data_64 token None)) policy now));
  registers ← (if is_some (cfg_boot c) then r ← lift (att_pki (nitrotpm_registers nitro)); mret (Some r) else mret None);
  pass "nitrotpm" "signed NitroTPM document and SNP report bind the full EAT commitment; independent PCR policy verified";;
  mret (insert_nitrotpm (collect_map cpu) (nt_pcrs nitro), registers).
Definition direct_values (c : Config) (token : EatToken) (platform : Platform) : VS Values :=
  t ← reading;
  cpu ← lift (att_quote (verify_platform_quote_for_admission t platform (platform_quote token) (binding_bytes token)
                           (cfg_cpu_collateral c) (cfg_cpu_tcb_policy c)));
  mret (collect_map cpu).
Definition cpu_values (c : Config) (token : EatToken) (platform : Platform) (now : N) :
    VS (Values * option AuthenticatedRegisters) :=
  match platform, cfg_google_tdx_verifier c with
  | Tdx, Some g => values ← google_tdx_values c g token; mret (values, None)
  | AzureSnpVtpm, _ => azure_values c token
  | AwsSnpNitroTpm, _ => aws_values c token now
  | _, _ => values ← direct_values c token platform; mret (values, None)
  end.

Definition measurement_name (p : Platform) : bytes :=
  match p with
  | Tdx => lit "MRTD"
  | SevSnp | AzureSnpVtpm | AwsSnpNitroTpm => lit "MEASUREMENT"
  | Nitro => lit "PCR0"
  end.
Definition commitment_name (p : Platform) : bytes :=
  match p with
  | Tdx => lit "REPORTDATA"
  | SevSnp | AwsSnpNitroTpm => lit "REPORT_DATA"
  | AzureSnpVtpm => lit "AZURE_EAT_REPORT_DATA"
  | Nitro => lit "USER_DATA"
  end.
(** [u64::from_le_bytes(b.try_into()?)] *)
Definition le_u64 (b : bytes) : VS N := require (blen b =? 8) "slice length";; mret (le_to_N b).
Definition forbid_debug (c : Config) (token : EatToken) (platform : Platform) (values : Values) : VS unit :=
  match platform with
  | Tdx =>
    attr ← (if is_some (cfg_google_tdx_verifier c)
            then some_or (values !! lit "TD_ATTRIBUTES") "missing Google-authenticated TD attributes"
            else some_or (get_range (platform_quote token) 168 176) "missing signed TD attributes");
    a ← le_u64 attr;
    require (N.land a 1 =? 0) "TDX debug mode is forbidden"
  | SevSnp =>
    policy ← some_or (get_range (platform_quote token) 8 16) "missing signed SNP policy";
    p ← le_u64 policy;
    require (N.land p (N.shiftl 1 19) =? 0) "SNP debug mode is forbidden";;
    require (if get_range (platform_quote token) 0x30 0x34 is Some v then bytes_eqb v [x00; x00; x00; x00] else false)
      "SNP policy requires VMPL 0"
  | Nitro | AzureSnpVtpm | AwsSnpNitroTpm => mret tt
  end.
Definition check_measurement (c : Config) (token : EatToken) (platform : Platform) (values : Values) : VS unit :=
  measurement ← some_or (values !! measurement_name platform) "quote lacks platform measurement";
  require (any_nonzero measurement) "zero/debug CPU launch measurement";;
  forbid_debug c token platform values;;
  (if negb (blen (platform_measurement token) =? 0) then
     require (bytes_eqb (platform_measurement token) measurement) "EAT measurement differs from signed CPU measurement"
   else mret tt);;
  (if cfg_measurement c is Some expected then
     require (bytes_eqb expected measurement) "CPU platform measurement policy mismatch"
   else mret tt);;
  (if negb (binding_suite token =? 0) then
     require (if values !! commitment_name platform is Some rd then bytes_eqb rd (report_data_64 token None) else false)
       "full CPU report-data commitment mismatch"
   else mret tt);;
  modify (on_verdict (set_measurements (hex_encode <$> values)));;
  pass "cpu" "signature, pinned root, required vendor collateral and TCB policy, challenge, freshness, TLS key and application binding verified".

Definition check_gpu (v : AttestationVerifier) (token : EatToken) (now : N) : VS unit :=
  let c := config v in
  if negb (blen (gpu_evidence token) =? 0) then
    require (binding_suite token =? BINDING_SUITE_COMPOSITE) "GPU evidence is not CPU committed";;
    verifier ← some_or (gpu_verifier v) "GPU evidence requires an explicit relying-party inventory policy";
    '(bundle, position) ← some_or (gpu_bundle_read (gpu_evidence token)) "decode GPU bundle";
    require (position =? blen (gpu_evidence token)) "trailing GPU evidence data";;
    verified ← lift (gpu_verify verifier bundle (eat_nonce token) now);
    modify (on_verdict (set_gpu verified));;
    (if cfg_google_gpu_verifier c is Some google then
       policy ← some_or (cfg_gpu c) "missing GPU inventory policy";
       lift (google_gpu_verify google bundle policy verified (eat_nonce token) now);;
       pass "google_gpu" "Google GPU/NVSwitch signature, manifest, revocation and topology checks verified alongside application policy"
     else mret tt);;
    pass "gpu" "certificates, revocation, signatures, manifests, security and inventory policy verified"
  else require (negb (cfg_require_gpu c)) "require_gpu_verified: GPU evidence is missing".

Definition rtmr (values : Values) (i : N) : VS bytes :=
  r ← some_or (values !! (lit "RTMR" ++ to_decimal i)) "missing signed RTMR";
  require (blen r =? 48) "slice length";;
  mret r.
Definition tdx_boot_log (c : Config) (policy : BootPolicy) (token : EatToken) (values : Values) : VS VerifiedBootLog :=
  r0 ← rtmr values 0; r1 ← rtmr values 1; r2 ← rtmr values 2; r3 ← rtmr values 3;
  parsed ← lift (att_boot (if is_some (bp_runtime policy) then parse_tdx_ccel_with_aael (boot_evidence token) default_limits
                           else parse_tdx_ccel (boot_evidence token) default_limits));
  (if cfg_google_boot_verifier c is Some google then
     consumed ← lift (index_range (boot_evidence token) 0 (consumed_bytes parsed));
     lift (replay_tdx google consumed [r0; r1; r2; r3]);;
     pass "google_boot_replay" "Google go-eventlog matched all four authenticated RTMRs with event inference disabled"
   else mret tt);;
  (if bp_runtime policy is Some rt then
     '(log, verified) ← lift (att_boot (verify_tdx_runtime parsed (AuthenticatedRegisters_tdx r0 r1 r2 r3) rt));
     modify (on_verdict (set_runtime verified));;
     mret log
   else lift (att_boot (Replay.verify parsed (AuthenticatedRegisters_tdx r0 r1 r2 r3)))).
Definition tpm_boot_log (c : Config) (policy : BootPolicy) (token : EatToken)
    (tpm_registers : option AuthenticatedRegisters) : VS VerifiedBootLog :=
  require (negb (is_some (bp_runtime policy))) "CoCo AAEL RTMR3 policy requires TDX";;
  require (negb (is_some (cfg_google_boot_verifier c))) "configured Google replay profile requires TDX";;
  registers ← some_or tpm_registers "TPM boot evidence requires authenticated CPU/TPM composite evidence";
  log ← lift (att_boot (parse_tcg2 (boot_evidence token) default_limits));
  lift (att_boot (Replay.verify log registers)).
Definition check_event (log : VerifiedBootLog) (_ : unit) (e : ExpectedBootEvent) : res AttError unit :=
  d ← att_some (hex_decode (be_digest e)) "invalid hex";
  att_boot (verify_expected_digest log (be_event_index e) (be_algorithm e) d).
Definition check_boot (c : Config) (token : EatToken) (platform : Platform) (values : Values)
    (tpm_registers : option AuthenticatedRegisters) : VS unit :=
  match cfg_boot c with
  | Some policy =>
    require ((binding_suite token =? BINDING_SUITE_COMPOSITE) && negb (blen (boot_evidence token) =? 0))
      "required CPU-committed boot evidence is missing";;
    log ← (if bool_decide (platform = Tdx) then tdx_boot_log c policy token values
           else tpm_boot_log c policy token tpm_registers);
    lift (for_each (check_event log) tt (bp_events policy));;
    (if bp_dm_verity policy is Some vp then
       root ← some_or (hex_decode (vp_root_digest vp)) "invalid hex";
       d ← lift (att_boot (verified_dm_verity log (vp_event_index vp) (vp_algorithm vp) (vp_profile vp) root));
       modify (on_verdict (set_verity d))
     else mret tt);;
    (if bp_uki policy is Some up then
       image ← some_or (cfg_uki c) "required UKI image is missing";
       u ← lift (att_boot (verify_uki log image up));
       modify (on_verdict (set_uki u));;
       pass "uki" "embedded UKI metadata matches authenticated section measurements and independently approved section digests"
     else mret tt);;
    modify (on_verdict (set_boot log));;
    pass "boot" "event replay agrees with authenticated registers and required measurement policy"
  | None => require (blen (boot_evidence token) =? 0) "boot evidence requires an explicit relying-party policy"
  end.

(** The claims that the relying party pins. *)
Definition check_claims (c : Config) (token : EatToken) (now : N) : VS Platform :=
  require (bool_decide (Some (eat_nonce token) = cfg_nonce c)) "challenge nonce mismatch";;
  require ((iat token <=? now) && (now - iat token <=? cfg_max_age c)) "EAT freshness expired or issued in the future";;
  require (bytes_eqb (tls_spki_hash token) (sha256 (cfg_spki c))) "TLS SPKI binding mismatch";;
  require (bool_decide (Some (value_x token) = cfg_value_x c)) "Value X mismatch";;
  platform ← some_or (platform_enum token) "unknown platform";
  require (if cfg_platform c is Some p then bool_decide (p = platform) else true) "required CPU platform mismatch";;
  require (Bool.eqb (is_some (cfg_azure_policy c)) (bool_decide (platform = AzureSnpVtpm)))
    "Azure profile requires matching independently configured Azure policy";;
  require (Bool.eqb (is_some (cfg_nitrotpm_policy c)) (bool_decide (platform = AwsSnpNitroTpm)))
    "AWS composite profile requires matching independently configured NitroTPM policy";;
  mret platform.
Definition check_prior (token : EatToken) (prior : option VerifiedPriorStages) : VS unit :=
  match prior with
  | Some p =>
    require (negb (binding_suite token =? 0)) "prior-stage policy requires full report-data binding";;
    check_child p token;;
    modify (on_verdict (set_count (blen (stages p))));;
    pass "prior_stages" "exact prior receipts, signatures, current collateral and independently approved stage policy verified"
  | None =>
    require (blen (previous_attestation token) =? 0)
      "composite verification requires an explicit prior-stage policy before accepting a build chain"
  end.

Definition verify_inner (v : AttestationVerifier) (token : EatToken) (prior : option VerifiedPriorStages) : VS unit :=
  let c := config v in
  lift (att_eat (validate_shape token));;
  check_prior token prior;;
  now ← trusted_now;
  platform ← check_claims c token now;
  '(values, tpm_registers) ← cpu_values c token platform now;
  check_measurement c token platform values;;
  check_gpu v token now;;
  check_boot c token platform values tpm_registers;;
  completed_at ← trusted_now;
  require ((iat token <=? completed_at) && (completed_at - iat token <=? cfg_max_age c))
    "EAT freshness expired during appraisal";;
  (if prior is Some p then check_child p token else mret tt).

(** [verify_internal]; [verify_prior] is [PriorStagePolicy::verify], which also reads the
    clock.  The verdict is returned whatever happens. *)
Definition verify_internal_with (verify_prior : PriorStagePolicy -> bytes -> VS VerifiedPriorStages)
    (v : AttestationVerifier) (token : EatToken) (verified_prior : option VerifiedPriorStages) (reads : nat) :
    res AttError AttestationVerdict * nat :=
  let body : VS unit :=
    prior ← (if cfg_prior_stage_policy (config v) is Some p
             then x ← verify_prior p (previous_attestation token); mret (Some x) else mret None);
    require (negb (is_some prior) || negb (is_some verified_prior)) "conflicting prior-stage policy contexts";;
    verify_inner v token (if prior is Some x then Some x else verified_prior) in
  match body {| verdict := new_verdict; readings := reads |} with
  | (Ok _, s) => (Ok (set_valid (verdict s)), readings s)
  | (Err e, s) => (Ok (push_check {| check := "rejected"; passed := false; detail := Failure e |} (verdict s)), readings s)
  | (Panic, s) => (Panic, readings s)
  | (NoFuel, s) => (NoFuel, readings s)
  end.

(** ** What acceptance means *)
(** While the verifier runs, its verdict is not valid and every recorded check passed. *)
Definition progress (s : Session) : Prop :=
  valid (verdict s) = false /\ Forall (fun c => passed c = true) (checks (verdict s)).
(** The results that a verdict carries, apart from the record of checks. *)
Definition results (v : AttestationVerdict) :=
  (platform_measurements v, runtime v, prior_stage_count v, gpu v, boot v, dm_verity v, uki v).
(** A step that adds passed checks and reads the clock, and nothing else. *)
Definition quiet (s s' : Session) : Prop :=
  progress s' /\ results (verdict s') = results (verdict s) /\ (readings s <= readings s')%nat.

Lemma quiet_refl s : progress s -> quiet s s.
Proof. done. Qed.
Lemma quiet_trans s1 s2 s3 : quiet s1 s2 -> quiet s2 s3 -> quiet s1 s3.
Proof. intros (_ & E1 & L1) (Hp & E2 & L2). split; [done|]. split; [congruence|lia]. Qed.
Lemma progress_quiet s s' : quiet s s' -> progress s'.
Proof. by intros []. Qed.

(** The rules for the parts: each starts in a state of progress and ends in one. *)
Lemma vsafe_require c m (Q : unit -> Session -> Prop) s :
  progress s -> (c = true -> Q tt s) -> vsafe (require c m) progress Q s.
Proof. apply vsafe_need. Qed.
Lemma vsafe_some_or {A} (o : option A) m (Q : A -> Session -> Prop) s :
  progress s -> (forall a, o = Some a -> Q a s) -> vsafe (some_or o m) progress Q s.
Proof. apply vsafe_some. Qed.
Lemma vsafe_pass name text (Q : unit -> Session -> Prop) s :
  progress s -> (forall s', quiet s s' -> readings s' = readings s -> Q tt s') -> vsafe (pass name text) progress Q s.
Proof.
  intros [Hv Hc] HQ. unfold pass. apply vsafe_modify, HQ; [|done]. split; [|done]. split; [done|]. cbn.
  apply Forall_app. split; [done|]. by apply Forall_singleton.
Qed.
Lemma vsafe_reading (Q : option N -> Session -> Prop) s :
  progress s -> (forall s', quiet s s' -> readings s' = S (readings s) -> Q (clock (readings s)) s') -> vsafe reading progress Q s.
Proof.
  intros Hp HQ. unfold reading. apply vsafe_bind, vsafe_state, vsafe_bind, vsafe_modify, vsafe_ret, HQ; [|done].
  split; [done|]. cbn. split; [done|lia].
Qed.
Lemma vsafe_now (Q : N -> Session -> Prop) s :
  progress s -> (forall t s', clock (readings s) = Some t -> quiet s s' -> readings s' = S (readings s) -> Q t s') ->
  vsafe trusted_now progress Q s.
Proof.
  intros Hp HQ. unfold trusted_now. apply vsafe_bind, vsafe_reading; [done|]. intros s' Hq Hr. apply vsafe_some; [by eapply progress_quiet|].
  intros t Ht. by apply HQ.
Qed.
Lemma vsafe_call {A} (r : res AttError A) (P : A -> Prop) (Q : A -> Session -> Prop) s :
  progress s -> safe r P -> (forall a, r = Ok a -> P a -> Q a s) -> vsafe (lift r) progress Q s.
Proof. intros Hp Hr HQ. apply vsafe_lift; [done|]. eapply safe_mono; [exact Hr|]. auto. Qed.

(** [vq]: the next step of a part, keeping the accumulated [quiet] fact [quiet s0 s]. *)
Ltac join_quiet :=
  match goal with
  | Ha : quiet ?a ?b, Hb : quiet ?b ?c |- _ => pose proof (quiet_trans _ _ _ Ha Hb); clear Ha Hb
  end.
Ltac have_progress := first [eassumption | eapply progress_quiet; eassumption].
Ltac vreq := apply vsafe_bind; apply vsafe_require; [have_progress|intro].
Ltac vsome a Ha := apply vsafe_bind; apply vsafe_some_or; [have_progress|intros a Ha].

Definition tick_of (s : Session) (t : N) : Prop := exists i, (readings s <= i)%nat /\ clock i = Some t.

Lemma blen_0' {A} (l : list A) : l = [] -> blen l = 0.
Proof. by intros ->. Qed.
(** A child linked to a verified ancestry. *)
Record linked (p : VerifiedPriorStages) (child : EatToken) : Prop := {
  ln_nonempty : stages p <> [] /\ previous_attestation child <> [];
  ln_suite : binding_suite child = 1 \/ binding_suite child = 2;
  ln_hash : hex_encode (previous_hash child) = immediate_predecessor_sha256 p;
  ln_value_x : hex_encode (value_x child) = pv_value_x p;
}.
Lemma check_child_safe p child s : progress s ->
  vsafe (check_child p child) progress (fun _ s' => quiet s s' /\ linked p child /\
    exists t, clock (readings s) = Some t /\ t <= freshness_deadline p) s.
Proof.
  intros Hp. unfold check_child. vreq. vreq. vreq. vreq. apply vsafe_bind, vsafe_now; [done|]. intros t s' Ht Hq Hr.
  apply vsafe_require; [have_progress|]. intros Hle. bools. split; [done|]. split; [|by exists t].
  split; [split; intros E%blen_0'; done|done|done|done].
Qed.

(** The CPU evidence of a platform, and the measurements and TPM registers it yields. *)
Inductive cpu_evidence (c : Config) (token : EatToken) (now : N) :
    Platform -> Values -> option AuthenticatedRegisters -> Prop :=
| evidence_direct p t ms :
    (exists i, clock i = Some t) ->
    admitted (platform_quote token) (binding_bytes token) t p (cfg_cpu_collateral c) (cfg_cpu_tcb_policy c) ms ->
    (p = Tdx -> cfg_google_tdx_verifier c = None) ->
    cpu_evidence c token now p (collect_map ms) None
| evidence_google g m col floor values :
    cfg_google_tdx_verifier c = Some g -> cfg_measurement c = Some m ->
    cfg_cpu_collateral c = Some (CollateralIntelTdx col) -> cfg_cpu_tcb_policy c = Some (PolicyIntelTdx floor) ->
    binding_suite token = 1 \/ binding_suite token = 2 ->
    tdx_answer g (platform_quote token) (report_data_64 token None) m col floor values ->
    cpu_evidence c token now Tdx values None
| evidence_azure e p col tcb t v h cl k ak der area a ms regs :
    cfg_azure_policy c = Some p -> cfg_cpu_collateral c = Some (CollateralAmdSnp col) ->
    cfg_cpu_tcb_policy c = Some (PolicyAmdSnp tcb) -> (exists i, clock i = Some t) ->
    evidence_from_json (platform_quote token) = Ok e ->
    azure_ok t e (report_data_64 token None) p col tcb v h cl k ak der area a ms ->
    match regs with Some r => azure_registers v = Ok r | None => cfg_boot c = None end ->
    cpu_evidence c token now AzureSnpVtpm (az_measurements v) regs
| evidence_aws e p t v d fields ms regs :
    aws_from_json (platform_quote token) = Ok e -> cfg_nitrotpm_policy c = Some p -> (exists i, clock i = Some t) ->
    admitted (snp_report e) (binding_bytes token) t SevSnp (cfg_cpu_collateral c) (cfg_cpu_tcb_policy c) ms ->
    get_range (snp_report e) 0x30 0x34 = Some [x00; x00; x00; x00] ->
    nitrotpm_genuine (nitrotpm_document e) (eat_nonce token) (Some (report_data_64 token None)) p now v d fields ->
    match regs with Some r => nitrotpm_registers v = Ok r | None => cfg_boot c = None end ->
    cpu_evidence c token now AwsSnpNitroTpm (insert_nitrotpm (collect_map ms) (nt_pcrs v)) regs.

Section CpuParts.
Context {CL : CborValueLaws C} {HL : Sha2Laws H}.

Lemma blen_report_data token : token_typed token -> blen (report_data_64 token None) = 64.
Proof.
  intros Ht. unfold report_data_64, second_commitment. rewrite blen_app. pose proof (ty_value_x _ Ht).
  assert (blen (binding_bytes token) = 32) as ->.
  { unfold binding_bytes, binding_bytes_v2, binding_bytes_v3. repeat case_match; apply blen_sha256. }
  unfold blen in *. rewrite length_take. lia.
Qed.

Lemma admission_call t p raw binding col pol (Q : Measurements -> Session -> Prop) s :
  progress s -> (forall ms now, t = Some now -> admitted raw binding now p col pol ms -> Q ms s) ->
  vsafe (lift (att_quote (verify_platform_quote_for_admission t p raw binding col pol))) progress Q s.
Proof.
  intros Hp HQ. eapply vsafe_call; [done|apply safe_map_err, admission_safe|]. intros ms _ (now & Ht & _ & Ha). eauto.
Qed.
Definition cpu_post (c : Config) (token : EatToken) (p : Platform) (now : N) (s : Session)
    (r : Values * option AuthenticatedRegisters) (s' : Session) : Prop :=
  quiet s s' /\ cpu_evidence c token now p r.1 r.2.

Lemma direct_values_safe c token p now s : progress s -> (p = Tdx -> cfg_google_tdx_verifier c = None) ->
  vsafe (direct_values c token p) progress (fun vs => cpu_post c token p now s (vs, None)) s.
Proof.
  intros Hp Hg. unfold direct_values. apply vsafe_bind, vsafe_reading; [done|]. intros s1 Hq _.
  apply vsafe_bind, admission_call; [have_progress|]. intros ms t Ht Ha. apply vsafe_ret. split; [done|].
  eapply evidence_direct; [by eexists|done|done].
Qed.
Lemma google_values_safe c g token now s : progress s -> cfg_google_tdx_verifier c = Some g ->
  vsafe (google_tdx_values c g token) progress (fun vs => cpu_post c token Tdx now s (vs, None)) s.
Proof.
  intros Hp Hg. unfold google_tdx_values. destruct (cfg_cpu_collateral c) as [[col|]|] eqn:Ec; try done.
  destruct (cfg_cpu_tcb_policy c) as [[floor|]|] eqn:Et; try done. vreq. vsome m Hm.
  apply vsafe_bind. eapply vsafe_call; [done|apply google_tdx_safe|]. intros values _ Hv.
  apply vsafe_bind, vsafe_pass; [done|]. intros s' Hq _. apply vsafe_ret. split; [done|].
  eapply evidence_google; try done. bools. done.
Qed.
Lemma evidence_json_safe raw : safe (evidence_from_json raw) (fun _ => True).
Proof.
  unfold evidence_from_json. pki. apply safe_bind, safe_ensure. intros _. apply safe_bind, safe_ok_or. intros e _.
  eapply safe_seq; [apply evidence_bounds_safe|]. done.
Qed.
Lemma registers_part {A} (b : bool) (r : res PkiError A) (Q : option A -> Session -> Prop) s :
  progress s -> safe r (fun _ => True) -> (forall o, (match o with Some a => r = Ok a | None => b = false end) -> Q o s) ->
  vsafe (if b then x ← lift (att_pki r); mret (Some x) else mret None) progress Q s.
Proof.
  intros Hp Hr HQ. destruct b; [|by apply vsafe_ret, HQ]. apply vsafe_bind. eapply vsafe_call; [done|apply safe_map_err, Hr|].
  intros a Ha _. apply vsafe_ret, HQ. att. by destruct r; simplify_eq/=.
Qed.
Lemma no_boot {A} (o : option A) : is_some o = false -> o = None.
Proof. by destruct o. Qed.
Lemma azure_registers_safe v : safe (azure_registers v) (fun _ => True).
Proof. apply safe_map_err. eapply safe_mono; [apply tpm_registers_safe|done]. Qed.
Lemma nitrotpm_registers_safe v : safe (nitrotpm_registers v) (fun _ => True).
Proof. apply safe_map_err. eapply safe_mono; [apply tpm_registers_safe|done]. Qed.
Lemma azure_values_safe c token now s : progress s -> token_typed token ->
  vsafe (azure_values c token) progress (cpu_post c token AzureSnpVtpm now s) s.
Proof.
  intros Hp Hty. unfold azure_values. destruct (cfg_cpu_collateral c) as [[|col]|] eqn:Ec; try done.
  destruct (cfg_cpu_tcb_policy c) as [[|tcb]|] eqn:Et; try done.
  apply vsafe_bind. eapply vsafe_call; [done|apply safe_map_err, evidence_json_safe|]. intros e He _. vsome p Hpol.
  apply vsafe_bind, vsafe_reading; [done|]. intros s1 Hq1 _. apply vsafe_bind.
  eapply vsafe_call; [have_progress|apply safe_map_err, azure_verify_safe; by apply blen_report_data|].
  intros v _ (t & h & cl & k & ak & der & area & a & ms & Ht & Hok). apply vsafe_bind.
  apply registers_part; [have_progress|apply azure_registers_safe|]. intros regs Hregs.
  apply vsafe_bind, vsafe_pass; [have_progress|]. intros s2 Hq2 _. join_quiet. apply vsafe_ret. split; [done|].
  eapply evidence_azure; try done; [by eexists|by apply map_err_Ok in He|]. destruct regs; [done|by apply no_boot].
Qed.
Lemma aws_json_safe raw : safe (aws_from_json raw) (fun _ => True).
Proof.
  unfold aws_from_json, aws_validate. att. apply safe_bind, safe_ensure. intros _. apply safe_bind, safe_ok_or. intros [[v r] d] _. wp. done.
Qed.
Lemma range_is (o : option bytes) w : (if o is Some v then bytes_eqb v w else false) = true -> o = Some w.
Proof. apply lookup_is. Qed.
Lemma aws_values_safe c token now s : progress s -> token_typed token ->
  vsafe (aws_values c token now) progress (cpu_post c token AwsSnpNitroTpm now s) s.
Proof.
  intros Hp Hty. unfold aws_values. apply vsafe_bind. eapply vsafe_call; [done|apply aws_json_safe|]. intros e He _.
  apply vsafe_bind, vsafe_reading; [done|]. intros s1 Hq1 _. apply vsafe_bind, admission_call; [have_progress|]. intros ms t Ht Ha.
  vreq. vsome p Hpol. apply vsafe_bind.
  eapply vsafe_call; [have_progress|apply safe_map_err, verify_nitrotpm_safe|]. intros v _ (d & fields & Hn). apply vsafe_bind.
  apply registers_part; [have_progress|apply nitrotpm_registers_safe|].
  intros regs Hregs. apply vsafe_bind, vsafe_pass; [have_progress|]. intros s2 Hq2 _. join_quiet. apply vsafe_ret. split; [done|].
  eapply evidence_aws; try done; [by eexists|by apply range_is|]. destruct regs; [done|by apply no_boot].
Qed.
Lemma cpu_values_safe c token p now s : progress s -> token_typed token ->
  vsafe (cpu_values c token p now) progress (cpu_post c token p now s) s.
Proof.
  intros Hp Hty. unfold cpu_values.
  assert (forall q, (q = Tdx -> cfg_google_tdx_verifier c = None) ->
    vsafe (values ← direct_values c token q; mret (values, None)) progress (cpu_post c token q now s) s) as Hdirect.
  { intros q Hq. eapply vsafe_seq; [by apply (direct_values_safe c token q now)|]. intros vs s' Hs. by apply vsafe_ret. }
  destruct p; [by apply Hdirect|by apply Hdirect| |by apply azure_values_safe|by apply aws_values_safe].
  destruct (cfg_google_tdx_verifier c) as [g|] eqn:Eg; [|by apply Hdirect].
  eapply vsafe_seq; [by apply (google_values_safe c g token now)|]. intros vs s' Hs. by apply vsafe_ret.
Qed.
End CpuParts.

(** ** Steps that change the results *)
(** From [s], a step that leaves a verdict with results [r]. *)
Definition stepped (s : Session) r (s' : Session) : Prop :=
  progress s' /\ results (verdict s') = r /\ (readings s <= readings s')%nat.
Lemma stepped_quiet s1 r s2 s3 : stepped s1 r s2 -> quiet s2 s3 -> stepped s1 r s3.
Proof. intros (_ & E1 & L1) (Hp & E2 & L2). split; [done|]. split; [congruence|lia]. Qed.
Lemma quiet_stepped s1 s2 r s3 : quiet s1 s2 -> stepped s2 r s3 -> stepped s1 r s3.
Proof. intros (_ & _ & L1) (Hp & E2 & L2). split; [done|]. split; [done|lia]. Qed.
Lemma stepped_trans s1 r s2 r' s3 : stepped s1 r s2 -> stepped s2 r' s3 -> stepped s1 r' s3.
Proof. intros (_ & _ & L1) (Hp & E2 & L2). split; [done|]. split; [done|lia]. Qed.
Lemma vsafe_set f r (Q : unit -> Session -> Prop) s :
  progress s -> valid (f (verdict s)) = valid (verdict s) -> checks (f (verdict s)) = checks (verdict s) ->
  results (f (verdict s)) = r -> (forall s', stepped s r s' -> Q tt s') -> vsafe (modify (on_verdict f) : VS unit) progress Q s.
Proof.
  intros [Hv Hc] Ev Ec Hr HQ. apply vsafe_modify, HQ. split; [|done]. split; cbn; [by rewrite Ev|by rewrite Ec].
Qed.
Ltac set_results := match goal with Hr : results ?v = _ |- results _ = _ => revert Hr; unfold results; intros [=]; cbn; congruence end.

(** ** The claims *)
Definition fresh (c : Config) (token : EatToken) (now : N) : Prop := iat token <= now /\ now - iat token <= cfg_max_age c.
Record claims_ok (c : Config) (token : EatToken) (now : N) (p : Platform) : Prop := {
  ck_nonce : cfg_nonce c = Some (eat_nonce token);
  ck_fresh : fresh c token now;
  ck_spki : tls_spki_hash token = sha256 (cfg_spki c);
  ck_value_x : cfg_value_x c = Some (value_x token);
  ck_platform : platform_enum token = Some p;
  ck_required q : cfg_platform c = Some q -> q = p;
  ck_azure : p = AzureSnpVtpm <-> is_some (cfg_azure_policy c) = true;
  ck_nitrotpm : p = AwsSnpNitroTpm <-> is_some (cfg_nitrotpm_policy c) = true;
}.
Lemma eqb_decide (b : bool) (Q : Prop) `{!Decision Q} : Bool.eqb b (bool_decide Q) = true -> (Q <-> b = true).
Proof. intros ->%Bool.eqb_prop. symmetry. apply bool_decide_eq_true. Qed.
Lemma fresh_true c token now : (iat token <=? now) && (now - iat token <=? cfg_max_age c) = true -> fresh c token now.
Proof. intros [Ha%N.leb_le Hb%N.leb_le]%andb_true_iff. done. Qed.
Lemma check_claims_safe c token now s : progress s ->
  vsafe (check_claims c token now) progress (fun p s' => s' = s /\ claims_ok c token now p) s.
Proof.
  intros Hp. unfold check_claims. vreq. vreq. vreq. vreq. vsome p Hplat. vreq. vreq. vreq. apply vsafe_ret. split; [done|].
  repeat match goal with E : bool_decide _ = true |- _ => apply bool_decide_eq_true in E
                    | E : bytes_eqb _ _ = true |- _ => apply bytes_eqb_eq in E
                    | E : Bool.eqb _ (bool_decide _) = true |- _ => apply eqb_decide in E end.
  split; try done; [by apply fresh_true|]. intros q Hq. rewrite Hq in *. by bools.
Qed.

(** ** The launch measurement and the commitment *)
(** The signed attributes forbid debugging; an SNP report is of VMPL 0. *)
Definition no_debug (c : Config) (token : EatToken) (p : Platform) (values : Values) : Prop :=
  match p with
  | Tdx => exists a, (if is_some (cfg_google_tdx_verifier c) then values !! lit "TD_ATTRIBUTES"
                      else get_range (platform_quote token) 168 176) = Some a /\
             blen a = 8 /\ N.testbit (le_to_N a) 0 = false
  | SevSnp => (exists a, get_range (platform_quote token) 8 16 = Some a /\ blen a = 8 /\ N.testbit (le_to_N a) 19 = false) /\
              get_range (platform_quote token) 0x30 0x34 = Some [x00; x00; x00; x00]
  | _ => True
  end.
Record measured (c : Config) (token : EatToken) (p : Platform) (values : Values) : Prop := {
  me_value : exists m, values !! measurement_name p = Some m /\ any_nonzero m = true /\
    (platform_measurement token = [] \/ platform_measurement token = m) /\ (forall e, cfg_measurement c = Some e -> e = m);
  me_commitment : binding_suite token <> 0 -> values !! commitment_name p = Some (report_data_64 token None);
  me_debug : no_debug c token p values;
}.
Lemma land_bit n i : (N.land n (N.shiftl 1 i) =? 0) = true -> N.testbit n i = false.
Proof.
  intros E%N.eqb_eq. assert (N.testbit (N.land n (N.shiftl 1 i)) i = false) as Hb by (rewrite E; apply N.bits_0).
  rewrite N.land_spec, N.shiftl_spec_high', N.sub_diag, andb_true_r in Hb by lia. done.
Qed.
Lemma le_u64_safe b (Q : N -> Session -> Prop) s :
  progress s -> (blen b = 8 -> Q (le_to_N b) s) -> vsafe (le_u64 b) progress Q s.
Proof. intros Hp HQ. unfold le_u64. vreq. apply vsafe_ret, HQ. by apply N.eqb_eq. Qed.
Lemma forbid_debug_safe c token p values s : progress s ->
  vsafe (forbid_debug c token p values) progress (fun _ s' => s' = s /\ no_debug c token p values) s.
Proof.
  intros Hp. unfold forbid_debug, no_debug. destruct p; try (by apply vsafe_ret).
  - vsome a Ha. apply vsafe_bind, le_u64_safe; [done|]. intros Hl. vreq. apply vsafe_require; [done|]. intros Hv. split; [done|].
    split; [|by apply range_is]. exists a. split; [done|]. split; [done|]. by apply land_bit.
  - apply vsafe_bind. destruct (is_some (cfg_google_tdx_verifier c)); apply vsafe_some_or; try done; intros a Ha;
      apply vsafe_bind, le_u64_safe; try done; intros Hl; apply vsafe_require; try done; intros Hb;
      (split; [done|]); exists a; (split; [done|]); split; try done; by apply (land_bit _ 0).
Qed.
Lemma guard_part (b : bool) (m : VS unit) (Q : Prop) s :
  progress s -> (b = true -> vsafe m progress (fun _ s' => s' = s /\ Q) s) -> (b = false -> Q) ->
  vsafe (if b then m else mret tt) progress (fun _ s' => s' = s /\ Q) s.
Proof. intros Hp Hm Hq. destruct b; [by apply Hm|]. apply vsafe_ret. split; [done|by apply Hq]. Qed.

Lemma check_measurement_safe c token p values s pm rt n g b d u :
  progress s -> results (verdict s) = (pm, rt, n, g, b, d, u) ->
  vsafe (check_measurement c token p values) progress (fun _ s' => measured c token p values /\
    stepped s (hex_encode <$> values, rt, n, g, b, d, u) s') s.
Proof.
  intros Hp Hr. unfold check_measurement. vsome m Hm. vreq. apply vsafe_bind.
  eapply vsafe_mono; [by apply forbid_debug_safe|]. intros [] s' [-> Hd].
  eapply (vsafe_seq _ _ _ (fun _ s' => s' = s /\ (platform_measurement token = [] \/ platform_measurement token = m))).
  { apply guard_part; [done| |].
    - intros _. apply vsafe_require; [done|]. intros E%bytes_eqb_eq. auto.
    - intros E%negb_false_iff%N.eqb_eq. left. by apply blen_0. }
  intros [] s' [-> Ht].
  eapply (vsafe_seq _ _ _ (fun _ s' => s' = s /\ (forall e, cfg_measurement c = Some e -> e = m))).
  { destruct (cfg_measurement c) as [e|]; [|by apply vsafe_ret]. apply vsafe_require; [done|]. intros E%bytes_eqb_eq. split; [done|]. congruence. }
  intros [] s' [-> He].
  eapply (vsafe_seq _ _ _ (fun _ s' => s' = s /\ (binding_suite token <> 0 -> values !! commitment_name p = Some (report_data_64 token None)))).
  { apply guard_part; [done| |].
    - intros _. apply vsafe_require; [done|]. intros E. split; [done|]. intros _. by apply range_is.
    - intros E%negb_false_iff%N.eqb_eq. done. }
  intros [] s' [-> Hc]. apply vsafe_bind. apply (vsafe_set _ (hex_encode <$> values, rt, n, g, b, d, u)); [done|done|done|set_results|]. intros s1 Hs1.
  apply vsafe_pass; [by destruct Hs1|]. intros s2 Hq _. split; [|by eapply stepped_quiet].
  split; [by exists m|done|done].
Qed.

(** ** GPU evidence *)
Inductive gpu_ok (v : AttestationVerifier) (token : EatToken) (now : N) : option VerifiedGpuBundle -> Prop :=
| gpu_absent : gpu_evidence token = [] -> cfg_require_gpu (config v) = false -> gpu_ok v token now None
| gpu_present verifier bundle g :
    binding_suite token = BINDING_SUITE_COMPOSITE -> gpu_verifier v = Some verifier ->
    gpu_bundle_read (gpu_evidence token) = Some (bundle, blen (gpu_evidence token)) ->
    gpu_verify verifier bundle (eat_nonce token) now = Ok g ->
    (forall google, cfg_google_gpu_verifier (config v) = Some google -> exists policy,
      cfg_gpu (config v) = Some policy /\ google_gpu_verify google bundle policy g (eat_nonce token) now = Ok tt) ->
    gpu_ok v token now (Some g).
Lemma check_gpu_safe {GL : GpuAppraiserLaws GA} v token now s pm rt n b d u :
  progress s -> results (verdict s) = (pm, rt, n, None, b, d, u) ->
  vsafe (check_gpu v token now) progress (fun _ s' => exists g, gpu_ok v token now g /\ stepped s (pm, rt, n, g, b, d, u) s') s.
Proof.
  intros Hp Hr. unfold check_gpu. destruct (N.eqb_spec (blen (gpu_evidence token)) 0) as [E%blen_0|E]; cbn [negb].
  { apply vsafe_require; [done|]. intros Hg%negb_true_iff. exists None. split; [by apply gpu_absent|]. by split. }
  vreq. vsome vf Hvf. apply vsafe_bind, vsafe_some_or; [done|]. intros [bundle pos] Hb. vreq. apply vsafe_bind.
  eapply vsafe_call; [done|apply gpu_verify_safe|]. intros g Hg _. apply vsafe_bind. apply (vsafe_set _ (pm, rt, n, Some g, b, d, u)); [done|done|done|set_results|].
  intros s1 Hs1. pose proof (proj1 Hs1) as Hp1.
  eapply (vsafe_seq _ _ _ (fun _ s' => quiet s1 s' /\ forall google, cfg_google_gpu_verifier (config v) = Some google -> exists policy,
    cfg_gpu (config v) = Some policy /\ google_gpu_verify google bundle policy g (eat_nonce token) now = Ok tt)).
  { destruct (cfg_google_gpu_verifier (config v)) as [google|]; [|by apply vsafe_ret]. vsome policy Hpol. apply vsafe_bind.
    eapply vsafe_call; [done|apply google_gpu_safe|]. intros [] Hgo _. apply vsafe_pass; [done|]. intros s2 Hq _. split; [done|].
    intros google' [= <-]. by exists policy. }
  intros [] s2 [Hq Hgo]. apply vsafe_pass; [have_progress|]. intros s3 Hq3 _. exists (Some g).
  split; [|by eapply stepped_quiet, quiet_trans]. bools. subst pos. eapply gpu_present; done.
Qed.

(** ** The boot log *)
Definition rtmrs_of (values : Values) (r0 r1 r2 r3 : bytes) : Prop :=
  values !! lit "RTMR0" = Some r0 /\ values !! lit "RTMR1" = Some r1 /\ values !! lit "RTMR2" = Some r2 /\
  values !! lit "RTMR3" = Some r3 /\ Forall (fun r => blen r = 48) [r0; r1; r2; r3].
(** The helper, when one is configured, replayed the consumed part of the log. *)
Definition google_replayed (c : Config) (b : bytes) (log : EventLog) (registers : list bytes) : Prop :=
  forall google, cfg_google_boot_verifier c = Some google ->
    exists req t, replay_request (take (N.to_nat (consumed_bytes log)) b) registers = Some req /\
      answered replay_response google req t /\ registers_verified t = 4.
Inductive boot_log (c : Config) (policy : BootPolicy) (token : EatToken) (p : Platform) (values : Values)
    (tpm : option AuthenticatedRegisters) : VerifiedBootLog -> option VerifiedRuntimeLog -> Prop :=
| boot_log_tdx r0 r1 r2 r3 parsed log :
    p = Tdx -> bp_runtime policy = None -> rtmrs_of values r0 r1 r2 r3 ->
    parse_tdx_ccel (boot_evidence token) default_limits = Ok parsed -> google_replayed c (boot_evidence token) parsed [r0; r1; r2; r3] ->
    Replay.verify parsed (AuthenticatedRegisters_tdx r0 r1 r2 r3) = Ok log ->
    boot_log c policy token p values tpm log None
| boot_log_runtime r0 r1 r2 r3 parsed log rt vrt :
    p = Tdx -> bp_runtime policy = Some rt -> rtmrs_of values r0 r1 r2 r3 ->
    parse_tdx_ccel_with_aael (boot_evidence token) default_limits = Ok parsed ->
    google_replayed c (boot_evidence token) parsed [r0; r1; r2; r3] ->
    verify_tdx_runtime parsed (AuthenticatedRegisters_tdx r0 r1 r2 r3) rt = Ok (log, vrt) ->
    boot_log c policy token p values tpm log (Some vrt)
| boot_log_tpm registers parsed log :
    p <> Tdx -> bp_runtime policy = None -> cfg_google_boot_verifier c = None -> tpm = Some registers ->
    parse_tcg2 (boot_evidence token) default_limits = Ok parsed -> Replay.verify parsed registers = Ok log ->
    boot_log c policy token p values tpm log None.
Inductive boot_ok (c : Config) (token : EatToken) (p : Platform) (values : Values) (tpm : option AuthenticatedRegisters) :
    option VerifiedRuntimeLog -> option VerifiedBootLog -> option DmVerityCommitment -> option VerifiedUki -> Prop :=
| boot_absent : cfg_boot c = None -> boot_evidence token = [] -> boot_ok c token p values tpm None None None None
| boot_present policy log rt dm uki :
    cfg_boot c = Some policy -> binding_suite token = BINDING_SUITE_COMPOSITE -> boot_evidence token <> [] ->
    boot_log c policy token p values tpm log rt ->
    (forall e, e ∈ bp_events policy -> exists d, hex_decode (be_digest e) = Some d /\
       verify_expected_digest log (be_event_index e) (be_algorithm e) d = Ok tt) ->
    match bp_dm_verity policy with
    | Some vp => exists root d, hex_decode (vp_root_digest vp) = Some root /\ dm = Some d /\
        verified_dm_verity log (vp_event_index vp) (vp_algorithm vp) (vp_profile vp) root = Ok d
    | None => dm = None
    end ->
    match bp_uki policy with
    | Some up => exists image u, cfg_uki c = Some image /\ uki = Some u /\ verify_uki log image up = Ok u
    | None => uki = None
    end ->
    boot_ok c token p values tpm rt (Some log) dm uki.

Section BootParts.
Context {HL : Sha2Laws H}.

Lemma rtmr_safe values i (Q : bytes -> Session -> Prop) s :
  progress s -> (forall r, values !! (lit "RTMR" ++ to_decimal i) = Some r -> blen r = 48 -> Q r s) ->
  vsafe (rtmr values i) progress Q s.
Proof. intros Hp HQ. unfold rtmr. vsome r Hr. vreq. apply vsafe_ret, HQ; [done|]. by apply N.eqb_eq. Qed.
Lemma consumed_bound b k limits aael log : EventLog.parse b k limits aael = Ok log -> consumed_bytes log <= blen b.
Proof.
  intros Hp%parse_sound. destruct (log_shape _ _ _ _ _ Hp) as (hdr & body & tail & -> & _ & _ & _ & _ & ->).
  rewrite !blen_app. lia.
Qed.
Lemma google_part c (b : bytes) parsed registers s : progress s -> consumed_bytes parsed <= blen b ->
  vsafe (if cfg_google_boot_verifier c is Some google then
           consumed ← lift (index_range b 0 (consumed_bytes parsed)); lift (replay_tdx google consumed registers);;
           pass "google_boot_replay" "Google go-eventlog matched all four authenticated RTMRs with event inference disabled"
         else mret tt) progress (fun _ s' => quiet s s' /\ google_replayed c b parsed registers) s.
Proof.
  intros Hp Hc. destruct (cfg_google_boot_verifier c) as [google|] eqn:Eg.
  2: { apply vsafe_ret. split; [done|]. intros g. by rewrite Eg. }
  rewrite index_range_slice by lia. apply vsafe_bind, vsafe_lift; [done|]. cbn [safe]. apply vsafe_bind.
  eapply vsafe_call; [done|apply replay_tdx_safe|]. intros [] _ Hr. apply vsafe_pass; [done|]. intros s' Hq _. split; [done|].
  intros g Hg. assert (google = g) as -> by congruence. revert Hr. unfold slice. by rewrite N.sub_0_r.
Qed.
Lemma tdx_boot_log_safe c policy token values tpm s n pm g b d u :
  progress s -> results (verdict s) = (pm, None, n, g, b, d, u) ->
  vsafe (tdx_boot_log c policy token values) progress (fun log s' => exists rt,
    boot_log c policy token Tdx values tpm log rt /\ stepped s (pm, rt, n, g, b, d, u) s') s.
Proof.
  intros Hp Hres. unfold tdx_boot_log.
  apply vsafe_bind, rtmr_safe; [done|]. intros r0 H0 L0. apply vsafe_bind, rtmr_safe; [done|]. intros r1 H1' L1.
  apply vsafe_bind, rtmr_safe; [done|]. intros r2 H2' L2. apply vsafe_bind, rtmr_safe; [done|]. intros r3 H3' L3.
  assert (rtmrs_of values r0 r1 r2 r3) as Hr by (split_and!; eauto using Forall_nil, Forall_cons).
  assert (forall aael, safe (att_boot (EventLog.parse (boot_evidence token) TdxCcel default_limits aael)) (fun _ => True)) as Hparse
    by (intros aael; apply safe_map_err, safe_parse).
  destruct (bp_runtime policy) as [rt|] eqn:Ert; cbn [is_some].
  - apply vsafe_bind. eapply vsafe_call; [done|apply Hparse|]. intros parsed Hpar%map_err_Ok _.
    eapply vsafe_seq; [apply google_part; [done|by eapply consumed_bound]|]. intros [] s1 [Hq1 Hgo]. apply vsafe_bind.
    eapply vsafe_call; [have_progress|apply safe_map_err, verify_tdx_runtime_returns; by eapply parse_wf|].
    intros [log vrt] Hv%map_err_Ok _. apply vsafe_bind.
    apply (vsafe_set _ (pm, Some vrt, n, g, b, d, u)); [have_progress|done|done| |].
    { destruct Hq1 as (_ & E & _). rewrite <- E in Hres. set_results. }
    intros s2 Hs2. apply vsafe_ret. exists (Some vrt). split; [by eapply boot_log_runtime|by eapply quiet_stepped].
  - apply vsafe_bind. eapply vsafe_call; [done|apply Hparse|]. intros parsed Hpar%map_err_Ok _.
    eapply vsafe_seq; [apply google_part; [done|by eapply consumed_bound]|]. intros [] s1 [Hq1 Hgo].
    eapply vsafe_call; [have_progress|apply safe_map_err, verify_returns; by eapply parse_wf|]. intros log Hv%map_err_Ok _.
    exists None. split; [by eapply boot_log_tdx|]. rewrite <- Hres. exact Hq1.
Qed.
Lemma tpm_boot_log_safe c policy token p values tpm s : progress s -> p <> Tdx ->
  vsafe (tpm_boot_log c policy token tpm) progress (fun log s' => s' = s /\ boot_log c policy token p values tpm log None) s.
Proof.
  intros Hp Hn. unfold tpm_boot_log. vreq. vreq. vsome regs Hregs. apply vsafe_bind.
  eapply vsafe_call; [done|apply safe_map_err, safe_parse|]. intros parsed Hpar%map_err_Ok _.
  eapply vsafe_call; [done|apply safe_map_err, verify_returns; by eapply parse_wf|]. intros log Hv%map_err_Ok _. split; [done|].
  eapply boot_log_tpm; try done; by apply no_boot, negb_true_iff.
Qed.
Lemma check_events_safe log l :
  safe (for_each (check_event log) tt l) (fun _ => forall e, e ∈ l -> exists d, hex_decode (be_digest e) = Some d /\
    verify_expected_digest log (be_event_index e) (be_algorithm e) d = Ok tt).
Proof.
  eapply safe_mono; [apply safe_for_all|].
  - intros e _. unfold check_event. att. apply safe_bind, safe_ok_or. intros d _. apply safe_map_err, expected_digest_returns.
  - intros [] _ Hl e He. specialize (Hl e He). unfold check_event in Hl. att. inv_res. eauto.
Qed.
Lemma check_boot_safe c token p values tpm s pm n g :
  progress s -> results (verdict s) = (pm, None, n, g, None, None, None) ->
  vsafe (check_boot c token p values tpm) progress (fun _ s' => exists rt b d u,
    boot_ok c token p values tpm rt b d u /\ stepped s (pm, rt, n, g, b, d, u) s') s.
Proof.
  intros Hp Hr. unfold check_boot. destruct (cfg_boot c) as [policy|] eqn:Eb.
  2: { apply vsafe_require; [done|]. intros E%N.eqb_eq%blen_0. exists None, None, None, None. by split; [apply boot_absent|]. }
  vreq. apply vsafe_bind.
  apply (vsafe_mono _ _ (fun log s' => exists rt, boot_log c policy token p values tpm log rt /\ stepped s (pm, rt, n, g, None, None, None) s')).
  { case_bool_decide as Ep; [subst p; by apply tdx_boot_log_safe|]. eapply vsafe_mono; [by apply tpm_boot_log_safe|].
    intros log s' [-> Hlog]. exists None. by split. }
  intros log s1 (rt & Hlog & Hp1 & Hr1 & L1). apply vsafe_bind. eapply vsafe_call; [done|apply check_events_safe|]. intros [] _ Hev.
  eapply (vsafe_seq _ _ _ (fun _ s' => exists d, stepped s1 (pm, rt, n, g, None, d, None) s' /\
    match bp_dm_verity policy with
    | Some vp => exists root x, hex_decode (vp_root_digest vp) = Some root /\ d = Some x /\
        verified_dm_verity log (vp_event_index vp) (vp_algorithm vp) (vp_profile vp) root = Ok x
    | None => d = None end)).
  { destruct (bp_dm_verity policy) as [vp|]; [|apply vsafe_ret; by exists None]. vsome root Hroot. apply vsafe_bind.
    eapply vsafe_call; [done|apply safe_map_err, verified_dm_verity_returns|]. intros x Hx%map_err_Ok _.
    apply (vsafe_set _ (pm, rt, n, g, None, Some x, None)); [done|done|done|set_results|]. intros s2 Hs2. exists (Some x). split; [done|]. eauto. }
  intros [] s2 (d & Hs2 & Hd). destruct Hs2 as (Hp2 & Hr2 & L2).
  eapply (vsafe_seq _ _ _ (fun _ s' => exists u, stepped s2 (pm, rt, n, g, None, d, u) s' /\
    match bp_uki policy with
    | Some up => exists image x, cfg_uki c = Some image /\ u = Some x /\ verify_uki log image up = Ok x
    | None => u = None end)).
  { destruct (bp_uki policy) as [up|]; [|apply vsafe_ret; by exists None]. vsome image Himage. apply vsafe_bind.
    eapply vsafe_call; [done|apply safe_map_err, verify_uki_returns|]. intros x Hx%map_err_Ok _. apply vsafe_bind.
    apply (vsafe_set _ (pm, rt, n, g, None, d, Some x)); [done|done|done|set_results|]. intros s3 Hs3.
    apply vsafe_pass; [by destruct Hs3|]. intros s4 Hq _. exists (Some x). split; [by eapply stepped_quiet|]. eauto. }
  intros [] s3 (u & Hs3 & Hu). destruct Hs3 as (Hp3 & Hr3 & L3). apply vsafe_bind.
  apply (vsafe_set _ (pm, rt, n, g, Some log, d, u)); [done|done|done|set_results|]. intros s4 Hs4.
  apply vsafe_pass; [by destruct Hs4|]. intros s5 Hq _. exists rt, (Some log), d, u. bools. split.
  - eapply boot_present; try done. intros E. rewrite E in *. done.
  - destruct (stepped_quiet _ _ _ _ Hs4 Hq) as (Hp5 & Hr5 & L5). split; [done|]. split; [done|lia].
Qed.
End BootParts.

(** ** Acceptance *)
(** The link to the earlier stages, and the time of its last check. *)
Definition prior_ok (token : EatToken) (prior : option VerifiedPriorStages) (count : N) : Prop :=
  match prior with
  | Some p => linked p token /\ count = blen (stages p)
  | None => previous_attestation token = [] /\ count = 0
  end.
(** Everything that an accepted token satisfies; [now] and [finished] are readings of the
    clock at the start and at the end of the appraisal. *)
Record appraised (v : AttestationVerifier) (token : EatToken) (prior : option VerifiedPriorStages) (vd : AttestationVerdict)
    (now finished : N) (p : Platform) (values : Values) (tpm : option AuthenticatedRegisters) : Prop := {
  ap_shape : validate_shape token = Ok tt;
  ap_prior : prior_ok token prior (prior_stage_count vd);
  ap_claims : claims_ok (config v) token now p;
  ap_finished : fresh (config v) token finished;
  ap_times : exists i j, (i < j)%nat /\ clock i = Some now /\ clock j = Some finished /\
    (forall q, prior = Some q -> exists k t, (j < k)%nat /\ clock k = Some t /\ t <= freshness_deadline q);
  ap_cpu : cpu_evidence (config v) token now p values tpm;
  ap_measured : measured (config v) token p values;
  ap_measurements : platform_measurements vd = hex_encode <$> values;
  ap_gpu : gpu_ok v token now (gpu vd);
  ap_boot : boot_ok (config v) token p values tpm (runtime vd) (boot vd) (dm_verity vd) (uki vd);
}.
Definition accepted (v : AttestationVerifier) (token : EatToken) (prior : option VerifiedPriorStages) (vd : AttestationVerdict) : Prop :=
  exists now finished p values tpm, appraised v token prior vd now finished p values tpm.
Lemma appraised_results v token prior vd vd' now finished p values tpm :
  results vd = results vd' -> appraised v token prior vd now finished p values tpm -> appraised v token prior vd' now finished p values tpm.
Proof. unfold results. intros [= E1 E2 E3 E4 E5 E6 E7] []. split; try done; congruence. Qed.

Section Acceptance.
Context {CL : CborValueLaws C} {HL : Sha2Laws H} {GL : GpuAppraiserLaws GA}.

Lemma check_prior_safe token prior s pm rt g b d u : progress s -> results (verdict s) = (pm, rt, 0, g, b, d, u) ->
  vsafe (check_prior token prior) progress (fun _ s' => exists n, prior_ok token prior n /\ stepped s (pm, rt, n, g, b, d, u) s') s.
Proof.
  intros Hp Hr. unfold check_prior. destruct prior as [q|].
  - vreq. eapply vsafe_seq; [by apply check_child_safe|]. intros [] s1 (Hq & Hl & _). apply vsafe_bind.
    apply (vsafe_set _ (pm, rt, blen (stages q), g, b, d, u)); [have_progress|done|done| |].
    { destruct Hq as (_ & E & _). rewrite <- E in Hr. set_results. }
    intros s2 Hs2. apply vsafe_pass; [by destruct Hs2|]. intros s3 Hq3 _. eexists. split; [by split|].
    by eapply stepped_quiet; [eapply quiet_stepped|].
  - apply vsafe_require; [done|]. intros E%N.eqb_eq%blen_0. exists 0. by split.
Qed.
Definition start : AttestationVerdict -> Prop := fun vd => results vd = results new_verdict.
Lemma verify_inner_safe v token prior s : progress s -> start (verdict s) -> token_typed token ->
  vsafe (verify_inner v token prior) progress (fun _ s' => accepted v token prior (verdict s') /\ progress s' /\
    (readings s <= readings s')%nat) s.
Proof.
  intros Hp Hst Hty. unfold verify_inner. apply vsafe_bind. eapply vsafe_call; [done|apply safe_map_err, validate_shape_safe|].
  intros [] Hshape%map_err_Ok _. eapply vsafe_seq; [eapply check_prior_safe; [done|exact Hst]|]. intros [] s1 (n & Hn & Hp1 & Hr1 & L1).
  apply vsafe_bind, vsafe_now; [done|]. intros now s2 Hnow Hq2 R2. pose proof (progress_quiet _ _ Hq2) as Hp2.
  eapply vsafe_seq; [by apply check_claims_safe|]. intros p s' [-> Hcl].
  eapply vsafe_seq; [by apply cpu_values_safe|]. intros [values tpm] s3 [Hq3 Hcpu]. cbn [fst snd] in Hcpu.
  pose proof (quiet_trans _ _ _ Hq2 Hq3) as (Hp3 & Hr3 & _). rewrite Hr1 in Hr3. destruct Hq3 as (_ & _ & L3).
  eapply vsafe_seq; [by eapply check_measurement_safe|]. intros [] s4 (Hme & Hp4 & Hr4 & L4).
  eapply vsafe_seq; [by eapply check_gpu_safe|]. intros [] s5 (g & Hg & Hp5 & Hr5 & L5).
  eapply vsafe_seq; [by eapply check_boot_safe|]. intros [] s6 (rt & b & d & u & Hb & Hp6 & Hr6 & L6).
  apply vsafe_bind, vsafe_now; [done|]. intros finished s7 Hfin Hq7 R7. pose proof (progress_quiet _ _ Hq7) as Hp7. vreq.
  eapply (vsafe_mono _ _ (fun _ s' => quiet s7 s' /\ forall q, prior = Some q -> exists k t,
            (readings s6 < k)%nat /\ clock k = Some t /\ t <= freshness_deadline q)).
  { destruct prior as [q|]; [|by apply vsafe_ret]. eapply vsafe_mono; [by apply check_child_safe|].
    intros [] s8 (Hq8 & _ & t & Ht & Hle). split; [done|]. intros q' [= <-]. exists (readings s7), t. split; [lia|done]. }
  intros [] s8 [(Hp8 & Hr8 & L8) Hdead]. destruct Hq7 as (_ & Hr7 & L7). rewrite Hr7, Hr6 in Hr8. unfold results in Hr8.
  injection Hr8 as Em Ert En Eg Eb Ed Eu. split; [|split; [done|lia]]. exists now, finished, p, values, tpm. subst.
  split; try done; [by apply fresh_true|]. exists (readings s1), (readings s6). split; [lia|]. done.
Qed.

(** A rejection: the checks that passed, then the error. *)
Definition rejected (vd : AttestationVerdict) : Prop :=
  valid vd = false /\ exists e l, checks vd = l ++ [{| check := "rejected"; passed := false; detail := Failure e |}] /\
    Forall (fun c => passed c = true) l.
(** The context of earlier stages that applies to a token. *)
Definition context_ok (ancestry : PriorStagePolicy -> bytes -> VerifiedPriorStages -> Prop) (v : AttestationVerifier)
    (token : EatToken) (given prior : option VerifiedPriorStages) : Prop :=
  match cfg_prior_stage_policy (config v) with
  | Some q => given = None /\ exists x, prior = Some x /\ ancestry q (previous_attestation token) x
  | None => prior = given
  end.
(** What the verifier promises of the verdict it returns. *)
Definition verdict_ok (ancestry : PriorStagePolicy -> bytes -> VerifiedPriorStages -> Prop) (v : AttestationVerifier)
    (token : EatToken) (given : option VerifiedPriorStages) (vd : AttestationVerdict) : Prop :=
  rejected vd \/
  (valid vd = true /\ Forall (fun c => passed c = true) (checks vd) /\
   exists prior, context_ok ancestry v token given prior /\ accepted v token prior vd).

Lemma verify_internal_ok ancestry verify_prior v token given reads :
  token_typed token ->
  (forall q s, cfg_prior_stage_policy (config v) = Some q -> progress s ->
     vsafe (verify_prior q (previous_attestation token)) progress
       (fun x s' => quiet s s' /\ ancestry q (previous_attestation token) x) s) ->
  exists vd n, verify_internal_with verify_prior v token given reads = (Ok vd, n) /\
    verdict_ok ancestry v token given vd /\ (valid vd = true -> (reads <= n)%nat).
Proof.
  intros Hty Hprior. unfold verify_internal_with.
  match goal with |- context [match ?body _ with _ => _ end] =>
    assert (vsafe body progress (fun _ s' => (exists prior, context_ok ancestry v token given prior /\
      accepted v token prior (verdict s')) /\ progress s' /\ (reads <= readings s')%nat)
      {| verdict := new_verdict; readings := reads |}) as Hbody end.
  { assert (progress {| verdict := new_verdict; readings := reads |}) as Hp by (split; [done|by apply Forall_nil]).
    eapply (vsafe_seq _ _ _ (fun o s' => quiet {| verdict := new_verdict; readings := reads |} s' /\
      match cfg_prior_stage_policy (config v) with
      | Some q => exists x, o = Some x /\ ancestry q (previous_attestation token) x
      | None => o = None end)).
    { destruct (cfg_prior_stage_policy (config v)) as [q|] eqn:Eq; [|by apply vsafe_ret].
      eapply vsafe_seq; [by apply Hprior|]. intros x s' [Hq Hx]. apply vsafe_ret. split; [done|]. by exists x. }
    intros o s1 [(Hp1 & Hr1 & L1) Ho]. vreq.
    eapply vsafe_mono; [by apply verify_inner_safe|]. intros [] s2 (Hacc & Hp2 & L2). split; [|split; [done|cbn in *; lia]].
    eexists. split; [|exact Hacc]. unfold context_ok. destruct (cfg_prior_stage_policy (config v)) as [q|].
    - destruct Ho as (x & -> & Hx). destruct given; [done|]. split; [done|]. by exists x.
    - subst o. by destruct given. }
  unfold vsafe in Hbody. match goal with |- context [match ?c with _ => _ end] => destruct c as [[[]|e| |] s'] end; try done.
  - destruct Hbody as ((prior & Hctx & now & fin & p & values & tpm & Hacc) & [_ Hc] & Lr). eexists _, _. split; [done|]. split; [|done].
    right. split; [done|]. split; [done|]. exists prior. split; [done|]. exists now, fin, p, values, tpm.
    eapply appraised_results; [|exact Hacc]. done.
  - destruct Hbody as [Hv Hc]. eexists _, _. split; [done|]. split; [|cbn; congruence]. left. split; [done|]. by exists e, (checks (verdict s')).
Qed.
End Acceptance.

(** ** Verifiers that can be built *)
(** What a configuration must pin, whoever writes it. *)
Record config_ok (c : Config) : Prop := {
  co_nonce : cfg_nonce c <> None;
  co_value_x : exists x, cfg_value_x c = Some x /\ any_nonzero x = true;
  co_measurement : exists m, cfg_measurement c = Some m /\ blen m = 48 /\ any_nonzero m = true;
  co_spki : 0 < blen (cfg_spki c) <= 16384 /\ spki_from_der (cfg_spki c) = true;
  co_age : 1 <= cfg_max_age c <= 86400;
  co_boot p : cfg_boot c = Some p -> 1 <= blen (bp_events p) <= 1024 /\ forall e, e ∈ bp_events p ->
    be_identity e <> [] /\ exists d, hex_decode (be_digest e) = Some d /\ (blen d = 32 \/ blen d = 48 \/ blen d = 64);
  co_uki : (exists p, cfg_boot c = Some p /\ bp_uki p <> None) <-> cfg_uki c <> None;
  co_image image : cfg_uki c = Some image -> 1 <= blen image <= MAX_UKI_BYTES;
  co_google_boot : cfg_google_boot_verifier c <> None -> cfg_boot c <> None;
  co_google_tdx : cfg_google_tdx_verifier c <> None -> cfg_platform c = Some Tdx /\
    (exists col, cfg_cpu_collateral c = Some (CollateralIntelTdx col)) /\
    exists n, cfg_cpu_tcb_policy c = Some (PolicyIntelTdx n) /\ 1 <= n;
  co_google_gpu : cfg_google_gpu_verifier c <> None -> cfg_gpu c <> None;
  co_azure : cfg_platform c = Some AzureSnpVtpm <-> cfg_azure_policy c <> None;
  co_nitrotpm : cfg_platform c = Some AwsSnpNitroTpm <-> cfg_nitrotpm_policy c <> None;
  co_amd : cfg_platform c = Some AzureSnpVtpm \/ cfg_platform c = Some AwsSnpNitroTpm ->
    (exists col, cfg_cpu_collateral c = Some (CollateralAmdSnp col)) /\ exists p, cfg_cpu_tcb_policy c = Some (PolicyAmdSnp p);
}.
(** A verifier: its configuration is complete, and GPU evidence is required exactly when
    there is an inventory policy, which the GPU verifier was made from. *)
Record verifier_ok (v : AttestationVerifier) : Prop := {
  vo_config : config_ok (config v);
  vo_gpu : match cfg_gpu (config v) with
           | Some p => cfg_require_gpu (config v) = true /\ exists g, gpu_verifier v = Some g /\ gpu_new p = Ok g
           | None => cfg_require_gpu (config v) = false /\ gpu_verifier v = None
           end;
}.
(** [build] changes the configuration only by requiring GPU evidence. *)
Definition requiring_gpu (c : Config) : Config := {|
  cfg_nonce := cfg_nonce c; cfg_spki := cfg_spki c; cfg_value_x := cfg_value_x c; cfg_platform := cfg_platform c;
  cfg_measurement := cfg_measurement c; cfg_cpu_collateral := cfg_cpu_collateral c;
  cfg_cpu_tcb_policy := cfg_cpu_tcb_policy c; cfg_azure_policy := cfg_azure_policy c;
  cfg_nitrotpm_policy := cfg_nitrotpm_policy c; cfg_max_age := cfg_max_age c;
  cfg_require_gpu := cfg_require_gpu c || is_some (cfg_gpu c);
  cfg_boot := cfg_boot c; cfg_uki := cfg_uki c; cfg_google_boot_verifier := cfg_google_boot_verifier c;
  cfg_google_tdx_verifier := cfg_google_tdx_verifier c; cfg_google_gpu_verifier := cfg_google_gpu_verifier c;
  cfg_prior_stage_policy := cfg_prior_stage_policy c; cfg_gpu := cfg_gpu c |}.

Lemma is_some_true {A} (o : option A) : is_some o = true <-> o <> None.
Proof. by destruct o. Qed.
Lemma is_some_false {A} (o : option A) : is_some o = false <-> o = None.
Proof. by destruct o. Qed.
Lemma intel_given o : intel_collateral o = true -> exists col, o = Some (CollateralIntelTdx col).
Proof. destruct o as [[]|]; try done. eauto. Qed.
Lemma amd_given o : amd_collateral_given o = true -> exists col, o = Some (CollateralAmdSnp col).
Proof. destruct o as [[]|]; try done. eauto. Qed.
Lemma amd_tcb o : amd_tcb_given o = true -> exists p, o = Some (PolicyAmdSnp p).
Proof. destruct o as [[]|]; try done. eauto. Qed.
Lemma floor_given o : intel_floor o = true -> exists n, o = Some (PolicyIntelTdx n) /\ 1 <= n.
Proof. destruct o as [[n|]|]; try done. intros Hn%N.leb_le. eauto. Qed.

(** The vendor part of [config_ok]. *)
Record vendor_ok (c : Config) : Prop := {
  vn_google_tdx : cfg_google_tdx_verifier c <> None -> cfg_platform c = Some Tdx /\
    (exists col, cfg_cpu_collateral c = Some (CollateralIntelTdx col)) /\
    exists n, cfg_cpu_tcb_policy c = Some (PolicyIntelTdx n) /\ 1 <= n;
  vn_google_gpu : cfg_google_gpu_verifier c <> None -> cfg_gpu c <> None;
  vn_azure : cfg_platform c = Some AzureSnpVtpm <-> cfg_azure_policy c <> None;
  vn_nitrotpm : cfg_platform c = Some AwsSnpNitroTpm <-> cfg_nitrotpm_policy c <> None;
  vn_amd : cfg_platform c = Some AzureSnpVtpm \/ cfg_platform c = Some AwsSnpNitroTpm ->
    (exists col, cfg_cpu_collateral c = Some (CollateralAmdSnp col)) /\ exists p, cfg_cpu_tcb_policy c = Some (PolicyAmdSnp p);
}.
(** An optional check, and what it leaves. *)
Lemma safe_when (b : bool) (m : res AttError unit) (P : Prop) :
  (b = true -> safe m (fun _ => P)) -> safe (if b then m else Ok tt) (fun _ => b = true -> P).
Proof. destruct b; intros Hm; [|done]. eapply safe_mono; [by apply Hm|]. auto. Qed.
Lemma safe_option {A} (o : option A) (f : A -> res AttError unit) (P : A -> Prop) :
  (forall a, o = Some a -> safe (f a) (fun _ => P a)) ->
  safe (if o is Some a then f a else Ok tt) (fun _ => forall a, o = Some a -> P a).
Proof. destruct o as [a|]; intros Hf; [|done]. eapply safe_mono; [by apply Hf|]. intros [] _ Hx b Hb. by simplify_eq. Qed.
Lemma build_platform_safe c : safe (build_platform c) (fun _ => vendor_ok c).
Proof.
  unfold build_platform. att. eapply safe_seq.
  { apply safe_when. intros _. apply safe_bind, safe_ensure. intros Hp%bool_decide_eq_true. apply safe_ensure.
    intros [Hc%intel_given Hf%floor_given]%andb_true_iff. exact (conj Hp (conj Hc Hf)). }
  intros [] _ Hgt. apply safe_bind, safe_ensure. intros Hgg. eapply safe_seq.
  { apply (safe_option _ _ (fun _ => cfg_platform c = Some AzureSnpVtpm)). intros p _. apply safe_bind, safe_ensure.
    intros Hp%bool_decide_eq_true. apply safe_map_err. eapply safe_mono; [apply azure_policy_safe|done]. }
  intros [] _ Haz. eapply safe_seq.
  { apply (safe_option _ _ (fun _ => cfg_platform c = Some AwsSnpNitroTpm)). intros p _. apply safe_bind, safe_ensure.
    intros Hp%bool_decide_eq_true. apply safe_map_err. eapply safe_mono; [apply NitroTpm.policy_safe|done]. }
  intros [] _ Hnt. eapply safe_seq.
  { apply safe_when. intros _. apply safe_ensure. intros [Hc%amd_given Ht%amd_tcb]%andb_true_iff. exact (conj Hc Ht). }
  intros [] _ Hamd. apply safe_bind, safe_ensure. intros Haz'. apply safe_ensure. intros Hnt'.
  assert (forall q, negb (bool_decide (cfg_platform c = Some q)) = true -> cfg_platform c <> Some q) as Hne
    by (intros q Hq%negb_true_iff%bool_decide_eq_false; exact Hq).
  split.
  - by intros Hg%is_some_true%Hgt.
  - intros Hg%is_some_true. rewrite Hg in Hgg. by apply is_some_true.
  - split; [|destruct (cfg_azure_policy c) as [p|]; [intros _; by apply (Haz p)|done]]. intros Hp.
    apply orb_true_iff in Haz' as [Hn%Hne|Ha%is_some_true]; done.
  - split; [|destruct (cfg_nitrotpm_policy c) as [p|]; [intros _; by apply (Hnt p)|done]]. intros Hp.
    apply orb_true_iff in Hnt' as [Hn%Hne|Ha%is_some_true]; done.
  - intros Hp. apply Hamd. destruct Hp as [-> | ->]; rewrite ?(bool_decide_eq_true_2 _ eq_refl), ?orb_true_r; done.
Qed.
Lemma check_boot_policy_safe p :
  safe (check_boot_policy p) (fun _ => 1 <= blen (bp_events p) <= 1024 /\ forall e, e ∈ bp_events p ->
    be_identity e <> [] /\ exists d, hex_decode (be_digest e) = Some d /\ (blen d = 32 \/ blen d = 48 \/ blen d = 64)).
Proof.
  unfold check_boot_policy. eapply safe_seq.
  { apply (safe_option _ _ (fun _ => True)). intros rt _. apply safe_map_err, policy_returns. }
  intros [] _ _. att. apply safe_bind, safe_ensure. intros Hl. bools. eapply safe_seq.
  { apply safe_for_all. intros e _. unfold check_boot_event. att. eapply (safe_seq _ _ (fun _ => True)); [|intros; by apply safe_ensure].
    destruct (blen (be_identity e) =? 0); [done|]. apply safe_bind, safe_ok_or. done. }
  intros [] _ Hev. eapply safe_mono; [apply (safe_option _ _ (fun _ => True)); intros u _; apply safe_map_err, uki_policy_returns|].
  intros [] _ _. split; [lia|]. intros e He. specialize (Hev e He). unfold check_boot_event in Hev. att.
  destruct (N.eqb_spec (blen (be_identity e)) 0) as [Ei|Ei]; [by inv_res|]. split; [intros E; by rewrite E in Ei|].
  destruct (hex_decode (be_digest e)) as [d|]; [|by inv_res]. exists d. split; [done|]. inv_res.
  rewrite !orb_true_iff, !N.eqb_eq in *. tauto.
Qed.
Lemma validate_spki_safe spki : safe (validate_spki spki) (fun _ => 0 < blen spki <= 16384 /\ spki_from_der spki = true).
Proof. unfold validate_spki. att. apply safe_bind, safe_ensure. intros Hl. bools. apply safe_ensure. intros Hd. split; [lia|done]. Qed.
Lemma gpu_part_safe {GL : GpuAppraiserLaws GA} (o : option GpuPolicy) :
  safe (if o is Some p then v ← gpu_new p; Ok (Some v) else Ok None) (fun g =>
    match o with Some p => exists x, g = Some x /\ gpu_new p = Ok x | None => g = None end).
Proof. destruct o as [p|]; [|done]. eapply safe_seq; [apply gpu_new_safe|]. intros x Hx _. by exists x. Qed.
Lemma build_with_safe {GL : GpuAppraiserLaws GA} validate (PV : PriorStagePolicy -> Prop) c :
  (forall p, cfg_prior_stage_policy c = Some p -> safe (validate p) (fun _ => PV p)) ->
  safe (build_with validate c) (fun v => verifier_ok v /\ config v = requiring_gpu c /\
    forall p, cfg_prior_stage_policy c = Some p -> PV p).
Proof.
  intros Hval. unfold build_with. eapply safe_seq; [apply build_platform_safe|]. intros [] _ Hvn.
  eapply safe_seq; [by apply safe_option|]. intros [] _ Hpv.
  att. apply safe_bind, safe_ensure. intros [Hnonce%is_some_true Hvx]%andb_true_iff. apply safe_bind, safe_ensure. intros Hm.
  eapply safe_seq; [apply validate_spki_safe|]. intros [] _ Hspki. apply safe_bind, safe_ensure. intros Hage. bools.
  eapply safe_seq; [apply safe_option; intros p _; apply check_boot_policy_safe|]. intros [] _ Hboot.
  apply safe_bind, safe_ensure. intros Hgb. apply safe_bind, safe_ensure. intros Hu%Bool.eqb_prop. eapply safe_seq.
  { apply (safe_option _ _ (fun image => 1 <= blen image <= MAX_UKI_BYTES)). intros image _. apply safe_ensure. intros Hi.
    apply andb_true_iff in Hi as [Hz%negb_true_iff%N.eqb_neq Hi%N.leb_le]. lia. }
  intros [] _ Himage. apply safe_bind, safe_ensure. intros Hrg. eapply safe_seq; [apply gpu_part_safe|]. intros g _ Hg. cbn [safe].
  split; [|by split]. destruct Hvn. split; cbn.
  - split; cbn; try done; try lia.
    + destruct (cfg_value_x c) as [x|]; [|done]. by exists x.
    + destruct (cfg_measurement c) as [m|]; [|done]. exists m. by apply andb_true_iff in Hm as [?%N.eqb_eq ?].
    + rewrite <- is_some_true, <- Hu. destruct (cfg_boot c) as [p|]; [|naive_solver].
      rewrite is_some_true. naive_solver.
    + intros Hn%is_some_true. rewrite Hn in Hgb. by apply is_some_true.
  - destruct (cfg_gpu c) as [p|]; cbn in *; [rewrite orb_true_r; destruct Hg as (x & -> & Hx); eauto|].
    rewrite orb_false_r in *. split; [|done]. destruct (cfg_require_gpu c); done.
Qed.
End Attestation.

(** The same steps, for the clients of the verifier. *)
Ltac have_progress := first [eassumption | eapply progress_quiet; eassumption].
Ltac vreq := apply vsafe_bind; apply vsafe_require; [have_progress|intro].
Ltac vsome a Ha := apply vsafe_bind; apply vsafe_some_or; [have_progress|intros a Ha].
