(* ===== verification/Chain.v ===== *)
(** * Chain: verified build ancestry of [src/v2/src/attestation_chain.rs]

    A token may name the token of an earlier build stage, which may name another.  The
    relying party enrols a policy for each stage: the digest of the exact receipt, the
    identities of source and artifact, nonce, key, Value X and platform.  A chain is
    admitted when the receipts are exactly the enrolled ones, nothing precedes the oldest,
    and every stage passes the verifier of [Attestation], linked to the stages before it.

    [build] and [verify] of [attestation.rs] close the recursion between the two files:
    the verifier of a stage has no policy for stages of its own. *)
From S2P Require Import Prelude Bytes Text Crypto Boot Aael EventLog Replay CommandLine Runtime Uki UkiExecution UkiVerify Eat Pki Crl Pem TdxQuote SnpQuote NitroQuote SnpCollateral TdxCollateral QuoteVerify NitroTpm Azure BootSafe Verdict Google Attestation.

Definition MAX_PRIOR_STAGES : N := 8.
Definition MAX_STAGE_RECEIPT_BYTES : N := 8 * 1024 * 1024.
Definition MAX_DECODED_CHAIN_BYTES : N := 32 * 1024 * 1024.

Definition fixed (n : N) (input : bytes) : res AttError bytes :=
  att_need (blen input =? n * 2) "prior-stage field requires fixed-size hex";;
  att_some (hex_decode input) "invalid prior-stage hex".
Definition bounded_hex (input : bytes) (max : N) : res AttError bytes :=
  att_need (negb (blen input =? 0) && (blen input mod 2 =? 0) && (blen input / 2 <=? max)) "prior-stage field size outside limit";;
  att_some (hex_decode input) "invalid prior-stage hex".
Definition in_stage {A} (name : bytes) (r : res AttError A) : res AttError A := map_err (InStage name) r.

Section Chain.
Context `{X : X509} `{K : CpuCrypto} `{H : Sha2} `{D : Kds} `{C : CborValues} `{J : IntelDocs} `{R : DerPrims}.
Context `{L : AzureLibs} `{B : Ciborium} `{Codec : CborCodec} `{G : GoogleHelper} `{GA : GpuAppraiser} `{TF : TokenFormats}.
Context (clock : nat -> option N).
Notation VS := (V AttError Session).

(** ** Stage policies *)
Definition nonzero_pin (_ : unit) (p : N * bytes) : res AttError unit :=
  data ← fixed p.1 p.2; att_need (any_nonzero data) "prior-stage pin must be nonzero".
Definition validate_amd_policy (e : PriorStagePolicyEntry) : res AttError unit :=
  att_need (amd_collateral_given (ps_cpu_collateral e)) "SNP stage requires independently supplied AMD collateral";;
  match ps_cpu_tcb_policy e with
  | Some (PolicyAmdSnp p) => att_pki (policy_validate p)
  | _ => Err (Msg "SNP stage requires independent AMD TCB floors")
  end.
Definition PriorStagePolicyEntry_validate (e : PriorStagePolicyEntry) : res AttError unit :=
  att_need (negb (blen (ps_name e) =? 0) && (blen (ps_name e) <=? 128) && negb (existsb char_is_control (chars (ps_name e))))
    "invalid prior-stage policy name";;
  (* the array of pins is built before the first is examined *)
  for_each (fun _ p => fixed p.1 p.2;; Ok tt) tt
    [(32, ps_receipt_sha256 e); (48, ps_source_hash e); (48, ps_artifact_hash e); (48, ps_expected_value_x e);
     (48, ps_expected_platform_measurement e)];;
  for_each nonzero_pin tt
    [(32, ps_receipt_sha256 e); (48, ps_source_hash e); (48, ps_artifact_hash e); (48, ps_expected_value_x e);
     (48, ps_expected_platform_measurement e)];;
  fixed 32 (ps_expected_nonce e);;
  att_need ((1 <=? ps_max_age_secs e) && (ps_max_age_secs e <=? 86400)) "prior-stage max age must be 1..86400 seconds";;
  bounded_hex (ps_tls_spki_der e) (16 * 1024);;
  att_need (Bool.eqb (is_some (ps_azure_policy e)) (bool_decide (ps_expected_platform e = AzureSnpVtpm)))
    "Azure prior stage requires a matching independent Azure policy; other platforms cannot use it";;
  (if ps_azure_policy e is Some p then att_pki (AzureCompositePolicy_validate p) else Ok tt);;
  att_need (Bool.eqb (is_some (ps_nitrotpm_policy e)) (bool_decide (ps_expected_platform e = AwsSnpNitroTpm)))
    "AWS SNP NitroTPM prior stage requires a matching independent NitroTPM policy; other platforms cannot use it";;
  (if ps_nitrotpm_policy e is Some p then att_pki (NitroTpmPolicy_validate p) else Ok tt);;
  match ps_expected_platform e with
  | Nitro =>
    att_need (negb (is_some (ps_cpu_collateral e)) && negb (is_some (ps_cpu_tcb_policy e)))
      "Nitro stage cannot use Intel/AMD collateral or TCB policy"
  | Tdx =>
    att_need (intel_collateral (ps_cpu_collateral e)) "TDX stage requires independently supplied Intel collateral";;
    att_need (intel_floor (ps_cpu_tcb_policy e)) "TDX stage requires a nonzero independent TCB floor"
  | SevSnp | AzureSnpVtpm | AwsSnpNitroTpm => validate_amd_policy e
  end.

Definition check_token (e : PriorStagePolicyEntry) (token : EatToken) : res AttError unit :=
  att_need ((binding_suite token =? 1) || (binding_suite token =? 2))
    "prior stage requires full 64-byte CPU report-data binding";;
  (if bool_decide (ps_expected_platform e = AzureSnpVtpm) || bool_decide (ps_expected_platform e = AwsSnpNitroTpm) then
     att_need (binding_suite token =? BINDING_SUITE_COMPOSITE)
       "Azure and AWS SNP NitroTPM prior stages require composite binding suite 2"
   else Ok tt);;
  source ← fixed 48 (ps_source_hash e);
  att_need (bytes_eqb (source_hash token) source) "prior-stage source hash mismatch";;
  artifact ← fixed 48 (ps_artifact_hash e);
  att_need (bytes_eqb (artifact_hash token) artifact) "prior-stage artifact hash mismatch";;
  vx ← fixed 48 (ps_expected_value_x e);
  att_need (bytes_eqb (value_x token) vx) "prior-stage Value X mismatch";;
  nonce ← fixed 32 (ps_expected_nonce e);
  att_need (bytes_eqb (eat_nonce token) nonce) "prior-stage expected nonce mismatch";;
  att_need (bool_decide (platform_enum token = Some (ps_expected_platform e))) "prior-stage platform mismatch";;
  spki ← bounded_hex (ps_tls_spki_der e) (16 * 1024);
  att_need (bytes_eqb (tls_spki_hash token) (sha256 spki)) "prior-stage TLS SPKI mismatch".

(** [if let Some(x) = o { builder = builder.set(x) }] *)
Definition given {A} (set : A -> Config -> Config) (o : option A) (b : Config) : Config :=
  if o is Some a then set a b else b.
(** [verifier]: the configuration of a stage, and its verifier.  The configuration has no
    policy for earlier stages, so the argument of [build_with] is not used. *)
Definition stage_config (e : PriorStagePolicyEntry) : res AttError Config :=
  nonce ← fixed 32 (ps_expected_nonce e);
  spki ← bounded_hex (ps_tls_spki_der e) (16 * 1024);
  vx ← fixed 48 (ps_expected_value_x e);
  measurement ← fixed 48 (ps_expected_platform_measurement e);
  let b := with_max_age_secs (ps_max_age_secs e) (with_expected_platform_measurement measurement
             (require_platform (ps_expected_platform e) (with_expected_value_x vx (with_tls_spki_der spki
             (with_expected_nonce nonce default_config))))) in
  let b := given with_cpu_collateral (ps_cpu_collateral e) b in
  let b := given with_cpu_tcb_policy (ps_cpu_tcb_policy e) b in
  let b := given with_azure_policy (ps_azure_policy e) b in
  let b := given with_nitrotpm_policy (ps_nitrotpm_policy e) b in
  let b := given with_boot_policy (ps_boot_policy e) b in
  b ← (if ps_uki_evidence e is Some image then
         u ← bounded_hex image (MAX_DECODED_CHAIN_BYTES / 2); Ok (with_uki_evidence u b) else Ok b);
  Ok (given with_gpu_policy (ps_gpu_policy e) b).
Definition verifier (e : PriorStagePolicyEntry) : res AttError AttestationVerifier :=
  c ← stage_config e;
  in_stage (ps_name e) (build_with (fun _ => NoFuel) c).

(** [PriorStagePolicy::validate] *)
Record Seen : Type := { seen_names : gset bytes; seen_receipts : gset bytes; stable_value_x : option bytes }.
Definition validate_stage (s : Seen) (e : PriorStagePolicyEntry) : res AttError Seen :=
  PriorStagePolicyEntry_validate e;;
  verifier e;;
  att_need (negb (bool_decide (ps_name e ∈ seen_names s))) "duplicate prior-stage name";;
  receipt ← fixed 32 (ps_receipt_sha256 e);
  att_need (negb (bool_decide (receipt ∈ seen_receipts s))) "duplicate prior-stage receipt pin";;
  vx ← fixed 48 (ps_expected_value_x e);
  att_need (if stable_value_x s is Some x then bytes_eqb x vx else true) "prior-stage policies disagree on Value X";;
  Ok {| seen_names := {[ps_name e]} ∪ seen_names s; seen_receipts := {[receipt]} ∪ seen_receipts s;
        stable_value_x := Some vx |}.
Definition PriorStagePolicy_validate (p : PriorStagePolicy) : res AttError unit :=
  att_need ((1 <=? blen (policy_stages p)) && (blen (policy_stages p) <=? MAX_PRIOR_STAGES))
    "prior-stage policy requires 1..=8 ordered stages";;
  for_each validate_stage {| seen_names := ∅; seen_receipts := ∅; stable_value_x := None |} (policy_stages p);;
  Ok tt.

(** [AttestationVerifierBuilder::build] *)
Definition build (c : Config) : res AttError AttestationVerifier := build_with PriorStagePolicy_validate c.

(** ** Matching the receipts *)
Record PendingStage : Type := { pending_policy : PriorStagePolicyEntry; pending_sha256 : bytes; pending_token : EatToken }.
Record Prepare : Type := { raw : bytes; decoded_bytes : N; pending : list PendingStage }.
Definition prepare_stage (s : Prepare) (e : PriorStagePolicyEntry) : res AttError Prepare :=
  att_need (negb (blen (raw s) =? 0) && (blen (raw s) <=? MAX_STAGE_RECEIPT_BYTES))
    "prior-stage chain is missing a required stage or exceeds the byte limit";;
  decoded ← att_some (checked_add usize_max (decoded_bytes s) (blen (raw s))) "chain size overflow";
  att_need (decoded <=? MAX_DECODED_CHAIN_BYTES) "decoded prior-stage chain exceeds 32 MiB";;
  let receipt_sha256 := sha256 (raw s) in
  pin ← fixed 32 (ps_receipt_sha256 e);
  att_need (bytes_eqb receipt_sha256 pin) "receipt SHA256 pin mismatch";;
  token ← att_eat (from_cbor (raw s));
  check_token e token;;
  Ok {| raw := previous_attestation token; decoded_bytes := decoded;
        pending := pending s ++ [{| pending_policy := e; pending_sha256 := receipt_sha256; pending_token := token |}] |}.
Definition prepare (p : PriorStagePolicy) (immediate_predecessor : bytes) : res AttError (list PendingStage) :=
  PriorStagePolicy_validate p;;
  att_need (negb (blen immediate_predecessor =? 0) && (blen immediate_predecessor <=? MAX_STAGE_RECEIPT_BYTES))
    "required prior-stage receipt is missing or exceeds 8 MiB";;
  s ← for_each prepare_stage {| raw := immediate_predecessor; decoded_bytes := 0; pending := [] |} (rev (policy_stages p));
  att_need (blen (raw s) =? 0) "prior-stage chain contains an extra unapproved stage";;
  Ok (rev (pending s)).

(** ** Verifying the stages *)
(** [verify] and [verify_with_prior_stages] of a stage's verifier, within a verification
    that has its own verdict: only the clock is shared. *)
Definition stage_verdict (v : AttestationVerifier) (token : EatToken) (prior : option VerifiedPriorStages) :
    VS AttestationVerdict :=
  fun s => match verify_internal_with clock (fun _ _ => lift NoFuel) v token prior (readings s) with
           | (r, n) => (r, {| verdict := verdict s; readings := n |})
           end.
Definition failures (vd : AttestationVerdict) : list AttError :=
  omap (fun c => if passed c then None else Some (match detail c with Failure e => e | Note t => Msg t end)) (checks vd).
Definition extend_chain (stage : PendingStage) (vd : AttestationVerdict) (p : Platform) (deadline : N)
    (verified : option VerifiedPriorStages) : VerifiedPriorStages :=
  let token := pending_token stage in
  let chain := if verified is Some c then c else
    {| stages := []; immediate_predecessor_sha256 := []; pv_value_x := hex_encode (value_x token);
       freshness_deadline := deadline |} in
  {| stages := stages chain ++ [{|
       vps_name := ps_name (pending_policy stage); vps_receipt_sha256 := hex_encode (pending_sha256 stage);
       vps_source_hash := hex_encode (source_hash token); vps_artifact_hash := hex_encode (artifact_hash token);
       vps_nonce := hex_encode (eat_nonce token); vps_tls_spki_sha256 := hex_encode (tls_spki_hash token);
       vps_value_x := hex_encode (value_x token); vps_platform := p; vps_issued_at := iat token; vps_verdict := vd |}];
     immediate_predecessor_sha256 := hex_encode (pending_sha256 stage); pv_value_x := pv_value_x chain;
     freshness_deadline := freshness_deadline chain `min` deadline |}.
Definition verify_stage (verified : option VerifiedPriorStages) (stage : PendingStage) : VS (option VerifiedPriorStages) :=
  v ← lift (verifier (pending_policy stage));
  vd ← stage_verdict v (pending_token stage) verified;
  (if negb (valid vd) then fails (StageRejected (ps_name (pending_policy stage)) (failures vd)) else mret tt);;
  deadline ← some_or (checked_add u64_max (iat (pending_token stage)) (ps_max_age_secs (pending_policy stage)))
    "prior-stage freshness deadline overflow";
  p ← some_or (platform_enum (pending_token stage)) "unknown prior-stage platform";
  mret (Some (extend_chain stage vd p deadline verified)).
Fixpoint verify_stages (verified : option VerifiedPriorStages) (l : list PendingStage) : VS (option VerifiedPriorStages) :=
  match l with
  | [] => mret verified
  | stage :: l => verified ← verify_stage verified stage; verify_stages verified l
  end.
(** [PriorStagePolicy::verify] *)
Definition PriorStagePolicy_verify (p : PriorStagePolicy) (immediate_predecessor : bytes) : VS VerifiedPriorStages :=
  pending ← lift (prepare p immediate_predecessor);
  verified ← verify_stages None pending;
  verified ← some_or verified "prior-stage policy must contain at least one stage";
  now ← trusted_now clock;
  require (now <=? freshness_deadline verified) "prior-stage freshness expired during chain admission";;
  mret verified.

(** [AttestationVerifier::verify_internal], [verify] and [verify_with_prior_stages] *)
Definition verify_internal := verify_internal_with clock PriorStagePolicy_verify.
Definition verify (v : AttestationVerifier) (token : EatToken) : res AttError AttestationVerdict :=
  (verify_internal v token None 0).1.

(** * What an admitted chain satisfies *)
(** The pins of a stage, as the token satisfies them. *)
Record pins_ok (e : PriorStagePolicyEntry) (t : EatToken) : Prop := {
  pn_suite : binding_suite t = 1 \/ binding_suite t = 2;
  pn_composite : ps_expected_platform e = AzureSnpVtpm \/ ps_expected_platform e = AwsSnpNitroTpm ->
    binding_suite t = BINDING_SUITE_COMPOSITE;
  pn_source : fixed 48 (ps_source_hash e) = Ok (source_hash t);
  pn_artifact : fixed 48 (ps_artifact_hash e) = Ok (artifact_hash t);
  pn_value_x : fixed 48 (ps_expected_value_x e) = Ok (value_x t);
  pn_nonce : fixed 32 (ps_expected_nonce e) = Ok (eat_nonce t);
  pn_platform : platform_enum t = Some (ps_expected_platform e);
  pn_spki : exists spki, bounded_hex (ps_tls_spki_der e) (16 * 1024) = Ok spki /\ tls_spki_hash t = sha256 spki;
}.
Lemma fixed_Ok n input b : fixed n input = Ok b <-> hex_decode input = Some b /\ blen b = n.
Proof.
  unfold fixed. att. split.
  - intros Hf. inv_res. bools. split; [done|]. match goal with E : hex_decode _ = Some _ |- _ => apply hex_decode_Some in E as [E _] end. lia.
  - intros [Hd Hl]. pose proof (hex_decode_Some _ _ Hd) as [Hb _]. rewrite ensure_true by (apply N.eqb_eq; lia). ok_step. by rewrite Hd.
Qed.
Lemma fixed_safe n input : safe (fixed n input) (fun _ => True).
Proof. unfold fixed. att. apply safe_bind, safe_ensure. intros _. by apply safe_ok_or. Qed.
Lemma bounded_safe input max : safe (bounded_hex input max) (fun _ => True).
Proof. unfold bounded_hex. att. apply safe_bind, safe_ensure. intros _. by apply safe_ok_or. Qed.
Lemma pinned_decides {A} (c : res AttError bytes) (b : bytes) m (f : unit -> res AttError A) P Q :
  safe c (fun _ => True) -> decides (f tt) P Q ->
  decides (x ← c; ensure (bytes_eqb b x) (Msg m) ≫= f) (c = Ok b /\ P) Q.
Proof.
  intros Hc Hf. destruct c as [x|e| |]; try done; [|cbn; naive_solver]. rewrite res_bind_Ok.
  destruct (bytes_eqb b x) eqn:E.
  - apply bytes_eqb_eq in E as ->. cbn [ensure]. rewrite res_bind_Ok. eapply decides_iff; [exact Hf|naive_solver|done].
  - cbn. intros [[= ->] _]. by rewrite (proj2 (bytes_eqb_eq b b) eq_refl) in E.
Qed.

Lemma decides_when (b c : bool) (e : AttError) :
  decides (if b then ensure c e else Ok tt) (b = true -> c = true) (fun _ => True).
Proof. destruct b, c; cbn; try tauto. intros Hc. by specialize (Hc eq_refl). Qed.
Lemma pinned_last_decides (c : res AttError bytes) (b : bytes) (f : bytes -> bytes) m :
  safe c (fun _ => True) ->
  decides (x ← c; ensure (bytes_eqb b (f x)) (Msg m)) (exists x, c = Ok x /\ b = f x) (fun _ => True).
Proof.
  intros Hc. destruct c as [x|e| |]; try done; [|cbn; naive_solver]. rewrite res_bind_Ok.
  apply decides_ensure; [|done]. rewrite bytes_eqb_eq. naive_solver.
Qed.
(** The check of a token against its stage decides exactly the pins. *)
Lemma check_token_decides e t : decides (check_token e t) (pins_ok e t) (fun _ => True).
Proof.
  unfold check_token. att. eapply decides_iff.
  - eapply decides_bind; [apply (decides_ensure _ _ _ (fun _ => True)); [reflexivity|done]|]. intros [] _ _ _.
    eapply decides_bind; [apply decides_when|]. intros [] _ _ _.
    do 4 (apply pinned_decides; [apply fixed_safe|]).
    eapply decides_bind; [apply (decides_ensure _ _ _ (fun _ => True)); [reflexivity|done]|]. intros [] _ _ _.
    apply pinned_last_decides, bounded_safe.
  - rewrite !orb_true_iff, !N.eqb_eq, !bool_decide_eq_true. split; [intros (? & ? & ? & ? & ? & ? & ? & ?); by split|intros []; done].
  - done.
Qed.

(** ** The receipts *)
(** [receipts es r ps]: [r] is the receipt of the newest stage of [es] (newest first), each
    receipt carries the next, the oldest carries none, and [ps] are the stages. *)
Inductive receipts : list PriorStagePolicyEntry -> bytes -> list PendingStage -> Prop :=
| receipts_none : receipts [] [] []
| receipts_stage e es r t ps :
    r <> [] -> blen r <= MAX_STAGE_RECEIPT_BYTES -> fixed 32 (ps_receipt_sha256 e) = Ok (sha256 r) ->
    from_cbor r = Ok t -> pins_ok e t -> receipts es (previous_attestation t) ps ->
    receipts (e :: es) r ({| pending_policy := e; pending_sha256 := sha256 r; pending_token := t |} :: ps).
(** The bytes of the receipts after the first. *)
Fixpoint chain_bytes (ps : list PendingStage) : N :=
  match ps with
  | [] => 0
  | p :: ps => blen (previous_attestation (pending_token p)) + chain_bytes ps
  end.
Lemma size_guard (b : bytes) max : negb (blen b =? 0) && (blen b <=? max) = true <-> b <> [] /\ blen b <= max.
Proof.
  rewrite andb_true_iff, negb_true_iff, N.eqb_neq, N.leb_le. split; intros [Hn Hl]; (split; [|done]); intros E.
  - by rewrite E in Hn.
  - by apply Hn, blen_0.
Qed.
Lemma prepare_stage_Ok s e s' : prepare_stage s e = Ok s' <->
  exists t, raw s <> [] /\ blen (raw s) <= MAX_STAGE_RECEIPT_BYTES /\ decoded_bytes s + blen (raw s) <= MAX_DECODED_CHAIN_BYTES /\
    fixed 32 (ps_receipt_sha256 e) = Ok (sha256 (raw s)) /\ from_cbor (raw s) = Ok t /\ pins_ok e t /\
    s' = {| raw := previous_attestation t; decoded_bytes := decoded_bytes s + blen (raw s);
            pending := pending s ++ [{| pending_policy := e; pending_sha256 := sha256 (raw s); pending_token := t |}] |}.
Proof.
  unfold prepare_stage. att. split.
  - intros Hs. inv_res.
    bools. match goal with E : check_token _ ?t = Ok _ |- _ => exists t; pose proof (check_token_decides e t) as Hd; rewrite E in Hd; destruct Hd as [Hd _] end.
    match goal with E : checked_add _ _ _ = Some _ |- _ => apply checked_add_Some in E as [-> ?] end.
    subst. split_and!; try done; try congruence; intros E; by rewrite E in *.
  - intros (t & Hn & Hl & Hd & Hp & Ht & Hpins & ->). rewrite (ensure_true _ _ (proj2 (size_guard _ _) (conj Hn Hl))). ok_step.
    assert (decoded_bytes s + blen (raw s) <= usize_max) as Hmax by (etrans; [exact Hd|by vm_compute]).
    rewrite (proj2 (checked_add_Some usize_max (decoded_bytes s) (blen (raw s)) _) (conj eq_refl Hmax)). cbn [ok_or]. ok_step.
    rewrite (ensure_true _ _ (proj2 (N.leb_le _ _) Hd)). ok_step. rewrite Hp. ok_step.
    rewrite (ensure_true _ _ (proj2 (bytes_eqb_eq _ _) eq_refl)). ok_step. rewrite Ht. cbn [map_err]. ok_step.
    pose proof (check_token_decides e t) as Hc. destruct (check_token e t) as [[]|err| |]; [done|by destruct Hc|done..].
Qed.

(** The matching loop accepts exactly the enrolled receipts, in order. *)
Lemma prepare_loop es r dec pend s : dec <= MAX_DECODED_CHAIN_BYTES ->
  for_each prepare_stage {| raw := r; decoded_bytes := dec; pending := pend |} es = Ok s /\ raw s = [] <->
  exists ps, receipts es r ps /\ dec + blen r + chain_bytes ps <= MAX_DECODED_CHAIN_BYTES /\
    s = {| raw := []; decoded_bytes := dec + blen r + chain_bytes ps; pending := pend ++ ps |}.
Proof.
  revert r dec pend. induction es as [|e es IH]; intros r dec pend Hdec.
  - split.
    + intros [[= <-] E]. cbn in E. subst r. exists []. split; [constructor|]. cbn [blen chain_bytes length]. rewrite app_nil_r.
      change (blen []) with 0. rewrite !N.add_0_r. done.
    + intros (ps & Hr & Hl & ->). inversion Hr; subst. change (blen []) with 0. cbn. by rewrite app_nil_r, !N.add_0_r.
  - rewrite for_each_cons. split.
    + intros [Hs E]. destruct (prepare_stage _ e) as [s1| | |] eqn:E1; try done. rewrite res_bind_Ok in Hs.
      apply prepare_stage_Ok in E1 as (t & Hn & Hl & Hd & Hp & Ht & Hpins & ->). cbn in *.
      destruct (proj1 (IH _ _ _ Hd) (conj Hs E)) as (ps & Hr & Hb & ->). eexists (_ :: ps). split; [by constructor|].
      cbn. rewrite <- app_assoc. cbn. split; [lia|]. f_equal. lia.
    + intros (ps & Hr & Hl & ->). inversion Hr as [|? ? ? t ps' Hn Hsz Hp Ht Hpins Hr']; subst. cbn in Hl.
      rewrite (proj2 (prepare_stage_Ok _ _ _)) by (exists t; cbn; split_and!; try done; lia). rewrite res_bind_Ok. cbn.
      apply IH; [lia|]. exists ps'. split; [done|]. rewrite <- app_assoc. cbn. split; [lia|]. f_equal. lia.
Qed.
Lemma prepare_Ok p r l : prepare p r = Ok l <->
  PriorStagePolicy_validate p = Ok tt /\ r <> [] /\ blen r <= MAX_STAGE_RECEIPT_BYTES /\
  receipts (rev (policy_stages p)) r (rev l) /\ blen r + chain_bytes (rev l) <= MAX_DECODED_CHAIN_BYTES.
Proof.
  unfold prepare. att. split.
  - intros Hp. inv_res. bools. match goal with E : for_each _ _ _ = Ok ?s, E' : blen (raw ?s) = 0 |- _ =>
      apply blen_0 in E'; destruct (proj1 (prepare_loop _ _ 0 _ _ (N.le_0_l _)) (conj E E')) as (ps & Hr & Hl & ->) end.
    cbn. rewrite rev_involutive. split_and!; try done. intros E. by rewrite E in *.
  - intros (Hv & Hn & Hs & Hr & Hl). rewrite Hv. ok_step. rewrite (ensure_true _ _ (proj2 (size_guard _ _) (conj Hn Hs))). ok_step.
    destruct (proj2 (prepare_loop (rev (policy_stages p)) r 0 [] _ (N.le_0_l _)) (ex_intro _ (rev l) (conj Hr (conj Hl eq_refl)))) as [-> _].
    ok_step. cbn. by rewrite rev_involutive.
Qed.

(** ** The stages *)
Section Stages.
Context {CL : CborValueLaws C} {HL : Sha2Laws H} {GL : GpuAppraiserLaws GA} {KL : CborLaws Codec}.

Lemma no_prior_given {A} (set : A -> Config -> Config) o b :
  (forall a b, cfg_prior_stage_policy (set a b) = cfg_prior_stage_policy b) ->
  cfg_prior_stage_policy (given set o b) = cfg_prior_stage_policy b.
Proof. destruct o; cbn; auto. Qed.
Lemma stage_config_safe e : safe (stage_config e) (fun c => cfg_prior_stage_policy c = None).
Proof.
  unfold stage_config. eapply safe_seq; [apply fixed_safe|]. intros n _ _. eapply safe_seq; [apply bounded_safe|]. intros sp _ _.
  eapply safe_seq; [apply fixed_safe|]. intros vx _ _. eapply safe_seq; [apply fixed_safe|]. intros m _ _.
  eapply (safe_seq _ _ (fun b => cfg_prior_stage_policy b = None)).
  - destruct (ps_uki_evidence e); [|cbn [safe]; by rewrite !no_prior_given by done]. eapply safe_seq; [apply bounded_safe|]. intros u _ _.
    cbn [safe cfg_prior_stage_policy with_uki_evidence]. by rewrite !no_prior_given by done.
  - intros b _ Hb. cbn [safe]. by rewrite no_prior_given.
Qed.
Lemma verifier_safe e : safe (verifier e) (fun v => verifier_ok v /\ cfg_prior_stage_policy (config v) = None).
Proof.
  unfold verifier, in_stage. eapply safe_seq; [apply stage_config_safe|]. intros c _ Hc. apply safe_map_err.
  eapply safe_mono; [apply (build_with_safe _ (fun _ => True)); by rewrite Hc|]. intros v _ (Hv & -> & _). split; [done|]. exact Hc.
Qed.
Lemma entry_validate_safe e : safe (PriorStagePolicyEntry_validate e) (fun _ => True).
Proof.
  unfold PriorStagePolicyEntry_validate. att. apply safe_bind, safe_ensure. intros _.
  eapply safe_seq; [apply safe_for_all; intros x _; eapply safe_seq; [apply fixed_safe|done]|]. intros _ _ _.
  eapply safe_seq; [apply safe_for_all; intros x _; unfold nonzero_pin; att; eapply safe_seq; [apply fixed_safe|]; intros; by apply safe_ensure|].
  intros _ _ _. eapply safe_seq; [apply fixed_safe|]. intros _ _ _. apply safe_bind, safe_ensure. intros _.
  eapply safe_seq; [apply bounded_safe|]. intros _ _ _. apply safe_bind, safe_ensure. intros _.
  eapply safe_seq; [apply (safe_option _ _ (fun _ => True)); intros p _; apply safe_map_err; eapply safe_mono; [apply azure_policy_safe|done]|].
  intros _ _ _. apply safe_bind, safe_ensure. intros _.
  eapply safe_seq; [apply (safe_option _ _ (fun _ => True)); intros p _; apply safe_map_err, NitroTpm.policy_safe|]. intros _ _ _.
  destruct (ps_expected_platform e); [by apply safe_ensure|..].
  2: { apply safe_bind, safe_ensure. intros _. by apply safe_ensure. }
  all: unfold validate_amd_policy; att; apply safe_bind, safe_ensure; intros _; destruct (ps_cpu_tcb_policy e) as [[|p]|]; try done;
    apply safe_map_err, policy_validate_safe.
Qed.
Lemma prior_policy_safe p : safe (PriorStagePolicy_validate p) (fun _ => 1 <= blen (policy_stages p) <= MAX_PRIOR_STAGES).
Proof.
  unfold PriorStagePolicy_validate. att. apply safe_bind, safe_ensure. intros Hl. bools.
  eapply safe_seq; [apply (safe_for_each _ (fun _ => True)); [done|]|done].
  intros s e _ _. unfold validate_stage. eapply safe_seq; [apply entry_validate_safe|]. intros _ _ _.
  eapply safe_seq; [apply verifier_safe|]. intros v _ _. att. apply safe_bind, safe_ensure. intros _.
  eapply safe_seq; [apply fixed_safe|]. intros r _ _. apply safe_bind, safe_ensure. intros _.
  eapply safe_seq; [apply fixed_safe|]. intros vx _ _. by apply safe_bind, safe_ensure.
Qed.
Lemma prepare_safe p r : safe (prepare p r) (fun _ => True).
Proof.
  unfold prepare. eapply safe_seq; [apply prior_policy_safe|]. intros _ _ _. att. apply safe_bind, safe_ensure. intros _.
  eapply safe_seq; [apply (safe_for_each _ (fun _ => True)); [done|]|].
  - intros s e _ _. unfold prepare_stage. att. apply safe_bind, safe_ensure. intros _. apply safe_bind, safe_ok_or. intros d _.
    apply safe_bind, safe_ensure. intros _. eapply safe_seq; [apply fixed_safe|]. intros pin _ _. apply safe_bind, safe_ensure. intros _.
    eapply safe_seq; [apply safe_map_err, from_cbor_safe|]. intros t _ _.
    eapply safe_seq; [eapply decides_safe, check_token_decides|]. done.
  - intros s _ _. by apply safe_bind, safe_ensure.
Qed.

(** [ancestors l a]: the stages [l], oldest first, were admitted one after the other, each
    against the ancestry before it, and [a] is the result. *)
Inductive ancestors : list PendingStage -> option VerifiedPriorStages -> Prop :=
| ancestors_none : ancestors [] None
| ancestors_stage l prior stage v vd p :
    ancestors l prior -> verifier (pending_policy stage) = Ok v -> verifier_ok v -> valid vd = true ->
    accepted clock v (pending_token stage) prior vd -> platform_enum (pending_token stage) = Some p ->
    iat (pending_token stage) + ps_max_age_secs (pending_policy stage) <= u64_max ->
    ancestors (l ++ [stage])
      (Some (extend_chain stage vd p (iat (pending_token stage) + ps_max_age_secs (pending_policy stage)) prior)).

Lemma stage_verdict_safe v token prior s : progress s -> token_typed token -> cfg_prior_stage_policy (config v) = None ->
  vsafe (stage_verdict v token prior) progress (fun vd s' => (valid vd = true -> quiet s s' /\ accepted clock v token prior vd)
    /\ progress s') s.
Proof.
  intros Hp Ht Hv. unfold stage_verdict, vsafe.
  destruct (verify_internal_ok clock (fun _ _ _ => True) (fun _ _ => lift NoFuel) v token prior (readings s) Ht) as (vd & n & -> & Hok & Hn);
    [by rewrite Hv|]. split; [|exact Hp]. intros Hvalid. split; [split; [exact Hp|split; [done|by apply Hn]]|].
  destruct Hok as [[Hf _]|(_ & _ & q & Hq & Ha)]; [congruence|]. unfold context_ok in Hq. rewrite Hv in Hq. by subst q.
Qed.
Lemma verify_stage_safe l prior stage s : progress s -> token_typed (pending_token stage) -> ancestors l prior ->
  vsafe (verify_stage prior stage) progress (fun o s' => quiet s s' /\ ancestors (l ++ [stage]) o) s.
Proof.
  intros Hp Ht Hl. unfold verify_stage. apply vsafe_bind. eapply vsafe_call; [done|apply verifier_safe|]. intros v Hv [Hok Hnone].
  eapply vsafe_seq; [by apply stage_verdict_safe|]. intros vd s1 [Hvd Hp1].
  eapply (vsafe_seq _ _ _ (fun _ s' => s' = s1 /\ valid vd = true)); [destruct (valid vd); [by apply vsafe_ret|by apply vsafe_fails]|].
  intros [] s' [-> Hvalid]. destruct (Hvd Hvalid) as [Hq Ha]. vsome d Hd. vsome p Hpl. apply vsafe_ret. split; [done|].
  apply checked_add_Some in Hd as [-> Hmax]. by eapply ancestors_stage.
Qed.
Lemma verify_stages_safe l done_ prior s : progress s -> Forall (fun st => token_typed (pending_token st)) l -> ancestors done_ prior ->
  vsafe (verify_stages prior l) progress (fun o s' => quiet s s' /\ ancestors (done_ ++ l) o) s.
Proof.
  revert done_ prior s. induction l as [|st l IH]; intros done_ prior s Hp Hl Ha.
  - cbn [verify_stages]. apply vsafe_ret. by rewrite app_nil_r.
  - cbn [verify_stages]. apply Forall_cons in Hl as [Ht Hl]. eapply vsafe_seq; [by apply verify_stage_safe|].
    intros o s1 [Hq Ho]. eapply vsafe_mono; [apply IH; [by destruct Hq|done|exact Ho]|]. intros o' s2 [Hq2 Ho']. rewrite <- app_assoc in Ho'.
    split; [by eapply quiet_trans|done].
Qed.
Lemma receipts_typed es r ps : receipts es r ps -> Forall (fun st => token_typed (pending_token st)) ps.
Proof.
  induction 1 as [|e es r t ps _ _ _ Ht _ _ IH]; constructor; [|done]. apply from_cbor_Ok in Ht as (_ & Hd & _).
  by apply cbor_decode_typed in Hd as [? _].
Qed.

(** An admitted chain: the receipts, the admission of each stage, and a reading of the
    clock within the deadline of every stage. *)
Definition ancestry (p : PriorStagePolicy) (r : bytes) (ch : VerifiedPriorStages) : Prop :=
  exists l, prepare p r = Ok l /\ ancestors l (Some ch) /\ exists i t, clock i = Some t /\ t <= freshness_deadline ch.
Lemma policy_verify_safe p r s : progress s ->
  vsafe (PriorStagePolicy_verify p r) progress (fun ch s' => quiet s s' /\ ancestry p r ch) s.
Proof.
  intros Hp. unfold PriorStagePolicy_verify. apply vsafe_bind. eapply vsafe_call; [done|apply prepare_safe|]. intros l Hl _.
  eapply vsafe_seq.
  { apply (verify_stages_safe l [] None); [done| |constructor]. apply prepare_Ok in Hl as (_ & _ & _ & Hr & _).
    apply receipts_typed in Hr. by apply Forall_rev in Hr; rewrite rev_involutive in Hr. }
  intros o s1 [Hq Ho]. vsome ch Hch. subst o. apply vsafe_bind, vsafe_now; [have_progress|]. intros t s2 Ht Hq2 _.
  vreq. apply vsafe_ret. split; [by eapply quiet_trans|]. exists l. split; [done|]. split; [done|]. exists (readings s1), t. bools. done.
Qed.

(** What is recorded of a stage. *)
Record stage_record (st : PendingStage) (r : VerifiedPriorStage) : Prop := {
  sr_name : vps_name r = ps_name (pending_policy st);
  sr_receipt : vps_receipt_sha256 r = hex_encode (pending_sha256 st);
  sr_source : vps_source_hash r = hex_encode (source_hash (pending_token st));
  sr_artifact : vps_artifact_hash r = hex_encode (artifact_hash (pending_token st));
  sr_platform : platform_enum (pending_token st) = Some (vps_platform r);
  sr_issued : vps_issued_at r = iat (pending_token st);
  sr_verdict : exists v prior, verifier (pending_policy st) = Ok v /\ verifier_ok v /\ valid (vps_verdict r) = true /\
    accepted clock v (pending_token st) prior (vps_verdict r);
}.
Definition stage_deadline (st : PendingStage) : N := iat (pending_token st) + ps_max_age_secs (pending_policy st).
(** The stages of an admitted ancestry, oldest first. *)
Record stages_ok (l : list PendingStage) (ch : VerifiedPriorStages) : Prop := {
  so_records : Forall2 stage_record l (stages ch);
  so_value_x st : st ∈ l -> hex_encode (value_x (pending_token st)) = pv_value_x ch;
  so_deadline st : st ∈ l -> freshness_deadline ch <= stage_deadline st;
  so_earliest : exists st, st ∈ l /\ freshness_deadline ch = stage_deadline st;
  so_last : hex_encode <$> (pending_sha256 <$> last l) = Some (immediate_predecessor_sha256 ch);
}.
Lemma ancestors_ok l o : ancestors l o -> match o with Some ch => stages_ok l ch | None => l = [] end.
Proof.
  induction 1 as [|l prior st v vd p Hl IH Hv Hok Hvalid Hacc Hp Hmax]; [done|].
  assert (stage_record st {| vps_name := ps_name (pending_policy st); vps_receipt_sha256 := hex_encode (pending_sha256 st);
    vps_source_hash := hex_encode (source_hash (pending_token st)); vps_artifact_hash := hex_encode (artifact_hash (pending_token st));
    vps_nonce := hex_encode (eat_nonce (pending_token st)); vps_tls_spki_sha256 := hex_encode (tls_spki_hash (pending_token st));
    vps_value_x := hex_encode (value_x (pending_token st)); vps_platform := p; vps_issued_at := iat (pending_token st);
    vps_verdict := vd |}) as Hrec by (split; cbn; eauto 10).
  assert (forall q, prior = Some q -> hex_encode (value_x (pending_token st)) = pv_value_x q) as Hvx.
  { intros q ->. destruct Hacc as (now & fin & pl & values & tpm & Ha). destruct (ap_prior _ _ _ _ _ _ _ _ _ _ Ha) as [Hln _].
    exact (ln_value_x _ _ Hln). }
  destruct prior as [q|]; cbn [extend_chain stages].
  - destruct IH as [Hr Hx Hd (e & He & Hde) Hla]. split; cbn.
    + apply Forall2_app; [done|]. by constructor.
    + intros st' [Hin| ->%list_elem_of_singleton]%elem_of_app; [by apply Hx|by apply Hvx].
    + intros st' [Hin| ->%list_elem_of_singleton]%elem_of_app; [|unfold stage_deadline; lia]. etrans; [apply N.le_min_l|by apply Hd].
    + destruct (N.le_gt_cases (freshness_deadline q) (stage_deadline st)) as [Hle|Hgt].
      * exists e. split; [set_solver|]. rewrite <- Hde. by apply N.min_l.
      * exists st. split; [set_solver|]. apply N.min_r. lia.
    + by rewrite last_snoc.
  - subst l. split; cbn.
    + by constructor.
    + by intros st' ->%list_elem_of_singleton.
    + intros st' ->%list_elem_of_singleton. unfold stage_deadline. lia.
    + exists st. split; [by left|]. unfold stage_deadline. lia.
    + done.
Qed.

(** An admitted chain, seen from the policy and the bytes. *)
Record chain_ok (p : PriorStagePolicy) (r : bytes) (ch : VerifiedPriorStages) : Prop := {
  cn_count : 1 <= blen (policy_stages p) <= MAX_PRIOR_STAGES;
  cn_stages : exists l, receipts (rev (policy_stages p)) r (rev l) /\ blen r + chain_bytes (rev l) <= MAX_DECODED_CHAIN_BYTES /\
    pending_policy <$> l = policy_stages p /\ stages_ok l ch;
  cn_predecessor : immediate_predecessor_sha256 ch = hex_encode (sha256 r);
  cn_time : exists i t, clock i = Some t /\ t <= freshness_deadline ch;
}.
Lemma receipts_policies es r ps : receipts es r ps -> pending_policy <$> ps = es.
Proof. induction 1 as [|e es r t ps _ _ _ _ _ _ IH]; cbn; congruence. Qed.
Lemma receipts_first es r ps : receipts es r ps -> es <> [] -> pending_sha256 <$> head ps = Some (sha256 r).
Proof. by destruct 1. Qed.
Lemma ancestry_ok p r ch : ancestry p r ch -> chain_ok p r ch.
Proof.
  intros (l & Hl & Ha & Ht). apply ancestors_ok in Ha. apply prepare_Ok in Hl as (Hv & Hn & Hs & Hr & Hb).
  pose proof (prior_policy_safe p) as Hp. rewrite Hv in Hp. cbn [safe] in Hp. split; try done.
  - exists l. split; [done|]. split; [done|]. split; [|done]. apply receipts_policies in Hr. rewrite !rev_alt in Hr. change (pending_policy <$> reverse l = reverse (policy_stages p)) in Hr.
    rewrite fmap_reverse in Hr. by apply (inj reverse) in Hr.
  - apply receipts_first in Hr; [|intros E; apply (f_equal (@rev _)) in E; rewrite rev_involutive in E; rewrite E in Hp; vm_compute in Hp; by destruct Hp].
    rewrite rev_alt in Hr. change (rev_append l []) with (reverse l) in Hr. rewrite head_reverse in Hr.
    pose proof (so_last _ _ Ha) as Hla. destruct (last l) as [st|]; [|done]. cbn in Hr, Hla. congruence.
Qed.

Lemma verify_ok v token : token_typed token -> exists vd, verify v token = Ok vd /\ verdict_ok clock chain_ok v token None vd.
Proof.
  intros Ht. unfold verify, verify_internal.
  destruct (verify_internal_ok clock chain_ok PriorStagePolicy_verify v token None 0%nat Ht) as (vd & n & -> & Hok & _); [|by exists vd].
  intros q s _ Hp. eapply vsafe_mono; [by apply policy_verify_safe|]. intros ch s' [Hq Ha]. split; [done|by apply ancestry_ok].
Qed.
(** The relying party always gets a verdict, and a valid one means an appraised token. *)
(** C1: verification of any token ends with a verdict, it never panics.  A verdict that is
    not valid ends in the error that caused the rejection, after checks that passed.  A
    valid one means: the token has the accepted shape; challenge, TLS key, Value X and
    platform are the pinned ones; it was fresh at the start and still at the end; the CPU
    evidence of its platform was admitted under vendor collateral and policy, commits to
    the token, reports the approved launch measurement and no debug mode; GPU evidence and
    boot log satisfy their policies; and earlier build stages, if a policy demands them,
    form an admitted chain that this token continues, within the chain's deadline. *)
Theorem attestation_sound v token : token_typed token ->
  exists vd, verify v token = Ok vd /\ verdict_ok clock chain_ok v token None vd.
Proof. apply verify_ok. Qed.

Lemma build_safe c : safe (build c) (fun v => verifier_ok v /\ config v = requiring_gpu c /\
  forall p, cfg_prior_stage_policy c = Some p -> 1 <= blen (policy_stages p) <= MAX_PRIOR_STAGES).
Proof. apply build_with_safe. intros p _. apply prior_policy_safe. Qed.
(** C19: the builder never panics, and a verifier that it returns is completely
    configured: a challenge, a nonzero Value X, a nonzero 48-byte launch measurement, a
    well-formed TLS key, an age limit of at most a day; approved digests of known sizes for
    a boot policy; an image exactly when the boot policy explains a UKI; collateral and
    policies that match the platform; a GPU inventory whenever GPU evidence is required;
    one to eight stages in a policy for earlier stages. *)
Theorem built_verifier_complete c : safe (build c) (fun v => verifier_ok v /\ config v = requiring_gpu c /\
  forall p, cfg_prior_stage_policy c = Some p -> 1 <= blen (policy_stages p) <= MAX_PRIOR_STAGES).
Proof. apply build_safe. Qed.

Lemma chain_count p r ch : chain_ok p r ch -> 1 <= blen (stages ch) <= MAX_PRIOR_STAGES.
Proof.
  intros Hc. destruct (cn_stages _ _ _ Hc) as (l & _ & _ & Hl & Hs). pose proof (cn_count _ _ _ Hc) as Hn. rewrite <- Hl, blen_fmap in Hn.
  pose proof (Forall2_length _ _ _ (so_records _ _ Hs)) as E. unfold blen in *. by rewrite <- E.
Qed.
Lemma gpu_ok_given v token now g : verifier_ok v -> gpu_ok v token now g -> is_some g = is_some (cfg_gpu (config v)).
Proof.
  intros Hv Hg. pose proof (vo_gpu _ Hv) as H0. destruct Hg as [_ Hr|? ? ? _ Hver _ _ _]; destruct (cfg_gpu (config v)); try done; cbn.
  - destruct H0. congruence.
  - destruct H0. congruence.
Qed.
(** What a verdict reports exactly when the configuration demands it. *)
Record reported (c : Config) (vd : AttestationVerdict) : Prop := {
  rp_gpu : gpu vd <> None <-> cfg_gpu c <> None;
  rp_boot : boot vd <> None <-> cfg_boot c <> None;
  rp_runtime : runtime vd <> None <-> exists p, cfg_boot c = Some p /\ bp_runtime p <> None;
  rp_verity : dm_verity vd <> None <-> exists p, cfg_boot c = Some p /\ bp_dm_verity p <> None;
  rp_uki : uki vd <> None <-> cfg_uki c <> None;
  rp_prior : 0 < prior_stage_count vd <-> cfg_prior_stage_policy c <> None;
}.
Lemma boot_ok_reported c token p values tpm rt b d u : config_ok c -> boot_ok c token p values tpm rt b d u ->
  (b <> None <-> cfg_boot c <> None) /\ (rt <> None <-> exists p, cfg_boot c = Some p /\ bp_runtime p <> None) /\
  (d <> None <-> exists p, cfg_boot c = Some p /\ bp_dm_verity p <> None) /\ (u <> None <-> cfg_uki c <> None).
Proof.
  intros Hc Hb. rewrite <- (co_uki _ Hc). destruct Hb as [Hn _|policy log rt dm uk Hp _ _ Hlog _ Hd Hu].
  - rewrite Hn. naive_solver.
  - rewrite Hp. split; [done|]. split; [|split].
    + destruct Hlog; naive_solver congruence.
    + destruct (bp_dm_verity policy) as [vp|] eqn:E; [destruct Hd as (? & ? & _ & -> & _)|subst dm]; naive_solver congruence.
    + destruct (bp_uki policy) as [up|] eqn:E; [destruct Hu as (? & ? & _ & -> & _)|subst uk]; naive_solver congruence.
Qed.

(** C2: every requirement of the relying party shows in a valid verdict.  For a verifier
    built from [c]: challenge, Value X (nonzero) and platform are those of [c]; the
    reported launch measurement is the approved one; and GPU results, boot log, runtime
    events, dm-verity root, UKI and earlier stages are reported exactly when [c] demands
    them, so no evidence that is demanded can be left out, and none that no policy covers
    is accepted. *)
Theorem configured_requirements_enforced c v token vd :
  token_typed token -> build c = Ok v -> verify v token = Ok vd -> valid vd = true ->
  reported c vd /\ cfg_nonce c = Some (eat_nonce token) /\ cfg_value_x c = Some (value_x token) /\ any_nonzero (value_x token) = true /\
  exists p m, platform_enum token = Some p /\ (forall q, cfg_platform c = Some q -> q = p) /\
    cfg_measurement c = Some m /\ platform_measurements vd !! measurement_name p = Some (hex_encode m).
Proof.
  intros Ht Hb Hv Hvalid. pose proof (build_safe c) as Hs. rewrite Hb in Hs. destruct Hs as (Hok & Hcfg & _).
  destruct (verify_ok v token Ht) as (vd' & Hv' & Hd). assert (vd' = vd) as -> by congruence.
  destruct Hd as [[Hf _]|(_ & _ & prior & Hctx & now & fin & p & values & tpm & Ha)]; [congruence|].
  pose proof (ap_claims _ _ _ _ _ _ _ _ _ _ Ha) as Hcl. pose proof (vo_config _ Hok) as Hco.
  pose proof (boot_ok_reported _ _ _ _ _ _ _ _ _ Hco (ap_boot _ _ _ _ _ _ _ _ _ _ Ha)) as (Hrb & Hrr & Hrd & Hru).
  pose proof (gpu_ok_given _ _ _ _ Hok (ap_gpu _ _ _ _ _ _ _ _ _ _ Ha)) as Hg.
  destruct (co_value_x _ Hco) as (x & Hx & Hnz). destruct (me_value _ _ _ _ (ap_measured _ _ _ _ _ _ _ _ _ _ Ha)) as (m & Hm & _ & _ & He).
  destruct (co_measurement _ Hco) as (m' & Hm' & _). pose proof (ap_prior _ _ _ _ _ _ _ _ _ _ Ha) as Hpr.
  pose proof (ck_value_x _ _ _ _ Hcl) as Hcx. pose proof (ck_nonce _ _ _ _ Hcl) as Hcn.
  pose proof (ck_required _ _ _ _ Hcl) as Hreq. unfold context_ok in Hctx.
  rewrite Hcfg in *. cbn in Hrb, Hrr, Hrd, Hru, Hg, Hx, Hm', He, Hcx, Hcn, Hreq, Hctx. split; [|split; [done|split; [done|split; [congruence|]]]].
  - split; try done.
    + by rewrite <- !is_some_true, Hg.
    + destruct (cfg_prior_stage_policy c) as [q|].
      * destruct Hctx as (_ & ch & -> & Hch). destruct Hpr as [_ ->]. apply chain_count in Hch. split; [done|]. intros _. lia.
      * subst prior. destruct Hpr as [_ ->]. done.
  - exists p, m. split; [apply (ck_platform _ _ _ _ Hcl)|]. split; [done|]. split; [rewrite Hm'; f_equal; by apply He|].
    rewrite (ap_measurements _ _ _ _ _ _ _ _ _ _ Ha). apply lookup_fmap_Some. by exists m.
Qed.

(** C10: the matching of receipts never panics and accepts exactly the enrolled chain:
    under a valid policy, each receipt in turn has the pinned SHA-256, decodes to a token
    whose suite, source, artifact, Value X, nonce, platform and key are those of its stage,
    and carries the receipt of the stage before it; the oldest carries none; each receipt
    has at most 8 MiB and all together 32 MiB.  The stages come back oldest first. *)
Theorem chain_receipts_exact p r :
  safe (prepare p r) (fun _ => True) /\
  forall l, prepare p r = Ok l <->
    PriorStagePolicy_validate p = Ok tt /\ r <> [] /\ blen r <= MAX_STAGE_RECEIPT_BYTES /\
    receipts (rev (policy_stages p)) r (rev l) /\ blen r + chain_bytes (rev l) <= MAX_DECODED_CHAIN_BYTES.
Proof. split; [apply prepare_safe|]. intros l. apply prepare_Ok. Qed.

(** A policy admits one chain of bytes: if two predecessors are accepted under the same
    policy they are the same bytes and carry the same tokens, or the two collide under SHA-256. *)
Theorem chain_bytes_pinned p r r' l l' :
  prepare p r = Ok l -> prepare p r' = Ok l' -> (r = r' /\ l = l') \/ collision sha256 r r'.
Proof.
  intros Hl Hl'. pose proof Hl as (Hv & _ & _ & Hr & _)%prepare_Ok. pose proof Hl' as (_ & _ & _ & Hr' & _)%prepare_Ok.
  destruct (decide (r = r')) as [->|Hne]; [left; split; congruence|]. right. split; [done|].
  destruct Hr as [|e es r t ps _ _ Hp _ _ _]; inversion Hr' as [|e' es' r'' t' ps' _ _ Hp' _ _ _]; subst; [done|]. congruence.
Qed.

(** C11: an admitted chain records its stages faithfully: their number, order, names and
    identities are the policy's, every stage has a valid verdict of its own verifier, all
    share the Value X of the chain, the chain expires at the earliest deadline of its stages
    and is admitted before it, and its last link is the SHA-256 of the bytes given. *)
Theorem admitted_chain_sound p r s : progress s ->
  match PriorStagePolicy_verify p r s with
  | (Ok ch, _) => chain_ok p r ch
  | (Err _, _) => True
  | _ => False
  end.
Proof.
  intros Hp. pose proof (policy_verify_safe p r s Hp) as Hs. unfold vsafe in Hs.
  destruct (PriorStagePolicy_verify p r s) as [[ch|e| |] s']; try done. destruct Hs as [_ Ha]. by apply ancestry_ok.
Qed.
End Stages.

(** The recursion between the verifier and the chain is closed: a stage's verifier is
    the one that [build] makes, and its verdict the one that the verifier of tokens gives,
    since a stage has no policy for stages of its own. *)
Theorem stage_recursion_closed :
  (forall e, verifier e = (c ← stage_config e; in_stage (ps_name e) (build c))) /\
  forall v token prior n, cfg_prior_stage_policy (config v) = None ->
    verify_internal_with clock (fun _ _ => lift NoFuel) v token prior n = verify_internal v token prior n.
Proof.
  split.
  - intros e. unfold verifier. apply bind_ext. intros c Hc. unfold build, build_with.
    pose proof (stage_config_safe e) as Hs. rewrite Hc in Hs. cbn [safe] in Hs. by rewrite Hs.
  - intros v token prior n Hv. unfold verify_internal, verify_internal_with. by rewrite Hv.
Qed.
End Chain.

(** * A chain of two Azure tokens *)
Definition stage_token (nonce : byte) (quote previous : bytes) : EatToken := {|
  version := EAT_VERSION; eat_profile := EAT_PROFILE; binding_suite := BINDING_SUITE_COMPOSITE; value_x := replicate 48 x01;
  platform := 4; platform_measurement := []; platform_quote := quote;
  tls_spki_hash := sha256 (Sha2 := azure_sha2) [x30]; source_hash := replicate 48 x02; artifact_hash := replicate 48 x03;
  iat := 10; eat_nonce := replicate 32 nonce; previous_attestation := previous; gpu_evidence := []; boot_evidence := [] |}.
Definition build_token : EatToken := stage_token x04 [x7b; x31] [].
Definition deployed_token : EatToken := stage_token x05 [x7b; x32] [x01].
Definition chain_codec : CborCodec := {|
  cbor_encode t := if decide (t = build_token) then Some [x01] else None;
  cbor_decode b := match b with x01 :: _ => Some (build_token, 1) | _ => None end |}.
Lemma build_token_typed : token_typed build_token.
Proof. split; vm_compute; solve [reflexivity|discriminate]. Qed.
Lemma deployed_token_typed : token_typed deployed_token.
Proof. split; vm_compute; solve [reflexivity|discriminate]. Qed.
Lemma chain_codec_laws : CborLaws chain_codec.
Proof.
  split.
  - intros t b _. cbn. case_decide; [|done]. by intros [= <-]; subst.
  - intros b t n. cbn. destruct b as [|c b]; [done|]. destruct c; try done. intros [= <- <-].
    split; [apply build_token_typed|]. rewrite blen_cons. lia.
Qed.
Definition chain_azure_libs : AzureLibs := {|
  evidence_from_slice := fun b =>
    if bytes_eqb b [x7b; x31] then Some (azure_evidence_for (report_data_64 (H := azure_sha2) build_token None))
    else if bytes_eqb b [x7b; x32] then Some (azure_evidence_for (report_data_64 (H := azure_sha2) deployed_token None)) else None;
  evidence_to_vec := fun _ => None; azure_policy_from_slice := fun _ => None;
  claims_from_slice := claims_from_slice (AzureLibs := sample_azure_libs);
  b64url_decode := b64url_decode (AzureLibs := sample_azure_libs); b64url_encode := b64url_encode (AzureLibs := sample_azure_libs);
  RsaPublicKey := bytes; rsa_new := Some; rsa_spki_der := Some; rsa_size := blen;
  rsa_pkcs1_verify := fun k d s => bytes_eqb s (pad 256 (take 1 k ++ d)) |}.
(** No helper and no GPU appraiser: both refuse. *)
Definition no_google : GoogleHelper := {|
  tdx_request := fun _ _ _ _ _ => None; replay_request := fun _ _ => None; collect_request := fun _ _ => None;
  run_helper := fun _ _ => None; tdx_response := fun _ => None; replay_response := fun _ => None;
  collect_response := fun _ => None; canonicalize := fun _ => None; is_file := fun _ => false |}.
Definition no_gpu : GpuAppraiser := {|
  GpuPolicy := unit; GpuVerifier := unit; GpuEvidenceBundle := unit; VerifiedGpuBundle := unit;
  gpu_new := fun _ => Err (Msg "no GPU"); gpu_verify := fun _ _ _ _ => Err (Msg "no GPU"); gpu_bundle_read := fun _ => None;
  google_gpu_verify := fun _ _ _ _ _ _ => Err (Msg "no GPU") |}.
Lemma no_gpu_laws : GpuAppraiserLaws no_gpu.
Proof. done. Qed.
Definition any_formats : TokenFormats := {| spki_from_der := fun _ => true; aws_from_slice := fun _ => None |}.
Lemma azure_sha2_laws : Sha2Laws azure_sha2.
Proof. split; intros b; cbn; [case_match; [done|]|..]; apply length_toy_digest. Qed.

Definition sample_stage : PriorStagePolicyEntry (GA := no_gpu) :=
  let pin n b := hex_encode (replicate n b) in {|
  ps_name := lit "build"; ps_receipt_sha256 := hex_encode (sha256 (Sha2 := azure_sha2) [x01]); ps_source_hash := pin 48%nat x02;
  ps_artifact_hash := pin 48%nat x03; ps_expected_nonce := pin 32%nat x04; ps_tls_spki_der := lit "30";
  ps_expected_value_x := pin 48%nat x01; ps_expected_platform := AzureSnpVtpm;
  ps_expected_platform_measurement := pin 48%nat x44; ps_max_age_secs := 60;
  ps_cpu_collateral := Some (CollateralAmdSnp amd_collateral); ps_cpu_tcb_policy := Some (PolicyAmdSnp (amd_policy 2 5));
  ps_azure_policy := Some azure_policy; ps_nitrotpm_policy := None; ps_boot_policy := None; ps_uki_evidence := None;
  ps_gpu_policy := None |}.
Definition chain_policy : PriorStagePolicy (GA := no_gpu) := {| policy_stages := [sample_stage] |}.
Definition deployed_config (prior : option PriorStagePolicy) : Config (GA := no_gpu) := {|
  cfg_nonce := Some (replicate 32 x05); cfg_spki := [x30]; cfg_value_x := Some (replicate 48 x01);
  cfg_platform := Some AzureSnpVtpm; cfg_measurement := Some (replicate 48 x44);
  cfg_cpu_collateral := Some (CollateralAmdSnp amd_collateral); cfg_cpu_tcb_policy := Some (PolicyAmdSnp (amd_policy 2 5));
  cfg_azure_policy := Some azure_policy; cfg_nitrotpm_policy := None; cfg_max_age := 60; cfg_require_gpu := false;
  cfg_boot := None; cfg_uki := None; cfg_google_boot_verifier := None; cfg_google_tdx_verifier := None;
  cfg_google_gpu_verifier := None; cfg_prior_stage_policy := prior; cfg_gpu := None |}.
Definition deployed_verifier (prior : option PriorStagePolicy) : AttestationVerifier (GA := no_gpu) :=
  {| config := deployed_config prior; gpu_verifier := None |}.

Section Sample.
#[local] Existing Instances amd_x509 amd_cpu azure_sha2 no_kds sample_cbor no_docs toy_der chain_azure_libs sample_ciborium chain_codec
  no_google no_gpu any_formats sample_cbor_laws azure_sha2_laws no_gpu_laws chain_codec_laws.
Definition sample_clock (i : nat) : option N := Some 15.

Example build_deployed : build (deployed_config (Some chain_policy)) = Ok (deployed_verifier (Some chain_policy)).
Proof. vm_compute. reflexivity. Qed.
(** The deployed token continues an admitted chain: a valid verdict of one earlier stage. *)
Definition verdict_of (v : AttestationVerifier) (t : EatToken) : option (bool * N * nat) :=
  match verify sample_clock v t with Ok vd => Some (valid vd, prior_stage_count vd, length (checks vd)) | _ => None end.
Lemma verdict_of_Some v t b n k : verdict_of v t = Some (b, n, k) -> exists vd, verify sample_clock v t = Ok vd /\ valid vd = b.
Proof. unfold verdict_of. destruct (verify sample_clock v t) as [vd|e| |]; try discriminate. intros [= Hb _ _]. by exists vd. Qed.
Example deployed_accepted : verdict_of (deployed_verifier (Some chain_policy)) deployed_token = Some (true, 1, 3%nat).
Proof. vm_compute. reflexivity. Qed.
(** Without a policy for its ancestry the same token is rejected. *)
Example chain_needs_policy : verdict_of (deployed_verifier None) deployed_token = Some (false, 0, 1%nat).
Proof. vm_compute. reflexivity. Qed.

Lemma attestation_sound_witness : exists vd, verify sample_clock (deployed_verifier (Some chain_policy)) deployed_token = Ok vd /\
  valid vd = true /\ exists ch, chain_ok sample_clock chain_policy [x01] ch /\
    accepted sample_clock (deployed_verifier (Some chain_policy)) deployed_token (Some ch) vd.
Proof.
  destruct (verdict_of_Some _ _ _ _ _ deployed_accepted) as (vd' & Hv' & Hvalid).
  destruct (attestation_sound sample_clock (deployed_verifier (Some chain_policy)) deployed_token deployed_token_typed) as (vd & Hv & Hok).
  pose proof (eq_trans (eq_sym Hv') Hv) as E. injection E as ->.
  exists vd. split; [exact Hv|]. split; [exact Hvalid|].
  destruct Hok as [[Hf _]|(_ & _ & prior & (_ & ch & -> & Hch) & Ha)]; [rewrite Hvalid in Hf; discriminate Hf|]. exists ch. split; [exact Hch|exact Ha].
Defined.
Lemma configured_requirements_enforced_witness : exists vd,
  verify sample_clock (deployed_verifier (Some chain_policy)) deployed_token = Ok vd /\
  reported (deployed_config (Some chain_policy)) vd.
Proof.
  destruct (verdict_of_Some _ _ _ _ _ deployed_accepted) as (vd & Hv & Hvalid). exists vd. split; [exact Hv|].
  exact (proj1 (configured_requirements_enforced sample_clock _ _ _ _ deployed_token_typed build_deployed Hv Hvalid)).
Defined.
Lemma chain_receipts_exact_witness : exists l, prepare chain_policy [x01] = Ok l /\ receipts (rev (policy_stages chain_policy)) [x01] (rev l).
Proof.
  destruct (chain_receipts_exact chain_policy [x01]) as [_ Hl].
  destruct (prepare chain_policy [x01]) as [l|e| |] eqn:E; [|exfalso; revert E; vm_compute; discriminate..].
  exists l. split; [reflexivity|]. exact (proj1 (proj2 (proj2 (proj2 (proj1 (Hl l) eq_refl))))).
Defined.
Lemma built_verifier_complete_witness : verifier_ok (deployed_verifier (Some chain_policy)).
Proof.
  pose proof (built_verifier_complete (deployed_config (Some chain_policy))) as Hs. rewrite build_deployed in Hs. exact (proj1 Hs).
Defined.
Lemma chain_bytes_pinned_witness : exists l, prepare chain_policy [x01] = Ok l /\
  (([x01] : bytes) = [x01] /\ l = l \/ collision sha256 [x01] [x01]).
Proof.
  destruct (prepare chain_policy [x01]) as [l|e| |] eqn:Hl; [|exfalso; revert Hl; vm_compute; discriminate..].
  exists l. split; [reflexivity|]. exact (chain_bytes_pinned chain_policy [x01] [x01] l l Hl Hl).
Defined.
Definition sample_session : Session := {| verdict := new_verdict; readings := 0 |}.
Example chain_admitted : is_ok (PriorStagePolicy_verify sample_clock chain_policy [x01] sample_session).1 = true.
Proof. vm_compute. reflexivity. Qed.
Lemma admitted_chain_sound_witness : exists ch s, PriorStagePolicy_verify sample_clock chain_policy [x01] sample_session = (Ok ch, s) /\
  chain_ok sample_clock chain_policy [x01] ch.
Proof.
  assert (progress sample_session) as Hp by (split; [reflexivity|constructor]).
  pose proof (admitted_chain_sound sample_clock chain_policy [x01] sample_session Hp) as Hs. pose proof chain_admitted as Hok.
  destruct (PriorStagePolicy_verify sample_clock chain_policy [x01] sample_session) as [[ch|e| |] s]; try discriminate Hok.
  exists ch, s. split; [reflexivity|exact Hs].
Defined.
Lemma stage_recursion_closed_witness :
  verify_internal sample_clock (deployed_verifier None) build_token None 0 =
  verify_internal_with sample_clock (fun _ _ => lift NoFuel) (deployed_verifier None) build_token None 0.
Proof. symmetry. by apply stage_recursion_closed. Defined.
End Sample.
