(* ===== verification/GpuAppraisal.v ===== *)
(** * GpuAppraisal: the GPU verifier inside the verifier of tokens

    [GpuVerify] is an instance of the interface [Attestation.GpuAppraiser] that the
    top-level verifier uses, and discharges its laws.  So the results of both combine: a
    valid verdict of a verifier that demands GPUs is about exactly the enrolled devices.

    [crate::gpu::google], which the source names but does not contain, and the CBOR reader
    of bundles are parameters. *)
From S2P Require Import Prelude Bytes Text Crypto Spdm Opaque Eat Pki Crl Pem GpuCert GpuIdentity Revocation Rim TdxQuote SnpQuote NitroQuote SnpCollateral TdxCollateral QuoteVerify NitroTpm Azure Verdict GpuVerify Google Attestation Chain.

Class NvidiaFormats := {
  (** [ciborium::de::from_reader]: the bundle and the final position *)
  bundle_from_reader : bytes -> option (GpuVerify.GpuEvidenceBundle * N);
  google_verify : GoogleVerifier -> GpuVerify.GpuEvidenceBundle -> GpuVerify.GpuPolicy -> GpuVerify.VerifiedGpuBundle -> bytes -> N ->
    res AttError unit;
}.
Class NvidiaFormatsLaws (F : NvidiaFormats) : Prop := { google_verify_safe g b p v n t : safe (google_verify g b p v n t) (fun _ => True) }.

Section Instance_.
Context `{X : X509} `{K : CpuCrypto} `{H : Sha2} `{GX : GpuX509} `{OF : OcspFormats} `{P : Spdm.P384} `{PK : !P384Keys P} `{XM : Xml} `{DD : DiceDer}.
Context `{F : NvidiaFormats}.
Definition nvidia : GpuAppraiser := {|
  Attestation.GpuPolicy := GpuVerify.GpuPolicy; Attestation.GpuVerifier := GpuVerify.GpuVerifier;
  Attestation.GpuEvidenceBundle := GpuVerify.GpuEvidenceBundle; Attestation.VerifiedGpuBundle := GpuVerify.VerifiedGpuBundle;
  gpu_new := gpu_verifier_new; gpu_verify := gpu_verifier_verify; gpu_bundle_read := bundle_from_reader;
  google_gpu_verify := google_verify |}.
#[global] Instance nvidia_laws {HL : Sha2Laws H} {FL : NvidiaFormatsLaws F} : GpuAppraiserLaws nvidia.
Proof.
  split.
  - intros p. eapply safe_mono; [apply gpu_verifier_new_safe|done].
  - intros v b n t. eapply safe_mono; [apply gpu_verifier_verify_safe|done].
  - intros. apply google_verify_safe.
Qed.
End Instance_.

Section Attested.
Context `{X : X509} `{K : CpuCrypto} `{H : Sha2} `{D : Kds} `{C : CborValues} `{J : IntelDocs} `{R : DerPrims}.
Context `{L : AzureLibs} `{B : Ciborium} `{Codec : CborCodec} `{G : GoogleHelper} `{TF : TokenFormats}.
Context `{GX : GpuX509} `{OF : OcspFormats} `{P : Spdm.P384} `{PK : !P384Keys P} `{XM : Xml} `{DD : DiceDer} `{F : NvidiaFormats}.
Context {CL : CborValueLaws C} {HL : Sha2Laws H} {FL : NvidiaFormatsLaws F} {KL : CborLaws Codec}.
Context (clock : nat -> option N).
#[local] Existing Instance nvidia.

(** What the verdict says of the GPUs that policy [p] demands. *)
Record gpus_attested (p : GpuVerify.GpuPolicy) (token : EatToken) (vd : AttestationVerdict) : Prop := {
  gt_policy : gpu_policy_wf p;
  gt_bundle : exists v bundle b now, gv_policy v = p /\ gpu vd = Some b /\
    bundle_from_reader (Eat.gpu_evidence token) = Some (bundle, blen (Eat.gpu_evidence token)) /\
    bundle_accepted v bundle (eat_nonce token) now b;
}.
(** C15: GPU evidence end to end.  When a verifier that was built demands the GPUs of
    policy [p], a valid verdict of any token means that the policy is well formed, that the
    token's GPU evidence decodes as a whole to a bundle for the token's own challenge, and
    that the bundle was accepted: its devices are exactly those that [p] enrols. *)
Theorem attested_gpus c v token vd p :
  token_typed token -> build c = Ok v -> verify clock v token = Ok vd -> valid vd = true -> cfg_gpu c = Some p ->
  gpus_attested p token vd.
Proof.
  intros Ht Hb Hv Hvalid Hp. pose proof (build_safe c) as Hs. rewrite Hb in Hs. destruct Hs as (Hok & Hcfg & _).
  destruct (verify_ok clock v token Ht) as (vd' & Hv' & Hd). assert (vd' = vd) as -> by congruence.
  destruct Hd as [[Hf _]|(_ & _ & prior & Hctx & now & fin & q & values & tpm & Ha)]; [congruence|].
  pose proof (ap_gpu _ _ _ _ _ _ _ _ _ _ Ha) as Hg. pose proof (vo_gpu _ Hok) as H0.
  pose proof (gpu_ok_given _ _ _ _ Hok Hg) as Hgiven. rewrite Hcfg in H0, Hgiven. cbn in H0, Hgiven. rewrite Hp in H0, Hgiven.
  destruct H0 as (_ & vf & Hvf & Hnew). inversion Hg as [Ha1 Ha2 Ha3|vf' bundle b Hsuite Hvf' Hread Hver Hgoogle Heq]; [by rewrite <- Ha3 in Hgiven|].
  assert (vf' = vf) as -> by congruence. cbn in Hnew, Hver, Hread.
  destruct (safe_Ok _ _ _ (gpu_verifier_new_safe p) Hnew) as [Hvp Hw].
  pose proof (safe_Ok _ _ _ (gpu_verifier_verify_safe vf bundle (eat_nonce token) now) Hver) as Hacc.
  split; [done|]. by exists vf, bundle, b, now.
Qed.
End Attested.

(** * An Azure token with a GPU *)
Definition gpu_evidence_bytes : bytes := [x47].
Definition gpu_token : EatToken := {|
  Eat.version := EAT_VERSION; Eat.eat_profile := EAT_PROFILE; binding_suite := BINDING_SUITE_COMPOSITE; value_x := replicate 48 x01;
  platform := 4; platform_measurement := []; platform_quote := [x7b; x33];
  tls_spki_hash := sha256 (Sha2 := azure_sha2) [x30]; source_hash := replicate 48 x02; artifact_hash := replicate 48 x03;
  iat := 10; eat_nonce := replicate 32 x06; previous_attestation := []; gpu_evidence := gpu_evidence_bytes; boot_evidence := [] |}.
Lemma gpu_token_typed : token_typed gpu_token.
Proof. split; vm_compute; solve [reflexivity|discriminate]. Qed.
Definition gpu_azure_libs : AzureLibs := {|
  evidence_from_slice := fun b =>
    if bytes_eqb b [x7b; x33] then Some (azure_evidence_for (report_data_64 (H := azure_sha2) gpu_token None)) else None;
  evidence_to_vec := fun _ => None; azure_policy_from_slice := fun _ => None;
  claims_from_slice := claims_from_slice (AzureLibs := sample_azure_libs);
  b64url_decode := b64url_decode (AzureLibs := sample_azure_libs); b64url_encode := b64url_encode (AzureLibs := sample_azure_libs);
  RsaPublicKey := bytes; rsa_new := Some; rsa_spki_der := Some; rsa_size := blen;
  rsa_pkcs1_verify := fun k d s => bytes_eqb s (pad 256 (take 1 k ++ d)) |}.
Definition sample_nvidia : NvidiaFormats := {|
  bundle_from_reader := fun b =>
    if bytes_eqb b gpu_evidence_bytes then Some (gpu_bundle (replicate 32 x06) good_measurements, 1) else None;
  google_verify := fun _ _ _ _ _ _ => Err (Msg "no Google") |}.
Lemma sample_nvidia_laws : NvidiaFormatsLaws sample_nvidia.
Proof. done. Qed.
Definition gpu_x509 : X509 := plain_base64 amd_x509.

Section Sample.
#[local] Existing Instances gpu_x509 amd_cpu azure_sha2 no_kds sample_cbor no_docs toy_der gpu_azure_libs sample_ciborium chain_codec
  no_google any_formats Rim.toy_p384 toy_gpu_x509 toy_ocsp toy_p384_keys toy_xml secure_dice sample_nvidia nvidia
  sample_cbor_laws azure_sha2_laws chain_codec_laws sample_nvidia_laws.
Definition gpu_config : Config (GA := nvidia) := {|
  cfg_nonce := Some (replicate 32 x06); cfg_spki := [x30]; cfg_value_x := Some (replicate 48 x01);
  cfg_platform := Some AzureSnpVtpm; cfg_measurement := Some (replicate 48 x44);
  cfg_cpu_collateral := Some (CollateralAmdSnp amd_collateral); cfg_cpu_tcb_policy := Some (PolicyAmdSnp (amd_policy 2 5));
  cfg_azure_policy := Some azure_policy; cfg_nitrotpm_policy := None; cfg_max_age := 60; cfg_require_gpu := true;
  cfg_boot := None; cfg_uki := None; cfg_google_boot_verifier := None; cfg_google_tdx_verifier := None;
  cfg_google_gpu_verifier := None; cfg_prior_stage_policy := None; cfg_gpu := Some gpu_policy |}.
Definition device_count (vd : AttestationVerdict (GA := nvidia)) : option nat :=
  match gpu vd with Some b => Some (length (vb_devices b)) | None => None end.
Definition gpu_run : res AttError (bool * option nat) :=
  v ← build gpu_config;
  vd ← verify sample_clock v gpu_token;
  Ok (valid vd, device_count vd).
Example gpu_token_accepted : gpu_run = Ok (true, Some 1%nat).
Proof. vm_compute. reflexivity. Qed.
Lemma attested_gpus_witness : exists vd, valid vd = true /\ gpus_attested gpu_policy gpu_token vd.
Proof.
  pose proof gpu_token_accepted as Hr. unfold gpu_run in Hr.
  destruct (build gpu_config) as [v|e| |] eqn:Eb; [rewrite res_bind_Ok in Hr|discriminate Hr..].
  destruct (verify sample_clock v gpu_token) as [vd|e| |] eqn:Ev; [rewrite res_bind_Ok in Hr|discriminate Hr..].
  assert (valid vd = true) as Hv by (destruct (valid vd); [reflexivity|discriminate Hr]).
  exists vd. split; [exact Hv|]. exact (attested_gpus sample_clock gpu_config v gpu_token vd gpu_policy gpu_token_typed Eb Ev Hv eq_refl).
Defined.
End Sample.
