(* ===== verification/Collector.v ===== *)
(** * Collector: evidence for a token, collected
    ([src/v2/src/attestation.rs], the collector)

    The producer's side.  A collector is configured with the claims of a token (nonce,
    TLS key, Value X, boot log, build claims); it collects GPU evidence first, puts
    everything into a token, and asks the hardware to sign the report data of exactly
    that token.  The hardware is one of four profiles: a direct quote of the platform
    that was detected (through the interface [Tee.provides]), a TDX quote through
    Google's helper, Azure's composite, and AWS's SNP report with a NitroTPM document.

    [collected_token]: a token that is returned is well formed, carries the configured
    claims, and its evidence is for its own report data; since writing the quote into
    the token does not change the report data, this is what the verifier recomputes.

    The device libraries of GPUs and the client that acquires their collateral are the
    interface [GpuDevices]. *)
From S2P Require Import Prelude Bytes Text Crypto Spdm Opaque Eat Pki NitroQuote NitroTpm SnpQuote TdxQuote SnpCollateral TdxCollateral Azure GpuVerify Effects Host Tsm Cms Nsm Tee Verdict Tools AzureCollect Google Attestation Chain.

(** ** Definitions *)
Inductive GpuTopologyMode : Type := AutoDetect | Independent | ProtectedPcie.
Record BuildClaims : Type := { cl_source_hash : bytes; cl_artifact_hash : bytes; cl_previous_attestation : bytes }.
Record CollectorBuilder : Type := {
  cb_nonce : option bytes; cb_spki : bytes; cb_value_x : option bytes; cb_boot : bytes; cb_build_claims : option BuildClaims;
  cb_cpu_profile : CpuCollectionProfile; cb_google : option (GoogleVerifier * TdxTransport); cb_topology : option GpuTopologyMode;
  cb_collateral : option GpuVerify.GpuCollateral;
}.
Record AttestationCollector : Type := { collector_config : CollectorBuilder }.
Definition builder : CollectorBuilder := {|
  cb_nonce := None; cb_spki := []; cb_value_x := None; cb_boot := []; cb_build_claims := None; cb_cpu_profile := Direct; cb_google := None;
  cb_topology := None; cb_collateral := None |}.
Definition collector_nonce (v : bytes) (b : CollectorBuilder) : CollectorBuilder := {|
  cb_nonce := Some v; cb_spki := cb_spki b; cb_value_x := cb_value_x b; cb_boot := cb_boot b; cb_build_claims := cb_build_claims b;
  cb_cpu_profile := cb_cpu_profile b; cb_google := cb_google b; cb_topology := cb_topology b; cb_collateral := cb_collateral b |}.
Definition collector_spki (v : bytes) (b : CollectorBuilder) : CollectorBuilder := {|
  cb_nonce := cb_nonce b; cb_spki := v; cb_value_x := cb_value_x b; cb_boot := cb_boot b; cb_build_claims := cb_build_claims b;
  cb_cpu_profile := cb_cpu_profile b; cb_google := cb_google b; cb_topology := cb_topology b; cb_collateral := cb_collateral b |}.
Definition collector_value_x (v : bytes) (b : CollectorBuilder) : CollectorBuilder := {|
  cb_nonce := cb_nonce b; cb_spki := cb_spki b; cb_value_x := Some v; cb_boot := cb_boot b; cb_build_claims := cb_build_claims b;
  cb_cpu_profile := cb_cpu_profile b; cb_google := cb_google b; cb_topology := cb_topology b; cb_collateral := cb_collateral b |}.
Definition collector_boot_log (v : bytes) (b : CollectorBuilder) : CollectorBuilder := {|
  cb_nonce := cb_nonce b; cb_spki := cb_spki b; cb_value_x := cb_value_x b; cb_boot := v; cb_build_claims := cb_build_claims b;
  cb_cpu_profile := cb_cpu_profile b; cb_google := cb_google b; cb_topology := cb_topology b; cb_collateral := cb_collateral b |}.
Definition collector_cpu_profile (v : CpuCollectionProfile) (b : CollectorBuilder) : CollectorBuilder := {|
  cb_nonce := cb_nonce b; cb_spki := cb_spki b; cb_value_x := cb_value_x b; cb_boot := cb_boot b; cb_build_claims := cb_build_claims b;
  cb_cpu_profile := v; cb_google := cb_google b; cb_topology := cb_topology b; cb_collateral := cb_collateral b |}.
Definition collector_google_tdx (g : GoogleVerifier) (v : TdxTransport) (b : CollectorBuilder) : CollectorBuilder := {|
  cb_nonce := cb_nonce b; cb_spki := cb_spki b; cb_value_x := cb_value_x b; cb_boot := cb_boot b; cb_build_claims := cb_build_claims b;
  cb_cpu_profile := cb_cpu_profile b; cb_google := Some (g, v); cb_topology := cb_topology b; cb_collateral := cb_collateral b |}.
Definition collector_build_claims (v : BuildClaims) (b : CollectorBuilder) : CollectorBuilder := {|
  cb_nonce := cb_nonce b; cb_spki := cb_spki b; cb_value_x := cb_value_x b; cb_boot := cb_boot b; cb_build_claims := Some v;
  cb_cpu_profile := cb_cpu_profile b; cb_google := cb_google b; cb_topology := cb_topology b; cb_collateral := cb_collateral b |}.
Definition collector_gpu_topology (v : GpuTopologyMode) (b : CollectorBuilder) : CollectorBuilder := {|
  cb_nonce := cb_nonce b; cb_spki := cb_spki b; cb_value_x := cb_value_x b; cb_boot := cb_boot b; cb_build_claims := cb_build_claims b;
  cb_cpu_profile := cb_cpu_profile b; cb_google := cb_google b; cb_topology := Some v; cb_collateral := cb_collateral b |}.
Definition collector_gpu_collateral (v : GpuVerify.GpuCollateral) (b : CollectorBuilder) : CollectorBuilder := {|
  cb_nonce := cb_nonce b; cb_spki := cb_spki b; cb_value_x := cb_value_x b; cb_boot := cb_boot b; cb_build_claims := cb_build_claims b;
  cb_cpu_profile := cb_cpu_profile b; cb_google := cb_google b; cb_topology := cb_topology b; cb_collateral := Some v |}.

Class GpuDevices := {
  (** [NvmlCollector::open()?.collect(nonce)] *)
  nvml_collect : Trace -> bytes -> option GpuVerify.GpuEvidenceBundle;
  (** [NscqCollector::open()?.collect(nonce)] *)
  nscq_collect : Trace -> bytes -> option (list GpuVerify.SwitchEvidence);
  (** [NvidiaCollateralClient::new()?.acquire_for_bundle(bundle, nonce, now, cache)] *)
  acquire_for_bundle : Trace -> GpuVerify.GpuEvidenceBundle -> bytes -> N -> option GpuVerify.GpuCollateral;
  (** [ciborium::ser::into_writer] *)
  bundle_into_writer : GpuVerify.GpuEvidenceBundle -> option bytes;
  (** [serde_json::to_vec] of AWS evidence *)
  aws_to_vec : AwsSnpNitroTpmEvidence -> option bytes;
}.
Definition is_ppcie (m : ConfidentialMode) : bool := match m with Ppcie => true | _ => false end.
Definition gpu_mode (acc : list ConfidentialMode) (gpu : GpuVerify.GpuEvidence) : res AttError (list ConfidentialMode) :=
  r ← att_spdm (parse_report (ge_attestation_report gpu));
  d ← att_opaque (parse_opaque (opaque_data r));
  m ← att_opaque (mode d);
  Ok (acc ++ [m]).
Definition detect_fabric (bundle : GpuVerify.GpuEvidenceBundle) (topology : GpuTopologyMode) : res AttError bool :=
  match topology with
  | Independent => Ok false
  | ProtectedPcie => Ok true
  | AutoDetect =>
    modes ← for_each gpu_mode [] (gpus bundle);
    let fabric := existsb is_ppcie modes in
    att_need (negb fabric || forallb is_ppcie modes) "mixed GPU topology during collection";;
    Ok fabric
  end.
Definition set_switches (e : GpuVerify.GpuEvidenceBundle) (sw : list GpuVerify.SwitchEvidence) : GpuVerify.GpuEvidenceBundle := {|
  bundle_version := bundle_version e; bundle_nonce := bundle_nonce e; bundle_driver_version := bundle_driver_version e; cc_state := cc_state e;
  gpus := gpus e; switches := sw; collateral := collateral e |}.
Definition set_collateral (e : GpuVerify.GpuEvidenceBundle) (c : GpuVerify.GpuCollateral) : GpuVerify.GpuEvidenceBundle := {|
  bundle_version := bundle_version e; bundle_nonce := bundle_nonce e; bundle_driver_version := bundle_driver_version e; cc_state := cc_state e;
  gpus := gpus e; switches := switches e; collateral := c |}.

Section Collector.
Context `{OS : Host} {DV : SnpDevice OS} {DR : NsmDriver OS} `{KC : KmsCrypto} {NK : NsmKeys KC} `{M : Machine} {GD : GpuDevices}.
Context `{X : X509} `{H : Sha2} `{L : AzureLibs} `{B : Ciborium} `{Codec : CborCodec} `{G : GoogleHelper} `{TF : TokenFormats}.

Definition check_build_claims (claims : BuildClaims) : res AttError unit :=
  att_need (any_nonzero (cl_source_hash claims) && any_nonzero (cl_artifact_hash claims)) "build claims require nonzero source and artifact hashes";;
  att_need (blen (cl_previous_attestation claims) <=? 8 * MiB) "prior-stage receipt exceeds limit";;
  if negb (blen (cl_previous_attestation claims) =? 0) then from ← att_eat (from_cbor (cl_previous_attestation claims)); Ok tt else Ok tt.
Definition collector_build (b : CollectorBuilder) : res AttError AttestationCollector :=
  CpuCollectionProfile_validate (cb_cpu_profile b);;
  att_need (match cb_google b, cb_cpu_profile b with None, _ | _, Direct => true | _, _ => false end)
    "Google TDX collection requires the direct CPU profile";;
  att_need (is_some (cb_nonce b) && some_nonzero (cb_value_x b)) "collector requires an explicit nonce and nonzero Value X";;
  validate_spki (cb_spki b);;
  match cb_build_claims b with Some claims => check_build_claims claims | None => Ok tt end;;
  att_need (blen (cb_boot b) <=? 16 * MiB) "boot log exceeds limit";;
  Ok {| collector_config := b |}.

(** ** The token before it is quoted *)
Definition clock_now : AIO N := now ← now_secs; io_some now "system clock is before the epoch".
Definition claimed_token (b : CollectorBuilder) (platform : Platform) (nonce value_x : bytes) (created : N) (gpu : bytes) (now : N) : EatToken :=
  let t := from_build_with_nonce created {| bc_platform := platform; bc_value_x := value_x; bc_source_hash := replicate 48 x00;
    bc_artifact_hash := replicate 48 x00; bc_platform_measurement := []; bc_platform_quote := [] |} nonce in
  let claims := cb_build_claims b in
  {| version := version t; eat_profile := eat_profile t; binding_suite := BINDING_SUITE_COMPOSITE; Eat.value_x := Eat.value_x t;
     Eat.platform := Eat.platform t; platform_measurement := platform_measurement t; platform_quote := platform_quote t;
     tls_spki_hash := sha256 (cb_spki b); source_hash := from_option cl_source_hash (source_hash t) claims;
     artifact_hash := from_option cl_artifact_hash (artifact_hash t) claims; iat := now; eat_nonce := eat_nonce t;
     previous_attestation := from_option cl_previous_attestation (previous_attestation t) claims; gpu_evidence := gpu; boot_evidence := cb_boot b |}.
Definition collect_gpus (b : CollectorBuilder) (topology : GpuTopologyMode) (nonce : bytes) : AIO bytes :=
  o ← act (fun t => (Called (lit "nvml") nonce, nvml_collect t nonce));
  bundle ← io_some o "GPU collection";
  fabric ← lift (detect_fabric bundle topology);
  bundle ← (if fabric : bool then
              s ← act (fun t => (Called (lit "nscq") nonce, nscq_collect t nonce));
              sw ← io_some s "switch collection";
              io_need (negb (blen sw =? 0)) "PPCIE collection requires NVSwitch evidence";;
              mret (set_switches bundle sw)
            else mret bundle);
  c ← (match cb_collateral b with
       | Some c => mret c
       | None =>
         now ← clock_now;
         a ← act (fun t => (Called (lit "collateral") nonce, acquire_for_bundle t bundle nonce now));
         io_some a "collateral acquisition"
       end);
  io_some (bundle_into_writer (set_collateral bundle c)) "CBOR encoding".

(** ** The quote *)
Definition finished (token : EatToken) (measurement quote : bytes) : AIO EatToken :=
  let token := set_quote token measurement quote in lift (att_eat (validate_shape token));; mret token.
Definition collect_azure (token : EatToken) (indices : list N) : AIO EatToken :=
  evidence ← azure_collect (report_data_64 token None) indices;
  q ← io_some (evidence_to_vec evidence) "JSON";
  finished token (platform_measurement token) q.
Definition collect_aws (token : EatToken) (nonce : bytes) : AIO EatToken :=
  let report_data := report_data_64 token None in
  c ← converts FromTee SnpProvider_new;
  snp ← converts FromTee (collect_snp_evidence c report_data);
  io_need (bool_decide (te_platform snp = SevSnp)) "unexpected SNP provider";;
  document ← collect_nitrotpm_document nonce (Some report_data);
  let evidence := {| aws_version := 1; snp_report := raw_quote snp; nitrotpm_document := document |} in
  lift (aws_validate evidence);;
  m ← lift (index_range (snp_report evidence) 0x90 0xc0);
  q ← io_some (aws_to_vec evidence) "JSON";
  finished token m q.
Definition collect_google (token : EatToken) (g : GoogleVerifier) (transport : TdxTransport) : AIO EatToken :=
  quote ← lift (collect_tdx g transport (report_data_64 token None));
  from ← lift (tdx_body_offset quote);
  m ← lift (index_range quote (from + 136) (from + 184));
  finished token m quote.
Definition tdx_shape (quote : bytes) : res AttError bool :=
  if 636 <=? blen quote then
    v ← index_range quote 0 2;
    if bytes_eqb v [x04; x00] then t ← index_range quote 4 8; Ok (bytes_eqb t [x81; x00; x00; x00]) else Ok false
  else Ok false.
Definition quoted_measurement (platform : Platform) (quote : bytes) : res AttError bytes :=
  match platform with
  | Tdx =>
    ok ← tdx_shape quote;
    att_need ok "TDX collection did not return a v4 signed quote; configure configfs-TSM/QGS";;
    s ← index_range quote 632 636;
    att_need ((0 <? le_to_N s) && (le_to_N s =? blen quote - 636)) "incomplete TDX quote signature data";;
    index_range quote 184 232
  | SevSnp => att_need (1184 <=? blen quote) "incomplete SNP attestation report";; index_range quote 0x90 0xc0
  | _ => Ok []
  end.
Definition collect_direct (token : EatToken) (platform : Platform) (provider : option TeeProvider) : AIO EatToken :=
  p ← io_some provider "missing direct provider";
  quote ← converts FromTee (tp_collect_evidence p (report_data_64 token None));
  io_need (bool_decide (te_platform quote = platform)) "CPU platform changed during collection";;
  m ← lift (quoted_measurement (te_platform quote) (raw_quote quote));
  finished token m (raw_quote quote).

Definition collect_with (b : CollectorBuilder) (nonce : bytes) (platform : Platform) (provider : option TeeProvider) : AIO EatToken :=
  value_x ← io_some (cb_value_x b) "missing Value X";
  created ← now_secs;
  clock_now;;
  gpu ← (match cb_topology b with Some topology => collect_gpus b topology nonce | None => mret [] end);
  now ← clock_now;
  let token := claimed_token b platform nonce value_x (default 0 created) gpu now in
  lift (att_eat (validate_shape token));;
  match cb_cpu_profile b with
  | ProfileAzureSnpVtpm indices => collect_azure token indices
  | ProfileAwsSnpNitroTpm => collect_aws token nonce
  | Direct => match cb_google b with Some (g, transport) => collect_google token g transport | None => collect_direct token platform provider end
  end.
(** The provider is dropped when the collection ends, however it ends. *)
Definition dropping {A} (p : TeeProvider) (m : AIO A) : AIO A := fun t => let '(r, t') := m t in (r, (tp_drop p t').2).
Definition collect (c : AttestationCollector) : AIO EatToken :=
  let b := collector_config c in
  nonce ← io_some (cb_nonce b) "missing nonce";
  match cb_cpu_profile b, cb_google b with
  | Direct, None => p ← converts FromTee detect_tee; dropping p (collect_with b nonce (tp_platform p) (Some p))
  | Direct, Some _ => collect_with b nonce Tdx None
  | ProfileAzureSnpVtpm _, _ => collect_with b nonce AzureSnpVtpm None
  | ProfileAwsSnpNitroTpm, _ => collect_with b nonce AwsSnpNitroTpm None
  end.
End Collector.

(** * Lemmas *)
(** ** What is collected *)
Definition zeros48 : bytes := replicate 48 x00.
(** The GPU evidence: none, or a bundle of the configured topology, with its switches if
    the devices form a fabric. *)
Definition gpu_committed {GD : GpuDevices} (b : CollectorBuilder) (gpu : bytes) : Prop :=
  match cb_topology b with
  | None => gpu = []
  | Some topology => exists bundle fabric, bundle_into_writer bundle = Some gpu /\ detect_fabric bundle topology = Ok fabric /\
      (fabric = true -> switches bundle <> [])
  end.
(** The claims of a token are those of the configuration. *)
Record committed {GD : GpuDevices} `{H : Sha2} (b : CollectorBuilder) (platform : Platform) (token : EatToken) : Prop := {
  cm_platform : Eat.platform_enum token = Some platform;
  cm_suite : binding_suite token = BINDING_SUITE_COMPOSITE;
  cm_nonce : cb_nonce b = Some (eat_nonce token);
  cm_value_x : cb_value_x b = Some (Eat.value_x token);
  cm_tls : tls_spki_hash token = sha256 (cb_spki b);
  cm_source : source_hash token = from_option cl_source_hash zeros48 (cb_build_claims b);
  cm_artifact : artifact_hash token = from_option cl_artifact_hash zeros48 (cb_build_claims b);
  cm_previous : previous_attestation token = from_option cl_previous_attestation [] (cb_build_claims b);
  cm_boot : boot_evidence token = cb_boot b;
  cm_gpu : gpu_committed b (gpu_evidence token);
}.
(** The widths that the types of the builder carry. *)
Record builder_typed (b : CollectorBuilder) : Prop := {
  bt_nonce v : cb_nonce b = Some v -> blen v = 32;
  bt_value_x v : cb_value_x b = Some v -> blen v = 48;
  bt_claims c : cb_build_claims b = Some c -> blen (cl_source_hash c) = 48 /\ blen (cl_artifact_hash c) = 48;
}.

Section Spec.
Context `{OS : Host} {DV : SnpDevice OS} {DR : NsmDriver OS} `{KC : KmsCrypto} {NK : NsmKeys KC} `{M : Machine} {ML : MachineLaws M} {GD : GpuDevices}.
Context `{X : X509} `{H : Sha2} {HL : Sha2Laws H} `{L : AzureLibs} `{B : Ciborium} `{Codec : CborCodec} `{G : GoogleHelper} `{TF : TokenFormats}.

(** The evidence of a token, collected between two traces, is for its own report data. *)
Definition aws_answer (token : EatToken) (rd : bytes) : Prop :=
  exists e pcrs report table, aws_to_vec e = Some (platform_quote token) /\ snp_report e = report ++ table /\ snp_echo report rd /\
    inspect_document (nitrotpm_document e) (eat_nonce token) (Some rd) = Ok pcrs /\ platform_measurement token = slice report 0x90 0xc0.
Definition direct_answer (t t' : Trace) (platform : Platform) (token : EatToken) (rd : bytes) : Prop :=
  carries t t' platform rd (platform_quote token) /\
  platform_measurement token = match platform with
    | Tdx => slice (platform_quote token) 184 232 | SevSnp => slice (platform_quote token) 0x90 0xc0 | _ => [] end.
Definition answers (t t' : Trace) (b : CollectorBuilder) (platform : Platform) (token : EatToken) : Prop :=
  let rd := report_data_64 token None in
  match cb_cpu_profile b with
  | ProfileAzureSnpVtpm indices => exists e, evidence_to_vec e = Some (platform_quote token) /\ collected_evidence rd indices e
  | ProfileAwsSnpNitroTpm => aws_answer token rd
  | Direct => match cb_google b with
              | Some (g, transport) => collect_tdx g transport rd = Ok (platform_quote token) /\ exists start,
                  tdx_framed (platform_quote token) start /\ platform_measurement token = slice (platform_quote token) (start + 136) (start + 184)
              | None => direct_answer t t' platform token rd
              end
  end.

(** Writing the quote keeps the claims and the report data. *)
Lemma committed_set_quote b p token m q : committed b p token -> committed b p (set_quote token m q).
Proof. by intros []. Qed.
Lemma report_data_set_quote token m q c : report_data_64 (set_quote token m q) c = report_data_64 token c.
Proof. done. Qed.
Lemma finished_safe token m q (P : EatToken -> Prop) t t1 :
  extends tidy t t1 -> P (set_quote token m q) ->
  vsafe (finished token m q) (extends tidy t) (fun token' t' => t' = t1 /\ P token' /\ validate_shape token' = Ok tt) t1.
Proof.
  intros Ht HP. unfold finished. apply vsafe_bind, vsafe_lift; [done|]. pose proof (validate_shape_safe (set_quote token m q)) as Hs.
  destruct (validate_shape (set_quote token m q)) as [[]|e| |] eqn:E; done.
Qed.
Lemma collect_azure_safe token indices t :
  vsafe (collect_azure token indices) (extends tidy t) (fun token' t' => extends tidy t t' /\ validate_shape token' = Ok tt /\
    exists e q, token' = set_quote token (platform_measurement token) q /\ evidence_to_vec e = Some q /\ collected_evidence (report_data_64 token None) indices e) t.
Proof.
  apply vsafe_bind. eapply vsafe_mono; [apply azure_collect_safe|]. cbv beta. intros e t1 (He & c & t0 & H0 & Hs).
  assert (extends tidy t t1) as H1 by (eapply extends_tidy_trans; [by apply extends_quiet_tidy|by eapply azure_session_tidy]).
  apply vsafe_bind, io_some_safe; [done|]. intros q Hq.
  eapply vsafe_mono; [by apply (finished_safe token _ q (fun token' => token' = set_quote token (platform_measurement token) q))|].
  cbv beta. intros token' t2 (-> & -> & Hv). split; [done|]. split; [done|]. by exists e, q.
Qed.
Lemma snp_measure (report table : bytes) : blen report = REPORT_BYTES -> index_range (E := AttError) (report ++ table) 0x90 0xc0 = Ok (slice report 0x90 0xc0).
Proof. intros Hl. unfold REPORT_BYTES in Hl. rewrite index_range_slice by (rewrite ?blen_app; lia). f_equal. apply slice_left; lia. Qed.
Lemma collect_aws_safe token nonce t : eat_nonce token = nonce ->
  vsafe (collect_aws token nonce) (extends tidy t) (fun token' t' => extends tidy t t' /\ validate_shape token' = Ok tt /\
    exists m q, token' = set_quote token m q /\ aws_answer token' (report_data_64 token None)) t.
Proof.
  intros Hn. unfold collect_aws. set (rd := report_data_64 token None). apply vsafe_bind, vsafe_converts.
  eapply vsafe_mono; [apply snp_new_safe|]. intros c t1 H1. apply vsafe_bind, vsafe_converts.
  eapply vsafe_weaken; [eapply vsafe_mono; [apply collect_snp_safe|]|by intros t'; apply extends_tidy_trans].
  cbv beta. intros e t2 [H2 He]. assert (extends tidy t t2) as H2' by exact (extends_tidy_trans _ _ _ H1 H2).
  apply vsafe_bind, io_need_safe; [done|]. intros _. apply vsafe_bind.
  eapply vsafe_weaken; [eapply vsafe_mono; [apply nitro_document_safe|]|by intros t'; apply extends_tidy_trans].
  cbv beta. intros doc t3 Hd. assert (extends tidy t t3) as H3 by (eapply extends_tidy_trans; [exact H2'|by eapply nitro_document_tidy]).
  destruct Hd as (t4 & tool & _ & _ & [_ _ (pcrs & Hp)]). destruct (sv_parts _ _ He) as (report & table & Hraw & Hecho).
  apply vsafe_bind, vsafe_lift; [done|]. unfold aws_validate. att. do 2 (apply safe_bind, safe_ensure; intros _). apply safe_ensure. intros _.
  cbn [snp_report]. rewrite Hraw, (snp_measure report table) by apply Hecho. eapply vsafe_bind, vsafe_pure; [done|]. cbv beta.
  apply vsafe_bind, io_some_safe; [done|]. intros q Hq.
  eapply vsafe_mono; [by apply (finished_safe token _ q (fun token' => token' = set_quote token (slice report 0x90 0xc0) q))|].
  cbv beta. intros token' t5 (-> & -> & Hv). split; [done|]. split; [done|]. exists (slice report 0x90 0xc0), q. split; [done|].
  eexists _, pcrs, report, table. cbn [set_quote platform_quote platform_measurement eat_nonce]. split; [exact Hq|]. cbn [snp_report nitrotpm_document].
  by rewrite Hn.
Qed.
Lemma google_quote_safe g transport rd : safe (collect_tdx g transport rd) (fun _ => True).
Proof.
  unfold collect_tdx. att. eapply safe_seq; [apply invoke_safe|]. intros r _ _. apply safe_bind, safe_ok_or. intros q _.
  eapply safe_seq; [apply tdx_body_offset_safe|]. done.
Qed.
Lemma framed_size quote start : tdx_framed quote start -> start + 184 <= blen quote.
Proof. intros (_ & _ & _ & len & Hl & sig & Hs & _ & He). destruct Hl as [(_ & -> & ->)|(_ & -> & _ & [[_ ->]|[_ ->]])]; lia. Qed.
Lemma collect_google_safe token g transport t :
  vsafe (collect_google token g transport) (extends tidy t) (fun token' t' => extends tidy t t' /\ validate_shape token' = Ok tt /\
    exists m q, token' = set_quote token m q /\ collect_tdx g transport (report_data_64 token None) = Ok q /\
      exists start, tdx_framed q start /\ m = slice q (start + 136) (start + 184)) t.
Proof.
  assert (extends tidy t t) as H0 by apply extends_quiet_tidy, extends_refl. unfold collect_google.
  apply vsafe_bind, vsafe_lift; [done|]. pose proof (google_quote_safe g transport (report_data_64 token None)) as Hs.
  destruct (collect_tdx g transport (report_data_64 token None)) as [q|e| |] eqn:Eq; try done. cbn [safe]. clear Hs.
  apply vsafe_bind, vsafe_lift; [done|]. eapply safe_mono; [apply tdx_body_offset_safe|]. intros start _ Hf.
  pose proof (framed_size _ _ Hf) as Hl. rewrite index_range_slice by lia. eapply vsafe_bind, vsafe_pure; [done|]. cbv beta.
  eapply vsafe_mono; [by apply (finished_safe token _ q (fun token' => token' = set_quote token (slice q (start + 136) (start + 184)) q))|].
  cbv beta. intros token' t1 (-> & -> & Hv). split; [done|]. split; [done|]. exists (slice q (start + 136) (start + 184)), q.
  split; [done|]. split; [done|]. by exists start.
Qed.
Lemma quoted_measurement_safe t t' platform rd quote : carries t t' platform rd quote ->
  safe (quoted_measurement platform quote) (fun m =>
    m = match platform with Tdx => slice quote 184 232 | SevSnp => slice quote 0x90 0xc0 | _ => [] end).
Proof.
  intros Hc. destruct platform; cbn [quoted_measurement]; try done.
  - att. apply safe_bind, safe_ensure. intros Hl%N.leb_le. by rewrite index_range_slice by lia.
  - destruct (te_size _ _ Hc) as [Hl _]. unfold tdx_shape. rewrite (proj2 (N.leb_le 636 (blen quote))) by lia.
    rewrite !index_range_slice by lia. rewrite !res_bind_Ok. cbv beta. rewrite ?res_bind_Ok. cbv beta. att.
    match goal with |- context [if ?c then _ else _] => destruct c end; rewrite res_bind_Ok; cbv beta;
      do 2 (apply safe_bind, safe_ensure; intros _); done.
Qed.
Lemma collect_direct_safe token platform p t : provides p ->
  vsafe (collect_direct token platform (Some p)) (extends tidy t) (fun token' t' => extends tidy t t' /\ validate_shape token' = Ok tt /\
    exists m q, token' = set_quote token m q /\ direct_answer t t' platform token' (report_data_64 token None)) t.
Proof.
  intros Hp. unfold collect_direct. eapply vsafe_bind, vsafe_pure; [done|]. cbv beta. apply vsafe_bind, vsafe_converts.
  eapply vsafe_mono; [apply (pv_collect _ Hp)|]. cbv beta. intros e t1 (H1 & Hpl & Hc).
  apply vsafe_bind, io_need_safe; [done|]. intros He%bool_decide_eq_true. rewrite <- Hpl, He in Hc. rewrite He.
  apply vsafe_bind, vsafe_lift; [done|]. eapply safe_mono; [by eapply quoted_measurement_safe|]. intros m _ Hm.
  eapply vsafe_mono; [by apply (finished_safe token m _ (fun token' => token' = set_quote token m (raw_quote e)))|].
  cbv beta. intros token' t2 (-> & -> & Hv). split; [done|]. split; [done|]. exists m, (raw_quote e). by repeat split.
Qed.

(** ** GPU evidence *)
Lemma clock_now_safe t : vsafe clock_now (extends quiet_trace t) (fun n t' => extends quiet_trace t t' /\ exists t0, clock_at t0 = Some n) t.
Proof. apply vsafe_bind, vsafe_act. cbn [fst snd]. apply io_some_safe; [calm|]. intros n Hn. split; [calm|]. by exists t. Qed.
Lemma detect_fabric_safe bundle topology : safe (detect_fabric bundle topology) (fun _ => True).
Proof.
  destruct topology; cbn [detect_fabric]; [|done..]. eapply safe_seq.
  - apply (safe_for_each _ (fun _ => True)); [done|]. intros acc gpu _ _. unfold gpu_mode. att.
    eapply safe_seq; [apply safe_map_err, safe_parse_report|]. intros r _ _.
    eapply safe_seq; [apply safe_map_err, safe_parse_opaque|]. intros d _ _.
    eapply safe_seq; [apply safe_map_err, mode_safe|]. done.
  - intros modes _ _. att. apply safe_bind, safe_ensure. done.
Qed.
Lemma detect_fabric_gpus e e' topology : gpus e = gpus e' -> detect_fabric e topology = detect_fabric e' topology.
Proof. intros He. destruct topology; [|done..]. cbn [detect_fabric]. by rewrite He. Qed.
Lemma collect_gpus_safe b topology nonce t : cb_topology b = Some topology ->
  vsafe (collect_gpus b topology nonce) (extends quiet_trace t) (fun gpu t' => extends quiet_trace t t' /\ gpu_committed b gpu) t.
Proof.
  intros Htop. apply vsafe_bind, vsafe_act. cbn [fst snd]. apply vsafe_bind, io_some_safe; [calm|]. intros bundle _.
  apply vsafe_bind, vsafe_lift; [calm|]. pose proof (detect_fabric_safe bundle topology) as Hs.
  destruct (detect_fabric bundle topology) as [fabric|e| |] eqn:Ef; try done. clear Hs. cbn [safe].
  apply vsafe_bind. set (t1 := t ++ _). assert (extends quiet_trace t t1) as H1 by (subst t1; calm). clearbody t1.
  eapply (vsafe_mono _ _ (fun bundle' t2 => extends quiet_trace t t2 /\ gpus bundle' = gpus bundle /\ (fabric = true -> switches bundle' <> []))).
  { destruct fabric; [|by apply vsafe_ret]. apply vsafe_bind, vsafe_act. cbn [fst snd]. apply vsafe_bind, io_some_safe; [calm|]. intros sw _.
    apply vsafe_bind, io_need_safe; [calm|]. intros Hsw. apply vsafe_ret. split; [calm|]. split; [done|]. intros _. by destruct sw. }
  cbv beta. intros bundle' t2 (H2 & Hg & Hsw). apply vsafe_bind.
  eapply (vsafe_mono _ _ (fun _ t3 => extends quiet_trace t t3)).
  { destruct (cb_collateral b) as [c|]; [by apply vsafe_ret|]. apply vsafe_bind. eapply quiet_safe; [apply clock_now_safe|done|]. cbv beta.
    intros now t3 H3 _. apply vsafe_bind, vsafe_act. cbn [fst snd]. apply io_some_safe; [calm|]. intros c _. calm. }
  cbv beta. intros c t3 H3. apply io_some_safe; [done|]. intros gpu Hgpu. split; [done|]. unfold gpu_committed. rewrite Htop.
  exists (set_collateral bundle' c), fabric. split; [done|]. split; [|done]. rewrite <- Ef. by apply detect_fabric_gpus.
Qed.

(** ** The collection *)
Context (clock_u64 : forall t n, clock_at t = Some n -> n <= u64_max).
Lemma claimed_committed b platform nonce value_x created gpu now :
  cb_nonce b = Some nonce -> cb_value_x b = Some value_x -> gpu_committed b gpu -> committed b platform (claimed_token b platform nonce value_x created gpu now).
Proof. intros Hn Hv Hg. split; try done. by destruct platform. Qed.
Lemma claimed_typed b platform nonce value_x created gpu now : builder_typed b -> now <= u64_max ->
  cb_nonce b = Some nonce -> cb_value_x b = Some value_x -> token_typed (claimed_token b platform nonce value_x created gpu now).
Proof.
  intros [Hbn Hbv Hbc] Hnow Hn Hv. split; cbn; try done.
  - by apply Hbv.
  - by destruct platform.
  - apply blen_sha256.
  - destruct (cb_build_claims b) as [c|] eqn:Ec; cbn; [by apply Hbc|done].
  - destruct (cb_build_claims b) as [c|] eqn:Ec; cbn; [by apply Hbc|done].
  - by apply Hbn.
Qed.
Lemma typed_set_quote t m q : token_typed t -> token_typed (set_quote t m q).
Proof. by intros []. Qed.
(** A token that carries the claims, with evidence for them. *)
Definition collected (t t' : Trace) (b : CollectorBuilder) (platform : Platform) (token : EatToken) : Prop :=
  token_ok token /\ committed b platform token /\ answers t t' b platform token.
Lemma collected_within t1 t2 b platform token t t' : extends tidy t t1 -> extends tidy t2 t' -> collected t1 t2 b platform token -> collected t t' b platform token.
Proof.
  intros H1 H2 (Hok & Hc & Ha). split; [done|]. split; [done|]. unfold answers in *. destruct (cb_cpu_profile b); [|done..].
  destruct (cb_google b); [done|]. destruct Ha as [Hq Hm]. split; [by eapply carries_within|done].
Qed.
Lemma collect_with_safe b nonce platform provider t : builder_typed b -> cb_nonce b = Some nonce ->
  (cb_cpu_profile b = Direct -> cb_google b = None -> exists p, provider = Some p /\ provides p) ->
  vsafe (collect_with b nonce platform provider) (extends tidy t) (fun token t' => extends tidy t t' /\ collected t t' b platform token) t.
Proof.
  intros Hty Hn Hprov. unfold collect_with. assert (extends tidy t t) as H0 by apply extends_quiet_tidy, extends_refl.
  apply vsafe_bind, io_some_safe; [done|]. intros value_x Hv. apply vsafe_bind, vsafe_act. cbn [fst snd]. generalize (clock_at t). intros created.
  apply vsafe_bind. eapply calm_safe; [apply clock_now_safe|calm|]. cbv beta. intros _ t1 H1 _. apply vsafe_bind.
  eapply (vsafe_weaken _ _ (extends quiet_trace t)); [eapply (vsafe_mono _ _ (fun gpu t2 => extends quiet_trace t t2 /\ gpu_committed b gpu))|apply extends_quiet_tidy].
  { destruct (cb_topology b) as [topology|] eqn:Ht; [|apply vsafe_ret; split; [done|]; unfold gpu_committed; by rewrite Ht].
    eapply quiet_safe; [by apply collect_gpus_safe|done|]. by intros. }
  cbv beta. intros gpu t2 [H2 Hgpu]. apply vsafe_bind. eapply calm_safe; [apply clock_now_safe|done|]. cbv beta.
  intros now t3 H3%extends_quiet_tidy (t0 & Hnow%clock_u64). set (token := claimed_token b platform nonce value_x (default 0 created) gpu now).
  assert (committed b platform token) as Hcm by by apply claimed_committed. assert (token_typed token) as Htok by by apply claimed_typed.
  clearbody token. apply vsafe_bind, vsafe_lift; [done|]. eapply safe_mono; [apply safe_map_err, validate_shape_safe|]. intros _ _ _.
  assert (forall m q t4, validate_shape (set_quote token m q) = Ok tt -> answers t3 t4 b platform (set_quote token m q) -> collected t3 t4 b platform (set_quote token m q)) as Hdone
    by (intros m q t4 Hsh Ha; split; [split; [by apply typed_set_quote|done]|split; [by apply committed_set_quote|done]]).
  assert (forall (m : AIO EatToken) (P : EatToken -> Trace -> Prop),
    vsafe m (extends tidy t3) (fun token' t' => extends tidy t3 t' /\ validate_shape token' = Ok tt /\ P token' t') t3 ->
    (forall token' t', P token' t' -> exists mm q, token' = set_quote token mm q /\ answers t3 t' b platform token') ->
    vsafe m (extends tidy t) (fun token' t' => extends tidy t t' /\ collected t t' b platform token') t3) as Hlift.
  { intros m P Hm HP. eapply vsafe_weaken; [eapply vsafe_mono; [exact Hm|]|intros t'; by apply extends_tidy_trans].
    cbv beta. intros token' t4 (H4 & Hsh & (mm & q & -> & Ha)%HP). split; [by eapply extends_tidy_trans|].
    eapply collected_within; [exact H3| |by eapply Hdone]. apply extends_quiet_tidy, extends_refl. }
  clear Hdone. destruct (cb_cpu_profile b) as [|indices|] eqn:Ep.
  - destruct (cb_google b) as [[g transport]|] eqn:Eg.
    + eapply Hlift; [apply collect_google_safe|]. cbv beta. intros token' t' (m & q & -> & Hq & start & Hf & ->).
      exists (slice q (start + 136) (start + 184)), q. split; [done|]. unfold answers. rewrite Ep, Eg. split; [done|]. by exists start.
    + destruct (Hprov eq_refl eq_refl) as (p & -> & Hp). eapply Hlift; [by apply collect_direct_safe|]. cbv beta.
      intros token' t' (m & q & -> & Ha). exists m, q. split; [done|]. unfold answers. by rewrite Ep, Eg.
  - eapply Hlift; [apply collect_azure_safe|]. cbv beta. intros token' t' (e & q & -> & Hq & He).
    exists (platform_measurement token), q. split; [done|]. unfold answers. rewrite Ep. by exists e.
  - eapply Hlift; [apply collect_aws_safe|].
    + apply cm_nonce in Hcm. congruence.
    + cbv beta. intros token' t' (m & q & -> & Ha). exists m, q. split; [done|]. unfold answers. by rewrite Ep.
Qed.
Lemma dropping_safe {A} p (m : AIO A) (P : A -> Trace -> Prop) t t1 : provides p ->
  (forall a t2 t', extends tidy t2 t' -> P a t2 -> P a t') ->
  vsafe m (extends tidy t) (fun a t' => extends tidy t t' /\ P a t') t1 ->
  vsafe (dropping p m) (extends tidy t) (fun a t' => extends tidy t t' /\ P a t') t1.
Proof.
  intros Hp Hmono. unfold vsafe, dropping. destruct (m t1) as [[a|e| |] t2]; try done; destruct (pv_drop _ Hp t2) as (l & -> & Hl); cbn.
  - assert (extends tidy t2 (t2 ++ l)) as Hl' by (by apply extends_app, tidy_quiet).
    intros [Ht HP]. split; [by eapply extends_tidy_trans|by eapply Hmono].
  - intros Ht. eapply extends_tidy_trans; [exact Ht|]. by apply extends_app, tidy_quiet.
Qed.
(** The platform that a configuration stands for. *)
Definition profile_platform (b : CollectorBuilder) (p : Platform) : Prop :=
  match cb_cpu_profile b, cb_google b with
  | Direct, None => p = Nitro \/ p = Tdx \/ p = SevSnp
  | Direct, Some _ => p = Tdx
  | ProfileAzureSnpVtpm _, _ => p = AzureSnpVtpm
  | ProfileAwsSnpNitroTpm, _ => p = AwsSnpNitroTpm
  end.
Lemma collector_build_inv b c : collector_build b = Ok c -> c = {| collector_config := b |} /\ is_Some (cb_nonce b).
Proof.
  unfold collector_build. att. intros Hb. inv_res. bools. split; [done|]. match goal with Hn : is_some (cb_nonce b) = true |- _ => unfold is_some in Hn end.
  by destruct (cb_nonce b).
Qed.
(** What a builder accepts. *)
Record build_checked (b : CollectorBuilder) : Prop := {
  bc_ready : exists nonce value_x, cb_nonce b = Some nonce /\ cb_value_x b = Some value_x /\ any_nonzero value_x = true;
  bc_spki : 0 < blen (cb_spki b) <= 16384 /\ spki_from_der (cb_spki b) = true;
  bc_google : cb_google b = None \/ cb_cpu_profile b = Direct;
  bc_claims claims : cb_build_claims b = Some claims -> any_nonzero (cl_source_hash claims) = true /\ any_nonzero (cl_artifact_hash claims) = true /\
    (cl_previous_attestation claims = [] \/ exists receipt, from_cbor (cl_previous_attestation claims) = Ok receipt);
  bc_boot : blen (cb_boot b) <= 16 * MiB;
}.
Lemma build_claims_safe claims : safe (check_build_claims claims) (fun _ =>
  any_nonzero (cl_source_hash claims) = true /\ any_nonzero (cl_artifact_hash claims) = true /\
  (cl_previous_attestation claims = [] \/ exists receipt, from_cbor (cl_previous_attestation claims) = Ok receipt)).
Proof.
  unfold check_build_claims. att. apply safe_bind, safe_ensure. intros [Hs Ha]%andb_true_iff. apply safe_bind, safe_ensure. intros _.
  destruct (negb _) eqn:Hn.
  - pose proof (from_cbor_safe (cl_previous_attestation claims)) as Hf. destruct (from_cbor _) as [receipt|e| |]; try done. cbn. eauto.
  - apply negb_false_iff, N.eqb_eq, blen_0 in Hn. cbn. auto.
Qed.
Lemma profile_safe p : safe (CpuCollectionProfile_validate p) (fun _ => True).
Proof. destruct p; cbn [CpuCollectionProfile_validate]; att; [done|by apply safe_ensure|done]. Qed.
(** A builder never panics, and a collector that it returns was checked. *)
Lemma collector_build_safe b : safe (collector_build b) (fun _ => build_checked b).
Proof.
  unfold collector_build. att. eapply safe_seq; [apply profile_safe|]. intros _ _ _. apply safe_bind, safe_ensure. intros Hg.
  apply safe_bind, safe_ensure. intros [Hn Hv]%andb_true_iff. eapply safe_seq; [apply validate_spki_safe|]. intros [] _ Hspki.
  apply (safe_seq _ _ (fun _ => forall claims, cb_build_claims b = Some claims -> any_nonzero (cl_source_hash claims) = true /\ any_nonzero (cl_artifact_hash claims) = true /\
    (cl_previous_attestation claims = [] \/ exists receipt, from_cbor (cl_previous_attestation claims) = Ok receipt))).
  { destruct (cb_build_claims b) as [claims|]; [|done]. eapply safe_mono; [apply build_claims_safe|]. by intros [] _ Hc ? [= <-]. }
  intros [] _ Hc. apply safe_bind, safe_ensure. intros Hb%N.leb_le. cbn [safe].
  destruct (cb_nonce b) as [nonce|] eqn:En, (cb_value_x b) as [value_x|] eqn:Ev; try done. split; [by exists nonce, value_x|done| |done|done].
  destruct (cb_google b), (cb_cpu_profile b); auto; done.
Qed.
(** What the hardware signed fixes the claims: another token with the report data that was
    given to the hardware has the same claims, or the two tokens break SHA-256. *)
Lemma collected_claims_fixed t t' b platform token other c : collected t t' b platform token -> token_ok other ->
  report_data_64 other c = report_data_64 token None -> bound_claims other = bound_claims token \/ sha256_broken other token.
Proof. intros (Hok & _) Ho Hrd%report_data_inj. by apply binding_bytes_inj. Qed.
End Spec.

(** ** A TDX guest *)
Definition sample_builder : CollectorBuilder :=
  collector_nonce (replicate 32 x04) (collector_spki [x30] (collector_value_x (replicate 48 x01) (collector_boot_log (lit "log") builder))).
Definition sample_claimed : EatToken :=
  claimed_token (H := toy_sha2) sample_builder Tdx (replicate 32 x04) (replicate 48 x01) 1700000000 [] 1700000000.
Definition quote_of_report (rd : bytes) : bytes :=
  N_to_le 2 4 ++ N_to_le 2 2 ++ N_to_le 4 0x81 ++ replicate 560 x00 ++ rd ++ N_to_le 4 134 ++ replicate 134 x01.
Definition guest_host : Host :=
  only_configfs [(lit "provider", lit "tdx_guest"); (lit "outblob", quote_of_report (report_data_64 (H := toy_sha2) sample_claimed None))].
Definition no_gpus : GpuDevices := {|
  nvml_collect := fun _ _ => None; nscq_collect := fun _ _ => None; acquire_for_bundle := fun _ _ _ _ => None;
  bundle_into_writer := fun _ => None; aws_to_vec := fun _ => None |}.
Notation run_collect c := (collect (OS := guest_host) (DV := no_snp) (DR := no_nsm) (NK := toy_keys) (M := azure_machine []) (GD := no_gpus)
  (X := amd_x509) (H := toy_sha2) (L := sample_azure_libs) (B := sample_ciborium) (G := no_google) c []).
Lemma sample_build : collector_build (Codec := sample_codec) (TF := any_formats) sample_builder = Ok {| collector_config := sample_builder |}.
Proof. vm_compute. reflexivity. Qed.
Lemma sample_builder_typed : builder_typed sample_builder.
Proof. split; try done; by intros v [= <-]. Qed.
Example collected_quote : exists t', run_collect {| collector_config := sample_builder |} =
  (Ok (set_quote sample_claimed (replicate 48 x00) (quote_of_report (report_data_64 (H := toy_sha2) sample_claimed None))), t').
Proof. eexists. vm_compute. reflexivity. Qed.
Lemma sample_run_ok : (match (run_collect {| collector_config := sample_builder |}).1 with Ok _ => true | _ => false end) = true.
Proof. vm_compute. reflexivity. Qed.
