(* ===== verification/Registry.v ===== *)
(** * Registry: approved values of Value X
    ([src/v2/src/registry.rs])

    A registry is a directory of JSON entries, each with an optional detached signature,
    and a signed snapshot with an expiry.  A trust root lists the identities whose
    signatures count.  Loading reads the directory in the order the file system gives;
    of two entries for one value the later replaces the earlier.

    [registry_lookup_exact]: a lookup is the last entry of the directory for that value,
    with the state of its own signature; an entry that is reported as verified, and a
    status of a fresh snapshot, is signed by a raw key of the trust root over the very
    bytes that were parsed.  [default_registry_unsigned]: the project's own
    trust root contains only keyless identities, which verify nothing, so the default
    registry never reports a verified entry or a fresh snapshot; it answers with the last
    entry of the files of its directories, and only for a value that none of them names
    with the first entry of the document of the earlier format.

    The file system, JSON and the reader of public keys are parameters. *)
From S2P Require Import Prelude Bytes Text Crypto Pki Effects Host.

Inductive Status : Type := Recommended | Deprecated | Revoked.
Record PlatformMeasurements : Type := { nitro_pcr0 : option bytes; tdx_mrtd : option bytes; snp_measurement : option bytes }.
Record Entry : Type := {
  e_value_x : bytes; source_commit : option bytes; platform_measurements : PlatformMeasurements; e_status : Status; approved_at : bytes;
  deprecated_at : option bytes; revoked_at : option bytes; notes : bytes;
}.
Inductive SignatureState : Type := Verified | Untrusted | Missing.
Inductive RegistryLookup : Type := LookupFound (e : Entry) (signature : SignatureState) | LookupUnknown.
Record SnapshotEntry : Type := { se_value_x : bytes; se_status : Status }.
Record Snapshot : Type := { snap_version : N; generated_at : N; expires_at : N; snap_entries : list SnapshotEntry }.
Inductive SnapshotState : Type := Fresh | Expired | SnapshotUntrusted | SnapshotMissing.
#[global] Instance SnapshotState_eq_dec : EqDecision SnapshotState.
Proof. solve_decision. Defined.
Inductive TrustedIdentity : Type :=
| SigstoreKeyless (issuer subject_pattern : bytes)
| RawPublicKey (algorithm spki_der label : bytes).
Record TrustRoot : Type := { identities : list TrustedIdentity }.
Record Sidecar : Type := { sc_sig : bytes; sc_alg : option bytes; sc_cert_pem : option bytes }.
Inductive Json : Type :=
| JNull | JBool (b : bool) | JNumber (text : bytes) | JString (s : bytes) | JArray (l : list Json) | JObject (fields : list (bytes * Json)).
Inductive RegistryError : Type := RegIo | RegMsg (m : string).

Class RegistryFormats := {
  entry_from_str : bytes -> option Entry;
  snapshot_from_slice : bytes -> option Snapshot;
  (** [SidecarJson]: algorithm, signature, certificate *)
  sidecar_from_str : bytes -> option (option bytes * bytes * option bytes);
  json_from_str : bytes -> option Json;
  (** [SubjectPublicKeyInfoRef::from_der]: the algorithm's OID, and the key when it is whole bytes *)
  spki_ref : bytes -> option (bytes * option bytes);
}.
Class RegistryFs := {
  fs_exists : bytes -> bool;
  fs_is_dir : bytes -> bool;
  fs_is_file : bytes -> bool;
  (** the paths in a directory, in the order of [read_dir], or errors *)
  fs_read_dir : bytes -> option (list (option bytes));
  fs_read : bytes -> option bytes;
  fs_now : N;
}.

Definition snapshot_expired (s : Snapshot) (now : N) : bool := expires_at s <? now.
Definition status_of (s : Snapshot) (value_x : bytes) : option Status :=
  se_status <$> List.find (fun e => bytes_eqb (se_value_x e) value_x) (snap_entries s).
Definition trust_empty : TrustRoot := {| identities := [] |}.
Definition trust_with (root : TrustRoot) (id : TrustedIdentity) : TrustRoot := {| identities := identities root ++ [id] |}.
Definition uq_default : TrustRoot := trust_with trust_empty (SigstoreKeyless (lit "https://token.actions.githubusercontent.com")
  (lit "https://github.com/maceip/uq-runner/.github/workflows/registry-sign.yml@refs/heads/main")).

(** [Path::extension] *)
Definition file_name (path : bytes) : bytes := default [] (last (split_byte slash path)).
Definition DOT : byte := x2e.
Definition extension (path : bytes) : option bytes :=
  match rev (split_byte DOT (file_name path)) with
  | [] | [_] => None
  | ext :: rest => if bool_decide (rest = [[]]) then None else Some ext
  end.

Section Signatures.
Context `{X : X509} `{K : CpuCrypto} `{H : Sha2} `{SG : Ed25519} `{RF : RegistryFormats}.
Definition parse_sidecar (raw : bytes) : option Sidecar :=
  t ← from_utf8 raw;
  let text := str_trim t in
  if starts_with [x7b] text then
    '(alg, sig, cert) ← sidecar_from_str text;
    s ← base64_decode (str_trim sig);
    Some {| sc_sig := s; sc_alg := alg; sc_cert_pem := cert |}
  else s ← base64_decode text; Some {| sc_sig := s; sc_alg := None; sc_cert_pem := None |}.
Definition verify_ed25519 (key msg sig : bytes) : bool :=
  (blen key =? 32) && vk_valid key && (blen sig =? 64) && ed_verify key msg sig.
Definition verify_ecdsa_p256 (point msg sig : bytes) : bool :=
  match from_sec1 p256 point with
  | None => false
  | Some vk =>
    match (match sig_from_der p256 sig with Some s => Some s | None => sig_from_slice p256 sig end) with
    | Some s => verify_prehash p256 vk (sha256 msg) s
    | None => false
    end
  end.
Definition ED25519_OID : bytes := lit "1.3.101.112".
Definition EC_PUBLIC_KEY_OID : bytes := lit "1.2.840.10045.2.1".
Definition verify_sig_with_spki (spki_der msg sig : bytes) : bool :=
  match spki_ref spki_der with
  | None => false
  | Some (oid, None) => false
  | Some (oid, Some key) =>
    if bytes_eqb oid ED25519_OID then verify_ed25519 key msg sig
    else if bytes_eqb oid EC_PUBLIC_KEY_OID then verify_ecdsa_p256 key msg sig
    else false
  end.
Definition verify_against (id : TrustedIdentity) (msg : bytes) (sidecar : Sidecar) : bool :=
  match id with
  | RawPublicKey _ spki_der _ => verify_sig_with_spki spki_der msg (sc_sig sidecar)
  | SigstoreKeyless _ _ => false
  end.
End Signatures.

(** ** Loading *)
Record Registry : Type := {
  entries : gmap bytes (Entry * SignatureState); trust_root : TrustRoot; snapshot : option Snapshot; snapshot_state : SnapshotState;
}.
Section Load.
Context `{X : X509} `{K : CpuCrypto} `{H : Sha2} `{SG : Ed25519} `{RF : RegistryFormats} `{FS : RegistryFs}.
Definition check_sidecar (json_path body : bytes) (root : TrustRoot) : res RegistryError SignatureState :=
  let sig_path := json_path ++ lit ".sig" in
  if negb (fs_exists sig_path) then Ok Missing
  else
    raw ← ok_or (fs_read sig_path) RegIo;
    match parse_sidecar raw with
    | None => Ok Untrusted
    | Some sidecar => Ok (if existsb (fun id => verify_against id body sidecar) (identities root) then Verified else Untrusted)
    end.
Definition load_entry (root : TrustRoot) (m : gmap bytes (Entry * SignatureState)) (item : option bytes) :
    res RegistryError (gmap bytes (Entry * SignatureState)) :=
  path ← ok_or item RegIo;
  if negb (bool_decide (extension path = Some (lit "json"))) then Ok m
  else match fs_read path ≫= from_utf8 with
  | None => Ok m
  | Some body =>
    match entry_from_str body with
    | None => Ok m
    | Some entry => sig_state ← check_sidecar path body root; Ok (<[e_value_x entry := (entry, sig_state)]> m)
    end
  end.
Definition load_snapshot (dir : bytes) (root : TrustRoot) : option Snapshot * SnapshotState :=
  match fs_read (join dir (lit "snapshot.json")) with
  | None => (None, SnapshotMissing)
  | Some body =>
    match snapshot_from_slice body with
    | None => (None, SnapshotUntrusted)
    | Some s =>
      let verified := from_option (fun sc => existsb (fun id => verify_against id body sc) (identities root)) false
                        (fs_read (join dir (lit "snapshot.json.sig")) ≫= parse_sidecar) in
      if negb verified then (Some s, SnapshotUntrusted)
      else (Some s, if snapshot_expired s fs_now then Expired else Fresh)
    end
  end.
Definition load (dir : bytes) (root : TrustRoot) : res RegistryError Registry :=
  if negb (fs_exists dir) then Ok {| entries := ∅; trust_root := root; snapshot := None; snapshot_state := SnapshotMissing |}
  else
    items ← ok_or (fs_read_dir dir) RegIo;
    m ← for_each (load_entry root) ∅ items;
    let '(snap, st) := load_snapshot dir root in
    Ok {| entries := m; trust_root := root; snapshot := snap; snapshot_state := st |}.

Definition lookup_value (r : Registry) (value_x : bytes) : RegistryLookup :=
  match entries r !! value_x with Some (e, s) => LookupFound e s | None => LookupUnknown end.
Definition fresh_status (r : Registry) (value_x : bytes) : option Status :=
  if bool_decide (snapshot_state r = Fresh) then s ← snapshot r; status_of s value_x else None.

(** ** The earlier format: one document, whose entries are never signed *)
Definition json_get (v : Json) (key : string) : option Json :=
  match v with JObject fields => snd <$> List.find (fun f => bytes_eqb f.1 (lit key)) fields | _ => None end.
Definition as_str (v : Json) : option bytes := match v with JString s => Some s | _ => None end.
Definition as_bool (v : Json) : option bool := match v with JBool b => Some b | _ => None end.
Definition str_field (v : Json) (key : string) : option bytes := json_get v key ≫= as_str.
(** [raw.get(a).or_else(|| raw.get(b)).and_then(as_str)] *)
Definition str_field_or (v : Json) (a b : string) : option bytes :=
  (match json_get v a with Some x => Some x | None => json_get v b end) ≫= as_str.
Definition flag_field (v : Json) (key : string) : bool := default false (json_get v key ≫= as_bool).
Definition legacy_entry (raw : Json) (value_x : bytes) : Entry :=
  let pm := default JNull (json_get raw "platform_measurements") in
  {| e_value_x := value_x; source_commit := str_field_or raw "source_commit" "git_commit";
     platform_measurements := {| nitro_pcr0 := str_field pm "nitro_pcr0"; tdx_mrtd := str_field pm "tdx_mrtd"; snp_measurement := str_field pm "snp_measurement" |};
     e_status := if flag_field raw "deprecated" then Deprecated else if flag_field raw "recommended" then Recommended else Revoked;
     approved_at := default (lit "unknown") (str_field_or raw "approved_at" "registered_at");
     deprecated_at := None; revoked_at := None; notes := default [] (str_field raw "notes") |}.
Notation Entries := (gmap bytes (Entry * SignatureState)).
Definition legacy_step (raw : Json) : V RegistryError Entries unit :=
  value_x ← lift (ok_or (str_field raw "value_x") (RegMsg "entry missing value_x"));
  modify (fun m : Entries => match m !! value_x with Some _ => m | None => <[value_x := (legacy_entry raw value_x, Missing)]> m end).
Fixpoint legacy_steps (l : list Json) : V RegistryError Entries unit :=
  match l with [] => mret tt | raw :: l => legacy_step raw;; legacy_steps l end.
Definition load_legacy_registry_json (path : bytes) : V RegistryError Entries unit :=
  raw ← lift (ok_or (fs_read path) RegIo);
  body ← lift (ok_or (from_utf8 raw) RegIo);
  root ← lift (ok_or (json_from_str body) (RegMsg "invalid JSON"));
  l ← lift (ok_or (json_get root "entries" ≫= (fun v => match v with JArray l => Some l | _ => None end)) (RegMsg "missing entries array"));
  legacy_steps l.

Definition merge_registry (merged loaded : Registry) : Registry :=
  let adopt := negb (bool_decide (snapshot_state loaded = SnapshotMissing)) && bool_decide (snapshot_state merged = SnapshotMissing) in
  {| entries := entries loaded ∪ entries merged; trust_root := trust_root merged;
     snapshot := if adopt then snapshot loaded else snapshot merged;
     snapshot_state := if adopt then snapshot_state loaded else snapshot_state merged |}.
Definition merge_directory (merged : Registry) (dir : bytes) : res RegistryError Registry :=
  if fs_exists dir && fs_is_dir dir then loaded ← load dir uq_default; Ok (merge_registry merged loaded) else Ok merged.
Definition REGISTRY_DIRS : list bytes := [lit "v2/registry"; lit "registry"].
Definition LEGACY_REGISTRY : bytes := lit "registry.json".
Definition load_default : res RegistryError Registry :=
  merged ← for_each merge_directory {| entries := ∅; trust_root := uq_default; snapshot := None; snapshot_state := SnapshotMissing |} REGISTRY_DIRS;
  if fs_exists LEGACY_REGISTRY && fs_is_file LEGACY_REGISTRY then
    Ok {| entries := (load_legacy_registry_json LEGACY_REGISTRY (entries merged)).2; trust_root := trust_root merged;
          snapshot := snapshot merged; snapshot_state := snapshot_state merged |}
  else Ok merged.
End Load.

Definition describe_snapshot (s : SnapshotState) : string :=
  match s with Fresh => "fresh (signed, unexpired)" | Expired => "EXPIRED — refetch required" | SnapshotUntrusted => "present but UNTRUSTED signature"
  | SnapshotMissing => "none" end.
Definition describe (l : RegistryLookup) : bytes :=
  match l with
  | LookupFound e s =>
    lit (match e_status e with Recommended => "RECOMMENDED" | Deprecated => "DEPRECATED" | Revoked => "REVOKED" end) ++ lit " (" ++
    lit (match s with Verified => "signed" | Untrusted => "signature present but UNTRUSTED" | Missing => "UNSIGNED" end) ++ lit ") — approved " ++ approved_at e
  | LookupUnknown => lit "UNKNOWN (not in registry)"
  end.

(** * Lemmas *)
Section Spec.
Context `{X : X509} `{K : CpuCrypto} `{H : Sha2} `{SG : Ed25519} `{RF : RegistryFormats} `{FS : RegistryFs}.

(** A signature that counts: by a raw key of the trust root, over these bytes. *)
Definition signed_by (root : TrustRoot) (raw body : bytes) : Prop :=
  exists sidecar algorithm spki label, parse_sidecar raw = Some sidecar /\ RawPublicKey algorithm spki label ∈ identities root /\
    verify_sig_with_spki spki body (sc_sig sidecar) = true.
Lemma verify_any root body sidecar raw : parse_sidecar raw = Some sidecar ->
  existsb (fun id => verify_against id body sidecar) (identities root) = true -> signed_by root raw body.
Proof.
  intros Hp (id & Hin%list_elem_of_In & Hv)%existsb_exists. destruct id as [|algorithm spki label]; [done|]. by exists sidecar, algorithm, spki, label.
Qed.
(** The signature state of one entry. *)
Definition sidecar_state (root : TrustRoot) (path body : bytes) (st : SignatureState) : Prop :=
  match st with
  | Missing => fs_exists (path ++ lit ".sig") = false
  | Verified => fs_exists (path ++ lit ".sig") = true /\ exists raw, fs_read (path ++ lit ".sig") = Some raw /\ signed_by root raw body
  | Untrusted => fs_exists (path ++ lit ".sig") = true /\ exists raw, fs_read (path ++ lit ".sig") = Some raw /\ ~ signed_by root raw body
  end.
Lemma signed_by_any root raw body sidecar : parse_sidecar raw = Some sidecar -> signed_by root raw body ->
  existsb (fun id => verify_against id body sidecar) (identities root) = true.
Proof.
  intros Hp (sidecar' & algorithm & spki & label & Hp' & Hin & Hv). assert (sidecar' = sidecar) as -> by congruence.
  apply existsb_exists. exists (RawPublicKey algorithm spki label). split; [by apply list_elem_of_In|done].
Qed.
Lemma check_sidecar_safe path body root : safe (check_sidecar path body root) (sidecar_state root path body).
Proof.
  unfold check_sidecar, sidecar_state. destruct (fs_exists (path ++ lit ".sig")); cbn [negb]; [|done].
  apply safe_bind, safe_ok_or. intros raw Hraw. destruct (parse_sidecar raw) as [sidecar|] eqn:Hp.
  - cbn [safe]. destruct (existsb _ _) eqn:Hv; (split; [done|]); exists raw; (split; [done|]); [by eapply verify_any|].
    intros Hs. by rewrite (signed_by_any root raw body sidecar Hp Hs) in Hv.
  - split; [done|]. exists raw. split; [done|]. intros (sidecar & _ & _ & _ & Hp' & _). congruence.
Qed.

(** The entry in a file. *)
Definition entry_of (path body : bytes) (e : Entry) : Prop :=
  extension path = Some (lit "json") /\ fs_read path ≫= from_utf8 = Some body /\ entry_from_str body = Some e.
Lemma entry_of_unique path body body' e e' : entry_of path body e -> entry_of path body' e' -> e = e' /\ body = body'.
Proof. intros (_ & Hb & He) (_ & Hb' & He'). assert (body = body') as -> by congruence. split; congruence. Qed.
(** The last entry for a value in a list of files, and the state of its signature. *)
Definition last_entry (root : TrustRoot) (items : list (option bytes)) (value_x : bytes) (e : Entry) (st : SignatureState) : Prop :=
  exists pre path post body, items = pre ++ Some path :: post /\ entry_of path body e /\ e_value_x e = value_x /\ sidecar_state root path body st /\
    forall path' body' e', Some path' ∈ post -> entry_of path' body' e' -> e_value_x e' <> value_x.
Definition no_entry (items : list (option bytes)) (value_x : bytes) : Prop :=
  forall path body e, Some path ∈ items -> entry_of path body e -> e_value_x e <> value_x.
Definition entries_of (root : TrustRoot) (items : list (option bytes)) (m : gmap bytes (Entry * SignatureState)) : Prop :=
  forall value_x, match m !! value_x with Some (e, st) => last_entry root items value_x e st | None => no_entry items value_x end.
(** A file without an entry for [value_x] changes nothing about it. *)
Lemma last_entry_skip root items path value_x e st : (forall body e', entry_of path body e' -> e_value_x e' <> value_x) ->
  last_entry root items value_x e st -> last_entry root (items ++ [Some path]) value_x e st.
Proof.
  intros Hno (pre & p & post & body & -> & He & Hv & Hs & Hpost). exists pre, p, (post ++ [Some path]), body.
  split; [by rewrite <- app_assoc|]. split; [done|]. split; [done|]. split; [done|].
  intros path' body' e' [Hin|[= ->]%list_elem_of_singleton]%elem_of_app; [by apply Hpost|by apply Hno].
Qed.
Lemma no_entry_skip items path value_x : (forall body e', entry_of path body e' -> e_value_x e' <> value_x) ->
  no_entry items value_x -> no_entry (items ++ [Some path]) value_x.
Proof. intros Hno Hitems p body e [Hin|[= ->]%list_elem_of_singleton]%elem_of_app; [by apply Hitems|by apply Hno]. Qed.
Lemma entries_skip root items m path : (forall body e', ~ entry_of path body e') -> entries_of root items m -> entries_of root (items ++ [Some path]) m.
Proof.
  intros Hno Hm value_x. specialize (Hm value_x). destruct (m !! value_x) as [[e st]|].
  - apply last_entry_skip; [|done]. intros body e' He. by apply Hno in He.
  - apply no_entry_skip; [|done]. intros body e' He. by apply Hno in He.
Qed.
Lemma load_entry_safe root items m item : entries_of root items m -> safe (load_entry root m item) (entries_of root (items ++ [item])).
Proof.
  intros Hm. unfold load_entry. apply safe_bind, safe_ok_or. intros path ->.
  destruct (bool_decide (extension path = Some (lit "json"))) eqn:Hx; cbn [negb].
  2: { apply bool_decide_eq_false in Hx. apply entries_skip; [|done]. by intros body e' (Hj & _). }
  apply bool_decide_eq_true in Hx. destruct (fs_read path ≫= from_utf8) as [body|] eqn:Hb.
  2: { apply entries_skip; [|done]. intros body e' (_ & Hr & _). congruence. }
  destruct (entry_from_str body) as [e|] eqn:He.
  2: { apply entries_skip; [|done]. intros body' e' (_ & Hr & Hp). congruence. }
  assert (entry_of path body e) as Hent by done. eapply safe_seq; [apply check_sidecar_safe|]. intros st _ Hst. cbn [safe].
  intros value_x. destruct (decide (e_value_x e = value_x)) as [<-|Hne].
  - rewrite lookup_insert_eq. exists items, path, [], body. split; [done|]. split; [done|]. split; [done|]. split; [done|]. by intros ? ? ? ?%not_elem_of_nil.
  - rewrite lookup_insert_ne by done. specialize (Hm value_x).
    assert (forall body' e', entry_of path body' e' -> e_value_x e' <> value_x) as Hno by (intros body' e' [<- <-]%(entry_of_unique _ _ _ _ _ Hent); done).
    destruct (m !! value_x) as [[e' st']|]; [by apply last_entry_skip|by apply no_entry_skip].
Qed.

(** The snapshot of a directory. *)
Definition snapshot_of (dir : bytes) (root : TrustRoot) (snap : option Snapshot) (st : SnapshotState) : Prop :=
  match st with
  | Fresh | Expired => exists s body raw, snap = Some s /\ fs_read (join dir (lit "snapshot.json")) = Some body /\ snapshot_from_slice body = Some s /\
      fs_read (join dir (lit "snapshot.json.sig")) = Some raw /\ signed_by root raw body /\ (st = Fresh <-> fs_now <= expires_at s)
  | _ => True
  end.
Lemma load_snapshot_spec dir root : snapshot_of dir root (load_snapshot dir root).1 (load_snapshot dir root).2.
Proof.
  unfold load_snapshot. destruct (fs_read (join dir (lit "snapshot.json"))) as [body|] eqn:Hb; [|done].
  destruct (snapshot_from_slice body) as [s|] eqn:Hs; [|done].
  destruct (fs_read (join dir (lit "snapshot.json.sig"))) as [raw|] eqn:Hraw; [|done]. cbn [mbind option_bind].
  destruct (parse_sidecar raw) as [sc|] eqn:Hsc; [|done]. cbn [from_option].
  destruct (existsb _ _) eqn:Hv; [|done]. cbn [negb fst snd]. apply (verify_any root body sc raw Hsc) in Hv.
  assert (forall st, (st = Fresh <-> fs_now <= expires_at s) -> st = Fresh \/ st = Expired -> snapshot_of dir root (Some s) st) as Hst.
  { intros st Hiff [-> | ->]; by exists s, body, raw. }
  unfold snapshot_expired. destruct (N.ltb_spec (expires_at s) fs_now) as [Hlt|Hge]; apply Hst; auto; split; try done; lia.
Qed.
(** A registry as it was in a directory. *)
Record registry_of (dir : bytes) (root : TrustRoot) (r : Registry) : Prop := {
  ro_entries : exists items, (if fs_exists dir then fs_read_dir dir = Some items else items = []) /\ entries_of root items (entries r);
  ro_root : trust_root r = root;
  ro_snapshot : snapshot_of dir root (snapshot r) (snapshot_state r);
}.
Lemma load_safe dir root : safe (load dir root) (registry_of dir root).
Proof.
  assert (entries_of root [] ∅) as H0 by (intros value_x; rewrite lookup_empty; by intros ? ? ? ?%not_elem_of_nil).
  unfold load. destruct (fs_exists dir) eqn:Hd; cbn [negb].
  - apply safe_bind, safe_ok_or. intros items Hi.
    eapply safe_seq; [apply (safe_prefix _ (entries_of root)); [done|]; intros pre x post m _; apply load_entry_safe|].
    intros m _ Hm. pose proof (load_snapshot_spec dir root) as Hs. destruct (load_snapshot dir root) as [snap st]. cbn [safe].
    split; [|done|done]. rewrite Hd. by exists items.
  - cbn [safe]. split; [|done|done]. rewrite Hd. by exists [].
Qed.

(** ** Lookups *)
Lemma sidecar_state_unique root path body st st' : sidecar_state root path body st -> sidecar_state root path body st' -> st = st'.
Proof. intros H1 H2. destruct st, st'; cbn in H1, H2; try done; exfalso; naive_solver congruence. Qed.
Lemma last_entry_unique root items value_x e st e' st' : last_entry root items value_x e st -> last_entry root items value_x e' st' -> e = e' /\ st = st'.
Proof.
  intros (pre & p & post & body & -> & He & Hv & Hs & Hpost) (pre' & p' & post' & body' & Heq & He' & Hv' & Hs' & Hpost').
  apply split_app in Heq as [(mid & -> & ->)|(mid & -> & Heq)].
  - exfalso. apply (Hpost' p body e); [apply elem_of_app; right; by left|done|done].
  - destruct mid as [|x mid]; simplify_eq/=.
    + destruct (entry_of_unique _ _ _ _ _ He He') as [-> ->]. split; [done|by eapply sidecar_state_unique].
    + exfalso. apply (Hpost p' body' e'); [apply elem_of_app; right; by left|done|done].
Qed.
Lemma last_no_entry root items value_x e st : last_entry root items value_x e st -> ~ no_entry items value_x.
Proof. intros (pre & p & post & body & -> & He & Hv & _) Hno. apply (Hno p body e); [apply elem_of_app; right; by left|done|done]. Qed.
Lemma entries_lookup root items r value_x : entries_of root items (entries r) ->
  (forall e st, lookup_value r value_x = LookupFound e st <-> last_entry root items value_x e st) /\
  (lookup_value r value_x = LookupUnknown <-> no_entry items value_x).
Proof.
  intros Hm. specialize (Hm value_x). unfold lookup_value. destruct (entries r !! value_x) as [[e st]|].
  - split; [intros e' st'; split; [by intros [= <- <-]|]|split; [done|by intros ?%(last_no_entry _ _ _ _ _ Hm)]].
    intros Hl. by destruct (last_entry_unique _ _ _ _ _ _ _ Hm Hl) as [-> ->].
  - split; [intros e' st'; split; [done|by intros ?%last_no_entry]|done].
Qed.
(** A status that a fresh snapshot gives. *)
Definition fresh_listed (dir : bytes) (root : TrustRoot) (value_x : bytes) (st : Status) : Prop :=
  exists s body raw, fs_read (join dir (lit "snapshot.json")) = Some body /\ snapshot_from_slice body = Some s /\
    fs_read (join dir (lit "snapshot.json.sig")) = Some raw /\ signed_by root raw body /\ fs_now <= expires_at s /\ status_of s value_x = Some st.
Lemma fresh_status_listed dir root r value_x st : snapshot_of dir root (snapshot r) (snapshot_state r) -> fresh_status r value_x = Some st ->
  fresh_listed dir root value_x st.
Proof.
  unfold fresh_status. case_bool_decide as Hf; [|done]. rewrite Hf. intros (s & body & raw & -> & Hb & Hp & Hr & Hs & Hn) Hst.
  exists s, body, raw. split_and!; try done. by apply Hn.
Qed.
(** C29: what a registry answers.  Loading a directory never panics.  A value is found
    exactly when a file of the directory holds an entry for it, and the answer is the last
    such entry in the order of the directory, with the state of that file's own
    signature; it is verified exactly when its sidecar is there and a raw key of the trust
    root signed the bytes that were parsed.  A status that the registry calls fresh is the
    first one for that value in a snapshot that such a key signed and that has not
    expired. *)
Theorem registry_lookup_exact dir root :
  safe (load dir root) (fun r => exists items, (if fs_exists dir then fs_read_dir dir = Some items else items = []) /\ forall value_x,
    (forall e st, lookup_value r value_x = LookupFound e st <-> last_entry root items value_x e st) /\
    (lookup_value r value_x = LookupUnknown <-> no_entry items value_x) /\
    (forall st, fresh_status r value_x = Some st -> fresh_listed dir root value_x st)).
Proof.
  eapply safe_mono; [apply load_safe|]. intros r _ [(items & Hi & Hm) _ Hs]. exists items. split; [done|]. intros value_x.
  destruct (entries_lookup root items r value_x Hm) as [Hf Hu]. split; [done|]. split; [done|]. intros st. by apply fresh_status_listed.
Qed.

(** ** The default registry *)
Record unsigned (r : Registry) : Prop := {
  un_entries k e st : entries r !! k = Some (e, st) -> st <> Verified;
  un_snapshot : snapshot_state r = SnapshotUntrusted \/ snapshot_state r = SnapshotMissing;
}.
Lemma default_signs_nothing raw body : ~ signed_by uq_default raw body.
Proof. intros (sidecar & algorithm & spki & label & _ & Hin & _). apply list_elem_of_singleton in Hin. discriminate Hin. Qed.
Lemma default_unsigned dir r : registry_of dir uq_default r -> unsigned r.
Proof.
  intros [(items & _ & Hm) _ Hs]. split.
  - intros k e st Hk ->. specialize (Hm k). rewrite Hk in Hm. destruct Hm as (pre & p & post & body & _ & _ & _ & (_ & raw & _ & Hsig) & _).
    by apply default_signs_nothing in Hsig.
  - destruct (snapshot_state r); auto; destruct Hs as (s & body & raw & _ & _ & _ & _ & Hsig & _); by apply default_signs_nothing in Hsig.
Qed.
Lemma merge_unsigned merged loaded : unsigned merged -> unsigned loaded -> unsigned (merge_registry merged loaded).
Proof.
  intros [H1 H2] [H1' H2']. split; cbn.
  - intros k e st [Hk|[_ Hk]]%lookup_union_Some_raw; [by eapply H1'|by eapply H1].
  - by destruct (_ && _).
Qed.
(** The entries of later directories win over those of earlier ones. *)
Lemma entries_union root items1 items2 m1 m2 : entries_of root items1 m1 -> entries_of root items2 m2 -> entries_of root (items1 ++ items2) (m2 ∪ m1).
Proof.
  intros H1 H2 k. specialize (H1 k). specialize (H2 k). rewrite lookup_union. destruct (m2 !! k) as [[e2 st2]|].
  - rewrite union_Some_l. destruct H2 as (pre & path & post & body & -> & Hrest). exists (items1 ++ pre), path, post, body. split; [by rewrite <- app_assoc|done].
  - rewrite (left_id_L None _). destruct (m1 !! k) as [[e1 st1]|].
    + destruct H1 as (pre & path & post & body & -> & He & Hk & Hs & Hpost). exists pre, path, (post ++ items2), body. rewrite <- app_assoc. split_and!; try done.
      intros path' body' e' [Hin|Hin]%elem_of_app He'; [by eapply Hpost|by eapply H2].
    + intros path' body' e' [Hin|Hin]%elem_of_app He'; [by eapply H1|by eapply H2].
Qed.
(** The files of the directories that are there, in their order. *)
Definition dir_items (dir : bytes) (items : list (option bytes)) : Prop :=
  if fs_exists dir && fs_is_dir dir then fs_read_dir dir = Some items else items = [].
Definition default_items (dirs : list bytes) (items : list (option bytes)) : Prop :=
  exists lists, Forall2 dir_items dirs lists /\ items = mjoin lists.
(** A merged registry: the entries of all files, and nothing signed. *)
Definition merged_of (dirs : list bytes) (r : Registry) : Prop :=
  unsigned r /\ exists items, default_items dirs items /\ entries_of uq_default items (entries r).
Lemma merged_nil : merged_of [] {| entries := ∅; trust_root := uq_default; snapshot := None; snapshot_state := SnapshotMissing |}.
Proof.
  split; [split; cbn; [intros k e st Hk; by rewrite lookup_empty in Hk|by right]|]. exists []. split; [exists []; split; [constructor|done]|].
  intros k. cbn [entries]. rewrite lookup_empty. by intros ? ? ? ?%not_elem_of_nil.
Qed.
Lemma merge_directory_safe pre dir merged : merged_of pre merged -> safe (merge_directory merged dir) (merged_of (pre ++ [dir])).
Proof.
  intros [Hu (items & (lists & Hall & ->) & Hm)]. unfold merge_directory.
  assert (forall new, dir_items dir new -> default_items (pre ++ [dir]) (mjoin lists ++ new)) as Happ.
  { intros new Hn. exists (lists ++ [new]). split; [apply Forall2_app; [done|by constructor]|]. rewrite join_app. cbn. by rewrite app_nil_r. }
  unfold dir_items in Happ. destruct (fs_exists dir) eqn:He; destruct (fs_is_dir dir) eqn:Hd; cbn [andb] in Happ |- *.
  - eapply safe_seq; [apply load_safe|]. intros loaded _ Hl. pose proof Hl as [(new & Hnew & Hent) _ _]. rewrite He in Hnew.
    split; [apply merge_unsigned; [done|by eapply default_unsigned]|]. exists (mjoin lists ++ new). split; [by apply Happ|]. by apply entries_union.
  - split; [done|]. exists (mjoin lists ++ []). split; [by apply Happ|by rewrite app_nil_r].
  - split; [done|]. exists (mjoin lists ++ []). split; [by apply Happ|by rewrite app_nil_r].
  - split; [done|]. exists (mjoin lists ++ []). split; [by apply Happ|by rewrite app_nil_r].
Qed.

(** The entries of the earlier format: the first one for a value, among those before the first
    element that states no value. *)
Definition legacy_array (path : bytes) : option (list Json) :=
  raw ← fs_read path; body ← from_utf8 raw; root ← json_from_str body;
  v ← json_get root "entries"; match v with JArray l => Some l | _ => None end.
Definition legacy_first (l : list Json) (value_x : bytes) (e : Entry) : Prop :=
  exists pre raw post, l = pre ++ raw :: post /\ str_field raw "value_x" = Some value_x /\ e = legacy_entry raw value_x /\
    Forall (fun r => exists v, str_field r "value_x" = Some v /\ v <> value_x) pre.
Definition legacy_lookup (value_x : bytes) (e : Entry) : Prop :=
  fs_exists LEGACY_REGISTRY && fs_is_file LEGACY_REGISTRY = true /\ exists l, legacy_array LEGACY_REGISTRY = Some l /\ legacy_first l value_x e.
Fixpoint legacy_find (l : list Json) (k : bytes) : option (Entry * SignatureState) :=
  match l with
  | [] => None
  | raw :: l => v ← str_field raw "value_x"; if decide (v = k) then Some (legacy_entry raw k, Missing) else legacy_find l k
  end.
Lemma legacy_find_Some l k e st : legacy_find l k = Some (e, st) <-> legacy_first l k e /\ st = Missing.
Proof.
  induction l as [|raw l IH]; cbn [legacy_find].
  { split; [done|]. intros [(pre & raw & post & Hl & _) _]. by destruct pre. }
  destruct (str_field raw "value_x") as [v|] eqn:Hv; cbn [mbind option_bind].
  - destruct (decide (v = k)) as [->|Hne].
    + split; [intros [= <- <-]; split; [by exists [], raw, l; split_and!; [..|constructor]|done]|].
      intros [([|r pre] & raw' & post & [= -> ->] & Hr & -> & Hpre) ->]; [done|]. apply Forall_cons in Hpre as [(v & Hv' & Hne) _]. congruence.
    + rewrite IH. split; intros [(pre & raw' & post & Hl & Hr & -> & Hpre) ->]; (split; [|done]).
      * exists (raw :: pre), raw', post. split_and!; [by rewrite Hl|done..|]. constructor; [by exists v|done].
      * destruct pre as [|r pre]; injection Hl as -> ->; [congruence|]. apply Forall_cons in Hpre as [_ Hpre]. by exists pre, raw', post.
  - split; [done|]. intros [([|r pre] & raw' & post & [= -> ->] & Hr & _ & Hpre) _]; [congruence|]. apply Forall_cons in Hpre as [(v & Hv' & _) _]. congruence.
Qed.
(** They never replace an entry of a file, and count as unsigned. *)
Lemma lift_bind_None {A B} (e : RegistryError) (f : A -> V RegistryError (gmap bytes (Entry * SignatureState)) B) m : ((lift (ok_or None e) ≫= f) m).2 = m.
Proof. done. Qed.
Lemma lift_bind_Some {A B} (a : A) (e : RegistryError) (f : A -> V RegistryError (gmap bytes (Entry * SignatureState)) B) m : (lift (ok_or (Some a) e) ≫= f) m = f a m.
Proof. done. Qed.
Lemma legacy_step_lookup raw m k : (legacy_step raw m).2 !! k =
  match m !! k with Some p => Some p | None => v ← str_field raw "value_x"; if decide (v = k) then Some (legacy_entry raw k, Missing) else None end.
Proof.
  unfold legacy_step. destruct (str_field raw "value_x") as [v|]; [|rewrite lift_bind_None; by destruct (m !! k)]. rewrite lift_bind_Some.
  cbn [modify snd mbind option_bind]. destruct (m !! v) as [p|] eqn:Hv; destruct (decide (v = k)) as [->|Hne].
  - by rewrite Hv.
  - by destruct (m !! k).
  - by rewrite lookup_insert_eq, Hv.
  - rewrite lookup_insert_ne by done. by destruct (m !! k).
Qed.
Lemma legacy_steps_cons raw l m : (legacy_steps (raw :: l) m).2 =
  if str_field raw "value_x" is Some _ then (legacy_steps l (legacy_step raw m).2).2 else m.
Proof. cbn [legacy_steps]. unfold legacy_step. by destruct (str_field raw "value_x"). Qed.
Lemma legacy_steps_lookup l m k : (legacy_steps l m).2 !! k = match m !! k with Some p => Some p | None => legacy_find l k end.
Proof.
  revert m. induction l as [|raw l IH]; intros m; [cbn; by destruct (m !! k)|].
  rewrite legacy_steps_cons. cbn [legacy_find]. pose proof (legacy_step_lookup raw m k) as Hstep.
  destruct (str_field raw "value_x") as [v|]; cbn [mbind option_bind] in *; [|by destruct (m !! k)].
  rewrite IH, Hstep. destruct (m !! k); [done|]. by destruct (decide (v = k)).
Qed.
Lemma legacy_lookup_all path m k : (load_legacy_registry_json path m).2 !! k =
  match m !! k with Some p => Some p | None => legacy_array path ≫= fun l => legacy_find l k end.
Proof.
  unfold load_legacy_registry_json, legacy_array.
  destruct (fs_read path) as [raw|]; [rewrite lift_bind_Some|rewrite lift_bind_None; by destruct (m !! k)]. cbn [mbind option_bind].
  destruct (from_utf8 raw) as [body|]; [rewrite lift_bind_Some|rewrite lift_bind_None; by destruct (m !! k)]. cbn [mbind option_bind].
  destruct (json_from_str body) as [root|]; [rewrite lift_bind_Some|rewrite lift_bind_None; by destruct (m !! k)]. cbn [mbind option_bind].
  destruct (json_get root "entries") as [[| | | |l|]|]; cbn [mbind option_bind];
    try (rewrite lift_bind_None; by destruct (m !! k)). rewrite lift_bind_Some. apply legacy_steps_lookup.
Qed.
(** C30: the default registry authenticates nothing.  Loading it never panics.  A value is
    found exactly when a file of the default directories holds an entry for it, and the answer
    is the last such entry, or when no file does and the document of the earlier format lists
    it before any element that states no value, and the answer is its first entry there, as
    unsigned: the earlier format never replaces an entry of a file.  The trust root names only keyless signers, whose signatures
    the code never accepts, so no entry is ever reported as verified, no snapshot is fresh,
    and no status is fresh. *)
Theorem default_registry_unsigned :
  safe load_default (fun r =>
    (exists items, default_items REGISTRY_DIRS items /\ forall value_x e st, lookup_value r value_x = LookupFound e st <->
      last_entry uq_default items value_x e st \/ no_entry items value_x /\ legacy_lookup value_x e /\ st = Missing) /\
    (forall value_x e st, lookup_value r value_x = LookupFound e st -> st <> Verified) /\
    snapshot_state r <> Fresh /\ forall value_x, fresh_status r value_x = None).
Proof.
  unfold load_default. eapply safe_seq; [apply (safe_prefix _ merged_of); [apply merged_nil|]; intros; by apply merge_directory_safe|].
  intros merged _ [[H1 H2] (items & Hitems & Hm)].
  assert (forall r, snapshot_state r = snapshot_state merged -> (forall k, entries r !! k = match entries merged !! k with Some p => Some p
      | None => if fs_exists LEGACY_REGISTRY && fs_is_file LEGACY_REGISTRY then legacy_array LEGACY_REGISTRY ≫= fun l => legacy_find l k else None end) ->
    (forall value_x e st, lookup_value r value_x = LookupFound e st <->
      last_entry uq_default items value_x e st \/ no_entry items value_x /\ legacy_lookup value_x e /\ st = Missing) /\
    (forall value_x e st, lookup_value r value_x = LookupFound e st -> st <> Verified) /\
    snapshot_state r <> Fresh /\ forall value_x, fresh_status r value_x = None) as Hdone.
  { intros r Hst Hr. assert (snapshot_state r <> Fresh) as Hf by (rewrite Hst; by destruct H2 as [-> | ->]).
    assert (forall value_x e st, lookup_value r value_x = LookupFound e st <->
      last_entry uq_default items value_x e st \/ no_entry items value_x /\ legacy_lookup value_x e /\ st = Missing) as Hl.
    { intros k e st. destruct (entries_lookup _ _ _ k Hm) as [He Hn]. unfold lookup_value in He, Hn |- *. rewrite Hr.
      destruct (entries merged !! k) as [[e0 st0]|] eqn:Hk.
      - rewrite (He e st). split; [by left|]. intros [|[Hno _]]; [done|]. by apply Hn in Hno.
      - assert (no_entry items k) as Hno by (by apply Hn). unfold legacy_lookup.
        transitivity (no_entry items k /\ (exists l, fs_exists LEGACY_REGISTRY && fs_is_file LEGACY_REGISTRY = true /\
          legacy_array LEGACY_REGISTRY = Some l /\ legacy_find l k = Some (e, st))).
        + destruct (_ && _); [destruct (legacy_array _) as [l|]; cbn [mbind option_bind]|]; [|naive_solver..].
          destruct (legacy_find l k) as [[e1 st1]|] eqn:Hfind; naive_solver.
        + setoid_rewrite legacy_find_Some. split; [naive_solver|]. intros [Hla|]; [|naive_solver]. by apply last_no_entry in Hla. }
    split; [done|]. split_and!; [|done|intros k; unfold fresh_status; by rewrite bool_decide_eq_false_2].
    intros k e st [Hla|(_ & _ & ->)]%Hl; [|done]. destruct (entries_lookup _ _ _ k Hm) as [He _]. apply He in Hla. unfold lookup_value in Hla.
    destruct (entries merged !! k) as [[e0 st0]|] eqn:Hk; [|done]. injection Hla as <- <-. by eapply H1. }
  destruct (fs_exists LEGACY_REGISTRY && fs_is_file LEGACY_REGISTRY) eqn:Hleg; cbn [safe].
  - match goal with |- context [lookup_value ?r _] => destruct (Hdone r) as [Hl Hrest] end; [done| |split; [by exists items|exact Hrest]].
    intros k. cbn [entries]. apply legacy_lookup_all.
  - destruct (Hdone merged) as [Hl Hrest]; [done| |split; [by exists items|exact Hrest]]. intros k. by destruct (entries merged !! k).
Qed.
End Spec.

(** ** A directory *)
Definition raw_x509 : X509 := {|
  cert_from_der := fun _ => None; crl_from_der := fun _ => None; aki_from_der := fun _ => None; crl_number_ok := fun _ => false;
  crl_reason_remove := fun _ => None; generalized_time_ok := fun _ => false; pss_from_der := fun _ => None; base64_decode := Some |}.
Definition sample_entry (status : Status) (approved : bytes) : Entry := {|
  e_value_x := lit "ab"; source_commit := None; platform_measurements := {| nitro_pcr0 := None; tdx_mrtd := None; snp_measurement := None |};
  e_status := status; approved_at := approved; deprecated_at := None; revoked_at := None; notes := [] |}.
Definition sample_formats : RegistryFormats := {|
  entry_from_str := fun b => if bytes_eqb b (lit "revoked") then Some (sample_entry Revoked (lit "2024"))
                             else if bytes_eqb b (lit "recommended") then Some (sample_entry Recommended (lit "2023")) else None;
  snapshot_from_slice := fun b => if bytes_eqb b (lit "snapshot") then
      Some {| snap_version := 1; generated_at := 1; expires_at := 100; snap_entries := [{| se_value_x := lit "ab"; se_status := Revoked |}] |} else None;
  sidecar_from_str := fun _ => None; json_from_str := fun _ => None;
  spki_ref := fun b => Some (ED25519_OID, Some b) |}.
Definition signer_key : bytes := N_to_le 32 5.
Definition ascii_sig : bytes := replicate 64 x41.
Definition ascii_ed25519 : Ed25519 := {|
  SigningKey := unit; verifying_key := fun _ => signer_key; ed_sign := fun _ _ => ascii_sig; ed_verify := fun _ _ s => bytes_eqb s ascii_sig;
  vk_valid := bytes_eqb signer_key |}.
Definition sample_root : TrustRoot := trust_with trust_empty (RawPublicKey (lit "ed25519") signer_key (lit "test")).
Definition directory (files : list (bytes * bytes)) (now : N) : RegistryFs := {|
  fs_exists := fun p => bytes_eqb p (lit "reg") || existsb (fun f => bytes_eqb f.1 p) files;
  fs_is_dir := bytes_eqb (lit "reg"); fs_is_file := fun p => existsb (fun f => bytes_eqb f.1 p) files;
  fs_read_dir := fun p => if bytes_eqb p (lit "reg") then Some (Some ∘ fst <$> files) else None;
  fs_read := fun p => snd <$> List.find (fun f => bytes_eqb f.1 p) files;
  fs_now := now |}.
Example sample_extensions : extension <$> [lit "reg/a.json"; lit "reg/a.json.sig"; lit "reg/.json"; lit "reg/README"] =
  [Some (lit "json"); Some (lit "sig"); None; None].
Proof. vm_compute. reflexivity. Qed.
Definition sample_load (files : list (bytes * bytes)) (now : N) : res RegistryError (RegistryLookup * SnapshotState * option Status) :=
  r ← load (X := raw_x509) (K := toy_cpu) (H := toy_sha2) (SG := ascii_ed25519) (RF := sample_formats) (FS := directory files now) (lit "reg") sample_root;
  Ok (lookup_value r (lit "ab"), snapshot_state r, fresh_status r (lit "ab")).
Definition signed_files : list (bytes * bytes) :=
  [(lit "reg/a.json", lit "revoked"); (lit "reg/a.json.sig", ascii_sig); (lit "reg/snapshot.json", lit "snapshot");
   (lit "reg/snapshot.json.sig", x20 :: ascii_sig ++ [x0a])].
Example signed_entry : sample_load signed_files 100 = Ok (LookupFound (sample_entry Revoked (lit "2024")) Verified, Fresh, Some Revoked).
Proof. vm_compute. reflexivity. Qed.
Example expired_snapshot : sample_load signed_files 101 = Ok (LookupFound (sample_entry Revoked (lit "2024")) Verified, Expired, None).
Proof. vm_compute. reflexivity. Qed.
(** An unsigned file that the directory lists later hides the signed entry. *)
Example later_entry_wins : sample_load (signed_files ++ [(lit "reg/b.json", lit "recommended")]) 100 =
  Ok (LookupFound (sample_entry Recommended (lit "2023")) Missing, Fresh, Some Revoked).
Proof. vm_compute. reflexivity. Qed.
(** The document of the earlier format does not replace the entry of a file. *)
Definition legacy_formats : RegistryFormats := {|
  entry_from_str := entry_from_str (RegistryFormats := sample_formats); snapshot_from_slice := fun _ => None; sidecar_from_str := fun _ => None;
  json_from_str := fun _ => Some (JObject [(lit "entries", JArray
    [JObject [(lit "value_x", JString (lit "ab")); (lit "recommended", JBool true)]; JObject [(lit "value_x", JString (lit "cd"))];
     JObject []; JObject [(lit "value_x", JString (lit "ef"))]])]);
  spki_ref := fun _ => None |}.
Definition legacy_fs : RegistryFs := {|
  fs_exists := fun p => existsb (bytes_eqb p) [lit "registry"; lit "registry.json"]; fs_is_dir := bytes_eqb (lit "registry");
  fs_is_file := bytes_eqb (lit "registry.json"); fs_read_dir := fun _ => Some [Some (lit "registry/a.json")];
  fs_read := fun p => if bytes_eqb p (lit "registry/a.json") then Some (lit "revoked") else if bytes_eqb p (lit "registry.json") then Some (lit "{}") else None;
  fs_now := 0 |}.
Example default_lookups :
  (r ← load_default (X := raw_x509) (K := toy_cpu) (H := toy_sha2) (SG := ascii_ed25519) (RF := legacy_formats) (FS := legacy_fs);
   Ok (lookup_value r <$> [lit "ab"; lit "cd"; lit "ef"])) =
  Ok [LookupFound (sample_entry Revoked (lit "2024")) Missing;
      LookupFound (legacy_entry (JObject [(lit "value_x", JString (lit "cd"))]) (lit "cd")) Missing; LookupUnknown].
Proof. vm_compute. reflexivity. Qed.
