(* ===== verification/Vsock.v ===== *)
(** * Vsock: the public evidence listener of an enclave
    ([src/v2/src/net/vsock.rs])

    Inside a Nitro enclave a TLS server answers on vsock.  Its socket has no client
    authentication, so it serves three documents and nothing else.  Each connection gets
    one response: the header of the request is read up to a bound, [evidence_route] parses
    all of it, and the route picks the document.

    [evidence_route_exact]: a request is routed exactly when it is a GET of one of the
    three paths with one host and no body.  [listener_read_only]: every response is framed
    by its true length, and only such a request gets a document.

    The TLS library, the sockets and the two-way copies of the proxies are left out; the
    bytes that a connection delivers are a list of chunks.  The build is the one with the
    feature [nitro]; without it the route of the third document answers 404. *)
From S2P Require Import Prelude Bytes Text Pem Host.

(** ** Requests *)
Definition CR : byte := x0d.
Definition LF : byte := x0a.
Definition CRLF : bytes := [CR; LF].
Definition HEADER_END : bytes := CRLF ++ CRLF.
Definition MAX_HTTP_HEADER_BYTES : N := 32 * 1024.
Inductive EvidenceRoute : Type := Summary | Eat | KmsAttestation.
#[global] Instance EvidenceRoute_eq_dec : EqDecision EvidenceRoute.
Proof. solve_decision. Defined.
Definition RouteError : Type := N * bytes.
Definition bad : RouteError := (400, lit "invalid read-only HTTP request").

(** [str::split] at each CRLF *)
Fixpoint split_crlf (s : bytes) : list bytes :=
  match s with
  | [] => [[]]
  | c :: s' =>
    match s' with
    | d :: r =>
      if Byte.eqb c CR && Byte.eqb d LF then [] :: split_crlf r
      else match split_crlf s' with p :: ps => (c :: p) :: ps | [] => [[c]] end
    | [] => [[c]]
    end
  end.
Definition name_char (c : byte) : bool := is_ascii_alphanumeric c || Byte.eqb c x2d.
Definition value_control (c : byte) : bool := (byte_N c <? 0x20) && negb (Byte.eqb c x09).
Definition header_line (counts : N * N) (line : bytes) : res RouteError (N * N) :=
  '(name, value) ← ok_or (split_once x3a line) bad;
  reject_if ((blen name =? 0) || negb (forallb name_char name) || existsb value_control value) bad;;
  if eq_ignore_ascii_case name (lit "host") then
    reject_if (blen (str_trim value) =? 0) bad;; Ok (counts.1 + 1, counts.2)
  else if eq_ignore_ascii_case name (lit "content-length") then
    reject_if (negb (bytes_eqb (str_trim value) (lit "0"))) bad;; Ok (counts.1, counts.2 + 1)
  else if eq_ignore_ascii_case name (lit "transfer-encoding") then Err bad
  else Ok counts.
Definition request_line (line : bytes) : res RouteError (bytes * bytes) :=
  match split_byte x20 line with
  | [method; path; version] =>
    reject_if (negb (bytes_eqb version (lit "HTTP/1.1")) || existsb (fun c => Byte.eqb c x3f || Byte.eqb c x23) path ||
               negb (starts_with [x2f] path)) bad;;
    Ok (method, path)
  | _ => Err bad
  end.
Definition is_admin (path : bytes) : bool :=
  bytes_eqb path (lit "/kms-unwrap") || bytes_eqb path (lit "/tls-cert") || bytes_eqb path (lit "/acme-challenge").
Definition route_of (path : bytes) : res RouteError EvidenceRoute :=
  if bytes_eqb path (lit "/") then Ok Summary
  else if bytes_eqb path (lit "/eat") then Ok Eat
  else if bytes_eqb path (lit "/kms-attestation") then Ok KmsAttestation
  else Err (404, lit "unknown evidence route").
Definition evidence_route (request : bytes) : res RouteError EvidenceRoute :=
  reject_if (MAX_HTTP_HEADER_BYTES <? blen request) bad;;
  end_ ← ok_or (find_sub HEADER_END request) bad;
  h ← index_range request 0 end_;
  header ← ok_or (from_utf8 h) bad;
  match split_crlf header with
  | [] => Err bad
  | first :: lines =>
    '(method, path) ← request_line first;
    '(host_count, length_count) ← for_each header_line (0, 0) lines;
    reject_if (negb (host_count =? 1) || (1 <? length_count) || negb (blen request =? end_ + 4)) bad;;
    reject_if (is_admin path) (403, lit "administration and plaintext release are disabled on the public evidence listener");;
    reject_if (negb (bytes_eqb method (lit "GET"))) (405, lit "only read-only evidence requests are supported");;
    route_of path
  end.

(** ** Responses *)
Definition reason (status : N) : bytes :=
  match status with
  | 200 => lit "OK" | 400 => lit "Bad Request" | 403 => lit "Forbidden" | 404 => lit "Not Found" | 405 => lit "Method Not Allowed"
  | 500 => lit "Internal Server Error" | _ => lit "Error"
  end.
Definition http_response (status : N) (body : bytes) : bytes :=
  lit "HTTP/1.1 " ++ to_decimal status ++ lit " " ++ reason status ++ CRLF ++ lit "Content-Type: text/plain" ++ CRLF ++
  lit "Connection: close" ++ CRLF ++ lit "Content-Length: " ++ to_decimal (blen body) ++ CRLF ++ CRLF ++ body.
Definition summary_response (body : bytes) : bytes :=
  lit "HTTP/1.1 200 OK" ++ CRLF ++ lit "Content-Type: application/json" ++ CRLF ++ lit "Content-Length: " ++ to_decimal (blen body) ++ CRLF ++
  lit "Connection: close" ++ CRLF ++ CRLF ++ body.
Definition eat_response (eat : bytes) : bytes :=
  lit "HTTP/1.1 200 OK" ++ CRLF ++ lit "Content-Type: application/eat+cbor" ++ CRLF ++ lit "Content-Length: " ++ to_decimal (blen eat) ++ CRLF ++
  lit "Access-Control-Allow-Origin: *" ++ CRLF ++ CRLF ++ eat.
(** [serve_vsock]: the same summary to everyone, whatever they sent *)
Definition plain_response (body : bytes) : bytes :=
  lit "HTTP/1.1 200 OK" ++ CRLF ++ lit "Content-Type: application/json" ++ CRLF ++ lit "Content-Length: " ++ to_decimal (blen body) ++ CRLF ++ CRLF ++ body.

(** [base64::STANDARD.encode] *)
Class Base64 := { base64_encode : bytes -> bytes }.
Definition QUOTE : byte := x22.
Definition kms_json `{B64 : Base64} (doc : bytes) : bytes :=
  x7b :: QUOTE :: lit "attestation_document_b64" ++ [QUOTE; x3a; QUOTE] ++ base64_encode doc ++ [QUOTE; x7d].
(** The state is absent when the server has no Nitro provider; [Nsm.fresh_attestation]
    gives the outcome of a request for a document. *)
Definition handle_kms_attestation `{B64 : Base64} (state : option (bytes + bytes)) : bytes :=
  match state with
  | None => http_response 400 (lit "KMS state not available")
  | Some (inl doc) => plain_response (kms_json doc)
  | Some (inr e) => http_response 500 (lit "attestation refresh failed: " ++ e)
  end.

(** ** Connections *)
(** The reading loop: [buf] holds what was read; a read gives at most the space that is left. *)
Fixpoint read_request (chunks : list bytes) (buf : bytes) : bytes :=
  if MAX_HTTP_HEADER_BYTES <=? blen buf then buf
  else match chunks with
  | [] | [] :: _ => buf
  | c :: chunks =>
    let buf := buf ++ take (N.to_nat (MAX_HTTP_HEADER_BYTES - blen buf)) c in
    if bool_decide (is_Some (find_sub HEADER_END buf)) then buf else read_request chunks buf
  end.
Definition serve `{B64 : Base64} (body eat : bytes) (kms_state : option (bytes + bytes)) (chunks : list bytes) : bytes :=
  match evidence_route (read_request chunks []) with
  | Err (status, detail) => http_response status detail
  | Ok Eat => eat_response eat
  | Ok KmsAttestation => handle_kms_attestation kms_state
  | Ok Summary => summary_response body
  | Panic | NoFuel => []
  end.

(** * Lemmas *)
(** ** Lines *)
Lemma split_crlf_two c d r : split_crlf (c :: d :: r) =
  if Byte.eqb c CR && Byte.eqb d LF then [] :: split_crlf r else match split_crlf (d :: r) with p :: ps => (c :: p) :: ps | [] => [[c]] end.
Proof. done. Qed.
Lemma split_crlf_nonempty s : split_crlf s <> [].
Proof. destruct s as [|c [|d r]]; [done..|]. rewrite split_crlf_two. destruct (_ && _); [done|]. by destruct (split_crlf (d :: r)). Qed.
Lemma split_crlf_cons c s : (forall r, c :: s <> CR :: LF :: r) ->
  split_crlf (c :: s) = match split_crlf s with p :: ps => (c :: p) :: ps | [] => [[c]] end.
Proof.
  intros Hne. destruct s as [|d r]; [done|]. rewrite split_crlf_two. destruct (Byte.eqb c CR && Byte.eqb d LF) eqn:E; [|done]. bools. subst. by destruct (Hne r).
Qed.
(** [s] as a first line and the rest, if there is a rest. *)
Lemma crlf_cases c s : (exists r, s = LF :: r /\ c = CR) \/ (forall r, c :: s <> CR :: LF :: r).
Proof.
  destruct (decide (c = CR)) as [->|Hc]; [|right; intros r Hr; by simplify_eq/=]. destruct s as [|d r]; [right; intros r Hr; by simplify_eq/=|].
  destruct (decide (d = LF)) as [->|Hd]; [left; eauto|right; intros r' Hr; by simplify_eq/=].
Qed.
Lemma split_crlf_app a b : split_crlf (a ++ CRLF ++ b) = split_crlf a ++ split_crlf b.
Proof.
  remember (length a) as n eqn:Hn. revert a Hn. induction n as [n IH] using lt_wf_ind. intros a Hn. destruct a as [|c a]; [done|].
  destruct (crlf_cases c a) as [(r & -> & ->)|Hc].
  - change (split_crlf ((CR :: LF :: r) ++ CRLF ++ b)) with ([] :: split_crlf (r ++ CRLF ++ b)).
    change (split_crlf (CR :: LF :: r)) with ([] :: split_crlf r). rewrite (IH (length r)); [done|cbn in Hn; lia|done].
  - rewrite (split_crlf_cons c a Hc). assert (split_crlf ((c :: a) ++ CRLF ++ b) = match split_crlf (a ++ CRLF ++ b) with p :: ps => (c :: p) :: ps | [] => [[c]] end) as ->.
    { apply (split_crlf_cons c (a ++ CRLF ++ b)). intros r Hr. injection Hr as -> Hr. destruct a as [|d a]; [discriminate Hr|]. injection Hr as -> _. by apply (Hc a). }
    rewrite (IH (length a)); [|cbn in Hn; lia|done]. pose proof (split_crlf_nonempty a). by destruct (split_crlf a).
Qed.
Lemma split_crlf_line s : CR ∉ s -> split_crlf s = [s].
Proof.
  induction s as [|c s IH]; [done|]. intros [Hc Hs]%not_elem_of_cons. rewrite split_crlf_cons by congruence. by rewrite IH.
Qed.
Definition crlf_lines (first : bytes) (lines : list bytes) : bytes := first ++ concat ((fun l => CRLF ++ l) <$> lines).
Lemma crlf_lines_cons first l lines : crlf_lines first (l :: lines) = first ++ CRLF ++ crlf_lines l lines.
Proof. unfold crlf_lines. cbn [fmap list_fmap concat]. by rewrite <- !app_assoc. Qed.
Lemma split_crlf_lines first lines : CR ∉ first -> (forall l, l ∈ lines -> CR ∉ l) -> split_crlf (crlf_lines first lines) = first :: lines.
Proof.
  revert first. induction lines as [|l lines IH]; intros first Hf Hl; [unfold crlf_lines; cbn; rewrite app_nil_r; by apply split_crlf_line|].
  rewrite crlf_lines_cons, split_crlf_app, split_crlf_line by done. cbn. f_equal. apply IH; [apply Hl; by left|]. intros l' Hin. apply Hl. by right.
Qed.
Lemma crlf_lines_split s first lines : split_crlf s = first :: lines -> s = crlf_lines first lines.
Proof.
  remember (length s) as n eqn:Hn. revert s first lines Hn. induction n as [n IH] using lt_wf_ind. intros s first lines Hn Hs.
  destruct s as [|c s]; [by injection Hs as <- <-|]. destruct (crlf_cases c s) as [(r & -> & ->)|Hc].
  - change (split_crlf (CR :: LF :: r)) with ([] :: split_crlf r) in Hs. injection Hs as <- Hs. destruct lines as [|l lines]; [by destruct (split_crlf_nonempty r)|].
    rewrite crlf_lines_cons. cbn. do 2 f_equal. apply (IH (length r)); [cbn in Hn; lia|done|done].
  - rewrite split_crlf_cons in Hs by done. destruct (split_crlf s) as [|p ps] eqn:E; [by destruct (split_crlf_nonempty s)|]. injection Hs as <- <-.
    rewrite (IH (length s) ltac:(cbn in Hn; lia) s p ps eq_refl E). done.
Qed.
(** Two ways to cut a list at an empty line, when the lines before one of them are not empty. *)
Lemma app_cons_nil (l p q : list bytes) : (forall x, x ∈ l -> x <> []) -> l ++ [[]; []] = p ++ [] :: q -> q <> [] -> p = l.
Proof.
  intros Hl Heq Hq. apply split_app in Heq as [(mid & -> & _)|(mid & -> & Hr)].
  - exfalso. apply (Hl []); [apply elem_of_app; right; by left|done].
  - destruct mid as [|x [|y mid]]; [by rewrite app_nil_r| |].
    + exfalso. by simplify_eq/=.
    + exfalso. simplify_eq/=. by destruct mid.
Qed.
(** The header ends at the first empty line. *)
Lemma find_header_end first lines : CR ∉ first -> first <> [] -> (forall l, l ∈ lines -> CR ∉ l /\ l <> []) ->
  find_sub HEADER_END (crlf_lines first lines ++ HEADER_END) = Some (blen (crlf_lines first lines)).
Proof.
  intros Hf Hne Hl. set (h := crlf_lines first lines).
  assert (split_crlf (h ++ HEADER_END) = (first :: lines) ++ [[]; []]) as Hs.
  { unfold HEADER_END. rewrite <- (app_nil_r (CRLF ++ CRLF)), <- app_assoc, !split_crlf_app. unfold h. rewrite split_crlf_lines; [done|done|]. intros l Hin. by apply Hl. }
  destruct (find_sub HEADER_END (h ++ HEADER_END)) as [k|] eqn:E.
  - apply find_sub_Some in E as (p & q & Heq & <-). do 2 f_equal.
    assert (split_crlf (p ++ HEADER_END ++ q) = split_crlf p ++ [] :: split_crlf q) as Hp.
    { unfold HEADER_END. rewrite <- (app_assoc CRLF CRLF q), !split_crlf_app. done. }
    rewrite <- Heq, Hs in Hp. assert (forall l, l ∈ first :: lines -> l <> []) as Hall.
    { intros l [->|Hin]%elem_of_cons; [done|]. by apply Hl. }
    assert (split_crlf p = first :: lines) as Hpl.
    { apply (app_cons_nil (first :: lines) _ (split_crlf q)); [exact Hall|exact Hp|apply split_crlf_nonempty]. }
    by rewrite (crlf_lines_split _ _ _ Hpl).
  - exfalso. pose proof (find_sub_hit HEADER_END h []) as Hno. by rewrite app_nil_r in Hno.
Qed.

(** ** Routing *)
Definition header_bytes (h : bytes * bytes) : bytes := h.1 ++ x3a :: h.2.
Definition is_header (name : string) (h : bytes * bytes) : bool := eq_ignore_ascii_case h.1 (lit name).
(** A header that is not refused. *)
Record header_ok (h : bytes * bytes) : Prop := {
  hk_name : h.1 <> [] /\ forall c, c ∈ h.1 -> name_char c = true;
  hk_value c : c ∈ h.2 -> value_control c = false;
  hk_host : is_header "host" h = true -> str_trim h.2 <> [];
  hk_length : is_header "content-length" h = true -> str_trim h.2 = lit "0";
  hk_encoding : is_header "transfer-encoding" h = false;
}.
Definition counted (name : string) (hs : list (bytes * bytes)) : N := blen (List.filter (is_header name) hs).
Lemma existsb_none {A} (p : A -> bool) l : existsb p l = false <-> forall x, x ∈ l -> p x = false.
Proof.
  split.
  - intros He x Hx. apply not_true_iff_false. intros Hp. apply not_true_iff_false in He. apply He, existsb_exists. exists x. split; [by apply list_elem_of_In|done].
  - intros Hall. apply not_true_iff_false. intros (x & Hx%list_elem_of_In & Hp)%existsb_exists. by rewrite Hall in Hp.
Qed.
Lemma forallb_elem {A} (p : A -> bool) l : forallb p l = true <-> forall x, x ∈ l -> p x = true.
Proof. rewrite forallb_forall. by setoid_rewrite list_elem_of_In. Qed.
Lemma host_not_length n : eq_ignore_ascii_case n (lit "host") = true -> eq_ignore_ascii_case n (lit "content-length") = false /\
  eq_ignore_ascii_case n (lit "transfer-encoding") = false.
Proof. unfold eq_ignore_ascii_case. intros ->%bytes_eqb_eq. done. Qed.
Lemma length_not_encoding n : eq_ignore_ascii_case n (lit "content-length") = true -> eq_ignore_ascii_case n (lit "transfer-encoding") = false.
Proof. unfold eq_ignore_ascii_case. intros ->%bytes_eqb_eq. done. Qed.
Definition bump (counts : N * N) (h : bytes * bytes) : N * N :=
  (counts.1 + if is_header "host" h then 1 else 0, counts.2 + if is_header "content-length" h then 1 else 0).
Lemma header_line_Ok counts line counts' : header_line counts line = Ok counts' <->
  exists h, line = header_bytes h /\ header_ok h /\ counts' = bump counts h.
Proof.
  unfold header_line. split.
  - intros Hl. apply bind_Ok in Hl as ([name value] & Hs & Hl). unfold ok_or in Hs. destruct (split_once x3a line) as [[n v]|] eqn:Es; [|done].
    injection Hs as -> ->. apply split_once_Some in Es as [-> Hn]. apply bind_Ok in Hl as ([] & Hr%reject_if_Ok & Hl).
    apply orb_false_iff in Hr as [[H0%N.eqb_neq Hname%negb_false_iff]%orb_false_iff Hval].
    rewrite forallb_elem in Hname. rewrite existsb_none in Hval.
    assert (name <> []) as Hne by (intros ->; by rewrite blen_nil in H0).
    exists (name, value). split; [done|]. unfold bump, is_header. cbn [fst snd].
    destruct (eq_ignore_ascii_case name (lit "host")) eqn:E1; [|destruct (eq_ignore_ascii_case name (lit "content-length")) eqn:E2;
      [|destruct (eq_ignore_ascii_case name (lit "transfer-encoding")) eqn:E3; [done|]]].
    + destruct (host_not_length _ E1) as [E2 E3]. apply bind_Ok in Hl as ([] & Hr%reject_if_Ok%N.eqb_neq & Hl). injection Hl as <-. rewrite E2.
      split; [|f_equal; lia]. split; cbn [fst snd]; try done; unfold is_header; cbn [fst snd]; try congruence. intros _ Ht. by rewrite Ht in Hr.
    + pose proof (length_not_encoding _ E2) as E3. apply bind_Ok in Hl as ([] & Hr%reject_if_Ok%negb_false_iff%bytes_eqb_eq & Hl). injection Hl as <-.
      split; [|f_equal; lia]. split; cbn [fst snd]; try done; unfold is_header; cbn [fst snd]; congruence.
    + injection Hl as <-. split; [|destruct counts; cbn; f_equal; lia]. split; cbn [fst snd]; try done; unfold is_header; cbn [fst snd]; congruence.
  - intros ([name value] & -> & [[Hne Hname] Hval Hhost Hlen Henc] & ->). unfold is_header, header_bytes, bump in *. cbn [fst snd] in *.
    assert (x3a ∉ name) as Hcolon by (intros Hin; by apply Hname in Hin).
    rewrite (proj2 (split_once_Some x3a _ name value)) by done. cbn [ok_or]. ok_step. rewrite (reject_if_false (_ || _ || _)).
    2:{ apply orb_false_iff. split; [apply orb_false_iff; split|].
        - destruct name; [done|]. rewrite blen_cons. apply N.eqb_neq. lia.
        - apply negb_false_iff. by apply forallb_elem.
        - by apply existsb_none. }
    ok_step. unfold is_header. cbn [fst].
    destruct (eq_ignore_ascii_case name (lit "host")) eqn:E1.
    + destruct (host_not_length _ E1) as [E2 _]. rewrite E2. rewrite reject_if_false.
      * ok_step. do 2 f_equal. lia.
      * apply N.eqb_neq. intros Hz%blen_0. by apply Hhost.
    + destruct (eq_ignore_ascii_case name (lit "content-length")) eqn:E2.
      * rewrite (Hlen eq_refl), reject_if_false by done. ok_step. do 2 f_equal. lia.
      * rewrite Henc. destruct counts. cbn. do 2 f_equal; lia.
Qed.
Lemma header_lines_Ok lines counts counts' : for_each header_line counts lines = Ok counts' <->
  exists hs, lines = header_bytes <$> hs /\ Forall header_ok hs /\ counts' = foldl bump counts hs.
Proof.
  revert counts. induction lines as [|l lines IH]; intros counts.
  - cbn [for_each]. split; [intros [= <-]; exists []; by split_and!|]. intros (hs & Hhs & _ & ->). by destruct hs.
  - rewrite for_each_cons. split.
    + intros (c & Hc & Hl)%bind_Ok. apply header_line_Ok in Hc as (h & -> & Hok & ->). apply IH in Hl as (hs & -> & Hhs & ->).
      exists (h :: hs). split; [done|]. split; [by constructor|done].
    + intros (hs & Hhs & Hall & ->). destruct hs as [|h hs]; [done|]. injection Hhs as -> ->. inversion_clear Hall.
      rewrite (proj2 (header_line_Ok counts (header_bytes h) (bump counts h))) by eauto. ok_step. apply IH. eauto.
Qed.
Lemma foldl_bump hs counts : foldl bump counts hs = (counts.1 + counted "host" hs, counts.2 + counted "content-length" hs).
Proof.
  revert counts. induction hs as [|h hs IH]; intros counts; cbn [foldl]; [destruct counts; cbn; f_equal; by rewrite ?N.add_0_r|].
  rewrite IH. unfold counted, bump. cbn [List.filter fst snd]. f_equal; destruct (is_header _ h); rewrite ?blen_cons; lia.
Qed.
Definition path_of (r : EvidenceRoute) : bytes :=
  match r with Summary => lit "/" | Eat => lit "/eat" | KmsAttestation => lit "/kms-attestation" end.
Definition get_line (path : bytes) : bytes := lit "GET " ++ path ++ lit " HTTP/1.1".
(** A GET of a route: its request line, its headers, the empty line, and nothing after it. *)
Definition get_request (r : EvidenceRoute) (hs : list (bytes * bytes)) : bytes :=
  crlf_lines (get_line (path_of r)) (header_bytes <$> hs) ++ HEADER_END.
Record read_only_request (request : bytes) (r : EvidenceRoute) (hs : list (bytes * bytes)) : Prop := {
  ro_bytes : request = get_request r hs;
  ro_size : blen request <= MAX_HTTP_HEADER_BYTES;
  ro_text : is_Some (from_utf8 (crlf_lines (get_line (path_of r)) (header_bytes <$> hs)));
  ro_headers : Forall header_ok hs;
  ro_host : counted "host" hs = 1;
  ro_length : counted "content-length" hs <= 1;
}.
Lemma request_line_Ok line method path : request_line line = Ok (method, path) ->
  line = method ++ x20 :: path ++ x20 :: lit "HTTP/1.1".
Proof.
  unfold request_line. pose proof (join_split_byte x20 line) as Hj. destruct (split_byte x20 line) as [|a [|b [|c [|]]]]; try done.
  intros ([] & Hr%reject_if_Ok & Hl)%bind_Ok. injection Hl as <- <-. apply orb_false_iff in Hr as [[Hv%negb_false_iff%bytes_eqb_eq _]%orb_false_iff _].
  subst c. by rewrite <- Hj.
Qed.
Lemma request_line_run r : request_line (get_line (path_of r)) = Ok (lit "GET", path_of r).
Proof. by destruct r; vm_compute. Qed.
Lemma route_of_Ok path r : route_of path = Ok r <-> path = path_of r.
Proof.
  unfold route_of. split.
  - destruct (bytes_eqb path (lit "/")) eqn:E1; [apply bytes_eqb_eq in E1; by intros [= <-]|].
    destruct (bytes_eqb path (lit "/eat")) eqn:E2; [apply bytes_eqb_eq in E2; by intros [= <-]|].
    destruct (bytes_eqb path (lit "/kms-attestation")) eqn:E3; [apply bytes_eqb_eq in E3; by intros [= <-]|done].
  - intros ->. by destruct r.
Qed.
Lemma header_bytes_clean h : header_ok h -> CR ∉ header_bytes h /\ header_bytes h <> [].
Proof.
  intros [[_ Hn] Hv _ _ _]. destruct h as [n v]. unfold header_bytes. cbn [fst snd] in *. split; [|by destruct n].
  intros [Hin|[Hin|Hin]%elem_of_cons]%elem_of_app; [by apply Hn in Hin|done|by apply Hv in Hin].
Qed.
Lemma evidence_route_safe request : safe (evidence_route request) (fun _ => True).
Proof.
  unfold evidence_route. apply safe_bind, safe_reject_if. intros _. apply safe_bind, safe_ok_or. intros k (p & q & -> & <-)%find_sub_Some.
  apply safe_bind, safe_index_range; [lia|rewrite !blen_app; lia|]. intros h _ _. apply safe_bind, safe_ok_or. intros header _.
  destruct (split_crlf header) as [|first lines]; [done|]. unfold request_line.
  destruct (split_byte x20 first) as [|a [|b [|c [|]]]]; try done. apply safe_bind. apply safe_bind, safe_reject_if. intros _. cbn [safe].
  eapply safe_seq; [apply (safe_for_each _ (fun _ => True)); [done|]|].
  + intros counts line _ _. unfold header_line. apply safe_bind, safe_ok_or. intros [n v] _. apply safe_bind, safe_reject_if. intros _.
    destruct (eq_ignore_ascii_case n (lit "host")); [by apply safe_bind, safe_reject_if|].
    destruct (eq_ignore_ascii_case n (lit "content-length")); [by apply safe_bind, safe_reject_if|]. by destruct (eq_ignore_ascii_case _ _).
  + intros [hc lc] _ _. do 3 (apply safe_bind, safe_reject_if; intros _). unfold route_of. by repeat case_match.
Qed.
Lemma evidence_route_inv request r : evidence_route request = Ok r -> exists hs, read_only_request request r hs.
Proof.
  intros Hr. unfold evidence_route in Hr. apply bind_Ok in Hr as ([] & Hsize%reject_if_Ok%N.ltb_ge & Hr).
  apply bind_Ok in Hr as (k & Hk & Hr). destruct (find_sub HEADER_END request) as [k'|] eqn:Ek; [|done]. injection Hk as ->.
  apply find_sub_Some in Ek as (p & q & -> & <-). rewrite index_range_app_0 in Hr by done. rewrite res_bind_Ok in Hr.
  apply bind_Ok in Hr as (header & Hh & Hr). destruct (from_utf8 p) as [t|] eqn:Eu; [|done]. injection Hh as ->.
  pose proof (from_utf8_Some _ _ Eu) as [-> _]. destruct (split_crlf p) as [|first lines] eqn:Es; [done|].
  apply bind_Ok in Hr as ([method path] & Hreq & Hr). apply bind_Ok in Hr as ([hc lc] & Hlines & Hr).
  apply bind_Ok in Hr as ([] & Hcount%reject_if_Ok & Hr). apply bind_Ok in Hr as ([] & _ & Hr).
  apply bind_Ok in Hr as ([] & Hm%reject_if_Ok%negb_false_iff%bytes_eqb_eq & Hr). apply route_of_Ok in Hr. subst method path.
  apply request_line_Ok in Hreq. apply header_lines_Ok in Hlines as (hs & -> & Hhs & Hc). rewrite foldl_bump in Hc. injection Hc as -> ->.
  apply orb_false_iff in Hcount as [[Hhost%negb_false_iff%N.eqb_eq Hlen%N.ltb_ge]%orb_false_iff Hq%negb_false_iff%N.eqb_eq].
  assert (q = []) as -> by (apply blen_0; rewrite !blen_app in Hq; change (blen HEADER_END) with 4 in Hq; lia).
  apply crlf_lines_split in Es. rewrite app_nil_r in *. exists hs. subst p first. split; [done|exact Hsize|exact (mk_is_Some _ _ Eu)|done|lia|lia].
Qed.
Lemma evidence_route_run request r hs : read_only_request request r hs -> evidence_route request = Ok r.
Proof.
  intros [-> Hsize Htext Hhs Hhost Hlen]. unfold get_request in *. set (p := crlf_lines _ _) in *. destruct Htext as [t Ht].
  pose proof (from_utf8_Some _ _ Ht) as [-> _]. unfold evidence_route. rewrite reject_if_false by (apply N.ltb_ge; lia). ok_step.
  assert (forall l, l ∈ header_bytes <$> hs -> CR ∉ l /\ l <> []) as Hclean.
  { intros l (h & -> & Hin)%list_elem_of_fmap. apply header_bytes_clean. by eapply Forall_forall in Hhs. }
  assert (CR ∉ get_line (path_of r)) as Hget by (destruct r; vm_compute; intros Hin; repeat (apply elem_of_cons in Hin as [Hin|Hin]; [done|]); by apply not_elem_of_nil in Hin).
  assert (find_sub HEADER_END (p ++ HEADER_END) = Some (blen p)) as Hend by (apply find_header_end; [done|by destruct r|done]).
  assert (split_crlf p = get_line (path_of r) :: (header_bytes <$> hs)) as Hlines by (apply split_crlf_lines; [done|intros l Hl; by apply Hclean]).
  rewrite Hend. cbn [ok_or]. ok_step. rewrite index_range_app_0 by done. ok_step. rewrite Ht. cbn [ok_or]. ok_step. rewrite Hlines, request_line_run. ok_step.
  rewrite (proj2 (header_lines_Ok (header_bytes <$> hs) (0, 0) (counted "host" hs, counted "content-length" hs))).
  2:{ exists hs. split; [done|]. split; [done|]. by rewrite foldl_bump. }
  ok_step. rewrite Hhost, (reject_if_false (_ || _ || _)).
  2:{ apply orb_false_iff. split; [apply orb_false_iff; split; [done|apply N.ltb_ge; lia]|]. apply negb_false_iff, N.eqb_eq. by rewrite blen_app. }
  ok_step. rewrite (reject_if_false (is_admin _)) by by destruct r. ok_step. rewrite (reject_if_false (negb _)) by done. ok_step. by apply route_of_Ok.
Qed.
(** Which requests are answered with a document.  Routing never panics.  A request gets
    a route exactly when it is, byte for byte, a GET of that route's path with HTTP/1.1,
    followed by its headers and an empty line, with nothing after it: at most 32 KiB of
    valid UTF-8, every header a name and a value without control characters, exactly one
    host, at most one content length, which is zero, and no transfer encoding. *)
Theorem evidence_route_exact request r :
  safe (evidence_route request) (fun _ => True) /\ (evidence_route request = Ok r <-> exists hs, read_only_request request r hs).
Proof. split; [apply evidence_route_safe|]. split; [apply evidence_route_inv|]. intros [hs Hr]. by eapply evidence_route_run. Qed.

(** ** Decimal lengths *)
Definition digits_value (s : bytes) : N := foldl (fun n c => 10 * n + (byte_N c - 48)) 0 s.
Lemma digit_byte n : n < 10 -> byte_N (byte_of (48 + n)) = 48 + n.
Proof. intros Hn. rewrite byte_N_of. apply N.mod_small. lia. Qed.
Lemma foldl_digits s n : foldl (fun n c => 10 * n + (byte_N c - 48)) n s = n * 10 ^ blen s + digits_value s.
Proof.
  unfold digits_value. revert n. induction s as [|c s IH]; intros n; cbn [foldl]; [change (blen []) with 0; lia|].
  rewrite IH, (IH (10 * 0 + (byte_N c - 48))), blen_cons, N.pow_add_r. nia.
Qed.
Lemma decimal_digits_spec fuel n acc : n < 10 ^ N.of_nat fuel -> forallb is_digit acc = true ->
  forallb is_digit (decimal_digits fuel n acc) = true /\ digits_value (decimal_digits fuel n acc) = n * 10 ^ blen acc + digits_value acc.
Proof.
  revert n acc. induction fuel as [|fuel IH]; intros n acc Hn Hacc; cbn [decimal_digits]; [cbn in Hn; split; [done|]; replace n with 0 by lia; lia|].
  pose proof (N.mod_lt n 10 ltac:(done)) as Hm.
  assert (forallb is_digit (byte_of (48 + n mod 10) :: acc) = true) as Hd.
  { cbn [forallb]. rewrite Hacc, andb_true_r. unfold is_digit. rewrite digit_byte by done. apply andb_true_iff. split; apply N.leb_le; revert Hm; clear; generalize (n mod 10); lia. }
  assert (digits_value (byte_of (48 + n mod 10) :: acc) = n mod 10 * 10 ^ blen acc + digits_value acc) as Hv.
  { unfold digits_value at 1. cbn [foldl]. rewrite foldl_digits, digit_byte by done. f_equal. f_equal. revert Hm; clear; generalize (n mod 10); lia. }
  destruct (N.ltb_spec n 10) as [Hs|Hs].
  - split; [done|]. rewrite Hv, N.mod_small by done. done.
  - destruct (IH (n / 10) (byte_of (48 + n mod 10) :: acc)) as [H1 H2]; [|done|].
    + apply N.div_lt_upper_bound; [done|]. rewrite Nat2N.inj_succ, N.pow_succ_r' in Hn. done.
    + split; [done|]. rewrite H2, Hv, blen_cons, N.pow_add_r. pose proof (N.div_mod n 10 ltac:(done)). nia.
Qed.
Lemma to_decimal_spec n : forallb is_digit (to_decimal n) = true /\ digits_value (to_decimal n) = n.
Proof.
  unfold to_decimal. destruct (decimal_digits_spec (S (N.to_nat (N.log2 n))) n []) as [H1 H2]; [|done|].
  - rewrite Nat2N.inj_succ, N2Nat.id. destruct (N.eq_dec n 0) as [->|Hn]; [done|]. destruct (N.log2_spec n) as [_ Hu]; [lia|].
    eapply N.lt_le_trans; [exact Hu|]. apply N.pow_le_mono_l. lia.
  - split; [exact H1|]. rewrite H2. change (n * 1 + 0 = n). lia.
Qed.
Lemma decimal_digits_nonempty fuel n acc : acc <> [] -> decimal_digits fuel n acc <> [].
Proof. revert n acc. induction fuel as [|fuel IH]; intros n acc Ha; cbn [decimal_digits]; [done|]. destruct (_ <? 10); [done|by apply IH]. Qed.
Lemma to_decimal_nonempty n : to_decimal n <> [].
Proof. unfold to_decimal. cbn [decimal_digits]. destruct (_ <? 10); [done|by apply decimal_digits_nonempty]. Qed.
(** The length that a response states is read back as the length of its body. *)
Lemma to_decimal_parse max n : n <= max -> parse_unsigned max (to_decimal n) = Some n.
Proof.
  intros Hn. destruct (to_decimal_spec n) as [Hd Hv]. unfold parse_unsigned.
  pose proof (to_decimal_nonempty n) as Hne.
  destruct (to_decimal n) as [|c s] eqn:E; [done|]. assert (c <> x2b) as Hc by (intros ->; discriminate Hd).
  assert (match c with x2b => s | _ => c :: s end = c :: s) as Hm by (by destruct c).
  transitivity (let s' := c :: s in if (blen s' =? 0) || negb (forallb is_digit s') then None
    else let n0 := foldl (fun n c => 10 * n + (byte_N c - 48)) 0 s' in if n0 <=? max then Some n0 else None).
  - by destruct c.
  - cbv zeta. rewrite Hd, blen_cons. replace (1 + blen s =? 0) with false by (symmetry; apply N.eqb_neq; lia). cbn [orb negb].
    fold (digits_value (c :: s)). rewrite Hv. by rewrite (proj2 (N.leb_le n max) Hn).
Qed.
Lemma to_decimal_clean n : CR ∉ to_decimal n.
Proof. intros Hin. destruct (to_decimal_spec n) as [Hd _]. rewrite forallb_elem in Hd. by apply Hd in Hin. Qed.

(** ** Reading *)
Lemma starts_with_app n s t : starts_with n s = true -> starts_with n (s ++ t) = true.
Proof.
  unfold starts_with. destruct (strip_prefix n s) as [r|] eqn:E; [|done]. intros _. apply strip_prefix_Some in E as ->.
  by rewrite (proj2 (strip_prefix_Some n _ (r ++ t))) by by rewrite app_assoc.
Qed.
Lemma starts_with_shorter n s t : (length n <= length s)%nat -> starts_with n (s ++ t) = true -> starts_with n s = true.
Proof.
  unfold starts_with. intros Hl. destruct (strip_prefix n (s ++ t)) as [r|] eqn:E; [|done]. intros _. apply strip_prefix_Some in E.
  assert (s = n ++ drop (length n) s) as Hs.
  { rewrite <- (take_drop (length n) s) at 1. f_equal. apply (f_equal (take (length n))) in E. by rewrite take_app_le, take_app_length in E. }
  by rewrite (proj2 (strip_prefix_Some n s _) Hs).
Qed.
Lemma find_sub_extend n s t k : find_sub n s = Some k -> find_sub n (s ++ t) = Some k.
Proof.
  revert k. induction s as [|x s IH]; intros k; cbn [find_sub].
  - destruct (starts_with n []) eqn:E; [|done]. intros [= <-]. cbn [app].
    assert (starts_with n t = true) as Ht by exact (starts_with_app n [] t E). destruct t; cbn [find_sub]; by rewrite Ht.
  - cbn [app find_sub]. destruct (starts_with n (x :: s)) eqn:E.
    + intros [= <-]. pose proof (starts_with_app n (x :: s) t E) as Hs. cbn [app] in Hs. by rewrite Hs.
    + destruct (find_sub n s) as [k'|] eqn:Ek; [|done]. intros [= <-]. rewrite (IH k' eq_refl).
      destruct (starts_with n (x :: s ++ t)) eqn:E'; [|done]. exfalso. apply not_true_iff_false in E. apply E, (starts_with_shorter n (x :: s) t); [|done].
      apply find_sub_Some in Ek as (p & q & -> & _). cbn [length]. rewrite !length_app. lia.
Qed.
(** A request whose header ends with it is read whole, however it is cut into chunks. *)
Lemma read_request_whole chunks buf : (forall c, c ∈ chunks -> c <> []) -> blen (buf ++ concat chunks) <= MAX_HTTP_HEADER_BYTES ->
  find_sub HEADER_END (buf ++ concat chunks) = Some (blen (buf ++ concat chunks) - 4) -> 4 <= blen (buf ++ concat chunks) ->
  read_request chunks buf = buf ++ concat chunks.
Proof.
  revert buf. induction chunks as [|c chunks IH]; intros buf Hne Hmax Hend H4; cbn [read_request concat] in *.
  - rewrite app_nil_r. by destruct (_ <=? _).
  - assert (c <> []) as Hc by (apply Hne; left). rewrite blen_app, blen_app in Hmax.
    assert (0 < blen c) as Hlc by (destruct c; [done|rewrite blen_cons; lia]).
    destruct (N.leb_spec MAX_HTTP_HEADER_BYTES (blen buf)); [lia|]. destruct c as [|x c']; [done|]. set (c := x :: c') in *.
    rewrite take_ge by (unfold blen in *; lia).
    rewrite app_assoc in Hend, H4 |- *. case_bool_decide as Hf.
    + destruct Hf as [k Hk]. pose proof (find_sub_extend HEADER_END (buf ++ c) (concat chunks) k Hk) as Hk'.
      rewrite Hend in Hk'. injection Hk' as Hk'. apply find_sub_Some in Hk as (p & q & Heq & Hp). apply (f_equal blen) in Heq.
      rewrite !blen_app in Heq. change (blen HEADER_END) with 4 in Heq. rewrite !blen_app in Hk', H4.
      assert (concat chunks = []) as -> by (apply blen_0; lia). by rewrite app_nil_r.
    + apply IH; [intros c0 Hin; apply Hne; by right|rewrite !blen_app; lia|done|done].
Qed.
Lemma get_line_clean r : CR ∉ get_line (path_of r).
Proof. destruct r; vm_compute; intros Hin; repeat (apply elem_of_cons in Hin as [Hin|Hin]; [done|]); by apply not_elem_of_nil in Hin. Qed.
Lemma request_end request r hs : read_only_request request r hs -> find_sub HEADER_END request = Some (blen request - 4) /\ 4 <= blen request.
Proof.
  intros [-> _ _ Hhs _ _]. unfold get_request. rewrite find_header_end, blen_app; [|apply get_line_clean|by destruct r|].
  - change (blen HEADER_END) with 4. split; [f_equal; lia|lia].
  - intros l (h & -> & Hin)%list_elem_of_fmap. apply header_bytes_clean. by eapply Forall_forall in Hhs.
Qed.

(** ** Answers *)
(** A response: a status line, headers that state the length of the body, the body. *)
Definition framed (response body : bytes) : Prop := exists status headers,
  response = crlf_lines status headers ++ HEADER_END ++ body /\ lit "Content-Length: " ++ to_decimal (blen body) ∈ headers /\
  (forall l, l ∈ status :: headers -> CR ∉ l /\ l <> []).
(** Where a reader of the response finds the body. *)
Lemma framed_body response body : framed response body ->
  exists k, find_sub HEADER_END response = Some k /\ drop (N.to_nat (k + 4)) response = body.
Proof.
  intros (status & headers & -> & _ & Hclean). destruct (Hclean status) as [Hs Hne]; [by left|].
  pose proof (find_header_end status headers Hs Hne (fun l Hl => Hclean l (proj2 (elem_of_cons _ _ _) (or_intror Hl)))) as Hend.
  exists (blen (crlf_lines status headers)). split; [rewrite app_assoc; by apply find_sub_extend|].
  rewrite app_assoc. change 4 with (blen HEADER_END). rewrite <- blen_app. unfold blen. rewrite Nat2N.id. by rewrite drop_app_length.
Qed.
Lemma clean_list (l : list bytes) : forallb (fun x => negb (existsb (Byte.eqb CR) x) && negb (blen x =? 0)) l = true -> forall x, x ∈ l -> CR ∉ x /\ x <> [].
Proof.
  rewrite forallb_elem. intros Hall x Hx. apply Hall in Hx. apply andb_true_iff in Hx as [H1%negb_true_iff H2%negb_true_iff%N.eqb_neq].
  rewrite existsb_none in H1. split; [|by intros ->; rewrite blen_nil in H2]. intros Hin. by apply H1 in Hin.
Qed.
Lemma framed_with status before after body :
  (forall l, l ∈ status :: before ++ after -> CR ∉ l /\ l <> []) ->
  framed (crlf_lines status (before ++ (lit "Content-Length: " ++ to_decimal (blen body)) :: after) ++ HEADER_END ++ body) body.
Proof.
  intros Hclean. exists status. eexists. split; [done|]. split; [apply elem_of_app; right; by left|].
  intros l [->|[Hl|[->|Hl]%elem_of_cons]%elem_of_app]%elem_of_cons; [apply Hclean; by left|apply Hclean; right; apply elem_of_app; by left| |apply Hclean; right; apply elem_of_app; by right].
  split; [|done]. intros [Hin|Hin]%elem_of_app; [|by apply to_decimal_clean in Hin].
  vm_compute in Hin. repeat (apply elem_of_cons in Hin as [Hin|Hin]; [done|]). by apply not_elem_of_nil in Hin.
Qed.
Lemma status_line_clean status : CR ∉ lit "HTTP/1.1 " ++ to_decimal status ++ lit " " ++ reason status /\ lit "HTTP/1.1 " ++ to_decimal status ++ lit " " ++ reason status <> [].
Proof.
  split; [|done]. intros [Hin|[Hin|[Hin|Hin]%elem_of_app]%elem_of_app]%elem_of_app; [|by apply to_decimal_clean in Hin| |].
  - vm_compute in Hin. repeat (apply elem_of_cons in Hin as [Hin|Hin]; [done|]). by apply not_elem_of_nil in Hin.
  - vm_compute in Hin. repeat (apply elem_of_cons in Hin as [Hin|Hin]; [done|]). by apply not_elem_of_nil in Hin.
  - assert (existsb (Byte.eqb CR) (reason status) = false) as Hr by (unfold reason; by repeat case_match). rewrite existsb_none in Hr. by apply Hr in Hin.
Qed.
Lemma http_response_framed status body : framed (http_response status body) body.
Proof.
  pose proof (framed_with (lit "HTTP/1.1 " ++ to_decimal status ++ lit " " ++ reason status) [lit "Content-Type: text/plain"; lit "Connection: close"] [] body) as Hf.
  unfold crlf_lines in Hf. cbn [fmap list_fmap concat app] in Hf. unfold http_response, HEADER_END in *. rewrite <- !app_assoc in *. apply Hf.
  intros l [->|Hl]%elem_of_cons; [apply status_line_clean|]. by apply (clean_list [lit "Content-Type: text/plain"; lit "Connection: close"]).
Qed.
Lemma ok_response_framed (before after : list bytes) body :
  forallb (fun x => negb (existsb (Byte.eqb CR) x) && negb (blen x =? 0)) (before ++ after) = true ->
  framed (crlf_lines (lit "HTTP/1.1 200 OK") (before ++ (lit "Content-Length: " ++ to_decimal (blen body)) :: after) ++ HEADER_END ++ body) body.
Proof.
  intros Hb. apply framed_with. intros l [->|Hl]%elem_of_cons; [by apply (clean_list [lit "HTTP/1.1 200 OK"]); [|left]|]. by apply (clean_list (before ++ after)).
Qed.
Ltac framing Hf := unfold crlf_lines in Hf; cbn [fmap list_fmap concat app] in Hf; unfold HEADER_END in *; rewrite <- ?app_assoc in *; exact Hf.
Lemma summary_framed body : framed (summary_response body) body.
Proof. pose proof (ok_response_framed [lit "Content-Type: application/json"] [lit "Connection: close"] body eq_refl) as Hf. unfold summary_response. framing Hf. Qed.
Lemma eat_framed eat : framed (eat_response eat) eat.
Proof. pose proof (ok_response_framed [lit "Content-Type: application/eat+cbor"] [lit "Access-Control-Allow-Origin: *"] eat eq_refl) as Hf. unfold eat_response. framing Hf. Qed.
Lemma plain_framed body : framed (plain_response body) body.
Proof. pose proof (ok_response_framed [lit "Content-Type: application/json"] [] body eq_refl) as Hf. unfold plain_response. framing Hf. Qed.

Section Serve.
Context `{B64 : Base64}.
(** What a route answers with. *)
Definition document_of (body eat : bytes) (kms : option (bytes + bytes)) (r : EvidenceRoute) : bytes :=
  match r, kms with
  | Summary, _ => body
  | Eat, _ => eat
  | KmsAttestation, None => lit "KMS state not available"
  | KmsAttestation, Some (inl doc) => kms_json doc
  | KmsAttestation, Some (inr e) => lit "attestation refresh failed: " ++ e
  end.
Lemma serve_route body eat kms chunks r : evidence_route (read_request chunks []) = Ok r ->
  framed (serve body eat kms chunks) (document_of body eat kms r).
Proof.
  intros Hr. unfold serve. rewrite Hr. destruct r; [apply summary_framed|apply eat_framed|].
  unfold handle_kms_attestation. destruct kms as [[doc|e]|]; [apply plain_framed|apply http_response_framed|apply http_response_framed].
Qed.
(** C33: what the public listener answers.  Every connection gets one response, whose stated
    length is the length of its body, so that a client finds exactly that body after the
    header.  If what was read is a GET of a route, the body is that route's document: the
    summary, the token or the attestation for the key service; otherwise it is a fixed
    error text.  And a well-formed GET is answered with its document however the network
    cuts it into chunks. *)
Theorem listener_read_only body eat kms :
  (forall chunks, exists b, framed (serve body eat kms chunks) b /\
    (exists k, find_sub HEADER_END (serve body eat kms chunks) = Some k /\ drop (N.to_nat (k + 4)) (serve body eat kms chunks) = b) /\
    ((exists r hs, read_only_request (read_request chunks []) r hs /\ b = document_of body eat kms r) \/
     (exists status, evidence_route (read_request chunks []) = Err (status, b) /\ serve body eat kms chunks = http_response status b))) /\
  (forall r hs chunks, read_only_request (concat chunks) r hs -> (forall c, c ∈ chunks -> c <> []) ->
    framed (serve body eat kms chunks) (document_of body eat kms r)).
Proof.
  split.
  - intros chunks. pose proof (evidence_route_safe (read_request chunks [])) as Hs.
    destruct (evidence_route (read_request chunks [])) as [r|[status d]| |] eqn:E; [| |done..].
    + pose proof (serve_route body eat kms chunks r E) as Hf. eexists. split; [exact Hf|]. split; [by apply framed_body|]. left.
      apply evidence_route_inv in E as [hs Hr]. eauto.
    + exists d. assert (serve body eat kms chunks = http_response status d) as Heq by (unfold serve; by rewrite E). rewrite Heq.
      pose proof (http_response_framed status d) as Hf. split; [done|]. split; [by apply framed_body|]. right. eauto.
  - intros r hs chunks Hr Hne. apply serve_route. destruct (request_end _ _ _ Hr) as [Hend H4]. rewrite read_request_whole; try done; [|apply Hr].
    by eapply evidence_route_run.
Qed.
End Serve.

(** ** Requests *)
Definition crlf (s : list string) : bytes := concat ((fun l => lit l ++ CRLF) <$> s).
Example routed : evidence_route <$> [crlf ["GET /eat HTTP/1.1"; "Host: enclave"; ""]; crlf ["POST / HTTP/1.1"; "host: e"; "Content-Length:  0"; ""];
    crlf ["GET /tls-cert HTTP/1.1"; "Host: e"; ""]; crlf ["GET /eat HTTP/1.1"; "Host: e"; ""; "POST /tls-cert HTTP/1.1"; ""];
    crlf ["GET /eat HTTP/1.1"; "Host: a"; "Host: b"; ""]; crlf ["GET /eat?x HTTP/1.1"; "Host: a"; ""]] =
  [Ok Eat; Err (405, lit "only read-only evidence requests are supported");
   Err (403, lit "administration and plaintext release are disabled on the public evidence listener"); Err bad; Err bad; Err bad].
Proof. vm_compute. reflexivity. Qed.
Lemma listener_read_only_witness :
  framed (serve (B64 := {| base64_encode := fun b => b |}) (lit "{}") [x01; x02] None [lit "GET /eat HT"; lit "TP/1.1" ++ CRLF; lit "Host: e" ++ CRLF ++ CRLF]) [x01; x02].
Proof.
  apply (proj2 (listener_read_only (B64 := {| base64_encode := fun b => b |}) (lit "{}") [x01; x02] None) Eat [(lit "Host", lit " e")]).
  - split; [vm_compute; reflexivity|vm_compute; discriminate|vm_compute; eauto| |vm_compute; reflexivity|vm_compute; discriminate].
    constructor; [|constructor]. split; cbn [fst snd].
    + split; [discriminate|]. apply (forallb_elem name_char). vm_compute. reflexivity.
    + apply (existsb_none value_control). vm_compute. reflexivity.
    + intros _. vm_compute. discriminate.
    + intros Hc. vm_compute in Hc. discriminate Hc.
    + vm_compute. reflexivity.
  - intros c Hc. rewrite !elem_of_cons, elem_of_nil in Hc. destruct Hc as [-> |[-> |[-> |[]]]]; discriminate.
Defined.
