(* ===== verification/Ct.v ===== *)
(** * Ct: Certificate Transparency
    ([src/v2/src/net/ct.rs])

    A certificate of a public authority carries signed timestamps of transparency logs.
    The list is parsed from its extension; each timestamp of a pinned log is checked
    against the certificate as the log saw it, without that extension, and against the
    key of the issuer.

    [sct_list_exact]: the parser accepts exactly the encodings of a list of version 1
    timestamps; it tolerates, and drops, bytes after the list and after a signature.
    [ct_report_exact]: the report sorts every timestamp of the certificate by what is known
    of it, and a name among the verified ones stands for a signature by that pinned log.

    DER, the re-encoding of a certificate and ECDSA are crates; the text of their errors
    is a parameter too, since the report quotes it. *)
From S2P Require Import Prelude Bytes Text Crypto Pki.

Definition CT_SCT_LIST_OID : bytes := lit "1.3.6.1.4.1.11129.2.4.2".
Record PinnedLog : Type := { pl_name : bytes; pl_log_id : bytes; pl_spki : bytes }.
Definition hex (s : string) : bytes := default [] (hex_decode (lit s)).
Definition GOOGLE_ARGON_2026H1_LOG_ID : bytes := hex "0e5794bcf3aea93e331b2c9907b3f790df9bc23d713225dd21a925ac61c54e21".
Definition GOOGLE_ARGON_2026H1_SPKI : bytes := hex
  "3059301306072a8648ce3d020106082a8648ce3d0301070342000407fc1ee8638eff1c318afcb81e192b6050003e8e9eda7737e3a5a8da8d94f86be83d648f273f75b3fc6b12f037064f645875145d5652e66a2b144cec81d1ea3e".
Definition CLOUDFLARE_NIMBUS_2026_LOG_ID : bytes := hex "cb38f715897c84a1445f5bc1ddfbc96ef29a59cd470a690585b0cb14c31458e7".
Definition CLOUDFLARE_NIMBUS_2026_SPKI : bytes := hex
  "3059301306072a8648ce3d020106082a8648ce3d03010703420004d85c614fac6ad220804e8a42f604ad4bd4b11c798e2932de695359ebad78f3c02af2d0115d057eebe8c1d3df37bf9164466e0e2713eabb6f46275886ef4021a3".
Definition DIGICERT_WYVERN_2026H1_LOG_ID : bytes := hex "6411c46ca412eca7891ca2022e00bcab4f2807d41e3527abeafed503c97dcdf0".
Definition DIGICERT_WYVERN_2026H1_SPKI : bytes := hex
  "3059301306072a8648ce3d020106082a8648ce3d03010703420004ecbc3439e29a8db7997a91f1057252da93895d3a078b99ed80a516da732120eb869687c5c6d917ba6eb94c1358d5d183f87adf1e07bc15cdc04acd2a31710755".
Definition SECTIGO_ELEPHANT_2026H1_LOG_ID : bytes := hex "d16ea9a568077e6635a03f37a5ddbc03a53c411214d48818f5e931b323cb9504".
Definition SECTIGO_ELEPHANT_2026H1_SPKI : bytes := hex
  "3059301306072a8648ce3d020106082a8648ce3d0301070342000453496a9cf1e85ee53d15cf5d26fd474190afb2c25fbf12ec8abc1543f7e417252a7aee229f03ca8a4793e031b2c96587e0d47f0c225ad9b02e987ad725d01c69".
Definition PINNED_LOGS : list PinnedLog := [
  {| pl_name := lit "Google Argon2026h1"; pl_log_id := GOOGLE_ARGON_2026H1_LOG_ID; pl_spki := GOOGLE_ARGON_2026H1_SPKI |};
  {| pl_name := lit "Cloudflare Nimbus2026"; pl_log_id := CLOUDFLARE_NIMBUS_2026_LOG_ID; pl_spki := CLOUDFLARE_NIMBUS_2026_SPKI |};
  {| pl_name := lit "DigiCert Wyvern2026h1"; pl_log_id := DIGICERT_WYVERN_2026H1_LOG_ID; pl_spki := DIGICERT_WYVERN_2026H1_SPKI |};
  {| pl_name := lit "Sectigo Elephant2026h1"; pl_log_id := SECTIGO_ELEPHANT_2026H1_LOG_ID; pl_spki := SECTIGO_ELEPHANT_2026H1_SPKI |}].

Record Sct : Type := {
  sct_version : N; log_id : bytes; timestamp_ms : N; sct_extensions : bytes; hash_alg : N; sig_alg : N; signature_der : bytes;
}.
Definition pinned_log (s : Sct) : option PinnedLog := List.find (fun l => bytes_eqb (pl_log_id l) (log_id s)) PINNED_LOGS.
Notation CtResult := (res bytes).

(** ** Parsing *)
Definition be16_at (b : bytes) (i : N) : CtResult N := x ← index b i; y ← index b (i + 1); Ok (be_to_N [x; y]).
Definition parse_sct (b : bytes) : CtResult Sct :=
  reject_if (blen b <? 43) (lit "SCT header truncated");;
  version ← index b 0;
  reject_if (negb (byte_N version =? 0)) (lit "unsupported SCT version: " ++ to_decimal (byte_N version));;
  id ← index_range b 1 33;
  ts ← index_range b 33 41;
  ext_len ← be16_at b 41;
  reject_if (blen b <? 43 + ext_len + 4) (lit "SCT extensions / signature header truncated");;
  exts ← index_range b 43 (43 + ext_len);
  let sig_hdr := 43 + ext_len in
  h ← index b sig_hdr;
  s ← index b (sig_hdr + 1);
  sig_len ← be16_at b (sig_hdr + 2);
  reject_if (blen b <? sig_hdr + 4 + sig_len) (lit "SCT signature truncated");;
  sig ← index_range b (sig_hdr + 4) (sig_hdr + 4 + sig_len);
  Ok {| sct_version := byte_N version; log_id := id; timestamp_ms := be_to_N ts; sct_extensions := exts; hash_alg := byte_N h; sig_alg := byte_N s;
        signature_der := sig |}.
Fixpoint sct_entries (fuel : nat) (cursor : bytes) (out : list Sct) : CtResult (list Sct) :=
  match fuel with
  | O => NoFuel
  | S fuel =>
    if blen cursor =? 0 then Ok out
    else
      reject_if (blen cursor <? 2) (lit "SCT entry length truncated");;
      sct_len ← be16_at cursor 0;
      cursor ← index_from cursor 2;
      reject_if (blen cursor <? sct_len) (lit "SCT body truncated");;
      body ← index_range cursor 0 sct_len;
      sct ← parse_sct body;
      rest ← index_from cursor sct_len;
      sct_entries fuel rest (out ++ [sct])
  end.
Definition parse_sct_list (b : bytes) : CtResult (list Sct) :=
  reject_if (blen b <? 2) (lit "SCT list too short: " ++ to_decimal (blen b));;
  total_len ← be16_at b 0;
  reject_if (blen b <? 2 + total_len) (lit "SCT list truncated: header says " ++ to_decimal total_len ++ lit ", have " ++ to_decimal (blen b - 2));;
  cursor ← index_range b 2 (2 + total_len);
  sct_entries (S (length cursor)) cursor [].

(** ** Verification *)
Class CtFormats := {
  (** [OctetString::from_der] *)
  ct_octet_string : bytes -> option bytes;
  (** the DER of a to-be-signed certificate with these extensions *)
  ct_tbs_der : Certificate -> list Extension -> option bytes;
  (** [VerifyingKey::from_public_key_der], P-256 *)
  ct_public_key (K : CpuCrypto) : bytes -> option (Point p256);
  (** the text of a crate's error *)
  ct_error : string -> bytes -> bytes;
}.
Section Ct.
Context `{X : X509} `{K : CpuCrypto} `{H : Sha2} `{CF : CtFormats}.
Definition decode_error (what : string) (der : bytes) : bytes := lit what ++ ct_error what der.
Definition is_sct_list (e : Extension) : bool := bytes_eqb (extn_id e) CT_SCT_LIST_OID.
Definition extract_scts_from_cert (cert_der : bytes) : CtResult (list Sct) :=
  cert ← ok_or (cert_from_der cert_der) (decode_error "x509 decode: " cert_der);
  match List.find is_sct_list (extensions cert) with
  | None => Ok []
  | Some ext => parse_sct_list (default (extn_value ext) (ct_octet_string (extn_value ext)))
  end.
Definition reconstruct_precert_tbs (cert_der : bytes) : CtResult bytes :=
  cert ← ok_or (cert_from_der cert_der) (decode_error "x509 decode: " cert_der);
  ok_or (ct_tbs_der cert (List.filter (fun e => negb (is_sct_list e)) (extensions cert))) (decode_error "TBS re-encode: " cert_der).
Definition issuer_spki_hash (issuer_der : bytes) : CtResult bytes :=
  cert ← ok_or (cert_from_der issuer_der) (decode_error "issuer x509 decode: " issuer_der);
  Ok (sha256 (spki_der cert)).
Definition verify_ecdsa_p256_sha256 (spki message sig : bytes) : CtResult unit :=
  vk ← ok_or (ct_public_key K spki) (decode_error "bad log SPKI: " spki);
  s ← ok_or (sig_from_der p256 sig) (decode_error "bad signature DER: " sig);
  ensure (verify_prehash p256 vk (sha256 message) s) (decode_error "ECDSA verify: " sig).
(** What the log signed (RFC 6962, 3.2). *)
Definition sig_input (s : Sct) (issuer_key_hash precert_tbs : bytes) : bytes :=
  [x00; x00] ++ N_to_be 8 (timestamp_ms s) ++ N_to_be 2 1 ++ issuer_key_hash ++
  [byte_of (N.land (N.shiftr (blen precert_tbs) 16) 0xff); byte_of (N.land (N.shiftr (blen precert_tbs) 8) 0xff); byte_of (N.land (blen precert_tbs) 0xff)] ++
  precert_tbs ++ N_to_be 2 (blen (sct_extensions s) mod 2 ^ 16) ++ sct_extensions s.
Definition UNPINNED : bytes := lit "unpinned CT log".
Definition verify_sct (s : Sct) (leaf_der issuer_der : bytes) : CtResult PinnedLog :=
  log ← ok_or (pinned_log s) (UNPINNED ++ lit ": " ++ hex_encode (log_id s));
  reject_if (negb (hash_alg s =? 4) || negb (sig_alg s =? 3))
    (lit "unsupported SCT sig algorithm: hash=" ++ to_decimal (hash_alg s) ++ lit " sig=" ++ to_decimal (sig_alg s));;
  precert_tbs ← reconstruct_precert_tbs leaf_der;
  issuer_key_hash ← issuer_spki_hash issuer_der;
  reject_if (0xffffff <? blen precert_tbs) (lit "precert TBS too large: " ++ to_decimal (blen precert_tbs));;
  map_err (fun e => lit "SCT signature verify (" ++ pl_name log ++ lit "): " ++ e)
    (verify_ecdsa_p256_sha256 (pl_spki log) (sig_input s issuer_key_hash precert_tbs) (signature_der s));;
  Ok log.
Record CtReport : Type := { verified : list bytes; unpinned : list bytes; failed : list bytes }.
Definition no_report : CtReport := {| verified := []; unpinned := []; failed := [] |}.
Definition report_is_empty (r : CtReport) : bool := bool_decide (verified r = []) && bool_decide (unpinned r = []) && bool_decide (failed r = []).
Definition any_verified (r : CtReport) : bool := negb (bool_decide (verified r = [])).
Definition report_sct (leaf_der issuer_der : bytes) (r : CtReport) (s : Sct) : CtResult CtReport :=
  match verify_sct s leaf_der issuer_der with
  | Ok log => Ok {| verified := verified r ++ [pl_name log]; unpinned := unpinned r; failed := failed r |}
  | Err msg =>
    if starts_with UNPINNED msg then Ok {| verified := verified r; unpinned := unpinned r ++ [hex_encode (log_id s)]; failed := failed r |}
    else Ok {| verified := verified r; unpinned := unpinned r; failed := failed r ++ [hex_encode (log_id s) ++ lit ": " ++ msg] |}
  | Panic => Panic
  | NoFuel => NoFuel
  end.
Definition verify_scts_in_cert (leaf_der issuer_der : bytes) : CtResult CtReport :=
  scts ← extract_scts_from_cert leaf_der;
  for_each (report_sct leaf_der issuer_der) no_report scts.
End Ct.

(** * Lemmas *)
(** ** The encoding *)
Record sct_wf (s : Sct) : Prop := {
  sw_version : sct_version s = 0;
  sw_log : blen (log_id s) = 32;
  sw_time : timestamp_ms s < 2 ^ 64;
  sw_extensions : blen (sct_extensions s) < 2 ^ 16;
  sw_algorithms : hash_alg s < 256 /\ sig_alg s < 256;
  sw_signature : blen (signature_der s) < 2 ^ 16;
}.
Definition sct_bytes (s : Sct) : bytes :=
  x00 :: log_id s ++ N_to_be 8 (timestamp_ms s) ++ N_to_be 2 (blen (sct_extensions s)) ++ sct_extensions s ++
  [byte_of (hash_alg s); byte_of (sig_alg s)] ++ N_to_be 2 (blen (signature_der s)) ++ signature_der s.
(** An entry of the list: a length, a timestamp, and bytes that are dropped. *)
Definition entry_bytes (e : Sct * bytes) : bytes := let body := sct_bytes e.1 ++ e.2 in N_to_be 2 (blen body) ++ body.
Definition entry_wf (e : Sct * bytes) : Prop := sct_wf e.1 /\ blen (sct_bytes e.1 ++ e.2) < 2 ^ 16.
Definition list_bytes (es : list (Sct * bytes)) (rest : bytes) : bytes :=
  let body := concat (entry_bytes <$> es) in N_to_be 2 (blen body) ++ body ++ rest.

Lemma blen_N_to_be w n : blen (N_to_be w n) = N.of_nat w.
Proof. unfold blen. by rewrite length_N_to_be. Qed.
Lemma be16_at_run (p q : bytes) n i : i = blen p -> n < 2 ^ 16 -> be16_at (p ++ N_to_be 2 n ++ q) i = Ok n.
Proof.
  intros -> Hn. unfold be16_at. assert (exists x y, N_to_be 2 n = [x; y]) as (x & y & Hxy).
  { pose proof (length_N_to_be 2 n) as Hl. destruct (N_to_be 2 n) as [|x [|y [|]]]; try done. by exists x, y. }
  rewrite Hxy. cbn [app]. rewrite (index_Some (p ++ x :: y :: q) (blen p) x) by apply get_app_blen. ok_step.
  rewrite (index_Some (p ++ x :: y :: q) (blen p + 1) y); [ok_step|].
  2:{ replace (p ++ x :: y :: q) with ((p ++ [x]) ++ y :: q) by by rewrite <- app_assoc.
      replace (blen p + 1) with (blen (p ++ [x])) by by rewrite blen_app. apply get_app_blen. }
  rewrite <- Hxy. f_equal. by apply be_to_N_to_be.
Qed.
Lemma be16_at_safe b i : i + 1 < blen b -> safe (be16_at b i) (fun n => n < 2 ^ 16 /\ get_range b i (i + 2) = Some (N_to_be 2 n)).
Proof.
  intros Hi. unfold be16_at. apply safe_bind, safe_index; [lia|]. intros x Hx. apply safe_bind, safe_index; [lia|]. intros y Hy. cbn [safe].
  pose proof (be_to_N_bound [x; y]) as Hb. change (256 ^ blen [x; y]) with (2 ^ 16) in Hb. split; [done|].
  assert (N_to_be 2 (be_to_N [x; y]) = [x; y]) as -> by exact (N_to_be_to_N [x; y]). apply get_Some in Hx as [_ Hx], Hy as [_ Hy]. apply get_range_Some. split; [lia|].
  replace (i + 2 - i) with 2 by lia. change (N.to_nat 2) with 2%nat. rewrite (drop_S _ _ _ Hx).
  replace (S (N.to_nat i)) with (N.to_nat (i + 1)) by lia. by rewrite (drop_S _ _ _ Hy).
Qed.
Lemma get_range_cat {A} (b : list A) i j k s t : get_range b i j = Some s -> get_range b j k = Some t -> get_range b i k = Some (s ++ t).
Proof.
  intros [Hij ->]%get_range_Some [Hjk ->]%get_range_Some. apply get_range_Some. split; [lia|].
  replace (N.to_nat (k - i)) with (N.to_nat (j - i) + N.to_nat (k - j))%nat by lia. rewrite <- take_take_drop, drop_drop. do 3 f_equal. lia.
Qed.
Lemma get_range_one {A} (b : list A) i x : get b i = Some x -> get_range b i (i + 1) = Some [x].
Proof.
  intros [Hi Hx]%get_Some. apply get_range_Some. split; [lia|]. replace (i + 1 - i) with 1 by lia. change (N.to_nat 1) with 1%nat. by rewrite (drop_S _ _ _ Hx).
Qed.
Lemma get_range_all {A} (b : list A) j s : get_range b 0 j = Some s -> exists rest, b = s ++ rest.
Proof. intros [_ ->]%get_range_Some. exists (drop (N.to_nat j) b). rewrite N.sub_0_r. change (N.to_nat 0) with 0%nat. by rewrite drop_0, take_drop. Qed.
Lemma parse_sct_safe b : safe (parse_sct b) (fun s => sct_wf s /\ exists junk, b = sct_bytes s ++ junk).
Proof.
  unfold parse_sct. apply safe_bind, safe_reject_if. intros Hl%N.ltb_ge. apply safe_bind, safe_index; [lia|]. intros v Hv.
  apply safe_bind, safe_reject_if. intros Hv0%negb_false_iff%N.eqb_eq. apply safe_bind, safe_index_range; [lia..|]. intros id Hid Hidl.
  apply safe_bind, safe_index_range; [lia..|]. intros ts Hts Htsl. eapply safe_seq; [apply be16_at_safe; lia|]. intros ext_len _ [Hel Hext].
  apply safe_bind, safe_reject_if. intros Hl2%N.ltb_ge. apply safe_bind, safe_index_range; [lia..|]. intros exts Hexts Hextsl. cbv zeta.
  apply safe_bind, safe_index; [lia|]. intros h Hh. apply safe_bind, safe_index; [lia|]. intros sg Hsg.
  eapply safe_seq; [apply be16_at_safe; lia|]. intros sig_len _ [Hsl Hsiglen]. apply safe_bind, safe_reject_if. intros Hl3%N.ltb_ge.
  apply safe_bind, safe_index_range; [lia..|]. intros sig Hsig Hsigl. cbn [safe].
  replace (43 + ext_len - 43) with ext_len in Hextsl by lia.
  replace (43 + ext_len + 4 + sig_len - (43 + ext_len + 4)) with sig_len in Hsigl by lia. subst ext_len sig_len.
  pose proof (be_to_N_bound ts) as Htb. rewrite Htsl in Htb. change (256 ^ (41 - 33)) with (2 ^ 64) in Htb. pose proof (byte_N_lt h) as Hhb. pose proof (byte_N_lt sg) as Hsb.
  split; [by split; cbn [sct_version log_id timestamp_ms sct_extensions hash_alg sig_alg signature_der]|]. unfold sct_bytes. cbn [log_id timestamp_ms sct_extensions hash_alg sig_alg signature_der]. rewrite !byte_of_N.
  assert (v = x00) as -> by (rewrite <- (byte_of_N v), Hv0; done).
  assert (N_to_be 8 (be_to_N ts) = ts) as ->. { replace 8%nat with (length ts) by (unfold blen in Htsl; lia). apply N_to_be_to_N. }
  apply get_range_one in Hv, Hh, Hsg. change (0 + 1) with 1 in Hv.
  assert (get_range b 0 (43 + blen exts + 4 + blen sig) = Some ([x00] ++ id ++ ts ++ N_to_be 2 (blen exts) ++ exts ++ [h] ++ [sg] ++ N_to_be 2 (blen sig) ++ sig)) as Hall.
  { eapply get_range_cat; [exact Hv|]. eapply get_range_cat; [exact Hid|]. eapply get_range_cat; [exact Hts|]. eapply get_range_cat; [exact Hext|].
    replace (41 + 2) with 43 by done. eapply get_range_cat; [exact Hexts|]. eapply get_range_cat; [exact Hh|]. eapply get_range_cat; [exact Hsg|].
    eapply get_range_cat; [|exact Hsig]. replace (43 + blen exts + 1 + 1) with (43 + blen exts + 2) by lia.
    replace (43 + blen exts + 4) with (43 + blen exts + 2 + 2) by lia. exact Hsiglen. }
  apply get_range_all in Hall as [junk Hb]. exists junk. rewrite Hb at 1. done.
Qed.
(** Reading a known layout: [b] is [p], then the piece that is read, then the rest. *)
Lemma range_at (b p s q : bytes) i j : b = p ++ s ++ q -> i = blen p -> j = i + blen s -> index_range (E := bytes) b i j = Ok s.
Proof. intros -> -> ->. by apply index_range_app. Qed.
Lemma index_at (b p q : bytes) x i : b = p ++ x :: q -> i = blen p -> index (E := bytes) b i = Ok x.
Proof. intros -> ->. apply index_Some, get_app_blen. Qed.
Lemma be16_here (b p q : bytes) n i : b = p ++ N_to_be 2 n ++ q -> i = blen p -> n < 2 ^ 16 -> be16_at b i = Ok n.
Proof. intros -> ->. by apply be16_at_run. Qed.
Ltac flat := rewrite <- ?app_assoc; reflexivity.
Lemma parse_sct_run s junk : sct_wf s -> parse_sct (sct_bytes s ++ junk) = Ok s.
Proof.
  intros [Hv Hid Ht He [Hh Hs] Hsig]. unfold parse_sct. destruct s as [v id ts exts h sg sig]. cbn [sct_version log_id timestamp_ms sct_extensions hash_alg sig_alg signature_der] in *.
  subst v. set (b := sct_bytes _ ++ junk). set (A := [x00]). set (T := N_to_be 8 ts). set (E := N_to_be 2 (blen exts)). set (S := N_to_be 2 (blen sig)).
  assert (blen A = 1 /\ blen T = 8 /\ blen E = 2 /\ blen S = 2) as (LA & LT & LE & LS) by (unfold A, T, E, S; rewrite !blen_N_to_be; done).
  assert (b = A ++ id ++ T ++ E ++ exts ++ [byte_of h] ++ [byte_of sg] ++ S ++ sig ++ junk) as Hb by (unfold b, sct_bytes; cbn; by rewrite <- !app_assoc).
  assert (blen b = 43 + blen exts + 4 + blen sig + blen junk) as Hl by (rewrite Hb, !blen_app, LA, LT, LE, LS, !blen_cons, !blen_nil; lia).
  rewrite reject_if_false by (apply N.ltb_ge; lia). ok_step. rewrite (index_at b [] (id ++ T ++ E ++ exts ++ [byte_of h] ++ [byte_of sg] ++ S ++ sig ++ junk) x00 0) by done.
  ok_step. rewrite (reject_if_false (negb _)) by done. ok_step.
  rewrite (range_at b A id (T ++ E ++ exts ++ [byte_of h] ++ [byte_of sg] ++ S ++ sig ++ junk) 1 33); [ok_step|done|done|by rewrite Hid].
  rewrite (range_at b (A ++ id) T (E ++ exts ++ [byte_of h] ++ [byte_of sg] ++ S ++ sig ++ junk) 33 41);
    [ok_step|rewrite Hb; flat|rewrite blen_app; lia|lia].
  rewrite (be16_here b (A ++ id ++ T) (exts ++ [byte_of h] ++ [byte_of sg] ++ S ++ sig ++ junk) (blen exts) 41);
    [ok_step|rewrite Hb; flat|rewrite !blen_app; lia|done].
  rewrite reject_if_false by (apply N.ltb_ge; lia). ok_step.
  rewrite (range_at b (A ++ id ++ T ++ E) exts ([byte_of h] ++ [byte_of sg] ++ S ++ sig ++ junk) 43 (43 + blen exts)); [ok_step|rewrite Hb; flat|rewrite !blen_app; lia|lia].
  rewrite (index_at b (A ++ id ++ T ++ E ++ exts) ([byte_of sg] ++ S ++ sig ++ junk) (byte_of h) (43 + blen exts)); [ok_step|rewrite Hb; flat|rewrite !blen_app; lia].
  rewrite (index_at b (A ++ id ++ T ++ E ++ exts ++ [byte_of h]) (S ++ sig ++ junk) (byte_of sg) (43 + blen exts + 1)); [ok_step|rewrite Hb; flat|rewrite !blen_app, blen_cons, blen_nil; lia].
  rewrite (be16_here b (A ++ id ++ T ++ E ++ exts ++ [byte_of h] ++ [byte_of sg]) (sig ++ junk) (blen sig) (43 + blen exts + 2));
    [ok_step|rewrite Hb; flat|rewrite !blen_app, !blen_cons, !blen_nil; lia|done].
  rewrite reject_if_false by (apply N.ltb_ge; lia). ok_step.
  rewrite (range_at b (A ++ id ++ T ++ E ++ exts ++ [byte_of h] ++ [byte_of sg] ++ S) sig junk (43 + blen exts + 4) (43 + blen exts + 4 + blen sig));
    [ok_step|rewrite Hb; flat|rewrite !blen_app, !blen_cons, !blen_nil; lia|lia].
  f_equal. rewrite !byte_N_of, !N.mod_small by done. f_equal. by apply be_to_N_to_be.
Qed.
Lemma entry_length e : (2 <= length (entry_bytes e))%nat.
Proof. unfold entry_bytes. cbv zeta. rewrite length_app, length_N_to_be. lia. Qed.
Lemma sct_entries_safe fuel cursor out : (length cursor < fuel)%nat ->
  safe (sct_entries fuel cursor out) (fun l => exists es, cursor = concat (entry_bytes <$> es) /\ Forall entry_wf es /\ l = out ++ es.*1).
Proof.
  revert cursor out. induction fuel as [|fuel IH]; intros cursor out Hl; [lia|]. cbn [sct_entries]. destruct (N.eqb_spec (blen cursor) 0) as [H0|H0].
  - apply blen_0 in H0 as ->. cbn [safe]. exists []. by rewrite app_nil_r.
  - apply safe_bind, safe_reject_if. intros H2%N.ltb_ge. eapply safe_seq; [apply be16_at_safe; lia|]. intros n _ [Hn Hlen].
    apply safe_bind, safe_index_from; [lia|]. change (N.to_nat 2) with 2%nat. apply safe_bind, safe_reject_if. intros Hb%N.ltb_ge.
    apply safe_bind, safe_index_range; [lia|lia|]. intros body Hbody Hbl. eapply safe_seq; [apply parse_sct_safe|]. intros sct _ (Hwf & junk & ->).
    apply safe_bind, safe_index_from; [lia|]. apply get_range_Some in Hbody as [_ Hbody]. rewrite N.sub_0_r in *. change (N.to_nat 0) with 0%nat in Hbody. rewrite drop_0 in Hbody.
    assert (cursor = entry_bytes (sct, junk) ++ drop (N.to_nat n) (drop 2 cursor)) as Hcur.
    { apply get_range_all in Hlen as [rest Hc]. assert (drop 2 cursor = rest) as Hd by (rewrite Hc; apply (drop_app_length' (N_to_be 2 n)); by rewrite length_N_to_be).
      unfold entry_bytes. cbn [fst snd]. cbv zeta. rewrite Hbl, <- app_assoc, Hbody, Hd, take_drop. exact Hc. }
    pose proof (f_equal length Hcur) as Hcl. rewrite length_app in Hcl. pose proof (entry_length (sct, junk)).
    eapply safe_mono; [apply IH; lia|]. intros l _ (es & Hes & Hall & ->). exists ((sct, junk) :: es). split; [cbn; by rewrite <- Hes|].
    split; [|by rewrite <- app_assoc]. constructor; [|done]. split; [done|]. cbn [fst snd]. rewrite Hbl. lia.
Qed.
Lemma sct_entries_run es : Forall entry_wf es -> forall fuel out, (length (concat (entry_bytes <$> es)) < fuel)%nat ->
  sct_entries fuel (concat (entry_bytes <$> es)) out = Ok (out ++ es.*1).
Proof.
  induction 1 as [|[s junk] es [Hwf Hl] Hes IH]; intros fuel out Hfuel; (destruct fuel as [|fuel]; [lia|]); [cbn; by rewrite app_nil_r|].
  cbn [fmap list_fmap concat fst snd] in *. set (rest := concat (entry_bytes <$> es)) in *. set (body := sct_bytes s ++ junk) in *.
  assert (entry_bytes (s, junk) ++ rest = N_to_be 2 (blen body) ++ body ++ rest) as He by (unfold entry_bytes; cbn [fst snd]; cbv zeta; fold body; by rewrite <- app_assoc).
  cbn [sct_entries]. rewrite He.
  assert (blen (N_to_be 2 (blen body) ++ body ++ rest) = 2 + blen body + blen rest) as Hbl by (rewrite !blen_app, blen_N_to_be; lia).
  destruct (N.eqb_spec (blen (N_to_be 2 (blen body) ++ body ++ rest)) 0); [lia|]. rewrite reject_if_false by (apply N.ltb_ge; lia). ok_step.
  rewrite (be16_here _ [] (body ++ rest) (blen body)) by done. ok_step. rewrite index_from_app by by rewrite blen_N_to_be. ok_step.
  rewrite reject_if_false by (apply N.ltb_ge; rewrite blen_app; lia). ok_step. rewrite index_range_app_0 by done. ok_step.
  assert (parse_sct body = Ok s) as -> by by apply parse_sct_run. ok_step. rewrite index_from_app by done. ok_step. rewrite IH; [by rewrite <- app_assoc|].
  rewrite He in Hfuel. apply (f_equal N.to_nat) in Hbl. unfold blen in *. lia.
Qed.
(** What a list of timestamps is.  Parsing never panics and ends.  It yields timestamps
    exactly for a two-byte length, that many bytes of entries and anything after them; an
    entry is a two-byte length and that many bytes, which start with a version 1 timestamp
    (a 32-byte log identifier, the time, the extensions, the algorithms and the signature
    with their lengths) and may go on with bytes that are dropped. *)
Theorem sct_list_exact b l :
  safe (parse_sct_list b) (fun _ => True) /\
  (parse_sct_list b = Ok l <-> exists es rest, b = list_bytes es rest /\ l = es.*1 /\ Forall entry_wf es /\ blen (concat (entry_bytes <$> es)) < 2 ^ 16).
Proof.
  assert (safe (parse_sct_list b) (fun l => exists es rest, b = list_bytes es rest /\ l = es.*1 /\ Forall entry_wf es /\ blen (concat (entry_bytes <$> es)) < 2 ^ 16)) as Hs.
  { unfold parse_sct_list. apply safe_bind, safe_reject_if. intros H2%N.ltb_ge. eapply safe_seq; [apply be16_at_safe; lia|]. intros n _ [Hn Hlen].
    apply safe_bind, safe_reject_if. intros Hb%N.ltb_ge. apply safe_bind, safe_index_range; [lia..|]. intros cursor Hc Hcl.
    eapply safe_mono; [apply sct_entries_safe; lia|]. intros l' _ (es & -> & Hes & ->). cbn [app]. replace (2 + n - 2) with n in Hcl by lia.
    destruct (get_range_all b (2 + n) (N_to_be 2 n ++ concat (entry_bytes <$> es))) as [rest Hrest]; [by eapply get_range_cat|].
    exists es, rest. unfold list_bytes. cbv zeta. rewrite Hcl. split; [by rewrite Hrest, <- app_assoc|]. split; [done|]. split; [done|lia]. }
  split; [by eapply safe_mono|]. split; [intros Hp; by rewrite Hp in Hs|]. intros (es & rest & -> & -> & Hes & Hl). unfold list_bytes. cbv zeta.
  set (body := concat (entry_bytes <$> es)) in *.
  assert (blen (N_to_be 2 (blen body) ++ body ++ rest) = 2 + blen body + blen rest) as Hbl by (rewrite !blen_app, blen_N_to_be; lia).
  unfold parse_sct_list. rewrite reject_if_false by (apply N.ltb_ge; lia). ok_step. rewrite (be16_here _ [] (body ++ rest) (blen body)) by done. ok_step.
  rewrite reject_if_false by (apply N.ltb_ge; lia). ok_step. rewrite index_range_app by (rewrite blen_N_to_be; lia). ok_step.
  apply (sct_entries_run es Hes _ []). fold body. lia.
Qed.

(** ** What a log signed *)
Lemma three_bytes n : n < 2 ^ 24 -> [byte_of (N.land (N.shiftr n 16) 0xff); byte_of (N.land (N.shiftr n 8) 0xff); byte_of (N.land n 0xff)] = N_to_be 3 n.
Proof.
  intros Hn. change 0xff with (N.ones 8). rewrite !N.land_ones, !N.shiftr_div_pow2. unfold N_to_be. cbn [N_to_le rev app]. unfold byte_of.
  change (2 ^ 8) with 256. change (2 ^ 16) with (256 * 256). by rewrite !N.Div0.mod_mod, <- !N.Div0.div_div.
Qed.
Lemma sig_input_inj s s' i i' t t' : sct_wf s -> sct_wf s' -> blen i = 32 -> blen i' = 32 -> blen t <= 0xffffff -> blen t' <= 0xffffff ->
  sig_input s i t = sig_input s' i' t' -> timestamp_ms s = timestamp_ms s' /\ i = i' /\ t = t' /\ sct_extensions s = sct_extensions s'.
Proof.
  intros [_ _ Hts He _ _] [_ _ Hts' He' _ _] Hi Hi' Ht Ht'. unfold sig_input. rewrite !three_bytes, !N.mod_small by (done || (change (2 ^ 24) with (0xffffff + 1); lia)).
  intros [_ Heq]%app_inj_1; [|done]. apply app_inj_1 in Heq as [Htime Heq]; [|by rewrite !length_N_to_be]. apply N_to_be_inj in Htime; [|done..].
  apply app_inj_1 in Heq as [_ Heq]; [|done]. apply app_inj_1 in Heq as [-> Heq]; [|unfold blen in *; lia].
  apply app_inj_1 in Heq as [Hlen Heq]; [|by rewrite !length_N_to_be]. apply N_to_be_inj in Hlen; [|change (256 ^ N.of_nat 3) with (0xffffff + 1); lia..].
  apply app_inj_1 in Heq as [-> Heq]; [|unfold blen in *; lia]. by apply app_inj_1 in Heq as [_ ->]; [|by rewrite !length_N_to_be].
Qed.

(** ** Reports *)
Section CtSpec.
Context `{X : X509} `{K : CpuCrypto} `{H : Sha2} `{CF : CtFormats}.
(** The timestamps of a certificate: those of its first list. *)
Definition certificate_scts (leaf : bytes) (scts : list Sct) : Prop := exists c, cert_from_der leaf = Some c /\
  match List.find is_sct_list (extensions c) with
  | None => scts = []
  | Some e => parse_sct_list (default (extn_value e) (ct_octet_string (extn_value e))) = Ok scts
  end.
(** The pinned log that [s] names has signed the certificate [leaf] of the issuer, without
    its lists of timestamps. *)
Definition signed_by_log (leaf issuer_der : bytes) (s : Sct) (log : PinnedLog) : Prop :=
  log ∈ PINNED_LOGS /\ pl_log_id log = log_id s /\ hash_alg s = 4 /\ sig_alg s = 3 /\
  exists c ic tbs vk sig, cert_from_der leaf = Some c /\ cert_from_der issuer_der = Some ic /\
    ct_tbs_der c (List.filter (fun e => negb (is_sct_list e)) (extensions c)) = Some tbs /\ blen tbs <= 0xffffff /\
    ct_public_key K (pl_spki log) = Some vk /\ sig_from_der p256 (signature_der s) = Some sig /\
    verify_prehash p256 vk (sha256 (sig_input s (sha256 (spki_der ic)) tbs)) sig = true.
Lemma pinned_log_unique l : l ∈ PINNED_LOGS -> forall s, pl_log_id l = log_id s -> pinned_log s = Some l.
Proof.
  intros Hl s Hs. unfold pinned_log. rewrite <- Hs. unfold PINNED_LOGS in Hl. rewrite !elem_of_cons, elem_of_nil in Hl.
  destruct Hl as [-> |[-> |[-> |[-> |[]]]]]; vm_compute; reflexivity.
Qed.
Ltac refused Hfail Hneeds := apply Hfail; [reflexivity|]; intros ? Hl; apply Hneeds in Hl as (? & ? & ? & ? & ? & ? & ? & ? & ? & ? & ? & ?); simplify_eq.
Lemma verify_sct_cases s leaf issuer_der :
  match verify_sct s leaf issuer_der with
  | Ok log => signed_by_log leaf issuer_der s log
  | Err msg => (forall log, ~ signed_by_log leaf issuer_der s log) /\ (starts_with UNPINNED msg = true <-> pinned_log s = None)
  | Panic | NoFuel => False
  end.
Proof.
  unfold verify_sct. destruct (pinned_log s) as [log|] eqn:El; cbn [ok_or].
  2:{ split; [|split; [done|intros _]].
      - intros log (Hin & Hid & _). by rewrite (pinned_log_unique log Hin s Hid) in El.
      - unfold starts_with. by rewrite (proj2 (strip_prefix_Some UNPINNED _ _) eq_refl). }
  assert (log ∈ PINNED_LOGS /\ pl_log_id log = log_id s) as [Hin Hid].
  { unfold pinned_log in El. apply List.find_some in El as [Hin%list_elem_of_In Hid%bytes_eqb_eq]. done. }
  assert (forall msg, starts_with UNPINNED msg = false -> (forall log', ~ signed_by_log leaf issuer_der s log') ->
    (forall log', ~ signed_by_log leaf issuer_der s log') /\ (starts_with UNPINNED msg = true <-> Some log = None)) as Hfail.
  { intros msg -> Hno. by split. }
  assert (forall log', signed_by_log leaf issuer_der s log' -> log' = log) as Huniq.
  { intros log' (Hin' & Hid' & _). rewrite (pinned_log_unique log' Hin' s Hid') in El. by injection El. }
  ok_step. destruct (negb (hash_alg s =? 4) || negb (sig_alg s =? 3)) eqn:Ea; cbn [reject_if].
  { apply Hfail; [done|]. intros log' (_ & _ & Hh & Hs & _). by rewrite Hh, Hs in Ea. }
  ok_step. apply orb_false_iff in Ea as [Hh%negb_false_iff%N.eqb_eq Hs%negb_false_iff%N.eqb_eq]. unfold reconstruct_precert_tbs.
  assert (forall log', signed_by_log leaf issuer_der s log' -> exists c ic tbs vk sig, cert_from_der leaf = Some c /\ cert_from_der issuer_der = Some ic /\
    ct_tbs_der c (List.filter (fun e => negb (is_sct_list e)) (extensions c)) = Some tbs /\ blen tbs <= 0xffffff /\
    ct_public_key K (pl_spki log) = Some vk /\ sig_from_der p256 (signature_der s) = Some sig /\
    verify_prehash p256 vk (sha256 (sig_input s (sha256 (spki_der ic)) tbs)) sig = true) as Hneeds.
  { intros log' Hl. pose proof (Huniq log' Hl) as ->. apply Hl. }
  destruct (cert_from_der leaf) as [c|] eqn:Ec; cbn [ok_or]; [ok_step|refused Hfail Hneeds].
  destruct (ct_tbs_der c _) as [tbs|] eqn:Et; cbn [ok_or]; [ok_step|refused Hfail Hneeds]. unfold issuer_spki_hash.
  destruct (cert_from_der issuer_der) as [ic|] eqn:Ei; cbn [ok_or]; [ok_step|refused Hfail Hneeds]. ok_step.
  destruct (N.ltb_spec 0xffffff (blen tbs)) as [Hbig|Hsmall]; cbn [reject_if]; [refused Hfail Hneeds; lia|ok_step]. unfold verify_ecdsa_p256_sha256.
  destruct (ct_public_key K (pl_spki log)) as [vk|] eqn:Ek; cbn [ok_or]; [ok_step|refused Hfail Hneeds].
  destruct (sig_from_der p256 (signature_der s)) as [sig|] eqn:Es; cbn [ok_or]; [ok_step|refused Hfail Hneeds].
  destruct (verify_prehash _ _ _ _) eqn:Ev; cbn [ensure map_err]; [ok_step|refused Hfail Hneeds; congruence].
  split; [done|]. split; [done|]. split; [done|]. split; [done|]. exists c, ic, tbs, vk, sig. by split_and!.
Qed.
Definition report_of (leaf issuer_der : bytes) (scts : list Sct) (r : CtReport) : Prop :=
  (forall name, name ∈ verified r <-> exists s, s ∈ scts /\ exists log, signed_by_log leaf issuer_der s log /\ name = pl_name log) /\
  (forall id, id ∈ unpinned r <-> exists s, s ∈ scts /\ pinned_log s = None /\ id = hex_encode (log_id s)) /\
  blen (verified r) + blen (unpinned r) + blen (failed r) = blen scts.
Lemma exists_snoc {A} (l : list A) x (P : A -> Prop) : (exists y, y ∈ l ++ [x] /\ P y) <-> (exists y, y ∈ l /\ P y) \/ P x.
Proof.
  split; [intros (y & [Hy| ->%list_elem_of_singleton]%elem_of_app & Hp); eauto|]. intros [(y & Hy & Hp)|Hp].
  - exists y. split; [apply elem_of_app; by left|done].
  - exists x. split; [apply elem_of_app; right; by left|done].
Qed.
Ltac parts Hvs Hv Hus Hu := cbn [safe]; split; [intros name; rewrite Hvs, <- Hv; cbn [verified]|split; [intros id; rewrite Hus, <- Hu; cbn [unpinned]|
  cbn [verified unpinned failed]; rewrite ?blen_app, ?blen_cons, ?(blen_nil (A := Sct)), ?(blen_nil (A := bytes)); lia]].
Lemma report_sct_safe leaf issuer_der scts r s : report_of leaf issuer_der scts r -> safe (report_sct leaf issuer_der r s) (report_of leaf issuer_der (scts ++ [s])).
Proof.
  intros (Hv & Hu & Hc). unfold report_sct. pose proof (verify_sct_cases s leaf issuer_der) as Hcase.
  pose proof (fun name => exists_snoc scts s (fun s => exists log, signed_by_log leaf issuer_der s log /\ name = pl_name log)) as Hvs.
  pose proof (fun id => exists_snoc scts s (fun s => pinned_log s = None /\ id = hex_encode (log_id s))) as Hus. cbv beta in Hvs, Hus.
  destruct (verify_sct s leaf issuer_der) as [log|msg| |]; try done.
  - assert (pinned_log s = Some log) as Hp by (destruct Hcase as (Hin & Hid & _); by apply pinned_log_unique).
    assert (forall log', signed_by_log leaf issuer_der s log' -> log' = log) as Huniq.
    { intros log' (Hin & Hid & _). rewrite (pinned_log_unique log' Hin s Hid) in Hp. by injection Hp as ->. }
    parts Hvs Hv Hus Hu.
    + rewrite elem_of_app, list_elem_of_singleton. split; [intros [?| ->]; eauto|]. intros [?|(log' & Hl & ->)]; [by left|right]. by rewrite (Huniq log' Hl).
    + rewrite Hp. split; [by left|intros [?|[? _]]; done].
  - destruct Hcase as [Hno Hpin]. destruct (starts_with UNPINNED msg) eqn:Em; parts Hvs Hv Hus Hu.
    + split; [by left|intros [?|(log & Hl & _)]; [done|by apply Hno in Hl]].
    + rewrite elem_of_app, list_elem_of_singleton. pose proof (proj1 Hpin eq_refl). split; (intros [?|?]; [by left|right]); tauto.
    + split; [by left|intros [?|(log & Hl & _)]; [done|by apply Hno in Hl]].
    + split; [by left|intros [?|[Hp _]]; [done|]]. apply Hpin in Hp. congruence.
Qed.
(** C34: what a report says.  Checking the timestamps of a certificate never panics.  Every
    timestamp of its first list is counted once; a name is among the verified exactly
    when that pinned log has signed a timestamp over this certificate without its lists
    and over the key of this issuer; an identifier is among the unpinned exactly when
    a timestamp names it and it is not pinned.  And the signed bytes determine the time,
    the issuer, the certificate and the extensions: a signature cannot be moved. *)
Theorem ct_report_exact (HL : Sha2Laws H) leaf issuer_der :
  safe (verify_scts_in_cert leaf issuer_der) (fun r => exists scts, certificate_scts leaf scts /\ report_of leaf issuer_der scts r) /\
  (forall s s' ic ic' t t', sct_wf s -> sct_wf s' -> blen t <= 0xffffff -> blen t' <= 0xffffff ->
    sig_input s (sha256 (spki_der ic)) t = sig_input s' (sha256 (spki_der ic')) t' ->
    timestamp_ms s = timestamp_ms s' /\ sha256 (spki_der ic) = sha256 (spki_der ic') /\ t = t' /\ sct_extensions s = sct_extensions s').
Proof.
  split.
  - unfold verify_scts_in_cert. eapply (safe_seq _ _ (certificate_scts leaf)).
    + unfold extract_scts_from_cert, certificate_scts. apply safe_bind, safe_ok_or. intros c Hc.
      destruct (List.find is_sct_list (extensions c)) as [e|] eqn:Ef; [|cbn; eexists; split; [done|by rewrite Ef]].
      destruct (sct_list_exact (default (extn_value e) (ct_octet_string (extn_value e))) []) as [Hs _].
      eapply safe_mono; [exact Hs|]. intros scts Hp _. exists c. split; [done|]. by rewrite Ef.
    + intros scts _ Hscts. eapply safe_mono; [apply (safe_prefix _ (report_of leaf issuer_der))|].
      * split; [|split; [|done]]; intros x; cbn; (split; [by intros ?%not_elem_of_nil|]); intros (? & ?%not_elem_of_nil & _); done.
      * intros pre s post r _. apply report_sct_safe.
      * intros r _ Hr. by exists scts.
  - intros s s' ic ic' t t' Hs Hs' Ht Ht'. apply sig_input_inj; try done; unfold blen; by rewrite sha256_length.
Qed.
End CtSpec.

(** ** A certificate with two timestamps, of a pinned log and of another *)
Definition ct_sct (id sig : bytes) : Sct := {|
  sct_version := 0; log_id := id; timestamp_ms := 1000; sct_extensions := []; hash_alg := 4; sig_alg := 3; signature_der := sig |}.
Definition other_extension : Extension := {| extn_id := lit "2.5.29.17"; critical := false; extn_value := lit "x.aeon.site" |}.
Definition pinned_sct : Sct := ct_sct GOOGLE_ARGON_2026H1_LOG_ID
  (x0b :: sha256 (Sha2 := toy_sha2) (sig_input (ct_sct [] []) (sha256 (Sha2 := toy_sha2) (spki_der sample_root)) (lit "x.aeon.site"))).
Definition ct_leaf (list : bytes) : Certificate := {|
  cert_version := V3; serial_number := [x07]; tbs_signature := ecdsa_sha256;
  issuer := cn "root"; not_before := 10; not_after := 20; subject := cn "leaf";
  spki_algorithm := ec_spki P256_OID; spki_der := []; subject_public_key := octets [x0a];
  has_unique_ids := false; extensions := [{| extn_id := CT_SCT_LIST_OID; critical := false; extn_value := list |}; other_extension];
  get_basic_constraints := Some None; get_key_usage := Some None; get_eku := Some None; get_aki := Some None; get_ski := Some None; tbs_der := [x01];
  signature_algorithm := ecdsa_sha256; cert_signature := octets [] |}.
Definition ct_x509 (list : bytes) : X509 := {|
  cert_from_der := fun b => match b with [x01] => Some (ct_leaf list) | [x02] => Some sample_root | _ => None end;
  crl_from_der := fun _ => None; aki_from_der := fun _ => None; crl_number_ok := fun _ => false;
  crl_reason_remove := fun _ => None; generalized_time_ok := fun _ => false; pss_from_der := fun _ => None; base64_decode := Some |}.
Definition ct_formats : CtFormats := {|
  ct_octet_string := fun _ => None; ct_tbs_der := fun _ l => Some (concat (extn_value <$> l));
  ct_public_key := fun K _ => from_sec1 p256 [x0b]; ct_error := fun _ _ => lit "error" |}.
Definition ct_list : bytes := list_bytes [(pinned_sct, []); (ct_sct (replicate 32 x00) [], [])] [].
Definition sample_ct (list : bytes) : res bytes CtReport :=
  verify_scts_in_cert (X := ct_x509 list) (K := toy_cpu) (H := toy_sha2) (CF := ct_formats) [x01] [x02].
Example ct_report : sample_ct ct_list = Ok {| verified := [lit "Google Argon2026h1"]; unpinned := [replicate 64 x30]; failed := [] |}.
Proof. vm_compute. reflexivity. Qed.
Example ct_truncated : parse_sct_list [x00; x0a; xff; xff] = Err (lit "SCT list truncated: header says 10, have 2").
Proof. vm_compute. reflexivity. Qed.
Lemma ct_report_exact_witness : exists r scts, sample_ct ct_list = Ok r /\
  report_of (X := ct_x509 ct_list) (K := toy_cpu) (H := toy_sha2) (CF := ct_formats) [x01] [x02] scts r.
Proof.
  pose proof (proj1 (ct_report_exact (X := ct_x509 ct_list) (K := toy_cpu) (H := toy_sha2) (CF := ct_formats) toy_sha2_laws [x01] [x02])) as Hs.
  pose proof ct_report as Hr. unfold sample_ct in *. rewrite Hr in Hs. destruct Hs as (scts & _ & Hrep). eexists _, scts. split; [exact Hr|exact Hrep].
Defined.
