(* ===== verification/ValueX.v ===== *)
(** * ValueX: the identity of a source tree
    ([src/v2/src/value_x.rs])

    Value X is a SHA-384 over the files of a directory: the traversal lists each directory,
    sorts its names, and collects the path and the digest of every regular file; the pairs
    are sorted by path and hashed.

    A tree is what the calls of the traversal see: a directory may not be listed, an entry
    may be unreadable (it is dropped), its metadata or its content may not be available.
    Names are bytes without a slash, as on Unix; the identity of a file is its path as text,
    converted by [to_string_lossy] and with backslashes turned into slashes.

    [value_x_exact]: a hash is returned exactly for trees that can be read and hold no
    symbolic link outside the skipped names.  [value_x_binding]: the order in which a
    directory is listed does not matter, and over names that are text without a colon or a
    backslash two trees with the same hash hold the same files, unless their hash inputs or
    the contents of two files at one path collide under SHA-384.  [value_x_separators]:
    without these restrictions whole families of pairs of different trees have one hash,
    whatever the hash function. *)
From S2P Require Import Prelude Bytes Text Crypto.

(** ** The file system as the traversal sees it *)
Inductive node : Type :=
| Regular (content : option bytes)
| Directory (listing : option (list dir_entry))
| Symlink
| Special
with dir_entry : Type :=
| Unreadable
| Entry (file_name : bytes) (metadata : option node).
Notation path := (list bytes).
(** The call of [std::fs] that failed, or the refusal of a symbolic link. *)
Inductive IoError : Type := ReadDir (p : path) | Metadata (p : path) | Read (p : path) | SymlinkAt (p : path).
Definition SKIP_NAMES : list bytes := lit <$> [".git"; "target"; "node_modules"; ".DS_Store"; "out"]%string.

(** ** Paths as text *)
Definition REPLACEMENT : bytes := [xef; xbf; xbd].
(** [String::from_utf8_lossy]: U+FFFD for every longest prefix of a character that does not go on. *)
Fixpoint from_utf8_lossy (b : bytes) : bytes :=
  match b with
  | [] => []
  | b0 :: r =>
    let x := byte_N b0 in
    if x <? 0x80 then b0 :: from_utf8_lossy r
    else if (0xC2 <=? x) && (x <? 0xE0) then
      match r with
      | b1 :: r' => if cont b1 then b0 :: b1 :: from_utf8_lossy r' else REPLACEMENT ++ from_utf8_lossy r
      | [] => REPLACEMENT
      end
    else if (0xE0 <=? x) && (x <? 0xF0) then
      match r with
      | b1 :: r1 =>
        if second3 x b1 then
          match r1 with
          | b2 :: r2 => if cont b2 then b0 :: b1 :: b2 :: from_utf8_lossy r2 else REPLACEMENT ++ from_utf8_lossy r1
          | [] => REPLACEMENT
          end
        else REPLACEMENT ++ from_utf8_lossy r
      | [] => REPLACEMENT
      end
    else if (0xF0 <=? x) && (x <? 0xF5) then
      match r with
      | b1 :: r1 =>
        if second4 x b1 then
          match r1 with
          | b2 :: r2 =>
            if cont b2 then
              match r2 with
              | b3 :: r3 => if cont b3 then b0 :: b1 :: b2 :: b3 :: from_utf8_lossy r3 else REPLACEMENT ++ from_utf8_lossy r2
              | [] => REPLACEMENT
              end
            else REPLACEMENT ++ from_utf8_lossy r1
          | [] => REPLACEMENT
          end
        else REPLACEMENT ++ from_utf8_lossy r
      | [] => REPLACEMENT
      end
    else REPLACEMENT ++ from_utf8_lossy r
  end.
Definition SLASH : byte := x2f.
Definition BACKSLASH : byte := x5c.
Definition COLON : byte := x3a.
Definition slashes (s : bytes) : bytes := (fun c => if Byte.eqb c BACKSLASH then SLASH else c) <$> s.
Definition rel_path (p : path) : bytes := slashes (from_utf8_lossy (join_byte SLASH p)).

(** ** Sorting: stable, by a key *)
Section Sort.
Context {A : Type} (key : A -> bytes).
Fixpoint insert_by (x : A) (l : list A) : list A :=
  match l with
  | [] => [x]
  | y :: r => if bytes_leb (key x) (key y) then x :: l else y :: insert_by x r
  end.
Definition sort_by_key (l : list A) : list A := foldr insert_by [] l.
End Sort.

(** ** The traversal *)
Fixpoint readable (l : list dir_entry) : list (bytes * option node) :=
  match l with
  | [] => []
  | Unreadable :: l => readable l
  | Entry name m :: l => (name, m) :: readable l
  end.
Definition skipped (name : bytes) : bool := if from_utf8 name is Some n then existsb (bytes_eqb n) SKIP_NAMES else existsb (bytes_eqb []) SKIP_NAMES.
Section TreeHash.
Context `{H : Sha2}.
Notation FileHash := (bytes * bytes)%type.
Fixpoint collect_hashes (fuel : nat) (dir : path) (listing : option (list dir_entry)) (out : list FileHash) : res IoError (list FileHash) :=
  match fuel with
  | O => NoFuel
  | S fuel =>
    l ← ok_or listing (ReadDir dir);
    for_each (fun out e =>
      let p := dir ++ [fst e] in
      file_type ← ok_or (snd e) (Metadata p);
      if skipped (fst e) then Ok out else
      match file_type with
      | Symlink => Err (SymlinkAt p)
      | Directory sub => collect_hashes fuel p sub out
      | Regular c => b ← ok_or c (Read p); Ok (out ++ [(rel_path p, sha384 b)])
      | Special => Ok out
      end) out (sort_by_key fst (readable l))
  end.
Definition hash_input (entries : list FileHash) : bytes := entries ≫= fun e => fst e ++ [COLON] ++ snd e ++ [x0a].
Fixpoint depth (n : node) : nat :=
  match n with
  | Directory (Some l) => S (foldr Nat.max O (map entry_depth l))
  | _ => 1%nat
  end
with entry_depth (e : dir_entry) : nat :=
  match e with
  | Entry _ (Some n) => depth n
  | _ => 1%nat
  end.
(** The bytes that the hasher is given. *)
Definition tree_input (dir : option (list dir_entry)) : res IoError bytes :=
  entries ← collect_hashes (depth (Directory dir)) [] dir [];
  Ok (hash_input (sort_by_key fst entries)).
Definition compute_tree_hash (dir : option (list dir_entry)) : res IoError bytes :=
  input ← tree_input dir; Ok (sha384 input).
End TreeHash.

(** * Lemmas *)
(** ** Text *)
Lemma cont_second3 x b : second3 x b = true -> cont b = true.
Proof. unfold second3, cont, in_range. intros Hs. apply andb_true_iff in Hs as [H1%N.leb_le H2%N.leb_le]. apply andb_true_iff; split; apply N.leb_le; repeat case_match; lia. Qed.
Lemma cont_second4 x b : second4 x b = true -> cont b = true.
Proof. unfold second4, cont, in_range. intros Hs. apply andb_true_iff in Hs as [H1%N.leb_le H2%N.leb_le]. apply andb_true_iff; split; apply N.leb_le; repeat case_match; lia. Qed.
Lemma from_utf8_lossy_id b : is_Some (utf8_decode b) -> from_utf8_lossy b = b.
Proof.
  induction b as [b IH] using (induction_ltof1 _ (@length _)); unfold ltof in IH. destruct b as [|b0 r]; [done|]. cbn [utf8_decode from_utf8_lossy].
  destruct (byte_N b0 <? 0x80). { intros [cs Hc]. apply fmap_Some in Hc as (t & Ht & _). by rewrite IH; [|cbn; lia|exists t]. }
  destruct ((0xC2 <=? byte_N b0) && (byte_N b0 <? 0xE0)).
  { destruct r as [|b1 r]; [by intros []|]. destruct (cont b1); [|by intros []]. intros [cs (t & Ht & _)%fmap_Some]. by rewrite IH; [|cbn; lia|exists t]. }
  destruct ((0xE0 <=? byte_N b0) && (byte_N b0 <? 0xF0)).
  { destruct r as [|b1 [|b2 r]]; [by intros []..|]. destruct (second3 _ b1); [|by intros []]. destruct (cont b2); [|by intros []]. cbn [andb].
    intros [cs (t & Ht & _)%fmap_Some]. by rewrite IH; [|cbn; lia|exists t]. }
  destruct ((0xF0 <=? byte_N b0) && (byte_N b0 <? 0xF5)); [|by intros []].
  destruct r as [|b1 [|b2 [|b3 r]]]; [by intros []..|]. destruct (second4 _ b1); [|by intros []]. destruct (cont b2); [|by intros []]. destruct (cont b3); [|by intros []].
  cbn [andb]. intros [cs (t & Ht & _)%fmap_Some]. by rewrite IH; [|cbn; lia|exists t].
Qed.

(** ** Sorting *)
Section SortLemmas.
Context {A : Type} (key : A -> bytes).
Notation by_key := (fun x y => bytes_le (key x) (key y)).
Lemma insert_by_Permutation x l : insert_by key x l ≡ₚ x :: l.
Proof. induction l as [|y l IH]; [done|]. cbn [insert_by]. destruct (bytes_leb _ _); [done|]. rewrite IH. constructor. Qed.
Lemma sort_by_key_Permutation l : sort_by_key key l ≡ₚ l.
Proof. induction l as [|x l IH]; [done|]. cbn [sort_by_key foldr]. fold (sort_by_key key l). by rewrite insert_by_Permutation, IH. Qed.
Lemma insert_by_sorted x l : StronglySorted by_key l -> StronglySorted by_key (insert_by key x l).
Proof.
  induction 1 as [|y l Hs IH Hy]; [repeat constructor|]. cbn [insert_by]. destruct (bytes_leb (key x) (key y)) eqn:E.
  - constructor; [by constructor|]. constructor; [done|]. eapply Forall_impl; [exact Hy|]. intros z Hz. by trans (key y).
  - constructor; [done|]. rewrite insert_by_Permutation. constructor; [|done]. destruct (bytes_le_total (key x) (key y)) as [Hc|]; [|done].
    unfold bytes_le in Hc. congruence.
Qed.
Lemma sort_by_key_sorted l : StronglySorted by_key (sort_by_key key l).
Proof. induction l as [|x l IH]; [constructor|]. by apply insert_by_sorted. Qed.
(** With distinct keys there is one sorted list. *)
Lemma sorted_unique l1 l2 : StronglySorted by_key l1 -> StronglySorted by_key l2 -> NoDup (key <$> l1) -> l1 ≡ₚ l2 -> l1 = l2.
Proof.
  intros H1. revert l2. induction H1 as [|x l1 Hs IH Hx]; intros l2 H2 Hnd Hp; [by apply Permutation_nil in Hp|].
  destruct H2 as [|y l2 Hs2 Hy]; [by apply Permutation_sym, Permutation_nil in Hp|]. apply NoDup_cons in Hnd as [Hni Hnd].
  assert (x = y) as ->.
  { assert (x ∈ y :: l2) as [->|Hxl]%elem_of_cons by (rewrite <- Hp; left); [done|].
    assert (y ∈ x :: l1) as [->|Hyl]%elem_of_cons by (rewrite Hp; left); [done|].
    rewrite Forall_forall in Hx, Hy. pose proof (Hx _ Hyl) as Ha. pose proof (Hy _ Hxl) as Hb.
    exfalso. apply Hni. rewrite (anti_symm bytes_le _ _ Ha Hb). by apply list_elem_of_fmap_2. }
  f_equal. apply IH; [done|done|]. by apply Permutation_cons_inv in Hp.
Qed.
Lemma sort_by_key_perm l1 l2 : NoDup (key <$> l1) -> l1 ≡ₚ l2 -> sort_by_key key l1 = sort_by_key key l2.
Proof.
  intros Hnd Hp. apply sorted_unique; [apply sort_by_key_sorted..| |by rewrite !sort_by_key_Permutation].
  by rewrite sort_by_key_Permutation.
Qed.
End SortLemmas.

(** ** What a tree holds *)
(** [file_at dir names c]: a file that counts, with its content. *)
Inductive file_at : option (list dir_entry) -> path -> bytes -> Prop :=
| file_in l name m names c : (name, m) ∈ readable l -> skipped name = false -> file_under m names c -> file_at (Some l) (name :: names) c
with file_under : option node -> path -> bytes -> Prop :=
| under_file c : file_under (Some (Regular (Some c))) [] c
| under_dir dir names c : file_at dir names c -> file_under (Some (Directory dir)) names c.
(** [clean dir]: outside the skipped names every call succeeds and there is no symbolic link. *)
Inductive clean : option (list dir_entry) -> Prop :=
| clean_dir l : (forall e, e ∈ readable l -> clean_entry e) -> clean (Some l)
with clean_entry : bytes * option node -> Prop :=
| clean_skipped name n : skipped name = true -> clean_entry (name, Some n)
| clean_file name c : clean_entry (name, Some (Regular (Some c)))
| clean_special name : clean_entry (name, Some Special)
| clean_sub name dir : clean dir -> clean_entry (name, Some (Directory dir)).

Lemma readable_elem name m l : (name, m) ∈ readable l <-> Entry name m ∈ l.
Proof.
  induction l as [|[|n m'] l IH]; cbn [readable].
  - by rewrite !elem_of_nil.
  - rewrite IH, elem_of_cons. naive_solver.
  - rewrite !elem_of_cons, IH. naive_solver.
Qed.
Lemma depth_entry l name n : (name, Some n) ∈ readable l -> (depth n < depth (Directory (Some l)))%nat.
Proof.
  intros Hin%readable_elem. cbn [depth]. assert (depth n <= foldr Nat.max 0 (map entry_depth l))%nat; [|lia].
  induction l as [|e l IH]; [by apply not_elem_of_nil in Hin|]. apply elem_of_cons in Hin as [<-|Hin]; cbn [map foldr entry_depth]; [lia|]. specialize (IH Hin). lia.
Qed.

Section Correctness.
Context `{HS : Sha2}.
(** The pairs that an entry adds. *)
Definition adds (dir : path) (e : bytes * option node) (ph : bytes * bytes) : Prop :=
  exists names c, skipped e.1 = false /\ file_under e.2 names c /\ ph = (rel_path (dir ++ e.1 :: names), sha384 c).
Lemma collect_decides fuel dir listing out : (depth (Directory listing) <= fuel)%nat ->
  decides (collect_hashes fuel dir listing out) (clean listing) (fun out' => exists fs, out' = out ++ fs /\
    forall ph, ph ∈ fs <-> exists names c, file_at listing names c /\ ph = (rel_path (dir ++ names), sha384 c)).
Proof.
  revert dir listing out. induction fuel as [|fuel IH]; intros dir listing out Hd; [destruct listing; cbn in Hd; lia|].
  cbn [collect_hashes]. destruct listing as [l|]; [cbn [ok_or]; ok_step|intros Hc; inversion Hc].
  eapply decides_iff; [eapply (decides_for_each _ (fun pre out' => exists fs, out' = out ++ fs /\ forall ph, ph ∈ fs <-> exists e, e ∈ pre /\ adds dir e ph)
    (fun _ e => clean_entry e))| |].
  - exists []. rewrite app_nil_r. split; [done|]. intros ph. split; [by intros ?%not_elem_of_nil|]. by intros (e & ?%not_elem_of_nil & _).
  - intros pre [name m] post a Hl (fs & -> & Hfs). cbn [fst snd]. destruct m as [n|]; [cbn [ok_or]; ok_step|intros Hc; inversion Hc].
    assert (forall out' new, out' = (out ++ fs) ++ new -> (forall ph, ph ∈ new <-> adds dir (name, Some n) ph) ->
      exists fs', out' = out ++ fs' /\ forall ph, ph ∈ fs' <-> exists e, e ∈ pre ++ [(name, Some n)] /\ adds dir e ph) as Hext.
    { intros out' new -> Hnew. exists (fs ++ new). split; [by rewrite app_assoc|]. intros ph. rewrite elem_of_app, Hfs, Hnew. setoid_rewrite elem_of_app.
      setoid_rewrite list_elem_of_singleton. naive_solver. }
    destruct (skipped name) eqn:Es.
    { split; [by constructor|]. apply (Hext _ []); [by rewrite app_nil_r|]. intros ph. split; [by intros ?%not_elem_of_nil|].
      intros (names & c & Hs & _). cbn [fst] in Hs. congruence. }
    destruct n as [c|sub| |].
    + destruct c as [c|]; [cbn [ok_or]; ok_step|intros Hc; inversion Hc; congruence]. split; [by constructor|]. apply (Hext _ [(rel_path (dir ++ [name]), sha384 c)]); [done|].
      intros ph. rewrite list_elem_of_singleton. split; [intros ->; by exists [], c; repeat constructor|].
      intros (names & c' & _ & Hu & ->). inversion Hu; subst. done.
    + eapply decides_iff; [apply IH| |].
      * assert ((name, Some (Directory sub)) ∈ readable l) as Hin. { rewrite <- (sort_by_key_Permutation fst), Hl, elem_of_app. right. left. }
        apply depth_entry in Hin. lia.
      * split; [by constructor|]. intros Hc. inversion Hc; subst; [congruence|done].
      * intros out' _ _ (new & -> & Hnew). apply (Hext _ new); [done|]. intros ph. rewrite Hnew. split.
        -- intros (names & c & Hf & ->). exists names, c. split; [done|]. split; [by constructor|]. by rewrite <- app_assoc.
        -- intros (names & c & _ & Hu & ->). inversion Hu; subst. exists names, c. split; [done|]. by rewrite <- app_assoc.
    + intros Hc. inversion Hc; congruence.
    + split; [by constructor|]. apply (Hext _ []); [by rewrite app_nil_r|]. intros ph. split; [by intros ?%not_elem_of_nil|]. intros (names & c & _ & Hu & _). inversion Hu.
  - cbv beta. rewrite (forall_split clean_entry). setoid_rewrite (sort_by_key_Permutation fst (readable l)). split; [by constructor|]. by inversion 1.
  - intros out' _ _ (fs & -> & Hfs). exists fs. split; [done|]. intros ph. rewrite Hfs. split.
    + intros ([name m] & Hin & names & c & Hs & Hu & ->). rewrite sort_by_key_Permutation in Hin. exists (name :: names), c. split; [by econstructor|done].
    + intros (names & c & Hf & ->). inversion Hf as [? name m names' ? Hin Hs Hu]; subst. exists (name, m). split; [by rewrite sort_by_key_Permutation|]. by exists names', c.
Qed.
End Correctness.

(** ** The order of a listing *)
(** [same_dir d d']: the same entries, listed in another order, here and below. *)
Inductive same_dir : option (list dir_entry) -> option (list dir_entry) -> Prop :=
| same_none : same_dir None None
| same_listing l l' l'' : NoDup (fst <$> readable l) -> Forall2 same_entry (readable l) l'' -> l'' ≡ₚ readable l' -> same_dir (Some l) (Some l')
with same_entry : bytes * option node -> bytes * option node -> Prop :=
| same_leaf name m : (forall d, m <> Some (Directory d)) -> same_entry (name, m) (name, m)
| same_sub name d d' : same_dir d d' -> same_entry (name, Some (Directory d)) (name, Some (Directory d')).
Lemma same_entry_key x y : same_entry x y -> fst x = fst y.
Proof. by inversion 1. Qed.
Lemma insert_by_Forall2 {A B} (f : A -> bytes) (g : B -> bytes) (R : A -> B -> Prop) x y l k :
  (forall x y, R x y -> f x = g y) -> R x y -> Forall2 R l k -> Forall2 R (insert_by f x l) (insert_by g y k).
Proof.
  intros Hkey Hxy. induction 1 as [|a b l k Hab Hlk IH]; [by repeat constructor|]. cbn [insert_by]. rewrite (Hkey _ _ Hxy), (Hkey _ _ Hab).
  destruct (bytes_leb _ _); by repeat constructor.
Qed.
Lemma sort_by_key_Forall2 {A B} (f : A -> bytes) (g : B -> bytes) (R : A -> B -> Prop) l k :
  (forall x y, R x y -> f x = g y) -> Forall2 R l k -> Forall2 R (sort_by_key f l) (sort_by_key g k).
Proof. intros Hkey. induction 1; [constructor|]. by apply insert_by_Forall2. Qed.
Lemma for_each_Forall2 {E A B C} (f : A -> B -> res E A) (g : A -> C -> res E A) (R : B -> C -> Prop) l k acc :
  (forall a x y, R x y -> f a x = g a y) -> Forall2 R l k -> for_each f acc l = for_each g acc k.
Proof.
  intros Hfg Hlk. revert acc. induction Hlk as [|x y l k Hxy _ IH]; intros acc; [done|]. rewrite !for_each_cons, (Hfg _ _ _ Hxy).
  destruct (g acc y); [apply IH|done..].
Qed.
Section Order.
Context `{HS : Sha2}.
Definition fits (fuel : nat) (e : bytes * option node) : Prop := forall n, snd e = Some n -> (depth n <= fuel)%nat.
Lemma readable_fits fuel l : (depth (Directory (Some l)) <= S fuel)%nat -> Forall (fits fuel) (readable l).
Proof. intros Hd. apply Forall_forall. intros [name m] Hin n Hn. cbn [snd] in Hn. subst m. apply depth_entry in Hin. lia. Qed.
Lemma collect_order fuel fuel' dir d d' out : (depth (Directory d) <= fuel)%nat -> (depth (Directory d') <= fuel')%nat -> same_dir d d' ->
  collect_hashes fuel dir d out = collect_hashes fuel' dir d' out.
Proof.
  revert fuel' dir d d' out. induction fuel as [|fuel IH]; intros fuel' dir d d' out Hf Hf' Hs; [destruct d; cbn in Hf; lia|].
  destruct fuel' as [|fuel']; [destruct d'; cbn in Hf'; lia|]. destruct Hs as [|l l' l'' Hnd Hall Hp]; [done|]. cbn [collect_hashes ok_or]. ok_step. ok_step.
  apply readable_fits in Hf, Hf'. rewrite <- Hp in Hf'.
  assert (fst <$> readable l = fst <$> l'') as Hk. { clear -Hall. induction Hall as [|x y xs ys Hxy _ IHl]; [done|]. rewrite !fmap_cons, IHl. f_equal. by apply same_entry_key. }
  rewrite <- (sort_by_key_perm fst l'' (readable l')); [|by rewrite <- Hk|done].
  apply (for_each_Forall2 _ _ (fun x y => same_entry x y /\ fits fuel x /\ fits fuel' y)).
  2:{ apply sort_by_key_Forall2; [intros x y [Hxy _]; by apply same_entry_key|]. clear -Hall Hf Hf'. induction Hall; inversion Hf; inversion Hf'; by constructor; auto. }
  intros a x y (Hxy & Hx & Hy). destruct Hxy as [name m Hm|name s s' Hs]; cbn [fst snd].
  - destruct m as [n|]; [|done]. cbn [ok_or]. ok_step. ok_step. destruct (skipped name); [done|]. destruct n as [c|s| |]; try done. by destruct (Hm s).
  - cbn [ok_or]. ok_step. ok_step. destruct (skipped name); [done|]. apply IH; auto.
Qed.
End Order.

(** ** The hash input *)
Lemma split_join_byte c ps : ps <> [] -> Forall (fun p => c ∉ p) ps -> split_byte c (join_byte c ps) = ps.
Proof.
  assert (forall p, c ∉ p -> split_byte c p = [p]) as Hone.
  { induction p as [|x p IH]; [done|]. intros Hx%not_elem_of_cons. destruct Hx as [Hx Hp]. cbn [split_byte]. rewrite IH by done.
    destruct (Byte.eqb x c) eqn:E; bools; congruence. }
  assert (forall p s, c ∉ p -> split_byte c (p ++ c :: s) = p :: split_byte c s) as Happ.
  { induction p as [|x p IH]; intros s; [intros _; cbn [app split_byte]; destruct (Byte.eqb c c) eqn:E; bools; congruence|].
    intros [Hx Hp]%not_elem_of_cons. cbn [app split_byte]. rewrite IH by done. destruct (Byte.eqb x c) eqn:E; bools; congruence. }
  intros Hne. induction 1 as [|p ps Hp Hps IH]; [done|]. destruct ps as [|q ps]; [by apply Hone|].
  change (join_byte c (p :: q :: ps)) with (p ++ c :: join_byte c (q :: ps)). rewrite Happ by done. by rewrite IH.
Qed.
Lemma utf8_app a b : is_Some (utf8_decode a) -> is_Some (utf8_decode b) -> is_Some (utf8_decode (a ++ b)).
Proof.
  intros [ca Ha%utf8_decode_inv] [cb Hb%utf8_decode_inv]. destruct Ha as [<- Hsa], Hb as [<- Hsb]. exists (ca ++ cb). rewrite <- utf8_decode_encode.
  - f_equal. unfold utf8_encode. symmetry. apply bind_app.
  - by rewrite forallb_app, Hsa.
Qed.
(** A name whose text is the name, without the separators of the encoding. *)
Record plain_name (name : bytes) : Prop := {
  pn_text : is_Some (utf8_decode name);
  pn_slash : SLASH ∉ name;
  pn_backslash : BACKSLASH ∉ name;
  pn_colon : COLON ∉ name;
}.
Lemma join_elem c x ps : x ∈ join_byte c ps -> x = c \/ exists p, p ∈ ps /\ x ∈ p.
Proof.
  induction ps as [|p [|q ps] IH]; [by intros ?%not_elem_of_nil|intros Hx; right; exists p; by split; [left|]|].
  change (join_byte c (p :: q :: ps)) with (p ++ c :: join_byte c (q :: ps)). rewrite elem_of_app, elem_of_cons.
  intros [Hx|[->|Hx]]; [right; exists p; by split; [left|]|by left|]. destruct (IH Hx) as [|(r & Hr & Hxr)]; [by left|]. right. exists r. by split; [right|].
Qed.
Lemma slashes_id s : BACKSLASH ∉ s -> slashes s = s.
Proof.
  induction s as [|x s IH]; [done|]. intros [Hx Hs]%not_elem_of_cons. unfold slashes in *. rewrite fmap_cons, IH by done.
  destruct (Byte.eqb x BACKSLASH) eqn:E; bools; congruence.
Qed.
Lemma rel_path_plain names : Forall plain_name names -> rel_path names = join_byte SLASH names.
Proof.
  intros Hall. unfold rel_path. rewrite from_utf8_lossy_id.
  - apply slashes_id. intros [Hc|(p & Hp & Hx)]%join_elem; [done|]. rewrite Forall_forall in Hall. by destruct (Hall _ Hp).
  - induction Hall as [|p [|q ps] Hp Hps IH]; [by eexists|apply Hp|]. change (join_byte SLASH (p :: q :: ps)) with (p ++ [SLASH] ++ join_byte SLASH (q :: ps)).
    apply utf8_app; [apply Hp|]. apply utf8_app; [by eexists|done].
Qed.
Lemma rel_path_colon names : Forall plain_name names -> COLON ∉ rel_path names.
Proof. intros Hall. rewrite rel_path_plain by done. intros [Hc|(p & Hp & Hx)]%join_elem; [done|]. rewrite Forall_forall in Hall. by destruct (Hall _ Hp). Qed.
Lemma rel_path_inj names names' : names <> [] -> names' <> [] -> Forall plain_name names -> Forall plain_name names' -> rel_path names = rel_path names' -> names = names'.
Proof.
  intros Hn Hn' Hp Hp'. rewrite !rel_path_plain by done. intros Heq%(f_equal (split_byte SLASH)).
  rewrite !split_join_byte in Heq; try done; eapply Forall_impl; [done|apply pn_slash|done|apply pn_slash].
Qed.
Definition encodable (e : bytes * bytes) : Prop := COLON ∉ e.1 /\ length e.2 = 48%nat.
Lemma until_colon p q r s : COLON ∉ p -> COLON ∉ q -> p ++ COLON :: r = q ++ COLON :: s -> p = q /\ r = s.
Proof.
  intros Hp Hq Heq. pose proof (proj2 (split_once_Some COLON (p ++ COLON :: r) p r) (conj eq_refl Hp)) as H1.
  rewrite Heq, (proj2 (split_once_Some COLON (q ++ COLON :: s) q s) (conj eq_refl Hq)) in H1. by injection H1.
Qed.
Lemma hash_input_inj fs gs : Forall encodable fs -> Forall encodable gs -> hash_input fs = hash_input gs -> fs = gs.
Proof.
  intros Hf. revert gs. induction Hf as [|[p h] fs [Hp Hh] Hf IH]; intros gs Hg; destruct Hg as [|[q k] gs [Hq Hk] Hg]; cbn [fst snd] in *; [done| | |].
  { unfold hash_input. rewrite bind_cons. by destruct q. }
  { unfold hash_input. rewrite bind_cons. by destruct p. }
  unfold hash_input in *. rewrite !bind_cons. cbn [fst snd]. rewrite <- !app_assoc. cbn [app]. intros Heq.
  apply until_colon in Heq as [-> Hrest]; [|done..]. apply app_inj_1 in Hrest as [-> [= Hrest]]; [|congruence]. f_equal. by apply IH.
Qed.

(** ** The identity *)
Section Identity.
Context `{HS : Sha2} `{HL : !Sha2Laws HS}.
(** Every file that counts has names without separators. *)
Definition plain_tree (dir : option (list dir_entry)) : Prop := forall names c, file_at dir names c -> Forall plain_name names.
(** The pairs that are hashed. *)
Definition records (dir : option (list dir_entry)) (fs : list (bytes * bytes)) : Prop :=
  StronglySorted (fun x y => bytes_le x.1 y.1) fs /\ forall ph, ph ∈ fs <-> exists names c, file_at dir names c /\ ph = (rel_path names, sha384 c).
Lemma tree_input_decides dir : decides (tree_input dir) (clean dir) (fun i => exists fs, records dir fs /\ i = hash_input fs).
Proof.
  unfold tree_input. eapply decides_then; [by apply collect_decides|]. intros out _ _ (fs & -> & Hfs). eexists. split; [done|].
  exists (sort_by_key fst fs). split; [|done]. split; [apply sort_by_key_sorted|]. intros ph. by rewrite sort_by_key_Permutation.
Qed.
(** A tree has a hash exactly when it can be read and holds no symbolic link. *)
Lemma tree_hash_decides dir : decides (compute_tree_hash dir) (clean dir) (fun h => exists fs, records dir fs /\ h = sha384 (hash_input fs)).
Proof.
  unfold compute_tree_hash. eapply decides_then; [apply tree_input_decides|]. intros i _ _ (fs & Hfs & ->). eexists. split; [done|].
  by exists fs.
Qed.
Lemma records_encodable dir fs : plain_tree dir -> records dir fs -> Forall encodable fs.
Proof.
  intros Hp [_ Hfs]. apply Forall_forall. intros ph (names & c & Hf & ->)%Hfs. split; cbn [fst snd]; [|apply sha384_length]. apply rel_path_colon. by eapply Hp.
Qed.
Lemma file_at_nonempty dir names c : file_at dir names c -> names <> [].
Proof. by destruct 1. Qed.
(** Every file of the first tree is at the same path in the second, with the same content or
    with one that collides. *)
Definition files_within (dir dir' : option (list dir_entry)) : Prop :=
  forall names c, file_at dir names c -> exists c', file_at dir' names c' /\ (c = c' \/ collision sha384 c c').
Lemma same_input dir dir' i : tree_input dir = Ok i -> tree_input dir' = Ok i -> plain_tree dir -> plain_tree dir' -> files_within dir dir'.
Proof.
  intros H1 H2 Hp Hp' names c Hf. pose proof (tree_input_decides dir) as Hd1. pose proof (tree_input_decides dir') as Hd2. rewrite H1 in Hd1. rewrite H2 in Hd2.
  destruct Hd1 as (_ & fs & Hfs & Hin), Hd2 as (_ & gs & Hgs & Hin'). rewrite Hin in Hin'.
  assert (fs = gs) as <- by (eapply hash_input_inj; eauto using records_encodable). destruct Hfs as [_ Hfs], Hgs as [_ Hgs].
  assert ((rel_path names, sha384 c) ∈ fs) as (names' & c' & Hf' & Heq)%Hgs by (apply Hfs; eauto). injection Heq as Hn Hc.
  apply rel_path_inj in Hn as ->; [|by eapply file_at_nonempty|by eapply file_at_nonempty|by eapply Hp|by eapply Hp'].
  exists c'. split; [done|]. by apply eq_or_collision.
Qed.
(** C35: Value X identifies the files of a tree.  The order in which directories are listed
    does not matter, for the hash and for the error.  And when every name is text without a
    colon or a backslash, two trees with one hash hold files at the same paths and with the
    same contents, unless the two inputs of the hasher, which the trees determine, collide
    under SHA-384, or the two contents at one path do. *)
Theorem value_x_identity dir dir' :
  (same_dir dir dir' -> compute_tree_hash dir = compute_tree_hash dir') /\
  (forall h, compute_tree_hash dir = Ok h -> compute_tree_hash dir' = Ok h -> plain_tree dir -> plain_tree dir' ->
    exists i i', tree_input dir = Ok i /\ tree_input dir' = Ok i' /\
      (collision sha384 i i' \/ files_within dir dir' /\ files_within dir' dir)).
Proof.
  split.
  - intros Hs. unfold compute_tree_hash, tree_input. by rewrite (collect_order _ (depth (Directory dir')) [] dir dir').
  - intros h (i & Hi & [= Hh])%bind_Ok (i' & Hi' & [= Hh'])%bind_Ok Hp Hp'. exists i, i'. split_and!; [done..|].
    destruct (eq_or_collision sha384 i i') as [->|]; [congruence|right|by left]. split; by eapply same_input.
Qed.
(** ** Trees with one hash *)
(** The tree of a single file. *)
Definition one_file (name content : bytes) : option (list dir_entry) := Some [Entry name (Some (Regular (Some content)))].
(** A file in a directory, and two files next to each other. *)
Definition nested_file (dir name content : bytes) : option (list dir_entry) := Some [Entry dir (Some (Directory (one_file name content)))].
Definition two_files (name content name' content' : bytes) : option (list dir_entry) :=
  Some [Entry name (Some (Regular (Some content))); Entry name' (Some (Regular (Some content')))].
(** Both trees have a hash and it is the same, though the first holds a file that the second does not. *)
Definition confused (dir dir' : option (list dir_entry)) : Prop :=
  (exists h, compute_tree_hash dir = Ok h /\ compute_tree_hash dir' = Ok h) /\
  exists names c, file_at dir names c /\ ~ file_at dir' names c.
(** A byte that no UTF-8 text holds. *)
Definition never_utf8 (b : byte) : Prop := byte_N b = 0xC0 \/ byte_N b = 0xC1 \/ 0xF5 <= byte_N b.
Definition text (s : bytes) : Prop := is_Some (utf8_decode s) /\ BACKSLASH ∉ s.

Ltac boundary IH s :=
  let E := fresh "E" in
  pose proof (IH s ltac:(cbn; lia)) as E; cbn [app] in E; rewrite E; by rewrite ?app_assoc.
(** A byte that does not continue a character ends what came before it. *)
Lemma lossy_boundary c q p : cont c = false -> from_utf8_lossy (p ++ c :: q) = from_utf8_lossy p ++ from_utf8_lossy (c :: q).
Proof.
  intros Hc. assert (forall x, second3 x c = false) as H3 by (intros x; destruct (second3 x c) eqn:E; [by apply cont_second3 in E; congruence|done]).
  assert (forall x, second4 x c = false) as H4 by (intros x; destruct (second4 x c) eqn:E; [by apply cont_second4 in E; congruence|done]).
  induction p as [p IH] using (induction_ltof1 _ (@length _)); unfold ltof in IH. destruct p as [|b0 r]; [done|].
  cbn [app from_utf8_lossy]. destruct (byte_N b0 <? 0x80); [by rewrite IH by (cbn; lia)|].
  destruct ((0xC2 <=? byte_N b0) && (byte_N b0 <? 0xE0)).
  { destruct r as [|b1 r]; cbn [app]; [by rewrite Hc|]. destruct (cont b1); [boundary IH r|boundary IH (b1 :: r)]. }
  destruct ((0xE0 <=? byte_N b0) && (byte_N b0 <? 0xF0)).
  { destruct r as [|b1 r]; cbn [app]; [by rewrite H3|]. destruct (second3 _ b1); [|boundary IH (b1 :: r)].
    destruct r as [|b2 r]; cbn [app]; [by rewrite Hc|]. destruct (cont b2); [boundary IH r|boundary IH (b2 :: r)]. }
  destruct ((0xF0 <=? byte_N b0) && (byte_N b0 <? 0xF5)); [|boundary IH r].
  destruct r as [|b1 r]; cbn [app]; [by rewrite H4|]. destruct (second4 _ b1); [|boundary IH (b1 :: r)].
  destruct r as [|b2 r]; cbn [app]; [by rewrite Hc|]. destruct (cont b2); [|boundary IH (b2 :: r)].
  destruct r as [|b3 r]; cbn [app]; [by rewrite Hc|]. destruct (cont b3); [boundary IH r|boundary IH (b3 :: r)].
Qed.
Lemma lossy_ascii c q p : byte_N c < 0x80 -> from_utf8_lossy (p ++ c :: q) = from_utf8_lossy p ++ c :: from_utf8_lossy q.
Proof.
  intros Hc. rewrite lossy_boundary by (unfold cont, in_range; apply andb_false_iff; left; apply N.leb_gt; lia).
  cbn [from_utf8_lossy]. by rewrite (proj2 (N.ltb_lt _ _) Hc).
Qed.
Lemma lossy_never c q p : never_utf8 c -> from_utf8_lossy (p ++ c :: q) = from_utf8_lossy p ++ REPLACEMENT ++ from_utf8_lossy q.
Proof.
  intros Hc. rewrite lossy_boundary.
  - cbn [from_utf8_lossy]. destruct (N.ltb_spec (byte_N c) 0x80); [destruct Hc as [|[|]]; lia|].
    destruct (N.leb_spec 0xC2 (byte_N c)), (N.ltb_spec (byte_N c) 0xE0); cbn [andb]; try (destruct Hc as [|[|]]; lia).
    + destruct (N.leb_spec 0xE0 (byte_N c)), (N.ltb_spec (byte_N c) 0xF0); cbn [andb]; try (destruct Hc as [|[|]]; lia).
      destruct (N.leb_spec 0xF0 (byte_N c)), (N.ltb_spec (byte_N c) 0xF5); cbn [andb]; try (destruct Hc as [|[|]]; lia). done.
    + destruct (N.leb_spec 0xE0 (byte_N c)); cbn [andb]; [lia|]. destruct (N.leb_spec 0xF0 (byte_N c)); cbn [andb]; [lia|done].
  - unfold cont, in_range. apply andb_false_iff. right. apply N.leb_gt. destruct Hc as [|[|]]; lia.
Qed.
Lemma slashes_app s t : slashes (s ++ t) = slashes s ++ slashes t.
Proof. apply fmap_app. Qed.
(** A backslash in a name reads like a directory, and a byte that no text holds like any other. *)
Lemma rel_path_backslash a b : rel_path [a ++ BACKSLASH :: b] = rel_path [a; b].
Proof. unfold rel_path. cbn [join_byte]. by rewrite !lossy_ascii, !slashes_app. Qed.
Lemma rel_path_never p q x y : never_utf8 x -> never_utf8 y -> rel_path [p ++ x :: q] = rel_path [p ++ y :: q].
Proof. intros Hx Hy. unfold rel_path. cbn [join_byte]. by rewrite !lossy_never. Qed.
Lemma rel_path_text name : text name -> rel_path [name] = name.
Proof. intros [Ht Hb]. unfold rel_path. cbn [join_byte]. by rewrite from_utf8_lossy_id, slashes_id. Qed.
Lemma skipped_name name : skipped name = true -> name ∈ SKIP_NAMES.
Proof.
  unfold skipped. destruct (from_utf8 name) as [n|] eqn:E; [|done]. intros (s & Hs & ->%bytes_eqb_eq)%existsb_exists.
  apply from_utf8_Some in E as [-> _]. by apply list_elem_of_In.
Qed.
(** A name with a separator, or with a byte outside ASCII, is not skipped. *)
Lemma unskipped name x : x ∈ name -> x = BACKSLASH \/ x = COLON \/ 0x80 <= byte_N x -> skipped name = false.
Proof.
  intros Hx Hc. destruct (skipped name) eqn:E; [|done]. exfalso.
  assert (forallb (forallb (fun b => negb (Byte.eqb b BACKSLASH) && negb (Byte.eqb b COLON) && (byte_N b <? 0x80))) SKIP_NAMES = true) as Ha by (vm_compute; reflexivity).
  rewrite forallb_forall in Ha. specialize (Ha name (proj1 (list_elem_of_In _ _) (skipped_name _ E))).
  rewrite forallb_forall in Ha. specialize (Ha x (proj1 (list_elem_of_In _ _) Hx)). bools. destruct Hc as [|[|]]; [done..|lia].
Qed.

(** What the traversal gives the hasher for the three shapes of tree. *)
Lemma input_one name c : skipped name = false -> tree_input (one_file name c) = Ok (hash_input [(rel_path [name], sha384 c)]).
Proof. intros Hs. unfold tree_input, one_file. cbn [depth map foldr entry_depth Nat.max collect_hashes ok_or]. ok_step. cbn. by rewrite Hs. Qed.
Lemma input_nested a b c : skipped a = false -> skipped b = false -> tree_input (nested_file a b c) = Ok (hash_input [(rel_path [a; b], sha384 c)]).
Proof. intros Ha Hb. unfold tree_input, nested_file, one_file. cbn [depth map foldr entry_depth Nat.max collect_hashes ok_or]. ok_step. cbn. rewrite Ha. cbn. by rewrite Hb. Qed.
Lemma input_two a b c d : skipped a = false -> skipped b = false -> bytes_leb a b = true -> bytes_leb (rel_path [a]) (rel_path [b]) = true ->
  tree_input (two_files a d b c) = Ok (hash_input [(rel_path [a], sha384 d); (rel_path [b], sha384 c)]).
Proof.
  intros Ha Hb Hab Hr. unfold tree_input, two_files. cbn [depth map foldr entry_depth Nat.max collect_hashes ok_or]. ok_step.
  cbn [readable sort_by_key foldr insert_by fst]. rewrite Hab. cbn - [rel_path]. rewrite Ha. cbn - [rel_path]. rewrite Hb. cbn - [rel_path]. by rewrite Hr.
Qed.
Lemma same_confused dir dir' i names c : tree_input dir = Ok i -> tree_input dir' = Ok i -> file_at dir names c -> ~ file_at dir' names c -> confused dir dir'.
Proof. intros H1 H2 Hf Hn. split; [|by exists names, c]. exists (sha384 i). unfold compute_tree_hash. by rewrite H1, H2. Qed.
Lemma file_at_one name c : skipped name = false -> file_at (one_file name c) [name] c.
Proof. intros Hs. econstructor; [by left|done|constructor]. Qed.
(** A tree holds a file of some name only if an entry has this name. *)
Lemma no_such_file l name names c : name ∉ fst <$> readable l -> ~ file_at (Some l) (name :: names) c.
Proof. intros Hn Hf. inversion Hf as [? ? m ? ? Hin _ _]; subst. apply Hn. apply list_elem_of_fmap. by exists (name, m). Qed.

(** C36: different trees with one Value X, whatever the hash function and the contents.  For names
    that are not skipped: a file whose name holds a backslash stands for a file in a directory;
    two names that differ in a byte that no UTF-8 text holds stand for each other; and, for
    names and a digest that are text without a backslash, the names in order, a file whose
    name is a name, a colon, the digest of some content, a newline and another name stands
    for two files, the first with that content.  In every case both trees have a hash, the same one,
    and the first tree holds a file that the second does not. *)
Theorem value_x_separators c :
  (forall a b, skipped a = false -> skipped b = false -> confused (one_file (a ++ BACKSLASH :: b) c) (nested_file a b c)) /\
  (forall p q x y, never_utf8 x -> never_utf8 y -> x <> y -> confused (one_file (p ++ x :: q) c) (one_file (p ++ y :: q) c)) /\
  (forall a b d, text a -> text b -> text (sha384 d) -> skipped a = false -> skipped b = false -> bytes_leb a b = true ->
    confused (one_file (a ++ COLON :: sha384 d ++ x0a :: b) c) (two_files a d b c)).
Proof.
  assert (forall p x q, x = BACKSLASH \/ x = COLON \/ 0x80 <= byte_N x -> skipped (p ++ x :: q) = false) as Hsk.
  { intros p x q Hx. apply (unskipped _ x); [|done]. apply elem_of_app. right. left. }
  assert (forall x, never_utf8 x -> 0x80 <= byte_N x) as Hnv by (intros x [|[|]]; lia).
  split_and!.
  - intros a b Ha Hb. eapply same_confused; [apply input_one, Hsk; auto| |apply file_at_one, Hsk; auto|].
    + rewrite rel_path_backslash. by apply input_nested.
    + apply no_such_file. intros Heq%list_elem_of_singleton%(f_equal length). rewrite length_app in Heq. cbn in Heq. lia.
  - intros p q x y Hx Hy Hne. eapply same_confused; [apply input_one, Hsk; auto| |apply file_at_one, Hsk; auto|].
    + rewrite (rel_path_never _ _ x y) by done. apply input_one, Hsk; auto.
    + apply no_such_file. by intros [=]%list_elem_of_singleton%app_inv_head.
  - intros a b d Ha Hb Hd Sa Sb Hab. eapply same_confused; [apply input_one, Hsk; auto| |apply file_at_one, Hsk; auto|].
    + rewrite input_two by (rewrite ?rel_path_text; done). rewrite (rel_path_text a), (rel_path_text b) by done. rewrite rel_path_text.
      * f_equal. unfold hash_input. cbn [mbind list_bind fst snd]. rewrite !app_nil_r, <- !app_assoc. cbn [app]. by rewrite <- !app_assoc.
      * change (a ++ COLON :: sha384 d ++ x0a :: b) with (a ++ [COLON] ++ sha384 d ++ [x0a] ++ b). destruct Ha, Hb, Hd. split.
        -- do 2 (apply utf8_app; [done|]; apply utf8_app; [by eexists|]). done.
        -- rewrite !elem_of_app, !list_elem_of_singleton. intros [?|[[=]|[?|[[=]|?]]]]; done.
    + apply no_such_file. cbn. rewrite !elem_of_cons. intros [Heq|[Heq|Hn]]; [..|by apply not_elem_of_nil in Hn];
        apply (f_equal length) in Heq; rewrite length_app in Heq; cbn in Heq; rewrite ?length_app in Heq; cbn in Heq; lia.
Qed.
End Identity.

(** ** Trees *)
Definition sample_tree (order : bool) : option (list dir_entry) :=
  let src := Entry (lit "src") (Some (Directory (one_file (lit "main.rs") (lit "fn main() {}")))) in
  let readme := Entry (lit "README.md") (Some (Regular (Some (lit "# readme")))) in
  let out := Entry (lit "out") (Some Symlink) in
  Some (if order then [src; out; readme] else [readme; out; src]).
Example tree_errors :
  compute_tree_hash (H := toy_sha2) <$> [None; Some [Entry (lit "a") None]; Some [Entry (lit "b") (Some (Directory (Some [Entry (lit "l") (Some Symlink)]))); Unreadable];
    Some [Entry (lit "f") (Some (Regular None))]] =
  [Err (ReadDir []); Err (Metadata [lit "a"]); Err (SymlinkAt [lit "b"; lit "l"]); Err (Read [lit "f"])].
Proof. vm_compute. reflexivity. Qed.
Lemma distinct_names l : bool_decide (NoDup (fst <$> readable l)) = true -> NoDup (fst <$> readable l).
Proof. apply bool_decide_eq_true. Qed.
Lemma value_x_identity_witness :
  is_ok (compute_tree_hash (H := toy_sha2) (sample_tree true)) = true /\
  compute_tree_hash (H := toy_sha2) (sample_tree true) = compute_tree_hash (H := toy_sha2) (sample_tree false).
Proof.
  split; [vm_compute; reflexivity|]. apply (proj1 (value_x_identity (HS := toy_sha2) (HL := toy_sha2_laws) (sample_tree true) (sample_tree false))).
  assert (same_dir (one_file (lit "main.rs") (lit "fn main() {}")) (one_file (lit "main.rs") (lit "fn main() {}"))) as Hsub.
  { apply (same_listing _ _ [(lit "main.rs", Some (Regular (Some (lit "fn main() {}"))))]); [apply distinct_names; vm_compute; reflexivity| |reflexivity].
    apply Forall2_cons. split; [apply same_leaf; discriminate|constructor]. }
  apply (same_listing _ _ (rev (readable (default [] (sample_tree false))))); [apply distinct_names; vm_compute; reflexivity| |apply Permutation_sym, Permutation_rev].
  apply Forall2_cons. split; [apply same_sub, Hsub|]. do 2 (apply Forall2_cons; split; [apply same_leaf; discriminate|]). constructor.
Defined.
(** A hash of the right width whose digests are text. *)
Definition text_sha2 : Sha2 := {|
  sha256 := toy_digest 32 7; sha384 b := hex_encode (toy_digest 24 7 b); sha512 := toy_digest 64 7 |}.
Lemma text_decided s : is_Some (utf8_decode s) /\ contains_byte BACKSLASH s = false -> text s.
Proof. intros [Ht Hb]. split; [done|]. intros Hin. apply not_true_iff_false in Hb. apply Hb, existsb_exists. exists BACKSLASH. split; [by apply list_elem_of_In|done]. Qed.
Lemma value_x_separators_witness :
  confused (HS := text_sha2) (one_file (lit "src\main.rs") (lit "fn main() {}")) (nested_file (lit "src") (lit "main.rs") (lit "fn main() {}")) /\
  confused (HS := text_sha2) (one_file (lit "v" ++ xff :: lit ".rs") (lit "fn main() {}")) (one_file (lit "v" ++ xfe :: lit ".rs") (lit "fn main() {}")) /\
  confused (HS := text_sha2) (one_file (lit "a" ++ COLON :: hex_encode (toy_digest 24 7 (lit "x")) ++ x0a :: lit "b") (lit "fn main() {}"))
    (two_files (lit "a") (lit "x") (lit "b") (lit "fn main() {}")).
Proof.
  destruct (value_x_separators (HS := text_sha2) (lit "fn main() {}")) as (Hb & Hn & Hc). split; [|split].
  - apply (Hb (lit "src") (lit "main.rs")); reflexivity.
  - apply (Hn (lit "v") (lit ".rs") xff xfe); [do 2 right; discriminate..|discriminate].
  - apply (Hc (lit "a") (lit "b") (lit "x")); try reflexivity;
      (apply text_decided; split; [eexists; vm_compute; reflexivity|vm_compute; reflexivity]).
Defined.
