(* ===== verification/Mobile.v ===== *)
(** * Mobile: application attestations of phones and of macOS
    ([src/v2/src/tee/mobile/], [tee/desktop/app_attest.rs], [tee/desktop/host_guest.rs])

    A bundle names an application and carries a signature over a channel binding: an App
    Attest assertion (iOS and macOS, the same format), or an Android certificate path whose
    leaf holds the binding.  A host-attested guest is a token whose binding a macOS host has
    signed.

    [app_attest_decides], [android_exact]: what is accepted.  The conditions name no pinned
    key: [app_attest_unbound] shows that an accepted assertion is accepted under any
    team and bundle name, and [android_exact] that the leaf of an accepted path is accepted
    alone, with nothing above it, and that an empty package name makes the verifier panic.

    X.509, curves, RSA, base64 and CBOR are parameters; [cert_to_der] is the re-encoding of
    a certificate. *)
From S2P Require Import Prelude Bytes Text Crypto Boot Eat Pki Pem NitroQuote NitroTpm DesktopTpm.

(** ** Data *)
Definition ANDROID_PLATFORM : bytes := lit "android-key-attestation".
Definition IOS_PLATFORM : bytes := lit "ios-app-attest".
Definition MACOS_APP_ATTEST_PLATFORM : bytes := lit "macos-app-attest".
Definition MACOS_HOST_ATTESTED_GUEST_PLATFORM : bytes := lit "macos-host-attested-guest".
Definition ANDROID_APP_ID_DOMAIN : bytes := lit "uq/mobile/android/v1" ++ [x00].
Definition IOS_CLIENT_DATA_DOMAIN : bytes := lit "uq/mobile/ios/v1" ++ [x00].
Definition IOS_APP_ID_DOMAIN : bytes := lit "uq/mobile/ios-app-id/v1" ++ [x00].
Definition ATTESTATION_OID : bytes := lit "1.3.6.1.4.1.11129.2.1.17".
Definition VERIFIED : bytes := lit "verified".

Record MobileVerdict : Type := { mv_verdict : bytes; mv_platform : bytes; mv_app_id_hash : bytes; package_or_bundle : bytes }.
(** [IosAppAttestBundle], and [MacOsAppAttestBundle] with the same fields *)
Record AppAttestBundle : Type := {
  aa_version : N; aa_platform : bytes; key_id : bytes; assertion : bytes; credential_public_key : bytes; app_id_hash : bytes;
  team_id : bytes; bundle_id : bytes; aa_binding : bytes; client_data_hash : bytes;
}.
Record AndroidKeyAttestationBundle : Type := {
  ab_version : N; ab_platform : bytes; attestation_chain : list bytes; ab_binding : bytes; package_name : bytes; signing_cert_digest : bytes;
}.
Record HostAttestedGuest : Type := { hg_version : N; guest_eat : bytes; hg_host : AppAttestBundle }.
Inductive MobileError : Type := MobileParse (m : string) | MobileVerify (m : string).
Inductive HostGuestError : Type := GuestParse (m : string) | GuestEat (e : EatError) | GuestHost (e : MobileError).
Class CertEncoder := { cert_to_der : Certificate -> option bytes }.

Notation parses := (fun c m => ensure (E := MobileError) c (MobileParse m)).
Notation verifies := (fun c m => ensure (E := MobileError) c (MobileVerify m)).
Notation parsed := (fun o m => ok_or (E := MobileError) o (MobileParse m)).

Section Mobile.
Context `{X : X509} `{K : CpuCrypto} `{H : Sha2} `{CB : Ciborium} `{R : TpmRsa} `{CE : CertEncoder}.

(** ** Identities *)
Definition android_app_id_hash (package_name signing_cert_sha256 : bytes) : bytes := sha256 (ANDROID_APP_ID_DOMAIN ++ package_name ++ [x00] ++ signing_cert_sha256).
Definition ios_app_id_hash (team_id bundle_id : bytes) : bytes := sha256 (IOS_APP_ID_DOMAIN ++ team_id ++ [x00] ++ bundle_id).
Definition ios_client_data_hash (binding : bytes) : bytes := sha256 (IOS_CLIENT_DATA_DOMAIN ++ binding).

(** ** App Attest *)
Definition parse_hex32 (s : bytes) (field : string) : res MobileError bytes :=
  v ← parsed (hex_decode (str_trim s)) field;
  parses (blen v =? 32) "must be 32 bytes";;
  Ok v.
Definition parse_uncompressed_p256 (hex : bytes) : res MobileError (Point p256) :=
  raw ← parsed (hex_decode (str_trim hex)) "pubkey";
  parsed (from_sec1 p256 raw) "p256 pubkey".
Definition bytes_from_value (v : Value) : option bytes := match v with VBytes b => Some b | _ => None end.
(** [n.to_string()] of an [i128] *)
Definition integer_text (i : Z) : bytes := if (i <? 0)%Z then lit "-" ++ to_decimal (Z.abs_N i) else to_decimal (Z.to_N i).
Definition assertion_key (k : Value) : option bytes :=
  match k with VText s => Some s | VInteger i => Some (integer_text i) | _ => None end.
Definition is_one_of (k : bytes) (names : list string) : bool := existsb (fun n => bytes_eqb k (lit n)) names.
Definition assertion_entry (found : option bytes * option bytes) (e : Value * Value) : option bytes * option bytes :=
  match assertion_key e.1 with
  | None => found
  | Some k =>
    if is_one_of k ["authenticatorData"; "1"]%string then (bytes_from_value e.2, found.2)
    else if is_one_of k ["signature"; "2"]%string then (found.1, bytes_from_value e.2)
    else found
  end.
Definition parse_assertion (b64 : bytes) : res MobileError (bytes * bytes) :=
  raw ← parsed (base64_decode (str_trim b64)) "assertion base64";
  '(val, _) ← parsed (cbor_read raw) "assertion cbor";
  map ← parsed (match val with VMap m => Some m | _ => None end) "assertion must be CBOR map";
  let found := foldl assertion_entry (None, None) map in
  auth_data ← parsed found.1 "missing authenticatorData";
  signature ← parsed found.2 "missing signature";
  Ok (auth_data, signature).
(** [hex::encode(a) != s.to_lowercase()]: no character outside ASCII has a hex digit as its lower case. *)
Definition hex_named (a s : bytes) : bool := bytes_eqb (hex_encode a) (to_ascii_lowercase s).
Definition ios_verify_bundle (bundle : AppAttestBundle) (expected_binding : bytes) : res MobileError MobileVerdict :=
  verifies (aa_version bundle =? 1) "unsupported version";;
  verifies (bytes_eqb (aa_platform bundle) IOS_PLATFORM) "expected platform";;
  binding ← parse_hex32 (aa_binding bundle) "binding";
  verifies (bytes_eqb binding expected_binding) "binding does not match expected channel binding";;
  client_hash ← parse_hex32 (client_data_hash bundle) "client_data_hash";
  verifies (bytes_eqb client_hash (ios_client_data_hash binding)) "client_data_hash does not match uq/mobile/ios/v1 binding digest";;
  parse_hex32 (app_id_hash bundle) "app_id_hash";;
  verifies (hex_named (ios_app_id_hash (team_id bundle) (bundle_id bundle)) (app_id_hash bundle)) "app_id_hash does not match team_id/bundle_id";;
  pk ← parse_uncompressed_p256 (credential_public_key bundle);
  '(auth_data, sig_bytes) ← parse_assertion (assertion bundle);
  sig ← ok_or (sig_from_slice p256 sig_bytes) (MobileVerify "signature");
  verifies (verify_prehash p256 pk (sha256 (auth_data ++ client_hash)) sig) "assertion signature";;
  Ok {| mv_verdict := VERIFIED; mv_platform := IOS_PLATFORM; mv_app_id_hash := app_id_hash bundle; package_or_bundle := bundle_id bundle |}.

(** The helpers of [app_attest.rs] are the text of those above. *)
Definition mac_parse_hex32 : bytes -> string -> res MobileError bytes := parse_hex32.
Definition mac_parse_uncompressed_p256 : bytes -> res MobileError (Point p256) := parse_uncompressed_p256.
Definition mac_parse_assertion : bytes -> res MobileError (bytes * bytes) := parse_assertion.
Definition mac_verify_bundle (bundle : AppAttestBundle) (expected_binding : bytes) : res MobileError DesktopVerdict :=
  verifies (aa_version bundle =? 1) "unsupported version";;
  verifies (bytes_eqb (aa_platform bundle) MACOS_APP_ATTEST_PLATFORM) "expected platform";;
  binding ← mac_parse_hex32 (aa_binding bundle) "binding";
  verifies (bytes_eqb binding expected_binding) "binding does not match expected channel binding";;
  client_hash ← mac_parse_hex32 (client_data_hash bundle) "client_data_hash";
  verifies (bytes_eqb client_hash (ios_client_data_hash binding)) "client_data_hash does not match uq/mobile/ios/v1 binding digest";;
  verifies (hex_named (ios_app_id_hash (team_id bundle) (bundle_id bundle)) (app_id_hash bundle)) "app_id_hash does not match team_id/bundle_id";;
  pk ← mac_parse_uncompressed_p256 (credential_public_key bundle);
  '(auth_data, sig_bytes) ← mac_parse_assertion (assertion bundle);
  sig ← ok_or (sig_from_slice p256 sig_bytes) (MobileVerify "signature");
  verifies (verify_prehash p256 pk (sha256 (auth_data ++ client_hash)) sig) "assertion signature";;
  Ok {| dv_verdict := VERIFIED; dv_platform := MACOS_APP_ATTEST_PLATFORM; dv_identity_hash := app_id_hash bundle; ima_verified := false; boot_aggregate := None |}.

(** ** Android *)
(** [haystack.windows(needle.len()).any(|w| w == needle)]: a window of length zero panics. *)
Definition has_window (haystack needle : bytes) : res MobileError bool :=
  if blen needle =? 0 then Panic else Ok (bool_decide (is_Some (find_sub needle haystack))).
Definition decode_cert (acc : list Certificate) (h : bytes) : res MobileError (list Certificate) :=
  der ← parsed (hex_decode (str_trim h)) "cert hex";
  c ← parsed (cert_from_der der) "cert der";
  Ok (acc ++ [c]).
Definition decode_chain (hex_certs : list bytes) : res MobileError (list Certificate) := for_each decode_cert [] hex_certs.
Definition cert_der (c : Certificate) : res MobileError bytes := parsed (cert_to_der c) "cert der".
Definition android_cert_ecdsa (e : Ecdsa) (digest issuer_pk sig_bytes : bytes) : res MobileError bool :=
  vk ← parsed (from_sec1 e issuer_pk) "issuer"; sig ← parsed (sig_from_der e sig_bytes) "sig"; Ok (verify_prehash e vk digest sig).
Definition android_cert_sig (issuer_der subject_der : bytes) : res MobileError bool :=
  iss ← parsed (cert_from_der issuer_der) "issuer cert";
  subj ← parsed (cert_from_der subject_der) "subject cert";
  let issuer_pk := raw_bytes (subject_public_key iss) in
  let tbs := tbs_der subj in
  let sig_bytes := raw_bytes (cert_signature subj) in
  let sig_alg := alg_oid (signature_algorithm subj) in
  if bytes_eqb sig_alg (lit "1.2.840.10045.4.3.2") then android_cert_ecdsa p256 (sha256 tbs) issuer_pk sig_bytes
  else if bytes_eqb sig_alg (lit "1.2.840.10045.4.3.3") then android_cert_ecdsa p384 (sha384 tbs) issuer_pk sig_bytes
  else if bytes_eqb sig_alg (lit "1.2.840.113549.1.1.10") then
    pk ← parsed (from_pkcs1_der issuer_pk) "rsa issuer";
    parses (pss_sig_from sig_bytes) "rsa sig";;
    Ok (pss_verify TPM_ALG_SHA384 pk (sha384 tbs) sig_bytes)
  else Err (MobileParse "unsupported cert sig alg").
Definition check_signed (certs : list Certificate) (_ : unit) (i : nat) : res MobileError unit :=
  subject ← index certs (N.of_nat i);
  subject_der ← cert_der subject;
  iss ← index certs (N.of_nat i + 1);
  issuer_der ← cert_der iss;
  ok ← android_cert_sig issuer_der subject_der;
  verifies ok "cert chain link failed signature check".
Definition verify_chain_signatures (certs : list Certificate) : res MobileError unit :=
  if blen certs =? 1 then Ok tt
  else n ← unwrap (checked_sub (blen certs) 1); for_each (check_signed certs) tt (seq 0 (N.to_nat n)).
Definition is_attestation (e : Extension) : bool := bytes_eqb (extn_id e) ATTESTATION_OID.
Definition android_verify_bundle (bundle : AndroidKeyAttestationBundle) (expected_binding : bytes) : res MobileError MobileVerdict :=
  verifies (ab_version bundle =? 1) "unsupported version";;
  verifies (bytes_eqb (ab_platform bundle) ANDROID_PLATFORM) "expected platform";;
  binding ← parse_hex32 (ab_binding bundle) "binding";
  verifies (bytes_eqb binding expected_binding) "binding does not match expected channel binding";;
  cert_digest ← parse_hex32 (signing_cert_digest bundle) "signing_cert_digest";
  verifies (negb (blen (attestation_chain bundle) =? 0)) "attestation_chain is empty";;
  certs ← decode_chain (attestation_chain bundle);
  verify_chain_signatures certs;;
  leaf ← index certs 0;
  ext ← ok_or (List.find is_attestation (extensions leaf)) (MobileVerify "leaf cert missing key attestation extension");
  let ext_bytes := extn_value ext in
  b ← has_window ext_bytes expected_binding;
  verifies b "attestation extension does not contain binding as attestationChallenge";;
  d ← has_window ext_bytes cert_digest;
  verifies d "attestation extension does not contain signing_cert_digest";;
  p ← has_window ext_bytes (package_name bundle);
  verifies p "attestation extension does not contain package_name";;
  Ok {| mv_verdict := VERIFIED; mv_platform := ANDROID_PLATFORM; mv_app_id_hash := hex_encode (android_app_id_hash (package_name bundle) cert_digest);
        package_or_bundle := package_name bundle |}.

(** ** A guest vouched for by its host *)
Context `{C : CborCodec}.
Definition host_guest_verify (b : HostAttestedGuest) : res HostGuestError DesktopVerdict :=
  ensure (hg_version b =? 1) (GuestParse "unsupported version");;
  guest_cbor ← ok_or (hex_decode (str_trim (guest_eat b))) (GuestParse "guest_eat hex");
  guest ← map_err GuestEat (from_cbor guest_cbor);
  map_err GuestHost (mac_verify_bundle (hg_host b) (binding_bytes guest));;
  Ok {| dv_verdict := VERIFIED; dv_platform := MACOS_HOST_ATTESTED_GUEST_PLATFORM; dv_identity_hash := hex_encode (value_x guest); ima_verified := false;
        boot_aggregate := None |}.
End Mobile.

(** * Lemmas *)
Definition hex32_of (text b : bytes) : Prop := hex_of text b /\ blen b = 32.
Definition within (needle haystack : bytes) : Prop := exists p q, haystack = p ++ needle ++ q.
Section MobileLemmas.
Context `{X : X509} `{K : CpuCrypto} `{H : Sha2} `{CB : Ciborium}.

Lemma parse_hex32_Ok s f b : parse_hex32 s f = Ok b <-> hex32_of s b.
Proof.
  unfold parse_hex32, hex32_of, hex_of. destruct (hex_decode (str_trim s)) as [v|]; cbn [ok_or]; [ok_step|by split; [|intros []]].
  destruct (blen v =? 32) eqn:E; cbn [ensure]; [ok_step|].
  - apply N.eqb_eq in E. split; [by intros [= ->]|]. by intros [[= ->] _].
  - apply N.eqb_neq in E. split; [done|]. by intros [[= ->] ?].
Qed.
Lemma parse_hex32_safe' s f : safe (parse_hex32 s f) (fun _ => True).
Proof. unfold parse_hex32. by wp. Qed.
Lemma hex32_parsed s f b : parse_hex32 s f = Ok b -> hex32_of s b.
Proof. apply parse_hex32_Ok. Qed.
Lemma parse_key_safe s : safe (parse_uncompressed_p256 s) (fun _ => True).
Proof. unfold parse_uncompressed_p256. by wp. Qed.
Lemma parse_assertion_safe s : safe (parse_assertion s) (fun _ => True).
Proof. unfold parse_assertion. apply safe_bind, safe_ok_or. intros raw _. apply safe_bind, safe_ok_or. intros [val n] _. by wp. Qed.

(** ** Assertions *)
(** The assertion of [b] is a signature over the binding by the key that [b] itself holds. *)
Definition asserted (b : AppAttestBundle) (binding : bytes) : Prop := exists pk auth s sig,
  parse_uncompressed_p256 (credential_public_key b) = Ok pk /\ parse_assertion (assertion b) = Ok (auth, s) /\ sig_from_slice p256 s = Some sig /\
  verify_prehash p256 pk (sha256 (auth ++ ios_client_data_hash binding)) sig = true.
Record app_attested (platform : bytes) (b : AppAttestBundle) (binding : bytes) : Prop := {
  at_version : aa_version b = 1;
  at_platform : aa_platform b = platform;
  at_binding : hex32_of (aa_binding b) binding;
  at_client : hex32_of (client_data_hash b) (ios_client_data_hash binding);
  at_name : hex_named (ios_app_id_hash (team_id b) (bundle_id b)) (app_id_hash b) = true;
  at_signed : asserted b binding;
}.
Definition ios_verdict (b : AppAttestBundle) : MobileVerdict :=
  {| mv_verdict := VERIFIED; mv_platform := IOS_PLATFORM; mv_app_id_hash := app_id_hash b; package_or_bundle := bundle_id b |}.
Definition mac_verdict (b : AppAttestBundle) : DesktopVerdict :=
  {| dv_verdict := VERIFIED; dv_platform := MACOS_APP_ATTEST_PLATFORM; dv_identity_hash := app_id_hash b; ima_verified := false; boot_aggregate := None |}.
Lemma decides_from {E A} (c : res E A) P (Q : A -> Prop) :
  safe c (fun v => P /\ Q v) -> (P -> exists v, c = Ok v) -> decides c P Q.
Proof. destruct c; cbn; [done|intros _ Hp Hn; by destruct (Hp Hn)|done..]. Qed.
Lemma parsed_hex32 s f b : hex32_of s b -> parse_hex32 s f = Ok b.
Proof. apply parse_hex32_Ok. Qed.
Lemma eqb_refl b : bytes_eqb b b = true.
Proof. by apply bytes_eqb_eq. Qed.
Lemma mac_decides b binding : decides (mac_verify_bundle b binding) (app_attested MACOS_APP_ATTEST_PLATFORM b binding) (fun v => v = mac_verdict b).
Proof.
  unfold mac_verify_bundle, mac_parse_hex32, mac_parse_uncompressed_p256, mac_parse_assertion. apply decides_from.
  - apply safe_bind, safe_ensure. intros Hv%N.eqb_eq. apply safe_bind, safe_ensure. intros Hp%bytes_eqb_eq.
    eapply safe_seq; [apply parse_hex32_safe'|]. intros bd Hb _. apply safe_bind, safe_ensure. intros ->%bytes_eqb_eq.
    eapply safe_seq; [apply parse_hex32_safe'|]. intros ch Hc _. apply safe_bind, safe_ensure. intros ->%bytes_eqb_eq. apply safe_bind, safe_ensure. intros Hn.
    eapply safe_seq; [apply parse_key_safe|]. intros pk Hpk _. eapply safe_seq; [apply parse_assertion_safe|]. intros [auth s] Ha _.
    apply safe_bind, safe_ok_or. intros sig Hs. apply safe_bind, safe_ensure. intros Hver. cbn [safe]. split; [|done].
    split; try done; try (by eapply hex32_parsed). by exists pk, auth, s, sig.
  - intros [Hv Hp Hb Hc Hn (pk & auth & s & sig & Hpk & Ha & Hs & Hver)]. exists (mac_verdict b). rewrite Hv, Hp, (parsed_hex32 _ _ _ Hb), (parsed_hex32 _ _ _ Hc), Hn, Hpk, Ha.
    change (1 =? 1) with true. do 3 (rewrite ?eqb_refl; cbn [ensure]; rewrite ?res_bind_Ok; cbv beta iota). rewrite Hs. cbn [ok_or]. ok_step. by rewrite Hver.
Qed.
Lemma ios_decides b binding :
  decides (ios_verify_bundle b binding) (app_attested IOS_PLATFORM b binding /\ exists id, hex32_of (app_id_hash b) id) (fun v => v = ios_verdict b).
Proof.
  unfold ios_verify_bundle. apply decides_from.
  - apply safe_bind, safe_ensure. intros Hv%N.eqb_eq. apply safe_bind, safe_ensure. intros Hp%bytes_eqb_eq.
    eapply safe_seq; [apply parse_hex32_safe'|]. intros bd Hb _. apply safe_bind, safe_ensure. intros ->%bytes_eqb_eq.
    eapply safe_seq; [apply parse_hex32_safe'|]. intros ch Hc _. apply safe_bind, safe_ensure. intros ->%bytes_eqb_eq.
    eapply safe_seq; [apply parse_hex32_safe'|]. intros id Hid _. apply safe_bind, safe_ensure. intros Hn.
    eapply safe_seq; [apply parse_key_safe|]. intros pk Hpk _. eapply safe_seq; [apply parse_assertion_safe|]. intros [auth s] Ha _.
    apply safe_bind, safe_ok_or. intros sig Hs. apply safe_bind, safe_ensure. intros Hver. cbn [safe]. split; [|done].
    split; [|exists id; by eapply hex32_parsed]. split; try done; try (by eapply hex32_parsed). by exists pk, auth, s, sig.
  - intros [[Hv Hp Hb Hc Hn (pk & auth & s & sig & Hpk & Ha & Hs & Hver)] (id & Hid)]. exists (ios_verdict b).
    rewrite Hv, Hp, (parsed_hex32 _ _ _ Hb), (parsed_hex32 _ _ _ Hc), (parsed_hex32 _ _ _ Hid), Hn, Hpk, Ha.
    change (1 =? 1) with true. do 3 (rewrite ?eqb_refl; cbn [ensure]; rewrite ?res_bind_Ok; cbv beta iota). rewrite Hs. cbn [ok_or]. ok_step. by rewrite Hver.
Qed.
End MobileLemmas.

(** ** Android *)
Section AndroidLemmas.
Context `{X : X509} `{K : CpuCrypto} `{H : Sha2} `{R : TpmRsa} `{CE : CertEncoder}.
Lemma has_window_run hay needle : needle <> [] -> exists b, has_window hay needle = Ok b /\ (b = true <-> within needle hay).
Proof.
  intros Hne. unfold has_window. destruct (N.eqb_spec (blen needle) 0) as [Hz%blen_0|]; [done|]. eexists. split; [done|]. rewrite bool_decide_eq_true. split.
  - intros [k Hk]. apply find_sub_Some in Hk as (p & q & -> & _). by exists p, q.
  - intros (p & q & ->). pose proof (find_sub_hit needle p q) as Hh. destruct (find_sub needle _); [by eexists|done].
Qed.
Lemma has_window_empty hay needle : needle = [] -> has_window hay needle = Panic.
Proof. by intros ->. Qed.
(** The certificates of a chain. *)
Definition cert_of (h : bytes) (c : Certificate) : Prop := exists der, hex_of h der /\ cert_from_der der = Some c.
Lemma cert_of_unique h c c' : cert_of h c -> cert_of h c' -> c = c'.
Proof. unfold cert_of, hex_of. intros (d & Hd & Hc) (d' & Hd' & Hc'). congruence. Qed.
Lemma decode_cert_cases acc h :
  (exists c, decode_cert acc h = Ok (acc ++ [c]) /\ cert_of h c) \/ ((exists e, decode_cert acc h = Err e) /\ forall c, ~ cert_of h c).
Proof.
  unfold decode_cert, cert_of, hex_of. destruct (hex_decode (str_trim h)) as [der|]; cbn [ok_or].
  2:{ right. split; [by eexists|]. intros c (d & [=] & _). }
  ok_step. destruct (cert_from_der der) as [c|] eqn:Ec; cbn [ok_or]; [ok_step; left; eauto|]. right. split; [by eexists|]. intros c (d & [= ->] & Hc). congruence.
Qed.
Lemma decode_chain_Ok l cs : decode_chain l = Ok cs <-> Forall2 cert_of l cs.
Proof.
  unfold decode_chain. enough (forall acc, for_each decode_cert acc l = Ok cs <-> exists new, cs = acc ++ new /\ Forall2 cert_of l new) as Hg.
  { rewrite (Hg []). split; [by intros (? & -> & ?)|eauto]. }
  induction l as [|h l IH]; intros acc.
  - cbn [for_each]. split; [intros [= ->]; exists []; by rewrite app_nil_r|]. intros (new & -> & Hn). apply Forall2_nil_inv_l in Hn as ->. by rewrite app_nil_r.
  - rewrite for_each_cons. destruct (decode_cert_cases acc h) as [(c & -> & Hc)|[[e ->] Hno]].
    + ok_step. rewrite IH. split.
      * intros (new & -> & Hn). exists (c :: new). split; [by rewrite <- app_assoc|by constructor].
      * intros (new & -> & Hn). apply Forall2_cons_inv_l in Hn as (c' & new' & Hc' & Hn & ->). rewrite (cert_of_unique _ _ _ Hc' Hc).
        exists new'. split; [by rewrite <- app_assoc|done].
    + split; [done|]. intros (new & _ & Hn). apply Forall2_cons_inv_l in Hn as (c' & new' & Hc' & _). by apply Hno in Hc'.
Qed.
Lemma decode_chain_safe' l : safe (decode_chain l) (fun _ => True).
Proof. unfold decode_chain. apply safe_for_each; [done|]. intros a x _ _. unfold decode_cert. by wp. Qed.
Lemma android_cert_sig_safe i s : safe (android_cert_sig i s) (fun _ => True).
Proof. unfold android_cert_sig, android_cert_ecdsa. wp; by repeat case_match; wp. Qed.
(** Each certificate is signed by the next. *)
Definition signed_by_next (certs : list Certificate) : Prop := forall i c c', certs !! i = Some c -> certs !! S i = Some c' ->
  exists d d', cert_to_der c = Some d /\ cert_to_der c' = Some d' /\ android_cert_sig d' d = Ok true.
Lemma verify_chain_decides certs : certs <> [] -> decides (verify_chain_signatures certs) (signed_by_next certs) (fun _ => True).
Proof.
  intros Hne. unfold verify_chain_signatures. destruct (N.eqb_spec (blen certs) 1) as [H1|H1].
  { split; [|done]. intros i c c' _ Hc'. apply lookup_lt_Some in Hc'. unfold blen in H1. lia. }
  destruct (checked_sub (blen certs) 1) as [n|] eqn:En; [|exfalso; destruct certs as [|c0 certs]; [done|]; rewrite blen_cons in En; unfold checked_sub in En; destruct (N.leb_spec 1 (1 + blen certs)); [done|lia]].
  apply checked_sub_Some in En as [-> Hl]. cbn [unwrap]. ok_step. eapply decides_iff.
  - apply (decides_for_all _ (fun i => exists c c' d d', certs !! i = Some c /\ certs !! S i = Some c' /\ cert_to_der c = Some d /\ cert_to_der c' = Some d' /\ android_cert_sig d' d = Ok true)).
    intros i Hi. apply elem_of_seq in Hi. unfold check_signed.
    destruct (lookup_lt_is_Some_2 certs i) as [c Hc]; [unfold blen in *; lia|]. destruct (lookup_lt_is_Some_2 certs (S i)) as [c' Hc']; [unfold blen in *; lia|].
    rewrite (index_Some certs (N.of_nat i) c). 2:{ apply get_Some. unfold blen. rewrite Nat2N.id. split; [|done]. apply lookup_lt_Some in Hc. lia. } ok_step.
    unfold cert_der. destruct (cert_to_der c) as [d|] eqn:Ed; cbn [ok_or]; [ok_step|by intros (? & ? & ? & ? & ? & ? & ? & ? & ?); congruence].
    rewrite (index_Some certs (N.of_nat i + 1) c'). 2:{ apply get_Some. unfold blen. replace (N.to_nat (N.of_nat i + 1)) with (S i) by lia. split; [|done]. apply lookup_lt_Some in Hc'. lia. } ok_step.
    destruct (cert_to_der c') as [d'|] eqn:Ed'; cbn [ok_or]; [ok_step|by intros (? & ? & ? & ? & ? & ? & ? & ? & ?); congruence].
    pose proof (android_cert_sig_safe d' d) as Hs. destruct (android_cert_sig d' d) as [[]|e| |] eqn:Es; cbn [safe] in Hs; try done; try ok_step; cbn [ensure].
    + split; [|done]. by exists c, c', d, d'.
    + intros (? & ? & ? & ? & ? & ? & ? & ? & ?). congruence.
    + intros (? & ? & ? & ? & ? & ? & ? & ? & ?). congruence.
  - split.
    + intros Hall i c c' Hc Hc'. destruct (Hall i) as (c1 & c2 & d & d' & H1' & H2' & Hd & Hd' & Hs); [apply elem_of_seq; apply lookup_lt_Some in Hc'; unfold blen; lia|].
      assert (c1 = c) as -> by congruence. assert (c2 = c') as -> by congruence. eauto.
    + intros Hs i Hi%elem_of_seq. destruct (lookup_lt_is_Some_2 certs i) as [c Hc]; [unfold blen in *; lia|].
      destruct (lookup_lt_is_Some_2 certs (S i)) as [c' Hc']; [unfold blen in *; lia|]. destruct (Hs i c c' Hc Hc') as (d & d' & ? & ? & ?). by exists c, c', d, d'.
  - done.
Qed.
(** Everything of an accepted bundle but the package name. *)
Record android_evidence (b : AndroidKeyAttestationBundle) (binding digest : bytes) (ext : Extension) : Prop := {
  an_version : ab_version b = 1;
  an_platform : ab_platform b = ANDROID_PLATFORM;
  an_binding : hex32_of (ab_binding b) binding;
  an_digest : hex32_of (signing_cert_digest b) digest;
  an_chain : exists leaf rest, Forall2 cert_of (attestation_chain b) (leaf :: rest) /\ signed_by_next (leaf :: rest) /\
    List.find is_attestation (extensions leaf) = Some ext;
  an_challenge : within binding (extn_value ext);
  an_signer : within digest (extn_value ext);
}.
Definition android_verdict (b : AndroidKeyAttestationBundle) (digest : bytes) : MobileVerdict :=
  {| mv_verdict := VERIFIED; mv_platform := ANDROID_PLATFORM; mv_app_id_hash := hex_encode (android_app_id_hash (package_name b) digest); package_or_bundle := package_name b |}.
(** The last check. *)
Definition package_check (b : AndroidKeyAttestationBundle) (digest : bytes) (ext : Extension) : res MobileError MobileVerdict :=
  p ← has_window (extn_value ext) (package_name b);
  verifies p "attestation extension does not contain package_name";;
  Ok (android_verdict b digest).
Lemma hex32_nonempty t b : hex32_of t b -> b <> [].
Proof. intros [_ Hl] ->. by rewrite blen_nil in Hl. Qed.
Lemma android_run b binding digest ext : android_evidence b binding digest ext -> android_verify_bundle b binding = package_check b digest ext.
Proof.
  intros [Hv Hp Hb Hd (leaf & rest & Hc & Hs & He) Hw1 Hw2]. unfold android_verify_bundle. rewrite Hv, Hp. pass ltac:(reflexivity). pass ltac:(apply eqb_refl).
  rewrite (parsed_hex32 _ _ _ Hb). ok_step. pass ltac:(apply eqb_refl). rewrite (parsed_hex32 _ _ _ Hd). ok_step.
  pass ltac:(destruct (attestation_chain b); [inversion Hc|by rewrite blen_cons; apply negb_true_iff, N.eqb_neq; lia]).
  rewrite (proj2 (decode_chain_Ok _ _) Hc). ok_step. pose proof (verify_chain_decides (leaf :: rest) ltac:(done)) as Hvc.
  destruct (verify_chain_signatures (leaf :: rest)) as [[]|e| |]; cbn in Hvc; [|by apply Hvc in Hs|done..]. ok_step.
  rewrite (index_Some (leaf :: rest) 0 leaf) by done. ok_step. rewrite He. cbn [ok_or]. ok_step.
  destruct (has_window_run (extn_value ext) binding (hex32_nonempty _ _ Hb)) as (b1 & -> & Hb1). rewrite (proj2 Hb1 Hw1). ok_step. pass ltac:(reflexivity).
  destruct (has_window_run (extn_value ext) digest (hex32_nonempty _ _ Hd)) as (b2 & -> & Hb2). rewrite (proj2 Hb2 Hw2). ok_step. pass ltac:(reflexivity). done.
Qed.
(** Without that evidence the bundle is refused, and nothing panics. *)
Lemma android_cases b binding : (exists digest ext, android_evidence b binding digest ext) \/ exists e, android_verify_bundle b binding = Err e.
Proof.
  unfold android_verify_bundle.
  destruct (ab_version b =? 1) eqn:Hv; cbn [ensure]; [ok_step|by right; eexists]. apply N.eqb_eq in Hv.
  destruct (bytes_eqb (ab_platform b) _) eqn:Hp; cbn [ensure]; [ok_step|by right; eexists]. apply bytes_eqb_eq in Hp.
  pose proof (parse_hex32_safe' (ab_binding b) "binding") as Hs1. destruct (parse_hex32 (ab_binding b) "binding") as [bd|e| |] eqn:Hb; [ok_step|by right; eexists|done..].
  destruct (bytes_eqb bd binding) eqn:Hbd; cbn [ensure]; [ok_step|by right; eexists]. apply bytes_eqb_eq in Hbd as ->. apply hex32_parsed in Hb.
  pose proof (parse_hex32_safe' (signing_cert_digest b) "signing_cert_digest") as Hs2.
  destruct (parse_hex32 (signing_cert_digest b) _) as [digest|e| |] eqn:Hd; [ok_step|by right; eexists|done..]. apply hex32_parsed in Hd.
  destruct (negb (blen (attestation_chain b) =? 0)) eqn:Hl; cbn [ensure]; [ok_step|by right; eexists].
  pose proof (decode_chain_safe' (attestation_chain b)) as Hs3. destruct (decode_chain _) as [certs|e| |] eqn:Hc; [ok_step|by right; eexists|done..]. apply decode_chain_Ok in Hc.
  assert (certs <> []) as Hne by (intros ->; inversion Hc as [Hn|]; by rewrite <- Hn in Hl).
  pose proof (verify_chain_decides certs Hne) as Hvc. destruct (verify_chain_signatures certs) as [[]|e| |]; [ok_step|by right; eexists|done..]. destruct Hvc as [Hsn _].
  destruct certs as [|leaf rest]; [done|]. rewrite (index_Some (leaf :: rest) 0 leaf) by done. ok_step.
  destruct (List.find is_attestation (extensions leaf)) as [ext|] eqn:He; cbn [ok_or]; [ok_step|by right; eexists].
  destruct (has_window_run (extn_value ext) binding (hex32_nonempty _ _ Hb)) as (b1 & -> & Hb1). ok_step. destruct b1; cbn [ensure]; [ok_step|by right; eexists].
  destruct (has_window_run (extn_value ext) digest (hex32_nonempty _ _ Hd)) as (b2 & -> & Hb2). ok_step. destruct b2; cbn [ensure]; [ok_step|by right; eexists].
  left. exists digest, ext. split; try done; [by exists leaf, rest|by apply Hb1|by apply Hb2].
Qed.
Definition with_chain (b : AndroidKeyAttestationBundle) (chain : list bytes) : AndroidKeyAttestationBundle :=
  {| ab_version := ab_version b; ab_platform := ab_platform b; attestation_chain := chain; ab_binding := ab_binding b; package_name := package_name b;
     signing_cert_digest := signing_cert_digest b |}.
Definition with_package (b : AndroidKeyAttestationBundle) (name : bytes) : AndroidKeyAttestationBundle :=
  {| ab_version := ab_version b; ab_platform := ab_platform b; attestation_chain := attestation_chain b; ab_binding := ab_binding b; package_name := name;
     signing_cert_digest := signing_cert_digest b |}.
Lemma leaf_evidence b binding digest ext : android_evidence b binding digest ext ->
  exists h rest, attestation_chain b = h :: rest /\ android_evidence (with_chain b [h]) binding digest ext.
Proof.
  intros [Hv Hp Hb Hd (leaf & rest & Hc & Hs & He) Hw1 Hw2]. apply Forall2_cons_inv_r in Hc as (h & hs & Hh & Hc & Heq). exists h, hs. split; [done|].
  split; try done. exists leaf, []. split; [by repeat constructor|]. split; [|done]. intros i c c' _ Hc'. apply lookup_lt_Some in Hc'. cbn in Hc'. lia.
Qed.
(** C38: what an accepted Android bundle shows, and what it does not.  With a package name
    the verifier returns, and accepts exactly the bundles whose path decodes, is signed link
    by link, and has a leaf whose attestation extension contains the binding, the digest of
    the signer and the package name somewhere.  No key is pinned: the leaf of an accepted
    path is accepted alone, under no signature at all.  And a bundle that would be accepted
    makes the verifier panic when its package name is empty. *)
Theorem android_exact b binding :
  (package_name b <> [] -> decides (android_verify_bundle b binding)
     (exists digest ext, android_evidence b binding digest ext /\ within (package_name b) (extn_value ext))
     (fun v => exists digest, hex32_of (signing_cert_digest b) digest /\ v = android_verdict b digest)) /\
  (forall v, android_verify_bundle b binding = Ok v ->
     (exists h rest, attestation_chain b = h :: rest /\ android_verify_bundle (with_chain b [h]) binding = Ok v) /\
     android_verify_bundle (with_package b []) binding = Panic).
Proof.
  assert (forall digest ext, package_name b <> [] -> android_evidence b binding digest ext ->
    decides (package_check b digest ext) (within (package_name b) (extn_value ext)) (fun v => v = android_verdict b digest)) as Hlast.
  { intros digest ext Hn _. unfold package_check. destruct (has_window_run (extn_value ext) (package_name b) Hn) as (w & -> & Hw). ok_step.
    destruct w; cbn; [split; [by apply Hw|done]|]. intros Hin. by apply Hw in Hin. }
  split.
  - intros Hn. destruct (android_cases b binding) as [(digest & ext & He)|[e He]].
    + rewrite (android_run _ _ _ _ He). eapply decides_iff; [by apply Hlast| |intros v _ _ ->; exists digest; split; [apply He|done]].
      split; [by exists digest, ext|]. intros (digest' & ext' & He' & Hw). destruct He as [_ _ _ _ (l & r & Hc & _ & Hx) _ _], He' as [_ _ _ _ (l' & r' & Hc' & _ & Hx') _ _].
      apply Forall2_cons_inv_r in Hc as (h & hs & Hh & _ & Heq). rewrite Heq in Hc'. apply Forall2_cons in Hc' as [Hh' _].
      rewrite (cert_of_unique _ _ _ Hh Hh') in Hx. rewrite Hx in Hx'. by injection Hx' as ->.
    + rewrite He. intros (digest & ext & Hev & Hw). rewrite (android_run _ _ _ _ Hev) in He. pose proof (Hlast _ _ Hn Hev) as Hd. rewrite He in Hd. by apply Hd.
  - intros v Hv. destruct (android_cases b binding) as [(digest & ext & He)|[e He]]; [|congruence]. split.
    + destruct (leaf_evidence _ _ _ _ He) as (h & rest & Hc & He'). exists h, rest. split; [done|]. rewrite (android_run _ _ _ _ He'). by rewrite (android_run _ _ _ _ He) in Hv.
    + assert (android_evidence (with_package b []) binding digest ext) as He' by (destruct He; by split). by rewrite (android_run _ _ _ _ He').
Qed.
End AndroidLemmas.

(** ** Names *)
Section NameLemmas.
Context `{X : X509} `{K : CpuCrypto} `{H : Sha2} `{CB : Ciborium} `{C : CborCodec}.
Lemma hexdigit_plain c : is_ascii_hexdigit c = true -> (byte_N c <? 0x80) = true /\ char_is_whitespace (byte_N c) = false.
Proof. destruct c; vm_compute; intros; split; congruence. Qed.
Lemma trim_hex a : str_trim (hex_encode a) = hex_encode a.
Proof.
  pose proof (hex_decode_Some _ _ (hex_decode_encode a)) as [_ Hall]. unfold all_hex in Hall. rewrite forallb_forall in Hall. setoid_rewrite <- list_elem_of_In in Hall.
  pose proof (str_trim_ascii [] (hex_encode a) [] eq_refl eq_refl) as Ht. rewrite app_nil_r in Ht. cbn [app] in Ht. apply Ht.
  - unfold ascii. apply forallb_forall. setoid_rewrite <- list_elem_of_In. intros c Hc. by apply hexdigit_plain, Hall.
  - intros c [Hc|Hc]; apply hexdigit_plain, Hall; [destruct (hex_encode a); [done|injection Hc as ->; left]|by apply last_Some_elem_of].
Qed.
Definition relabel (team id : bytes) (b : AppAttestBundle) : AppAttestBundle := {|
  aa_version := aa_version b; aa_platform := aa_platform b; key_id := key_id b; assertion := assertion b; credential_public_key := credential_public_key b;
  app_id_hash := hex_encode (ios_app_id_hash team id); team_id := team; bundle_id := id; aa_binding := aa_binding b; client_data_hash := client_data_hash b |}.
Lemma hex_named_encode a : hex_named a (hex_encode a) = true.
Proof. unfold hex_named. apply bytes_eqb_eq, hex_encode_decode, hex_decode_encode. Qed.
Lemma relabel_attested p team id b binding : app_attested p b binding -> app_attested p (relabel team id b) binding.
Proof. intros [Hv Hp Hb Hc Hn Hs]. split; [done..|apply hex_named_encode|done]. Qed.
Lemma mac_Ok b binding v : mac_verify_bundle b binding = Ok v <-> app_attested MACOS_APP_ATTEST_PLATFORM b binding /\ v = mac_verdict b.
Proof.
  pose proof (mac_decides b binding) as Hd. split; [intros Hv; by rewrite Hv in Hd|]. intros [Ha ->]. destruct (mac_verify_bundle b binding) as [w|e| |]; [|by apply Hd in Ha|done..].
  by destruct Hd as [_ ->].
Qed.
(** What a host-attested guest shows: a token, and an assertion over its binding. *)
Lemma host_guest_Ok b v : host_guest_verify b = Ok v <-> hg_version b = 1 /\ exists cbor guest, hex_of (guest_eat b) cbor /\ from_cbor cbor = Ok guest /\
  app_attested MACOS_APP_ATTEST_PLATFORM (hg_host b) (binding_bytes guest) /\
  v = {| dv_verdict := VERIFIED; dv_platform := MACOS_HOST_ATTESTED_GUEST_PLATFORM; dv_identity_hash := hex_encode (value_x guest); ima_verified := false; boot_aggregate := None |}.
Proof.
  unfold host_guest_verify, hex_of. destruct (N.eqb_spec (hg_version b) 1) as [Hv|Hv]; cbn [ensure]; [ok_step|by split; [|intros []]].
  destruct (hex_decode (str_trim (guest_eat b))) as [cbor|]; cbn [ok_or]; [ok_step|by split; [|intros (_ & ? & ? & [=] & _)]].
  destruct (from_cbor cbor) as [guest|e| |] eqn:Eg; cbn [map_err]; [ok_step|by split; [|intros (_ & ? & ? & [= <-] & Hg & _); congruence]..].
  destruct (mac_verify_bundle (hg_host b) (binding_bytes guest)) as [w|e| |] eqn:Em; cbn [map_err].
  - ok_step. apply mac_Ok in Em as [Ha _]. split; [intros [= <-]; eauto 10|]. intros (_ & c & g & [= <-] & Hg & _ & ->). congruence.
  - split; [done|]. intros (_ & c & g & [= <-] & Hg & Ha & _). assert (g = guest) as -> by congruence. pose proof (proj2 (mac_Ok _ _ _) (conj Ha eq_refl)). congruence.
  - split; [done|]. intros (_ & c & g & [= <-] & Hg & Ha & _). assert (g = guest) as -> by congruence. pose proof (proj2 (mac_Ok _ _ _) (conj Ha eq_refl)). congruence.
  - split; [done|]. intros (_ & c & g & [= <-] & Hg & Ha & _). assert (g = guest) as -> by congruence. pose proof (proj2 (mac_Ok _ _ _) (conj Ha eq_refl)). congruence.
Qed.
(** C39: an App Attest assertion does not bind an application.  A bundle is accepted for a
    signature over the channel binding by the key that the bundle itself carries; the
    authenticator data are not read and the key is not compared with anything.  So an
    accepted bundle is accepted under every other team and bundle name, with the identity
    of that application as the verdict; and a host's bundle vouches for a guest whatever
    its application is called. *)
Theorem app_attest_unbound (HL : Sha2Laws H) team id :
  (forall b binding v, mac_verify_bundle b binding = Ok v ->
     asserted b binding /\ mac_verify_bundle (relabel team id b) binding = Ok (mac_verdict (relabel team id b))) /\
  (forall b binding v, ios_verify_bundle b binding = Ok v ->
     asserted b binding /\ ios_verify_bundle (relabel team id b) binding = Ok (ios_verdict (relabel team id b))) /\
  (forall b v, host_guest_verify b = Ok v ->
     host_guest_verify {| hg_version := hg_version b; guest_eat := guest_eat b; hg_host := relabel team id (hg_host b) |} = Ok v).
Proof.
  split; [|split].
  - intros b binding v [Ha _]%mac_Ok. split; [apply Ha|]. apply mac_Ok. split; [by apply relabel_attested|done].
  - intros b binding v Hv. pose proof (ios_decides b binding) as Hd. rewrite Hv in Hd. destruct Hd as [[Ha _] _]. split; [apply Ha|].
    pose proof (ios_decides (relabel team id b) binding) as Hd.
    assert (exists i, hex32_of (app_id_hash (relabel team id b)) i) as Hid.
    { exists (ios_app_id_hash team id). split; [unfold hex_of; cbn [app_id_hash relabel]; by rewrite trim_hex, hex_decode_encode|]. unfold ios_app_id_hash, blen. by rewrite sha256_length. }
    destruct (ios_verify_bundle (relabel team id b) binding) as [w|e| |]; [by destruct Hd as [_ ->]| |done..].
    destruct Hd. split; [by apply relabel_attested|done].
  - intros b v (Hv & cbor & guest & Hh & Hg & Ha & ->)%host_guest_Ok. apply host_guest_Ok. split; [done|]. exists cbor, guest. split_and!; try done. by apply relabel_attested.
Qed.
End NameLemmas.

(** ** Bundles *)
Definition mobile_binding : bytes := replicate 32 x0c.
Definition mobile_digest : bytes := replicate 32 x5a.
Definition android_ext : Extension := {| extn_id := ATTESTATION_OID; critical := false; extn_value := x30 :: mobile_binding ++ lit "org.example" ++ mobile_digest |}.
Definition android_leaf : Certificate := {|
  cert_version := V3; serial_number := [x07]; tbs_signature := ecdsa_sha256; issuer := cn "root"; not_before := 10; not_after := 20; subject := cn "leaf";
  spki_algorithm := ec_spki P256_OID; spki_der := []; subject_public_key := octets [x0a]; has_unique_ids := false; extensions := [android_ext];
  get_basic_constraints := Some None; get_key_usage := Some (Some (true, signing)); get_eku := Some None; get_aki := Some None; get_ski := Some None; tbs_der := [x01];
  signature_algorithm := ecdsa_sha256; cert_signature := octets (x0b :: sha256 (Sha2 := toy_sha2) [x01]) |}.
Definition mobile_x509 : X509 := {|
  cert_from_der := fun b => if bytes_eqb b [x05] then Some android_leaf else if bytes_eqb b [x02] then Some sample_root else None;
  crl_from_der := fun _ => None; aki_from_der := fun _ => None; crl_number_ok := fun _ => false; crl_reason_remove := fun _ => None;
  generalized_time_ok := fun _ => false; pss_from_der := fun _ => None; base64_decode := Some |}.
Definition mobile_encoder : CertEncoder := {| cert_to_der := fun c => Some (if bytes_eqb (serial_number c) [x07] then [x05] else [x02]) |}.
Definition sample_android (chain : list bytes) (name : bytes) : AndroidKeyAttestationBundle := {|
  ab_version := 1; ab_platform := ANDROID_PLATFORM; attestation_chain := chain; ab_binding := hex_encode mobile_binding; package_name := name;
  signing_cert_digest := hex_encode mobile_digest |}.
Definition run_android (b : AndroidKeyAttestationBundle) : res MobileError MobileVerdict :=
  android_verify_bundle (X := mobile_x509) (K := toy_cpu) (H := toy_sha2) (R := toy_tpm_rsa) (CE := mobile_encoder) b mobile_binding.
Example android_runs : is_ok <$> (run_android <$> [sample_android [lit "05"; lit "02"] (lit "org.example"); sample_android [lit "02"; lit "05"] (lit "org.example");
    sample_android [] (lit "org.example"); sample_android [lit "05"] (lit "org.other")]) = [true; false; false; false].
Proof. vm_compute. reflexivity. Qed.
Lemma android_exact_witness :
  run_android (sample_android [lit "05"] (lit "org.example")) = Ok (android_verdict (H := toy_sha2) (sample_android [] (lit "org.example")) mobile_digest) /\
  run_android (sample_android [lit "05"; lit "02"] []) = Panic.
Proof.
  destruct (proj2 (android_exact (X := mobile_x509) (K := toy_cpu) (H := toy_sha2) (R := toy_tpm_rsa) (CE := mobile_encoder)
    (sample_android [lit "05"; lit "02"] (lit "org.example")) mobile_binding)
    (android_verdict (H := toy_sha2) (sample_android [] (lit "org.example")) mobile_digest)) as [(h & rest & Hc & Hv) Hp].
  - vm_compute. reflexivity.
  - injection Hc as <- _. split; [exact Hv|exact Hp].
Defined.

Definition mac_signature : bytes := x0a :: sha256 (Sha2 := toy_sha2) (x01 :: ios_client_data_hash (H := toy_sha2) mobile_binding).
Definition assertion_ciborium : Ciborium := {|
  cbor_read := fun b => Some (VMap [(VText (lit "signature"), VNull); (VInteger 2, VBytes mac_signature); (VBytes [], VNull); (VText (lit "authenticatorData"), VBytes [x01])], 1);
  cbor_write := fun _ => None |}.
Definition sample_assertion : AppAttestBundle := {|
  aa_version := 1; aa_platform := MACOS_APP_ATTEST_PLATFORM; key_id := []; assertion := lit "AA=="; credential_public_key := lit " 0a ";
  app_id_hash := hex_encode (ios_app_id_hash (H := toy_sha2) (lit "TEAM") (lit "org.example")); team_id := lit "TEAM"; bundle_id := lit "org.example";
  aa_binding := hex_encode mobile_binding; client_data_hash := hex_encode (ios_client_data_hash (H := toy_sha2) mobile_binding) |}.
Definition run_mac (b : AppAttestBundle) : res MobileError DesktopVerdict :=
  mac_verify_bundle (X := mobile_x509) (K := toy_cpu) (H := toy_sha2) (CB := assertion_ciborium) b mobile_binding.
Example mac_accepted : run_mac sample_assertion = Ok (mac_verdict sample_assertion).
Proof. vm_compute. reflexivity. Qed.
(** The same assertion for an application of another team. *)
Lemma app_attest_unbound_witness :
  dv_identity_hash <$> run_mac (relabel (H := toy_sha2) (lit "OTHER") (lit "com.bank") sample_assertion)
  = Ok (hex_encode (ios_app_id_hash (H := toy_sha2) (lit "OTHER") (lit "com.bank"))).
Proof.
  destruct (proj1 (app_attest_unbound (X := mobile_x509) (K := toy_cpu) (H := toy_sha2) (CB := assertion_ciborium) (C := sample_codec) toy_sha2_laws
    (lit "OTHER") (lit "com.bank")) sample_assertion mobile_binding (mac_verdict sample_assertion)) as [_ Hv].
  - vm_compute. reflexivity.
  - unfold run_mac. rewrite Hv. reflexivity.
Defined.
