(* ===== verification/RelayAdmit.v ===== *)
(** * RelayAdmit: what a relay admits
    ([src/v2/src/relay.rs], the constructors of [VerifiedRelayTee] and
    [VerifiedDeviceAttestation])

    [Relay] takes the identity of the relay's enclave and of a device as verified.  They are
    verified here: the enclave by the verifier of tokens ([Chain]), the device by the TPM
    verifier ([DesktopTpm]) or by the App Attest verifier ([Mobile]).

    [relay_admission_sound] joins them with [Relay.bootstrap]: what a credential that was
    issued from admitted evidence stands for.  [relay_app_attest_unbound] is its limit: App
    Attest evidence gives credentials for any application identity.

    The text of an error is not modelled: an error keeps the error that it quotes. *)
From S2P Require Import Prelude Bytes Text Crypto Relay Boot Eat Pki Pem NitroQuote NitroTpm DesktopTpm Mobile SnpQuote SnpCollateral TdxCollateral QuoteVerify Azure Verdict Google Attestation Chain.

Inductive AdmissionError : Type :=
| EatDecode (e : EatError)
| NeedsFullBinding
| AdmissionRejected (failed : list Detail)
| VerifierError (e : AttError)
| DesktopTpmError (e : TpmVerifyError)
| AppAttestError (e : MobileError)
| NotVerified (verdict : bytes)
| NeedsIma
| IdentityHash.

(** ** The enclave of a relay *)
Section Tee.
Context `{X : X509} `{K : CpuCrypto} `{H : Sha2} `{D : Kds} `{C : CborValues} `{J : IntelDocs} `{R : DerPrims}.
Context `{L : AzureLibs} `{B : Ciborium} `{Codec : CborCodec} `{G : GoogleHelper} `{GA : GpuAppraiser} `{TF : TokenFormats}.
Context (clock : nat -> option N).
Definition from_eat (eat_cbor : bytes) (verifier : AttestationVerifier) : res AdmissionError VerifiedRelayTee :=
  token ← map_err EatDecode (from_cbor eat_cbor);
  reject_if (negb ((binding_suite token =? 1) || (binding_suite token =? 2))) NeedsFullBinding;;
  verdict ← map_err VerifierError (verify clock verifier token);
  reject_if (negb (valid verdict)) (AdmissionRejected (detail <$> List.filter (fun c => negb (passed c)) (checks verdict)));;
  Ok {| relay_value_x := value_x token |}.
End Tee.

(** ** The device *)
Section Device.
Context `{H : Sha2} `{SG : Ed25519} `{X : X509} `{K : CpuCrypto} `{R : TpmRsa} `{CB : Ciborium}.
Definition attested_device (verdict : DesktopVerdict) (expected_binding : bytes) : res AdmissionError VerifiedDeviceAttestation :=
  value_x ← ok_or (hex_decode (dv_identity_hash verdict)) IdentityHash;
  Ok {| device_platform := dv_platform verdict; device_value_x := value_x; observed_binding := expected_binding |}.
Definition from_desktop_tpm (clk : option N) (bundle : TpmClientBundle) (expected_binding : bytes) (options : TpmVerifierOptions) :
    res AdmissionError VerifiedDeviceAttestation :=
  verdict ← map_err DesktopTpmError (verify_bundle_with_options clk bundle expected_binding options);
  reject_if (negb (bytes_eqb (dv_verdict verdict) (lit "verified"))) (NotVerified (dv_verdict verdict));;
  reject_if (negb (ima_verified verdict)) NeedsIma;;
  attested_device verdict expected_binding.
Definition from_macos_app_attest (bundle : AppAttestBundle) (expected_binding : bytes) : res AdmissionError VerifiedDeviceAttestation :=
  verdict ← map_err AppAttestError (mac_verify_bundle bundle expected_binding);
  reject_if (negb (bytes_eqb (dv_verdict verdict) (lit "verified"))) (NotVerified (dv_verdict verdict));;
  attested_device verdict expected_binding.
End Device.

(** * Lemmas *)
Section Admission.
Context `{X : X509} `{K : CpuCrypto} `{H : Sha2} `{D : Kds} `{C : CborValues} `{J : IntelDocs} `{R : DerPrims}.
Context `{L : AzureLibs} `{B : Ciborium} `{Codec : CborCodec} `{G : GoogleHelper} `{GA : GpuAppraiser} `{TF : TokenFormats}.
Context {CL : CborValueLaws C} {HL : Sha2Laws H} {GL : GpuAppraiserLaws GA} {KL : CborLaws Codec}.
Context `{SG : Ed25519} `{RS : TpmRsa}.
Context (clock : nat -> option N).

(** An enclave that the verifier of the relying party has appraised. *)
Definition admitted_tee (verifier : AttestationVerifier) (cbor : bytes) (tee : VerifiedRelayTee) : Prop := exists token vd prior,
  from_cbor cbor = Ok token /\ (binding_suite token = 1 \/ binding_suite token = 2) /\ verify clock verifier token = Ok vd /\
  context_ok (chain_ok clock) verifier token None prior /\ accepted clock verifier token prior vd /\ relay_value_x tee = value_x token.
Lemma from_eat_safe cbor verifier : safe (from_eat clock cbor verifier) (admitted_tee verifier cbor).
Proof.
  unfold from_eat. eapply safe_seq; [apply safe_map_err, from_cbor_safe|]. intros token Ht%map_err_Ok _.
  apply safe_bind, safe_reject_if. intros Hs%negb_false_iff%orb_true_iff. rewrite !N.eqb_eq in Hs.
  assert (token_typed token) as Hty by (apply from_cbor_Ok in Ht as (_ & Hd & _); by eapply cbor_decode_typed).
  destruct (verify_ok clock verifier token Hty) as (vd & Hv & Hok). rewrite Hv. cbn [map_err]. ok_step.
  apply safe_bind, safe_reject_if. intros Hvalid%negb_false_iff. cbn [safe]. destruct Hok as [[Hf _]|(_ & _ & prior & Hc & Ha)]; [congruence|].
  by exists token, vd, prior.
Qed.
(** A device whose TPM evidence is complete: the binary is measured and its digest is the
    identity. *)
Definition admitted_tpm (clk : option N) (b : TpmClientBundle) (binding : bytes) (o : TpmVerifierOptions) (d : VerifiedDeviceAttestation) : Prop :=
  exists v q build boot, tpm_evidence clk b binding o v q build /\ ima_evidence b q build boot /\
  d = {| device_platform := b_platform b; device_value_x := desktop_build_id_hash build; observed_binding := binding |}.
Lemma from_desktop_tpm_safe clk b binding o : safe (from_desktop_tpm clk b binding o) (admitted_tpm clk b binding o).
Proof.
  unfold from_desktop_tpm, attested_device. eapply safe_seq; [apply safe_map_err, verify_bundle_safe|]. intros v _ (q & build & Hev).
  apply safe_bind, safe_reject_if. intros _. apply safe_bind, safe_reject_if. intros Hima%negb_false_iff.
  destruct (tv_ima _ _ _ _ _ _ _ Hev Hima) as (boot & _ & Hi). destruct (tv_build _ _ _ _ _ _ _ Hev) as (_ & _ & Hid). rewrite Hid, hex_decode_encode. cbn [ok_or]. ok_step.
  cbn [safe]. exists v, q, build, boot. split; [done|]. split; [done|]. by rewrite (proj1 (tv_platform _ _ _ _ _ _ _ Hev)).
Qed.
(** C37: what a credential stands for.  Admitting an enclave or a device never panics.  When a
    relay issues a credential for an admitted enclave and a device admitted by its TPM, then
    the enclave's token was appraised as valid by the relying party's verifier, the device's
    quote, binary and boot are evidenced, the quote is over the binding of this device key,
    this enclave and this challenge, and the credential names the measured build, the
    enclave's Value X and the lifetime that was asked for. *)
Theorem relay_admission_sound cbor verifier clk b o pk c now ttl binding :
  safe (from_eat clock cbor verifier) (fun tee => safe (from_desktop_tpm clk b binding o) (fun device =>
    forall s sk cred s', bootstrap s sk pk device tee c now ttl = (Ok cred, s') ->
      admitted_tee verifier cbor tee /\
      exists v q build boot, tpm_evidence clk b binding o v q build /\ ima_evidence b q build boot /\
        tq_extra q = device_binding pk (relay_value_x tee) c /\
        Relay.value_x cred = desktop_build_id_hash build /\ tee_value_x cred = relay_value_x tee /\
        boot_seen s !! Relay.nonce c = None /\ issuance_ok pk device tee c now ttl cred)).
Proof.
  eapply safe_mono; [apply from_eat_safe|]. intros tee _ Htee. eapply safe_mono; [apply from_desktop_tpm_safe|]. intros device _ Hd s sk cred s' Hb.
  destruct Hd as (v & q & build & boot & Hev & Hi & ->). apply bootstrap_exact in Hb as (Hi' & _ & Hnew & _). split; [done|]. exists v, q, build, boot.
  pose proof Hi' as [Hbind _ _ (_ & _ & Hx & Ht)]. split_and!; try done. rewrite <- Hbind. apply (tv_binding _ _ _ _ _ _ _ Hev).
Qed.
(** The limit of App Attest: an accepted bundle gives a device of any application, and the
    relay issues credentials for it. *)
Theorem relay_app_attest_unbound b binding d team id : from_macos_app_attest b binding = Ok d ->
  from_macos_app_attest (relabel team id b) binding =
    Ok {| device_platform := MACOS_APP_ATTEST_PLATFORM; device_value_x := ios_app_id_hash team id; observed_binding := binding |}.
Proof.
  unfold from_macos_app_attest, attested_device. destruct (mac_verify_bundle b binding) as [v|e| |] eqn:E; [|done..]. intros _.
  apply mac_Ok in E as [Ha _]. rewrite (proj2 (mac_Ok (relabel team id b) binding (mac_verdict (relabel team id b)))) by (split; [by apply relabel_attested|done]).
  cbn [map_err]. ok_step. rewrite reject_if_false by reflexivity. ok_step. cbn [mac_verdict dv_identity_hash relabel app_id_hash]. rewrite hex_decode_encode. done.
Qed.
End Admission.

(** ** A relay in an Azure guest and a measured client *)
Definition relay_hash : bytes -> bytes := sha256 (Sha2 := azure_sha2).
Definition client_cert (key tbs : byte) : Certificate := {|
  cert_version := V3; serial_number := [tbs]; tbs_signature := ecdsa_sha256; issuer := cn "maker"; not_before := 10; not_after := 20; subject := cn "client";
  spki_algorithm := ec_spki P256_OID; spki_der := []; subject_public_key := octets [key]; has_unique_ids := false; extensions := [];
  get_basic_constraints := Some None; get_key_usage := Some None; get_eku := Some None; get_aki := Some None; get_ski := Some None; tbs_der := [tbs];
  signature_algorithm := ecdsa_sha256; cert_signature := octets (x0b :: relay_hash [tbs]) |}.
Definition relay_x509 : X509 := {|
  cert_from_der := fun b => if bytes_eqb b [x21] then Some (client_cert x0a x21) else if bytes_eqb b [x22] then Some (client_cert x0b x22) else cert_from_der (X509 := amd_x509) b;
  crl_from_der := crl_from_der (X509 := amd_x509); aki_from_der := aki_from_der (X509 := amd_x509); crl_number_ok := crl_number_ok (X509 := amd_x509);
  crl_reason_remove := crl_reason_remove (X509 := amd_x509); generalized_time_ok := generalized_time_ok (X509 := amd_x509); pss_from_der := pss_from_der (X509 := amd_x509);
  base64_decode := base64_decode (X509 := amd_x509) |}.
Definition relay_codec : CborCodec := {|
  cbor_encode t := None;
  cbor_decode b := match b with x01 :: _ => Some (build_token, 1) | x02 :: _ => Some (deployed_token, 1) | _ => None end |}.
Lemma relay_codec_laws : CborLaws relay_codec.
Proof.
  split; [done|]. intros b t n. cbn. destruct b as [|c b]; [done|]. destruct c; try done; intros [= <- <-].
  - split; [apply build_token_typed|]. rewrite blen_cons. lia.
  - split; [apply deployed_token_typed|]. rewrite blen_cons. lia.
Qed.
Definition relay_challenge : RelayChallenge := sample_challenge x01.
Definition client_binding : bytes := device_binding (H := azure_sha2) sample_pk (value_x deployed_token) relay_challenge.
Definition client_template : bytes := relay_hash (ima_template tpm_build (lit "/usr/bin/agent")).
Definition client_pcr (i : N) : bytes := if i =? 10 then relay_hash (replicate 32 x00 ++ client_template) else replicate 32 (byte_of i).
Definition client_quote : bytes := sized (encode_quote {|
  tq_signer := []; tq_extra := client_binding; tq_clock := replicate 25 x00; tq_selections := [(TPM_ALG_SHA256, [xff; x07; x00])];
  tq_digest := relay_hash (mjoin (client_pcr <$> TEN ++ [10])) |}).
Definition client_token (s : bytes) : TpmActivationToken := {|
  tok_version := 1; tok_exp := 100; tok_nonce := []; tok_binding := hex_encode client_binding; tok_ek_cert_sha256 := hex_encode (relay_hash [x21]);
  tok_ak_cert_sha256 := hex_encode (relay_hash [x21]); tok_ak_name := lit "000b"; tok_secret_sha256 := hex_encode (relay_hash [x77]);
  tok_issuer_pubkey := hex_encode (N_to_le 32 5); tok_sig := s |}.
Definition client_bundle : TpmClientBundle := {|
  b_version := 1; b_platform := LINUX_TPM_PLATFORM; b_binding := hex_encode client_binding; b_build_digest := hex_encode tpm_build;
  b_ak_cert := lit "21"; b_ek_cert := lit "21"; b_ek_ca_chain := [lit "22"]; b_ak_name := lit "000b";
  b_credential_activation := Some {|
    token := client_token (hex_encode (ed_sign (Ed25519 := toy_ed25519) (5 : SigningKey (Ed25519 := toy_ed25519)) (signed_bytes (client_token []))));
    secret := lit "77" |};
  b_quote_msg := hex_encode client_quote;
  b_quote_sig := hex_encode (N_to_be 2 TPM_ALG_ECDSA ++ N_to_be 2 TPM_ALG_SHA256 ++
    sized (take 32 (x0a :: take 8 (relay_hash client_quote) ++ replicate 32 x00)) ++ sized (replicate 32 x00));
  b_qualifying_data := hex_encode client_binding; b_pcr_bank := lit "SHA256";
  b_pcrs := (fun i => {| pv_index := i; pv_value := hex_encode (client_pcr i) |}) <$> TEN ++ [10];
  b_ima_log := lit "10 " ++ hex_encode client_template ++ lit " ima-ng sha256:" ++ hex_encode tpm_build ++ lit " /usr/bin/agent" ++ [x0a] |}.
Definition client_options : TpmVerifierOptions := {| ek_root_sha256 := [hex_encode (relay_hash [x22])]; activation_pubkeys := [N_to_le 32 5]; opt_now := Some 50 |}.
Section Sample.
#[local] Existing Instances relay_x509 amd_cpu azure_sha2 no_kds sample_cbor no_docs toy_der chain_azure_libs sample_ciborium relay_codec
  no_google no_gpu any_formats sample_cbor_laws azure_sha2_laws no_gpu_laws relay_codec_laws toy_ed25519 toy_tpm_rsa.
Definition relay_tee : res AdmissionError VerifiedRelayTee := from_eat sample_clock [x02] (deployed_verifier (Some chain_policy)).
Definition client_device : res AdmissionError VerifiedDeviceAttestation := from_desktop_tpm None client_bundle client_binding client_options.
Definition no_boots : BootstrapReplayStore := {| boot_seen := ∅ |}.
Definition relay_key : SigningKey (Ed25519 := toy_ed25519) := (7 : N).
Definition relay_issue (tee : VerifiedRelayTee) (device : VerifiedDeviceAttestation) : res RelayError RelayCredential * BootstrapReplayStore :=
  bootstrap (H := azure_sha2) no_boots relay_key sample_pk device tee relay_challenge 20 30.
Definition issued_by (tee : res AdmissionError VerifiedRelayTee) (device : res AdmissionError VerifiedDeviceAttestation) : option RelayCredential :=
  match tee, device with
  | Ok tee, Ok device => if fst (relay_issue tee device) is Ok cred then Some cred else None
  | _, _ => None
  end.
Example relay_runs : Relay.value_x <$> issued_by relay_tee client_device = Some (desktop_build_id_hash tpm_build).
Proof. vm_compute. reflexivity. Qed.
Lemma relay_admission_sound_witness : exists tee device cred s', relay_issue tee device = (Ok cred, s') /\
  admitted_tee sample_clock (deployed_verifier (Some chain_policy)) [x02] tee /\ Relay.value_x cred = desktop_build_id_hash tpm_build.
Proof.
  pose proof (relay_admission_sound sample_clock [x02] (deployed_verifier (Some chain_policy)) None client_bundle client_options sample_pk relay_challenge 20 30 client_binding) as Hs.
  pose proof relay_runs as Hr. unfold issued_by, relay_tee, client_device in Hr.
  destruct (from_eat sample_clock [x02] (deployed_verifier (Some chain_policy))) as [tee| | |]; [|discriminate Hr..].
  destruct (from_desktop_tpm None client_bundle client_binding client_options) as [device| | |]; [|discriminate Hr..]. cbn [safe] in Hs.
  exists tee, device. destruct (relay_issue tee device) as [[cred| | |] s'] eqn:E; [|discriminate Hr..].
  exists cred, s'. split; [reflexivity|]. destruct (Hs _ _ _ _ E) as [Ht _]. split; [exact Ht|]. injection Hr as Hr. exact Hr.
Defined.
End Sample.
