(* ===== verification/Tiers.v ===== *)
(** * Tiers: names for what a platform label stands for
    ([src/v2/src/tiers.rs])

    [assurance_tier] maps the label of a verified platform to a tier and a detail.  The label
    is normalised first: surrounding white space, case and underscores do not matter
    ([tier_normalised]); the strongest tier is given to five labels and to no others
    ([silicon_labels]). *)
From S2P Require Import Prelude Bytes Text.

Definition TIER_SILICON_CVM : bytes := lit "silicon-cvm".
Definition TIER_DEVICE_ATTESTED : bytes := lit "device-attested".
Definition TIER_RELAY_INHERITED : bytes := lit "relay-inherited".
Definition TIER_SOFTWARE_WITNESS : bytes := lit "software-witness".
Definition one_of (p : bytes) (names : list string) : bool := existsb (fun n => bytes_eqb p (lit n)) names.
(** [platform.trim().to_ascii_lowercase().replace('_', "-")] *)
Definition label (platform : bytes) : bytes := (fun c => if Byte.eqb c x5f then x2d else c) <$> to_ascii_lowercase (str_trim platform).
Definition SILICON : list string := ["sev-snp"; "tdx"; "nitro"; "aws-nitro"; "azure-sev-snp-vtpm"]%string.
Definition assurance_tier (platform : bytes) (ima_verified : bool) : bytes * bytes :=
  let p := label platform in
  if one_of p SILICON then (TIER_SILICON_CVM, p)
  else if one_of p ["linux-tpm-client"; "windows-tpm-client"]%string then
    (TIER_DEVICE_ATTESTED, if ima_verified then lit "tpm-ima" else lit "tpm-channel-bound")
  else if one_of p ["macos-app-attest"; "ios-app-attest"; "android-key-attestation"]%string then (TIER_DEVICE_ATTESTED, lit "app-attest")
  else if one_of p ["macos-host-attested-guest"]%string then (TIER_DEVICE_ATTESTED, lit "host-attested-guest")
  else if starts_with (lit "relay") p then (TIER_RELAY_INHERITED, lit "relay")
  else (TIER_SOFTWARE_WITNESS, p).

(** * Lemmas *)
Lemma tier_normalised p q i : label p = label q -> assurance_tier p i = assurance_tier q i.
Proof. unfold assurance_tier. by intros ->. Qed.
Lemma one_of_spec p names : one_of p names = true <-> exists n, n ∈ names /\ p = lit n.
Proof.
  unfold one_of. rewrite existsb_exists. setoid_rewrite bytes_eqb_eq. setoid_rewrite <- list_elem_of_In. done.
Qed.
Lemma silicon_labels p i : (assurance_tier p i).1 = TIER_SILICON_CVM <-> exists n, n ∈ SILICON /\ label p = lit n.
Proof.
  rewrite <- one_of_spec. unfold assurance_tier. cbv zeta. destruct (one_of (label p) SILICON); [done|]. split; [|done]. by repeat case_match.
Qed.
(** Only the TPM labels read the measurement flag. *)
Lemma ima_refines p : (assurance_tier p true).1 = (assurance_tier p false).1 /\
  (assurance_tier p true <> assurance_tier p false -> one_of (label p) ["linux-tpm-client"; "windows-tpm-client"]%string = true).
Proof. unfold assurance_tier. cbv zeta. by repeat case_match. Qed.
Example tiers : (fun s => (assurance_tier (lit s) false).1) <$> [" SEV_SNP "; "linux-tpm-client"; "relay-inherited"; "Nitro2"]%string =
  [TIER_SILICON_CVM; TIER_DEVICE_ATTESTED; TIER_RELAY_INHERITED; TIER_SOFTWARE_WITNESS].
Proof. vm_compute. reflexivity. Qed.
