(* ===== verification/AttestedTls.v ===== *)
(** * AttestedTls: evidence in a certificate
    ([src/v2/src/net/attested_tls.rs], the reader)

    A self-signed certificate carries a token in an extension; the verifier takes it out and
    compares the hash of the certificate's key with the one in the token.  The reader is
    bounded and refuses a second extension of the same name ([extract_eat_decides]).  The
    older wrapper, an OCTET STRING, is taken off; a token is a CBOR map or tag, whose first
    byte is never that of an OCTET STRING ([token_not_wrapped]).

    Key generation and the writer are calls of a crate and not modelled. *)
From S2P Require Import Prelude Bytes Text Crypto Pki Ct.

Definition CMW_OID : bytes := lit "2.23.133.5.4.9".
Definition MAX_ATTESTED_EVIDENCE_BYTES : N := 32 * 1024 * 1024.
Definition MAX_ATTESTED_CERT_BYTES : N := MAX_ATTESTED_EVIDENCE_BYTES + 64 * 1024.
Inductive TlsError : Type := TlsMsg (m : string).
Notation tls_need := (fun c m => ensure (E := TlsError) c (TlsMsg m)).
Section Tls.
Context `{X : X509} `{K : CpuCrypto} `{H : Sha2} `{CF : CtFormats}.
Definition is_evidence (e : Extension) : bool := bytes_eqb (extn_id e) CMW_OID.
Definition extract_eat_from_cert (cert_der : bytes) : res TlsError (option bytes) :=
  tls_need (blen cert_der <=? MAX_ATTESTED_CERT_BYTES) "attested certificate exceeds size limit";;
  cert ← ok_or (cert_from_der cert_der) (TlsMsg "x509 decode");
  match List.filter is_evidence (extensions cert) with
  | [] => Ok None
  | ext :: more =>
    tls_need (match more with [] => true | _ => false end) "duplicate attestation extensions are ambiguous";;
    let inner := extn_value ext in
    tls_need (negb (blen inner =? 0) && (blen inner <=? MAX_ATTESTED_EVIDENCE_BYTES)) "attestation extension size outside limit";;
    match ct_octet_string inner with
    | Some outer => tls_need (negb (blen outer =? 0)) "empty wrapped attestation extension";; Ok (Some outer)
    | None => Ok (Some inner)
    end
  end.
Definition spki_hash_of_cert (cert_der : bytes) : res TlsError bytes :=
  tls_need (blen cert_der <=? MAX_ATTESTED_CERT_BYTES) "attested certificate exceeds size limit";;
  cert ← ok_or (cert_from_der cert_der) (TlsMsg "x509 decode");
  Ok (sha256 (spki_der cert)).

(** * Lemmas *)
(** The evidence of a certificate: none, or that of its only extension. *)
Definition evidence_of (cert : Certificate) (e : option bytes) : Prop :=
  match List.filter is_evidence (extensions cert) with
  | [] => e = None
  | [ext] => exists b, e = Some b /\ b <> [] /\ 1 <= blen (extn_value ext) <= MAX_ATTESTED_EVIDENCE_BYTES /\ b = default (extn_value ext) (ct_octet_string (extn_value ext))
  | _ => False
  end.
Lemma extract_eat_decides der : decides (extract_eat_from_cert der)
  (blen der <= MAX_ATTESTED_CERT_BYTES /\ exists cert e, cert_from_der der = Some cert /\ evidence_of cert e)
  (fun e => exists cert, cert_from_der der = Some cert /\ evidence_of cert e).
Proof.
  unfold extract_eat_from_cert. destruct (N.leb_spec (blen der) MAX_ATTESTED_CERT_BYTES) as [Hl|Hl]; cbn [ensure]; [ok_step|intros [? _]; lia].
  destruct (cert_from_der der) as [cert|]; cbn [ok_or]; [ok_step|by intros (_ & ? & ? & ? & _)].
  assert (forall e, evidence_of cert e -> (blen der <= MAX_ATTESTED_CERT_BYTES /\ exists cert' e', Some cert = Some cert' /\ evidence_of cert' e') /\
    (exists cert', Some cert = Some cert' /\ evidence_of cert' e)) as Hgood by (intros e He; split; [split|]; eauto).
  assert ((forall e, ~ evidence_of cert e) -> ~ (blen der <= MAX_ATTESTED_CERT_BYTES /\ exists cert' e', Some cert = Some cert' /\ evidence_of cert' e')) as Hbad.
  { intros Hno (_ & c & e & [= <-] & He). by apply Hno in He. }
  unfold evidence_of in *. destruct (List.filter is_evidence (extensions cert)) as [|ext [|ext' more]]; [by apply Hgood| |apply Hbad; by intros e He]. cbn [ensure]. ok_step.
  destruct (N.eqb_spec (blen (extn_value ext)) 0) as [H0|H0]; cbn [negb andb ensure]; [apply Hbad; intros e (b & _ & _ & ? & _); lia|].
  destruct (N.leb_spec (blen (extn_value ext)) MAX_ATTESTED_EVIDENCE_BYTES) as [Hm|Hm]; cbn [ensure]; [ok_step|apply Hbad; intros e (b & _ & _ & ? & _); lia].
  destruct (ct_octet_string (extn_value ext)) as [outer|].
  - destruct (N.eqb_spec (blen outer) 0) as [Hz|Hz]; cbn [negb ensure].
    + apply Hbad. intros e (b & _ & Hne & _ & ->). cbn in Hne. by apply blen_0 in Hz.
    + ok_step. apply Hgood. exists outer. split_and!; [done|intros ->; by rewrite blen_nil in Hz|lia|lia|done].
  - apply Hgood. exists (extn_value ext). split_and!; [done|intros Hn; by rewrite Hn, blen_nil in H0|lia|lia|done].
Qed.
(** A DER OCTET STRING starts with its tag. *)
Definition OctetStringLaw : Prop := forall b o, ct_octet_string b = Some o -> head b = Some x04.
(** The major types of a token's first byte: a map or a tag. *)
Lemma token_not_wrapped (L : OctetStringLaw) b c : head b = Some c -> 0xa0 <= byte_N c -> ct_octet_string b = None.
Proof.
  intros Hc Hb. destruct (ct_octet_string b) as [o|] eqn:E; [|done]. apply L in E. rewrite E in Hc. injection Hc as <-. change (byte_N x04) with 4 in Hb. lia.
Qed.
End Tls.
